(* ===== verification/_CoqProject ===== *)
-Q . S2P
Prelude.v
AbGroup.v
PrimeP.v
Fp.v
Edwards.v
Fe.v
FeBytes.v
FePow.v
Ge.v
GeBytes.v
BaseTable.v
ScalarMult.v
Slide.v
VarTime.v
Keccak.v
Sc.v
Errors.v
Int128.v
Transpose.v
Gf2x.v
Gf.v
GfField.v
SimplestOt.v
Bitset.v
BitsetOps.v
BitsetQuery.v
BitsetText.v
BitsetSpec.v
PortableOt.v
Cipher.v
Mersenne.v
Prg.v
CrHash.v
OtStore.v
OtExt.v
Ge2n.v
Fss.v
TermLevel.v
Dpf.v
Dcf.v
Pprf.v
IknpOte.v
KosOte.v
Strings.v
StringsSpec.v
SegTree.v
Link.v
Retry.v
Channel.v
Chunks.v
ChannelNet.v
Parties.v
Context.v
Collectives.v
OtKernel.v
Duo.v
SsExecutor.v
ChosenOt.v
Shares.v
Triples.v
MpcProgram.v
Roles.v
Gywz.v
LinearCode.v
MpCot.v
Ferret.v
FerretKernel.v
Correctness.v
Containers.v
GaloisCorrect.v
ExtensionCorrect.v
FssCorrect.v
ChannelCorrect.v
PartiesCorrect.v
FerretCorrect.v
