(* ===== verification/Prelude.v ===== *)
(** * Oblivious transfer, the link layer and two-party computation of yacl, verified

    yacl is a C and C++ cryptography library.  This development verifies the
    stack its oblivious transfer is built on, bottom to top, and the channels its
    parties talk through:

    - the base transfer: the "simplest OT" of Chou and Orlandi in
      [src/yacl/ot/simplest_ot_portable/] (C), driven by
      [src/yacl/ot/portable_ot_interface.cc], down to the machine arithmetic of
      the curve, the scalars and the hash;
    - the containers and the algebra above it: the dynamic bitset of
      [src/yacl/utils/dynamic_bitset.h], the bit-matrix transpositions of
      [src/yacl/utils/matrix_utils.cc], the binary fields of
      [src/yacl/math/galois_field/gf_intrinsic.cc];
    - the symmetric tools: pseudorandom fill and generators
      ([src/yacl/theoretical_tools/prg.h], [prg.cc]), the correlation-robust hash
      ([crhash.cc]), over the cipher wrapper of [src/yacl/block_cipher/];
    - the stores of transfers ([src/yacl/ot/ot_store.cc], [slice_base.cc],
      [ot_store_utils.cc]) and the extensions that consume base transfers and
      produce many more: IKNP ([iknp_ote.cc]), KOS ([kos_ote.cc]) and Ferret
      ([ferret_ote.cc], [ferret_ote_rn.h]) with its single-point transfers
      ([gywz_ote.cc]) and its code ([src/yacl/coding/linear/local_linear_code.h]);
    - beside them, function secret sharing on the same generators:
      [src/yacl/dpf/] (point function, comparison function, puncturable function);
    - the link layer: channels with numbered messages, acks, chunks, a throttle
      window and an orderly close ([src/yacl/link/transport/channel.cc]), the link
      over sockets ([asio_link.cc]), and what they use of [src/yacl/utils/];
    - contexts over the channels and the collective operations of any number of
      parties ([src/yacl/link/context.cc], [link/algorithm/]);
    - computation of two parties on shared values over their contexts
      ([src/yacl/mpc/ss_executor.cc], [ot_kernel.cc]).

    ** The program and the files of the development

    A base transfer is two messages.  [Send] calls [portable_sender_genS]: a secret
    scalar y, the point S = yB, its 32 bytes.  [Recv] decodes S
    ([portable_receiver_procS_check]) and, for every choice bit, draws x and sends
    R = xB or 8S - xB ([portable_receiver_rsgen]), keeping one key
    ([portable_receiver_keygen]).  [Send] then decodes every R and derives two keys
    ([portable_sender_keygen_check]).  Keys are hashed with the index into blocks.

    An extension starts from 128 transfers in the other direction.  Its receiver
    expands both keys of each into a column with the generator, masks the columns
    with its choices and sends them; its sender expands the keys it has, adds the
    messages where its base choice is 1, and both transpose the columns into rows,
    which are their outputs, hashed unless correlated outputs are wanted.  KOS adds
    a linear check of the columns over GF(2^64) under coefficients both derive from
    one seed.  Keys and outputs live in stores: windows on shared buffers.

    Ferret starts from some thousands of compact transfers.  For every bin of a
    vector the sender evaluates a tree of seeds and the receiver the same tree but for
    one leaf, where its value differs by the common difference; a sparse random code
    adds sums of the seed transfers to all positions.  Most of the vector is output, the
    rest starts the next batch.

    Function secret sharing cuts a function with one special point into two keys.
    Each party walks a binary tree of seeds; a word per level corrects the nodes so
    that off the special path both parties hold the same seed, and their outputs
    cancel.

    A channel numbers the messages it sends and puts them in a queue; a thread takes
    them out, gives each to a thread of its own, and waits while too many are not
    acked.  A message larger than a request goes in chunks.  The peer's channel drops
    numbers it has seen, keeps values by key until [Recv] takes them, and acks those
    taken.  To close, a channel acks what is unread, sends its count, and waits for
    the peer's count, for that many messages and for its own acks.

    A context names every message by its counters: one for the calls that all parties
    make together, one for every ordered pair; the child of a context has a name of
    its own and starts again.  A collective operation is the same call of every
    party, sends and receives under one name.  The executor of two parties keeps
    queues of triples; it makes them, and converts bits to sums, by transfers of
    chosen messages over a child context, which come from random transfers, which the
    kernel hashes from correlated ones.

    Shared:
    - [Prelude.v]: machine integers, an interval engine for straight-line code,
      bytes, arrays;
    - [Errors.v], [Int128.v]: exceptions as [option], 128-bit numbers.

    The base transfer:
    - [AbGroup.v]: abelian groups as a class, multiples;
    - [PrimeP.v], [Fp.v]: 2^255 - 19 is prime, by Pocklington's criterion; its field;
    - [Edwards.v]: the twisted Edwards curve, its complete addition, the group of
      its points (an instance of [AbGroup]);
    - [Fe.v], [FeBytes.v], [FePow.v]: field elements of ten limbs ([fe_*.c],
      [verify.c], [pow225521.h], [pow22523.h]);
    - [Ge.v], [GeBytes.v]: points in the five coordinate systems ([ge_*.c],
      [ge_*.h]), compression and decompression;
    - [BaseTable.v]: [base.h] and [base2.h], and the proof that their entries are
      the multiples they are said to be;
    - [ScalarMult.v]: [ge_scalarmult_base.c];
    - [Slide.v], [VarTime.v]: [ge_double_scalarmult.c];
    - [Keccak.v]: [Keccak-simple.c], against a specification of the sponge;
    - [Sc.v]: [sc_reduce.c] and [sc_muladd.c];
    - [SimplestOt.v]: [sc_random.c], [ge_hash] of [ge.c], [ot_sender.c],
      [ot_receiver.c], and the protocol over an abstract group;
    - [PortableOt.v]: [portable_ot_interface.cc] and the part of
      [theoretical_tools/ro.h] it calls.

    Containers and algebra:
    - [Bitset.v], [BitsetOps.v], [BitsetQuery.v], [BitsetText.v]: the bitset, its
      updates, searches and comparisons, strings; [BitsetSpec.v]: lists of
      booleans as its specification;
    - [Transpose.v]: the transpositions of 128 x 128 and of 128 x 1024 bits;
    - [Gf2x.v]: carry-less polynomials; [Gf.v], [GfField.v]: GF(2^64) and
      GF(2^128), the code and the field laws.

    Symmetric tools:
    - [Cipher.v]: [block_cipher.cc] over an abstract cipher (class [Cipher], laws
      [CipherLaws]), [FillPRand];
    - [Mersenne.v]: reduction modulo Mersenne primes ([prg.h]);
    - [Prg.v]: the buffered generator, over an interface of its cache
      ([cipher_data], laws [BudgetLaws]) with the instances for blocks and bits;
    - [CrHash.v]: [rp.cc] and [crhash.cc].

    Extensions:
    - [OtStore.v]: slices and stores over a heap of shared buffers, and what a store
      means, as a list of transfers;
    - [OtExt.v]: what the extensions share: the link, loops over batches, the
      stores they return; [IknpOte.v], [KosOte.v]: the two protocols.

    Function secret sharing:
    - [Ge2n.v]: [ge2n.h], integers modulo 2^n and their residues as a setoid;
    - [Fss.v]: trees of seeds and their words of correction, for any expansion;
    - [TermLevel.v]: [GetTerminateLevel] of [dpf.cc], over the real logarithm;
    - [Dpf.v], [Dcf.v], [Pprf.v]: [dpf.cc], [dcf.cc], [pprf.cc].

    The link layer:
    - [Strings.v]: [utils/strings.cc] and what it uses of the standard library;
      [StringsSpec.v]: splitting, joining, numbers and hexadecimal;
    - [SegTree.v]: [utils/segment_tree.h], the sets of sequence numbers;
    - [Link.v]: the interface of a link (class [TransportLink], its promises
      [TransportLinkLaws]) and the link over sockets as an instance, over an encoding
      with promises of its own ([Msgpack], [MsgpackLaws]);
    - [Retry.v]: [SendRequestWithRetry];
    - [Channel.v]: the state and every operation of a channel, on any link;
      [Chunks.v]: its keys, and messages in chunks;
    - [ChannelNet.v]: two channels as a step relation, and the invariant of the pair.

    Contexts and two-party computation:
    - [Parties.v]: programs of parties over keyed messages (the monad [prog]), their
      interleavings as a step relation, and when every run ends with the same
      results; protocols made of rounds of messages;
    - [Context.v]: [context.cc] and the collective operations;
      [Collectives.v]: what they give, the last two as trees and rings;
    - [Duo.v]: conversations of two contexts, which compose because names are new;
    - [OtKernel.v]: the random transfers of [ot_kernel.cc], over an interface of the
      correlated ones ([CotKernel]); its promises [CotKernelLaws] are in [ChosenOt.v];
    - [Roles.v]: conversations by role, for protocols either rank may lead;
      [Gywz.v]: the trees and calls of [gywz_ote.cc]; [LinearCode.v]:
      [local_linear_code.h]; [MpCot.v]: [ferret_ote_rn.h]; [Ferret.v]:
      [ferret_ote.cc]; [FerretKernel.v]: the kernel that runs Ferret over the
      transfers of another kernel ([BaseKernelLaws]), an instance of [CotKernel] that
      keeps the promise [CotKernelLawsAt] at the numbers it is defined for;
    - [SsExecutor.v]: [ss_executor.cc]; [ChosenOt.v], [Shares.v], [Triples.v]: its
      transfers, its calls on shares, its triples and conversions;
      [MpcProgram.v]: sequences of calls, against the same on plain words.

    The properties, each with an instance, are in [Correctness.v] (C1 to C9),
    [Containers.v] (C10 to C12), [GaloisCorrect.v] (C13, C14), [ExtensionCorrect.v]
    (C15 to C21), [FssCorrect.v] (C22 to C24), [ChannelCorrect.v] (C25 to C32),
    [PartiesCorrect.v] (C33 to C36) and [FerretCorrect.v] (C37 to C40).

    ** How state and operations correspond to the code

    A C function that writes through a pointer is a function that returns what
    it wrote; arguments and results keep their order, and a variable assigned
    several times is a [let] of the same name each time.  A buffer updated in place
    ([upd]) is passed in and out.  Uninitialised locals the code only partly
    overwrites are arguments, so the theorems hold for any of their values.  An
    integer of w bits is a [Z] with its wrap-around at every operation ([+i] and
    the like on 32 bits, [+l] on 64, [u8] on a byte); the shift of a negative
    number is the arithmetic one and a conversion to a narrower type keeps the low
    bits, as gcc and clang do.  SSE registers are their 128-bit value, the
    intrinsics their documented effect on it.  Randomness is an argument.  A return
    code is a pair, an exception or [exit(-1)] is [None] ([YACL_ENFORCE]).

    A [dynamic_bitset] is a record of its blocks and its number of bits, for any
    block width; an operation with asserts gives an option, [None] when one fires,
    evaluated as written: the last position of a range is a [size_t] that wraps.  What
    the standard library leaves undefined, a span past the end of another or a copy past
    the end of a vector, is [None] too, also where the result would not be used.  A shared
    pointer to a buffer is an index into a [heap], so that two slices of a store
    read each other's writes.  The link of an extension is the list of its tagged
    messages in flight: sending appends, receiving takes the first one of the tag.
    A protocol round is one function from the messages received to those sent.

    An operation of a channel is a function from its state to an outcome and a state.
    A critical section is one step; waiting on a condition that does not hold is the
    outcome [Wait]; the threads that send are the list [tasks] of their messages.  The
    pair of channels moves by [net_step]: a call of the user, a step of the send
    thread, a request of any task of the peer (any number of times, at any time), a
    reassembled message, the end of a task, a step of the close.

    Above the channels a party is a [prog]: it is done, sends a value under a key, or
    receives under a key; an exception is [Fail].  Runs interleave the parties' steps
    in any order; what the channel promises (C30) is taken as the rule of the mail: a
    receive gets what was sent under its key.  A child that shares the statistics of
    its parent gives them back when it is done.

    Loops are structural recursions or folds over their index range; where a
    recursion has a fuel argument ([window] 6, [carry_up] 256 - (i + b),
    [vartime_loop] the index of the top digit, [absorb] the length of the message,
    [batch_loop] one more than the number of blocks, [mersenne_fold] the rounds
    [mersenne_rounds], the trees their height, searches in a bitset the number of its
    blocks) it is a bound
    on the turns the loop can make, and the functional theorems show it suffices.

    ** What the theorems show

    - The transfer (C1 to C3): a run of both parties gives the receiver exactly
      the chosen block of every pair; against an arbitrary peer each party fails
      exactly on malformed messages and otherwise computes the abstract protocol.
    - Multiplication by scalars (C4, C5): the three routines compute multiples
      in the group for all scalars below 2^255; the tables are right; the recodings
      keep the value; scalars have their ranges and are reduced modulo the order.
    - The group (C6), the encodings of points and field elements (C7), the field (C8):
      every formula is addition, without exceptional cases; decompression decides;
      encodings are canonical and read back; no overflow.  The hash (C9) is the Keccak
      sponge.
    - The bitset (C10 to C12) refines a list of booleans, for ranges that end below
      2^64 (a range that wraps gets past its assert); queries answer for the bits
      where their asserts hold, the order is that of the numbers; searches end and find;
      strings read back.
    - The fields (C13, C14): products, inverses and hashes are those of polynomials
      modulo the field's polynomial; errors are decided.
    - The tools of the extensions: transposition (C15), stores (C16: slicing
      refines cutting a list of transfers, access, and the operations that always
      throw), hashes and the generator as a stream (C17; the vector of a parallel hash is cut to
      its length modulo 2^32), Mersenne primes (C18).
    - The extensions: honest parties finish and their outputs correspond (C19, C20);
      the check of KOS is over the sums the parties compute, accepts the honest message
      and exactly those that satisfy its equation (C21).
    - Function secret sharing (C22 to C24): the shares add up to the function at
      every point, full evaluation is evaluation at every point, the punctured key
      evaluates everywhere but at its point.
    - The link layer: strings read back (C25), the segment tree is a set (C26), the
      link over sockets keeps its promises (C27), retries end (C28), chunks in any
      order make the message (C29); and of every run of two channels: what is
      received was sent, at most once (C30), a throttled send returns when fewer than the
      window of the messages sent before are unread (C31),
      and a close loses nothing (C32).
    - Contexts: every run of a collective operation ends and gives what it is for
      (C33); nobody leaves a barrier before all are there (C34).
    - Two parties: transfers give the chosen messages (C35); whatever sequence of
      calls the executors make, they end, and open what the same operations give on
      plain words (C36).
    - Ferret: the two trees agree but at one point (C37), the code adds sums of valid
      positions (C38), the batches end with correlated transfers (C39), and the kernel
      that runs it keeps the promises the executors rely on (C40).  All of it is for
      trees with room for their last level: [gywz_ote.cc] makes a span of both halves of
      a level even where it then keeps one apart, so that a bin that is no power of two,
      evaluated in its own positions, is undefined.  Such is the last bin for many
      numbers of transfers, the 2560 that the executors pad to among them; C37, C39 and
      C40 say so, and are for the others.

    The representation predicates are the invariants: [bounded k f] bounds the
    limbs of a field element, [rep_p2], [rep_p3], [rep_p1p1], [rep_cached] and
    [rep_precomp] say which point a structure denotes and bound its limbs,
    [sender_rep] and [receiver_chosen] say what the records of the parties hold;
    [wf] says that a bitset has the blocks it needs and no bits set beyond its
    size, [recv_ok] and [send_ok] that a store's window lies within its buffer,
    [prg_ok] that a generator's cache is as long as it claims, [correlated] that
    the two sides of a list of transfers agree, [tree_ok] that segments are apart,
    [chunk_inv] which bytes of a message have come, [node_inv] what a channel's state
    owes to what its peer has done, [run_inv] what is left of a run and what is in the
    mail, [stands] which names a context has used, [duo] and [together] that two
    executors hold shares of the plain values and triples that fit.

    ** Not modelled, and why

    Third-party code is a parameter: BLAKE3 behind the random oracle (C1 to C3
    hold for every function), the ciphers of OpenSSL (any functions satisfying the
    documented lengths and the independence of blocks in ECB mode), the
    serialisation of the KOS seed (any pair that reads back), the encoding of link
    messages (any that reads back).  The extensions and the base transfer run over a
    list of messages, not over the channels; contexts and what is above run over the
    mail of [Parties.v].  The kernel of [ot_kernel.cc] is any that keeps the
    promises of [CotKernelLaws]; the one with Ferret keeps them at the numbers of
    [kernel_fits], given one that keeps [BaseKernelLaws], which say what SoftSpoken is
    for: SoftSpoken itself is not modelled.  The executors start a kernel with Ferret; C35 and C36 ask for the
    promises at every number from 2560 on, so for that kernel they say what the code
    means to do where the span past the end is made without a check and not used, as
    common builds of the standard library do.  The check of Ferret against malicious parties is modelled, but C39 is for
    calls without it; its serialisation ([Codec]) is any pair that reads back, its hash
    any function.  Calls of Ferret throw for uniform noise, so [ferret_ote_un.h] is
    never reached.  Of the channels, sockets, TLS and
    times are not modelled (a wait is told whether it has timed out), nor the window
    that bounds the threads of a chunked send; a call is one step up to its wait, so
    a send that races with a close is not split.  The theorems about two channels are
    for numbered messages, fewer than 2^64 - 2 of them, and requests of 20 bytes or
    more, so that acks are not cut.  Secrecy is not stated: it is a
    computational claim.  The code casts byte buffers to 64-bit lanes, which is
    modelled on a little-endian machine; [kNumOt * PACKBYTES] is assumed to fit
    an [int].  [h4 << 6] in [fe_tobytes.c] exceeds 31 bits for large limbs, which
    C leaves undefined; it is modelled by wrapping, and only its low 8 bits are
    used.  Decryption, the AVX2 transposition (off by default), the assembly version
    of the base transfer and the parts of the library that
    wrap OpenSSL, libtommath, MCL or libsodium are not modelled; of the library's own
    C++ components, neither are the other extensions (KKRT, SGRR, SoftSpoken),
    silent vector OLE, the other linear codes, hashing to bins, and the collective operations on several buffers, which serialize them. *)
From Stdlib Require Import ZArith Lia List.
Import ListNotations.
#[global] Open Scope Z_scope.

(** ** Machine integers *)

(** Two's-complement value of the low [w] bits of [z]. *)
Definition swrap (w z : Z) : Z := (z + 2 ^ (w - 1)) mod 2 ^ w - 2 ^ (w - 1).
(** Unsigned value of the low [w] bits of [z]. *)
Definition uwrap (w z : Z) : Z := z mod 2 ^ w.

Definition i8 (z : Z) : Z := swrap 8 z.
Definition i32 (z : Z) : Z := swrap 32 z.
Definition i64 (z : Z) : Z := swrap 64 z.
Definition u8 (z : Z) : Z := uwrap 8 z.
Definition u32 (z : Z) : Z := uwrap 32 z.
Definition u64 (z : Z) : Z := uwrap 64 z.

Declare Scope cint_scope.
Delimit Scope cint_scope with cint.
Notation "x [+i] y" := (i32 (x + y)) (at level 50, left associativity) : cint_scope.
Notation "x [-i] y" := (i32 (x - y)) (at level 50, left associativity) : cint_scope.
Notation "x [*i] y" := (i32 (x * y)) (at level 40, left associativity) : cint_scope.
Notation "x [<<i] k" := (i32 (Z.shiftl x k)) (at level 51, left associativity) : cint_scope.
Notation "x [+l] y" := (i64 (x + y)) (at level 50, left associativity) : cint_scope.
Notation "x [-l] y" := (i64 (x - y)) (at level 50, left associativity) : cint_scope.
Notation "x [*l] y" := (i64 (x * y)) (at level 40, left associativity) : cint_scope.
Notation "x [<<l] k" := (i64 (Z.shiftl x k)) (at level 51, left associativity) : cint_scope.
Notation "x [<<] k" := (Z.shiftl x k) (at level 51, left associativity) : cint_scope.
Notation "x [>>] k" := (Z.shiftr x k) (at level 51, left associativity) : cint_scope.
#[global] Open Scope cint_scope.

(** ** Interval reasoning on straight-line integer code *)

(** [ival e v l h]: the machine expression [e] denotes the mathematical
    integer [v] (no operation in it wrapped) and [v] lies in [l, h]. *)
Definition ival (e v l h : Z) : Prop := e = v /\ l <= v <= h.

Definition ints (w l h : Z) : bool := ((- 2 ^ (w - 1) <=? l) && (h <? 2 ^ (w - 1)))%bool.
Definition intu (w l h : Z) : bool := ((0 <=? l) && (h <? 2 ^ w))%bool.

Definition mul_lo (a b c d : Z) := Z.min (Z.min (a * c) (a * d)) (Z.min (b * c) (b * d)).
Definition mul_hi (a b c d : Z) := Z.max (Z.max (a * c) (a * d)) (Z.max (b * c) (b * d)).

Lemma u64_small x : 0 <= x < 2 ^ 64 -> u64 x = x.
Proof. apply Z.mod_small. Qed.

Lemma swrap_small w z : 0 < w -> - 2 ^ (w - 1) <= z < 2 ^ (w - 1) -> swrap w z = z.
Proof.
  intros Hw Hz. unfold swrap.
  assert (E : 2 ^ w = 2 * 2 ^ (w - 1)) by (rewrite <- Z.pow_succ_r by lia; f_equal; lia).
  rewrite Z.mod_small; lia.
Qed.

Lemma ival_var x l h : l <= x <= h -> ival x x l h.
Proof. split; auto. Qed.

Lemma ival_var_lt x l h : l <= x < h -> ival x x l (h - 1).
Proof. split; lia. Qed.

Lemma ival_const c : ival c c c c.
Proof. split; lia. Qed.

Lemma ival_add a b va vb la ha lb hb l h :
  ival a va la ha -> ival b vb lb hb -> la + lb = l -> ha + hb = h ->
  ival (a + b) (va + vb) l h.
Proof. unfold ival; intros [-> ?] [-> ?]; lia. Qed.

Lemma ival_sub a b va vb la ha lb hb l h :
  ival a va la ha -> ival b vb lb hb -> la - hb = l -> ha - lb = h ->
  ival (a - b) (va - vb) l h.
Proof. unfold ival; intros [-> ?] [-> ?]; lia. Qed.

Lemma ival_opp a va la ha l h :
  ival a va la ha -> - ha = l -> - la = h -> ival (- a) (- va) l h.
Proof. unfold ival; intros [-> ?]; lia. Qed.

Lemma mul_between a b x c :
  a <= x <= b -> Z.min (a * c) (b * c) <= x * c <= Z.max (a * c) (b * c).
Proof.
  intros H. destruct (Z.le_ge_cases 0 c).
  - assert (a * c <= x * c <= b * c) by nia. lia.
  - assert (b * c <= x * c <= a * c) by nia. lia.
Qed.

Lemma ival_mul a b va vb la ha lb hb l h :
  ival a va la ha -> ival b vb lb hb -> mul_lo la ha lb hb = l -> mul_hi la ha lb hb = h ->
  ival (a * b) (va * vb) l h.
Proof.
  unfold ival, mul_lo, mul_hi; intros [-> Ha] [-> Hb] <- <-; split; [reflexivity|].
  pose proof (mul_between lb hb vb va Hb) as H1. rewrite !(Z.mul_comm _ va) in H1.
  pose proof (mul_between la ha va lb Ha). pose proof (mul_between la ha va hb Ha).
  lia.
Qed.

Lemma ival_shl a va la ha k l h :
  ival a va la ha -> (0 <=? k) = true -> la * 2 ^ k = l -> ha * 2 ^ k = h ->
  ival (Z.shiftl a k) (va * 2 ^ k) l h.
Proof.
  unfold ival; intros [-> ?] Hk%Z.leb_le <- <-. rewrite Z.shiftl_mul_pow2 by lia.
  pose proof (Z.pow_nonneg 2 k). nia.
Qed.

Lemma ival_shr a va la ha k l h :
  ival a va la ha -> (0 <=? k) = true -> la / 2 ^ k = l -> ha / 2 ^ k = h ->
  ival (Z.shiftr a k) (va / 2 ^ k) l h.
Proof.
  unfold ival; intros [-> ?] Hk%Z.leb_le <- <-. rewrite Z.shiftr_div_pow2 by lia.
  assert (0 < 2 ^ k) by (apply Z.pow_pos_nonneg; lia).
  split; [reflexivity|]. split; apply Z.div_le_mono; lia.
Qed.

Lemma ints_spec w l h : ints w l h = true -> - 2 ^ (w - 1) <= l /\ h < 2 ^ (w - 1).
Proof. unfold ints. rewrite Bool.andb_true_iff, Z.leb_le, Z.ltb_lt. auto. Qed.
Lemma intu_spec w l h : intu w l h = true -> 0 <= l /\ h < 2 ^ w.
Proof. unfold intu. rewrite Bool.andb_true_iff, Z.leb_le, Z.ltb_lt. auto. Qed.

Lemma ival_i32 a va l h : ival a va l h -> ints 32 l h = true -> ival (i32 a) va l h.
Proof.
  unfold ival; intros [-> ?] [? ?]%ints_spec; split; [|lia]. apply swrap_small; lia.
Qed.
Lemma ival_i64 a va l h : ival a va l h -> ints 64 l h = true -> ival (i64 a) va l h.
Proof.
  unfold ival; intros [-> ?] [? ?]%ints_spec; split; [|lia]. apply swrap_small; lia.
Qed.
Lemma ival_i8 a va l h : ival a va l h -> ints 8 l h = true -> ival (i8 a) va l h.
Proof.
  unfold ival; intros [-> ?] [? ?]%ints_spec; split; [|lia]. apply swrap_small; lia.
Qed.
Lemma ival_u8 a va l h : ival a va l h -> intu 8 l h = true -> ival (u8 a) va l h.
Proof.
  unfold ival; intros [-> ?] [? ?]%intu_spec; split; [|lia]. apply Z.mod_small; lia.
Qed.
Lemma ival_u32 a va l h : ival a va l h -> intu 32 l h = true -> ival (u32 a) va l h.
Proof.
  unfold ival; intros [-> ?] [? ?]%intu_spec; split; [|lia]. apply Z.mod_small; lia.
Qed.
Lemma ival_u64 a va l h : ival a va l h -> intu 64 l h = true -> ival (u64 a) va l h.
Proof.
  unfold ival; intros [-> ?] [? ?]%intu_spec; split; [|lia]. apply Z.mod_small; lia.
Qed.

(** The remainder of a carry: subtracting from [a] the multiple of [2 ^ k] that
    was carried out leaves a value of [k] bits, whatever the range of [a]. *)
Lemma carry_rem a c r k :
  0 <= k -> c = (a + r) / 2 ^ k -> - r <= a - c * 2 ^ k <= 2 ^ k - 1 - r.
Proof.
  intros Hk ->. assert (0 < 2 ^ k) by (apply Z.pow_pos_nonneg; lia).
  pose proof (Z.mod_pos_bound (a + r) (2 ^ k)). pose proof (Z.div_mod (a + r) (2 ^ k)). lia.
Qed.

Lemma ival_carry w a c r k la ha lc hc l h :
  ((0 <? w) && (0 <=? k) && ints w (lc * 2 ^ k) (hc * 2 ^ k)
     && ints w (- r) (2 ^ k - 1 - r))%bool = true ->
  la <= a <= ha -> lc <= c <= hc ->
  c = (a + r) / 2 ^ k ->
  - r = l -> 2 ^ k - 1 - r = h ->
  ival (swrap w (a - swrap w (Z.shiftl c k))) (a - c * 2 ^ k) l h.
Proof.
  rewrite !Bool.andb_true_iff, Z.leb_le, Z.ltb_lt.
  intros [[[Hw Hk] [? ?]%ints_spec] [? ?]%ints_spec] Ha Hc Ec <- <-.
  pose proof (carry_rem a c r k Hk Ec). split; [|lia].
  rewrite Z.shiftl_mul_pow2 by lia. pose proof (Z.pow_pos_nonneg 2 k).
  assert (lc * 2 ^ k <= c * 2 ^ k <= hc * 2 ^ k) by nia.
  rewrite (swrap_small _ (c * 2 ^ k)) by lia; apply swrap_small; lia.
Qed.

(** One binding of straight-line code: if its right-hand side cannot wrap, the
    rest may be proved for a variable known by its value and its range. *)
Lemma ival_let {B : Type} (P : B -> Prop) e v l h (k : Z -> B) :
  ival e v l h -> (forall x, x = v -> l <= x <= h -> P (k x)) -> P (let x := e in k x).
Proof. intros [-> Hv] Hk; cbv zeta; auto. Qed.

(** Recompute the mathematical value and range of a machine expression from
    the ranges of its variables in the context. *)
Ltac ival_of e :=
  lazymatch e with
  | i32 (?a - i32 (Z.shiftl ?c ?k)) =>
      ival_carry_of e a c k 32
  | i64 (?a - i64 (Z.shiftl ?c ?k)) =>
      ival_carry_of e a c k 64
  | _ => ival_plain e
  end
with ival_plain e :=
  lazymatch e with
  | ?a + ?b => let Ha := ival_of a in let Hb := ival_of b in ival_bin ival_add Ha Hb
  | ?a - ?b => let Ha := ival_of a in let Hb := ival_of b in ival_bin ival_sub Ha Hb
  | ?a * ?b => let Ha := ival_of a in let Hb := ival_of b in ival_bin ival_mul Ha Hb
  | - ?a => let Ha := ival_of a in ival_un ival_opp Ha
  | Z.shiftl ?a ?k => let Ha := ival_of a in ival_shift ival_shl Ha k
  | Z.shiftr ?a ?k => let Ha := ival_of a in ival_shift ival_shr Ha k
  | i32 ?a => let Ha := ival_of a in ival_wrap ival_i32 Ha
  | i64 ?a => let Ha := ival_of a in ival_wrap ival_i64 Ha
  | i8 ?a => let Ha := ival_of a in ival_wrap ival_i8 Ha
  | u8 ?a => let Ha := ival_of a in ival_wrap ival_u8 Ha
  | u32 ?a => let Ha := ival_of a in ival_wrap ival_u32 Ha
  | u64 ?a => let Ha := ival_of a in ival_wrap ival_u64 Ha
  | Z0 => constr:(ival_const e)
  | Z.pow _ _ => constr:(ival_const e)
  | Zpos _ => constr:(ival_const e)
  | Zneg _ => constr:(ival_const e)
  | _ => match goal with
         | H : _ <= e <= _ |- _ => constr:(ival_var _ _ _ H)
         | H : _ <= e < _ |- _ => constr:(ival_var_lt _ _ _ H)
         end
  end
with ival_carry_of e a c k w :=
  match goal with
  | Ha : ?la <= a <= ?ha, Hc : ?lc <= c <= ?hc, Ec : c = (a + ?r) / 2 ^ k |- _ =>
      let l := eval vm_compute in (- r) in
      let h := eval vm_compute in (2 ^ k - 1 - r) in
      constr:(ival_carry w a c r k la ha lc hc l h (eq_refl true) Ha Hc Ec (eq_refl l) (eq_refl h)
                : ival e (a - c * 2 ^ k) l h)
  | Ha : ?la <= a <= ?ha, Hc : ?lc <= c <= ?hc, Ec : c = a / 2 ^ k |- _ =>
      let h := eval vm_compute in (2 ^ k - 1) in
      constr:(ival_carry w a c 0 k la ha lc hc 0 h (eq_refl true) Ha Hc
                (eq_trans Ec (f_equal (fun z => z / 2 ^ k) (eq_sym (Z.add_0_r a)))) (eq_refl 0) (eq_refl h)
                : ival e (a - c * 2 ^ k) 0 h)
  | _ => ival_plain e
  end
with ival_bin lem Ha Hb :=
  lazymatch type of Ha with
  | ival ?a ?va ?la ?ha =>
      lazymatch type of Hb with
      | ival ?b ?vb ?lb ?hb =>
          let t := constr:(lem a b va vb la ha lb hb) in
          lazymatch type of t with
          | forall l h, _ -> _ -> ?L = l -> ?H = h -> _ =>
              let l := eval vm_compute in L in
              let h := eval vm_compute in H in
              constr:(lem a b va vb la ha lb hb l h Ha Hb (eq_refl l <: L = l) (eq_refl h <: H = h))
          end
      end
  end
with ival_un lem Ha :=
  lazymatch type of Ha with
  | ival ?a ?va ?la ?ha =>
      let l := eval vm_compute in (- ha) in
      let h := eval vm_compute in (- la) in
      constr:(lem a va la ha l h Ha (eq_refl l) (eq_refl h))
  end
with ival_shift lem Ha k :=
  lazymatch type of Ha with
  | ival ?a ?va ?la ?ha =>
      let t := constr:(lem a va la ha k) in
      lazymatch type of t with
      | forall l h, _ -> _ -> ?L = l -> ?H = h -> _ =>
          let l := eval vm_compute in L in
          let h := eval vm_compute in H in
          constr:(lem a va la ha k l h Ha (eq_refl true <: (0 <=? k) = true)
                    (eq_refl l <: L = l) (eq_refl h <: H = h))
      end
  end
with ival_wrap lem Ha :=
  lazymatch type of Ha with
  | ival ?a ?va ?l ?h =>
      let t := constr:(lem a va l h Ha) in
      lazymatch type of t with
      | ?F = true -> _ => constr:(lem a va l h Ha (eq_refl true <: F = true))
      end
  end.

(** Step through the [let]s of straight-line code. *)
Ltac ival_step :=
  lazymatch goal with
  | |- ?P (let x := ?e in @?k x) =>
      let H := ival_of e in
      lazymatch type of H with
      | ival ?e ?v ?l ?h =>
          let y := fresh x in let Ey := fresh "E" in let By := fresh "B" in
          refine (ival_let P e v l h k H _); intros y Ey By; cbv beta
      end
  end.
Ltac ival_steps := repeat ival_step.

(** Remove the wrap-arounds that remain in the goal and cannot happen. *)
Ltac ival_unwrap :=
  repeat match goal with
    | |- context [i32 ?x] => let H := ival_of (i32 x) in rewrite (proj1 H)
    | |- context [i64 ?x] => let H := ival_of (i64 x) in rewrite (proj1 H)
    end.

(** Forget the values bound by [ival_step], or only those of the carries. *)
Ltac ival_forget := repeat match goal with E : ?x = _ |- _ => is_var x; clear E end.
Ltac ival_forget_carries := repeat match goal with E : _ = _ / _ |- _ => clear E end.

(** ** Bytes *)

Definition byte (b : Z) : Prop := 0 <= b < 256.
Definition bytes (n : nat) (l : list Z) : Prop := length l = n /\ Forall byte l.

(** Little-endian value: [a[0]+256*a[1]+...]. *)
Fixpoint le_val (l : list Z) : Z :=
  match l with
  | [] => 0
  | b :: l => b + 256 * le_val l
  end.

(** The [n] low bytes of [v]. *)
Fixpoint to_le (n : nat) (v : Z) : list Z :=
  match n with
  | O => []
  | S n => v mod 256 :: to_le n (v / 256)
  end.

Lemma le_val_bound l : Forall byte l -> 0 <= le_val l < 256 ^ Z.of_nat (length l).
Proof.
  induction 1 as [|b l Hb Hl IH]; cbn [le_val length]; [cbn; lia|].
  rewrite Nat2Z.inj_succ, Z.pow_succ_r by lia. unfold byte in Hb. lia.
Qed.

Lemma le_val_to_le n v : le_val (to_le n v) = v mod 256 ^ Z.of_nat n.
Proof.
  revert v; induction n as [|n IH]; intros v; cbn [le_val to_le]; [symmetry; apply Z.mod_1_r|].
  rewrite IH, Nat2Z.inj_succ, Z.pow_succ_r by lia. symmetry. apply Z.rem_mul_r; lia.
Qed.

Lemma bytes_to_le n v : bytes n (to_le n v).
Proof.
  revert v; induction n as [|n IH]; intros v; [split; constructor|].
  destruct (IH (v / 256)) as [Hl Hf]. split; cbn; [congruence|].
  constructor; [apply Z.mod_pos_bound; lia|exact Hf].
Qed.

Lemma to_le_le_val l : Forall byte l -> to_le (length l) (le_val l) = l.
Proof.
  induction 1 as [|b l Hb Hl IH]; cbn [le_val to_le length]; [reflexivity|].
  unfold byte in Hb. f_equal.
  - now rewrite Z.mul_comm, Z.mod_add, Z.mod_small by lia.
  - rewrite Z.mul_comm, Z.div_add, Z.div_small by lia. exact IH.
Qed.

Lemma le_val_inj n a b : bytes n a -> bytes n b -> le_val a = le_val b -> a = b.
Proof.
  intros [La Fa] [Lb Fb] E.
  now rewrite <- (to_le_le_val a Fa), <- (to_le_le_val b Fb), La, Lb, E.
Qed.

Lemma le_val_app a b : le_val (a ++ b) = le_val a + 256 ^ Z.of_nat (length a) * le_val b.
Proof.
  induction a as [|x a IH]; cbn [le_val app length]; [change (256 ^ Z.of_nat 0) with 1; lia|].
  rewrite IH, Nat2Z.inj_succ, Z.pow_succ_r by lia. ring.
Qed.

Lemma Forall_firstn {A} (P : A -> Prop) n l : Forall P l -> Forall P (firstn n l).
Proof. intros H. rewrite <- (firstn_skipn n l), Forall_app in H. apply H. Qed.

Lemma Forall_skipn {A} (P : A -> Prop) n l : Forall P l -> Forall P (skipn n l).
Proof. intros H. rewrite <- (firstn_skipn n l), Forall_app in H. apply H. Qed.

Lemma byte_u8 x : byte (u8 x).
Proof. apply Z.mod_pos_bound; lia. Qed.

(** Two numbers whose bits do not meet: [or] is addition. *)
Lemma lor_add a b k : 0 <= k -> 0 <= a < 2 ^ k -> Z.lor a (Z.shiftl b k) = a + b * 2 ^ k.
Proof.
  intros Hk Ha.
  assert (E : Z.land a (Z.shiftl b k) = 0).
  { apply Z.bits_inj'. intros i Hi. rewrite Z.land_spec, Z.bits_0.
    destruct (Z.lt_ge_cases i k).
    - rewrite Z.shiftl_spec_low by lia. apply Bool.andb_false_r.
    - rewrite <- (Z.mod_small a (2 ^ k) Ha).
      now rewrite Z.mod_pow2_bits_high by lia. }
  rewrite <- (Z.shiftl_mul_pow2 b k), <- Z.lxor_lor by assumption.
  symmetry. now apply Z.add_nocarry_lxor.
Qed.

(** ** Arrays: lists of integers read and written by index *)

(** [in[i]]. *)
Definition at_ (s : list Z) (i : nat) : Z := nth i s 0.

(** [l[i] = v], for [i] within the array. *)
Fixpoint upd {A} (l : list A) (i : nat) (v : A) : list A :=
  match l, i with
  | [], _ => []
  | _ :: l, O => v :: l
  | x :: l, S i => x :: upd l i v
  end.

Lemma at_byte s k : Forall byte s -> byte (at_ s k).
Proof.
  intros H. unfold at_. destruct (nth_in_or_default k s 0) as [Hin | ->].
  - rewrite Forall_forall in H. auto.
  - unfold byte; lia.
Qed.

Lemma at_seq l : map (at_ l) (seq 0 (length l)) = l.
Proof.
  apply (nth_ext _ _ 0 0); [now rewrite length_map, length_seq|].
  rewrite length_map, length_seq. intros i Hi.
  rewrite (nth_indep _ 0 (at_ l 0)), map_nth, seq_nth by (rewrite ?length_map, ?length_seq; lia). reflexivity.
Qed.

Lemma length_upd {A} (l : list A) i v : length (upd l i v) = length l.
Proof. revert i; induction l as [|x l IH]; intros [|i]; cbn; auto. Qed.

Lemma nth_map_seq {A} (f : nat -> A) n i d : (i < n)%nat -> nth i (map f (seq 0 n)) d = f i.
Proof. intros H. rewrite nth_indep with (d' := f 0%nat) by (rewrite length_map, length_seq; exact H). now rewrite map_nth, seq_nth. Qed.

Lemma at_map_seq (f : nat -> Z) n i : (i < n)%nat -> at_ (map f (seq 0 n)) i = f i.
Proof. apply nth_map_seq. Qed.

Lemma at_upd_eq l i v : (i < length l)%nat -> at_ (upd l i v) i = v.
Proof.
  revert i; induction l as [|x l IH]; intros [|i] H; cbn in *; try lia.
  apply IH. lia.
Qed.

Lemma at_upd_ne l i j v : i <> j -> at_ (upd l i v) j = at_ l j.
Proof.
  revert i j; induction l as [|x l IH]; intros [|i] [|j] H; cbn; try lia; try reflexivity.
  apply IH. lia.
Qed.

Lemma nth_upd {A} (l : list A) r v k d : nth k (upd l r v) d = if ((r =? k)%nat && (r <? length l)%nat)%bool then v else nth k l d.
Proof.
  revert r k; induction l as [|x l IH]; intros [|r] [|k]; cbn [upd nth length]; try reflexivity; rewrite ?Bool.andb_false_r; try reflexivity.
  rewrite IH. reflexivity.
Qed.

Lemma Forall_upd {A} (P : A -> Prop) l r v : Forall P l -> P v -> Forall P (upd l r v).
Proof. intros F Hv. revert r; induction F as [|x l Hx F IH]; intros [|r]; cbn [upd]; constructor; auto. Qed.

Lemma upd_app {A} (l l' : list A) i v : upd (l ++ l') (length l + i) v = l ++ upd l' i v.
Proof. induction l as [|x l IH]; cbn; [reflexivity|now rewrite IH]. Qed.

Lemma firstn_upd {A} (l : list A) i j v : (i <= j)%nat -> firstn i (upd l j v) = firstn i l.
Proof.
  revert i j; induction l as [|x l IH]; intros [|i] [|j] H; cbn; try lia; try reflexivity.
  f_equal. apply IH. lia.
Qed.

Lemma firstn_at r s i j : firstn i r = firstn i s -> (j < i)%nat -> at_ r j = at_ s j.
Proof.
  intros E Hj. assert (A : at_ (firstn i r) j = at_ (firstn i s) j) by now rewrite E.
  unfold at_ in A |- *. rewrite !nth_firstn, (proj2 (Nat.ltb_lt j i)) in A by lia. exact A.
Qed.

(** Split a list of known length into its elements. *)
Ltac explode l H :=
  let x := fresh "b" in
  match type of H with
  | length l = 0%nat => apply length_zero_iff_nil in H; subst l
  | length l = S _ =>
      let l' := fresh "l" in
      destruct l as [|x l']; [discriminate H|cbn [length] in H; apply eq_add_S in H; explode l' H]
  end.

(** Ranges of the elements of an explicit list of bytes. *)
Ltac byte_ranges H :=
  repeat match type of H with
    | Forall byte (_ :: _) =>
        let B := fresh "R" in apply Forall_cons_iff in H; destruct H as [B H]; unfold byte in B
    end.
