(* ===== verification/AbGroup.v ===== *)
(** Interface between the curve and its clients: an abelian group written
    additively, with the integer multiples of an element.  The point
    arithmetic, the scalar multiplications and the protocol are proved against
    this interface; [Edwards.v] provides its instance. *)
From Stdlib Require Import ZArith Lia.
From S2P Require Import Prelude.

Class AbGroup (G : Type) := {
  gadd : G -> G -> G;
  gzero : G;
  gopp : G -> G;
  gadd_assoc : forall a b c, gadd (gadd a b) c = gadd a (gadd b c);
  gadd_comm : forall a b, gadd a b = gadd b a;
  gadd_0_l : forall a, gadd gzero a = a;
  gadd_opp_r : forall a, gadd a (gopp a) = gzero;
}.

Declare Scope group_scope.
Delimit Scope group_scope with G.
Infix "+" := gadd : group_scope.
Notation "0" := gzero : group_scope.
Notation "- x" := (gopp x) : group_scope.
Notation "x - y" := (gadd x (gopp y)) : group_scope.

(** Integer multiples, by binary double-and-add so that they compute. *)
Definition zmul {G} `{AbGroup G} (n : Z) (x : G) : G :=
  match n with
  | Z0 => gzero
  | Zpos k => Pos.iter_op gadd k x
  | Zneg k => gopp (Pos.iter_op gadd k x)
  end.
Notation "n · x" := (zmul n x) (at level 40, left associativity) : group_scope.

Section Theory.
Context {G : Type} `{AbGroup G}.
#[local] Open Scope group_scope.
Implicit Types (a b c : G) (m n : Z).

Lemma gadd_0_r a : a + 0 = a.
Proof. rewrite gadd_comm. apply gadd_0_l. Qed.

Lemma gadd_opp_l a : - a + a = 0.
Proof. rewrite gadd_comm. apply gadd_opp_r. Qed.

Lemma gadd_cancel_r a b c : a + c = b + c -> a = b.
Proof.
  intros E. rewrite <- (gadd_0_r a), <- (gadd_0_r b), <- (gadd_opp_r c), <- !gadd_assoc.
  now rewrite E.
Qed.

Lemma gopp_unique a b : a + b = 0 -> b = - a.
Proof.
  intros E. apply (gadd_cancel_r _ _ a). rewrite gadd_opp_l, gadd_comm. exact E.
Qed.

Lemma gopp_opp a : - - a = a.
Proof. symmetry. apply gopp_unique, gadd_opp_l. Qed.

Lemma gopp_0 : - 0 = (0 : G).
Proof. symmetry. apply gopp_unique, gadd_0_l. Qed.

Lemma gadd_swap a b c : a + (b + c) = b + (a + c).
Proof. now rewrite <- !gadd_assoc, (gadd_comm a). Qed.

Lemma gopp_add a b : - (a + b) = - a - b.
Proof.
  symmetry. apply gopp_unique.
  rewrite gadd_assoc, (gadd_swap b), gadd_opp_r, gadd_0_r. apply gadd_opp_r.
Qed.

Lemma gsub_add a b : a - b + b = a.
Proof. now rewrite gadd_assoc, gadd_opp_l, gadd_0_r. Qed.

Lemma iter_op_succ k a : Pos.iter_op gadd (Pos.succ k) a = a + Pos.iter_op gadd k a.
Proof. apply Pos.iter_op_succ. intros. symmetry. apply gadd_assoc. Qed.

Lemma zmul_0_l a : 0 · a = 0.
Proof. reflexivity. Qed.

Lemma zmul_1_l a : 1 · a = a.
Proof. reflexivity. Qed.

Lemma zmul_succ_l n a : Z.succ n · a = a + n · a.
Proof.
  destruct n as [|k|k]; cbn [zmul].
  - symmetry. apply gadd_0_r.
  - rewrite <- Pos2Z.inj_succ. apply iter_op_succ.
  - destruct (Pos.eq_dec k 1) as [->|Hk].
    + symmetry. apply gadd_opp_r.
    + rewrite <- (Pos.succ_pred k Hk), iter_op_succ.
      replace (Z.succ (Zneg (Pos.succ (Pos.pred k)))) with (Zneg (Pos.pred k)) by lia.
      cbn [zmul]. rewrite gopp_add, <- gadd_assoc, gadd_opp_r. symmetry. apply gadd_0_l.
Qed.

Lemma zmul_pred_l n a : Z.pred n · a = n · a - a.
Proof.
  apply (gadd_cancel_r _ _ a). rewrite gsub_add, gadd_comm, <- zmul_succ_l. f_equal. lia.
Qed.

Lemma zmul_add_l m n a : (m + n) · a = m · a + n · a.
Proof.
  induction m as [|m IH|m IH] using Z.peano_ind.
  - cbn [zmul]. now rewrite gadd_0_l.
  - rewrite Z.add_succ_l, !zmul_succ_l, IH. symmetry. apply gadd_assoc.
  - rewrite Z.add_pred_l, !zmul_pred_l, IH.
    now rewrite !gadd_assoc, (gadd_comm (n · a)).
Qed.

Lemma zmul_opp_l n a : (- n) · a = - (n · a).
Proof. apply gopp_unique. rewrite <- zmul_add_l, Z.add_opp_diag_r. reflexivity. Qed.

Lemma zmul_sub_l m n a : (m - n) · a = m · a - n · a.
Proof. now rewrite <- Z.add_opp_r, zmul_add_l, zmul_opp_l. Qed.

Lemma zmul_add_r n a b : n · (a + b) = n · a + n · b.
Proof.
  induction n as [|n IH|n IH] using Z.peano_ind.
  - cbn [zmul]. now rewrite gadd_0_l.
  - rewrite !zmul_succ_l, IH, !gadd_assoc. f_equal. apply gadd_swap.
  - rewrite !zmul_pred_l, IH, gopp_add, !gadd_assoc. f_equal. rewrite gadd_swap.
    reflexivity.
Qed.

Lemma zmul_0_r n : n · (0 : G) = 0.
Proof.
  apply (gadd_cancel_r _ _ (n · (0 : G))). rewrite <- zmul_add_r, !gadd_0_l. reflexivity.
Qed.

Lemma zmul_opp_r n a : n · (- a) = - (n · a).
Proof. apply gopp_unique. now rewrite <- zmul_add_r, gadd_opp_r, zmul_0_r. Qed.

Lemma zmul_sub_r n a b : n · (a - b) = n · a - n · b.
Proof. now rewrite zmul_add_r, zmul_opp_r. Qed.

Lemma zmul_mul m n a : m · (n · a) = (m * n) · a.
Proof.
  induction m as [|m IH|m IH] using Z.peano_ind.
  - reflexivity.
  - rewrite zmul_succ_l, IH, Z.mul_succ_l, Z.add_comm, zmul_add_l. reflexivity.
  - rewrite zmul_pred_l, IH, Z.mul_pred_l, zmul_sub_l. reflexivity.
Qed.

Lemma zmul_comm m n a : m · (n · a) = n · (m · a).
Proof. rewrite !zmul_mul. f_equal. lia. Qed.

Lemma zmul_2_l a : 2 · a = a + a.
Proof. reflexivity. Qed.

Lemma zmul_double n a : n · a + n · a = (2 * n) · a.
Proof. rewrite <- zmul_add_l. f_equal. lia. Qed.

Lemma gsub_sub a b : a - (a - b) = b.
Proof. now rewrite gopp_add, gopp_opp, <- gadd_assoc, gadd_opp_r, gadd_0_l. Qed.

Lemma gadd_shuffle a b c d : a + b + (a + b) + c + d = a + a + c + (b + b + d).
Proof.
  rewrite !gadd_assoc. do 1 f_equal. rewrite (gadd_comm b (a + _)), !gadd_assoc. f_equal.
  rewrite (gadd_comm b (c + _)), !gadd_assoc. f_equal. rewrite <- !gadd_assoc.
  rewrite (gadd_comm d b), (gadd_comm _ b), <- !gadd_assoc. reflexivity.
Qed.
End Theory.

(** Conversion compares multiples by their arguments, never by computing them. *)
#[global] Opaque zmul.
