(* ===== verification/PrimeP.v ===== *)
(** Primality of concrete integers: trial division for small numbers and
    Pocklington's criterion, with a boolean checker, for the large ones.

    Primality of p = 2^255 - 19, by a chain of Pocklington certificates, and of
    nothing else: the numbers below are the prime factors the chain needs. *)
From Stdlib Require Import ZArith Lia List Zdivisibility Zmod Zstar.
From Stdlib Require Import ZArith Lia List Zmod.
Import ListNotations.
#[local] Open Scope Z_scope.

(** ** Trial division *)

Definition range (a b : Z) : list Z := map (fun i => a + Z.of_nat i) (seq 0 (Z.to_nat (b - a))).

Lemma in_range a b x : In x (range a b) <-> a <= x < b.
Proof.
  unfold range. rewrite in_map_iff. split.
  - intros (i & <- & Hi%in_seq). lia.
  - intros H. exists (Z.to_nat (x - a)). rewrite in_seq. lia.
Qed.

Definition trial (n b : Z) : bool := forallb (fun d => negb (n mod d =? 0)) (range 2 b).

Lemma trial_spec n b d : trial n b = true -> 2 <= d < b -> ~ (d | n).
Proof.
  unfold trial. rewrite forallb_forall. intros H Hd Hdiv.
  specialize (H d (proj2 (in_range _ _ _) Hd)).
  apply Z.mod_divide in Hdiv; [|lia]. rewrite Hdiv in H. discriminate.
Qed.

Lemma prime_trial n b : 1 < n -> 0 < b -> n < b * b -> trial n b = true -> Z.prime n.
Proof.
  intros Hn Hb0 Hb Ht. split; [exact Hn|]. intros d Hd [e He].
  destruct (Z.lt_ge_cases d b).
  - apply (trial_spec n b d Ht); [lia|]. exists e; lia.
  - assert (0 < e) by nia. assert (1 < e) by nia.
    destruct (Z.lt_ge_cases e b); [|exfalso; assert (b * b <= e * d) by (apply Z.mul_le_mono_nonneg; lia); lia].
    apply (trial_spec n b e Ht); [lia|]. exists d; lia.
Qed.

Lemma prime_or_divisor n : 1 < n -> Z.prime n \/ exists d, 1 < d < n /\ (d | n).
Proof.
  intros Hn. destruct (trial n n) eqn:E.
  - left. split; [exact Hn|]. intros d Hd. apply (trial_spec n n d E). lia.
  - right. unfold trial in E.
    assert (H : existsb (fun d => n mod d =? 0) (range 2 n) = true).
    { clear -E. induction (range 2 n) as [|x l IH]; simpl in *; [discriminate|].
      destruct (n mod x =? 0); simpl in *; auto. }
    apply existsb_exists in H as (d & Hd%in_range & Hm%Z.eqb_eq).
    exists d. split; [lia|]. apply Z.mod_divide; lia.
Qed.

Lemma prime_divisor n : 1 < n -> exists r, Z.prime r /\ (r | n).
Proof.
  intros Hn. pattern n.
  refine (Zlt_lower_bound_ind _ 2 _ n _); [|lia]. clear n Hn. intros n IH Hn.
  destruct (prime_or_divisor n) as [Hp|(d & Hd & Hdiv)]; [lia| |].
  - exists n; split; [exact Hp|apply Z.divide_refl].
  - destruct (IH d) as (r & Hr & Hrd); [lia|].
    exists r; split; [exact Hr|]. eapply Z.divide_trans; eauto.
Qed.

(** ** Modular exponentiation *)

Fixpoint powmod (n a : Z) (e : positive) : Z :=
  match e with
  | xH => a mod n
  | xO e => let x := powmod n a e in (x * x) mod n
  | xI e => let x := powmod n a e in (((x * x) mod n) * a) mod n
  end.

Lemma powmod_spec n a e : powmod n a e = a ^ Zpos e mod n.
Proof.
  induction e as [e IH|e IH|]; cbn [powmod]; cbv zeta; rewrite ?IH.
  - rewrite Zmult_mod_idemp_l. rewrite <- Zmult_mod_idemp_l, <- Zmult_mod, Zmult_mod_idemp_l.
    f_equal. rewrite Pos2Z.inj_xI, Z.pow_add_r, Z.pow_1_r, Z.pow_mul_r by lia.
    replace (a ^ 2) with (a * a) by ring. now rewrite Z.pow_mul_l.
  - rewrite <- Zmult_mod.
    f_equal. rewrite Pos2Z.inj_xO, Z.pow_mul_r by lia.
    replace (a ^ 2) with (a * a) by ring. now rewrite Z.pow_mul_l.
  - now rewrite Z.pow_1_r.
Qed.

(** ** Pocklington's criterion *)

(** Every prime divisor [r] of [n] is 1 modulo the prime factor [q] of [n - 1]. *)
Lemma pocklington_factor n q m a r :
  1 < n -> Z.prime q -> n - 1 = q * m -> 0 < m ->
  a ^ (n - 1) mod n = 1 -> Z.gcd (a ^ m - 1) n = 1 ->
  Z.prime r -> (r | n) -> (q | r - 1).
Proof.
  intros Hn Hq Hqm Hm Ha Hg Hr [c Hc].
  pose proof (Z.prime_ge_2 _ Hr) as Hr2.
  destruct (Z.BoolSpec_divide q (r - 1)) as [E|E]; [exact E|exfalso].
  assert (Hcop : Z.coprime q (r - 1)) by (apply Z.coprime_prime_l; auto).
  apply Z.Bezout_coprime in Hcop as (u & v & Huv).
  assert (Har : a ^ (n - 1) mod r = 1).
  { pose proof (Z.div_mod (a ^ (n - 1)) n ltac:(lia)) as E'. rewrite Ha in E'. rewrite E'.
    replace (n * (a ^ (n - 1) / n) + 1) with (1 + (c * (a ^ (n - 1) / n)) * r) by (rewrite Hc at 3; ring).
    rewrite Z.mod_add by lia. apply Z.mod_small; lia. }
  assert (Hacop : Z.coprime a r).
  { symmetry. apply Z.coprime_prime_l; [exact Hr|]. intros [k ->].
    replace (n - 1) with (Z.succ (n - 2)) in Har by lia.
    rewrite Z.pow_succ_r, <- Z.mul_assoc, (Z.mul_comm r), Z.mul_assoc, Z.mod_mul in Har by lia.
    discriminate. }
  set (A := Zstar.of_Zmod (Zmod.of_Z r a)).
  assert (HA : forall e, 0 <= e -> Zmod.to_Z (Zstar.to_Zmod (Zstar.pow A e)) = a ^ e mod r).
  { intros e He. rewrite Zstar.to_Zmod_pow. unfold A. rewrite Zstar.to_Zmod_of_Zmod.
    - rewrite <- Zmod.of_Z_pow by lia. apply Zmod.unsigned_of_Z.
    - rewrite Zmod.unsigned_of_Z. now rewrite Z.coprime_mod_l_iff. }
  assert (H1 : Zstar.pow A (q * m) = Zstar.one).
  { apply Zstar.to_Zmod_inj, Zmod.unsigned_inj. rewrite HA by (pose proof (Z.prime_ge_2 _ Hq); nia).
    rewrite <- Hqm, Har, Zstar.to_Zmod_1. symmetry. apply Zmod.unsigned_1_pos. lia. }
  assert (H2 : Zstar.pow A (r - 1) = Zstar.one).
  { rewrite Z.sub_1_r. now apply Zstar.fermat. }
  assert (H3 : Zstar.pow A m = Zstar.one).
  { replace m with ((q * m) * u + (r - 1) * (v * m)) by (transitivity (m * (u * q + v * (r - 1))); [ring|rewrite Huv; ring]).
    rewrite Zstar.pow_add_r, (Zstar.pow_mul_r A (q * m)), (Zstar.pow_mul_r A (r - 1)), H1, H2.
    rewrite !Zstar.pow_1_l. apply Zstar.mul_1_l. }
  assert (H4 : (r | a ^ m - 1)).
  { apply Z.mod_divide; [lia|]. rewrite Zminus_mod, <- HA, H3, Zstar.to_Zmod_1 by lia.
    rewrite Zmod.unsigned_1_pos, Z.mod_1_l, Z.sub_diag by lia. apply Z.mod_0_l. lia. }
  assert (H5 : (r | 1)).
  { rewrite <- Hg. apply Z.gcd_greatest; [exact H4|]. exists c; exact Hc. }
  apply Z.divide_1_r in H5. lia.
Qed.

(** [pock_check n l]: [l] lists distinct prime factors [q] of [n - 1], each with
    a base [a]; [b] times their product exceeds the square root of [n], and none of
    the divisors that leaves possible divides [n]. *)
Definition pock_factor (n : Z) (qa : Z * Z) : bool :=
  let '(q, a) := qa in
  ((n - 1) mod q =? 0)
  && (let b := powmod n a (Z.to_pos ((n - 1) / q)) in
      (powmod n b (Z.to_pos q) =? 1) && (Z.gcd (b - 1) n =? 1)).

Definition pock_prod (l : list (Z * Z)) : Z := fold_right (fun qa acc => fst qa * acc) 1 l.

Definition pock_check (n : Z) (l : list (Z * Z)) (b : Z) : bool :=
  (1 <? n) && forallb (pock_factor n) l
  && forallb (fun qa => 1 <? fst qa) l
  && forallb (fun k => negb (n mod (k * pock_prod l + 1) =? 0)) (range 1 b)
  && (0 <? b) && (n <? (b * pock_prod l) * (b * pock_prod l)).

Lemma pock_factor_spec n q a r :
  1 < n -> 1 < q -> Z.prime q -> pock_factor n (q, a) = true -> Z.prime r -> (r | n) ->
  (q | r - 1).
Proof.
  unfold pock_factor. cbv zeta. rewrite !Bool.andb_true_iff, !Z.eqb_eq, !powmod_spec.
  intros Hn Hq1 Hq [Hm [Ha Hg]] Hr Hrn.
  assert (E : n - 1 = q * ((n - 1) / q)) by (apply Z.div_exact; lia).
  assert (Hpos : 0 < (n - 1) / q) by nia.
  rewrite !Z2Pos.id in * by lia.
  rewrite Z.mod_pow_l, <- Z.pow_mul_r, Z.mul_comm, <- E in Ha by lia.
  apply (pocklington_factor n q ((n - 1) / q) a r); auto.
  rewrite <- Z.gcd_mod_l in Hg |- *. now rewrite Zminus_mod_idemp_l in Hg.
Qed.

Lemma pock_prod_divides n l r :
  1 < n -> forallb (pock_factor n) l = true -> forallb (fun qa => 1 <? fst qa) l = true ->
  Forall (fun qa => Z.prime (fst qa)) l -> NoDup (map fst l) ->
  Z.prime r -> (r | n) -> (pock_prod l | r - 1).
Proof.
  intros Hn Hf H1 Hp Hnd Hr Hrn.
  induction l as [|[q a] l IH]; cbn in *; [apply Z.divide_1_l|].
  apply Bool.andb_true_iff in Hf as [Hf1 Hf2]. apply Bool.andb_true_iff in H1 as [Hq1 H1].
  inversion Hp as [|? ? Hq Hl]; inversion Hnd as [|? ? Hni Hndl]; subst; cbn in *.
  specialize (IH Hf2 H1 Hl Hndl).
  apply Z.ltb_lt in Hq1.
  assert (Hqr : (q | r - 1)) by (apply (pock_factor_spec n q a r); auto).
  assert (Hcop : Z.coprime q (pock_prod l)).
  { clear -Hq Hl Hni. induction l as [|[q' a'] l IH]; cbn in *; [apply Z.coprime_1_r|].
    inversion Hl; subst; cbn in *. apply Z.coprime_mul_r; [|apply IH; auto].
    apply Z.coprime_prime_l; [exact Hq|]. intros Hd. apply Z.divide_prime_prime in Hd; auto. }
  destruct IH as [k Hk]. rewrite Hk in Hqr |- *.
  rewrite Z.mul_comm in Hqr. apply Z.gauss in Hqr as [j ->]; [|exact Hcop].
  exists j. unfold pock_prod. ring.
Qed.

Theorem pocklington n l b :
  pock_check n l b = true -> NoDup (map fst l) -> Forall (fun qa => Z.prime (fst qa)) l ->
  Z.prime n.
Proof.
  unfold pock_check. rewrite !Bool.andb_true_iff, !Z.ltb_lt. intros [[[[[Hn Hf] H1] Ht] Hb] Hs] Hnd Hp.
  destruct (prime_or_divisor n Hn) as [H|(d & Hd & [e He])]; [exact H|exfalso].
  assert (Hk : exists k, 1 < k /\ k * k <= n /\ (k | n)).
  { destruct (Z.le_ge_cases d e); [exists d|exists e]; (split; [nia|]); (split; [nia|]).
    - exists e; exact He. - exists d; lia. }
  destruct Hk as (k & Hk1 & Hk2 & Hkn).
  destruct (prime_divisor k Hk1) as (r & Hr & Hrk).
  pose proof (Z.divide_pos_le r k ltac:(lia) Hrk).
  assert (Hrn : (r | n)) by (eapply Z.divide_trans; eauto).
  pose proof (pock_prod_divides n l r Hn Hf H1 Hp Hnd Hr Hrn) as Hdiv.
  pose proof (Z.prime_ge_2 _ Hr).
  assert (0 < pock_prod l).
  { clear -H1. unfold pock_prod. induction l as [|[q a] l IH]; cbn [fold_right fst]; [lia|].
    cbn [forallb fst] in H1. apply Bool.andb_true_iff in H1 as [Hq Hl]. apply Z.ltb_lt in Hq.
    specialize (IH Hl). apply Z.mul_pos_pos; lia. }
  destruct Hdiv as [j Hj]. assert (0 < j) by nia.
  destruct (Z.lt_ge_cases j b) as [Hlt|Hge].
  - rewrite forallb_forall in Ht. specialize (Ht j (proj2 (in_range 1 b j) ltac:(lia))).
    rewrite <- Hj in Ht. replace (r - 1 + 1) with r in Ht by lia.
    apply Z.mod_divide in Hrn; [|lia]. rewrite Hrn in Ht. discriminate.
  - assert (b * pock_prod l <= j * pock_prod l) by (apply Z.mul_le_mono_nonneg_r; lia).
    assert ((b * pock_prod l) * (b * pock_prod l) <= r * r) by (apply Z.mul_le_mono_nonneg; lia).
    assert (r * r <= k * k) by (apply Z.mul_le_mono_nonneg; lia). lia.
Qed.

Ltac trial_prime b := apply (prime_trial _ b); [lia|lia|lia|vm_cast_no_check (eq_refl true)].
Ltac pock l b :=
  apply (pocklington _ l b);
  [vm_cast_no_check (eq_refl true)
  |cbn [map fst]; repeat (apply NoDup_cons; [cbn [In]; lia|]); apply NoDup_nil
  |repeat (apply Forall_cons; [cbn [fst]; solve [auto with primes]|]); apply Forall_nil].

Create HintDb primes discriminated.

Lemma prime_991 : Z.prime 991. Proof. trial_prime 32. Qed.
Lemma prime_569003 : Z.prime 569003. Proof. trial_prime 755. Qed.
#[export] Hint Resolve prime_991 prime_569003 : primes.

Lemma prime_8574133 : Z.prime 8574133.
Proof. pock [(991, 2)] 4. Qed.
Lemma prime_2773320623 : Z.prime 2773320623.
Proof. pock [(569003, 2)] 1. Qed.
#[export] Hint Resolve prime_8574133 prime_2773320623 : primes.

Lemma prime_72106336199 : Z.prime 72106336199.
Proof. pock [(2773320623, 2)] 1. Qed.
Lemma prime_1919519569386763 : Z.prime 1919519569386763.
Proof. pock [(8574133, 2)] 6. Qed.
#[export] Hint Resolve prime_72106336199 prime_1919519569386763 : primes.

Lemma prime_q2 : Z.prime 75445702479781427272750846543864801.
Proof. pock [(1919519569386763, 2); (72106336199, 2)] 1. Qed.
#[export] Hint Resolve prime_q2 : primes.

Lemma prime_q1 :
  Z.prime 74058212732561358302231226437062788676166966415465897661863160754340907.
Proof. pock [(75445702479781427272750846543864801, 2)] 4. Qed.
#[export] Hint Resolve prime_q1 : primes.

(** The prime of [fe.h]: "Here the field is \Z/(2^255-19)". *)
Definition p : Z := 2 ^ 255 - 19.

Theorem prime_p : Z.prime p.
Proof.
  change p with 57896044618658097711785492504343953926634992332820282019728792003956564819949.
  pock [(74058212732561358302231226437062788676166966415465897661863160754340907, 2)] 1.
Qed.
