(* ===== verification/Fp.v ===== *)
(** The field of 2^255 - 19 elements, on the integers modulo p of the standard
    library, with its ring and field tactics. *)
From Stdlib Require Import ZArith Lia List Zmod Field.
From S2P Require Import Prelude.
From S2P Require Import PrimeP.

(** ** The field *)

Abbreviation F := (Zmod p).
Declare Scope F_scope.
Delimit Scope F_scope with F.
Bind Scope F_scope with Zmod.
Notation "0" := (@Zmod.zero p) : F_scope.
Notation "1" := (@Zmod.one p) : F_scope.
Notation "x + y" := (@Zmod.add p x y) : F_scope.
Notation "x - y" := (@Zmod.sub p x y) : F_scope.
Notation "x * y" := (@Zmod.mul p x y) : F_scope.
Notation "- x" := (@Zmod.opp p x) : F_scope.
Notation "x / y" := (@Zmod.mdiv p x y) : F_scope.
Notation "x ^ n" := (@Zmod.pow p x n) : F_scope.

#[export] Existing Instance prime_p.
Add Field F_field : (Zmod.field_theory p prime_p).

(** Residue class of an integer. *)
Definition inF (z : Z) : F := Zmod.of_Z p z.

Lemma inF_add a b : inF (a + b) = (inF a + inF b)%F.
Proof. apply Zmod.of_Z_add. Qed.
Lemma inF_sub a b : inF (a - b) = (inF a - inF b)%F.
Proof. apply Zmod.of_Z_sub. Qed.
Lemma inF_mul a b : inF (a * b) = (inF a * inF b)%F.
Proof. apply Zmod.of_Z_mul. Qed.
Lemma inF_opp a : inF (- a) = (- inF a)%F.
Proof. apply Zmod.of_Z_opp. Qed.
Lemma inF_pow a n : 0 <= n -> inF (a ^ n) = (inF a ^ n)%F.
Proof. apply Zmod.of_Z_pow. Qed.
Lemma inF_0 : inF 0 = 0%F. Proof. apply Zmod.of_Z_0. Qed.
Lemma inF_1 : inF 1 = 1%F. Proof. apply Zmod.of_Z_1. Qed.
Lemma inF_eq a b k : a = b + k * p -> inF a = inF b.
Proof. intros ->. apply Zmod.of_Z_inj. now rewrite Z.mod_add. Qed.
Lemma inF_inj a b : inF a = inF b <-> a mod p = b mod p.
Proof. apply Zmod.of_Z_inj. Qed.

(** Conversion never looks inside the field operations. *)
#[global] Opaque Zmod.add Zmod.sub Zmod.mul Zmod.opp Zmod.inv Zmod.mdiv Zmod.pow.
