(* ===== verification/Edwards.v ===== *)
(** The curve of [ge.h]: the pairs (x, y) of field elements with
    -x^2 + y^2 = 1 + d x^2 y^2, d = -121665/121666, under the complete twisted
    Edwards addition law.  This is the specification the point operations of
    the code are compared with: an abelian group and its scalar multiplication. *)
From Stdlib Require Import ZArith Lia List Zmod Field Eqdep_dec Bool.
From S2P Require Import Prelude.
From S2P Require Import PrimeP.
From S2P Require Import Fp.
From S2P Require Import AbGroup.
#[local] Open Scope F_scope.

(** "where d = -121665/121666" *)
Definition d : F := (- inF 121665) / inF 121666.
(** A square root of -1, the constant [sqrtm1] of the code. *)
Definition sqrtm1 : F :=
  inF 19681161376707505956807079304988542015446066515923890162744021073123829784752.

(** ** Facts about the constants *)

Lemma sqrtm1_sq : sqrtm1 * sqrtm1 = - (1).
Proof.
  unfold sqrtm1. rewrite <- inF_mul, <- inF_1, <- inF_opp. apply inF_inj. vm_compute. reflexivity.
Qed.

Definition d_int : Z := Z.invmod 121666 p * -121665 mod p.

Lemma d_int_ok : d = inF d_int.
Proof. apply Zmod.unsigned_inj. vm_compute. reflexivity. Qed.

Lemma two_nonzero : inF 2 <> 0.
Proof. intros H. apply (f_equal Zmod.to_Z) in H. vm_compute in H. discriminate. Qed.

Lemma sq_zero (x : F) : x * x = 0 -> x = 0.
Proof. intros [H|H]%(Zmod.mul_0_iff_prime prime_p); exact H. Qed.

Lemma mul_nonzero (x y : F) : x <> 0 -> y <> 0 -> x * y <> 0.
Proof. intros Hx Hy [H|H]%(Zmod.mul_0_iff_prime prime_p); auto. Qed.

Lemma sub_zero (x y : F) : x - y = 0 -> x = y.
Proof. apply Zmod.sub_eq_0. Qed.

Lemma d_nonzero : d <> 0.
Proof. rewrite d_int_ok. intros H. apply (f_equal Zmod.to_Z) in H. vm_compute in H. discriminate. Qed.

(** Euler's criterion, in the direction needed: d is not a square. *)
Lemma d_nonsquare (x : F) : x * x <> d.
Proof.
  intros H.
  assert (Hx : x <> 0) by (intros ->; apply d_nonzero; rewrite <- H; ring).
  assert (E : d ^ ((p - 1) / 2) = 1).
  { rewrite <- H, <- Zmod.pow_2_r, <- Zmod.pow_mul_r_nonneg by (vm_compute; discriminate).
    replace (2 * ((p - 1) / 2))%Z with (p - 1)%Z by reflexivity.
    rewrite Z.sub_1_r. apply Zmod.fermat_nz; [exact Hx|exact prime_p]. }
  rewrite d_int_ok, <- inF_pow, <- inF_1 in E by (vm_compute; discriminate).
  apply inF_inj in E.
  assert (K : (powmod p d_int (Z.to_pos ((p - 1) / 2)) <> 1 mod p)%Z) by (vm_compute; discriminate).
  apply K. rewrite powmod_spec, <- E. f_equal.
Qed.

(** ** The curve and its addition law *)

Definition on_curve (x y : F) : Prop := y * y - x * x = 1 + d * (x * x) * (y * y).

Definition add_x (x1 y1 x2 y2 : F) : F := (x1 * y2 + y1 * x2) / (1 + d * x1 * x2 * y1 * y2).
Definition add_y (x1 y1 x2 y2 : F) : F := (y1 * y2 + x1 * x2) / (1 - d * x1 * x2 * y1 * y2).

Lemma complete x1 y1 x2 y2 :
  on_curve x1 y1 -> on_curve x2 y2 ->
  (d * x1 * x2 * y1 * y2) * (d * x1 * x2 * y1 * y2) <> 1.
Proof.
  unfold on_curve. intros H1 H2 E. set (i := sqrtm1). set (t := d * x1 * x2 * y1 * y2) in *.
  pose proof sqrtm1_sq as Hi. fold i in Hi.
  assert (Ht : t <> 0).
  { intros Z. rewrite Z in E. apply two_nonzero. transitivity (0 + 0); [|ring].
    change (inF 2) with (inF (1 + 1)). rewrite inF_add, inF_1, <- E. ring. }
  assert (Key : d * (x1 * x1) * (y1 * y1) * (y2 * y2 - x2 * x2) = y1 * y1 - x1 * x1).
  { rewrite H2, H1.
    transitivity (d * (x1 * x1) * (y1 * y1) + t * t); [unfold t; ring|rewrite E; ring]. }
  assert (Hxy : x1 * y1 <> 0).
  { intros Z. apply Ht. unfold t. transitivity (d * x2 * y2 * (x1 * y1)); [ring|rewrite Z; ring]. }
  assert (Contra : forall u v : F, u * u = d * (x1 * x1) * (y1 * y1) * (v * v) -> v = 0).
  { intros u v Hu. destruct (Zmod.eqb_spec v 0) as [Hv|Hv]; [exact Hv|exfalso].
    apply (d_nonsquare (u / (x1 * y1 * v))).
    transitivity ((u * u) / ((x1 * y1 * v) * (x1 * y1 * v))); [|rewrite Hu]; field;
      repeat split; try exact Hv; intros Z; apply Hxy; rewrite Z; ring. }
  assert (V1 : i * x2 + y2 = 0).
  { apply (Contra (i * x1 + t * y1)).
    transitivity ((i * i) * (x1 * x1) + (t * t) * (y1 * y1) + (i + i) * x1 * y1 * t); [ring|].
    rewrite Hi, E. transitivity (y1 * y1 - x1 * x1 + (i + i) * x1 * y1 * t); [ring|].
    rewrite <- Key. unfold t. ring [Hi]. }
  assert (V2 : i * x2 - y2 = 0).
  { apply (Contra (i * x1 - t * y1)).
    transitivity ((i * i) * (x1 * x1) + (t * t) * (y1 * y1) - (i + i) * x1 * y1 * t); [ring|].
    rewrite Hi, E. transitivity (y1 * y1 - x1 * x1 - (i + i) * x1 * y1 * t); [ring|].
    rewrite <- Key. unfold t. ring [Hi]. }
  apply Ht. assert (Y : y2 = 0).
  { destruct (Zmod.mul_0_iff_prime prime_p (inF 2) y2) as [[C|C] _]; [|destruct (two_nonzero C)|exact C].
    change (inF 2) with (inF (1 + 1)). rewrite inF_add, inF_1.
    transitivity ((i * x2 + y2) - (i * x2 - y2)); [ring|rewrite V1, V2; ring]. }
  unfold t. rewrite Y. ring.
Qed.

Lemma complete_add x1 y1 x2 y2 :
  on_curve x1 y1 -> on_curve x2 y2 -> 1 + d * x1 * x2 * y1 * y2 <> 0.
Proof.
  intros H1 H2 E. apply (complete x1 y1 x2 y2 H1 H2).
  replace (d * x1 * x2 * y1 * y2) with (- (1) + (1 + d * x1 * x2 * y1 * y2)) by ring.
  rewrite E. ring.
Qed.

Lemma complete_sub x1 y1 x2 y2 :
  on_curve x1 y1 -> on_curve x2 y2 -> 1 - d * x1 * x2 * y1 * y2 <> 0.
Proof.
  intros H1 H2 E. apply (complete x1 y1 x2 y2 H1 H2).
  replace (d * x1 * x2 * y1 * y2) with (1 - (1 - d * x1 * x2 * y1 * y2)) by ring.
  rewrite E. ring.
Qed.

(** *** Working with e = 1/d

    With e = 1/d the curve equation rewrites the monomial x^2 y^2, so that its
    polynomial consequences are decided by [ring]. *)
Definition e_inv : F := Zmod.inv d.

Lemma d_e : d * e_inv = 1.
Proof. apply Zmod.mul_inv_same_r_prime; [exact prime_p|exact d_nonzero]. Qed.

Lemma e_nonzero : e_inv <> 0.
Proof.
  intros H. pose proof d_e as E. rewrite H in E.
  apply (Zmod.one_neq_zero (m := p)); [vm_compute; discriminate|]. rewrite <- E. ring.
Qed.

Lemma cancel (c u v : F) : c <> 0 -> c * u = c * v -> u = v.
Proof. intros Hc H. exact (Zmod.mul_cancel_l_prime c u v prime_p Hc H). Qed.

Lemma on_curve_e x y : on_curve x y -> x * x * (y * y) = e_inv * (y * y - x * x - 1).
Proof. unfold on_curve. intros ->. ring [d_e]. Qed.

Definition den_a (x1 y1 x2 y2 : F) : F := e_inv + x1 * x2 * y1 * y2.
Definition den_b (x1 y1 x2 y2 : F) : F := e_inv - x1 * x2 * y1 * y2.

Section Add.
Context {x1 y1 x2 y2 : F} (H1 : on_curve x1 y1) (H2 : on_curve x2 y2).

Lemma den_a_nonzero : den_a x1 y1 x2 y2 <> 0.
Proof using H1 H2.
  intros E. apply (complete_add x1 y1 x2 y2 H1 H2).
  transitivity (d * den_a x1 y1 x2 y2); [unfold den_a; ring [d_e]|rewrite E; ring].
Qed.

Lemma den_b_nonzero : den_b x1 y1 x2 y2 <> 0.
Proof using H1 H2.
  intros E. apply (complete_sub x1 y1 x2 y2 H1 H2).
  transitivity (d * den_b x1 y1 x2 y2); [unfold den_b; ring [d_e]|rewrite E; ring].
Qed.

Lemma add_x_spec : add_x x1 y1 x2 y2 * den_a x1 y1 x2 y2 = e_inv * (x1 * y2 + y1 * x2).
Proof using H1 H2.
  apply (cancel d); [exact d_nonzero|]. unfold add_x, den_a.
  transitivity ((x1 * y2 + y1 * x2) / (1 + d * x1 * x2 * y1 * y2)
                * (d * e_inv + d * x1 * x2 * y1 * y2)); [ring|].
  rewrite d_e. transitivity ((d * e_inv) * (x1 * y2 + y1 * x2)); [|ring]. rewrite d_e.
  field. apply complete_add; assumption.
Qed.

Lemma add_y_spec : add_y x1 y1 x2 y2 * den_b x1 y1 x2 y2 = e_inv * (y1 * y2 + x1 * x2).
Proof using H1 H2.
  apply (cancel d); [exact d_nonzero|]. unfold add_y, den_b.
  transitivity ((y1 * y2 + x1 * x2) / (1 - d * x1 * x2 * y1 * y2)
                * (d * e_inv - d * x1 * x2 * y1 * y2)); [ring|].
  rewrite d_e. transitivity ((d * e_inv) * (y1 * y2 + x1 * x2)); [|ring]. rewrite d_e.
  field. apply complete_sub; assumption.
Qed.

Lemma on_curve_add : on_curve (add_x x1 y1 x2 y2) (add_y x1 y1 x2 y2).
Proof using H1 H2.
  pose proof den_a_nonzero as Ha. pose proof den_b_nonzero as Hb.
  pose proof add_x_spec as HX. pose proof add_y_spec as HY.
  pose proof (on_curve_e _ _ H1) as E1. pose proof (on_curve_e _ _ H2) as E2.
  set (X := add_x x1 y1 x2 y2) in *. set (Y := add_y x1 y1 x2 y2) in *.
  set (a := den_a x1 y1 x2 y2) in *. set (b := den_b x1 y1 x2 y2) in *.
  unfold on_curve. apply (cancel (a * a * (b * b))); [repeat apply mul_nonzero; assumption|].
  transitivity ((a * a) * ((Y * b) * (Y * b)) - (b * b) * ((X * a) * (X * a))); [ring|].
  transitivity (a * a * (b * b) + d * ((X * a) * (X * a)) * ((Y * b) * (Y * b))); [|ring].
  rewrite HX, HY. unfold a, b, den_a, den_b. ring [d_e E1 E2].
Qed.
End Add.

Lemma add_x_comm x1 y1 x2 y2 : add_x x1 y1 x2 y2 = add_x x2 y2 x1 y1.
Proof. unfold add_x. f_equal; ring. Qed.
Lemma add_y_comm x1 y1 x2 y2 : add_y x1 y1 x2 y2 = add_y x2 y2 x1 y1.
Proof. unfold add_y. f_equal; ring. Qed.

(** Numerators and denominators of (P1 + P2) + P3, over those of P1 + P2. *)
Definition num3_x (x1 y1 x2 y2 x3 y3 : F) : F :=
  (x1 * y2 + y1 * x2) * den_b x1 y1 x2 y2 * y3 + (y1 * y2 + x1 * x2) * den_a x1 y1 x2 y2 * x3.
Definition num3_y (x1 y1 x2 y2 x3 y3 : F) : F :=
  (y1 * y2 + x1 * x2) * den_a x1 y1 x2 y2 * y3 + (x1 * y2 + y1 * x2) * den_b x1 y1 x2 y2 * x3.
Definition den3_x (x1 y1 x2 y2 x3 y3 : F) : F :=
  den_a x1 y1 x2 y2 * den_b x1 y1 x2 y2
  + e_inv * (x1 * y2 + y1 * x2) * (y1 * y2 + x1 * x2) * x3 * y3.
Definition den3_y (x1 y1 x2 y2 x3 y3 : F) : F :=
  den_a x1 y1 x2 y2 * den_b x1 y1 x2 y2
  - e_inv * (x1 * y2 + y1 * x2) * (y1 * y2 + x1 * x2) * x3 * y3.

Section Add3.
Context {x1 y1 x2 y2 x3 y3 : F}.
Context (H1 : on_curve x1 y1) (H2 : on_curve x2 y2) (H3 : on_curve x3 y3).
Let X := add_x x1 y1 x2 y2.
Let Y := add_y x1 y1 x2 y2.
Let a := den_a x1 y1 x2 y2.
Let b := den_b x1 y1 x2 y2.

Lemma den3_x_eq : e_inv * den3_x x1 y1 x2 y2 x3 y3 = a * b * den_a X Y x3 y3.
Proof using H1 H2.
  unfold den3_x. fold a b. unfold den_a at 1.
  transitivity (e_inv * (a * b) + (X * a) * (Y * b) * x3 * y3); [|ring].
  unfold X, Y, a, b. rewrite (add_x_spec H1 H2), (add_y_spec H1 H2). ring.
Qed.

Lemma den3_y_eq : e_inv * den3_y x1 y1 x2 y2 x3 y3 = a * b * den_b X Y x3 y3.
Proof using H1 H2.
  unfold den3_y. fold a b. unfold den_b at 1.
  transitivity (e_inv * (a * b) - (X * a) * (Y * b) * x3 * y3); [|ring].
  unfold X, Y, a, b. rewrite (add_x_spec H1 H2), (add_y_spec H1 H2). ring.
Qed.

Lemma ab_nonzero : a * b <> 0.
Proof using H1 H2.
  apply mul_nonzero; [exact (den_a_nonzero H1 H2)|exact (den_b_nonzero H1 H2)].
Qed.

Lemma den3_x_nonzero : den3_x x1 y1 x2 y2 x3 y3 <> 0.
Proof using H1 H2 H3.
  intros E. pose proof den3_x_eq as K. rewrite E in K.
  apply (mul_nonzero (a * b) (den_a X Y x3 y3)); [exact ab_nonzero| |].
  - exact (den_a_nonzero (on_curve_add H1 H2) H3).
  - rewrite <- K. ring.
Qed.

Lemma den3_y_nonzero : den3_y x1 y1 x2 y2 x3 y3 <> 0.
Proof using H1 H2 H3.
  intros E. pose proof den3_y_eq as K. rewrite E in K.
  apply (mul_nonzero (a * b) (den_b X Y x3 y3)); [exact ab_nonzero| |].
  - exact (den_b_nonzero (on_curve_add H1 H2) H3).
  - rewrite <- K. ring.
Qed.

Lemma add3_x : add_x X Y x3 y3 * den3_x x1 y1 x2 y2 x3 y3 = e_inv * num3_x x1 y1 x2 y2 x3 y3.
Proof using H1 H2 H3.
  apply (cancel e_inv); [exact e_nonzero|].
  transitivity (add_x X Y x3 y3 * (e_inv * den3_x x1 y1 x2 y2 x3 y3)); [ring|].
  rewrite den3_x_eq.
  transitivity (a * b * (add_x X Y x3 y3 * den_a X Y x3 y3)); [ring|].
  change (add_x X Y x3 y3 * den_a X Y x3 y3) with (add_x (add_x x1 y1 x2 y2) (add_y x1 y1 x2 y2) x3 y3 * den_a (add_x x1 y1 x2 y2) (add_y x1 y1 x2 y2) x3 y3).
  rewrite (add_x_spec (on_curve_add H1 H2) H3). fold X Y.
  transitivity (e_inv * ((X * a) * b * y3 + (Y * b) * a * x3)); [ring|].
  unfold X, Y, a, b. rewrite (add_x_spec H1 H2), (add_y_spec H1 H2). unfold num3_x. ring.
Qed.

Lemma add3_y : add_y X Y x3 y3 * den3_y x1 y1 x2 y2 x3 y3 = e_inv * num3_y x1 y1 x2 y2 x3 y3.
Proof using H1 H2 H3.
  apply (cancel e_inv); [exact e_nonzero|].
  transitivity (add_y X Y x3 y3 * (e_inv * den3_y x1 y1 x2 y2 x3 y3)); [ring|].
  rewrite den3_y_eq.
  transitivity (a * b * (add_y X Y x3 y3 * den_b X Y x3 y3)); [ring|].
  change (add_y X Y x3 y3 * den_b X Y x3 y3) with (add_y (add_x x1 y1 x2 y2) (add_y x1 y1 x2 y2) x3 y3 * den_b (add_x x1 y1 x2 y2) (add_y x1 y1 x2 y2) x3 y3).
  rewrite (add_y_spec (on_curve_add H1 H2) H3). fold X Y.
  transitivity (e_inv * ((Y * b) * a * y3 + (X * a) * b * x3)); [ring|].
  unfold X, Y, a, b. rewrite (add_x_spec H1 H2), (add_y_spec H1 H2). unfold num3_y. ring.
Qed.
End Add3.

Section Assoc.
Context {x1 y1 x2 y2 x3 y3 : F}.
Context (H1 : on_curve x1 y1) (H2 : on_curve x2 y2) (H3 : on_curve x3 y3).

Lemma num3_x_assoc :
  num3_x x1 y1 x2 y2 x3 y3 * den3_x x2 y2 x3 y3 x1 y1
  = num3_x x2 y2 x3 y3 x1 y1 * den3_x x1 y1 x2 y2 x3 y3.
Proof using H1 H2 H3.
  pose proof (on_curve_e _ _ H1) as E1. pose proof (on_curve_e _ _ H2) as E2.
  pose proof (on_curve_e _ _ H3) as E3.
  unfold num3_x, den3_x, den_a, den_b. ring [E1 E2 E3].
Qed.

Lemma num3_y_assoc :
  num3_y x1 y1 x2 y2 x3 y3 * den3_y x2 y2 x3 y3 x1 y1
  = num3_y x2 y2 x3 y3 x1 y1 * den3_y x1 y1 x2 y2 x3 y3.
Proof using H1 H2 H3.
  pose proof (on_curve_e _ _ H1) as E1. pose proof (on_curve_e _ _ H2) as E2.
  pose proof (on_curve_e _ _ H3) as E3.
  unfold num3_y, den3_y, den_a, den_b. ring [E1 E2 E3].
Qed.

Lemma cross (u v n n' c c' : F) :
  c <> 0 -> c' <> 0 -> u * c = e_inv * n -> v * c' = e_inv * n' -> n * c' = n' * c -> u = v.
Proof using.
  intros Hc Hc' Hu Hv Hn. apply (cancel (c * c')); [auto using mul_nonzero|].
  transitivity ((u * c) * c'); [ring|]. rewrite Hu.
  transitivity (e_inv * (n * c')); [ring|]. rewrite Hn.
  transitivity (c * (e_inv * n')); [ring|]. rewrite <- Hv. ring.
Qed.

Lemma add_x_assoc :
  add_x (add_x x1 y1 x2 y2) (add_y x1 y1 x2 y2) x3 y3
  = add_x x1 y1 (add_x x2 y2 x3 y3) (add_y x2 y2 x3 y3).
Proof using H1 H2 H3.
  rewrite (add_x_comm x1 y1 (add_x _ _ _ _)).
  exact (cross _ _ _ _ _ _ (den3_x_nonzero H1 H2 H3) (den3_x_nonzero H2 H3 H1)
           (add3_x H1 H2 H3) (add3_x H2 H3 H1) num3_x_assoc).
Qed.

Lemma add_y_assoc :
  add_y (add_x x1 y1 x2 y2) (add_y x1 y1 x2 y2) x3 y3
  = add_y x1 y1 (add_x x2 y2 x3 y3) (add_y x2 y2 x3 y3).
Proof using H1 H2 H3.
  rewrite (add_y_comm x1 y1 (add_x _ _ _ _)).
  exact (cross _ _ _ _ _ _ (den3_y_nonzero H1 H2 H3) (den3_y_nonzero H2 H3 H1)
           (add3_y H1 H2 H3) (add3_y H2 H3 H1) num3_y_assoc).
Qed.
End Assoc.

(** ** The group of points *)

Definition on_curveb (x y : F) : bool := Zmod.eqb (y * y - x * x) (1 + d * (x * x) * (y * y)).

Lemma on_curveb_spec x y : on_curveb x y = true <-> on_curve x y.
Proof. apply Zmod.eqb_eq. Qed.

Record point := Pt { px : F; py : F; pt_ok : on_curveb px py = true }.

Lemma pt_on P : on_curve (px P) (py P).
Proof. apply on_curveb_spec, pt_ok. Qed.

Lemma point_eq P Q : px P = px Q -> py P = py Q -> P = Q.
Proof.
  destruct P as [x y H], Q as [x' y' H']; cbn. intros <- <-.
  f_equal. apply UIP_dec, bool_dec.
Qed.

Definition padd (P Q : point) : point :=
  Pt (add_x (px P) (py P) (px Q) (py Q)) (add_y (px P) (py P) (px Q) (py Q))
     (proj2 (on_curveb_spec _ _) (on_curve_add (pt_on P) (pt_on Q))).

Lemma on_curve_zero : on_curve 0 1.
Proof. unfold on_curve. ring. Qed.

Definition pzero : point := Pt 0 1 (proj2 (on_curveb_spec _ _) on_curve_zero).

Lemma on_curve_opp x y : on_curve x y -> on_curve (- x) y.
Proof. unfold on_curve. intros H. transitivity (y * y - x * x); [ring|]. rewrite H. ring. Qed.

Definition popp (P : point) : point :=
  Pt (- px P) (py P) (proj2 (on_curveb_spec _ _) (on_curve_opp _ _ (pt_on P))).

Lemma add_0_l P : padd pzero P = P.
Proof.
  apply point_eq; cbn [padd px py pzero]; unfold add_x, add_y; field;
    intros E; apply (Zmod.one_neq_zero (m := p)); try (vm_compute; discriminate);
    rewrite <- E; ring.
Qed.

Lemma add_opp_r P : padd P (popp P) = pzero.
Proof.
  apply point_eq; cbn [padd px py pzero popp]; unfold add_x, add_y.
  - field. exact (complete_add _ _ _ _ (pt_on P) (on_curve_opp _ _ (pt_on P))).
  - pose proof (pt_on P) as H. unfold on_curve in H.
    pose proof (complete_sub _ _ _ _ (pt_on P) (on_curve_opp _ _ (pt_on P))) as D.
    apply (cancel _ _ _ D). field_simplify; [|exact D].
    transitivity (py P * py P - px P * px P); [ring|]. rewrite H. ring.
Qed.

#[export] Instance point_group : AbGroup point.
Proof.
  refine {| gadd := padd; gzero := pzero; gopp := popp |}.
  - intros A B C. apply point_eq; cbn [padd px py];
      [apply add_x_assoc|apply add_y_assoc]; apply pt_on.
  - intros A B. apply point_eq; cbn [padd px py]; [apply add_x_comm|apply add_y_comm].
  - exact add_0_l.
  - exact add_opp_r.
Defined.
