(* ===== verification/Fe.v ===== *)
(** Field elements of [simplest_ot_portable]: [fe.h] and the [fe_*.c] files
    that do arithmetic on limbs.  [crypto_int32] and [crypto_int64] operations
    wrap at 32 and 64 bits; the theorems show that, within the bounds the
    comments of the code state, none of them does, and that the result is the
    product, square, sum ... in Z/(2^255-19) within the bounds stated. *)
From Stdlib Require Import ZArith Lia List Zmod.
From S2P Require Import Prelude.
From S2P Require Import PrimeP.
From S2P Require Import Fp.

(** ** Data and operations *)

(** [typedef crypto_int32 fe[10]]. *)
Record fe := Fe { fe0 : Z; fe1 : Z; fe2 : Z; fe3 : Z; fe4 : Z;
                  fe5 : Z; fe6 : Z; fe7 : Z; fe8 : Z; fe9 : Z }.

Definition fe_0 : fe := Fe 0 0 0 0 0 0 0 0 0 0.
Definition fe_1 : fe := Fe 1 0 0 0 0 0 0 0 0 0.

Definition fe_copy (f : fe) : fe :=
  let '(Fe f0 f1 f2 f3 f4 f5 f6 f7 f8 f9) := f in
  Fe f0 f1 f2 f3 f4 f5 f6 f7 f8 f9.

Definition fe_add (f g : fe) : fe :=
  let '(Fe f0 f1 f2 f3 f4 f5 f6 f7 f8 f9) := f in
  let '(Fe g0 g1 g2 g3 g4 g5 g6 g7 g8 g9) := g in
  let h0 := f0 [+i] g0 in
  let h1 := f1 [+i] g1 in
  let h2 := f2 [+i] g2 in
  let h3 := f3 [+i] g3 in
  let h4 := f4 [+i] g4 in
  let h5 := f5 [+i] g5 in
  let h6 := f6 [+i] g6 in
  let h7 := f7 [+i] g7 in
  let h8 := f8 [+i] g8 in
  let h9 := f9 [+i] g9 in
  Fe h0 h1 h2 h3 h4 h5 h6 h7 h8 h9.

Definition fe_sub (f g : fe) : fe :=
  let '(Fe f0 f1 f2 f3 f4 f5 f6 f7 f8 f9) := f in
  let '(Fe g0 g1 g2 g3 g4 g5 g6 g7 g8 g9) := g in
  let h0 := f0 [-i] g0 in
  let h1 := f1 [-i] g1 in
  let h2 := f2 [-i] g2 in
  let h3 := f3 [-i] g3 in
  let h4 := f4 [-i] g4 in
  let h5 := f5 [-i] g5 in
  let h6 := f6 [-i] g6 in
  let h7 := f7 [-i] g7 in
  let h8 := f8 [-i] g8 in
  let h9 := f9 [-i] g9 in
  Fe h0 h1 h2 h3 h4 h5 h6 h7 h8 h9.

Definition fe_neg (f : fe) : fe :=
  let '(Fe f0 f1 f2 f3 f4 f5 f6 f7 f8 f9) := f in
  let h0 := i32 (- f0) in
  let h1 := i32 (- f1) in
  let h2 := i32 (- f2) in
  let h3 := i32 (- f3) in
  let h4 := i32 (- f4) in
  let h5 := i32 (- f5) in
  let h6 := i32 (- f6) in
  let h7 := i32 (- f7) in
  let h8 := i32 (- f8) in
  let h9 := i32 (- f9) in
  Fe h0 h1 h2 h3 h4 h5 h6 h7 h8 h9.

Definition fe_cmov (f g : fe) (b : Z) : fe :=
  let '(Fe f0 f1 f2 f3 f4 f5 f6 f7 f8 f9) := f in
  let '(Fe g0 g1 g2 g3 g4 g5 g6 g7 g8 g9) := g in
  let x0 := Z.lxor f0 g0 in
  let x1 := Z.lxor f1 g1 in
  let x2 := Z.lxor f2 g2 in
  let x3 := Z.lxor f3 g3 in
  let x4 := Z.lxor f4 g4 in
  let x5 := Z.lxor f5 g5 in
  let x6 := Z.lxor f6 g6 in
  let x7 := Z.lxor f7 g7 in
  let x8 := Z.lxor f8 g8 in
  let x9 := Z.lxor f9 g9 in
  let b := u32 (- b) in
  let x0 := i32 (Z.land (u32 x0) b) in
  let x1 := i32 (Z.land (u32 x1) b) in
  let x2 := i32 (Z.land (u32 x2) b) in
  let x3 := i32 (Z.land (u32 x3) b) in
  let x4 := i32 (Z.land (u32 x4) b) in
  let x5 := i32 (Z.land (u32 x5) b) in
  let x6 := i32 (Z.land (u32 x6) b) in
  let x7 := i32 (Z.land (u32 x7) b) in
  let x8 := i32 (Z.land (u32 x8) b) in
  let x9 := i32 (Z.land (u32 x9) b) in
  Fe (Z.lxor f0 x0) (Z.lxor f1 x1) (Z.lxor f2 x2) (Z.lxor f3 x3) (Z.lxor f4 x4)
     (Z.lxor f5 x5) (Z.lxor f6 x6) (Z.lxor f7 x7) (Z.lxor f8 x8) (Z.lxor f9 x9).

Definition fe_carry (h0 h1 h2 h3 h4 h5 h6 h7 h8 h9 : Z) : fe :=
  let carry0 := (h0 [+l] (1 [<<] 25)) [>>] 26 in
  let h1 := h1 [+l] carry0 in
  let h0 := h0 [-l] (carry0 [<<l] 26) in
  let carry4 := (h4 [+l] (1 [<<] 25)) [>>] 26 in
  let h5 := h5 [+l] carry4 in
  let h4 := h4 [-l] (carry4 [<<l] 26) in
  let carry1 := (h1 [+l] (1 [<<] 24)) [>>] 25 in
  let h2 := h2 [+l] carry1 in
  let h1 := h1 [-l] (carry1 [<<l] 25) in
  let carry5 := (h5 [+l] (1 [<<] 24)) [>>] 25 in
  let h6 := h6 [+l] carry5 in
  let h5 := h5 [-l] (carry5 [<<l] 25) in
  let carry2 := (h2 [+l] (1 [<<] 25)) [>>] 26 in
  let h3 := h3 [+l] carry2 in
  let h2 := h2 [-l] (carry2 [<<l] 26) in
  let carry6 := (h6 [+l] (1 [<<] 25)) [>>] 26 in
  let h7 := h7 [+l] carry6 in
  let h6 := h6 [-l] (carry6 [<<l] 26) in
  let carry3 := (h3 [+l] (1 [<<] 24)) [>>] 25 in
  let h4 := h4 [+l] carry3 in
  let h3 := h3 [-l] (carry3 [<<l] 25) in
  let carry7 := (h7 [+l] (1 [<<] 24)) [>>] 25 in
  let h8 := h8 [+l] carry7 in
  let h7 := h7 [-l] (carry7 [<<l] 25) in
  let carry4 := (h4 [+l] (1 [<<] 25)) [>>] 26 in
  let h5 := h5 [+l] carry4 in
  let h4 := h4 [-l] (carry4 [<<l] 26) in
  let carry8 := (h8 [+l] (1 [<<] 25)) [>>] 26 in
  let h9 := h9 [+l] carry8 in
  let h8 := h8 [-l] (carry8 [<<l] 26) in
  let carry9 := (h9 [+l] (1 [<<] 24)) [>>] 25 in
  let h0 := h0 [+l] carry9 [*l] 19 in
  let h9 := h9 [-l] (carry9 [<<l] 25) in
  let carry0 := (h0 [+l] (1 [<<] 25)) [>>] 26 in
  let h1 := h1 [+l] carry0 in
  let h0 := h0 [-l] (carry0 [<<l] 26) in
  Fe (i32 h0) (i32 h1) (i32 h2) (i32 h3) (i32 h4)
     (i32 h5) (i32 h6) (i32 h7) (i32 h8) (i32 h9).

Definition fe_mul (f g : fe) : fe :=
  let '(Fe f0 f1 f2 f3 f4 f5 f6 f7 f8 f9) := f in
  let '(Fe g0 g1 g2 g3 g4 g5 g6 g7 g8 g9) := g in
  let g1_19 := 19 [*i] g1 in
  let g2_19 := 19 [*i] g2 in
  let g3_19 := 19 [*i] g3 in
  let g4_19 := 19 [*i] g4 in
  let g5_19 := 19 [*i] g5 in
  let g6_19 := 19 [*i] g6 in
  let g7_19 := 19 [*i] g7 in
  let g8_19 := 19 [*i] g8 in
  let g9_19 := 19 [*i] g9 in
  let f1_2 := 2 [*i] f1 in
  let f3_2 := 2 [*i] f3 in
  let f5_2 := 2 [*i] f5 in
  let f7_2 := 2 [*i] f7 in
  let f9_2 := 2 [*i] f9 in
  let f0g0 := f0 [*l] g0 in
  let f0g1 := f0 [*l] g1 in
  let f0g2 := f0 [*l] g2 in
  let f0g3 := f0 [*l] g3 in
  let f0g4 := f0 [*l] g4 in
  let f0g5 := f0 [*l] g5 in
  let f0g6 := f0 [*l] g6 in
  let f0g7 := f0 [*l] g7 in
  let f0g8 := f0 [*l] g8 in
  let f0g9 := f0 [*l] g9 in
  let f1g0 := f1 [*l] g0 in
  let f1g1_2 := f1_2 [*l] g1 in
  let f1g2 := f1 [*l] g2 in
  let f1g3_2 := f1_2 [*l] g3 in
  let f1g4 := f1 [*l] g4 in
  let f1g5_2 := f1_2 [*l] g5 in
  let f1g6 := f1 [*l] g6 in
  let f1g7_2 := f1_2 [*l] g7 in
  let f1g8 := f1 [*l] g8 in
  let f1g9_38 := f1_2 [*l] g9_19 in
  let f2g0 := f2 [*l] g0 in
  let f2g1 := f2 [*l] g1 in
  let f2g2 := f2 [*l] g2 in
  let f2g3 := f2 [*l] g3 in
  let f2g4 := f2 [*l] g4 in
  let f2g5 := f2 [*l] g5 in
  let f2g6 := f2 [*l] g6 in
  let f2g7 := f2 [*l] g7 in
  let f2g8_19 := f2 [*l] g8_19 in
  let f2g9_19 := f2 [*l] g9_19 in
  let f3g0 := f3 [*l] g0 in
  let f3g1_2 := f3_2 [*l] g1 in
  let f3g2 := f3 [*l] g2 in
  let f3g3_2 := f3_2 [*l] g3 in
  let f3g4 := f3 [*l] g4 in
  let f3g5_2 := f3_2 [*l] g5 in
  let f3g6 := f3 [*l] g6 in
  let f3g7_38 := f3_2 [*l] g7_19 in
  let f3g8_19 := f3 [*l] g8_19 in
  let f3g9_38 := f3_2 [*l] g9_19 in
  let f4g0 := f4 [*l] g0 in
  let f4g1 := f4 [*l] g1 in
  let f4g2 := f4 [*l] g2 in
  let f4g3 := f4 [*l] g3 in
  let f4g4 := f4 [*l] g4 in
  let f4g5 := f4 [*l] g5 in
  let f4g6_19 := f4 [*l] g6_19 in
  let f4g7_19 := f4 [*l] g7_19 in
  let f4g8_19 := f4 [*l] g8_19 in
  let f4g9_19 := f4 [*l] g9_19 in
  let f5g0 := f5 [*l] g0 in
  let f5g1_2 := f5_2 [*l] g1 in
  let f5g2 := f5 [*l] g2 in
  let f5g3_2 := f5_2 [*l] g3 in
  let f5g4 := f5 [*l] g4 in
  let f5g5_38 := f5_2 [*l] g5_19 in
  let f5g6_19 := f5 [*l] g6_19 in
  let f5g7_38 := f5_2 [*l] g7_19 in
  let f5g8_19 := f5 [*l] g8_19 in
  let f5g9_38 := f5_2 [*l] g9_19 in
  let f6g0 := f6 [*l] g0 in
  let f6g1 := f6 [*l] g1 in
  let f6g2 := f6 [*l] g2 in
  let f6g3 := f6 [*l] g3 in
  let f6g4_19 := f6 [*l] g4_19 in
  let f6g5_19 := f6 [*l] g5_19 in
  let f6g6_19 := f6 [*l] g6_19 in
  let f6g7_19 := f6 [*l] g7_19 in
  let f6g8_19 := f6 [*l] g8_19 in
  let f6g9_19 := f6 [*l] g9_19 in
  let f7g0 := f7 [*l] g0 in
  let f7g1_2 := f7_2 [*l] g1 in
  let f7g2 := f7 [*l] g2 in
  let f7g3_38 := f7_2 [*l] g3_19 in
  let f7g4_19 := f7 [*l] g4_19 in
  let f7g5_38 := f7_2 [*l] g5_19 in
  let f7g6_19 := f7 [*l] g6_19 in
  let f7g7_38 := f7_2 [*l] g7_19 in
  let f7g8_19 := f7 [*l] g8_19 in
  let f7g9_38 := f7_2 [*l] g9_19 in
  let f8g0 := f8 [*l] g0 in
  let f8g1 := f8 [*l] g1 in
  let f8g2_19 := f8 [*l] g2_19 in
  let f8g3_19 := f8 [*l] g3_19 in
  let f8g4_19 := f8 [*l] g4_19 in
  let f8g5_19 := f8 [*l] g5_19 in
  let f8g6_19 := f8 [*l] g6_19 in
  let f8g7_19 := f8 [*l] g7_19 in
  let f8g8_19 := f8 [*l] g8_19 in
  let f8g9_19 := f8 [*l] g9_19 in
  let f9g0 := f9 [*l] g0 in
  let f9g1_38 := f9_2 [*l] g1_19 in
  let f9g2_19 := f9 [*l] g2_19 in
  let f9g3_38 := f9_2 [*l] g3_19 in
  let f9g4_19 := f9 [*l] g4_19 in
  let f9g5_38 := f9_2 [*l] g5_19 in
  let f9g6_19 := f9 [*l] g6_19 in
  let f9g7_38 := f9_2 [*l] g7_19 in
  let f9g8_19 := f9 [*l] g8_19 in
  let f9g9_38 := f9_2 [*l] g9_19 in
  let h0 := f0g0 [+l] f1g9_38 [+l] f2g8_19 [+l] f3g7_38 [+l] f4g6_19 [+l] f5g5_38
     [+l] f6g4_19 [+l] f7g3_38 [+l] f8g2_19 [+l] f9g1_38 in
  let h1 := f0g1 [+l] f1g0 [+l] f2g9_19 [+l] f3g8_19 [+l] f4g7_19 [+l] f5g6_19
     [+l] f6g5_19 [+l] f7g4_19 [+l] f8g3_19 [+l] f9g2_19 in
  let h2 := f0g2 [+l] f1g1_2 [+l] f2g0 [+l] f3g9_38 [+l] f4g8_19 [+l] f5g7_38
     [+l] f6g6_19 [+l] f7g5_38 [+l] f8g4_19 [+l] f9g3_38 in
  let h3 := f0g3 [+l] f1g2 [+l] f2g1 [+l] f3g0 [+l] f4g9_19 [+l] f5g8_19 [+l] f6g7_19
     [+l] f7g6_19 [+l] f8g5_19 [+l] f9g4_19 in
  let h4 := f0g4 [+l] f1g3_2 [+l] f2g2 [+l] f3g1_2 [+l] f4g0 [+l] f5g9_38 [+l] f6g8_19
     [+l] f7g7_38 [+l] f8g6_19 [+l] f9g5_38 in
  let h5 := f0g5 [+l] f1g4 [+l] f2g3 [+l] f3g2 [+l] f4g1 [+l] f5g0 [+l] f6g9_19
     [+l] f7g8_19 [+l] f8g7_19 [+l] f9g6_19 in
  let h6 := f0g6 [+l] f1g5_2 [+l] f2g4 [+l] f3g3_2 [+l] f4g2 [+l] f5g1_2 [+l] f6g0
     [+l] f7g9_38 [+l] f8g8_19 [+l] f9g7_38 in
  let h7 := f0g7 [+l] f1g6 [+l] f2g5 [+l] f3g4 [+l] f4g3 [+l] f5g2 [+l] f6g1 [+l] f7g0
     [+l] f8g9_19 [+l] f9g8_19 in
  let h8 := f0g8 [+l] f1g7_2 [+l] f2g6 [+l] f3g5_2 [+l] f4g4 [+l] f5g3_2 [+l] f6g2
     [+l] f7g1_2 [+l] f8g0 [+l] f9g9_38 in
  let h9 := f0g9 [+l] f1g8 [+l] f2g7 [+l] f3g6 [+l] f4g5 [+l] f5g4 [+l] f6g3 [+l] f7g2
     [+l] f8g1 [+l] f9g0 in
  fe_carry h0 h1 h2 h3 h4 h5 h6 h7 h8 h9.

Definition fe_sq (f : fe) : fe :=
  let '(Fe f0 f1 f2 f3 f4 f5 f6 f7 f8 f9) := f in
  let f0_2 := 2 [*i] f0 in
  let f1_2 := 2 [*i] f1 in
  let f2_2 := 2 [*i] f2 in
  let f3_2 := 2 [*i] f3 in
  let f4_2 := 2 [*i] f4 in
  let f5_2 := 2 [*i] f5 in
  let f6_2 := 2 [*i] f6 in
  let f7_2 := 2 [*i] f7 in
  let f5_38 := 38 [*i] f5 in
  let f6_19 := 19 [*i] f6 in
  let f7_38 := 38 [*i] f7 in
  let f8_19 := 19 [*i] f8 in
  let f9_38 := 38 [*i] f9 in
  let f0f0 := f0 [*l] f0 in
  let f0f1_2 := f0_2 [*l] f1 in
  let f0f2_2 := f0_2 [*l] f2 in
  let f0f3_2 := f0_2 [*l] f3 in
  let f0f4_2 := f0_2 [*l] f4 in
  let f0f5_2 := f0_2 [*l] f5 in
  let f0f6_2 := f0_2 [*l] f6 in
  let f0f7_2 := f0_2 [*l] f7 in
  let f0f8_2 := f0_2 [*l] f8 in
  let f0f9_2 := f0_2 [*l] f9 in
  let f1f1_2 := f1_2 [*l] f1 in
  let f1f2_2 := f1_2 [*l] f2 in
  let f1f3_4 := f1_2 [*l] f3_2 in
  let f1f4_2 := f1_2 [*l] f4 in
  let f1f5_4 := f1_2 [*l] f5_2 in
  let f1f6_2 := f1_2 [*l] f6 in
  let f1f7_4 := f1_2 [*l] f7_2 in
  let f1f8_2 := f1_2 [*l] f8 in
  let f1f9_76 := f1_2 [*l] f9_38 in
  let f2f2 := f2 [*l] f2 in
  let f2f3_2 := f2_2 [*l] f3 in
  let f2f4_2 := f2_2 [*l] f4 in
  let f2f5_2 := f2_2 [*l] f5 in
  let f2f6_2 := f2_2 [*l] f6 in
  let f2f7_2 := f2_2 [*l] f7 in
  let f2f8_38 := f2_2 [*l] f8_19 in
  let f2f9_38 := f2 [*l] f9_38 in
  let f3f3_2 := f3_2 [*l] f3 in
  let f3f4_2 := f3_2 [*l] f4 in
  let f3f5_4 := f3_2 [*l] f5_2 in
  let f3f6_2 := f3_2 [*l] f6 in
  let f3f7_76 := f3_2 [*l] f7_38 in
  let f3f8_38 := f3_2 [*l] f8_19 in
  let f3f9_76 := f3_2 [*l] f9_38 in
  let f4f4 := f4 [*l] f4 in
  let f4f5_2 := f4_2 [*l] f5 in
  let f4f6_38 := f4_2 [*l] f6_19 in
  let f4f7_38 := f4 [*l] f7_38 in
  let f4f8_38 := f4_2 [*l] f8_19 in
  let f4f9_38 := f4 [*l] f9_38 in
  let f5f5_38 := f5 [*l] f5_38 in
  let f5f6_38 := f5_2 [*l] f6_19 in
  let f5f7_76 := f5_2 [*l] f7_38 in
  let f5f8_38 := f5_2 [*l] f8_19 in
  let f5f9_76 := f5_2 [*l] f9_38 in
  let f6f6_19 := f6 [*l] f6_19 in
  let f6f7_38 := f6 [*l] f7_38 in
  let f6f8_38 := f6_2 [*l] f8_19 in
  let f6f9_38 := f6 [*l] f9_38 in
  let f7f7_38 := f7 [*l] f7_38 in
  let f7f8_38 := f7_2 [*l] f8_19 in
  let f7f9_76 := f7_2 [*l] f9_38 in
  let f8f8_19 := f8 [*l] f8_19 in
  let f8f9_38 := f8 [*l] f9_38 in
  let f9f9_38 := f9 [*l] f9_38 in
  let h0 := f0f0 [+l] f1f9_76 [+l] f2f8_38 [+l] f3f7_76 [+l] f4f6_38 [+l] f5f5_38 in
  let h1 := f0f1_2 [+l] f2f9_38 [+l] f3f8_38 [+l] f4f7_38 [+l] f5f6_38 in
  let h2 := f0f2_2 [+l] f1f1_2 [+l] f3f9_76 [+l] f4f8_38 [+l] f5f7_76 [+l] f6f6_19 in
  let h3 := f0f3_2 [+l] f1f2_2 [+l] f4f9_38 [+l] f5f8_38 [+l] f6f7_38 in
  let h4 := f0f4_2 [+l] f1f3_4 [+l] f2f2 [+l] f5f9_76 [+l] f6f8_38 [+l] f7f7_38 in
  let h5 := f0f5_2 [+l] f1f4_2 [+l] f2f3_2 [+l] f6f9_38 [+l] f7f8_38 in
  let h6 := f0f6_2 [+l] f1f5_4 [+l] f2f4_2 [+l] f3f3_2 [+l] f7f9_76 [+l] f8f8_19 in
  let h7 := f0f7_2 [+l] f1f6_2 [+l] f2f5_2 [+l] f3f4_2 [+l] f8f9_38 in
  let h8 := f0f8_2 [+l] f1f7_4 [+l] f2f6_2 [+l] f3f5_4 [+l] f4f4 [+l] f9f9_38 in
  let h9 := f0f9_2 [+l] f1f8_2 [+l] f2f7_2 [+l] f3f6_2 [+l] f4f5_2 in
  fe_carry h0 h1 h2 h3 h4 h5 h6 h7 h8 h9.

Definition fe_sq2 (f : fe) : fe :=
  let '(Fe f0 f1 f2 f3 f4 f5 f6 f7 f8 f9) := f in
  let f0_2 := 2 [*i] f0 in
  let f1_2 := 2 [*i] f1 in
  let f2_2 := 2 [*i] f2 in
  let f3_2 := 2 [*i] f3 in
  let f4_2 := 2 [*i] f4 in
  let f5_2 := 2 [*i] f5 in
  let f6_2 := 2 [*i] f6 in
  let f7_2 := 2 [*i] f7 in
  let f5_38 := 38 [*i] f5 in
  let f6_19 := 19 [*i] f6 in
  let f7_38 := 38 [*i] f7 in
  let f8_19 := 19 [*i] f8 in
  let f9_38 := 38 [*i] f9 in
  let f0f0 := f0 [*l] f0 in
  let f0f1_2 := f0_2 [*l] f1 in
  let f0f2_2 := f0_2 [*l] f2 in
  let f0f3_2 := f0_2 [*l] f3 in
  let f0f4_2 := f0_2 [*l] f4 in
  let f0f5_2 := f0_2 [*l] f5 in
  let f0f6_2 := f0_2 [*l] f6 in
  let f0f7_2 := f0_2 [*l] f7 in
  let f0f8_2 := f0_2 [*l] f8 in
  let f0f9_2 := f0_2 [*l] f9 in
  let f1f1_2 := f1_2 [*l] f1 in
  let f1f2_2 := f1_2 [*l] f2 in
  let f1f3_4 := f1_2 [*l] f3_2 in
  let f1f4_2 := f1_2 [*l] f4 in
  let f1f5_4 := f1_2 [*l] f5_2 in
  let f1f6_2 := f1_2 [*l] f6 in
  let f1f7_4 := f1_2 [*l] f7_2 in
  let f1f8_2 := f1_2 [*l] f8 in
  let f1f9_76 := f1_2 [*l] f9_38 in
  let f2f2 := f2 [*l] f2 in
  let f2f3_2 := f2_2 [*l] f3 in
  let f2f4_2 := f2_2 [*l] f4 in
  let f2f5_2 := f2_2 [*l] f5 in
  let f2f6_2 := f2_2 [*l] f6 in
  let f2f7_2 := f2_2 [*l] f7 in
  let f2f8_38 := f2_2 [*l] f8_19 in
  let f2f9_38 := f2 [*l] f9_38 in
  let f3f3_2 := f3_2 [*l] f3 in
  let f3f4_2 := f3_2 [*l] f4 in
  let f3f5_4 := f3_2 [*l] f5_2 in
  let f3f6_2 := f3_2 [*l] f6 in
  let f3f7_76 := f3_2 [*l] f7_38 in
  let f3f8_38 := f3_2 [*l] f8_19 in
  let f3f9_76 := f3_2 [*l] f9_38 in
  let f4f4 := f4 [*l] f4 in
  let f4f5_2 := f4_2 [*l] f5 in
  let f4f6_38 := f4_2 [*l] f6_19 in
  let f4f7_38 := f4 [*l] f7_38 in
  let f4f8_38 := f4_2 [*l] f8_19 in
  let f4f9_38 := f4 [*l] f9_38 in
  let f5f5_38 := f5 [*l] f5_38 in
  let f5f6_38 := f5_2 [*l] f6_19 in
  let f5f7_76 := f5_2 [*l] f7_38 in
  let f5f8_38 := f5_2 [*l] f8_19 in
  let f5f9_76 := f5_2 [*l] f9_38 in
  let f6f6_19 := f6 [*l] f6_19 in
  let f6f7_38 := f6 [*l] f7_38 in
  let f6f8_38 := f6_2 [*l] f8_19 in
  let f6f9_38 := f6 [*l] f9_38 in
  let f7f7_38 := f7 [*l] f7_38 in
  let f7f8_38 := f7_2 [*l] f8_19 in
  let f7f9_76 := f7_2 [*l] f9_38 in
  let f8f8_19 := f8 [*l] f8_19 in
  let f8f9_38 := f8 [*l] f9_38 in
  let f9f9_38 := f9 [*l] f9_38 in
  let h0 := f0f0 [+l] f1f9_76 [+l] f2f8_38 [+l] f3f7_76 [+l] f4f6_38 [+l] f5f5_38 in
  let h1 := f0f1_2 [+l] f2f9_38 [+l] f3f8_38 [+l] f4f7_38 [+l] f5f6_38 in
  let h2 := f0f2_2 [+l] f1f1_2 [+l] f3f9_76 [+l] f4f8_38 [+l] f5f7_76 [+l] f6f6_19 in
  let h3 := f0f3_2 [+l] f1f2_2 [+l] f4f9_38 [+l] f5f8_38 [+l] f6f7_38 in
  let h4 := f0f4_2 [+l] f1f3_4 [+l] f2f2 [+l] f5f9_76 [+l] f6f8_38 [+l] f7f7_38 in
  let h5 := f0f5_2 [+l] f1f4_2 [+l] f2f3_2 [+l] f6f9_38 [+l] f7f8_38 in
  let h6 := f0f6_2 [+l] f1f5_4 [+l] f2f4_2 [+l] f3f3_2 [+l] f7f9_76 [+l] f8f8_19 in
  let h7 := f0f7_2 [+l] f1f6_2 [+l] f2f5_2 [+l] f3f4_2 [+l] f8f9_38 in
  let h8 := f0f8_2 [+l] f1f7_4 [+l] f2f6_2 [+l] f3f5_4 [+l] f4f4 [+l] f9f9_38 in
  let h9 := f0f9_2 [+l] f1f8_2 [+l] f2f7_2 [+l] f3f6_2 [+l] f4f5_2 in
  let h0 := h0 [+l] h0 in
  let h1 := h1 [+l] h1 in
  let h2 := h2 [+l] h2 in
  let h3 := h3 [+l] h3 in
  let h4 := h4 [+l] h4 in
  let h5 := h5 [+l] h5 in
  let h6 := h6 [+l] h6 in
  let h7 := h7 [+l] h7 in
  let h8 := h8 [+l] h8 in
  let h9 := h9 [+l] h9 in
  fe_carry h0 h1 h2 h3 h4 h5 h6 h7 h8 h9.


(** ** Value and bounds of a field element *)

(** "An element t, entries t[0]...t[9], represents the integer
    t[0]+2^26 t[1]+2^51 t[2]+2^77 t[3]+2^102 t[4]+...+2^230 t[9]." *)
Definition limbs_val (h0 h1 h2 h3 h4 h5 h6 h7 h8 h9 : Z) : Z :=
  h0 + 2 ^ 26 * h1 + 2 ^ 51 * h2 + 2 ^ 77 * h3 + 2 ^ 102 * h4 + 2 ^ 128 * h5
  + 2 ^ 153 * h6 + 2 ^ 179 * h7 + 2 ^ 204 * h8 + 2 ^ 230 * h9.
Definition fe_val (f : fe) : Z :=
  let '(Fe f0 f1 f2 f3 f4 f5 f6 f7 f8 f9) := f in
  limbs_val f0 f1 f2 f3 f4 f5 f6 f7 f8 f9.
Definition feval (f : fe) : F := inF (fe_val f).

(** [bounded k f]: the limbs of [f] are at most k/100 times 2^25, 2^24, 2^25, ...
    in absolute value.  "|f| bounded by 1.65*2^26,1.65*2^25,etc." is
    [bounded 330 f]; "bounded by 1.01*2^25,1.01*2^24,etc." is [bounded 101 f]. *)
Definition limb_le (w k x : Z) : Prop := 100 * Z.abs x <= k * 2 ^ w.
Definition bounded (k : Z) (f : fe) : Prop :=
  let '(Fe f0 f1 f2 f3 f4 f5 f6 f7 f8 f9) := f in
  limb_le 25 k f0 /\ limb_le 24 k f1 /\ limb_le 25 k f2 /\ limb_le 24 k f3 /\
  limb_le 25 k f4 /\ limb_le 24 k f5 /\ limb_le 25 k f6 /\ limb_le 24 k f7 /\
  limb_le 25 k f8 /\ limb_le 24 k f9.

Lemma limb_le_ival w k x :
  0 <= w -> limb_le w k x -> - (k * 2 ^ w / 100) <= x <= k * 2 ^ w / 100.
Proof.
  unfold limb_le. intros Hw H.
  assert (Z.abs x <= k * 2 ^ w / 100) by (apply Z.div_le_lower_bound; lia). lia.
Qed.

Lemma limb_le_weaken w k l x : 0 <= w -> k <= l -> limb_le w k x -> limb_le w l x.
Proof. unfold limb_le. intros. pose proof (Z.pow_nonneg 2 w). nia. Qed.

Lemma bounded_weaken k l f : bounded k f -> k <= l -> bounded l f.
Proof.
  destruct f; unfold bounded. intros H Hl. decompose [and] H.
  repeat split; eapply limb_le_weaken; eauto; lia.
Qed.

(** Put the ranges of the limbs of a bounded element in the context. *)
Ltac fe_ranges H :=
  unfold bounded in H; decompose [and] H; clear H;
  repeat match goal with
    | L : limb_le _ _ _ |- _ => apply limb_le_ival in L; [|lia]
    end.

(** The outcome of an operation: a field element within bounds of a given class. *)
Definition yields (k : Z) (x : F) (f : fe) : Prop := bounded k f /\ feval f = x.

Lemma yields_val k v f :
  bounded k f -> (exists q, fe_val f = v + q * p) -> yields k (inF v) f.
Proof. intros Hb [q Hq]. split; [exact Hb|]. eapply inF_eq, Hq. Qed.

(** ** The carry chain *)

Lemma fe_carry_ok h0 h1 h2 h3 h4 h5 h6 h7 h8 h9 :
  - 2 ^ 62 <= h0 <= 2 ^ 62 -> - 2 ^ 62 <= h1 <= 2 ^ 62 -> - 2 ^ 62 <= h2 <= 2 ^ 62 -> - 2 ^ 62 <= h3 <= 2 ^ 62 -> - 2 ^ 62 <= h4 <= 2 ^ 62 ->
  - 2 ^ 62 <= h5 <= 2 ^ 62 -> - 2 ^ 62 <= h6 <= 2 ^ 62 -> - 2 ^ 62 <= h7 <= 2 ^ 62 -> - 2 ^ 62 <= h8 <= 2 ^ 62 -> - 2 ^ 62 <= h9 <= 2 ^ 62 ->
  yields 101 (inF (limbs_val h0 h1 h2 h3 h4 h5 h6 h7 h8 h9)) (fe_carry h0 h1 h2 h3 h4 h5 h6 h7 h8 h9).
Proof.
  intros. cbv beta iota delta [fe_carry]. ival_steps.
  match goal with E : _ = _ + ?c * 19 |- _ => apply yields_val; [|exists (- c)] end.
  - unfold bounded, limb_le. ival_unwrap. ival_forget. repeat (split; [lia|]). lia.
  - unfold fe_val, limbs_val, p. ival_unwrap. ival_forget_carries. subst. ring.
Qed.

(** ** Multiplication and squaring *)

Lemma yields_congr k v w f q : w = v + q * p -> yields k (inF w) f -> yields k (inF v) f.
Proof. intros E [Hb Hv]. split; [exact Hb|]. rewrite Hv. eapply inF_eq, E. Qed.

Lemma fe_mul_ok f g :
  bounded 330 f -> bounded 330 g -> yields 101 (feval f * feval g)%F (fe_mul f g).
Proof.
  destruct f as [f0 f1 f2 f3 f4 f5 f6 f7 f8 f9], g as [g0 g1 g2 g3 g4 g5 g6 g7 g8 g9].
  intros Hf Hg. fe_ranges Hf. fe_ranges Hg.
  unfold feval. rewrite <- inF_mul. cbn [fe_val].
  cbv beta iota delta [fe_mul]. ival_steps.
  eapply (yields_congr _ _ _ _ (-
    (f1 * g9 * 2 ^ 1 + f2 * g8 * 2 ^ 0 + f2 * g9 * 2 ^ 26 + f3 * g7 * 2 ^ 1 + f3 * g8 * 2 ^ 26
      + f3 * g9 * 2 ^ 52 + f4 * g6 * 2 ^ 0 + f4 * g7 * 2 ^ 26 + f4 * g8 * 2 ^ 51
      + f4 * g9 * 2 ^ 77 + f5 * g5 * 2 ^ 1 + f5 * g6 * 2 ^ 26 + f5 * g7 * 2 ^ 52
      + f5 * g8 * 2 ^ 77 + f5 * g9 * 2 ^ 103 + f6 * g4 * 2 ^ 0 + f6 * g5 * 2 ^ 26
      + f6 * g6 * 2 ^ 51 + f6 * g7 * 2 ^ 77 + f6 * g8 * 2 ^ 102 + f6 * g9 * 2 ^ 128
      + f7 * g3 * 2 ^ 1 + f7 * g4 * 2 ^ 26 + f7 * g5 * 2 ^ 52 + f7 * g6 * 2 ^ 77
      + f7 * g7 * 2 ^ 103 + f7 * g8 * 2 ^ 128 + f7 * g9 * 2 ^ 154 + f8 * g2 * 2 ^ 0
      + f8 * g3 * 2 ^ 26 + f8 * g4 * 2 ^ 51 + f8 * g5 * 2 ^ 77 + f8 * g6 * 2 ^ 102
      + f8 * g7 * 2 ^ 128 + f8 * g8 * 2 ^ 153 + f8 * g9 * 2 ^ 179 + f9 * g1 * 2 ^ 1
      + f9 * g2 * 2 ^ 26 + f9 * g3 * 2 ^ 52 + f9 * g4 * 2 ^ 77 + f9 * g5 * 2 ^ 103
      + f9 * g6 * 2 ^ 128 + f9 * g7 * 2 ^ 154 + f9 * g8 * 2 ^ 179 + f9 * g9 * 2 ^ 205))); [|apply fe_carry_ok; lia].
  subst. unfold limbs_val, p. ring.
Qed.

Lemma fe_sq_ok f : bounded 330 f -> yields 101 (feval f * feval f)%F (fe_sq f).
Proof.
  destruct f as [f0 f1 f2 f3 f4 f5 f6 f7 f8 f9].
  intros Hf. fe_ranges Hf.
  unfold feval. rewrite <- inF_mul. cbn [fe_val].
  cbv beta iota delta [fe_sq]. ival_steps.
  eapply (yields_congr _ _ _ _ (-
    (f1 * f9 * 2 ^ 1 + f2 * f8 * 2 ^ 0 + f2 * f9 * 2 ^ 26 + f3 * f7 * 2 ^ 1 + f3 * f8 * 2 ^ 26
      + f3 * f9 * 2 ^ 52 + f4 * f6 * 2 ^ 0 + f4 * f7 * 2 ^ 26 + f4 * f8 * 2 ^ 51
      + f4 * f9 * 2 ^ 77 + f5 * f5 * 2 ^ 1 + f5 * f6 * 2 ^ 26 + f5 * f7 * 2 ^ 52
      + f5 * f8 * 2 ^ 77 + f5 * f9 * 2 ^ 103 + f6 * f4 * 2 ^ 0 + f6 * f5 * 2 ^ 26
      + f6 * f6 * 2 ^ 51 + f6 * f7 * 2 ^ 77 + f6 * f8 * 2 ^ 102 + f6 * f9 * 2 ^ 128
      + f7 * f3 * 2 ^ 1 + f7 * f4 * 2 ^ 26 + f7 * f5 * 2 ^ 52 + f7 * f6 * 2 ^ 77
      + f7 * f7 * 2 ^ 103 + f7 * f8 * 2 ^ 128 + f7 * f9 * 2 ^ 154 + f8 * f2 * 2 ^ 0
      + f8 * f3 * 2 ^ 26 + f8 * f4 * 2 ^ 51 + f8 * f5 * 2 ^ 77 + f8 * f6 * 2 ^ 102
      + f8 * f7 * 2 ^ 128 + f8 * f8 * 2 ^ 153 + f8 * f9 * 2 ^ 179 + f9 * f1 * 2 ^ 1
      + f9 * f2 * 2 ^ 26 + f9 * f3 * 2 ^ 52 + f9 * f4 * 2 ^ 77 + f9 * f5 * 2 ^ 103
      + f9 * f6 * 2 ^ 128 + f9 * f7 * 2 ^ 154 + f9 * f8 * 2 ^ 179 + f9 * f9 * 2 ^ 205))); [|apply fe_carry_ok; lia].
  subst. unfold limbs_val, p. ring.
Qed.

Lemma fe_sq2_ok f : bounded 330 f -> yields 101 (feval f * feval f + feval f * feval f)%F (fe_sq2 f).
Proof.
  destruct f as [f0 f1 f2 f3 f4 f5 f6 f7 f8 f9].
  intros Hf. fe_ranges Hf.
  unfold feval. rewrite <- inF_mul, <- inF_add. cbn [fe_val].
  cbv beta iota delta [fe_sq2]. ival_steps.
  eapply (yields_congr _ _ _ _ (- 2 *
    (f1 * f9 * 2 ^ 1 + f2 * f8 * 2 ^ 0 + f2 * f9 * 2 ^ 26 + f3 * f7 * 2 ^ 1 + f3 * f8 * 2 ^ 26
      + f3 * f9 * 2 ^ 52 + f4 * f6 * 2 ^ 0 + f4 * f7 * 2 ^ 26 + f4 * f8 * 2 ^ 51
      + f4 * f9 * 2 ^ 77 + f5 * f5 * 2 ^ 1 + f5 * f6 * 2 ^ 26 + f5 * f7 * 2 ^ 52
      + f5 * f8 * 2 ^ 77 + f5 * f9 * 2 ^ 103 + f6 * f4 * 2 ^ 0 + f6 * f5 * 2 ^ 26
      + f6 * f6 * 2 ^ 51 + f6 * f7 * 2 ^ 77 + f6 * f8 * 2 ^ 102 + f6 * f9 * 2 ^ 128
      + f7 * f3 * 2 ^ 1 + f7 * f4 * 2 ^ 26 + f7 * f5 * 2 ^ 52 + f7 * f6 * 2 ^ 77
      + f7 * f7 * 2 ^ 103 + f7 * f8 * 2 ^ 128 + f7 * f9 * 2 ^ 154 + f8 * f2 * 2 ^ 0
      + f8 * f3 * 2 ^ 26 + f8 * f4 * 2 ^ 51 + f8 * f5 * 2 ^ 77 + f8 * f6 * 2 ^ 102
      + f8 * f7 * 2 ^ 128 + f8 * f8 * 2 ^ 153 + f8 * f9 * 2 ^ 179 + f9 * f1 * 2 ^ 1
      + f9 * f2 * 2 ^ 26 + f9 * f3 * 2 ^ 52 + f9 * f4 * 2 ^ 77 + f9 * f5 * 2 ^ 103
      + f9 * f6 * 2 ^ 128 + f9 * f7 * 2 ^ 154 + f9 * f8 * 2 ^ 179 + f9 * f9 * 2 ^ 205))); [|apply fe_carry_ok; lia].
  subst. unfold limbs_val, p. ring.
Qed.

(** ** Addition, subtraction, negation *)

Lemma i32_small x : - 2 ^ 31 <= x < 2 ^ 31 -> i32 x = x.
Proof. intros. apply swrap_small; lia. Qed.

Lemma limb_le_i32 w k x : 0 <= w <= 25 -> 0 <= k <= 6300 -> limb_le w k x -> i32 x = x.
Proof.
  unfold limb_le. intros Hw Hk H. apply i32_small.
  assert (2 ^ w <= 2 ^ 25) by (apply Z.pow_le_mono_r; lia).
  assert (0 < 2 ^ w) by (apply Z.pow_pos_nonneg; lia).
  assert (k * 2 ^ w <= 6300 * 2 ^ 25) by nia. lia.
Qed.

Lemma limb_le_add w k l x y : limb_le w k x -> limb_le w l y -> limb_le w (k + l) (x + y).
Proof. unfold limb_le. lia. Qed.
Lemma limb_le_sub w k l x y : limb_le w k x -> limb_le w l y -> limb_le w (k + l) (x - y).
Proof. unfold limb_le. lia. Qed.
Lemma limb_le_opp w k x : limb_le w k x -> limb_le w k (- x).
Proof. unfold limb_le. lia. Qed.
Create HintDb limbs discriminated.
#[export] Hint Resolve limb_le_add limb_le_sub limb_le_opp : limbs.

(** Unwrap the limb-wise results whose bounds are known to [auto]. *)
Ltac limb_unwrap k :=
  repeat match goal with
    | |- context [i32 ?x] =>
        first [rewrite (limb_le_i32 25 k x) by (lia || auto with limbs)
              |rewrite (limb_le_i32 24 k x) by (lia || auto with limbs)]
    end.

Lemma fe_add_ok k l f g :
  bounded k f -> bounded l g -> 0 <= k + l <= 6300 ->
  yields (k + l) (feval f + feval g)%F (fe_add f g).
Proof.
  destruct f, g. unfold yields, feval, bounded. intros Hf Hg Hkl.
  decompose [and] Hf; decompose [and] Hg. rewrite <- inF_add.
  cbv beta zeta iota delta [fe_add fe_val]. limb_unwrap (k + l).
  split; [repeat split; auto with limbs|]. f_equal. unfold limbs_val. ring.
Qed.

Lemma fe_sub_ok k l f g :
  bounded k f -> bounded l g -> 0 <= k + l <= 6300 ->
  yields (k + l) (feval f - feval g)%F (fe_sub f g).
Proof.
  destruct f, g. unfold yields, feval, bounded. intros Hf Hg Hkl.
  decompose [and] Hf; decompose [and] Hg. rewrite <- inF_sub.
  cbv beta zeta iota delta [fe_sub fe_val]. limb_unwrap (k + l).
  split; [repeat split; auto with limbs|]. f_equal. unfold limbs_val. ring.
Qed.

Lemma fe_neg_ok k f : bounded k f -> 0 <= k <= 6300 -> yields k (- feval f)%F (fe_neg f).
Proof.
  destruct f. unfold yields, feval, bounded. intros Hf Hk. decompose [and] Hf.
  rewrite <- inF_opp.
  cbv beta zeta iota delta [fe_neg fe_val]. limb_unwrap k.
  split; [repeat split; auto with limbs|]. f_equal. unfold limbs_val. ring.
Qed.

Lemma fe_copy_eq f : fe_copy f = f.
Proof. destruct f; reflexivity. Qed.

Lemma fe_0_ok : yields 1 0%F fe_0.
Proof. split; [|apply inF_0]. unfold bounded, limb_le, fe_0. lia. Qed.

Lemma fe_1_ok : yields 1 1%F fe_1.
Proof. split; [|apply inF_1]. unfold bounded, limb_le, fe_1. lia. Qed.

(** ** Conditional move *)

Lemma cmov_keep x g : - 2 ^ 31 <= x < 2 ^ 31 ->
  Z.lxor x (i32 (Z.land (u32 (Z.lxor x g)) (u32 (- 0)))) = x.
Proof.
  intros. replace (u32 (- 0)) with 0 by reflexivity. rewrite Z.land_0_r.
  replace (i32 0) with 0 by reflexivity. apply Z.lxor_0_r.
Qed.

(** A number is a signed integer of [w + 1] bits when its bits from [w] on agree. *)
Lemma sbits w x : 0 <= w -> - 2 ^ w <= x < 2 ^ w <-> Z.shiftr x w = 0 \/ Z.shiftr x w = - 1.
Proof.
  intros Hw. rewrite Z.shiftr_div_pow2 by lia.
  assert (0 < 2 ^ w) by (apply Z.pow_pos_nonneg; lia).
  pose proof (Z.mod_pos_bound x (2 ^ w)). pose proof (Z.div_mod x (2 ^ w)). nia.
Qed.

Lemma lxor_srange w x y :
  0 <= w -> - 2 ^ w <= x < 2 ^ w -> - 2 ^ w <= y < 2 ^ w -> - 2 ^ w <= Z.lxor x y < 2 ^ w.
Proof.
  intros Hw Hx%(sbits w x Hw) Hy%(sbits w y Hw). apply (sbits w _ Hw).
  rewrite Z.shiftr_lxor.
  destruct Hx as [-> | ->], Hy as [-> | ->]; cbn; auto.
Qed.

Lemma i32_u32 x : i32 (u32 x) = i32 x.
Proof. unfold i32, u32, swrap, uwrap. rewrite Zplus_mod_idemp_l. reflexivity. Qed.

Lemma cmov_take x g : - 2 ^ 31 <= x < 2 ^ 31 -> - 2 ^ 31 <= g < 2 ^ 31 ->
  Z.lxor x (i32 (Z.land (u32 (Z.lxor x g)) (u32 (- 1)))) = g.
Proof.
  intros Hx Hg. replace (u32 (- 1)) with (Z.ones 32) by reflexivity.
  rewrite Z.land_ones by lia. unfold u32, uwrap at 1. rewrite Z.mod_mod by lia.
  fold (uwrap 32 (Z.lxor x g)). fold (u32 (Z.lxor x g)).
  rewrite i32_u32, i32_small by (apply (lxor_srange 31); lia).
  now rewrite <- Z.lxor_assoc, Z.lxor_nilpotent, Z.lxor_0_l.
Qed.

(** "Replace (f,g) with (g,g) if b == 1; replace (f,g) with (f,g) if b == 0." *)
Lemma fe_cmov_ok k f g b :
  bounded k f -> bounded k g -> 0 <= k <= 6300 -> b = 0 \/ b = 1 ->
  fe_cmov f g b = if b =? 1 then g else f.
Proof.
  destruct f, g. unfold bounded. intros Hf Hg Hk Hb.
  assert (L : forall w x, 0 <= w <= 25 -> limb_le w k x -> - 2 ^ 31 <= x < 2 ^ 31).
  { intros w x Hw Hx. apply (limb_le_i32 w k x Hw Hk) in Hx as <-.
    unfold i32, swrap. pose proof (Z.mod_pos_bound (x + 2 ^ (32 - 1)) (2 ^ 32)). lia. }
  decompose [and] Hf; decompose [and] Hg; clear Hf Hg.
  repeat match goal with H : limb_le _ _ _ |- _ => apply L in H; [|lia] end.
  cbv beta zeta iota delta [fe_cmov].
  destruct Hb as [-> | ->]; cbn [Z.eqb Pos.eqb];
    rewrite ?cmov_keep, ?cmov_take by assumption; reflexivity.
Qed.
