(* ===== verification/FeBytes.v ===== *)
(** Field elements as 32 bytes: [fe_frombytes.c], [fe_tobytes.c], [verify.c],
    [fe_isnegative.c] and [fe_isnonzero.c].  [fe_tobytes] is canonical: whatever
    limbs represent it, an element is written as its residue in [0, p). *)
From Stdlib Require Import ZArith Lia List Zmod.
From S2P Require Import Prelude.
From S2P Require Import PrimeP.
From S2P Require Import Fp.
From S2P Require Import Fe.
Import ListNotations.

(** ** Reading *)

Definition load_3 (s : list Z) (k : nat) : Z :=
  let result := at_ s k in
  let result := Z.lor result (u64 (at_ s (k + 1) [<<] 8)) in
  let result := Z.lor result (u64 (at_ s (k + 2) [<<] 16)) in
  result.

Definition load_4 (s : list Z) (k : nat) : Z :=
  let result := at_ s k in
  let result := Z.lor result (u64 (at_ s (k + 1) [<<] 8)) in
  let result := Z.lor result (u64 (at_ s (k + 2) [<<] 16)) in
  let result := Z.lor result (u64 (at_ s (k + 3) [<<] 24)) in
  result.

Definition fe_frombytes (s : list Z) : fe :=
  let h0 := i64 (load_4 s 0) in
  let h1 := i64 (u64 (load_3 s 4 [<<] 6)) in
  let h2 := i64 (u64 (load_3 s 7 [<<] 5)) in
  let h3 := i64 (u64 (load_3 s 10 [<<] 3)) in
  let h4 := i64 (u64 (load_3 s 13 [<<] 2)) in
  let h5 := i64 (load_4 s 16) in
  let h6 := i64 (u64 (load_3 s 20 [<<] 7)) in
  let h7 := i64 (u64 (load_3 s 23 [<<] 5)) in
  let h8 := i64 (u64 (load_3 s 26 [<<] 4)) in
  let h9 := i64 (u64 (Z.land (load_3 s 29) 8388607 [<<] 2)) in
  let carry9 := (h9 [+l] (1 [<<] 24)) [>>] 25 in
  let h0 := h0 [+l] carry9 [*l] 19 in
  let h9 := h9 [-l] (carry9 [<<l] 25) in
  let carry1 := (h1 [+l] (1 [<<] 24)) [>>] 25 in
  let h2 := h2 [+l] carry1 in
  let h1 := h1 [-l] (carry1 [<<l] 25) in
  let carry3 := (h3 [+l] (1 [<<] 24)) [>>] 25 in
  let h4 := h4 [+l] carry3 in
  let h3 := h3 [-l] (carry3 [<<l] 25) in
  let carry5 := (h5 [+l] (1 [<<] 24)) [>>] 25 in
  let h6 := h6 [+l] carry5 in
  let h5 := h5 [-l] (carry5 [<<l] 25) in
  let carry7 := (h7 [+l] (1 [<<] 24)) [>>] 25 in
  let h8 := h8 [+l] carry7 in
  let h7 := h7 [-l] (carry7 [<<l] 25) in
  let carry0 := (h0 [+l] (1 [<<] 25)) [>>] 26 in
  let h1 := h1 [+l] carry0 in
  let h0 := h0 [-l] (carry0 [<<l] 26) in
  let carry2 := (h2 [+l] (1 [<<] 25)) [>>] 26 in
  let h3 := h3 [+l] carry2 in
  let h2 := h2 [-l] (carry2 [<<l] 26) in
  let carry4 := (h4 [+l] (1 [<<] 25)) [>>] 26 in
  let h5 := h5 [+l] carry4 in
  let h4 := h4 [-l] (carry4 [<<l] 26) in
  let carry6 := (h6 [+l] (1 [<<] 25)) [>>] 26 in
  let h7 := h7 [+l] carry6 in
  let h6 := h6 [-l] (carry6 [<<l] 26) in
  let carry8 := (h8 [+l] (1 [<<] 25)) [>>] 26 in
  let h9 := h9 [+l] carry8 in
  let h8 := h8 [-l] (carry8 [<<l] 26) in
  Fe (i32 h0) (i32 h1) (i32 h2) (i32 h3) (i32 h4)
     (i32 h5) (i32 h6) (i32 h7) (i32 h8) (i32 h9).

(** ** Writing *)

(** The stores [s[0] = h0 >> 0; ... s[31] = h9 >> 18;]. *)
Definition fe_pack (h0 h1 h2 h3 h4 h5 h6 h7 h8 h9 : Z) : list Z :=
  [ u8 (h0 [>>] 0);
    u8 (h0 [>>] 8);
    u8 (h0 [>>] 16);
    u8 (Z.lor (h0 [>>] 24) (h1 [<<i] 2));
    u8 (h1 [>>] 6);
    u8 (h1 [>>] 14);
    u8 (Z.lor (h1 [>>] 22) (h2 [<<i] 3));
    u8 (h2 [>>] 5);
    u8 (h2 [>>] 13);
    u8 (Z.lor (h2 [>>] 21) (h3 [<<i] 5));
    u8 (h3 [>>] 3);
    u8 (h3 [>>] 11);
    u8 (Z.lor (h3 [>>] 19) (h4 [<<i] 6));
    u8 (h4 [>>] 2);
    u8 (h4 [>>] 10);
    u8 (h4 [>>] 18);
    u8 (h5 [>>] 0);
    u8 (h5 [>>] 8);
    u8 (h5 [>>] 16);
    u8 (Z.lor (h5 [>>] 24) (h6 [<<i] 1));
    u8 (h6 [>>] 7);
    u8 (h6 [>>] 15);
    u8 (Z.lor (h6 [>>] 23) (h7 [<<i] 3));
    u8 (h7 [>>] 5);
    u8 (h7 [>>] 13);
    u8 (Z.lor (h7 [>>] 21) (h8 [<<i] 4));
    u8 (h8 [>>] 4);
    u8 (h8 [>>] 12);
    u8 (Z.lor (h8 [>>] 20) (h9 [<<i] 6));
    u8 (h9 [>>] 2);
    u8 (h9 [>>] 10);
    u8 (h9 [>>] 18) ].

Definition fe_tobytes (h : fe) : list Z :=
  let '(Fe h0 h1 h2 h3 h4 h5 h6 h7 h8 h9) := h in
  let q := (19 [*i] h9 [+i] (1 [<<i] 24)) [>>] 25 in
  let q := (h0 [+i] q) [>>] 26 in
  let q := (h1 [+i] q) [>>] 25 in
  let q := (h2 [+i] q) [>>] 26 in
  let q := (h3 [+i] q) [>>] 25 in
  let q := (h4 [+i] q) [>>] 26 in
  let q := (h5 [+i] q) [>>] 25 in
  let q := (h6 [+i] q) [>>] 26 in
  let q := (h7 [+i] q) [>>] 25 in
  let q := (h8 [+i] q) [>>] 26 in
  let q := (h9 [+i] q) [>>] 25 in
  let h0 := h0 [+i] 19 [*i] q in
  let carry0 := h0 [>>] 26 in
  let h1 := h1 [+i] carry0 in
  let h0 := h0 [-i] (carry0 [<<i] 26) in
  let carry1 := h1 [>>] 25 in
  let h2 := h2 [+i] carry1 in
  let h1 := h1 [-i] (carry1 [<<i] 25) in
  let carry2 := h2 [>>] 26 in
  let h3 := h3 [+i] carry2 in
  let h2 := h2 [-i] (carry2 [<<i] 26) in
  let carry3 := h3 [>>] 25 in
  let h4 := h4 [+i] carry3 in
  let h3 := h3 [-i] (carry3 [<<i] 25) in
  let carry4 := h4 [>>] 26 in
  let h5 := h5 [+i] carry4 in
  let h4 := h4 [-i] (carry4 [<<i] 26) in
  let carry5 := h5 [>>] 25 in
  let h6 := h6 [+i] carry5 in
  let h5 := h5 [-i] (carry5 [<<i] 25) in
  let carry6 := h6 [>>] 26 in
  let h7 := h7 [+i] carry6 in
  let h6 := h6 [-i] (carry6 [<<i] 26) in
  let carry7 := h7 [>>] 25 in
  let h8 := h8 [+i] carry7 in
  let h7 := h7 [-i] (carry7 [<<i] 25) in
  let carry8 := h8 [>>] 26 in
  let h9 := h9 [+i] carry8 in
  let h8 := h8 [-i] (carry8 [<<i] 26) in
  let carry9 := h9 [>>] 25 in
  let h9 := h9 [-i] (carry9 [<<i] 25) in
  fe_pack h0 h1 h2 h3 h4 h5 h6 h7 h8 h9.

(** [F(i)]: [differentbits |= x[i] ^ y[i]]; then
    [(1 & ((differentbits - 1) >> 8)) - 1] on an [unsigned int], returned as an [int]. *)
Definition simpleot_crypto_verify_32 (x y : list Z) : Z :=
  let differentbits :=
    fold_left (fun acc i => Z.lor acc (Z.lxor (at_ x i) (at_ y i))) (seq 0 32) 0 in
  i32 (u32 (Z.land 1 (u32 (differentbits - 1) [>>] 8) - 1)).

Definition zero : list Z := repeat 0 32.

Definition fe_isnonzero (f : fe) : Z :=
  let s := fe_tobytes f in
  simpleot_crypto_verify_32 s zero.

Definition fe_isnegative (f : fe) : Z :=
  let s := fe_tobytes f in
  Z.land (at_ s 0) 1.

(** ** Reading is the value of the low 255 bits *)

Lemma load_3_eq s k : Forall byte s ->
  load_3 s k = at_ s k + at_ s (k + 1) * 2 ^ 8 + at_ s (k + 2) * 2 ^ 16.
Proof.
  intros H. unfold load_3.
  pose proof (at_byte s k H); pose proof (at_byte s (k + 1) H); pose proof (at_byte s (k + 2) H).
  unfold byte in *.
  rewrite !u64_small by (rewrite Z.shiftl_mul_pow2; lia).
  rewrite (lor_add (at_ s k)) by lia. now rewrite lor_add by lia.
Qed.

Lemma load_4_eq s k : Forall byte s ->
  load_4 s k = at_ s k + at_ s (k + 1) * 2 ^ 8 + at_ s (k + 2) * 2 ^ 16 + at_ s (k + 3) * 2 ^ 24.
Proof.
  intros H. unfold load_4.
  pose proof (at_byte s k H); pose proof (at_byte s (k + 1) H); pose proof (at_byte s (k + 2) H).
  pose proof (at_byte s (k + 3) H).
  unfold byte in *.
  rewrite !u64_small by (rewrite Z.shiftl_mul_pow2; lia).
  rewrite (lor_add (at_ s k)) by lia. rewrite (lor_add (at_ s k + _)) by lia.
  now rewrite lor_add by lia.
Qed.

Lemma land_top a b c : byte a -> byte b ->
  Z.land (a + b * 2 ^ 8 + c * 2 ^ 16) 8388607 = a + b * 2 ^ 8 + (c mod 128) * 2 ^ 16.
Proof.
  unfold byte. intros. change 8388607 with (Z.ones 23). rewrite Z.land_ones by lia.
  pose proof (Z.mod_pos_bound c 128 eq_refl). pose proof (Z_div_mod_eq_full c 128).
  symmetry. apply (Z.mod_unique_pos _ _ (c / 128)); lia.
Qed.

(** Clearing the top bit of the last byte reduces modulo 2^255. *)
Definition low255 (s : list Z) : Z := le_val (firstn 31 s) + 2 ^ 248 * (at_ s 31 mod 128).

Lemma le_val_low255 s : bytes 32 s -> low255 s = le_val s mod 2 ^ 255.
Proof.
  intros [L B].
  rewrite <- (firstn_skipn 31 s) at 2.
  assert (L31 : length (firstn 31 s) = 31%nat) by (rewrite length_firstn; lia).
  assert (S : skipn 31 s = [at_ s 31]) by (explode s L; reflexivity).
  rewrite le_val_app, L31, S. cbn [le_val].
  pose proof (le_val_bound (firstn 31 s)) as Hb. rewrite L31 in Hb.
  specialize (Hb (Forall_firstn _ 31 _ B)). change (256 ^ Z.of_nat 31) with (2 ^ 248) in *.
  pose proof (Z.mod_pos_bound (at_ s 31) 128 eq_refl). pose proof (Z_div_mod_eq_full (at_ s 31) 128).
  unfold low255. apply (Z.mod_unique_pos _ _ (at_ s 31 / 128)); lia.
Qed.

Lemma fe_frombytes_ok s :
  bytes 32 s -> yields 101 (inF (le_val s mod 2 ^ 255)) (fe_frombytes s).
Proof.
  intros [L B]. rewrite <- le_val_low255 by (split; assumption). explode s L. pose proof B as R. byte_ranges R.
  cbv beta delta [fe_frombytes]. rewrite !load_3_eq, !load_4_eq by exact B.
   cbv beta match fix delta [low255 at_ nth Nat.add firstn le_val]. rewrite land_top by assumption.
  match goal with |- context [?x mod 128] =>
    pose proof (Z.mod_pos_bound x 128 eq_refl) as Rt;
    set (t := x mod 128) in * end.
  clear B. ival_steps.
  match goal with E : _ = _ + ?c * 19 |- _ => apply yields_val; [|exists (- c)] end.
  - unfold bounded, limb_le. ival_unwrap. ival_forget. repeat (split; [lia|]). lia.
  - unfold fe_val, limbs_val, p. ival_unwrap. ival_forget_carries. subst. ring.
Qed.

(** ** Writing is canonical *)

Lemma u8_shr x n : 0 <= n -> u8 (x [>>] n) = (x / 2 ^ n) mod 2 ^ 8.
Proof. intros. now rewrite Z.shiftr_div_pow2. Qed.

Lemma u8_lor x y : u8 (Z.lor x y) = Z.lor (u8 x) (u8 y).
Proof. unfold u8, uwrap. rewrite <- !Z.land_ones by lia. apply Z.land_lor_distr_l. Qed.

Lemma u8_i32 x : u8 (i32 x) = u8 x.
Proof.
  unfold u8, i32, swrap, uwrap. rewrite Zminus_mod, Z.mod_mod_divide by (exists (2 ^ 24); reflexivity).
  rewrite <- Zminus_mod. f_equal. ring.
Qed.

Lemma u8_or a n b m k :
  0 <= n -> 0 <= m <= 8 -> k = 8 - m -> 0 <= a / 2 ^ n < 2 ^ m ->
  u8 (Z.lor (a [>>] n) (b [<<i] m)) = a / 2 ^ n + 2 ^ m * (b mod 2 ^ k).
Proof.
  intros Hn Hm -> Ha. rewrite u8_lor, u8_i32, <- u8_lor, Z.shiftr_div_pow2, lor_add by lia.
  unfold u8, uwrap. replace (2 ^ 8) with (2 ^ m * 2 ^ (8 - m)) by (rewrite <- Z.pow_add_r by lia; f_equal; lia).
  assert (0 < 2 ^ m) by (apply Z.pow_pos_nonneg; lia).
  assert (0 < 2 ^ (8 - m)) by (apply Z.pow_pos_nonneg; lia).
  rewrite Z.rem_mul_r, Z.mod_add, Z.mod_small, Z.div_add, (Z.div_small (a / 2 ^ n)) by lia.
  reflexivity.
Qed.

(** A limb spread over the bytes it meets: [r] bits, then two bytes, then the rest. *)
Lemma limb_split r s t x : 0 <= r -> s = r + 8 -> t = r + 16 ->
  x = x mod 2 ^ r + 2 ^ r * ((x / 2 ^ r) mod 2 ^ 8)
      + 2 ^ s * ((x / 2 ^ s) mod 2 ^ 8) + 2 ^ t * (x / 2 ^ t).
Proof.
  intros Hr -> ->. assert (0 < 2 ^ r) by (apply Z.pow_pos_nonneg; lia).
  rewrite (Z.pow_add_r 2 r 8), (Z.pow_add_r 2 r 16) by lia.
  rewrite <- !Z.div_div by lia. change (2 ^ 16) with (2 ^ 8 * 2 ^ 8).
  rewrite <- (Z.div_div (x / 2 ^ r)) by lia.
  pose proof (Z_div_mod_eq_full x (2 ^ r)).
  pose proof (Z_div_mod_eq_full (x / 2 ^ r) (2 ^ 8)).
  pose proof (Z_div_mod_eq_full (x / 2 ^ r / 2 ^ 8) (2 ^ 8)).
  nia.
Qed.

Lemma div_lt w n m x : 0 <= n -> 0 <= m -> w = n + m -> 0 <= x < 2 ^ w -> 0 <= x / 2 ^ n < 2 ^ m.
Proof.
  intros Hn Hm -> Hx. rewrite Z.pow_add_r in Hx by lia.
  assert (0 < 2 ^ n) by (apply Z.pow_pos_nonneg; lia).
  split; [apply Z.div_pos; lia|apply Z.div_lt_upper_bound; lia].
Qed.

Section Pack.
Context (h0 h1 h2 h3 h4 h5 h6 h7 h8 h9 : Z).
Context (R0 : 0 <= h0 < 2 ^ 26) (R1 : 0 <= h1 < 2 ^ 25) (R2 : 0 <= h2 < 2 ^ 26)
  (R3 : 0 <= h3 < 2 ^ 25) (R4 : 0 <= h4 < 2 ^ 26) (R5 : 0 <= h5 < 2 ^ 25)
  (R6 : 0 <= h6 < 2 ^ 26) (R7 : 0 <= h7 < 2 ^ 25) (R8 : 0 <= h8 < 2 ^ 26)
  (R9 : 0 <= h9 < 2 ^ 25).

Lemma fe_pack_bytes : bytes 32 (fe_pack h0 h1 h2 h3 h4 h5 h6 h7 h8 h9).
Proof using Type. split; [reflexivity|]. unfold fe_pack. repeat constructor; apply byte_u8. Qed.

Lemma fe_pack_val : le_val (fe_pack h0 h1 h2 h3 h4 h5 h6 h7 h8 h9) = limbs_val h0 h1 h2 h3 h4 h5 h6 h7 h8 h9.
Proof using R0 R1 R2 R3 R4 R5 R6 R7 R8 R9.
  unfold fe_pack. cbn [le_val].
  rewrite !u8_shr by lia.
  rewrite (u8_or h0 24 h1 2 6) by (lia || (apply (div_lt 26); lia)).
  rewrite (u8_or h1 22 h2 3 5) by (lia || (apply (div_lt 25); lia)).
  rewrite (u8_or h2 21 h3 5 3) by (lia || (apply (div_lt 26); lia)).
  rewrite (u8_or h3 19 h4 6 2) by (lia || (apply (div_lt 25); lia)).
  rewrite (u8_or h5 24 h6 1 7) by (lia || (apply (div_lt 25); lia)).
  rewrite (u8_or h6 23 h7 3 5) by (lia || (apply (div_lt 26); lia)).
  rewrite (u8_or h7 21 h8 4 4) by (lia || (apply (div_lt 25); lia)).
  rewrite (u8_or h8 20 h9 6 2) by (lia || (apply (div_lt 26); lia)).
  rewrite (Z.mod_small (h4 / 2 ^ 18)) by (apply (div_lt 26); lia).
  rewrite (Z.mod_small (h9 / 2 ^ 18)) by (apply (div_lt 26); lia).
  pose proof (limb_split 8 16 24 h0 ltac:(lia) eq_refl eq_refl).
  pose proof (limb_split 6 14 22 h1 ltac:(lia) eq_refl eq_refl).
  pose proof (limb_split 5 13 21 h2 ltac:(lia) eq_refl eq_refl).
  pose proof (limb_split 3 11 19 h3 ltac:(lia) eq_refl eq_refl).
  pose proof (limb_split 2 10 18 h4 ltac:(lia) eq_refl eq_refl).
  pose proof (limb_split 8 16 24 h5 ltac:(lia) eq_refl eq_refl).
  pose proof (limb_split 7 15 23 h6 ltac:(lia) eq_refl eq_refl).
  pose proof (limb_split 5 13 21 h7 ltac:(lia) eq_refl eq_refl).
  pose proof (limb_split 4 12 20 h8 ltac:(lia) eq_refl eq_refl).
  pose proof (limb_split 2 10 18 h9 ltac:(lia) eq_refl eq_refl).
  unfold limbs_val. rewrite !Z.pow_0_r, !Z.div_1_r. lia.
Qed.
End Pack.

(** The comment in [fe_tobytes.c]: the quotient the code computes is the floor
    of the value over [p].  [low] is the value without its top limb [h9], [q0]
    the first rounded quotient with its remainder [s], [r] what the chain of
    carries leaves. *)
Lemma canonical_quotient low h9 q0 s q r :
  - 2 ^ 231 <= low <= 2 ^ 231 ->
  19 * h9 + 2 ^ 24 = 2 ^ 25 * q0 + s -> 0 <= s < 2 ^ 25 -> - 2 ^ 32 <= q0 <= 2 ^ 32 ->
  low + 2 ^ 230 * h9 + q0 = q * 2 ^ 255 + r -> 0 <= r < 2 ^ 255 ->
  0 <= low + 2 ^ 230 * h9 - p * q < p.
Proof.
  intros Hl E Hs Hq0 Eq Hr.
  assert (E' : 2 ^ 255 * (low + 2 ^ 230 * h9 - p * q)
               = p * r + (s - 2 ^ 24) * 2 ^ 230 + 19 * low + 19 * q0) by (unfold p; lia).
  unfold p in *. lia.
Qed.

(** One link of a carry chain. *)
Lemma div_link q x k : q = x / 2 ^ k -> 0 <= k -> x = q * 2 ^ k + x mod 2 ^ k /\ 0 <= x mod 2 ^ k <= 2 ^ k - 1.
Proof.
  intros -> Hk. assert (0 < 2 ^ k) by (apply Z.pow_pos_nonneg; lia).
  pose proof (Z_div_mod_eq_full x (2 ^ k)). pose proof (Z.mod_pos_bound x (2 ^ k)). lia.
Qed.

Lemma to_Z_feval f m : 0 <= m < p -> feval f = inF m -> Zmod.to_Z (feval f) = m.
Proof. intros Hm ->. unfold inF. rewrite Zmod.to_Z_of_Z. now apply Z.mod_small. Qed.

(** [s] is the canonical encoding of [x]: its residue in [0, p), little-endian. *)
Definition encodes (x : F) (s : list Z) : Prop := bytes 32 s /\ le_val s = Zmod.to_Z x.

Lemma encodes_pack x h0 h1 h2 h3 h4 h5 h6 h7 h8 h9 :
  0 <= h0 < 2 ^ 26 -> 0 <= h1 < 2 ^ 25 -> 0 <= h2 < 2 ^ 26 -> 0 <= h3 < 2 ^ 25 -> 0 <= h4 < 2 ^ 26 ->
  0 <= h5 < 2 ^ 25 -> 0 <= h6 < 2 ^ 26 -> 0 <= h7 < 2 ^ 25 -> 0 <= h8 < 2 ^ 26 -> 0 <= h9 < 2 ^ 25 ->
  limbs_val h0 h1 h2 h3 h4 h5 h6 h7 h8 h9 < p ->
  x = inF (limbs_val h0 h1 h2 h3 h4 h5 h6 h7 h8 h9) ->
  encodes x (fe_pack h0 h1 h2 h3 h4 h5 h6 h7 h8 h9).
Proof.
  intros R0 R1 R2 R3 R4 R5 R6 R7 R8 R9 Hlt ->. split; [apply fe_pack_bytes|].
  rewrite fe_pack_val by assumption. symmetry. unfold inF. rewrite Zmod.to_Z_of_Z.
  apply Z.mod_small. split; [|exact Hlt]. unfold limbs_val. lia.
Qed.

(** A chain of carries through the limbs: what remains are the limbs of the
    value, what comes out is its quotient by 2^255. *)
Lemma carry_chain q h0 h1 h2 h3 h4 h5 h6 h7 h8 h9 q0 q1 q2 q3 q4 q5 q6 q7 q8 q9
    r0 r1 r2 r3 r4 r5 r6 r7 r8 r9 :
  h0 + q = q0 * 2 ^ 26 + r0 ->
  h1 + q0 = q1 * 2 ^ 25 + r1 ->
  h2 + q1 = q2 * 2 ^ 26 + r2 ->
  h3 + q2 = q3 * 2 ^ 25 + r3 ->
  h4 + q3 = q4 * 2 ^ 26 + r4 ->
  h5 + q4 = q5 * 2 ^ 25 + r5 ->
  h6 + q5 = q6 * 2 ^ 26 + r6 ->
  h7 + q6 = q7 * 2 ^ 25 + r7 ->
  h8 + q7 = q8 * 2 ^ 26 + r8 ->
  h9 + q8 = q9 * 2 ^ 25 + r9 ->
  limbs_val h0 h1 h2 h3 h4 h5 h6 h7 h8 h9 + q = q9 * 2 ^ 255 + limbs_val r0 r1 r2 r3 r4 r5 r6 r7 r8 r9.
Proof.
  intros.
  repeat match goal with E : ?h + ?c = ?x |- _ => apply (Z.add_cancel_r _ _ (- c)) in E; rewrite <- Z.add_assoc, Z.add_opp_diag_r, Z.add_0_r in E end.
  subst. unfold limbs_val. ring.
Qed.

Lemma fe_tobytes_ok f : bounded 220 f -> encodes (feval f) (fe_tobytes f).
Proof.
  destruct f as [h0 h1 h2 h3 h4 h5 h6 h7 h8 h9]. intros H. fe_ranges H.
  cbv beta match delta [fe_tobytes].
  ival_steps.
  repeat match goal with
    | E : ?q = ?x / 2 ^ ?k |- _ => apply div_link in E; [|lia]; destruct E as [? ?];
        let r := fresh "r" in set (r := x mod 2 ^ k) in *; clearbody r
    end.
  set (low := h0 + 2 ^ 26 * h1 + 2 ^ 51 * h2 + 2 ^ 77 * h3 + 2 ^ 102 * h4 + 2 ^ 128 * h5
                + 2 ^ 153 * h6 + 2 ^ 179 * h7 + 2 ^ 204 * h8).
  assert (Hl : - 2 ^ 231 <= low <= 2 ^ 231) by (unfold low; lia).
  pose proof (carry_chain _ _ _ _ _ _ _ _ _ _ _ _ _ _ _ _ _ _ _ _ _ _ _ _ _ _ _ _ _ _ _
                H47 H45 H43 H41 H39 H37 H35 H33 H31 H29) as Hr.
  match type of Hr with _ = _ + ?x => assert (0 <= x < 2 ^ 255) by (clear - H48 H46 H44 H42 H40 H38 H36 H34 H32 H30; unfold limbs_val; lia); set (r' := x) in * end.
  assert (Hx : 0 <= low + 2 ^ 230 * h9 - p * q9 < p).
  { apply (canonical_quotient low h9 q r19 q9 r'); try assumption; unfold limbs_val, low in *; clear - Hr H49 H50 B; lia. }
  assert (Hv : limbs_val h12 h14 h16 h18 h20 h22 h24 h26 h28 h29
               = low + 2 ^ 230 * h9 - p * q9 + (q9 - carry9) * 2 ^ 255)
    by (unfold limbs_val, low, p; lia).
  assert (Hc : 0 <= limbs_val h12 h14 h16 h18 h20 h22 h24 h26 h28 h29 < 2 ^ 255)
    by (unfold limbs_val; lia).
  assert (q9 = carry9) by (unfold p in *; lia).
 apply encodes_pack; try lia.
  apply (inF_eq _ _ q9). unfold fe_val, limbs_val in *. lia.
Qed.

(** ** Comparing, sign *)

Lemma byte_log2 z : byte z <-> 0 <= z /\ Z.log2 z < 8.
Proof.
  unfold byte. change 256 with (2 ^ 8). destruct (Z.eq_dec z 0) as [-> | ]; [cbn; lia|].
  split; intros [H1 H2]; (split; [exact H1|]); apply Z.log2_lt_pow2; lia.
Qed.

Lemma byte_lor a b : byte a -> byte b -> byte (Z.lor a b).
Proof.
  rewrite !byte_log2. intros [] []. split; [apply Z.lor_nonneg; auto|].
  rewrite Z.log2_lor by auto. now apply Z.max_lub_lt.
Qed.

Lemma byte_lxor a b : byte a -> byte b -> byte (Z.lxor a b).
Proof.
  rewrite !byte_log2. intros [] []. split; [apply Z.lxor_nonneg; tauto|].
  eapply Z.le_lt_trans; [apply Z.log2_lxor; auto|]. now apply Z.max_lub_lt.
Qed.

Lemma fold_lor_spec (f : nat -> Z) l acc :
  byte acc -> (forall i, byte (f i)) ->
  byte (fold_left (fun a i => Z.lor a (f i)) l acc) /\
  (fold_left (fun a i => Z.lor a (f i)) l acc = 0 <-> acc = 0 /\ forall i, In i l -> f i = 0).
Proof.
  intros Ha Hf. revert acc Ha; induction l as [|i l IH]; intros acc Ha; cbn [fold_left In].
  - split; [exact Ha|]. intuition.
  - destruct (IH (Z.lor acc (f i))) as [Hr Hz].
    { now apply byte_lor. }
    split; [exact Hr|]. rewrite Hz, Z.lor_eq_0_iff. intuition (subst; auto).
Qed.

Lemma nth_ext_bytes n x y : bytes n x -> bytes n y ->
  (forall i, (i < n)%nat -> at_ x i = at_ y i) -> x = y.
Proof. intros [Lx _] [Ly _] H. apply (nth_ext _ _ 0 0); [congruence|]. intros i Hi. apply H. lia. Qed.

(** [simpleot_crypto_verify_32] is 0 on equal strings and -1 on all others. *)
Lemma simpleot_crypto_verify_32_ok x y : bytes 32 x -> bytes 32 y ->
  (x = y -> simpleot_crypto_verify_32 x y = 0) /\ (x <> y -> simpleot_crypto_verify_32 x y = -1).
Proof.
  intros Hx Hy. unfold simpleot_crypto_verify_32.
  pose proof (fold_lor_spec (fun i => Z.lxor (at_ x i) (at_ y i)) (seq 0 32) 0) as H.
  destruct H as [Hr Hz]; [easy| |].
  { intros i. apply byte_lxor; apply at_byte; [apply Hx|apply Hy]. }
  set (diff := fold_left _ _ _) in *. split; intros E.
  - assert (diff = 0) as ->; [|reflexivity]. apply Hz. split; [reflexivity|].
    intros i _. rewrite E. apply Z.lxor_nilpotent.
  - assert (diff <> 0).
    { intros D. apply E, (nth_ext_bytes 32); auto. intros i Hi. apply Z.lxor_eq.
      apply Hz; [exact D|apply in_seq; lia]. }
    assert (u32 (diff - 1) [>>] 8 = 0) as ->; [|reflexivity].
    unfold byte in Hr. unfold u32, uwrap. rewrite Z.mod_small, Z.shiftr_div_pow2, Z.div_small by lia. reflexivity.
Qed.

Lemma encodes_inj x y s t : encodes x s -> encodes y t -> s = t <-> x = y.
Proof.
  intros [Bs Vs] [Bt Vt]. split; intros E.
  - apply Zmod.unsigned_inj. congruence.
  - apply (le_val_inj 32); auto. congruence.
Qed.

Lemma encodes_zero : encodes 0%F zero.
Proof. split; [split; [reflexivity|]; apply Forall_forall; intros b Hb%repeat_spec; subst; easy|reflexivity]. Qed.

Lemma fe_isnonzero_ok f : bounded 220 f ->
  (feval f = 0%F -> fe_isnonzero f = 0) /\ (feval f <> 0%F -> fe_isnonzero f = -1).
Proof.
  intros H. pose proof (fe_tobytes_ok f H) as E. unfold fe_isnonzero.
  destruct (simpleot_crypto_verify_32_ok (fe_tobytes f) zero) as [V0 V1]; [apply E|apply encodes_zero|].
  pose proof (encodes_inj _ _ _ _ E encodes_zero) as I. tauto.
Qed.

(** The sign of a field element: the parity of its residue in [0, p). *)
Definition neg (x : F) : Z := Zmod.to_Z x mod 2.

Lemma encodes_parity x s : encodes x s -> Z.land (at_ s 0) 1 = neg x.
Proof.
  intros [[L B] V]. unfold neg. rewrite <- V. clear V. destruct s as [|b s]; [discriminate L|].
  change 1 with (Z.ones 1). rewrite Z.land_ones by lia. cbn [at_ nth le_val].
  replace (b + 256 * le_val s) with (b + (128 * le_val s) * 2) by ring.
  now rewrite Z.mod_add.
Qed.

Lemma fe_isnegative_ok f : bounded 220 f -> fe_isnegative f = neg (feval f).
Proof. intros H. unfold fe_isnegative. apply encodes_parity, fe_tobytes_ok, H. Qed.

(** ** Round trips *)

Lemma encodes_lt x s : encodes x s -> 0 <= le_val s < p.
Proof. intros [_ ->]. apply Zmod.unsigned_pos_bound. reflexivity. Qed.

Lemma inF_to_Z (x : F) : inF (Zmod.to_Z x) = x.
Proof. apply Zmod.of_Z_to_Z. Qed.

Lemma fe_frombytes_encodes x s : encodes x s -> yields 101 x (fe_frombytes s).
Proof.
  intros H. pose proof (encodes_lt _ _ H). destruct H as [B V].
  pose proof (fe_frombytes_ok s B) as Y. rewrite Z.mod_small, V, inF_to_Z in Y; [exact Y|].
  unfold p in *. lia.
Qed.
