(* ===== verification/FePow.v ===== *)
(** Inversion and the square-root power: [fe_invert.c] with [pow225521.h],
    [fe_pow22523.c] with [pow22523.h].  Both are addition chains of [fe_sq] and
    [fe_mul]; the exponent each chain computes is tracked through the code. *)
From Stdlib Require Import ZArith Lia Zmod.
From S2P Require Import Prelude.
From S2P Require Import PrimeP.
From S2P Require Import Fp.
From S2P Require Import Fe.

(** [for (i = 1; i < n; ++i) x = f(x)]. *)
Definition for_1 {A : Type} (n : nat) (f : A -> A) (x : A) : A := Nat.iter (n - 1) f x.

Definition fe_invert (z : fe) : fe :=
  let t0 := fe_sq z in
  let t0 := for_1 1 fe_sq t0 in
  let t1 := fe_sq t0 in
  let t1 := for_1 2 fe_sq t1 in
  let t1 := fe_mul z t1 in
  let t0 := fe_mul t0 t1 in
  let t2 := fe_sq t0 in
  let t2 := for_1 1 fe_sq t2 in
  let t1 := fe_mul t1 t2 in
  let t2 := fe_sq t1 in
  let t2 := for_1 5 fe_sq t2 in
  let t1 := fe_mul t2 t1 in
  let t2 := fe_sq t1 in
  let t2 := for_1 10 fe_sq t2 in
  let t2 := fe_mul t2 t1 in
  let t3 := fe_sq t2 in
  let t3 := for_1 20 fe_sq t3 in
  let t2 := fe_mul t3 t2 in
  let t2 := fe_sq t2 in
  let t2 := for_1 10 fe_sq t2 in
  let t1 := fe_mul t2 t1 in
  let t2 := fe_sq t1 in
  let t2 := for_1 50 fe_sq t2 in
  let t2 := fe_mul t2 t1 in
  let t3 := fe_sq t2 in
  let t3 := for_1 100 fe_sq t3 in
  let t2 := fe_mul t3 t2 in
  let t2 := fe_sq t2 in
  let t2 := for_1 50 fe_sq t2 in
  let t1 := fe_mul t2 t1 in
  let t1 := fe_sq t1 in
  let t1 := for_1 5 fe_sq t1 in
  fe_mul t1 t0.

Definition fe_pow22523 (z : fe) : fe :=
  let t0 := fe_sq z in
  let t0 := for_1 1 fe_sq t0 in
  let t1 := fe_sq t0 in
  let t1 := for_1 2 fe_sq t1 in
  let t1 := fe_mul z t1 in
  let t0 := fe_mul t0 t1 in
  let t0 := fe_sq t0 in
  let t0 := for_1 1 fe_sq t0 in
  let t0 := fe_mul t1 t0 in
  let t1 := fe_sq t0 in
  let t1 := for_1 5 fe_sq t1 in
  let t0 := fe_mul t1 t0 in
  let t1 := fe_sq t0 in
  let t1 := for_1 10 fe_sq t1 in
  let t1 := fe_mul t1 t0 in
  let t2 := fe_sq t1 in
  let t2 := for_1 20 fe_sq t2 in
  let t1 := fe_mul t2 t1 in
  let t1 := fe_sq t1 in
  let t1 := for_1 10 fe_sq t1 in
  let t0 := fe_mul t1 t0 in
  let t1 := fe_sq t0 in
  let t1 := for_1 50 fe_sq t1 in
  let t1 := fe_mul t1 t0 in
  let t2 := fe_sq t1 in
  let t2 := for_1 100 fe_sq t2 in
  let t1 := fe_mul t2 t1 in
  let t1 := fe_sq t1 in
  let t1 := for_1 50 fe_sq t1 in
  let t0 := fe_mul t1 t0 in
  let t0 := fe_sq t0 in
  let t0 := for_1 2 fe_sq t0 in
  fe_mul t0 z.

(** ** Exponents of an addition chain *)

Section Powers.
Context (z : fe) (Bz : bounded 330 z).

Definition is_pow (n : Z) (f : fe) : Prop := 0 <= n /\ yields 101 (feval z ^ n)%F f.

Lemma is_pow_bounded n f : is_pow n f -> bounded 330 f.
Proof using Type. intros [_ [B _]]. apply (bounded_weaken 101); [exact B|lia]. Qed.

Lemma is_pow_sq n f : is_pow n f -> is_pow (2 * n) (fe_sq f).
Proof using Type.
  intros H. pose proof (fe_sq_ok f (is_pow_bounded _ _ H)) as Y. destruct H as [Hn [_ E]].
  split; [lia|]. rewrite E, <- Zmod.pow_add_r_nonneg, Z.add_diag in Y by lia. exact Y.
Qed.

Lemma is_pow_mul m n f g : is_pow m f -> is_pow n g -> is_pow (m + n) (fe_mul f g).
Proof using Type.
  intros Hf Hg. pose proof (fe_mul_ok f g (is_pow_bounded _ _ Hf) (is_pow_bounded _ _ Hg)) as Y.
  destruct Hf as [Hm [_ Ef]], Hg as [Hn [_ Eg]].
  split; [lia|]. rewrite Ef, Eg, <- Zmod.pow_add_r_nonneg in Y by lia. exact Y.
Qed.

Lemma is_pow_iter k n f : is_pow n f -> is_pow (2 ^ Z.of_nat k * n) (Nat.iter k fe_sq f).
Proof using Type.
  intros H; induction k as [|k IH]; cbn [Nat.iter nat_rect]; [now rewrite Z.mul_1_l|].
  rewrite Nat2Z.inj_succ, Z.pow_succ_r, <- Z.mul_assoc by lia. now apply is_pow_sq.
Qed.

Lemma is_pow_for k n f : is_pow n f -> is_pow (2 ^ Z.of_nat (k - 1) * n) (for_1 k fe_sq f).
Proof using Type. apply is_pow_iter. Qed.

(** The first square and the products by [z] itself. *)
Lemma is_pow_sq_z : is_pow 2 (fe_sq z).
Proof using Bz.
  split; [lia|]. pose proof (fe_sq_ok z Bz) as Y. now rewrite <- Zmod.pow_2_r in Y.
Qed.

Lemma is_pow_mul_z_l n f : is_pow n f -> is_pow (1 + n) (fe_mul z f).
Proof using Bz.
  intros Hf. pose proof (fe_mul_ok z f Bz (is_pow_bounded _ _ Hf)) as Y.
  destruct Hf as [Hn [_ Ef]]. split; [lia|].
  rewrite Ef in Y. rewrite Z.add_1_l, Zmod.pow_succ_nonneg_r by lia. exact Y.
Qed.

Lemma is_pow_mul_z_r n f : is_pow n f -> is_pow (n + 1) (fe_mul f z).
Proof using Bz.
  intros Hf. pose proof (fe_mul_ok f z (is_pow_bounded _ _ Hf) Bz) as Y.
  destruct Hf as [Hn [_ Ef]]. split; [lia|].
  rewrite Ef in Y. now rewrite Zmod.pow_add_r_nonneg, Zmod.pow_1_r by lia.
Qed.

Lemma is_pow_let (P : fe -> Prop) m n e (k : fe -> fe) :
  is_pow m e -> m = n -> (forall x, is_pow n x -> P (k x)) -> P (let x := e in k x).
Proof using Type. intros He -> Hk. cbv zeta. auto. Qed.
End Powers.

Ltac pow_of z e :=
  lazymatch e with
  | fe_sq z => match goal with B : bounded 330 z |- _ => constr:(is_pow_sq_z z B) end
  | fe_sq ?f => match goal with H : is_pow z ?n f |- _ => constr:(is_pow_sq z n f H) end
  | fe_mul z ?f =>
      match goal with B : bounded 330 z, H : is_pow z ?n f |- _ => constr:(is_pow_mul_z_l z B n f H) end
  | fe_mul ?f z =>
      match goal with B : bounded 330 z, H : is_pow z ?n f |- _ => constr:(is_pow_mul_z_r z B n f H) end
  | fe_mul ?f ?g =>
      match goal with H : is_pow z ?m f |- _ =>
        match goal with K : is_pow z ?n g |- _ => constr:(is_pow_mul z m n f g H K) end end
  | for_1 ?k fe_sq ?f => match goal with H : is_pow z ?n f |- _ => constr:(is_pow_for z k n f H) end
  end.

(** Step through a chain, with the exponents evaluated on the way. *)
Ltac pow_step z :=
  lazymatch goal with
  | |- ?P (let x := ?e in @?k x) =>
      let H := pow_of z e in
      lazymatch type of H with
      | is_pow _ ?n _ =>
          let n' := eval vm_compute in n in
          let y := fresh x in let Hy := fresh "H" in
          refine (is_pow_let z P n n' e k H (eq_refl n' <: n = n') _); intros y Hy; cbv beta
      end
  | |- is_pow z ?n ?e =>
      let H := pow_of z e in
      lazymatch type of H with is_pow _ ?m _ => replace n with m by (vm_compute; reflexivity); exact H end
  end.

Lemma fe_invert_pow z : bounded 330 z -> is_pow z (p - 2) (fe_invert z).
Proof. intros B. cbv beta delta [fe_invert]. repeat pow_step z. Qed.

Lemma fe_pow22523_pow z : bounded 330 z -> is_pow z ((p - 5) / 8) (fe_pow22523 z).
Proof. intros B. cbv beta delta [fe_pow22523]. repeat pow_step z. Qed.

(** [fe_invert] is the field inverse (0 for 0). *)
Lemma fe_invert_ok z : bounded 330 z -> yields 101 (Zmod.inv (feval z)) (fe_invert z).
Proof.
  intros B. destruct (fe_invert_pow z B) as [_ [Bi E]]. split; [exact Bi|]. rewrite E.
  destruct (Zmod.eqb_spec (feval z) 0%F) as [-> | N].
  - rewrite Zmod.pow_0_l by (vm_compute; discriminate). symmetry. apply Zmod.inv_0.
  - apply (Zmod.fermat_inv _ N prime_p).
Qed.

Lemma fe_pow22523_ok z : bounded 330 z -> yields 101 (feval z ^ ((p - 5) / 8))%F (fe_pow22523 z).
Proof. intros B. apply (fe_pow22523_pow z B). Qed.
