(* ===== verification/Ge.v ===== *)
(** The point formulas: [ge_add.h], [ge_sub.h], [ge_madd.h], [ge_msub.h],
    [ge_p2_dbl.h] and the conversions between the representations of [ge.h].
    Each representation is related to the points of [Edwards.v], with the
    limb bounds under which the field operations do not overflow. *)
From Stdlib Require Import ZArith Lia List Zmod Field.
From S2P Require Import Prelude.
From S2P Require Import PrimeP.
From S2P Require Import Fp.
From S2P Require Import AbGroup.
From S2P Require Import Edwards.
From S2P Require Import Fe.
From S2P Require Import FePow.

(** ** Representations *)

(** [ge_p2] (projective): (X:Y:Z) satisfying x=X/Z, y=Y/Z *)
Record ge_p2 := Ge_p2 { p2_X : fe; p2_Y : fe; p2_Z : fe }.
(** [ge_p3] (extended): (X:Y:Z:T) satisfying x=X/Z, y=Y/Z, XY=ZT *)
Record ge_p3 := Ge_p3 { p3_X : fe; p3_Y : fe; p3_Z : fe; p3_T : fe }.
(** [ge_p1p1] (completed): ((X:Z),(Y:T)) satisfying x=X/Z, y=Y/T *)
Record ge_p1p1 := Ge_p1p1 { p1p1_X : fe; p1p1_Y : fe; p1p1_Z : fe; p1p1_T : fe }.
(** [ge_precomp] (Duif): (y+x,y-x,2dxy) *)
Record ge_precomp := Ge_precomp { yplusx : fe; yminusx : fe; xy2d : fe }.
(** [ge_cached]: (Y+X,Y-X,Z,2dT) *)
Record ge_cached := Ge_cached { YplusX : fe; YminusX : fe; cached_Z : fe; T2d : fe }.

(** ** Operations *)

Definition ge_p2_0 : ge_p2 := Ge_p2 fe_0 fe_1 fe_1.
Definition ge_p3_0 : ge_p3 := Ge_p3 fe_0 fe_1 fe_1 fe_0.
Definition ge_precomp_0 : ge_precomp := Ge_precomp fe_1 fe_1 fe_0.

Definition ge_p3_to_p2 (p : ge_p3) : ge_p2 :=
  let rX := fe_copy (p3_X p) in
  let rY := fe_copy (p3_Y p) in
  let rZ := fe_copy (p3_Z p) in
  Ge_p2 rX rY rZ.

(** [d2.h] *)
Definition d2 : fe :=
  Fe (-21827239) (-5839606) (-30745221) 13898782 229458
     15978800 (-12551817) (-6495438) 29715968 9444199.

Definition ge_p3_to_cached (p : ge_p3) : ge_cached :=
  let rYplusX := fe_add (p3_Y p) (p3_X p) in
  let rYminusX := fe_sub (p3_Y p) (p3_X p) in
  let rZ := fe_copy (p3_Z p) in
  let rT2d := fe_mul (p3_T p) d2 in
  Ge_cached rYplusX rYminusX rZ rT2d.

Definition ge_p1p1_to_p2 (p : ge_p1p1) : ge_p2 :=
  let rX := fe_mul (p1p1_X p) (p1p1_T p) in
  let rY := fe_mul (p1p1_Y p) (p1p1_Z p) in
  let rZ := fe_mul (p1p1_Z p) (p1p1_T p) in
  Ge_p2 rX rY rZ.

Definition ge_p1p1_to_p3 (p : ge_p1p1) : ge_p3 :=
  let rX := fe_mul (p1p1_X p) (p1p1_T p) in
  let rY := fe_mul (p1p1_Y p) (p1p1_Z p) in
  let rZ := fe_mul (p1p1_Z p) (p1p1_T p) in
  let rT := fe_mul (p1p1_X p) (p1p1_Y p) in
  Ge_p3 rX rY rZ rT.

Definition ge_p2_dbl (p : ge_p2) : ge_p1p1 :=
  let rX := fe_sq (p2_X p) in
  let rZ := fe_sq (p2_Y p) in
  let rT := fe_sq2 (p2_Z p) in
  let rY := fe_add (p2_X p) (p2_Y p) in
  let t0 := fe_sq rY in
  let rY := fe_add rZ rX in
  let rZ := fe_sub rZ rX in
  let rX := fe_sub t0 rY in
  let rT := fe_sub rT rZ in
  Ge_p1p1 rX rY rZ rT.

Definition ge_p3_dbl (p : ge_p3) : ge_p1p1 :=
  let q := ge_p3_to_p2 p in
  ge_p2_dbl q.

Definition ge_p3_dbl_p3 (p : ge_p3) : ge_p3 :=
  let q := ge_p3_to_p2 p in
  let r := ge_p2_dbl q in
  ge_p1p1_to_p3 r.

(** r = p + q *)
Definition ge_add (p : ge_p3) (q : ge_cached) : ge_p1p1 :=
  let rX := fe_add (p3_Y p) (p3_X p) in
  let rY := fe_sub (p3_Y p) (p3_X p) in
  let rZ := fe_mul rX (YplusX q) in
  let rY := fe_mul rY (YminusX q) in
  let rT := fe_mul (T2d q) (p3_T p) in
  let rX := fe_mul (p3_Z p) (cached_Z q) in
  let t0 := fe_add rX rX in
  let rX := fe_sub rZ rY in
  let rY := fe_add rZ rY in
  let rZ := fe_add t0 rT in
  let rT := fe_sub t0 rT in
  Ge_p1p1 rX rY rZ rT.

(** r = p - q *)
Definition ge_sub (p : ge_p3) (q : ge_cached) : ge_p1p1 :=
  let rX := fe_add (p3_Y p) (p3_X p) in
  let rY := fe_sub (p3_Y p) (p3_X p) in
  let rZ := fe_mul rX (YminusX q) in
  let rY := fe_mul rY (YplusX q) in
  let rT := fe_mul (T2d q) (p3_T p) in
  let rX := fe_mul (p3_Z p) (cached_Z q) in
  let t0 := fe_add rX rX in
  let rX := fe_sub rZ rY in
  let rY := fe_add rZ rY in
  let rZ := fe_sub t0 rT in
  let rT := fe_add t0 rT in
  Ge_p1p1 rX rY rZ rT.

(** r = p + q *)
Definition ge_madd (p : ge_p3) (q : ge_precomp) : ge_p1p1 :=
  let rX := fe_add (p3_Y p) (p3_X p) in
  let rY := fe_sub (p3_Y p) (p3_X p) in
  let rZ := fe_mul rX (yplusx q) in
  let rY := fe_mul rY (yminusx q) in
  let rT := fe_mul (xy2d q) (p3_T p) in
  let t0 := fe_add (p3_Z p) (p3_Z p) in
  let rX := fe_sub rZ rY in
  let rY := fe_add rZ rY in
  let rZ := fe_add t0 rT in
  let rT := fe_sub t0 rT in
  Ge_p1p1 rX rY rZ rT.

(** r = p - q *)
Definition ge_msub (p : ge_p3) (q : ge_precomp) : ge_p1p1 :=
  let rX := fe_add (p3_Y p) (p3_X p) in
  let rY := fe_sub (p3_Y p) (p3_X p) in
  let rZ := fe_mul rX (yminusx q) in
  let rY := fe_mul rY (yplusx q) in
  let rT := fe_mul (xy2d q) (p3_T p) in
  let t0 := fe_add (p3_Z p) (p3_Z p) in
  let rX := fe_sub rZ rY in
  let rY := fe_add rZ rY in
  let rZ := fe_sub t0 rT in
  let rT := fe_add t0 rT in
  Ge_p1p1 rX rY rZ rT.

(** [ge.c] *)
Definition ge_p3_cmov (out in_ : ge_p3) (b : Z) : ge_p3 :=
  let oX := fe_cmov (p3_X out) (p3_X in_) b in
  let oY := fe_cmov (p3_Y out) (p3_Y in_) b in
  let oZ := fe_cmov (p3_Z out) (p3_Z in_) b in
  let oT := fe_cmov (p3_T out) (p3_T in_) b in
  Ge_p3 oX oY oZ oT.

(** ** Tracking bounds and values through straight-line field code *)

Lemma yields_weaken k l x f : yields k x f -> k <= l -> yields l x f.
Proof. intros [B E] Hl. split; [eapply bounded_weaken; eauto|exact E]. Qed.

Lemma yields_eq k x y f : yields k x f -> x = y -> yields k y f.
Proof. now intros H <-. Qed.

Lemma yields_mul k l x y f g : yields k x f -> yields l y g ->
  ((k <=? 330) && (l <=? 330))%bool = true -> yields 101 (x * y)%F (fe_mul f g).
Proof.
  intros [Bf <-] [Bg <-] [Hk%Z.leb_le Hl%Z.leb_le]%andb_prop.
  apply fe_mul_ok; eapply bounded_weaken; eauto.
Qed.

Lemma yields_sq k x f : yields k x f -> (k <=? 330) = true -> yields 101 (x * x)%F (fe_sq f).
Proof. intros [Bf <-] Hk%Z.leb_le. apply fe_sq_ok; eapply bounded_weaken; eauto. Qed.

Lemma yields_sq2 k x f : yields k x f -> (k <=? 330) = true -> yields 101 (x * x + x * x)%F (fe_sq2 f).
Proof. intros [Bf <-] Hk%Z.leb_le. apply fe_sq2_ok; eapply bounded_weaken; eauto. Qed.

Definition addable (k l : Z) : bool := ((0 <=? k + l) && (k + l <=? 6300))%bool.

Lemma yields_add k l m x y f g : yields k x f -> yields l y g -> addable k l = true -> k + l = m ->
  yields m (x + y)%F (fe_add f g).
Proof.
  intros [Bf <-] [Bg <-] [?%Z.leb_le ?%Z.leb_le]%andb_prop <-. apply fe_add_ok; auto; lia.
Qed.

Lemma yields_sub k l m x y f g : yields k x f -> yields l y g -> addable k l = true -> k + l = m ->
  yields m (x - y)%F (fe_sub f g).
Proof.
  intros [Bf <-] [Bg <-] [?%Z.leb_le ?%Z.leb_le]%andb_prop <-. apply fe_sub_ok; auto; lia.
Qed.

Lemma yields_neg k x f : yields k x f -> addable k 0 = true -> yields k (- x)%F (fe_neg f).
Proof. intros [Bf <-] [?%Z.leb_le ?%Z.leb_le]%andb_prop. apply fe_neg_ok; auto; lia. Qed.

Lemma yields_invert k x f : yields k x f -> (k <=? 330) = true -> yields 101 (Zmod.inv x) (fe_invert f).
Proof. intros [Bf <-] Hk%Z.leb_le. apply fe_invert_ok; eapply bounded_weaken; eauto. Qed.

Lemma yields_pow22523 k x f : yields k x f -> (k <=? 330) = true ->
  yields 101 (x ^ ((p - 5) / 8))%F (fe_pow22523 f).
Proof. intros [Bf <-] Hk%Z.leb_le. apply fe_pow22523_ok; eapply bounded_weaken; eauto. Qed.

Lemma yields_copy k x f : yields k x f -> yields k x (fe_copy f).
Proof. now rewrite fe_copy_eq. Qed.

Lemma fe_let {B} (P : B -> Prop) k x e (body : fe -> B) :
  yields k x e -> (forall f, yields k x f -> P (body f)) -> P (let f := e in body f).
Proof. intros He Hb. cbv zeta. auto. Qed.

Ltac fe_known f := match goal with H : yields ?k ?x f |- _ => H end.
Ltac fe_bound H := lazymatch type of H with yields ?k _ _ => k end.
Ltac fe_of e :=
  lazymatch e with
  | fe_mul ?f ?g => let Hf := fe_of f in let Hg := fe_of g in
      constr:(yields_mul _ _ _ _ _ _ Hf Hg eq_refl)
  | fe_sq ?f => let Hf := fe_of f in constr:(yields_sq _ _ _ Hf eq_refl)
  | fe_sq2 ?f => let Hf := fe_of f in constr:(yields_sq2 _ _ _ Hf eq_refl)
  | fe_add ?f ?g => fe_bin_of yields_add f g
  | fe_sub ?f ?g => fe_bin_of yields_sub f g
  | fe_neg ?f => let Hf := fe_of f in constr:(yields_neg _ _ _ Hf eq_refl)
  | fe_invert ?f => let Hf := fe_of f in constr:(yields_invert _ _ _ Hf eq_refl)
  | fe_pow22523 ?f => let Hf := fe_of f in constr:(yields_pow22523 _ _ _ Hf eq_refl)
  | fe_copy ?f => let Hf := fe_of f in constr:(yields_copy _ _ _ Hf)
  | _ => match goal with H : yields ?k ?x e |- _ => H end
  end
with fe_bin_of lem f g :=
  let Hf := fe_of f in let Hg := fe_of g in
  let k := fe_bound Hf in let l := fe_bound Hg in
  let m := eval vm_compute in (k + l) in
  constr:(lem k l m _ _ _ _ Hf Hg eq_refl eq_refl).

(** One assignment of field elements: its bound and value enter the context. *)
Ltac fe_step_on P f e body :=
  let H := fe_of e in
  lazymatch type of H with
  | yields ?k ?x _ =>
      let y := fresh f in let Hy := fresh "Y" in
      refine (fe_let P k x e body H _); intros y Hy; cbv beta
  end.
Ltac fe_step :=
  lazymatch goal with
  | |- ?P (let f := ?e in @?body f) => fe_step_on P f e body
  | |- ?R (let f := ?e in @?body f) ?Q => fe_step_on constr:(fun h => R h Q) f e body
  end.
Ltac fe_steps := repeat fe_step.

(** Close [yields k x f] from the context: weaken the bound, prove the value by [ring]. *)
Ltac fe_done :=
  lazymatch goal with
  | |- yields _ _ ?f =>
      let H := fe_known f in
      refine (yields_weaken _ _ _ _ (yields_eq _ _ _ _ H _) _); [|lia]
  end.

(** ** The representation relations *)

Section Rep.
#[local] Open Scope F_scope.
Implicit Type P : point.

Definition rep_p2 (h : ge_p2) P : Prop := exists z, z <> 0 /\
  yields 101 (px P * z) (p2_X h) /\ yields 101 (py P * z) (p2_Y h) /\ yields 101 z (p2_Z h).

Definition rep_p3 (h : ge_p3) P : Prop := exists z, z <> 0 /\
  yields 101 (px P * z) (p3_X h) /\ yields 101 (py P * z) (p3_Y h) /\ yields 101 z (p3_Z h) /\
  yields 101 (px P * py P * z) (p3_T h).

Definition rep_p1p1 (h : ge_p1p1) P : Prop := exists z t, z <> 0 /\ t <> 0 /\
  yields 303 (px P * z) (p1p1_X h) /\ yields 303 (py P * t) (p1p1_Y h) /\
  yields 303 z (p1p1_Z h) /\ yields 303 t (p1p1_T h).

Definition rep_precomp (h : ge_precomp) P : Prop :=
  yields 101 (py P + px P) (yplusx h) /\ yields 101 (py P - px P) (yminusx h) /\
  yields 101 ((d + d) * px P * py P) (xy2d h).

Definition rep_cached (h : ge_cached) P : Prop := exists z, z <> 0 /\
  yields 202 ((py P + px P) * z) (YplusX h) /\ yields 202 ((py P - px P) * z) (YminusX h) /\
  yields 202 z (cached_Z h) /\ yields 202 ((d + d) * px P * py P * z) (T2d h).

Lemma one_nonzero : (1 : F) <> 0.
Proof using Type. intros E. apply (f_equal Zmod.to_Z) in E. vm_compute in E. discriminate. Qed.

Lemma double_nonzero (x : F) : x <> 0 -> x + x <> 0.
Proof using Type.
  intros Hx E. apply (mul_nonzero _ _ two_nonzero Hx). rewrite <- E.
  change (inF 2) with (inF (1 + 1)). rewrite inF_add, inF_1. ring.
Qed.

(** The shape shared by the four addition formulas: x1 y2 + y1 x2 and
    y1 y2 + x1 x2 over the two denominators of the addition law, all scaled
    by the same factor. *)
Lemma rep_p1p1_add h P Q c : c <> 0 ->
  yields 303 (c * (px P * py Q + py P * px Q)) (p1p1_X h) ->
  yields 303 (c * (py P * py Q + px P * px Q)) (p1p1_Y h) ->
  yields 303 (c * (1 + d * px P * px Q * py P * py Q)) (p1p1_Z h) ->
  yields 303 (c * (1 - d * px P * px Q * py P * py Q)) (p1p1_T h) ->
  rep_p1p1 h (padd P Q).
Proof using Type.
  intros Hc HX HY HZ HT.
  pose proof (complete_add _ _ _ _ (pt_on P) (pt_on Q)) as Da.
  pose proof (complete_sub _ _ _ _ (pt_on P) (pt_on Q)) as Ds.
  exists (c * (1 + d * px P * px Q * py P * py Q)), (c * (1 - d * px P * px Q * py P * py Q)).
  repeat split; try apply mul_nonzero; auto; try apply HX; try apply HY; try apply HZ; try apply HT;
    cbn [px py padd]; unfold add_x, add_y.
  - rewrite (proj2 HX). field; exact Da.
  - rewrite (proj2 HY). field; exact Ds.
Qed.
End Rep.

(** ** Correctness of the operations *)

Section Ops.
#[local] Open Scope F_scope.
Implicit Types P Q : point.

Local Ltac conjs := repeat match goal with |- _ /\ _ => split end.
Local Ltac ge_cbn :=
  cbv beta iota delta [p2_X p2_Y p2_Z p3_X p3_Y p3_Z p3_T p1p1_X p1p1_Y p1p1_Z p1p1_T
       yplusx yminusx xy2d YplusX YminusX cached_Z T2d] in *.

(** Destruct representations into their facts on the fields. *)
Local Ltac rep_intros :=
  repeat match goal with
    | |- forall _ : ge_p2, _ => intros []
    | |- forall _ : ge_p3, _ => intros []
    | |- forall _ : ge_p1p1, _ => intros []
    | |- forall _ : ge_precomp, _ => intros []
    | |- forall _ : ge_cached, _ => intros []
    | |- forall _ : point, _ => intros ?
    | |- rep_p2 _ _ -> _ => intros (?z & ? & ? & ? & ?)
    | |- rep_p3 _ _ -> _ => intros (?z & ? & ? & ? & ? & ?)
    | |- rep_p1p1 _ _ -> _ => intros (?z & ?t & ? & ? & ? & ? & ? & ?)
    | |- rep_precomp _ _ -> _ => intros (? & ? & ?)
    | |- rep_cached _ _ -> _ => intros (?z & ? & ? & ? & ? & ?)
    end; ge_cbn.

Lemma ge_p2_0_ok : rep_p2 ge_p2_0 pzero.
Proof using Type.
  exists 1. split; [exact one_nonzero|].
  repeat split; try apply (bounded_weaken 1); try apply fe_0_ok; try apply fe_1_ok; try lia;
    cbn [px py pzero]; rewrite ?(proj2 fe_0_ok), ?(proj2 fe_1_ok); ring.
Qed.

Lemma ge_p3_0_ok : rep_p3 ge_p3_0 pzero.
Proof using Type.
  exists 1. split; [exact one_nonzero|].
  repeat split; try apply (bounded_weaken 1); try apply fe_0_ok; try apply fe_1_ok; try lia;
    cbn [px py pzero]; rewrite ?(proj2 fe_0_ok), ?(proj2 fe_1_ok); ring.
Qed.

Lemma ge_precomp_0_ok : rep_precomp ge_precomp_0 pzero.
Proof using Type.
  repeat split; try apply (bounded_weaken 1); try apply fe_0_ok; try apply fe_1_ok; try lia;
    cbn [px py pzero]; rewrite ?(proj2 fe_0_ok), ?(proj2 fe_1_ok); ring.
Qed.

Lemma ge_p3_to_p2_ok : forall p P, rep_p3 p P -> rep_p2 (ge_p3_to_p2 p) P.
Proof using Type.
  rep_intros. unfold ge_p3_to_p2. rewrite !fe_copy_eq. exists z. auto.
Qed.

Lemma d2_ok : yields 101 (d + d) d2.
Proof using Type.
  split; [unfold bounded, limb_le, d2; lia|].
  rewrite d_int_ok, <- inF_add. apply (inF_eq _ _ (-1)). vm_compute. reflexivity.
Qed.

Lemma ge_p3_to_cached_ok : forall p P, rep_p3 p P -> rep_cached (ge_p3_to_cached p) P.
Proof using Type.
  rep_intros. pose proof d2_ok. cbv beta delta [ge_p3_to_cached].
  ge_cbn. fe_steps. exists z. split; [assumption|].
  conjs; ge_cbn; fe_done; ring.
Qed.

Lemma ge_p1p1_to_p2_ok : forall p P, rep_p1p1 p P -> rep_p2 (ge_p1p1_to_p2 p) P.
Proof using Type.
  rep_intros. cbv beta delta [ge_p1p1_to_p2]. ge_cbn. fe_steps.
  exists (z * t). split; [now apply mul_nonzero|]. conjs; ge_cbn; fe_done; ring.
Qed.

Lemma ge_p1p1_to_p3_ok : forall p P, rep_p1p1 p P -> rep_p3 (ge_p1p1_to_p3 p) P.
Proof using Type.
  rep_intros. cbv beta delta [ge_p1p1_to_p3]. ge_cbn. fe_steps.
  exists (z * t). split; [now apply mul_nonzero|]. conjs; ge_cbn; fe_done; ring.
Qed.

Lemma on_curve_yy P : py P * py P = px P * px P + 1 + d * (px P * px P) * (py P * py P).
Proof using Type.
  pose proof (pt_on P) as C. unfold on_curve in C.
  transitivity (px P * px P + (py P * py P - px P * px P)); [ring|]. rewrite C. ring.
Qed.

Lemma ge_p2_dbl_ok : forall p P, rep_p2 p P -> rep_p1p1 (ge_p2_dbl p) (padd P P).
Proof using Type.
  rep_intros. cbv beta delta [ge_p2_dbl]. ge_cbn. fe_steps.
  apply (rep_p1p1_add _ _ _ (z * z)); [now apply mul_nonzero|..];
    ge_cbn; fe_done; try ring.
  - transitivity (z * z * (py P * py P - px P * px P)); [ring|]. rewrite on_curve_yy at 1. ring.
  - transitivity (z * z * (1 + 1 - (py P * py P - px P * px P))); [ring|].
    rewrite on_curve_yy at 1. ring.
Qed.

Lemma ge_p3_dbl_ok p P : rep_p3 p P -> rep_p1p1 (ge_p3_dbl p) (padd P P).
Proof using Type. intros H. apply ge_p2_dbl_ok, ge_p3_to_p2_ok, H. Qed.

Lemma ge_p3_dbl_p3_ok p P : rep_p3 p P -> rep_p3 (ge_p3_dbl_p3 p) (padd P P).
Proof using Type. intros H. apply ge_p1p1_to_p3_ok, ge_p3_dbl_ok, H. Qed.

Lemma ge_add_ok : forall p P q Q, rep_p3 p P -> rep_cached q Q -> rep_p1p1 (ge_add p q) (padd P Q).
Proof using Type.
  rep_intros. cbv beta delta [ge_add]. ge_cbn. fe_steps.
  apply (rep_p1p1_add _ _ _ (z * z0 + z * z0)); [now apply double_nonzero, mul_nonzero|..];
    ge_cbn; fe_done; ring.
Qed.

Lemma ge_sub_ok : forall p P q Q, rep_p3 p P -> rep_cached q Q -> rep_p1p1 (ge_sub p q) (padd P (popp Q)).
Proof using Type.
  rep_intros. cbv beta delta [ge_sub]. ge_cbn. fe_steps.
  apply (rep_p1p1_add _ _ _ (z * z0 + z * z0)); [now apply double_nonzero, mul_nonzero|..];
    ge_cbn; fe_done; cbn [px py popp]; ring.
Qed.

Lemma ge_madd_ok : forall p P q Q, rep_p3 p P -> rep_precomp q Q -> rep_p1p1 (ge_madd p q) (padd P Q).
Proof using Type.
  rep_intros. cbv beta delta [ge_madd]. ge_cbn. fe_steps.
  apply (rep_p1p1_add _ _ _ (z + z)); [now apply double_nonzero|..]; ge_cbn; fe_done; ring.
Qed.

Lemma ge_msub_ok : forall p P q Q, rep_p3 p P -> rep_precomp q Q -> rep_p1p1 (ge_msub p q) (padd P (popp Q)).
Proof using Type.
  rep_intros. cbv beta delta [ge_msub]. ge_cbn. fe_steps.
  apply (rep_p1p1_add _ _ _ (z + z)); [now apply double_nonzero|..];
    ge_cbn; fe_done; cbn [px py popp]; ring.
Qed.

Lemma ge_p3_cmov_ok out P in_ Q b : rep_p3 out P -> rep_p3 in_ Q -> b = 0%Z \/ b = 1%Z ->
  ge_p3_cmov out in_ b = if (b =? 1)%Z then in_ else out.
Proof using Type.
  revert out P in_ Q. rep_intros. intros Hb.
  unfold ge_p3_cmov; ge_cbn. unfold yields in *.
  rewrite !(fe_cmov_ok 101) by (tauto || lia). now destruct (b =? 1)%Z.
Qed.
End Ops.
