(* ===== verification/GeBytes.v ===== *)
(** Points as 32 bytes: [ge_p3_tobytes.c], [ge_tobytes.c], [ge_frombytes.c].
    An encoding is the y coordinate in [0, p) with the parity of x in the top
    bit; decoding solves the curve equation for x by one exponentiation. *)
From Stdlib Require Import ZArith Lia List Zmod Field.
From S2P Require Import Prelude.
From S2P Require Import PrimeP.
From S2P Require Import Fp.
From S2P Require Import AbGroup.
From S2P Require Import Edwards.
From S2P Require Import Fe.
From S2P Require Import FeBytes.
From S2P Require Import FePow.
From S2P Require Import Ge.
Import ListNotations.

Definition ge_p3_tobytes (h : ge_p3) : list Z :=
  let recip := fe_invert (p3_Z h) in
  let x := fe_mul (p3_X h) recip in
  let y := fe_mul (p3_Y h) recip in
  let s := fe_tobytes y in
  upd s 31 (u8 (Z.lxor (at_ s 31) (fe_isnegative x [<<i] 7))).

Definition ge_tobytes (h : ge_p2) : list Z :=
  let recip := fe_invert (p2_Z h) in
  let x := fe_mul (p2_X h) recip in
  let y := fe_mul (p2_Y h) recip in
  let s := fe_tobytes y in
  upd s 31 (u8 (Z.lxor (at_ s 31) (fe_isnegative x [<<i] 7))).

(** [d.h], [sqrtm1.h] *)
Definition fe_d : fe :=
  Fe (-10913610) 13857413 (-15372611) 6949391 114729
     (-8787816) (-6275908) (-3247719) (-18696448) (-12055116).
Definition fe_sqrtm1 : fe :=
  Fe (-32595792) (-7943725) 9377950 3500415 12389472
     (-272473) (-25146209) (-2005654) 326686 11406482.

(** The code the two readers share: [h->Y], [h->Z] and a solution [h->X] of
    vx^2 = u, the returned value being -1 when there is none. *)
Definition ge_frombytes_root (s : list Z) : Z * (fe * fe * fe) :=
  let hY := fe_frombytes s in
  let hZ := fe_1 in
  let u := fe_sq hY in
  let v := fe_mul u fe_d in
  let u := fe_sub u hZ in
  let v := fe_add v hZ in
  let v3 := fe_sq v in
  let v3 := fe_mul v3 v in
  let hX := fe_sq v3 in
  let hX := fe_mul hX v in
  let hX := fe_mul hX u in
  let hX := fe_pow22523 hX in
  let hX := fe_mul hX v3 in
  let hX := fe_mul hX u in
  let vxx := fe_sq hX in
  let vxx := fe_mul vxx v in
  let check := fe_sub vxx u in
  if negb (fe_isnonzero check =? 0) then
    let check := fe_add vxx u in
    if negb (fe_isnonzero check =? 0) then (-1, (hX, hY, hZ))
    else (0, (fe_mul hX fe_sqrtm1, hY, hZ))
  else (0, (hX, hY, hZ)).

(** [h] is the caller's object: on failure its [T] is left as it was. *)
Definition ge_frombytes_negate_vartime (h : ge_p3) (s : list Z) : Z * ge_p3 :=
  let '(r, (hX, hY, hZ)) := ge_frombytes_root s in
  if r =? -1 then (-1, Ge_p3 hX hY hZ (p3_T h))
  else
    let hX := if fe_isnegative hX =? (at_ s 31 [>>] 7) then fe_neg hX else hX in
    let hT := fe_mul hX hY in
    (0, Ge_p3 hX hY hZ hT).

Definition ge_frombytes_vartime (h : ge_p3) (s : list Z) : Z * ge_p3 :=
  let '(r, (hX, hY, hZ)) := ge_frombytes_root s in
  if r =? -1 then (-1, Ge_p3 hX hY hZ (p3_T h))
  else
    let hX := if negb (fe_isnegative hX =? (at_ s 31 [>>] 7)) then fe_neg hX else hX in
    let hT := fe_mul hX hY in
    (0, Ge_p3 hX hY hZ hT).

(** ** Encoding *)

(** [s] is the encoding of [P]: y in 255 bits, the parity of x above. *)
Definition point_bytes (P : point) (s : list Z) : Prop :=
  bytes 32 s /\ le_val s = Zmod.to_Z (py P) + 2 ^ 255 * neg (px P).

Lemma neg_range x : 0 <= neg x < 2.
Proof. apply Z.mod_pos_bound. lia. Qed.

Lemma to_Z_range (x : F) : 0 <= Zmod.to_Z x < p.
Proof. apply Zmod.unsigned_pos_bound. reflexivity. Qed.

(** Setting the top bit of an encoded field element. *)
Lemma set_top x s b : encodes x s -> 0 <= b < 2 ->
  let t := upd s 31 (u8 (Z.lxor (at_ s 31) (b [<<i] 7))) in
  bytes 32 t /\ le_val t = Zmod.to_Z x + 2 ^ 255 * b.
Proof.
  intros [[L B] V] Hb. pose proof (to_Z_range x) as Hx. rewrite <- V in *. clear V x.
  assert (E : s = firstn 31 s ++ [at_ s 31]) by (explode s L; reflexivity).
  assert (L31 : length (firstn 31 s) = 31%nat) by (rewrite length_firstn; lia).
  assert (B31 : Forall byte (firstn 31 s)) by now apply Forall_firstn.
  pose proof (at_byte s 31 B) as Ht. unfold byte in Ht.
  pose proof (le_val_bound _ B31) as Hv. rewrite L31 in Hv.
  assert (V : le_val s = le_val (firstn 31 s) + 2 ^ 248 * at_ s 31).
  { rewrite E at 1. rewrite le_val_app, L31. cbn [le_val]. change (256 ^ Z.of_nat 31) with (2 ^ 248). lia. }
  assert (Hs : at_ s 31 < 128) by (unfold p in *; lia).
  set (top := at_ s 31) in *. set (lo := firstn 31 s) in *.
  assert (T : u8 (Z.lxor top (b [<<i] 7)) = top + b * 128).
  { assert (b [<<i] 7 = b * 128) as -> by (assert (b = 0 \/ b = 1) as [-> | ->] by lia; reflexivity).
    assert (Z.land top (b * 128) = 0) as N.
    { rewrite <- (Z.mod_small top (2 ^ 7)), <- Z.land_ones, <- Z.land_assoc by lia.
      assert (b = 0 \/ b = 1) as [-> | ->] by lia; apply Z.land_0_r. }
    rewrite <- Z.add_nocarry_lxor by exact N. apply Z.mod_small. lia. }
  cbv zeta. rewrite T.
  assert (U : upd s 31 (top + b * 128) = lo ++ [top + b * 128]).
  { rewrite E. clear - L31. explode lo L31. reflexivity. }
  rewrite U. split; [split|].
  - rewrite length_app, L31. reflexivity.
  - apply Forall_app. split; [exact B31|]. repeat constructor; lia.
  - rewrite V, le_val_app, L31. cbn [le_val]. change (256 ^ Z.of_nat 31) with (2 ^ 248). lia.
Qed.

Lemma point_bytes_fe x y P : bounded 220 x -> bounded 220 y -> feval x = px P -> feval y = py P ->
  let s := fe_tobytes y in
  point_bytes P (upd s 31 (u8 (Z.lxor (at_ s 31) (fe_isnegative x [<<i] 7)))).
Proof.
  intros Bx By Ex Ey. pose proof (fe_tobytes_ok y By) as E. rewrite Ey in E.
  rewrite fe_isnegative_ok, Ex by assumption. apply (set_top _ _ _ E), neg_range.
Qed.

Lemma div_z (a z : F) : z <> 0%F -> (a * z * Zmod.inv z)%F = a.
Proof.
  intros Hz. transitivity (a * (z * Zmod.inv z))%F; [ring|].
  rewrite (Zmod.mul_inv_same_r_prime _ prime_p Hz). ring.
Qed.

Lemma ge_tobytes_ok h P : rep_p2 h P -> point_bytes P (ge_tobytes h).
Proof.
  intros (z & Hz & HX & HY & HZ). cbv beta delta [ge_tobytes]. do 3 fe_step. rewrite div_z in * by exact Hz.
  destruct Y0, Y1. apply point_bytes_fe; auto; eapply bounded_weaken; eauto; lia.
Qed.

Lemma ge_p3_tobytes_ok h P : rep_p3 h P -> point_bytes P (ge_p3_tobytes h).
Proof.
  intros H%ge_p3_to_p2_ok%ge_tobytes_ok. unfold ge_p3_to_p2, ge_tobytes in H.
  cbn [p2_X p2_Y p2_Z] in H. rewrite !fe_copy_eq in H. exact H.
Qed.

(** ** Decoding *)

(** What a string of 32 bytes denotes: its low 255 bits are y modulo p, its top
    bit the parity of x (either bit when x = 0). *)
Definition decodes (s : list Z) (P : point) : Prop :=
  py P = inF (le_val s mod 2 ^ 255) /\ (px P = 0%F \/ neg (px P) = at_ s 31 [>>] 7).

Section Sqrt.
#[local] Open Scope F_scope.
Implicit Types u v x y : F.

Definition is_root u v x : Prop := x * x * v = u.

(** (p-1)/2 and (p-1)/4 of the exponents below, as multiples of (p-5)/8. *)
Definition e8 : Z := (p - 5) / 8.

Lemma Fmul_comm x y : x * y = y * x.
Proof using Type. ring. Qed.

Lemma pow_2 x n : (0 <= n)%Z -> (x ^ n) * (x ^ n) = x ^ (2 * n)%Z.
Proof using Type.
  intros. rewrite <- Zmod.pow_add_r_nonneg by lia. f_equal. lia.
Qed.

Lemma one_roots x : x * x = 1 -> x = 1 \/ x = - (1).
Proof using Type.
  intros E. destruct (Zmod.mul_0_iff_prime prime_p (x - 1) (x + 1)) as [H _].
  destruct H as [H|H].
  - transitivity (x * x - 1); [ring|]. rewrite E. ring.
  - left. transitivity (x - 1 + 1); [ring|]. rewrite H. ring.
  - right. transitivity (x + 1 - 1); [ring|]. rewrite H. ring.
Qed.

(** x^((p-1)/2) is 1 or -1. *)
Lemma legendre x : x <> 0 -> x ^ (4 * e8 + 2)%Z = 1 \/ x ^ (4 * e8 + 2)%Z = - (1).
Proof using Type.
  intros Hx. apply one_roots. rewrite pow_2 by (vm_compute; discriminate).
  replace (2 * (4 * e8 + 2))%Z with (Z.pred p) by (vm_compute; reflexivity).
  apply Zmod.fermat_nz; [exact Hx|exact prime_p].
Qed.

(** The candidate u v^3 (u v^7)^((p-5)/8) is a root up to a fourth root of unity. *)
Definition sqrt_try u v : F :=
  (v * v * v * (v * v * v) * v * u) ^ ((p - 5) / 8)%Z * (v * v * v) * u.

Lemma sqrt_try_sq u v :
  sqrt_try u v * sqrt_try u v * v
  = u * (v * v * v * (v * v * v) * v * u) ^ (2 * e8 + 1)%Z.
Proof using Type.
  rewrite Zmod.pow_add_r_nonneg, Zmod.pow_1_r, <- pow_2 by (vm_compute; discriminate).
  unfold sqrt_try, e8. ring.
Qed.

Lemma sqrt_complete u v x : v <> 0 -> is_root u v x ->
  is_root u v (sqrt_try u v) \/ sqrt_try u v * sqrt_try u v * v = - u.
Proof using Type.
  unfold is_root. intros Hv Hx. rewrite sqrt_try_sq.
  destruct (Zmod.eqb_spec u 0) as [-> | Hu]; [left; ring|].
  replace (v * v * v * (v * v * v) * v * u) with ((x * (v * v * v * v)) * (x * (v * v * v * v)))
    by (rewrite <- Hx; ring).
  rewrite <- Zmod.pow_2_r, <- Zmod.pow_mul_r_nonneg by (vm_compute; discriminate).
  replace (2 * (2 * e8 + 1))%Z with (4 * e8 + 2)%Z by lia.
  destruct (legendre (x * (v * v * v * v))) as [-> | ->].
  - apply mul_nonzero; [|repeat apply mul_nonzero; exact Hv].
    intros ->. apply Hu. rewrite <- Hx. ring.
  - left. ring.
  - right. ring.
Qed.

Lemma sqrt_times_i u v x : x * x * v = - u -> is_root u v (x * sqrtm1).
Proof using Type.
  intros E. unfold is_root. transitivity (x * x * v * (sqrtm1 * sqrtm1)); [ring|].
  rewrite E, sqrtm1_sq. ring.
Qed.

(** The curve equation for a given y. *)
Lemma on_curve_root x y : on_curve x y <-> is_root (y * y - 1) (y * y * d + 1) x.
Proof using Type.
  unfold on_curve, is_root. split; intros E.
  - transitivity (1 + d * (x * x) * (y * y) - 1 + x * x); [ring|]. rewrite <- E. ring.
  - transitivity ((y * y - 1) + 1 - x * x); [ring|]. rewrite <- E. ring.
Qed.

Lemma den_nonzero y : y * y * d + 1 <> 0.
Proof using Type.
  intros E. assert (Hy : y <> 0).
  { intros ->. apply one_nonzero. rewrite <- E. ring. }
  apply (d_nonsquare (sqrtm1 / y)).
  transitivity ((sqrtm1 * sqrtm1) / (y * y)); [field; exact Hy|].
  rewrite sqrtm1_sq. transitivity ((y * y * d - (y * y * d + 1)) / (y * y)); [f_equal; ring|].
  rewrite E. field. exact Hy.
Qed.

Lemma neg_opp x : x <> 0 -> neg (- x) = (1 - neg x)%Z.
Proof using Type.
  intros Hx. unfold neg. rewrite Zmod.unsigned_opp. pose proof (to_Z_range x).
  assert (Zmod.to_Z x <> 0%Z) by (intros E; apply Hx, Zmod.unsigned_inj; rewrite E; reflexivity).
  set (n := Zmod.to_Z x) in *. clearbody n.
  replace (- n mod p)%Z with (p - n)%Z by (apply (Z.mod_unique_pos _ _ (-1)); unfold p in *; lia).
  unfold p. Z.div_mod_to_equations. lia.
Qed.

(** A point is determined by y and the parity of x. *)
Lemma decodes_inj s P Q : decodes s P -> decodes s Q -> P = Q.
Proof using Type.
  intros [EP SP] [EQ SQ]. assert (Ey : py P = py Q) by congruence.
  apply point_eq; [|exact Ey].
  pose proof (proj1 (on_curve_root _ _) (pt_on P)) as RP.
  pose proof (proj1 (on_curve_root _ _) (pt_on Q)) as RQ.
  unfold is_root in *. rewrite <- Ey in RQ. set (y := py P) in *.
  assert (Sq : px P * px P = px Q * px Q).
  { apply (cancel (y * y * d + 1)); [apply den_nonzero|].
    rewrite !(Fmul_comm (_ + _)). congruence. }
  destruct (Zmod.mul_0_iff_prime prime_p (px P - px Q) (px P + px Q)) as [H _].
  destruct H as [H|H]; [transitivity (px P * px P - px Q * px Q); [ring|rewrite Sq; ring]|..].
  - now apply sub_zero.
  - assert (E : px P = - px Q) by (transitivity (px P + px Q - px Q); [ring|rewrite H; ring]).
    destruct (Zmod.eqb_spec (px Q) 0) as [Z|N].
    + rewrite E, Z. ring.
    + exfalso. assert (NP : px P <> 0).
      { intros Z. apply N. transitivity (- - px Q); [ring|]. rewrite <- E, Z. ring. }
      pose proof (neg_opp _ N) as O. rewrite <- E in O. pose proof (neg_range (px Q)).
      destruct SP as [SP|SP]; [contradiction|]. destruct SQ as [SQ|SQ]; [contradiction|].
      lia.
Qed.
End Sqrt.

(** *** The readers *)

Lemma fe_d_ok : yields 101 d fe_d.
Proof.
  split; [unfold bounded, limb_le, fe_d; lia|].
  rewrite d_int_ok. apply (inF_eq _ _ (-1)). vm_compute. reflexivity.
Qed.

Lemma fe_sqrtm1_bounded : bounded 101 fe_sqrtm1.
Proof. unfold bounded, limb_le, fe_sqrtm1; lia. Qed.

Lemma fe_sqrtm1_ok : yields 101 sqrtm1 fe_sqrtm1.
Proof.
  split; [exact fe_sqrtm1_bounded|]. apply inF_inj. vm_compute. reflexivity.
Qed.

Definition root_found (y : F) (r : Z * (fe * fe * fe)) : Prop :=
  let '(r, (hX, hY, hZ)) := r in
  yields 101 y hY /\ yields 1 1%F hZ /\
  ((r = 0 /\ exists x, yields 101 x hX /\ on_curve x y) \/ (r = -1 /\ forall x, ~ on_curve x y)).

Lemma nonzero_check k x f : yields k x f -> (k <=? 220) = true ->
  (negb (fe_isnonzero f =? 0) = true <-> x <> 0%F).
Proof.
  intros [B <-] Hk%Z.leb_le. destruct (fe_isnonzero_ok f) as [Hz Hn]; [eapply bounded_weaken; eauto|].
  destruct (Zmod.eqb_spec (feval f) 0%F) as [E|N].
  - rewrite (Hz E). cbn. split; [discriminate|contradiction].
  - rewrite (Hn N). cbn. tauto.
Qed.

Lemma ge_frombytes_root_ok s : bytes 32 s ->
  root_found (inF (le_val s mod 2 ^ 255)) (ge_frombytes_root s).
Proof.
  intros Hs. pose proof (fe_frombytes_ok s Hs) as H. set (y := inF _) in *. clearbody y.
  pose proof fe_1_ok. pose proof fe_d_ok. pose proof fe_sqrtm1_ok as Hi.
  cbv beta delta [ge_frombytes_root]. fe_steps.
  fold (sqrt_try (y * y - 1) (y * y * d + 1)) in *.
  pose proof (nonzero_check _ _ _ Y15 eq_refl) as N.
  pose proof (sqrt_complete (y * y - 1) (y * y * d + 1)) as C.
  pose proof (den_nonzero y) as Hv.
  set (x := sqrt_try _ _) in *. clearbody x.
  destruct (negb (fe_isnonzero check =? 0)).
  - fe_steps. pose proof (nonzero_check _ _ _ Y16 eq_refl) as N'.
    destruct (negb (fe_isnonzero check0 =? 0)).
    + repeat split; try apply Y; try apply Y0. right. split; [reflexivity|].
      intros x' Hx'. apply on_curve_root in Hx'. apply C in Hx'; [|exact Hv].
      unfold is_root in Hx'.
      destruct Hx' as [E|E]; [apply (proj1 N eq_refl)|apply (proj1 N' eq_refl)]; rewrite E; ring.
    + repeat split; try apply Y; try apply Y0. left. split; [reflexivity|].
      exists (x * sqrtm1)%F. split; [exact (yields_mul _ _ _ _ _ _ Y12 Hi eq_refl)|].
      apply on_curve_root, sqrt_times_i.
      destruct (Zmod.eqb_spec (x * x * (y * y * d + 1) + (y * y - 1)) 0)%F as [E|E].
      * transitivity (x * x * (y * y * d + 1) + (y * y - 1) - (y * y - 1))%F; [ring|]. rewrite E. ring.
      * apply N' in E. discriminate.
  - repeat split; try apply Y; try apply Y0. left. split; [reflexivity|].
    exists x. split; [exact Y12|]. apply on_curve_root.
    destruct (Zmod.eqb_spec (x * x * (y * y * d + 1) - (y * y - 1)) 0)%F as [E|E].
    + now apply sub_zero.
    + apply N in E. discriminate.
Qed.

(** Fix the sign and compute T: shared by the two readers. *)
Lemma read_point y x hX hY hZ (b : bool) (hX' := if b then fe_neg hX else hX) :
  yields 101 x hX -> yields 101 y hY -> yields 1 1%F hZ -> on_curve x y ->
  exists P, px P = (if b then - x else x)%F /\ py P = y /\
            rep_p3 (Ge_p3 hX' hY hZ (fe_mul hX' hY)) P.
Proof.
  intros HX HY HZ C. pose proof (yields_neg _ _ _ HX eq_refl) as HN.
  set (x' := (if b then - x else x)%F).
  assert (C' : on_curve x' y) by (unfold x'; destruct b; [apply on_curve_opp, C|exact C]).
  assert (HX' : yields 101 x' hX') by (unfold x', hX'; destruct b; [exact HN|exact HX]).
  exists (Pt x' y (proj2 (on_curveb_spec _ _) C')). repeat (split; [reflexivity|]).
  pose proof (yields_mul _ _ _ _ _ _ HX' HY eq_refl) as HT.
  exists 1%F. split; [exact one_nonzero|]. cbn [p3_X p3_Y p3_Z p3_T px py].
  rewrite !Zmod.mul_1_r. repeat split; try apply HX'; try apply HY; try apply HT; try apply HZ.
  eapply bounded_weaken; [apply HZ|lia].
Qed.

Lemma top_bit s : bytes 32 s -> 0 <= at_ s 31 [>>] 7 < 2.
Proof.
  intros [_ B]. pose proof (at_byte s 31 B) as H. unfold byte in H.
  rewrite Z.shiftr_div_pow2 by lia. Z.div_mod_to_equations. lia.
Qed.

(** The string denotes a point, or no point has that y. *)
Definition undecodable (s : list Z) : Prop := forall x, ~ on_curve x (inF (le_val s mod 2 ^ 255)).

Lemma ge_frombytes_vartime_ok h s : bytes 32 s ->
  (exists P h', decodes s P /\ ge_frombytes_vartime h s = (0, h') /\ rep_p3 h' P) \/
  (undecodable s /\ fst (ge_frombytes_vartime h s) = -1).
Proof.
  intros Hs. pose proof (ge_frombytes_root_ok s Hs) as R. unfold ge_frombytes_vartime, undecodable, decodes.
  set (y := inF _) in *. destruct (ge_frombytes_root s) as [r [[hX hY] hZ]].
  destruct R as (HY & HZ & [[-> (x & HX & C)] | [-> N]]); [left|right; auto].
  cbv beta match. pose proof (top_bit s Hs). set (b := at_ s 31 [>>] 7) in *.
  destruct (read_point y x hX hY hZ (negb (fe_isnegative hX =? b)) HX HY HZ C) as (P & Px & Py & HP).
  exists P; eexists. split; [split; [exact Py|]|split; [reflexivity|exact HP]].
  rewrite Px, fe_isnegative_ok by (eapply bounded_weaken; [apply HX|lia]). rewrite (proj2 HX).
  destruct (Zmod.eqb_spec x 0%F) as [E|E]; [left; rewrite E; destruct (neg 0 =? b); cbn [negb]; ring|right].
  pose proof (neg_range x). destruct (Z.eqb_spec (neg x) b) as [Eb|Eb]; cbn [negb]; [exact Eb|].
  rewrite neg_opp by exact E. lia.
Qed.

Lemma ge_frombytes_negate_vartime_ok h s : bytes 32 s ->
  (exists P h', decodes s P /\ ge_frombytes_negate_vartime h s = (0, h') /\ rep_p3 h' (popp P)) \/
  (undecodable s /\ fst (ge_frombytes_negate_vartime h s) = -1).
Proof.
  intros Hs. pose proof (ge_frombytes_root_ok s Hs) as R.
  unfold ge_frombytes_negate_vartime, undecodable, decodes.
  set (y := inF _) in *. destruct (ge_frombytes_root s) as [r [[hX hY] hZ]].
  destruct R as (HY & HZ & [[-> (x & HX & C)] | [-> N]]); [left|right; auto].
  cbv beta match. pose proof (top_bit s Hs). set (b := at_ s 31 [>>] 7) in *.
  destruct (read_point y x hX hY hZ (fe_isnegative hX =? b) HX HY HZ C) as (P & Px & Py & HP).
  exists (popp P); eexists. split; [split; [exact Py|]|split; [reflexivity|]].
  2:{ replace (popp (popp P)) with P by (apply point_eq; cbn [px py popp]; ring). exact HP. }
  cbn [px popp]. rewrite Px, fe_isnegative_ok by (eapply bounded_weaken; [apply HX|lia]). rewrite (proj2 HX).
  destruct (Zmod.eqb_spec x 0%F) as [E|E]; [left; rewrite E; destruct (neg 0 =? b); ring|right].
  pose proof (neg_range x). destruct (Z.eqb_spec (neg x) b) as [Eb|Eb].
  - rewrite <- Eb. f_equal. ring.
  - rewrite neg_opp by exact E. lia.
Qed.

(** An encoding denotes the point it encodes. *)
Lemma point_bytes_decodes P s : point_bytes P s -> decodes s P.
Proof.
  intros [[L B] V]. pose proof (to_Z_range (py P)) as Hy. pose proof (neg_range (px P)).
  assert (Hm : le_val s mod 2 ^ 255 = Zmod.to_Z (py P)).
  { symmetry. assert (p < 2 ^ 255) by reflexivity. apply (Z.mod_unique_pos _ _ (neg (px P))); lia. }
  split; [now rewrite Hm, inF_to_Z|right].
  pose proof (le_val_low255 s (conj L B)) as E. unfold low255 in E. rewrite Hm in E.
  assert (T : s = firstn 31 s ++ [at_ s 31]) by (explode s L; reflexivity).
  assert (L31 : length (firstn 31 s) = 31%nat) by (rewrite length_firstn; lia).
  assert (V' : le_val s = le_val (firstn 31 s) + 2 ^ 248 * at_ s 31).
  { rewrite T at 1. rewrite le_val_app, L31. cbn [le_val]. change (256 ^ Z.of_nat 31) with (2 ^ 248). lia. }
  rewrite Z.shiftr_div_pow2 by lia. pose proof (Z_div_mod_eq_full (at_ s 31) 128) as D.
  change (2 ^ 7) with 128. lia.
Qed.
