(* ===== verification/ScalarMult.v ===== *)
(** Multiplication of the base point by a scalar: [ge_scalarmult_base.c].  The
    scalar is recoded into 64 signed digits of radix 16; the table of
    [BaseTable.v] is read in constant time. *)
From Stdlib Require Import ZArith Lia List Bool Zmod.
From S2P Require Import Prelude.
From S2P Require Import PrimeP.
From S2P Require Import Fp.
From S2P Require Import AbGroup.
From S2P Require Import Edwards.
From S2P Require Import Fe.
From S2P Require Import FeBytes.
From S2P Require Import Ge.
From S2P Require Import GeBytes.
From S2P Require Import BaseTable.
Import ListNotations.

(** ** The code *)

Definition equal (b c : Z) : Z :=
  let ub := u8 b in
  let uc := u8 c in
  let x := u8 (Z.lxor ub uc) in
  let y := u32 x in
  let y := u32 (y - 1) in
  let y := y [>>] 31 in
  u8 y.

Definition negative (b : Z) : Z :=
  let x := u64 b in
  let x := x [>>] 63 in
  u8 x.

Definition cmov (t u : ge_precomp) (b : Z) : ge_precomp :=
  let yp := fe_cmov (yplusx t) (yplusx u) b in
  let ym := fe_cmov (yminusx t) (yminusx u) b in
  let xy := fe_cmov (xy2d t) (xy2d u) b in
  Ge_precomp yp ym xy.

(** [base[pos][j]] *)
Definition base_at (pos j : nat) : ge_precomp := nth j (nth pos base []) dflt.

Definition select (pos : nat) (b : Z) : ge_precomp :=
  let bnegative := negative b in
  let babs := u8 (b - Z.shiftl (Z.land (- bnegative) b) 1) in
  let t := ge_precomp_0 in
  let t := cmov t (base_at pos 0) (equal (i8 babs) 1) in
  let t := cmov t (base_at pos 1) (equal (i8 babs) 2) in
  let t := cmov t (base_at pos 2) (equal (i8 babs) 3) in
  let t := cmov t (base_at pos 3) (equal (i8 babs) 4) in
  let t := cmov t (base_at pos 4) (equal (i8 babs) 5) in
  let t := cmov t (base_at pos 5) (equal (i8 babs) 6) in
  let t := cmov t (base_at pos 6) (equal (i8 babs) 7) in
  let t := cmov t (base_at pos 7) (equal (i8 babs) 8) in
  let mp := fe_copy (yminusx t) in
  let mm := fe_copy (yplusx t) in
  let mx := fe_neg (xy2d t) in
  cmov t (Ge_precomp mp mm mx) bnegative.

(** [e[2*i+0] = (a[i] >> 0) & 15; e[2*i+1] = (a[i] >> 4) & 15;] *)
Definition nibbles (a : list Z) : list Z :=
  flat_map (fun i => [i8 (Z.land (at_ a i [>>] 0) 15); i8 (Z.land (at_ a i [>>] 4) 15)]) (seq 0 32).

(** One turn of the recoding loop: [e[i]], [carry]. *)
Definition recode_step (e carry : Z) : Z * Z :=
  let e := i8 (e + carry) in
  let carry := i8 (e + 8) in
  let carry := i8 (carry [>>] 4) in
  let e := i8 (e - Z.shiftl carry 4) in
  (e, carry).

(** [for (i = 0; i < 63; ++i) ...; e[63] += carry;], the digits in order. *)
Fixpoint recode (e : list Z) (carry : Z) : list Z :=
  match e with
  | [] => []
  | [e63] => [i8 (e63 + carry)]
  | ei :: e => let '(ei, carry) := recode_step ei carry in ei :: recode e carry
  end.

Definition digits (a : list Z) : list Z := recode (nibbles a) 0.

(** One turn of either table loop, at index [i]. *)
Definition add_digit (e : list Z) (h : ge_p3) (i : nat) : ge_p3 :=
  let t := select (i / 2) (at_ e i) in
  let r := ge_madd h t in
  ge_p1p1_to_p3 r.

Definition ge_scalarmult_base (a : list Z) : ge_p3 :=
  let e := digits a in
  let h := ge_p3_0 in
  let h := fold_left (add_digit e) (map (fun k => 2 * k + 1)%nat (seq 0 32)) h in
  let r := ge_p3_dbl h in
  let s := ge_p1p1_to_p2 r in
  let r := ge_p2_dbl s in
  let s := ge_p1p1_to_p2 r in
  let r := ge_p2_dbl s in
  let s := ge_p1p1_to_p2 r in
  let r := ge_p2_dbl s in
  let h := ge_p1p1_to_p3 r in
  fold_left (add_digit e) (map (fun k => 2 * k)%nat (seq 0 32)) h.

(** ** Reading the table *)

Lemma equal_ok b c : 0 <= b < 128 -> 0 <= c < 128 -> equal b c = if b =? c then 1 else 0.
Proof.
  intros Hb Hc. unfold equal. cbv zeta.
  replace (u8 b) with b by (symmetry; apply Z.mod_small; lia).
  replace (u8 c) with c by (symmetry; apply Z.mod_small; lia).
  assert (Hx : byte (Z.lxor b c)) by (apply byte_lxor; unfold byte; lia). unfold byte in Hx.
  replace (u8 (Z.lxor b c)) with (Z.lxor b c) by (symmetry; apply Z.mod_small; lia).
  replace (u32 (Z.lxor b c)) with (Z.lxor b c) by (symmetry; apply Z.mod_small; lia).
  destruct (Z.eqb_spec b c) as [-> | N]; [rewrite Z.lxor_nilpotent; reflexivity|].
  assert (Z.lxor b c <> 0) by (intros E; apply N, Z.lxor_eq, E).
  replace (u32 (Z.lxor b c - 1)) with (Z.lxor b c - 1) by (symmetry; apply Z.mod_small; lia).
  rewrite Z.shiftr_div_pow2, Z.div_small by lia. reflexivity.
Qed.

Lemma negative_ok b : - 128 <= b < 128 -> negative b = if b <? 0 then 1 else 0.
Proof.
  intros Hb. unfold negative. cbv zeta. rewrite Z.shiftr_div_pow2 by lia.
  destruct (Z.ltb_spec b 0) as [N|N].
  - replace (u64 b) with (b + 2 ^ 64) by (apply (Z.mod_unique_pos _ _ (-1)); lia).
    replace ((b + 2 ^ 64) / 2 ^ 63) with 1; [reflexivity|].
    apply (Z.div_unique_pos _ _ _ (b + 2 ^ 63)); lia.
  - replace (u64 b) with b by (symmetry; apply Z.mod_small; lia).
    rewrite Z.div_small by lia. reflexivity.
Qed.

Lemma babs_ok b : - 8 <= b <= 8 ->
  i8 (u8 (b - Z.shiftl (Z.land (- (if b <? 0 then 1 else 0)) b) 1)) = Z.abs b.
Proof.
  intros Hb.
  assert (H : b = -8 \/ b = -7 \/ b = -6 \/ b = -5 \/ b = -4 \/ b = -3 \/ b = -2 \/ b = -1 \/ b = 0 \/
              b = 1 \/ b = 2 \/ b = 3 \/ b = 4 \/ b = 5 \/ b = 6 \/ b = 7 \/ b = 8) by lia.
  decompose [or] H; subst b; reflexivity.
Qed.

Definition bounded_pre (t : ge_precomp) : Prop :=
  bounded 101 (yplusx t) /\ bounded 101 (yminusx t) /\ bounded 101 (xy2d t).

Lemma rep_bounded t P : rep_precomp t P -> bounded_pre t.
Proof. intros ([? _] & [? _] & [? _]). repeat split; assumption. Qed.

Lemma cmov_ok t u b : bounded_pre t -> bounded_pre u -> cmov t u (if b : bool then 1 else 0) = if b then u else t.
Proof.
  intros (? & ? & ?) (? & ? & ?). unfold cmov.
  rewrite !(fe_cmov_ok 101) by (assumption || lia || (destruct b; auto)). now destruct b, t, u.
Qed.

Lemma precomp_neg t P : rep_precomp t P ->
  rep_precomp (Ge_precomp (fe_copy (yminusx t)) (fe_copy (yplusx t)) (fe_neg (xy2d t))) (popp P).
Proof.
  intros (Hp & Hm & Hx). rewrite !fe_copy_eq. unfold rep_precomp. cbn [yplusx yminusx xy2d px py popp].
  split; [|split].
  - refine (yields_eq _ _ _ _ Hm _). ring.
  - refine (yields_eq _ _ _ _ Hp _). ring.
  - refine (yields_eq _ _ _ _ (yields_neg _ _ _ Hx eq_refl) _). ring.
Qed.

Lemma base_at_ok pos j : (pos < 32)%nat -> (j < 8)%nat ->
  rep_precomp (base_at pos j) (zmul (Z.of_nat j + 1) (zmul (256 ^ Z.of_nat pos) B)).
Proof. intros Hp Hj. apply (base_rows pos Hp). exact Hj. Qed.

(** The chain of conditional moves picks the entry of the digit's magnitude. *)
Lemma select_magnitude pos m : (pos < 32)%nat -> 0 <= m <= 8 ->
  rep_precomp
    (fold_left (fun t j => cmov t (base_at pos j) (if m =? Z.of_nat j + 1 then 1 else 0)) (seq 0 8) ge_precomp_0)
    (zmul m (zmul (256 ^ Z.of_nat pos) B)).
Proof.
  intros Hp Hm. set (P := zmul (256 ^ Z.of_nat pos) B).
  assert (Hb : forall j, (j < 8)%nat -> rep_precomp (base_at pos j) (zmul (Z.of_nat j + 1) P))
    by (intros; now apply base_at_ok).
  assert (G : forall n, (n <= 8)%nat ->
    rep_precomp
      (fold_left (fun t j => cmov t (base_at pos j) (if m =? Z.of_nat j + 1 then 1 else 0)) (seq 0 n) ge_precomp_0)
      (if m <=? Z.of_nat n then zmul m P else pzero)).
  { induction n as [|n IH]; intros Hn.
    - cbn [seq fold_left]. destruct (Z.leb_spec m (Z.of_nat 0)); [|exact ge_precomp_0_ok].
      replace m with 0 by lia. rewrite zmul_0_l. exact ge_precomp_0_ok.
    - rewrite seq_S, fold_left_app. cbn [fold_left]. specialize (IH ltac:(lia)).
      rewrite cmov_ok by (eapply rep_bounded; eauto; apply Hb; lia).
      change (0 + n)%nat with n. destruct (Z.eqb_spec m (Z.of_nat n + 1)) as [E|E].
      + destruct (Z.leb_spec m (Z.of_nat (S n))); [|lia]. rewrite E. apply Hb. lia.
      + destruct (Z.leb_spec m (Z.of_nat n)), (Z.leb_spec m (Z.of_nat (S n))); try lia; exact IH. }
  specialize (G 8%nat (le_n _)). destruct (Z.leb_spec m (Z.of_nat 8)); [exact G|lia].
Qed.

Lemma select_ok pos b : (pos < 32)%nat -> - 8 <= b <= 8 ->
  rep_precomp (select pos b) (zmul (b * 256 ^ Z.of_nat pos) B).
Proof.
  intros Hp Hb. unfold select. cbv zeta. rewrite negative_ok, babs_ok by lia.
  rewrite !equal_ok by lia.
  pose proof (select_magnitude pos (Z.abs b) Hp ltac:(lia)) as M.
  cbn [seq fold_left Z.of_nat Pos.of_succ_nat Pos.succ Z.add Pos.add] in M.
  match type of M with rep_precomp ?t _ => set (t8 := t) in * end.
  pose proof (precomp_neg _ _ M) as N.
  rewrite cmov_ok by (eapply rep_bounded; eassumption).
  rewrite <- zmul_mul. set (Q := zmul (256 ^ Z.of_nat pos) B) in *.
  destruct (Z.ltb_spec b 0).
  - replace (zmul b Q) with (popp (zmul (Z.abs b) Q)); [exact N|].
    change popp with (gopp (G := point)). rewrite <- zmul_opp_l. f_equal. lia.
  - replace b with (Z.abs b) by lia. exact M.
Qed.

(** ** Recoding *)

Definition radix16 (e : list Z) : Z := fold_right (fun x acc => x + 16 * acc) 0 e.

Lemma i8_small x : - 128 <= x < 128 -> i8 x = x.
Proof. intros. apply swrap_small; lia. Qed.

Lemma recode_step_ok e c : 0 <= e <= 15 -> 0 <= c <= 1 ->
  let '(e', c') := recode_step e c in - 8 <= e' <= 7 /\ 0 <= c' <= 1 /\ e' + 16 * c' = e + c.
Proof.
  intros He Hc. unfold recode_step. rewrite (i8_small (e + c)), (i8_small (e + c + 8)) by lia.
  rewrite Z.shiftr_div_pow2 by lia. set (q := (e + c + 8) / 2 ^ 4).
  assert (Hq : 0 <= q <= 1 /\ - 8 <= e + c - 16 * q <= 7) by (unfold q; Z.div_mod_to_equations; lia).
  rewrite (i8_small q), Z.shiftl_mul_pow2, i8_small by lia. lia.
Qed.

Lemma recode_cons x y e c :
  recode (x :: y :: e) c = let '(x', c') := recode_step x c in x' :: recode (y :: e) c'.
Proof. reflexivity. Qed.

Lemma radix16_cons x e : radix16 (x :: e) = x + 16 * radix16 e.
Proof. reflexivity. Qed.

Lemma recode_ok e c : Forall (fun x => 0 <= x <= 15) e -> 0 <= last e 0 <= 7 -> 0 <= c <= 1 -> e <> [] ->
  length (recode e c) = length e /\ Forall (fun x => - 8 <= x <= 8) (recode e c) /\
  radix16 (recode e c) = radix16 e + c.
Proof.
  intros He. revert c. induction He as [|x e Hx He IH]; intros c Hl Hc Hn; [contradiction|].
  destruct e as [|y e].
  - cbn [recode last radix16 fold_right length] in *. rewrite i8_small by lia.
    repeat split; [repeat constructor; lia|lia].
  - rewrite recode_cons. pose proof (recode_step_ok x c Hx Hc) as S.
    destruct (recode_step x c) as [x' c']. destruct S as (Hx' & Hc' & E).
    destruct (IH c' Hl Hc') as (L & B & V); [discriminate|].
    split; [cbn [length] in *; now rewrite L|]. split; [constructor; [lia|exact B]|].
    rewrite !(radix16_cons x'), (radix16_cons x), V. lia.
Qed.

Lemma nibbles_eq a : bytes 32 a -> nibbles a = flat_map (fun b => [b mod 16; b / 16]) a.
Proof.
  intros [L B]. unfold nibbles.
  transitivity (flat_map (fun b => [b mod 16; b / 16]) (map (at_ a) (seq 0 (length a)))); [|now rewrite at_seq].
  rewrite L, !flat_map_concat_map, map_map. f_equal.
  apply map_ext_in. intros i _. pose proof (at_byte a i B) as Hb. unfold byte in Hb.
  rewrite Z.shiftr_0_r, Z.shiftr_div_pow2 by lia. change 15 with (Z.ones 4). rewrite !Z.land_ones by lia.
  change (2 ^ 4) with 16. rewrite !i8_small, (Z.mod_small (at_ a i / 16)) by (Z.div_mod_to_equations; lia).
  reflexivity.
Qed.

Lemma nibbles_ok a : bytes 32 a -> at_ a 31 <= 127 ->
  length (nibbles a) = 64%nat /\ Forall (fun x => 0 <= x <= 15) (nibbles a) /\
  0 <= last (nibbles a) 0 <= 7 /\ radix16 (nibbles a) = le_val a.
Proof.
  intros Ha H31. rewrite (nibbles_eq a Ha). destruct Ha as [L B].
  assert (V : radix16 (flat_map (fun b => [b mod 16; b / 16]) a) = le_val a).
  { clear L H31. induction a as [|b a IH]; [reflexivity|]. apply Forall_cons_iff in B as [Hb B].
    cbn [flat_map app le_val]. rewrite !radix16_cons, IH by exact B.
    pose proof (Z_div_mod_eq_full b 16). lia. }
  assert (F : Forall (fun x => 0 <= x <= 15) (flat_map (fun b => [b mod 16; b / 16]) a)).
  { clear L H31 V. induction B as [|b a Hb B IH]; [constructor|]. unfold byte in Hb.
    cbn [flat_map app]. constructor; [|constructor; [|exact IH]]; Z.div_mod_to_equations; lia. }
  split; [|split; [exact F|split; [|exact V]]].
  - explode a L. reflexivity.
  - explode a L. cbn [at_ nth] in H31. byte_ranges B. cbn [flat_map app last].
    Z.div_mod_to_equations; lia.
Qed.

Lemma digits_ok a : bytes 32 a -> at_ a 31 <= 127 ->
  length (digits a) = 64%nat /\ (forall i, - 8 <= at_ (digits a) i <= 8) /\ radix16 (digits a) = le_val a.
Proof.
  intros Ha H31. destruct (nibbles_ok a Ha H31) as (L & F & Hl & V).
  destruct (recode_ok (nibbles a) 0 F Hl) as (L' & F' & V'); [lia|intros E; rewrite E in L; discriminate|].
  unfold digits. rewrite L', V', V, Z.add_0_r. repeat split; auto;
    unfold at_; destruct (nth_in_or_default i (recode (nibbles a) 0) 0) as [Hin| ->]; try lia;
    rewrite Forall_forall in F'; specialize (F' _ Hin); lia.
Qed.

(** ** The two loops *)

Definition digit_sum (e : list Z) (ixs : list nat) : Z :=
  fold_right (fun i acc => at_ e i * 256 ^ Z.of_nat (i / 2) + acc) 0 ixs.

Lemma add_digits_ok e ixs : (forall i, - 8 <= at_ e i <= 8) -> Forall (fun i => (i < 64)%nat) ixs ->
  forall h P, rep_p3 h P -> rep_p3 (fold_left (add_digit e) ixs h) (padd P (zmul (digit_sum e ixs) B)).
Proof.
  intros He. induction 1 as [|i ixs Hi His IH]; intros h P Hh; cbn [fold_left digit_sum fold_right].
  - rewrite zmul_0_l. change (padd P gzero) with (gadd P gzero). rewrite gadd_0_r. exact Hh.
  - change (fold_right _ 0 ixs) with (digit_sum e ixs). rewrite zmul_add_l.
    change padd with (gadd (G := point)). rewrite <- gadd_assoc. apply IH.
    apply ge_p1p1_to_p3_ok, ge_madd_ok; [exact Hh|]. apply select_ok; [|apply He].
    apply Nat.Div0.div_lt_upper_bound. lia.
Qed.

Definition odds : list nat := map (fun k => 2 * k + 1)%nat (seq 0 32).
Definition evens : list nat := map (fun k => 2 * k)%nat (seq 0 32).

Lemma digit_sums e : length e = 64%nat -> 16 * digit_sum e odds + digit_sum e evens = radix16 e.
Proof.
  intros L. unfold odds, evens. explode e L.
  cbv [digit_sum map seq Nat.mul Nat.add fold_right at_ nth Nat.div Nat.divmod fst radix16].
  repeat match goal with |- context [Z.of_nat ?n] => let z := eval vm_compute in (Z.of_nat n) in change (Z.of_nat n) with z end.
  ring.
Qed.

Definition double4 (h : ge_p3) : ge_p3 :=
  ge_p1p1_to_p3 (ge_p2_dbl (ge_p1p1_to_p2 (ge_p2_dbl (ge_p1p1_to_p2 (ge_p2_dbl
    (ge_p1p1_to_p2 (ge_p3_dbl h))))))).

Lemma double4_ok h P : rep_p3 h P -> rep_p3 (double4 h) (zmul 16 P).
Proof.
  intros H%ge_p3_dbl_ok%ge_p1p1_to_p2_ok%ge_p2_dbl_ok%ge_p1p1_to_p2_ok%ge_p2_dbl_ok%ge_p1p1_to_p2_ok.
  apply ge_p2_dbl_ok, ge_p1p1_to_p3_ok in H. unfold double4.
  replace (zmul 16 P) with (padd (padd (padd (padd P P) (padd P P)) (padd (padd P P) (padd P P)))
    (padd (padd (padd P P) (padd P P)) (padd (padd P P) (padd P P)))); [exact H|].
  change padd with (gadd (G := point)). rewrite <- (zmul_1_l P) at 1 2 3 4 5 6 7 8 9 10 11 12 13 14 15 16.
  rewrite <- !zmul_add_l. reflexivity.
Qed.

Lemma odds_lt : Forall (fun i => (i < 64)%nat) odds.
Proof. apply Forall_forall. intros i H. apply in_map_iff in H as (k & <- & Hk%in_seq). lia. Qed.

Lemma evens_lt : Forall (fun i => (i < 64)%nat) evens.
Proof. apply Forall_forall. intros i H. apply in_map_iff in H as (k & <- & Hk%in_seq). lia. Qed.

Lemma ge_scalarmult_base_ok a : bytes 32 a -> at_ a 31 <= 127 ->
  rep_p3 (ge_scalarmult_base a) (zmul (le_val a) B).
Proof.
  intros Ha H31. destruct (digits_ok a Ha H31) as (L & He & V).
  pose proof (add_digits_ok _ odds He odds_lt _ _ ge_p3_0_ok) as H.
  apply double4_ok in H. apply (add_digits_ok _ evens He evens_lt) in H.
  rewrite <- V, <- (digit_sums _ L), zmul_add_l, <- zmul_mul.
  rewrite add_0_l in H. exact H.
Qed.
