(* ===== verification/Slide.v ===== *)
(** Sliding-window recoding of a scalar: [slide] of [ge_double_scalarmult.c].
    The 256 bits become 256 digits, each zero or odd and at most 15 in absolute
    value, of the same value, provided the scalar is below 2^255: above it the
    carry may run off the end of the array. *)
From Stdlib Require Import ZArith Lia List Bool.
From S2P Require Import Prelude.
From S2P Require Import FeBytes.
From S2P Require Import GeBytes.
From S2P Require Import ScalarMult.
Import ListNotations.

(** ** The code *)

(** [for (i = 0; i < 256; ++i) r[i] = 1 & (a[i >> 3] >> (i & 7));] *)
Definition slide_bits (a : list Z) : list Z :=
  map (fun i => i8 (Z.land 1 (at_ a (i / 8) [>>] Z.of_nat (i mod 8)))) (seq 0 256).

(** [for (k = i + b; k < 256; ++k) { if (!r[k]) { r[k] = 1; break; } r[k] = 0; }],
    with [n] turns left. *)
Fixpoint carry_up (n : nat) (r : list Z) (k : nat) : list Z :=
  match n with
  | O => r
  | S n =>
      if at_ r k =? 0 then upd r k 1
      else carry_up n (upd r k 0) (S k)
  end.

(** [for (b = 1; b <= 6 && i + b < 256; ++b) ...], with [n] turns left. *)
Fixpoint window (n : nat) (r : list Z) (i b : nat) : list Z :=
  match n with
  | O => r
  | S n =>
      if (i + b <? 256)%nat then
        if negb (at_ r (i + b) =? 0) then
          if at_ r i + Z.shiftl (at_ r (i + b)) (Z.of_nat b) <=? 15 then
            let r := upd r i (i8 (at_ r i + Z.shiftl (at_ r (i + b)) (Z.of_nat b))) in
            let r := upd r (i + b) 0 in
            window n r i (S b)
          else if -15 <=? at_ r i - Z.shiftl (at_ r (i + b)) (Z.of_nat b) then
            let r := upd r i (i8 (at_ r i - Z.shiftl (at_ r (i + b)) (Z.of_nat b))) in
            let r := carry_up (256 - (i + b)) r (i + b) in
            window n r i (S b)
          else r
        else window n r i (S b)
      else r
  end.

Definition slide_step (r : list Z) (i : nat) : list Z :=
  if negb (at_ r i =? 0) then window 6 r i 1 else r.

Definition slide (a : list Z) : list Z := fold_left slide_step (seq 0 256) (slide_bits a).

(** ** Values of digit strings *)

Definition radix2 (e : list Z) : Z := fold_right (fun x acc => x + 2 * acc) 0 e.

Lemma radix2_cons x e : radix2 (x :: e) = x + 2 * radix2 e.
Proof. reflexivity. Qed.

Lemma radix2_upd l i v : (i < length l)%nat ->
  radix2 (upd l i v) = radix2 l + (v - at_ l i) * 2 ^ Z.of_nat i.
Proof.
  revert i; induction l as [|x l IH]; intros [|i] H; cbn [length] in H; try lia;
    cbn [upd]; rewrite !radix2_cons.
  - cbn [at_ nth]. change (2 ^ Z.of_nat 0) with 1. lia.
  - rewrite IH, Nat2Z.inj_succ, Z.pow_succ_r by lia. cbn [at_ nth]. change (nth i l 0) with (at_ l i). lia.
Qed.

(** The digits below [i], and those from [i] on. *)
Definition low (i : nat) (r : list Z) : Z := radix2 (firstn i r).

Lemma low_S i r : (i < length r)%nat -> low (S i) r = low i r + at_ r i * 2 ^ Z.of_nat i.
Proof.
  revert i; induction r as [|x r IH]; intros i H; [cbn in H; lia|]. unfold low in *.
  destruct i as [|i].
  - cbn. destruct r; cbn; lia.
  - cbn [length] in H. change (firstn (S (S i)) (x :: r)) with (x :: firstn (S i) r).
    change (firstn (S i) (x :: r)) with (x :: firstn i r). change (at_ (x :: r) (S i)) with (at_ r i).
    rewrite !radix2_cons, IH, Nat2Z.inj_succ, Z.pow_succ_r by lia. lia.
Qed.

Lemma low_all r i : (length r <= i)%nat -> low i r = radix2 r.
Proof. intros H. unfold low. now rewrite firstn_all2. Qed.

Lemma low_zeros r i m : (i <= m <= length r)%nat -> (forall j, (i <= j < m)%nat -> at_ r j = 0) -> low m r = low i r.
Proof.
  intros [H1 H2] H0. revert H2 H0. induction H1 as [|m Hm IH]; intros H2 H0; [reflexivity|].
  rewrite low_S, H0, IH by (try lia; intros; apply H0; lia). lia.
Qed.

(** All ones from [k] to the end. *)
Lemma low_ones r k m : (k <= m <= length r)%nat -> (forall j, (k <= j < m)%nat -> at_ r j = 1) ->
  low m r = low k r + 2 ^ Z.of_nat m - 2 ^ Z.of_nat k.
Proof.
  intros [H1 H2] H0. revert H2 H0. induction H1 as [|m Hm IH]; intros H2 H0; [lia|].
  rewrite low_S, H0, IH, Nat2Z.inj_succ, Z.pow_succ_r by (try lia; intros; apply H0; lia). lia.
Qed.

(** ** The carry *)

Definition bit (x : Z) : Prop := x = 0 \/ x = 1.
Definition bits_from (k : nat) (r : list Z) : Prop := forall j, (k <= j < 256)%nat -> bit (at_ r j).

Lemma carry_up_ok n r k : (n + k = 256)%nat -> length r = 256%nat -> bits_from k r ->
  let r' := carry_up n r k in
  length r' = 256%nat /\ bits_from k r' /\ (forall i, (i <= k)%nat -> firstn i r' = firstn i r) /\
  (radix2 r' = radix2 r + 2 ^ Z.of_nat k \/ forall j, (k <= j < 256)%nat -> at_ r j = 1).
Proof.
  revert r k; induction n as [|n IH]; intros r k Hn L Hb; cbn [carry_up].
  - repeat split; auto. right. lia.
  - destruct (Z.eqb_spec (at_ r k) 0) as [E|E].
    + rewrite length_upd. repeat split; auto.
      * intros j Hj. destruct (Nat.eq_dec k j) as [<- | ]; [rewrite at_upd_eq by lia; now right|].
        rewrite at_upd_ne by lia. apply Hb. lia.
      * intros i Hi. now apply firstn_upd.
      * left. rewrite radix2_upd, E by lia. lia.
    + assert (E1 : at_ r k = 1) by (destruct (Hb k ltac:(lia)); lia).
      destruct (IH (upd r k 0) (S k)) as (L' & B' & F' & V'); [lia|now rewrite length_upd| |].
      { intros j Hj. rewrite at_upd_ne by lia. apply Hb. lia. }
      set (r' := carry_up n (upd r k 0) (S k)) in *.
      split; [exact L'|]. split; [|split].
      * intros j Hj. destruct (Nat.eq_dec k j) as [<- | ]; [|apply B'; lia]. left.
        rewrite (firstn_at _ (upd r k 0) (S k)) by (auto; lia). apply at_upd_eq. lia.
      * intros i Hi.
        replace (firstn i r') with (firstn i (firstn (S k) r')) by (rewrite firstn_firstn, Nat.min_l by lia; reflexivity).
        rewrite F', firstn_firstn, Nat.min_l by lia. apply firstn_upd. lia.
      * destruct V' as [V'|V'].
        -- left. rewrite V', radix2_upd, E1, Nat2Z.inj_succ, Z.pow_succ_r by lia. lia.
        -- right. intros j Hj. destruct (Nat.eq_dec k j) as [<- | ]; [exact E1|].
           rewrite <- (V' j) by lia. symmetry. apply at_upd_ne. lia.
Qed.

Lemma carry_up_clears n r k : (S n + k = 256)%nat -> length r = 256%nat -> bits_from k r -> at_ r k = 1 ->
  at_ (carry_up (S n) r k) k = 0.
Proof.
  intros Hn L Hb E. cbn [carry_up]. rewrite E. cbn [Z.eqb].
  destruct (carry_up_ok n (upd r k 0) (S k)) as (_ & _ & F & _); [lia|now rewrite length_upd| |].
  - intros j Hj. rewrite at_upd_ne by lia. apply Hb. lia.
  - rewrite (firstn_at _ (upd r k 0) (S k)) by (auto; lia). apply at_upd_eq. lia.
Qed.

(** ** The window *)

Definition digit (x : Z) : Prop := x = 0 \/ (Z.odd x = true /\ - 15 <= x <= 15).

(** The state of the window loop at [i], [b]. *)
Definition win (V : Z) (pre : list Z) (i b : nat) (r : list Z) : Prop :=
  length r = 256%nat /\ bits_from (i + b) r /\ (forall j, (i < j < i + b)%nat -> (j < 256)%nat -> at_ r j = 0) /\
  Z.odd (at_ r i) = true /\ - 15 <= at_ r i <= 15 /\ firstn i r = pre /\ radix2 r = V.

Lemma odd_shift x b : (1 <= b)%nat -> Z.odd (x + 2 ^ Z.of_nat b) = Z.odd x /\ Z.odd (x - 2 ^ Z.of_nat b) = Z.odd x.
Proof.
  intros Hb. replace (2 ^ Z.of_nat b) with (2 * 2 ^ (Z.of_nat b - 1)) by (rewrite <- Z.pow_succ_r by lia; f_equal; lia).
  rewrite Z.odd_sub, Z.odd_add, Z.odd_mul. cbn. now rewrite Bool.xorb_false_r.
Qed.

(** The carry cannot run off the end: the digits would exceed 2^255. *)
Lemma no_overflow V pre i b r : (1 <= b)%nat -> (i + b < 256)%nat -> V < 2 ^ 255 -> 31 * Z.abs (radix2 pre) <= 15 * 2 ^ Z.of_nat i ->
  win V pre i b r -> 15 < at_ r i + 2 ^ Z.of_nat b -> - 15 <= at_ r i - 2 ^ Z.of_nat b ->
  (forall j, (i + b <= j < 256)%nat -> at_ r j = 1) -> False.
Proof.
  intros Hb Hi HV Hlo (L & _ & Hz & Ho & Hr & El & EV) H1 H2 Hones.
  assert (El' : low i r = radix2 pre) by (unfold low; now rewrite El).
  rewrite <- (low_all r 256), (low_ones r (i + b)), (low_zeros r (S i)), low_S in EV by (assumption || lia || (intros; apply Hz; lia)).
  assert (Hx : 1 <= at_ r i).
  { destruct (Z.le_gt_cases 8 (2 ^ Z.of_nat b)); [|lia].
    destruct (Z.le_gt_cases 16 (2 ^ Z.of_nat b)); [lia|].
    assert (2 ^ Z.of_nat b <= 8); [|lia].
    destruct (Z.le_gt_cases (Z.of_nat b) 3); [now apply (Z.pow_le_mono_r 2 _ 3)|].
    assert (2 ^ 4 <= 2 ^ Z.of_nat b) by (apply Z.pow_le_mono_r; lia). lia. }
  assert (0 < 2 ^ Z.of_nat i) by (apply Z.pow_pos_nonneg; lia).
  assert (2 ^ Z.of_nat (i + b) <= 2 ^ 255) by (apply Z.pow_le_mono_r; lia).
  change (2 ^ Z.of_nat 256) with (2 ^ 256) in EV. nia.
Qed.

(** What is left of the window: at least four zeros above digit [i]. *)
Definition win_done (V : Z) (pre : list Z) (i : nat) (r : list Z) : Prop :=
  length r = 256%nat /\ bits_from (S i) r /\ (forall j, (i < j < i + 5)%nat -> (j < 256)%nat -> at_ r j = 0) /\
  Z.odd (at_ r i) = true /\ - 15 <= at_ r i <= 15 /\ firstn i r = pre /\ radix2 r = V.

Lemma win_exit V pre i b r : (5 <= b)%nat \/ (256 <= i + b)%nat -> win V pre i b r -> win_done V pre i r.
Proof.
  intros He (L & Hb & Hz & Hr). split; [exact L|]. split; [|split; [|exact Hr]].
  - intros j Hj. destruct (Nat.lt_ge_cases j (i + b)); [left; apply Hz; lia|apply Hb; lia].
  - intros j Hj Hj'. apply Hz; lia.
Qed.

Lemma break_far x b : - 15 <= x <= 15 -> Z.odd x = true ->
  15 < x + 2 ^ Z.of_nat b -> x - 2 ^ Z.of_nat b < - 15 -> (5 <= b)%nat.
Proof.
  intros Hx Ho H1 H2. destruct (Nat.lt_ge_cases b 5); [exfalso|assumption].
  assert (2 ^ Z.of_nat b <= 2 ^ 4) by (apply Z.pow_le_mono_r; lia).
  assert (x = 0) by lia. subst x. discriminate.
Qed.

Lemma window_ok V pre n : 0 <= V < 2 ^ 255 -> forall r i b,
  (1 <= b)%nat -> (n + b = 7)%nat -> (i < 256)%nat -> 31 * Z.abs (radix2 pre) <= 15 * 2 ^ Z.of_nat i ->
  win V pre i b r -> win_done V pre i (window n r i b).
Proof.
  intros HV. induction n as [|n IH]; intros r i b Hb Hn Hi Hlo W; cbn [window];
    [apply (win_exit V pre i b); [left; lia|exact W]|].
  destruct (Nat.ltb_spec (i + b) 256) as [Hib|Hib]; [|apply (win_exit V pre i b); [right; lia|exact W]].
  pose proof W as (L & Hbits & Hz & Ho & Hr & El & EV).
  destruct (Z.eqb_spec (at_ r (i + b)) 0) as [E0|E0]; cbn [negb].
  - apply IH; try lia. split; [exact L|]. split; [intros j Hj; apply Hbits; lia|].
    split; [|repeat split; auto; lia]. intros j Hj Hj'.
    destruct (Nat.eq_dec j (i + b)) as [-> | ]; [exact E0|apply Hz; lia].
  - assert (E1 : at_ r (i + b) = 1) by (destruct (Hbits (i + b)%nat ltac:(lia)); lia).
    rewrite E1, Z.shiftl_1_l. pose proof (odd_shift (at_ r i) b Hb) as [Oa Os].
    assert (0 < 2 ^ Z.of_nat b) by (apply Z.pow_pos_nonneg; lia).
    assert (P : 2 ^ Z.of_nat (i + b) = 2 ^ Z.of_nat b * 2 ^ Z.of_nat i)
      by (rewrite <- Z.pow_add_r by lia; f_equal; lia).
    destruct (Z.leb_spec (at_ r i + 2 ^ Z.of_nat b) 15) as [H15|H15].
    + (* the bit is added to digit i *)
      cbv zeta. rewrite i8_small by lia. apply IH; try lia. set (x := at_ r i + 2 ^ Z.of_nat b) in *.
      assert (Ei : at_ (upd (upd r i x) (i + b) 0) i = x) by (rewrite at_upd_ne, at_upd_eq by lia; reflexivity).
      unfold win. rewrite Ei, !length_upd, !radix2_upd, at_upd_ne, E1 by (rewrite ?length_upd; lia).
      split; [exact L|]. split; [|split; [|repeat split]].
      * intros j Hj. rewrite !at_upd_ne by lia. apply Hbits. lia.
      * intros j Hj Hj'. destruct (Nat.eq_dec j (i + b)) as [-> | ]; [apply at_upd_eq; rewrite length_upd; lia|].
        rewrite !at_upd_ne by lia. apply Hz; lia.
      * congruence.
      * lia.
      * lia.
      * now rewrite !firstn_upd by lia.
      * unfold x. rewrite P. lia.
    + destruct (Z.leb_spec (-15) (at_ r i - 2 ^ Z.of_nat b)) as [Hm|Hm].
      * (* the bit is subtracted from digit i and carried up *)
        cbv zeta. rewrite i8_small by lia. apply IH; try lia. set (x := at_ r i - 2 ^ Z.of_nat b) in *.
        destruct (carry_up_ok (256 - (i + b)) (upd r i x) (i + b)) as (L' & B' & F' & V');
          [lia|now rewrite length_upd|intros j Hj; rewrite at_upd_ne by lia; apply Hbits; lia|].
        set (r' := carry_up _ _ _) in *.
        assert (A : forall j, (j < i + b)%nat -> at_ r' j = at_ (upd r i x) j)
          by (intros j Hj; apply (firstn_at _ _ (i + b)); auto).
        assert (C : at_ r' (i + b) = 0).
        { unfold r'. replace (256 - (i + b))%nat with (S (255 - (i + b))) by lia.
          apply carry_up_clears; [lia|now rewrite length_upd| |rewrite at_upd_ne by lia; exact E1].
          intros j Hj; rewrite at_upd_ne by lia; apply Hbits; lia. }
        assert (Ei : at_ r' i = x) by (rewrite A, at_upd_eq by lia; reflexivity).
        unfold win. rewrite Ei. split; [exact L'|]. split; [|split; [|repeat split]].
        -- intros j Hj. apply B'. lia.
        -- intros j Hj Hj'. destruct (Nat.eq_dec j (i + b)) as [-> | ]; [exact C|].
           rewrite A, at_upd_ne by lia. apply Hz; lia.
        -- congruence.
        -- lia.
        -- lia.
        -- rewrite F' by lia. now rewrite firstn_upd by lia.
        -- destruct V' as [V'|V'].
           ++ rewrite V', radix2_upd, EV, P by lia. unfold x. lia.
           ++ exfalso. apply (no_overflow V pre i b r); auto; try lia.
              intros j Hj. rewrite <- (V' j Hj). symmetry. apply at_upd_ne. lia.
      * (* neither fits *)
        apply (win_exit V pre i b); [left|exact W]. now apply (break_far (at_ r i)).
Qed.

(** ** The whole recoding *)

(** Before turn [i]: the digits below are done, and either digit [i] is zero or
    the digits below it are small compared with it. *)
Definition sliding (V : Z) (i : nat) (r : list Z) : Prop :=
  length r = 256%nat /\ bits_from i r /\ (forall j, (j < i)%nat -> digit (at_ r j)) /\ radix2 r = V /\
  exists m, 31 * Z.abs (low i r) <= 15 * 2 ^ Z.of_nat m /\
            (forall j, (i <= j < m)%nat -> (j < 256)%nat -> at_ r j = 0).

Lemma slide_step_ok V i r : 0 <= V < 2 ^ 255 -> (i < 256)%nat -> sliding V i r -> sliding V (S i) (slide_step r i).
Proof.
  intros HV Hi (L & Hb & Hd & EV & m & Hlo & Hz). unfold slide_step.
  destruct (Z.eqb_spec (at_ r i) 0) as [E0|E0]; cbn [negb].
  - split; [exact L|]. split; [|split; [|split; [exact EV|]]].
    + intros j Hj. apply Hb. lia.
    + intros j Hj. destruct (Nat.eq_dec j i) as [-> | ]; [now left|apply Hd; lia].
    + exists (Nat.max m (S i)). split; [|intros j Hj Hj'; apply Hz; lia].
      rewrite low_S, E0, Z.mul_0_l, Z.add_0_r by lia.
      assert (2 ^ Z.of_nat m <= 2 ^ Z.of_nat (Nat.max m (S i))) by (apply Z.pow_le_mono_r; lia). lia.
  - assert (E1 : at_ r i = 1) by (destruct (Hb i ltac:(lia)); lia).
    assert (Hm : (m <= i)%nat).
    { destruct (Nat.le_gt_cases m i); [assumption|]. rewrite Hz in E1 by lia. discriminate. }
    assert (2 ^ Z.of_nat m <= 2 ^ Z.of_nat i) by (apply Z.pow_le_mono_r; lia).
    change (low i r) with (radix2 (firstn i r)) in Hlo.
    destruct (window_ok V (firstn i r) 6 HV r i 1) as (L' & Hb' & Hz' & Ho & Hr & El & EV'); try lia.
    { split; [exact L|]. split; [intros j Hj; apply Hb; lia|]. split; [lia|].
      rewrite E1. repeat split; auto; lia. }
    set (r' := window 6 r i 1) in *. split; [exact L'|]. split; [exact Hb'|]. split; [|split; [exact EV'|]].
    + intros j Hj. destruct (Nat.eq_dec j i) as [-> | ]; [right; auto|].
      rewrite (firstn_at _ r i) by (auto; lia). apply Hd. lia.
    + exists (i + 5)%nat. split; [|intros j Hj Hj'; apply Hz'; lia].
      assert (El' : low i r' = low i r) by (unfold low; now rewrite El).
      change (radix2 (firstn i r)) with (low i r) in Hlo.
      rewrite low_S, El', Nat2Z.inj_add, Z.pow_add_r by lia. change (2 ^ Z.of_nat 5) with 32.
      assert (0 < 2 ^ Z.of_nat i) by (apply Z.pow_pos_nonneg; lia). nia.
Qed.

Lemma slide_steps_ok V n r : 0 <= V < 2 ^ 255 -> (n <= 256)%nat -> sliding V 0 r ->
  sliding V n (fold_left slide_step (seq 0 n) r).
Proof.
  intros HV Hn H. induction n as [|n IH]; [exact H|].
  rewrite seq_S, fold_left_app. apply slide_step_ok; [exact HV|lia|]. apply IH. lia.
Qed.

(** The bits of the scalar. *)
Definition byte_bits (b : Z) : list Z := map (fun j => (b / 2 ^ Z.of_nat j) mod 2) (seq 0 8).

Lemma seq_bytes : seq 0 256 = flat_map (fun i => map (fun j => (8 * i + j)%nat) (seq 0 8)) (seq 0 32).
Proof. reflexivity. Qed.

Lemma slide_bits_eq a : bytes 32 a -> slide_bits a = flat_map byte_bits a.
Proof.
  intros [L B]. unfold slide_bits. rewrite seq_bytes.
  transitivity (flat_map byte_bits (map (at_ a) (seq 0 (length a)))); [|now rewrite at_seq].
  rewrite L, !flat_map_concat_map, concat_map, !map_map. f_equal. apply map_ext. intros i.
  rewrite map_map. apply map_ext_in. intros j Hj%in_seq.
  rewrite (Nat.mul_comm 8 i), Nat.div_add_l, (Nat.div_small j), Nat.add_0_r by lia.
  rewrite Nat.add_comm, Nat.Div0.mod_add, Nat.mod_small by lia.
  rewrite Z.land_comm. change 1 with (Z.ones 1). rewrite Z.land_ones, Z.shiftr_div_pow2 by lia.
  change (2 ^ 1) with 2. pose proof (Z.mod_pos_bound (at_ a i / 2 ^ Z.of_nat j) 2 eq_refl).
  apply i8_small. lia.
Qed.

Lemma byte_bits_ok b : byte b -> radix2 (byte_bits b) = b.
Proof.
  intros Hb. unfold byte in Hb. rewrite <- (Z2Nat.id b) by lia.
  assert (H : forallb (fun n => radix2 (byte_bits (Z.of_nat n)) =? Z.of_nat n) (seq 0 256) = true)
    by (vm_compute; reflexivity).
  rewrite forallb_forall in H. apply Z.eqb_eq, H, in_seq. lia.
Qed.

Lemma radix2_app e f : radix2 (e ++ f) = radix2 e + 2 ^ Z.of_nat (length e) * radix2 f.
Proof.
  induction e as [|x e IH]; cbn [app length]; [change (2 ^ Z.of_nat 0) with 1; cbn [radix2 fold_right]; lia|].
  rewrite !radix2_cons, IH, Nat2Z.inj_succ, Z.pow_succ_r by lia. lia.
Qed.

Lemma bits_value a : Forall byte a -> radix2 (flat_map byte_bits a) = le_val a.
Proof.
  induction 1 as [|b a Hb Ha IH]; [reflexivity|]. cbn [flat_map le_val].
  rewrite radix2_app, IH, byte_bits_ok by exact Hb. reflexivity.
Qed.

Lemma bits_bit a : Forall bit (flat_map byte_bits a).
Proof.
  apply Forall_forall. intros x (b & _ & H)%in_flat_map. apply in_map_iff in H as (j & <- & _).
  pose proof (Z.mod_pos_bound (b / 2 ^ Z.of_nat j) 2 eq_refl). unfold bit. lia.
Qed.

Lemma at_bit l i : Forall bit l -> bit (at_ l i).
Proof.
  intros H. unfold at_. destruct (nth_in_or_default i l 0) as [Hin | ->]; [|now left].
  rewrite Forall_forall in H. auto.
Qed.

Lemma le_val_lt a : bytes 32 a -> at_ a 31 <= 127 -> 0 <= le_val a < 2 ^ 255.
Proof.
  intros [L B] H. pose proof (le_val_bound _ (Forall_firstn _ 31 _ B)) as Hl.
  assert (L31 : length (firstn 31 a) = 31%nat) by (rewrite length_firstn; lia). rewrite L31 in Hl.
  assert (E : a = firstn 31 a ++ [at_ a 31]) by (explode a L; reflexivity).
  pose proof (at_byte a 31 B) as Ht. unfold byte in Ht.
  rewrite E, le_val_app, L31. cbn [le_val]. change (256 ^ Z.of_nat 31) with (2 ^ 248) in *. lia.
Qed.

Lemma slide_ok a : bytes 32 a -> at_ a 31 <= 127 ->
  length (slide a) = 256%nat /\ (forall j, digit (at_ (slide a) j)) /\ radix2 (slide a) = le_val a.
Proof.
  intros Ha H31. pose proof (le_val_lt a Ha H31) as HV.
  destruct (slide_steps_ok (le_val a) 256 (slide_bits a) HV (le_n _)) as (L & _ & Hd & EV & _).
  - rewrite (slide_bits_eq a Ha). destruct Ha as [L B]. split; [|split; [|split; [|split]]].
    + rewrite (flat_map_constant_length (c := 8%nat)), L; [reflexivity|]. intros; apply length_map.
    + intros j _. apply at_bit, bits_bit.
    + lia.
    + now apply bits_value.
    + exists 0%nat. split; [cbn; lia|lia].
  - unfold slide. set (e := fold_left _ _ _) in *. split; [exact L|]. split; [|exact EV]. intros j.
    destruct (Nat.lt_ge_cases j 256); [now apply Hd|].
    left. unfold at_. apply nth_overflow. lia.
Qed.
