(* ===== verification/VarTime.v ===== *)
(** The variable-time multiplications of [ge_double_scalarmult.c]: a·A and
    a·A + b·B by the digits of [slide], from the most significant non-zero one. *)
From Stdlib Require Import ZArith Lia List Bool Zmod.
From S2P Require Import Prelude.
From S2P Require Import PrimeP.
From S2P Require Import Fp.
From S2P Require Import AbGroup.
From S2P Require Import Edwards.
From S2P Require Import Fe.
From S2P Require Import FeBytes.
From S2P Require Import Ge.
From S2P Require Import GeBytes.
From S2P Require Import BaseTable.
From S2P Require Import ScalarMult.
From S2P Require Import Slide.
Import ListNotations.

(** ** The code *)

Definition cached_0 : ge_cached := Ge_cached fe_0 fe_0 fe_0 fe_0.

(** [ge_add(&t, &A2, &Ai[k]); ge_p1p1_to_p3(&u, &t); ge_p3_to_cached(&Ai[k + 1], &u);] *)
Definition next_odd (A2 : ge_p3) (Aik : ge_cached) : ge_cached :=
  let t := ge_add A2 Aik in
  let u := ge_p1p1_to_p3 t in
  ge_p3_to_cached u.

(** [Ai]: A,3A,5A,7A,9A,11A,13A,15A *)
Definition odd_multiples (A : ge_p3) : list ge_cached :=
  let Ai0 := ge_p3_to_cached A in
  let t := ge_p3_dbl A in
  let A2 := ge_p1p1_to_p3 t in
  let Ai1 := next_odd A2 Ai0 in
  let Ai2 := next_odd A2 Ai1 in
  let Ai3 := next_odd A2 Ai2 in
  let Ai4 := next_odd A2 Ai3 in
  let Ai5 := next_odd A2 Ai4 in
  let Ai6 := next_odd A2 Ai5 in
  let Ai7 := next_odd A2 Ai6 in
  [Ai0; Ai1; Ai2; Ai3; Ai4; Ai5; Ai6; Ai7].

(** [for (i = 255; i >= 0; --i) if (...) break;]: the number [i + 1] of digits left. *)
Fixpoint top_digit (nonzero : nat -> bool) (n : nat) : nat :=
  match n with
  | O => O
  | S i => if nonzero i then S i else top_digit nonzero i
  end.

(** One digit: [if (d > 0) ... else if (d < 0) ...]. *)
Definition digit_add (Ai : list ge_cached) (d : Z) (t : ge_p1p1) : ge_p1p1 :=
  if 0 <? d then
    let u := ge_p1p1_to_p3 t in
    ge_add u (nth (Z.to_nat (Z.quot d 2)) Ai cached_0)
  else if d <? 0 then
    let u := ge_p1p1_to_p3 t in
    ge_sub u (nth (Z.to_nat (Z.quot (- d) 2)) Ai cached_0)
  else t.

Definition digit_madd (d : Z) (t : ge_p1p1) : ge_p1p1 :=
  if 0 <? d then
    let u := ge_p1p1_to_p3 t in
    ge_madd u (nth (Z.to_nat (Z.quot d 2)) Bi dflt)
  else if d <? 0 then
    let u := ge_p1p1_to_p3 t in
    ge_msub u (nth (Z.to_nat (Z.quot (- d) 2)) Bi dflt)
  else t.

(** [for (; i >= 0; --i)], [n] being [i + 1]. *)
Fixpoint vartime_loop (aslide : list Z) (Ai : list ge_cached) (n : nat) (r : ge_p3) : ge_p3 :=
  match n with
  | O => r
  | S i =>
      let t := ge_p3_dbl r in
      let t := digit_add Ai (at_ aslide i) t in
      vartime_loop aslide Ai i (ge_p1p1_to_p3 t)
  end.

Definition ge_scalarmult_vartime (a : list Z) (A : ge_p3) : ge_p3 :=
  let aslide := slide a in
  let Ai := odd_multiples A in
  let r := ge_p3_0 in
  let n := top_digit (fun i => negb (at_ aslide i =? 0)) 256 in
  vartime_loop aslide Ai n r.

Fixpoint double_loop (aslide bslide : list Z) (Ai : list ge_cached) (n : nat) (r : ge_p2) : ge_p2 :=
  match n with
  | O => r
  | S i =>
      let t := ge_p2_dbl r in
      let t := digit_add Ai (at_ aslide i) t in
      let t := digit_madd (at_ bslide i) t in
      double_loop aslide bslide Ai i (ge_p1p1_to_p2 t)
  end.

Definition ge_double_scalarmult_vartime (a : list Z) (A : ge_p3) (b : list Z) : ge_p2 :=
  let aslide := slide a in
  let bslide := slide b in
  let Ai := odd_multiples A in
  let r := ge_p2_0 in
  let n := top_digit (fun i => negb (at_ aslide i =? 0) || negb (at_ bslide i =? 0)) 256 in
  double_loop aslide bslide Ai n r.

(** ** Correctness *)

Section Loops.
#[local] Open Scope group_scope.
Implicit Types P Q : point.

Lemma next_odd_ok A2 c k A : rep_p3 A2 (2 · A) -> rep_cached c (k · A) ->
  rep_cached (next_odd A2 c) ((2 + k) · A).
Proof using Type.
  intros H2 Hc. rewrite zmul_add_l. apply ge_p3_to_cached_ok, ge_p1p1_to_p3_ok, ge_add_ok; assumption.
Qed.

Lemma odd_multiples_ok A P j : rep_p3 A P -> (j < 8)%nat ->
  rep_cached (nth j (odd_multiples A) cached_0) ((2 * Z.of_nat j + 1)%Z · P).
Proof using Type.
  intros HA Hj. unfold odd_multiples.
  pose proof (ge_p3_to_cached_ok _ _ HA) as H0. rewrite <- (zmul_1_l P) in H0.
  assert (H2 : rep_p3 (ge_p1p1_to_p3 (ge_p3_dbl A)) (2 · P)).
  { rewrite zmul_2_l. apply ge_p1p1_to_p3_ok, ge_p3_dbl_ok, HA. }
  set (A2 := ge_p1p1_to_p3 (ge_p3_dbl A)) in *. clearbody A2. cbv zeta.
  pose proof (next_odd_ok _ _ _ _ H2 H0) as H1. set (c1 := next_odd A2 _) in *. clearbody c1.
  pose proof (next_odd_ok _ _ _ _ H2 H1) as H3. set (c2 := next_odd A2 c1) in *. clearbody c2.
  pose proof (next_odd_ok _ _ _ _ H2 H3) as H4. set (c3 := next_odd A2 c2) in *. clearbody c3.
  pose proof (next_odd_ok _ _ _ _ H2 H4) as H5. set (c4 := next_odd A2 c3) in *. clearbody c4.
  pose proof (next_odd_ok _ _ _ _ H2 H5) as H6. set (c5 := next_odd A2 c4) in *. clearbody c5.
  pose proof (next_odd_ok _ _ _ _ H2 H6) as H7. set (c6 := next_odd A2 c5) in *. clearbody c6.
  pose proof (next_odd_ok _ _ _ _ H2 H7) as H8. set (c7 := next_odd A2 c6) in *. clearbody c7.
  destruct j as [|[|[|[|[|[|[|[|j]]]]]]]]; [exact H0|exact H1|exact H3|exact H4|exact H5|exact H6|exact H7|exact H8|lia].
Qed.

(** An odd digit of magnitude at most 15, as an index into the odd multiples. *)
Lemma odd_index x : Z.odd x = true -> (0 < x <= 15)%Z ->
  (Z.to_nat (Z.quot x 2) < 8)%nat /\ (2 * Z.of_nat (Z.to_nat (Z.quot x 2)) + 1 = x)%Z.
Proof using Type.
  intros Ho Hx. rewrite Z.quot_div_nonneg by lia. apply Z.odd_spec in Ho as [k ->].
  replace ((2 * k + 1) / 2)%Z with k by (apply (Z.div_unique_pos _ _ _ 1); lia). lia.
Qed.

Lemma digit_add_ok Ai A : (forall j, (j < 8)%nat -> rep_cached (nth j Ai cached_0) ((2 * Z.of_nat j + 1)%Z · A)) ->
  forall x t P, digit x -> rep_p1p1 t P -> rep_p1p1 (digit_add Ai x t) (P + x · A).
Proof using Type.
  intros HA x t P Hx Ht. unfold digit_add.
  destruct (Z.ltb_spec 0 x) as [Hp|Hp]; [|destruct (Z.ltb_spec x 0) as [Hn|Hn]].
  - destruct Hx as [-> | [Ho Hr]]; [lia|]. destruct (odd_index x Ho) as [Hi E]; [lia|].
    specialize (HA _ Hi). rewrite E in HA. apply ge_add_ok; [now apply ge_p1p1_to_p3_ok|exact HA].
  - destruct Hx as [-> | [Ho Hr]]; [lia|].
    destruct (odd_index (- x)) as [Hi E]; [now rewrite Z.odd_opp|lia|].
    specialize (HA _ Hi). rewrite E, zmul_opp_l in HA.
    rewrite <- (gopp_opp (x · A)). apply ge_sub_ok; [now apply ge_p1p1_to_p3_ok|exact HA].
  - replace x with 0%Z by lia. rewrite zmul_0_l, gadd_0_r. exact Ht.
Qed.

Lemma digit_madd_ok x t P : digit x -> rep_p1p1 t P -> rep_p1p1 (digit_madd x t) (P + x · B).
Proof using Type.
  intros Hx Ht. unfold digit_madd.
  destruct (Z.ltb_spec 0 x) as [Hp|Hp]; [|destruct (Z.ltb_spec x 0) as [Hn|Hn]].
  - destruct Hx as [-> | [Ho Hr]]; [lia|]. destruct (odd_index x Ho) as [Hi E]; [lia|].
    pose proof (Bi_ok _ Hi) as HB. rewrite E in HB. apply ge_madd_ok; [now apply ge_p1p1_to_p3_ok|exact HB].
  - destruct Hx as [-> | [Ho Hr]]; [lia|].
    destruct (odd_index (- x)) as [Hi E]; [now rewrite Z.odd_opp|lia|].
    pose proof (Bi_ok _ Hi) as HB. rewrite E, zmul_opp_l in HB.
    rewrite <- (gopp_opp (x · B)). apply ge_msub_ok; [now apply ge_p1p1_to_p3_ok|exact HB].
  - replace x with 0%Z by lia. rewrite zmul_0_l, gadd_0_r. exact Ht.
Qed.

(** Skipping the leading zeros does not change the value. *)
Lemma top_digit_le f n : (top_digit f n <= n)%nat.
Proof using Type. induction n as [|n IH]; cbn [top_digit]; [lia|]. destruct (f n); lia. Qed.

Lemma top_digit_above f n j : (top_digit f n <= j < n)%nat -> f j = false.
Proof using Type.
  induction n as [|n IH]; cbn [top_digit]; [lia|]. destruct (f n) eqn:E; [lia|].
  intros H. destruct (Nat.eq_dec j n) as [-> | ]; [exact E|apply IH; lia].
Qed.

Lemma low_top e f n : (n <= length e)%nat -> (forall j, f j = false -> at_ e j = 0%Z) ->
  low (top_digit f n) e = low n e.
Proof using Type.
  intros L Hf. symmetry. apply low_zeros; [split; [apply top_digit_le|exact L]|].
  intros j Hj. apply Hf, (top_digit_above f n j Hj).
Qed.

Lemma vartime_loop_ok e Ai A :
  (forall j, (j < 8)%nat -> rep_cached (nth j Ai cached_0) ((2 * Z.of_nat j + 1)%Z · A)) ->
  (forall j, digit (at_ e j)) -> forall n r k, (n <= length e)%nat -> rep_p3 r (k · A) ->
  rep_p3 (vartime_loop e Ai n r) ((k * 2 ^ Z.of_nat n + low n e)%Z · A).
Proof using Type.
  intros HA He. induction n as [|i IH]; intros r k Hn Hr; cbn [vartime_loop].
  - change (2 ^ Z.of_nat 0)%Z with 1%Z. rewrite Z.mul_1_r, Z.add_0_r. exact Hr.
  - replace (k * 2 ^ Z.of_nat (S i) + low (S i) e)%Z
      with ((2 * k + at_ e i) * 2 ^ Z.of_nat i + low i e)%Z
      by (rewrite low_S, Nat2Z.inj_succ, Z.pow_succ_r by lia; ring).
    apply IH; [lia|]. apply ge_p1p1_to_p3_ok. rewrite zmul_add_l.
    apply digit_add_ok; auto. rewrite <- zmul_double. apply ge_p3_dbl_ok, Hr.
Qed.

Lemma double_loop_ok e f Ai A :
  (forall j, (j < 8)%nat -> rep_cached (nth j Ai cached_0) ((2 * Z.of_nat j + 1)%Z · A)) ->
  (forall j, digit (at_ e j)) -> (forall j, digit (at_ f j)) ->
  forall n r k l, (n <= length e)%nat -> (n <= length f)%nat -> rep_p2 r (k · A + l · B) ->
  rep_p2 (double_loop e f Ai n r)
    ((k * 2 ^ Z.of_nat n + low n e)%Z · A + (l * 2 ^ Z.of_nat n + low n f)%Z · B).
Proof using Type.
  intros HA He Hf. induction n as [|i IH]; intros r k l Hn Hm Hr; cbn [double_loop].
  - change (2 ^ Z.of_nat 0)%Z with 1%Z. rewrite !Z.mul_1_r, !Z.add_0_r. exact Hr.
  - replace (k * 2 ^ Z.of_nat (S i) + low (S i) e)%Z
      with ((2 * k + at_ e i) * 2 ^ Z.of_nat i + low i e)%Z
      by (rewrite low_S, Nat2Z.inj_succ, Z.pow_succ_r by lia; ring).
    replace (l * 2 ^ Z.of_nat (S i) + low (S i) f)%Z
      with ((2 * l + at_ f i) * 2 ^ Z.of_nat i + low i f)%Z
      by (rewrite low_S, Nat2Z.inj_succ, Z.pow_succ_r by lia; ring).
    apply IH; [lia|lia|]. apply ge_p1p1_to_p2_ok.
    replace ((2 * k + at_ e i)%Z · A + (2 * l + at_ f i)%Z · B)
      with (((k · A + l · B) + (k · A + l · B)) + at_ e i · A + at_ f i · B).
    + apply digit_madd_ok; auto. apply digit_add_ok; auto. apply ge_p2_dbl_ok, Hr.
    + rewrite !zmul_add_l, <- !zmul_double. apply gadd_shuffle.
Qed.
End Loops.

Lemma ge_scalarmult_vartime_ok a A P : bytes 32 a -> at_ a 31 <= 127 -> rep_p3 A P ->
  rep_p3 (ge_scalarmult_vartime a A) (zmul (le_val a) P).
Proof.
  intros Ha H31 HA. destruct (slide_ok a Ha H31) as (L & He & V). unfold ge_scalarmult_vartime. cbv zeta.
  set (e := slide a) in *. clearbody e. set (f := fun i => negb (at_ e i =? 0)).
  pose proof (vartime_loop_ok e (odd_multiples A) P (fun j => odd_multiples_ok A P j HA) He
                (top_digit f 256) ge_p3_0 0) as H.
  rewrite Z.mul_0_l, Z.add_0_l, low_top, (low_all e 256), V in H; [|lia|lia|].
  - apply H; [rewrite L; apply top_digit_le|]. rewrite zmul_0_l. exact ge_p3_0_ok.
  - unfold f. intros j Hj. destruct (Z.eqb_spec (at_ e j) 0); [assumption|discriminate].
Qed.

Lemma ge_double_scalarmult_vartime_ok a A P b : bytes 32 a -> at_ a 31 <= 127 -> bytes 32 b -> at_ b 31 <= 127 ->
  rep_p3 A P ->
  rep_p2 (ge_double_scalarmult_vartime a A b) (padd (zmul (le_val a) P) (zmul (le_val b) B)).
Proof.
  intros Ha Ha31 Hb Hb31 HA. destruct (slide_ok a Ha Ha31) as (L & He & V).
  destruct (slide_ok b Hb Hb31) as (L' & He' & V'). unfold ge_double_scalarmult_vartime. cbv zeta.
  set (e := slide a) in *. clearbody e. set (e' := slide b) in *. clearbody e'.
  set (f := fun i => negb (at_ e i =? 0) || negb (at_ e' i =? 0)).
  pose proof (double_loop_ok e e' (odd_multiples A) P (fun j => odd_multiples_ok A P j HA) He He'
                (top_digit f 256) ge_p2_0 0 0) as H.
  rewrite Z.mul_0_l, !Z.add_0_l, !low_top, (low_all e 256), (low_all e' 256), V, V' in H; try lia.
  - apply H; [rewrite L; apply top_digit_le|rewrite L'; apply top_digit_le|].
    rewrite !zmul_0_l, gadd_0_l. exact ge_p2_0_ok.
  - unfold f. intros j Hj%orb_false_iff. destruct (Z.eqb_spec (at_ e' j) 0); [assumption|easy].
  - unfold f. intros j Hj%orb_false_iff. destruct (Z.eqb_spec (at_ e j) 0); [assumption|easy].
Qed.
