(* ===== verification/Keccak.v ===== *)
(** The Keccak sponge of the hash: [Keccak-simple.c], at rate 1088 and capacity
    512 ([Keccak-simple-settings.h]).  The unrolled permutation is compared with
    the five step mappings theta, rho, pi, chi and iota of its specification,
    the buffered absorption with the padded message cut into blocks. *)
From Stdlib Require Import ZArith Lia List Bool.
From S2P Require Import Prelude.
Import ListNotations.

(** ** The code *)

(** [tKeccakLane] is a 64-bit unsigned integer. *)
#[local] Notation "x ^^ y" := (Z.lxor x y) (at level 50, left associativity).
#[local] Notation "x &&& y" := (Z.land x y) (at level 40, left associativity).
Definition not64 (x : Z) : Z := u64 (Z.lnot x).

Definition ROL (a offset : Z) : Z :=
  u64 (a [<<] (offset mod 64)) ^^ (a [>>] (64 - offset mod 64)).

Definition KeccakF_RoundConstants : list Z :=
  [ 0x0000000000000001; 0x0000000000008082; 0x800000000000808a; 0x8000000080008000;
    0x000000000000808b; 0x0000000080000001; 0x8000000080008081; 0x8000000000008009;
    0x000000000000008a; 0x0000000000000088; 0x0000000080008009; 0x000000008000000a;
    0x000000008000808b; 0x800000000000008b; 0x8000000000008089; 0x8000000000008003;
    0x8000000000008002; 0x8000000000000080; 0x000000000000800a; 0x800000008000000a;
    0x8000000080008081; 0x8000000000008080; 0x0000000080000001; 0x8000000080008008 ].

(** The local variables [Aba, Abe, ..., Asu]. *)
Inductive lanes :=
  Lanes (ba be bi bo bu ga ge gi go gu ka ke ki ko ku ma me mi mo mu sa se si so su : Z).

(** Lines 187-279: one round, from [A] to [E], [rc] being the round constant. *)
Definition round_A (A : lanes) (rc : Z) : lanes :=
  let '(Lanes Aba Abe Abi Abo Abu
        Aga Age Agi Ago Agu
        Aka Ake Aki Ako Aku
        Ama Ame Ami Amo Amu
        Asa Ase Asi Aso Asu) := A in
  let BCa := Aba ^^ Aga ^^ Aka ^^ Ama ^^ Asa in
  let BCe := Abe ^^ Age ^^ Ake ^^ Ame ^^ Ase in
  let BCi := Abi ^^ Agi ^^ Aki ^^ Ami ^^ Asi in
  let BCo := Abo ^^ Ago ^^ Ako ^^ Amo ^^ Aso in
  let BCu := Abu ^^ Agu ^^ Aku ^^ Amu ^^ Asu in
  let Da := BCu ^^ ROL BCe 1 in
  let De := BCa ^^ ROL BCi 1 in
  let Di := BCe ^^ ROL BCo 1 in
  let Do := BCi ^^ ROL BCu 1 in
  let Du := BCo ^^ ROL BCa 1 in
  let Aba := Aba ^^ Da in
  let BCa := Aba in
  let Age := Age ^^ De in
  let BCe := ROL Age 44 in
  let Aki := Aki ^^ Di in
  let BCi := ROL Aki 43 in
  let Amo := Amo ^^ Do in
  let BCo := ROL Amo 21 in
  let Asu := Asu ^^ Du in
  let BCu := ROL Asu 14 in
  let Eba := BCa ^^ (not64 BCe &&& BCi) in
  let Eba := Eba ^^ rc in
  let Ebe := BCe ^^ (not64 BCi &&& BCo) in
  let Ebi := BCi ^^ (not64 BCo &&& BCu) in
  let Ebo := BCo ^^ (not64 BCu &&& BCa) in
  let Ebu := BCu ^^ (not64 BCa &&& BCe) in
  let Abo := Abo ^^ Do in
  let BCa := ROL Abo 28 in
  let Agu := Agu ^^ Du in
  let BCe := ROL Agu 20 in
  let Aka := Aka ^^ Da in
  let BCi := ROL Aka 3 in
  let Ame := Ame ^^ De in
  let BCo := ROL Ame 45 in
  let Asi := Asi ^^ Di in
  let BCu := ROL Asi 61 in
  let Ega := BCa ^^ (not64 BCe &&& BCi) in
  let Ege := BCe ^^ (not64 BCi &&& BCo) in
  let Egi := BCi ^^ (not64 BCo &&& BCu) in
  let Ego := BCo ^^ (not64 BCu &&& BCa) in
  let Egu := BCu ^^ (not64 BCa &&& BCe) in
  let Abe := Abe ^^ De in
  let BCa := ROL Abe 1 in
  let Agi := Agi ^^ Di in
  let BCe := ROL Agi 6 in
  let Ako := Ako ^^ Do in
  let BCi := ROL Ako 25 in
  let Amu := Amu ^^ Du in
  let BCo := ROL Amu 8 in
  let Asa := Asa ^^ Da in
  let BCu := ROL Asa 18 in
  let Eka := BCa ^^ (not64 BCe &&& BCi) in
  let Eke := BCe ^^ (not64 BCi &&& BCo) in
  let Eki := BCi ^^ (not64 BCo &&& BCu) in
  let Eko := BCo ^^ (not64 BCu &&& BCa) in
  let Eku := BCu ^^ (not64 BCa &&& BCe) in
  let Abu := Abu ^^ Du in
  let BCa := ROL Abu 27 in
  let Aga := Aga ^^ Da in
  let BCe := ROL Aga 36 in
  let Ake := Ake ^^ De in
  let BCi := ROL Ake 10 in
  let Ami := Ami ^^ Di in
  let BCo := ROL Ami 15 in
  let Aso := Aso ^^ Do in
  let BCu := ROL Aso 56 in
  let Ema := BCa ^^ (not64 BCe &&& BCi) in
  let Eme := BCe ^^ (not64 BCi &&& BCo) in
  let Emi := BCi ^^ (not64 BCo &&& BCu) in
  let Emo := BCo ^^ (not64 BCu &&& BCa) in
  let Emu := BCu ^^ (not64 BCa &&& BCe) in
  let Abi := Abi ^^ Di in
  let BCa := ROL Abi 62 in
  let Ago := Ago ^^ Do in
  let BCe := ROL Ago 55 in
  let Aku := Aku ^^ Du in
  let BCi := ROL Aku 39 in
  let Ama := Ama ^^ Da in
  let BCo := ROL Ama 41 in
  let Ase := Ase ^^ De in
  let BCu := ROL Ase 2 in
  let Esa := BCa ^^ (not64 BCe &&& BCi) in
  let Ese := BCe ^^ (not64 BCi &&& BCo) in
  let Esi := BCi ^^ (not64 BCo &&& BCu) in
  let Eso := BCo ^^ (not64 BCu &&& BCa) in
  let Esu := BCu ^^ (not64 BCa &&& BCe) in
  Lanes Eba Ebe Ebi Ebo Ebu
        Ega Ege Egi Ego Egu
        Eka Eke Eki Eko Eku
        Ema Eme Emi Emo Emu
        Esa Ese Esi Eso Esu.

(** Lines 281-374: the next round, from [E] to [A]. *)
Definition round_E (E : lanes) (rc : Z) : lanes :=
  let '(Lanes Eba Ebe Ebi Ebo Ebu
        Ega Ege Egi Ego Egu
        Eka Eke Eki Eko Eku
        Ema Eme Emi Emo Emu
        Esa Ese Esi Eso Esu) := E in
  let BCa := Eba ^^ Ega ^^ Eka ^^ Ema ^^ Esa in
  let BCe := Ebe ^^ Ege ^^ Eke ^^ Eme ^^ Ese in
  let BCi := Ebi ^^ Egi ^^ Eki ^^ Emi ^^ Esi in
  let BCo := Ebo ^^ Ego ^^ Eko ^^ Emo ^^ Eso in
  let BCu := Ebu ^^ Egu ^^ Eku ^^ Emu ^^ Esu in
  let Da := BCu ^^ ROL BCe 1 in
  let De := BCa ^^ ROL BCi 1 in
  let Di := BCe ^^ ROL BCo 1 in
  let Do := BCi ^^ ROL BCu 1 in
  let Du := BCo ^^ ROL BCa 1 in
  let Eba := Eba ^^ Da in
  let BCa := Eba in
  let Ege := Ege ^^ De in
  let BCe := ROL Ege 44 in
  let Eki := Eki ^^ Di in
  let BCi := ROL Eki 43 in
  let Emo := Emo ^^ Do in
  let BCo := ROL Emo 21 in
  let Esu := Esu ^^ Du in
  let BCu := ROL Esu 14 in
  let Aba := BCa ^^ (not64 BCe &&& BCi) in
  let Aba := Aba ^^ rc in
  let Abe := BCe ^^ (not64 BCi &&& BCo) in
  let Abi := BCi ^^ (not64 BCo &&& BCu) in
  let Abo := BCo ^^ (not64 BCu &&& BCa) in
  let Abu := BCu ^^ (not64 BCa &&& BCe) in
  let Ebo := Ebo ^^ Do in
  let BCa := ROL Ebo 28 in
  let Egu := Egu ^^ Du in
  let BCe := ROL Egu 20 in
  let Eka := Eka ^^ Da in
  let BCi := ROL Eka 3 in
  let Eme := Eme ^^ De in
  let BCo := ROL Eme 45 in
  let Esi := Esi ^^ Di in
  let BCu := ROL Esi 61 in
  let Aga := BCa ^^ (not64 BCe &&& BCi) in
  let Age := BCe ^^ (not64 BCi &&& BCo) in
  let Agi := BCi ^^ (not64 BCo &&& BCu) in
  let Ago := BCo ^^ (not64 BCu &&& BCa) in
  let Agu := BCu ^^ (not64 BCa &&& BCe) in
  let Ebe := Ebe ^^ De in
  let BCa := ROL Ebe 1 in
  let Egi := Egi ^^ Di in
  let BCe := ROL Egi 6 in
  let Eko := Eko ^^ Do in
  let BCi := ROL Eko 25 in
  let Emu := Emu ^^ Du in
  let BCo := ROL Emu 8 in
  let Esa := Esa ^^ Da in
  let BCu := ROL Esa 18 in
  let Aka := BCa ^^ (not64 BCe &&& BCi) in
  let Ake := BCe ^^ (not64 BCi &&& BCo) in
  let Aki := BCi ^^ (not64 BCo &&& BCu) in
  let Ako := BCo ^^ (not64 BCu &&& BCa) in
  let Aku := BCu ^^ (not64 BCa &&& BCe) in
  let Ebu := Ebu ^^ Du in
  let BCa := ROL Ebu 27 in
  let Ega := Ega ^^ Da in
  let BCe := ROL Ega 36 in
  let Eke := Eke ^^ De in
  let BCi := ROL Eke 10 in
  let Emi := Emi ^^ Di in
  let BCo := ROL Emi 15 in
  let Eso := Eso ^^ Do in
  let BCu := ROL Eso 56 in
  let Ama := BCa ^^ (not64 BCe &&& BCi) in
  let Ame := BCe ^^ (not64 BCi &&& BCo) in
  let Ami := BCi ^^ (not64 BCo &&& BCu) in
  let Amo := BCo ^^ (not64 BCu &&& BCa) in
  let Amu := BCu ^^ (not64 BCa &&& BCe) in
  let Ebi := Ebi ^^ Di in
  let BCa := ROL Ebi 62 in
  let Ego := Ego ^^ Do in
  let BCe := ROL Ego 55 in
  let Eku := Eku ^^ Du in
  let BCi := ROL Eku 39 in
  let Ema := Ema ^^ Da in
  let BCo := ROL Ema 41 in
  let Ese := Ese ^^ De in
  let BCu := ROL Ese 2 in
  let Asa := BCa ^^ (not64 BCe &&& BCi) in
  let Ase := BCe ^^ (not64 BCi &&& BCo) in
  let Asi := BCi ^^ (not64 BCo &&& BCu) in
  let Aso := BCo ^^ (not64 BCu &&& BCa) in
  let Asu := BCu ^^ (not64 BCa &&& BCe) in
  Lanes Aba Abe Abi Abo Abu
        Aga Age Agi Ago Agu
        Aka Ake Aki Ako Aku
        Ama Ame Ami Amo Amu
        Asa Ase Asi Aso Asu.

(** Lines 185-375: [for (round = 0; round < cKeccakNumberOfRounds; round += 2)], with [n] turns left. *)
Fixpoint rounds (n : nat) (round : nat) (A : lanes) : lanes :=
  match n with
  | O => A
  | S n =>
      let E := round_A A (at_ KeccakF_RoundConstants round) in
      let A := round_E E (at_ KeccakF_RoundConstants (round + 1)) in
      rounds n (round + 2) A
  end.

Definition copyFromState (s : list Z) : lanes :=
  Lanes (at_ s 0) (at_ s 1) (at_ s 2) (at_ s 3) (at_ s 4)
        (at_ s 5) (at_ s 6) (at_ s 7) (at_ s 8) (at_ s 9)
        (at_ s 10) (at_ s 11) (at_ s 12) (at_ s 13) (at_ s 14)
        (at_ s 15) (at_ s 16) (at_ s 17) (at_ s 18) (at_ s 19)
        (at_ s 20) (at_ s 21) (at_ s 22) (at_ s 23) (at_ s 24).

Definition copyToState (A : lanes) : list Z :=
  let '(Lanes Aba Abe Abi Abo Abu Aga Age Agi Ago Agu Aka Ake Aki Ako Aku
        Ama Ame Ami Amo Amu Asa Ase Asi Aso Asu) := A in
  [ Aba; Abe; Abi; Abo; Abu; Aga; Age; Agi; Ago; Agu; Aka; Ake; Aki; Ako; Aku;
    Ama; Ame; Ami; Amo; Amu; Asa; Ase; Asi; Aso; Asu ].

(** [while (--laneCount >= 0) state[laneCount] ^= in[laneCount];] *)
Fixpoint xor_in (laneCount : nat) (state inl : list Z) : list Z :=
  match laneCount with
  | O => state
  | S k => xor_in k (upd state k (at_ state k ^^ at_ inl k)) inl
  end.

Definition KeccakF (state inl : list Z) (laneCount : nat) : list Z :=
  let state := xor_in laneCount state inl in
  copyToState (rounds 12 0 (copyFromState state)).

Definition cKeccakR_SizeInBytes : nat := 136.
Definition crypto_hash_BYTES : nat := 32.

(** The bytes at [in] read as [n] little-endian lanes. *)
Fixpoint as_lanes (n : nat) (l : list Z) : list Z :=
  match n with
  | O => []
  | S n => le_val (firstn 8 l) :: as_lanes n (skipn 8 l)
  end.
(** The state as bytes. *)
Definition as_bytes (s : list Z) : list Z := flat_map (to_le 8) s.

(** The loop over full blocks, with [n] bounding the number of turns. *)
Fixpoint absorb (n : nat) (state inp : list Z) : list Z * list Z :=
  match n with
  | O => (state, inp)
  | S n =>
      if (cKeccakR_SizeInBytes <=? length inp)%nat then
        let state := KeccakF state (as_lanes (cKeccakR_SizeInBytes / 8) inp) (cKeccakR_SizeInBytes / 8) in
        absorb n state (skipn cKeccakR_SizeInBytes inp)
      else (state, inp)
  end.

Definition simplest_ot_crypto_hash (inp : list Z) : list Z :=
  let state := repeat 0 25 in
  let '(state, inp) := absorb (length inp) state inp in
  let inlen := length inp in
  let temp := inp ++ [1] in
  let temp := temp ++ repeat 0 (cKeccakR_SizeInBytes - (inlen + 1)) in
  let temp := upd temp (cKeccakR_SizeInBytes - 1)
                  (Z.lor (at_ temp (cKeccakR_SizeInBytes - 1)) 0x80) in
  let state := KeccakF state (as_lanes (cKeccakR_SizeInBytes / 8) temp) (cKeccakR_SizeInBytes / 8) in
  firstn crypto_hash_BYTES (as_bytes state).

(** ** The specification of Keccak-f[1600] *)

(** A state is a 5 by 5 array of lanes, lane (x, y) at index x + 5 y; the
    coordinates are modulo 5. *)
Definition lane_at (s : list Z) (x y : nat) : Z := at_ s (x mod 5 + 5 * (y mod 5)).
Definition grid (f : nat -> nat -> Z) : list Z := map (fun i => f (i mod 5)%nat (i / 5)%nat) (seq 0 25).

Definition rot (a : Z) (n : Z) : Z := if n =? 0 then a else ROL a n.

Definition parity (s : list Z) (x : nat) : Z :=
  lane_at s x 0 ^^ lane_at s x 1 ^^ lane_at s x 2 ^^ lane_at s x 3 ^^ lane_at s x 4.
Definition theta (s : list Z) : list Z :=
  let c := map (parity s) (seq 0 5) in
  let d := map (fun x => at_ c ((x + 4) mod 5) ^^ rot (at_ c ((x + 1) mod 5)) 1) (seq 0 5) in
  grid (fun x y => lane_at s x y ^^ at_ d x).

(** The rotation offsets: (t+1)(t+2)/2 at the t-th point of the walk
    (x, y) -> (y, 2x + 3y) from (1, 0), and 0 at (0, 0). *)
Definition walk (t : nat) : nat * nat := Nat.iter t (fun '(x, y) => (y, (2 * x + 3 * y) mod 5))%nat (1, 0)%nat.
Definition offset (x y : nat) : Z :=
  match find (fun t => let '(x', y') := walk t in ((x =? x') && (y =? y'))%nat) (seq 0 24) with
  | Some t => Z.of_nat ((t + 1) * (t + 2) / 2) mod 64
  | None => 0
  end.
Definition rho (s : list Z) : list Z := grid (fun x y => rot (lane_at s x y) (offset x y)).

Definition pi (s : list Z) : list Z := grid (fun x y => lane_at s (x + 3 * y) x).

Definition chi (s : list Z) : list Z :=
  grid (fun x y => lane_at s x y ^^ (not64 (lane_at s (x + 1) y) &&& lane_at s (x + 2) y)).

(** The round constants, from the shift register of x^8 + x^6 + x^5 + x^4 + 1. *)
Definition lfsr (r : Z) : Z := let r := Z.shiftl r 1 in if Z.testbit r 8 then r ^^ 0x171 else r.
Definition rc_bit (t : nat) : Z := Z.land (Nat.iter t lfsr 1) 1.
Definition round_constant (ir : nat) : Z :=
  fold_left (fun acc j => acc + rc_bit (j + 7 * ir) * 2 ^ (2 ^ Z.of_nat j - 1)) (seq 0 7) 0.

Definition iota (s : list Z) (rc : Z) : list Z := upd s 0 (at_ s 0 ^^ rc).

Definition keccak_round (s : list Z) (ir : nat) : list Z := iota (chi (pi (rho (theta s)))) (round_constant ir).
Definition keccak_f (s : list Z) : list Z := fold_left keccak_round (seq 0 24) s.

(** *** The sponge: padding 10*1 to a multiple of the rate, absorption, 32 bytes out *)

Definition rate : nat := 136.
Definition pad (m : list Z) : list Z :=
  let q := (rate - length m mod rate)%nat in
  if (q =? 1)%nat then m ++ [0x81] else m ++ [1] ++ repeat 0 (q - 2) ++ [0x80].
Fixpoint blocks (n : nat) (l : list Z) : list (list Z) :=
  match n with
  | O => []
  | S n => firstn rate l :: blocks n (skipn rate l)
  end.
Definition absorb_block (s b : list Z) : list Z :=
  keccak_f (map (fun i => if (i <? 17)%nat then at_ s i ^^ at_ (as_lanes 17 b) i else at_ s i) (seq 0 25)).
Definition sponge (m : list Z) : list Z :=
  let b := blocks (length (pad m) / rate) (pad m) in
  firstn 32 (as_bytes (fold_left absorb_block b (repeat 0 25))).

(** ** The unrolled rounds are the specified ones *)

Lemma round_constants_ok : KeccakF_RoundConstants = map round_constant (seq 0 24).
Proof. vm_compute. reflexivity. Qed.

(** The offsets of the specification are those written in the code, by row. *)
Lemma offsets_ok : map (fun i => offset (i mod 5) (i / 5)) (seq 0 25) =
  [0; 1; 62; 28; 27; 36; 44; 6; 55; 20; 3; 10; 43; 25; 39; 41; 45; 15; 21; 8; 18; 2; 61; 56; 14].
Proof. vm_compute. reflexivity. Qed.

Lemma round_E_A A rc : round_E A rc = round_A A rc.
Proof. destruct A. reflexivity. Qed.

(** One unrolled round is the five step mappings, as expressions of the lanes. *)
Lemma round_ok s ir : length s = 25%nat ->
  copyToState (round_A (copyFromState s) (round_constant ir)) = keccak_round s ir.
Proof.
  intros L. unfold keccak_round. set (rc := round_constant ir). clearbody rc. explode s L.
  cbv beta iota zeta delta [copyFromState at_ nth round_A copyToState].
  cbv beta iota zeta delta [iota chi pi rho theta grid lane_at parity map seq at_ nth upd
    Nat.modulo Nat.divmod Nat.div fst snd Nat.sub Nat.add Nat.mul].
  repeat match goal with
    | |- context [offset ?x ?y] =>
        let z := eval vm_compute in (offset x y) in change (offset x y) with z
    end.
  reflexivity.
Qed.

Lemma keccak_round_length s ir : length (keccak_round s ir) = 25%nat.
Proof. unfold keccak_round, iota. rewrite length_upd. reflexivity. Qed.

Lemma copy_copy A : copyFromState (copyToState A) = A.
Proof. destruct A. reflexivity. Qed.

Lemma at_round_constant r : (r < 24)%nat -> at_ KeccakF_RoundConstants r = round_constant r.
Proof.
  intros H. rewrite round_constants_ok. unfold at_.
  rewrite (nth_indep _ 0 (round_constant 0)), map_nth, seq_nth by (rewrite ?length_map, ?length_seq; lia). reflexivity.
Qed.

Lemma rounds_ok n : forall r s, length s = 25%nat -> (r + 2 * n <= 24)%nat ->
  copyToState (rounds n r (copyFromState s)) = fold_left keccak_round (seq r (2 * n)) s.
Proof.
  induction n as [|n IH]; intros r s L Hr.
  - cbn [rounds Nat.mul seq fold_left]. explode s L. reflexivity.
  - replace (2 * S n)%nat with (S (S (2 * n))) by lia. cbn [rounds seq fold_left].
    rewrite round_E_A, !at_round_constant by lia.
    pose proof (round_ok s r L) as H1. pose proof (round_ok _ (r + 1) (keccak_round_length s r)) as H2.
    rewrite <- H1, copy_copy in H2 at 1.
    set (A1 := round_A _ (round_constant r)) in *. set (A2 := round_A _ (round_constant (r + 1))) in *.
    replace (S r) with (r + 1)%nat by lia. rewrite <- H2.
    pose proof (IH (r + 2)%nat (copyToState A2)) as H3. rewrite copy_copy in H3.
    replace (S (r + 1)) with (r + 2)%nat by lia. apply H3; [|lia].
    rewrite H2. apply keccak_round_length.
Qed.

Lemma length_xor_in n s l : length (xor_in n s l) = length s.
Proof. revert s; induction n as [|n IH]; intros s; cbn [xor_in]; [reflexivity|]. now rewrite IH, length_upd. Qed.

Lemma at_xor_in n s l i : (n <= length s)%nat ->
  at_ (xor_in n s l) i = if (i <? n)%nat then at_ s i ^^ at_ l i else at_ s i.
Proof.
  revert s; induction n as [|n IH]; intros s Hn; cbn [xor_in]; [reflexivity|].
  rewrite IH by (rewrite length_upd; lia).
  destruct (Nat.ltb_spec i n), (Nat.ltb_spec i (S n)); try lia.
  - now rewrite at_upd_ne by lia.
  - replace i with n by lia. now rewrite at_upd_eq by lia.
  - now rewrite at_upd_ne by lia.
Qed.

Lemma KeccakF_ok s b : length s = 25%nat -> KeccakF s (as_lanes 17 b) 17 = absorb_block s b.
Proof.
  intros L. unfold KeccakF, absorb_block. rewrite (rounds_ok 12 0) by (rewrite ?length_xor_in; lia).
  unfold keccak_f. f_equal. rewrite <- (at_seq (xor_in 17 s (as_lanes 17 b))), length_xor_in, L.
  apply map_ext. intros i. apply at_xor_in. lia.
Qed.

Lemma absorb_block_length s b : length (absorb_block s b) = 25%nat.
Proof. unfold absorb_block, keccak_f. change (seq 0 24) with (seq 0 23 ++ [23%nat]). rewrite fold_left_app. apply keccak_round_length. Qed.

(** ** The buffered absorption *)

Lemma as_lanes_firstn n l : as_lanes n l = as_lanes n (firstn (8 * n) l).
Proof.
  revert l; induction n as [|n IH]; intros l; cbn [as_lanes]; [reflexivity|].
  replace (8 * S n)%nat with (8 + 8 * n)%nat by lia.
  rewrite firstn_firstn, Nat.min_l by lia. f_equal. rewrite IH. f_equal.
  rewrite skipn_firstn_comm. f_equal. lia.
Qed.

Lemma pad_length m : length (pad m) = (rate * (length m / rate + 1))%nat.
Proof.
  assert (Hr : (length m mod rate < rate)%nat) by (apply Nat.mod_upper_bound; discriminate).
  pose proof (Nat.div_mod_eq (length m) rate) as E.
  unfold pad. destruct (Nat.eqb_spec (rate - length m mod rate) 1) as [Q|Q];
    rewrite !length_app, ?repeat_length; cbn [length]; lia.
Qed.

Lemma skip_full (m : list Z) : (rate <= length m)%nat ->
  length m = (rate + length (skipn rate m))%nat /\
  (length m mod rate = length (skipn rate m) mod rate)%nat /\
  (length m / rate = length (skipn rate m) / rate + 1)%nat.
Proof.
  intros H. rewrite length_skipn. split; [lia|].
  replace (length m) with (length m - rate + 1 * rate)%nat at 1 3 by lia.
  rewrite Nat.Div0.mod_add, Nat.div_add by discriminate. lia.
Qed.

Lemma pad_skip m : (rate <= length m)%nat -> pad m = firstn rate m ++ pad (skipn rate m).
Proof.
  intros H. destruct (skip_full m H) as (_ & E & _). unfold pad. rewrite E.
  destruct (_ =? 1)%nat; now rewrite (app_assoc (firstn rate m)), firstn_skipn.
Qed.

Definition sponge_from (s m : list Z) : list Z :=
  fold_left absorb_block (blocks (length (pad m) / rate) (pad m)) s.

Lemma pad_blocks m : (length (pad m) / rate = length m / rate + 1)%nat.
Proof. rewrite pad_length, Nat.mul_comm. apply Nat.div_mul. discriminate. Qed.

Lemma sponge_skip s m : (rate <= length m)%nat ->
  sponge_from s m = sponge_from (absorb_block s (firstn rate m)) (skipn rate m).
Proof.
  intros H. unfold sponge_from. rewrite !pad_blocks. destruct (skip_full m H) as (_ & _ & E).
  rewrite (Nat.add_1_r (length m / rate)). cbn [blocks fold_left]. rewrite E.
  assert (L : length (firstn rate m) = rate) by (rewrite length_firstn; lia).
  rewrite pad_skip by exact H. rewrite firstn_app, skipn_app, L, Nat.sub_diag, firstn_O, skipn_O, app_nil_r.
  rewrite firstn_firstn, Nat.min_id, (skipn_all2 (firstn rate m)) by (rewrite L; apply le_n). reflexivity.
Qed.

Lemma absorb_block_lanes s b : length s = 25%nat ->
  KeccakF s (as_lanes (cKeccakR_SizeInBytes / 8) b) (cKeccakR_SizeInBytes / 8) = absorb_block s (firstn rate b).
Proof.
  intros L. change (cKeccakR_SizeInBytes / 8)%nat with 17%nat.
  rewrite as_lanes_firstn. apply KeccakF_ok, L.
Qed.

Lemma absorb_ok n : forall s m, length s = 25%nat -> (length m <= n)%nat ->
  let '(s', m') := absorb n s m in
  length s' = 25%nat /\ (length m' < rate)%nat /\ sponge_from s m = sponge_from s' m'.
Proof.
  induction n as [|n IH]; intros s m L Hn; cbn [absorb].
  - split; [exact L|]. split; [unfold rate; lia|reflexivity].
  - destruct (Nat.leb_spec cKeccakR_SizeInBytes (length m)) as [H|H]; [|repeat split; auto].
    cbv zeta. rewrite absorb_block_lanes by exact L.
    specialize (IH (absorb_block s (firstn rate m)) (skipn rate m) (absorb_block_length _ _)).
    rewrite length_skipn in IH. unfold cKeccakR_SizeInBytes, rate in *. specialize (IH ltac:(lia)).
    destruct (absorb n _ _) as [s' m']. destruct IH as (L' & Hm & E). repeat split; auto.
    rewrite <- E. now apply sponge_skip.
Qed.

Lemma at_app l l' i : at_ (l ++ l') (length l + i) = at_ l' i.
Proof. unfold at_. rewrite app_nth2 by lia. f_equal. lia. Qed.

(** The last block: a one byte, zeros, and the top bit of the last byte. *)
Lemma last_block (m : list Z) : (length m < rate)%nat ->
  let temp := (m ++ [1]) ++ repeat 0 (rate - (length m + 1)) in
  upd temp (rate - 1) (Z.lor (at_ temp (rate - 1)) 0x80) = pad m.
Proof.
  intros H. cbv zeta. unfold pad. rewrite Nat.mod_small by exact H.
  destruct (Nat.eqb_spec (rate - length m) 1) as [Q|Q].
  - replace (rate - (length m + 1))%nat with 0%nat by lia. cbn [repeat]. rewrite app_nil_r.
    replace (rate - 1)%nat with (length m + 0)%nat by lia. rewrite at_app, upd_app. reflexivity.
  - replace (rate - (length m + 1))%nat with (rate - length m - 2 + 1)%nat by lia.
    rewrite repeat_app. set (z := repeat 0 (rate - length m - 2)).
    assert (Lz : length z = (rate - length m - 2)%nat) by apply repeat_length.
    rewrite app_assoc. replace (rate - 1)%nat with (length ((m ++ [1%Z]) ++ z) + 0)%nat
      by (rewrite !length_app, Lz; cbn [length]; lia).
    rewrite at_app, upd_app. cbn [repeat at_ nth upd]. change (Z.lor 0 0x80) with 0x80.
    now rewrite <- !app_assoc.
Qed.

Lemma sponge_last s m : (length m < rate)%nat -> sponge_from s m = absorb_block s (pad m).
Proof.
  intros H. unfold sponge_from. rewrite pad_blocks, Nat.div_small by exact H. cbn [blocks fold_left Nat.add].
  f_equal. apply firstn_all2. rewrite pad_length, Nat.div_small by exact H. lia.
Qed.

Lemma simplest_ot_crypto_hash_ok m : simplest_ot_crypto_hash m = sponge m.
Proof.
  unfold simplest_ot_crypto_hash, sponge. fold (sponge_from (repeat 0 25) m).
  pose proof (absorb_ok (length m) (repeat 0 25) m (repeat_length _ _) (le_n _)) as H.
  destruct (absorb _ _ _) as [s' m']. destruct H as (L & Hm & E). cbv zeta.
  rewrite absorb_block_lanes by exact L. change cKeccakR_SizeInBytes with rate.
  rewrite last_block by exact Hm. rewrite E, sponge_last by exact Hm.
  rewrite (firstn_all2 (pad m')); [reflexivity|]. rewrite pad_length, Nat.div_small by exact Hm. lia.
Qed.

Lemma bytes_as_bytes s : Forall byte (as_bytes s) /\ length (as_bytes s) = (8 * length s)%nat.
Proof.
  induction s as [|x s [IHf IHl]]; [split; constructor|]. cbn [as_bytes flat_map].
  destruct (bytes_to_le 8 x) as [Hl Hf]. split; [apply Forall_app; auto|].
  change (flat_map (to_le 8) s) with (as_bytes s). rewrite length_app, Hl, IHl. cbn [length]. lia.
Qed.

Lemma hash_bytes m : bytes 32 (simplest_ot_crypto_hash m).
Proof.
  rewrite simplest_ot_crypto_hash_ok. unfold sponge.
  set (s := fold_left _ _ _). destruct (bytes_as_bytes s) as [Hf Hl]. split; [|now apply Forall_firstn].
  assert (L : length s = 25%nat).
  { unfold s. set (b := blocks _ _). generalize (repeat_length 0 25). generalize (repeat 0 25).
    induction b as [|x b IH]; intros s0 L0; [exact L0|]. cbn [fold_left]. apply IH, absorb_block_length. }
  rewrite length_firstn, Hl, L. reflexivity.
Qed.

(** Known answer: the hash of the empty message. *)
Lemma hash_empty : simplest_ot_crypto_hash [] =
  [ 0xc5; 0xd2; 0x46; 0x01; 0x86; 0xf7; 0x23; 0x3c; 0x92; 0x7e; 0x7d; 0xb2; 0xdc; 0xc7; 0x03; 0xc0;
    0xe5; 0x00; 0xb6; 0x53; 0xca; 0x82; 0x27; 0x3b; 0x7b; 0xfa; 0xd8; 0x04; 0x5d; 0x85; 0xa4; 0x70 ].
Proof. vm_compute. reflexivity. Qed.
