(* ===== verification/Sc.v ===== *)
(** Arithmetic modulo the order of the base point: [sc_reduce.c] and
    [sc_muladd.c].  A number is 24 limbs of 21 bits; the high limbs are folded
    down by 2^252 = -27742317777372353535851937790883648493 modulo l, with carries in
    between, until the canonical residue is left. *)
From Stdlib Require Import ZArith Lia List.
From S2P Require Import Prelude.
From S2P Require Import FeBytes.
Import ListNotations.

(** ** The code *)

(** The local variables [s0 ... s23], and as many of them as are not zero later on. *)
Inductive sc24 := Sc24 (s0 s1 s2 s3 s4 s5 s6 s7 s8 s9 s10 s11 s12 s13 s14 s15 s16 s17 s18 s19 s20 s21 s22 s23 : Z).
Inductive sc18 := Sc18 (s0 s1 s2 s3 s4 s5 s6 s7 s8 s9 s10 s11 s12 s13 s14 s15 s16 s17 : Z).
Inductive sc13 := Sc13 (s0 s1 s2 s3 s4 s5 s6 s7 s8 s9 s10 s11 s12 : Z).
Inductive sc12 := Sc12 (s0 s1 s2 s3 s4 s5 s6 s7 s8 s9 s10 s11 : Z).

(** Lines 76-122 of [sc_reduce.c]: [s23 ... s18] are folded away. *)
Definition sc_fold_high (s : sc24) : sc18 :=
  let '(Sc24 s0 s1 s2 s3 s4 s5 s6 s7 s8 s9 s10 s11 s12 s13 s14 s15 s16 s17 s18 s19 s20 s21 s22 s23) := s in
  let s11 := s11 [+l] s23 [*l] 666643 in
  let s12 := s12 [+l] s23 [*l] 470296 in
  let s13 := s13 [+l] s23 [*l] 654183 in
  let s14 := s14 [-l] s23 [*l] 997805 in
  let s15 := s15 [+l] s23 [*l] 136657 in
  let s16 := s16 [-l] s23 [*l] 683901 in
  let s23 := 0 in
  let s10 := s10 [+l] s22 [*l] 666643 in
  let s11 := s11 [+l] s22 [*l] 470296 in
  let s12 := s12 [+l] s22 [*l] 654183 in
  let s13 := s13 [-l] s22 [*l] 997805 in
  let s14 := s14 [+l] s22 [*l] 136657 in
  let s15 := s15 [-l] s22 [*l] 683901 in
  let s22 := 0 in
  let s9 := s9 [+l] s21 [*l] 666643 in
  let s10 := s10 [+l] s21 [*l] 470296 in
  let s11 := s11 [+l] s21 [*l] 654183 in
  let s12 := s12 [-l] s21 [*l] 997805 in
  let s13 := s13 [+l] s21 [*l] 136657 in
  let s14 := s14 [-l] s21 [*l] 683901 in
  let s21 := 0 in
  let s8 := s8 [+l] s20 [*l] 666643 in
  let s9 := s9 [+l] s20 [*l] 470296 in
  let s10 := s10 [+l] s20 [*l] 654183 in
  let s11 := s11 [-l] s20 [*l] 997805 in
  let s12 := s12 [+l] s20 [*l] 136657 in
  let s13 := s13 [-l] s20 [*l] 683901 in
  let s20 := 0 in
  let s7 := s7 [+l] s19 [*l] 666643 in
  let s8 := s8 [+l] s19 [*l] 470296 in
  let s9 := s9 [+l] s19 [*l] 654183 in
  let s10 := s10 [-l] s19 [*l] 997805 in
  let s11 := s11 [+l] s19 [*l] 136657 in
  let s12 := s12 [-l] s19 [*l] 683901 in
  let s19 := 0 in
  let s6 := s6 [+l] s18 [*l] 666643 in
  let s7 := s7 [+l] s18 [*l] 470296 in
  let s8 := s8 [+l] s18 [*l] 654183 in
  let s9 := s9 [-l] s18 [*l] 997805 in
  let s10 := s10 [+l] s18 [*l] 136657 in
  let s11 := s11 [-l] s18 [*l] 683901 in
  let s18 := 0 in
  Sc18 s0 s1 s2 s3 s4 s5 s6 s7 s8 s9 s10 s11 s12 s13 s14 s15 s16 s17.

(** Lines 124-157: carries out of [s6 ... s16]. *)
Definition sc_carry_high (s : sc18) : sc18 :=
  let '(Sc18 s0 s1 s2 s3 s4 s5 s6 s7 s8 s9 s10 s11 s12 s13 s14 s15 s16 s17) := s in
  let carry6 := (s6 [+l] (1 [<<] 20)) [>>] 21 in
  let s7 := s7 [+l] carry6 in
  let s6 := s6 [-l] (carry6 [<<l] 21) in
  let carry8 := (s8 [+l] (1 [<<] 20)) [>>] 21 in
  let s9 := s9 [+l] carry8 in
  let s8 := s8 [-l] (carry8 [<<l] 21) in
  let carry10 := (s10 [+l] (1 [<<] 20)) [>>] 21 in
  let s11 := s11 [+l] carry10 in
  let s10 := s10 [-l] (carry10 [<<l] 21) in
  let carry12 := (s12 [+l] (1 [<<] 20)) [>>] 21 in
  let s13 := s13 [+l] carry12 in
  let s12 := s12 [-l] (carry12 [<<l] 21) in
  let carry14 := (s14 [+l] (1 [<<] 20)) [>>] 21 in
  let s15 := s15 [+l] carry14 in
  let s14 := s14 [-l] (carry14 [<<l] 21) in
  let carry16 := (s16 [+l] (1 [<<] 20)) [>>] 21 in
  let s17 := s17 [+l] carry16 in
  let s16 := s16 [-l] (carry16 [<<l] 21) in
  let carry7 := (s7 [+l] (1 [<<] 20)) [>>] 21 in
  let s8 := s8 [+l] carry7 in
  let s7 := s7 [-l] (carry7 [<<l] 21) in
  let carry9 := (s9 [+l] (1 [<<] 20)) [>>] 21 in
  let s10 := s10 [+l] carry9 in
  let s9 := s9 [-l] (carry9 [<<l] 21) in
  let carry11 := (s11 [+l] (1 [<<] 20)) [>>] 21 in
  let s12 := s12 [+l] carry11 in
  let s11 := s11 [-l] (carry11 [<<l] 21) in
  let carry13 := (s13 [+l] (1 [<<] 20)) [>>] 21 in
  let s14 := s14 [+l] carry13 in
  let s13 := s13 [-l] (carry13 [<<l] 21) in
  let carry15 := (s15 [+l] (1 [<<] 20)) [>>] 21 in
  let s16 := s16 [+l] carry15 in
  let s15 := s15 [-l] (carry15 [<<l] 21) in
  Sc18 s0 s1 s2 s3 s4 s5 s6 s7 s8 s9 s10 s11 s12 s13 s14 s15 s16 s17.

(** Lines 159-205: [s17 ... s12] are folded away. *)
Definition sc_fold_mid (s : sc18) : sc12 :=
  let '(Sc18 s0 s1 s2 s3 s4 s5 s6 s7 s8 s9 s10 s11 s12 s13 s14 s15 s16 s17) := s in
  let s5 := s5 [+l] s17 [*l] 666643 in
  let s6 := s6 [+l] s17 [*l] 470296 in
  let s7 := s7 [+l] s17 [*l] 654183 in
  let s8 := s8 [-l] s17 [*l] 997805 in
  let s9 := s9 [+l] s17 [*l] 136657 in
  let s10 := s10 [-l] s17 [*l] 683901 in
  let s17 := 0 in
  let s4 := s4 [+l] s16 [*l] 666643 in
  let s5 := s5 [+l] s16 [*l] 470296 in
  let s6 := s6 [+l] s16 [*l] 654183 in
  let s7 := s7 [-l] s16 [*l] 997805 in
  let s8 := s8 [+l] s16 [*l] 136657 in
  let s9 := s9 [-l] s16 [*l] 683901 in
  let s16 := 0 in
  let s3 := s3 [+l] s15 [*l] 666643 in
  let s4 := s4 [+l] s15 [*l] 470296 in
  let s5 := s5 [+l] s15 [*l] 654183 in
  let s6 := s6 [-l] s15 [*l] 997805 in
  let s7 := s7 [+l] s15 [*l] 136657 in
  let s8 := s8 [-l] s15 [*l] 683901 in
  let s15 := 0 in
  let s2 := s2 [+l] s14 [*l] 666643 in
  let s3 := s3 [+l] s14 [*l] 470296 in
  let s4 := s4 [+l] s14 [*l] 654183 in
  let s5 := s5 [-l] s14 [*l] 997805 in
  let s6 := s6 [+l] s14 [*l] 136657 in
  let s7 := s7 [-l] s14 [*l] 683901 in
  let s14 := 0 in
  let s1 := s1 [+l] s13 [*l] 666643 in
  let s2 := s2 [+l] s13 [*l] 470296 in
  let s3 := s3 [+l] s13 [*l] 654183 in
  let s4 := s4 [-l] s13 [*l] 997805 in
  let s5 := s5 [+l] s13 [*l] 136657 in
  let s6 := s6 [-l] s13 [*l] 683901 in
  let s13 := 0 in
  let s0 := s0 [+l] s12 [*l] 666643 in
  let s1 := s1 [+l] s12 [*l] 470296 in
  let s2 := s2 [+l] s12 [*l] 654183 in
  let s3 := s3 [-l] s12 [*l] 997805 in
  let s4 := s4 [+l] s12 [*l] 136657 in
  let s5 := s5 [-l] s12 [*l] 683901 in
  let s12 := 0 in
  Sc12 s0 s1 s2 s3 s4 s5 s6 s7 s8 s9 s10 s11.

(** Lines 207-243: carries out of [s0 ... s11], into [s12], which is 0. *)
Definition sc_carry_mid (s : sc12) : sc13 :=
  let '(Sc12 s0 s1 s2 s3 s4 s5 s6 s7 s8 s9 s10 s11) := s in
  let s12 := 0 in
  let carry0 := (s0 [+l] (1 [<<] 20)) [>>] 21 in
  let s1 := s1 [+l] carry0 in
  let s0 := s0 [-l] (carry0 [<<l] 21) in
  let carry2 := (s2 [+l] (1 [<<] 20)) [>>] 21 in
  let s3 := s3 [+l] carry2 in
  let s2 := s2 [-l] (carry2 [<<l] 21) in
  let carry4 := (s4 [+l] (1 [<<] 20)) [>>] 21 in
  let s5 := s5 [+l] carry4 in
  let s4 := s4 [-l] (carry4 [<<l] 21) in
  let carry6 := (s6 [+l] (1 [<<] 20)) [>>] 21 in
  let s7 := s7 [+l] carry6 in
  let s6 := s6 [-l] (carry6 [<<l] 21) in
  let carry8 := (s8 [+l] (1 [<<] 20)) [>>] 21 in
  let s9 := s9 [+l] carry8 in
  let s8 := s8 [-l] (carry8 [<<l] 21) in
  let carry10 := (s10 [+l] (1 [<<] 20)) [>>] 21 in
  let s11 := s11 [+l] carry10 in
  let s10 := s10 [-l] (carry10 [<<l] 21) in
  let carry1 := (s1 [+l] (1 [<<] 20)) [>>] 21 in
  let s2 := s2 [+l] carry1 in
  let s1 := s1 [-l] (carry1 [<<l] 21) in
  let carry3 := (s3 [+l] (1 [<<] 20)) [>>] 21 in
  let s4 := s4 [+l] carry3 in
  let s3 := s3 [-l] (carry3 [<<l] 21) in
  let carry5 := (s5 [+l] (1 [<<] 20)) [>>] 21 in
  let s6 := s6 [+l] carry5 in
  let s5 := s5 [-l] (carry5 [<<l] 21) in
  let carry7 := (s7 [+l] (1 [<<] 20)) [>>] 21 in
  let s8 := s8 [+l] carry7 in
  let s7 := s7 [-l] (carry7 [<<l] 21) in
  let carry9 := (s9 [+l] (1 [<<] 20)) [>>] 21 in
  let s10 := s10 [+l] carry9 in
  let s9 := s9 [-l] (carry9 [<<l] 21) in
  let carry11 := (s11 [+l] (1 [<<] 20)) [>>] 21 in
  let s12 := s12 [+l] carry11 in
  let s11 := s11 [-l] (carry11 [<<l] 21) in
  Sc13 s0 s1 s2 s3 s4 s5 s6 s7 s8 s9 s10 s11 s12.

(** Lines 245-288: [s12] is folded, then every limb is carried. *)
Definition sc_fold_carry (s : sc13) : sc13 :=
  let '(Sc13 s0 s1 s2 s3 s4 s5 s6 s7 s8 s9 s10 s11 s12) := s in
  let s0 := s0 [+l] s12 [*l] 666643 in
  let s1 := s1 [+l] s12 [*l] 470296 in
  let s2 := s2 [+l] s12 [*l] 654183 in
  let s3 := s3 [-l] s12 [*l] 997805 in
  let s4 := s4 [+l] s12 [*l] 136657 in
  let s5 := s5 [-l] s12 [*l] 683901 in
  let s12 := 0 in
  let carry0 := s0 [>>] 21 in
  let s1 := s1 [+l] carry0 in
  let s0 := s0 [-l] (carry0 [<<l] 21) in
  let carry1 := s1 [>>] 21 in
  let s2 := s2 [+l] carry1 in
  let s1 := s1 [-l] (carry1 [<<l] 21) in
  let carry2 := s2 [>>] 21 in
  let s3 := s3 [+l] carry2 in
  let s2 := s2 [-l] (carry2 [<<l] 21) in
  let carry3 := s3 [>>] 21 in
  let s4 := s4 [+l] carry3 in
  let s3 := s3 [-l] (carry3 [<<l] 21) in
  let carry4 := s4 [>>] 21 in
  let s5 := s5 [+l] carry4 in
  let s4 := s4 [-l] (carry4 [<<l] 21) in
  let carry5 := s5 [>>] 21 in
  let s6 := s6 [+l] carry5 in
  let s5 := s5 [-l] (carry5 [<<l] 21) in
  let carry6 := s6 [>>] 21 in
  let s7 := s7 [+l] carry6 in
  let s6 := s6 [-l] (carry6 [<<l] 21) in
  let carry7 := s7 [>>] 21 in
  let s8 := s8 [+l] carry7 in
  let s7 := s7 [-l] (carry7 [<<l] 21) in
  let carry8 := s8 [>>] 21 in
  let s9 := s9 [+l] carry8 in
  let s8 := s8 [-l] (carry8 [<<l] 21) in
  let carry9 := s9 [>>] 21 in
  let s10 := s10 [+l] carry9 in
  let s9 := s9 [-l] (carry9 [<<l] 21) in
  let carry10 := s10 [>>] 21 in
  let s11 := s11 [+l] carry10 in
  let s10 := s10 [-l] (carry10 [<<l] 21) in
  let carry11 := s11 [>>] 21 in
  let s12 := s12 [+l] carry11 in
  let s11 := s11 [-l] (carry11 [<<l] 21) in
  Sc13 s0 s1 s2 s3 s4 s5 s6 s7 s8 s9 s10 s11 s12.

(** Lines 290-330: the same once more, without a carry out of [s11]. *)
Definition sc_fold_last (s : sc13) : sc12 :=
  let '(Sc13 s0 s1 s2 s3 s4 s5 s6 s7 s8 s9 s10 s11 s12) := s in
  let s0 := s0 [+l] s12 [*l] 666643 in
  let s1 := s1 [+l] s12 [*l] 470296 in
  let s2 := s2 [+l] s12 [*l] 654183 in
  let s3 := s3 [-l] s12 [*l] 997805 in
  let s4 := s4 [+l] s12 [*l] 136657 in
  let s5 := s5 [-l] s12 [*l] 683901 in
  let s12 := 0 in
  let carry0 := s0 [>>] 21 in
  let s1 := s1 [+l] carry0 in
  let s0 := s0 [-l] (carry0 [<<l] 21) in
  let carry1 := s1 [>>] 21 in
  let s2 := s2 [+l] carry1 in
  let s1 := s1 [-l] (carry1 [<<l] 21) in
  let carry2 := s2 [>>] 21 in
  let s3 := s3 [+l] carry2 in
  let s2 := s2 [-l] (carry2 [<<l] 21) in
  let carry3 := s3 [>>] 21 in
  let s4 := s4 [+l] carry3 in
  let s3 := s3 [-l] (carry3 [<<l] 21) in
  let carry4 := s4 [>>] 21 in
  let s5 := s5 [+l] carry4 in
  let s4 := s4 [-l] (carry4 [<<l] 21) in
  let carry5 := s5 [>>] 21 in
  let s6 := s6 [+l] carry5 in
  let s5 := s5 [-l] (carry5 [<<l] 21) in
  let carry6 := s6 [>>] 21 in
  let s7 := s7 [+l] carry6 in
  let s6 := s6 [-l] (carry6 [<<l] 21) in
  let carry7 := s7 [>>] 21 in
  let s8 := s8 [+l] carry7 in
  let s7 := s7 [-l] (carry7 [<<l] 21) in
  let carry8 := s8 [>>] 21 in
  let s9 := s9 [+l] carry8 in
  let s8 := s8 [-l] (carry8 [<<l] 21) in
  let carry9 := s9 [>>] 21 in
  let s10 := s10 [+l] carry9 in
  let s9 := s9 [-l] (carry9 [<<l] 21) in
  let carry10 := s10 [>>] 21 in
  let s11 := s11 [+l] carry10 in
  let s10 := s10 [-l] (carry10 [<<l] 21) in
  Sc12 s0 s1 s2 s3 s4 s5 s6 s7 s8 s9 s10 s11.

(** Lines 332-363: [s[0] = s0 >> 0; ...]. *)
Definition sc_pack (s : sc12) : list Z :=
  let '(Sc12 s0 s1 s2 s3 s4 s5 s6 s7 s8 s9 s10 s11) := s in
  [
  u8 (s0 [>>] 0);
  u8 (s0 [>>] 8);
  u8 (Z.lor (s0 [>>] 16) (s1 [<<l] 5));
  u8 (s1 [>>] 3);
  u8 (s1 [>>] 11);
  u8 (Z.lor (s1 [>>] 19) (s2 [<<l] 2));
  u8 (s2 [>>] 6);
  u8 (Z.lor (s2 [>>] 14) (s3 [<<l] 7));
  u8 (s3 [>>] 1);
  u8 (s3 [>>] 9);
  u8 (Z.lor (s3 [>>] 17) (s4 [<<l] 4));
  u8 (s4 [>>] 4);
  u8 (s4 [>>] 12);
  u8 (Z.lor (s4 [>>] 20) (s5 [<<l] 1));
  u8 (s5 [>>] 7);
  u8 (Z.lor (s5 [>>] 15) (s6 [<<l] 6));
  u8 (s6 [>>] 2);
  u8 (s6 [>>] 10);
  u8 (Z.lor (s6 [>>] 18) (s7 [<<l] 3));
  u8 (s7 [>>] 5);
  u8 (s7 [>>] 13);
  u8 (s8 [>>] 0);
  u8 (s8 [>>] 8);
  u8 (Z.lor (s8 [>>] 16) (s9 [<<l] 5));
  u8 (s9 [>>] 3);
  u8 (s9 [>>] 11);
  u8 (Z.lor (s9 [>>] 19) (s10 [<<l] 2));
  u8 (s10 [>>] 6);
  u8 (Z.lor (s10 [>>] 14) (s11 [<<l] 7));
  u8 (s11 [>>] 1);
  u8 (s11 [>>] 9);
  u8 (s11 [>>] 17)
 ].

(** The code that [sc_reduce] and [sc_muladd] share. *)
Definition sc_finish (s : sc24) : list Z :=
  sc_pack (sc_fold_last (sc_fold_carry (sc_carry_mid (sc_fold_mid (sc_carry_high (sc_fold_high s)))))).

(** [s] is overwritten in place: its first 32 bytes are the result. *)
Definition sc_reduce (s : list Z) : list Z :=
  let s0 := Z.land 2097151 (load_3 s 0) in
  let s1 := Z.land 2097151 (load_4 s 2 [>>] 5) in
  let s2 := Z.land 2097151 (load_3 s 5 [>>] 2) in
  let s3 := Z.land 2097151 (load_4 s 7 [>>] 7) in
  let s4 := Z.land 2097151 (load_4 s 10 [>>] 4) in
  let s5 := Z.land 2097151 (load_3 s 13 [>>] 1) in
  let s6 := Z.land 2097151 (load_4 s 15 [>>] 6) in
  let s7 := Z.land 2097151 (load_3 s 18 [>>] 3) in
  let s8 := Z.land 2097151 (load_3 s 21) in
  let s9 := Z.land 2097151 (load_4 s 23 [>>] 5) in
  let s10 := Z.land 2097151 (load_3 s 26 [>>] 2) in
  let s11 := Z.land 2097151 (load_4 s 28 [>>] 7) in
  let s12 := Z.land 2097151 (load_4 s 31 [>>] 4) in
  let s13 := Z.land 2097151 (load_3 s 34 [>>] 1) in
  let s14 := Z.land 2097151 (load_4 s 36 [>>] 6) in
  let s15 := Z.land 2097151 (load_3 s 39 [>>] 3) in
  let s16 := Z.land 2097151 (load_3 s 42) in
  let s17 := Z.land 2097151 (load_4 s 44 [>>] 5) in
  let s18 := Z.land 2097151 (load_3 s 47 [>>] 2) in
  let s19 := Z.land 2097151 (load_4 s 49 [>>] 7) in
  let s20 := Z.land 2097151 (load_4 s 52 [>>] 4) in
  let s21 := Z.land 2097151 (load_3 s 55 [>>] 1) in
  let s22 := Z.land 2097151 (load_4 s 57 [>>] 6) in
  let s23 := load_4 s 60 [>>] 3 in
  sc_finish (Sc24 s0 s1 s2 s3 s4 s5 s6 s7 s8 s9 s10 s11 s12 s13 s14 s15 s16 s17 s18 s19 s20 s21 s22 s23) ++ skipn 32 s.

(** Lines 120-152 of [sc_muladd.c]: the products. *)
Definition sc_products (a0 a1 a2 a3 a4 a5 a6 a7 a8 a9 a10 a11 b0 b1 b2 b3 b4 b5 b6 b7 b8 b9 b10 b11 c0 c1 c2 c3 c4 c5 c6 c7 c8 c9 c10 c11 : Z) : sc24 :=
  let s0 := c0 [+l] a0 [*l] b0 in
  let s1 := c1 [+l] a0 [*l] b1 [+l] a1 [*l] b0 in
  let s2 := c2 [+l] a0 [*l] b2 [+l] a1 [*l] b1 [+l] a2 [*l] b0 in
  let s3 := c3 [+l] a0 [*l] b3 [+l] a1 [*l] b2 [+l] a2 [*l] b1 [+l] a3 [*l] b0 in
  let s4 := c4 [+l] a0 [*l] b4 [+l] a1 [*l] b3 [+l] a2 [*l] b2 [+l] a3 [*l] b1
     [+l] a4 [*l] b0 in
  let s5 := c5 [+l] a0 [*l] b5 [+l] a1 [*l] b4 [+l] a2 [*l] b3 [+l] a3 [*l] b2
     [+l] a4 [*l] b1 [+l] a5 [*l] b0 in
  let s6 := c6 [+l] a0 [*l] b6 [+l] a1 [*l] b5 [+l] a2 [*l] b4 [+l] a3 [*l] b3
     [+l] a4 [*l] b2 [+l] a5 [*l] b1 [+l] a6 [*l] b0 in
  let s7 := c7 [+l] a0 [*l] b7 [+l] a1 [*l] b6 [+l] a2 [*l] b5 [+l] a3 [*l] b4
     [+l] a4 [*l] b3 [+l] a5 [*l] b2 [+l] a6 [*l] b1 [+l] a7 [*l] b0 in
  let s8 := c8 [+l] a0 [*l] b8 [+l] a1 [*l] b7 [+l] a2 [*l] b6 [+l] a3 [*l] b5
     [+l] a4 [*l] b4 [+l] a5 [*l] b3 [+l] a6 [*l] b2 [+l] a7 [*l] b1 [+l] a8 [*l] b0 in
  let s9 := c9 [+l] a0 [*l] b9 [+l] a1 [*l] b8 [+l] a2 [*l] b7 [+l] a3 [*l] b6
     [+l] a4 [*l] b5 [+l] a5 [*l] b4 [+l] a6 [*l] b3 [+l] a7 [*l] b2 [+l] a8 [*l] b1
     [+l] a9 [*l] b0 in
  let s10 := c10 [+l] a0 [*l] b10 [+l] a1 [*l] b9 [+l] a2 [*l] b8 [+l] a3 [*l] b7
     [+l] a4 [*l] b6 [+l] a5 [*l] b5 [+l] a6 [*l] b4 [+l] a7 [*l] b3 [+l] a8 [*l] b2
     [+l] a9 [*l] b1 [+l] a10 [*l] b0 in
  let s11 := c11 [+l] a0 [*l] b11 [+l] a1 [*l] b10 [+l] a2 [*l] b9 [+l] a3 [*l] b8
     [+l] a4 [*l] b7 [+l] a5 [*l] b6 [+l] a6 [*l] b5 [+l] a7 [*l] b4 [+l] a8 [*l] b3
     [+l] a9 [*l] b2 [+l] a10 [*l] b1 [+l] a11 [*l] b0 in
  let s12 := a1 [*l] b11 [+l] a2 [*l] b10 [+l] a3 [*l] b9 [+l] a4 [*l] b8
     [+l] a5 [*l] b7 [+l] a6 [*l] b6 [+l] a7 [*l] b5 [+l] a8 [*l] b4 [+l] a9 [*l] b3
     [+l] a10 [*l] b2 [+l] a11 [*l] b1 in
  let s13 := a2 [*l] b11 [+l] a3 [*l] b10 [+l] a4 [*l] b9 [+l] a5 [*l] b8
     [+l] a6 [*l] b7 [+l] a7 [*l] b6 [+l] a8 [*l] b5 [+l] a9 [*l] b4 [+l] a10 [*l] b3
     [+l] a11 [*l] b2 in
  let s14 := a3 [*l] b11 [+l] a4 [*l] b10 [+l] a5 [*l] b9 [+l] a6 [*l] b8
     [+l] a7 [*l] b7 [+l] a8 [*l] b6 [+l] a9 [*l] b5 [+l] a10 [*l] b4 [+l] a11 [*l] b3 in
  let s15 := a4 [*l] b11 [+l] a5 [*l] b10 [+l] a6 [*l] b9 [+l] a7 [*l] b8
     [+l] a8 [*l] b7 [+l] a9 [*l] b6 [+l] a10 [*l] b5 [+l] a11 [*l] b4 in
  let s16 := a5 [*l] b11 [+l] a6 [*l] b10 [+l] a7 [*l] b9 [+l] a8 [*l] b8
     [+l] a9 [*l] b7 [+l] a10 [*l] b6 [+l] a11 [*l] b5 in
  let s17 := a6 [*l] b11 [+l] a7 [*l] b10 [+l] a8 [*l] b9 [+l] a9 [*l] b8
     [+l] a10 [*l] b7 [+l] a11 [*l] b6 in
  let s18 := a7 [*l] b11 [+l] a8 [*l] b10 [+l] a9 [*l] b9 [+l] a10 [*l] b8
     [+l] a11 [*l] b7 in
  let s19 := a8 [*l] b11 [+l] a9 [*l] b10 [+l] a10 [*l] b9 [+l] a11 [*l] b8 in
  let s20 := a9 [*l] b11 [+l] a10 [*l] b10 [+l] a11 [*l] b9 in
  let s21 := a10 [*l] b11 [+l] a11 [*l] b10 in
  let s22 := a11 [*l] b11 in
  let s23 := 0 in
  Sc24 s0 s1 s2 s3 s4 s5 s6 s7 s8 s9 s10 s11 s12 s13 s14 s15 s16 s17 s18 s19 s20 s21 s22 s23.

(** Lines 154-223: carries out of [s0 ... s22]. *)
Definition sc_carry_products (s : sc24) : sc24 :=
  let '(Sc24 s0 s1 s2 s3 s4 s5 s6 s7 s8 s9 s10 s11 s12 s13 s14 s15 s16 s17 s18 s19 s20 s21 s22 s23) := s in
  let carry0 := (s0 [+l] (1 [<<] 20)) [>>] 21 in
  let s1 := s1 [+l] carry0 in
  let s0 := s0 [-l] (carry0 [<<l] 21) in
  let carry2 := (s2 [+l] (1 [<<] 20)) [>>] 21 in
  let s3 := s3 [+l] carry2 in
  let s2 := s2 [-l] (carry2 [<<l] 21) in
  let carry4 := (s4 [+l] (1 [<<] 20)) [>>] 21 in
  let s5 := s5 [+l] carry4 in
  let s4 := s4 [-l] (carry4 [<<l] 21) in
  let carry6 := (s6 [+l] (1 [<<] 20)) [>>] 21 in
  let s7 := s7 [+l] carry6 in
  let s6 := s6 [-l] (carry6 [<<l] 21) in
  let carry8 := (s8 [+l] (1 [<<] 20)) [>>] 21 in
  let s9 := s9 [+l] carry8 in
  let s8 := s8 [-l] (carry8 [<<l] 21) in
  let carry10 := (s10 [+l] (1 [<<] 20)) [>>] 21 in
  let s11 := s11 [+l] carry10 in
  let s10 := s10 [-l] (carry10 [<<l] 21) in
  let carry12 := (s12 [+l] (1 [<<] 20)) [>>] 21 in
  let s13 := s13 [+l] carry12 in
  let s12 := s12 [-l] (carry12 [<<l] 21) in
  let carry14 := (s14 [+l] (1 [<<] 20)) [>>] 21 in
  let s15 := s15 [+l] carry14 in
  let s14 := s14 [-l] (carry14 [<<l] 21) in
  let carry16 := (s16 [+l] (1 [<<] 20)) [>>] 21 in
  let s17 := s17 [+l] carry16 in
  let s16 := s16 [-l] (carry16 [<<l] 21) in
  let carry18 := (s18 [+l] (1 [<<] 20)) [>>] 21 in
  let s19 := s19 [+l] carry18 in
  let s18 := s18 [-l] (carry18 [<<l] 21) in
  let carry20 := (s20 [+l] (1 [<<] 20)) [>>] 21 in
  let s21 := s21 [+l] carry20 in
  let s20 := s20 [-l] (carry20 [<<l] 21) in
  let carry22 := (s22 [+l] (1 [<<] 20)) [>>] 21 in
  let s23 := s23 [+l] carry22 in
  let s22 := s22 [-l] (carry22 [<<l] 21) in
  let carry1 := (s1 [+l] (1 [<<] 20)) [>>] 21 in
  let s2 := s2 [+l] carry1 in
  let s1 := s1 [-l] (carry1 [<<l] 21) in
  let carry3 := (s3 [+l] (1 [<<] 20)) [>>] 21 in
  let s4 := s4 [+l] carry3 in
  let s3 := s3 [-l] (carry3 [<<l] 21) in
  let carry5 := (s5 [+l] (1 [<<] 20)) [>>] 21 in
  let s6 := s6 [+l] carry5 in
  let s5 := s5 [-l] (carry5 [<<l] 21) in
  let carry7 := (s7 [+l] (1 [<<] 20)) [>>] 21 in
  let s8 := s8 [+l] carry7 in
  let s7 := s7 [-l] (carry7 [<<l] 21) in
  let carry9 := (s9 [+l] (1 [<<] 20)) [>>] 21 in
  let s10 := s10 [+l] carry9 in
  let s9 := s9 [-l] (carry9 [<<l] 21) in
  let carry11 := (s11 [+l] (1 [<<] 20)) [>>] 21 in
  let s12 := s12 [+l] carry11 in
  let s11 := s11 [-l] (carry11 [<<l] 21) in
  let carry13 := (s13 [+l] (1 [<<] 20)) [>>] 21 in
  let s14 := s14 [+l] carry13 in
  let s13 := s13 [-l] (carry13 [<<l] 21) in
  let carry15 := (s15 [+l] (1 [<<] 20)) [>>] 21 in
  let s16 := s16 [+l] carry15 in
  let s15 := s15 [-l] (carry15 [<<l] 21) in
  let carry17 := (s17 [+l] (1 [<<] 20)) [>>] 21 in
  let s18 := s18 [+l] carry17 in
  let s17 := s17 [-l] (carry17 [<<l] 21) in
  let carry19 := (s19 [+l] (1 [<<] 20)) [>>] 21 in
  let s20 := s20 [+l] carry19 in
  let s19 := s19 [-l] (carry19 [<<l] 21) in
  let carry21 := (s21 [+l] (1 [<<] 20)) [>>] 21 in
  let s22 := s22 [+l] carry21 in
  let s21 := s21 [-l] (carry21 [<<l] 21) in
  Sc24 s0 s1 s2 s3 s4 s5 s6 s7 s8 s9 s10 s11 s12 s13 s14 s15 s16 s17 s18 s19 s20 s21 s22 s23.

Definition sc_muladd (a b c : list Z) : list Z :=
  let a0 := Z.land 2097151 (load_3 a 0) in
  let a1 := Z.land 2097151 (load_4 a 2 [>>] 5) in
  let a2 := Z.land 2097151 (load_3 a 5 [>>] 2) in
  let a3 := Z.land 2097151 (load_4 a 7 [>>] 7) in
  let a4 := Z.land 2097151 (load_4 a 10 [>>] 4) in
  let a5 := Z.land 2097151 (load_3 a 13 [>>] 1) in
  let a6 := Z.land 2097151 (load_4 a 15 [>>] 6) in
  let a7 := Z.land 2097151 (load_3 a 18 [>>] 3) in
  let a8 := Z.land 2097151 (load_3 a 21) in
  let a9 := Z.land 2097151 (load_4 a 23 [>>] 5) in
  let a10 := Z.land 2097151 (load_3 a 26 [>>] 2) in
  let a11 := load_4 a 28 [>>] 7 in
  let b0 := Z.land 2097151 (load_3 b 0) in
  let b1 := Z.land 2097151 (load_4 b 2 [>>] 5) in
  let b2 := Z.land 2097151 (load_3 b 5 [>>] 2) in
  let b3 := Z.land 2097151 (load_4 b 7 [>>] 7) in
  let b4 := Z.land 2097151 (load_4 b 10 [>>] 4) in
  let b5 := Z.land 2097151 (load_3 b 13 [>>] 1) in
  let b6 := Z.land 2097151 (load_4 b 15 [>>] 6) in
  let b7 := Z.land 2097151 (load_3 b 18 [>>] 3) in
  let b8 := Z.land 2097151 (load_3 b 21) in
  let b9 := Z.land 2097151 (load_4 b 23 [>>] 5) in
  let b10 := Z.land 2097151 (load_3 b 26 [>>] 2) in
  let b11 := load_4 b 28 [>>] 7 in
  let c0 := Z.land 2097151 (load_3 c 0) in
  let c1 := Z.land 2097151 (load_4 c 2 [>>] 5) in
  let c2 := Z.land 2097151 (load_3 c 5 [>>] 2) in
  let c3 := Z.land 2097151 (load_4 c 7 [>>] 7) in
  let c4 := Z.land 2097151 (load_4 c 10 [>>] 4) in
  let c5 := Z.land 2097151 (load_3 c 13 [>>] 1) in
  let c6 := Z.land 2097151 (load_4 c 15 [>>] 6) in
  let c7 := Z.land 2097151 (load_3 c 18 [>>] 3) in
  let c8 := Z.land 2097151 (load_3 c 21) in
  let c9 := Z.land 2097151 (load_4 c 23 [>>] 5) in
  let c10 := Z.land 2097151 (load_3 c 26 [>>] 2) in
  let c11 := load_4 c 28 [>>] 7 in
  sc_finish (sc_carry_products (sc_products a0 a1 a2 a3 a4 a5 a6 a7 a8 a9 a10 a11 b0 b1 b2 b3 b4 b5 b6 b7 b8 b9 b10 b11 c0 c1 c2 c3 c4 c5 c6 c7 c8 c9 c10 c11)).

(** ** Values and ranges *)

(** The order of the base point, [l] in the comments of the code. *)
Definition ell : Z := 2 ^ 252 + 27742317777372353535851937790883648493.

(** The number a list of limbs denotes: s0 + 2^21*s1 + 2^42*s2 + ... *)
Definition radix21 (s : list Z) : Z := fold_right (fun x acc => x + 2097152 * acc) 0 s.

Definition limbs24 (s : sc24) : list Z := let '(Sc24 s0 s1 s2 s3 s4 s5 s6 s7 s8 s9 s10 s11 s12 s13 s14 s15 s16 s17 s18 s19 s20 s21 s22 s23) := s in [s0; s1; s2; s3; s4; s5; s6; s7; s8; s9; s10; s11; s12; s13; s14; s15; s16; s17; s18; s19; s20; s21; s22; s23].
Definition limbs18 (s : sc18) : list Z := let '(Sc18 s0 s1 s2 s3 s4 s5 s6 s7 s8 s9 s10 s11 s12 s13 s14 s15 s16 s17) := s in [s0; s1; s2; s3; s4; s5; s6; s7; s8; s9; s10; s11; s12; s13; s14; s15; s16; s17].
Definition limbs13 (s : sc13) : list Z := let '(Sc13 s0 s1 s2 s3 s4 s5 s6 s7 s8 s9 s10 s11 s12) := s in [s0; s1; s2; s3; s4; s5; s6; s7; s8; s9; s10; s11; s12].
Definition limbs12 (s : sc12) : list Z := let '(Sc12 s0 s1 s2 s3 s4 s5 s6 s7 s8 s9 s10 s11) := s in [s0; s1; s2; s3; s4; s5; s6; s7; s8; s9; s10; s11].

Definition within (b x : Z) : Prop := - b <= x <= b.

(** [stage V bs r]: the limbs [r] denote [V] modulo [ell], limb i within the i-th bound. *)
Definition stage (V : Z) (bs r : list Z) : Prop :=
  Forall2 within bs r /\ exists q, radix21 r = V + q * ell.
Definition stage24 (V : Z) (bs : list Z) (s : sc24) : Prop := stage V bs (limbs24 s).
Definition stage18 (V : Z) (bs : list Z) (s : sc18) : Prop := stage V bs (limbs18 s).
Definition stage13 (V : Z) (bs : list Z) (s : sc13) : Prop := stage V bs (limbs13 s).
Definition stage12 (V : Z) (bs : list Z) (s : sc12) : Prop := stage V bs (limbs12 s).

(** The bounds after each stage. *)
Definition bs_products : list Z := repeat (2 ^ 50) 23 ++ [0].
Definition bs_start : list Z := repeat (2 ^ 30) 24.
Definition bs_fold_high : list Z := repeat (2 ^ 53) 17 ++ [2 ^ 30].
Definition bs_carry_high : list Z := repeat (2 ^ 54) 12 ++ repeat (2 ^ 33) 6.
Definition bs_fold_mid : list Z := repeat (2 ^ 57) 12.
Definition bs_carry_mid : list Z := repeat (2 ^ 37) 11 ++ [2 ^ 20; 2 ^ 37].

Ltac ranges_in H :=
  repeat match type of H with
    | Forall2 _ (_ :: _) _ =>
        let H1 := fresh "R" in apply Forall2_cons_iff in H as [H1 H]; unfold within in H1
    end.

Ltac stage_in H q Hq :=
  destruct H as [H [q Hq]];
  cbv beta iota zeta delta [limbs24 limbs18 limbs13 limbs12 bs_start bs_products bs_fold_high bs_carry_high bs_fold_mid bs_carry_mid repeat app] in H, Hq |- *;
  ranges_in H.

Ltac stage_out q' :=
  unfold stage24, stage18, stage13, stage12, stage;
  cbn [limbs24 limbs18 limbs13 limbs12];
  cbv beta iota delta [bs_start bs_products bs_fold_high bs_carry_high bs_fold_mid bs_carry_mid repeat app];
  split;
  [ ival_forget; repeat (apply Forall2_cons; [unfold within; lia|]); apply Forall2_nil
  | exists q' ].

Lemma sc_fold_high_ok V s : stage24 V bs_start s -> stage18 V bs_fold_high (sc_fold_high s).
Proof.
  destruct s as [s0 s1 s2 s3 s4 s5 s6 s7 s8 s9 s10 s11 s12 s13 s14 s15 s16 s17 s18 s19 s20 s21 s22 s23]. intros H. stage_in H q Hq.
  cbv beta iota delta [sc_fold_high]. ival_steps.
  stage_out (q - 2 ^ 126 * (s18 + 2097152 * (s19 + 2097152 * (s20 + 2097152 * (s21 + 2097152 * (s22 + 2097152 * s23)))))).
  unfold radix21, ell in *. cbn [fold_right] in *. rewrite Z.mul_sub_distr_r, Z.add_sub_assoc, <- Hq. clear Hq. subst. ring.
Qed.

Lemma sc_carry_high_ok V s : stage18 V bs_fold_high s -> stage18 V bs_carry_high (sc_carry_high s).
Proof.
  destruct s as [s0 s1 s2 s3 s4 s5 s6 s7 s8 s9 s10 s11 s12 s13 s14 s15 s16 s17]. intros H. stage_in H q Hq.
  cbv beta iota delta [sc_carry_high]. ival_steps. stage_out q.
  rewrite <- Hq. clear Hq. ival_forget_carries. unfold radix21. cbn [fold_right]. subst. ring.
Qed.

Lemma sc_fold_mid_ok V s : stage18 V bs_carry_high s -> stage12 V bs_fold_mid (sc_fold_mid s).
Proof.
  destruct s as [s0 s1 s2 s3 s4 s5 s6 s7 s8 s9 s10 s11 s12 s13 s14 s15 s16 s17]. intros H. stage_in H q Hq.
  cbv beta iota delta [sc_fold_mid]. ival_steps.
  stage_out (q - (s12 + 2097152 * (s13 + 2097152 * (s14 + 2097152 * (s15 + 2097152 * (s16 + 2097152 * s17)))))).
  unfold radix21, ell in *. cbn [fold_right] in *. rewrite Z.mul_sub_distr_r, Z.add_sub_assoc, <- Hq. clear Hq. subst. ring.
Qed.

Lemma sc_carry_mid_ok V s : stage12 V bs_fold_mid s -> stage13 V bs_carry_mid (sc_carry_mid s).
Proof.
  destruct s as [s0 s1 s2 s3 s4 s5 s6 s7 s8 s9 s10 s11]. intros H. stage_in H q Hq.
  cbv beta iota delta [sc_carry_mid]. ival_steps. stage_out q.
  rewrite <- Hq. clear Hq. ival_forget_carries. unfold radix21. cbn [fold_right]. subst. ring.
Qed.

(** After the last but one stage every limb is reduced and the carry out is 0 or -1. *)
Definition limb (x : Z) : Prop := 0 <= x < 2 ^ 21.
Definition almost (V : Z) (s : sc13) : Prop :=
  let '(Sc13 s0 s1 s2 s3 s4 s5 s6 s7 s8 s9 s10 s11 s12) := s in
  Forall limb [s0; s1; s2; s3; s4; s5; s6; s7; s8; s9; s10; s11] /\ -1 <= s12 <= 0 /\
  exists q, radix21 [s0; s1; s2; s3; s4; s5; s6; s7; s8; s9; s10; s11; s12] = V + q * ell.

Ltac limbs_of H :=
  repeat match type of H with
    | Forall limb (_ :: _) => let H1 := fresh "R" in apply Forall_cons_iff in H as [H1 H]; unfold limb in H1
    end; clear H.

Lemma sc_fold_carry_ok V s : stage13 V bs_carry_mid s -> almost V (sc_fold_carry s).
Proof.
  destruct s as [s0 s1 s2 s3 s4 s5 s6 s7 s8 s9 s10 s11 s12]. intros H. stage_in H q Hq.
  cbv beta iota delta [sc_fold_carry]. ival_steps.
  match goal with |- almost _ (Sc13 ?r0 ?r1 ?r2 ?r3 ?r4 ?r5 ?r6 ?r7 ?r8 ?r9 ?r10 ?r11 ?r12) =>
    assert (Hv : radix21 [r0; r1; r2; r3; r4; r5; r6; r7; r8; r9; r10; r11; r12] =
                 radix21 [s0; s1; s2; s3; s4; s5; s6; s7; s8; s9; s10; s11; s12] - s12 * ell)
      by (clear Hq; ival_forget_carries; unfold radix21, ell; cbn [fold_right]; subst; ring)
  end.
  split; [|split].
  - ival_forget. unfold limb. repeat (apply Forall_cons; [lia|]). apply Forall_nil.
  - ival_forget. clear Hq. unfold radix21, ell in Hv. cbn [fold_right] in Hv. lia.
  - exists (q - s12). rewrite Hv, Hq. ring.
Qed.

(** After the last stage the value is the residue; the top limb may be 2^21. *)
Definition reduced (V : Z) (s : sc12) : Prop :=
  let '(Sc12 s0 s1 s2 s3 s4 s5 s6 s7 s8 s9 s10 s11) := s in
  Forall limb [s0; s1; s2; s3; s4; s5; s6; s7; s8; s9; s10] /\ 0 <= s11 <= 2 ^ 21 /\
  radix21 [s0; s1; s2; s3; s4; s5; s6; s7; s8; s9; s10; s11] = V mod ell.

Lemma sc_fold_last_ok V s : almost V s -> reduced V (sc_fold_last s).
Proof.
  destruct s as [s0 s1 s2 s3 s4 s5 s6 s7 s8 s9 s10 s11 s12]. intros (H & Hc & q & Hq). limbs_of H.
  assert (Hl : 0 <= radix21 [s0; s1; s2; s3; s4; s5; s6; s7; s8; s9; s10; s11; s12] - s12 * ell < ell)
    by (clear Hq; unfold radix21, ell; cbn [fold_right]; lia).
  cbv beta iota delta [sc_fold_last]. ival_steps.
  match goal with |- reduced _ (Sc12 ?r0 ?r1 ?r2 ?r3 ?r4 ?r5 ?r6 ?r7 ?r8 ?r9 ?r10 ?r11) =>
    assert (Hv : radix21 [r0; r1; r2; r3; r4; r5; r6; r7; r8; r9; r10; r11] =
                 radix21 [s0; s1; s2; s3; s4; s5; s6; s7; s8; s9; s10; s11; s12] - s12 * ell)
      by (clear Hq Hl; ival_forget_carries; unfold radix21, ell; cbn [fold_right]; subst; ring)
  end.
  rewrite <- Hv in Hl. split; [|split].
  - ival_forget. unfold limb. repeat (apply Forall_cons; [lia|]). apply Forall_nil.
  - ival_forget. clear Hq Hv. unfold radix21, ell in Hl. cbn [fold_right] in Hl. lia.
  - apply (Z.mod_unique_pos _ _ (s12 - q)); [exact Hl|]. rewrite Hv, Hq. ring.
Qed.

(** ** Writing the limbs *)

Lemma u8_i64 x : u8 (i64 x) = u8 x.
Proof.
  unfold u8, i64, swrap, uwrap. rewrite Zminus_mod, Z.mod_mod_divide by (exists (2 ^ 56); reflexivity).
  rewrite <- Zminus_mod. f_equal. ring.
Qed.

(** Byte made of the top [m] bits of one limb and the low bits of the next. *)
Lemma u8_or_l n m k a b : 0 <= n -> n + m = 21 -> k = 8 - m -> 0 <= m <= 8 -> 0 <= a < 2 ^ 21 ->
  u8 (Z.lor (a [>>] n) (b [<<l] m)) = a / 2 ^ n + 2 ^ m * (b mod 2 ^ k).
Proof.
  intros Hn Hs Hk Hm Ha. rewrite <- (u8_or a n b m k Hn Hm Hk) by (apply (div_lt 21); lia).
  rewrite !u8_lor, u8_i64, u8_i32. reflexivity.
Qed.

Lemma limb_split1 r s x : 0 <= r -> s = r + 8 ->
  x = x mod 2 ^ r + 2 ^ r * ((x / 2 ^ r) mod 2 ^ 8) + 2 ^ s * (x / 2 ^ s).
Proof.
  intros Hr ->. assert (0 < 2 ^ r) by (apply Z.pow_pos_nonneg; lia).
  rewrite (Z.pow_add_r 2 r 8) by lia. rewrite <- !Z.div_div by lia.
  pose proof (Z_div_mod_eq_full x (2 ^ r)). pose proof (Z_div_mod_eq_full (x / 2 ^ r) (2 ^ 8)). nia.
Qed.

Lemma sc_pack_ok V s : reduced V s -> bytes 32 (sc_pack s) /\ le_val (sc_pack s) = V mod ell.
Proof.
  destruct s as [s0 s1 s2 s3 s4 s5 s6 s7 s8 s9 s10 s11]. intros (H & Hc & <-). limbs_of H.
  cbv beta iota delta [sc_pack]. split; [split; [reflexivity|repeat constructor; apply byte_u8]|].
  cbn [le_val]. rewrite !u8_shr by lia.
  rewrite (u8_or_l 16 5 3 s0), (u8_or_l 19 2 6 s1), (u8_or_l 14 7 1 s2), (u8_or_l 17 4 4 s3), (u8_or_l 20 1 7 s4),
    (u8_or_l 15 6 2 s5), (u8_or_l 18 3 5 s6), (u8_or_l 16 5 3 s8), (u8_or_l 19 2 6 s9), (u8_or_l 14 7 1 s10) by lia.
  rewrite (Z.mod_small (s7 / 2 ^ 13)) by (apply (div_lt 21); lia).
  rewrite (Z.mod_small (s11 / 2 ^ 17)) by (apply (div_lt 25); lia).
  pose proof (limb_split1 8 16 s0 ltac:(lia) eq_refl).
  pose proof (limb_split 3 11 19 s1 ltac:(lia) eq_refl eq_refl).
  pose proof (limb_split1 6 14 s2 ltac:(lia) eq_refl).
  pose proof (limb_split 1 9 17 s3 ltac:(lia) eq_refl eq_refl).
  pose proof (limb_split 4 12 20 s4 ltac:(lia) eq_refl eq_refl).
  pose proof (limb_split1 7 15 s5 ltac:(lia) eq_refl).
  pose proof (limb_split 2 10 18 s6 ltac:(lia) eq_refl eq_refl).
  pose proof (limb_split1 5 13 s7 ltac:(lia) eq_refl).
  pose proof (limb_split1 8 16 s8 ltac:(lia) eq_refl).
  pose proof (limb_split 3 11 19 s9 ltac:(lia) eq_refl eq_refl).
  pose proof (limb_split1 6 14 s10 ltac:(lia) eq_refl).
  pose proof (limb_split 1 9 17 s11 ltac:(lia) eq_refl eq_refl).
  unfold radix21. cbn [fold_right]. rewrite !Z.pow_0_r, !Z.div_1_r.
  lia.
Qed.

Lemma sc_finish_ok V s : stage24 V bs_start s -> bytes 32 (sc_finish s) /\ le_val (sc_finish s) = V mod ell.
Proof.
  intros H. apply sc_pack_ok, sc_fold_last_ok, sc_fold_carry_ok, sc_carry_mid_ok, sc_fold_mid_ok, sc_carry_high_ok,
    sc_fold_high_ok, H.
Qed.

(** ** Reading the limbs *)

Lemma at_le_val s k : Forall byte s -> at_ s k = (le_val s / 256 ^ Z.of_nat k) mod 256.
Proof.
  intros H. revert k; induction H as [|b s Hb Hs IH]; intros k.
  - unfold at_. rewrite nth_overflow by apply Nat.le_0_l. cbn [le_val]. now rewrite Z.div_0_l by (apply Z.pow_nonzero; lia).
  - cbn [le_val]. unfold byte in Hb. destruct k as [|k].
    + change (at_ (b :: s) 0) with b. change (256 ^ Z.of_nat 0) with 1.
      rewrite Z.div_1_r, Z.mul_comm, Z.mod_add, Z.mod_small by lia. reflexivity.
    + change (at_ (b :: s) (S k)) with (at_ s k). rewrite Nat2Z.inj_succ, Z.pow_succ_r, <- Z.div_div by lia.
      rewrite Z.mul_comm, Z.div_add, (Z.div_small b), Z.add_0_l by lia. apply IH.
Qed.

Lemma at_next s k i : Forall byte s -> at_ s (k + i) = (le_val s / 256 ^ Z.of_nat k / 256 ^ Z.of_nat i) mod 256.
Proof. intros H. rewrite at_le_val, Nat2Z.inj_add, Z.pow_add_r, Z.div_div by (exact H || lia). reflexivity. Qed.

Lemma load_3_val s k : Forall byte s -> load_3 s k = (le_val s / 256 ^ Z.of_nat k) mod 2 ^ 24.
Proof.
  intros H. rewrite load_3_eq, !at_next, at_le_val by exact H. set (x := le_val s / _).
  change (256 ^ Z.of_nat 1) with 256. change (256 ^ Z.of_nat 2) with (256 * 256). rewrite <- Z.div_div by lia.
  change (2 ^ 24) with (256 * (256 * 256)). rewrite !Z.rem_mul_r by lia. ring.
Qed.

Lemma load_4_val s k : Forall byte s -> load_4 s k = (le_val s / 256 ^ Z.of_nat k) mod 2 ^ 32.
Proof.
  intros H. rewrite load_4_eq, !at_next, at_le_val by exact H. set (x := le_val s / _).
  change (256 ^ Z.of_nat 1) with 256. change (256 ^ Z.of_nat 2) with (256 * 256).
  change (256 ^ Z.of_nat 3) with (256 * (256 * 256)). rewrite <- !Z.div_div by lia.
  change (2 ^ 32) with (256 * (256 * (256 * 256))). rewrite !Z.rem_mul_r by lia. ring.
Qed.

(** Bits [j] to [j + 21] of a loaded word. *)
Lemma limb_bits x w j : 0 <= j -> j + 21 <= w -> Z.land 2097151 (x mod 2 ^ w [>>] j) = (x / 2 ^ j) mod 2 ^ 21.
Proof.
  intros Hj Hw. rewrite Z.land_comm. change 2097151 with (Z.ones 21). rewrite Z.land_ones by lia.
  rewrite Z.shiftr_div_pow2 by lia. replace w with (j + (w - j)) by ring. rewrite Z.pow_add_r by lia.
  assert (0 < 2 ^ j) by (apply Z.pow_pos_nonneg; lia). assert (0 < 2 ^ (w - j)) by (apply Z.pow_pos_nonneg; lia).
  rewrite Z.rem_mul_r, Z.mul_comm, Z.div_add, Z.div_small, Z.add_0_l by (try apply Z.mod_pos_bound; lia).
  apply Z.mod_mod_divide. exists (2 ^ (w - j - 21)). rewrite <- Z.pow_add_r by lia. f_equal. ring.
Qed.

Lemma limb_3 s k j e : Forall byte s -> 0 <= j <= 3 -> e = 8 * Z.of_nat k + j ->
  Z.land 2097151 (load_3 s k [>>] j) = (le_val s / 2 ^ e) mod 2 ^ 21.
Proof.
  intros H Hj ->. rewrite load_3_val, limb_bits by (exact H || lia).
  rewrite Z.pow_add_r, (Z.pow_mul_r 2 8) by lia. now rewrite <- Z.div_div by (apply Z.pow_nonzero || apply Z.pow_pos_nonneg; lia).
Qed.

Lemma limb_4 s k j e : Forall byte s -> 0 <= j <= 11 -> e = 8 * Z.of_nat k + j ->
  Z.land 2097151 (load_4 s k [>>] j) = (le_val s / 2 ^ e) mod 2 ^ 21.
Proof.
  intros H Hj ->. rewrite load_4_val, limb_bits by (exact H || lia).
  rewrite Z.pow_add_r, (Z.pow_mul_r 2 8) by lia. now rewrite <- Z.div_div by (apply Z.pow_nonzero || apply Z.pow_pos_nonneg; lia).
Qed.

(** The top limb is not masked. *)
Lemma limb_top s k j e : bytes (k + 4) s -> 0 <= j <= 32 -> e = 8 * Z.of_nat k + j ->
  load_4 s k [>>] j = le_val s / 2 ^ e /\ 0 <= le_val s / 2 ^ e < 2 ^ (32 - j).
Proof.
  intros [L H] Hj ->.
  pose proof (le_val_bound s H) as Hb. rewrite L, Nat2Z.inj_add, Z.pow_add_r in Hb by lia.
  assert (0 < 256 ^ Z.of_nat k) by (apply Z.pow_pos_nonneg; lia).
  assert (Hx : 0 <= le_val s / 256 ^ Z.of_nat k < 2 ^ 32)
    by (split; [apply Z.div_pos; lia|apply Z.div_lt_upper_bound; [lia|exact (proj2 Hb)]]).
  rewrite load_4_val, Z.shiftr_div_pow2, Z.mod_small by (exact H || lia).
  rewrite (Z.pow_add_r 2 (8 * Z.of_nat k) j), (Z.pow_mul_r 2 8) by lia. rewrite <- Z.div_div by (apply Z.pow_nonzero || apply Z.pow_pos_nonneg; lia).
  change (2 ^ 8) with 256. split; [reflexivity|]. apply (div_lt 32); lia.
Qed.

Lemma next_limb V i j : 0 <= i -> j = i + 21 -> V / 2 ^ i = (V / 2 ^ i) mod 2 ^ 21 + 2097152 * (V / 2 ^ j).
Proof.
  intros Hi ->. rewrite Z.pow_add_r, <- Z.div_div by (try apply Z.pow_nonzero; lia).
  pose proof (Z_div_mod_eq_full (V / 2 ^ i) (2 ^ 21)). change 2097152 with (2 ^ 21). lia.
Qed.

(** [n] limbs of 21 bits from bit [i] on, and the rest. *)
Fixpoint cut (V : Z) (n : nat) (i : Z) : list Z :=
  match n with
  | O => [V / 2 ^ i]
  | S n => (V / 2 ^ i) mod 2 ^ 21 :: cut V n (i + 21)
  end.

Lemma radix21_cut V n : forall i, 0 <= i -> radix21 (cut V n i) = V / 2 ^ i.
Proof.
  induction n as [|n IH]; intros i Hi; cbn [cut radix21 fold_right]; [ring|].
  unfold radix21 in IH |- *. cbn [fold_right]. rewrite IH by lia. symmetry. now apply next_limb.
Qed.

Lemma cut_within V b n : forall i, 0 <= i -> 2 ^ 21 <= b -> (0 <= V / 2 ^ (i + 21 * Z.of_nat n) <= b) ->
  Forall2 within (repeat b (S n)) (cut V n i).
Proof.
  induction n as [|n IH]; intros i Hi Hb HV; cbn [cut repeat].
  - apply Forall2_cons; [|apply Forall2_nil]. replace (i + 21 * Z.of_nat 0) with i in HV by lia. unfold within. lia.
  - apply Forall2_cons.
    + pose proof (Z.mod_pos_bound (V / 2 ^ i) (2 ^ 21) eq_refl). unfold within. lia.
    + apply IH; [lia|exact Hb|]. replace (i + 21 + 21 * Z.of_nat n) with (i + 21 * Z.of_nat (S n)) by lia. exact HV.
Qed.

(** ** The two functions *)

Ltac cut_limbs s H :=
  rewrite ?(limb_3 s 0 0 0), ?(limb_4 s 2 5 21), ?(limb_3 s 5 2 42), ?(limb_4 s 7 7 63), ?(limb_4 s 10 4 84),
    ?(limb_3 s 13 1 105), ?(limb_4 s 15 6 126), ?(limb_3 s 18 3 147), ?(limb_3 s 21 0 168), ?(limb_4 s 23 5 189),
    ?(limb_3 s 26 2 210), ?(limb_4 s 28 7 231), ?(limb_4 s 31 4 252), ?(limb_3 s 34 1 273), ?(limb_4 s 36 6 294),
    ?(limb_3 s 39 3 315), ?(limb_3 s 42 0 336), ?(limb_4 s 44 5 357), ?(limb_3 s 47 2 378), ?(limb_4 s 49 7 399),
    ?(limb_4 s 52 4 420), ?(limb_3 s 55 1 441), ?(limb_4 s 57 6 462) by (exact H || reflexivity || lia).

Lemma shr_0 x : x = x [>>] 0.
Proof. symmetry. apply Z.shiftr_0_r. Qed.

Lemma sc_reduce_ok s : bytes 64 s ->
  bytes 32 (firstn 32 (sc_reduce s)) /\ le_val (firstn 32 (sc_reduce s)) = le_val s mod ell /\
  skipn 32 (sc_reduce s) = skipn 32 s.
Proof.
  intros H. pose proof (proj2 H) as Hb. destruct (limb_top s 60 3 483 H) as [Et Bt]; [lia|reflexivity|].
  assert (G : exists r, sc_reduce s = sc_finish r ++ skipn 32 s /\ limbs24 r = cut (le_val s) 23 0).
  { unfold sc_reduce. cbv zeta. eexists. split; [reflexivity|]. cbv beta iota delta [limbs24].
    rewrite (shr_0 (load_3 s 0)), (shr_0 (load_3 s 21)), (shr_0 (load_3 s 42)), Et. cut_limbs s Hb. reflexivity. }
  destruct G as (r & -> & Er).
  destruct (sc_finish_ok (le_val s) r) as [[L B] V].
  { unfold stage24, stage. rewrite Er. split.
    - unfold bs_start. apply cut_within; [lia|lia|]. change (0 + 21 * Z.of_nat 23) with 483. lia.
    - exists 0. rewrite radix21_cut by lia. change (2 ^ 0) with 1. rewrite Z.div_1_r. ring. }
  rewrite firstn_app, skipn_app, L, Nat.sub_diag, (firstn_all2 (sc_finish r)), (skipn_all2 (sc_finish r)) by (rewrite L; apply le_n).
  cbn [firstn skipn app]. rewrite app_nil_r. split; [split; assumption|]. split; [exact V|reflexivity].
Qed.

(** The products: three numbers of 12 limbs, the last of 25 bits. *)
Definition bs_in : list Z := repeat (2 ^ 21) 11 ++ [2 ^ 25].

Lemma sc_products_ok a0 a1 a2 a3 a4 a5 a6 a7 a8 a9 a10 a11 b0 b1 b2 b3 b4 b5 b6 b7 b8 b9 b10 b11
    c0 c1 c2 c3 c4 c5 c6 c7 c8 c9 c10 c11 :
  let a := [a0; a1; a2; a3; a4; a5; a6; a7; a8; a9; a10; a11] in
  let b := [b0; b1; b2; b3; b4; b5; b6; b7; b8; b9; b10; b11] in
  let c := [c0; c1; c2; c3; c4; c5; c6; c7; c8; c9; c10; c11] in
  Forall2 within bs_in a -> Forall2 within bs_in b -> Forall2 within bs_in c ->
  stage24 (radix21 a * radix21 b + radix21 c) bs_products
    (sc_products a0 a1 a2 a3 a4 a5 a6 a7 a8 a9 a10 a11 b0 b1 b2 b3 b4 b5 b6 b7 b8 b9 b10 b11
       c0 c1 c2 c3 c4 c5 c6 c7 c8 c9 c10 c11).
Proof.
  cbv beta iota zeta delta [bs_in repeat app]. intros Ha Hb Hc. ranges_in Ha. ranges_in Hb. ranges_in Hc.
  cbv beta iota delta [sc_products]. ival_steps. 
  stage_out 0.
  unfold radix21. cbn [fold_right]. subst. ring.
Qed.

Lemma sc_carry_products_ok V s : stage24 V bs_products s -> stage24 V bs_start (sc_carry_products s).
Proof.
  destruct s as [s0 s1 s2 s3 s4 s5 s6 s7 s8 s9 s10 s11 s12 s13 s14 s15 s16 s17 s18 s19 s20 s21 s22 s23].
  intros H. stage_in H q Hq.
  cbv beta iota delta [sc_carry_products]. ival_steps. stage_out q.
  rewrite <- Hq. clear Hq. ival_forget_carries. unfold radix21. cbn [fold_right]. subst. ring.
Qed.

Lemma cut_12 s : bytes 32 s -> Forall2 within bs_in (cut (le_val s) 11 0) /\ radix21 (cut (le_val s) 11 0) = le_val s.
Proof.
  intros H. split; [|rewrite radix21_cut by lia; apply Z.div_1_r].
  destruct (limb_top s 28 7 231 H) as [_ Bt]; [lia|reflexivity|]. change (32 - 7) with 25 in Bt.
  unfold bs_in. cbn [repeat app cut].
  repeat (apply Forall2_cons; [unfold within; match goal with |- context [?x mod 2 ^ 21] =>
     pose proof (Z.mod_pos_bound x (2 ^ 21) eq_refl); lia end|]).
  apply Forall2_cons; [|apply Forall2_nil]. change (0 + 21 + 21 + 21 + 21 + 21 + 21 + 21 + 21 + 21 + 21 + 21) with 231.
  unfold within. lia.
Qed.

Lemma sc_muladd_ok a b c : bytes 32 a -> bytes 32 b -> bytes 32 c ->
  bytes 32 (sc_muladd a b c) /\ le_val (sc_muladd a b c) = (le_val a * le_val b + le_val c) mod ell.
Proof.
  intros Ha Hb Hc.
  destruct (cut_12 a Ha) as [Ra Va], (cut_12 b Hb) as [Rb Vb], (cut_12 c Hc) as [Rc Vc].
  unfold sc_muladd. cbv zeta. apply sc_finish_ok, sc_carry_products_ok.
  rewrite (shr_0 (load_3 a 0)), (shr_0 (load_3 a 21)), (shr_0 (load_3 b 0)), (shr_0 (load_3 b 21)),
    (shr_0 (load_3 c 0)), (shr_0 (load_3 c 21)).
  rewrite (proj1 (limb_top a 28 7 231 Ha ltac:(lia) eq_refl)), (proj1 (limb_top b 28 7 231 Hb ltac:(lia) eq_refl)),
    (proj1 (limb_top c 28 7 231 Hc ltac:(lia) eq_refl)).
  cut_limbs a (proj2 Ha). cut_limbs b (proj2 Hb). cut_limbs c (proj2 Hc).
  match goal with |- stage24 _ _ ?s =>
    assert (E : stage24 (radix21 (cut (le_val a) 11 0) * radix21 (cut (le_val b) 11 0) + radix21 (cut (le_val c) 11 0))
                  bs_products s) by
      exact (sc_products_ok _ _ _ _ _ _ _ _ _ _ _ _ _ _ _ _ _ _ _ _ _ _ _ _ _ _ _ _ _ _ _ _ _ _ _ _ Ra Rb Rc)
  end.
  rewrite Va, Vb, Vc in E. exact E.
Qed.
