(* ===== verification/Errors.v ===== *)
(** Exceptions: a computation that may throw returns an [option], [None] being the
    exception (or an access the C++ leaves undefined).  [YACL_ENFORCE] throws when
    its condition does not hold. *)
From Stdlib Require Import List Bool.
Import ListNotations.

Declare Scope err_scope.
Delimit Scope err_scope with err.

Notation "'let?' x ':=' e 'in' k" := (match e with Some x => k | None => None end)
  (at level 10, x pattern, e at level 100, k at level 200) : err_scope.
Open Scope err_scope.

Definition YACL_ENFORCE {A} (c : bool) (k : option A) : option A := if c then k else None.

Lemma enforce_some {A} (c : bool) (k : option A) x : YACL_ENFORCE c k = Some x <-> c = true /\ k = Some x.
Proof. destruct c; cbn; intuition congruence. Qed.

Lemma enforce_none {A} (c : bool) (k : option A) : YACL_ENFORCE c k = None <-> c = false \/ k = None.
Proof. destruct c; cbn; intuition congruence. Qed.

(** A map whose function may throw. *)
Fixpoint mapM {A B} (f : A -> option B) (l : list A) : option (list B) :=
  match l with
  | [] => Some []
  | x :: l => let? y := f x in let? r := mapM f l in Some (y :: r)
  end.

Lemma mapM_some {A B} (f : A -> option B) (g : A -> B) l : (forall x, In x l -> f x = Some (g x)) -> mapM f l = Some (map g l).
Proof.
  induction l as [|x l IH]; intros H; [reflexivity|]. cbn [mapM map]. rewrite H by now left. rewrite IH; [reflexivity|].
  intros y Hy. apply H. now right.
Qed.

Lemma mapM_length {A B} (f : A -> option B) l r : mapM f l = Some r -> length r = length l.
Proof.
  revert r; induction l as [|x l IH]; intros r E; cbn [mapM] in E; [injection E as <-; reflexivity|].
  destruct (f x); [|discriminate]. destruct (mapM f l); [|discriminate]. injection E as <-. cbn. now rewrite (IH l0).
Qed.
