(* ===== verification/Int128.v ===== *)
(** 128-bit blocks ([uint128_t], [block]) as numbers below 2^128: halves, high and
    low parts, and the bounds that bit operations keep. *)
From Stdlib Require Import ZArith Lia List Bool.
From S2P Require Import Prelude.
Import ListNotations.

Definition u128 (z : Z) : Z := uwrap 128 z.
Definition MakeUint128 (high low : Z) : Z := Z.lor (high [<<] 64) low.

Definition in64 (x : Z) : Prop := 0 <= x < 2 ^ 64.
Definition in128 (x : Z) : Prop := 0 <= x < 2 ^ 128.

Lemma lxor_bound a b n : 0 <= n -> 0 <= a < 2 ^ n -> 0 <= b < 2 ^ n -> 0 <= Z.lxor a b < 2 ^ n.
Proof.
  intros Hn Ha Hb. split; [apply Z.lxor_nonneg; lia|]. rewrite <- (Z.mod_small a (2 ^ n) Ha), <- (Z.mod_small b (2 ^ n) Hb).
  replace (Z.lxor (a mod 2 ^ n) (b mod 2 ^ n)) with (Z.lxor a b mod 2 ^ n); [apply Z.mod_pos_bound; lia|].
  apply Z.bits_inj'. intros i Hi. rewrite Z.lxor_spec. destruct (Z_lt_le_dec i n).
  - now rewrite !Z.mod_pow2_bits_low, Z.lxor_spec by lia.
  - now rewrite !Z.mod_pow2_bits_high by lia.
Qed.

Lemma u64_in x : in64 (u64 x).
Proof. apply Z.mod_pos_bound. lia. Qed.

(** A number is its high part and its low part. *)
Lemma split_shl x k : 0 <= k -> x = Z.lxor ((x [>>] k) [<<] k) (x mod 2 ^ k).
Proof.
  intros Hk. apply Z.bits_inj'. intros n Hn. rewrite Z.lxor_spec. destruct (Z_lt_le_dec n k) as [H|H].
  - rewrite Z.shiftl_spec_low, Z.mod_pow2_bits_low by lia. now rewrite xorb_false_l.
  - rewrite Z.shiftl_spec, Z.shiftr_spec, Z.mod_pow2_bits_high by lia. rewrite xorb_false_r. f_equal. lia.
Qed.

Lemma shr_in x k n : 0 <= n -> 0 <= k -> 0 <= x < 2 ^ (k + n) -> 0 <= x [>>] k < 2 ^ n.
Proof.
  intros Hn Hk Hx. rewrite Z.shiftr_div_pow2 by exact Hk. split; [apply Z.div_pos; lia|].
  apply Z.div_lt_upper_bound; [lia|]. rewrite <- Z.pow_add_r by lia. lia.
Qed.

Lemma lxor_small_l a b n : 0 <= n -> 0 <= b < 2 ^ n -> Z.lxor (a [<<] n) b mod 2 ^ n = b.
Proof.
  intros Hn Hb. apply Z.bits_inj'. intros i Hi. destruct (Z_lt_le_dec i n) as [H|H].
  - rewrite Z.mod_pow2_bits_low, Z.lxor_spec, Z.shiftl_spec_low by lia. apply xorb_false_l.
  - rewrite Z.mod_pow2_bits_high by lia. rewrite <- (Z.mod_small b (2 ^ n) Hb). now rewrite Z.mod_pow2_bits_high by lia.
Qed.

Lemma lxor_high a b n : 0 <= n -> 0 <= b < 2 ^ n -> Z.lxor (a [<<] n) b [>>] n = a.
Proof.
  intros Hn Hb. apply Z.bits_inj'. intros i Hi. rewrite Z.shiftr_spec, Z.lxor_spec, Z.shiftl_spec by lia.
  rewrite <- (Z.mod_small b (2 ^ n) Hb). rewrite Z.mod_pow2_bits_high by lia. rewrite xorb_false_r. f_equal. lia.
Qed.

Lemma MakeUint128_lxor h l : in64 l -> MakeUint128 h l = Z.lxor (h [<<] 64) l.
Proof.
  intros Hl. unfold MakeUint128. apply Z.bits_inj'. intros i Hi. rewrite Z.lor_spec, Z.lxor_spec.
  destruct (Z_lt_le_dec i 64).
  - rewrite Z.shiftl_spec_low by lia. now destruct (Z.testbit l i).
  - rewrite <- (Z.mod_small l (2 ^ 64) Hl). rewrite Z.mod_pow2_bits_high by lia. now destruct (Z.testbit (h [<<] 64) i).
Qed.

Lemma lxor_in128 x y : in128 x -> in128 y -> in128 (Z.lxor x y).
Proof. intros Hx Hy. apply (lxor_bound x y 128); [lia|exact Hx|exact Hy]. Qed.

