(* ===== verification/Transpose.v ===== *)
(** Transposing bit matrices of 128 rows of 128 bits ([utils/matrix_utils]): the
    naive loops, Eklundh's algorithm in seven rounds of masked swaps, and the SSE
    version by 16 x 16 squares; the same for rows of eight blocks.  A matrix is a
    list of rows, a row a 128-bit number, column c its bit c.

    Matrices of 128 rows of eight blocks: both routines of [utils/matrix_utils] transpose
    every block column and touch nothing else. *)
From Stdlib Require Import ZArith Lia List Bool.
From S2P Require Import Prelude.
From S2P Require Import Int128.
Import ListNotations.

(** ** The code *)

Definition GetBit (i : Z) (pos : nat) : Z := Z.land (i [>>] Z.of_nat pos) 1.

(** For N = 1: [in] is a copy of the matrix. *)
Definition NaiveTranspose (inout : list Z) : list Z :=
  let in_ := inout in
  fold_left (fun inout i =>
    let t := fold_left (fun t j => Z.lor t (u128 (GetBit (at_ in_ j) i [<<] Z.of_nat j))) (seq 0 128) 0 in
    upd inout i t) (seq 0 128) inout.

(** *** Eklundh *)

Definition trans_mask : list Z :=
  [MakeUint128 0x0000000000000000 0xffffffffffffffff;
   MakeUint128 0x00000000ffffffff 0x00000000ffffffff;
   MakeUint128 0x0000ffff0000ffff 0x0000ffff0000ffff;
   MakeUint128 0x00ff00ff00ff00ff 0x00ff00ff00ff00ff;
   MakeUint128 0x0f0f0f0f0f0f0f0f 0x0f0f0f0f0f0f0f0f;
   MakeUint128 0x3333333333333333 0x3333333333333333;
   MakeUint128 0x5555555555555555 0x5555555555555555].
Definition trans_mask_inv : list Z :=
  [MakeUint128 0xffffffffffffffff 0x0000000000000000;
   MakeUint128 0xffffffff00000000 0xffffffff00000000;
   MakeUint128 0xffff0000ffff0000 0xffff0000ffff0000;
   MakeUint128 0xff00ff00ff00ff00 0xff00ff00ff00ff00;
   MakeUint128 0xf0f0f0f0f0f0f0f0 0xf0f0f0f0f0f0f0f0;
   MakeUint128 0xcccccccccccccccc 0xcccccccccccccccc;
   MakeUint128 0xaaaaaaaaaaaaaaaa 0xaaaaaaaaaaaaaaaa].

(** The swap between the rows [i1] and [i2]. *)
Definition ekl_swap (mask inv_mask : Z) (width i1 i2 : nat) (inout : list Z) : list Z :=
  let t := at_ inout i1 in
  let tt := at_ inout i2 in
  let d := Z.lxor (Z.land t mask) (u128 (Z.land tt mask [<<] Z.of_nat width)) in
  let dd := Z.lxor (Z.land tt inv_mask) (Z.land t inv_mask [>>] Z.of_nat width) in
  upd (upd inout i1 d) i2 dd.
Definition ekl_round (mask inv_mask : Z) (width nswaps : nat) (inout : list Z) : list Z :=
  fold_left (fun inout j =>
    fold_left (fun inout k =>
      let i1 := (k + 2 * width * j)%nat in
      let i2 := (k + width + 2 * width * j)%nat in
      ekl_swap mask inv_mask width i1 i2 inout) (seq 0 width) inout) (seq 0 nswaps) inout.
Definition EklundhTranspose128 (inout : list Z) : list Z :=
  let logn := 7%nat in
  fst (fold_left (fun '(inout, (width, nswaps)) i =>
    let mask := at_ trans_mask i in
    let inv_mask := at_ trans_mask_inv i in
    (ekl_round mask inv_mask width nswaps inout, (Nat.div width 2, (nswaps * 2)%nat)))
    (seq 0 logn) (inout, (64%nat, 1%nat))).

(** *** SSE: byte and 16-bit views of the rows *)

Definition byte_of (x : Z) (n : nat) : Z := u8 (x [>>] (8 * Z.of_nat n)).
Definition set_u16 (x : Z) (n : nat) (v : Z) : Z :=
  Z.lor (Z.ldiff x (0xffff [<<] (16 * Z.of_nat n))) (uwrap 16 v [<<] (16 * Z.of_nat n)).

(** A number from its bits, the lowest first. *)
Fixpoint bits_val (l : list bool) : Z :=
  match l with [] => 0 | b :: l => Z.b2z b + 2 * bits_val l end.

(** [_mm_movemask_epi8]: the top bits of the 16 bytes; [_mm_slli_epi64] shifts both halves. *)
Definition movemask_epi8 (x : Z) : Z := bits_val (map (fun l => Z.testbit x (8 * Z.of_nat l + 7)) (seq 0 16)).
Definition slli_epi64 (x n : Z) : Z := MakeUint128 (u64 ((x [>>] 64) [<<] n)) (u64 (u64 x [<<] n)).

Definition sse_loadSubSquare (in_ : list Z) (x y : nat) : Z * Z :=
  (le_val (map (fun l => byte_of (at_ in_ (16 * x + l)) (2 * y)) (seq 0 16)),
   le_val (map (fun l => byte_of (at_ in_ (16 * x + l)) (2 * y + 1)) (seq 0 16))).

Definition sse_transposeSubSquare (out : list Z) (in_ : Z * Z) (x y : nat) : list Z :=
  fst (fold_left (fun '(out, (in0, in1)) j =>
    let out := upd out (16 * x + 7 - j) (set_u16 (at_ out (16 * x + 7 - j)) y (movemask_epi8 in0)) in
    let out := upd out (16 * x + 15 - j) (set_u16 (at_ out (16 * x + 15 - j)) y (movemask_epi8 in1)) in
    (out, (slli_epi64 in0 1, slli_epi64 in1 1))) (seq 0 8) (out, in_)).

Definition SseTranspose128 (inout : list Z) : list Z :=
  fold_left (fun mtx j =>
    let a := sse_loadSubSquare mtx j j in
    let mtx := sse_transposeSubSquare mtx a j j in
    fold_left (fun mtx k =>
      let a := sse_loadSubSquare mtx k j in
      let b := sse_loadSubSquare mtx j k in
      let mtx := sse_transposeSubSquare mtx a j k in
      sse_transposeSubSquare mtx b k j) (seq 0 j) mtx) (seq 0 8) inout.

(** Built without BMI2; [sse2] is what the processor supports. *)
Definition MatrixTranspose128 (sse2 : bool) (inout : list Z) : list Z :=
  if sse2 then SseTranspose128 inout else EklundhTranspose128 inout.

(** *** 128 rows of 8 blocks: row i, block b is [at_ (nth i m []) b] *)

Definition block_at (m : list (list Z)) (i b : nat) : Z := at_ (nth i m []) b.
Definition set_block_at (m : list (list Z)) (i b : nat) (v : Z) : list (list Z) := upd m i (upd (nth i m []) b v).

Definition EklundhTranspose128x1024 (inout : list (list Z)) : list (list Z) :=
  fold_left (fun inout i =>
    let sub := map (fun j => block_at inout j i) (seq 0 128) in
    let sub := EklundhTranspose128 sub in
    fold_left (fun inout j => set_block_at inout j i (at_ sub j)) (seq 0 128) inout) (seq 0 8) inout.

(** The views of a row: 128 bytes, 64 words of 16 bits. *)
Definition row_byte (m : list (list Z)) (r n : nat) : Z := byte_of (block_at m r (Nat.div n 16)) (Nat.modulo n 16).
Definition set_row_u16 (m : list (list Z)) (r n : nat) (v : Z) : list (list Z) :=
  set_block_at m r (Nat.div n 8) (set_u16 (block_at m r (Nat.div n 8)) (Nat.modulo n 8) v).

Definition SseLoadSubSquarex (in_ : list (list Z)) (x y i : nat) : Z * Z :=
  let x16 := (x * 16)%nat in
  let i16y2 := (i * 16 + 2 * y)%nat in
  let i16y21 := (i * 16 + 2 * y + 1)%nat in
  (le_val (map (fun l => row_byte in_ (x16 + l) i16y2) (seq 0 16)),
   le_val (map (fun l => row_byte in_ (x16 + l) i16y21) (seq 0 16))).

Definition SseTransposeSubSquarex (out : list (list Z)) (in_ : Z * Z) (x y i : nat) : list (list Z) :=
  let i8y := (i * 8 + y)%nat in
  let x16_7 := (x * 16 + 7)%nat in
  let x16_15 := (x * 16 + 15)%nat in
  let out := fold_left (fun out s => set_row_u16 out (x16_7 - s) i8y (movemask_epi8 (slli_epi64 (fst in_) (Z.of_nat s)))) (seq 0 8) out in
  fold_left (fun out s => set_row_u16 out (x16_15 - s) i8y (movemask_epi8 (slli_epi64 (snd in_) (Z.of_nat s)))) (seq 0 8) out.

Definition SseTranspose128x1024 (inout : list (list Z)) : list (list Z) :=
  fold_left (fun inout i =>
    fold_left (fun inout j =>
      let a := SseLoadSubSquarex inout j j i in
      let inout := SseTransposeSubSquarex inout a j j i in
      fold_left (fun inout k =>
        let a := SseLoadSubSquarex inout k j i in
        let b := SseLoadSubSquarex inout j k i in
        let inout := SseTransposeSubSquarex inout a j k i in
        SseTransposeSubSquarex inout b k j i) (seq 0 j) inout) (seq 0 8) inout) (seq 0 8) inout.

Definition MatrixTranspose128x1024 (sse2 : bool) (inout : list (list Z)) : list (list Z) :=
  if sse2 then SseTranspose128x1024 inout else EklundhTranspose128x1024 inout.

(** ** Matrices, by their bits *)

Definition bit (m : list Z) (r c : nat) : bool := Z.testbit (at_ m r) (Z.of_nat c).
Definition matrix (m : list Z) : Prop := length m = 128%nat /\ Forall in128 m.
Definition transpose (m : list Z) : list Z :=
  map (fun r => bits_val (map (fun c => bit m c r) (seq 0 128))) (seq 0 128).

Lemma bits_val_bound l : 0 <= bits_val l < 2 ^ Z.of_nat (length l).
Proof.
  induction l as [|b l IH]; cbn [bits_val length]; [cbn; lia|]. rewrite Nat2Z.inj_succ, Z.pow_succ_r by lia.
  unfold Z.b2z. destruct b; lia.
Qed.

Lemma bits_val_bit l i : Z.testbit (bits_val l) (Z.of_nat i) = nth i l false.
Proof.
  revert i; induction l as [|b l IH]; intros [|i]; cbn [bits_val nth]; try apply Z.bits_0.
  - rewrite Z.add_comm. apply Z.testbit_0_r.
  - rewrite Nat2Z.inj_succ, Z.add_comm, Z.testbit_succ_r by lia. apply IH.
Qed.

Lemma bits_ext x y n : 0 <= x < 2 ^ Z.of_nat n -> 0 <= y < 2 ^ Z.of_nat n ->
  (forall i, (i < n)%nat -> Z.testbit x (Z.of_nat i) = Z.testbit y (Z.of_nat i)) -> x = y.
Proof.
  intros Hx Hy H. apply Z.bits_inj'. intros i Hi. destruct (Z_lt_le_dec i (Z.of_nat n)) as [L|G].
  - replace i with (Z.of_nat (Z.to_nat i)) by lia. apply H. lia.
  - rewrite <- (Z.mod_small x (2 ^ Z.of_nat n)), <- (Z.mod_small y (2 ^ Z.of_nat n)) by assumption.
    now rewrite !Z.mod_pow2_bits_high by lia.
Qed.

Lemma matrix_row m r : matrix m -> in128 (at_ m r).
Proof.
  intros [L F]. destruct (Nat.lt_ge_cases r (length m)) as [H|H].
  - rewrite Forall_forall in F. apply F, nth_In, H.
  - unfold at_. rewrite nth_overflow by exact H. split; [lia|reflexivity].
Qed.

Lemma matrix_ext m m' : matrix m -> matrix m' ->
  (forall r c, (r < 128)%nat -> (c < 128)%nat -> bit m r c = bit m' r c) -> m = m'.
Proof.
  intros Hm Hm' H. apply (nth_ext m m' 0 0); [destruct Hm, Hm'; congruence|]. intros r Hr.
  destruct Hm as [L F] eqn:E; clear E. apply (bits_ext _ _ 128).
  - apply (matrix_row m r). now split.
  - now apply (matrix_row m' r).
  - intros c Hc. apply H; lia.
Qed.

Lemma matrix_map f : (forall i, (i < 128)%nat -> in128 (f i)) -> matrix (map f (seq 0 128)).
Proof.
  intros H. split; [now rewrite length_map, length_seq|]. apply Forall_forall. intros x Hx. apply in_map_iff in Hx as (i & <- & Hi).
  apply H. apply in_seq in Hi. lia.
Qed.

Lemma transpose_matrix m : matrix (transpose m).
Proof. apply matrix_map. intros i _. apply (bits_val_bound (map _ (seq 0 128))). Qed.

Lemma transpose_bit m r c : (r < 128)%nat -> (c < 128)%nat -> bit (transpose m) r c = bit m c r.
Proof.
  intros Hr Hc. unfold bit at 1, transpose. rewrite at_map_seq by exact Hr. rewrite bits_val_bit. exact (nth_map_seq (fun c => bit m c r) 128 c false Hc).
Qed.

Lemma transpose_transpose m : matrix m -> transpose (transpose m) = m.
Proof. intros Hm. apply matrix_ext; [apply transpose_matrix|exact Hm|]. intros r c Hr Hc. now rewrite !transpose_bit. Qed.

Lemma is_transpose m m' : matrix m' -> (forall r c, (r < 128)%nat -> (c < 128)%nat -> bit m' r c = bit m c r) ->
  m' = transpose m.
Proof. intros Hm' H. apply matrix_ext; [exact Hm'|apply transpose_matrix|]. intros r c Hr Hc. now rewrite transpose_bit, H. Qed.

Lemma matrix_upd m r v : matrix m -> in128 v -> matrix (upd m r v).
Proof.
  intros [L F] Hv. split; [now rewrite length_upd|]. clear L. revert r; induction F as [|x m Hx F IH]; intros [|r]; cbn [upd]; constructor; auto.
Qed.

(** ** The naive loops *)

Lemma upd_middle (a l : list Z) v : l <> [] -> upd (a ++ l) (length a) v = a ++ v :: tl l.
Proof.
  intros H. induction a as [|x a IH]; cbn [app length upd]; [destruct l; [congruence|reflexivity]|]. now rewrite IH.
Qed.

Lemma fold_upd (f : nat -> Z) : forall n (m : list Z), (n <= length m)%nat ->
  fold_left (fun m i => upd m i (f i)) (seq 0 n) m = map f (seq 0 n) ++ skipn n m.
Proof.
  induction n as [|n IH]; intros m Hn; [reflexivity|].
  rewrite seq_S, fold_left_app, IH, map_app by lia. cbn [fold_left map]. rewrite Nat.add_0_l.
  pose proof (length_skipn n m) as Ls. assert (Es : skipn n m <> []) by (intros E; rewrite E in Ls; cbn in Ls; lia).
  pose proof (upd_middle (map f (seq 0 n)) (skipn n m) (f n) Es) as U. rewrite length_map, length_seq in U. rewrite U, <- app_assoc.
  replace (S n) with (1 + n)%nat by lia. rewrite <- skipn_skipn. destruct (skipn n m); [congruence|reflexivity].
Qed.

Lemma fold_lor_bits (g : nat -> bool) n : (n <= 128)%nat ->
  fold_left (fun t j => Z.lor t (u128 (Z.b2z (g j) [<<] Z.of_nat j))) (seq 0 n) 0 = bits_val (map g (seq 0 n)).
Proof.
  induction n as [|n IH]; intros Hn; [reflexivity|].
  rewrite seq_S, fold_left_app, IH by lia. cbn [fold_left]. rewrite Nat.add_0_l, map_app. cbn [map].
  pose proof (bits_val_bound (map g (seq 0 n))) as B. rewrite length_map, length_seq in B.
  assert (P : 0 < 2 ^ Z.of_nat n) by lia.
  assert (Pn : 2 ^ Z.of_nat n <= 2 ^ 127) by (apply Z.pow_le_mono_r; lia).
  assert (E : u128 (Z.b2z (g n) [<<] Z.of_nat n) = Z.b2z (g n) [<<] Z.of_nat n).
  { unfold u128, uwrap. apply Z.mod_small. rewrite Z.shiftl_mul_pow2 by lia. unfold Z.b2z. destruct (g n); lia. }
  rewrite E, lor_add by lia.
  assert (G : forall l b, bits_val (l ++ [b]) = bits_val l + Z.b2z b * 2 ^ Z.of_nat (length l)).
  { induction l as [|a l IHl]; intros b; cbn [app bits_val length]; [rewrite Z.pow_0_r; lia|].
    rewrite IHl, Nat2Z.inj_succ, Z.pow_succ_r by lia. lia. }
  now rewrite G, length_map, length_seq.
Qed.

Lemma GetBit_b2z x n : GetBit x n = Z.b2z (Z.testbit x (Z.of_nat n)).
Proof.
  unfold GetBit. rewrite (Z.land_ones _ 1) by lia. change (2 ^ 1) with 2. rewrite <- Z.bit0_mod, Z.shiftr_spec by lia. reflexivity.
Qed.

Lemma fold_left_ext {A B} (f g : A -> B -> A) l : (forall a x, In x l -> f a x = g a x) -> forall a, fold_left f l a = fold_left g l a.
Proof.
  induction l as [|x l IH]; intros H a; [reflexivity|]. cbn [fold_left]. rewrite H by now left. apply IH. intros b y Hy. apply H. now right.
Qed.

Lemma NaiveTranspose_ok m : length m = 128%nat -> NaiveTranspose m = transpose m.
Proof.
  intros L. unfold NaiveTranspose. cbv zeta.
  rewrite (fold_left_ext _ (fun out i => upd out i (bits_val (map (fun c => bit m c i) (seq 0 128))))).
  - rewrite (fold_upd (fun i => bits_val (map (fun c => bit m c i) (seq 0 128)))) by lia. rewrite skipn_all2 by lia. apply app_nil_r.
  - intros out i _. f_equal. rewrite <- (fold_lor_bits (fun c => bit m c i)) by lia. apply fold_left_ext. intros t j _. now rewrite GetBit_b2z.
Qed.

(** ** Eklundh's rounds *)

Lemma fold_left_flat_map {A B C} (f : C -> B -> C) (g : A -> list B) l : forall c,
  fold_left (fun c a => fold_left f (g a) c) l c = fold_left f (flat_map g l) c.
Proof. induction l as [|a l IH]; intros c; [reflexivity|]. cbn [fold_left flat_map]. now rewrite IH, fold_left_app. Qed.

Lemma fold_left_map {A B C} (f : C -> B -> C) (g : A -> B) l : forall c,
  fold_left (fun c a => f c (g a)) l c = fold_left f (map g l) c.
Proof. induction l as [|a l IH]; intros c; [reflexivity|]. cbn. apply IH. Qed.

Section Swaps.
Context (mask inv_mask : Z) (width : nat).

Definition upper (t tt : Z) : Z := Z.lxor (Z.land t mask) (u128 (Z.land tt mask [<<] Z.of_nat width)).
Definition lower (t tt : Z) : Z := Z.lxor (Z.land tt inv_mask) (Z.land t inv_mask [>>] Z.of_nat width).
Definition swaps (ps : list (nat * nat)) (m : list Z) : list Z :=
  fold_left (fun m p => ekl_swap mask inv_mask width (fst p) (snd p) m) ps m.
Definition pairs (nswaps : nat) : list (nat * nat) :=
  flat_map (fun j => map (fun k => ((k + 2 * width * j)%nat, (k + width + 2 * width * j)%nat)) (seq 0 width)) (seq 0 nswaps).

Lemma ekl_round_swaps nswaps m : ekl_round mask inv_mask width nswaps m = swaps (pairs nswaps) m.
Proof.
  unfold ekl_round, swaps, pairs. rewrite <- fold_left_flat_map. apply fold_left_ext. intros m' j _. cbv zeta.
  now rewrite <- fold_left_map.
Qed.

Lemma length_swaps ps : forall m, length (swaps ps m) = length m.
Proof.
  induction ps as [|p ps IH]; intros m; [reflexivity|]. cbn [swaps fold_left]. fold (swaps ps). rewrite IH. unfold ekl_swap. cbv zeta.
  now rewrite !length_upd.
Qed.

(** Rows that occur once see their partner as it was. *)
Lemma swaps_at ps : forall m r, NoDup (flat_map (fun p => [fst p; snd p]) ps) ->
  Forall (fun p => (fst p < length m)%nat /\ (snd p < length m)%nat) ps ->
  (forall b, In (r, b) ps -> at_ (swaps ps m) r = upper (at_ m r) (at_ m b)) /\
  (forall a, In (a, r) ps -> at_ (swaps ps m) r = lower (at_ m a) (at_ m r)) /\
  (~ In r (flat_map (fun p => [fst p; snd p]) ps) -> at_ (swaps ps m) r = at_ m r).
Proof.
  induction ps as [|[x y] ps IH]; intros m r ND F; [repeat split; intros; (contradiction || reflexivity)|].
  cbn [flat_map app fst snd] in *. apply NoDup_cons_iff in ND as [Nx ND]. apply NoDup_cons_iff in ND as [Ny ND].
  apply Forall_cons_iff in F as [[Lx Ly] F]. cbn [fst snd] in Lx, Ly.
  assert (Nxy : x <> y) by (intros ->; apply Nx; now left). assert (Nx' : ~ In x (flat_map (fun p => [fst p; snd p]) ps)) by (intros H; apply Nx; now right).
  set (m' := ekl_swap mask inv_mask width x y m). change (swaps ((x, y) :: ps) m) with (swaps ps m').
  assert (Lm : length m' = length m) by (unfold m', ekl_swap; cbv zeta; now rewrite !length_upd).
  destruct (IH m' r ND) as (I1 & I2 & I3); [now rewrite Lm|].
  assert (Ax : at_ m' x = upper (at_ m x) (at_ m y)).
  { unfold m', ekl_swap. cbv zeta. rewrite at_upd_ne by congruence. now rewrite at_upd_eq. }
  assert (Ay : at_ m' y = lower (at_ m x) (at_ m y)).
  { unfold m', ekl_swap. cbv zeta. rewrite at_upd_eq by (now rewrite length_upd). reflexivity. }
  assert (Ao : forall z, z <> x -> z <> y -> at_ m' z = at_ m z).
  { intros z Zx Zy. unfold m', ekl_swap. cbv zeta. now rewrite !at_upd_ne by congruence. }
  assert (InL : forall a b, In (a, b) ps -> In a (flat_map (fun p => [fst p; snd p]) ps) /\ In b (flat_map (fun p => [fst p; snd p]) ps)).
  { intros a b H. split; apply in_flat_map; exists (a, b); cbn; auto. }
  split; [|split].
  - intros b [E|H]; [injection E as <- <-; rewrite I3 by exact Nx'; exact Ax|].
    destruct (InL _ _ H). rewrite (I1 b H), !Ao; (reflexivity || (intros ->; contradiction)).
  - intros a [E|H]; [injection E as <- <-; rewrite I3 by exact Ny; exact Ay|].
    destruct (InL _ _ H). rewrite (I2 a H), !Ao; (reflexivity || (intros ->; contradiction)).
  - intros H. rewrite I3 by (intros H'; apply H; now do 2 right). apply Ao; intros ->; apply H; [now left|now right; left].
Qed.

Lemma swaps_matrix : in128 mask -> in128 inv_mask -> forall ps m, matrix m -> matrix (swaps ps m).
Proof.
  intros Hk Hi. induction ps as [|[x y] ps IH]; intros m Hm; [exact Hm|]. cbn [swaps fold_left]. apply IH. cbn [fst snd].
  assert (Hland : forall a b, in128 a -> in128 b -> in128 (Z.land a b)).
  { intros a b Ha Hb. pose proof (proj1 Ha). pose proof (proj1 Hb). split; [now apply Z.land_nonneg; left|].
    rewrite <- (Z.mod_small b (2 ^ 128) Hb), <- Z.land_ones, Z.land_assoc, Z.land_ones by lia. apply Z.mod_pos_bound. lia. }
  unfold ekl_swap. cbv zeta. apply matrix_upd; [apply matrix_upd; [exact Hm|]|]; apply lxor_in128.
  - apply Hland; [now apply matrix_row|exact Hk].
  - apply Z.mod_pos_bound. lia.
  - apply Hland; [now apply matrix_row|exact Hi].
  - destruct (Hland (at_ m x) inv_mask (matrix_row m x Hm) Hi) as [G0 G1]. split; [now apply Z.shiftr_nonneg|].
    rewrite Z.shiftr_div_pow2 by lia. apply Z.div_lt_upper_bound; [lia|]. nia.
Qed.
End Swaps.

(** Round s exchanges bit s of the row with bit s of the column. *)
Definition cross (s : nat) (p : nat * nat) : nat * nat :=
  if xorb (Nat.testbit (fst p) s) (Nat.testbit (snd p) s) then (Nat.lxor (fst p) (2 ^ s), Nat.lxor (snd p) (2 ^ s)) else p.

(** The masks and the index pairs of round s, checked. *)
Fixpoint distinct (l : list nat) : bool :=
  match l with [] => true | x :: l => negb (existsb (Nat.eqb x) l) && distinct l end.
Definition round_check (s : nat) : bool :=
  let w := (2 ^ s)%nat in
  let ps := pairs w (2 ^ (6 - s)) in
  let mask := at_ trans_mask (6 - s) in
  let inv_mask := at_ trans_mask_inv (6 - s) in
  distinct (flat_map (fun p => [fst p; snd p]) ps) &&
  forallb (fun p => (fst p <? 128)%nat && (snd p <? 128)%nat) ps &&
  forallb (fun c =>
    let hi := Nat.testbit c s in
    let c' := Nat.lxor c w in
    Bool.eqb (Z.testbit mask (Z.of_nat c)) (negb hi) && Bool.eqb (Z.testbit inv_mask (Z.of_nat c)) hi &&
    Bool.eqb (Nat.testbit c' s) (negb hi) && (c' <? 128)%nat &&
    (if hi then negb (Z.testbit inv_mask (Z.of_nat c + Z.of_nat w)) && (c' + w =? c)%nat && existsb (fun p => (fst p =? c')%nat && (snd p =? c)%nat) ps
     else negb (Z.testbit mask (Z.of_nat c - Z.of_nat w)) && (c + w =? c')%nat && existsb (fun p => (fst p =? c)%nat && (snd p =? c')%nat) ps)) (seq 0 128) &&
  (0 <=? mask) && (mask <? 2 ^ 128) && (0 <=? inv_mask) && (inv_mask <? 2 ^ 128).

Lemma rounds_checked : forallb round_check (seq 0 7) = true.
Proof. vm_compute. reflexivity. Qed.

Lemma distinct_NoDup l : distinct l = true -> NoDup l.
Proof.
  induction l as [|x l IH]; intros H; constructor; cbn [distinct] in H; apply andb_true_iff in H as [H1 H2]; [|auto].
  intros Hin. apply negb_true_iff in H1. rewrite <- not_true_iff_false in H1. apply H1, existsb_exists. exists x. now rewrite Nat.eqb_refl.
Qed.

Lemma mask_bits s c : (s < 7)%nat -> (c < 128)%nat ->
  let w := (2 ^ s)%nat in let c' := Nat.lxor c w in let ps := pairs w (2 ^ (6 - s)) in
  Z.testbit (at_ trans_mask (6 - s)) (Z.of_nat c) = negb (Nat.testbit c s) /\
  Z.testbit (at_ trans_mask_inv (6 - s)) (Z.of_nat c) = Nat.testbit c s /\
  Nat.testbit c' s = negb (Nat.testbit c s) /\ (c' < 128)%nat /\
  (if Nat.testbit c s
   then Z.testbit (at_ trans_mask_inv (6 - s)) (Z.of_nat c + Z.of_nat w) = false /\ (c' + w = c)%nat /\ In (c', c) ps
   else Z.testbit (at_ trans_mask (6 - s)) (Z.of_nat c - Z.of_nat w) = false /\ (c + w = c')%nat /\ In (c, c') ps).
Proof.
  intros Hs Hc. cbv zeta. pose proof rounds_checked as K. rewrite forallb_forall in K.
  pose proof (K s ltac:(apply in_seq; lia)) as R. unfold round_check in R. cbv zeta in R. rewrite !andb_true_iff in R.
  destruct R as ((((((_ & _) & R) & _) & _) & _) & _). rewrite forallb_forall in R.
  pose proof (R c ltac:(apply in_seq; lia)) as Q. rewrite !andb_true_iff, !eqb_true_iff in Q.
  destruct Q as ((((Q1 & Q2) & Q3) & Q4) & Q5). apply Nat.ltb_lt in Q4. repeat (split; [assumption|]).
  destruct (Nat.testbit c s); rewrite !andb_true_iff in Q5; destruct Q5 as [[Q E] X]; apply negb_true_iff in Q; apply Nat.eqb_eq in E;
    (split; [exact Q|]; split; [exact E|]);
    apply existsb_exists in X as ([a b] & Hin & Hab); apply andb_true_iff in Hab as [Ea Eb]; apply Nat.eqb_eq in Ea, Eb; cbn in *; now subst.
Qed.

Lemma round_pairs s (m : list Z) : (s < 7)%nat -> length m = 128%nat ->
  let ps := pairs (2 ^ s) (2 ^ (6 - s)) in
  NoDup (flat_map (fun p => [fst p; snd p]) ps) /\ Forall (fun p => (fst p < length m)%nat /\ (snd p < length m)%nat) ps /\
  in128 (at_ trans_mask (6 - s)) /\ in128 (at_ trans_mask_inv (6 - s)).
Proof.
  intros Hs L. cbv zeta. pose proof rounds_checked as K. rewrite forallb_forall in K.
  pose proof (K s ltac:(apply in_seq; lia)) as R. unfold round_check in R. cbv zeta in R. rewrite !andb_true_iff in R.
  destruct R as ((((((D & F) & _) & M1) & M2) & M3) & M4). split; [now apply distinct_NoDup|]. split.
  - apply Forall_forall. intros p Hp. rewrite forallb_forall in F. specialize (F p Hp). apply andb_true_iff in F as [F1 F2].
    apply Nat.ltb_lt in F1, F2. lia.
  - unfold in128. lia.
Qed.

(** One round, on the bits. *)
Lemma round_bit s m r c : (s < 7)%nat -> matrix m -> (r < 128)%nat -> (c < 128)%nat ->
  bit (ekl_round (at_ trans_mask (6 - s)) (at_ trans_mask_inv (6 - s)) (2 ^ s) (2 ^ (6 - s)) m) r c
    = bit m (fst (cross s (r, c))) (snd (cross s (r, c))).
Proof.
  intros Hs Hm Hr Hc. rewrite ekl_round_swaps. destruct (round_pairs s m Hs (proj1 Hm)) as (ND & F & _ & _).
  destruct (swaps_at (at_ trans_mask (6 - s)) (at_ trans_mask_inv (6 - s)) (2 ^ s) _ m r ND F) as (U & Lo & _).
  pose proof (mask_bits s r Hs Hr) as (_ & _ & _ & _ & R3). pose proof (mask_bits s c Hs Hc) as (C1 & C2 & C3 & C4 & C5).
  pose proof (mask_bits s _ Hs C4) as (D1 & D2 & _). unfold bit at 1, cross. cbn [fst snd].
  destruct (Nat.testbit r s); destruct R3 as (_ & Er & Inr); [rewrite (Lo _ Inr)|rewrite (U _ Inr)];
    unfold lower, upper, u128, uwrap; rewrite Z.lxor_spec, ?Z.mod_pow2_bits_low, ?Z.shiftr_spec, ?Z.shiftl_spec, !Z.land_spec by lia;
    destruct (Nat.testbit c s); destruct C5 as (C5 & Ec & _); cbn [xorb negb] in *.
  - now rewrite C2, C5, andb_false_r, andb_true_r, xorb_false_r.
  - replace (Z.of_nat c + Z.of_nat (2 ^ s)) with (Z.of_nat (Nat.lxor c (2 ^ s))) by lia.
    now rewrite C2, D2, C3, andb_false_r, andb_true_r, xorb_false_l.
  - replace (Z.of_nat c - Z.of_nat (2 ^ s)) with (Z.of_nat (Nat.lxor c (2 ^ s))) by lia.
    now rewrite C1, D1, C3, andb_false_r, andb_true_r, xorb_false_l.
  - now rewrite C1, C5, andb_false_r, andb_true_r, xorb_false_r.
Qed.

Lemma round_matrix s m : (s < 7)%nat -> matrix m ->
  matrix (ekl_round (at_ trans_mask (6 - s)) (at_ trans_mask_inv (6 - s)) (2 ^ s) (2 ^ (6 - s)) m).
Proof.
  intros Hs Hm. rewrite ekl_round_swaps. destruct (round_pairs s m Hs (proj1 Hm)) as (_ & _ & M & N). now apply swaps_matrix.
Qed.

Lemma cross_lt s r c : (s < 7)%nat -> (r < 128)%nat -> (c < 128)%nat ->
  (fst (cross s (r, c)) < 128)%nat /\ (snd (cross s (r, c)) < 128)%nat.
Proof.
  intros Hs Hr Hc. unfold cross. cbn [fst snd]. destruct (xorb _ _); cbn [fst snd]; [|lia].
  split; [now apply (mask_bits s r)|now apply (mask_bits s c)].
Qed.

Lemma cross_bits s r c i : Nat.testbit (fst (cross s (r, c))) i = (if Nat.eqb s i then Nat.testbit c i else Nat.testbit r i) /\
  Nat.testbit (snd (cross s (r, c))) i = (if Nat.eqb s i then Nat.testbit r i else Nat.testbit c i).
Proof.
  unfold cross. cbn [fst snd]. destruct (Nat.eqb_spec s i) as [<-|N].
  - destruct (Nat.testbit r s) eqn:Er, (Nat.testbit c s) eqn:Ec; cbn [xorb fst snd]; rewrite ?Nat.lxor_spec, ?Nat.pow2_bits_true, ?Er, ?Ec; auto.
  - destruct (xorb _ _); cbn [fst snd]; rewrite ?Nat.lxor_spec, ?(Nat.pow2_bits_false s i N), ?xorb_false_r; auto.
Qed.

(** The rounds from bit n - 1 down to bit 0. *)
Fixpoint ekl_rounds (n : nat) (m : list Z) : list Z :=
  match n with
  | O => m
  | S s => ekl_rounds s (ekl_round (at_ trans_mask (6 - s)) (at_ trans_mask_inv (6 - s)) (2 ^ s) (2 ^ (6 - s)) m)
  end.

Lemma Eklundh_rounds m : EklundhTranspose128 m = ekl_rounds 7 m.
Proof. unfold EklundhTranspose128. cbv zeta. cbn [seq fold_left fst ekl_rounds]. repeat (f_equal; [reflexivity..|]). reflexivity. Qed.

(** After n rounds the lowest n bits of row and column are exchanged. *)
Lemma ekl_rounds_bit n : (n <= 7)%nat -> forall m, matrix m -> matrix (ekl_rounds n m) /\
  forall r c, (r < 128)%nat -> (c < 128)%nat -> exists r' c', (r' < 128)%nat /\ (c' < 128)%nat /\
    bit (ekl_rounds n m) r c = bit m r' c' /\
    forall i, Nat.testbit r' i = (if (i <? n)%nat then Nat.testbit c i else Nat.testbit r i) /\
              Nat.testbit c' i = (if (i <? n)%nat then Nat.testbit r i else Nat.testbit c i).
Proof.
  induction n as [|s IH]; intros Hn m Hm; cbn [ekl_rounds].
  - split; [exact Hm|]. intros r c Hr Hc. exists r, c. do 3 (split; [assumption || reflexivity|]). intros i. now split.
  - destruct (IH ltac:(lia) _ (round_matrix s m ltac:(lia) Hm)) as [W B]. split; [exact W|]. intros r c Hr Hc.
    destruct (B r c Hr Hc) as (r1 & c1 & Hr1 & Hc1 & E & Bi). destruct (cross_lt s r1 c1 ltac:(lia) Hr1 Hc1) as [L1 L2].
    do 2 eexists. split; [exact L1|]. split; [exact L2|]. split; [rewrite E; apply round_bit; assumption || lia|].
    intros i. destruct (cross_bits s r1 c1 i) as [-> ->]. destruct (Bi i) as [-> ->].
    destruct (Nat.eqb_spec s i) as [<-|N].
    + rewrite Nat.ltb_irrefl, (proj2 (Nat.ltb_lt s (S s))) by lia. auto.
    + destruct (Nat.ltb_spec i s), (Nat.ltb_spec i (S s)); try lia; auto.
Qed.

Lemma bits_lt a i : (a < 128)%nat -> (7 <= i)%nat -> Nat.testbit a i = false.
Proof.
  intros Ha Hi. destruct (Nat.eq_dec a 0) as [->|N]; [apply Nat.bits_0|]. apply Nat.bits_above_log2.
  apply Nat.log2_lt_pow2; [lia|]. apply Nat.lt_le_trans with (2 ^ 7)%nat; [exact Ha|]. apply Nat.pow_le_mono_r; lia.
Qed.

Lemma EklundhTranspose128_ok m : matrix m -> EklundhTranspose128 m = transpose m.
Proof.
  intros Hm. rewrite Eklundh_rounds. destruct (ekl_rounds_bit 7 ltac:(lia) m Hm) as [W B].
  apply is_transpose; [exact W|]. intros r c Hr Hc. destruct (B r c Hr Hc) as (r' & c' & Hr' & Hc' & -> & Bi).
  assert (Er : r' = c).
  { apply Nat.bits_inj. intros i. destruct (Bi i) as [-> _]. destruct (Nat.ltb_spec i 7); [reflexivity|]. now rewrite !bits_lt. }
  assert (Ec : c' = r).
  { apply Nat.bits_inj. intros i. destruct (Bi i) as [_ ->]. destruct (Nat.ltb_spec i 7); [reflexivity|]. now rewrite !bits_lt. }
  now subst.
Qed.

(** ** Squares of 16 x 16 bits *)

Lemma u16_bit v i : (i < 16)%nat -> Z.testbit (uwrap 16 v) (Z.of_nat i) = Z.testbit v (Z.of_nat i).
Proof. intros H. unfold uwrap. apply Z.mod_pow2_bits_low. lia. Qed.

Lemma set_u16_bit x n v c : Z.testbit (set_u16 x n v) (Z.of_nat c)
  = if (c / 16 =? n)%nat then Z.testbit v (Z.of_nat (c mod 16)) else Z.testbit x (Z.of_nat c).
Proof.
  unfold set_u16. rewrite Z.lor_spec, Z.ldiff_spec, !Z.shiftl_spec by lia. change 0xffff with (Z.ones 16).
  pose proof (Nat.div_mod c 16 ltac:(lia)) as Ec. pose proof (Nat.mod_upper_bound c 16 ltac:(lia)) as Hm.
  destruct (Nat.eqb_spec (c / 16) n) as [<-|N].
  - replace (Z.of_nat c - 16 * Z.of_nat (c / 16)) with (Z.of_nat (c mod 16)) by lia.
    rewrite Z.ones_spec_low, u16_bit, andb_false_r by lia. reflexivity.
  - destruct (Z_lt_le_dec (Z.of_nat c - 16 * Z.of_nat n) 0) as [L|G].
    + rewrite !(Z.testbit_neg_r _ (Z.of_nat c - 16 * Z.of_nat n)) by exact L. now rewrite andb_true_r, orb_false_r.
    + assert (16 <= Z.of_nat c - 16 * Z.of_nat n) by nia.
      unfold uwrap. rewrite Z.ones_spec_high, Z.mod_pow2_bits_high by lia. now rewrite andb_true_r, orb_false_r.
Qed.

Lemma set_u16_in x n v : in128 x -> (n < 8)%nat -> in128 (set_u16 x n v).
Proof.
  intros [H0 H1] Hn. unfold set_u16, uwrap. pose proof (Z.mod_pos_bound v (2 ^ 16) ltac:(lia)) as V.
  assert (Hl : 0 <= v mod 2 ^ 16 [<<] (16 * Z.of_nat n) < 2 ^ 128).
  { rewrite Z.shiftl_mul_pow2 by lia. split; [apply Z.mul_nonneg_nonneg; lia|].
    apply Z.lt_le_trans with (2 ^ 16 * 2 ^ (16 * Z.of_nat n)); [apply Z.mul_lt_mono_pos_r; [apply Z.pow_pos_nonneg|]; lia|].
    rewrite <- Z.pow_add_r by lia. apply Z.pow_le_mono_r; lia. }
  rewrite <- Z.lxor_lor.
  - apply lxor_in128; [|exact Hl]. split; [apply Z.ldiff_nonneg; now left|]. apply Z.le_lt_trans with x; [|exact H1].
    apply Z.ldiff_le; [exact H0|]. apply Z.bits_inj'. intros i _. rewrite !Z.ldiff_spec, Z.bits_0.
    destruct (Z.testbit x i); [now rewrite andb_false_r|reflexivity].
  - apply Z.bits_inj'. intros i Hi. rewrite Z.land_spec, Z.ldiff_spec, !Z.shiftl_spec, Z.bits_0 by lia. change 0xffff with (Z.ones 16).
    destruct (Z_lt_le_dec (i - 16 * Z.of_nat n) 0) as [L|G]; [rewrite (Z.testbit_neg_r (v mod 2 ^ 16)) by exact L; apply andb_false_r|].
    destruct (Z_lt_le_dec (i - 16 * Z.of_nat n) 16).
    + rewrite Z.ones_spec_low by lia. now rewrite andb_false_r.
    + rewrite Z.mod_pow2_bits_high by lia. apply andb_false_r.
Qed.

(** Writes of 16-bit words into column [y]. *)
Definition put (y : nat) (out : list Z) (p : nat * Z) : list Z := upd out (fst p) (set_u16 (at_ out (fst p)) y (snd p)).

Lemma puts_length y ps : forall out, length (fold_left (put y) ps out) = length out.
Proof. induction ps as [|p ps IH]; intros out; [reflexivity|]. cbn [fold_left]. rewrite IH. apply length_upd. Qed.

Lemma puts_at y ps : forall out r, NoDup (map fst ps) -> Forall (fun p => (fst p < length out)%nat) ps ->
  (forall v, In (r, v) ps -> at_ (fold_left (put y) ps out) r = set_u16 (at_ out r) y v) /\
  (~ In r (map fst ps) -> at_ (fold_left (put y) ps out) r = at_ out r).
Proof.
  induction ps as [|[x w] ps IH]; intros out r ND F; [split; [contradiction|reflexivity]|].
  cbn [map fst] in ND. apply NoDup_cons_iff in ND as [Nx ND]. apply Forall_cons_iff in F as [Lx F]. cbn [fst] in Lx.
  cbn [fold_left]. set (out' := put y out (x, w)).
  assert (Lo : length out' = length out) by (unfold out', put; apply length_upd).
  destruct (IH out' r ND) as [I1 I2]; [now rewrite Lo|].
  assert (Ao : forall z, z <> x -> at_ out' z = at_ out z) by (intros z Hz; unfold out', put; cbn [fst]; now rewrite at_upd_ne by congruence).
  split.
  - intros v [E|H].
    + injection E as <- <-. rewrite I2 by exact Nx. unfold out', put. cbn [fst snd]. now rewrite at_upd_eq.
    + rewrite (I1 v H). f_equal. apply Ao. intros ->. apply Nx. apply in_map_iff. exists (x, v). now split.
  - intros H. rewrite I2 by (intros H'; apply H; now right). apply Ao. intros ->. apply H. now left.
Qed.

Lemma puts_matrix y ps : (y < 8)%nat -> forall out, matrix out -> matrix (fold_left (put y) ps out).
Proof.
  intros Hy. induction ps as [|p ps IH]; intros out Hm; [exact Hm|]. cbn [fold_left]. apply IH. apply matrix_upd; [exact Hm|].
  apply set_u16_in; [now apply matrix_row|exact Hy].
Qed.

(** *** Bytes, shifts and top bits *)

Lemma byte_of_bit x n t : (t < 8)%nat -> Z.testbit (byte_of x n) (Z.of_nat t) = Z.testbit x (Z.of_nat (8 * n + t)).
Proof.
  intros Ht. unfold byte_of, u8, uwrap. rewrite Z.mod_pow2_bits_low, Z.shiftr_spec by lia. f_equal. lia.
Qed.

Lemma le_val_bit l i t : Forall byte l -> (t < 8)%nat ->
  Z.testbit (le_val l) (Z.of_nat (8 * i + t)) = Z.testbit (nth i l 0) (Z.of_nat t).
Proof.
  intros F Ht. revert i; induction F as [|b l Hb F IH]; intros i; cbn [le_val].
  - rewrite Z.bits_0. destruct i; cbn [nth]; now rewrite Z.bits_0.
  - replace (b + 256 * le_val l) with (b + le_val l * 2 ^ 8) by (change (2 ^ 8) with 256; lia).
    pose proof (lor_add b (le_val l) 8 ltac:(lia) Hb) as E. rewrite <- E, Z.lor_spec, Z.shiftl_spec by lia. destruct i as [|i]; cbn [nth].
    + rewrite (Z.testbit_neg_r _ (Z.of_nat (8 * 0 + t) - 8)) by lia. rewrite orb_false_r. f_equal.
    + rewrite <- (Z.mod_small b (2 ^ 8)) at 1 by exact Hb. rewrite Z.mod_pow2_bits_high by lia. rewrite orb_false_l.
      replace (Z.of_nat (8 * S i + t) - 8) with (Z.of_nat (8 * i + t)) by lia. apply IH.
Qed.

(** Column [t] of 16 bytes. *)
Definition col_bits (x : Z) (t : nat) : Z := bits_val (map (fun l => Z.testbit x (Z.of_nat (8 * l + t))) (seq 0 16)).

Lemma slli_epi64_bit x s c : (s < 8)%nat -> (c < 128)%nat ->
  Z.testbit (slli_epi64 x (Z.of_nat s)) (Z.of_nat c) = (s <=? c mod 64)%nat && Z.testbit x (Z.of_nat (c - s)).
Proof.
  intros Hs Hc. unfold slli_epi64. rewrite MakeUint128_lxor by apply u64_in. unfold u64, uwrap. rewrite Z.lxor_spec, Z.shiftl_spec by lia.
  pose proof (Nat.div_mod c 64 ltac:(lia)) as Ec. pose proof (Nat.mod_upper_bound c 64 ltac:(lia)) as Hm.
  assert (D : (c / 64 = 0 \/ c / 64 = 1)%nat) by (pose proof (Nat.Div0.div_lt_upper_bound c 64 2 ltac:(lia)); lia).
  destruct D as [D|D]; rewrite D in Ec.
  - rewrite (Z.testbit_neg_r _ (Z.of_nat c - 64)) by lia. rewrite xorb_false_l, Z.mod_pow2_bits_low, Z.shiftl_spec by lia.
    destruct (Nat.leb_spec s (c mod 64)).
    + rewrite Z.mod_pow2_bits_low by lia. cbn [andb]. f_equal. lia.
    + now rewrite (Z.testbit_neg_r _ (Z.of_nat c - Z.of_nat s)) by lia.
  - rewrite (Z.mod_pow2_bits_high _ 64 (Z.of_nat c)) by lia. rewrite xorb_false_r, Z.mod_pow2_bits_low, Z.shiftl_spec by lia.
    destruct (Nat.leb_spec s (c mod 64)).
    + rewrite Z.shiftr_spec by lia. cbn [andb]. f_equal. lia.
    + now rewrite (Z.testbit_neg_r _ (Z.of_nat c - 64 - Z.of_nat s)) by lia.
Qed.

Lemma movemask_slli x s : (s < 8)%nat -> movemask_epi8 (slli_epi64 x (Z.of_nat s)) = col_bits x (7 - s).
Proof.
  intros Hs. unfold movemask_epi8, col_bits. f_equal. apply map_ext_in. intros l Hl. apply in_seq in Hl.
  replace (8 * Z.of_nat l + 7) with (Z.of_nat (8 * l + 7)) by lia. rewrite slli_epi64_bit by lia.
  pose proof (Nat.div_mod (8 * l + 7) 64 ltac:(lia)) as Ec. pose proof (Nat.mod_upper_bound (8 * l + 7) 64 ltac:(lia)) as Hm.
  destruct (Nat.leb_spec s ((8 * l + 7) mod 64)) as [_|G]; [cbn [andb]; do 2 f_equal; lia|lia].
Qed.

Lemma slli_0 x : in128 x -> slli_epi64 x 0 = x.
Proof.
  intros Hx. apply (bits_ext _ _ 128); [|exact Hx|].
  - change (2 ^ Z.of_nat 128) with (2 ^ 128). unfold slli_epi64. rewrite MakeUint128_lxor by apply u64_in. apply lxor_in128.
    + pose proof (u64_in ((x [>>] 64) [<<] 0)) as B. rewrite Z.shiftl_mul_pow2 by lia. unfold in64, in128 in *. lia.
    + pose proof (u64_in (u64 x [<<] 0)) as B. unfold in64, in128 in *. lia.
  - intros c Hc. pose proof (slli_epi64_bit x 0 c ltac:(lia) Hc) as E. change (Z.of_nat 0) with 0 in E. rewrite E. cbn [Nat.leb andb]. do 2 f_equal. lia.
Qed.

Lemma slli_in x s : in128 (slli_epi64 x s).
Proof.
  unfold slli_epi64. rewrite MakeUint128_lxor by apply u64_in. apply lxor_in128.
  - pose proof (u64_in ((x [>>] 64) [<<] s)) as B. rewrite Z.shiftl_mul_pow2 by lia. unfold in64, in128 in *. lia.
  - pose proof (u64_in (u64 x [<<] s)) as B. unfold in64, in128 in *. lia.
Qed.

Lemma slli_step x s : (s < 7)%nat -> slli_epi64 (slli_epi64 x (Z.of_nat s)) 1 = slli_epi64 x (Z.of_nat (S s)).
Proof.
  intros Hs. apply (bits_ext _ _ 128); [apply slli_in|apply slli_in|]. intros c Hc.
  pose proof (slli_epi64_bit (slli_epi64 x (Z.of_nat s)) 1 c ltac:(lia) Hc) as E. change (Z.of_nat 1) with 1 in E. rewrite E.
  rewrite (slli_epi64_bit x (S s)) by lia. pose proof (Nat.div_mod c 64 ltac:(lia)). pose proof (Nat.mod_upper_bound c 64 ltac:(lia)).
  destruct (Nat.leb_spec 1 (c mod 64)) as [H1|H1]; cbn [andb].
  - rewrite slli_epi64_bit by lia. replace ((c - 1) mod 64)%nat with (c mod 64 - 1)%nat.
    + replace (c - 1 - s)%nat with (c - S s)%nat by lia. f_equal. destruct (Nat.leb_spec s (c mod 64 - 1)), (Nat.leb_spec (S s) (c mod 64)); lia || reflexivity.
    + apply (Nat.mod_unique (c - 1) 64 (c / 64)); lia.
  - destruct (Nat.leb_spec (S s) (c mod 64)); [lia|reflexivity].
Qed.

(** *** Reading one square, writing its transposed one *)

Definition bits16 (m : list Z) (x y t : nat) : Z := bits_val (map (fun l => bit m (16 * x + l) (16 * y + t)) (seq 0 16)).

Lemma load_bits m x y t : (t < 16)%nat ->
  col_bits ((if (t <? 8)%nat then fst else snd) (sse_loadSubSquare m x y)) (t mod 8) = bits16 m x y t.
Proof.
  intros Ht. pose proof (Nat.div_mod t 8 ltac:(lia)) as Et. pose proof (Nat.mod_upper_bound t 8 ltac:(lia)) as Hm.
  unfold col_bits, bits16, sse_loadSubSquare. f_equal. apply map_ext_in. intros l Hl. apply in_seq in Hl.
  assert (F : forall k, Forall byte (map (fun l => byte_of (at_ m (16 * x + l)) k) (seq 0 16))).
  { intros k. apply Forall_forall. intros z Hz. apply in_map_iff in Hz as (i & <- & _). apply byte_u8. }
  assert (D : (t / 8 < 2)%nat) by (apply Nat.Div0.div_lt_upper_bound; lia).
  destruct (Nat.ltb_spec t 8) as [L|G]; cbn [fst snd]; rewrite le_val_bit by (apply F || lia);
    rewrite (nth_map_seq (fun l => byte_of (at_ m (16 * x + l)) _)) by lia; rewrite byte_of_bit by lia; unfold bit; do 2 f_equal; lia.
Qed.

(** What a routine has to write for a square read as two registers. *)
Definition square_puts (sub : list Z -> Z * Z -> nat -> nat -> list Z) : Prop :=
  forall out in_ x y, exists ps, sub out in_ x y = fold_left (put y) ps out /\
    NoDup (map fst ps) /\ (forall p, In p ps -> exists t, (t < 16)%nat /\ fst p = (16 * x + t)%nat) /\
    (in128 (fst in_) -> in128 (snd in_) -> forall t, (t < 16)%nat ->
       In ((16 * x + t)%nat, col_bits ((if (t <? 8)%nat then fst else snd) in_) (t mod 8)) ps).

Ltac rows_of_square :=
  repeat match goal with
  | |- NoDup _ => constructor
  | |- ~ In _ _ => cbn [In]; lia
  end.

Lemma sse_sub_puts x y in0 in1 n : forall a out,
  fst (fold_left (fun '(out, (in0, in1)) j =>
    let out := upd out (16 * x + 7 - j) (set_u16 (at_ out (16 * x + 7 - j)) y (movemask_epi8 in0)) in
    let out := upd out (16 * x + 15 - j) (set_u16 (at_ out (16 * x + 15 - j)) y (movemask_epi8 in1)) in
    (out, (slli_epi64 in0 1, slli_epi64 in1 1))) (seq a n)
    (out, (Nat.iter a (fun b => slli_epi64 b 1) in0, Nat.iter a (fun b => slli_epi64 b 1) in1)))
  = fold_left (put y) (flat_map (fun j => [((16 * x + 7 - j)%nat, movemask_epi8 (Nat.iter j (fun b => slli_epi64 b 1) in0));
                                           ((16 * x + 15 - j)%nat, movemask_epi8 (Nat.iter j (fun b => slli_epi64 b 1) in1))]) (seq a n)) out.
Proof. induction n as [|n IH]; intros a out; [reflexivity|]. cbn [seq fold_left flat_map app]. apply (IH (S a)). Qed.

Lemma sse_square : square_puts sse_transposeSubSquare.
Proof.
  intros out [in0 in1] x y.
  exists (flat_map (fun j => [((16 * x + 7 - j)%nat, movemask_epi8 (Nat.iter j (fun b => slli_epi64 b 1) in0));
                              ((16 * x + 15 - j)%nat, movemask_epi8 (Nat.iter j (fun b => slli_epi64 b 1) in1))]) (seq 0 8)).
  split; [exact (sse_sub_puts x y in0 in1 8 0 out)|]. split; [cbn [flat_map seq app map fst]; rows_of_square|]. split.
  - intros p Hp. apply in_flat_map in Hp as (j & Hj & [<-|[<-|[]]]); apply in_seq in Hj; [exists (7 - j)%nat|exists (15 - j)%nat]; cbn [fst]; lia.
  - cbn [fst snd]. intros I0 I1 t Ht.
    assert (It : forall z, in128 z -> forall j, (j < 8)%nat -> Nat.iter j (fun b => slli_epi64 b 1) z = slli_epi64 z (Z.of_nat j)).
    { intros z Iz. induction j as [|j IH]; intros Hj; [symmetry; now apply slli_0|].
      change (slli_epi64 (Nat.iter j (fun b => slli_epi64 b 1) z) 1 = slli_epi64 z (Z.of_nat (S j))).
      rewrite IH by lia. apply slli_step. lia. }
    apply in_flat_map. exists (7 - t mod 8)%nat. pose proof (Nat.div_mod t 8 ltac:(lia)) as Et.
    pose proof (Nat.mod_upper_bound t 8 ltac:(lia)) as Hm.
    assert (D : (t / 8 < 2)%nat) by (apply Nat.Div0.div_lt_upper_bound; lia).
    split; [apply in_seq; lia|]. rewrite !It, !movemask_slli by (assumption || lia).
    replace (7 - (7 - t mod 8))%nat with (t mod 8)%nat by lia.
    destruct (Nat.ltb_spec t 8); [left|right; left]; f_equal; lia.
Qed.

(** The same for the unrolled routine on rows of blocks, seen on one block column. *)
Definition sse_subx (out : list Z) (in_ : Z * Z) (x y : nat) : list Z :=
  let out := fold_left (fun out s => put y out ((x * 16 + 7 - s)%nat, movemask_epi8 (slli_epi64 (fst in_) (Z.of_nat s)))) (seq 0 8) out in
  fold_left (fun out s => put y out ((x * 16 + 15 - s)%nat, movemask_epi8 (slli_epi64 (snd in_) (Z.of_nat s)))) (seq 0 8) out.

Lemma ssex_square : square_puts sse_subx.
Proof.
  intros out [in0 in1] x y.
  set (f0 := fun s => ((x * 16 + 7 - s)%nat, movemask_epi8 (slli_epi64 in0 (Z.of_nat s)))).
  set (f1 := fun s => ((x * 16 + 15 - s)%nat, movemask_epi8 (slli_epi64 in1 (Z.of_nat s)))).
  exists (map f0 (seq 0 8) ++ map f1 (seq 0 8)). split.
  { rewrite fold_left_app, <- (fold_left_map (put y) f0), <- (fold_left_map (put y) f1). reflexivity. }
  split; [cbn [seq app map]; unfold f0, f1; cbn [fst]; rows_of_square|]. split.
  - intros p Hp. apply in_app_iff in Hp as [Hp|Hp]; apply in_map_iff in Hp as (j & <- & Hj); apply in_seq in Hj;
      [exists (7 - j)%nat|exists (15 - j)%nat]; unfold f0, f1; cbn [fst]; lia.
  - cbn [fst snd]. intros I0 I1 t Ht. pose proof (Nat.div_mod t 8 ltac:(lia)) as Et.
    pose proof (Nat.mod_upper_bound t 8 ltac:(lia)) as Hm.
    assert (D : (t / 8 < 2)%nat) by (apply Nat.Div0.div_lt_upper_bound; lia).
    apply in_app_iff. destruct (Nat.ltb_spec t 8); [left|right]; apply in_map_iff; exists (7 - t mod 8)%nat;
      (split; [unfold f0, f1; rewrite movemask_slli by lia; f_equal; [lia|f_equal; lia]|apply in_seq; lia]).
Qed.

(** *** The loops over the squares *)

Section Squares.
Context (sub : list Z -> Z * Z -> nat -> nat -> list Z) (sub_ok : square_puts sub).

Lemma load_in m x y : in128 (fst (sse_loadSubSquare m x y)) /\ in128 (snd (sse_loadSubSquare m x y)).
Proof.
  assert (H : forall k, in128 (le_val (map (fun l => byte_of (at_ m (16 * x + l)) k) (seq 0 16)))).
  { intros k. pose proof (le_val_bound (map (fun l => byte_of (at_ m (16 * x + l)) k) (seq 0 16))) as B.
    rewrite length_map, length_seq in B. apply B. apply Forall_forall. intros z Hz. apply in_map_iff in Hz as (i & <- & _). apply byte_u8. }
  split; apply H.
Qed.

Lemma square_bit m out x y x' y' : matrix out -> (x < 8)%nat -> (y < 8)%nat ->
  matrix (sub out (sse_loadSubSquare m x' y') x y) /\
  forall r c, (r < 128)%nat -> (c < 128)%nat ->
    bit (sub out (sse_loadSubSquare m x' y') x y) r c =
      if (r / 16 =? x)%nat && (c / 16 =? y)%nat then bit m (16 * x' + c mod 16) (16 * y' + r mod 16) else bit out r c.
Proof.
  intros Ho Hx Hy. destruct (sub_ok out (sse_loadSubSquare m x' y') x y) as (ps & -> & ND & R & W).
  destruct (load_in m x' y') as [I0 I1]. specialize (W I0 I1). split; [now apply puts_matrix|]. intros r c Hr Hc.
  pose proof (Nat.div_mod r 16 ltac:(lia)) as Er. pose proof (Nat.mod_upper_bound r 16 ltac:(lia)) as Hm.
  pose proof (Nat.mod_upper_bound c 16 ltac:(lia)) as Hn.
  destruct (puts_at y ps out r ND) as [P1 P2].
  { apply Forall_forall. intros p Hp. destruct (R p Hp) as (t & Ht & ->). destruct Ho as [-> _]. lia. }
  unfold bit at 1. destruct (Nat.eqb_spec (r / 16) x) as [E|N]; cbn [andb].
  - pose proof (W (r mod 16)%nat Hm) as Hin. replace (16 * x + r mod 16)%nat with r in Hin by lia.
    rewrite (P1 _ Hin), set_u16_bit. destruct (Nat.eqb_spec (c / 16) y); [|reflexivity].
    rewrite load_bits by exact Hm. unfold bits16. rewrite bits_val_bit.
    rewrite (nth_map_seq (fun l => bit m (16 * x' + l) (16 * y' + r mod 16))) by exact Hn. reflexivity.
  - rewrite P2; [reflexivity|]. intros Hin. apply in_map_iff in Hin as (p & Ep & Hp). destruct (R p Hp) as (t & Ht & Et).
    apply N. rewrite <- Ep, Et. symmetry. apply (Nat.div_unique _ 16 x t); lia.
Qed.

(** The squares in [D] are transposed, the others as they were. *)
Definition shape (m : list Z) (D : nat -> nat -> bool) (m' : list Z) : Prop :=
  matrix m' /\ forall r c, (r < 128)%nat -> (c < 128)%nat ->
    bit m' r c = if D (r / 16)%nat (c / 16)%nat then bit m c r else bit m r c.

Lemma shape_ext m D D' m' : (forall p q, (p < 8)%nat -> (q < 8)%nat -> D p q = D' p q) -> shape m D m' -> shape m D' m'.
Proof.
  intros H [W B]. split; [exact W|]. intros r c Hr Hc. rewrite <- H; [now apply B|apply Nat.Div0.div_lt_upper_bound; lia..].
Qed.

Lemma square_index p t : (t < 16)%nat -> ((16 * p + t) / 16 = p)%nat /\ ((16 * p + t) mod 16 = t)%nat.
Proof. intros Ht. split; [symmetry; apply (Nat.div_unique _ 16 p t)|symmetry; apply (Nat.mod_unique _ 16 p t)]; lia. Qed.

(** The squares (j, k) and (k, j), read before either is written; for k = j the
    second write repeats nothing. *)
Lemma pair_step m D m' j k : (j < 8)%nat -> (k < 8)%nat -> D j k = false -> D k j = false -> shape m D m' ->
  let a := sse_loadSubSquare m' k j in
  let b := sse_loadSubSquare m' j k in
  shape m (fun p q => D p q || ((p =? j) && (q =? k)) || ((p =? k) && (q =? j)))%nat
    (if (j =? k)%nat then sub m' a j k else sub (sub m' a j k) b k j).
Proof.
  intros Hj Hk Djk Dkj [W B]. cbv zeta.
  destruct (square_bit m' m' j k k j W Hj Hk) as [W1 B1].
  destruct (square_bit m' (sub m' (sse_loadSubSquare m' k j) j k) k j j k W1 Hk Hj) as [W2 B2].
  assert (T : forall r c, (r < 128)%nat -> (c < 128)%nat -> forall p q, (r / 16 = p)%nat -> (c / 16 = q)%nat -> (p < 8)%nat -> (q < 8)%nat ->
             D q p = false -> bit m' (16 * q + c mod 16) (16 * p + r mod 16) = bit m c r).
  { intros r c Hr Hc p q Ep Eq Hp Hq Dqp. pose proof (Nat.div_mod r 16 ltac:(lia)) as Er. pose proof (Nat.div_mod c 16 ltac:(lia)) as Ec.
    rewrite <- Ep, <- Eq, <- Er, <- Ec. rewrite B by assumption. now rewrite Eq, Ep, Dqp. }
  split; [now destruct (j =? k)%nat|]. intros r c Hr Hc.
  pose proof (B1 r c Hr Hc) as X1. pose proof (B2 r c Hr Hc) as X2. pose proof (B r c Hr Hc) as X. rewrite X in X1. rewrite X1 in X2.
  destruct (Nat.eqb_spec j k) as [E|N].
  - subst k. rewrite X1. destruct (Nat.eqb_spec (r / 16) j), (Nat.eqb_spec (c / 16) j); cbn [andb]; rewrite ?orb_false_r, ?orb_true_r; try reflexivity.
    now apply (T r c Hr Hc j j).
  - rewrite X2. destruct (Nat.eqb_spec (r / 16) j), (Nat.eqb_spec (c / 16) k), (Nat.eqb_spec (r / 16) k), (Nat.eqb_spec (c / 16) j);
      cbn [andb]; rewrite ?orb_false_r, ?orb_true_r; try reflexivity; try lia.
    + now apply (T r c Hr Hc j k).
    + now apply (T r c Hr Hc k j).
Qed.

Definition sse_loops (m : list Z) : list Z :=
  fold_left (fun mtx j =>
    let a := sse_loadSubSquare mtx j j in
    let mtx := sub mtx a j j in
    fold_left (fun mtx k =>
      let a := sse_loadSubSquare mtx k j in
      let b := sse_loadSubSquare mtx j k in
      let mtx := sub mtx a j k in
      sub mtx b k j) (seq 0 j) mtx) (seq 0 8) m.

(** Done before row j of squares: both coordinates below j. *)
Definition done (j : nat) (p q : nat) : bool := ((p <? j) && (q <? j))%nat.
(** Within it: the diagonal square and the pairs before k. *)
Definition done_row (j k : nat) (p q : nat) : bool :=
  (done j p q || ((p =? j) && (q =? j)) || ((p =? j) && (q <? k)) || ((q =? j) && (p <? k)))%nat.

Lemma sse_row m j : (j < 8)%nat -> forall n m', (n <= j)%nat -> shape m (done_row j 0) m' ->
  shape m (done_row j n) (fold_left (fun mtx k =>
      let a := sse_loadSubSquare mtx k j in
      let b := sse_loadSubSquare mtx j k in
      let mtx := sub mtx a j k in
      sub mtx b k j) (seq 0 n) m').
Proof.
  intros Hj. induction n as [|n IH]; intros m' Hn S0; [exact S0|].
  rewrite seq_S, fold_left_app. cbn [fold_left]. rewrite Nat.add_0_l. specialize (IH m' ltac:(lia) S0).
  set (mm := fold_left _ (seq 0 n) m') in *. unfold done_row, done in IH.
  assert (F : forall p q, (p = j /\ q = n) \/ (p = n /\ q = j) -> done_row j n p q = false).
  { unfold done_row, done. intros p q [[-> ->]|[-> ->]];
      rewrite ?Nat.ltb_irrefl, ?(proj2 (Nat.eqb_neq n j)), ?(proj2 (Nat.ltb_ge j n)) by lia; cbn [andb orb]; rewrite ?andb_false_r; reflexivity. }
  pose proof (pair_step m (done_row j n) mm j n Hj ltac:(lia) (F j n ltac:(auto)) (F n j ltac:(auto)) IH) as St. cbv zeta in St.
  rewrite (proj2 (Nat.eqb_neq j n)) in St by lia. revert St. apply shape_ext. intros p q _ _. unfold done_row, done.
  destruct (Nat.ltb_spec p j), (Nat.ltb_spec q j), (Nat.eqb_spec p j), (Nat.eqb_spec q j), (Nat.ltb_spec q n), (Nat.ltb_spec p n),
    (Nat.ltb_spec q (S n)), (Nat.ltb_spec p (S n)), (Nat.eqb_spec p n), (Nat.eqb_spec q n); cbn [andb orb]; lia || reflexivity.
Qed.

Lemma sse_loops_ok m : matrix m -> sse_loops m = transpose m.
Proof.
  intros Hm.
  assert (G : forall n, (n <= 8)%nat -> shape m (done n) (fold_left (fun mtx j =>
    let a := sse_loadSubSquare mtx j j in
    let mtx := sub mtx a j j in
    fold_left (fun mtx k =>
      let a := sse_loadSubSquare mtx k j in
      let b := sse_loadSubSquare mtx j k in
      let mtx := sub mtx a j k in
      sub mtx b k j) (seq 0 j) mtx) (seq 0 n) m)).
  { induction n as [|n IH]; intros Hn; [split; [exact Hm|reflexivity]|].
    rewrite seq_S, fold_left_app. cbn [fold_left]. rewrite Nat.add_0_l. specialize (IH ltac:(lia)). set (mm := fold_left _ (seq 0 n) m) in *.
    assert (F : done n n n = false) by (unfold done; now rewrite Nat.ltb_irrefl).
    pose proof (pair_step m (done n) mm n n ltac:(lia) ltac:(lia) F F IH) as St. cbv zeta in St. rewrite Nat.eqb_refl in St.
    assert (S0 : shape m (done_row n 0) (sub mm (sse_loadSubSquare mm n n) n n)).
    { revert St. apply shape_ext. intros p q _ _. unfold done_row. cbn [Nat.ltb Nat.leb]. rewrite !andb_false_r, !orb_false_r.
      now destruct (done n p q), ((p =? n)%nat && (q =? n)%nat). }
    pose proof (sse_row m n ltac:(lia) n _ ltac:(lia) S0) as R. revert R. apply shape_ext. intros p q _ _. unfold done_row, done.
    destruct (Nat.ltb_spec p n), (Nat.ltb_spec q n), (Nat.eqb_spec p n), (Nat.eqb_spec q n), (Nat.ltb_spec p (S n)), (Nat.ltb_spec q (S n));
      cbn [andb orb]; lia || reflexivity. }
  destruct (G 8%nat ltac:(lia)) as [W B]. apply is_transpose; [exact W|]. intros r c Hr Hc. fold (sse_loops m) in B. rewrite B by assumption.
  assert (D : forall z, (z < 128)%nat -> (z / 16 <? 8)%nat = true) by (intros z Hz; apply Nat.ltb_lt, Nat.Div0.div_lt_upper_bound; lia).
  unfold done. now rewrite !D.
Qed.
End Squares.

Lemma SseTranspose128_ok m : matrix m -> SseTranspose128 m = transpose m.
Proof. intros Hm. rewrite <- (sse_loops_ok _ sse_square m Hm). unfold SseTranspose128, sse_loops. reflexivity. Qed.

Lemma MatrixTranspose128_ok sse2 m : matrix m -> MatrixTranspose128 sse2 m = transpose m.
Proof. intros Hm. unfold MatrixTranspose128. destruct sse2; [now apply SseTranspose128_ok|now apply EklundhTranspose128_ok]. Qed.

(** ** Rows of eight blocks *)

Definition wide (m : list (list Z)) : Prop := length m = 128%nat /\ Forall (fun row => length row = 8%nat /\ Forall in128 row) m.
(** Block column [i], a matrix of its own. *)
Definition col (i : nat) (m : list (list Z)) : list Z := map (fun j => block_at m j i) (seq 0 128).

Lemma wide_row m r : wide m -> (r < 128)%nat -> length (nth r m []) = 8%nat /\ Forall in128 (nth r m []).
Proof. intros [L F] Hr. rewrite Forall_forall in F. apply F, nth_In. lia. Qed.

Lemma wide_block m r b : wide m -> in128 (block_at m r b).
Proof.
  intros [L F]. unfold block_at, at_. assert (Z0 : in128 0) by (split; [lia|reflexivity]).
  destruct (Nat.lt_ge_cases r (length m)) as [Hr|Hr]; [|rewrite (nth_overflow m) by exact Hr; now destruct b].
  rewrite Forall_forall in F. destruct (F _ (nth_In m [] Hr)) as [Lr Fr].
  destruct (Nat.lt_ge_cases b (length (nth r m []))) as [Hb|Hb]; [|now rewrite nth_overflow].
  rewrite Forall_forall in Fr. now apply Fr, nth_In.
Qed.

Lemma set_block_ok m r b v : wide m -> (r < 128)%nat -> (b < 8)%nat -> in128 v -> wide (set_block_at m r b v) /\
  forall r' b', block_at (set_block_at m r b v) r' b' = if (r =? r')%nat && (b =? b')%nat then v else block_at m r' b'.
Proof.
  intros Hm Hr Hb Hv. destruct (wide_row m r Hm Hr) as [Lr Fr]. destruct Hm as [L F]. unfold set_block_at. split.
  - split; [now rewrite length_upd|]. apply Forall_upd; [exact F|]. split; [now rewrite length_upd|now apply Forall_upd].
  - intros r' b'. unfold block_at. rewrite nth_upd, (proj2 (Nat.ltb_lt r (length m))), andb_true_r by lia.
    destruct (Nat.eqb_spec r r') as [<-|N]; cbn [andb]; [|reflexivity].
    unfold at_. rewrite nth_upd, (proj2 (Nat.ltb_lt b _)), andb_true_r by lia. reflexivity.
Qed.

Lemma col_matrix i m : wide m -> matrix (col i m).
Proof. intros Hm. apply matrix_map. intros j _. now apply wide_block. Qed.

Lemma col_at i m r : (r < 128)%nat -> at_ (col i m) r = block_at m r i.
Proof. intros Hr. now apply (at_map_seq (fun j => block_at m j i)). Qed.

Lemma at_ext (a b : list Z) n : length a = n -> length b = n -> (forall i, (i < n)%nat -> at_ a i = at_ b i) -> a = b.
Proof. intros La Lb H. apply (nth_ext a b 0 0); [congruence|]. intros i Hi. apply H. lia. Qed.

Lemma col_length i m : length (col i m) = 128%nat.
Proof. unfold col. now rewrite length_map, length_seq. Qed.

(** A write into column [i] is seen in that column only. *)
Lemma col_set i i' m r v : wide m -> (r < 128)%nat -> (i < 8)%nat -> in128 v ->
  col i' (set_block_at m r i v) = if (i =? i')%nat then upd (col i' m) r v else col i' m.
Proof.
  intros Hm Hr Hi Hv. destruct (set_block_ok m r i v Hm Hr Hi Hv) as [_ B].
  apply (at_ext _ _ 128); [apply col_length|destruct (i =? i')%nat; rewrite ?length_upd; apply col_length|]. intros k Hk.
  rewrite col_at, B by exact Hk. destruct (Nat.eqb_spec i i') as [<-|N].
  - rewrite andb_true_r. unfold at_. rewrite nth_upd, col_length, (proj2 (Nat.ltb_lt r 128)), andb_true_r by exact Hr.
    destruct (r =? k)%nat; [reflexivity|]. symmetry. now apply col_at.
  - rewrite andb_false_r. symmetry. now apply col_at.
Qed.

(** Two runs of loops over the same list, related step by step. *)
Lemma fold_left_rel {A B C} (R : A -> B -> Prop) (f : A -> C -> A) (g : B -> C -> B) l :
  (forall a b x, In x l -> R a b -> R (f a x) (g b x)) -> forall a b, R a b -> R (fold_left f l a) (fold_left g l b).
Proof.
  induction l as [|x l IH]; intros H a b Hab; [exact Hab|]. cbn [fold_left]. apply IH; [intros; apply H; auto; now right|].
  apply H; [now left|exact Hab].
Qed.

(** Column [i] of [M] is [m], the others are those of [M0]. *)
Definition on_col (i : nat) (M0 : list (list Z)) (m : list Z) (M : list (list Z)) : Prop :=
  wide M /\ col i M = m /\ forall i', i' <> i -> (i' < 8)%nat -> col i' M = col i' M0.

Lemma on_col_set i M0 m M r v : (i < 8)%nat -> (r < 128)%nat -> in128 v -> on_col i M0 m M ->
  on_col i M0 (upd m r v) (set_block_at M r i v).
Proof.
  intros Hi Hr Hv (W & E & O). split; [now apply set_block_ok|]. split.
  - rewrite col_set, Nat.eqb_refl, E by assumption. reflexivity.
  - intros i' N Hi'. rewrite col_set by assumption. destruct (Nat.eqb_spec i i'); [congruence|]. now apply O.
Qed.

(** The result of working on the columns one after the other. *)
Lemma columns_loop (f : nat -> list (list Z) -> list (list Z)) (g : list Z -> list Z) :
  (forall i M0 m M, (i < 8)%nat -> matrix m -> on_col i M0 m M -> on_col i M0 (g m) (f i M)) ->
  forall M, wide M -> wide (fold_left (fun M i => f i M) (seq 0 8) M) /\
    forall i, (i < 8)%nat -> col i (fold_left (fun M i => f i M) (seq 0 8) M) = g (col i M).
Proof.
  intros H M HM.
  assert (G : forall n, (n <= 8)%nat -> wide (fold_left (fun M i => f i M) (seq 0 n) M) /\
    forall i, (i < 8)%nat -> col i (fold_left (fun M i => f i M) (seq 0 n) M) = if (i <? n)%nat then g (col i M) else col i M).
  { induction n as [|n IH]; intros Hn; [split; [exact HM|reflexivity]|]. destruct (IH ltac:(lia)) as [W C].
    rewrite seq_S, fold_left_app. cbn [fold_left]. rewrite Nat.add_0_l. set (Mn := fold_left _ (seq 0 n) M) in *.
    destruct (H n Mn (col n Mn) Mn ltac:(lia) (col_matrix n Mn W)) as (W' & E & O).
    { split; [exact W|]. split; reflexivity. }
    split; [exact W'|]. intros i Hi. destruct (Nat.eq_dec i n) as [->|N].
    - rewrite E, C by lia. rewrite Nat.ltb_irrefl, (proj2 (Nat.ltb_lt n (S n))) by lia. reflexivity.
    - rewrite O, C by assumption. destruct (Nat.ltb_spec i n), (Nat.ltb_spec i (S n)); lia || reflexivity. }
  destruct (G 8%nat ltac:(lia)) as [W C]. split; [exact W|]. intros i Hi. rewrite C by exact Hi. now rewrite (proj2 (Nat.ltb_lt i 8)).
Qed.

Lemma Eklundh_wide M : wide M -> wide (EklundhTranspose128x1024 M) /\
  forall i, (i < 8)%nat -> col i (EklundhTranspose128x1024 M) = transpose (col i M).
Proof.
  apply (columns_loop (fun i inout =>
    let sub := map (fun j => block_at inout j i) (seq 0 128) in
    let sub := EklundhTranspose128 sub in
    fold_left (fun inout j => set_block_at inout j i (at_ sub j)) (seq 0 128) inout) transpose).
  intros i M0 m M' Hi Hm (W & E & O). cbv zeta. fold (col i M'). rewrite E, EklundhTranspose128_ok by exact Hm.
  assert (R : on_col i M0 (fold_left (fun a j => upd a j (at_ (transpose m) j)) (seq 0 128) m)
                (fold_left (fun inout j => set_block_at inout j i (at_ (transpose m) j)) (seq 0 128) M')).
  { apply (fold_left_rel (on_col i M0)); [|exact (conj W (conj E O))]. intros a b j Hj Hab. apply in_seq in Hj.
    apply on_col_set; [exact Hi|lia|apply matrix_row, transpose_matrix|exact Hab]. }
  rewrite (fold_upd (fun j => at_ (transpose m) j)), skipn_all2, app_nil_r in R by (destruct Hm as [-> _]; lia).
  change (map (fun j => at_ (transpose m) j) (seq 0 128)) with (map (at_ (transpose m)) (seq 0 128)) in R.
  pose proof (at_seq (transpose m)) as A'. rewrite (proj1 (transpose_matrix m)) in A'. rewrite A' in R. exact R.
Qed.

(** The views of row [r] at block column [i]. *)
Lemma row_byte_col m r i n : (r < 128)%nat -> (n < 16)%nat -> row_byte m r (i * 16 + n) = byte_of (at_ (col i m) r) n.
Proof.
  intros Hr Hn. unfold row_byte. rewrite col_at by exact Hr. rewrite (Nat.mul_comm i 16).
  f_equal; [f_equal; symmetry; apply (Nat.div_unique _ 16 i n)|symmetry; apply (Nat.mod_unique _ 16 i n)]; lia.
Qed.

Lemma set_row_u16_col m r i n v : (n < 8)%nat -> set_row_u16 m r (i * 8 + n) v = set_block_at m r i (set_u16 (block_at m r i) n v).
Proof.
  intros Hn. unfold set_row_u16. rewrite (Nat.mul_comm i 8). rewrite <- (Nat.div_unique (8 * i + n) 8 i n), <- (Nat.mod_unique (8 * i + n) 8 i n) by lia.
  reflexivity.
Qed.

Lemma load_col m x y i : (x < 8)%nat -> (y < 8)%nat -> SseLoadSubSquarex m x y i = sse_loadSubSquare (col i m) x y.
Proof.
  intros Hx Hy. unfold SseLoadSubSquarex, sse_loadSubSquare. cbv zeta.
  f_equal; f_equal; apply map_ext_in; intros l Hl; apply in_seq in Hl; rewrite ?(Nat.mul_comm x 16), <- ?Nat.add_assoc; apply row_byte_col; lia.
Qed.

Lemma on_col_put i M0 m M y p : (i < 8)%nat -> (fst p < 128)%nat -> (y < 8)%nat -> on_col i M0 m M ->
  on_col i M0 (put y m p) (set_row_u16 M (fst p) (i * 8 + y) (snd p)).
Proof.
  intros Hi Hr Hy H. rewrite set_row_u16_col by exact Hy. unfold put. pose proof H as (W & E & _).
  rewrite <- E, col_at by exact Hr. rewrite E. apply on_col_set; [exact Hi|exact Hr| |exact H].
  apply set_u16_in; [now apply wide_block|exact Hy].
Qed.

Lemma on_col_sub i M0 m M in_ x y : (i < 8)%nat -> (x < 8)%nat -> (y < 8)%nat -> on_col i M0 m M ->
  on_col i M0 (sse_subx m in_ x y) (SseTransposeSubSquarex M in_ x y i).
Proof.
  intros Hi Hx Hy H. unfold sse_subx, SseTransposeSubSquarex. cbv zeta.
  apply (fold_left_rel (on_col i M0)).
  - intros a b s Hs Hab. apply in_seq in Hs. apply (on_col_put i M0 a b y (_, _)); [exact Hi|cbn [fst]; lia|exact Hy|exact Hab].
  - apply (fold_left_rel (on_col i M0)); [|exact H].
    intros a b s Hs Hab. apply in_seq in Hs. apply (on_col_put i M0 a b y (_, _)); [exact Hi|cbn [fst]; lia|exact Hy|exact Hab].
Qed.

Lemma SseTranspose_wide M : wide M -> wide (SseTranspose128x1024 M) /\
  forall i, (i < 8)%nat -> col i (SseTranspose128x1024 M) = transpose (col i M).
Proof.
  apply (columns_loop (fun i inout =>
    fold_left (fun inout j =>
      let a := SseLoadSubSquarex inout j j i in
      let inout := SseTransposeSubSquarex inout a j j i in
      fold_left (fun inout k =>
        let a := SseLoadSubSquarex inout k j i in
        let b := SseLoadSubSquarex inout j k i in
        let inout := SseTransposeSubSquarex inout a j k i in
        SseTransposeSubSquarex inout b k j i) (seq 0 j) inout) (seq 0 8) inout) transpose).
  intros i M0 m M' Hi Hm H. rewrite <- (sse_loops_ok _ ssex_square m Hm). unfold sse_loops.
  apply (fold_left_rel (on_col i M0)); [|exact H]. intros a b j Hj Hab. apply in_seq in Hj. cbv zeta.
  assert (L : forall a b x y, (x < 8)%nat -> (y < 8)%nat -> on_col i M0 a b -> SseLoadSubSquarex b x y i = sse_loadSubSquare a x y).
  { intros a' b' x y Hx Hy (_ & <- & _). now apply load_col. }
  apply (fold_left_rel (on_col i M0)).
  - intros a' b' k Hk Hab'. apply in_seq in Hk. rewrite !(L a' b') by (assumption || lia). repeat apply on_col_sub; assumption || lia.
  - rewrite (L a b) by (assumption || lia). apply on_col_sub; assumption || lia.
Qed.

Lemma MatrixTranspose_wide sse2 M : wide M -> wide (MatrixTranspose128x1024 sse2 M) /\
  forall i, (i < 8)%nat -> col i (MatrixTranspose128x1024 sse2 M) = transpose (col i M).
Proof. unfold MatrixTranspose128x1024. destruct sse2; [apply SseTranspose_wide|apply Eklundh_wide]. Qed.
