(* ===== verification/Gf2x.v ===== *)
(** Polynomials over GF(2) as non-negative integers, bit i being the coefficient
    of X^i: addition is [Z.lxor], [pmul] is the product without carries.  Ring
    laws, degrees, and division with remainder by a polynomial, up to uniqueness. *)
From Stdlib Require Import ZArith Lia List Bool Setoid Morphisms.
From S2P Require Import Prelude.
From S2P Require Import Int128.
Import ListNotations.

(** ** The product *)

Fixpoint pmul_pos (a : Z) (p : positive) : Z :=
  match p with
  | xH => a
  | xO p => (pmul_pos a p) [<<] 1
  | xI p => Z.lxor a ((pmul_pos a p) [<<] 1)
  end.
Definition pmul (a b : Z) : Z := match b with Z0 => 0 | Zpos p => pmul_pos a p | Zneg _ => 0 end.

Lemma lxor_shl a b k : Z.lxor a b [<<] k = Z.lxor (a [<<] k) (b [<<] k).
Proof. apply Z.shiftl_lxor. Qed.

(** [b = 2 b' + c] *)
Lemma pmul_bit a b c : 0 <= b -> pmul a (2 * b + Z.b2z c) = Z.lxor (if c then a else 0) (pmul a b [<<] 1).
Proof.
  intros Hb. destruct b as [|b|b]; [| |lia]; destruct c.
  - change (a = Z.lxor a 0). now rewrite Z.lxor_0_r.
  - reflexivity.
  - reflexivity.
  - change (pmul_pos a b [<<] 1 = Z.lxor 0 (pmul_pos a b [<<] 1)). now rewrite Z.lxor_0_l.
Qed.

(** Induction on the bits of a number. *)
Lemma bits_ind (P : Z -> Prop) : P 0 -> (forall b c, 0 <= b -> P b -> P (2 * b + Z.b2z c)) -> forall b, 0 <= b -> P b.
Proof.
  intros H0 HS b Hb. destruct b as [|p|p]; [exact H0| |lia]. induction p as [p IH|p IH|].
  - change (Zpos p~1) with (2 * Zpos p + Z.b2z true). apply HS; [|apply IH]; lia.
  - change (Zpos p~0) with (2 * Zpos p + Z.b2z false). apply HS; [|apply IH]; lia.
  - apply (HS 0 true); [lia|exact H0].
Qed.

Lemma pmul_0_r a : pmul a 0 = 0.
Proof. reflexivity. Qed.

Lemma pmul_1_r a : pmul a 1 = a.
Proof. reflexivity. Qed.

Lemma pmul_nonneg a b : 0 <= a -> 0 <= pmul a b.
Proof.
  intros Ha. destruct b as [|p|p]; cbn [pmul]; try lia. induction p as [p IH|p IH|]; cbn [pmul_pos]; [| |exact Ha].
  - apply Z.lxor_nonneg. rewrite Z.shiftl_nonneg. lia.
  - now apply Z.shiftl_nonneg.
Qed.

Lemma pmul_0_l b : pmul 0 b = 0.
Proof. destruct b as [|p|p]; try reflexivity. cbn. induction p as [p IH|p IH|]; cbn [pmul_pos]; rewrite ?IH; reflexivity. Qed.

Lemma lxor_swap a b c d : Z.lxor (Z.lxor a b) (Z.lxor c d) = Z.lxor (Z.lxor a c) (Z.lxor b d).
Proof. apply Z.bits_inj'. intros n _. rewrite !Z.lxor_spec. now destruct (Z.testbit a n), (Z.testbit b n), (Z.testbit c n), (Z.testbit d n). Qed.

Lemma pmul_lxor_l a b c : 0 <= c -> pmul (Z.lxor a b) c = Z.lxor (pmul a c) (pmul b c).
Proof.
  intros Hc. revert c Hc. apply bits_ind; [reflexivity|]. intros c d Hc IH. rewrite !pmul_bit, IH, lxor_shl, lxor_swap by exact Hc.
  f_equal. now destruct d.
Qed.

Lemma pmul_shl_l a c : 0 <= c -> pmul (a [<<] 1) c = pmul a c [<<] 1.
Proof.
  intros Hc. revert c Hc. apply bits_ind; [reflexivity|]. intros c d Hc IH. rewrite !pmul_bit, IH, lxor_shl by exact Hc.
  f_equal. now destruct d.
Qed.

Lemma double_shl b c : 0 <= b -> 2 * b + Z.b2z c = Z.lxor (Z.b2z c) (b [<<] 1).
Proof.
  intros Hb. rewrite Z.shiftl_mul_pow2, Z.pow_1_r by lia. replace (b * 2) with (2 * b) by lia.
  rewrite Z.lxor_comm. apply Z.add_nocarry_lxor. apply Z.bits_inj'. intros n Hn. rewrite Z.land_spec, Z.bits_0.
  destruct (Z.eq_dec n 0) as [->|H]; [rewrite Z.testbit_even_0; reflexivity|].
  replace (Z.testbit (Z.b2z c) n) with false; [apply andb_false_r|]. symmetry. destruct c; [apply (Z.pow2_bits_false 0); lia|apply Z.bits_0].
Qed.

Lemma pmul_comm a b : 0 <= a -> 0 <= b -> pmul a b = pmul b a.
Proof.
  intros Ha Hb. revert a Ha. apply bits_ind; [apply pmul_0_l|]. intros a c Ha IH. rewrite pmul_bit by exact Ha.
  rewrite double_shl, pmul_lxor_l, pmul_shl_l, IH by assumption. f_equal. destruct c; [|apply pmul_0_l].
  clear IH Ha a. revert b Hb. apply bits_ind; [reflexivity|]. intros b c Hb IH. change (Z.b2z true) with 1 in *.
  rewrite pmul_bit, IH, double_shl by exact Hb. now destruct c.
Qed.

Lemma pmul_lxor_r a b c : 0 <= a -> 0 <= b -> 0 <= c -> pmul a (Z.lxor b c) = Z.lxor (pmul a b) (pmul a c).
Proof.
  intros Ha Hb Hc. rewrite pmul_comm, pmul_lxor_l by (try apply Z.lxor_nonneg; lia || assumption).
  now rewrite (pmul_comm b a), (pmul_comm c a).
Qed.

Lemma pmul_shl_r a b : 0 <= b -> pmul a (b [<<] 1) = pmul a b [<<] 1.
Proof.
  intros Hb. destruct b as [|b|b]; [reflexivity|reflexivity|lia].
Qed.

Lemma pmul_assoc a b c : 0 <= a -> 0 <= b -> 0 <= c -> pmul (pmul a b) c = pmul a (pmul b c).
Proof.
  intros Ha Hb Hc. revert c Hc. apply bits_ind; [reflexivity|]. intros c d Hc IH. rewrite !pmul_bit by exact Hc.
  assert (0 <= pmul b c) by now apply pmul_nonneg.
  rewrite pmul_lxor_r, pmul_shl_r, IH by (try apply Z.shiftl_nonneg; try assumption; destruct d; lia). now destruct d.
Qed.

Lemma pmul_shl_pow a b k : 0 <= k -> 0 <= b -> pmul a (b [<<] k) = pmul a b [<<] k.
Proof.
  intros Hk Hb. pattern k. apply natlike_ind; [now rewrite !Z.shiftl_0_r| |exact Hk]. intros j Hj IH.
  rewrite <- Z.add_1_r, <- !Z.shiftl_shiftl, pmul_shl_r, IH by (try apply Z.shiftl_nonneg; lia || assumption). reflexivity.
Qed.

Lemma pmul_pow2 a k : 0 <= k -> pmul a (2 ^ k) = a [<<] k.
Proof. intros Hk. rewrite <- (Z.mul_1_l (2 ^ k)), <- Z.shiftl_mul_pow2, pmul_shl_pow by lia. reflexivity. Qed.

(** ** Degrees *)

Lemma log2_lxor_lt a b : 0 <= a -> 0 < b -> a < 2 ^ Z.log2 b -> Z.log2 (Z.lxor a b) = Z.log2 b /\ 0 < Z.lxor a b.
Proof.
  intros Ha Hb H. pose proof (Z.log2_nonneg b) as Hl.
  assert (T : Z.testbit (Z.lxor a b) (Z.log2 b) = true).
  { rewrite Z.lxor_spec, Z.bit_log2 by exact Hb. destruct (Z.eq_dec a 0) as [->|]; [now rewrite Z.bits_0|].
    rewrite Z.bits_above_log2; [reflexivity|exact Ha|apply Z.log2_lt_pow2; lia]. }
  assert (P : 0 < Z.lxor a b).
  { assert (0 <= Z.lxor a b) by (apply Z.lxor_nonneg; lia). destruct (Z.eq_dec (Z.lxor a b) 0) as [E|]; [|lia].
    rewrite E, Z.bits_0 in T. discriminate. }
  split; [|exact P]. apply Z.log2_bits_unique; [exact T|]. intros n Hn. rewrite Z.lxor_spec.
  destruct (Z.eq_dec a 0) as [->|].
  - rewrite Z.bits_0, Z.bits_above_log2 by lia. reflexivity.
  - assert (Z.log2 a < Z.log2 b) by (apply Z.log2_lt_pow2; lia). now rewrite !Z.bits_above_log2 by lia.
Qed.

Lemma log2_pmul a b : 0 < a -> 0 < b -> Z.log2 (pmul a b) = Z.log2 a + Z.log2 b /\ 0 < pmul a b.
Proof.
  intros Ha Hb. destruct b as [|p|p]; [lia| |lia]. cbn [pmul]. clear Hb. induction p as [p [IH IP]|p [IH IP]|]; cbn [pmul_pos].
  - assert (E : Z.log2 (pmul_pos a p [<<] 1) = Z.log2 a + Z.log2 (Zpos p) + 1) by (rewrite Z.log2_shiftl by lia; lia).
    assert (S : 0 < pmul_pos a p [<<] 1) by (rewrite Z.shiftl_mul_pow2 by lia; lia).
    destruct (log2_lxor_lt a (pmul_pos a p [<<] 1)) as [L P]; [lia|exact S| |].
    + rewrite E. apply Z.log2_lt_pow2; [exact Ha|]. pose proof (Z.log2_nonneg (Zpos p)). lia.
    + split; [|exact P]. rewrite L, E. change (Zpos p~1) with (2 * Zpos p + 1). rewrite Z.log2_succ_double by lia. lia.
  - rewrite Z.log2_shiftl by lia. change (Zpos p~0) with (2 * Zpos p). rewrite Z.log2_double by lia.
    split; [lia|]. rewrite Z.shiftl_mul_pow2 by lia. lia.
  - cbn. lia.
Qed.

Lemma pmul_bound a b m n : 0 < n -> 0 <= a < 2 ^ m -> 0 <= b < 2 ^ n -> 0 <= pmul a b < 2 ^ (m + n - 1).
Proof.
  intros Hn Ha Hb. split; [apply pmul_nonneg; lia|].
  assert (0 <= m) by (destruct (Z_lt_le_dec m 0) as [E|]; [rewrite Z.pow_neg_r in Ha by exact E; lia|assumption]).
  destruct (Z.eq_dec a 0) as [->|]; [rewrite pmul_0_l; apply Z.pow_pos_nonneg; lia|].
  destruct (Z.eq_dec b 0) as [->|]; [rewrite pmul_0_r; apply Z.pow_pos_nonneg; lia|].
  destruct (log2_pmul a b) as [L P]; [lia|lia|]. apply Z.log2_lt_pow2; [exact P|]. rewrite L.
  assert (Z.log2 a < m) by (apply Z.log2_lt_pow2; lia). assert (Z.log2 b < n) by (apply Z.log2_lt_pow2; lia). lia.
Qed.

(** ** Congruence modulo a polynomial *)

Definition cong (P a b : Z) : Prop := exists q, 0 <= q /\ Z.lxor a b = pmul q P.

Section Cong.
Context (P : Z) (P_pos : 0 < P).

Lemma cong_refl a : cong P a a.
Proof. exists 0. now rewrite Z.lxor_nilpotent, pmul_0_l. Qed.

Lemma cong_sym a b : cong P a b -> cong P b a.
Proof. intros (q & Hq & E). exists q. now rewrite Z.lxor_comm. Qed.

Lemma cong_trans a b c : cong P a b -> cong P b c -> cong P a c.
Proof.
  intros (q & Hq & E) (r & Hr & F). exists (Z.lxor q r). split; [apply Z.lxor_nonneg; lia|].
  rewrite pmul_lxor_l, <- E, <- F by lia. apply Z.bits_inj'. intros n _. rewrite !Z.lxor_spec.
  now destruct (Z.testbit a n), (Z.testbit b n), (Z.testbit c n).
Qed.

#[global] Instance cong_equiv : Equivalence (cong P).
Proof. split; [intros a; apply cong_refl|intros a b; apply cong_sym|intros a b c; apply cong_trans]. Qed.

#[global] Instance cong_lxor : Proper (cong P ==> cong P ==> cong P) Z.lxor.
Proof.
  intros a a' (q & Hq & E) b b' (r & Hr & F). exists (Z.lxor q r). split; [apply Z.lxor_nonneg; lia|].
  now rewrite pmul_lxor_l, <- E, <- F, lxor_swap by lia.
Qed.

Lemma cong_pmul_l a b c : 0 <= c -> cong P a b -> cong P (pmul a c) (pmul b c).
Proof.
  intros Hc (q & Hq & E). exists (pmul q c). split; [now apply pmul_nonneg|].
  rewrite <- pmul_lxor_l, E by exact Hc. rewrite !pmul_assoc, (pmul_comm P c) by lia. reflexivity.
Qed.

Lemma cong_pmul a b c d : 0 <= a -> 0 <= b -> 0 <= c -> 0 <= d -> cong P a b -> cong P c d -> cong P (pmul a c) (pmul b d).
Proof.
  intros Ha Hb Hc Hd H1 H2. transitivity (pmul b c); [now apply cong_pmul_l|].
  rewrite !(pmul_comm b) by assumption. now apply cong_pmul_l.
Qed.

(** Remainders are unique. *)
Lemma cong_unique a b : 0 <= a < 2 ^ Z.log2 P -> 0 <= b < 2 ^ Z.log2 P -> cong P a b -> a = b.
Proof.
  intros Ha Hb (q & Hq & E). destruct (Z.eq_dec q 0) as [->|Hn]; [apply Z.lxor_eq; now rewrite E, pmul_0_l|].
  destruct (log2_pmul q P) as [L Pos]; [lia|lia|]. rewrite <- E in L, Pos.
  pose proof (Z.log2_nonneg q). pose proof (Z.log2_nonneg P).
  assert (Z.lxor a b < 2 ^ Z.log2 P).
  { destruct (Z.eq_dec (Z.log2 P) 0) as [Z0|Nz].
    - rewrite Z0 in *. assert (a = 0) by lia. assert (b = 0) by lia. subst. reflexivity.
    - apply Z.log2_lt_pow2; [exact Pos|]. pose proof (Z.log2_lxor a b ltac:(lia) ltac:(lia)) as X.
      assert (D : forall x, 0 <= x < 2 ^ Z.log2 P -> Z.log2 x < Z.log2 P).
      { intros x Hx. destruct (Z.eq_dec x 0) as [->|]; [cbn; lia|apply Z.log2_lt_pow2; lia]. }
      pose proof (D a Ha). pose proof (D b Hb). lia. }
  apply Z.log2_lt_pow2 in H1; lia.
Qed.
End Cong.

(** ** Multiplication modulo a polynomial *)

(** What a multiplication on n-bit words promises: the remainder of the product
    modulo a polynomial of degree n.  The laws below need nothing else, so both
    fields of the library, and their clients, share them. *)
Class GF2n (n P : Z) (mul : Z -> Z -> Z) : Prop := {
  gf_width : 0 < n;
  gf_degree : Z.log2 P = n;
  gf_mul : forall x y, 0 <= x < 2 ^ n -> 0 <= y < 2 ^ n -> 0 <= mul x y < 2 ^ n /\ cong P (pmul x y) (mul x y)
}.

Section Laws.
Context {n P : Z} {mul : Z -> Z -> Z} `{GF : GF2n n P mul}.

Definition word (x : Z) : Prop := 0 <= x < 2 ^ n.

Lemma gf_pos : 0 < P.
Proof. pose proof gf_width. pose proof gf_degree. destruct P; cbn in *; lia. Qed.

Lemma word_0 : word 0.
Proof. pose proof gf_width. split; [lia|apply Z.pow_pos_nonneg; lia]. Qed.

Lemma word_1 : word 1.
Proof. pose proof gf_width. split; [lia|apply Z.pow_gt_1; lia]. Qed.

Lemma word_lxor x y : word x -> word y -> word (Z.lxor x y).
Proof. pose proof gf_width. intros Hx Hy. apply lxor_bound; [lia|exact Hx|exact Hy]. Qed.

Lemma mul_word x y : word x -> word y -> word (mul x y).
Proof. intros Hx Hy. now apply gf_mul. Qed.

Lemma mul_unique x y r : word x -> word y -> word r -> cong P (pmul x y) r -> mul x y = r.
Proof.
  intros Hx Hy Hr C. destruct (gf_mul x y Hx Hy) as [H C']. apply (cong_unique P gf_pos); [now rewrite gf_degree..|].
  eapply cong_trans; [exact gf_pos|apply cong_sym; exact C'|exact C].
Qed.

Lemma mul_comm x y : word x -> word y -> mul x y = mul y x.
Proof.
  intros Hx Hy. apply mul_unique; try assumption; [now apply mul_word|].
  rewrite pmul_comm by (unfold word in *; lia). now apply gf_mul.
Qed.

Lemma mul_cong a b x y : word x -> word y -> 0 <= a -> 0 <= b -> cong P a x -> cong P b y -> cong P (pmul a b) (mul x y).
Proof.
  intros Hx Hy Ha Hb Ca Cb. eapply cong_trans; [exact gf_pos| |apply gf_mul; assumption].
  unfold word in *. apply cong_pmul; [exact gf_pos|lia..|exact Ca|exact Cb].
Qed.

Lemma mul_assoc x y z : word x -> word y -> word z -> mul (mul x y) z = mul x (mul y z).
Proof.
  intros Hx Hy Hz. pose proof (gf_mul x y Hx Hy) as [I1 C1]. pose proof (gf_mul y z Hy Hz) as [I2 C2].
  symmetry. apply mul_unique; try assumption; [now repeat apply mul_word|].
  eapply cong_trans; [exact gf_pos| |apply (mul_cong (pmul x y) z); unfold word in *].
  - unfold word in *. rewrite pmul_assoc by lia. apply cong_pmul; try lia; [exact gf_pos|apply pmul_nonneg; lia|apply cong_refl|apply cong_sym; exact C2].
  - now apply mul_word.
  - exact Hz.
  - apply pmul_nonneg; lia.
  - lia.
  - exact C1.
  - apply cong_refl.
Qed.

Lemma mul_lxor_r x y z : word x -> word y -> word z -> mul x (Z.lxor y z) = Z.lxor (mul x y) (mul x z).
Proof.
  intros Hx Hy Hz. apply mul_unique; try assumption; try apply word_lxor; try assumption; try now apply mul_word.
  assert (Hs : 0 <= x /\ 0 <= y /\ 0 <= z) by (unfold word in *; lia). destruct Hs as (X & Y & Z').
  rewrite pmul_lxor_r by assumption. apply cong_lxor; [exact gf_pos|now apply gf_mul|now apply gf_mul].
Qed.

Lemma mul_lxor_l x y z : word x -> word y -> word z -> mul (Z.lxor y z) x = Z.lxor (mul y x) (mul z x).
Proof. intros Hx Hy Hz. rewrite !(mul_comm _ x) by auto using word_lxor. now apply mul_lxor_r. Qed.

Lemma mul_1_r x : word x -> mul x 1 = x.
Proof. intros Hx. apply mul_unique; auto using word_1. apply cong_refl. Qed.

Lemma mul_1_l x : word x -> mul 1 x = x.
Proof. intros Hx. rewrite mul_comm by auto using word_1. now apply mul_1_r. Qed.

Lemma mul_0_r x : word x -> mul x 0 = 0.
Proof. intros Hx. apply mul_unique; auto using word_0. apply cong_refl. Qed.

Lemma mul_0_l x : word x -> mul 0 x = 0.
Proof. intros Hx. rewrite mul_comm by auto using word_0. now apply mul_0_r. Qed.
End Laws.
Arguments word : clear implicits.
Create HintDb gf.
#[export] Hint Extern 1 (word _ 0) => eapply word_0 : gf.
#[export] Hint Extern 1 (word _ 1) => eapply word_1 : gf.
#[export] Hint Extern 1 (word _ (Z.lxor _ _)) => eapply word_lxor : gf.
#[export] Hint Extern 3 (word _ (_ _ _)) => eapply mul_word : gf.

(** ** Powers *)

Section Powers.
Context (mul : Z -> Z -> Z).

Fixpoint gpow_pos (x : Z) (e : positive) : Z :=
  match e with
  | xH => x
  | xO e => let t := gpow_pos x e in mul t t
  | xI e => let t := gpow_pos x e in mul (mul t t) x
  end.

(** [x^e] *)
Definition gpow (x e : Z) : Z := match e with Zpos e => gpow_pos x e | _ => 1 end.

Context {n P : Z} {GF : GF2n n P mul}.

Lemma gpow_pos_in x e : word n x -> word n (gpow_pos x e).
Proof. intros Hx. induction e; cbn [gpow_pos]; auto with gf. Qed.

Lemma gpow_pos_succ x e : word n x -> gpow_pos x (Pos.succ e) = mul (gpow_pos x e) x.
Proof.
  intros Hx. induction e as [e IH|e IH|]; cbn [Pos.succ gpow_pos]; [|reflexivity|reflexivity].
  cbv zeta. rewrite IH. pose proof (gpow_pos_in x e Hx) as He. set (t := gpow_pos x e) in *.
  rewrite (mul_assoc t x) by auto with gf. rewrite <- (mul_assoc x t x) by assumption.
  rewrite (mul_comm x t) by assumption. rewrite <- !(mul_assoc t) by auto with gf. reflexivity.
Qed.

Lemma gpow_pos_add x a b : word n x -> gpow_pos x (a + b) = mul (gpow_pos x a) (gpow_pos x b).
Proof.
  intros Hx. induction b as [|b IH] using Pos.peano_ind.
  - rewrite Pos.add_1_r. now apply gpow_pos_succ.
  - rewrite Pos.add_succ_r, !gpow_pos_succ, IH by exact Hx. apply mul_assoc; auto using gpow_pos_in.
Qed.

Lemma gpow_in x e : word n x -> word n (gpow x e).
Proof. intros Hx. destruct e; [apply word_1|now apply gpow_pos_in|apply word_1]. Qed.

Lemma gpow_add x a b : word n x -> 0 <= a -> 0 <= b -> mul (gpow x a) (gpow x b) = gpow x (a + b).
Proof.
  intros Hx Ha Hb. destruct a as [|a|a], b as [|b|b]; try lia.
  - apply mul_1_r, word_1.
  - now apply mul_1_l, gpow_pos_in.
  - rewrite Z.add_0_r. now apply mul_1_r, gpow_pos_in.
  - symmetry. now apply gpow_pos_add.
Qed.

Lemma gpow_1 x : gpow x 1 = x.
Proof. reflexivity. Qed.
End Powers.
