(* ===== verification/Gf.v ===== *)
(** GF(2^64) and GF(2^128) of [math/galois_field/gf_intrinsic.cc]: carry-less
    products, the reductions, products of vectors, the inverse by an addition
    chain and the universal hash of the header.  A [block] is the 128-bit number
    in the register; [_mm_clmulepi64_si128] multiplies two of its 64-bit halves
    without carries.  Multiplication is the product modulo the polynomial. *)
From Stdlib Require Import ZArith Lia List Bool.
From S2P Require Import Prelude.
From S2P Require Import Int128.
From S2P Require Import Gf2x.
Import ListNotations.

(** ** The code *)

(** The intrinsics on blocks. *)
Definition half (x : Z) (high : bool) : Z := if high then x [>>] 64 else u64 x.
Definition mm_clmulepi64_si128 (x y imm : Z) : Z := pmul (half x (Z.testbit imm 0)) (half y (Z.testbit imm 4)).
Definition mm_srli_si128 (x n : Z) : Z := x [>>] (8 * n).
Definition mm_slli_si128 (x n : Z) : Z := u128 (x [<<] (8 * n)).

Definition kGfMod128 : Z := Z.lor (Z.lor (Z.lor (1 [<<] 7) (1 [<<] 2)) (1 [<<] 1)) 1.
Definition kGfMod64 : Z := Z.lor (Z.lor (Z.lor (1 [<<] 4) (1 [<<] 3)) (1 [<<] 1)) 1.

(** *** GF(2^128) *)

Definition Gf128ClMul (x y : Z) : Z * Z :=
  let low := mm_clmulepi64_si128 x y 0x00 in
  let high := mm_clmulepi64_si128 x y 0x11 in
  let mid1 := mm_clmulepi64_si128 x y 0x10 in
  let mid2 := mm_clmulepi64_si128 x y 0x01 in
  let mid := Z.lxor mid1 mid2 in
  let mid1 := mm_srli_si128 mid 8 in
  let mid2 := mm_slli_si128 mid 8 in
  (Z.lxor high mid1, Z.lxor low mid2).

Definition Gf128Reduce (high low : Z) : Z :=
  let modulo := kGfMod128 in
  let '(upper, carry0) := Gf128ClMul high modulo in
  let low := Z.lxor low carry0 in
  let '(zero, carry1) := Gf128ClMul upper modulo in
  Z.lxor low carry1.

Definition Gf128Mul (x y : Z) : Z :=
  let '(high, low) := Gf128ClMul x y in
  Gf128Reduce high low.

(** The overload on spans; [None] when the sizes differ. *)
Fixpoint Gf128ClMul_loop (x y : list Z) (ret_high ret_low : Z) : Z * Z :=
  match x, y with
  | x0 :: x, y0 :: y =>
      let '(high, low) := Gf128ClMul x0 y0 in
      Gf128ClMul_loop x y (Z.lxor ret_high high) (Z.lxor ret_low low)
  | _, _ => (ret_high, ret_low)
  end.
Definition Gf128Mul_span (x y : list Z) : option Z :=
  if (length x =? length y)%nat then
    let '(high, low) := Gf128ClMul_loop x y 0 0 in
    Some (Gf128Reduce high low)
  else None.

(** *** GF(2^64) *)

Definition Gf64ClMul (x y : Z) : Z := mm_clmulepi64_si128 x y 0x00.

Definition Gf64Reduce (x : Z) : Z :=
  let modulo := MakeUint128 0 kGfMod64 in
  let xb := x in
  let temp := mm_clmulepi64_si128 modulo xb 0x10 in
  let xb := Z.lxor xb temp in
  let temp := mm_clmulepi64_si128 modulo temp 0x10 in
  let xb := Z.lxor xb temp in
  u64 xb.

Definition Gf64Mul (x y : Z) : Z := Gf64Reduce (Gf64ClMul x y).

(** The overload on spans: two products at a time, then the last one. *)
Fixpoint Gf64ClMul_loop (x y : list Z) (ret : Z) : Z :=
  match x, y with
  | x0 :: x1 :: x, y0 :: y1 :: y =>
      let xb := MakeUint128 x1 x0 in
      let yb := MakeUint128 y1 y0 in
      let xy0 := mm_clmulepi64_si128 xb yb 0x00 in
      let xy1 := mm_clmulepi64_si128 xb yb 0x11 in
      Gf64ClMul_loop x y (Z.lxor (Z.lxor ret xy0) xy1)
  | x0 :: _, y0 :: _ => Z.lxor ret (Gf64ClMul x0 y0)
  | _, _ => ret
  end.
Definition Gf64Mul_span (x y : list Z) : option Z :=
  if (length x =? length y)%nat then Some (Gf64Reduce (Gf64ClMul_loop x y 0)) else None.

(** [n] squarings in a row. *)
Fixpoint Gf64Sq_times (n : nat) (t : Z) : Z :=
  match n with O => t | S n => Gf64Sq_times n (Gf64Mul t t) end.

Definition Gf64Inv (x : Z) : Z :=
  let t0 := x in
  let t1 := Gf64Mul t0 t0 in
  let t2 := Gf64Mul t1 t0 in
  let t0 := Gf64Mul t2 t2 in
  let t0 := Gf64Mul t0 t0 in
  let t1 := Gf64Mul t1 t0 in
  let t2 := Gf64Mul t2 t0 in
  let t0 := Gf64Mul t2 t2 in
  let t0 := Gf64Sq_times 3 t0 in
  let t1 := Gf64Mul t1 t0 in
  let t2 := Gf64Mul t2 t0 in
  let t0 := Gf64Mul t2 t2 in
  let t0 := Gf64Sq_times 7 t0 in
  let t1 := Gf64Mul t1 t0 in
  let t2 := Gf64Mul t2 t0 in
  let t0 := Gf64Mul t2 t2 in
  let t0 := Gf64Sq_times 15 t0 in
  let t1 := Gf64Mul t1 t0 in
  let t0 := Gf64Mul t0 t2 in
  let t0 := Gf64Sq_times 32 t0 in
  Gf64Mul t0 t1.

(** The powers X^i, and the element with given coefficients. *)
Definition kGf64Basis : list Z := map (fun i => u64 (u128 (1 [<<] Z.of_nat i))) (seq 0 64).
Definition kGf128Basis : list Z := map (fun i => u128 (1 [<<] Z.of_nat i)) (seq 0 128).
Definition Gf64Pack (data : list Z) : option Z :=
  let size := length data in
  if (size <=? 64)%nat then Gf64Mul_span data (firstn size kGf64Basis) else None.
Definition Gf128Pack (data : list Z) : option Z :=
  let size := length data in
  if (size <=? 128)%nat then Gf128Mul_span data (firstn size kGf128Basis) else None.

(** The subfield operand is widened. *)
Definition GfMul_mixed (a b : list Z) : option Z := Gf128Mul_span a (map (fun val => u128 val) b).

(** *** The universal hash, for either field *)

(** [math/gadget.h]; [None] where the code throws. *)
Definition Log2Floor (x : Z) : option Z := if x =? 0 then None else Some (Z.log2 x).
Definition Log2Ceil (x : Z) : option Z :=
  if x =? 0 then None
  else if x =? 1 then Some 0
  else match Log2Floor (x - 1) with Some l => Some (l + 1) | None => None end.

Definition UniversalHash (GfMul : Z -> Z -> Z) (seed : Z) (data : list Z) : Z :=
  fold_left (fun ret val => GfMul seed (Z.lxor ret val)) (rev data) 0.

(** The coefficients of [indexes] in the hash: squares of the seed, then one
    product per bit of [index + 1].  [None]: no index, an index 0 alone, or an
    index past 2^63 for which the code writes outside of [buff]. *)
Fixpoint hash_squares (GfMul : Z -> Z -> Z) (n : nat) (t : Z) : list Z :=
  match n with O => [] | S n => let t' := GfMul t t in t' :: hash_squares GfMul n t' end.
Fixpoint hash_coef (GfMul : Z -> Z -> Z) (buff : list Z) (index_plus_one mask coef : Z) : Z :=
  match buff with
  | [] => coef
  | b :: buff =>
      if mask <=? index_plus_one then
        let coef := if Z.land mask index_plus_one =? 0 then coef else GfMul coef b in
        hash_coef GfMul buff index_plus_one (u64 (mask [<<] 1)) coef
      else coef
  end.
Definition ExtractHashCoef (GfMul : Z -> Z -> Z) (seed : Z) (indexes : list Z) : option (list Z) :=
  match Log2Ceil (last indexes 0) with
  | Some max_bits =>
      if 64 <=? max_bits then None
      else
        let buff := seed :: hash_squares GfMul (Z.to_nat max_bits) seed ++ repeat 0 (63 - Z.to_nat max_bits) in
        Some (map (fun index => hash_coef GfMul buff (u64 (index + 1)) 1 1) indexes)
  | None => None
  end.

(** ** Halves and products *)

Definition P64 : Z := Z.lxor (2 ^ 64) kGfMod64.
Definition P128 : Z := Z.lxor (2 ^ 128) kGfMod128.
Lemma half_high h l : in64 l -> half (MakeUint128 h l) true = h.
Proof. intros Hl. rewrite MakeUint128_lxor by exact Hl. now apply lxor_high. Qed.

Lemma half_low h l : in64 l -> half (MakeUint128 h l) false = l.
Proof. intros Hl. rewrite MakeUint128_lxor by exact Hl. unfold half, u64, uwrap. now apply lxor_small_l. Qed.

Lemma half_in x b : in128 x -> in64 (half x b).
Proof.
  intros Hx. destruct b; [|apply u64_in]. apply (shr_in x 64 64); [lia|lia|]. exact Hx.
Qed.

Lemma pmul_64 a b : in64 a -> in64 b -> 0 <= pmul a b < 2 ^ 127.
Proof. intros Ha Hb. apply (pmul_bound a b 64 64); [lia|exact Ha|exact Hb]. Qed.

(** ** GF(2^64) *)

Lemma P64_pos : 0 < P64.
Proof. reflexivity. Qed.

Lemma cong_lxor_drop P a b : cong P (Z.lxor a b) 0 -> cong P a b.
Proof. intros (q & Hq & E). exists q. rewrite Z.lxor_0_r in E. now split. Qed.

(** The reduction of a product: a multiple of the modulus away, and short. *)
Lemma Gf64Reduce_ok x : 0 <= x < 2 ^ 127 -> in64 (Gf64Reduce x) /\ cong P64 x (Gf64Reduce x).
Proof.
  intros Hx. unfold Gf64Reduce. cbv zeta. split; [apply u64_in|].
  unfold mm_clmulepi64_si128. change (Z.testbit 0x10 0) with false. change (Z.testbit 0x10 4) with true.
  rewrite half_low by (split; [discriminate|reflexivity]).
  set (m := kGfMod64). set (h := half x true). set (temp := pmul m h). set (th := half temp true). set (t2 := pmul m th).
  assert (Hm : 0 <= m < 2 ^ 5) by (split; [discriminate|reflexivity]).
  assert (Hh : in64 h) by (apply half_in; unfold in128; lia).
  assert (Ht : 0 <= temp < 2 ^ 68) by (apply (pmul_bound m h 5 64); [lia|exact Hm|exact Hh]).
  assert (Hth : 0 <= th < 2 ^ 4) by (apply (shr_in temp 64 4); [lia|lia|exact Ht]).
  assert (Ht2 : 0 <= t2 < 2 ^ 8) by (apply (pmul_bound m th 5 4); [lia|exact Hm|exact Hth]).
  assert (Elow : u64 (Z.lxor (Z.lxor x temp) t2) = Z.lxor (Z.lxor (u64 x) (u64 temp)) t2).
  { unfold u64, uwrap. apply Z.bits_inj'. intros i Hi. rewrite !Z.lxor_spec. destruct (Z_lt_le_dec i 64).
    - now rewrite !Z.mod_pow2_bits_low, !Z.lxor_spec by lia.
    - rewrite !Z.mod_pow2_bits_high by lia. rewrite <- (Z.mod_small t2 (2 ^ 64)) by lia. now rewrite Z.mod_pow2_bits_high by lia. }
  rewrite Elow. exists (Z.lxor h th). split; [apply Z.lxor_nonneg; unfold in64 in Hh; lia|].
  unfold P64. fold m. unfold in64 in Hh. rewrite (pmul_lxor_r (Z.lxor h th)), pmul_pow2, !pmul_lxor_l by (try apply Z.lxor_nonneg; lia).
  rewrite (pmul_comm h m), (pmul_comm th m) by lia. fold temp t2.
  rewrite (split_shl x 64) at 1 by lia. change (x [>>] 64) with h. change (x mod 2 ^ 64) with (u64 x).
  pose proof (split_shl temp 64 ltac:(lia)) as E. change (temp [>>] 64) with th in E. change (temp mod 2 ^ 64) with (u64 temp) in E.
  rewrite lxor_shl. rewrite E at 2. apply Z.bits_inj'. intros i _. rewrite !Z.lxor_spec.
  now destruct (Z.testbit (h [<<] 64) i), (Z.testbit (u64 x) i), (Z.testbit (u64 temp) i), (Z.testbit t2 i), (Z.testbit (th [<<] 64) i).
Qed.

Lemma Gf64ClMul_eq x y : in64 x -> in64 y -> Gf64ClMul x y = pmul x y.
Proof.
  intros Hx Hy. unfold Gf64ClMul, mm_clmulepi64_si128, half. cbn [Z.testbit]. now rewrite !u64_small.
Qed.

Lemma Gf64Mul_ok x y : in64 x -> in64 y -> in64 (Gf64Mul x y) /\ cong P64 (pmul x y) (Gf64Mul x y).
Proof.
  intros Hx Hy. unfold Gf64Mul. rewrite Gf64ClMul_eq by assumption. apply Gf64Reduce_ok. now apply pmul_64.
Qed.


(** ** GF(2^128) *)

Lemma P128_pos : 0 < P128.
Proof. reflexivity. Qed.

(** The product of two halves-split operands, before folding the middle part. *)
Lemma pmul_split xh xl yh yl : 0 <= xh -> 0 <= xl -> 0 <= yh -> 0 <= yl ->
  pmul (Z.lxor (xh [<<] 64) xl) (Z.lxor (yh [<<] 64) yl)
    = Z.lxor (Z.lxor (pmul xh yh [<<] 128) (Z.lxor (pmul xl yh) (pmul xh yl) [<<] 64)) (pmul xl yl).
Proof.
  intros H1 H2 H3 H4.
  assert (H5 : 0 <= yh [<<] 64) by now apply Z.shiftl_nonneg.
  assert (H6 : 0 <= xh [<<] 64) by now apply Z.shiftl_nonneg.
  assert (H7 : 0 <= Z.lxor (yh [<<] 64) yl) by now apply Z.lxor_nonneg.
  rewrite pmul_lxor_l, !pmul_lxor_r, !pmul_shl_pow by (assumption || lia).
  rewrite (pmul_comm (xh [<<] 64) yh), (pmul_comm (xh [<<] 64) yl), !pmul_shl_pow, (pmul_comm yh xh), (pmul_comm yl xh) by (assumption || lia).
  rewrite Z.shiftl_shiftl, lxor_shl by lia. change (64 + 64) with 128.
  generalize (pmul xh yh [<<] 128) (pmul xl yl) (pmul xl yh [<<] 64) (pmul xh yl [<<] 64). intros a b c d.
  apply Z.bits_inj'. intros i _. rewrite !Z.lxor_spec. now destruct (Z.testbit a i), (Z.testbit b i), (Z.testbit c i), (Z.testbit d i).
Qed.

(** Folding the middle part, shifted over the border of the two blocks. *)
Lemma fold_mid a b m : Z.lxor (Z.lxor (a [<<] 128) (m [<<] 64)) b
  = Z.lxor (Z.lxor a (m [>>] 64) [<<] 128) (Z.lxor b ((m [<<] 64) mod 2 ^ 128)).
Proof.
  pose proof (split_shl (m [<<] 64) 128 ltac:(lia)) as Em.
  assert (Es : (m [<<] 64) [>>] 128 = m [>>] 64).
  { change 128 with (64 + 64). rewrite <- Z.shiftr_shiftr, Z.shiftr_shiftl_l by lia. now rewrite Z.shiftl_0_r. }
  rewrite Es in Em. rewrite lxor_shl, Em at 1. generalize ((m [>>] 64) [<<] 128) ((m [<<] 64) mod 2 ^ 128) (a [<<] 128). intros c d e.
  apply Z.bits_inj'. intros i _. rewrite !Z.lxor_spec. now destruct (Z.testbit c i), (Z.testbit b i), (Z.testbit e i), (Z.testbit d i).
Qed.

(** The four half products make up the whole product. *)
Lemma Gf128ClMul_ok x y : in128 x -> in128 y ->
  let '(high, low) := Gf128ClMul x y in
  in128 high /\ in128 low /\ pmul x y = Z.lxor (high [<<] 128) low.
Proof.
  intros Hx Hy. unfold Gf128ClMul, mm_clmulepi64_si128, mm_srli_si128, mm_slli_si128, u128, uwrap. cbv zeta.
  change (Z.testbit 0x00 0) with false. change (Z.testbit 0x00 4) with false. change (Z.testbit 0x11 0) with true.
  change (Z.testbit 0x11 4) with true. change (Z.testbit 0x10 0) with false. change (Z.testbit 0x10 4) with true.
  change (Z.testbit 0x01 0) with true. change (Z.testbit 0x01 4) with false. change (8 * 8) with 64.
  pose proof (half_in x true Hx) as Ixh. pose proof (half_in x false Hx) as Ixl.
  pose proof (half_in y true Hy) as Iyh. pose proof (half_in y false Hy) as Iyl.
  pose proof (split_shl x 64 ltac:(lia)) as Ex. pose proof (split_shl y 64 ltac:(lia)) as Ey.
  change (x [>>] 64) with (half x true) in Ex. change (x mod 2 ^ 64) with (half x false) in Ex.
  change (y [>>] 64) with (half y true) in Ey. change (y mod 2 ^ 64) with (half y false) in Ey.
  set (xh := half x true) in *. set (xl := half x false) in *. set (yh := half y true) in *. set (yl := half y false) in *.
  pose proof (pmul_64 xh yh Ixh Iyh) as Bhh. pose proof (pmul_64 xl yl Ixl Iyl) as Bll.
  set (mid := Z.lxor (pmul xl yh) (pmul xh yl)).
  assert (Hm : 0 <= mid < 2 ^ 127) by (apply lxor_bound; [lia|apply pmul_64|apply pmul_64]; assumption).
  pose proof (shr_in mid 64 63 ltac:(lia) ltac:(lia) Hm) as Hmh.
  assert (Hml : 0 <= (mid [<<] 64) mod 2 ^ 128 < 2 ^ 128) by (apply Z.mod_pos_bound; lia).
  unfold in128. split; [apply lxor_bound; lia|]. split; [apply lxor_bound; lia|].
  rewrite Ex, Ey at 1. rewrite pmul_split by (apply Ixh || apply Ixl || apply Iyh || apply Iyl). apply fold_mid.
Qed.

Lemma Gf128Reduce_ok high low : in128 high -> in128 low ->
  in128 (Gf128Reduce high low) /\ cong P128 (Z.lxor (high [<<] 128) low) (Gf128Reduce high low).
Proof.
  intros Hh Hl. unfold Gf128Reduce. cbv zeta. set (m := kGfMod128).
  assert (Hm : in128 m) by (split; [discriminate|reflexivity]). assert (Hm' : 0 <= m < 2 ^ 8) by (split; [discriminate|reflexivity]).
  pose proof (Gf128ClMul_ok high m Hh Hm) as C1. destruct (Gf128ClMul high m) as [upper carry0]. destruct C1 as (Iu & Ic0 & E1).
  pose proof (Gf128ClMul_ok upper m Iu Hm) as C2. destruct (Gf128ClMul upper m) as [zero carry1]. destruct C2 as (Iz & Ic1 & E2).
  split; [now repeat apply lxor_in128|].
  pose proof (pmul_bound high m 128 8 ltac:(lia) Hh Hm') as B1. change (128 + 8 - 1) with 135 in B1.
  assert (Hu : 0 <= upper < 2 ^ 7).
  { rewrite E1 in B1. rewrite <- (lxor_high upper carry0 128) by (lia || exact Ic0). now apply (shr_in _ 128 7). }
  pose proof (pmul_bound upper m 7 8 ltac:(lia) Hu Hm') as B2. change (7 + 8 - 1) with 14 in B2.
  assert (Hz : zero = 0).
  { assert (X : 0 <= zero < 2 ^ 0); [|change (2 ^ 0) with 1 in X; lia].
    rewrite E2 in B2. rewrite <- (lxor_high zero carry1 128) by (lia || exact Ic1).
    rewrite Z.shiftr_div_pow2 by lia. rewrite Z.div_small; [cbn; lia|]. lia. }
  subst zero. rewrite Z.shiftl_0_l, Z.lxor_0_l in E2. unfold in128 in *.
  exists (Z.lxor high upper). split; [apply Z.lxor_nonneg; lia|].
  unfold P128. fold m. rewrite pmul_lxor_r, pmul_pow2, pmul_lxor_l, E1, E2, lxor_shl by (try apply Z.lxor_nonneg; lia).
  apply Z.bits_inj'. intros i _. rewrite !Z.lxor_spec.
  now destruct (Z.testbit (high [<<] 128) i), (Z.testbit (upper [<<] 128) i), (Z.testbit low i), (Z.testbit carry0 i), (Z.testbit carry1 i).
Qed.

Lemma Gf128Mul_ok x y : in128 x -> in128 y -> in128 (Gf128Mul x y) /\ cong P128 (pmul x y) (Gf128Mul x y).
Proof.
  intros Hx Hy. unfold Gf128Mul. pose proof (Gf128ClMul_ok x y Hx Hy) as C. destruct (Gf128ClMul x y) as [high low].
  destruct C as (Ih & Il & ->). now apply Gf128Reduce_ok.
Qed.

(** ** Vectors *)

(** The sum of the products of two vectors, before reduction. *)
Fixpoint dot (x y : list Z) : Z :=
  match x, y with
  | a :: x, b :: y => Z.lxor (pmul a b) (dot x y)
  | _, _ => 0
  end.

Lemma dot_nonneg x y : Forall (fun a => 0 <= a) x -> 0 <= dot x y.
Proof.
  intros H. revert y; induction H as [|a x Ha Hx IH]; intros [|b y]; cbn [dot]; try lia.
  apply Z.lxor_nonneg. pose proof (pmul_nonneg a b Ha). pose proof (IH y). lia.
Qed.

Lemma Gf64ClMul_loop_ok : forall x y ret, length x = length y -> Forall in64 x -> Forall in64 y ->
  Gf64ClMul_loop x y ret = Z.lxor ret (dot x y).
Proof.
  assert (H : forall n x y ret, (length x <= n)%nat -> length x = length y -> Forall in64 x -> Forall in64 y ->
            Gf64ClMul_loop x y ret = Z.lxor ret (dot x y)).
  { induction n as [|n IH]; intros x y ret Hn L Fx Fy.
    - destruct x, y; cbn in *; try lia. now rewrite Z.lxor_0_r.
    - destruct x as [|x0 [|x1 x]], y as [|y0 [|y1 y]]; cbn [length] in *; try lia.
      + cbn. now rewrite Z.lxor_0_r.
      + apply Forall_cons_iff in Fx as [H0 _], Fy as [H0' _]. cbn [Gf64ClMul_loop dot].
        rewrite Gf64ClMul_eq, Z.lxor_0_r by assumption. reflexivity.
      + apply Forall_cons_iff in Fx as [X0 Fx], Fy as [Y0 Fy]. apply Forall_cons_iff in Fx as [X1 Fx], Fy as [Y1 Fy].
        cbn [Gf64ClMul_loop dot]. rewrite IH by (assumption || lia). unfold mm_clmulepi64_si128.
        change (Z.testbit 0x00 0) with false. change (Z.testbit 0x00 4) with false.
        change (Z.testbit 0x11 0) with true. change (Z.testbit 0x11 4) with true.
        rewrite !half_low, !half_high by assumption. now rewrite !Z.lxor_assoc. }
  intros x y ret. now apply (H (length x)).
Qed.

Lemma dot_bound n x y m : 0 < n -> Forall (fun a => 0 <= a < 2 ^ n) x -> Forall (fun a => 0 <= a < 2 ^ n) y ->
  m = n + n - 1 -> 0 <= dot x y < 2 ^ m.
Proof.
  intros Hn Fx. revert y; induction Fx as [|a x Ha Hx IH]; intros [|b y] Fy ->; cbn [dot]; try (split; [lia|apply Z.pow_pos_nonneg; lia]).
  apply Forall_cons_iff in Fy as [Hb Fy]. apply lxor_bound; [lia|now apply pmul_bound|]. now apply IH.
Qed.

(** The inner product in GF(2^64). *)
Lemma Gf64Mul_span_ok x y : length x = length y -> Forall in64 x -> Forall in64 y ->
  exists r, Gf64Mul_span x y = Some r /\ in64 r /\ cong P64 (dot x y) r.
Proof.
  intros L Fx Fy. unfold Gf64Mul_span. rewrite (proj2 (Nat.eqb_eq _ _) L). rewrite Gf64ClMul_loop_ok, Z.lxor_0_l by assumption.
  eexists. split; [reflexivity|]. apply Gf64Reduce_ok. now apply (dot_bound 64).
Qed.

(** It is linear in its second argument: the check of the KOS extension. *)
Fixpoint zip_lxor (x y : list Z) : list Z :=
  match x, y with
  | a :: x, b :: y => Z.lxor a b :: zip_lxor x y
  | _, _ => []
  end.

Lemma dot_lxor_r c : forall x y, length c = length x -> length x = length y ->
  Forall (fun a => 0 <= a) c -> Forall (fun a => 0 <= a) x -> Forall (fun a => 0 <= a) y ->
  dot c (zip_lxor x y) = Z.lxor (dot c x) (dot c y).
Proof.
  induction c as [|k c IH]; intros [|a x] [|b y] L1 L2 Fc Fx Fy; cbn in *; try lia.
  apply Forall_cons_iff in Fc as [Hk Fc], Fx as [Ha Fx], Fy as [Hb Fy].
  rewrite IH, pmul_lxor_r, lxor_swap by (assumption || lia). reflexivity.
Qed.

Lemma Gf128ClMul_loop_ok : forall x y rh rl, length x = length y -> Forall in128 x -> Forall in128 y -> in128 rh -> in128 rl ->
  let '(high, low) := Gf128ClMul_loop x y rh rl in
  in128 high /\ in128 low /\ Z.lxor (high [<<] 128) low = Z.lxor (Z.lxor (rh [<<] 128) rl) (dot x y).
Proof.
  induction x as [|a x IH]; intros [|b y] rh rl L Fx Fy Ih Il; cbn in L; try lia; cbn [Gf128ClMul_loop dot].
  - rewrite Z.lxor_0_r. auto.
  - apply Forall_cons_iff in Fx as [Ha Fx], Fy as [Hb Fy]. pose proof (Gf128ClMul_ok a b Ha Hb) as C.
    destruct (Gf128ClMul a b) as [high low]. destruct C as (I1 & I2 & E).
    pose proof (IH y (Z.lxor rh high) (Z.lxor rl low) ltac:(lia) Fx Fy (lxor_in128 _ _ Ih I1) (lxor_in128 _ _ Il I2)) as R.
    destruct (Gf128ClMul_loop _ _ _ _) as [h l]. destruct R as (R1 & R2 & R3). split; [exact R1|]. split; [exact R2|].
    rewrite R3, lxor_shl, E, lxor_swap. now rewrite !Z.lxor_assoc.
Qed.

Lemma Gf128Mul_span_ok x y : length x = length y -> Forall in128 x -> Forall in128 y ->
  exists r, Gf128Mul_span x y = Some r /\ in128 r /\ cong P128 (dot x y) r.
Proof.
  intros L Fx Fy. unfold Gf128Mul_span. rewrite (proj2 (Nat.eqb_eq _ _) L).
  assert (I0 : in128 0) by (split; [discriminate|reflexivity]).
  pose proof (Gf128ClMul_loop_ok x y 0 0 L Fx Fy I0 I0) as C. destruct (Gf128ClMul_loop x y 0 0) as [high low].
  destruct C as (I1 & I2 & E). rewrite Z.shiftl_0_l, !Z.lxor_0_l in E. eexists. split; [reflexivity|].
  rewrite <- E. now apply Gf128Reduce_ok.
Qed.
