(* ===== verification/GfField.v ===== *)
(** The two fields of [math/galois_field]: [Gf64Mul] and [Gf128Mul] as instances
    of multiplication modulo a polynomial, the inverse in GF(2^64) by its
    addition chain, and the universal hash with the coefficients extracted from
    it. *)
From Stdlib Require Import ZArith Lia List Bool.
From S2P Require Import Prelude.
From S2P Require Import Int128.
From S2P Require Import Gf2x.
From S2P Require Import Gf.
Import ListNotations.

#[export] Instance Gf64_field : GF2n 64 P64 Gf64Mul.
Proof. split; [reflexivity|reflexivity|exact Gf64Mul_ok]. Qed.

#[export] Instance Gf128_field : GF2n 128 P128 Gf128Mul.
Proof. split; [reflexivity|reflexivity|exact Gf128Mul_ok]. Qed.

(** ** The inverse *)

#[local] Abbreviation mul64_assoc := (mul_assoc (mul := Gf64Mul)).
#[local] Abbreviation mul64_comm := (mul_comm (mul := Gf64Mul)).
#[local] Abbreviation mul64_lxor_r := (mul_lxor_r (mul := Gf64Mul)).
#[local] Abbreviation mul64_0_r := (mul_0_r (mul := Gf64Mul)).
#[local] Abbreviation mul64_unique := (mul_unique (mul := Gf64Mul)).
#[local] Abbreviation mul64_word := (mul_word (mul := Gf64Mul)).

Lemma Gf64Sq_times_gpow n : forall x a, word 64 x -> 0 < a -> Gf64Sq_times n (gpow Gf64Mul x a) = gpow Gf64Mul x (a * 2 ^ Z.of_nat n).
Proof.
  induction n as [|n IH]; intros x a Hx Ha; cbn [Gf64Sq_times]; [now rewrite Z.mul_1_r|].
  rewrite (gpow_add Gf64Mul), IH by (assumption || lia). f_equal. rewrite Nat2Z.inj_succ, Z.pow_succ_r by lia. lia.
Qed.

(** The addition chain computes x^(2^64 - 2): exponents add up step by step. *)
Ltac chain_step x Hx :=
  match goal with
  | |- context [Gf64Mul (gpow Gf64Mul x ?a) (gpow Gf64Mul x ?b)] =>
      rewrite (gpow_add Gf64Mul x a b Hx) by lia; let c := eval vm_compute in (a + b) in change (a + b) with c
  | |- context [Gf64Sq_times ?n (gpow Gf64Mul x ?a)] =>
      rewrite (Gf64Sq_times_gpow n x a Hx eq_refl);
      let c := eval vm_compute in (a * 2 ^ Z.of_nat n) in change (a * 2 ^ Z.of_nat n) with c
  end.

Lemma Gf64Inv_gpow x : word 64 x -> Gf64Inv x = gpow Gf64Mul x (2 ^ 64 - 2).
Proof.
  intros Hx. assert (H : forall y, y = gpow Gf64Mul x 1 -> Gf64Inv y = gpow Gf64Mul x (2 ^ 64 - 2)); [|now apply H].
  intros y ->. unfold Gf64Inv. cbv zeta. repeat chain_step x Hx. reflexivity.
Qed.

(** *** The field: Frobenius, idempotents and inverses *)

Lemma Sq_times_in n : forall x, word 64 x -> word 64 (Gf64Sq_times n x).
Proof. induction n as [|n IH]; intros x Hx; cbn [Gf64Sq_times]; [exact Hx|]. apply IH. now eapply mul64_word. Qed.

Lemma sq_lxor x y : word 64 x -> word 64 y -> Gf64Mul (Z.lxor x y) (Z.lxor x y) = Z.lxor (Gf64Mul x x) (Gf64Mul y y).
Proof.
  intros Hx Hy. rewrite mul64_lxor_r, !(mul64_comm (Z.lxor x y)), !mul64_lxor_r by auto with gf.
  rewrite (mul64_comm y x) by assumption. apply Z.bits_inj'. intros i _. rewrite !Z.lxor_spec.
  now destruct (Z.testbit (Gf64Mul x x) i), (Z.testbit (Gf64Mul x y) i), (Z.testbit (Gf64Mul y y) i).
Qed.

Lemma Sq_times_lxor n : forall x y, word 64 x -> word 64 y ->
  Gf64Sq_times n (Z.lxor x y) = Z.lxor (Gf64Sq_times n x) (Gf64Sq_times n y).
Proof.
  induction n as [|n IH]; intros x y Hx Hy; cbn [Gf64Sq_times]; [reflexivity|].
  rewrite sq_lxor by assumption. apply IH; now eapply mul64_word.
Qed.

Lemma Sq_times_mul n : forall x y, word 64 x -> word 64 y ->
  Gf64Sq_times n (Gf64Mul x y) = Gf64Mul (Gf64Sq_times n x) (Gf64Sq_times n y).
Proof.
  induction n as [|n IH]; intros x y Hx Hy; cbn [Gf64Sq_times]; [reflexivity|].
  rewrite <- IH by now eapply mul64_word. f_equal.
  rewrite (mul64_assoc x y), <- (mul64_assoc y x y), (mul64_comm y x) by auto with gf.
  rewrite (mul64_assoc x y y), <- !(mul64_assoc x x) by auto with gf. reflexivity.
Qed.

(** x^(2^64) = x: it holds for X, and both sides respect sums and products. *)
Lemma frobenius_X : Gf64Sq_times 64 2 = 2.
Proof. vm_compute. reflexivity. Qed.

Lemma frobenius_1 n : Gf64Sq_times n 1 = 1.
Proof. induction n as [|n IH]; [reflexivity|]. cbn [Gf64Sq_times]. change (Gf64Mul 1 1) with 1. exact IH. Qed.

Lemma frobenius_0 n : Gf64Sq_times n 0 = 0.
Proof. induction n as [|n IH]; [reflexivity|]. cbn [Gf64Sq_times]. change (Gf64Mul 0 0) with 0. exact IH. Qed.

Lemma double_is_mul b : 0 <= b < 2 ^ 63 -> Gf64Mul b 2 = b [<<] 1.
Proof.
  intros Hb. apply mul64_unique; [unfold word; lia|split; [discriminate|reflexivity]| |].
  - rewrite Z.shiftl_mul_pow2 by lia. unfold word. lia.
  - change 2 with (2 ^ 1) at 1. rewrite pmul_pow2 by lia. apply cong_refl; reflexivity.
Qed.

Lemma frobenius x : word 64 x -> Gf64Sq_times 64 x = x.
Proof.
  intros Hx. enough (H : forall x, 0 <= x -> x < 2 ^ 64 -> Gf64Sq_times 64 x = x) by (apply H; apply Hx).
  clear x Hx. apply (bits_ind (fun x => x < 2 ^ 64 -> Gf64Sq_times 64 x = x)); [intros _; apply frobenius_0|].
  intros b c Hb IH Hx. assert (Hb' : 0 <= b < 2 ^ 63) by (unfold Z.b2z in Hx; destruct c; lia).
  rewrite double_shl, <- double_is_mul by assumption.
  assert (I2 : word 64 2) by (split; [discriminate|reflexivity]). assert (Ib : word 64 b) by (unfold word; lia).
  assert (Ic : word 64 (Z.b2z c)) by (destruct c; (split; [discriminate|reflexivity])).
  rewrite Sq_times_lxor, Sq_times_mul, frobenius_X, IH by (assumption || (now eapply mul64_word) || lia).
  f_equal. destruct c; [apply frobenius_1|apply frobenius_0].
Qed.

(** A linear map over GF(2), by its columns. *)
Fixpoint linear (cols : list Z) (y : Z) : Z :=
  match cols with
  | [] => 0
  | c :: cols => Z.lxor (if Z.testbit y 0 then c else 0) (linear cols (y [>>] 1))
  end.

(** A left inverse of e -> e^2 + e, apart from bit 0. *)
Definition unsquare : list Z :=
  [0x19c9369f278adc02; 0x84b2b22ab2383ee4; 0x84b2b22ab2383ee6; 0x9d7b84b495b3e3f6; 0x84b2b22ab2383ee2;
   0x37c470b49213f790; 0x9d7b84b495b3e3fe; 0x1000a0105137c; 0x84b2b22ab2383ef2; 0x368e964a8edce1fc;
   0x37c470b49213f7b0; 0x19c9368e278fdf4c; 0x9d7b84b495b3e3be; 0x2e4da23cbc7d4570; 0x1000a010513fc;
   0x84f35772bac24232; 0x84b2b22ab2383ff2; 0x37c570ba9314e4fc; 0x368e964a8edce3fc; 0xb377c390213cdb0e;
   0x37c470b49213f3b0; 0x85ed5a3aa99c24f2; 0x19c9368e278fd74c; 0xaabff0000780000e; 0x9d7b84b495b3f3be;
   0x84b6b3dab03038f2; 0x2e4da23cbc7d6570; 0x511ea03494ffc; 0x1000a010553fc; 0xae0c0220343c6c0e;
   0x84f35772bac2c232; 0x800000008000000e; 0x84b2b22ab2393ff2; 0xb376c29c202bc97e; 0x37c570ba9316e4fc;
   0x9c3062488879e6ce; 0x368e964a8ed8e3fc; 0x41e42c08e47e70; 0xb377c3902134db0e; 0x85b9b108a60f56ce;
   0x37c470b49203f3b0; 0x19dd3b6e21f3cb4c; 0x85ed5a3aa9bc24f2; 0x198ddf682c428ac0; 0x19c9368e27cfd74c;
   0x4b7c68431ca84b0; 0xaabff0000700000e; 0x8040655489ffefbe; 0x9d7b84b494b3f3be; 0x18c1354e32bfa74c;
   0x84b6b3dab23038f2; 0xaaf613cc0f74627e; 0x2e4da23cb87d6570; 0x3248b3d6b3342a8c; 0x511ea0b494ffc;
   0xb60813c00e70700e; 0x1000a110553fc; 0x1e0d022a05393ffc; 0xae0c0220143c6c0e; 0xe0c0220143c6c00;
   0x84f35772fac2c232; 0x0; 0x800000000000000e; 0xc041e55948fbfdce].

Lemma linear_lxor cols : forall y z, linear cols (Z.lxor y z) = Z.lxor (linear cols y) (linear cols z).
Proof.
  induction cols as [|c cols IH]; intros y z; cbn [linear]; [reflexivity|].
  rewrite Z.shiftr_lxor, IH, Z.lxor_spec, lxor_swap. f_equal.
  destruct (Z.testbit y 0), (Z.testbit z 0); cbn [xorb]; now rewrite ?Z.lxor_nilpotent, ?Z.lxor_0_r, ?Z.lxor_0_l.
Qed.

(** Additive functions that agree on the powers of X agree. *)
Lemma additive_ext (f g : Z -> Z) :
  (forall x y, word 64 x -> word 64 y -> f (Z.lxor x y) = Z.lxor (f x) (f y)) ->
  (forall x y, word 64 x -> word 64 y -> g (Z.lxor x y) = Z.lxor (g x) (g y)) ->
  (forall i, (i < 64)%nat -> f (2 ^ Z.of_nat i) = g (2 ^ Z.of_nat i)) -> forall x, word 64 x -> f x = g x.
Proof.
  intros Hf Hg B. assert (I0 : word 64 0) by (split; [discriminate|reflexivity]).
  assert (f0 : f 0 = 0) by (pose proof (Hf 0 0 I0 I0) as E; change (Z.lxor 0 0) with 0 in E; rewrite Z.lxor_nilpotent in E; exact E).
  assert (g0 : g 0 = 0) by (pose proof (Hg 0 0 I0 I0) as E; change (Z.lxor 0 0) with 0 in E; rewrite Z.lxor_nilpotent in E; exact E).
  enough (H : forall n, (n <= 64)%nat -> forall x, 0 <= x < 2 ^ Z.of_nat n -> f x = g x) by (intros x Hx; now apply (H 64%nat)).
  induction n as [|n IH]; intros Hn x Hx.
  - replace x with 0 by (cbn in Hx; lia). congruence.
  - assert (P : 2 ^ Z.of_nat (S n) = 2 * 2 ^ Z.of_nat n) by (rewrite Nat2Z.inj_succ, Z.pow_succ_r; lia).
    assert (P64' : 2 ^ Z.of_nat (S n) <= 2 ^ 64) by (apply Z.pow_le_mono_r; lia).
    assert (Hm : 0 <= x mod 2 ^ Z.of_nat n < 2 ^ Z.of_nat n) by (apply Z.mod_pos_bound; lia).
    assert (Hh : word 64 ((x [>>] Z.of_nat n) [<<] Z.of_nat n)).
    { unfold word. rewrite Z.shiftl_mul_pow2, Z.shiftr_div_pow2 by lia. pose proof (Z.div_mod x (2 ^ Z.of_nat n) ltac:(lia)).
      assert (0 <= x / 2 ^ Z.of_nat n) by (apply Z.div_pos; lia). nia. }
    assert (Hl : word 64 (x mod 2 ^ Z.of_nat n)) by (unfold word; lia).
    rewrite (split_shl x (Z.of_nat n)) by lia. rewrite Hf, Hg by assumption.
    rewrite (IH ltac:(lia) (x mod 2 ^ Z.of_nat n) Hm). f_equal.
    assert (D : x [>>] Z.of_nat n = 0 \/ x [>>] Z.of_nat n = 1).
    { rewrite Z.shiftr_div_pow2 by lia. pose proof (Z.div_mod x (2 ^ Z.of_nat n) ltac:(lia)). nia. }
    destruct D as [-> | ->].
    + rewrite Z.shiftl_0_l. congruence.
    + rewrite Z.shiftl_mul_pow2, Z.mul_1_l by lia. apply B. lia.
Qed.

Lemma unsquare_ok : forallb (fun i => linear unsquare (Z.lxor (Gf64Mul (2 ^ Z.of_nat i) (2 ^ Z.of_nat i)) (2 ^ Z.of_nat i))
                              =? Z.ldiff (2 ^ Z.of_nat i) 1) (seq 0 64) = true.
Proof. vm_compute. reflexivity. Qed.

Lemma idempotent e : word 64 e -> Gf64Mul e e = e -> e = 0 \/ e = 1.
Proof.
  intros He E.
  assert (H : linear unsquare (Z.lxor (Gf64Mul e e) e) = Z.ldiff e 1).
  { apply (additive_ext (fun e => linear unsquare (Z.lxor (Gf64Mul e e) e)) (fun e => Z.ldiff e 1)); [| | |exact He].
    - intros x y Hx Hy. rewrite sq_lxor, lxor_swap by assumption. apply linear_lxor.
    - intros x y _ _. apply Z.bits_inj'. intros i _. rewrite !Z.lxor_spec, !Z.ldiff_spec, Z.lxor_spec.
      now destruct (Z.testbit x i), (Z.testbit y i), (Z.testbit 1 i).
    - intros i Hi. pose proof unsquare_ok as U. rewrite forallb_forall in U. apply Z.eqb_eq, U, in_seq. lia. }
  rewrite E, Z.lxor_nilpotent in H. change (linear unsquare 0) with 0 in H. symmetry in H.
  assert (B : forall i, 0 < i -> Z.testbit e i = false).
  { intros i Hi. assert (X : Z.testbit (Z.ldiff e 1) i = false) by (rewrite H; apply Z.bits_0). rewrite Z.ldiff_spec in X.
    change 1 with (2 ^ 0) in X. rewrite Z.pow2_bits_false in X by lia. cbn in X. now rewrite andb_true_r in X. }
  destruct (Z.testbit e 0) eqn:E0; [right|left]; apply Z.bits_inj'; intros i Hi; destruct (Z.eq_dec i 0) as [->|Hn].
  - exact E0.
  - rewrite B by lia. symmetry. apply (Z.pow2_bits_false 0). lia.
  - now rewrite Z.bits_0.
  - now rewrite B, Z.bits_0 by lia.
Qed.

(** [Gf64Inv] inverts: x * x^(2^64-2) is idempotent and not zero. *)
Lemma Gf64Inv_in x : word 64 x -> word 64 (Gf64Inv x).
Proof. intros Hx. rewrite Gf64Inv_gpow by exact Hx. now apply (gpow_in Gf64Mul). Qed.

Lemma gpow_frobenius x : word 64 x -> gpow Gf64Mul x (2 ^ 64) = x.
Proof.
  intros Hx. pose proof (Gf64Sq_times_gpow 64 x 1 Hx eq_refl) as E. rewrite gpow_1, frobenius in E by exact Hx. symmetry. exact E.
Qed.

Lemma Gf64Inv_ok x : word 64 x -> x <> 0 -> Gf64Mul x (Gf64Inv x) = 1.
Proof.
  intros Hx Hn. rewrite Gf64Inv_gpow by exact Hx. rewrite <- (gpow_1 Gf64Mul x) at 1. rewrite (gpow_add Gf64Mul) by (assumption || lia).
  change (1 + (2 ^ 64 - 2)) with (2 ^ 64 - 1). set (e := gpow Gf64Mul x (2 ^ 64 - 1)).
  assert (He : word 64 e) by now apply (gpow_in Gf64Mul).
  assert (Ex : Gf64Mul x e = x).
  { unfold e. rewrite <- (gpow_1 Gf64Mul x) at 1. rewrite (gpow_add Gf64Mul) by (assumption || lia). exact (gpow_frobenius x Hx). }
  destruct (idempotent e He) as [E|E]; [|rewrite E in Ex; rewrite mul64_0_r in Ex by exact Hx; congruence|exact E].
  unfold e. rewrite (gpow_add Gf64Mul) by (assumption || lia).
  change (2 ^ 64 - 1 + (2 ^ 64 - 1)) with (2 ^ 64 + (2 ^ 64 - 2)). rewrite <- (gpow_add Gf64Mul), gpow_frobenius by (assumption || lia).
  rewrite <- (gpow_1 Gf64Mul x) at 1. rewrite (gpow_add Gf64Mul) by (assumption || lia). reflexivity.
Qed.

(** ** The universal hash *)

(** The bit that a power of two selects. *)
Lemma land_pow2 e a : 0 <= a -> Z.land e (2 ^ a) = if Z.testbit e a then 2 ^ a else 0.
Proof.
  intros Ha. apply Z.bits_inj'. intros i Hi. rewrite Z.land_spec, Z.pow2_bits_eqb by exact Ha.
  destruct (Z.eqb_spec a i) as [->|E].
  - destruct (Z.testbit e i); [now rewrite Z.pow2_bits_true|now rewrite Z.bits_0].
  - rewrite andb_false_r. destruct (Z.testbit e a); [rewrite Z.pow2_bits_false by lia|rewrite Z.bits_0]; reflexivity.
Qed.

Section Hash.
Context (mul : Z -> Z -> Z) {n P : Z} {GF : GF2n n P mul}.

(** Position i of the data weighs seed^(k+i). *)
Fixpoint hash_sum (seed k : Z) (data : list Z) : Z :=
  match data with
  | [] => 0
  | d :: data => Z.lxor (mul d (gpow mul seed k)) (hash_sum seed (k + 1) data)
  end.

Lemma hash_sum_word seed data : word n seed -> Forall (word n) data -> forall k, word n (hash_sum seed k data).
Proof.
  intros Hs F. induction F as [|d data Hd F IH]; intros k; cbn [hash_sum]; [eapply word_0|].
  eapply word_lxor; [eapply mul_word; [exact Hd|now apply (gpow_in mul)]|apply IH].
Qed.

Lemma hash_sum_step seed data : word n seed -> Forall (word n) data -> forall k, 0 <= k ->
  mul seed (hash_sum seed k data) = hash_sum seed (k + 1) data.
Proof.
  intros Hs F. induction F as [|d data Hd F IH]; intros k Hk; cbn [hash_sum]; [now apply mul_0_r|].
  pose proof (gpow_in mul seed k Hs) as Hp.
  rewrite mul_lxor_r, IH by first [assumption | now apply hash_sum_word | eapply mul_word; eassumption | lia]. f_equal.
  rewrite <- mul_assoc, (mul_comm (mul := mul) seed d), mul_assoc by assumption. f_equal.
  rewrite <- (gpow_1 mul seed) at 1. rewrite (gpow_add mul) by (assumption || lia). f_equal. lia.
Qed.

Lemma UniversalHash_cons seed d data :
  UniversalHash mul seed (d :: data) = mul seed (Z.lxor (UniversalHash mul seed data) d).
Proof. unfold UniversalHash. cbn [rev]. now rewrite fold_left_app. Qed.

Lemma UniversalHash_sum seed data : word n seed -> Forall (word n) data ->
  UniversalHash mul seed data = hash_sum seed 1 data.
Proof.
  intros Hs F. induction F as [|d data Hd F IH]; [reflexivity|].
  rewrite UniversalHash_cons, IH. cbn [hash_sum].
  rewrite mul_lxor_r by first [assumption | now apply hash_sum_word | eapply mul_word; eassumption]. rewrite hash_sum_step by (assumption || lia).
  rewrite (gpow_1 mul), (mul_comm (mul := mul) seed d) by assumption. apply Z.lxor_comm.
Qed.

(** One nonzero position. *)
Lemma hash_sum_zeros seed m k : word n seed -> hash_sum seed k (repeat 0 m) = 0.
Proof.
  intros Hs. revert k; induction m as [|m IH]; intros k; cbn [repeat hash_sum]; [reflexivity|].
  rewrite IH, mul_0_l by now apply (gpow_in mul). reflexivity.
Qed.

Lemma hash_sum_single seed v m : word n seed -> word n v -> forall i k,
  hash_sum seed k (repeat 0 i ++ v :: repeat 0 m) = mul v (gpow mul seed (k + Z.of_nat i)).
Proof.
  intros Hs Hv. induction i as [|i IH]; intros k; cbn [repeat app hash_sum].
  - rewrite hash_sum_zeros, Z.lxor_0_r by exact Hs. do 2 f_equal. lia.
  - rewrite IH, mul_0_l, Z.lxor_0_l by now apply (gpow_in mul). do 2 f_equal. lia.
Qed.

(** *** Coefficients *)

Lemma hash_squares_nth seed : word n seed -> forall k a i, 0 <= a -> (i < k)%nat ->
  nth i (hash_squares mul k (gpow mul seed (2 ^ a))) 0 = gpow mul seed (2 ^ (a + 1 + Z.of_nat i)).
Proof.
  intros Hs. induction k as [|k IH]; intros a i Ha Hi; [lia|]. cbn [hash_squares].
  assert (E : mul (gpow mul seed (2 ^ a)) (gpow mul seed (2 ^ a)) = gpow mul seed (2 ^ (a + 1))).
  { assert (0 < 2 ^ a) by (apply Z.pow_pos_nonneg; lia). rewrite (gpow_add mul) by (assumption || lia). f_equal.
    rewrite Z.pow_add_r; lia. }
  cbv zeta. rewrite E. destruct i as [|i]; cbn [nth]; [do 2 f_equal; lia|].
  rewrite IH by lia. do 2 f_equal. lia.
Qed.

Lemma hash_squares_length k t : length (hash_squares mul k t) = k.
Proof. revert t; induction k as [|k IH]; intros t; cbn; [reflexivity|]. now rewrite IH. Qed.

(** From bit [a] on, the loop multiplies in the bits of the exponent. *)
Lemma hash_coef_ok seed e : word n seed -> 0 <= e < 2 ^ 64 -> forall buff a, 0 <= a -> a + Z.of_nat (length buff) = 64 ->
  (forall i, (i < length buff)%nat -> 2 ^ (a + Z.of_nat i) <= e -> nth i buff 0 = gpow mul seed (2 ^ (a + Z.of_nat i))) ->
  hash_coef mul buff e (2 ^ a) (gpow mul seed (e mod 2 ^ a)) = gpow mul seed e.
Proof.
  intros Hs He. induction buff as [|b buff IH]; intros a Ha L B; cbn [hash_coef length] in *.
  - replace a with 64 by lia. now rewrite Z.mod_small.
  - destruct (Z.leb_spec (2 ^ a) e) as [Hle|Hgt]; [|rewrite Z.mod_small by lia; reflexivity].
    assert (Eb : b = gpow mul seed (2 ^ a)).
    { pose proof (B 0%nat ltac:(lia)) as X. rewrite Z.add_0_r in X. exact (X Hle). }
    assert (P0 : 0 < 2 ^ a) by (apply Z.pow_pos_nonneg; lia).
    assert (M : e mod 2 ^ (a + 1) = e mod 2 ^ a + (if Z.testbit e a then 2 ^ a else 0)).
    { rewrite Z.testbit_eqb by lia. pose proof (Z.rem_mul_r e (2 ^ a) 2 ltac:(lia) ltac:(lia)) as R.
      rewrite Z.pow_add_r by lia. change (2 ^ 1) with 2. rewrite R.
      pose proof (Z.mod_pos_bound (e / 2 ^ a) 2 ltac:(lia)). destruct (Z.eqb_spec ((e / 2 ^ a) mod 2) 1); nia. }
    assert (C : (if Z.land (2 ^ a) e =? 0 then gpow mul seed (e mod 2 ^ a) else mul (gpow mul seed (e mod 2 ^ a)) b)
                = gpow mul seed (e mod 2 ^ (a + 1))).
    { rewrite M. pose proof (Z.mod_pos_bound e (2 ^ a) P0). rewrite Z.land_comm, land_pow2 by lia. destruct (Z.testbit e a).
      - destruct (Z.eqb_spec (2 ^ a) 0); [lia|]. rewrite Eb. apply (gpow_add mul); assumption || lia.
      - rewrite Z.add_0_r. reflexivity. }
    cbv zeta. rewrite C. destruct (Z_lt_le_dec (a + 1) 64) as [H|H].
    + replace (u64 (2 ^ a [<<] 1)) with (2 ^ (a + 1)).
      * apply IH; [lia|lia|]. intros i Hi Hp. pose proof (B (S i) ltac:(lia)) as X. cbn [nth] in X.
        replace (a + Z.of_nat (S i)) with (a + 1 + Z.of_nat i) in X by lia. now apply X.
      * unfold u64, uwrap. rewrite Z.shiftl_mul_pow2, <- Z.pow_add_r by lia. symmetry. apply Z.mod_small.
        split; [apply Z.pow_nonneg; lia|apply Z.pow_lt_mono_r; lia].
    + destruct buff; [|cbn in L; lia]. cbn [hash_coef]. replace (a + 1) with 64 by lia. now rewrite Z.mod_small.
Qed.

(** Sorted indexes, the last one between 2 and 2^63. *)
Lemma ExtractHashCoef_ok seed indexes : word n seed -> 2 <= last indexes 0 <= 2 ^ 63 ->
  Forall (fun i => 0 <= i <= last indexes 0) indexes ->
  ExtractHashCoef mul seed indexes = Some (map (fun i => gpow mul seed (i + 1)) indexes).
Proof.
  intros Hs Hb F. unfold ExtractHashCoef. set (b := last indexes 0) in *.
  assert (Lb : Log2Ceil b = Some (Z.log2 (b - 1) + 1)).
  { unfold Log2Ceil, Log2Floor. destruct (Z.eqb_spec b 0), (Z.eqb_spec b 1), (Z.eqb_spec (b - 1) 0); lia || reflexivity. }
  rewrite Lb. set (l := Z.log2 (b - 1)) in *.
  assert (Hl : 0 <= l < 63) by (split; [apply Z.log2_nonneg|apply Z.log2_lt_pow2; lia]).
  destruct (Z.leb_spec 64 (l + 1)); [lia|]. f_equal. apply map_ext_in. intros i Hi. rewrite Forall_forall in F. pose proof (F i Hi) as Hib.
  cbv beta in Hib. replace (u64 (i + 1)) with (i + 1) by (unfold u64, uwrap; symmetry; apply Z.mod_small; lia).
  pose proof (Z.log2_spec (b - 1) ltac:(lia)) as [_ Hlog]. fold l in Hlog.
  assert (E1 : gpow mul seed ((i + 1) mod 2 ^ 0) = 1) by (rewrite Z.pow_0_r, Z.mod_1_r; reflexivity).
  match goal with |- hash_coef _ ?buff _ _ _ = _ => pose proof (hash_coef_ok seed (i + 1) Hs ltac:(lia) buff 0 ltac:(lia)) as R end.
  rewrite E1, Z.pow_0_r in R. apply R; clear R.
  - cbn [length]. rewrite length_app, hash_squares_length, repeat_length. lia.
  - intros j Hj Hp. rewrite Z.add_0_l in *. assert (Hjl : Z.of_nat j <= l + 1).
    { destruct (Z_le_gt_dec (Z.of_nat j) (l + 1)) as [H'|H']; [exact H'|exfalso].
      assert (2 ^ (l + 2) <= 2 ^ Z.of_nat j) by (apply Z.pow_le_mono_r; lia).
      rewrite <- Z.add_1_r in Hlog. replace (l + 2) with (l + 1 + 1) in * by lia.
      rewrite (Z.pow_add_r 2 (l + 1) 1) in * by lia. change (2 ^ 1) with 2 in *.
      assert (2 <= 2 ^ (l + 1)) by (replace 2 with (2 ^ 1) at 1 by reflexivity; apply Z.pow_le_mono_r; lia). lia. }
    destruct j as [|j]; [cbn [nth]; now rewrite Z.pow_0_r|]. cbn [nth].
    rewrite app_nth1 by (rewrite hash_squares_length; lia).
    pose proof (hash_squares_nth seed Hs (Z.to_nat (l + 1)) 0 j ltac:(lia) ltac:(lia)) as R.
    rewrite Z.pow_0_r, gpow_1 in R. rewrite R. do 2 f_equal. lia.
Qed.
End Hash.

(** With 1 as the last index no square is computed, and its coefficient is 0. *)
Lemma ExtractHashCoef_one (mul : Z -> Z -> Z) seed : mul 1 0 = 0 -> ExtractHashCoef mul seed [1] = Some [0].
Proof. intros H. unfold ExtractHashCoef. cbn [last Log2Ceil Z.eqb Z.leb Z.compare Pos.eqb Pos.compare Pos.compare_cont]. cbn. now rewrite H. Qed.

(** ** Products of vectors *)

Section Vectors.
Context (mul : Z -> Z -> Z) {n P : Z} {GF : GF2n n P mul}.

(** The inner product, reduced term by term. *)
Fixpoint inner (x y : list Z) : Z :=
  match x, y with
  | a :: x, b :: y => Z.lxor (mul a b) (inner x y)
  | _, _ => 0
  end.

Lemma inner_ok x y : Forall (word n) x -> Forall (word n) y -> word n (inner x y) /\ cong P (dot x y) (inner x y).
Proof.
  intros Fx. revert y; induction Fx as [|a x Ha Fx IH]; intros [|b y] Fy; cbn [inner dot]; try (split; [eapply word_0|apply cong_refl]).
  apply Forall_cons_iff in Fy as [Hb Fy]. destruct (IH y Fy) as [I C]. destruct (gf_mul a b Ha Hb) as [I' C'].
  split; [now eapply word_lxor|]. eapply (cong_lxor P); [eapply gf_pos|exact C'|exact C].
Qed.

(** A short remainder of the sum of products is the inner product. *)
Lemma inner_unique x y r : Forall (word n) x -> Forall (word n) y -> word n r -> cong P (dot x y) r -> r = inner x y.
Proof.
  intros Fx Fy Hr C. destruct (inner_ok x y Fx Fy) as [I C']. apply (cong_unique P (gf_pos (GF := GF))).
  - now rewrite (gf_degree (GF2n := GF)).
  - now rewrite (gf_degree (GF2n := GF)).
  - eapply cong_trans; [eapply gf_pos|apply cong_sym; exact C|exact C'].
Qed.

Lemma inner_lxor_r c : forall x y, length c = length x -> length x = length y ->
  Forall (word n) c -> Forall (word n) x -> Forall (word n) y ->
  inner c (zip_lxor x y) = Z.lxor (inner c x) (inner c y).
Proof.
  induction c as [|k c IH]; intros [|a x] [|b y] L1 L2 Fc Fx Fy; cbn in L1, L2; try lia; cbn [inner zip_lxor]; [reflexivity|].
  apply Forall_cons_iff in Fc as [Hk Fc], Fx as [Ha Fx], Fy as [Hb Fy].
  rewrite IH, (mul_lxor_r (mul := mul)), lxor_swap by (assumption || lia). reflexivity.
Qed.
End Vectors.

Lemma Gf64Mul_span_inner x y : length x = length y -> Forall in64 x -> Forall in64 y ->
  Gf64Mul_span x y = Some (inner Gf64Mul x y).
Proof.
  intros L Fx Fy. destruct (Gf64Mul_span_ok x y L Fx Fy) as (r & -> & I & C). f_equal. now apply (inner_unique Gf64Mul).
Qed.

Lemma Gf128Mul_span_inner x y : length x = length y -> Forall in128 x -> Forall in128 y ->
  Gf128Mul_span x y = Some (inner Gf128Mul x y).
Proof.
  intros L Fx Fy. destruct (Gf128Mul_span_ok x y L Fx Fy) as (r & -> & I & C). f_equal. now apply (inner_unique Gf128Mul).
Qed.

Lemma zip_lxor_ok n : 0 <= n -> forall y z, length y = length z -> Forall (word n) y -> Forall (word n) z ->
  length (zip_lxor y z) = length y /\ Forall (word n) (zip_lxor y z).
Proof.
  intros Hn. induction y as [|a y IH]; intros [|b z] L Fy Fz; cbn in L; try lia; [now split|].
  apply Forall_cons_iff in Fy as [Ha Fy], Fz as [Hb Fz]. destruct (IH z ltac:(lia) Fy Fz) as [E F]. cbn [zip_lxor length].
  split; [now rewrite E|]. constructor; [now apply lxor_bound|exact F].
Qed.

Lemma word_zeros m : Forall (word 128) (repeat 0 m).
Proof. apply Forall_forall. intros x H. apply repeat_spec in H as ->. split; [lia|reflexivity]. Qed.
