(* ===== verification/SimplestOt.v ===== *)
(** The simplest OT of Chou and Orlandi: [ot_sender.c], [ot_receiver.c],
    [sc_random.c] and the hashing of [ge.c].  The protocol is first written over
    an abstract group; the code is shown to refine it, so that the receiver's
    key is the sender's key of index c. *)
From Stdlib Require Import ZArith Lia List Bool Zmod.
From S2P Require Import Prelude.
From S2P Require Import PrimeP.
From S2P Require Import Fp.
From S2P Require Import AbGroup.
From S2P Require Import Edwards.
From S2P Require Import Fe.
From S2P Require Import FeBytes.
From S2P Require Import Ge.
From S2P Require Import GeBytes.
From S2P Require Import BaseTable.
From S2P Require Import ScalarMult.
From S2P Require Import Slide.
From S2P Require Import VarTime.
From S2P Require Import Keccak.
Import ListNotations.

(** ** The code *)

(** [sc_random]: [rnd] is what [simpleot_randombytes] wrote into [x]. *)
Definition sc_random (rnd : list Z) (c : Z) : list Z :=
  let x := rnd in
  if c =? 0 then upd x 31 (u8 (Z.land (at_ x 31) 15))
  else
    let x := upd x 0 (u8 (Z.land (at_ x 0) 248)) in
    upd x 31 (u8 (Z.land (at_ x 31) 127)).

(** [ge_hash] of [ge.c]: [for (j = 0; j < 32; j++) in[j] = sp[j]; ...]. *)
Definition ge_hash (sp q : list Z) (p : ge_p3) : list Z :=
  let r := ge_p3_tobytes p in
  let inp := map (at_ sp) (seq 0 32) ++ map (at_ q) (seq 0 32) ++ map (at_ r) (seq 0 32) in
  simplest_ot_crypto_hash inp.

Record SIMPLEOT_SENDER := Sender { s_S_pack : list Z; s_y : list Z; s_yS : ge_p3 }.
Record SIMPLEOT_RECEIVER := Receiver { r_S_pack : list Z; r_S : ge_p3; r_xB : ge_p3; r_x : list Z }.

(** [for (i = 0; i < 3; i++) ge_p3_dbl_p3(&S, &S);] *)
Definition dbl3 (h : ge_p3) : ge_p3 := Nat.iter 3 ge_p3_dbl_p3 h.

Definition portable_sender_genS (rnd : list Z) : SIMPLEOT_SENDER * list Z :=
  let y := sc_random rnd 0 in
  let S := ge_scalarmult_base y in
  let S_pack := ge_p3_tobytes S in
  let S := dbl3 S in
  let s_pack := ge_p3_tobytes S in
  let yS := ge_scalarmult_vartime y S in
  let yS := dbl3 yS in
  (Sender s_pack y yS, S_pack).

(** [u] is the uninitialised local [Rs]; [Rs_pack] and [keys] are updated in place. *)
Definition portable_sender_keygen_check (u : ge_p3) (s : SIMPLEOT_SENDER) (Rs_pack : list Z)
    (keys : list Z * list Z) : bool * (list Z * (list Z * list Z)) :=
  let '(ret, Rs) := ge_frombytes_vartime u Rs_pack in
  if negb (ret =? 0) then (false, (Rs_pack, keys))
  else
    let Rs := dbl3 Rs in
    let Rs_pack := ge_p3_tobytes Rs in
    let P0 := ge_scalarmult_vartime (s_y s) Rs in
    let key0 := ge_hash (s_S_pack s) Rs_pack P0 in
    let tmp := ge_p3_to_cached P0 in
    let tmp2 := ge_sub (s_yS s) tmp in
    let P1 := ge_p1p1_to_p3 tmp2 in
    let key1 := ge_hash (s_S_pack s) Rs_pack P1 in
    (true, (Rs_pack, (key0, key1))).

(** [exit(-1)] is [None]. *)
Definition portable_sender_keygen (u : ge_p3) (s : SIMPLEOT_SENDER) (Rs_pack : list Z)
    (keys : list Z * list Z) : option (list Z * (list Z * list Z)) :=
  let '(ok, out) := portable_sender_keygen_check u s Rs_pack keys in
  if negb ok then None else Some out.

Definition portable_receiver_procS_check (u : ge_p3) (r : SIMPLEOT_RECEIVER) : bool * SIMPLEOT_RECEIVER :=
  let '(ret, S_) := ge_frombytes_vartime u (r_S_pack r) in
  if negb (ret =? 0) then (false, r)
  else
    let S_ := dbl3 S_ in
    (true, Receiver (ge_p3_tobytes S_) S_ (r_xB r) (r_x r)).

Definition portable_receiver_procS (u : ge_p3) (r : SIMPLEOT_RECEIVER) : option SIMPLEOT_RECEIVER :=
  let '(success, r) := portable_receiver_procS_check u r in
  if negb success then None else Some r.

Definition portable_receiver_rsgen (rnd : list Z) (r : SIMPLEOT_RECEIVER) (c : Z) : SIMPLEOT_RECEIVER * list Z :=
  let x := sc_random rnd 1 in
  let r_xB' := ge_scalarmult_base x in
  let xB := ge_p3_to_cached r_xB' in
  let P := ge_sub (r_S r) xB in
  let P_tmp := ge_p1p1_to_p3 P in
  let r_xB' := ge_p3_cmov r_xB' P_tmp c in
  (Receiver (r_S_pack r) (r_S r) r_xB' x, ge_p3_tobytes r_xB').

Definition portable_receiver_keygen (r : SIMPLEOT_RECEIVER) : SIMPLEOT_RECEIVER * list Z :=
  let xB := dbl3 (r_xB r) in
  let Rs_pack := ge_p3_tobytes xB in
  let P := ge_scalarmult_vartime (r_x r) (r_S r) in
  (Receiver (r_S_pack r) (r_S r) xB (r_x r), ge_hash (r_S_pack r) Rs_pack P).

(** ** The protocol over an abstract group *)

Section Protocol.
Context {G : Type} `{AbGroup G} {K : Type} (B : G) (hash : G -> G -> G -> K).
#[local] Open Scope group_scope.

(** The sender's secret y gives S = yB; the receiver's secret x and choice c
    give R = xB or 8S - xB; the keys hash 8S, 8R and a common point. *)
Definition spec_S (y : Z) : G := y · B.
Definition spec_R (x : Z) (c : bool) (S : G) : G := if c then 8 · S - x · B else x · B.
Definition spec_sender (y : Z) (R : G) : K * K :=
  let S := spec_S y in
  (hash (8 · S) (8 · R) (y · (8 · R)), hash (8 · S) (8 · R) (8 · (y · (8 · S)) - y · (8 · R))).
Definition spec_receiver (x : Z) (c : bool) (S : G) : K :=
  hash (8 · S) (8 · spec_R x c S) (x · (8 · S)).

Lemma spec_agree y x c :
  spec_receiver x c (spec_S y) =
  (if c then snd else fst) (spec_sender y (spec_R x c (spec_S y))).
Proof using Type.
  unfold spec_receiver, spec_sender, spec_R, spec_S. destruct c; cbn [fst snd]; f_equal.
  - rewrite !zmul_sub_r, !zmul_mul.
    replace (8 * y * 8 * y)%Z with (y * 8 * 8 * y)%Z by ring.
    replace (x * 8 * y)%Z with (y * 8 * x)%Z by ring.
    symmetry. apply gsub_sub.
  - rewrite !zmul_mul. f_equal. ring.
Qed.
End Protocol.

(** ** The code refines the protocol *)

(** The canonical encoding of a point. *)
Definition encode (P : point) : list Z := to_le 32 (Zmod.to_Z (py P) + 2 ^ 255 * neg (px P)).

Lemma point_bytes_encode P s : point_bytes P s -> s = encode P.
Proof.
  intros [[L B] V]. unfold encode. rewrite <- V, <- (to_le_le_val s B), L, le_val_to_le. f_equal.
  pose proof (le_val_bound s B) as Hb. rewrite L in Hb. symmetry. now apply Z.mod_small.
Qed.

Lemma tobytes_encode h P : rep_p3 h P -> ge_p3_tobytes h = encode P.
Proof. intros H. apply point_bytes_encode, ge_p3_tobytes_ok, H. Qed.

Lemma encode_bytes P : bytes 32 (encode P).
Proof. apply bytes_to_le. Qed.

Definition hash_points (S R P : point) : list Z :=
  simplest_ot_crypto_hash (encode S ++ encode R ++ encode P).

Lemma ge_hash_ok S R h P : rep_p3 h P -> ge_hash (encode S) (encode R) h = hash_points S R P.
Proof.
  intros H. unfold ge_hash, hash_points. rewrite (tobytes_encode h P H).
  rewrite <- (proj1 (encode_bytes S)) at 1. rewrite at_seq.
  rewrite <- (proj1 (encode_bytes R)) at 1. rewrite at_seq.
  rewrite <- (proj1 (encode_bytes P)) at 1. rewrite at_seq. reflexivity.
Qed.

Lemma dbl3_ok h P : rep_p3 h P -> rep_p3 (dbl3 h) (zmul 8 P).
Proof.
  intros H. unfold dbl3. change (Nat.iter 3 ge_p3_dbl_p3 h) with (ge_p3_dbl_p3 (ge_p3_dbl_p3 (ge_p3_dbl_p3 h))).
  replace (zmul 8 P) with (padd (padd (padd P P) (padd P P)) (padd (padd P P) (padd P P))).
  - now repeat apply ge_p3_dbl_p3_ok.
  - change padd with (gadd (G := point)). rewrite <- (zmul_1_l P) at 1 2 3 4 5 6 7 8.
    rewrite <- !zmul_add_l. reflexivity.
Qed.

(** The scalars: below 2^252 for the sender, a multiple of 8 below 2^255 for the receiver. *)
Lemma bytes_upd n l i v : bytes n l -> byte v -> bytes n (upd l i v).
Proof. intros [L B] Hv. split; [now rewrite length_upd|now apply Forall_upd]. Qed.

Lemma land_le x m k : 0 <= k -> m = Z.ones k -> 0 <= Z.land x m <= m.
Proof.
  intros Hk ->. rewrite Z.land_ones, Z.ones_equiv by lia.
  assert (0 < 2 ^ k) by (apply Z.pow_pos_nonneg; lia).
  pose proof (Z.mod_pos_bound x (2 ^ k)). lia.
Qed.

Lemma sc_random_bytes rnd c : bytes 32 rnd -> bytes 32 (sc_random rnd c) /\ at_ (sc_random rnd c) 31 <= 127.
Proof.
  intros H. pose proof (proj1 H) as L. unfold sc_random. cbv zeta. destruct (c =? 0).
  - split; [apply bytes_upd; [exact H|apply byte_u8]|]. rewrite at_upd_eq by lia.
    pose proof (land_le (at_ rnd 31) 15 4 ltac:(lia) eq_refl).
    unfold u8, uwrap. rewrite Z.mod_small by lia. lia.
  - split; [repeat apply bytes_upd; try exact H; apply byte_u8|]. rewrite at_upd_eq by (rewrite length_upd; lia).
    set (x := at_ _ 31). pose proof (land_le x 127 7 ltac:(lia) eq_refl).
    unfold u8, uwrap. rewrite Z.mod_small by lia. lia.
Qed.

Lemma le_val_upd l i v : (i < length l)%nat -> le_val (upd l i v) = le_val l + (v - at_ l i) * 256 ^ Z.of_nat i.
Proof.
  revert i; induction l as [|x l IH]; intros [|i] H; cbn [length] in H; try lia; cbn [upd le_val].
  - change (at_ (x :: l) 0) with x. change (256 ^ Z.of_nat 0) with 1. lia.
  - change (at_ (x :: l) (S i)) with (at_ l i). rewrite IH, Nat2Z.inj_succ, Z.pow_succ_r by lia. ring.
Qed.

Lemma le_val_top s : bytes 32 s -> exists lo, le_val s = lo + 2 ^ 248 * at_ s 31 /\ 0 <= lo < 2 ^ 248.
Proof.
  intros [L H]. exists (le_val (firstn 31 s)).
  assert (E : skipn 31 s = [at_ s 31]) by (explode s L; reflexivity).
  rewrite <- (firstn_skipn 31 s) in H. apply Forall_app in H as [H _].
  pose proof (le_val_bound _ H) as Hb. rewrite length_firstn, L in Hb.
  split; [|exact Hb].
  rewrite <- (firstn_skipn 31 s) at 1. rewrite le_val_app, E, length_firstn, L.
  change (le_val [at_ s 31]) with (at_ s 31 + 256 * 0).
  change (256 ^ Z.of_nat (Nat.min 31 32)) with (2 ^ 248). ring.
Qed.

Lemma land_248 b : byte b -> Z.land b 248 = b - b mod 8.
Proof.
  intros Hb. assert (T : forallb (fun n => Z.land (Z.of_nat n) 248 =? Z.of_nat n - Z.of_nat n mod 8) (seq 0 256) = true)
    by (vm_compute; reflexivity).
  rewrite forallb_forall in T. specialize (T (Z.to_nat b)). unfold byte in Hb. rewrite Z2Nat.id in T by lia.
  apply Z.eqb_eq, T, in_seq. lia.
Qed.

Lemma u8_land b m : byte b -> 0 <= m -> u8 (Z.land b m) = Z.land b m.
Proof.
  intros Hb Hm. apply byte_log2 in Hb as [Hb Hl]. apply Z.mod_small, byte_log2.
  split; [apply Z.land_nonneg; auto|]. pose proof (Z.log2_land b m Hb Hm). lia.
Qed.

Lemma le_val_mod_8 s : bytes 32 s -> le_val s mod 8 = at_ s 0 mod 8.
Proof.
  intros [L _]. destruct s as [|b s]; [discriminate L|]. cbn [le_val]. change (at_ (b :: s) 0) with b.
  replace (b + 256 * le_val s) with (b + (32 * le_val s) * 8) by ring. apply Z.mod_add. discriminate.
Qed.

(** The scalars drawn: 252 random bits for the sender, 255 random bits with the
    last three cleared for the receiver. *)
Lemma sc_random_0 rnd : bytes 32 rnd -> le_val (sc_random rnd 0) = le_val rnd mod 2 ^ 252.
Proof.
  intros H. pose proof (proj1 H) as L. unfold sc_random. cbv zeta. cbn [Z.eqb].
  rewrite le_val_upd by lia. pose proof (at_byte rnd 31 (proj2 H)) as Hb.
  rewrite (u8_land _ _ Hb) by discriminate. change 15 with (Z.ones 4). rewrite Z.land_ones by discriminate.
  destruct (le_val_top rnd H) as (lo & -> & Hlo). set (b := at_ rnd 31) in *.
  change (256 ^ Z.of_nat 31) with (2 ^ 248). change (2 ^ 252) with (2 ^ 248 * 2 ^ 4).
  pose proof (Z_div_mod_eq_full b (2 ^ 4)). pose proof (Z.mod_pos_bound b (2 ^ 4)).
  apply (Z.mod_unique_pos _ _ (b / 2 ^ 4)); lia.
Qed.

Lemma sc_random_1 rnd c : bytes 32 rnd -> c <> 0 ->
  le_val (sc_random rnd c) = le_val rnd mod 2 ^ 255 - le_val rnd mod 8.
Proof.
  intros H Hc. pose proof (proj1 H) as L. unfold sc_random. cbv zeta. destruct (Z.eqb_spec c 0); [contradiction|].
  pose proof (at_byte rnd 31 (proj2 H)) as Hb. pose proof (at_byte rnd 0 (proj2 H)) as H0.
  rewrite le_val_upd by (rewrite length_upd; lia). rewrite le_val_upd by lia.
  rewrite at_upd_ne by lia. rewrite (u8_land _ _ Hb), (u8_land _ _ H0), land_248 by (discriminate || exact H0).
  change 127 with (Z.ones 7). rewrite Z.land_ones, (le_val_mod_8 rnd H) by discriminate.
  destruct (le_val_top rnd H) as (lo & -> & Hlo). set (b := at_ rnd 31) in *.
  change (256 ^ Z.of_nat 31) with (2 ^ 248). change (256 ^ Z.of_nat 0) with 1. change (2 ^ 255) with (2 ^ 248 * 2 ^ 7).
  pose proof (Z_div_mod_eq_full b (2 ^ 7)). pose proof (Z.mod_pos_bound b (2 ^ 7)).
  rewrite <- (Z.mod_unique_pos (lo + 2 ^ 248 * b) (2 ^ 248 * 2 ^ 7) (b / 2 ^ 7) (lo + 2 ^ 248 * (b mod 2 ^ 7))); lia.
Qed.

Section Refinement.
#[local] Open Scope group_scope.

(** What the sender's and the receiver's records represent. *)
Definition sender_rep (s : SIMPLEOT_SENDER) (y : Z) : Prop :=
  bytes 32 (s_y s) /\ at_ (s_y s) 31 <= 127 /\ le_val (s_y s) = y /\
  s_S_pack s = encode (8 · spec_S B y) /\ rep_p3 (s_yS s) (8 · (y · (8 · spec_S B y))).

Definition receiver_rep (r : SIMPLEOT_RECEIVER) (S : point) : Prop :=
  r_S_pack r = encode (8 · S) /\ rep_p3 (r_S r) (8 · S).

Lemma genS_ok rnd : bytes 32 rnd ->
  let '(s, S_pack) := portable_sender_genS rnd in
  let y := le_val (sc_random rnd 0) in
  sender_rep s y /\ S_pack = encode (spec_S B y).
Proof using Type.
  intros H. destruct (sc_random_bytes rnd 0 H) as [Hy H31]. unfold portable_sender_genS. cbv zeta.
  set (y := sc_random rnd 0) in *. pose proof (ge_scalarmult_base_ok y Hy H31) as HS.
  pose proof (dbl3_ok _ _ HS) as H8. set (h := dbl3 _) in *. clearbody h.
  unfold sender_rep, spec_S. cbn [s_y s_S_pack s_yS].
  refine (conj (conj Hy (conj H31 (conj eq_refl (conj _ _)))) _).
  - apply tobytes_encode, H8.
  - apply dbl3_ok, ge_scalarmult_vartime_ok; assumption.
  - apply tobytes_encode, HS.
Qed.

(** Decoding a received point: it succeeds exactly on the strings that denote one. *)
Lemma procS_check_ok u r : bytes 32 (r_S_pack r) ->
  (exists S r', decodes (r_S_pack r) S /\ portable_receiver_procS_check u r = (true, r') /\ receiver_rep r' S) \/
  (undecodable (r_S_pack r) /\ portable_receiver_procS_check u r = (false, r)).
Proof using Type.
  intros H. unfold portable_receiver_procS_check.
  destruct (ge_frombytes_vartime_ok u _ H) as [(P & h & D & E & R) | [N E]].
  - left. rewrite E. cbn [negb Z.eqb]. exists P; eexists. split; [exact D|]. split; [reflexivity|].
      pose proof (dbl3_ok _ _ R) as H8. exact (conj (tobytes_encode _ _ H8) H8).
  - right. split; [exact N|]. destruct (ge_frombytes_vartime u (r_S_pack r)) as [ret h]. cbn [fst] in E.
    rewrite E. reflexivity.
Qed.

(** After [rsgen] the receiver holds R = xB or 8S - xB, with 0 <= x. *)
Definition receiver_chosen (r : SIMPLEOT_RECEIVER) (S : point) (x : Z) (c : bool) : Prop :=
  receiver_rep r S /\ bytes 32 (r_x r) /\ at_ (r_x r) 31 <= 127 /\ le_val (r_x r) = x /\
  rep_p3 (r_xB r) (spec_R B x c S).

Lemma rsgen_ok rnd r S c : bytes 32 rnd -> receiver_rep r S ->
  let '(r', Rs_pack) := portable_receiver_rsgen rnd r (if c : bool then 1 else 0) in
  let x := le_val (sc_random rnd 1) in
  receiver_chosen r' S x c /\ Rs_pack = encode (spec_R B x c S).
Proof using Type.
  intros H [Hp HS]. destruct (sc_random_bytes rnd 1 H) as [Hx H31]. unfold portable_receiver_rsgen. cbv zeta.
  set (x := sc_random rnd 1) in *. pose proof (ge_scalarmult_base_ok x Hx H31) as HxB.
  set (h := ge_scalarmult_base x) in *. clearbody h.
  pose proof (ge_p1p1_to_p3_ok _ _ (ge_sub_ok _ _ _ _ HS (ge_p3_to_cached_ok _ _ HxB))) as Hsub.
  set (g := ge_p1p1_to_p3 _) in *. clearbody g.
  assert (HR : rep_p3 (ge_p3_cmov h g (if c then 1 else 0)) (spec_R B (le_val x) c S)).
  { rewrite (ge_p3_cmov_ok _ _ _ _ _ HxB Hsub) by (destruct c; auto). unfold spec_R. now destruct c. }
  split; [|apply tobytes_encode, HR]. exact (conj (conj Hp HS) (conj Hx (conj H31 (conj eq_refl HR)))).
Qed.

Lemma receiver_keygen_ok r S x c : receiver_chosen r S x c ->
  snd (portable_receiver_keygen r) = spec_receiver B hash_points x c S.
Proof using Type.
  intros ([Hp HS] & Hx & H31 & V & HR). unfold portable_receiver_keygen. cbv zeta. cbn [snd].
  pose proof (dbl3_ok _ _ HR) as H8. rewrite Hp, (tobytes_encode _ _ H8). unfold spec_receiver.
  apply ge_hash_ok. rewrite <- V. now apply ge_scalarmult_vartime_ok.
Qed.

Lemma sender_keygen_ok u s y Rs_pack keys : sender_rep s y -> bytes 32 Rs_pack ->
  (exists R, decodes Rs_pack R /\
    portable_sender_keygen_check u s Rs_pack keys = (true, (encode (8 · R), spec_sender B hash_points y R))) \/
  (undecodable Rs_pack /\ portable_sender_keygen_check u s Rs_pack keys = (false, (Rs_pack, keys))).
Proof using Type.
  intros (Hy & H31 & V & Hp & HyS) H. unfold portable_sender_keygen_check.
  destruct (ge_frombytes_vartime_ok u _ H) as [(R & h & D & E & HR) | [N E]].
  - left. rewrite E. cbn [negb Z.eqb]. exists R. split; [exact D|].
    pose proof (dbl3_ok _ _ HR) as H8. set (h8 := dbl3 h) in *. clearbody h8.
    pose proof (ge_scalarmult_vartime_ok _ _ _ Hy H31 H8) as H0. rewrite V in H0.
    set (P0 := ge_scalarmult_vartime _ _) in *. clearbody P0.
    pose proof (ge_p1p1_to_p3_ok _ _ (ge_sub_ok _ _ _ _ HyS (ge_p3_to_cached_ok _ _ H0))) as H1.
    cbv zeta. rewrite Hp, (tobytes_encode _ _ H8), (ge_hash_ok _ _ _ _ H0), (ge_hash_ok _ _ _ _ H1). reflexivity.
  - right. split; [exact N|]. destruct (ge_frombytes_vartime u Rs_pack) as [ret h]. cbn [fst] in E.
    rewrite E. reflexivity.
Qed.
End Refinement.

(** A point's encoding denotes that point and no other. *)
Lemma encode_point_bytes P : point_bytes P (encode P).
Proof.
  split; [apply encode_bytes|]. unfold encode. rewrite le_val_to_le. apply Z.mod_small.
  pose proof (to_Z_range (py P)). pose proof (neg_range (px P)). assert (p < 2 ^ 255) by reflexivity.
  change (256 ^ Z.of_nat 32) with (2 * 2 ^ 255). lia.
Qed.

Lemma encode_decodes P Q : decodes (encode P) Q -> Q = P.
Proof. intros H. apply (decodes_inj (encode P)); [exact H|]. apply point_bytes_decodes, encode_point_bytes. Qed.

Lemma encode_decodable P : ~ undecodable (encode P).
Proof.
  intros H. destruct (point_bytes_decodes _ _ (encode_point_bytes P)) as [E _].
  apply (H (px P)). rewrite <- E. apply pt_on.
Qed.
