(* ===== verification/Bitset.v ===== *)
(** [dynamic_bitset] of [utils/dynamic_bitset.h], the container of the choice
    bits: a vector of blocks of [bits_per_block] bits and the number of bits in
    use.  This file has the data, the private helpers, the construction and the
    operations on single bits, blocks and whole bitsets, the invariant
    ([check_consistency]) and what each operation does to bit i.  The asserts
    of [test], of the inclusions and of ranges are part of the operations ([None] where
    one fires), those of the other operations guard them in [BitsetSpec].  Positions are
    natural numbers: sizes and indexes of a bitset in memory do not overflow [size_t].
    The one sum an argument can make wrap, the last position of a range, is taken in 64
    bits. *)
From Stdlib Require Import ZArith Lia List Bool.
From S2P Require Import Prelude.
Import ListNotations.

(** ** The code *)

Record dynamic_bitset := DynamicBitset { m_blocks : list Z; m_bits_number : nat }.

(** [x op= ...] on block [i], for the [n] blocks from [i] on. *)
Definition for_blocks (i n : nat) (f : nat -> Z -> Z) (l : list Z) : list Z :=
  fold_left (fun l i => upd l i (f i (at_ l i))) (seq i n) l.

(** [assert(c)] before [x]. *)
Definition assert {A} (c : bool) (x : A) : option A := if c then Some x else None.

Section Code.
(** [bits_per_block], the number of bits of [block_type]. *)
Context (w : nat).
#[local] Notation "x &&& y" := (Z.land x y) (at level 40, left associativity).
#[local] Notation "x ||| y" := (Z.lor x y) (at level 50, left associativity).

(** The conversion to [block_type]. *)
Definition block_type (x : Z) : Z := uwrap (Z.of_nat w) x.

Definition zero_block : Z := 0.
Definition one_block : Z := block_type (Z.lnot zero_block).
Definition block_last_bit_index : nat := w - 1.

Definition blocks_required (nbits : nat) : nat := nbits / w + (if (0 <? nbits mod w)%nat then 1 else 0).
Definition block_index (pos : nat) : nat := pos / w.
Definition bit_index (pos : nat) : nat := pos mod w.
Definition bit_mask (pos : nat) : Z := block_type (1 [<<] Z.of_nat (bit_index pos)).

(** The overload with a first and a last bit. *)
Definition range_mask (first last : nat) : Z :=
  let first := bit_index first in
  let last := bit_index last in
  if (last =? block_last_bit_index)%nat then block_type (one_block [<<] Z.of_nat first)
  else block_type (Z.lxor ((1 [<<] Z.of_nat (last + 1)) - 1) ((1 [<<] Z.of_nat first) - 1)).

Definition set_block_bits (block : Z) (first last : nat) (val : bool) : Z :=
  if val then block ||| range_mask first last
  else block &&& block_type (Z.lnot (range_mask first last)).

Definition flip_block_bits (block : Z) (first last : nat) : Z := Z.lxor block (range_mask first last).

Definition get_block (b : dynamic_bitset) (pos : nat) : Z := at_ (m_blocks b) (block_index pos).
Definition last_block (b : dynamic_bitset) : Z := at_ (m_blocks b) (length (m_blocks b) - 1).
Definition extra_bits_number (b : dynamic_bitset) : nat := bit_index (m_bits_number b).
Definition unused_bits_number (b : dynamic_bitset) : nat := w - extra_bits_number b.

Definition size (b : dynamic_bitset) : nat := m_bits_number b.
Definition num_blocks (b : dynamic_bitset) : nat := length (m_blocks b).
Definition empty (b : dynamic_bitset) : bool := (size b =? 0)%nat.

(** [last_block() = v] *)
Definition set_last_block (l : list Z) (v : Z) : list Z := upd l (length l - 1) v.

Definition sanitize (b : dynamic_bitset) : dynamic_bitset :=
  let shift := (m_bits_number b mod w)%nat in
  if (0 <? shift)%nat then
    let v := last_block b &&& block_type (Z.lnot (one_block [<<] Z.of_nat shift)) in
    DynamicBitset (set_last_block (m_blocks b) v) (m_bits_number b)
  else b.

Definition check_unused_bits (b : dynamic_bitset) : bool :=
  let extra_bits := extra_bits_number b in
  if (0 <? extra_bits)%nat then (last_block b &&& (one_block [<<] Z.of_nat extra_bits)) =? zero_block
  else true.
Definition check_size (b : dynamic_bitset) : bool := (blocks_required (size b) =? length (m_blocks b))%nat.
Definition check_consistency (b : dynamic_bitset) : bool := check_unused_bits b && check_size b.

(** *** Construction *)

Definition bitset_empty : dynamic_bitset := DynamicBitset [] 0.

(** [dynamic_bitset(nbits, init_val)], with [init_val] of 128 bits. *)
Definition bitset_init (nbits : nat) (init_val : Z) : dynamic_bitset :=
  let blocks := repeat 0 (blocks_required nbits) in
  if (nbits =? 0)%nat || (init_val =? 0) then DynamicBitset blocks nbits
  else
    let init_val_required_blocks := (128 / w)%nat in
    if (init_val_required_blocks =? 1)%nat then sanitize (DynamicBitset (upd blocks 0 (block_type init_val)) nbits)
    else
      let blocks_to_init := Nat.min (length blocks) init_val_required_blocks in
      let blocks := for_blocks 0 blocks_to_init (fun i _ => block_type ((init_val [>>] Z.of_nat (i * w)) &&& one_block)) blocks in
      sanitize (DynamicBitset blocks nbits).

(** *** Single bits *)

(** The bit that [test] reads once its assert holds. *)
Definition test_bit (b : dynamic_bitset) (pos : nat) : bool :=
  negb ((at_ (m_blocks b) (block_index pos) &&& bit_mask pos) =? zero_block).
Definition test (b : dynamic_bitset) (pos : nat) : option bool := assert (pos <? size b)%nat (test_bit b pos).

Definition set_bit (b : dynamic_bitset) (pos : nat) (value : bool) : dynamic_bitset :=
  let i := block_index pos in
  let block := at_ (m_blocks b) i in
  let block := if value then block ||| bit_mask pos else block &&& block_type (Z.lnot (bit_mask pos)) in
  DynamicBitset (upd (m_blocks b) i block) (m_bits_number b).

Definition reset_bit (b : dynamic_bitset) (pos : nat) : dynamic_bitset := set_bit b pos false.

Definition flip_bit (b : dynamic_bitset) (pos : nat) : dynamic_bitset :=
  let i := block_index pos in
  DynamicBitset (upd (m_blocks b) i (Z.lxor (at_ (m_blocks b) i) (bit_mask pos))) (m_bits_number b).

Definition test_set (b : dynamic_bitset) (pos : nat) (value : bool) : bool * dynamic_bitset :=
  let result := test_bit b pos in
  (result, if negb (eqb result value) then set_bit b pos value else b).

(** *** Growing and shrinking *)

(** [std::vector::resize] *)
Definition vector_resize (l : list Z) (n : nat) (v : Z) : list Z := firstn n l ++ repeat v (n - length l).

Definition resize (b : dynamic_bitset) (nbits : nat) (value : bool) : dynamic_bitset :=
  if (nbits =? m_bits_number b)%nat then b
  else
    let old_num_blocks := num_blocks b in
    let new_num_blocks := blocks_required nbits in
    let init_value := if value then one_block else zero_block in
    let blocks :=
      if negb (new_num_blocks =? old_num_blocks)%nat then vector_resize (m_blocks b) new_num_blocks init_value
      else m_blocks b in
    let blocks :=
      if value && (m_bits_number b <? nbits)%nat && (0 <? old_num_blocks)%nat then
        let extra_bits := extra_bits_number b in
        if (0 <? extra_bits)%nat then
          upd blocks (old_num_blocks - 1)
            (at_ blocks (old_num_blocks - 1) ||| block_type (init_value [<<] Z.of_nat extra_bits))
        else blocks
      else blocks in
    sanitize (DynamicBitset blocks nbits).

Definition clear (b : dynamic_bitset) : dynamic_bitset := DynamicBitset [] 0.

Definition push_back (b : dynamic_bitset) (value : bool) : dynamic_bitset :=
  let new_last_bit := m_bits_number b in
  let n := (m_bits_number b + 1)%nat in
  if (n <=? length (m_blocks b) * w)%nat then
    if value then set_bit (DynamicBitset (m_blocks b) n) new_last_bit value
    else DynamicBitset (m_blocks b) n
  else DynamicBitset (m_blocks b ++ [if value then 1 else 0]) n.

Definition pop_back (b : dynamic_bitset) : dynamic_bitset :=
  if empty b then b
  else
    let n := (m_bits_number b - 1)%nat in
    if (blocks_required n <? length (m_blocks b))%nat then DynamicBitset (removelast (m_blocks b)) n
    else sanitize (DynamicBitset (m_blocks b) n).

(** [append(block)] *)
Definition append_block (b : dynamic_bitset) (block : Z) : dynamic_bitset :=
  let extra_bits := extra_bits_number b in
  let blocks :=
    if (extra_bits =? 0)%nat then m_blocks b ++ [block]
    else
      set_last_block (m_blocks b) (last_block b ||| block_type (block [<<] Z.of_nat extra_bits))
      ++ [block_type (block [>>] Z.of_nat (w - extra_bits))] in
  DynamicBitset blocks (m_bits_number b + w).

(** [while (first != last)] of [append(first, last)]: [block] is what is left
    of the previous block. *)
Fixpoint append_rest (extra_bits unused_bits : nat) (block : Z) (blocks : list Z) (n : nat) (range : list Z)
    : dynamic_bitset :=
  match range with
  | [] => DynamicBitset (blocks ++ [block]) (n + w)
  | x :: range =>
      let block := block ||| block_type (x [<<] Z.of_nat extra_bits) in
      append_rest extra_bits unused_bits (block_type (x [>>] Z.of_nat unused_bits)) (blocks ++ [block]) (n + w) range
  end.

(** [append(first, last)] *)
Definition append_blocks (b : dynamic_bitset) (range : list Z) : dynamic_bitset :=
  match range with
  | [] => b
  | first :: rest =>
      let extra_bits := extra_bits_number b in
      let unused_bits := unused_bits_number b in
      if (extra_bits =? 0)%nat then
        DynamicBitset (m_blocks b ++ range) (m_bits_number b + length range * w)
      else
        let blocks := set_last_block (m_blocks b) (last_block b ||| block_type (first [<<] Z.of_nat extra_bits)) in
        append_rest extra_bits unused_bits (block_type (first [>>] Z.of_nat unused_bits)) blocks (m_bits_number b) rest
  end.

Definition bitset_of_blocks (init_vals : list Z) : dynamic_bitset := append_blocks bitset_empty init_vals.

(** [append(other)] with [&other != this]. *)
Definition append_other (b other : dynamic_bitset) : dynamic_bitset :=
  let final_size := (size b + size other)%nat in
  resize (append_blocks b (m_blocks other)) final_size false.

(** [append( *this )]: the blocks are read while the bitset grows. *)
Definition append_self (b : dynamic_bitset) : dynamic_bitset :=
  let final_size := (size b + size b)%nat in
  let b := fold_left (fun b i => append_block b (at_ (m_blocks b) i)) (seq 0 (num_blocks b)) b in
  resize b final_size false.

(** *** Whole bitsets *)

Definition and_assign (b rhs : dynamic_bitset) : dynamic_bitset :=
  DynamicBitset (for_blocks 0 (length (m_blocks b)) (fun i x => x &&& at_ (m_blocks rhs) i) (m_blocks b))
    (m_bits_number b).
Definition or_assign (b rhs : dynamic_bitset) : dynamic_bitset :=
  DynamicBitset (for_blocks 0 (length (m_blocks b)) (fun i x => x ||| at_ (m_blocks rhs) i) (m_blocks b))
    (m_bits_number b).
Definition xor_assign (b rhs : dynamic_bitset) : dynamic_bitset :=
  DynamicBitset (for_blocks 0 (length (m_blocks b)) (fun i x => Z.lxor x (at_ (m_blocks rhs) i)) (m_blocks b))
    (m_bits_number b).
Definition sub_assign (b rhs : dynamic_bitset) : dynamic_bitset :=
  DynamicBitset
    (for_blocks 0 (length (m_blocks b)) (fun i x => x &&& block_type (Z.lnot (at_ (m_blocks rhs) i))) (m_blocks b))
    (m_bits_number b).

Definition set_all (b : dynamic_bitset) : dynamic_bitset :=
  sanitize (DynamicBitset (repeat one_block (length (m_blocks b))) (m_bits_number b)).
Definition reset_all (b : dynamic_bitset) : dynamic_bitset :=
  DynamicBitset (repeat zero_block (length (m_blocks b))) (m_bits_number b).
Definition flip_all (b : dynamic_bitset) : dynamic_bitset :=
  sanitize (DynamicBitset (map (fun x => block_type (Z.lnot x)) (m_blocks b)) (m_bits_number b)).

(** [operator==] *)
Definition bitset_eqb (lhs rhs : dynamic_bitset) : bool :=
  (m_bits_number lhs =? m_bits_number rhs)%nat &&
  if list_eq_dec Z.eq_dec (m_blocks lhs) (m_blocks rhs) then true else false.
End Code.

(** ** Blocks and bits *)

Lemma length_for_blocks i n f l : length (for_blocks i n f l) = length l.
Proof.
  unfold for_blocks. revert i l; induction n as [|n IH]; intros i l; cbn [seq fold_left]; [reflexivity|].
  now rewrite IH, length_upd.
Qed.

(** A loop that reads and writes one block per turn. *)
Lemma at_for_blocks i n f l j : (i + n <= length l)%nat ->
  at_ (for_blocks i n f l) j = if ((i <=? j) && (j <? i + n))%nat then f j (at_ l j) else at_ l j.
Proof.
  unfold for_blocks. revert i l; induction n as [|n IH]; intros i l H; cbn [seq fold_left].
  - destruct (Nat.leb_spec i j), (Nat.ltb_spec j (i + 0)); cbn [andb]; auto; lia.
  - rewrite IH by (rewrite length_upd; lia). destruct (Nat.eq_dec i j) as [<-|Hij].
    + rewrite at_upd_eq by lia.
      destruct (Nat.leb_spec (S i) i), (Nat.leb_spec i i), (Nat.ltb_spec i (i + S n)); cbn [andb]; try lia; auto.
    + rewrite at_upd_ne by exact Hij.
      destruct (Nat.leb_spec (S i) j), (Nat.leb_spec i j), (Nat.ltb_spec j (S i + n)), (Nat.ltb_spec j (i + S n));
        cbn [andb]; try lia; auto.
Qed.

Lemma at_app_r l l' i : at_ (l ++ l') i = if (i <? length l)%nat then at_ l i else at_ l' (i - length l).
Proof.
  unfold at_. destruct (Nat.ltb_spec i (length l)); [apply app_nth1|apply app_nth2]; lia.
Qed.

Lemma at_out l i : (length l <= i)%nat -> at_ l i = 0.
Proof. apply nth_overflow. Qed.

Lemma at_repeat v n i : at_ (repeat v n) i = if (i <? n)%nat then v else 0.
Proof.
  unfold at_. destruct (Nat.ltb_spec i n); [|apply nth_overflow; rewrite repeat_length; lia].
  now rewrite (nth_indep _ 0 v), nth_repeat by (rewrite repeat_length; lia).
Qed.

Lemma at_firstn l n i : at_ (firstn n l) i = if (i <? n)%nat then at_ l i else 0.
Proof. unfold at_. apply nth_firstn. Qed.

Lemma at_removelast l i : (i < length l - 1)%nat -> at_ (removelast l) i = at_ l i.
Proof.
  intros H. rewrite (removelast_firstn_len l), at_firstn. destruct (Nat.ltb_spec i (Nat.pred (length l))); [reflexivity|lia].
Qed.

Lemma at_map f l i : f 0 = 0 \/ (i < length l)%nat -> at_ (map f l) i = f (at_ l i).
Proof.
  intros H. unfold at_. destruct (Nat.lt_ge_cases i (length l)).
  - rewrite (nth_indep _ 0 (f 0)) by now rewrite length_map. apply map_nth.
  - rewrite !nth_overflow by (rewrite ?length_map; lia). destruct H; [congruence|lia].
Qed.

(** Masks and shifts, bit by bit. *)
Lemma pow_bit k j : Z.testbit (2 ^ Z.of_nat k) (Z.of_nat j) = (j =? k)%nat.
Proof.
  destruct (Nat.eqb_spec j k) as [->|H]; [apply Z.pow2_bits_true; lia|apply Z.pow2_bits_false; lia].
Qed.

Lemma ones_bit k j : Z.testbit ((1 [<<] Z.of_nat k) - 1) (Z.of_nat j) = (j <? k)%nat.
Proof.
  rewrite Z.shiftl_mul_pow2, Z.mul_1_l, Z.sub_1_r, <- Z.ones_equiv by lia.
  destruct (Nat.ltb_spec j k); [apply Z.ones_spec_low|apply Z.ones_spec_high]; lia.
Qed.

Lemma shl_bit x k j : Z.testbit (x [<<] Z.of_nat k) (Z.of_nat j) = ((k <=? j)%nat && Z.testbit x (Z.of_nat (j - k))).
Proof.
  destruct (Nat.leb_spec k j); cbn [andb].
  - rewrite Z.shiftl_spec by lia. f_equal. lia.
  - apply Z.shiftl_spec_low. lia.
Qed.

Lemma shr_bit x k j : Z.testbit (x [>>] Z.of_nat k) (Z.of_nat j) = Z.testbit x (Z.of_nat (j + k)).
Proof. rewrite Z.shiftr_spec by lia. f_equal. lia. Qed.

Lemma land_pow_bit x k : (Z.land x (2 ^ Z.of_nat k) =? 0) = negb (Z.testbit x (Z.of_nat k)).
Proof.
  destruct (Z.testbit x (Z.of_nat k)) eqn:E; cbn [negb].
  - apply Z.eqb_neq. intros H. assert (Z.testbit (Z.land x (2 ^ Z.of_nat k)) (Z.of_nat k) = true)
      by (rewrite Z.land_spec, E, pow_bit, Nat.eqb_refl; reflexivity).
    rewrite H, Z.bits_0 in *. discriminate.
  - apply Z.eqb_eq, Z.bits_inj'. intros i Hi. rewrite <- (Z2Nat.id i Hi), Z.land_spec, pow_bit, Z.bits_0.
    destruct (Nat.eqb_spec (Z.to_nat i) k) as [->|]; [now rewrite E|apply andb_false_r].
Qed.

Section Bits.
Context (w : nat) (w_pos : (0 < w)%nat).

Definition block_ok (x : Z) : Prop := 0 <= x < 2 ^ Z.of_nat w.

(** The bit at position [p], of the block and the position in it. *)
Definition bit_at (b : dynamic_bitset) (p : nat) : bool :=
  Z.testbit (at_ (m_blocks b) (p / w)) (Z.of_nat (p mod w)).

(** The invariant: as many blocks as needed, and zeros after the last bit. *)
Definition wf (b : dynamic_bitset) : Prop :=
  length (m_blocks b) = blocks_required w (m_bits_number b) /\ Forall block_ok (m_blocks b) /\
  forall p, (m_bits_number b <= p)%nat -> bit_at b p = false.

(** The bits of a bitset, the abstract value every operation is about. *)
Definition bits (b : dynamic_bitset) : list bool := map (bit_at b) (seq 0 (m_bits_number b)).

Lemma pos_split p : exists i j, p = (i * w + j)%nat /\ (j < w)%nat /\ (p / w = i)%nat /\ (p mod w = j)%nat.
Proof.
  exists (p / w)%nat, (p mod w)%nat. pose proof (Nat.div_mod_eq p w). pose proof (Nat.mod_upper_bound p w). lia.
Qed.

Lemma div_split i j : (j < w)%nat -> ((i * w + j) / w = i)%nat.
Proof. intros H. symmetry. apply (Nat.div_unique _ _ _ j); lia. Qed.

Lemma mod_split i j : (j < w)%nat -> ((i * w + j) mod w = j)%nat.
Proof. intros H. symmetry. apply (Nat.mod_unique _ _ i); lia. Qed.

Lemma bit_at_split b i j : (j < w)%nat -> bit_at b (i * w + j) = Z.testbit (at_ (m_blocks b) i) (Z.of_nat j).
Proof. intros H. unfold bit_at. now rewrite div_split, mod_split. Qed.

Lemma wrap_bit x j : Z.testbit (block_type w x) (Z.of_nat j) = ((j <? w)%nat && Z.testbit x (Z.of_nat j)).
Proof.
  unfold block_type, uwrap. destruct (Nat.ltb_spec j w); cbn [andb].
  - apply Z.mod_pow2_bits_low. lia.
  - apply Z.mod_pow2_bits_high. lia.
Qed.

Lemma wrap_ok x : block_ok (block_type w x).
Proof. apply Z.mod_pos_bound. apply Z.pow_pos_nonneg; lia. Qed.

Lemma zero_ok : block_ok 0.
Proof. split; [lia|apply Z.pow_pos_nonneg; lia]. Qed.

Lemma at_ok l i : Forall block_ok l -> block_ok (at_ l i).
Proof.
  intros H. unfold at_. destruct (nth_in_or_default i l 0) as [Hin | ->]; [|apply zero_ok].
  rewrite Forall_forall in H. auto.
Qed.

Lemma block_bits x y : block_ok x -> block_ok y ->
  (forall j, (j < w)%nat -> Z.testbit x (Z.of_nat j) = Z.testbit y (Z.of_nat j)) -> x = y.
Proof.
  intros Hx Hy H. rewrite <- (Z.mod_small x (2 ^ Z.of_nat w) Hx), <- (Z.mod_small y (2 ^ Z.of_nat w) Hy). apply Z.bits_inj'. intros k Hk.
  rewrite <- (Z2Nat.id k Hk). pose proof (wrap_bit x (Z.to_nat k)) as Ex. pose proof (wrap_bit y (Z.to_nat k)) as Ey.
  unfold block_type, uwrap in Ex, Ey. rewrite Ex, Ey. destruct (Nat.ltb_spec (Z.to_nat k) w); [now rewrite H|reflexivity].
Qed.

Lemma block_bit_high x j : block_ok x -> (w <= j)%nat -> Z.testbit x (Z.of_nat j) = false.
Proof.
  intros Hx Hj. rewrite <- (Z.mod_small x (2 ^ Z.of_nat w) Hx). apply Z.mod_pow2_bits_high. lia.
Qed.

Lemma testbit_ok x : 0 <= x -> (forall j, (w <= j)%nat -> Z.testbit x (Z.of_nat j) = false) -> block_ok x.
Proof.
  intros Hx H. replace x with (block_type w x); [apply wrap_ok|]. apply Z.bits_inj'. intros k Hk. rewrite <- (Z2Nat.id k Hk), wrap_bit.
  destruct (Nat.ltb_spec (Z.to_nat k) w); [reflexivity|]. now rewrite H.
Qed.

Lemma land_ok x y : block_ok x -> 0 <= y -> block_ok (Z.land x y).
Proof.
  intros Hx Hy. apply testbit_ok; [apply Z.land_nonneg; left; apply Hx|]. intros j Hj.
  rewrite Z.land_spec, (block_bit_high x j Hx Hj). reflexivity.
Qed.

Lemma lor_ok x y : block_ok x -> block_ok y -> block_ok (Z.lor x y).
Proof.
  intros Hx Hy. apply testbit_ok; [apply Z.lor_nonneg; split; [apply Hx|apply Hy]|]. intros j Hj.
  now rewrite Z.lor_spec, !block_bit_high.
Qed.

Lemma lxor_ok x y : block_ok x -> block_ok y -> block_ok (Z.lxor x y).
Proof.
  intros Hx Hy. apply testbit_ok; [apply Z.lxor_nonneg; split; intros; [apply Hy|apply Hx]|]. intros j Hj.
  now rewrite Z.lxor_spec, !block_bit_high.
Qed.

Lemma Forall_upd_ok l i v : Forall block_ok l -> block_ok v -> Forall block_ok (upd l i v).
Proof.
  intros H Hv. revert i; induction H as [|x l Hx Hl IH]; intros [|i]; cbn; constructor; auto.
Qed.

Lemma for_blocks_ok i n f l : (i + n <= length l)%nat -> (forall j x, block_ok x -> block_ok (f j x)) ->
  Forall block_ok l -> Forall block_ok (for_blocks i n f l).
Proof.
  intros Hl Hf. unfold for_blocks. clear Hl. revert i l; induction n as [|n IH]; intros i l H; [exact H|].
  apply IH, Forall_upd_ok, Hf, at_ok; assumption.
Qed.

Lemma one_block_bit j : Z.testbit (one_block w) (Z.of_nat j) = (j <? w)%nat.
Proof. unfold one_block. rewrite wrap_bit. unfold zero_block. rewrite Z.lnot_spec, Z.bits_0 by lia. apply andb_true_r. Qed.

Lemma bit_mask_bit p j : (j < w)%nat -> Z.testbit (bit_mask w p) (Z.of_nat j) = (j =? p mod w)%nat.
Proof.
  intros H. unfold bit_mask, bit_index. rewrite wrap_bit, Z.shiftl_mul_pow2, Z.mul_1_l, pow_bit by lia.
  now destruct (Nat.ltb_spec j w); [|lia].
Qed.

Lemma range_mask_bit first last j : (first <= last < w)%nat -> (j < w)%nat ->
  Z.testbit (range_mask w first last) (Z.of_nat j) = ((first <=? j) && (j <=? last))%nat.
Proof.
  intros H Hj. unfold range_mask, bit_index, block_last_bit_index. rewrite !Nat.mod_small by lia.
  destruct (Nat.eqb_spec last (w - 1)) as [E|E]; rewrite wrap_bit.
  - rewrite shl_bit, one_block_bit. destruct (Nat.ltb_spec j w), (Nat.leb_spec first j), (Nat.leb_spec j last),
      (Nat.ltb_spec (j - first) w); cbn [andb]; auto; lia.
  - rewrite Z.lxor_spec, !ones_bit. destruct (Nat.ltb_spec j w), (Nat.leb_spec first j), (Nat.leb_spec j last),
      (Nat.ltb_spec j (last + 1)), (Nat.ltb_spec j first); cbn [andb xorb]; auto; lia.
Qed.

(** ** The invariant *)

Lemma blocks_required_bound n : (n <= blocks_required w n * w < n + w)%nat.
Proof.
  unfold blocks_required. pose proof (Nat.div_mod_eq n w). pose proof (Nat.mod_upper_bound n w).
  destruct (Nat.ltb_spec 0 (n mod w)); nia.
Qed.

Lemma blocks_required_exact n : (n mod w = 0)%nat -> blocks_required w n = (n / w)%nat.
Proof. unfold blocks_required. intros ->. cbn. lia. Qed.

Lemma blocks_required_extra n : (0 < n mod w)%nat -> blocks_required w n = (n / w + 1)%nat.
Proof. unfold blocks_required. intros H. now destruct (Nat.ltb_spec 0 (n mod w)); [|lia]. Qed.

(** A position beyond the blocks. *)
Lemma bit_at_out b p : (length (m_blocks b) * w <= p)%nat -> bit_at b p = false.
Proof.
  intros H. destruct (pos_split p) as (i & j & -> & Hj & _ & _). rewrite bit_at_split by assumption.
  rewrite at_out by nia. apply Z.bits_0.
Qed.

Lemma wf_blocks b : wf b -> (m_bits_number b <= length (m_blocks b) * w < m_bits_number b + w)%nat.
Proof. intros (L & _ & _). rewrite L. apply blocks_required_bound. Qed.

Lemma wf_index b p : wf b -> (p < m_bits_number b)%nat -> (p / w < length (m_blocks b))%nat.
Proof. intros H Hp. pose proof (wf_blocks b H). apply Nat.Div0.div_lt_upper_bound. lia. Qed.

(** Well-formed bitsets are determined by their bits. *)
Lemma wf_ext b c : wf b -> wf c -> m_bits_number b = m_bits_number c ->
  (forall p, (p < m_bits_number b)%nat -> bit_at b p = bit_at c p) -> b = c.
Proof.
  intros (Lb & Fb & Zb) (Lc & Fc & Zc) En H. destruct b as [bl n], c as [cl m]. cbn [m_blocks m_bits_number] in *. subst m.
  f_equal. apply (nth_ext _ _ 0 0); [congruence|]. intros i _. apply (block_bits (at_ bl i) (at_ cl i)); try now apply at_ok.
  intros j Hj. pose proof (bit_at_split (DynamicBitset bl n) i j Hj) as E1.
  pose proof (bit_at_split (DynamicBitset cl n) i j Hj) as E2. cbn [m_blocks] in E1, E2. rewrite <- E1, <- E2.
  destruct (Nat.lt_ge_cases (i * w + j) n); [auto|now rewrite Zb, Zc].
Qed.

Lemma length_bits b : length (bits b) = m_bits_number b.
Proof. unfold bits. now rewrite length_map, length_seq. Qed.

Lemma nth_bits b p : wf b -> nth p (bits b) false = bit_at b p.
Proof.
  intros (_ & _ & H). destruct (Nat.lt_ge_cases p (m_bits_number b)) as [Hp|Hp].
  - unfold bits. rewrite (nth_indep _ false (bit_at b 0)) by (rewrite length_map, length_seq; exact Hp).
    now rewrite map_nth, seq_nth.
  - rewrite nth_overflow by (rewrite length_bits; exact Hp). now rewrite H.
Qed.

Lemma bits_eq b l : wf b -> m_bits_number b = length l ->
  (forall p, (p < length l)%nat -> bit_at b p = nth p l false) -> bits b = l.
Proof.
  intros Hb L H. apply (nth_ext _ _ false false); [now rewrite length_bits|]. rewrite length_bits. intros p Hp.
  rewrite nth_bits by exact Hb. apply H. lia.
Qed.

Lemma bits_inj b c : wf b -> wf c -> bits b = bits c -> b = c.
Proof.
  intros Hb Hc E. apply wf_ext; try assumption.
  - now rewrite <- (length_bits b), <- (length_bits c), E.
  - intros p _. now rewrite <- nth_bits, E, nth_bits.
Qed.

(** What [sanitize] needs and what it establishes. *)
Definition almost_wf (b : dynamic_bitset) : Prop :=
  length (m_blocks b) = blocks_required w (m_bits_number b) /\ Forall block_ok (m_blocks b).

Lemma wf_almost b : wf b -> almost_wf b.
Proof. intros (H & F & _). split; assumption. Qed.

Lemma sanitize_ok b : almost_wf b ->
  wf (sanitize w b) /\ m_bits_number (sanitize w b) = m_bits_number b /\
  forall p, bit_at (sanitize w b) p = ((p <? m_bits_number b)%nat && bit_at b p).
Proof.
  intros [L F].
  assert (G : m_bits_number (sanitize w b) = m_bits_number b /\ almost_wf (sanitize w b) /\
              forall p, bit_at (sanitize w b) p = ((p <? m_bits_number b)%nat && bit_at b p)).
  { unfold sanitize. destruct b as [l n]. cbn [m_blocks m_bits_number] in *.
    pose proof (blocks_required_bound n) as Hn. pose proof (Nat.div_mod_eq n w) as Hd.
    destruct (Nat.ltb_spec 0 (n mod w)) as [Hs|Hs].
    - pose proof (blocks_required_extra n Hs) as Ln. unfold set_last_block, last_block, almost_wf. cbn [m_blocks m_bits_number].
      rewrite length_upd. split; [reflexivity|]. split.
      { split; [exact L|]. apply Forall_upd_ok; [exact F|]. apply land_ok; [now apply at_ok|apply wrap_ok]. }
      intros p. destruct (pos_split p) as (i & j & -> & Hj & _ & _). rewrite !bit_at_split by assumption.
      cbn [m_blocks]. destruct (Nat.eq_dec i (length l - 1)) as [->|Hi].
      + rewrite at_upd_eq by lia. rewrite Z.land_spec, wrap_bit, Z.lnot_spec, shl_bit, one_block_bit by lia.
        replace (length l - 1)%nat with (n / w)%nat by lia.
        destruct (Nat.ltb_spec (n / w * w + j) n), (Nat.ltb_spec j w), (Nat.leb_spec (n mod w) j),
          (Nat.ltb_spec (j - n mod w) w); cbn [andb negb]; try lia; rewrite ?andb_true_r, ?andb_false_r; reflexivity.
      + rewrite at_upd_ne by auto. destruct (Nat.ltb_spec (i * w + j) n); cbn [andb]; [reflexivity|].
        rewrite at_out by nia. apply Z.bits_0.
    - split; [reflexivity|]. split; [split; assumption|]. intros p.
      destruct (Nat.ltb_spec p n); cbn [andb]; [reflexivity|]. apply bit_at_out. cbn [m_blocks].
      rewrite L, blocks_required_exact by lia. nia. }
  destruct G as (En & [L' F'] & Hb). split; [|split; [exact En|exact Hb]].
  split; [exact L'|]. split; [exact F'|]. intros p Hp. rewrite Hb. destruct (Nat.ltb_spec p (m_bits_number b)); [lia|reflexivity].
Qed.

(** [check_consistency] decides the invariant. *)
Lemma check_consistency_ok b : Forall block_ok (m_blocks b) -> check_consistency w b = true <-> wf b.
Proof.
  intros F. unfold check_consistency, check_size, size. rewrite andb_true_iff, Nat.eqb_eq.
  split.
  - intros [Hu L]. symmetry in L. split; [exact L|]. split; [exact F|]. intros p Hp.
    destruct (sanitize_ok b (conj L F)) as (_ & _ & Hs). rewrite <- (andb_false_l (bit_at b p)).
    replace false with (p <? m_bits_number b)%nat by (apply Nat.ltb_ge; exact Hp). rewrite <- Hs. f_equal.
    unfold check_unused_bits, extra_bits_number, bit_index, last_block, sanitize in *.
    destruct b as [l n]. cbn [m_blocks m_bits_number] in *.
    destruct (Nat.ltb_spec 0 (n mod w)) as [H|H]; [|reflexivity]. apply Z.eqb_eq in Hu. f_equal.
    unfold set_last_block, last_block. cbn [m_blocks].
    assert (Hl : (length l - 1 < length l)%nat) by (rewrite L, blocks_required_extra by lia; lia).
    apply (nth_ext _ _ 0 0); [now rewrite length_upd|]. intros i _. change (at_ l i = at_ (upd l (length l - 1) (Z.land (at_ l (length l - 1)) (block_type w (Z.lnot (one_block w [<<] Z.of_nat (n mod w)))))) i).
    destruct (Nat.eq_dec i (length l - 1)) as [->|Hi]; [|now rewrite at_upd_ne by auto].
    rewrite at_upd_eq by exact Hl. apply (block_bits); [now apply at_ok|apply land_ok; [now apply at_ok|apply wrap_ok]|].
    intros j Hj. rewrite Z.land_spec, wrap_bit, Z.lnot_spec by lia.
    assert (E : Z.testbit (Z.land (at_ l (length l - 1)) (one_block w [<<] Z.of_nat (n mod w))) (Z.of_nat j) = false)
      by (rewrite Hu; apply Z.bits_0).
    rewrite Z.land_spec in E. destruct (Nat.ltb_spec j w); [|lia]. cbn [andb].
    destruct (Z.testbit (at_ l _) _); [cbn [andb] in *; now rewrite E|reflexivity].
  - intros (L & _ & Hz). split; [|congruence]. unfold check_unused_bits, extra_bits_number, bit_index, last_block.
    destruct b as [l n]. cbn [m_blocks m_bits_number] in *.
    destruct (Nat.ltb_spec 0 (n mod w)) as [H|H]; [|reflexivity]. apply Z.eqb_eq, Z.bits_inj'. intros k Hk.
    rewrite <- (Z2Nat.id k Hk). set (j := Z.to_nat k). rewrite Z.land_spec, shl_bit, one_block_bit, Z.bits_0.
    destruct (Nat.lt_ge_cases j w) as [Hj|Hj]; [|rewrite block_bit_high by (try apply at_ok; assumption); reflexivity].
    destruct (Nat.leb_spec (n mod w) j) as [Hm|Hm]; [|apply andb_false_r].
    pose proof (blocks_required_extra n H) as Ln. pose proof (Nat.div_mod_eq n w).
    pose proof (bit_at_split (DynamicBitset l n) (length l - 1) j Hj) as E. cbn [m_blocks] in E. rewrite <- E.
    rewrite Hz; [reflexivity|]. rewrite L, Ln. nia.
Qed.

(** ** Single bits *)

Lemma bit_mask_pow p : bit_mask w p = 2 ^ Z.of_nat (p mod w).
Proof.
  unfold bit_mask, bit_index, block_type, uwrap. rewrite Z.shiftl_mul_pow2, Z.mul_1_l by lia. apply Z.mod_small.
  split; [apply Z.pow_nonneg; lia|]. apply Z.pow_lt_mono_r; [lia|lia|]. pose proof (Nat.mod_upper_bound p w). lia.
Qed.

Lemma test_bit_ok b p : test_bit w b p = bit_at b p.
Proof.
  unfold test_bit, block_index, zero_block, bit_at. rewrite bit_mask_pow, land_pow_bit. apply negb_involutive.
Qed.

(** The shape of an operation that changes blocks in place. *)
Lemma wf_update b l : wf b -> length l = length (m_blocks b) -> Forall block_ok l ->
  (forall p, (m_bits_number b <= p)%nat -> bit_at (DynamicBitset l (m_bits_number b)) p = false) ->
  wf (DynamicBitset l (m_bits_number b)).
Proof. intros (L & _ & _) El F Z. split; [cbn [m_blocks m_bits_number]; congruence|]. split; assumption. Qed.

(** Writing one bit of a block: [f] on bits says what it does to the bit. *)
Lemma bit_at_upd b n p (f : bool -> bool) x :
  (p / w < length (m_blocks b))%nat ->
  (forall j, (j < w)%nat -> Z.testbit x (Z.of_nat j) =
     if (j =? p mod w)%nat then f (Z.testbit (at_ (m_blocks b) (p / w)) (Z.of_nat j))
     else Z.testbit (at_ (m_blocks b) (p / w)) (Z.of_nat j)) ->
  forall q, bit_at (DynamicBitset (upd (m_blocks b) (p / w) x) n) q = if (q =? p)%nat then f (bit_at b p) else bit_at b q.
Proof.
  intros Hp Hx q. destruct (pos_split p) as (i & j & -> & Hj & Ei & Ej), (pos_split q) as (i' & j' & -> & Hj' & _ & _).
  rewrite Ei, Ej in *. rewrite !bit_at_split by assumption. cbn [m_blocks].
  destruct (Nat.eq_dec i' i) as [->|Hi].
  - rewrite at_upd_eq, Hx by assumption.
    destruct (Nat.eqb_spec j' j) as [E|E], (Nat.eqb_spec (i * w + j') (i * w + j)); try lia; [now subst|reflexivity].
  - rewrite at_upd_ne by auto. destruct (Nat.eqb_spec (i' * w + j') (i * w + j)); [nia|reflexivity].
Qed.

Lemma mask_ok p : block_ok (bit_mask w p).
Proof. apply wrap_ok. Qed.

Lemma set_bit_blocks b p v : (p / w < length (m_blocks b))%nat -> Forall block_ok (m_blocks b) ->
  length (m_blocks (set_bit w b p v)) = length (m_blocks b) /\ Forall block_ok (m_blocks (set_bit w b p v)) /\
  forall q, bit_at (set_bit w b p v) q = if (q =? p)%nat then v else bit_at b q.
Proof.
  intros Hi F. unfold set_bit, block_index. cbv zeta. cbn [m_blocks]. rewrite length_upd. split; [reflexivity|]. split.
  - apply Forall_upd_ok; [exact F|]. destruct v; [apply lor_ok|apply land_ok]; try apply wrap_ok; now apply at_ok.
  - apply (bit_at_upd b _ p (fun _ => v)); [exact Hi|]. intros j Hj. destruct v.
    + rewrite Z.lor_spec, bit_mask_bit by exact Hj. destruct (j =? p mod w)%nat; rewrite ?orb_true_r, ?orb_false_r; reflexivity.
    + rewrite Z.land_spec, wrap_bit, Z.lnot_spec, bit_mask_bit by lia.
      destruct (Nat.ltb_spec j w), (j =? p mod w)%nat; cbn [andb negb]; rewrite ?andb_true_r, ?andb_false_r; reflexivity || lia.
Qed.

Lemma set_bit_ok b p v : wf b -> (p < m_bits_number b)%nat ->
  wf (set_bit w b p v) /\ m_bits_number (set_bit w b p v) = m_bits_number b /\
  forall q, bit_at (set_bit w b p v) q = if (q =? p)%nat then v else bit_at b q.
Proof.
  intros H Hp. pose proof (wf_index b p H Hp) as Hi. destruct H as (L & F & Z).
  destruct (set_bit_blocks b p v Hi F) as (L' & F' & B). split; [|split; [reflexivity|exact B]].
  split; [|split]; [change (m_bits_number (set_bit w b p v)) with (m_bits_number b); congruence|exact F'|].
  change (m_bits_number (set_bit w b p v)) with (m_bits_number b). intros q Hq. rewrite B, Z by exact Hq.
  destruct (Nat.eqb_spec q p); [lia|reflexivity].
Qed.

Lemma flip_bit_ok b p : wf b -> (p < m_bits_number b)%nat ->
  wf (flip_bit w b p) /\ m_bits_number (flip_bit w b p) = m_bits_number b /\
  forall q, bit_at (flip_bit w b p) q = if (q =? p)%nat then negb (bit_at b p) else bit_at b q.
Proof.
  intros H Hp. pose proof (wf_index b p H Hp) as Hi.
  assert (B : forall q, bit_at (flip_bit w b p) q = if (q =? p)%nat then negb (bit_at b p) else bit_at b q).
  { unfold flip_bit, block_index. apply (bit_at_upd b _ p negb); [exact Hi|]. intros j Hj.
    rewrite Z.lxor_spec, bit_mask_bit by exact Hj. destruct (j =? p mod w)%nat, (Z.testbit _ _); reflexivity. }
  split; [|split; [reflexivity|exact B]]. apply wf_update; [exact H|now rewrite length_upd| |].
  - apply Forall_upd_ok; [apply H|]. apply lxor_ok; [apply at_ok, H|apply mask_ok].
  - intros q Hq. fold (flip_bit w b p). change (bit_at (flip_bit w b p) q = false). rewrite B.
    destruct (Nat.eqb_spec q p); [lia|now apply H].
Qed.

(** ** Growing and shrinking *)

Lemma length_vector_resize l n v : length (vector_resize l n v) = n.
Proof. unfold vector_resize. rewrite length_app, length_firstn, repeat_length. lia. Qed.

Lemma at_vector_resize l n v i :
  at_ (vector_resize l n v) i = if (i <? n)%nat then if (i <? length l)%nat then at_ l i else v else 0.
Proof.
  unfold vector_resize. rewrite at_app_r, length_firstn, at_firstn, at_repeat.
  destruct (Nat.ltb_spec i (Nat.min n (length l))), (Nat.ltb_spec i n), (Nat.ltb_spec i (length l)),
    (Nat.ltb_spec (i - Nat.min n (length l)) (n - length l)); try lia; reflexivity.
Qed.

Lemma one_block_ok : block_ok (one_block w).
Proof. apply wrap_ok. Qed.

Lemma vector_resize_ok l n v : Forall block_ok l -> block_ok v -> Forall block_ok (vector_resize l n v).
Proof.
  intros F Hv. apply Forall_forall. intros x Hx. apply (In_nth _ _ 0) in Hx as (i & Hi & <-).
  rewrite length_vector_resize in Hi. change (block_ok (at_ (vector_resize l n v) i)). rewrite at_vector_resize.
  destruct (Nat.ltb_spec i n); [|lia]. destruct (i <? length l)%nat; [now apply at_ok|exact Hv].
Qed.

Definition bit_resize (b : dynamic_bitset) (nbits : nat) (value : bool) (p : nat) : bool :=
  (p <? nbits)%nat && if (p <? m_bits_number b)%nat then bit_at b p else value.

(** The blocks after [std::vector::resize]. *)
Lemma resize_blocks b new v value : Forall block_ok (m_blocks b) -> block_ok v ->
  (forall j, (j < w)%nat -> Z.testbit v (Z.of_nat j) = value) ->
  let blocks := if negb (new =? num_blocks b)%nat then vector_resize (m_blocks b) new v else m_blocks b in
  length blocks = new /\ Forall block_ok blocks /\ forall i j, (i < new)%nat -> (j < w)%nat ->
    Z.testbit (at_ blocks i) (Z.of_nat j) = if (i <? num_blocks b)%nat then bit_at b (i * w + j) else value.
Proof.
  intros F Hv Bv. cbv zeta. destruct (Nat.eqb_spec new (num_blocks b)) as [->|E]; cbn [negb].
  - split; [reflexivity|]. split; [exact F|]. intros i j Hi Hj. rewrite bit_at_split by exact Hj.
    destruct (Nat.ltb_spec i (num_blocks b)); [reflexivity|lia].
  - split; [apply length_vector_resize|]. split; [now apply vector_resize_ok|]. intros i j Hi Hj.
    rewrite at_vector_resize, bit_at_split by exact Hj. destruct (Nat.ltb_spec i new); [|lia]. fold (num_blocks b).
    destruct (i <? num_blocks b)%nat; [reflexivity|now apply Bv].
Qed.

(** The bits that join the old last block when the bitset grows. *)
Lemma resize_last b nbits value v blocks : wf b -> nbits <> m_bits_number b ->
  block_ok v -> (forall j, (j < w)%nat -> Z.testbit v (Z.of_nat j) = value) ->
  length blocks = blocks_required w nbits -> Forall block_ok blocks ->
  (forall i j, (i < blocks_required w nbits)%nat -> (j < w)%nat ->
     Z.testbit (at_ blocks i) (Z.of_nat j) = if (i <? num_blocks b)%nat then bit_at b (i * w + j) else value) ->
  let last := if value && (m_bits_number b <? nbits)%nat && (0 <? num_blocks b)%nat then
                let extra_bits := extra_bits_number w b in
                if (0 <? extra_bits)%nat then
                  upd blocks (num_blocks b - 1)
                    (Z.lor (at_ blocks (num_blocks b - 1)) (block_type w (v [<<] Z.of_nat extra_bits)))
                else blocks
              else blocks in
  almost_wf (DynamicBitset last nbits) /\ forall p, (p < nbits)%nat ->
    bit_at (DynamicBitset last nbits) p = if (p <? m_bits_number b)%nat then bit_at b p else value.
Proof.
  intros H Hne Hv Bv L1 F1 B1. cbv zeta. pose proof (wf_blocks b H) as Ho. destruct H as (L & F & Z).
  set (new := blocks_required w nbits) in *. pose proof (blocks_required_bound nbits) as Hn. fold new in Hn.
  unfold num_blocks in *. set (old := length (m_blocks b)) in *. unfold extra_bits_number, bit_index.
  pose proof (Nat.div_mod_eq (m_bits_number b) w) as Hd. pose proof (Nat.mod_upper_bound (m_bits_number b) w ltac:(lia)) as Hm.
  assert (Same : (value = true -> (m_bits_number b < nbits)%nat -> (m_bits_number b <= old * w)%nat -> (old * w <= m_bits_number b)%nat) ->
    almost_wf (DynamicBitset blocks nbits) /\ forall p, (p < nbits)%nat ->
    bit_at (DynamicBitset blocks nbits) p = if (p <? m_bits_number b)%nat then bit_at b p else value).
  { intros Hfull. split; [split; assumption|]. intros p Hp. destruct (pos_split p) as (i & j & -> & Hj & _ & _).
    rewrite bit_at_split by exact Hj. cbn [m_blocks]. rewrite B1 by nia.
    destruct (Nat.ltb_spec i old), (Nat.ltb_spec (i * w + j) (m_bits_number b)); try reflexivity; try nia.
    rewrite Z by assumption. destruct value; [|reflexivity]. nia. }
  destruct (value && (m_bits_number b <? nbits)%nat && (0 <? old)%nat) eqn:C.
  2:{ apply Same. intros -> Hg _. cbn [andb] in C. destruct (Nat.ltb_spec (m_bits_number b) nbits); [|lia].
      destruct (Nat.ltb_spec 0 old); [discriminate|lia]. }
  rewrite !andb_true_iff, !Nat.ltb_lt in C. destruct C as [[-> Hgrow] Hold]. assert (Hon : (old <= new)%nat) by nia.
  destruct (Nat.ltb_spec 0 (m_bits_number b mod w)) as [He|He].
  2:{ apply Same. intros _ _ _. rewrite L, blocks_required_exact by lia. nia. }
  pose proof (blocks_required_extra _ He) as Lx. rewrite <- L in Lx. fold old in Lx.
  split. { split; cbn [m_blocks]; [now rewrite length_upd|]. apply Forall_upd_ok; [exact F1|]. apply lor_ok; [now apply at_ok|apply wrap_ok]. }
  intros p Hp. destruct (pos_split p) as (i & j & -> & Hj & _ & _). rewrite bit_at_split by exact Hj. cbn [m_blocks].
  assert (Hi : (i < new)%nat) by nia. destruct (Nat.eq_dec i (old - 1)) as [->|Hio].
  - rewrite at_upd_eq, Z.lor_spec, B1, wrap_bit, shl_bit by (assumption || (rewrite ?L1; lia)).
    destruct (Nat.ltb_spec (old - 1) old); [|lia].
    destruct (Nat.ltb_spec j w), (Nat.leb_spec (m_bits_number b mod w) j), (Nat.ltb_spec ((old - 1) * w + j) (m_bits_number b));
      cbn [andb]; rewrite ?orb_false_r; try nia; try reflexivity. rewrite Bv by lia. apply orb_true_r.
  - rewrite at_upd_ne, B1 by (assumption || auto).
    destruct (Nat.ltb_spec i old), (Nat.ltb_spec (i * w + j) (m_bits_number b)); try nia; reflexivity.
Qed.

Lemma resize_ok b nbits value : wf b ->
  wf (resize w b nbits value) /\ m_bits_number (resize w b nbits value) = nbits /\
  forall p, bit_at (resize w b nbits value) p = bit_resize b nbits value p.
Proof.
  intros H. unfold resize, bit_resize. cbv zeta.
  destruct (Nat.eqb_spec nbits (m_bits_number b)) as [->|Hne].
  { split; [exact H|]. split; [reflexivity|]. intros p. destruct (Nat.ltb_spec p (m_bits_number b)); [reflexivity|now apply H]. }
  set (v := if value then one_block w else zero_block).
  assert (Hv : block_ok v) by (unfold v; destruct value; [apply one_block_ok|apply zero_ok]).
  assert (Bv : forall j, (j < w)%nat -> Z.testbit v (Z.of_nat j) = value).
  { intros j Hj. unfold v. destruct value; [rewrite one_block_bit; now apply Nat.ltb_lt|apply Z.bits_0]. }
  destruct (resize_blocks b (blocks_required w nbits) v value (proj1 (proj2 H)) Hv Bv) as (L1 & F1 & B1).
  destruct (resize_last b nbits value v _ H Hne Hv Bv L1 F1 B1) as [A B2].
  destruct (sanitize_ok _ A) as (W & En & Bs). split; [exact W|]. split; [exact En|].
  intros p. etransitivity; [apply Bs|]. cbn [m_bits_number]. destruct (Nat.ltb_spec p nbits); cbn [andb]; [now apply B2|reflexivity].
Qed.

Lemma Forall_app_ok l l' : Forall block_ok l -> Forall block_ok l' -> Forall block_ok (l ++ l').
Proof. intros H H'. apply Forall_app. now split. Qed.

Lemma push_back_ok b v : wf b ->
  wf (push_back w b v) /\ m_bits_number (push_back w b v) = (m_bits_number b + 1)%nat /\
  forall p, bit_at (push_back w b v) p = if (p =? m_bits_number b)%nat then v else bit_at b p.
Proof.
  intros H. pose proof (wf_blocks b H) as Hn. destruct H as (L & F & Z). unfold push_back. cbv zeta.
  set (n := m_bits_number b) in *. pose proof (blocks_required_bound (n + 1)) as Hr.
  destruct (Nat.leb_spec (n + 1) (length (m_blocks b) * w)) as [Hfit|Hfull].
  - assert (Lr : length (m_blocks b) = blocks_required w (n + 1)) by nia.
    destruct v.
    + destruct (set_bit_blocks (DynamicBitset (m_blocks b) (n + 1)) n true) as (L' & F' & B).
      { cbn [m_blocks]. apply Nat.Div0.div_lt_upper_bound. lia. }
      { exact F. }
      split; [|split; [reflexivity|exact B]]. split; [exact (eq_trans L' Lr)|]. split; [exact F'|].
      intros p Hp. rewrite B. cbn [set_bit m_bits_number] in Hp. destruct (Nat.eqb_spec p n); [lia|]. apply Z. lia.
    + split; [|split; [reflexivity|]].
      * split; [exact Lr|]. split; [exact F|]. intros p Hp. apply Z. cbn in Hp. lia.
      * intros p. change (bit_at b p = if (p =? n)%nat then false else bit_at b p).
        destruct (Nat.eqb_spec p n) as [->|]; [now apply Z|reflexivity].
  - assert (En : (n = length (m_blocks b) * w)%nat) by lia.
    assert (B : forall p, bit_at (DynamicBitset (m_blocks b ++ [if v then 1 else 0]) (n + 1)) p =
                          if (p =? n)%nat then v else bit_at b p).
    { intros p. destruct (pos_split p) as (i & j & -> & Hj & _ & _). rewrite !bit_at_split by exact Hj. cbn [m_blocks].
      rewrite at_app_r. destruct (Nat.ltb_spec i (length (m_blocks b))) as [Hi|Hi].
      - destruct (Nat.eqb_spec (i * w + j) n); [nia|reflexivity].
      - rewrite (at_out (m_blocks b)) by exact Hi. rewrite Z.bits_0.
        destruct (Nat.eqb_spec (i * w + j) n) as [E|E].
        + assert (i = length (m_blocks b)) by nia. assert (j = 0)%nat by nia. subst. rewrite Nat.sub_diag.
          now destruct v.
        + destruct (Nat.eq_dec i (length (m_blocks b))) as [->|Hne].
          * rewrite Nat.sub_diag. assert (0 < j)%nat by lia.
            destruct v; [apply (Z.pow2_bits_false 0); lia|apply Z.bits_0].
          * rewrite at_out by (cbn; lia). apply Z.bits_0. }
    split; [|split; [reflexivity|exact B]]. split; [|split].
    + cbn [m_blocks m_bits_number]. rewrite length_app. cbn [length]. nia.
    + apply Forall_app_ok; [exact F|]. constructor; [|constructor]. destruct v; [|apply zero_ok].
      split; [lia|]. apply Z.pow_gt_1; lia.
    + intros p Hp. rewrite B. cbn [m_bits_number] in Hp. destruct (Nat.eqb_spec p n); [lia|]. apply Z. lia.
Qed.

Lemma pop_back_ok b : wf b ->
  wf (pop_back w b) /\ m_bits_number (pop_back w b) = (m_bits_number b - 1)%nat /\
  forall p, bit_at (pop_back w b) p = ((p <? m_bits_number b - 1)%nat && bit_at b p).
Proof.
  intros H. pose proof (wf_blocks b H) as Hn. pose proof H as (L & F & Z). unfold pop_back, empty, size.
  destruct (Nat.eqb_spec (m_bits_number b) 0) as [E|E].
  - split; [exact H|]. split; [lia|]. intros p. rewrite Z by lia. now rewrite andb_false_r.
  - set (n := (m_bits_number b - 1)%nat) in *. pose proof (blocks_required_bound n) as Hr. cbv zeta.
    destruct (Nat.ltb_spec (blocks_required w n) (length (m_blocks b))) as [Hlt|Hge].
    + assert (Ln : length (removelast (m_blocks b)) = (length (m_blocks b) - 1)%nat)
        by (rewrite removelast_firstn_len, length_firstn; lia).
      assert (Er : (blocks_required w n * w = n)%nat /\ (blocks_required w n = length (m_blocks b) - 1)%nat) by nia.
      assert (B : forall p, bit_at (DynamicBitset (removelast (m_blocks b)) n) p = ((p <? n)%nat && bit_at b p)).
      { intros p. destruct (pos_split p) as (i & j & -> & Hj & _ & _). rewrite !bit_at_split by exact Hj. cbn [m_blocks].
        destruct (Nat.ltb_spec (i * w + j) n).
        - rewrite at_removelast by nia. reflexivity.
        - rewrite at_out by (rewrite Ln; nia). apply Z.bits_0. }
      split; [|split; [reflexivity|exact B]]. split; [|split].
      * cbn [m_blocks m_bits_number]. lia.
      * cbn [m_blocks]. rewrite removelast_firstn_len. now apply Forall_firstn.
      * intros p Hp. rewrite B. cbn [m_bits_number] in Hp. destruct (Nat.ltb_spec p n); [lia|reflexivity].
    + apply (sanitize_ok (DynamicBitset (m_blocks b) n)). split; [cbn [m_blocks m_bits_number]; nia|exact F].
Qed.

(** *** Appending blocks *)

(** The blocks and the bits after [append(block)]. *)
Lemma append_block_bits b x : wf b -> block_ok x ->
  length (m_blocks (append_block w b x)) = (length (m_blocks b) + 1)%nat /\
  Forall block_ok (m_blocks (append_block w b x)) /\ forall p, bit_at (append_block w b x) p =
    if (p <? m_bits_number b)%nat then bit_at b p else Z.testbit x (Z.of_nat (p - m_bits_number b)).
Proof.
  intros H Hx. pose proof (wf_blocks b H) as Hn. destruct H as (L & F & Z). set (n := m_bits_number b) in *.
  pose proof (Nat.div_mod_eq n w) as Hd. pose proof (Nat.mod_upper_bound n w ltac:(lia)) as Hm.
  unfold append_block, extra_bits_number, bit_index, set_last_block, last_block. cbv zeta. fold n. cbn [m_blocks].
  destruct (Nat.eqb_spec (n mod w) 0) as [E|E].
  - rewrite blocks_required_exact in L by exact E.
    split; [now rewrite length_app|]. split; [apply Forall_app_ok; [exact F|now constructor]|].
    intros p. destruct (pos_split p) as (i & j & -> & Hj & _ & _). rewrite !bit_at_split by exact Hj. cbn [m_blocks].
    rewrite at_app_r. destruct (Nat.ltb_spec i (length (m_blocks b))), (Nat.ltb_spec (i * w + j) n); try nia; [reflexivity|].
    destruct (Nat.eq_dec i (length (m_blocks b))) as [->|Hne].
    + rewrite Nat.sub_diag. cbn [at_ nth]. f_equal. nia.
    + rewrite at_out by (cbn; lia). rewrite Z.bits_0. symmetry. apply block_bit_high; [exact Hx|nia].
  - rewrite blocks_required_extra in L by lia.
    split; [now rewrite length_app, length_upd|]. split.
    { apply Forall_app_ok; [apply Forall_upd_ok; [exact F|apply lor_ok; [now apply at_ok|apply wrap_ok]]|].
      constructor; [apply wrap_ok|constructor]. }
    intros p. destruct (pos_split p) as (i & j & -> & Hj & _ & _). rewrite !bit_at_split by exact Hj. cbn [m_blocks].
    rewrite at_app_r, length_upd. destruct (Nat.ltb_spec i (length (m_blocks b))) as [Hi|Hi].
    + destruct (Nat.eq_dec i (length (m_blocks b) - 1)) as [->|Hne].
      * rewrite at_upd_eq, Z.lor_spec, wrap_bit, shl_bit by lia. rewrite <- bit_at_split by exact Hj.
        destruct (Nat.ltb_spec j w), (Nat.leb_spec (n mod w) j), (Nat.ltb_spec ((length (m_blocks b) - 1) * w + j) n);
          cbn [andb]; rewrite ?orb_false_r; try nia; try reflexivity.
        rewrite Z by assumption. cbn [orb]. f_equal. nia.
      * rewrite at_upd_ne by auto. destruct (Nat.ltb_spec (i * w + j) n); [reflexivity|nia].
    + destruct (Nat.ltb_spec (i * w + j) n); [nia|]. destruct (Nat.eq_dec i (length (m_blocks b))) as [->|Hne].
      * rewrite Nat.sub_diag. cbn [at_ nth]. rewrite wrap_bit, shr_bit. destruct (Nat.ltb_spec j w); [|lia]. cbn [andb].
        f_equal. nia.
      * rewrite at_out by (cbn; lia). rewrite Z.bits_0. symmetry. apply block_bit_high; [exact Hx|nia].
Qed.

Lemma append_block_ok b x : wf b -> block_ok x ->
  wf (append_block w b x) /\ m_bits_number (append_block w b x) = (m_bits_number b + w)%nat /\
  forall p, bit_at (append_block w b x) p =
            if (p <? m_bits_number b)%nat then bit_at b p else Z.testbit x (Z.of_nat (p - m_bits_number b)).
Proof.
  intros H Hx. destruct (append_block_bits b x H Hx) as (L' & F' & B). pose proof (wf_blocks b H) as Hn.
  pose proof (blocks_required_bound (m_bits_number b + w)) as Hr.
  split; [|split; [reflexivity|exact B]]. change (m_bits_number (append_block w b x)) with (m_bits_number b + w)%nat.
  split; [change (m_bits_number (append_block w b x)) with (m_bits_number b + w)%nat; nia|].
  split; [exact F'|]. change (m_bits_number (append_block w b x)) with (m_bits_number b + w)%nat. intros p Hp. rewrite B.
  destruct (Nat.ltb_spec p (m_bits_number b)); [lia|]. apply block_bit_high; [exact Hx|lia].
Qed.

Lemma upd_snoc {A} (l : list A) x v : upd (l ++ [x]) (length (l ++ [x]) - 1) v = l ++ [v].
Proof.
  rewrite length_app. cbn [length]. replace (length l + 1 - 1)%nat with (length l) by lia.
  induction l as [|y l IH]; cbn; [reflexivity|now rewrite IH].
Qed.

Lemma at_snoc l x : at_ (l ++ [x]) (length (l ++ [x]) - 1) = x.
Proof.
  rewrite length_app. cbn [length]. replace (length l + 1 - 1)%nat with (length l) by lia.
  rewrite at_app_r, Nat.ltb_irrefl, Nat.sub_diag. reflexivity.
Qed.

Lemma add_width_mod n : ((n + w) mod w = n mod w)%nat.
Proof. rewrite <- (Nat.mul_1_l w) at 1. apply Nat.Div0.mod_add. Qed.

(** The block carried along by the loop is the last block of what plain appends
    would have built. *)
Lemma append_rest_eq e range : forall block blocks n, (n mod w = e)%nat -> (0 < e)%nat ->
  append_rest w e (w - e) block blocks n range = fold_left (append_block w) range (DynamicBitset (blocks ++ [block]) (n + w)).
Proof.
  induction range as [|x range IH]; intros block blocks n En He; cbn [append_rest fold_left]; [reflexivity|].
  rewrite IH by (rewrite ?add_width_mod; assumption). f_equal.
  unfold append_block, extra_bits_number, bit_index, set_last_block, last_block. cbv zeta. cbn [m_blocks m_bits_number].
  rewrite add_width_mod, En, upd_snoc, at_snoc. destruct (Nat.eqb_spec e 0); [lia|]. reflexivity.
Qed.

Lemma append_aligned range : forall l n, (n mod w = 0)%nat ->
  DynamicBitset (l ++ range) (n + length range * w) = fold_left (append_block w) range (DynamicBitset l n).
Proof.
  induction range as [|x range IH]; intros l n En; cbn [fold_left length].
  - rewrite app_nil_r. f_equal. lia.
  - assert (E : append_block w (DynamicBitset l n) x = DynamicBitset (l ++ [x]) (n + w))
      by (unfold append_block, extra_bits_number, bit_index; cbn [m_bits_number]; rewrite En; reflexivity).
    rewrite E. rewrite <- IH by (now rewrite add_width_mod). rewrite <- app_assoc. f_equal. lia.
Qed.

(** Appending a range is appending its blocks one after the other. *)
Lemma append_blocks_eq b range : append_blocks w b range = fold_left (append_block w) range b.
Proof.
  destruct range as [|x range]; [reflexivity|]. unfold append_blocks.
  destruct (Nat.eqb_spec (extra_bits_number w b) 0) as [E|E].
  - destruct b as [l n]. apply append_aligned. exact E.
  - unfold unused_bits_number. rewrite append_rest_eq by (reflexivity || lia). cbn [fold_left]. f_equal.
    unfold append_block. destruct (Nat.eqb_spec (extra_bits_number w b) 0); [contradiction|]. reflexivity.
Qed.

(** [n] blocks appended to [b] bring bits [x], as far as they are known: the
    [k]-th one may differ from [x] beyond position [m]. *)
Definition appended (b : dynamic_bitset) (k m : nat) (x : nat -> bool) (c : dynamic_bitset) : Prop :=
  wf c /\ m_bits_number c = (m_bits_number b + k * w)%nat /\
  forall p, (p < m_bits_number b + m)%nat -> (p < m_bits_number c)%nat ->
    bit_at c p = if (p <? m_bits_number b)%nat then bit_at b p else x (p - m_bits_number b)%nat.

Lemma append_step b k m x c block : appended b k m x c -> block_ok block ->
  (forall j, (j < w)%nat -> (k * w + j < m)%nat -> Z.testbit block (Z.of_nat j) = x (k * w + j)%nat) ->
  appended b (S k) m x (append_block w c block).
Proof.
  intros (Hc & En & B) Hx E. destruct (append_block_ok c block Hc Hx) as (Hw & En' & B').
  split; [exact Hw|]. split; [lia|]. intros p Hp Hp'. rewrite B'. rewrite En' in Hp'.
  destruct (Nat.ltb_spec p (m_bits_number c)) as [H|H]; [now apply B|].
  destruct (Nat.ltb_spec p (m_bits_number b)); [lia|]. rewrite E by lia. f_equal. lia.
Qed.

Lemma append_resize b c k m x : (m <= k * w)%nat -> appended b k m x c ->
  let r := resize w c (m_bits_number b + m) false in
  wf r /\ m_bits_number r = (m_bits_number b + m)%nat /\
  forall p, (p < m_bits_number b + m)%nat ->
    bit_at r p = if (p <? m_bits_number b)%nat then bit_at b p else x (p - m_bits_number b)%nat.
Proof.
  intros Hm (Hc & En & B). destruct (resize_ok c (m_bits_number b + m) false Hc) as (Hw & En' & B').
  cbv zeta. split; [exact Hw|]. split; [exact En'|]. intros p Hp. rewrite B'. unfold bit_resize.
  destruct (Nat.ltb_spec p (m_bits_number b + m)); [|lia]. cbn [andb].
  destruct (Nat.ltb_spec p (m_bits_number c)); [|lia]. now apply B.
Qed.

Lemma append_list b x l : forall k c m, appended b k m x c -> Forall block_ok l ->
  (forall i j, (i < length l)%nat -> (j < w)%nat -> ((k + i) * w + j < m)%nat ->
     Z.testbit (at_ l i) (Z.of_nat j) = x ((k + i) * w + j)%nat) ->
  appended b (k + length l) m x (fold_left (append_block w) l c).
Proof.
  induction l as [|y l IH]; intros k c m H F E; cbn [fold_left length].
  - now rewrite Nat.add_0_r.
  - apply Forall_cons_iff in F as [Hy F]. rewrite <- Nat.add_succ_comm. apply IH; [|exact F|].
    + apply append_step; [exact H|exact Hy|]. intros j Hj Hm. specialize (E 0%nat j). rewrite Nat.add_0_r in E. apply E; auto. cbn; lia.
    + intros i j Hi Hj Hm. specialize (E (S i) j). replace (k + S i)%nat with (S k + i)%nat in E by lia. apply E; auto. cbn; lia.
Qed.

Lemma appended_0 b m x : wf b -> appended b 0 m x b.
Proof.
  intros H. split; [exact H|]. split; [lia|]. intros p Hp Hp'. destruct (Nat.ltb_spec p (m_bits_number b)); [reflexivity|lia].
Qed.

Definition bit_append (b c : dynamic_bitset) (p : nat) : bool :=
  if (p <? m_bits_number b)%nat then bit_at b p else bit_at c (p - m_bits_number b).

Lemma append_other_ok b c : wf b -> wf c ->
  wf (append_other w b c) /\ m_bits_number (append_other w b c) = (m_bits_number b + m_bits_number c)%nat /\
  forall p, (p < m_bits_number b + m_bits_number c)%nat -> bit_at (append_other w b c) p = bit_append b c p.
Proof.
  intros Hb Hc. pose proof (wf_blocks c Hc) as Hn. unfold append_other, size. rewrite append_blocks_eq.
  apply (append_resize b _ (length (m_blocks c))); [lia|].
  apply (append_list b (bit_at c) (m_blocks c) 0); [now apply appended_0|apply Hc|].
  intros i j Hi Hj _. now rewrite bit_at_split.
Qed.

(** Appending a bitset to itself: a block that is read after it has grown still
    has its own bits. *)
Lemma append_self_loop b n : wf b -> forall k c, (k + n = num_blocks b)%nat ->
  appended b k (m_bits_number b) (bit_at b) c ->
  appended b (k + n) (m_bits_number b) (bit_at b)
    (fold_left (fun c i => append_block w c (at_ (m_blocks c) i)) (seq k n) c).
Proof.
  intros Hb. induction n as [|n IH]; intros k c Hk H; cbn [seq fold_left]; [now rewrite Nat.add_0_r|].
  rewrite <- Nat.add_succ_comm. apply IH; [lia|]. apply append_step; [exact H|apply at_ok, H|].
  intros j Hj Hm. destruct H as (Hc & En & B). rewrite <- bit_at_split by exact Hj.
  pose proof (wf_blocks b Hb). unfold num_blocks in Hk. rewrite B by nia.
  destruct (Nat.ltb_spec (k * w + j) (m_bits_number b)); [reflexivity|lia].
Qed.

Lemma append_self_ok b : wf b ->
  wf (append_self w b) /\ m_bits_number (append_self w b) = (m_bits_number b + m_bits_number b)%nat /\
  forall p, (p < m_bits_number b + m_bits_number b)%nat -> bit_at (append_self w b) p = bit_append b b p.
Proof.
  intros Hb. pose proof (wf_blocks b Hb) as Hn. unfold append_self, size.
  apply (append_resize b _ (num_blocks b)); [unfold num_blocks; lia|].
  apply (append_self_loop b (num_blocks b) Hb 0); [reflexivity|now apply appended_0].
Qed.

(** ** Whole bitsets *)

(** A block-wise loop that acts on every bit by [f]. *)
Lemma zip_ok b c (f : Z -> Z -> Z) (g : bool -> bool -> bool) :
  (forall x y, block_ok x -> block_ok y -> block_ok (f x y)) ->
  (forall x y j, (j < w)%nat -> Z.testbit (f x y) (Z.of_nat j) = g (Z.testbit x (Z.of_nat j)) (Z.testbit y (Z.of_nat j))) ->
  g false false = false -> wf b -> wf c -> m_bits_number b = m_bits_number c ->
  let r := DynamicBitset (for_blocks 0 (length (m_blocks b)) (fun i x => f x (at_ (m_blocks c) i)) (m_blocks b))
             (m_bits_number b) in
  wf r /\ m_bits_number r = m_bits_number b /\ forall p, bit_at r p = g (bit_at b p) (bit_at c p).
Proof.
  intros Hf Hg G0 Hb Hc En r. destruct Hb as (L & F & Z), Hc as (L' & F' & Z').
  assert (B : forall p, bit_at r p = g (bit_at b p) (bit_at c p)).
  { intros p. destruct (pos_split p) as (i & j & -> & Hj & _ & _). rewrite !bit_at_split by exact Hj. cbn [r m_blocks].
    rewrite at_for_blocks by lia. destruct (Nat.ltb_spec i (0 + length (m_blocks b))) as [Hi|Hi]; cbn [Nat.leb andb].
    - now apply Hg.
    - rewrite !at_out by (rewrite ?L', <- ?En; lia). now rewrite Z.bits_0. }
  split; [|split; [reflexivity|exact B]]. split; [|split].
  - cbn [r m_blocks m_bits_number]. now rewrite length_for_blocks.
  - apply for_blocks_ok; [lia| |exact F]. intros i x Hx. apply Hf; [exact Hx|now apply at_ok].
  - cbn [r m_bits_number]. intros p Hp. rewrite B, Z, Z' by lia. exact G0.
Qed.

Lemma and_assign_ok b c : wf b -> wf c -> m_bits_number b = m_bits_number c ->
  wf (and_assign b c) /\ m_bits_number (and_assign b c) = m_bits_number b /\
  forall p, bit_at (and_assign b c) p = bit_at b p && bit_at c p.
Proof.
  apply (zip_ok b c Z.land andb); [intros x y Hx Hy; apply land_ok; [exact Hx|apply Hy]|intros; apply Z.land_spec|reflexivity].
Qed.

Lemma or_assign_ok b c : wf b -> wf c -> m_bits_number b = m_bits_number c ->
  wf (or_assign b c) /\ m_bits_number (or_assign b c) = m_bits_number b /\
  forall p, bit_at (or_assign b c) p = bit_at b p || bit_at c p.
Proof. apply (zip_ok b c Z.lor orb); [apply lor_ok|intros; apply Z.lor_spec|reflexivity]. Qed.

Lemma xor_assign_ok b c : wf b -> wf c -> m_bits_number b = m_bits_number c ->
  wf (xor_assign b c) /\ m_bits_number (xor_assign b c) = m_bits_number b /\
  forall p, bit_at (xor_assign b c) p = xorb (bit_at b p) (bit_at c p).
Proof. apply (zip_ok b c Z.lxor xorb); [apply lxor_ok|intros; apply Z.lxor_spec|reflexivity]. Qed.

Lemma sub_assign_ok b c : wf b -> wf c -> m_bits_number b = m_bits_number c ->
  wf (sub_assign w b c) /\ m_bits_number (sub_assign w b c) = m_bits_number b /\
  forall p, bit_at (sub_assign w b c) p = bit_at b p && negb (bit_at c p).
Proof.
  apply (zip_ok b c (fun x y => Z.land x (block_type w (Z.lnot y))) (fun x y => x && negb y)); [|intros x y j Hj|reflexivity].
  - intros x y Hx _. apply land_ok; [exact Hx|apply wrap_ok].
  - rewrite Z.land_spec, wrap_bit, Z.lnot_spec by lia. destruct (Nat.ltb_spec j w); [reflexivity|lia].
Qed.

Lemma set_all_ok b : wf b ->
  wf (set_all w b) /\ m_bits_number (set_all w b) = m_bits_number b /\
  forall p, bit_at (set_all w b) p = (p <? m_bits_number b)%nat.
Proof.
  intros H. pose proof (wf_blocks b H) as Hn. destruct H as (L & F & Z).
  destruct (sanitize_ok (DynamicBitset (repeat (one_block w) (length (m_blocks b))) (m_bits_number b))) as (Hw & En & B).
  { split; [cbn [m_blocks m_bits_number]; now rewrite repeat_length|]. apply Forall_forall. intros x Hx.
    apply repeat_spec in Hx as ->. apply one_block_ok. }
  split; [exact Hw|]. split; [exact En|]. intros p. unfold set_all. rewrite B. cbn [m_bits_number].
  destruct (Nat.ltb_spec p (m_bits_number b)); cbn [andb]; [|reflexivity].
  destruct (pos_split p) as (i & j & -> & Hj & _ & _). rewrite bit_at_split by exact Hj. cbn [m_blocks].
  rewrite at_repeat. destruct (Nat.ltb_spec i (length (m_blocks b))); [|nia]. rewrite one_block_bit. now apply Nat.ltb_lt.
Qed.

Lemma reset_all_ok b : wf b ->
  wf (reset_all b) /\ m_bits_number (reset_all b) = m_bits_number b /\ forall p, bit_at (reset_all b) p = false.
Proof.
  intros (L & F & Z).
  assert (B : forall p, bit_at (reset_all b) p = false).
  { intros p. unfold bit_at, reset_all, zero_block. cbn [m_blocks]. rewrite at_repeat.
    destruct (p / w <? length (m_blocks b))%nat; apply Z.bits_0. }
  split; [|split; [reflexivity|exact B]]. split; [|split; [|intros; apply B]].
  - unfold reset_all. cbn [m_blocks m_bits_number]. now rewrite repeat_length.
  - apply Forall_forall. intros x Hx. apply repeat_spec in Hx as ->. apply zero_ok.
Qed.

Lemma flip_all_ok b : wf b ->
  wf (flip_all w b) /\ m_bits_number (flip_all w b) = m_bits_number b /\
  forall p, bit_at (flip_all w b) p = ((p <? m_bits_number b)%nat && negb (bit_at b p)).
Proof.
  intros H. pose proof (wf_blocks b H) as Hn. destruct H as (L & F & Z).
  destruct (sanitize_ok (DynamicBitset (map (fun x => block_type w (Z.lnot x)) (m_blocks b)) (m_bits_number b))) as (Hw & En & B).
  { split; [cbn [m_blocks m_bits_number]; now rewrite length_map|]. apply Forall_forall. intros x Hx.
    apply in_map_iff in Hx as (y & <- & _). apply wrap_ok. }
  split; [exact Hw|]. split; [exact En|]. intros p. unfold flip_all. rewrite B. cbn [m_bits_number].
  destruct (Nat.ltb_spec p (m_bits_number b)); cbn [andb]; [|reflexivity].
  destruct (pos_split p) as (i & j & -> & Hj & _ & _). rewrite !bit_at_split by exact Hj. cbn [m_blocks].
  rewrite at_map by (right; nia). rewrite wrap_bit, Z.lnot_spec by lia. destruct (Nat.ltb_spec j w); [reflexivity|lia].
Qed.

(** ** Construction and comparison *)

Lemma bitset_empty_ok : wf bitset_empty.
Proof.
  split; [unfold blocks_required; cbn; rewrite Nat.Div0.div_0_l, Nat.Div0.mod_0_l; reflexivity|]. split; [constructor|].
  intros p _. apply bit_at_out. cbn. lia.
Qed.

Lemma bitset_init_ok nbits v : (128 mod w = 0)%nat -> 0 <= v < 2 ^ 128 ->
  wf (bitset_init w nbits v) /\ m_bits_number (bitset_init w nbits v) = nbits /\
  forall p, bit_at (bitset_init w nbits v) p = ((p <? nbits)%nat && Z.testbit v (Z.of_nat p)).
Proof.
  intros Hw Hv. pose proof (blocks_required_bound nbits) as Hn. set (k := blocks_required w nbits) in *.
  assert (Hk : (128 = (128 / w) * w)%nat) by (pose proof (Nat.div_mod_eq 128 w); lia).
  assert (Vhigh : forall p, (128 <= p)%nat -> Z.testbit v (Z.of_nat p) = false).
  { intros p Hp. rewrite <- (Z.mod_small v (2 ^ 128) Hv). apply Z.mod_pow2_bits_high. lia. }
  assert (G : forall l, length l = k -> Forall block_ok l ->
     (forall i j, (i < k)%nat -> (j < w)%nat -> Z.testbit (at_ l i) (Z.of_nat j) = Z.testbit v (Z.of_nat (i * w + j))) ->
     wf (sanitize w (DynamicBitset l nbits)) /\ m_bits_number (sanitize w (DynamicBitset l nbits)) = nbits /\
     forall p, bit_at (sanitize w (DynamicBitset l nbits)) p = ((p <? nbits)%nat && Z.testbit v (Z.of_nat p))).
  { intros l Ll Fl Bl. destruct (sanitize_ok (DynamicBitset l nbits) (conj Ll Fl)) as (Hs & En & B).
    split; [exact Hs|]. split; [exact En|]. intros p. rewrite B. cbn [m_bits_number].
    destruct (Nat.ltb_spec p nbits); cbn [andb]; [|reflexivity].
    destruct (pos_split p) as (i & j & -> & Hj & _ & _). rewrite bit_at_split by exact Hj. cbn [m_blocks]. apply Bl; [nia|exact Hj]. }
  assert (F0 : Forall block_ok (repeat 0 k)) by (apply Forall_forall; intros x Hx; apply repeat_spec in Hx as ->; apply zero_ok).
  unfold bitset_init. fold k. cbv zeta. destruct ((nbits =? 0)%nat || (v =? 0)) eqn:E0.
  - assert (B : forall p, bit_at (DynamicBitset (repeat 0 k) nbits) p = false).
    { intros p. unfold bit_at. cbn [m_blocks]. rewrite at_repeat. destruct (_ <? _)%nat; apply Z.bits_0. }
    split; [|split; [reflexivity|]].
    + split; [cbn [m_blocks m_bits_number]; apply repeat_length|]. split; [exact F0|]. intros; apply B.
    + intros p. rewrite B. apply orb_true_iff in E0 as [E|E].
      * apply Nat.eqb_eq in E. subst. reflexivity.
      * apply Z.eqb_eq in E. subst. rewrite Z.bits_0. now rewrite andb_false_r.
  - apply orb_false_iff in E0 as [En Ev]. apply Nat.eqb_neq in En.
    destruct (Nat.eqb_spec (128 / w) 1) as [E1|E1].
    + apply G; [now rewrite length_upd, repeat_length|apply Forall_upd_ok; [exact F0|apply wrap_ok]|].
      intros i j Hi Hj. destruct (Nat.eq_dec i 0) as [->|Hi0].
      * rewrite at_upd_eq, wrap_bit by (rewrite repeat_length; exact Hi). cbn [Nat.mul Nat.add].
        destruct (Nat.ltb_spec j w); [reflexivity|lia].
      * rewrite at_upd_ne, at_repeat by auto. rewrite Vhigh by nia. destruct (_ <? _)%nat; apply Z.bits_0.
    + rewrite repeat_length. apply G.
      * now rewrite length_for_blocks, repeat_length.
      * apply for_blocks_ok; [rewrite repeat_length; lia| |exact F0]. intros. apply wrap_ok.
      * intros i j Hi Hj. rewrite at_for_blocks by (rewrite repeat_length; lia). cbn [Nat.leb andb Nat.add].
        destruct (Nat.ltb_spec i (Nat.min k (128 / w))) as [Hm|Hm].
        -- rewrite wrap_bit, Z.land_spec, shr_bit, one_block_bit. destruct (Nat.ltb_spec j w); [|lia]. cbn [andb].
           rewrite andb_true_r. f_equal. lia.
        -- rewrite at_repeat, Vhigh by nia. destruct (_ <? _)%nat; apply Z.bits_0.
Qed.

Lemma bitset_eqb_ok b c : wf b -> wf c -> bitset_eqb b c = true <-> bits b = bits c.
Proof.
  intros Hb Hc. unfold bitset_eqb. rewrite andb_true_iff, Nat.eqb_eq. split.
  - intros [En El]. destruct (list_eq_dec _ _ _) as [E|]; [|discriminate]. destruct b, c. cbn in *. congruence.
  - intros E. apply bits_inj in E; [subst|assumption|assumption]. split; [reflexivity|].
    destruct (list_eq_dec _ _ _) as [|Hn]; [reflexivity|now destruct Hn].
Qed.

Lemma wrap_nonneg x : 0 <= block_type w x.
Proof. apply wrap_ok. Qed.

Lemma range_mask_ok f l : block_ok (range_mask w f l).
Proof. unfold range_mask. cbv zeta. destruct (_ =? _)%nat; apply wrap_ok. Qed.
End Bits.

Create HintDb bitset.
#[export] Hint Resolve wrap_ok wrap_nonneg zero_ok one_block_ok range_mask_ok mask_ok land_ok lor_ok lxor_ok at_ok : bitset.
