(* ===== verification/BitsetOps.v ===== *)
(** The rest of [dynamic_bitset] of [utils/dynamic_bitset.h]: ranges of bits,
    shifts, the [reference] class, the queries, the search for set bits and the
    iteration over them, the order and the conversion to and from strings.  Each
    operation is shown to do on the bits what it is for.  [npos] is [None]; the
    standard library's [popcount] and [countr_zero] are written out. *)
From Stdlib Require Import ZArith Lia List Bool Ascii.
From S2P Require Import Prelude.
From S2P Require Import Bitset.
Import ListNotations.

(** ** The code *)

(** [std::popcount] and [std::countr_zero] of a [w]-bit block. *)
Definition popcount (w : nat) (x : Z) : nat := length (filter (fun j => Z.testbit x (Z.of_nat j)) (seq 0 w)).
Fixpoint countr_zero (w : nat) (x : Z) : nat :=
  match w with
  | O => O
  | S n => if Z.testbit x 0 then O else S (countr_zero n (x [>>] 1))
  end.

(** A [reference]: the block it points to and the mask of its bit. *)
Record reference := Reference { ref_block : nat; ref_mask : Z }.

Section Code.
Context (w : nat).
#[local] Notation "x &&& y" := (Z.land x y) (at level 40, left associativity).
#[local] Notation "x ||| y" := (Z.lor x y) (at level 50, left associativity).

(** *** Ranges *)

(** [pos + len - 1] and [--i] in the 64-bit unsigned [size_type]. *)
Definition range_last (pos len : nat) : nat := Z.to_nat (u64 (Z.of_nat pos + Z.of_nat len - 1)).
Definition index_before (i : nat) : nat := Z.to_nat (u64 (Z.of_nat i - 1)).

(** [for (i = first; i <= last; ++i)] over the blocks; [None] where it runs past them. *)
Definition full_blocks (first last : nat) (f : nat -> Z -> Z) (l : list Z) : option (list Z) :=
  if ((last <? first) || (last <? length l))%nat then Some (for_blocks first (last + 1 - first) f l) else None.

(** [set(pos, len, value)], [reset(pos, len)] and [flip(pos, len)], with their
    asserts: [None] where one fires. *)
Definition set_range (b : dynamic_bitset) (pos len : nat) (value : bool) : option dynamic_bitset :=
  if negb (pos <? size b)%nat then None
  else if (len =? 0)%nat then Some b
  else if negb (range_last pos len <? size b)%nat then None
  else
    let first_block := block_index w pos in
    let last_block := block_index w (range_last pos len) in
    let first_bit_index := bit_index w pos in
    let last_bit_index := bit_index w (range_last pos len) in
    let l := m_blocks b in
    if (first_block =? last_block)%nat then
      Some (DynamicBitset (upd l first_block (set_block_bits w (at_ l first_block) first_bit_index last_bit_index value))
        (m_bits_number b))
    else
      let '(first_full_block, l) :=
        if negb (first_bit_index =? 0)%nat then
          (S first_block,
           upd l first_block (set_block_bits w (at_ l first_block) first_bit_index (block_last_bit_index w) value))
        else (first_block, l) in
      let '(last_full_block, l) :=
        if negb (last_bit_index =? block_last_bit_index w)%nat then
          (index_before last_block, upd l last_block (set_block_bits w (at_ l last_block) 0 last_bit_index value))
        else (last_block, l) in
      let full_block := if value then one_block w else zero_block in
      option_map (fun l => DynamicBitset l (m_bits_number b)) (full_blocks first_full_block last_full_block (fun _ _ => full_block) l).

Definition reset_range (b : dynamic_bitset) (pos len : nat) : option dynamic_bitset := set_range b pos len false.

Definition flip_range (b : dynamic_bitset) (pos len : nat) : option dynamic_bitset :=
  if negb (pos <? size b)%nat then None
  else if (len =? 0)%nat then Some b
  else if negb (range_last pos len <? size b)%nat then None
  else
    let first_block := block_index w pos in
    let last_block := block_index w (range_last pos len) in
    let first_bit_index := bit_index w pos in
    let last_bit_index := bit_index w (range_last pos len) in
    let l := m_blocks b in
    if (first_block =? last_block)%nat then
      Some (DynamicBitset (upd l first_block (flip_block_bits w (at_ l first_block) first_bit_index last_bit_index))
        (m_bits_number b))
    else
      let '(first_full_block, l) :=
        if negb (first_bit_index =? 0)%nat then
          (S first_block,
           upd l first_block (flip_block_bits w (at_ l first_block) first_bit_index (block_last_bit_index w)))
        else (first_block, l) in
      let '(last_full_block, l) :=
        if negb (last_bit_index =? block_last_bit_index w)%nat then
          (index_before last_block, upd l last_block (flip_block_bits w (at_ l last_block) 0 last_bit_index))
        else (last_block, l) in
      option_map (fun l => DynamicBitset l (m_bits_number b))
        (full_blocks first_full_block last_full_block (fun _ x => block_type w (Z.lnot x)) l).

(** *** Shifts *)

(** [for (i = hi; i > lo; --i)] over the [n] blocks below and with [hi]. *)
Fixpoint blocks_down (hi n : nat) (f : list Z -> nat -> Z) (l : list Z) : list Z :=
  match n with
  | O => l
  | S n => blocks_down (hi - 1) n f (upd l hi (f l hi))
  end.

Fixpoint blocks_up (lo n : nat) (f : list Z -> nat -> Z) (l : list Z) : list Z :=
  match n with
  | O => l
  | S n => blocks_up (S lo) n f (upd l lo (f l lo))
  end.

Definition apply_left_shift (l : list Z) (shift : nat) : list Z :=
  let blocks_shift := (shift / w)%nat in
  let bits_offset := (shift mod w)%nat in
  let last := (length l - 1)%nat in
  let l :=
    if (bits_offset =? 0)%nat then
      blocks_down last (last + 1 - blocks_shift) (fun l i => at_ l (i - blocks_shift)) l
    else
      let reverse_bits_offset := (w - bits_offset)%nat in
      let l := blocks_down last (last - blocks_shift) (fun l i =>
                 block_type w ((at_ l (i - blocks_shift) [<<] Z.of_nat bits_offset)
                               ||| block_type w (at_ l (i - blocks_shift - 1) [>>] Z.of_nat reverse_bits_offset))) l in
      upd l blocks_shift (block_type w (at_ l 0 [<<] Z.of_nat bits_offset)) in
  for_blocks 0 blocks_shift (fun _ _ => zero_block) l.

Definition apply_right_shift (l : list Z) (shift : nat) : list Z :=
  let blocks_shift := (shift / w)%nat in
  let bits_offset := (shift mod w)%nat in
  let last_block_to_shift := (length l - blocks_shift - 1)%nat in
  let l :=
    if (bits_offset =? 0)%nat then
      blocks_up 0 (last_block_to_shift + 1) (fun l i => at_ l (i + blocks_shift)) l
    else
      let reverse_bits_offset := (w - bits_offset)%nat in
      let l := blocks_up 0 last_block_to_shift (fun l i =>
                 block_type w ((at_ l (i + blocks_shift) [>>] Z.of_nat bits_offset)
                               ||| block_type w (at_ l (i + blocks_shift + 1) [<<] Z.of_nat reverse_bits_offset))) l in
      upd l last_block_to_shift (block_type w (at_ l (length l - 1) [>>] Z.of_nat bits_offset)) in
  for_blocks (last_block_to_shift + 1) (length l - (last_block_to_shift + 1)) (fun _ _ => zero_block) l.

(** [operator<<=] and [operator>>=] *)
Definition shift_left (b : dynamic_bitset) (shift : nat) : dynamic_bitset :=
  if negb (shift =? 0)%nat then
    if (m_bits_number b <=? shift)%nat then reset_all b
    else sanitize w (DynamicBitset (apply_left_shift (m_blocks b) shift) (m_bits_number b))
  else b.

Definition shift_right (b : dynamic_bitset) (shift : nat) : dynamic_bitset :=
  if negb (shift =? 0)%nat then
    if (m_bits_number b <=? shift)%nat then reset_all b
    else DynamicBitset (apply_right_shift (m_blocks b) shift) (m_bits_number b)
  else b.

(** *** References *)

Definition reference_of (pos : nat) : reference := Reference (block_index w pos) (bit_mask w pos).

Definition ref_update (r : reference) (b : dynamic_bitset) (v : Z) : dynamic_bitset :=
  DynamicBitset (upd (m_blocks b) (ref_block r) v) (m_bits_number b).
Definition ref_get (r : reference) (b : dynamic_bitset) : bool :=
  negb ((at_ (m_blocks b) (ref_block r) &&& ref_mask r) =? zero_block).
Definition ref_not (r : reference) (b : dynamic_bitset) : bool :=
  (at_ (m_blocks b) (ref_block r) &&& ref_mask r) =? zero_block.
Definition ref_set (r : reference) (b : dynamic_bitset) : dynamic_bitset :=
  ref_update r b (at_ (m_blocks b) (ref_block r) ||| ref_mask r).
Definition ref_reset (r : reference) (b : dynamic_bitset) : dynamic_bitset :=
  ref_update r b (at_ (m_blocks b) (ref_block r) &&& block_type w (Z.lnot (ref_mask r))).
Definition ref_flip (r : reference) (b : dynamic_bitset) : dynamic_bitset :=
  ref_update r b (Z.lxor (at_ (m_blocks b) (ref_block r)) (ref_mask r)).
Definition ref_assign (r : reference) (b : dynamic_bitset) (v : bool) : dynamic_bitset :=
  if v then ref_set r b else ref_reset r b.
Definition ref_and (r : reference) (b : dynamic_bitset) (v : bool) : dynamic_bitset := if v then b else ref_reset r b.
Definition ref_or (r : reference) (b : dynamic_bitset) (v : bool) : dynamic_bitset := if v then ref_set r b else b.
Definition ref_xor (r : reference) (b : dynamic_bitset) (v : bool) : dynamic_bitset := if v then ref_flip r b else b.
Definition ref_sub (r : reference) (b : dynamic_bitset) (v : bool) : dynamic_bitset := if v then ref_reset r b else b.

(** *** Queries *)

Definition all (b : dynamic_bitset) : bool :=
  if empty b then true
  else
    let full_block := one_block w in
    if (extra_bits_number w b =? 0)%nat then forallb (fun x => x =? full_block) (m_blocks b)
    else
      forallb (fun i => at_ (m_blocks b) i =? full_block) (seq 0 (length (m_blocks b) - 1))
      && (last_block b =? (full_block [>>] Z.of_nat (unused_bits_number w b))).

Definition any (b : dynamic_bitset) : bool := existsb (fun x => negb (x =? zero_block)) (m_blocks b).
Definition none (b : dynamic_bitset) : bool := negb (any b).

Definition block_count (block : Z) : nat := popcount w block.
Definition block_count_low (block : Z) (nbits : nat) : nat :=
  popcount w (block_type w (block [<<] Z.of_nat (w - nbits))).

Definition count (b : dynamic_bitset) : nat :=
  if empty b then 0%nat
  else
    let full := fold_left (fun c i => (c + block_count (at_ (m_blocks b) i))%nat) (seq 0 (length (m_blocks b) - 1)) 0%nat in
    let extra_bits := extra_bits_number w b in
    (full + if (extra_bits =? 0)%nat then block_count (last_block b) else block_count_low (last_block b) extra_bits)%nat.

Definition is_subset_of (b c : dynamic_bitset) : option bool :=
  assert (size b =? size c)%nat
  (forallb (fun i => (at_ (m_blocks b) i &&& Z.lnot (at_ (m_blocks c) i)) =? zero_block) (seq 0 (length (m_blocks b)))).

Fixpoint proper_subset_loop (b c : dynamic_bitset) (idx : list nat) (is_proper : bool) : bool :=
  match idx with
  | [] => is_proper
  | i :: idx =>
      let self_block := at_ (m_blocks b) i in
      let other_block := at_ (m_blocks c) i in
      if negb ((self_block &&& Z.lnot other_block) =? zero_block) then false
      else proper_subset_loop b c idx (if negb ((Z.lnot self_block &&& other_block) =? zero_block) then true else is_proper)
  end.
Definition is_proper_subset_of (b c : dynamic_bitset) : option bool :=
  assert (size b =? size c)%nat (proper_subset_loop b c (seq 0 (length (m_blocks b))) false).

Definition intersects (b c : dynamic_bitset) : bool :=
  existsb (fun i => negb ((at_ (m_blocks b) i &&& at_ (m_blocks c) i) =? zero_block))
    (seq 0 (Nat.min (length (m_blocks b)) (length (m_blocks c)))).

(** *** Search *)

(** The loop over the blocks [idx] of [find_first] and of [find_next]. *)
Fixpoint find_block (l : list Z) (idx : list nat) : option nat :=
  match idx with
  | [] => None
  | i :: idx => if negb (at_ l i =? zero_block) then Some (i * w + countr_zero w (at_ l i))%nat else find_block l idx
  end.

Definition find_first (b : dynamic_bitset) : option nat := find_block (m_blocks b) (seq 0 (length (m_blocks b))).

Definition find_next (b : dynamic_bitset) (prev : nat) : option nat :=
  if empty b || (size b - 1 <=? prev)%nat then None
  else
    let first_bit := (prev + 1)%nat in
    let first_block := block_index w first_bit in
    let first_bit_index := bit_index w first_bit in
    let first_block_shifted := block_type w (at_ (m_blocks b) first_block [>>] Z.of_nat first_bit_index) in
    if negb (first_block_shifted =? zero_block) then Some (first_bit + countr_zero w first_block_shifted)%nat
    else find_block (m_blocks b) (seq (first_block + 1) (length (m_blocks b) - (first_block + 1))).

(** [while (i_bit != npos)] of [iterate_bits_on]: the function acts on a state
    and says whether to go on.  Each turn takes one of the [fuel]. *)
Fixpoint iterate_loop {A} (fuel : nat) (b : dynamic_bitset) (f : A -> nat -> A * bool) (i_bit : option nat) (a : A)
    : option A :=
  match i_bit with
  | None => Some a
  | Some i =>
      match fuel with
      | O => None
      | S fuel =>
          let '(a, go_on) := f a i in
          if go_on then iterate_loop fuel b f (find_next b i) a else Some a
      end
  end.
Definition iterate_bits_on {A} (fuel : nat) (b : dynamic_bitset) (f : A -> nat -> A * bool) (a : A) : option A :=
  iterate_loop fuel b f (find_first b) a.

(** *** Order *)

(** [for (i = n; i > 0; --i)] with the two last returns for block 0: the first
    difference from the top decides. *)
Fixpoint compare_down (l r : list Z) (i : nat) : option bool :=
  match i with
  | O => None
  | S j => if negb (at_ l i =? at_ r i) then Some (at_ l i <? at_ r i) else compare_down l r j
  end.

(** Whether one of the [n] blocks that only the longer bitset has, from the top
    one [i] down, is not zero. *)
Fixpoint longer_loop (l : list Z) (i n : nat) : bool :=
  match n with
  | O => false
  | S n => if negb (at_ l i =? 0) then true else longer_loop l (i - 1) n
  end.

Definition bitset_ltb (lhs rhs : dynamic_bitset) : bool :=
  let lhs_size := size lhs in
  let rhs_size := size rhs in
  let lhs_blocks_size := length (m_blocks lhs) in
  let rhs_blocks_size := length (m_blocks rhs) in
  if (lhs_size =? rhs_size)%nat then
    if (lhs_size =? 0)%nat then false
    else
      match compare_down (m_blocks lhs) (m_blocks rhs) (lhs_blocks_size - 1) with
      | Some v => v
      | None => at_ (m_blocks lhs) 0 <? at_ (m_blocks rhs) 0
      end
  else if (lhs_size =? 0)%nat then true
  else if (rhs_size =? 0)%nat then false
  else
    let rhs_longer := (lhs_size <? rhs_size)%nat in
    let longest_bitset := if rhs_longer then rhs else lhs in
    let longest_blocks_size := Nat.max lhs_blocks_size rhs_blocks_size in
    let shortest_blocks_size := Nat.min lhs_blocks_size rhs_blocks_size in
    if longer_loop (m_blocks longest_bitset) (longest_blocks_size - 1) (longest_blocks_size - shortest_blocks_size)
    then rhs_longer
    else
      match compare_down (m_blocks lhs) (m_blocks rhs) (shortest_blocks_size - 1) with
      | Some v => v
      | None =>
          if negb (at_ (m_blocks lhs) 0 =? at_ (m_blocks rhs) 0) then at_ (m_blocks lhs) 0 <? at_ (m_blocks rhs) 0
          else (lhs_size <? rhs_size)%nat
      end.

(** *** Strings *)

(** The loop over the bits of block [i_block] of [to_string], [mask] shifted
    along. *)
Fixpoint to_string_bits (one : ascii) (block : Z) (len base : nat) (i_bit n : nat) (mask : Z) (str : list ascii)
    : list ascii :=
  match n with
  | O => str
  | S n =>
      let str := if negb ((block &&& mask) =? zero_block) then upd str (len - (base + i_bit + 1)) one else str in
      to_string_bits one block len base (S i_bit) n (block_type w (mask [<<] 1)) str
  end.

Definition to_string (b : dynamic_bitset) (zero one : ascii) : list ascii :=
  let len := size b in
  fold_left (fun str i_block =>
      let block := at_ (m_blocks b) i_block in
      if block =? zero_block then str
      else
        let limit := if (i_block * w <? len)%nat then (len - i_block * w)%nat else w in
        to_string_bits one block len (i_block * w) 0 limit (block_type w 1) str)
    (seq 0 (length (m_blocks b))) (repeat zero len).

(** [init_from_string], [n = npos] being [length str]. *)
Definition init_from_string (str : list ascii) (pos n : nat) (zero one : ascii) : dynamic_bitset :=
  let size := Nat.min n (length str - pos) in
  let b := DynamicBitset (repeat 0 (blocks_required w size)) size in
  fold_left (fun b i => if Ascii.eqb (nth (pos + size - 1 - i) str zero) one then set_bit w b i true else b)
    (seq 0 size) b.
(** [operator>>]: the characters of the stream, white space skipped by the
    sentry (a stream that holds nothing else leaves the bitset alone), the bits
    read into a bitset and then pushed in reverse order.  The result is the bitset
    and what is left in the stream. *)
Fixpoint skip_ws (inp : list ascii) : list ascii :=
  match inp with
  | c :: rest =>
      let n := nat_of_ascii c in
      if ((9 <=? n) && (n <=? 13) || (n =? 32))%nat then skip_ws rest else inp
  | [] => []
  end.

Fixpoint read_bits (inp : list ascii) (reverse_bitset : dynamic_bitset) : dynamic_bitset * list ascii :=
  match inp with
  | [] => (reverse_bitset, [])
  | val :: rest =>
      if Ascii.eqb val "1" then read_bits rest (push_back w reverse_bitset true)
      else if Ascii.eqb val "0" then read_bits rest (push_back w reverse_bitset false)
      else (reverse_bitset, inp)
  end.

(** [for (i = n; i > 0; --i)] *)
Fixpoint push_reverse (reverse_bitset : dynamic_bitset) (i : nat) (b : dynamic_bitset) : dynamic_bitset :=
  match i with
  | O => b
  | S j => push_reverse reverse_bitset j (push_back w b (test_bit w reverse_bitset i))
  end.

Definition stream_in (inp : list ascii) (b : dynamic_bitset) : dynamic_bitset * list ascii :=
  match skip_ws inp with
  | [] => (b, [])
  | inp =>
      let '(reverse_bitset, inp) := read_bits inp bitset_empty in
      let b := clear b in
      (if negb (empty reverse_bitset) then
         let b := push_reverse reverse_bitset (size reverse_bitset - 1) b in
         push_back w b (test_bit w reverse_bitset 0)
       else b, inp)
  end.
End Code.

Section Ops.
Context (w : nat) (w_pos : (0 < w)%nat).
#[local] Abbreviation bit_at := (bit_at w).
#[local] Abbreviation block_ok := (block_ok w).
#[local] Abbreviation wf := (wf w).
#[local] Abbreviation bits := (bits w).

(** ** Ranges *)

(** What [set(pos, len, value)] and [flip(pos, len)] share: [part] changes some
    bits of a block, [full] all of them. *)
Definition update_range (part : Z -> nat -> nat -> Z) (full : Z -> Z) (b : dynamic_bitset) (pos len : nat) : list Z :=
  let first := (pos / w)%nat in
  let last := ((pos + len - 1) / w)%nat in
  let first_bit := (pos mod w)%nat in
  let last_bit := ((pos + len - 1) mod w)%nat in
  let l := m_blocks b in
  if (first =? last)%nat then upd l first (part (at_ l first) first_bit last_bit)
  else
    let l := if negb (first_bit =? 0)%nat then upd l first (part (at_ l first) first_bit (w - 1)%nat) else l in
    let first_full := if negb (first_bit =? 0)%nat then S first else first in
    let l := if negb (last_bit =? w - 1)%nat then upd l last (part (at_ l last) 0%nat last_bit) else l in
    let last_full := if negb (last_bit =? w - 1)%nat then (last - 1)%nat else last in
    for_blocks first_full (last_full + 1 - first_full) (fun _ => full) l.

Section Range.
Context (part : Z -> nat -> nat -> Z) (full : Z -> Z) (g : bool -> bool).
Context (part_ok : forall x f l, block_ok x -> block_ok (part x f l)) (full_ok : forall x, block_ok x -> block_ok (full x)).
Context (part_bit : forall x f l j, (f <= l < w)%nat -> (j < w)%nat -> Z.testbit (part x f l) (Z.of_nat j) =
           if ((f <=? j) && (j <=? l))%nat then g (Z.testbit x (Z.of_nat j)) else Z.testbit x (Z.of_nat j)).
Context (full_bit : forall x j, (j < w)%nat -> Z.testbit (full x) (Z.of_nat j) = g (Z.testbit x (Z.of_nat j))).

Lemma full_as_part x f l j : (f = 0)%nat -> (l = w - 1)%nat -> (j < w)%nat ->
  Z.testbit (full x) (Z.of_nat j) = if ((f <=? j) && (j <=? l))%nat then g (Z.testbit x (Z.of_nat j)) else Z.testbit x (Z.of_nat j).
Proof.
  intros -> -> Hj. rewrite full_bit by exact Hj. destruct (Nat.leb_spec 0 j), (Nat.leb_spec j (w - 1)); reflexivity || lia.
Qed.

(** Block [i] after the update, by its place in the range. *)
Lemma update_range_at b pos len i j :
  let first := (pos / w)%nat in let last := ((pos + len - 1) / w)%nat in
  let lo := if (i =? first)%nat then (pos mod w)%nat else 0%nat in
  let hi := if (i =? last)%nat then ((pos + len - 1) mod w)%nat else (w - 1)%nat in
  (first <= last < length (m_blocks b))%nat -> (first = last -> pos mod w <= (pos + len - 1) mod w)%nat -> (j < w)%nat ->
  Z.testbit (at_ (update_range part full b pos len) i) (Z.of_nat j) =
  if ((first <=? i) && (i <=? last) && (lo <=? j) && (j <=? hi))%nat then g (Z.testbit (at_ (m_blocks b) i) (Z.of_nat j))
  else Z.testbit (at_ (m_blocks b) i) (Z.of_nat j).
Proof.
  intros first last lo hi Hl Hb Hj. unfold update_range. fold first last.
  pose proof (Nat.mod_upper_bound pos w ltac:(lia)) as M0. pose proof (Nat.mod_upper_bound (pos + len - 1) w ltac:(lia)) as M1.
  set (l := m_blocks b) in *. set (fb := (pos mod w)%nat) in *. set (lb := ((pos + len - 1) mod w)%nat) in *.
  destruct (Nat.eqb_spec first last) as [E|E].
  - destruct (Nat.eq_dec i first) as [->|Hi].
    + rewrite at_upd_eq, part_bit by lia. unfold lo, hi. rewrite E, Nat.eqb_refl, Nat.leb_refl. reflexivity.
    + rewrite at_upd_ne by auto. destruct (Nat.leb_spec first i), (Nat.leb_spec i last); cbn [andb]; reflexivity || lia.
  - cbv zeta. rewrite at_for_blocks by
      (destruct (negb (fb =? 0)%nat), (negb (lb =? w - 1)%nat); rewrite ?length_upd; lia).
    unfold lo, hi. clear lo hi.
    destruct (Nat.eqb_spec fb 0) as [F0|F0], (Nat.eqb_spec lb (w - 1)) as [L1|L1]; cbn [negb];
      destruct (Nat.eq_dec i first) as [->|Hf]; try (destruct (Nat.eq_dec i last) as [->|Hl']);
      rewrite ?(proj2 (Nat.eqb_neq first last) E), ?Nat.eqb_refl, ?(proj2 (Nat.eqb_neq last first) (not_eq_sym E));
      repeat match goal with H : i <> _ |- _ => rewrite (proj2 (Nat.eqb_neq _ _) H); revert H end; intros;
      repeat (rewrite ?at_upd_ne by auto; rewrite ?at_upd_eq by (rewrite ?length_upd; lia));
      repeat match goal with |- context [(?a <=? ?b)%nat] => destruct (Nat.leb_spec a b); try lia end;
      repeat match goal with |- context [(?a <? ?b)%nat] => destruct (Nat.ltb_spec a b); try lia end;
      cbn [andb]; rewrite ?full_bit by exact Hj; rewrite ?part_bit by lia;
      repeat match goal with |- context [(?a <=? ?b)%nat] => destruct (Nat.leb_spec a b); try lia end; reflexivity.
Qed.

Lemma update_range_length b pos len : length (update_range part full b pos len) = length (m_blocks b).
Proof.
  unfold update_range. destruct (_ =? _)%nat; [apply length_upd|]. cbv zeta. rewrite length_for_blocks.
  destruct (negb _), (negb _); rewrite ?length_upd; reflexivity.
Qed.

Lemma update_range_ok b pos len : wf b -> (0 < len)%nat -> (pos + len <= m_bits_number b)%nat ->
  let r := DynamicBitset (update_range part full b pos len) (m_bits_number b) in
  wf r /\ m_bits_number r = m_bits_number b /\
  forall p, bit_at r p = if ((pos <=? p) && (p <? pos + len))%nat then g (bit_at b p) else bit_at b p.
Proof.
  intros H Hlen Hpos r. pose proof (wf_index w w_pos b pos H ltac:(lia)) as I0.
  pose proof (wf_index w w_pos b (pos + len - 1) H ltac:(lia)) as I1.
  pose proof (Nat.div_mod_eq pos w) as D0. pose proof (Nat.div_mod_eq (pos + len - 1) w) as D1.
  pose proof (Nat.mod_upper_bound pos w ltac:(lia)) as M0. pose proof (Nat.mod_upper_bound (pos + len - 1) w ltac:(lia)) as M1.
  assert (Hle : (pos / w <= (pos + len - 1) / w)%nat) by (apply Nat.Div0.div_le_mono; lia).
  assert (B : forall p, bit_at r p = if ((pos <=? p) && (p <? pos + len))%nat then g (bit_at b p) else bit_at b p).
  { intros p. destruct (pos_split w w_pos p) as (i & j & -> & Hj & _ & _). rewrite !(bit_at_split w w_pos) by exact Hj. cbn [r m_blocks].
    rewrite update_range_at by (assumption || nia).
    match goal with |- (if ?x then _ else _) = (if ?y then _ else _) => replace x with y; [reflexivity|] end.
    destruct (Nat.eqb_spec i (pos / w)), (Nat.eqb_spec i ((pos + len - 1) / w));
      repeat match goal with |- context [(?a <=? ?b)%nat] => destruct (Nat.leb_spec a b) end;
      repeat match goal with |- context [(?a <? ?b)%nat] => destruct (Nat.ltb_spec a b) end; try reflexivity; exfalso; nia. }
  split; [|split; [reflexivity|exact B]]. apply wf_update; [exact H|apply update_range_length| |].
  - unfold update_range. cbv zeta. pose proof (proj1 (proj2 H)) as F.
    repeat match goal with |- context [if ?x then _ else _] => destruct x end;
    repeat (apply for_blocks_ok || apply Forall_upd_ok || apply part_ok || apply at_ok || assumption || (intros; apply full_ok));
    rewrite ?length_upd; try lia.
  - intros p Hp. change (bit_at r p = false). rewrite B. destruct (Nat.ltb_spec p (pos + len)); [lia|].
    rewrite andb_false_r. now apply H.
Qed.
End Range.

Lemma set_block_bits_bit v x f l j : (f <= l < w)%nat -> (j < w)%nat ->
  Z.testbit (set_block_bits w x f l v) (Z.of_nat j) = if ((f <=? j) && (j <=? l))%nat then v else Z.testbit x (Z.of_nat j).
Proof.
  intros Hl Hj. unfold set_block_bits. destruct v.
  - rewrite Z.lor_spec, range_mask_bit by (assumption || lia).
    destruct ((f <=? j) && (j <=? l))%nat; rewrite ?orb_true_r, ?orb_false_r; reflexivity.
  - rewrite Z.land_spec, wrap_bit, Z.lnot_spec, range_mask_bit by (assumption || lia).
    destruct (Nat.ltb_spec j w), ((f <=? j) && (j <=? l))%nat; cbn [andb negb]; rewrite ?andb_true_r, ?andb_false_r; reflexivity || lia.
Qed.

(** The end of a range that fits in [size_t], and the block before another. *)
Lemma range_last_ok pos len : (0 < len)%nat -> Z.of_nat pos + Z.of_nat len <= 2 ^ 64 -> range_last pos len = (pos + len - 1)%nat.
Proof. intros H Hn. unfold range_last. rewrite u64_small; lia. Qed.

Lemma index_before_ok i : (0 < i)%nat -> Z.of_nat i < 2 ^ 64 -> index_before i = (i - 1)%nat.
Proof. intros H Hn. unfold index_before. rewrite u64_small; lia. Qed.

Lemma full_blocks_ok first last f l : (last < length l)%nat -> full_blocks first last f l = Some (for_blocks first (last + 1 - first) f l).
Proof. intros H. unfold full_blocks. now rewrite (proj2 (Nat.ltb_lt _ _) H), orb_true_r. Qed.

(** A range inside the bitset. *)
Definition ranged (b : dynamic_bitset) (pos len : nat) : Prop :=
  wf b /\ (pos < m_bits_number b)%nat /\ (0 < len)%nat /\ (pos + len <= m_bits_number b)%nat /\ Z.of_nat pos + Z.of_nat len <= 2 ^ 64.

Lemma ranged_blocks b pos len : ranged b pos len -> range_last pos len = (pos + len - 1)%nat /\
  (range_last pos len < m_bits_number b)%nat /\ (range_last pos len / w < length (m_blocks b))%nat /\
  (pos / w <> range_last pos len / w -> index_before (range_last pos len / w) = range_last pos len / w - 1)%nat.
Proof.
  intros (H & Hp & Hl & He & Hn). rewrite (range_last_ok pos len Hl Hn). split; [reflexivity|]. split; [lia|].
  split; [apply (wf_index w w_pos); [exact H|lia]|]. intros Hd.
  assert (pos / w <= (pos + len - 1) / w)%nat by (apply Nat.Div0.div_le_mono; lia).
  pose proof (Nat.Div0.div_le_upper_bound (pos + len - 1) w (pos + len - 1) ltac:(nia)). apply index_before_ok; lia.
Qed.

Lemma set_range_eq b pos len v : ranged b pos len -> set_range w b pos len v =
  Some (DynamicBitset (update_range (fun x f l => set_block_bits w x f l v) (fun _ => if v then one_block w else zero_block) b pos len)
    (m_bits_number b)).
Proof.
  intros R. destruct (ranged_blocks b pos len R) as (El & Hl & Hb & Hi). destruct R as (_ & Hp & H0 & _).
  unfold set_range, update_range, block_index, bit_index, block_last_bit_index, size. cbv zeta. rewrite <- El.
  rewrite (proj2 (Nat.ltb_lt _ _) Hp), (proj2 (Nat.ltb_lt _ _) Hl). destruct (Nat.eqb_spec len 0); [lia|]. cbn [negb].
  destruct (Nat.eqb_spec (pos / w) (range_last pos len / w)) as [E|E]; [reflexivity|]. specialize (Hi E).
  destruct (pos mod w =? 0)%nat, (range_last pos len mod w =? w - 1)%nat; cbn [negb]; rewrite full_blocks_ok; try reflexivity;
    rewrite ?Hi, ?length_upd; first [lia|reflexivity].
Qed.

(** The asserts of the operations on ranges. *)
Lemma range_refused b pos len : (m_bits_number b <= pos)%nat \/ (0 < len /\ m_bits_number b < pos + len)%nat ->
  Z.of_nat pos + Z.of_nat len <= 2 ^ 64 -> (pos <? size b)%nat = false \/ (len =? 0)%nat = false /\ (range_last pos len <? size b)%nat = false.
Proof.
  intros [H|[H1 H2]] Hn; [left; now apply Nat.ltb_ge|]. right. split; [apply Nat.eqb_neq; lia|].
  rewrite range_last_ok by assumption. apply Nat.ltb_ge. unfold size. lia.
Qed.

Lemma set_range_none b pos len v : Z.of_nat pos + Z.of_nat len <= 2 ^ 64 ->
  (m_bits_number b <= pos)%nat \/ (0 < len /\ m_bits_number b < pos + len)%nat -> set_range w b pos len v = None.
Proof.
  intros Hn H. unfold set_range. destruct (range_refused b pos len H Hn) as [->|[-> ->]]; cbn [negb]; [reflexivity|]. now destruct (negb _).
Qed.

Lemma flip_range_none b pos len : Z.of_nat pos + Z.of_nat len <= 2 ^ 64 ->
  (m_bits_number b <= pos)%nat \/ (0 < len /\ m_bits_number b < pos + len)%nat -> flip_range w b pos len = None.
Proof.
  intros Hn H. unfold flip_range. destruct (range_refused b pos len H Hn) as [->|[-> ->]]; cbn [negb]; [reflexivity|]. now destruct (negb _).
Qed.

(** A range of no bits. *)
Lemma no_range b pos (f : bool -> bool) : wf b -> wf b /\ m_bits_number b = m_bits_number b /\
  forall p, bit_at b p = if ((pos <=? p) && (p <? pos + 0))%nat then f (bit_at b p) else bit_at b p.
Proof.
  intros H. split; [exact H|]. split; [reflexivity|]. intros p. destruct (Nat.leb_spec pos p), (Nat.ltb_spec p (pos + 0)); cbn [andb]; reflexivity || lia.
Qed.

Lemma set_range_ok b pos len v : wf b -> Z.of_nat pos + Z.of_nat len <= 2 ^ 64 -> (pos < m_bits_number b)%nat -> (pos + len <= m_bits_number b)%nat ->
  exists r, set_range w b pos len v = Some r /\ wf r /\ m_bits_number r = m_bits_number b /\
  forall p, bit_at r p = if ((pos <=? p) && (p <? pos + len))%nat then v else bit_at b p.
Proof.
  intros H Hn H0 Hp. destruct (Nat.eq_dec len 0) as [->|Hl].
  - exists b. split; [unfold set_range, size; now rewrite (proj2 (Nat.ltb_lt _ _) H0)|]. exact (no_range b pos (fun _ => v) H).
  - eexists. split; [apply set_range_eq; refine (conj H (conj H0 (conj _ (conj Hp Hn)))); lia|]. apply (update_range_ok _ _ (fun _ => v)); try (assumption || lia).
    + intros x f l Hx. unfold set_block_bits. destruct v; auto with bitset.
    + intros x _. destruct v; unfold zero_block; auto with bitset.
    + intros. apply set_block_bits_bit; assumption.
    + intros x j Hj. destruct v; [rewrite one_block_bit by exact w_pos; now apply Nat.ltb_lt|apply Z.bits_0].
Qed.

Lemma flip_range_eq b pos len : ranged b pos len -> flip_range w b pos len =
  Some (DynamicBitset (update_range (flip_block_bits w) (fun x => block_type w (Z.lnot x)) b pos len) (m_bits_number b)).
Proof.
  intros R. destruct (ranged_blocks b pos len R) as (El & Hl & Hb & Hi). destruct R as (_ & Hp & H0 & _).
  unfold flip_range, update_range, block_index, bit_index, block_last_bit_index, size. cbv zeta. rewrite <- El.
  rewrite (proj2 (Nat.ltb_lt _ _) Hp), (proj2 (Nat.ltb_lt _ _) Hl). destruct (Nat.eqb_spec len 0); [lia|]. cbn [negb].
  destruct (Nat.eqb_spec (pos / w) (range_last pos len / w)) as [E|E]; [reflexivity|]. specialize (Hi E).
  destruct (pos mod w =? 0)%nat, (range_last pos len mod w =? w - 1)%nat; cbn [negb]; rewrite full_blocks_ok; try reflexivity;
    rewrite ?Hi, ?length_upd; first [lia|reflexivity].
Qed.

Lemma flip_range_ok b pos len : wf b -> Z.of_nat pos + Z.of_nat len <= 2 ^ 64 -> (pos < m_bits_number b)%nat -> (pos + len <= m_bits_number b)%nat ->
  exists r, flip_range w b pos len = Some r /\ wf r /\ m_bits_number r = m_bits_number b /\
  forall p, bit_at r p = if ((pos <=? p) && (p <? pos + len))%nat then negb (bit_at b p) else bit_at b p.
Proof.
  intros H Hn H0 Hp. destruct (Nat.eq_dec len 0) as [->|Hl].
  - exists b. split; [unfold flip_range, size; now rewrite (proj2 (Nat.ltb_lt _ _) H0)|]. exact (no_range b pos negb H).
  - eexists. split; [apply flip_range_eq; refine (conj H (conj H0 (conj _ (conj Hp Hn)))); lia|]. apply (update_range_ok _ _ negb); try (assumption || lia).
    + intros x f l Hx. unfold flip_block_bits. auto with bitset.
    + auto with bitset.
    + intros x f l j Hl' Hj. unfold flip_block_bits. rewrite Z.lxor_spec, range_mask_bit by (assumption || lia).
      destruct ((f <=? j) && (j <=? l))%nat, (Z.testbit x _); reflexivity.
    + intros x j Hj. rewrite wrap_bit, Z.lnot_spec by lia. destruct (Nat.ltb_spec j w); [reflexivity|lia].
Qed.

(** ** Shifts *)

Lemma length_blocks_down hi n f l : length (blocks_down hi n f l) = length l.
Proof. revert hi l; induction n as [|n IH]; intros hi l; cbn; [reflexivity|]. now rewrite IH, length_upd. Qed.

Lemma length_blocks_up lo n f l : length (blocks_up lo n f l) = length l.
Proof. revert lo l; induction n as [|n IH]; intros lo l; cbn; [reflexivity|]. now rewrite IH, length_upd. Qed.

(** Going down, a block is computed from blocks at or below it, all unchanged. *)
Lemma at_blocks_down f (r : (nat -> Z) -> nat -> Z) l0 :
  (forall l i, f l i = r (at_ l) i) -> (forall a a' i, (forall k, (k <= i)%nat -> a k = a' k) -> r a i = r a' i) ->
  forall n hi l, (n <= hi + 1)%nat -> (hi < length l)%nat -> (forall k, (k <= hi)%nat -> at_ l k = at_ l0 k) ->
  forall i, at_ (blocks_down hi n f l) i = if ((hi <? i + n) && (i <=? hi))%nat then r (at_ l0) i else at_ l i.
Proof.
  intros Hf Hr. induction n as [|n IH]; intros hi l Hn Hh H i; cbn [blocks_down].
  - destruct (Nat.ltb_spec hi (i + 0)), (Nat.leb_spec i hi); cbn [andb]; reflexivity || lia.
  - assert (E : at_ (upd l hi (f l hi)) i = if (i =? hi)%nat then r (at_ l0) i else at_ l i).
    { destruct (Nat.eqb_spec i hi) as [->|Hi]; [|now rewrite at_upd_ne by auto].
      rewrite at_upd_eq, Hf by exact Hh. now apply Hr. }
    destruct (Nat.eq_dec n 0) as [->|Hn0]; cbn [blocks_down].
    + rewrite E. destruct (Nat.eqb_spec i hi), (Nat.ltb_spec hi (i + 1)), (Nat.leb_spec i hi); cbn [andb]; reflexivity || lia.
    + rewrite IH; [|lia|rewrite length_upd; lia|intros k Hk; rewrite at_upd_ne by lia; apply H; lia].
      rewrite E. destruct (Nat.eqb_spec i hi), (Nat.ltb_spec (hi - 1) (i + n)), (Nat.leb_spec i (hi - 1)),
        (Nat.ltb_spec hi (i + S n)), (Nat.leb_spec i hi); cbn [andb]; reflexivity || lia.
Qed.

(** Going up, from blocks at or above it. *)
Lemma at_blocks_up f (r : (nat -> Z) -> nat -> Z) l0 :
  (forall l i, f l i = r (at_ l) i) -> (forall a a' i, (forall k, (i <= k)%nat -> a k = a' k) -> r a i = r a' i) ->
  forall n lo l, (lo + n <= length l)%nat -> (forall k, (lo <= k)%nat -> at_ l k = at_ l0 k) ->
  forall i, at_ (blocks_up lo n f l) i = if ((lo <=? i) && (i <? lo + n))%nat then r (at_ l0) i else at_ l i.
Proof.
  intros Hf Hr. induction n as [|n IH]; intros lo l Hn H i; cbn [blocks_up].
  - destruct (Nat.leb_spec lo i), (Nat.ltb_spec i (lo + 0)); cbn [andb]; reflexivity || lia.
  - rewrite IH; [|rewrite length_upd; lia|intros k Hk; rewrite at_upd_ne by lia; apply H; lia].
    destruct (Nat.eq_dec i lo) as [->|Hi].
    + rewrite at_upd_eq, Hf by lia. rewrite (Hr (at_ l) (at_ l0)) by exact H.
      destruct (Nat.leb_spec (S lo) lo), (Nat.leb_spec lo lo), (Nat.ltb_spec lo (lo + S n)); cbn [andb]; reflexivity || lia.
    + rewrite at_upd_ne by auto.
      destruct (Nat.leb_spec (S lo) i), (Nat.leb_spec lo i), (Nat.ltb_spec i (S lo + n)), (Nat.ltb_spec i (lo + S n)); cbn [andb]; reflexivity || lia.
Qed.

(** Every block after the shift, in terms of the blocks before it. *)
Lemma left_shift_at l shift i : (shift / w < length l)%nat -> (i < length l)%nat ->
  at_ (apply_left_shift w l shift) i =
  if (i <? shift / w)%nat then 0
  else if (shift mod w =? 0)%nat then at_ l (i - shift / w)
  else if (i =? shift / w)%nat then block_type w (at_ l 0 [<<] Z.of_nat (shift mod w))
  else block_type w (Z.lor (at_ l (i - shift / w) [<<] Z.of_nat (shift mod w))
                       (block_type w (at_ l (i - shift / w - 1) [>>] Z.of_nat (w - shift mod w)))).
Proof.
  intros Hs Hi. unfold apply_left_shift. cbv zeta. set (bs := (shift / w)%nat) in *. set (off := (shift mod w)%nat).
  rewrite at_for_blocks.
  2:{ destruct (off =? 0)%nat; rewrite ?length_upd, length_blocks_down; lia. }
  cbn [Nat.leb andb Nat.add]. destruct (Nat.ltb_spec i bs); [reflexivity|].
  destruct (Nat.eqb_spec off 0) as [E|E].
  - rewrite (at_blocks_down _ (fun a i => a (i - bs)%nat) l); try (reflexivity || lia); [|intros a a' k H'; apply H'; lia].
    destruct (Nat.ltb_spec (length l - 1) (i + (length l - 1 + 1 - bs))), (Nat.leb_spec i (length l - 1)); cbn [andb]; reflexivity || lia.
  - set (f := fun (l : list Z) (i : nat) => _).
    assert (D : forall k, at_ (blocks_down (length l - 1) (length l - 1 - bs) f l) k =
              if ((length l - 1 <? k + (length l - 1 - bs)) && (k <=? length l - 1))%nat then f l k else at_ l k).
    { intros k. apply (at_blocks_down f (fun a i => block_type w (Z.lor (a (i - bs)%nat [<<] Z.of_nat off)
        (block_type w (a (i - bs - 1)%nat [>>] Z.of_nat (w - off))))) l); try (reflexivity || lia).
      intros a a' m H'. rewrite !H' by lia. reflexivity. }
    destruct (Nat.eqb_spec i bs) as [->|Hne].
    + rewrite at_upd_eq by (rewrite length_blocks_down; lia). rewrite D.
      destruct (Nat.ltb_spec (length l - 1) (0 + (length l - 1 - bs))); [lia|]. reflexivity.
    + rewrite at_upd_ne by auto. rewrite D.
      destruct (Nat.ltb_spec (length l - 1) (i + (length l - 1 - bs))), (Nat.leb_spec i (length l - 1)); cbn [andb]; reflexivity || lia.
Qed.

Lemma right_shift_at l shift i : (shift / w < length l)%nat -> (i < length l)%nat ->
  at_ (apply_right_shift w l shift) i =
  if (length l - shift / w <=? i)%nat then 0
  else if (shift mod w =? 0)%nat then at_ l (i + shift / w)
  else if (i =? length l - shift / w - 1)%nat then block_type w (at_ l (length l - 1) [>>] Z.of_nat (shift mod w))
  else block_type w (Z.lor (at_ l (i + shift / w) [>>] Z.of_nat (shift mod w))
                       (block_type w (at_ l (i + shift / w + 1) [<<] Z.of_nat (w - shift mod w)))).
Proof.
  intros Hs Hi. unfold apply_right_shift. cbv zeta. set (bs := (shift / w)%nat) in *. set (off := (shift mod w)%nat).
  set (last := (length l - bs - 1)%nat).
  match goal with |- at_ (for_blocks _ _ _ ?x) _ = _ =>
    assert (Ex : length x = length l) by (destruct (off =? 0)%nat; rewrite ?length_upd; apply length_blocks_up)
  end.
  rewrite at_for_blocks by lia. rewrite Ex. clear Ex.
  destruct (Nat.leb_spec (last + 1) i), (Nat.ltb_spec i (last + 1 + (length l - (last + 1)))), (Nat.leb_spec (length l - bs) i);
    cbn [andb]; try lia; [reflexivity|].
  destruct (Nat.eqb_spec off 0) as [E|E].
  - rewrite (at_blocks_up _ (fun a i => a (i + bs)%nat) l); try (reflexivity || lia); [|intros a a' k H'; apply H'; lia].
    destruct (Nat.ltb_spec i (0 + (last + 1))); cbn [Nat.leb andb]; reflexivity || lia.
  - set (f := fun (l : list Z) (i : nat) => _).
    assert (U : forall k, at_ (blocks_up 0 last f l) k = if ((0 <=? k) && (k <? 0 + last))%nat then f l k else at_ l k).
    { intros k. apply (at_blocks_up f (fun a i => block_type w (Z.lor (a (i + bs)%nat [>>] Z.of_nat off)
        (block_type w (a (i + bs + 1)%nat [<<] Z.of_nat (w - off))))) l); try (reflexivity || lia).
      intros a a' m H'. rewrite !H' by lia. reflexivity. }
    destruct (Nat.eqb_spec i last) as [->|Hne].
    + rewrite at_upd_eq by (rewrite length_blocks_up; lia). rewrite length_blocks_up, U.
      destruct (Nat.ltb_spec (length l - 1) (0 + last)); cbn [Nat.leb andb]; [|reflexivity].
      assert (bs = 0)%nat by lia. lia.
    + rewrite at_upd_ne by auto. rewrite U. destruct (Nat.ltb_spec i (0 + last)); cbn [Nat.leb andb]; reflexivity || lia.
Qed.

Lemma length_left_shift l shift : length (apply_left_shift w l shift) = length l.
Proof.
  unfold apply_left_shift. cbv zeta. rewrite length_for_blocks. destruct (_ =? _)%nat; rewrite ?length_upd; apply length_blocks_down.
Qed.

Lemma length_right_shift l shift : length (apply_right_shift w l shift) = length l.
Proof.
  unfold apply_right_shift. cbv zeta. rewrite length_for_blocks. destruct (_ =? _)%nat; rewrite ?length_upd; apply length_blocks_up.
Qed.

Lemma forall_at (P : Z -> Prop) l : (forall i, (i < length l)%nat -> P (at_ l i)) -> Forall P l.
Proof. intros H. apply Forall_forall. intros x Hx. apply (In_nth _ _ 0) in Hx as (i & Hi & <-). now apply H. Qed.

Lemma left_shift_blocks_ok l shift : (shift / w < length l)%nat -> Forall block_ok l -> Forall block_ok (apply_left_shift w l shift).
Proof.
  intros Hs F. apply forall_at. intros i Hi. rewrite length_left_shift in Hi. rewrite left_shift_at by assumption.
  repeat match goal with |- context [if ?x then _ else _] => destruct x end; auto with bitset.
Qed.

Lemma right_shift_blocks_ok l shift : (shift / w < length l)%nat -> Forall block_ok l -> Forall block_ok (apply_right_shift w l shift).
Proof.
  intros Hs F. apply forall_at. intros i Hi. rewrite length_right_shift in Hi. rewrite right_shift_at by assumption.
  repeat match goal with |- context [if ?x then _ else _] => destruct x end; auto with bitset.
Qed.

Lemma left_shift_bit b n shift p : Forall block_ok (m_blocks b) -> (shift / w < length (m_blocks b))%nat ->
  (p / w < length (m_blocks b))%nat ->
  bit_at (DynamicBitset (apply_left_shift w (m_blocks b) shift) n) p = ((shift <=? p)%nat && bit_at b (p - shift)).
Proof.
  intros F Hs Hp. destruct (pos_split w w_pos p) as (i & j & -> & Hj & Ei & _). rewrite Ei in Hp.
  rewrite (bit_at_split w w_pos) by exact Hj. cbn [m_blocks]. rewrite left_shift_at by assumption.
  pose proof (Nat.div_mod_eq shift w) as Hd. pose proof (Nat.mod_upper_bound shift w ltac:(lia)) as Hm.
  set (bs := (shift / w)%nat) in *. set (off := (shift mod w)%nat) in *. set (l := m_blocks b) in *.
  assert (Below : (j < off)%nat -> (bs < i)%nat -> bit_at b (i * w + j - shift) = Z.testbit (at_ l (i - bs - 1)) (Z.of_nat (j + (w - off)))).
  { intros. replace (i * w + j - shift)%nat with ((i - bs - 1) * w + (j + (w - off)))%nat by nia. apply (bit_at_split w w_pos); lia. }
  assert (Above : (off <= j)%nat -> (bs <= i)%nat -> bit_at b (i * w + j - shift) = Z.testbit (at_ l (i - bs)) (Z.of_nat (j - off))).
  { intros. replace (i * w + j - shift)%nat with ((i - bs) * w + (j - off))%nat by nia. apply (bit_at_split w w_pos); lia. }
  destruct (Nat.ltb_spec i bs) as [Hlt|Hge].
  { rewrite Z.bits_0. destruct (Nat.leb_spec shift (i * w + j)); [nia|reflexivity]. }
  destruct (Nat.eqb_spec off 0) as [E|E].
  { destruct (Nat.leb_spec shift (i * w + j)); [|nia]. cbn [andb]. rewrite Above by lia. now rewrite E, Nat.sub_0_r. }
  destruct (Nat.eqb_spec i bs) as [->|Hne].
  - rewrite wrap_bit, shl_bit by exact w_pos. destruct (Nat.ltb_spec j w); [|lia]. cbn [andb].
    destruct (Nat.leb_spec off j), (Nat.leb_spec shift (bs * w + j)); cbn [andb]; try reflexivity; try nia.
    rewrite Above by lia. now rewrite Nat.sub_diag.
  - rewrite wrap_bit, Z.lor_spec, shl_bit, wrap_bit, shr_bit by exact w_pos. destruct (Nat.ltb_spec j w); [|lia]. cbn [andb].
    destruct (Nat.leb_spec shift (i * w + j)); [|nia]. cbn [andb]. destruct (Nat.leb_spec off j); cbn [andb].
    + rewrite Above by lia. rewrite (block_bit_high w w_pos (at_ l (i - bs - 1))) by (auto with bitset || lia). apply orb_false_r.
    + now rewrite Below by lia.
Qed.

Lemma right_shift_bit b n shift p : Forall block_ok (m_blocks b) -> (shift / w < length (m_blocks b))%nat ->
  (p / w < length (m_blocks b))%nat ->
  bit_at (DynamicBitset (apply_right_shift w (m_blocks b) shift) n) p = bit_at b (p + shift).
Proof.
  intros F Hs Hp. destruct (pos_split w w_pos p) as (i & j & -> & Hj & Ei & _). rewrite Ei in Hp.
  rewrite (bit_at_split w w_pos) by exact Hj. cbn [m_blocks]. rewrite right_shift_at by assumption.
  pose proof (Nat.div_mod_eq shift w) as Hd. pose proof (Nat.mod_upper_bound shift w ltac:(lia)) as Hm.
  set (bs := (shift / w)%nat) in *. set (off := (shift mod w)%nat) in *. set (l := m_blocks b) in *.
  assert (Below : (j + off < w)%nat -> bit_at b (i * w + j + shift) = Z.testbit (at_ l (i + bs)) (Z.of_nat (j + off))).
  { intros. replace (i * w + j + shift)%nat with ((i + bs) * w + (j + off))%nat by nia. apply (bit_at_split w w_pos); lia. }
  assert (Above : (w <= j + off)%nat -> bit_at b (i * w + j + shift) = Z.testbit (at_ l (i + bs + 1)) (Z.of_nat (j - (w - off)))).
  { intros. replace (i * w + j + shift)%nat with ((i + bs + 1) * w + (j - (w - off)))%nat by nia. apply (bit_at_split w w_pos); lia. }
  destruct (Nat.leb_spec (length l - bs) i) as [Hge|Hlt].
  { rewrite Z.bits_0. symmetry. apply bit_at_out; [exact w_pos|]. fold l. nia. }
  destruct (Nat.eqb_spec off 0) as [E|E].
  { rewrite Below by lia. now rewrite E, Nat.add_0_r. }
  destruct (Nat.eqb_spec i (length l - bs - 1)) as [->|Hne].
  - rewrite wrap_bit, shr_bit by exact w_pos. destruct (Nat.ltb_spec j w); [|lia]. cbn [andb].
    destruct (Nat.lt_ge_cases (j + off) w).
    + rewrite Below by assumption. f_equal. f_equal. lia.
    + rewrite Above by assumption. rewrite (block_bit_high w w_pos) by (auto with bitset || lia). rewrite at_out by lia. now rewrite Z.bits_0.
  - rewrite wrap_bit, Z.lor_spec, shr_bit, wrap_bit, shl_bit by exact w_pos. destruct (Nat.ltb_spec j w); [|lia]. cbn [andb].
    destruct (Nat.leb_spec (w - off) j); cbn [andb].
    + rewrite Above by lia. rewrite (block_bit_high w w_pos (at_ l (i + bs))) by (auto with bitset || lia). reflexivity.
    + rewrite Below by lia. apply orb_false_r.
Qed.

Lemma shift_left_ok b shift : wf b ->
  wf (shift_left w b shift) /\ m_bits_number (shift_left w b shift) = m_bits_number b /\
  forall p, bit_at (shift_left w b shift) p = ((p <? m_bits_number b)%nat && (shift <=? p)%nat && bit_at b (p - shift)).
Proof.
  intros H. unfold shift_left. destruct (Nat.eqb_spec shift 0) as [->|Hs]; cbn [negb].
  { split; [exact H|]. split; [reflexivity|]. intros p. rewrite Nat.sub_0_r.
    destruct (Nat.ltb_spec p (m_bits_number b)), (Nat.leb_spec 0 p); cbn [andb]; reflexivity || lia || now apply H. }
  destruct (Nat.leb_spec (m_bits_number b) shift) as [Hn|Hn].
  { destruct (reset_all_ok w w_pos b H) as (W & En & B). split; [exact W|]. split; [exact En|]. intros p. rewrite B.
    destruct (Nat.ltb_spec p (m_bits_number b)), (Nat.leb_spec shift p); cbn [andb]; reflexivity || lia. }
  pose proof (wf_index w w_pos b shift H Hn) as Hi.
  destruct (sanitize_ok w w_pos (DynamicBitset (apply_left_shift w (m_blocks b) shift) (m_bits_number b))) as (W & En & B).
  { destruct H as (L & F & _). split; cbn [m_blocks m_bits_number]; [now rewrite length_left_shift|now apply left_shift_blocks_ok]. }
  split; [exact W|]. split; [exact En|]. intros p. rewrite B. cbn [m_bits_number].
  destruct (Nat.ltb_spec p (m_bits_number b)) as [Hp|]; cbn [andb]; [|reflexivity].
  apply left_shift_bit; [apply H|exact Hi|now apply wf_index].
Qed.

Lemma shift_right_ok b shift : wf b ->
  wf (shift_right w b shift) /\ m_bits_number (shift_right w b shift) = m_bits_number b /\
  forall p, bit_at (shift_right w b shift) p = bit_at b (p + shift).
Proof.
  intros H. unfold shift_right. destruct (Nat.eqb_spec shift 0) as [->|Hs]; cbn [negb].
  { split; [exact H|]. split; [reflexivity|]. intros p. now rewrite Nat.add_0_r. }
  destruct (Nat.leb_spec (m_bits_number b) shift) as [Hn|Hn].
  { destruct (reset_all_ok w w_pos b H) as (W & En & B). split; [exact W|]. split; [exact En|]. intros p. rewrite B.
    symmetry. apply H. lia. }
  pose proof (wf_index w w_pos b shift H Hn) as Hi.
  assert (B : forall p, bit_at (DynamicBitset (apply_right_shift w (m_blocks b) shift) (m_bits_number b)) p = bit_at b (p + shift)).
  { intros p. destruct (Nat.lt_ge_cases (p / w) (length (m_blocks b))) as [Hp|Hp].
    - apply right_shift_bit; [apply H|exact Hi|exact Hp].
    - assert (length (m_blocks b) * w <= p)%nat by (pose proof (Nat.div_mod_eq p w); nia).
      rewrite !bit_at_out; [reflexivity|exact w_pos|lia|exact w_pos|cbn [m_blocks]; rewrite length_right_shift; lia]. }
  split; [|split; [reflexivity|exact B]]. apply wf_update; [exact H|apply length_right_shift|apply right_shift_blocks_ok; [exact Hi|apply H]|].
  intros p Hp. rewrite B. apply H. lia.
Qed.

(** ** References *)

(** A reference acts on the bit it was made for. *)
Lemma reference_ok b pos v :
  ref_get (reference_of w pos) b = test_bit w b pos /\ ref_not (reference_of w pos) b = negb (test_bit w b pos) /\
  ref_assign w (reference_of w pos) b v = set_bit w b pos v /\
  ref_set (reference_of w pos) b = set_bit w b pos true /\ ref_reset w (reference_of w pos) b = set_bit w b pos false /\
  ref_flip (reference_of w pos) b = flip_bit w b pos.
Proof.
  repeat split; try reflexivity.
  - unfold ref_not, test_bit. now rewrite negb_involutive.
  - destruct v; reflexivity.
Qed.

(** The compound assignments, on the bit. *)
Lemma reference_update_ok b pos v : wf b -> (pos < m_bits_number b)%nat -> forall (f : bool -> bool) r,
  (r, f) = (ref_and w (reference_of w pos) b v, fun x => x && v) \/
  (r, f) = (ref_or (reference_of w pos) b v, fun x => x || v) \/
  (r, f) = (ref_xor (reference_of w pos) b v, fun x => xorb x v) \/
  (r, f) = (ref_sub w (reference_of w pos) b v, fun x => x && negb v) ->
  wf r /\ m_bits_number r = m_bits_number b /\ forall q, bit_at r q = if (q =? pos)%nat then f (bit_at b pos) else bit_at b q.
Proof.
  intros H Hp f r Hr.
  destruct (set_bit_ok w w_pos b pos true H Hp) as (W1 & N1 & B1).
  destruct (set_bit_ok w w_pos b pos false H Hp) as (W0 & N0 & B0).
  destruct (flip_bit_ok w w_pos b pos H Hp) as (Wf & Nf & Bf).
  assert (Keep : wf b /\ m_bits_number b = m_bits_number b /\
                 forall q, bit_at b q = if (q =? pos)%nat then bit_at b pos else bit_at b q).
  { split; [exact H|]. split; [reflexivity|]. intros q. destruct (Nat.eqb_spec q pos) as [->|]; reflexivity. }
  destruct Hr as [E|[E|[E|E]]]; injection E as -> ->; destruct v; cbn [andb orb negb xorb];
    unfold ref_and, ref_or, ref_xor, ref_sub.
  - destruct Keep as (K1 & K2 & K3). split; [exact K1|]. split; [exact K2|]. intros q. rewrite andb_true_r. apply K3.
  - split; [exact W0|]. split; [exact N0|]. intros q. rewrite andb_false_r. apply B0.
  - split; [exact W1|]. split; [exact N1|]. intros q. rewrite orb_true_r. apply B1.
  - destruct Keep as (K1 & K2 & K3). split; [exact K1|]. split; [exact K2|]. intros q. rewrite orb_false_r. apply K3.
  - split; [exact Wf|]. split; [exact Nf|]. intros q. rewrite xorb_true_r. apply Bf.
  - destruct Keep as (K1 & K2 & K3). split; [exact K1|]. split; [exact K2|]. intros q. rewrite xorb_false_r. apply K3.
  - split; [exact W0|]. split; [exact N0|]. intros q. rewrite andb_false_r. apply B0.
  - destruct Keep as (K1 & K2 & K3). split; [exact K1|]. split; [exact K2|]. intros q. rewrite andb_true_r. apply K3.
Qed.
End Ops.
