(* ===== verification/BitsetQuery.v ===== *)
(** What the queries of [dynamic_bitset] answer, in terms of the bits: [all],
    [any], [none], [count], the subset tests and [intersects]; [find_first] and
    [find_next] find the least position in a range, so that [iterate_bits_on]
    visits the set bits once each, in increasing order, and ends; [operator<]
    orders bitsets by their value and then their size. *)
From Stdlib Require Import ZArith Lia List Bool.
From S2P Require Import Prelude.
From S2P Require Import Bitset.
From S2P Require Import BitsetOps.
Import ListNotations.

(** The function of [iterate_bits_on] on a list of positions, until it says to
    stop. *)
Fixpoint fold_while {A} (f : A -> nat -> A * bool) (l : list nat) (a : A) : A :=
  match l with
  | [] => a
  | i :: l => let '(a, go_on) := f a i in if go_on then fold_while f l a else a
  end.

(** The value of the first [n] blocks. *)
Fixpoint blocks_value (w : nat) (l : list Z) (n : nat) : Z :=
  match n with
  | O => 0
  | S n => blocks_value w l n + at_ l n * 2 ^ (Z.of_nat w * Z.of_nat n)
  end.
Definition bitset_value (w : nat) (b : dynamic_bitset) : Z := blocks_value w (m_blocks b) (length (m_blocks b)).

Lemma filter_none {A} (f : A -> bool) l : (forall x, In x l -> f x = false) -> filter f l = [].
Proof.
  intros H. induction l as [|x l IH]; cbn [filter]; [reflexivity|]. rewrite (H x) by now left. apply IH. intros; apply H. now right.
Qed.

Lemma existsb_seq f n : existsb f (seq 0 n) = true <-> exists i, (i < n)%nat /\ f i = true.
Proof.
  rewrite existsb_exists. split; intros (i & H & E); exists i; (split; [|exact E]).
  - apply in_seq in H. lia.
  - apply in_seq. lia.
Qed.

Lemma forallb_seq f n : forallb f (seq 0 n) = true <-> forall i, (i < n)%nat -> f i = true.
Proof.
  rewrite forallb_forall. split; intros H i Hi; apply H.
  - apply in_seq. lia.
  - apply in_seq in Hi. lia.
Qed.

Lemma fold_add (g : nat -> nat) n : fold_left (fun c i => (c + g i)%nat) (seq 0 (S n)) 0%nat =
  (fold_left (fun c i => (c + g i)%nat) (seq 0 n) 0 + g n)%nat.
Proof. rewrite seq_S, fold_left_app. reflexivity. Qed.

Lemma filter_shift (f : nat -> bool) a n : length (filter f (seq a n)) = length (filter (fun j => f (a + j)%nat) (seq 0 n)).
Proof.
  revert a; induction n as [|n IH]; intros a; [reflexivity|]. rewrite !seq_S, !filter_app, !length_app, IH. cbn [filter Nat.add]. now destruct (f (a + n)%nat).
Qed.

Lemma filter_ext_seq (f g : nat -> bool) a n : (forall i, (a <= i < a + n)%nat -> f i = g i) -> filter f (seq a n) = filter g (seq a n).
Proof. intros H. apply filter_ext_in. intros i Hi. apply in_seq in Hi. now apply H. Qed.

Lemma filter_beyond (f : nat -> bool) n m : (n <= m)%nat -> (forall i, (n <= i)%nat -> f i = false) ->
  filter f (seq 0 m) = filter f (seq 0 n).
Proof.
  intros H Z. replace m with (n + (m - n))%nat by lia. rewrite seq_app, filter_app.
  rewrite (filter_none f (seq (0 + n) (m - n))), app_nil_r; [reflexivity|].
  intros i Hi. apply in_seq in Hi. apply Z. lia.
Qed.

Lemma filter_map_length (f : nat -> bool) l : length (filter (fun v => v) (map f l)) = length (filter f l).
Proof. induction l as [|x l IH]; cbn; [reflexivity|]. destruct (f x); cbn; now rewrite IH. Qed.

Lemma forallb_not_existsb {A} (f : A -> bool) l : forallb f l = negb (existsb (fun x => negb (f x)) l).
Proof. induction l as [|x l IH]; cbn; [reflexivity|]. rewrite IH. now destruct (f x). Qed.

Lemma existsb_at f l : existsb f l = existsb (fun i => f (at_ l i)) (seq 0 (length l)).
Proof.
  apply eq_true_iff_eq. rewrite existsb_seq, existsb_exists. split.
  - intros (x & Hx & E). apply (In_nth _ _ 0) in Hx as (i & Hi & <-). now exists i.
  - intros (i & Hi & E). exists (at_ l i). split; [now apply nth_In|exact E].
Qed.

Lemma forallb_at f l : forallb f l = forallb (fun i => f (at_ l i)) (seq 0 (length l)).
Proof.
  apply eq_true_iff_eq. rewrite forallb_seq, forallb_forall. split.
  - intros H i Hi. now apply H, nth_In.
  - intros H x Hx. apply (In_nth _ _ 0) in Hx as (i & Hi & <-). now apply H.
Qed.

Section Query.
Context (w : nat) (w_pos : (0 < w)%nat).
#[local] Abbreviation bit_at := (bit_at w).
#[local] Abbreviation block_ok := (block_ok w).
#[local] Abbreviation wf := (wf w).
#[local] Abbreviation bits := (bits w).

(** ** Queries *)

Lemma block_zero x : 0 <= x -> (x =? 0) = true <-> forall j, Z.testbit x (Z.of_nat j) = false.
Proof.
  intros Hx. rewrite Z.eqb_eq. split.
  - intros -> j. apply Z.bits_0.
  - intros H. apply Z.bits_inj'. intros k Hk. rewrite Z.bits_0, <- (Z2Nat.id k Hk). apply H.
Qed.

Lemma block_nonzero x : block_ok x -> (x =? 0) = false <-> exists j, (j < w)%nat /\ Z.testbit x (Z.of_nat j) = true.
Proof.
  intros Hx. split.
  - intros H. destruct (existsb (fun j => Z.testbit x (Z.of_nat j)) (seq 0 w)) eqn:E; [now apply existsb_seq in E|].
    exfalso. rewrite (proj2 (block_zero x (proj1 Hx))) in H; [discriminate|]. intros j.
    destruct (Nat.lt_ge_cases j w) as [Hj|Hj]; [|now apply (block_bit_high w w_pos)].
    apply not_true_iff_false. intros T. apply not_true_iff_false in E. apply E, existsb_seq. now exists j.
  - intros (j & _ & T). apply not_true_iff_false. intros H. rewrite (proj1 (block_zero x (proj1 Hx)) H j) in T. discriminate.
Qed.

(** Every set bit is at a position of the bitset and in one of the blocks. *)
Lemma bit_range b p : wf b -> bit_at b p = true -> (p < m_bits_number b)%nat.
Proof.
  intros H E. destruct (Nat.lt_ge_cases p (m_bits_number b)) as [Hp|Hp]; [exact Hp|]. rewrite (proj2 (proj2 H) p Hp) in E. discriminate.
Qed.

Lemma bit_block b p : bit_at b p = true -> (p / w < length (m_blocks b))%nat.
Proof.
  intros E. destruct (Nat.lt_ge_cases (p / w) (length (m_blocks b))) as [H|H]; [exact H|].
  unfold Bitset.bit_at in E. rewrite at_out, Z.bits_0 in E by exact H. discriminate.
Qed.

Lemma in_bits b v : In v (bits b) <-> exists p, (p < m_bits_number b)%nat /\ bit_at b p = v.
Proof.
  unfold Bitset.bits. rewrite in_map_iff. split; intros (p & H & H'); exists p.
  - apply in_seq in H'. split; [lia|exact H].
  - split; [exact H'|]. apply in_seq. lia.
Qed.

(** A test for some nonzero block is a test for some set bit. *)
Lemma some_block (x : nat -> Z) n : (forall i, block_ok (x i)) ->
  existsb (fun i => negb (x i =? 0)) (seq 0 n) = true <->
  exists p, (p / w < n)%nat /\ Z.testbit (x (p / w)%nat) (Z.of_nat (p mod w)) = true.
Proof.
  intros Hx. rewrite existsb_seq. split.
  - intros (i & Hi & E). apply negb_true_iff, block_nonzero in E as (j & Hj & T); [|apply Hx]. exists (i * w + j)%nat.
    rewrite div_split, mod_split by assumption. now split.
  - intros (p & Hp & T). exists (p / w)%nat. split; [exact Hp|]. apply negb_true_iff, block_nonzero; [apply Hx|].
    exists (p mod w)%nat. split; [apply Nat.mod_upper_bound; lia|exact T].
Qed.

Lemma any_ok b : wf b -> any b = existsb (fun v => v) (bits b).
Proof.
  intros H. unfold any, zero_block. rewrite existsb_at. apply eq_true_iff_eq.
  rewrite (some_block (at_ (m_blocks b))) by (intros; apply at_ok; [exact w_pos|apply H]). rewrite existsb_exists. split.
  - intros (p & Hp & T). exists true. split; [|reflexivity]. apply in_bits. exists p. split; [now apply bit_range|exact T].
  - intros (v & Hv & ->). apply in_bits in Hv as (p & Hp & E). exists p. split; [now apply bit_block|exact E].
Qed.

Lemma none_ok b : wf b -> none b = forallb negb (bits b).
Proof.
  intros H. unfold none. rewrite any_ok by exact H. induction (bits b) as [|v l IH]; cbn; [reflexivity|].
  rewrite <- IH. now destruct v.
Qed.

Lemma block_full x : block_ok x -> (x =? one_block w) = true <-> forall j, (j < w)%nat -> Z.testbit x (Z.of_nat j) = true.
Proof.
  intros Hx. rewrite Z.eqb_eq. split.
  - intros -> j Hj. rewrite one_block_bit by exact w_pos. now apply Nat.ltb_lt.
  - intros H. apply (block_bits w w_pos); [exact Hx|apply one_block_ok; exact w_pos|]. intros j Hj.
    rewrite one_block_bit, H by assumption. symmetry. now apply Nat.ltb_lt.
Qed.

(** The block that has [k] ones below zeros. *)
Lemma block_low_full x k : block_ok x -> (k <= w)%nat -> (forall j, (k <= j)%nat -> Z.testbit x (Z.of_nat j) = false) ->
  (x =? (one_block w [>>] Z.of_nat (w - k))) = true <-> forall j, (j < k)%nat -> Z.testbit x (Z.of_nat j) = true.
Proof.
  intros Hx Hk Z. rewrite Z.eqb_eq.
  assert (B : forall j, Z.testbit (one_block w [>>] Z.of_nat (w - k)) (Z.of_nat j) = (j <? k)%nat).
  { intros j. rewrite shr_bit, one_block_bit by exact w_pos. destruct (Nat.ltb_spec (j + (w - k)) w), (Nat.ltb_spec j k); reflexivity || lia. }
  split.
  - intros -> j Hj. rewrite B. now apply Nat.ltb_lt.
  - intros H. apply Z.bits_inj'. intros i Hi. rewrite <- (Z2Nat.id i Hi), B. destruct (Nat.ltb_spec (Z.to_nat i) k); auto.
Qed.

Lemma forallb_bits b : forallb (fun v => v) (bits b) = true <-> forall p, (p < m_bits_number b)%nat -> bit_at b p = true.
Proof.
  rewrite forallb_forall. split.
  - intros H p Hp. apply H, in_bits. now exists p.
  - intros H v Hv. apply in_bits in Hv as (p & Hp & <-). now apply H.
Qed.

Lemma all_ok b : wf b -> all w b = forallb (fun v => v) (bits b).
Proof.
  intros H. pose proof H as (L & F & Z). pose proof (wf_blocks w w_pos b H) as Hn. unfold all, empty, size.
  assert (Hat : forall i, block_ok (at_ (m_blocks b) i)) by (intros; now apply at_ok).
  apply eq_true_iff_eq. rewrite forallb_bits. destruct (Nat.eqb_spec (m_bits_number b) 0) as [E|E].
  { split; [intros _ p Hp; lia|reflexivity]. }
  unfold extra_bits_number, unused_bits_number, extra_bits_number, bit_index, last_block.
  pose proof (Nat.div_mod_eq (m_bits_number b) w) as Hd. pose proof (Nat.mod_upper_bound (m_bits_number b) w ltac:(lia)) as Hm.
  set (k := (m_bits_number b mod w)%nat) in *. destruct (Nat.eqb_spec k 0) as [Ek|Ek].
  - pose proof (blocks_required_exact w w_pos _ Ek) as Lx. rewrite <- L in Lx. rewrite forallb_at, forallb_seq. split.
    + intros G p Hp. destruct (pos_split w w_pos p) as (i & j & -> & Hj & _ & _). rewrite (bit_at_split w w_pos) by exact Hj.
      apply block_full; [apply Hat|apply G; nia|exact Hj].
    + intros G i Hi. apply block_full; [apply Hat|]. intros j Hj. rewrite <- (bit_at_split w w_pos) by exact Hj. apply G. nia.
  - pose proof (blocks_required_extra w w_pos (m_bits_number b) ltac:(unfold k in *; lia)) as Lx. rewrite <- L in Lx.
    assert (Hlast : forall j, (k <= j)%nat -> Z.testbit (at_ (m_blocks b) (length (m_blocks b) - 1)) (Z.of_nat j) = false).
    { intros j Hj. destruct (Nat.lt_ge_cases j w) as [Hw|Hw]; [|now apply (block_bit_high w w_pos)].
      rewrite <- (bit_at_split w w_pos) by exact Hw. apply Z. nia. }
    rewrite andb_true_iff, forallb_seq, block_low_full by (apply Hat || lia || exact Hlast). split.
    + intros [G1 G2] p Hp. destruct (pos_split w w_pos p) as (i & j & -> & Hj & _ & _). rewrite (bit_at_split w w_pos) by exact Hj.
      destruct (Nat.eq_dec i (length (m_blocks b) - 1)) as [->|Hi]; [apply G2; nia|].
      apply block_full; [apply Hat|apply G1; nia|exact Hj].
    + intros G. split.
      * intros i Hi. apply block_full; [apply Hat|]. intros j Hj. rewrite <- (bit_at_split w w_pos) by exact Hj. apply G. nia.
      * intros j Hj. rewrite <- (bit_at_split w w_pos) by lia. apply G. nia.
Qed.

(** *** Counting *)

Lemma filter_blocks b n :
  length (filter (bit_at b) (seq 0 (n * w))) =
  fold_left (fun c i => (c + block_count w (at_ (m_blocks b) i))%nat) (seq 0 n) 0%nat.
Proof.
  induction n as [|n IH]; [reflexivity|]. rewrite fold_add, <- IH. replace (S n * w)%nat with (n * w + w)%nat by lia.
  rewrite seq_app, filter_app, length_app, (filter_shift _ (0 + n * w)). f_equal. unfold block_count, popcount. f_equal.
  apply filter_ext_seq. intros j Hj. cbn [Nat.add]. apply (bit_at_split w w_pos). lia.
Qed.

Lemma block_count_low_ok x k : block_ok x -> (k <= w)%nat -> (forall j, (k <= j)%nat -> Z.testbit x (Z.of_nat j) = false) ->
  block_count_low w x k = block_count w x.
Proof.
  intros Hx Hk Z. unfold block_count_low, block_count, popcount.
  rewrite (filter_beyond _ k w Hk Z). replace (seq 0 w) with (seq 0 (w - k) ++ seq (w - k) k)
    by (rewrite <- seq_app; f_equal; lia).
  rewrite filter_app, filter_none, app_nil_l.
  - rewrite (filter_shift _ (w - k)). f_equal. apply filter_ext_seq. intros j Hj. rewrite wrap_bit, shl_bit by exact w_pos.
    destruct (Nat.ltb_spec (w - k + j) w), (Nat.leb_spec (w - k) (w - k + j)); cbn [andb]; try lia. do 2 f_equal. lia.
  - intros j Hj. apply in_seq in Hj. rewrite wrap_bit, shl_bit by exact w_pos.
    destruct (Nat.leb_spec (w - k) j); [lia|apply andb_false_r].
Qed.

Lemma count_ok b : wf b -> count w b = length (filter (fun v => v) (bits b)).
Proof.
  intros H. pose proof H as (L & F & Z). pose proof (wf_blocks w w_pos b H) as Hn. unfold count, empty, size, Bitset.bits.
  rewrite filter_map_length. destruct (Nat.eqb_spec (m_bits_number b) 0) as [->|E]; [reflexivity|].
  rewrite <- (filter_beyond _ _ (length (m_blocks b) * w) (proj1 Hn) Z), filter_blocks.
  assert (HL : length (m_blocks b) = S (length (m_blocks b) - 1)) by nia. rewrite HL at 2. rewrite fold_add. f_equal.
  unfold extra_bits_number, bit_index, last_block.
  destruct (Nat.eqb_spec (m_bits_number b mod w) 0) as [Ek|Ek]; [reflexivity|]. symmetry.
  pose proof (Nat.div_mod_eq (m_bits_number b) w). pose proof (Nat.mod_upper_bound (m_bits_number b) w ltac:(lia)).
  pose proof (blocks_required_extra w w_pos (m_bits_number b) ltac:(lia)) as Lx. rewrite <- L in Lx.
  symmetry. apply block_count_low_ok; [now apply at_ok|lia|]. intros j Hj.
  destruct (Nat.lt_ge_cases j w) as [Hw|Hw]; [|apply (block_bit_high w w_pos); [now apply at_ok|exact Hw]].
  rewrite <- (bit_at_split w w_pos) by exact Hw. apply Z. nia.
Qed.

(** *** Comparison of sets *)

Lemma andn_ok x y : block_ok x -> 0 <= y -> block_ok (Z.land x (Z.lnot y)).
Proof.
  intros Hx Hy. apply testbit_ok; [exact w_pos|apply Z.land_nonneg; left; apply Hx|]. intros j Hj.
  rewrite Z.land_spec, (block_bit_high w w_pos x j Hx Hj). reflexivity.
Qed.

Lemma andn_bit x y j : Z.testbit (Z.land x (Z.lnot y)) (Z.of_nat j) = (Z.testbit x (Z.of_nat j) && negb (Z.testbit y (Z.of_nat j))).
Proof. now rewrite Z.land_spec, Z.lnot_spec by lia. Qed.

(** Some bit of [b] that is not in [c]. *)
Lemma some_andn b c n : wf b -> wf c -> (length (m_blocks b) <= n)%nat ->
  existsb (fun i => negb (Z.land (at_ (m_blocks b) i) (Z.lnot (at_ (m_blocks c) i)) =? 0)) (seq 0 n) = true <->
  exists p, bit_at b p = true /\ bit_at c p = false.
Proof.
  intros Hb Hc Hn.
  rewrite (some_block (fun i => Z.land (at_ (m_blocks b) i) (Z.lnot (at_ (m_blocks c) i)))).
  2:{ intros i. apply andn_ok; [|pose proof (at_ok w w_pos (m_blocks c) i (proj1 (proj2 Hc)))  as [G _]; exact G].
      apply at_ok; [exact w_pos|apply Hb]. }
  split; intros (p & H1 & H2); exists p.
  - rewrite andn_bit in H2. apply andb_true_iff in H2 as [H2 H3]. apply negb_true_iff in H3. now split.
  - split; [pose proof (bit_block b p H1); lia|]. rewrite andn_bit. unfold Bitset.bit_at in H1, H2. now rewrite H1, H2.
Qed.

Lemma no_andn b c n : wf b -> wf c -> (length (m_blocks b) <= n)%nat ->
  existsb (fun i => negb (Z.land (at_ (m_blocks b) i) (Z.lnot (at_ (m_blocks c) i)) =? 0)) (seq 0 n) = false <->
  forall p, bit_at b p = true -> bit_at c p = true.
Proof.
  intros Hb Hc Hn. rewrite <- not_true_iff_false, (some_andn b c n Hb Hc Hn). split.
  - intros H p Hp. destruct (bit_at c p) eqn:E; [reflexivity|]. destruct H. now exists p.
  - intros H (p & H1 & H2). apply H in H1. congruence.
Qed.

Lemma is_subset_of_ok b c : wf b -> wf c -> size b = size c ->
  exists r, is_subset_of b c = Some r /\ (r = true <-> forall p, bit_at b p = true -> bit_at c p = true).
Proof.
  intros Hb Hc E. unfold is_subset_of, assert. rewrite E, Nat.eqb_refl. eexists. split; [reflexivity|].
  unfold zero_block. rewrite forallb_not_existsb, negb_true_iff. now apply no_andn.
Qed.

Lemma proper_subset_loop_eq b c idx flag : proper_subset_loop b c idx flag =
  negb (existsb (fun i => negb (Z.land (at_ (m_blocks b) i) (Z.lnot (at_ (m_blocks c) i)) =? 0)) idx) &&
  (flag || existsb (fun i => negb (Z.land (at_ (m_blocks c) i) (Z.lnot (at_ (m_blocks b) i)) =? 0)) idx).
Proof.
  revert flag; induction idx as [|i idx IH]; intros flag; cbn [proper_subset_loop existsb]; [now rewrite orb_false_r|].
  unfold zero_block. destruct (negb (Z.land _ _ =? 0)); cbn [orb negb andb]; [reflexivity|]. rewrite IH.
  rewrite (Z.land_comm (Z.lnot (at_ (m_blocks b) i))). destruct (negb (Z.land (at_ (m_blocks c) i) _ =? 0)), flag; reflexivity.
Qed.

Lemma is_proper_subset_of_ok b c : wf b -> wf c -> size b = size c ->
  exists r, is_proper_subset_of b c = Some r /\
  (r = true <-> (forall p, bit_at b p = true -> bit_at c p = true) /\ exists p, bit_at c p = true /\ bit_at b p = false).
Proof.
  intros Hb Hc E. unfold is_proper_subset_of, assert. rewrite E, Nat.eqb_refl. eexists. split; [reflexivity|]. unfold size in E.
  rewrite proper_subset_loop_eq, andb_true_iff, negb_true_iff. cbn [orb].
  rewrite no_andn, some_andn by (assumption || (try rewrite (proj1 Hb), (proj1 Hc), E; lia)). reflexivity.
Qed.

(** The inclusions refuse bitsets of two sizes. *)
Lemma subset_none b c : size b <> size c -> is_subset_of b c = None /\ is_proper_subset_of b c = None.
Proof. intros H. unfold is_subset_of, is_proper_subset_of, assert. now rewrite (proj2 (Nat.eqb_neq _ _) H). Qed.

Lemma intersects_ok b c : wf b -> wf c -> intersects b c = true <-> exists p, bit_at b p = true /\ bit_at c p = true.
Proof.
  intros Hb Hc. unfold intersects, zero_block.
  assert (Hat : forall i, block_ok (Z.land (at_ (m_blocks b) i) (at_ (m_blocks c) i))).
  { intros i. apply land_ok; [exact w_pos|apply at_ok; [exact w_pos|apply Hb]|]. apply (at_ok w w_pos (m_blocks c) i), Hc. }
  rewrite (some_block (fun i => Z.land (at_ (m_blocks b) i) (at_ (m_blocks c) i))) by exact Hat.
  split; intros (p & H1 & H2); exists p.
  - rewrite Z.land_spec in H2. apply andb_true_iff in H2. exact H2.
  - split; [apply Nat.min_glb_lt; now apply bit_block|]. rewrite Z.land_spec. apply andb_true_iff. now split.
Qed.

(** ** Search *)

(** [r] is the least set bit from [p] on, if there is one. *)
Definition is_next (b : dynamic_bitset) (p : nat) (r : option nat) : Prop :=
  match r with
  | Some q => (p <= q)%nat /\ bit_at b q = true /\ forall k, (p <= k < q)%nat -> bit_at b k = false
  | None => forall k, (p <= k)%nat -> bit_at b k = false
  end.

Lemma is_next_unique b p r r' : is_next b p r -> is_next b p r' -> r = r'.
Proof.
  destruct r as [q|], r' as [q'|]; cbn [is_next].
  - intros (H1 & H2 & H3) (H1' & H2' & H3'). f_equal. destruct (Nat.lt_trichotomy q q') as [H|[H|H]]; [|exact H|].
    + rewrite H3' in H2 by lia. discriminate.
    + rewrite H3 in H2' by lia. discriminate.
  - intros (H1 & H2 & _) H. rewrite H in H2 by exact H1. discriminate.
  - intros H (H1 & H2 & _). rewrite H in H2 by exact H1. discriminate.
  - reflexivity.
Qed.

Lemma countr_zero_ok n : forall x, (exists j, (j < n)%nat /\ Z.testbit x (Z.of_nat j) = true) ->
  (countr_zero n x < n)%nat /\ Z.testbit x (Z.of_nat (countr_zero n x)) = true /\
  forall j, (j < countr_zero n x)%nat -> Z.testbit x (Z.of_nat j) = false.
Proof.
  induction n as [|n IH]; intros x (j & Hj & T); [lia|]. cbn [countr_zero]. destruct (Z.testbit x 0) eqn:E.
  - split; [lia|]. split; [exact E|]. intros k Hk. lia.
  - assert (B : forall k, Z.testbit (x [>>] 1) (Z.of_nat k) = Z.testbit x (Z.of_nat (S k))).
    { intros k. rewrite Z.shiftr_spec by lia. f_equal. lia. }
    destruct j as [|j]; [change (Z.of_nat 0) with 0 in T; congruence|].
    destruct (IH (x [>>] 1)) as (H1 & H2 & H3). { exists j. split; [lia|]. now rewrite B. }
    split; [lia|]. rewrite <- B. split; [exact H2|]. intros [|k] Hk; [exact E|]. rewrite <- B. apply H3. lia.
Qed.

(** The search from block [a] on. *)
Lemma find_block_ok b n : wf b -> forall a, (length (m_blocks b) <= a + n)%nat ->
  is_next b (a * w) (find_block w (m_blocks b) (seq a n)).
Proof.
  intros H. assert (Hat : forall i, block_ok (at_ (m_blocks b) i)) by (intros; apply at_ok; [exact w_pos|apply H]).
  induction n as [|n IH]; intros a Ha; cbn [seq find_block].
  - intros k Hk. apply bit_at_out; [exact w_pos|]. nia.
  - unfold zero_block. destruct (at_ (m_blocks b) a =? 0) eqn:E; cbn [negb].
    + assert (Z : forall k, (a * w <= k < S a * w)%nat -> bit_at b k = false).
      { intros k Hk. destruct (pos_split w w_pos k) as (i & j & -> & Hj & _ & _). rewrite (bit_at_split w w_pos) by exact Hj.
        replace i with a by nia. apply block_zero; [apply Hat|exact E]. }
      specialize (IH (S a) ltac:(lia)). destruct (find_block w (m_blocks b) (seq (S a) n)) as [q|]; cbn [is_next] in *.
      * destruct IH as (H1 & H2 & H3). split; [lia|]. split; [exact H2|]. intros k Hk.
        destruct (Nat.lt_ge_cases k (S a * w)); [apply Z; lia|apply H3; lia].
      * intros k Hk. destruct (Nat.lt_ge_cases k (S a * w)); [apply Z; lia|apply IH; lia].
    + apply block_nonzero, countr_zero_ok in E; [|apply Hat]. destruct E as (H1 & H2 & H3). cbn [is_next]. split; [lia|].
      split; [now rewrite (bit_at_split w w_pos)|]. intros k Hk. replace k with (a * w + (k - a * w))%nat by lia.
      rewrite (bit_at_split w w_pos) by lia. apply H3. lia.
Qed.

Lemma find_first_ok b : wf b -> is_next b 0 (find_first w b).
Proof. intros H. apply (find_block_ok b (length (m_blocks b)) H 0). lia. Qed.

Lemma find_next_ok b prev : wf b -> is_next b (prev + 1) (find_next w b prev).
Proof.
  intros H. unfold find_next, empty, size, zero_block, block_index, bit_index.
  assert (Hat : forall i, block_ok (at_ (m_blocks b) i)) by (intros; apply at_ok; [exact w_pos|apply H]).
  destruct ((m_bits_number b =? 0)%nat || (m_bits_number b - 1 <=? prev)%nat) eqn:E.
  { intros k Hk. apply H. apply orb_true_iff in E as [E|E]; [apply Nat.eqb_eq in E|apply Nat.leb_le in E]; lia. }
  apply orb_false_iff in E as [E1 E2]. apply Nat.eqb_neq in E1. apply Nat.leb_gt in E2.
  destruct (pos_split w w_pos (prev + 1)) as (a & j & -> & Hj & -> & ->). cbv zeta. set (p := (a * w + j)%nat).
  assert (B : forall k, (p <= k < (a + 1) * w)%nat ->
            bit_at b k = Z.testbit (block_type w (at_ (m_blocks b) a [>>] Z.of_nat j)) (Z.of_nat (k - p))).
  { intros k Hk. rewrite wrap_bit, shr_bit by exact w_pos. destruct (Nat.ltb_spec (k - p) w); [|lia]. cbn [andb].
    replace k with (a * w + (k - p + j))%nat at 1 by lia. apply (bit_at_split w w_pos). lia. }
  assert (Hs : block_ok (block_type w (at_ (m_blocks b) a [>>] Z.of_nat j))) by auto with bitset.
  destruct (block_type w (at_ (m_blocks b) a [>>] Z.of_nat j) =? 0) eqn:E; cbn [negb].
  - assert (Z : forall k, (p <= k < (a + 1) * w)%nat -> bit_at b k = false).
    { intros k Hk. rewrite B by exact Hk. apply block_zero; [apply Hs|exact E]. }
    pose proof (find_block_ok b (length (m_blocks b) - (a + 1)) H (a + 1) ltac:(lia)) as F.
    destruct (find_block _ _ _) as [q|]; cbn [is_next] in *.
    + destruct F as (H1 & H2 & H3). split; [lia|]. split; [exact H2|]. intros k Hk.
      destruct (Nat.lt_ge_cases k ((a + 1) * w)); [apply Z; lia|apply H3; lia].
    + intros k Hk. destruct (Nat.lt_ge_cases k ((a + 1) * w)); [apply Z; lia|apply F; lia].
  - pose proof (proj1 (block_nonzero _ Hs) E) as Ex. apply countr_zero_ok in Ex. set (c := countr_zero _ _) in *.
    destruct Ex as (H1 & H2 & H3).
    assert (Hc : (j + c < w)%nat).
    { rewrite wrap_bit, shr_bit in H2 by exact w_pos. apply andb_true_iff in H2 as [_ H2].
      destruct (Nat.lt_ge_cases (j + c) w) as [Hc|Hc]; [exact Hc|].
      rewrite (block_bit_high w w_pos (at_ (m_blocks b) a) (c + j)) in H2 by (apply Hat || lia). discriminate. }
    cbn [is_next]. split; [lia|]. split.
    + rewrite B by lia. replace (p + c - p)%nat with c by lia. exact H2.
    + intros k Hk. rewrite B by lia. apply H3. lia.
Qed.

(** The set bits from [p] on, in order. *)
Definition set_bits_from (b : dynamic_bitset) (p : nat) : list nat := filter (bit_at b) (seq p (m_bits_number b - p)).

Lemma set_bits_next b p r : wf b -> is_next b p r ->
  set_bits_from b p = match r with Some q => q :: set_bits_from b (q + 1) | None => [] end.
Proof.
  intros H N. unfold set_bits_from. destruct r as [q|]; cbn [is_next] in N.
  - destruct N as (Hq & T & Z). pose proof (bit_range b q H T) as Hn.
    replace (m_bits_number b - p)%nat with ((q - p) + S (m_bits_number b - (q + 1)))%nat by lia.
    rewrite seq_app, filter_app, filter_none, app_nil_l.
    + replace (p + (q - p))%nat with q by lia. cbn [seq filter]. rewrite T. now rewrite Nat.add_1_r.
    + intros k Hk. apply in_seq in Hk. apply Z. lia.
  - apply filter_none. intros k Hk. apply in_seq in Hk. apply N. lia.
Qed.

(** [iterate_bits_on] calls the function on the set bits in increasing order
    until it says stop; one turn per set bit is enough fuel. *)
Lemma iterate_loop_ok {A} b (f : A -> nat -> A * bool) : wf b -> forall fuel p r a, is_next b p r ->
  (length (set_bits_from b p) <= fuel)%nat -> iterate_loop w fuel b f r a = Some (fold_while f (set_bits_from b p) a).
Proof.
  intros H. induction fuel as [|fuel IH]; intros p r a N L; rewrite (set_bits_next b p r H N) in *; destruct r as [q|];
    cbn [iterate_loop fold_while length] in *; try reflexivity; [lia|].
  destruct (f a q) as [a' []]; [|reflexivity]. apply IH; [now apply find_next_ok|lia].
Qed.

Lemma iterate_bits_on_ok {A} b (f : A -> nat -> A * bool) fuel a : wf b -> (count w b <= fuel)%nat ->
  iterate_bits_on w fuel b f a = Some (fold_while f (filter (bit_at b) (seq 0 (m_bits_number b))) a).
Proof.
  intros H L. rewrite count_ok in L by exact H. unfold Bitset.bits in L. rewrite filter_map_length in L.
  unfold iterate_bits_on. rewrite (iterate_loop_ok b f H fuel 0); [|now apply find_first_ok|]; unfold set_bits_from; now rewrite Nat.sub_0_r.
Qed.

(** ** Order *)

Lemma value_bound l n : Forall block_ok l -> 0 <= blocks_value w l n < 2 ^ (Z.of_nat w * Z.of_nat n).
Proof.
  intros F. induction n as [|n IH]; cbn [blocks_value].
  - rewrite Z.mul_0_r. cbn. lia.
  - pose proof (at_ok w w_pos l n F) as Hx. unfold Bitset.block_ok in Hx.
    replace (Z.of_nat w * Z.of_nat (S n)) with (Z.of_nat w + Z.of_nat w * Z.of_nat n) by lia.
    rewrite (Z.pow_add_r 2 (Z.of_nat w) (Z.of_nat w * Z.of_nat n)) by lia. nia.
Qed.

(** Two numbers that agree above block [n] are ordered by it. *)
Lemma compare_down_ok l r n : Forall block_ok l -> Forall block_ok r ->
  match compare_down l r n with
  | Some v => v = (blocks_value w l (S n) <? blocks_value w r (S n)) /\ blocks_value w l (S n) <> blocks_value w r (S n)
  | None => blocks_value w l (S n) - blocks_value w r (S n) = at_ l 0 - at_ r 0
  end.
Proof.
  intros Fl Fr. induction n as [|n IH].
  - cbn [compare_down blocks_value]. rewrite Z.mul_0_r. lia.
  - cbn [compare_down]. destruct (Z.eqb_spec (at_ l (S n)) (at_ r (S n))) as [E|E]; cbn [negb].
    + destruct (compare_down l r n) as [v|]; cbn [blocks_value] in *; rewrite E.
      * destruct IH as [-> N]. split; [|lia]. apply eq_true_iff_eq. rewrite !Z.ltb_lt. lia.
      * lia.
    + pose proof (value_bound l (S n) Fl) as Bl. pose proof (value_bound r (S n) Fr) as Br.
      cbn [blocks_value] in *. set (P := 2 ^ (Z.of_nat w * Z.of_nat (S n))) in *. split; [|nia].
      apply eq_true_iff_eq. rewrite !Z.ltb_lt. nia.
Qed.

Lemma longer_loop_ok l m : forall n, Forall block_ok l ->
  if longer_loop l (m + n - 1) n then 2 ^ (Z.of_nat w * Z.of_nat m) <= blocks_value w l (m + n)
  else blocks_value w l (m + n) = blocks_value w l m.
Proof.
  intros n F. induction n as [|n IH]; cbn [longer_loop].
  - now rewrite Nat.add_0_r.
  - replace (m + S n - 1)%nat with (m + n)%nat by lia. replace (m + S n)%nat with (S (m + n)) by lia. cbn [blocks_value].
    pose proof (value_bound l (m + n) F) as B. pose proof (at_ok w w_pos l (m + n) F) as [Hx _].
    assert (P : 2 ^ (Z.of_nat w * Z.of_nat m) <= 2 ^ (Z.of_nat w * Z.of_nat (m + n))) by (apply Z.pow_le_mono_r; lia).
    pose proof (Z.pow_pos_nonneg 2 (Z.of_nat w * Z.of_nat m) ltac:(lia) ltac:(lia)).
    destruct (Z.eqb_spec (at_ l (m + n)) 0) as [E|E]; cbn [negb].
    + rewrite E. destruct (longer_loop l (m + n - 1) n); lia.
    + nia.
Qed.

Definition value_ltb (b c : dynamic_bitset) : bool :=
  (bitset_value w b <? bitset_value w c) ||
  ((bitset_value w b =? bitset_value w c) && (m_bits_number b <? m_bits_number c)%nat).

Lemma blocks_required_mono n m : (n <= m)%nat -> (blocks_required w n <= blocks_required w m)%nat.
Proof.
  intros H. pose proof (blocks_required_bound w w_pos n). pose proof (blocks_required_bound w w_pos m). nia.
Qed.

Lemma value_empty b : wf b -> m_bits_number b = 0%nat -> bitset_value w b = 0.
Proof.
  intros H E. pose proof (wf_blocks w w_pos b H) as Hn. unfold bitset_value.
  replace (length (m_blocks b)) with 0%nat by nia. reflexivity.
Qed.

Lemma value_nonneg b : wf b -> 0 <= bitset_value w b.
Proof. intros H. apply value_bound, H. Qed.

(** The last comparisons, block 0 and sizes, once the blocks above agree. *)
Lemma compare_tail l r n (same : bool) (dflt : bool) : Forall block_ok l -> Forall block_ok r ->
  (same = true -> dflt = false) ->
  match compare_down l r n with
  | Some v => v
  | None => if same then at_ l 0 <? at_ r 0 else if negb (at_ l 0 =? at_ r 0) then at_ l 0 <? at_ r 0 else dflt
  end = (blocks_value w l (S n) <? blocks_value w r (S n)) || ((blocks_value w l (S n) =? blocks_value w r (S n)) && dflt).
Proof.
  intros Fl Fr Hs. pose proof (compare_down_ok l r n Fl Fr) as C. destruct (compare_down l r n) as [v|].
  - destruct C as [-> N]. rewrite (proj2 (Z.eqb_neq _ _) N). cbn [andb]. now rewrite orb_false_r.
  - replace (blocks_value w l (S n) <? blocks_value w r (S n)) with (at_ l 0 <? at_ r 0) by
      (apply eq_true_iff_eq; rewrite !Z.ltb_lt; lia).
    replace (blocks_value w l (S n) =? blocks_value w r (S n)) with (at_ l 0 =? at_ r 0) by
      (apply eq_true_iff_eq; rewrite !Z.eqb_eq; lia).
    destruct same; [rewrite Hs by reflexivity; now rewrite andb_false_r, orb_false_r|].
    destruct (Z.eqb_spec (at_ l 0) (at_ r 0)) as [->|]; cbn [negb andb]; [now rewrite Z.ltb_irrefl|now rewrite orb_false_r].
Qed.

(** [operator<] compares the values, then the sizes. *)
Lemma bitset_ltb_ok b c : wf b -> wf c -> bitset_ltb b c = value_ltb b c.
Proof.
  intros Hb Hc. pose proof (value_nonneg b Hb) as Vb. pose proof (value_nonneg c Hc) as Vc.
  unfold bitset_ltb, value_ltb, size. pose proof (wf_blocks w w_pos b Hb) as Nb. pose proof (wf_blocks w w_pos c Hc) as Nc.
  destruct (Nat.eqb_spec (m_bits_number b) (m_bits_number c)) as [E|E].
  - destruct (Nat.eqb_spec (m_bits_number b) 0) as [E0|E0].
    + rewrite !value_empty by (assumption || lia). destruct (Nat.ltb_spec (m_bits_number b) (m_bits_number c)); [lia|reflexivity].
    + assert (EL : length (m_blocks b) = length (m_blocks c)) by (rewrite (proj1 Hb), (proj1 Hc), E; reflexivity).
      pose proof (compare_tail (m_blocks b) (m_blocks c) (length (m_blocks b) - 1) true false
                    (proj1 (proj2 Hb)) (proj1 (proj2 Hc)) (fun _ => eq_refl)) as T. cbn [negb] in T. rewrite T.
      replace (S (length (m_blocks b) - 1)) with (length (m_blocks b)) by nia. unfold bitset_value. rewrite <- EL, E.
      now rewrite Nat.ltb_irrefl.
  - destruct (Nat.eqb_spec (m_bits_number b) 0) as [Eb|Eb]; [|destruct (Nat.eqb_spec (m_bits_number c) 0) as [Ec|Ec]].
    + rewrite (value_empty b) by assumption. destruct (Nat.ltb_spec (m_bits_number b) (m_bits_number c)); [|lia].
      destruct (Z.ltb_spec 0 (bitset_value w c)), (Z.eqb_spec 0 (bitset_value w c)); reflexivity || lia.
    + rewrite (value_empty c) by assumption. destruct (Nat.ltb_spec (m_bits_number b) (m_bits_number c)); [lia|].
      destruct (Z.ltb_spec (bitset_value w b) 0), (Z.eqb_spec (bitset_value w b) 0); reflexivity || lia.
    + set (rhs_longer := (m_bits_number b <? m_bits_number c)%nat).
      set (longest := if rhs_longer then c else b).
      set (hi := Nat.max (length (m_blocks b)) (length (m_blocks c))). set (lo := Nat.min (length (m_blocks b)) (length (m_blocks c))).
      assert (Hlong : length (m_blocks longest) = hi /\ length (m_blocks (if rhs_longer then b else c)) = lo).
      { unfold longest, rhs_longer, hi, lo.
        destruct (Nat.ltb_spec (m_bits_number b) (m_bits_number c)) as [Hlt|Hge];
          [pose proof (blocks_required_mono _ _ (Nat.lt_le_incl _ _ Hlt))|pose proof (blocks_required_mono _ _ Hge)];
          rewrite (proj1 Hb), (proj1 Hc); lia. }
      assert (Flong : Forall block_ok (m_blocks longest)) by (unfold longest; destruct rhs_longer; [apply Hc|apply Hb]).
      pose proof (longer_loop_ok (m_blocks longest) lo (hi - lo) Flong) as Lp.
      replace (lo + (hi - lo))%nat with hi in Lp by lia.
      pose proof (compare_tail (m_blocks b) (m_blocks c) (lo - 1) false rhs_longer
                    (proj1 (proj2 Hb)) (proj1 (proj2 Hc)) ltac:(discriminate)) as T. cbn [negb] in T.
      rewrite T. clear T. replace (S (lo - 1)) with lo by (unfold lo; nia).
      pose proof (value_bound (m_blocks b) lo (proj1 (proj2 Hb))) as Bb.
      pose proof (value_bound (m_blocks c) lo (proj1 (proj2 Hc))) as Bc.
      unfold bitset_value. destruct (longer_loop (m_blocks longest) (hi - 1) (hi - lo));
        unfold longest in *; destruct rhs_longer; destruct Hlong as [-> ->];
        repeat match goal with |- context [?x <? ?y] => destruct (Z.ltb_spec x y) | |- context [?x =? ?y] => destruct (Z.eqb_spec x y) end;
        cbn [andb orb]; reflexivity || lia.
Qed.

(** The bits of the value are the bits of the bitset. *)
Lemma add_shifted_bit a x k q : 0 <= k -> 0 <= a < 2 ^ k -> 0 <= q ->
  Z.testbit (a + x * 2 ^ k) q = if q <? k then Z.testbit a q else Z.testbit x (q - k).
Proof.
  intros Hk Ha Hq. destruct (Z.ltb_spec q k) as [H|H].
  - rewrite <- (Z.mod_pow2_bits_low (a + x * 2 ^ k) k q) by lia.
    rewrite Z.mod_add, Z.mod_small by (exact Ha || (apply Z.pow_nonzero; lia)). reflexivity.
  - replace q with ((q - k) + k) at 1 by lia. rewrite <- Z.div_pow2_bits by lia.
    rewrite Z.div_add, Z.div_small by (exact Ha || (apply Z.pow_nonzero; lia)). reflexivity.
Qed.

Lemma blocks_value_bit l n i j : Forall block_ok l -> (j < w)%nat ->
  Z.testbit (blocks_value w l n) (Z.of_nat (i * w + j)) = ((i <? n)%nat && Z.testbit (at_ l i) (Z.of_nat j)).
Proof.
  intros F Hj. induction n as [|n IH]; cbn [blocks_value].
  - rewrite Z.bits_0. destruct (Nat.ltb_spec i 0); [lia|reflexivity].
  - pose proof (value_bound l n F) as B. rewrite add_shifted_bit by (assumption || lia). rewrite IH.
    destruct (Z.ltb_spec (Z.of_nat (i * w + j)) (Z.of_nat w * Z.of_nat n)), (Nat.ltb_spec i n), (Nat.ltb_spec i (S n));
      cbn [andb]; try reflexivity; try nia.
    + replace i with n by nia. f_equal. nia.
    + replace (Z.of_nat (i * w + j) - Z.of_nat w * Z.of_nat n) with (Z.of_nat ((i - n) * w + j)) by nia.
      apply (block_bit_high w w_pos); [now apply at_ok|nia].
Qed.

Lemma value_bit b q : wf b -> Z.testbit (bitset_value w b) (Z.of_nat q) = bit_at b q.
Proof.
  intros H. destruct (pos_split w w_pos q) as (i & j & -> & Hj & _ & _). unfold bitset_value.
  rewrite blocks_value_bit, (bit_at_split w w_pos) by (exact Hj || apply H).
  destruct (Nat.ltb_spec i (length (m_blocks b))); [reflexivity|]. now rewrite at_out, Z.bits_0 by assumption.
Qed.
End Query.
