(* ===== verification/BitsetText.v ===== *)
(** [to_string], [init_from_string] and [operator>>] of [dynamic_bitset]: the
    string has the most significant bit first, and reading it back gives the
    bitset.  The bits of a bitset, as a list, after [push_back]. *)
From Stdlib Require Import ZArith Lia List Bool Ascii.
From S2P Require Import Prelude.
From S2P Require Import Bitset.
From S2P Require Import BitsetOps.
Import ListNotations.

Lemma nth_upd_in {A} (l : list A) i j v d : (i < length l)%nat -> nth j (upd l i v) d = if (j =? i)%nat then v else nth j l d.
Proof.
  revert i j; induction l as [|x l IH]; intros [|i] [|j] H; cbn in *; try lia; try reflexivity. rewrite IH by lia. reflexivity.
Qed.

Lemma firstn_snoc {A} (l : list A) i d : (i < length l)%nat -> firstn (S i) l = firstn i l ++ [nth i l d].
Proof.
  revert i; induction l as [|x l IH]; intros [|i] H; cbn [length] in H; try lia; [reflexivity|].
  cbn [firstn nth app]. f_equal. apply (IH i). lia.
Qed.

Section Text.
Context (w : nat) (w_pos : (0 < w)%nat).
#[local] Abbreviation bit_at := (bit_at w).
#[local] Abbreviation block_ok := (block_ok w).
#[local] Abbreviation wf := (wf w).
#[local] Abbreviation bits := (bits w).

(** ** Bits to characters *)

Lemma mask_bit x i : (Z.land x (block_type w (2 ^ Z.of_nat i)) =? 0) = negb ((i <? w)%nat && Z.testbit x (Z.of_nat i)).
Proof.
  destruct (Nat.ltb_spec i w) as [H|H]; cbn [andb].
  - assert (E : block_type w (2 ^ Z.of_nat i) = 2 ^ Z.of_nat i).
    { apply Z.mod_small. split; [apply Z.pow_nonneg; lia|]. apply Z.pow_lt_mono_r; lia. }
    rewrite E. apply land_pow_bit.
  - assert (E : block_type w (2 ^ Z.of_nat i) = 0).
    { unfold block_type, uwrap. replace (Z.of_nat i) with (Z.of_nat (i - w) + Z.of_nat w) by lia.
      rewrite Z.pow_add_r by lia. apply Z.mod_mul. apply Z.pow_nonzero; lia. }
    rewrite E, Z.land_0_r. reflexivity.
Qed.

Lemma mask_next i : block_type w (block_type w (2 ^ Z.of_nat i) [<<] 1) = block_type w (2 ^ Z.of_nat (S i)).
Proof.
  unfold block_type, uwrap. rewrite Z.shiftl_mul_pow2, Z.mul_mod_idemp_l by (try apply Z.pow_nonzero; lia).
  rewrite Nat2Z.inj_succ, Z.pow_succ_r by lia. f_equal. lia.
Qed.

Lemma to_string_bits_ok one x len base d p : (p < len)%nat -> forall n i str, length str = len -> (base + i + n <= len)%nat ->
  nth (len - S p) (to_string_bits w one x len base i n (block_type w (2 ^ Z.of_nat i)) str) d =
  if ((base + i <=? p) && (p <? base + i + n) && (p - base <? w))%nat && Z.testbit x (Z.of_nat (p - base)) then one
  else nth (len - S p) str d.
Proof.
  intros Hp. induction n as [|n IH]; intros i str L H; cbn [to_string_bits].
  - destruct (Nat.leb_spec (base + i) p), (Nat.ltb_spec p (base + i + 0)); cbn [andb]; reflexivity || lia.
  - rewrite mask_next. unfold zero_block. rewrite mask_bit, negb_involutive. rewrite IH.
    2:{ destruct (_ && _); [now rewrite length_upd|exact L]. }
    2:{ lia. }
    assert (E : nth (len - S p) (if (i <? w)%nat && Z.testbit x (Z.of_nat i) then upd str (len - (base + i + 1)) one else str) d =
                if (p =? base + i)%nat && ((i <? w)%nat && Z.testbit x (Z.of_nat i)) then one else nth (len - S p) str d).
    { destruct ((i <? w)%nat && Z.testbit x (Z.of_nat i)); [|now rewrite andb_false_r]. rewrite nth_upd_in by lia.
      destruct (Nat.eqb_spec (len - S p) (len - (base + i + 1))), (Nat.eqb_spec p (base + i)); cbn [andb]; reflexivity || lia. }
    rewrite E. destruct (Nat.eqb_spec p (base + i)) as [->|Hne].
    + replace (base + i - base)%nat with i by lia.
      destruct (Nat.leb_spec (base + S i) (base + i)), (Nat.leb_spec (base + i) (base + i)), (Nat.ltb_spec (base + i) (base + i + S n));
        cbn [andb]; try lia. reflexivity.
    + cbn [andb]. destruct (Nat.leb_spec (base + S i) p), (Nat.leb_spec (base + i) p), (Nat.ltb_spec p (base + S i + n)),
        (Nat.ltb_spec p (base + i + S n)); cbn [andb]; reflexivity || lia.
Qed.

Lemma length_to_string_bits one x len base n : forall i mask str,
  length (to_string_bits w one x len base i n mask str) = length str.
Proof.
  induction n as [|n IH]; intros i mask str; cbn [to_string_bits]; [reflexivity|]. rewrite IH.
  destruct (negb _); [apply length_upd|reflexivity].
Qed.

Definition digit (zero one : ascii) (v : bool) : ascii := if v then one else zero.

(** The string after the first [k] blocks. *)
Lemma to_string_blocks b zero one k : wf b -> (k <= length (m_blocks b))%nat ->
  let str := fold_left (fun str i_block =>
      let block := at_ (m_blocks b) i_block in
      if block =? zero_block then str
      else
        let limit := if (i_block * w <? size b)%nat then (size b - i_block * w)%nat else w in
        to_string_bits w one block (size b) (i_block * w) 0 limit (block_type w 1) str)
    (seq 0 k) (repeat zero (size b)) in
  length str = size b /\ forall p, (p < size b)%nat ->
    nth (size b - S p) str zero = digit zero one ((p <? k * w)%nat && bit_at b p).
Proof.
  intros H. pose proof (wf_blocks w w_pos b H) as Hn. unfold size, zero_block. set (len := m_bits_number b) in *. induction k as [|k IH]; intros Hk.
  - cbn [seq fold_left]. split; [apply repeat_length|]. intros p Hp. rewrite nth_repeat. reflexivity.
  - rewrite seq_S, fold_left_app. cbn [Nat.add fold_left]. destruct (IH ltac:(lia)) as [L N]. cbv zeta in L, N |- *.
    set (str := fold_left _ (seq 0 k) _) in *. destruct (Z.eqb_spec (at_ (m_blocks b) k) 0) as [E|E].
    + split; [exact L|]. intros p Hp. rewrite N by exact Hp. f_equal.
      destruct (pos_split w w_pos p) as (i & j & -> & Hj & _ & _). rewrite (bit_at_split w w_pos) by exact Hj.
      destruct (Nat.ltb_spec (i * w + j) (k * w)), (Nat.ltb_spec (i * w + j) (S k * w)); cbn [andb]; try reflexivity; try nia.
      replace i with k by nia. now rewrite E, Z.bits_0.
    + assert (Hlt : (k * w < len)%nat) by nia. destruct (Nat.ltb_spec (k * w) len); [|lia].
      split; [rewrite length_to_string_bits; exact L|]. intros p Hp. change 1 with (2 ^ Z.of_nat 0).
      rewrite to_string_bits_ok, N by (assumption || lia).
      destruct (pos_split w w_pos p) as (i & j & -> & Hj & _ & _). rewrite (bit_at_split w w_pos) by exact Hj.
      unfold digit. destruct (Nat.leb_spec (k * w + 0) (i * w + j)), (Nat.ltb_spec (i * w + j) (k * w + 0 + (len - k * w))),
        (Nat.ltb_spec (i * w + j - k * w) w), (Nat.ltb_spec (i * w + j) (k * w)), (Nat.ltb_spec (i * w + j) (S k * w));
        cbn [andb]; try reflexivity; try nia.
      replace i with k by nia. replace (k * w + j - k * w)%nat with j by lia. reflexivity.
Qed.

(** The characters of the bits, the last bit first. *)
Lemma to_string_ok b zero one : wf b -> to_string w b zero one = rev (map (digit zero one) (bits b)).
Proof.
  intros H. destruct (to_string_blocks b zero one (length (m_blocks b)) H (Nat.le_refl _)) as [L N]. cbv zeta in L, N.
  pose proof (wf_blocks w w_pos b H) as Hn. unfold to_string. cbv zeta.
  apply (nth_ext _ _ zero zero).
  - rewrite length_rev, length_map, length_bits. exact L.
  - rewrite L. intros q Hq. rewrite rev_nth; rewrite length_map, length_bits; [|exact Hq]. unfold size in *.
    replace q with (m_bits_number b - S (m_bits_number b - S q))%nat at 1 by lia. rewrite N by lia.
    rewrite (nth_indep _ zero (digit zero one false)), map_nth, nth_bits by (exact H || exact w_pos || (rewrite length_map, length_bits; lia)).
    destruct (Nat.ltb_spec (m_bits_number b - S q) (length (m_blocks b) * w)); [reflexivity|lia].
Qed.

(** ** Characters to bits *)

Lemma zeros_ok n : wf (DynamicBitset (repeat 0 (blocks_required w n)) n) /\
  forall p, bit_at (DynamicBitset (repeat 0 (blocks_required w n)) n) p = false.
Proof.
  assert (B : forall p, bit_at (DynamicBitset (repeat 0 (blocks_required w n)) n) p = false).
  { intros p. unfold Bitset.bit_at. cbn [m_blocks]. rewrite at_repeat. destruct (_ <? _)%nat; apply Z.bits_0. }
  split; [|exact B]. split; [cbn [m_blocks m_bits_number]; apply repeat_length|]. split; [|intros; apply B].
  apply Forall_forall. intros x Hx. apply repeat_spec in Hx as ->. now apply zero_ok.
Qed.

Lemma init_from_string_ok str pos n zero one : (pos <= length str)%nat ->
  wf (init_from_string w str pos n zero one) /\
  bits (init_from_string w str pos n zero one) = rev (map (fun c => Ascii.eqb c one) (firstn n (skipn pos str))).
Proof.
  intros Hpos. unfold init_from_string. cbv zeta. set (size := Nat.min n (length str - pos)).
  destruct (zeros_ok size) as [W0 B0]. set (b0 := DynamicBitset _ _) in *.
  assert (G : forall k, (k <= size)%nat ->
    let b := fold_left (fun b i => if Ascii.eqb (nth (pos + size - 1 - i) str zero) one then set_bit w b i true else b) (seq 0 k) b0 in
    wf b /\ m_bits_number b = size /\ forall p, bit_at b p = ((p <? k)%nat && Ascii.eqb (nth (pos + size - 1 - p) str zero) one)).
  { induction k as [|k IH]; intros Hk.
    - split; [exact W0|]. split; [reflexivity|]. intros p. rewrite B0. reflexivity.
    - rewrite seq_S, fold_left_app. cbn [Nat.add fold_left]. destruct (IH ltac:(lia)) as (W & En & B). cbv zeta in *.
      set (b := fold_left _ (seq 0 k) b0) in *. destruct (Ascii.eqb (nth (pos + size - 1 - k) str zero) one) eqn:E.
      + destruct (set_bit_ok w w_pos b k true W ltac:(lia)) as (W' & En' & B'). split; [exact W'|]. split; [lia|].
        intros p. rewrite B', B. destruct (Nat.eqb_spec p k) as [Ep|], (Nat.ltb_spec p k), (Nat.ltb_spec p (S k)); cbn [andb]; try lia; try reflexivity.
        now rewrite Ep, E.
      + split; [exact W|]. split; [exact En|]. intros p. rewrite B.
        destruct (Nat.ltb_spec p k), (Nat.ltb_spec p (S k)); cbn [andb]; try lia; try reflexivity.
        replace p with k by lia. now rewrite E. }
  destruct (G size (Nat.le_refl _)) as (W & En & B). cbv zeta in *. split; [exact W|].
  set (sub := firstn n (skipn pos str)).
  assert (Ls : length sub = size) by (unfold sub; rewrite length_firstn, length_skipn; reflexivity).
  apply (bits_eq w); [exact w_pos|exact W|rewrite length_rev, length_map; congruence|]. rewrite length_rev, length_map, Ls. intros p Hp.
  rewrite B. destruct (Nat.ltb_spec p size); [|lia]. cbn [andb].
  rewrite rev_nth; rewrite length_map, Ls; [|exact Hp].
  rewrite (nth_indep _ false (Ascii.eqb zero one)) by (rewrite length_map; lia). rewrite (map_nth (fun c => Ascii.eqb c one)). f_equal.
  unfold sub. rewrite nth_firstn, nth_skipn. destruct (Nat.ltb_spec (size - S p) n); [f_equal; lia|lia].
Qed.

Lemma digit_one zero one v : zero <> one -> Ascii.eqb (digit zero one v) one = v.
Proof.
  intros H. unfold digit. destruct v; [apply Ascii.eqb_refl|]. now apply Ascii.eqb_neq.
Qed.

Lemma map_digit zero one l : zero <> one -> map (fun c => Ascii.eqb c one) (map (digit zero one) l) = l.
Proof. intros H. rewrite map_map. rewrite <- (map_id l) at 2. apply map_ext. intros v. now apply digit_one. Qed.

Lemma string_roundtrip_ok b zero one : wf b -> zero <> one ->
  init_from_string w (to_string w b zero one) 0 (size b) zero one = b.
Proof.
  intros H Hz. destruct (init_from_string_ok (to_string w b zero one) 0 (size b) zero one ltac:(lia)) as [W B].
  apply (bits_inj w w_pos); [exact W|exact H|]. rewrite B, to_string_ok by exact H. cbn [skipn].
  rewrite firstn_all2 by (rewrite length_rev, length_map, length_bits; reflexivity).
  rewrite map_rev, rev_involutive. now apply map_digit.
Qed.

(** ** Streams *)

Lemma push_back_bits b v : wf b -> wf (push_back w b v) /\ bits (push_back w b v) = bits b ++ [v].
Proof.
  intros H. destruct (push_back_ok w w_pos b v H) as (W & En & B). split; [exact W|].
  apply (bits_eq w w_pos); [exact W|rewrite length_app, length_bits, En; reflexivity|]. intros p Hp.
  rewrite B. rewrite length_app, length_bits in Hp. cbn [length] in Hp. destruct (Nat.eqb_spec p (m_bits_number b)) as [->|Hne].
  - rewrite app_nth2; rewrite length_bits; [now rewrite Nat.sub_diag|lia].
  - rewrite app_nth1 by (rewrite length_bits; lia). now rewrite nth_bits.
Qed.

Definition binary (c : ascii) : bool := Ascii.eqb c "1" || Ascii.eqb c "0".

Lemma read_bits_ok l rest : (forall c r, rest = c :: r -> binary c = false) -> forall b, wf b ->
  exists b', read_bits w (map (digit "0" "1") l ++ rest) b = (b', rest) /\ wf b' /\ bits b' = bits b ++ l.
Proof.
  intros Hrest. induction l as [|v l IH]; intros b H; cbn [map app].
  - exists b. split; [|split; [exact H|now rewrite app_nil_r]]. destruct rest as [|c rest]; [reflexivity|]. cbn [read_bits].
    specialize (Hrest c rest eq_refl). unfold binary in Hrest. apply orb_false_iff in Hrest as [-> ->]. reflexivity.
  - destruct (push_back_bits b v H) as [W B]. destruct (IH _ W) as (b' & E & W' & B'). exists b'.
    split; [|split; [exact W'|rewrite B', B, <- app_assoc; reflexivity]]. destruct v; exact E.
Qed.

Lemma push_reverse_ok r : wf r -> forall i b, wf b -> (i < size r)%nat ->
  wf (push_reverse w r i b) /\ bits (push_reverse w r i b) = bits b ++ rev (firstn i (skipn 1 (bits r))).
Proof.
  intros Hr. induction i as [|i IH]; intros b H Hi; cbn [push_reverse].
  - split; [exact H|]. now rewrite app_nil_r.
  - destruct (push_back_bits b (test_bit w r (S i)) H) as [W B]. destruct (IH _ W ltac:(lia)) as [W' B']. split; [exact W'|].
    rewrite B', B, <- app_assoc. f_equal. rewrite test_bit_ok by exact w_pos. rewrite <- (nth_bits w r) by exact Hr.
    assert (L : (S i < length (bits r))%nat) by (rewrite length_bits; exact Hi).
    destruct (bits r) as [|v l]; [cbn in L; lia|]. cbn [skipn nth]. cbn [length] in L.
    rewrite (firstn_snoc l i false) by lia. rewrite rev_app_distr. reflexivity.
Qed.

Lemma skip_ws_digits l rest : l <> [] -> skip_ws (map (digit "0" "1") l ++ rest) = map (digit "0" "1") l ++ rest.
Proof. destruct l as [|v l]; [contradiction|]. intros _. destruct v; reflexivity. Qed.

(** What [operator<<] writes, [operator>>] reads back. *)
Lemma stream_roundtrip_ok b b0 rest : wf b -> (0 < size b)%nat -> (forall c r, rest = c :: r -> binary c = false) ->
  stream_in w (to_string w b "0" "1" ++ rest) b0 = (b, rest).
Proof.
  intros H Hs Hrest. rewrite to_string_ok, <- map_rev by exact H. unfold stream_in.
  assert (Hne : rev (bits b) <> []).
  { intros E. apply (f_equal (@length bool)) in E. rewrite length_rev, length_bits in E. cbn in E. unfold size in Hs. lia. }
  rewrite skip_ws_digits by exact Hne.
  destruct (read_bits_ok (rev (bits b)) rest Hrest bitset_empty (bitset_empty_ok w w_pos)) as (r & E & Wr & Br).
  destruct (map (digit "0" "1") (rev (bits b)) ++ rest) as [|c inp] eqn:Ei.
  { destruct (rev (bits b)); [contradiction|discriminate]. }
  rewrite E. change (bits bitset_empty) with (@nil bool) in Br. cbn [app] in Br.
  assert (Sr : size r = size b) by (unfold size; rewrite <- !(length_bits w), Br; apply length_rev).
  unfold empty. rewrite Sr. destruct (Nat.eqb_spec (size b) 0); [lia|]. cbn [negb]. f_equal.
  destruct (push_reverse_ok r Wr (size b - 1) (clear b0) (bitset_empty_ok w w_pos) ltac:(lia)) as [W1 B1].
  destruct (push_back_bits _ (test_bit w r 0) W1) as [W2 B2].
  apply (bits_inj w w_pos); [exact W2|exact H|]. rewrite B2, B1. change (bits (clear b0)) with (@nil bool). cbn [app].
  rewrite test_bit_ok by exact w_pos. rewrite <- (nth_bits w r) by exact Wr. rewrite <- (rev_involutive (bits b)), <- Br.
  assert (L : length (bits r) = size b) by (rewrite length_bits; exact Sr).
  destruct (bits r) as [|v l]; [cbn in L; lia|]. cbn [skipn nth length rev] in *.
  rewrite firstn_all2 by lia. reflexivity.
Qed.
End Text.
