(* ===== verification/BitsetSpec.v ===== *)
(** The specification of [dynamic_bitset]: a list of booleans.  Every operation
    that changes a bitset is an [bitset_op]; [exec] runs the code of it after its
    asserts ([None] where one fires) and [spec] says what it is to do with the list.  The
    code simulates the specification step by step, whatever the block width. *)
From Stdlib Require Import ZArith Lia List Bool.
From S2P Require Import Prelude.
From S2P Require Import Bitset.
From S2P Require Import BitsetOps.
From S2P Require Import BitsetText.
Import ListNotations.

(** The members of [dynamic_bitset] that change it. *)
Inductive bitset_op :=
  | OpClear
  | OpPushBack (value : bool)
  | OpPopBack
  | OpResize (nbits : nat) (value : bool)
  | OpAppendBlock (block : Z)
  | OpAppendBlocks (range : list Z)
  | OpAppend (other : dynamic_bitset)
  | OpAppendSelf
  | OpSet (pos : nat) (value : bool)
  | OpFlip (pos : nat)
  | OpTestSet (pos : nat) (value : bool)
  | OpSetRange (pos len : nat) (value : bool)
  | OpFlipRange (pos len : nat)
  | OpSetAll
  | OpResetAll
  | OpFlipAll
  | OpAnd (rhs : dynamic_bitset)
  | OpOr (rhs : dynamic_bitset)
  | OpXor (rhs : dynamic_bitset)
  | OpSub (rhs : dynamic_bitset)
  | OpShiftLeft (shift : nat)
  | OpShiftRight (shift : nat).

Definition exec (w : nat) (b : dynamic_bitset) (op : bitset_op) : option dynamic_bitset :=
  match op with
  | OpClear => Some (clear b)
  | OpPushBack v => Some (push_back w b v)
  | OpPopBack => Some (pop_back w b)
  | OpResize n v => Some (resize w b n v)
  | OpAppendBlock x => Some (append_block w b x)
  | OpAppendBlocks range => Some (append_blocks w b range)
  | OpAppend other => Some (append_other w b other)
  | OpAppendSelf => Some (append_self w b)
  | OpSet pos v => assert (pos <? size b)%nat (set_bit w b pos v)
  | OpFlip pos => assert (pos <? size b)%nat (flip_bit w b pos)
  | OpTestSet pos v => assert (pos <? size b)%nat (snd (test_set w b pos v))
  | OpSetRange pos len v => set_range w b pos len v
  | OpFlipRange pos len => flip_range w b pos len
  | OpSetAll => Some (set_all w b)
  | OpResetAll => Some (reset_all b)
  | OpFlipAll => Some (flip_all w b)
  | OpAnd rhs => assert (size b =? size rhs)%nat (and_assign b rhs)
  | OpOr rhs => assert (size b =? size rhs)%nat (or_assign b rhs)
  | OpXor rhs => assert (size b =? size rhs)%nat (xor_assign b rhs)
  | OpSub rhs => assert (size b =? size rhs)%nat (sub_assign w b rhs)
  | OpShiftLeft s => Some (shift_left w b s)
  | OpShiftRight s => Some (shift_right w b s)
  end.

(** ** The specification *)

Definition block_bits (w : nat) (x : Z) : list bool := map (fun j => Z.testbit x (Z.of_nat j)) (seq 0 w).

Definition on_range (f : bool -> bool) (l : list bool) (pos len : nat) : list bool :=
  firstn pos l ++ map f (firstn len (skipn pos l)) ++ skipn (pos + len) l.

(** The range starts in the list and, unless it is empty, ends in it. *)
Definition range_in (n pos len : nat) : bool := ((pos <? n) && ((len =? 0) || (pos + len - 1 <? n)))%nat.

Definition zip_bits (f : bool -> bool -> bool) (l r : list bool) : list bool := map (fun x => f (fst x) (snd x)) (combine l r).

Definition spec (w : nat) (l : list bool) (op : bitset_op) : option (list bool) :=
  match op with
  | OpClear => Some []
  | OpPushBack v => Some (l ++ [v])
  | OpPopBack => Some (removelast l)
  | OpResize n v => Some (firstn n l ++ repeat v (n - length l))
  | OpAppendBlock x => Some (l ++ block_bits w x)
  | OpAppendBlocks range => Some (l ++ flat_map (block_bits w) range)
  | OpAppend other => Some (l ++ bits w other)
  | OpAppendSelf => Some (l ++ l)
  | OpSet pos v => assert (pos <? length l)%nat (on_range (fun _ => v) l pos 1)
  | OpFlip pos => assert (pos <? length l)%nat (on_range negb l pos 1)
  | OpTestSet pos v => assert (pos <? length l)%nat (on_range (fun _ => v) l pos 1)
  | OpSetRange pos len v => assert (range_in (length l) pos len) (on_range (fun _ => v) l pos len)
  | OpFlipRange pos len => assert (range_in (length l) pos len) (on_range negb l pos len)
  | OpSetAll => Some (repeat true (length l))
  | OpResetAll => Some (repeat false (length l))
  | OpFlipAll => Some (map negb l)
  | OpAnd rhs => assert (length l =? length (bits w rhs))%nat (zip_bits andb l (bits w rhs))
  | OpOr rhs => assert (length l =? length (bits w rhs))%nat (zip_bits orb l (bits w rhs))
  | OpXor rhs => assert (length l =? length (bits w rhs))%nat (zip_bits xorb l (bits w rhs))
  | OpSub rhs => assert (length l =? length (bits w rhs))%nat (zip_bits (fun x y => x && negb y) l (bits w rhs))
  | OpShiftLeft s => Some (firstn (length l) (repeat false s ++ l))
  | OpShiftRight s => Some (skipn s l ++ repeat false (Nat.min s (length l)))
  end.

(** The arguments of an operation are blocks and bitsets, and the end of a range
    does not wrap around in [size_t]. *)
Definition op_ok (w : nat) (op : bitset_op) : Prop :=
  match op with
  | OpAppendBlock x => block_ok w x
  | OpAppendBlocks range => Forall (block_ok w) range
  | OpSetRange pos len _ | OpFlipRange pos len => Z.of_nat pos + Z.of_nat len <= 2 ^ 64
  | OpAppend c | OpAnd c | OpOr c | OpXor c | OpSub c => wf w c
  | _ => True
  end.

(** Running a sequence of operations, in the code and in the specification. *)
Fixpoint run {A} (step : A -> bitset_op -> option A) (a : A) (ops : list bitset_op) : option A :=
  match ops with
  | [] => Some a
  | op :: ops => match step a op with Some a => run step a ops | None => None end
  end.

(** ** Lists, position by position *)

Lemma nth_app_l (l r : list bool) p : nth p (l ++ r) false = if (p <? length l)%nat then nth p l false else nth (p - length l) r false.
Proof. destruct (Nat.ltb_spec p (length l)); [now apply app_nth1|now apply app_nth2]. Qed.

Lemma nth_repeat_bool v n p : nth p (repeat v n) false = ((p <? n)%nat && v).
Proof.
  destruct (Nat.ltb_spec p n) as [H|H]; cbn [andb].
  - rewrite (nth_indep _ false v) by now rewrite repeat_length. apply nth_repeat.
  - apply nth_overflow. now rewrite repeat_length.
Qed.

Lemma nth_block_bits w x p : (p < w)%nat -> nth p (block_bits w x) false = Z.testbit x (Z.of_nat p).
Proof.
  intros H. unfold block_bits. rewrite (nth_indep _ false (Z.testbit x (Z.of_nat 0))) by (rewrite length_map, length_seq; exact H).
  rewrite (map_nth (fun j => Z.testbit x (Z.of_nat j))), seq_nth by exact H. reflexivity.
Qed.

Lemma length_block_bits w x : length (block_bits w x) = w.
Proof. unfold block_bits. now rewrite length_map, length_seq. Qed.

Lemma length_on_range f l pos len : (pos + len <= length l)%nat -> length (on_range f l pos len) = length l.
Proof. intros H. unfold on_range. rewrite !length_app, length_map, !length_firstn, !length_skipn. lia. Qed.

Lemma nth_on_range f l pos len p : (pos + len <= length l)%nat -> (p < length l)%nat ->
  nth p (on_range f l pos len) false = if ((pos <=? p) && (p <? pos + len))%nat then f (nth p l false) else nth p l false.
Proof.
  intros H Hp. unfold on_range. rewrite !nth_app_l, length_map, !length_firstn, length_skipn.
  replace (Nat.min pos (length l)) with pos by lia. replace (Nat.min len (length l - pos)) with len by lia.
  destruct (Nat.ltb_spec p pos), (Nat.leb_spec pos p); try lia; cbn [andb].
  - rewrite nth_firstn. destruct (Nat.ltb_spec p pos); [reflexivity|lia].
  - destruct (Nat.ltb_spec (p - pos) len), (Nat.ltb_spec p (pos + len)); try lia.
    + rewrite (nth_indep _ false (f false)) by (rewrite length_map, length_firstn, length_skipn; lia).
      rewrite map_nth, nth_firstn, nth_skipn. destruct (Nat.ltb_spec (p - pos) len); [|lia]. do 2 f_equal. lia.
    + rewrite nth_skipn. f_equal. lia.
Qed.

Lemma length_zip_bits f l r : length (zip_bits f l r) = Nat.min (length l) (length r).
Proof. unfold zip_bits. now rewrite length_map, length_combine. Qed.

Lemma nth_zip_bits f l r p : (p < length l)%nat -> length l = length r -> nth p (zip_bits f l r) false = f (nth p l false) (nth p r false).
Proof.
  intros H E. unfold zip_bits. rewrite (nth_indep _ false (f (fst (false, false)) (snd (false, false)))) by (rewrite length_map, length_combine; lia).
  rewrite (map_nth (fun x : bool * bool => f (fst x) (snd x)) (combine l r) (false, false)), combine_nth by exact E. reflexivity.
Qed.

Lemma range_in_ok n pos len : range_in n pos len = true -> (pos < n)%nat /\ (pos + len <= n)%nat.
Proof.
  unfold range_in. rewrite andb_true_iff, orb_true_iff, Nat.ltb_lt, Nat.eqb_eq, Nat.ltb_lt. lia.
Qed.

Section Simulation.
Context (w : nat) (w_pos : (0 < w)%nat).
#[local] Abbreviation bit_at := (bit_at w).
#[local] Abbreviation wf := (wf w).
#[local] Abbreviation bits := (bits w).

(** What one step has to establish. *)
Definition simulates (r : option dynamic_bitset) (s : option (list bool)) : Prop :=
  match r, s with
  | Some b, Some l => wf b /\ bits b = l
  | None, None => True
  | _, _ => False
  end.

Lemma simulates_some b l n : wf b /\ m_bits_number b = n /\ (forall p, (p < n)%nat -> bit_at b p = nth p l false) -> length l = n ->
  simulates (Some b) (Some l).
Proof.
  intros (H & En & B) L. split; [exact H|]. apply (bits_eq w w_pos); [exact H|congruence|]. intros p Hp. apply B. lia.
Qed.

Lemma simulates_assert c c' b l : c = c' -> (c = true -> simulates (Some b) (Some l)) -> simulates (assert c b) (assert c' l).
Proof. intros <- H. unfold assert. destruct c; [now apply H|exact I]. Qed.

Lemma bits_nth b p : wf b -> bit_at b p = nth p (bits b) false.
Proof. intros H. now rewrite nth_bits. Qed.

Lemma set_bit_sim b pos v : wf b -> (pos <? size b)%nat = true -> simulates (Some (set_bit w b pos v)) (Some (on_range (fun _ => v) (bits b) pos 1)).
Proof.
  intros H Hp. apply Nat.ltb_lt in Hp. unfold size in Hp. destruct (set_bit_ok w w_pos b pos v H Hp) as (W & En & B).
  apply (simulates_some _ _ (m_bits_number b)); [|rewrite length_on_range; rewrite length_bits; lia].
  split; [exact W|]. split; [exact En|]. intros p Hp'. rewrite B, nth_on_range, <- bits_nth by (exact H || rewrite length_bits; lia).
  destruct (Nat.eqb_spec p pos), (Nat.leb_spec pos p), (Nat.ltb_spec p (pos + 1)); cbn [andb]; reflexivity || lia.
Qed.

Lemma zip_sim b c r f : wf b -> wf c ->
  (m_bits_number b = m_bits_number c -> wf r /\ m_bits_number r = m_bits_number b /\ forall p, bit_at r p = f (bit_at b p) (bit_at c p)) ->
  simulates (assert (size b =? size c)%nat r) (assert (length (bits b) =? length (bits c))%nat (zip_bits f (bits b) (bits c))).
Proof.
  intros Hb Hc H. apply simulates_assert; [now rewrite !length_bits|]. intros E. apply Nat.eqb_eq in E. destruct (H E) as (W & En & B).
  apply (simulates_some _ _ (m_bits_number b)); [|rewrite length_zip_bits, !length_bits; unfold size in E; lia].
  split; [exact W|]. split; [exact En|]. intros p Hp.
  rewrite B, nth_zip_bits, <- !bits_nth by (assumption || rewrite ?length_bits; assumption). reflexivity.
Qed.

Lemma append_block_sim b x : wf b -> block_ok w x -> simulates (Some (append_block w b x)) (Some (bits b ++ block_bits w x)).
Proof.
  intros H Hx. destruct (append_block_ok w w_pos b x H Hx) as (W & En & B).
  apply (simulates_some _ _ (m_bits_number b + w)); [|now rewrite length_app, length_bits, length_block_bits].
  split; [exact W|]. split; [exact En|]. intros p Hp. rewrite B, nth_app_l, length_bits, <- bits_nth by exact H.
  destruct (Nat.ltb_spec p (m_bits_number b)); [reflexivity|]. rewrite nth_block_bits by lia. reflexivity.
Qed.

Lemma append_blocks_sim range : forall b, wf b -> Forall (block_ok w) range ->
  simulates (Some (append_blocks w b range)) (Some (bits b ++ flat_map (block_bits w) range)).
Proof.
  intros b. rewrite append_blocks_eq by exact w_pos. revert b. induction range as [|x range IH]; intros b H F.
  - split; [exact H|]. now rewrite app_nil_r.
  - apply Forall_cons_iff in F as [Hx F]. cbn [fold_left flat_map]. destruct (append_block_sim b x H Hx) as [W E].
    rewrite app_assoc, <- E. now apply IH.
Qed.

Lemma appended_sim b c r : wf b -> wf c ->
  wf r /\ m_bits_number r = (m_bits_number b + m_bits_number c)%nat /\
  (forall p, (p < m_bits_number b + m_bits_number c)%nat -> bit_at r p = bit_append w b c p) ->
  simulates (Some r) (Some (bits b ++ bits c)).
Proof.
  intros Hb Hc (W & En & B). apply (simulates_some _ _ (m_bits_number b + m_bits_number c)); [|now rewrite length_app, !length_bits].
  split; [exact W|]. split; [exact En|]. intros p Hp. rewrite B, nth_app_l, length_bits, <- !bits_nth by assumption. reflexivity.
Qed.

Lemma range_sim b pos len r f : wf b ->
  ((m_bits_number b <= pos)%nat \/ (0 < len /\ m_bits_number b < pos + len)%nat -> r = None) ->
  ((pos < m_bits_number b)%nat -> (pos + len <= m_bits_number b)%nat ->
   exists b', r = Some b' /\ wf b' /\ m_bits_number b' = m_bits_number b /\
     forall p, bit_at b' p = if ((pos <=? p) && (p <? pos + len))%nat then f (bit_at b p) else bit_at b p) ->
  simulates r (assert (range_in (length (bits b)) pos len) (on_range f (bits b) pos len)).
Proof.
  intros H N G. rewrite length_bits. unfold assert. destruct (range_in (m_bits_number b) pos len) eqn:E.
  2: { rewrite N; [exact I|]. unfold range_in in E. apply andb_false_iff in E as [E|E]; [left; now apply Nat.ltb_ge|].
       apply orb_false_iff in E as [E0 E1]. apply Nat.eqb_neq in E0. apply Nat.ltb_ge in E1. lia. }
  apply range_in_ok in E as [E0 E]. destruct (G E0 E) as (b' & -> & W & En & B). apply (simulates_some _ _ (m_bits_number b)); [|rewrite length_on_range; rewrite length_bits; lia].
  split; [exact W|]. split; [exact En|]. intros p Hp. rewrite B, nth_on_range, <- bits_nth by (exact H || rewrite length_bits; lia). reflexivity.
Qed.

Lemma all_sim b r f l : wf b -> wf r /\ m_bits_number r = m_bits_number b /\ (forall p, (p < m_bits_number b)%nat -> bit_at r p = f p) ->
  length l = m_bits_number b -> (forall p, (p < m_bits_number b)%nat -> nth p l false = f p) -> simulates (Some r) (Some l).
Proof.
  intros H (W & En & B) L N. apply (simulates_some _ _ (m_bits_number b)); [|exact L]. split; [exact W|]. split; [exact En|].
  intros p Hp. now rewrite B, N.
Qed.

Lemma pop_back_sim b : wf b -> simulates (Some (pop_back w b)) (Some (removelast (bits b))).
Proof.
  intros H. destruct (pop_back_ok w w_pos b H) as (W & En & B). rewrite removelast_firstn_len, length_bits.
  apply (simulates_some _ _ (m_bits_number b - 1)); [|rewrite length_firstn, length_bits; lia].
  split; [exact W|]. split; [exact En|]. intros p Hp. rewrite B, nth_firstn, <- bits_nth by exact H.
  destruct (Nat.ltb_spec p (m_bits_number b - 1)), (Nat.ltb_spec p (Nat.pred (m_bits_number b))); reflexivity || lia.
Qed.

Lemma resize_sim b n v : wf b -> simulates (Some (resize w b n v)) (Some (firstn n (bits b) ++ repeat v (n - length (bits b)))).
Proof.
  intros H. destruct (resize_ok w w_pos b n v H) as (W & En & B).
  apply (simulates_some _ _ n); [|rewrite length_app, length_firstn, repeat_length; lia].
  split; [exact W|]. split; [exact En|]. intros p Hp. rewrite B. unfold bit_resize.
  rewrite nth_app_l, length_firstn, length_bits, nth_firstn, nth_repeat_bool, <- bits_nth by exact H.
  destruct (Nat.ltb_spec p n), (Nat.ltb_spec p (m_bits_number b)), (Nat.ltb_spec p (Nat.min n (m_bits_number b))),
    (Nat.ltb_spec (p - Nat.min n (m_bits_number b)) (n - m_bits_number b)); cbn [andb]; reflexivity || lia.
Qed.

Lemma shift_left_sim b s : wf b -> simulates (Some (shift_left w b s)) (Some (firstn (length (bits b)) (repeat false s ++ bits b))).
Proof.
  intros H. destruct (shift_left_ok w w_pos b s H) as (W & En & B). rewrite length_bits.
  apply (simulates_some _ _ (m_bits_number b)); [|rewrite length_firstn, length_app, repeat_length, length_bits; lia].
  split; [exact W|]. split; [exact En|]. intros p Hp.
  rewrite B, nth_firstn, nth_app_l, repeat_length, nth_repeat_bool, <- bits_nth, andb_false_r by exact H.
  destruct (Nat.ltb_spec p (m_bits_number b)), (Nat.leb_spec s p), (Nat.ltb_spec p s); cbn [andb]; reflexivity || lia.
Qed.

Lemma shift_right_sim b s : wf b -> simulates (Some (shift_right w b s)) (Some (skipn s (bits b) ++ repeat false (Nat.min s (length (bits b))))).
Proof.
  intros H. destruct (shift_right_ok w w_pos b s H) as (W & En & B).
  apply (simulates_some _ _ (m_bits_number b)); [|rewrite length_app, length_skipn, repeat_length, length_bits; lia].
  split; [exact W|]. split; [exact En|]. intros p Hp. rewrite B, nth_app_l, length_skipn, nth_skipn, nth_repeat_bool, length_bits, andb_false_r.
  destruct (Nat.ltb_spec p (m_bits_number b - s)); [rewrite bits_nth by exact H; f_equal; lia|]. apply H. lia.
Qed.

Lemma nth_map_bool f (l : list bool) p : (p < length l)%nat -> nth p (map f l) false = f (nth p l false).
Proof. intros H. rewrite (nth_indep _ false (f false)) by now rewrite length_map. apply map_nth. Qed.

Lemma flip_bit_sim b pos : wf b -> (pos <? size b)%nat = true -> simulates (Some (flip_bit w b pos)) (Some (on_range negb (bits b) pos 1)).
Proof.
  intros H E. apply Nat.ltb_lt in E. unfold size in E.
  destruct (flip_bit_ok w w_pos b pos H E) as (W & En & B).
  apply (simulates_some _ _ (m_bits_number b)); [|rewrite length_on_range; rewrite length_bits; lia].
  split; [exact W|]. split; [exact En|]. intros p Hp. rewrite B, nth_on_range, <- bits_nth by (exact H || rewrite length_bits; lia).
  destruct (Nat.eqb_spec p pos) as [Ep|], (Nat.leb_spec pos p), (Nat.ltb_spec p (pos + 1)); cbn [andb]; try reflexivity; try lia.
  now rewrite Ep.
Qed.

Lemma test_set_sim b pos value : wf b -> (pos <? size b)%nat = true ->
  simulates (Some (snd (test_set w b pos value))) (Some (on_range (fun _ => value) (bits b) pos 1)).
Proof.
  intros H E. unfold test_set. cbn [snd].
  destruct (eqb (test_bit w b pos) value) eqn:Et; cbn [negb]; [|now apply set_bit_sim].
  apply eqb_prop in Et. rewrite test_bit_ok in Et by exact w_pos. apply Nat.ltb_lt in E. unfold size in E.
  apply (simulates_some _ _ (m_bits_number b)); [|rewrite length_on_range; rewrite length_bits; lia].
  split; [exact H|]. split; [reflexivity|]. intros p Hp. rewrite nth_on_range, <- bits_nth by (exact H || rewrite length_bits; lia).
  destruct (Nat.leb_spec pos p), (Nat.ltb_spec p (pos + 1)); cbn [andb]; try reflexivity. now replace p with pos by lia.
Qed.

Lemma set_all_sim b : wf b -> simulates (Some (set_all w b)) (Some (repeat true (length (bits b)))).
Proof.
  intros H. destruct (set_all_ok w w_pos b H) as (W & En & B). apply (all_sim b _ (fun _ => true)); try assumption.
  + split; [exact W|]. split; [exact En|]. intros p Hp. rewrite B. now apply Nat.ltb_lt.
  + now rewrite repeat_length, length_bits.
  + intros p Hp. rewrite nth_repeat_bool, length_bits, andb_true_r. now apply Nat.ltb_lt.
Qed.

Lemma reset_all_sim b : wf b -> simulates (Some (reset_all b)) (Some (repeat false (length (bits b)))).
Proof.
  intros H. destruct (reset_all_ok w w_pos b H) as (W & En & B). apply (all_sim b _ (fun _ => false)); try assumption.
  + split; [exact W|]. split; [exact En|]. intros p Hp. apply B.
  + now rewrite repeat_length, length_bits.
  + intros p Hp. rewrite nth_repeat_bool. apply andb_false_r.
Qed.

Lemma flip_all_sim b : wf b -> simulates (Some (flip_all w b)) (Some (map negb (bits b))).
Proof.
  intros H. destruct (flip_all_ok w w_pos b H) as (W & En & B). apply (all_sim b _ (fun p => negb (bit_at b p))); try assumption.
  + split; [exact W|]. split; [exact En|]. intros p Hp. rewrite B. destruct (Nat.ltb_spec p (m_bits_number b)); [reflexivity|lia].
  + now rewrite length_map, length_bits.
  + intros p Hp. rewrite nth_map_bool by now rewrite length_bits. now rewrite <- bits_nth.
Qed.

Lemma step_sim b op : wf b -> op_ok w op -> simulates (exec w b op) (spec w (bits b) op).
Proof.
  intros H Hop. destruct op; cbn [exec spec op_ok] in *.
  - split; [apply (bitset_empty_ok w w_pos)|reflexivity].
  - now apply push_back_bits.
  - now apply pop_back_sim.
  - now apply resize_sim.
  - now apply append_block_sim.
  - now apply append_blocks_sim.
  - apply appended_sim; [exact H|exact Hop|now apply append_other_ok].
  - apply appended_sim; [exact H|exact H|now apply append_self_ok].
  - apply simulates_assert; [now rewrite length_bits|]. now apply set_bit_sim.
  - apply simulates_assert; [now rewrite length_bits|]. now apply flip_bit_sim.
  - apply simulates_assert; [now rewrite length_bits|]. now apply test_set_sim.
  - apply range_sim; [exact H| |]; intros; [now apply set_range_none|now apply set_range_ok].
  - apply range_sim; [exact H| |]; intros; [now apply flip_range_none|now apply flip_range_ok].
  - now apply set_all_sim.
  - now apply reset_all_sim.
  - now apply flip_all_sim.
  - apply zip_sim; [exact H|exact Hop|]. intros. now apply and_assign_ok.
  - apply zip_sim; [exact H|exact Hop|]. intros. now apply or_assign_ok.
  - apply zip_sim; [exact H|exact Hop|]. intros. now apply xor_assign_ok.
  - apply zip_sim; [exact H|exact Hop|]. intros. now apply sub_assign_ok.
  - now apply shift_left_sim.
  - now apply shift_right_sim.
Qed.

(** A run of the code is a run of the specification, asserts included. *)
Lemma run_sim ops : forall b, wf b -> Forall (op_ok w) ops -> simulates (run (exec w) b ops) (run (spec w) (bits b) ops).
Proof.
  induction ops as [|op ops IH]; intros b H F; cbn [run]; [split; auto|].
  apply Forall_cons_iff in F as [Hop F]. pose proof (step_sim b op H Hop) as S1. unfold simulates in S1 at 1.
  destruct (exec w b op) as [b'|], (spec w (bits b) op) as [l|]; try contradiction; [|exact I].
  destruct S1 as [H' <-]. now apply IH.
Qed.
End Simulation.
