(* ===== verification/PortableOt.v ===== *)
(** The batched base OT of [portable_ot_interface.cc] over the simplest OT: the
    messages exchanged, the loops over the batch, the exceptions, and the
    random oracle of [ro.h] that turns a key and an index into a block. *)
From Stdlib Require Import ZArith Lia List Bool.
From S2P Require Import Prelude.
From S2P Require Import AbGroup.
From S2P Require Import Edwards.
From S2P Require Import Ge.
From S2P Require Import GeBytes.
From S2P Require Import BaseTable.
From S2P Require Import ScalarMult.
From S2P Require Import SimplestOt.
Import ListNotations.

Definition PACKBYTES : nat := 32.
Definition kBlockBytes : nat := 16.

Section Interface.
(** The hash function behind [Blake3(x)], a third-party library. *)
Context (Blake3 : list Z -> list Z).

(** [RandomOracle::Gen<uint128_t>(x, y)]: the first 16 bytes of the hash of [x]
    followed by the 8 bytes of [y]. *)
Definition Gen_uint128 (x : list Z) (y : Z) : Z :=
  let buf := x ++ to_le 8 y in
  le_val (firstn kBlockBytes (Blake3 buf)).

(** [ByteContainerView buf(&messages[j][0], sizeof(uint128_t)); RO.Gen<uint128_t>(buf, i + j)] *)
Definition block_of (key : list Z) (i : nat) : Z := Gen_uint128 (firstn kBlockBytes key) (Z.of_nat i).

(** *** The receiver *)

(** [for (int i = 0; i < kNumOt; i++)] of [Recv], from turn [i]; [rnds i] is the
    randomness turn [i] draws.  The two results are [send_msgs] and [recv_blocks]. *)
Fixpoint recv_loop (rnds : nat -> list Z) (i : nat) (choices : list bool) (r : SIMPLEOT_RECEIVER)
    : list (list Z) * list Z :=
  match choices with
  | [] => ([], [])
  | c :: choices =>
      let batch_choice := if c then 1 else 0 in
      let '(r, rs_pack) := portable_receiver_rsgen (rnds i) r batch_choice in
      let '(r, message) := portable_receiver_keygen r in
      let block := block_of message i in
      let '(send_msgs, recv_blocks) := recv_loop rnds (S i) choices r in
      (rs_pack :: send_msgs, block :: recv_blocks)
  end.

(** [Recv]: from the S_PACK message to the RS_PACK message and the blocks; an
    exception is [None].  [r0] and [u] are the uninitialised locals. *)
Definition Recv (r0 : SIMPLEOT_RECEIVER) (u : ge_p3) (rnds : nat -> list Z) (buffer : list Z) (choices : list bool)
    : option (list Z * list Z) :=
  if negb (length buffer =? PACKBYTES)%nat then None
  else
    let receiver := Receiver buffer (r_S r0) (r_xB r0) (r_x r0) in
    let '(ok, receiver) := portable_receiver_procS_check u receiver in
    if negb ok then None
    else
      let '(send_msgs, recv_blocks) := recv_loop rnds 0 choices receiver in
      Some (concat send_msgs, recv_blocks).

(** *** The sender *)

(** [Send] up to its first message. *)
Definition Send_first (rnd : list Z) : SIMPLEOT_SENDER * list Z := portable_sender_genS rnd.

(** Its loop, from turn [i], [n] turns left; [buffer] starts at [i * PACKBYTES]. *)
Fixpoint send_loop (u : ge_p3) (sender : SIMPLEOT_SENDER) (n i : nat) (buffer : list Z) : option (list (Z * Z)) :=
  match n with
  | O => Some []
  | S n =>
      let rs_pack := firstn PACKBYTES buffer in
      let '(ok, (_, (key0, key1))) := portable_sender_keygen_check u sender rs_pack ([], []) in
      if negb ok then None
      else
        let blocks := (block_of key0 i, block_of key1 i) in
        match send_loop u sender n (S i) (skipn PACKBYTES buffer) with
        | None => None
        | Some rest => Some (blocks :: rest)
        end
  end.

(** [Send] from the RS_PACK message on. *)
Definition Send_rest (u : ge_p3) (sender : SIMPLEOT_SENDER) (kNumOt : nat) (buffer : list Z) : option (list (Z * Z)) :=
  if negb (length buffer =? kNumOt * PACKBYTES)%nat then None
  else send_loop u sender kNumOt 0 buffer.

(** ** The loops against the protocol *)

Section Loops.
(** The points R the receiver sends for the sender's point [Sp]. *)
Definition choice_of (Sp : point) (rnds : nat -> list Z) (i : nat) (c : bool) : point :=
  spec_R B (le_val (sc_random (rnds i) 1)) c Sp.

Lemma recv_loop_ok Sp rnds choices : (forall i, bytes 32 (rnds i)) -> forall i r, receiver_rep r Sp ->
  recv_loop rnds i choices r =
  (map (fun '(j, c) => encode (choice_of Sp rnds j c)) (combine (seq i (length choices)) choices),
   map (fun '(j, c) => block_of (spec_receiver B hash_points (le_val (sc_random (rnds j) 1)) c Sp) j)
       (combine (seq i (length choices)) choices)).
Proof using Type.
  intros Hr. induction choices as [|c choices IH]; intros i r R; cbn [recv_loop length seq combine map]; [reflexivity|].
  pose proof (rsgen_ok (rnds i) r Sp c (Hr i) R) as G.
  destruct (portable_receiver_rsgen (rnds i) r (if c then 1 else 0)) as [r1 pk]. destruct G as [G ->].
  pose proof (receiver_keygen_ok _ _ _ _ G) as K.
  assert (R2 : receiver_rep (fst (portable_receiver_keygen r1)) Sp) by (destruct G as [R1 _]; exact R1).
  destruct (portable_receiver_keygen r1) as [r2 key]. cbn [fst snd] in *. rewrite K, (IH (S i) r2 R2).
  reflexivity.
Qed.

Context (y : Z).

Lemma send_loop_ok u s Rs : sender_rep s y -> forall i,
  send_loop u s (length Rs) i (concat (map encode Rs)) =
  Some (map (fun '(j, R) => let '(k0, k1) := spec_sender B hash_points y R in (block_of k0 j, block_of k1 j))
         (combine (seq i (length Rs)) Rs)).
Proof using Type.
  intros HS. induction Rs as [|R Rs IH]; intros i; cbn [length send_loop seq combine map concat]; [reflexivity|].
  pose proof (encode_bytes R) as HB.
  assert (L : length (encode R) = PACKBYTES) by apply HB.
  rewrite firstn_app, skipn_app, L, Nat.sub_diag, firstn_O, skipn_O, app_nil_r.
  rewrite firstn_all2, skipn_all2 by (rewrite L; apply le_n). cbn [app].
  destruct (sender_keygen_ok u s y (encode R) ([], []) HS HB) as [(R' & D & E) | [N _]];
    [|destruct (encode_decodable R N)].
  apply encode_decodes in D. subst R'. rewrite E, IH. unfold spec_sender. reflexivity.
Qed.
(** The loop on any buffer: it answers every string that denotes a point, and
    raises the exception at the first one that does not. *)
Definition chunk (k : nat) (buffer : list Z) : list Z := firstn PACKBYTES (skipn (k * PACKBYTES) buffer).

Definition blocks_of (i : nat) (Rs : list point) : list (Z * Z) :=
  map (fun '(j, R) => let '(k0, k1) := spec_sender B hash_points y R in (block_of k0 j, block_of k1 j))
    (combine (seq i (length Rs)) Rs).

Lemma chunk_S k buffer : chunk (S k) buffer = chunk k (skipn PACKBYTES buffer).
Proof using Type. unfold chunk. rewrite skipn_skipn. do 2 f_equal. lia. Qed.

Lemma bytes_firstn n l : Forall byte l -> (n <= length l)%nat -> bytes n (firstn n l).
Proof using Type.
  intros H L. split; [rewrite length_firstn; lia|].
  rewrite <- (firstn_skipn n l) in H. now apply Forall_app in H.
Qed.

Lemma send_loop_any u s n : sender_rep s y -> forall i buffer,
  Forall byte buffer -> length buffer = (n * PACKBYTES)%nat ->
  (exists Rs, length Rs = n /\ (forall k, (k < n)%nat -> decodes (chunk k buffer) (nth k Rs pzero)) /\
     send_loop u s n i buffer = Some (blocks_of i Rs)) \/
  (exists k, (k < n)%nat /\ undecodable (chunk k buffer) /\ send_loop u s n i buffer = None).
Proof using Type.
  intros HS. induction n as [|n IH]; intros i buffer Hb L.
  { left. exists []. refine (conj eq_refl (conj _ eq_refl)). intros k Hk. inversion Hk. }
  assert (Hc : bytes 32 (firstn PACKBYTES buffer)) by (apply bytes_firstn; [exact Hb|unfold PACKBYTES in *; lia]).
  destruct (IH (S i) (skipn PACKBYTES buffer)) as [(Rs & LR & D & E) | (k & Hk & N & E)].
  { rewrite <- (firstn_skipn PACKBYTES buffer) in Hb. now apply Forall_app in Hb. }
  { rewrite length_skipn, L. unfold PACKBYTES. lia. }
  all: destruct (sender_keygen_ok u s y _ ([], []) HS Hc) as [(R & DR & ER) | [NR ER]].
  all: cbn [send_loop]; rewrite ER; try rewrite E.
  - left. exists (R :: Rs). split; [cbn; lia|]. split; [|unfold blocks_of, spec_sender; reflexivity].
    intros [|k] Hk; [exact DR|]. rewrite chunk_S. apply D. lia.
  - right. exists O. split; [lia|]. split; [exact NR|reflexivity].
  - right. exists (S k). split; [lia|]. rewrite chunk_S. split; [exact N|]. unfold spec_sender. reflexivity.
  - right. exists O. split; [lia|]. split; [exact NR|reflexivity].
Qed.
End Loops.

Lemma map_combine_length {A C} (f : nat * A -> C) i l : length (map f (combine (seq i (length l)) l)) = length l.
Proof using Type. rewrite length_map, length_combine, length_seq. lia. Qed.

(** The run of the two parties over a lossless channel. *)
Definition transfer (rnd : list Z) (rnds : nat -> list Z) (r0 : SIMPLEOT_RECEIVER) (u u' : ge_p3) (choices : list bool)
    : option (list (Z * Z) * list Z) :=
  let '(sender, s_pack) := Send_first rnd in
  match Recv r0 u rnds s_pack choices with
  | None => None
  | Some (rs_pack, recv_blocks) =>
      match Send_rest u' sender (length choices) rs_pack with
      | None => None
      | Some send_blocks => Some (send_blocks, recv_blocks)
      end
  end.

Lemma transfer_ok rnd rnds r0 u u' choices :
  bytes 32 rnd -> (forall i, bytes 32 (rnds i)) ->
  let y := le_val (sc_random rnd 0) in
  let R := fun '(j, c) => choice_of (spec_S B y) rnds j c in
  transfer rnd rnds r0 u u' choices =
  Some (map (fun '(j, c) => let '(k0, k1) := spec_sender B hash_points y (R (j, c)) in (block_of k0 j, block_of k1 j))
            (combine (seq 0 (length choices)) choices),
        map (fun '(j, c) => block_of (spec_receiver B hash_points (le_val (sc_random (rnds j) 1)) c (spec_S B y)) j)
            (combine (seq 0 (length choices)) choices)).
Proof using Type.
  intros Hrnd Hrnds y R. unfold transfer, Send_first.
  pose proof (genS_ok rnd Hrnd) as G. destruct (portable_sender_genS rnd) as [sender s_pack].
  destruct G as [HS ->]. fold y in HS |- *. unfold Recv.
  rewrite (proj1 (encode_bytes _)). cbn [negb Nat.eqb PACKBYTES].
  set (rcv := Receiver _ _ _ _).
  destruct (procS_check_ok u rcv) as [(S' & r' & D & E & HR) | [N _]];
    [apply encode_bytes| |destruct (encode_decodable _ N)].
  apply encode_decodes in D. subst S'. rewrite E. cbn [negb].
  rewrite (recv_loop_ok (spec_S B y) rnds choices Hrnds 0 r' HR).
  set (cs := combine (seq 0 (length choices)) choices).
  assert (Lc : length cs = length choices) by (unfold cs; rewrite length_combine, length_seq; lia).
  replace (map (fun '(j, c) => encode (choice_of (spec_S B y) rnds j c)) cs) with (map encode (map R cs))
    by (rewrite map_map; apply map_ext; intros [j c]; reflexivity).
  unfold Send_rest.
  assert (LR : length (map R cs) = length choices) by now rewrite length_map.
  assert (Lb : length (concat (map encode (map R cs))) = (length choices * PACKBYTES)%nat).
  { rewrite <- LR. clear. induction (map R cs) as [|P l IH]; [reflexivity|].
    cbn [map concat length]. rewrite length_app, IH, (proj1 (encode_bytes P)). unfold PACKBYTES. lia. }
  rewrite Lb, Nat.eqb_refl. cbn [negb]. rewrite <- LR.
  rewrite (send_loop_ok y u' sender (map R cs) HS 0). do 2 f_equal.
  rewrite LR. clear. unfold cs. generalize 0%nat. induction choices as [|c l IH]; intros i; [reflexivity|].
  cbn [length seq combine map]. now rewrite IH.
Qed.
End Interface.
