(* ===== verification/Cipher.v ===== *)
(** Block ciphers and filling buffers from them ([block_cipher/block_cipher],
    [FillPRand] and its wrappers of [theoretical_tools/prg]).  The cipher of
    OpenSSL is a parameter: what it makes of a whole message of bytes with a
    fresh context. *)
From Stdlib Require Import ZArith Lia List Bool.
From S2P Require Import Prelude.
From S2P Require Import Errors.
From S2P Require Import Int128.
Import ListNotations.

Inductive BlockCipherTy := AES128_ECB | AES128_CBC | AES128_CTR | SM4_ECB | SM4_CBC | SM4_CTR.
Definition is_ctr (t : BlockCipherTy) : bool := match t with AES128_CTR | SM4_CTR => true | _ => false end.
Definition is_ecb (t : BlockCipherTy) : bool := match t with AES128_ECB | SM4_ECB => true | _ => false end.

(** Type, key, initial vector, plaintext bytes. *)
Class Cipher := cipher : BlockCipherTy -> Z -> Z -> list Z -> list Z.

(** As OpenSSL documents it: without padding the output is as long as the input,
    and in ECB mode every 16 bytes are encrypted by themselves. *)
Class CipherLaws (C : Cipher) : Prop := {
  cipher_length : forall t k iv l, length (cipher t k iv l) = length l;
  cipher_bytes : forall t k iv l, Forall byte l -> Forall byte (cipher t k iv l);
  cipher_ecb : forall t k iv a b, is_ecb t = true -> length a = 16%nat -> cipher t k iv (a ++ b) = cipher t k iv a ++ cipher t k iv b
}.

(** [uint128_t] blocks as bytes in memory, and back. *)
Definition to_bytes (l : list Z) : list Z := flat_map (to_le 16) l.
Fixpoint to_blocks (n : nat) (l : list Z) : list Z :=
  match n with O => [] | S n => le_val (firstn 16 l) :: to_blocks n (skipn 16 l) end.

Section Code.
Context {C : Cipher}.

Definition BlockSize : nat := 16.

(** [BlockCipher(type, key, iv).Encrypt], on bytes, one block, and blocks. *)
Definition Encrypt (t : BlockCipherTy) (key iv : Z) (plaintext : list Z) (ciphertext_size : nat) : option (list Z) :=
  YACL_ENFORCE (is_ctr t || (ciphertext_size mod BlockSize =? 0)%nat)
    (YACL_ENFORCE (length plaintext =? ciphertext_size)%nat (Some (cipher t key iv plaintext))).
Definition Encrypt_blocks (t : BlockCipherTy) (key iv : Z) (plaintext : list Z) : option (list Z) :=
  let? c := Encrypt t key iv (to_bytes plaintext) (16 * length plaintext) in
  Some (to_blocks (length plaintext) c).
Definition Encrypt_block (t : BlockCipherTy) (key iv : Z) (input : Z) : option Z :=
  let? c := Encrypt t key iv (to_le 16 input) 16 in
  Some (le_val c).

Definition EcbMakeContentBlocks (count : Z) (n : nat) : list Z := map (fun i => u128 (count + Z.of_nat i)) (seq 0 n).
Definition DummyUpdateRandomCount (count : Z) (buffer_size : nat) : Z :=
  u64 (count + Z.of_nat ((buffer_size + BlockSize - 1) / BlockSize)).

(** *** Filling a buffer of [len] bytes *)

Definition FillPRand (type : BlockCipherTy) (seed iv count : Z) (len : nat) : option (Z * list Z) :=
  let nblock := ((len + BlockSize - 1) / BlockSize)%nat in
  let padding_bytes := (len mod BlockSize)%nat in
  let? buf :=
    if is_ctr type then Encrypt type seed count (repeat 0 len) len
    else if (padding_bytes =? 0)%nat then
      let? s := Encrypt_blocks type seed iv (EcbMakeContentBlocks count nblock) in Some (to_bytes s)
    else if is_ecb type then
      let? s := if (1 <? nblock)%nat then Encrypt_blocks type seed iv (EcbMakeContentBlocks count (nblock - 1)) else Some [] in
      let padding := u64 (u64 (count + Z.of_nat nblock) - 1) in
      let? padding := Encrypt_block type seed iv padding in
      Some (to_bytes s ++ firstn padding_bytes (to_le 16 padding))
    else
      let? s := Encrypt_blocks type seed iv (EcbMakeContentBlocks count nblock) in
      Some (firstn len (to_bytes s)) in
  Some (u64 (count + Z.of_nat nblock), buf).

(** [PrgAesCtr] and [PrgAesCbc] for vectors of [num] elements of [w] bytes. *)
Fixpoint to_words (w n : nat) (l : list Z) : list Z :=
  match n with O => [] | S n => le_val (firstn w l) :: to_words w n (skipn w l) end.
Definition PrgAesCtr (w : nat) (seed : Z) (num : nat) : option (list Z) :=
  let? (_, buf) := FillPRand AES128_CTR seed 0 0 (num * w) in Some (to_words w num buf).
Definition PrgAesCbc (w : nat) (seed : Z) (num : nat) : option (list Z) :=
  let? (_, buf) := FillPRand AES128_CBC seed 0 0 (num * w) in Some (to_words w num buf).

End Code.

(** ** Filling in ECB mode *)

Section Laws.
Context {C : Cipher} {L : CipherLaws C}.

(** One block under the block cipher. *)
Definition ecb (t : BlockCipherTy) (seed iv x : Z) : Z := le_val (cipher t seed iv (to_le 16 x)).

Lemma length_to_le n v : length (to_le n v) = n.
Proof. apply (bytes_to_le n v). Qed.

Lemma length_to_bytes l : length (to_bytes l) = (16 * length l)%nat.
Proof. induction l as [|x l IH]; [reflexivity|]. cbn [to_bytes flat_map]. rewrite length_app, length_to_le. fold (to_bytes l). cbn [length]. lia. Qed.

Lemma length_to_blocks n l : length (to_blocks n l) = n.
Proof. revert l; induction n as [|n IH]; intros l; [reflexivity|]. cbn. now rewrite IH. Qed.

Lemma le_val_block l : length l = 16%nat -> Forall byte l -> in128 (le_val l).
Proof. intros E F. pose proof (le_val_bound l F) as B. rewrite E in B. exact B. Qed.

Lemma to_blocks_app a l n : length a = 16%nat -> to_blocks (S n) (a ++ l) = le_val a :: to_blocks n l.
Proof.
  intros E. cbn [to_blocks]. f_equal.
  - f_equal. rewrite <- E. apply firstn_app_l || (rewrite firstn_app, firstn_all, Nat.sub_diag, app_nil_r; reflexivity).
  - f_equal. rewrite <- E, skipn_app, skipn_all, Nat.sub_diag. reflexivity.
Qed.

Lemma ecb_in t seed iv x : in128 (ecb t seed iv x).
Proof.
  apply le_val_block; [rewrite cipher_length; apply length_to_le|]. apply cipher_bytes. apply (bytes_to_le 16 x).
Qed.

Lemma cipher_nil t seed iv : cipher t seed iv [] = [].
Proof. pose proof (cipher_length t seed iv []) as E. now destruct (cipher t seed iv []). Qed.

Lemma cipher_block t seed iv x : length (cipher t seed iv (to_le 16 x)) = 16%nat /\ cipher t seed iv (to_le 16 x) = to_le 16 (ecb t seed iv x).
Proof.
  assert (Lc : length (cipher t seed iv (to_le 16 x)) = 16%nat) by (rewrite cipher_length; apply length_to_le).
  split; [exact Lc|]. unfold ecb. rewrite <- Lc at 2. symmetry. apply to_le_le_val. apply cipher_bytes, (bytes_to_le 16 x).
Qed.

Lemma cipher_blocks t seed iv l : is_ecb t = true -> cipher t seed iv (to_bytes l) = to_bytes (map (ecb t seed iv) l).
Proof.
  intros Ht. induction l as [|x l IH]; [apply cipher_nil|]. destruct (cipher_block t seed iv x) as [Lc Ec].
  cbn [to_bytes flat_map map]. fold (to_bytes l) (to_bytes (map (ecb t seed iv) l)).
  rewrite cipher_ecb, IH by (exact Ht || apply length_to_le). now rewrite Ec.
Qed.

Lemma to_blocks_bytes l : Forall in128 l -> to_blocks (length l) (to_bytes l) = l.
Proof.
  intros F. induction F as [|x l Hx F IH]; [reflexivity|]. cbn [to_bytes flat_map length]. fold (to_bytes l).
  rewrite to_blocks_app, IH, le_val_to_le by apply length_to_le. f_equal. now apply Z.mod_small.
Qed.

Lemma ecb_blocks_in t seed iv l : Forall in128 (map (ecb t seed iv) l).
Proof. apply Forall_forall. intros y Hy. apply in_map_iff in Hy as (x & <- & _). apply ecb_in. Qed.

Lemma Encrypt_blocks_ok t seed iv l : is_ecb t = true -> Encrypt_blocks t seed iv l = Some (map (ecb t seed iv) l).
Proof.
  intros Ht. unfold Encrypt_blocks, Encrypt, YACL_ENFORCE, BlockSize. replace (16 * length l)%nat with (length l * 16)%nat by lia.
  rewrite Nat.Div0.mod_mul, orb_true_r, length_to_bytes, (Nat.mul_comm 16), Nat.eqb_refl, cipher_blocks by exact Ht.
  f_equal. rewrite <- (length_map (ecb t seed iv) l) at 1. apply to_blocks_bytes, ecb_blocks_in.
Qed.

Lemma Encrypt_block_ok t seed iv x : Encrypt_block t seed iv x = Some (ecb t seed iv x).
Proof. unfold Encrypt_block, Encrypt, YACL_ENFORCE, BlockSize. rewrite length_to_le. cbn [Nat.modulo Nat.divmod fst Nat.eqb]. now rewrite orb_true_r. Qed.

Lemma iota_map count n (f : Z -> Z) : 0 <= count -> count + Z.of_nat n <= 2 ^ 64 -> 
  map f (EcbMakeContentBlocks count n) = map (fun i => f (count + Z.of_nat i)) (seq 0 n).
Proof.
  intros Hc Hn. unfold EcbMakeContentBlocks. rewrite map_map. apply map_ext_in. intros i Hi. apply in_seq in Hi. f_equal.
  unfold u128, uwrap. apply Z.mod_small. lia.
Qed.

(** [len] bytes of the encrypted counters, whether or not they end on a block. *)
Lemma FillPRand_ecb t seed iv count len : is_ecb t = true -> 0 <= count ->
  let nblock := ((len + 15) / 16)%nat in count + Z.of_nat nblock < 2 ^ 64 ->
  FillPRand t seed iv count len
    = Some (count + Z.of_nat nblock, firstn len (to_bytes (map (fun i => ecb t seed iv (count + Z.of_nat i)) (seq 0 nblock)))).
Proof.
  intros Ht Hc nblock Hn. assert (Hr : is_ctr t = false) by (destruct t; discriminate || reflexivity).
  unfold FillPRand, BlockSize. replace (len + 16 - 1)%nat with (len + 15)%nat by lia. fold nblock. rewrite Hr, Ht. cbv zeta.
  pose proof (Nat.div_mod (len + 15) 16 ltac:(lia)) as D. pose proof (Nat.mod_upper_bound (len + 15) 16 ltac:(lia)) as M. fold nblock in D.
  pose proof (Nat.div_mod len 16 ltac:(lia)) as D'. pose proof (Nat.mod_upper_bound len 16 ltac:(lia)) as M'.
  assert (Eu : u64 (count + Z.of_nat nblock) = count + Z.of_nat nblock) by (apply Z.mod_small; lia). rewrite Eu.
  destruct (Nat.eqb_spec (len mod 16) 0) as [E|E].
  - rewrite Encrypt_blocks_ok by exact Ht. rewrite iota_map by lia. do 2 f_equal. rewrite firstn_all2; [reflexivity|].
    rewrite length_to_bytes, length_map, length_seq. lia.
  - assert (Es : nblock = S (nblock - 1)) by lia.
    assert (Ef : (if (1 <? nblock)%nat then Encrypt_blocks t seed iv (EcbMakeContentBlocks count (nblock - 1)) else Some [])
                 = Some (map (fun i => ecb t seed iv (count + Z.of_nat i)) (seq 0 (nblock - 1)))).
    { destruct (Nat.ltb_spec 1 nblock).
      - rewrite Encrypt_blocks_ok by exact Ht. now rewrite iota_map by lia.
      - replace (nblock - 1)%nat with 0%nat by lia. reflexivity. }
    rewrite Ef. replace (u64 (count + Z.of_nat nblock - 1)) with (count + Z.of_nat (nblock - 1)) by (unfold u64, uwrap; rewrite Z.mod_small by lia; lia).
    rewrite Encrypt_block_ok. assert (Sq : seq 0 nblock = seq 0 (nblock - 1) ++ [(nblock - 1)%nat]) by (rewrite Es at 1; apply seq_S).
    do 2 f_equal. rewrite Sq, map_app. cbn [map].
    unfold to_bytes at 2. rewrite flat_map_app. fold (to_bytes (map (fun i => ecb t seed iv (count + Z.of_nat i)) (seq 0 (nblock - 1)))).
    cbn [flat_map]. rewrite app_nil_r, firstn_app, length_to_bytes, length_map, length_seq.
    rewrite (firstn_all2 (to_bytes _)) by (rewrite length_to_bytes, length_map, length_seq; lia). f_equal. f_equal. lia.
Qed.
End Laws.

(** ** Any mode *)

Section Fill.
Context {C : Cipher} {L : CipherLaws C}.

Definition is_bytes (n : nat) (l : list Z) : Prop := length l = n /\ Forall byte l.

Lemma to_bytes_is l : is_bytes (16 * length l) (to_bytes l).
Proof. split; [apply length_to_bytes|]. apply Forall_flat_map, Forall_forall. intros x _. apply (bytes_to_le 16 x). Qed.

Lemma cipher_is t seed iv n l : is_bytes n l -> is_bytes n (cipher t seed iv l).
Proof. intros [E F]. split; [now rewrite cipher_length|now apply cipher_bytes]. Qed.

Lemma firstn_is n m l : is_bytes m l -> (n <= m)%nat -> is_bytes n (firstn n l).
Proof. intros [E F] H. split; [rewrite length_firstn; lia|now apply Forall_firstn]. Qed.

Lemma app_is n m a b : is_bytes n a -> is_bytes m b -> is_bytes (n + m) (a ++ b).
Proof. intros [Ea Fa] [Eb Fb]. split; [rewrite length_app; lia|now apply Forall_app]. Qed.

Lemma Encrypt_blocks_some t seed iv l : exists c, Encrypt_blocks t seed iv l = Some c /\ length c = length l.
Proof.
  unfold Encrypt_blocks, Encrypt, YACL_ENFORCE, BlockSize. rewrite (Nat.mul_comm 16 (length l)).
  rewrite Nat.Div0.mod_mul, orb_true_r, length_to_bytes, (Nat.mul_comm 16), Nat.eqb_refl.
  eexists. split; [reflexivity|apply length_to_blocks].
Qed.

(** Filling succeeds in every mode, with bytes. *)
Lemma FillPRand_some t seed iv count len : exists buf,
  FillPRand t seed iv count len = Some (u64 (count + Z.of_nat ((len + 15) / 16)), buf) /\ is_bytes len buf.
Proof.
  unfold FillPRand, BlockSize. replace (len + 16 - 1)%nat with (len + 15)%nat by lia. cbv zeta. set (nb := ((len + 15) / 16)%nat).
  pose proof (Nat.div_mod (len + 15) 16 ltac:(lia)) as D. pose proof (Nat.mod_upper_bound (len + 15) 16 ltac:(lia)) as M. fold nb in D.
  pose proof (Nat.div_mod len 16 ltac:(lia)) as D'. pose proof (Nat.mod_upper_bound len 16 ltac:(lia)) as M'.
  destruct (is_ctr t) eqn:Ec.
  - unfold Encrypt, YACL_ENFORCE. rewrite Ec, repeat_length, Nat.eqb_refl. cbn [orb].
    eexists. split; [reflexivity|]. apply cipher_is. split; [apply repeat_length|]. apply Forall_forall. intros x Hx. apply repeat_spec in Hx as ->. easy.
  - assert (Lb : forall n, length (EcbMakeContentBlocks count n) = n) by (intros n; unfold EcbMakeContentBlocks; now rewrite length_map, length_seq).
    destruct (Nat.eqb_spec (len mod 16) 0) as [E|E].
    + destruct (Encrypt_blocks_some t seed iv (EcbMakeContentBlocks count nb)) as (c & -> & Lc). rewrite Lb in Lc.
      eexists. split; [reflexivity|]. pose proof (to_bytes_is c) as H. rewrite Lc in H. replace len with (16 * nb)%nat at 1 by lia. exact H.
    + destruct (is_ecb t) eqn:Ee.
      * assert (Ef : exists s, (if (1 <? nb)%nat then Encrypt_blocks t seed iv (EcbMakeContentBlocks count (nb - 1)) else Some []) = Some s /\ length s = (nb - 1)%nat).
        { destruct (Nat.ltb_spec 1 nb).
          - destruct (Encrypt_blocks_some t seed iv (EcbMakeContentBlocks count (nb - 1))) as (c & -> & Lc). exists c. now rewrite Lc, Lb.
          - exists []. split; [reflexivity|]. cbn [length]. lia. }
        destruct Ef as (s & -> & Ls). rewrite Encrypt_block_ok. eexists. split; [reflexivity|].
        replace len with (16 * (nb - 1) + len mod 16)%nat at 1 by lia. apply app_is; [rewrite <- Ls; apply to_bytes_is|].
        apply (firstn_is _ 16); [split; apply bytes_to_le|lia].
      * destruct (Encrypt_blocks_some t seed iv (EcbMakeContentBlocks count nb)) as (c & -> & Lc). rewrite Lb in Lc.
        eexists. split; [reflexivity|]. apply (firstn_is _ (16 * nb)); [rewrite <- Lc; apply to_bytes_is|lia].
Qed.

Lemma length_to_words w n l : length (to_words w n l) = n.
Proof. revert l; induction n as [|n IH]; intros l; [reflexivity|]. cbn. now rewrite IH. Qed.

Lemma to_words_in w n l : is_bytes (n * w) l -> Forall (fun x => 0 <= x < 256 ^ Z.of_nat w) (to_words w n l).
Proof.
  revert l; induction n as [|n IH]; intros l H; [constructor|]. cbn [Nat.mul] in H. cbn [to_words]. constructor.
  - destruct (firstn_is w _ l H ltac:(lia)) as [E F]. pose proof (le_val_bound _ F) as B. now rewrite E in B.
  - apply IH. destruct H as [E F]. split; [rewrite length_skipn; lia|now apply Forall_skipn].
Qed.

Lemma PrgAesCtr_some w seed num : exists l, PrgAesCtr w seed num = Some l /\ length l = num /\ Forall (fun x => 0 <= x < 256 ^ Z.of_nat w) l.
Proof.
  unfold PrgAesCtr. destruct (FillPRand_some AES128_CTR seed 0 0 (num * w)) as (buf & -> & H).
  eexists. split; [reflexivity|]. split; [apply length_to_words|now apply to_words_in].
Qed.
End Fill.

(** ** A cipher that satisfies the laws: adds the low byte of the key to every byte *)

Definition toy_cipher : Cipher := fun _ key _ l => map (fun b => (b + key) mod 256) l.
Lemma toy_laws : CipherLaws toy_cipher.
Proof.
  constructor.
  - intros. apply length_map.
  - intros t k iv l _. apply Forall_forall. intros y Hy. apply in_map_iff in Hy as (b & <- & _). apply Z.mod_pos_bound. reflexivity.
  - intros t k iv a b _ _. apply map_app.
Qed.
