(* ===== verification/Mersenne.v ===== *)
(** Sampling below Mersenne primes ([theoretical_tools/prg]): the folding
    reduction, its rounds, and the values it gives. *)
From Stdlib Require Import ZArith Lia List Bool.
From S2P Require Import Prelude.
From S2P Require Import Errors.
From S2P Require Import Int128.
From S2P Require Import Cipher.
Import ListNotations.

Section Code.
Context {C : Cipher}.

Definition prg_secparam_s : nat := 40.
Definition GetMersennePrimeBitWidth (w : nat) : Z :=
  match w with 16%nat => 127 | 8%nat => 61 | 4%nat => 31 | _ => 7 end.
Definition GetMersennePrimeMask (w : nat) : Z :=
  match w with
  | 16%nat => MakeUint128 ((2 ^ 64 - 1) [>>] 1) (2 ^ 64 - 1)
  | 8%nat => (2 ^ 64 - 1) [>>] 3
  | 4%nat => (2 ^ 32 - 1) [>>] 1
  | _ => (2 ^ 8 - 1) [>>] 1
  end.

(** The folding loop of the narrow containers; [None] when the fuel runs out. *)
Fixpoint mersenne_fold (fuel : nat) (k_mask width all_rand : Z) : option Z :=
  match fuel with
  | O => None
  | S fuel =>
      let i := Z.land all_rand k_mask + (all_rand [>>] width) in
      let all_rand := if k_mask <=? i then i - k_mask else i in
      if k_mask <=? all_rand then mersenne_fold fuel k_mask width all_rand else Some all_rand
  end.
Definition MersennePrimeMod (fuel w : nat) (buf : list Z) : option Z :=
  let s_len := ((prg_secparam_s + 7) / 8)%nat in
  YACL_ENFORCE (length buf =? w + s_len)%nat
    (let k_mask := GetMersennePrimeMask w in
     if (w =? 16)%nat || (w =? 8)%nat then
       let rand := le_val (firstn w buf) in
       let aux_rand := le_val (firstn s_len (skipn w buf)) in
       let i := uwrap (8 * Z.of_nat w) (Z.land rand k_mask + aux_rand) in
       Some (if k_mask <? i then i - k_mask else i)
     else
       YACL_ENFORCE (length buf <=? 16)%nat
         (let? r := mersenne_fold fuel k_mask (GetMersennePrimeBitWidth w) (le_val buf) in
          Some (uwrap (8 * Z.of_nat w) r))).

Fixpoint chunks (n size : nat) (l : list Z) : list (list Z) :=
  match n with O => [] | S n => firstn size l :: chunks n size (skipn size l) end.
Definition FillPRandWithMersennePrime (fuel w : nat) (type : BlockCipherTy) (seed iv count : Z) (num : nat) : option (Z * list Z) :=
  if (w =? 16)%nat || (w =? 8)%nat then
    let? (ret, buf) := FillPRand type seed iv count (num * w) in
    let k_mask := GetMersennePrimeMask w in
    Some (ret, map (fun e => if Z.land e k_mask =? k_mask then 0 else Z.land e k_mask) (to_words w num buf))
  else
    let required_size := (w + (prg_secparam_s + 7) / 8)%nat in
    let? (ret, rand_bytes) := FillPRand type seed iv count (num * required_size) in
    let? out := mapM (MersennePrimeMod fuel w) (chunks num required_size rand_bytes) in
    Some (ret, out).
End Code.

(** ** Mersenne primes *)

Lemma mersenne_step w x : 0 < w -> 0 <= x -> let m := 2 ^ w - 1 in
  let i := Z.land x m + (x [>>] w) in
  i = x mod 2 ^ w + x / 2 ^ w /\ (exists k, x = i + k * m) /\ 0 <= i.
Proof.
  intros Hw Hx m i. assert (P : 0 < 2 ^ w) by (apply Z.pow_pos_nonneg; lia).
  assert (E : i = x mod 2 ^ w + x / 2 ^ w).
  { unfold i, m. rewrite Z.shiftr_div_pow2 by lia. f_equal. change (2 ^ w - 1) with (Z.pred (2 ^ w)) || replace (2 ^ w - 1) with (Z.ones w) by (rewrite Z.ones_equiv; lia).
    replace (Z.pred (2 ^ w)) with (Z.ones w) by (rewrite Z.ones_equiv; lia). now apply Z.land_ones; lia. }
  split; [exact E|]. pose proof (Z.div_mod x (2 ^ w) ltac:(lia)) as D. pose proof (Z.mod_pos_bound x (2 ^ w) P) as B.
  assert (0 <= x / 2 ^ w) by (apply Z.div_pos; lia). split; [|lia]. exists (x / 2 ^ w). unfold m. nia.
Qed.

(** [k + 1] rounds are enough for [2w - 1 + k (w - 1)] bits. *)
Lemma mersenne_fold_ok w k : 2 <= w -> forall x fuel, 0 <= x < 2 ^ (2 * w - 1 + Z.of_nat k * (w - 1)) -> (k < fuel)%nat ->
  mersenne_fold fuel (2 ^ w - 1) w x = Some (x mod (2 ^ w - 1)).
Proof.
  intros Hw. set (m := 2 ^ w - 1). assert (Em : 2 ^ w = 2 * 2 ^ (w - 1)) by (rewrite <- Z.pow_succ_r by lia; f_equal; lia).
  assert (P : 2 <= 2 ^ (w - 1)) by (change 2 with (2 ^ 1) at 1; apply Z.pow_le_mono_r; lia).
  induction k as [|k IH]; intros x fuel Hx Hf; (destruct fuel as [|fuel]; [lia|]).
  all: destruct (mersenne_step w x ltac:(lia) ltac:(lia)) as (Ei & (q & Eq) & Hi); fold m in Ei, Eq, Hi.
  all: cbn [mersenne_fold]; cbv zeta; set (i := Z.land x m + (x [>>] w)) in *.
  all: pose proof (Z.mod_pos_bound x (2 ^ w) ltac:(lia)) as B.
  - assert (D : x / 2 ^ w < 2 ^ (w - 1)) by (apply Z.div_lt_upper_bound; [lia|]; rewrite <- Z.pow_add_r by lia; replace (w + (w - 1)) with (2 * w - 1 + Z.of_nat 0 * (w - 1)) by lia; lia).
    assert (X : forall y p, 0 <= y < m -> x = y + p * m -> x mod m = y) by (intros y p H ->; rewrite Z.mod_add by lia; now apply Z.mod_small).
    destruct (Z.leb_spec m i).
    + destruct (Z.leb_spec m (i - m)); [unfold m in *; lia|]. rewrite (X (i - m) (q + 1)); [reflexivity|unfold m in *; lia|lia].
    + destruct (Z.leb_spec m i); [lia|]. now rewrite (X i q).
  - assert (D : x / 2 ^ w < 2 ^ (Z.of_nat (S k) * (w - 1) + w - 1)).
    { apply Z.div_lt_upper_bound; [lia|]. rewrite <- Z.pow_add_r by nia. replace (w + (Z.of_nat (S k) * (w - 1) + w - 1)) with (2 * w - 1 + Z.of_nat (S k) * (w - 1)) by lia. lia. }
    assert (E2 : 2 ^ (2 * w - 1 + Z.of_nat k * (w - 1)) = 2 * 2 ^ (Z.of_nat (S k) * (w - 1) + w - 1)) by (rewrite <- Z.pow_succ_r by nia; f_equal; lia).
    assert (Le : 2 ^ w <= 2 ^ (Z.of_nat (S k) * (w - 1) + w - 1)) by (apply Z.pow_le_mono_r; nia).
    assert (X : forall y p, 0 <= y <= i -> x = y + p * m -> (if m <=? y then mersenne_fold fuel m w y else Some y) = Some (x mod m)).
    { intros y p Hy Ey. assert (Ym : x mod m = y mod m) by (rewrite Ey, Z.mod_add by (unfold m; lia); reflexivity).
      destruct (Z.leb_spec m y); [rewrite IH by lia; now rewrite Ym|]. rewrite Ym. now rewrite Z.mod_small by lia. }
    destruct (Z.leb_spec m i); [apply (X (i - m) (q + 1)); lia|apply (X i q); lia].
Qed.

Section Values.
Context {C : Cipher} {L : CipherLaws C}.

Definition GetMersennePrime (w : nat) : Z := 2 ^ GetMersennePrimeBitWidth w - 1.
Definition wide (w : nat) : Prop := w = 16%nat \/ w = 8%nat.
Definition narrow (w : nat) : Prop := w = 4%nat \/ w = 1%nat.
(** Rounds of the folding loop that are enough for 72 and 48 bits. *)
Definition mersenne_rounds (w : nat) : nat := if (w =? 4)%nat then 2 else 7.

Lemma GetMersennePrimeMask_eq w : wide w \/ narrow w -> GetMersennePrimeMask w = GetMersennePrime w.
Proof. intros [[->| ->]|[->| ->]]; reflexivity. Qed.

(** The narrow containers: the value modulo the prime, in a constant number of rounds. *)
Lemma MersennePrimeMod_narrow w buf fuel : narrow w -> is_bytes (w + 5) buf -> (mersenne_rounds w <= fuel)%nat ->
  MersennePrimeMod fuel w buf = Some (le_val buf mod GetMersennePrime w).
Proof.
  intros Hw [Lb F] Hf. pose proof (le_val_bound buf F) as B. rewrite Lb in B. unfold MersennePrimeMod, YACL_ENFORCE.
  rewrite GetMersennePrimeMask_eq by now right. unfold GetMersennePrime.
  destruct Hw as [-> | ->]; rewrite Lb; change (mersenne_rounds _) with 2%nat in Hf || change (mersenne_rounds _) with 7%nat in Hf; cbn [Nat.add Nat.div Nat.divmod fst Nat.sub Nat.eqb Nat.leb orb prg_secparam_s GetMersennePrimeBitWidth] in *.
  - rewrite (mersenne_fold_ok 31 1) by (lia || exact B). do 1 f_equal. apply Z.mod_small. pose proof (Z.mod_pos_bound (le_val buf) (2 ^ 31 - 1) ltac:(lia)). lia.
  - rewrite (mersenne_fold_ok 7 6) by (lia || exact B). do 1 f_equal. apply Z.mod_small. pose proof (Z.mod_pos_bound (le_val buf) (2 ^ 7 - 1) ltac:(lia)). lia.
Qed.

(** The wide ones: up to the prime itself, which it leaves as it is. *)
Lemma MersennePrimeMod_wide w buf fuel : wide w -> is_bytes (w + 5) buf ->
  let p := GetMersennePrime w in let v := Z.land (le_val (firstn w buf)) p + le_val (firstn 5 (skipn w buf)) in
  MersennePrimeMod fuel w buf = Some (if v =? p then p else v mod p).
Proof.
  intros Hw [Lb F]. cbv zeta. unfold MersennePrimeMod, YACL_ENFORCE.
  rewrite GetMersennePrimeMask_eq by now left. unfold GetMersennePrime.
  assert (A : is_bytes 5 (firstn 5 (skipn w buf))) by (split; [rewrite length_firstn, length_skipn; lia|now apply Forall_firstn, Forall_skipn]).
  destruct A as [La Fa]. pose proof (le_val_bound _ Fa) as B. rewrite La in B. set (aux := le_val (firstn 5 (skipn w buf))) in *.
  assert (X : forall n W, 1 <= n -> 2 * 2 ^ n <= 2 ^ W -> 2 ^ 40 <= 2 ^ n - 1 -> forall x, 
      let v := Z.land x (2 ^ n - 1) + aux in
      (if 2 ^ n - 1 <? uwrap W v then uwrap W v - (2 ^ n - 1) else uwrap W v) = if v =? 2 ^ n - 1 then 2 ^ n - 1 else v mod (2 ^ n - 1)).
  { intros n W Hn HW H40 x v. assert (Bx : 0 <= Z.land x (2 ^ n - 1) < 2 ^ n).
    { replace (2 ^ n - 1) with (Z.ones n) by (rewrite Z.ones_equiv; lia). rewrite Z.land_ones by lia. apply Z.mod_pos_bound. lia. }
    assert (E : uwrap W v = v) by (apply Z.mod_small; lia). rewrite E. set (p := 2 ^ n - 1) in *.
    destruct (Z.eqb_spec v p); destruct (Z.ltb_spec p v); try lia.
    - apply (Z.mod_unique_pos v p 1); unfold p in *; lia.
    - symmetry. apply Z.mod_small. lia. }
  destruct Hw as [-> | ->]; rewrite Lb; cbn [Nat.add Nat.div Nat.divmod fst Nat.sub Nat.eqb orb prg_secparam_s GetMersennePrimeBitWidth]; f_equal.
  - apply (X 127 128); lia.
  - apply (X 61 64); lia.
Qed.

Lemma mapM_chunks w fuel num l : narrow w -> (mersenne_rounds w <= fuel)%nat -> is_bytes (num * (w + 5)) l ->
  exists out, mapM (MersennePrimeMod fuel w) (chunks num (w + 5) l) = Some out /\ length out = num /\ Forall (fun x => 0 <= x < GetMersennePrime w) out.
Proof.
  intros Hw Hf. revert l; induction num as [|num IH]; intros l H; [exists []; now repeat split|].
  cbn [Nat.mul] in H. pose proof (firstn_is (w + 5) _ l H ltac:(lia)) as A. destruct H as [Ll Fl].
  destruct (IH (skipn (w + 5) l)) as (out & E & Lo & Fo); [split; [rewrite length_skipn; lia|now apply Forall_skipn]|].
  cbn [chunks mapM]. rewrite (MersennePrimeMod_narrow w _ fuel Hw A Hf), E. eexists. split; [reflexivity|]. split; [cbn; lia|]. constructor; [|exact Fo].
  apply Z.mod_pos_bound. destruct Hw as [-> | ->]; reflexivity.
Qed.

(** Filling gives as many values as asked for, all below the prime. *)
Lemma FillPRandWithMersennePrime_ok w fuel t seed iv count num : wide w \/ narrow w -> (mersenne_rounds w <= fuel)%nat ->
  exists ret out, FillPRandWithMersennePrime fuel w t seed iv count num = Some (ret, out) /\ length out = num /\
    Forall (fun x => 0 <= x < GetMersennePrime w) out.
Proof.
  intros Hw Hf. unfold FillPRandWithMersennePrime.
  assert (Wide : (w =? 16)%nat || (w =? 8)%nat = true \/ narrow w /\ (w =? 16)%nat || (w =? 8)%nat = false).
  { destruct Hw as [[-> | ->]|Hw]; auto. right. split; [exact Hw|]. now destruct Hw as [-> | ->]. }
  destruct Wide as [W|[Hn W]]; rewrite W.
  - destruct (FillPRand_some t seed iv count (num * w)) as (buf & -> & H). do 2 eexists. split; [reflexivity|].
    split; [now rewrite length_map, length_to_words|]. rewrite GetMersennePrimeMask_eq by exact Hw.
    assert (P : 1 < GetMersennePrime w) by (destruct Hw as [[-> | ->]|[-> | ->]]; reflexivity).
    apply Forall_forall. intros y Hy. apply in_map_iff in Hy as (x & <- & _). unfold GetMersennePrime in *.
    set (n := GetMersennePrimeBitWidth w) in *. assert (Bn : 0 <= n) by (destruct Hw as [[-> | ->]|[-> | ->]]; unfold n; cbn; lia).
    assert (B : 0 <= Z.land x (2 ^ n - 1) < 2 ^ n).
    { replace (2 ^ n - 1) with (Z.ones n) by (rewrite Z.ones_equiv; lia). rewrite Z.land_ones by lia. apply Z.mod_pos_bound. lia. }
    destruct (Z.eqb_spec (Z.land x (2 ^ n - 1)) (2 ^ n - 1)); lia.
  - change ((prg_secparam_s + 7) / 8)%nat with 5%nat. cbv zeta.
    destruct (FillPRand_some t seed iv count (num * (w + 5))) as (buf & -> & H).
    destruct (mapM_chunks w fuel num buf Hn Hf H) as (out & -> & H'). now exists (u64 (count + Z.of_nat ((num * (w + 5) + 15) / 16))), out.
Qed.
End Values.
