(* ===== verification/Prg.v ===== *)
(** The pseudo-random generator with a cache of outputs ([theoretical_tools/prg]),
    over an interface for the cache that the array of blocks and the bitset
    implement: its outputs are a stream of encrypted counters. *)
From Stdlib Require Import ZArith Lia List Bool.
From S2P Require Import Prelude.
From S2P Require Import Errors.
From S2P Require Import Int128.
From S2P Require Import Cipher.
From S2P Require Import Bitset.
From S2P Require Import BitsetOps.
Import ListNotations.

Inductive PRG_MODE := kAesEcb | kSm4Ecb.
Definition mode_type (m : PRG_MODE) : BlockCipherTy := match m with kAesEcb => AES128_ECB | kSm4Ecb => SM4_ECB end.
Definition kInitVector : Z := 0.

(** [cipher_data<T, BATCH_SIZE>]: the cache of outputs of type [T], how many it
    has, how many bytes a refill writes over its memory, and its elements. *)
Class cipher_data (T : Type) (BATCH_SIZE : nat) := {
  budget : Type;
  budget_new : budget;
  budget_count : budget -> nat;      (* cipher_budget_.size() *)
  budget_size : nat;                 (* cipher_data::size(), in bytes *)
  budget_write : budget -> list Z -> budget;
  budget_get : budget -> nat -> T
}.

(** The array of [uint128_t], and the bitset that holds [bool]s. *)
#[export] Instance cipher_data_u128 (BATCH_SIZE : nat) : cipher_data Z BATCH_SIZE := {|
  budget := list Z;
  budget_new := repeat 0 BATCH_SIZE;
  budget_count _ := BATCH_SIZE;
  budget_size := BATCH_SIZE * 16;
  budget_write _ bytes := to_blocks BATCH_SIZE bytes;
  budget_get b idx := at_ b idx
|}.
#[export] Instance cipher_data_bool (BATCH_SIZE : nat) : cipher_data bool BATCH_SIZE := {|
  budget := dynamic_bitset;
  budget_new := bitset_init 128 (BATCH_SIZE * 8) 0;
  budget_count b := size b;
  budget_size := BATCH_SIZE;
  budget_write b bytes := DynamicBitset (to_blocks (num_blocks b) bytes) (m_bits_number b);
  budget_get b idx := ref_get (reference_of 128 idx) b
|}.

Record Prg (T : Type) (BATCH_SIZE : nat) `{cipher_data T BATCH_SIZE} := MkPrg {
  seed_ : Z;
  counter_ : Z;
  cipher_data_ : budget;
  num_consumed_ : nat;
  mode_ : PRG_MODE
}.
Arguments MkPrg {T BATCH_SIZE _}.
Arguments seed_ {T BATCH_SIZE _}.
Arguments counter_ {T BATCH_SIZE _}.
Arguments cipher_data_ {T BATCH_SIZE _}.
Arguments num_consumed_ {T BATCH_SIZE _}.
Arguments mode_ {T BATCH_SIZE _}.

Section PrgCode.
Context {C : Cipher} {T : Type} {BATCH_SIZE : nat} `{D : cipher_data T BATCH_SIZE}.

Definition SetSeed (p : Prg T BATCH_SIZE) (seed : Z) : Prg T BATCH_SIZE :=
  MkPrg seed 0 (cipher_data_ p) (num_consumed_ p) (mode_ p).
Definition SetStatus (p : Prg T BATCH_SIZE) (seed counter : Z) : Prg T BATCH_SIZE :=
  MkPrg seed counter (cipher_data_ p) (num_consumed_ p) (mode_ p).
(** The constructor; [num_consumed_] starts at [BATCH_SIZE] for every [T]. *)
Definition Prg_new (seed : Z) (mode : PRG_MODE) : Prg T BATCH_SIZE :=
  SetSeed (MkPrg 0 0 budget_new BATCH_SIZE mode) seed.

Definition GenerateBudgets (p : Prg T BATCH_SIZE) : option (Prg T BATCH_SIZE) :=
  let? (counter, bytes) := FillPRand (mode_type (mode_ p)) (seed_ p) kInitVector (u64 (counter_ p)) (budget_size (T := T) (BATCH_SIZE := BATCH_SIZE)) in
  Some (MkPrg (seed_ p) counter (budget_write (cipher_data_ p) bytes) (num_consumed_ p) (mode_ p)).

(** [operator()] *)
Definition Prg_next (p : Prg T BATCH_SIZE) : option (T * Prg T BATCH_SIZE) :=
  let? p :=
    if (num_consumed_ p =? budget_count (cipher_data_ p))%nat then
      let? p := GenerateBudgets p in
      Some (MkPrg (seed_ p) (counter_ p) (cipher_data_ p) 0%nat (mode_ p))
    else Some p in
  Some (budget_get (cipher_data_ p) (num_consumed_ p),
        MkPrg (seed_ p) (counter_ p) (cipher_data_ p) (num_consumed_ p + 1) (mode_ p)).

(** [Fill]: past the cache, but moving the counter. *)
Definition Prg_Fill (p : Prg T BATCH_SIZE) (len : nat) : option (list Z * Prg T BATCH_SIZE) :=
  let? (counter, out) := FillPRand (mode_type (mode_ p)) (seed_ p) kInitVector (u64 (counter_ p)) len in
  Some (out, MkPrg (seed_ p) counter (cipher_data_ p) (num_consumed_ p) (mode_ p)).

(** [n] calls. *)
Fixpoint Prg_outputs (n : nat) (p : Prg T BATCH_SIZE) : option (list T * Prg T BATCH_SIZE) :=
  match n with
  | O => Some ([], p)
  | S n =>
      let? (x, p) := Prg_next p in
      let? (l, p) := Prg_outputs n p in
      Some (x :: l, p)
  end.
End PrgCode.

(** ** The outputs of the generator *)

(** What a cache promises: its elements, in order, and that a refill replaces all
    of them by what the bytes encode. *)
Class BudgetLaws (T : Type) (BATCH_SIZE : nat) `{D : cipher_data T BATCH_SIZE} := {
  elems : budget -> list T;
  decode : list Z -> list T;
  budget_ok : budget -> Prop;
  new_ok : budget_ok budget_new;
  count_elems : forall d, budget_ok d -> budget_count d = length (elems d);
  get_elems : forall d i, budget_ok d -> (i < length (elems d))%nat -> nth_error (elems d) i = Some (budget_get d i);
  elems_some : forall d, budget_ok d -> (0 < length (elems d))%nat;
  write_ok : forall d bytes, budget_ok d -> length bytes = budget_size (T := T) (BATCH_SIZE := BATCH_SIZE) -> Forall byte bytes ->
    budget_ok (budget_write d bytes) /\ elems (budget_write d bytes) = decode bytes;
  size_blocks : (budget_size (T := T) (BATCH_SIZE := BATCH_SIZE) mod 16 = 0)%nat
}.

Section Outputs.
Context {C : Cipher} {L : CipherLaws C} {T : Type} {BATCH_SIZE : nat} `{BL : BudgetLaws T BATCH_SIZE}.

(** Blocks per refill, the outputs of one refill, and of [k] refills. *)
Definition per_refill : nat := budget_size (T := T) (BATCH_SIZE := BATCH_SIZE) / 16.
Definition refill (t : BlockCipherTy) (seed c : Z) : list T :=
  decode (to_bytes (map (fun i => ecb t seed kInitVector (c + Z.of_nat i)) (seq 0 per_refill))).
Definition stream (t : BlockCipherTy) (seed c : Z) (k : nat) : list T :=
  flat_map (fun j => refill t seed (c + Z.of_nat (j * per_refill))) (seq 0 k).

(** The rest of the cache, then [k] refills. *)
Definition leftover (p : Prg T BATCH_SIZE) : list T := skipn (num_consumed_ p) (elems (cipher_data_ p)).
Definition remaining (p : Prg T BATCH_SIZE) (k : nat) : list T :=
  leftover p ++ stream (mode_type (mode_ p)) (seed_ p) (counter_ p) k.

(** A state with room for [n] more refills below the 64-bit counter. *)
Definition prg_ok (p : Prg T BATCH_SIZE) (n : nat) : Prop :=
  budget_ok (cipher_data_ p) /\ (num_consumed_ p <= length (elems (cipher_data_ p)))%nat /\ 0 <= counter_ p /\
  counter_ p + Z.of_nat (n * per_refill) < 2 ^ 64.

Lemma mode_ecb m : is_ecb (mode_type m) = true.
Proof. now destruct m. Qed.

Lemma stream_S t seed c k : stream t seed c (S k) = refill t seed c ++ stream t seed (c + Z.of_nat per_refill) k.
Proof.
  unfold stream. cbn [seq flat_map]. rewrite Nat.mul_0_l, Z.add_0_r. f_equal. rewrite <- seq_shift, flat_map_concat_map, map_map, <- flat_map_concat_map.
  apply flat_map_ext. intros j. f_equal. lia.
Qed.

Lemma GenerateBudgets_ok p n : prg_ok p (S n) -> exists p', GenerateBudgets p = Some p' /\ budget_ok (cipher_data_ p') /\
  elems (cipher_data_ p') = refill (mode_type (mode_ p)) (seed_ p) (counter_ p) /\ counter_ p' = counter_ p + Z.of_nat per_refill /\
  seed_ p' = seed_ p /\ mode_ p' = mode_ p.
Proof.
  intros (Hd & _ & Hc & Hn). rewrite Nat.mul_succ_l in Hn. unfold GenerateBudgets.
  assert (Hb : counter_ p + Z.of_nat per_refill < 2 ^ 64) by lia. clear Hn.
  set (sz := budget_size (T := T) (BATCH_SIZE := BATCH_SIZE)). pose proof (size_blocks (T := T) (BATCH_SIZE := BATCH_SIZE)) as Sb. fold sz in Sb.
  assert (En : ((sz + 15) / 16 = per_refill)%nat).
  { unfold per_refill. fold sz. symmetry. apply (Nat.div_unique _ 16 _ 15); [lia|]. pose proof (Nat.div_mod sz 16 ltac:(lia)). lia. }
  assert (Es : (sz = 16 * per_refill)%nat) by (unfold per_refill; fold sz; pose proof (Nat.div_mod sz 16 ltac:(lia)); lia).
  rewrite (u64_small (counter_ p)) by (unfold in64; lia).
  pose proof (FillPRand_ecb (mode_type (mode_ p)) (seed_ p) kInitVector (counter_ p) sz (mode_ecb _) Hc) as F. cbv zeta in F. rewrite En in F.
  rewrite F by lia. set (bytes := firstn sz _) in *.
  assert (Eb : bytes = to_bytes (map (fun i => ecb (mode_type (mode_ p)) (seed_ p) kInitVector (counter_ p + Z.of_nat i)) (seq 0 per_refill))).
  { unfold bytes. apply firstn_all2. rewrite length_to_bytes, length_map, length_seq. lia. }
  destruct (write_ok (cipher_data_ p) bytes Hd) as [W1 W2].
  - rewrite Eb, length_to_bytes, length_map, length_seq. fold sz. lia.
  - rewrite Eb. apply Forall_flat_map. apply Forall_forall. intros x _. apply (bytes_to_le 16 x).
  - eexists. split; [reflexivity|]. cbn. split; [exact W1|]. split; [now rewrite W2, Eb|]. now split.
Qed.

(** One output is the first of what remains. *)
Lemma Prg_next_ok p n : prg_ok p (S n) -> exists x p' r, Prg_next p = Some (x, p') /\ prg_ok p' n /\ seed_ p' = seed_ p /\ mode_ p' = mode_ p /\
  (r <= 1)%nat /\ (forall k, x :: remaining p' k = remaining p (r + k)) /\ (leftover p = [] <-> r = 1)%nat.
Proof.
  intros H. pose proof H as (Hd & Hm & Hc & Hn). rewrite Nat.mul_succ_l in Hn. unfold Prg_next. rewrite (count_elems _ Hd).
  destruct (Nat.eqb_spec (num_consumed_ p) (length (elems (cipher_data_ p)))) as [E|E].
  - destruct (GenerateBudgets_ok p n H) as (p1 & -> & Hd1 & E1 & C1 & S1 & M1). pose proof (elems_some _ Hd1) as P1.
    do 2 eexists. exists 1%nat. split; [reflexivity|]. cbn [cipher_data_ num_consumed_ counter_ seed_ mode_].
    split; [unfold prg_ok; cbn [cipher_data_ num_consumed_ counter_]; refine (conj Hd1 (conj _ (conj _ _))); lia|]. split; [exact S1|]. split; [exact M1|]. split; [lia|]. split.
    + intros k. unfold remaining, leftover. cbn [cipher_data_ num_consumed_ counter_ seed_ mode_]. rewrite M1, S1, C1, E.
      rewrite skipn_all. cbn [app]. change (1 + k)%nat with (S k). rewrite stream_S, <- E1.
      destruct (elems (cipher_data_ p1)) as [|y l] eqn:El; [cbn in P1; lia|]. cbn [Nat.add skipn app]. f_equal.
      pose proof (get_elems (cipher_data_ p1) 0 Hd1) as G. rewrite El in G. cbn in G. specialize (G ltac:(lia)). congruence.
    + unfold leftover. rewrite E, skipn_all. now split.
  - do 2 eexists. exists 0%nat. split; [reflexivity|]. cbn [cipher_data_ num_consumed_ counter_ seed_ mode_].
    split; [unfold prg_ok; cbn [cipher_data_ num_consumed_ counter_]; refine (conj Hd (conj _ (conj _ _))); lia|]. do 2 (split; [reflexivity|]). split; [lia|].
    assert (Sk : skipn (num_consumed_ p) (elems (cipher_data_ p)) = budget_get (cipher_data_ p) (num_consumed_ p) :: skipn (num_consumed_ p + 1) (elems (cipher_data_ p))).
    { pose proof (get_elems (cipher_data_ p) (num_consumed_ p) Hd ltac:(lia)) as G. apply nth_error_split in G as (l1 & l2 & El & Ll).
      rewrite El, <- Ll. rewrite skipn_app, skipn_all, Nat.sub_diag. cbn [skipn app].
      rewrite skipn_app, skipn_all2 by lia. replace (length l1 + 1 - length l1)%nat with 1%nat by lia. reflexivity. }
    split.
    + intros k. unfold remaining, leftover. cbn [cipher_data_ num_consumed_ counter_ seed_ mode_ Nat.add]. now rewrite Sk.
    + unfold leftover. rewrite Sk. split; [discriminate|lia].
Qed.

(** [n] outputs are the first [n] of what remains. *)
Lemma Prg_outputs_ok n : forall p, prg_ok p n -> exists l p' r, Prg_outputs n p = Some (l, p') /\ length l = n /\ (r <= n)%nat /\
  (forall k, l ++ remaining p' k = remaining p (r + k)) /\ seed_ p' = seed_ p /\ mode_ p' = mode_ p /\ prg_ok p' 0.
Proof.
  induction n as [|n IH]; intros p H.
  - exists [], p, 0%nat. split; [reflexivity|]. repeat (split; [reflexivity || lia|]). exact H.
  - destruct (Prg_next_ok p n H) as (x & p1 & r1 & E1 & H1 & S1 & M1 & R1 & Q1 & _). destruct (IH p1 H1) as (l & p2 & r2 & E2 & L2 & R2 & Q2 & S2 & M2 & H2).
    exists (x :: l), p2, (r1 + r2)%nat. cbn [Prg_outputs]. rewrite E1, E2. split; [reflexivity|]. split; [cbn; lia|]. split; [lia|].
    split; [|split; [congruence|split; [congruence|exact H2]]]. intros k. cbn [app]. rewrite Q2, Q1. f_equal. lia.
Qed.
End Outputs.

(** *** The two caches *)

#[export] Instance u128_laws (BATCH_SIZE : nat) (P : (0 < BATCH_SIZE)%nat) : BudgetLaws Z BATCH_SIZE (D := cipher_data_u128 BATCH_SIZE).
Proof.
  refine (Build_BudgetLaws Z BATCH_SIZE (cipher_data_u128 BATCH_SIZE) (fun d : list Z => d) (to_blocks BATCH_SIZE) (fun d : list Z => length d = BATCH_SIZE) _ _ _ _ _ _).
  - apply repeat_length.
  - intros d H. symmetry. exact H.
  - intros d i _ H. now apply nth_error_nth'.
  - intros d H. lia.
  - intros d bytes _ _ _. split; [apply length_to_blocks|reflexivity].
  - apply Nat.Div0.mod_mul.
Defined.

(** The bitset: with no unused bits in its last block it can be overwritten whole. *)
Definition bool_ok (BATCH_SIZE : nat) (b : dynamic_bitset) : Prop := wf 128 b /\ m_bits_number b = (BATCH_SIZE * 8)%nat.
Definition bool_decode (BATCH_SIZE : nat) (bytes : list Z) : list bool :=
  bits 128 (DynamicBitset (to_blocks (BATCH_SIZE / 16) bytes) (BATCH_SIZE * 8)).

Section BoolLaws.
Context (BATCH_SIZE : nat) (B_pos : (0 < BATCH_SIZE)%nat) (B_mod : (BATCH_SIZE mod 16 = 0)%nat).

Lemma bool_blocks : (BATCH_SIZE * 8 = BATCH_SIZE / 16 * 128)%nat /\ blocks_required 128 (BATCH_SIZE * 8) = (BATCH_SIZE / 16)%nat.
Proof.
  pose proof (Nat.div_mod BATCH_SIZE 16 ltac:(lia)) as D. rewrite B_mod in D.
  assert (E : (BATCH_SIZE * 8 = BATCH_SIZE / 16 * 128)%nat) by lia. split; [exact E|].
  unfold blocks_required. rewrite E, Nat.div_mul, Nat.Div0.mod_mul by lia. cbn. lia.
Qed.

Lemma to_blocks_ok n bytes : length bytes = (16 * n)%nat -> Forall byte bytes -> Forall (block_ok 128) (to_blocks n bytes).
Proof.
  revert bytes; induction n as [|n IH]; intros bytes Ln F; [constructor|]. cbn [to_blocks]. constructor.
  - apply (le_val_block (firstn 16 bytes)); [rewrite length_firstn; lia|now apply Forall_firstn].
  - apply IH; [rewrite length_skipn; lia|now apply Forall_skipn].
Qed.

Lemma bool_new_ok : bool_ok BATCH_SIZE (bitset_init 128 (BATCH_SIZE * 8) 0).
Proof. destruct (bitset_init_ok 128 ltac:(lia) (BATCH_SIZE * 8) 0) as (W & N & _); [reflexivity|lia|now split]. Qed.

Lemma bool_get_ok d i : bool_ok BATCH_SIZE d -> (i < length (bits 128 d))%nat ->
  nth_error (bits 128 d) i = Some (ref_get (reference_of 128 i) d).
Proof.
  intros [W N] H. rewrite (nth_error_nth' _ false H), nth_bits by (lia || exact W). f_equal.
  destruct (reference_ok 128 d i true) as [-> _]. symmetry. apply test_bit_ok. lia.
Qed.

Lemma bool_write_ok d bytes : bool_ok BATCH_SIZE d -> length bytes = BATCH_SIZE -> Forall byte bytes ->
  bool_ok BATCH_SIZE (DynamicBitset (to_blocks (num_blocks d) bytes) (m_bits_number d)) /\
  bits 128 (DynamicBitset (to_blocks (num_blocks d) bytes) (m_bits_number d)) = bool_decode BATCH_SIZE bytes.
Proof.
  intros [W N] Lb F. destruct bool_blocks as [B1 B2]. pose proof W as (Wl & _). unfold num_blocks. rewrite Wl, N, B2. split; [|reflexivity].
  split; [|reflexivity]. refine (conj _ (conj _ _)); cbn [m_blocks m_bits_number].
  - now rewrite length_to_blocks, B2.
  - apply to_blocks_ok; [|exact F]. pose proof (Nat.div_mod BATCH_SIZE 16 ltac:(lia)). lia.
  - intros p Hp. unfold bit_at. cbn [m_blocks]. rewrite at_out, Z.testbit_0_l; [reflexivity|]. rewrite length_to_blocks. apply Nat.div_le_lower_bound; lia.
Qed.
End BoolLaws.

#[export] Instance bool_laws (BATCH_SIZE : nat) (P : (0 < BATCH_SIZE)%nat) (M : (BATCH_SIZE mod 16 = 0)%nat)
  : BudgetLaws bool BATCH_SIZE (D := cipher_data_bool BATCH_SIZE).
Proof.
  refine (Build_BudgetLaws bool BATCH_SIZE (cipher_data_bool BATCH_SIZE) (bits 128) (bool_decode BATCH_SIZE) (bool_ok BATCH_SIZE) _ _ _ _ _ _).
  - now apply bool_new_ok.
  - intros d [_ E]. now rewrite length_bits.
  - now apply bool_get_ok.
  - intros d [_ E]. rewrite length_bits. lia.
  - now apply bool_write_ok.
  - exact M.
Defined.

(** ** Streams *)

Section Streams.
Context {C : Cipher} {L : CipherLaws C} {T : Type} {BATCH_SIZE : nat} `{BL : BudgetLaws T BATCH_SIZE}.

(** [n] outputs need at most [n] refills. *)
Lemma Prg_outputs_stream n p : prg_ok p n ->
  exists p', Prg_outputs n p = Some (firstn n (remaining p n), p') /\ seed_ p' = seed_ p /\ mode_ p' = mode_ p.
Proof.
  intros H. destruct (Prg_outputs_ok n p H) as (l & p' & r & E & Ll & Hr & Q & S' & M' & _).
  exists p'. rewrite E. split; [|now split]. do 2 f_equal.
  specialize (Q (n - r)%nat). replace (r + (n - r))%nat with n in Q by lia. rewrite <- Q, <- Ll. now rewrite firstn_app, firstn_all, Nat.sub_diag, app_nil_r.
Qed.
End Streams.

(** *** Blocks *)
Section Blocks.
Context {C : Cipher} {L : CipherLaws C} (BATCH_SIZE : nat) (P : (0 < BATCH_SIZE)%nat).

Lemma u128_per_refill : per_refill (T := Z) (BATCH_SIZE := BATCH_SIZE) = BATCH_SIZE.
Proof. unfold per_refill. apply Nat.div_mul. lia. Qed.

Lemma seq_from s n : map (fun i => (s + i)%nat) (seq 0 n) = seq s n.
Proof.
  enough (forall o, map (fun i => (s + i)%nat) (seq o n) = seq (s + o) n) as E by now rewrite E, Nat.add_0_r.
  induction n as [|n IH]; intros o; [reflexivity|]. cbn [seq map]. now rewrite IH, Nat.add_succ_r.
Qed.

Lemma seq_blocks n k : flat_map (fun j => map (fun i => (j * n + i)%nat) (seq 0 n)) (seq 0 k) = seq 0 (k * n).
Proof.
  induction k as [|k IH]; [reflexivity|]. rewrite seq_S, flat_map_app, IH. cbn [Nat.add flat_map]. rewrite app_nil_r.
  replace (S k * n)%nat with (k * n + n)%nat by lia. rewrite seq_app. f_equal. rewrite Nat.add_0_l.
  apply seq_from.
Qed.

Lemma u128_stream t seed c k :
  stream (T := Z) (BATCH_SIZE := BATCH_SIZE) (BL := u128_laws BATCH_SIZE P) t seed c k =
  map (fun i => ecb t seed kInitVector (c + Z.of_nat i)) (seq 0 (k * BATCH_SIZE)).
Proof.
  rewrite <- seq_blocks. unfold stream. rewrite !flat_map_concat_map, concat_map, map_map. f_equal. apply map_ext. intros j.
  rewrite u128_per_refill. unfold refill. rewrite u128_per_refill. cbn [decode u128_laws].
  set (l := map _ (seq 0 BATCH_SIZE)). assert (E : length l = BATCH_SIZE) by (unfold l; now rewrite length_map, length_seq).
  assert (F : Forall in128 l) by (unfold l; apply Forall_forall; intros y Hy; apply in_map_iff in Hy as (x & <- & _); apply ecb_in).
  pose proof (to_blocks_bytes l F) as Q. rewrite E in Q. rewrite Q. unfold l. rewrite map_map. apply map_ext. intros i. f_equal. lia.
Qed.
End Blocks.

(** *** Bits *)

(** The bits of a block, lowest first. *)
Definition bits_of_block (x : Z) : list bool := map (fun i => Z.testbit x (Z.of_nat i)) (seq 0 128).

Section Bools.
Context {C : Cipher} {L : CipherLaws C}.
Context (P16 : (0 < 16)%nat) (M16 : (16 mod 16 = 0)%nat).
#[local] Abbreviation laws := (bool_laws 16 P16 M16).

Lemma bool_stream t seed c k :
  stream (T := bool) (BATCH_SIZE := 16) (BL := laws) t seed c k = flat_map (fun j => bits_of_block (ecb t seed kInitVector (c + Z.of_nat j))) (seq 0 k).
Proof.
  unfold stream. rewrite !flat_map_concat_map. f_equal. apply map_ext. intros j. unfold refill.
  change (per_refill (T := bool) (BATCH_SIZE := 16)) with 1%nat. rewrite Nat.mul_1_r. cbn [seq map decode bool_laws]. rewrite Z.add_0_r.
  pose proof (ecb_in t seed kInitVector (c + Z.of_nat j)) as B. set (x := ecb _ _ _ _) in *. unfold bool_decode. change (16 / 16)%nat with (length [x]).
  rewrite to_blocks_bytes by (apply Forall_cons; [exact B|apply Forall_nil]). unfold bits, bits_of_block. apply map_ext_in. intros i Hi. apply in_seq in Hi.
  unfold bit_at. cbn [m_blocks]. rewrite Nat.div_small, Nat.mod_small by lia. reflexivity.
Qed.

(** A new generator starts with what is left of an empty cache. *)
Lemma bool_new_leftover seed mode : leftover (BL := laws) (Prg_new (T := bool) (BATCH_SIZE := 16) seed mode) = repeat false 112.
Proof. reflexivity. Qed.
End Bools.
