(* ===== verification/CrHash.v ===== *)
(** Correlation-robust hashing ([theoretical_tools/rp], [theoretical_tools/crhash]):
    a block cipher under a fixed key, xored with its input.  The batched
    functions work in place, 1024 blocks at a time. *)
From Stdlib Require Import ZArith Lia List Bool.
From S2P Require Import Prelude.
From S2P Require Import Errors.
From S2P Require Import Int128.
From S2P Require Import Cipher.
Import ListNotations.

(** ** Random permutation *)

Record RP := RandomPermutation { ctype_ : BlockCipherTy; key_ : Z; iv_ : Z }.

Section Code.
Context {C : Cipher}.

Definition Gen (rp : RP) (in_ : Z) : option Z := Encrypt_block (ctype_ rp) (key_ rp) (iv_ rp) in_.
Definition GenForMultiInputs (rp : RP) (in_ : list Z) : option (list Z) := Encrypt_blocks (ctype_ rp) (key_ rp) (iv_ rp) in_.

(** ** The linear map *)

(** The 32-bit lane [k]; [_mm_shuffle_epi32] and [_mm_unpackhi/lo_epi64]. *)
Definition lane32 (x k : Z) : Z := u32 (x [>>] (32 * k)).
Definition shuffle_epi32 (x imm : Z) : Z :=
  fold_right Z.lor 0 (map (fun i => lane32 x (Z.land (imm [>>] (2 * i)) 3) [<<] (32 * i)) [0; 1; 2; 3]).
Definition unpackhi_epi64 (a b : Z) : Z := MakeUint128 (b [>>] 64) (a [>>] 64).
Definition unpacklo_epi64 (a b : Z) : Z := MakeUint128 (u64 b) (u64 a).

(** One block. *)
Definition Sigma (x : Z) : Z :=
  let exchange := shuffle_epi32 x 0x4E in
  let left := unpackhi_epi64 x 0 in
  Z.lxor exchange left.
(** Many blocks, to a new vector and in place. *)
Definition Sigma_block (xi : Z) : Z :=
  let exchange := shuffle_epi32 xi 0x4E in
  let left := unpacklo_epi64 xi 0 in
  Z.lxor exchange left.
(** The number of blocks is kept in a [uint32_t]: blocks past it are not mapped. *)
Definition Sigma_vector (x : list Z) : list Z :=
  let num := u32 (Z.of_nat (length x)) in
  map Sigma_block (firstn (Z.to_nat num) x).
Definition SigmaInplace (x : list Z) : list Z :=
  let num := u32 (Z.of_nat (length x)) in
  map Sigma_block (firstn (Z.to_nat num) x) ++ skipn (Z.to_nat num) x.

(** ** Hashing *)

Definition kBatchSize : nat := 1024.
Definition GetCrHashDefaultRP : RP := RandomPermutation AES128_ECB 0 0x12345678.

Definition CrHash_128 (x : Z) : option Z := let? y := Gen GetCrHashDefaultRP x in Some (Z.lxor y x).
Definition xor_spans (a b : list Z) : list Z := map (fun p => Z.lxor (fst p) (snd p)) (combine a b).
Definition ParaCrHash_128 (x : list Z) : option (list Z) :=
  let? out := GenForMultiInputs GetCrHashDefaultRP x in Some (xor_spans x out).

(** [subspan], and a write through it. *)
Definition subspan (l : list Z) (offset len : nat) : list Z := firstn len (skipn offset l).
Definition write_span (l : list Z) (offset : nat) (s : list Z) : list Z := firstn offset l ++ s ++ skipn (offset + length s) l.
(** A function that changes a span in place, on a part of a span. *)
Definition on_subspan (f : list Z -> option (list Z)) (inout : list Z) (offset len : nat) : option (list Z) :=
  let? s := f (subspan inout offset len) in Some (write_span inout offset s).

(** [for (; more offset size; offset += kBatchSize)]; [None] when the fuel runs out. *)
Fixpoint batch_loop (fuel : nat) (more : nat -> nat -> bool) (f : list Z -> option (list Z)) (offset : nat) (inout : list Z)
  : option (nat * list Z) :=
  match fuel with
  | O => None
  | S fuel =>
      if more offset (length inout) then
        let? inout := on_subspan f inout offset kBatchSize in
        batch_loop fuel more f (offset + kBatchSize) inout
      else Some (offset, inout)
  end.

Definition cr_batch (s : list Z) : option (list Z) :=
  let? tmp := GenForMultiInputs GetCrHashDefaultRP s in Some (xor_spans tmp s).
Definition ParaCrHashInplace_128 (inout : list Z) : option (list Z) :=
  let size := length inout in
  let? (offset, inout) := batch_loop (S size) (fun offset size => offset + kBatchSize <=? size)%nat cr_batch 0 inout in
  let remain := (size - offset)%nat in
  if (0 <? remain)%nat then on_subspan cr_batch inout offset remain else Some inout.

Definition CcrHash_128 (x : Z) : option Z := CrHash_128 (Sigma x).
Definition ParaCcrHash_128 (x : list Z) : option (list Z) := ParaCrHashInplace_128 (Sigma_vector x).
Definition ccr_batch (s : list Z) : option (list Z) := ParaCrHashInplace_128 (SigmaInplace s).
Definition ParaCcrHashInplace_128 (inout : list Z) : option (list Z) :=
  let size := length inout in
  let? (offset, inout) := batch_loop (S size) (fun offset size => offset + kBatchSize <? size)%nat ccr_batch 0 inout in
  let remain := (size - offset)%nat in
  on_subspan ccr_batch inout offset remain.
End Code.

(** ** Loops over batches *)

(** [f] maps [g] over any span; over any span of at most [b] blocks. *)
Definition maps (f : list Z -> option (list Z)) (g : Z -> Z) : Prop := forall s, f s = Some (map g s).
Definition maps_upto (b : nat) (f : list Z -> option (list Z)) (g : Z -> Z) : Prop :=
  forall s, (length s <= b)%nat -> f s = Some (map g s).

Lemma maps_all b f g : maps f g -> maps_upto b f g.
Proof. intros H s _. apply H. Qed.

Lemma maps_le b b' f g : (b' <= b)%nat -> maps_upto b f g -> maps_upto b' f g.
Proof. intros Hb H s Hs. apply H. lia. Qed.

(** [g] has been applied below [offset]. *)
Definition upto (g : Z -> Z) (offset : nat) (l : list Z) : list Z := map g (firstn offset l) ++ skipn offset l.

Lemma length_upto g offset l : length (upto g offset l) = length l.
Proof. unfold upto. rewrite length_app, length_map, <- length_app, firstn_skipn. reflexivity. Qed.

Lemma upto_all g offset l : (length l <= offset)%nat -> upto g offset l = map g l.
Proof. intros H. unfold upto. now rewrite firstn_all2, skipn_all2, app_nil_r. Qed.

Lemma firstn_plus {A} n k (l : list A) : firstn (k + n) l = firstn n l ++ firstn k (skipn n l).
Proof.
  revert l; induction n as [|n IH]; intros l; [now rewrite Nat.add_0_r|].
  destruct l as [|x l]; [now rewrite !firstn_nil|]. rewrite Nat.add_succ_r. cbn [firstn skipn app]. now rewrite IH.
Qed.

Lemma on_subspan_upto f g l offset len : maps_upto len f g -> (offset + len <= length l)%nat ->
  on_subspan f (upto g offset l) offset len = Some (upto g (offset + len) l).
Proof.
  intros Hf H. unfold on_subspan, subspan. rewrite Hf by apply firstn_le_length.
  assert (Lo : length (map g (firstn offset l)) = offset) by (rewrite length_map, length_firstn; lia).
  assert (Sk : skipn offset (upto g offset l) = skipn offset l).
  { unfold upto. rewrite skipn_app, Lo, skipn_all2, Nat.sub_diag by lia. reflexivity. }
  unfold write_span. rewrite length_map, Sk, length_firstn, length_skipn.
  replace (Nat.min len (length l - offset)) with len by lia. rewrite (Nat.add_comm offset len), <- skipn_skipn, Sk, skipn_skipn.
  assert (Fi : firstn offset (upto g offset l) = map g (firstn offset l)).
  { unfold upto. rewrite firstn_app, Lo, Nat.sub_diag, firstn_O, app_nil_r. apply firstn_all2. lia. }
  rewrite Fi. unfold upto. rewrite firstn_plus, map_app, app_assoc. reflexivity.
Qed.

Lemma batch_loop_ok more f g l : maps_upto kBatchSize f g ->
  (forall offset, more offset (length l) = true -> (offset + kBatchSize <= length l)%nat) ->
  forall fuel offset, (length l < offset + fuel)%nat -> (offset <= length l)%nat ->
  exists offset', batch_loop fuel more f offset (upto g offset l) = Some (offset', upto g offset' l) /\ (offset' <= length l)%nat /\
    more offset' (length l) = false.
Proof.
  intros Hf Hm. induction fuel as [|fuel IH]; intros offset H1 H2; [lia|]. cbn [batch_loop]. rewrite length_upto.
  destruct (more offset (length l)) eqn:E; [|now exists offset]. rewrite on_subspan_upto by auto.
  apply IH; specialize (Hm offset E); unfold kBatchSize in *; lia.
Qed.

(** ** Halves of a block *)

Definition lo (x : Z) : Z := u64 x.
Definition hi (x : Z) : Z := x [>>] 64.

Lemma shuffle_halves x : in128 x -> shuffle_epi32 x 0x4E = MakeUint128 (lo x) (hi x).
Proof.
  intros Hx. unfold shuffle_epi32, lane32, MakeUint128, lo, hi, u32, u64, uwrap. cbn [map fold_right].
  change (Z.land (0x4E [>>] (2 * 0)) 3) with 2. change (Z.land (0x4E [>>] (2 * 1)) 3) with 3.
  change (Z.land (0x4E [>>] (2 * 2)) 3) with 0. change (Z.land (0x4E [>>] (2 * 3)) 3) with 1.
  apply Z.bits_inj'. intros i Hi. rewrite !Z.lor_spec, Z.bits_0, orb_false_r.
  assert (Hh : forall j, 128 <= j -> Z.testbit x j = false).
  { intros j Hj. rewrite <- (Z.mod_small x (2 ^ 128) Hx). apply Z.mod_pow2_bits_high. lia. }
  assert (B : forall k d, 0 <= k -> 0 <= d -> Z.testbit (((x [>>] (32 * k)) mod 2 ^ 32) [<<] (32 * d)) i =
    ((32 * d <=? i) && (i <? 32 * d + 32) && Z.testbit x (i - 32 * d + 32 * k))).
  { intros k d Hk Hd. destruct (Z.leb_spec (32 * d) i); cbn [andb]; [|apply Z.shiftl_spec_low; lia].
    rewrite Z.shiftl_spec by lia. destruct (Z.ltb_spec i (32 * d + 32)); cbn [andb].
    - rewrite Z.mod_pow2_bits_low, Z.shiftr_spec by lia. f_equal; lia.
    - apply Z.mod_pow2_bits_high. lia. }
  assert (Lo : Z.testbit ((x mod 2 ^ 64) [<<] 64) i = ((64 <=? i) && (i <? 128) && Z.testbit x (i - 64))).
  { destruct (Z.leb_spec 64 i); cbn [andb]; [|apply Z.shiftl_spec_low; lia]. rewrite Z.shiftl_spec by lia.
    destruct (Z.ltb_spec i 128); cbn [andb]; [apply Z.mod_pow2_bits_low; lia|apply Z.mod_pow2_bits_high; lia]. }
  rewrite Lo, !B, Z.shiftr_spec by lia. pose proof (Hh (i + 64)) as H64.
  repeat match goal with
  | |- context [?a <=? ?b] => destruct (Z.leb_spec a b); try lia
  | |- context [?a <? ?b] => destruct (Z.ltb_spec a b); try lia
  end; cbn [andb orb]; rewrite ?orb_false_r.
  all: try (rewrite H64 by lia; rewrite ?orb_false_r); try (rewrite (Hh (i - _ + _)) by lia); try reflexivity; f_equal; lia.
Qed.

Lemma lo_in x : in64 (lo x).
Proof. apply u64_in. Qed.

Lemma hi_in x : in128 x -> in64 (hi x).
Proof. intros H. apply (shr_in x 64 64); [lia|lia|exact H]. Qed.

Lemma halves x : in128 x -> x = MakeUint128 (hi x) (lo x).
Proof. intros H. rewrite MakeUint128_lxor by apply lo_in. apply (split_shl x 64). lia. Qed.

Lemma lo_Make h l : in64 l -> lo (MakeUint128 h l) = l.
Proof. intros H. rewrite MakeUint128_lxor by exact H. apply (lxor_small_l h l 64); [lia|exact H]. Qed.

Lemma hi_Make h l : in64 l -> hi (MakeUint128 h l) = h.
Proof. intros H. rewrite MakeUint128_lxor by exact H. apply (lxor_high h l 64); [lia|exact H]. Qed.

Lemma lxor_Make a b c d : in64 b -> in64 d -> Z.lxor (MakeUint128 a b) (MakeUint128 c d) = MakeUint128 (Z.lxor a c) (Z.lxor b d).
Proof.
  intros Hb Hd. rewrite !MakeUint128_lxor by (assumption || (apply (lxor_bound b d 64); [lia|exact Hb|exact Hd])).
  rewrite Z.shiftl_lxor. rewrite !Z.lxor_assoc. f_equal. rewrite <- !Z.lxor_assoc. f_equal. apply Z.lxor_comm.
Qed.

(** The single-block map keeps the low half only. *)
Lemma Sigma_eq x : in128 x -> Sigma x = MakeUint128 (lo x) 0.
Proof.
  intros H. unfold Sigma. rewrite shuffle_halves by exact H. unfold unpackhi_epi64. change (0 [>>] 64) with 0. change (x [>>] 64) with (hi x).
  rewrite lxor_Make by (apply hi_in; exact H). now rewrite Z.lxor_0_r, Z.lxor_nilpotent.
Qed.

(** The map on many blocks is [x.left ^ x.right || x.left], and injective. *)
Lemma Sigma_block_eq x : in128 x -> Sigma_block x = MakeUint128 (lo x) (Z.lxor (hi x) (lo x)).
Proof.
  intros H. unfold Sigma_block. rewrite shuffle_halves by exact H. unfold unpacklo_epi64. change (u64 0) with 0. change (u64 x) with (lo x).
  rewrite lxor_Make by (apply hi_in, H || apply lo_in). now rewrite Z.lxor_0_r.
Qed.

Lemma Sigma_block_inj x y : in128 x -> in128 y -> Sigma_block x = Sigma_block y -> x = y.
Proof.
  intros Hx Hy E. rewrite !Sigma_block_eq in E by assumption. pose proof (lo_in x) as Lx. pose proof (lo_in y) as Ly.
  pose proof (lxor_bound (hi x) (lo x) 64 ltac:(lia) (hi_in x Hx) Lx) as Bx. pose proof (lxor_bound (hi y) (lo y) 64 ltac:(lia) (hi_in y Hy) Ly) as By.
  pose proof (f_equal hi E) as E1. pose proof (f_equal lo E) as E2. rewrite !hi_Make in E1 by assumption. rewrite !lo_Make in E2 by assumption.
  rewrite (halves x Hx), (halves y Hy), <- E1. f_equal. rewrite <- E1 in E2. 
  rewrite <- (Z.lxor_0_r (hi x)), <- (Z.lxor_0_r (hi y)), <- (Z.lxor_nilpotent (lo x)), <- !Z.lxor_assoc. now rewrite E2.
Qed.

(** ** The functions *)

Section Laws.
Context {C : Cipher} {L : CipherLaws C}.

(** The permutation and the hash it gives. *)
Definition pi (x : Z) : Z := ecb AES128_ECB 0 0x12345678 x.
Definition cr (x : Z) : Z := Z.lxor (pi x) x.

Lemma CrHash_ok x : CrHash_128 x = Some (cr x).
Proof. unfold CrHash_128, Gen. cbn [ctype_ key_ iv_ GetCrHashDefaultRP]. now rewrite Encrypt_block_ok. Qed.

Lemma Gen_ok s : GenForMultiInputs GetCrHashDefaultRP s = Some (map pi s).
Proof. apply Encrypt_blocks_ok. reflexivity. Qed.

Lemma xor_spans_map f s : xor_spans (map f s) s = map (fun x => Z.lxor (f x) x) s /\ xor_spans s (map f s) = map (fun x => Z.lxor (f x) x) s.
Proof.
  unfold xor_spans. induction s as [|x s [IH1 IH2]]; [now split|]. cbn [map combine fst snd]. rewrite IH1, IH2, (Z.lxor_comm x). now split.
Qed.

Lemma ParaCrHash_ok x : ParaCrHash_128 x = Some (map cr x).
Proof. unfold ParaCrHash_128. rewrite Gen_ok. f_equal. apply xor_spans_map. Qed.

Lemma cr_batch_maps : maps cr_batch cr.
Proof. intros s. unfold cr_batch. rewrite Gen_ok. f_equal. apply xor_spans_map. Qed.

Lemma upto_0 g l : upto g 0 l = l.
Proof. reflexivity. Qed.

Lemma ParaCrHashInplace_ok : maps ParaCrHashInplace_128 cr.
Proof.
  intros s. unfold ParaCrHashInplace_128. cbv zeta.
  destruct (batch_loop_ok (fun offset size => (offset + kBatchSize <=? size)%nat) _ _ s (maps_all _ _ _ cr_batch_maps)
    (fun o H => proj1 (Nat.leb_le _ _) H) (S (length s)) 0 ltac:(lia) ltac:(lia)) as (o & E & Ho & _).
  rewrite upto_0 in E. rewrite E.
  destruct (Nat.ltb_spec 0 (length s - o)).
  - rewrite (on_subspan_upto _ _ _ _ _ (maps_all _ _ _ cr_batch_maps)) by lia. f_equal. apply upto_all. lia.
  - f_equal. apply upto_all. lia.
Qed.

(** Spans of fewer than 2^32 blocks are mapped whole. *)
Lemma num_all (s : list Z) : Z.of_nat (length s) < 2 ^ 32 -> Z.to_nat (u32 (Z.of_nat (length s))) = length s.
Proof. intros H. unfold u32, uwrap. rewrite Z.mod_small by lia. apply Nat2Z.id. Qed.

Lemma ccr_batch_maps : maps_upto kBatchSize ccr_batch (fun x => cr (Sigma_block x)).
Proof.
  intros s Hs. unfold ccr_batch. rewrite ParaCrHashInplace_ok. unfold SigmaInplace. cbv zeta.
  rewrite num_all by (unfold kBatchSize in Hs; lia). rewrite firstn_all, skipn_all, app_nil_r. now rewrite map_map.
Qed.

(** The hash to a new vector stops at the number kept in 32 bits. *)
Lemma ParaCcrHash_ok s : ParaCcrHash_128 s = Some (map (fun x => cr (Sigma_block x)) (firstn (Z.to_nat (u32 (Z.of_nat (length s)))) s)).
Proof. unfold ParaCcrHash_128. rewrite ParaCrHashInplace_ok. unfold Sigma_vector. cbv zeta. now rewrite map_map. Qed.

Lemma ParaCcrHashInplace_ok : maps ParaCcrHashInplace_128 (fun x => cr (Sigma_block x)).
Proof.
  intros s. unfold ParaCcrHashInplace_128. cbv zeta.
  destruct (batch_loop_ok (fun offset size => (offset + kBatchSize <? size)%nat) _ _ s ccr_batch_maps
    (fun o H => Nat.lt_le_incl _ _ (proj1 (Nat.ltb_lt _ _) H)) (S (length s)) 0 ltac:(lia) ltac:(lia)) as (o & E & Ho & Hn).
  rewrite upto_0 in E. rewrite E. apply Nat.ltb_ge in Hn.
  rewrite (on_subspan_upto _ _ _ _ _ (maps_le kBatchSize (length s - o) _ _ ltac:(lia) ccr_batch_maps)) by lia. f_equal. apply upto_all. lia.
Qed.
End Laws.
