(* ===== verification/OtStore.v ===== *)
(** Stores of oblivious transfers ([ot/slice_base], [ot/ot_store], [ot/ot_store_utils]).
    A store is a window on buffers it shares with the stores it was sliced from:
    the buffers live in a heap, a store holds pointers and the four counters of
    [SliceBase].  [None] stands for an exception, or for an access outside of a
    buffer or through a null pointer, which the C++ does not define.

    What the stores hold: the window of a store, as a list of choices
    and messages or of pairs of messages; reading, writing through shared buffers,
    slicing, copying; and pairs of stores whose messages belong together. *)
From Stdlib Require Import ZArith Lia List Bool.
From S2P Require Import Prelude.
From S2P Require Import Errors.
From S2P Require Import Int128.
From S2P Require Import Bitset.
From S2P Require Import BitsetOps.
Import ListNotations.

(** ** The heap *)

Record heap := Heap { vectors : list (list Z); bitsets : list dynamic_bitset }.
Definition get_vector (h : heap) (p : option nat) : option (list Z) :=
  match p with Some p => nth_error (vectors h) p | None => None end.
Definition get_bitset (h : heap) (p : option nat) : option dynamic_bitset :=
  match p with Some p => nth_error (bitsets h) p | None => None end.
Definition set_vector (h : heap) (p : option nat) (v : list Z) : heap :=
  match p with Some p => Heap (upd (vectors h) p v) (bitsets h) | None => h end.
Definition set_bitset (h : heap) (p : option nat) (b : dynamic_bitset) : heap :=
  match p with Some p => Heap (vectors h) (upd (bitsets h) p b) | None => h end.
(** [std::make_shared] *)
Definition new_vector (h : heap) (v : list Z) : heap * option nat :=
  (Heap (vectors h ++ [v]) (bitsets h), Some (length (vectors h))).
Definition new_bitset (h : heap) (b : dynamic_bitset) : heap * option nat :=
  (Heap (vectors h) (bitsets h ++ [b]), Some (length (bitsets h))).

(** [operator[]] of a vector *)
Definition vector_get (l : list Z) (i : Z) : option Z := nth_error l (Z.to_nat i).
Definition vector_set (l : list Z) (i v : Z) : option (list Z) :=
  if (Z.to_nat i <? length l)%nat then Some (upd l (Z.to_nat i) v) else None.
(** A vector made from two iterators. *)
Definition vector_copy (l : list Z) (first last : Z) : option (list Z) :=
  if (first <=? last) && (last <=? Z.of_nat (length l)) then
    Some (firstn (Z.to_nat (last - first)) (skipn (Z.to_nat first) l))
  else None.

(** ** SliceBase *)

Record SliceBase := Slice_ {
  internal_use_ctr_ : Z;   (* slice begin position in buffer *)
  internal_use_size_ : Z;  (* allowed slice size *)
  internal_buf_ctr_ : Z;   (* next slice position *)
  internal_buf_size_ : Z   (* underlying buffer max size *)
}.
Definition IsSliced (s : SliceBase) : bool := negb (internal_buf_ctr_ s =? 0).
Definition ResetSlice (s : SliceBase) : SliceBase := Slice_ 0 (internal_buf_size_ s) 0 (internal_buf_size_ s).
Definition SliceBase_ConsistencyCheck (s : SliceBase) : bool :=
  (0 <? internal_use_size_ s) && (0 <? internal_buf_size_ s) &&
  (internal_use_size_ s <=? internal_buf_size_ s) && (internal_buf_ctr_ s <=? internal_buf_size_ s).
Definition GetBufIdx (s : SliceBase) (slice_idx : Z) : option Z :=
  YACL_ENFORCE (slice_idx <? internal_use_size_ s) (Some (u64 (internal_use_ctr_ s + slice_idx))).
Definition IncreaseBufCtr (s : SliceBase) (size : Z) : option SliceBase :=
  YACL_ENFORCE (size <=? u64 (internal_buf_size_ s - internal_buf_ctr_ s))
    (Some (Slice_ (internal_use_ctr_ s) (internal_use_size_ s) (u64 (internal_buf_ctr_ s + size)) (internal_buf_size_ s))).
(** [InitCtrs] and [Reset] end in the virtual [ConsistencyCheck] of the store. *)
Definition InitCtrs (check : SliceBase -> bool) (use_ctr use_size buf_ctr buf_size : Z) : option SliceBase :=
  let s := Slice_ use_ctr use_size buf_ctr buf_size in
  YACL_ENFORCE (check s) (Some s).
Definition SliceBase_Reset (check : SliceBase -> bool) : option SliceBase :=
  let s := Slice_ 0 0 0 0 in
  YACL_ENFORCE (check s) (Some s).

Inductive OtStoreType := Normal | Compact.
Definition is_compact (t : OtStoreType) : bool := match t with Compact => true | Normal => false end.

(** ** OtRecvStore *)

Record OtRecvStore := RecvStore {
  r_slice : SliceBase;
  r_type : OtStoreType;
  r_bit_buf : option nat;
  r_blk_buf : option nat
}.

Definition recv_check (h : heap) (type : OtStoreType) (bit_ptr blk_ptr : option nat) (s : SliceBase) : bool :=
  SliceBase_ConsistencyCheck s &&
  match get_vector h blk_ptr with
  | Some blk =>
      (internal_buf_size_ s <=? Z.of_nat (length blk)) &&
      (if is_compact type then true
       else match get_bitset h bit_ptr with Some bit => (size bit =? length blk)%nat | None => false end)
  | None => false
  end.
Definition recv_ConsistencyCheck (h : heap) (st : OtRecvStore) : bool :=
  recv_check h (r_type st) (r_bit_buf st) (r_blk_buf st) (r_slice st).

(** The full constructor. *)
Definition recv_store (h : heap) (bit_ptr blk_ptr : option nat) (use_ctr use_size buf_ctr buf_size : Z) (type : OtStoreType)
  : option OtRecvStore :=
  let? s := InitCtrs (recv_check h type bit_ptr blk_ptr) use_ctr use_size buf_ctr buf_size in
  let st := RecvStore s type bit_ptr blk_ptr in
  YACL_ENFORCE (recv_ConsistencyCheck h st) (Some st).
(** The empty store of [num] transfers. *)
Definition recv_store_empty (h : heap) (num : Z) (type : OtStoreType) : option (OtRecvStore * heap) :=
  let '(h, bit_ptr) := if is_compact type then (h, None) else new_bitset h (bitset_init 128 (Z.to_nat num) 0) in
  let '(h, blk_ptr) := new_vector h (repeat 0 (Z.to_nat num)) in
  let? s := InitCtrs (recv_check h type bit_ptr blk_ptr) 0 num 0 num in
  let st := RecvStore s type bit_ptr blk_ptr in
  YACL_ENFORCE (recv_ConsistencyCheck h st) (Some (st, h)).

Definition recv_Size (st : OtRecvStore) : Z := internal_use_size_ (r_slice st).

Definition recv_Slice (h : heap) (st : OtRecvStore) (begin_ end_ : Z) : option OtRecvStore :=
  recv_store h (r_bit_buf st) (r_blk_buf st) begin_ (u64 (end_ - begin_)) begin_ end_ (r_type st).

(** The new slice, and the store with its counter advanced. *)
Definition recv_NextSlice (h : heap) (st : OtRecvStore) (num : Z) : option (OtRecvStore * OtRecvStore) :=
  let ctr := internal_buf_ctr_ (r_slice st) in
  let? out := recv_Slice h st ctr (u64 (ctr + num)) in
  let? s := IncreaseBufCtr (r_slice st) num in
  Some (out, RecvStore s (r_type st) (r_bit_buf st) (r_blk_buf st)).

Definition recv_Reset (h : heap) (st : OtRecvStore) : option OtRecvStore :=
  let? s := SliceBase_Reset (recv_check h (r_type st) (r_bit_buf st) (r_blk_buf st)) in
  let st := RecvStore s Compact None None in
  YACL_ENFORCE (recv_ConsistencyCheck h st) (Some st).

Definition recv_GetBlock (h : heap) (st : OtRecvStore) (idx : Z) : option Z :=
  YACL_ENFORCE (idx <? internal_use_size_ (r_slice st))
    (let? i := GetBufIdx (r_slice st) idx in
     let? blk := get_vector h (r_blk_buf st) in
     vector_get blk i).
Definition recv_SetBlock (h : heap) (st : OtRecvStore) (idx val : Z) : option heap :=
  let? i := GetBufIdx (r_slice st) idx in
  let? blk := get_vector h (r_blk_buf st) in
  let? blk := vector_set blk i val in
  Some (set_vector h (r_blk_buf st) blk).
(** The span covers the buffer from its start. *)
Definition recv_GetBlkBufSpan (h : heap) (st : OtRecvStore) : option (list Z) :=
  YACL_ENFORCE (negb (IsSliced (r_slice st)))
    (let? blk := get_vector h (r_blk_buf st) in vector_copy blk 0 (internal_buf_size_ (r_slice st))).
Definition recv_GetBlkBuf (h : heap) (st : OtRecvStore) : option (list Z) := get_vector h (r_blk_buf st).
Definition recv_StealBlkBuf (h : heap) (use_count : nat) (st : OtRecvStore) : option (option nat * OtRecvStore) :=
  YACL_ENFORCE (use_count =? 1)%nat
    (let ret := r_blk_buf st in
     let st := RecvStore (r_slice st) (r_type st) (r_bit_buf st) None in
     let? st := recv_Reset h st in
     Some (ret, st)).
Definition recv_CopyBlkBuf (h : heap) (st : OtRecvStore) : option (list Z) :=
  let? blk := get_vector h (r_blk_buf st) in
  vector_copy blk (internal_use_ctr_ (r_slice st)) (internal_use_ctr_ (r_slice st) + internal_use_size_ (r_slice st)).

(** Choices; an index past the end of the bitset is the assertion of [operator[]]. *)
Definition bit_get (b : dynamic_bitset) (i : Z) : option bool :=
  if (Z.to_nat i <? size b)%nat then Some (ref_get (reference_of 128 (Z.to_nat i)) b) else None.
Definition recv_GetChoice (h : heap) (st : OtRecvStore) (idx : Z) : option Z :=
  YACL_ENFORCE (idx <? internal_use_size_ (r_slice st))
    (let? i := GetBufIdx (r_slice st) idx in
     if is_compact (r_type st) then
       let? blk := get_vector h (r_blk_buf st) in
       let? v := vector_get blk i in
       Some (Z.land v 0x1)
     else
       let? bit := get_bitset h (r_bit_buf st) in
       let? v := bit_get bit i in
       Some (Z.b2z v)).
Definition recv_SetChoice (h : heap) (st : OtRecvStore) (idx : Z) (val : bool) : option heap :=
  YACL_ENFORCE (negb (is_compact (r_type st)))
    (let? i := GetBufIdx (r_slice st) idx in
     let? bit := get_bitset h (r_bit_buf st) in
     if (Z.to_nat i <? size bit)%nat then
       Some (set_bitset h (r_bit_buf st) (ref_assign 128 (reference_of 128 (Z.to_nat i)) bit val))
     else None).
Definition recv_FlipChoice (h : heap) (st : OtRecvStore) (idx : Z) : option heap :=
  YACL_ENFORCE (negb (is_compact (r_type st)))
    (let? i := GetBufIdx (r_slice st) idx in
     let? bit := get_bitset h (r_bit_buf st) in
     if (Z.to_nat i <? size bit)%nat then
       Some (set_bitset h (r_bit_buf st) (ref_flip (reference_of 128 (Z.to_nat i)) bit))
     else None).
Definition recv_GetBitBuf (h : heap) (st : OtRecvStore) : option (list Z) :=
  let? bit := get_bitset h (r_bit_buf st) in Some (m_blocks bit).
Definition recv_SetBitBuf (h : heap) (st : OtRecvStore) (in_ : dynamic_bitset) : OtRecvStore * heap :=
  let '(h, bit_ptr) := new_bitset h in_ in
  (RecvStore (r_slice st) (r_type st) bit_ptr (r_blk_buf st), h).

(** The loop of the compact case. *)
Fixpoint copy_bits (h : heap) (st : OtRecvStore) (i n : nat) (out : dynamic_bitset) : option dynamic_bitset :=
  match n with
  | O => Some out
  | S n =>
      let? v := recv_GetBlock h st (Z.of_nat i) in
      copy_bits h st (S i) n (ref_assign 128 (reference_of 128 i) out (negb (Z.land v 0x1 =? 0)))
  end.
Definition recv_CopyBitBuf (h : heap) (st : OtRecvStore) : option dynamic_bitset :=
  if is_compact (r_type st) then
    copy_bits h st 0 (Z.to_nat (recv_Size st)) (bitset_init 128 (Z.to_nat (recv_Size st)) 0)
  else
    let? out := get_bitset h (r_bit_buf st) in
    let out := shift_right 128 out (Z.to_nat (internal_use_ctr_ (r_slice st))) in
    Some (resize 128 out (Z.to_nat (internal_use_size_ (r_slice st))) false).

(** ** OtSendStore *)

Record OtSendStore := SendStore {
  s_slice : SliceBase;
  s_type : OtStoreType;
  delta_ : Z;
  s_blk_buf : option nat
}.

Definition send_check (h : heap) (blk_ptr : option nat) (s : SliceBase) : bool :=
  SliceBase_ConsistencyCheck s &&
  match get_vector h blk_ptr with
  | Some blk => internal_buf_size_ s <=? Z.of_nat (length blk)
  | None => false
  end.
Definition send_ConsistencyCheck (h : heap) (st : OtSendStore) : bool := send_check h (s_blk_buf st) (s_slice st).

Definition send_store (h : heap) (blk_ptr : option nat) (delta use_ctr use_size buf_ctr buf_size : Z) (type : OtStoreType)
  : option OtSendStore :=
  let? s := InitCtrs (send_check h blk_ptr) use_ctr use_size buf_ctr buf_size in
  let st := SendStore s type delta blk_ptr in
  YACL_ENFORCE (send_ConsistencyCheck h st) (Some st).
Definition send_store_empty (h : heap) (num : Z) (type : OtStoreType) : option (OtSendStore * heap) :=
  let buf_size := if is_compact type then num else u64 (num * 2) in
  let '(h, blk_ptr) := new_vector h (repeat 0 (Z.to_nat buf_size)) in
  let? s := InitCtrs (send_check h blk_ptr) 0 buf_size 0 buf_size in
  let st := SendStore s type 0 blk_ptr in
  YACL_ENFORCE (send_ConsistencyCheck h st) (Some (st, h)).

Definition send_Reset (h : heap) (st : OtSendStore) : option OtSendStore :=
  let? s := SliceBase_Reset (send_check h (s_blk_buf st)) in
  let st := SendStore s Compact (delta_ st) None in
  YACL_ENFORCE (send_ConsistencyCheck h st) (Some st).

(** Blocks per transfer. *)
Definition ot_blk_num (st : OtSendStore) : Z := if is_compact (s_type st) then 1 else 2.

Definition send_Slice (h : heap) (st : OtSendStore) (begin_ end_ : Z) : option OtSendStore :=
  let n := ot_blk_num st in
  send_store h (s_blk_buf st) (delta_ st) (u64 (begin_ * n)) (u64 (u64 (end_ - begin_) * n))
    (u64 (begin_ * n)) (u64 (end_ * n)) (s_type st).
Definition send_NextSlice (h : heap) (st : OtSendStore) (num : Z) : option (OtSendStore * OtSendStore) :=
  let n := ot_blk_num st in
  let ctr := internal_buf_ctr_ (s_slice st) in
  let? out := send_Slice h st (ctr / n) (u64 (ctr / n + num)) in
  let? s := IncreaseBufCtr (s_slice st) (u64 (num * n)) in
  Some (out, SendStore s (s_type st) (delta_ st) (s_blk_buf st)).

Definition send_Size (st : OtSendStore) : Z :=
  if is_compact (s_type st) then internal_use_size_ (s_slice st) else internal_use_size_ (s_slice st) / 2.
Definition send_GetDelta (st : OtSendStore) : option Z := YACL_ENFORCE (negb (delta_ st =? 0)) (Some (delta_ st)).
Definition send_SetDelta (st : OtSendStore) (delta : Z) : option OtSendStore :=
  YACL_ENFORCE (negb (delta =? 0)) (Some (SendStore (s_slice st) (s_type st) delta (s_blk_buf st))).

Definition send_GetBlock (h : heap) (st : OtSendStore) (ot_idx msg_idx : Z) : option Z :=
  YACL_ENFORCE ((msg_idx =? 0) || (msg_idx =? 1))
    (if delta_ st =? 0 then
       let? i := GetBufIdx (s_slice st) (u64 (2 * ot_idx)) in
       let? blk := get_vector h (s_blk_buf st) in
       vector_get blk (u64 (i + msg_idx))
     else
       let? i := GetBufIdx (s_slice st) (u64 (ot_blk_num st * ot_idx)) in
       let? blk := get_vector h (s_blk_buf st) in
       let? v := vector_get blk i in
       Some (Z.lxor v (u128 (delta_ st * msg_idx)))).
Definition send_SetNormalBlock (h : heap) (st : OtSendStore) (ot_idx msg_idx val : Z) : option heap :=
  YACL_ENFORCE (negb (is_compact (s_type st)))
    (YACL_ENFORCE ((msg_idx =? 0) || (msg_idx =? 1))
      (let? i := GetBufIdx (s_slice st) (u64 (u64 (ot_idx * 2) + msg_idx)) in
       let? blk := get_vector h (s_blk_buf st) in
       let? blk := vector_set blk i val in
       Some (set_vector h (s_blk_buf st) blk))).
Definition send_SetCompactBlock (h : heap) (st : OtSendStore) (ot_idx val : Z) : option heap :=
  YACL_ENFORCE (is_compact (s_type st))
    (let? i := GetBufIdx (s_slice st) ot_idx in
     let? blk := get_vector h (s_blk_buf st) in
     let? blk := vector_set blk i val in
     Some (set_vector h (s_blk_buf st) blk)).
Definition send_GetBlkBuf (h : heap) (st : OtSendStore) : option (list Z) := get_vector h (s_blk_buf st).
Definition send_GetBlkBufSpan (h : heap) (st : OtSendStore) : option (list Z) :=
  YACL_ENFORCE (negb (IsSliced (s_slice st)))
    (let? blk := get_vector h (s_blk_buf st) in vector_copy blk 0 (internal_buf_size_ (s_slice st))).
Definition send_StealBlkBuf (h : heap) (use_count : nat) (st : OtSendStore) : option (option nat * OtSendStore) :=
  YACL_ENFORCE (use_count =? 1)%nat
    (let ret := s_blk_buf st in
     let st := SendStore (s_slice st) (s_type st) (delta_ st) None in
     let? st := send_Reset h st in
     Some (ret, st)).
(** From the buffer counter on, not from the start of the slice. *)
Definition send_CopyCotBlkBuf (h : heap) (st : OtSendStore) : option (list Z) :=
  YACL_ENFORCE (is_compact (s_type st))
    (let? blk := get_vector h (s_blk_buf st) in
     vector_copy blk (internal_buf_ctr_ (s_slice st)) (internal_buf_ctr_ (s_slice st) + internal_use_size_ (s_slice st))).

(** ** Stores from messages (ot_store_utils) *)

(** The pairs, one after the other. *)
Definition flat_pairs (blocks : list (Z * Z)) : list Z := flat_map (fun p => [fst p; snd p]) blocks.
Definition MakeOtSendStore (h : heap) (blocks : list (Z * Z)) : option (OtSendStore * heap) :=
  let '(h, buf_ptr) := new_vector h (flat_pairs blocks) in
  let n := Z.of_nat (length blocks) * 2 in
  let? st := send_store h buf_ptr 0 0 n 0 n Normal in
  Some (st, h).
Definition MakeCompactOtSendStore (h : heap) (blocks : list Z) (delta : Z) : option (OtSendStore * heap) :=
  let '(h, buf_ptr) := new_vector h blocks in
  let n := Z.of_nat (length blocks) in
  let? st := send_store h buf_ptr delta 0 n 0 n Compact in
  Some (st, h).
Definition MakeOtRecvStore (h : heap) (choices : dynamic_bitset) (blocks : list Z) : option (OtRecvStore * heap) :=
  let '(h, tmp1_ptr) := new_bitset h choices in
  let '(h, tmp2_ptr) := new_vector h blocks in
  let n := Z.of_nat (size choices) in
  let? st := recv_store h tmp1_ptr tmp2_ptr 0 n 0 n Normal in
  Some (st, h).
Definition MakeCompactOtRecvStore (h : heap) (blocks : list Z) : option (OtRecvStore * heap) :=
  let '(h, tmp_ptr) := new_vector h blocks in
  let n := Z.of_nat (length blocks) in
  let? st := recv_store h None tmp_ptr 0 n 0 n Compact in
  Some (st, h).

(** Stores without a protocol, for tests: [gen i] is the i-th block of the generator. *)
Definition MockRots (h : heap) (gen : nat -> Z) (num : nat) (choices : dynamic_bitset)
  : option (OtSendStore * OtRecvStore * heap) :=
  YACL_ENFORCE (size choices =? num)%nat
    (let send_blocks := map (fun i => (gen (2 * i)%nat, gen (2 * i + 1)%nat)) (seq 0 num) in
     let recv_blocks := map (fun i => if test_bit 128 choices i then gen (2 * i + 1)%nat else gen (2 * i)%nat) (seq 0 num) in
     let? (send, h) := MakeOtSendStore h send_blocks in
     let? (recv, h) := MakeOtRecvStore h choices recv_blocks in
     Some (send, recv, h)).
Definition MockCots (h : heap) (gen : nat -> Z) (num : nat) (delta : Z) (choices : dynamic_bitset)
  : option (OtSendStore * OtRecvStore * heap) :=
  YACL_ENFORCE (size choices =? num)%nat
    (let send_blocks := map gen (seq 0 num) in
     let recv_blocks := map (fun i => if negb (test_bit 128 choices i) then gen i else Z.lxor (gen i) delta) (seq 0 num) in
     let? (send, h) := MakeCompactOtSendStore h send_blocks delta in
     let? (recv, h) := MakeOtRecvStore h choices recv_blocks in
     Some (send, recv, h)).
Definition MockCompactOts (h : heap) (gen : nat -> Z) (num : nat) (rand : Z) : option (OtSendStore * OtRecvStore * heap) :=
  let delta := Z.lor rand 0x1 in
  let recv_blocks := map gen (seq 0 num) in
  let send_blocks := map (fun i => Z.lxor (gen i) (u128 (Z.land (gen i) 0x1 * delta))) (seq 0 num) in
  let? (send, h) := MakeCompactOtSendStore h send_blocks delta in
  let? (recv, h) := MakeCompactOtRecvStore h recv_blocks in
  Some (send, recv, h).

(** ** Well-formed stores and what they hold *)

Definition choice_of (h : heap) (st : OtRecvStore) (blk : list Z) (i : nat) : bool :=
  if is_compact (r_type st) then Z.odd (nth i blk 0)
  else match get_bitset h (r_bit_buf st) with Some bit => bit_at 128 bit i | None => false end.

(** The window of a receiver's store: choices with their messages. *)
Definition recv_view (h : heap) (st : OtRecvStore) : list (bool * Z) :=
  match get_vector h (r_blk_buf st) with
  | Some blk => map (fun i => (choice_of h st blk i, nth i blk 0))
                  (seq (Z.to_nat (internal_use_ctr_ (r_slice st))) (Z.to_nat (internal_use_size_ (r_slice st))))
  | None => []
  end.

Definition slice_ok (s : SliceBase) (len : Z) : Prop :=
  0 <= internal_use_ctr_ s /\ 0 < internal_use_size_ s /\ internal_use_ctr_ s + internal_use_size_ s <= len /\
  0 <= internal_buf_ctr_ s <= internal_buf_size_ s /\ internal_use_size_ s <= internal_buf_size_ s <= len /\ len < 2 ^ 64.

Definition recv_ok (h : heap) (st : OtRecvStore) : Prop :=
  exists blk, get_vector h (r_blk_buf st) = Some blk /\ slice_ok (r_slice st) (Z.of_nat (length blk)) /\
    (r_type st = Normal -> exists bit, get_bitset h (r_bit_buf st) = Some bit /\ wf 128 bit /\ size bit = length blk).

(** Nothing sliced off yet: a new store, or a new slice. *)
Definition fresh (s : SliceBase) : Prop :=
  internal_buf_ctr_ s = internal_use_ctr_ s /\ internal_buf_size_ s = internal_use_ctr_ s + internal_use_size_ s.

Lemma u64_id z : 0 <= z < 2 ^ 64 -> u64 z = z.
Proof. apply Z.mod_small. Qed.

Lemma slice_index s len i : slice_ok s len -> 0 <= i -> GetBufIdx s i = if i <? internal_use_size_ s then Some (internal_use_ctr_ s + i) else None.
Proof.
  intros H Hi. unfold slice_ok in H. unfold GetBufIdx, YACL_ENFORCE. destruct (Z.ltb_spec i (internal_use_size_ s)); [|reflexivity].
  rewrite u64_id by lia. reflexivity.
Qed.

Lemma nth_error_seq_map {A} (f : nat -> A) a n i : nth_error (map f (seq a n)) i = if (i <? n)%nat then Some (f (a + i)%nat) else None.
Proof.
  rewrite nth_error_map. destruct (Nat.ltb_spec i n) as [H|H].
  - now rewrite (nth_error_nth' _ 0%nat), seq_nth by (rewrite ?length_seq; exact H).
  - now rewrite (proj2 (nth_error_None _ _)) by (rewrite length_seq; exact H).
Qed.

Lemma recv_view_length h st : recv_ok h st -> Z.of_nat (length (recv_view h st)) = recv_Size st.
Proof.
  intros (blk & Hb & H & _). unfold slice_ok in H. unfold recv_view, recv_Size. rewrite Hb, length_map, length_seq. lia.
Qed.

Lemma recv_view_nth h st blk i : recv_ok h st -> get_vector h (r_blk_buf st) = Some blk -> 0 <= i ->
  nth_error (recv_view h st) (Z.to_nat i) =
    if i <? recv_Size st then Some (choice_of h st blk (Z.to_nat (internal_use_ctr_ (r_slice st) + i)),
                                    nth (Z.to_nat (internal_use_ctr_ (r_slice st) + i)) blk 0) else None.
Proof.
  intros (blk' & Hb & H & _) Hb' Hi. unfold slice_ok in H. unfold recv_view, recv_Size. rewrite Hb' in *. injection Hb as ->.
  rewrite nth_error_seq_map. replace (Z.to_nat i <? Z.to_nat (internal_use_size_ (r_slice st)))%nat with (i <? internal_use_size_ (r_slice st)).
  - destruct (i <? _); [|reflexivity]. now rewrite Z2Nat.inj_add by lia.
  - destruct (Z.ltb_spec i (internal_use_size_ (r_slice st))), (Nat.ltb_spec (Z.to_nat i) (Z.to_nat (internal_use_size_ (r_slice st)))); lia.
Qed.

Lemma recv_GetBlock_ok h st i : recv_ok h st -> 0 <= i ->
  recv_GetBlock h st i = option_map snd (nth_error (recv_view h st) (Z.to_nat i)).
Proof.
  intros Ho Hi. pose proof Ho as (blk & Hb & H & _). rewrite (recv_view_nth h st blk) by assumption.
  unfold recv_GetBlock, YACL_ENFORCE, recv_Size. rewrite (slice_index _ _ i H Hi), Hb.
  destruct (Z.ltb_spec i (internal_use_size_ (r_slice st))); [|reflexivity]. cbn [option_map snd]. unfold slice_ok in H.
  apply nth_error_nth'. lia.
Qed.

Lemma pos128 : (0 < 128)%nat.
Proof. lia. Qed.

Lemma bit_get_ok b i : (Z.to_nat i < size b)%nat -> bit_get b i = Some (bit_at 128 b (Z.to_nat i)).
Proof.
  intros Hi. unfold bit_get. rewrite (proj2 (Nat.ltb_lt _ _) Hi). f_equal.
  destruct (reference_ok 128 b (Z.to_nat i) true) as [-> _]. apply (test_bit_ok 128 pos128).
Qed.

Lemma land_1_odd v : Z.land v 1 = Z.b2z (Z.odd v).
Proof. change (Z.land v 1) with (Z.land v (Z.ones 1)). rewrite Z.land_ones by lia. change (2 ^ 1) with 2. rewrite Zmod_odd. now destruct (Z.odd v). Qed.

Lemma recv_GetChoice_ok h st i : recv_ok h st -> 0 <= i ->
  recv_GetChoice h st i = option_map (fun p => Z.b2z (fst p)) (nth_error (recv_view h st) (Z.to_nat i)).
Proof.
  intros Ho Hi. pose proof Ho as (blk & Hb & H & Hn). rewrite (recv_view_nth h st blk) by assumption.
  unfold recv_GetChoice, YACL_ENFORCE, recv_Size, choice_of. rewrite (slice_index _ _ i H Hi), Hb.
  destruct (Z.ltb_spec i (internal_use_size_ (r_slice st))); [|reflexivity]. cbn [option_map fst]. unfold slice_ok in H.
  destruct (r_type st); cbn [is_compact].
  - destruct (Hn eq_refl) as (bit & Hbit & W & S'). rewrite Hbit. rewrite bit_get_ok by lia. reflexivity.
  - unfold vector_get. rewrite (nth_error_nth' blk 0) by lia. cbn [Z.land]. now rewrite land_1_odd.
Qed.

(** *** Slices *)

Lemma recv_store_spec h bit_ptr blk_ptr a n c d type st :
  recv_store h bit_ptr blk_ptr a n c d type = Some st <->
  st = RecvStore (Slice_ a n c d) type bit_ptr blk_ptr /\ recv_check h type bit_ptr blk_ptr (Slice_ a n c d) = true.
Proof.
  unfold recv_store, InitCtrs, recv_ConsistencyCheck, YACL_ENFORCE. cbn [r_type r_bit_buf r_blk_buf r_slice].
  destruct (recv_check _ _ _ _ _) eqn:E; cbn [r_type r_bit_buf r_blk_buf r_slice]; rewrite ?E; intuition congruence.
Qed.

Lemma recv_check_spec h st blk s : recv_ok h st -> get_vector h (r_blk_buf st) = Some blk ->
  recv_check h (r_type st) (r_bit_buf st) (r_blk_buf st) s = true <->
  0 < internal_use_size_ s /\ 0 < internal_buf_size_ s /\ internal_use_size_ s <= internal_buf_size_ s /\
  internal_buf_ctr_ s <= internal_buf_size_ s <= Z.of_nat (length blk).
Proof.
  intros (blk' & Hb & _ & Hn) Hb'. rewrite Hb' in Hb. injection Hb as <-. unfold recv_check, SliceBase_ConsistencyCheck. rewrite Hb'.
  rewrite !andb_true_iff, !Z.ltb_lt, !Z.leb_le. destruct (r_type st); cbn [is_compact].
  - destruct (Hn eq_refl) as (bit & -> & _ & ->). rewrite Nat.eqb_refl. intuition lia.
  - intuition lia.
Qed.

(** A slice is made exactly for a nonempty range of the buffer. *)
Lemma recv_Slice_ok h st blk b e : recv_ok h st -> get_vector h (r_blk_buf st) = Some blk -> 0 <= b < 2 ^ 64 -> 0 <= e < 2 ^ 64 ->
  if (b <? e) && (e <=? Z.of_nat (length blk))
  then exists st', recv_Slice h st b e = Some st' /\ st' = RecvStore (Slice_ b (e - b) b e) (r_type st) (r_bit_buf st) (r_blk_buf st) /\
         recv_ok h st' /\ fresh (r_slice st')
  else recv_Slice h st b e = None.
Proof.
  intros Ho Hb Hb0 He. pose proof Ho as (blk' & Hb' & Hs & Hn). rewrite Hb in Hb'. injection Hb' as <-. unfold slice_ok in Hs. unfold recv_Slice.
  assert (U : u64 (e - b) = if b <=? e then e - b else e - b + 2 ^ 64).
  { destruct (Z.leb_spec b e); [apply u64_id; lia|]. unfold u64, uwrap. symmetry. apply (Z.mod_unique_pos _ _ (-1)); lia. }
  destruct (recv_store h (r_bit_buf st) (r_blk_buf st) b (u64 (e - b)) b e (r_type st)) as [st'|] eqn:E.
  - apply recv_store_spec in E as [-> K]. apply (recv_check_spec h st blk) in K; [|exact Ho|exact Hb]. cbn in K. rewrite U in *.
    destruct (Z.leb_spec b e); [|lia]. rewrite (proj2 (Z.ltb_lt b e)), (proj2 (Z.leb_le e _)) by lia. cbn [andb].
    eexists. split; [reflexivity|]. split; [reflexivity|]. split; [|split; cbn; lia].
    exists blk. split; [exact Hb|]. split; [unfold slice_ok; cbn; lia|exact Hn].
  - destruct (Z.ltb_spec b e), (Z.leb_spec e (Z.of_nat (length blk))); cbn [andb]; try reflexivity. exfalso.
    rewrite (proj2 (recv_store_spec _ _ _ _ _ _ _ _ (RecvStore (Slice_ b (u64 (e - b)) b e) (r_type st) (r_bit_buf st) (r_blk_buf st)))) in E; [discriminate|].
    split; [reflexivity|]. apply (recv_check_spec h st blk _ Ho Hb). cbn. rewrite U. destruct (Z.leb_spec b e); lia.
Qed.

(** The window of a slice, cut out of the buffer. *)
Lemma recv_view_window h st blk : get_vector h (r_blk_buf st) = Some blk ->
  recv_view h st = map (fun i => (choice_of h st blk i, nth i blk 0))
    (seq (Z.to_nat (internal_use_ctr_ (r_slice st))) (Z.to_nat (internal_use_size_ (r_slice st)))).
Proof. intros H. unfold recv_view. now rewrite H. Qed.

Lemma recv_NextSlice_ok h st blk n : recv_ok h st -> get_vector h (r_blk_buf st) = Some blk -> 0 <= n < 2 ^ 64 ->
  let s := r_slice st in let c := internal_buf_ctr_ s in
  if (0 <? n) && (c + n <=? internal_buf_size_ s)
  then exists out st', recv_NextSlice h st n = Some (out, st') /\
    out = RecvStore (Slice_ c n c (c + n)) (r_type st) (r_bit_buf st) (r_blk_buf st) /\ recv_ok h out /\ fresh (r_slice out) /\
    st' = RecvStore (Slice_ (internal_use_ctr_ s) (internal_use_size_ s) (c + n) (internal_buf_size_ s)) (r_type st) (r_bit_buf st) (r_blk_buf st) /\
    recv_ok h st'
  else recv_NextSlice h st n = None.
Proof.
  intros Ho Hb Hn. cbv zeta. pose proof Ho as (blk' & Hb' & Hs & Hty). rewrite Hb in Hb'. injection Hb' as <-. unfold slice_ok in Hs.
  set (s := r_slice st) in *. set (c := internal_buf_ctr_ s) in *. unfold recv_NextSlice. fold s. fold c.
  assert (Hu : 0 <= u64 (c + n) < 2 ^ 64) by (apply Z.mod_pos_bound; lia).
  pose proof (recv_Slice_ok h st blk c (u64 (c + n)) Ho Hb ltac:(lia) Hu) as X.
  assert (I : IncreaseBufCtr s n = if c + n <=? internal_buf_size_ s then Some (Slice_ (internal_use_ctr_ s) (internal_use_size_ s) (c + n) (internal_buf_size_ s)) else None).
  { unfold IncreaseBufCtr, YACL_ENFORCE. fold c. rewrite (u64_id (internal_buf_size_ s - c)) by lia.
    destruct (Z.leb_spec n (internal_buf_size_ s - c)), (Z.leb_spec (c + n) (internal_buf_size_ s)); try lia; [|reflexivity].
    rewrite u64_id by lia. reflexivity. }
  destruct (Z.ltb_spec 0 n); cbn [andb].
  2: { replace n with 0 in * by lia. rewrite Z.add_0_r in *. rewrite (u64_id c) in * by lia. rewrite Z.ltb_irrefl in X. cbn [andb] in X. now rewrite X. }
  rewrite I. destruct (Z.leb_spec (c + n) (internal_buf_size_ s)) as [L|G].
  - rewrite (u64_id (c + n)) in * by lia. rewrite (proj2 (Z.ltb_lt c (c + n))), (proj2 (Z.leb_le (c + n) _)) in X by lia.
    cbn [andb] in X. destruct X as (out & -> & Eo & Ko & Fo). replace (c + n - c) with n in Eo by lia.
    do 2 eexists. split; [reflexivity|]. split; [exact Eo|]. split; [exact Ko|]. split; [exact Fo|]. split; [reflexivity|].
    exists blk. split; [exact Hb|]. split; [unfold slice_ok; cbn; lia|exact Hty].
  - destruct ((c <? u64 (c + n)) && (u64 (c + n) <=? Z.of_nat (length blk))); [destruct X as (out & -> & _); reflexivity|now rewrite X].
Qed.

(** Any number of slices. *)
Fixpoint next_slices (h : heap) (st : OtRecvStore) (ns : list Z) : option (list OtRecvStore * OtRecvStore) :=
  match ns with
  | [] => Some ([], st)
  | n :: ns =>
      let? (out, st) := recv_NextSlice h st n in
      let? (outs, st) := next_slices h st ns in
      Some (out :: outs, st)
  end.

Definition total (ns : list Z) : Z := fold_right Z.add 0 ns.

Lemma total_nonneg ns : Forall (fun n => 0 <= n < 2 ^ 64) ns -> 0 <= total ns.
Proof. intros F. induction F; cbn [total fold_right]; [lia|]. unfold total in IHF. lia. Qed.

(** Slices follow each other and together are one window, from the counter on. *)
Lemma next_slices_ok h blk ns : forall st, recv_ok h st -> get_vector h (r_blk_buf st) = Some blk ->
  Forall (fun n => 0 <= n < 2 ^ 64) ns ->
  let s := r_slice st in let c := internal_buf_ctr_ s in
  if forallb (Z.ltb 0) ns && (c + total ns <=? internal_buf_size_ s)
  then exists outs st', next_slices h st ns = Some (outs, st') /\ recv_ok h st' /\ Forall (recv_ok h) outs /\
    map recv_Size outs = ns /\ recv_view h st' = recv_view h st /\
    concat (map (recv_view h) outs) = map (fun i => (choice_of h st blk i, nth i blk 0)) (seq (Z.to_nat c) (Z.to_nat (total ns)))
  else next_slices h st ns = None.
Proof.
  induction ns as [|n ns IH]; intros st Ho Hb F; cbv zeta.
  - cbn [forallb total fold_right]. pose proof Ho as (blk' & _ & Hs & _). unfold slice_ok in Hs.
    rewrite (proj2 (Z.leb_le _ _)) by lia. cbn [andb]. exists [], st. repeat (split; [assumption || reflexivity || constructor|]). reflexivity.
  - apply Forall_cons_iff in F as [Hn F]. pose proof (total_nonneg ns F) as Ht. pose proof (recv_NextSlice_ok h st blk n Ho Hb Hn) as X. cbv zeta in X.
    cbn [forallb total fold_right next_slices]. fold (total ns). set (s := r_slice st) in *. set (c := internal_buf_ctr_ s) in *.
    destruct (Z.ltb_spec 0 n); cbn [andb] in *; [|now rewrite X].
    pose proof Ho as (blk' & Hb' & Hs & _). rewrite Hb in Hb'. injection Hb' as <-. unfold slice_ok in Hs. fold s in Hs. fold c in Hs.
    destruct (Z.leb_spec (c + n) (internal_buf_size_ s)) as [L|G].
    + destruct X as (out & st' & -> & Eo & Ko & _ & Es & Ks).
      specialize (IH st' Ks ltac:(now rewrite Es) F). cbv zeta in IH.
      assert (Ec : internal_buf_ctr_ (r_slice st') = c + n) by (now rewrite Es).
      assert (Eb : internal_buf_size_ (r_slice st') = internal_buf_size_ s) by (now rewrite Es). rewrite Ec, Eb in IH. replace (c + (n + total ns)) with (c + n + total ns) by lia.
      destruct (forallb (Z.ltb 0) ns && (c + n + total ns <=? internal_buf_size_ s)); [|now rewrite IH].
      destruct IH as (outs & st2 & -> & K2 & Fo & Sz & Vs & V). do 2 eexists. split; [reflexivity|]. split; [exact K2|].
      split; [now constructor|]. split; [cbn [map]; rewrite Sz, Eo; reflexivity|]. split; [rewrite Vs, Es; reflexivity|].
      cbn [map concat]. rewrite V, Es. rewrite (recv_view_window h out blk) by (now rewrite Eo). rewrite Eo. cbn [r_slice internal_use_ctr_ internal_use_size_].
      rewrite !Z2Nat.inj_add, seq_app, map_app by lia. reflexivity.
    + rewrite X. rewrite (proj2 (Z.leb_gt _ _)) by lia. now rewrite andb_false_r.
Qed.

(** *** Writes, seen by every store on the buffer *)

Definition same_buf (p q : option nat) : bool :=
  match p, q with Some p, Some q => (p =? q)%nat | _, _ => false end.

Lemma get_set_vector h p v q x : get_vector h p = Some x -> get_vector (set_vector h p v) q = if same_buf p q then Some v else get_vector h q.
Proof.
  destruct p as [p|]; [|discriminate]. cbn [get_vector set_vector]. intros E. destruct q as [q|]; [|reflexivity]. cbn [get_vector same_buf vectors].
  assert (L : (p < length (vectors h))%nat) by (apply nth_error_Some; congruence). clear E. revert q L. generalize (vectors h) as l. intros l. revert p.
  induction l as [|y l IH]; intros [|p] [|q] L; cbn in *; try lia; try reflexivity. apply IH. lia.
Qed.

Lemma get_set_bitset h p b q x : get_bitset h p = Some x -> get_bitset (set_bitset h p b) q = if same_buf p q then Some b else get_bitset h q.
Proof.
  destruct p as [p|]; [|discriminate]. cbn [get_bitset set_bitset]. intros E. destruct q as [q|]; [|reflexivity]. cbn [get_bitset same_buf bitsets].
  assert (L : (p < length (bitsets h))%nat) by (apply nth_error_Some; congruence). clear E. revert q L. generalize (bitsets h) as l. intros l. revert p.
  induction l as [|y l IH]; intros [|p] [|q] L; cbn in *; try lia; try reflexivity. apply IH. lia.
Qed.

Lemma same_buf_spec p q : same_buf p q = true -> p = q.
Proof. destruct p, q; cbn; try discriminate. intros E. apply Nat.eqb_eq in E. now subst. Qed.

Lemma get_bitset_set_vector h p v q : get_bitset (set_vector h p v) q = get_bitset h q.
Proof. destruct p, q; reflexivity. Qed.

Lemma get_vector_set_bitset h p b q : get_vector (set_bitset h p b) q = get_vector h q.
Proof. destruct p, q; reflexivity. Qed.

Lemma nth_upd_nat {A} (l : list A) r v k d : (r < length l)%nat -> nth k (upd l r v) d = if (r =? k)%nat then v else nth k l d.
Proof.
  revert r k; induction l as [|x l IH]; intros [|r] [|k] H; cbn in *; try lia; try reflexivity. apply IH. lia.
Qed.

(** The absolute position of transfer [i]. *)
Definition position (st : OtRecvStore) (i : Z) : nat := Z.to_nat (internal_use_ctr_ (r_slice st) + i).

Lemma recv_SetBlock_ok h st i v : recv_ok h st -> 0 <= i ->
  (recv_Size st <= i -> recv_SetBlock h st i v = None) /\
  (i < recv_Size st -> exists h', recv_SetBlock h st i v = Some h' /\
    forall st2, recv_ok h st2 -> recv_ok h' st2 /\
      forall j, 0 <= j ->
        recv_GetBlock h' st2 j = (if same_buf (r_blk_buf st) (r_blk_buf st2) && (position st i =? position st2 j)%nat && (j <? recv_Size st2)
                                  then Some v else recv_GetBlock h st2 j) /\
        (r_type st2 = Normal -> recv_GetChoice h' st2 j = recv_GetChoice h st2 j)).
Proof.
  intros Ho Hi. pose proof Ho as (blk & Hb & Hs & Hn). unfold recv_SetBlock. rewrite (slice_index _ _ i Hs Hi), Hb. fold (recv_Size st). split.
  - intros G. now rewrite (proj2 (Z.ltb_ge _ _) G).
  - intros L. rewrite (proj2 (Z.ltb_lt _ _) L). fold (position st i). unfold slice_ok in Hs.
    assert (Hp : (position st i < length blk)%nat) by (unfold position, recv_Size in *; lia).
    unfold vector_set. fold (position st i). rewrite (proj2 (Nat.ltb_lt _ _) Hp). eexists. split; [reflexivity|].
    intros st2 (blk2 & Hb2 & Hs2 & Hn2). pose proof (get_set_vector h (r_blk_buf st) (upd blk (position st i) v) (r_blk_buf st2) blk Hb) as G.
    assert (O2 : recv_ok (set_vector h (r_blk_buf st) (upd blk (position st i) v)) st2).
    { destruct (same_buf (r_blk_buf st) (r_blk_buf st2)) eqn:Eb.
      - apply same_buf_spec in Eb. rewrite Eb in Hb. rewrite Hb in Hb2. injection Hb2 as <-.
        exists (upd blk (position st i) v). rewrite length_upd. split; [exact G|]. split; [exact Hs2|]. rewrite get_bitset_set_vector. exact Hn2.
      - exists blk2. rewrite G, get_bitset_set_vector. auto. }
    split; [exact O2|]. intros j Hj. split.
    + rewrite !recv_GetBlock_ok by (assumption || (exists blk2; auto)).
      rewrite (recv_view_nth h st2 blk2) by (assumption || (exists blk2; auto)). fold (position st2 j).
      destruct (same_buf (r_blk_buf st) (r_blk_buf st2)) eqn:Eb; cbn [andb].
      * apply same_buf_spec in Eb. rewrite Eb in Hb. rewrite Hb in Hb2. injection Hb2 as <-.
        rewrite (recv_view_nth _ st2 _ j O2 G Hj). fold (position st2 j). destruct (Z.ltb_spec j (recv_Size st2)); cbn [option_map snd].
        -- rewrite nth_upd_nat by exact Hp. destruct (position st i =? position st2 j)%nat; reflexivity.
        -- now rewrite andb_false_r.
      * rewrite Hb2 in G. rewrite (recv_view_nth _ st2 _ j O2 G Hj). fold (position st2 j). now destruct (j <? recv_Size st2).
    + intros En. rewrite !recv_GetChoice_ok by (assumption || (exists blk2; auto)).
      rewrite (recv_view_nth h st2 blk2) by (assumption || (exists blk2; auto)).
      assert (C : forall b b' k, choice_of (set_vector h (r_blk_buf st) (upd blk (position st i) v)) st2 b k = choice_of h st2 b' k).
      { intros b b' k. unfold choice_of. rewrite En, get_bitset_set_vector. reflexivity. }
      destruct (same_buf (r_blk_buf st) (r_blk_buf st2)); [|rewrite Hb2 in G]; rewrite (recv_view_nth _ st2 _ j O2 G Hj);
        destruct (j <? recv_Size st2); try reflexivity; cbn [option_map fst]; now rewrite (C _ blk2).
Qed.

(** Choices: set and flip, on the shared bitset. *)
Lemma recv_update_choice h st bit i (f : bool -> bool) b' : recv_ok h st -> r_type st = Normal -> get_bitset h (r_bit_buf st) = Some bit ->
  0 <= i < recv_Size st -> wf 128 b' -> size b' = size bit ->
  (forall q, bit_at 128 b' q = if (q =? position st i)%nat then f (bit_at 128 bit (position st i)) else bit_at 128 bit q) ->
  forall st2, recv_ok h st2 -> recv_ok (set_bitset h (r_bit_buf st) b') st2 /\
    forall j, 0 <= j ->
      recv_GetBlock (set_bitset h (r_bit_buf st) b') st2 j = recv_GetBlock h st2 j /\
      (r_type st2 = Normal -> recv_GetChoice (set_bitset h (r_bit_buf st) b') st2 j =
        (if same_buf (r_bit_buf st) (r_bit_buf st2) && (position st i =? position st2 j)%nat && (j <? recv_Size st2)
         then Some (Z.b2z (f (bit_at 128 bit (position st i)))) else recv_GetChoice h st2 j)).
Proof.
  intros Ho En Hbit Hi Wb Sb Bb st2 (blk2 & Hb2 & Hs2 & Hn2).
  pose proof (get_set_bitset h (r_bit_buf st) b' (r_bit_buf st2) bit Hbit) as G.
  assert (O2 : recv_ok (set_bitset h (r_bit_buf st) b') st2).
  { exists blk2. rewrite get_vector_set_bitset. split; [exact Hb2|]. split; [exact Hs2|]. intros E2. destruct (Hn2 E2) as (bit2 & Hbit2 & W2 & S2').
    rewrite G. destruct (same_buf (r_bit_buf st) (r_bit_buf st2)) eqn:Eb; [|exists bit2; auto].
    apply same_buf_spec in Eb. rewrite Eb in Hbit. rewrite Hbit in Hbit2. injection Hbit2 as <-. exists b'. split; [reflexivity|]. split; [exact Wb|congruence]. }
  assert (Hv : get_vector (set_bitset h (r_bit_buf st) b') (r_blk_buf st2) = Some blk2) by (now rewrite get_vector_set_bitset).
  split; [exact O2|]. intros j Hj. split.
  - rewrite !recv_GetBlock_ok by (assumption || (exists blk2; auto)). rewrite (recv_view_nth h st2 blk2), (recv_view_nth _ st2 blk2 j O2 Hv) by (assumption || (exists blk2; auto)).
    now destruct (j <? recv_Size st2).
  - intros E2. rewrite !recv_GetChoice_ok by (assumption || (exists blk2; auto)).
    rewrite (recv_view_nth h st2 blk2), (recv_view_nth _ st2 blk2 j O2 Hv) by (assumption || (exists blk2; auto)). fold (position st2 j).
    destruct (Hn2 E2) as (bit2 & Hbit2 & _). unfold choice_of. rewrite E2, G, Hbit2. cbn [is_compact].
    destruct (j <? recv_Size st2); [|now rewrite andb_false_r]. rewrite andb_true_r. cbn [option_map fst].
    destruct (same_buf (r_bit_buf st) (r_bit_buf st2)) eqn:Eb; cbn [andb]; [|reflexivity].
    apply same_buf_spec in Eb. rewrite Eb in Hbit. rewrite Hbit in Hbit2. injection Hbit2 as <-. rewrite Bb, Nat.eqb_sym.
    now destruct (position st i =? position st2 j)%nat.
Qed.

Lemma recv_position h st i bit blk : recv_ok h st -> r_type st = Normal -> get_bitset h (r_bit_buf st) = Some bit -> get_vector h (r_blk_buf st) = Some blk ->
  0 <= i < recv_Size st -> wf 128 bit /\ (position st i < m_bits_number bit)%nat.
Proof.
  intros (blk' & Hb & Hs & Hn) En Hbit Hb' Hi. destruct (Hn En) as (bit' & Hbit' & W & S'). rewrite Hbit in Hbit'. injection Hbit' as <-.
  split; [exact W|]. unfold slice_ok in Hs. unfold size in S'. unfold position, recv_Size in *. lia.
Qed.

Lemma recv_SetChoice_ok h st i val : recv_ok h st -> 0 <= i ->
  (r_type st = Compact \/ recv_Size st <= i -> recv_SetChoice h st i val = None /\ recv_FlipChoice h st i = None) /\
  (r_type st = Normal -> i < recv_Size st -> forall flip : bool, exists h' v,
    (if flip then recv_FlipChoice h st i else recv_SetChoice h st i val) = Some h' /\
    (if flip then recv_GetChoice h st i = Some (1 - v) else v = Z.b2z val) /\
    forall st2, recv_ok h st2 -> recv_ok h' st2 /\ forall j, 0 <= j ->
      recv_GetBlock h' st2 j = recv_GetBlock h st2 j /\
      (r_type st2 = Normal -> recv_GetChoice h' st2 j =
        (if same_buf (r_bit_buf st) (r_bit_buf st2) && (position st i =? position st2 j)%nat && (j <? recv_Size st2)
         then Some v else recv_GetChoice h st2 j))).
Proof.
  intros Ho Hi. pose proof Ho as (blk & Hb & Hs & Hn). unfold recv_SetChoice, recv_FlipChoice, YACL_ENFORCE.
  rewrite (slice_index _ _ i Hs Hi). split.
  - intros [->|G]; [now split|]. unfold recv_Size in G. rewrite (proj2 (Z.ltb_ge _ _) G). now destruct (is_compact (r_type st)).
  - intros En L flip. destruct (Hn En) as (bit & Hbit & W & S'). destruct (recv_position h st i bit blk Ho En Hbit Hb ltac:(lia)) as [_ Hp].
    pose proof L as L'. unfold recv_Size in L'. rewrite (proj2 (Z.ltb_lt _ _) L'), En, Hbit. cbn [is_compact negb]. fold (position st i).
    unfold size. rewrite (proj2 (Nat.ltb_lt _ _) Hp).
    destruct (reference_ok 128 bit (position st i) val) as (_ & _ & -> & _ & _ & ->).
    destruct (set_bit_ok 128 pos128 bit (position st i) val W Hp) as (W1 & N1 & B1).
    destruct (flip_bit_ok 128 pos128 bit (position st i) W Hp) as (W2 & N2 & B2).
    destruct flip.
    + do 2 eexists. split; [reflexivity|]. split; [|now apply (recv_update_choice h st bit i negb)].
      rewrite recv_GetChoice_ok by assumption. rewrite (recv_view_nth h st blk) by assumption. rewrite (proj2 (Z.ltb_lt _ _) L).
      fold (position st i). unfold choice_of. rewrite En, Hbit. cbn [is_compact option_map fst]. f_equal. now destruct (bit_at 128 bit (position st i)).
    + do 2 eexists. split; [reflexivity|]. split; [reflexivity|]. now apply (recv_update_choice h st bit i (fun _ => val)).
Qed.

(** *** Copies of the window *)

Lemma vector_copy_window (l : list Z) a n : 0 <= a -> 0 <= n -> a + n <= Z.of_nat (length l) ->
  vector_copy l a (a + n) = Some (map (fun i => nth i l 0) (seq (Z.to_nat a) (Z.to_nat n))).
Proof.
  intros Ha Hn H. unfold vector_copy. rewrite (proj2 (Z.leb_le _ _)), (proj2 (Z.leb_le _ _)) by lia. cbn [andb]. f_equal.
  replace (Z.to_nat (a + n - a)) with (Z.to_nat n) by lia. apply (nth_ext _ _ 0 0).
  - rewrite length_map, length_seq, length_firstn, length_skipn. lia.
  - intros i Hi. rewrite length_firstn, length_skipn in Hi. rewrite nth_firstn, (proj2 (Nat.ltb_lt i (Z.to_nat n))) by lia. rewrite nth_skipn.
    symmetry. apply nth_error_nth. rewrite nth_error_seq_map. now rewrite (proj2 (Nat.ltb_lt i _)) by lia.
Qed.

Lemma recv_CopyBlkBuf_ok h st : recv_ok h st -> recv_CopyBlkBuf h st = Some (map snd (recv_view h st)).
Proof.
  intros (blk & Hb & Hs & _). unfold slice_ok in Hs. unfold recv_CopyBlkBuf, recv_view. rewrite Hb, map_map. apply vector_copy_window; lia.
Qed.

Lemma copy_bits_ok h st n : recv_ok h st -> forall i out, (Z.of_nat (i + n) <= recv_Size st) -> wf 128 out -> size out = (i + n)%nat ->
  exists b, copy_bits h st i n out = Some b /\ wf 128 b /\ size b = (i + n)%nat /\
    forall q, bit_at 128 b q = if (i <=? q)%nat && (q <? i + n)%nat then Z.odd (snd (nth q (recv_view h st) (false, 0))) else bit_at 128 out q.
Proof.
  intros Ho. pose proof (recv_view_length h st Ho) as Lv. induction n as [|n IH]; intros i out Hn W S'.
  - exists out. cbn [copy_bits]. do 3 (split; [assumption || reflexivity|]). intros q.
    destruct (Nat.leb_spec i q), (Nat.ltb_spec q (i + 0)); cbn [andb]; reflexivity || lia.
  - cbn [copy_bits]. rewrite recv_GetBlock_ok, Nat2Z.id by (assumption || lia).
    rewrite (nth_error_nth' _ (false, 0)) by lia. cbn [option_map]. set (v := snd (nth i (recv_view h st) (false, 0))).
    destruct (reference_ok 128 out i (negb (Z.land v 0x1 =? 0))) as (_ & _ & -> & _).
    destruct (set_bit_ok 128 pos128 out i (negb (Z.land v 0x1 =? 0)) W) as (W1 & N1 & B1); [unfold size in S'; lia|].
    destruct (IH (S i) (set_bit 128 out i (negb (Z.land v 0x1 =? 0)))) as (b & E & Wb & Sb & Bb); [lia|exact W1|unfold size in *; lia|].
    exists b. split; [exact E|]. split; [exact Wb|]. split; [lia|]. intros q. rewrite Bb, B1.
    assert (Ev : negb (Z.land v 1 =? 0) = Z.odd v) by (rewrite land_1_odd; now destruct (Z.odd v)). rewrite Ev.
    destruct (Nat.leb_spec (S i) q), (Nat.ltb_spec q (S i + n)), (Nat.leb_spec i q), (Nat.ltb_spec q (i + S n)), (Nat.eqb_spec q i);
      cbn [andb]; try lia; try reflexivity. now subst q.
Qed.

Lemma bits_of_view h st b : wf 128 b -> Z.of_nat (size b) = recv_Size st -> recv_ok h st ->
  (forall q, (q < size b)%nat -> bit_at 128 b q = fst (nth q (recv_view h st) (false, 0))) -> bits 128 b = map fst (recv_view h st).
Proof.
  intros W S' Ho H. pose proof (recv_view_length h st Ho) as Lv. apply (nth_ext _ _ false false).
  - rewrite length_bits, length_map. unfold size in S'. lia.
  - intros q Hq. rewrite length_bits in Hq. rewrite nth_bits by exact W. rewrite H by (unfold size in *; lia).
    rewrite (nth_indep _ false (fst (false, 0))) by (rewrite length_map; unfold size in *; lia). now rewrite map_nth.
Qed.

Lemma recv_CopyBitBuf_ok h st : recv_ok h st -> exists b, recv_CopyBitBuf h st = Some b /\ wf 128 b /\ bits 128 b = map fst (recv_view h st).
Proof.
  intros Ho. pose proof Ho as (blk & Hb & Hs & Hn). pose proof (recv_view_length h st Ho) as Lv. unfold slice_ok in Hs.
  assert (Hsz : 0 < recv_Size st) by (unfold recv_Size; lia).
  assert (Nv : forall q, (q < Z.to_nat (recv_Size st))%nat -> nth q (recv_view h st) (false, 0)
              = (choice_of h st blk (Z.to_nat (internal_use_ctr_ (r_slice st) + Z.of_nat q)), nth (Z.to_nat (internal_use_ctr_ (r_slice st) + Z.of_nat q)) blk 0)).
  { intros q Hq. apply nth_error_nth. pose proof (recv_view_nth h st blk (Z.of_nat q) Ho Hb ltac:(lia)) as X. rewrite Nat2Z.id in X. rewrite X.
    now rewrite (proj2 (Z.ltb_lt _ _)) by lia. }
  unfold recv_CopyBitBuf. destruct (r_type st) eqn:En; cbn [is_compact].
  - destruct (Hn eq_refl) as (bit & Hbit & W & S'). rewrite Hbit.
    destruct (shift_right_ok 128 pos128 bit (Z.to_nat (internal_use_ctr_ (r_slice st))) W) as (W1 & N1 & B1).
    destruct (resize_ok 128 pos128 _ (Z.to_nat (internal_use_size_ (r_slice st))) false W1) as (W2 & N2 & B2).
    eexists. split; [reflexivity|]. split; [exact W2|]. apply (bits_of_view h st); [exact W2|unfold size, recv_Size; rewrite N2; lia|exact Ho|].
    intros q Hq. unfold size in *. rewrite N2 in Hq. rewrite B2, Nv by (unfold recv_Size; exact Hq). unfold bit_resize, choice_of. cbn [fst].
    rewrite En, Hbit, N1, (proj2 (Nat.ltb_lt _ _) Hq), B1. cbn [is_compact andb]. rewrite (proj2 (Nat.ltb_lt _ _)) by lia. f_equal. lia.
  - set (n := Z.to_nat (recv_Size st)). assert (Wi : wf 128 (bitset_init 128 n 0)) by (apply (bitset_init_ok 128 pos128 n 0); [reflexivity|lia]).
    assert (Si : size (bitset_init 128 n 0) = n) by (unfold bitset_init; rewrite orb_true_r; reflexivity).
    destruct (copy_bits_ok h st n Ho 0 (bitset_init 128 n 0) ltac:(unfold n; lia) Wi Si) as (b & E & Wb & Sb & Bb).
    exists b. split; [exact E|]. split; [exact Wb|]. apply (bits_of_view h st); [exact Wb|rewrite Sb; unfold n; lia|exact Ho|].
    intros q Hq. rewrite Sb in Hq. rewrite Bb, (proj2 (Nat.ltb_lt q (0 + n))) by exact Hq. cbn [Nat.leb andb]. rewrite Nv by exact Hq. cbn [fst snd].
    unfold choice_of. now rewrite En.
Qed.

(** *** [Reset] always throws: the counters it has just set fail their own check. *)

Lemma recv_Reset_throws h st : recv_Reset h st = None.
Proof. reflexivity. Qed.

Lemma recv_StealBlkBuf_throws h use_count st : recv_StealBlkBuf h use_count st = None.
Proof. unfold recv_StealBlkBuf, YACL_ENFORCE. now destruct (use_count =? 1)%nat. Qed.

Lemma send_StealBlkBuf_throws h use_count st : send_StealBlkBuf h use_count st = None.
Proof. unfold send_StealBlkBuf, YACL_ENFORCE. now destruct (use_count =? 1)%nat. Qed.

(** ** The sender's window *)

(** The pair of messages of transfer [k] of the buffer. *)
Definition messages (st : OtSendStore) (blk : list Z) (k : nat) : Z * Z :=
  if delta_ st =? 0 then (nth (2 * k) blk 0, nth (2 * k + 1) blk 0)
  else let v := nth (Z.to_nat (ot_blk_num st) * k) blk 0 in (v, Z.lxor v (delta_ st)).

Definition send_window (h : heap) (st : OtSendStore) (from len : Z) : list (Z * Z) :=
  match get_vector h (s_blk_buf st) with
  | Some blk => map (messages st blk) (seq (Z.to_nat (from / ot_blk_num st)) (Z.to_nat (len / ot_blk_num st)))
  | None => []
  end.
Definition send_view (h : heap) (st : OtSendStore) : list (Z * Z) :=
  send_window h st (internal_use_ctr_ (s_slice st)) (internal_use_size_ (s_slice st)).

(** Counters fall on whole transfers; random transfers are stored as pairs. *)
Definition send_ok (h : heap) (st : OtSendStore) : Prop :=
  exists blk, get_vector h (s_blk_buf st) = Some blk /\ slice_ok (s_slice st) (Z.of_nat (length blk)) /\
    0 <= delta_ st < 2 ^ 128 /\ (delta_ st = 0 -> s_type st = Normal) /\
    exists a n c d, internal_use_ctr_ (s_slice st) = ot_blk_num st * a /\ internal_use_size_ (s_slice st) = ot_blk_num st * n /\
      internal_buf_ctr_ (s_slice st) = ot_blk_num st * c /\ internal_buf_size_ (s_slice st) = ot_blk_num st * d.

Lemma ot_blk_num_cases st : ot_blk_num st = 1 \/ ot_blk_num st = 2.
Proof. unfold ot_blk_num. destruct (is_compact (s_type st)); auto. Qed.

Lemma mul_div_cancel m a : m = 1 \/ m = 2 -> m * a / m = a.
Proof. intros H. rewrite Z.mul_comm. apply Z.div_mul. lia. Qed.

Lemma send_window_length h st blk from len : get_vector h (s_blk_buf st) = Some blk ->
  length (send_window h st from len) = Z.to_nat (len / ot_blk_num st).
Proof. intros Hb. unfold send_window. now rewrite Hb, length_map, length_seq. Qed.

Lemma send_Size_eq st : send_Size st = internal_use_size_ (s_slice st) / ot_blk_num st.
Proof. unfold send_Size, ot_blk_num. destruct (is_compact (s_type st)); [now rewrite Z.div_1_r|reflexivity]. Qed.

Lemma send_view_length h st : send_ok h st -> Z.of_nat (length (send_view h st)) = send_Size st.
Proof.
  intros (blk & Hb & Hs & _ & _ & a & n & c & d & Ea & En & _). unfold slice_ok in Hs. unfold send_view.
  rewrite (send_window_length h st blk _ _ Hb), send_Size_eq. pose proof (ot_blk_num_cases st) as M. rewrite En, mul_div_cancel by exact M.
  destruct M as [M|M]; rewrite M in *; lia.
Qed.

Lemma send_GetBlock_ok h st i m : send_ok h st -> 0 <= i < 2 ^ 62 -> 
  send_GetBlock h st i m =
    if (m =? 0) || (m =? 1) then option_map (if m =? 0 then fst else snd) (nth_error (send_view h st) (Z.to_nat i)) else None.
Proof.
  intros Ho Hi. pose proof (ot_blk_num_cases st) as M. pose proof Ho as (blk & Hb & Hs & Hd & Ht & a & n & c & d & Ea & En & _).
  unfold send_view, send_window. rewrite Hb, nth_error_seq_map, Ea, En, !mul_div_cancel by exact M. unfold send_GetBlock, YACL_ENFORCE.
  destruct ((m =? 0) || (m =? 1)) eqn:Em; [|reflexivity]. assert (Hm : m = 0 \/ m = 1) by lia.
  assert (Hn : (Z.to_nat i <? Z.to_nat n)%nat = (i <? n)).
  { destruct (Z.ltb_spec i n), (Nat.ltb_spec (Z.to_nat i) (Z.to_nat n)); unfold slice_ok in Hs; nia. }
  rewrite Hn. unfold messages. destruct (Z.eqb_spec (delta_ st) 0) as [D|D].
  - assert (M2 : ot_blk_num st = 2) by (unfold ot_blk_num; rewrite (Ht D); reflexivity). rewrite M2 in *.
    rewrite (u64_id (2 * i)) by lia. rewrite (slice_index _ _ (2 * i) Hs ltac:(lia)), Hb, Ea, En.
    replace (2 * i <? 2 * n) with (i <? n) by (destruct (Z.ltb_spec i n), (Z.ltb_spec (2 * i) (2 * n)); lia).
    destruct (Z.ltb_spec i n); [|reflexivity]. unfold slice_ok in Hs. unfold vector_get. rewrite u64_id by lia. cbn [option_map].
    rewrite (nth_error_nth' blk 0) by lia. f_equal. destruct Hm as [-> | ->]; cbn [Z.eqb fst snd]; f_equal; lia.
  - rewrite (u64_id (ot_blk_num st * i)) by lia. rewrite (slice_index _ _ (ot_blk_num st * i) Hs ltac:(lia)), Hb, Ea, En.
    replace (ot_blk_num st * i <? ot_blk_num st * n) with (i <? n) by (destruct (Z.ltb_spec i n), (Z.ltb_spec (ot_blk_num st * i) (ot_blk_num st * n)); nia).
    destruct (Z.ltb_spec i n); [|reflexivity]. unfold slice_ok in Hs. unfold vector_get. cbn [option_map].
    rewrite (nth_error_nth' blk 0) by nia. cbv zeta.
    replace (Z.to_nat (ot_blk_num st * a + ot_blk_num st * i)) with (Z.to_nat (ot_blk_num st) * (Z.to_nat a + Z.to_nat i))%nat by nia.
    destruct Hm as [-> | ->]; cbn [Z.eqb fst snd]; f_equal.
    + rewrite Z.mul_0_r. change (u128 0) with 0. apply Z.lxor_0_r.
    + rewrite Z.mul_1_r. unfold u128, uwrap. now rewrite Z.mod_small.
Qed.

Lemma send_store_spec h blk_ptr delta a n c d type st :
  send_store h blk_ptr delta a n c d type = Some st <->
  st = SendStore (Slice_ a n c d) type delta blk_ptr /\ send_check h blk_ptr (Slice_ a n c d) = true.
Proof.
  unfold send_store, InitCtrs, send_ConsistencyCheck, YACL_ENFORCE. cbn [s_blk_buf s_slice].
  destruct (send_check h blk_ptr (Slice_ a n c d)) eqn:E; cbn [s_blk_buf s_slice]; rewrite ?E; intuition congruence.
Qed.

Lemma send_check_spec h p blk s : get_vector h p = Some blk -> send_check h p s = true <->
  0 < internal_use_size_ s /\ 0 < internal_buf_size_ s /\ internal_use_size_ s <= internal_buf_size_ s /\
  internal_buf_ctr_ s <= internal_buf_size_ s <= Z.of_nat (length blk).
Proof.
  intros Hb. unfold send_check, SliceBase_ConsistencyCheck. rewrite Hb. rewrite !andb_true_iff, !Z.ltb_lt, !Z.leb_le. intuition lia.
Qed.

(** The next slice of [n] transfers, or the exception. *)
Lemma send_NextSlice_ok h st n : send_ok h st -> 0 <= n < 2 ^ 62 ->
  let s := s_slice st in let m := ot_blk_num st in let c := internal_buf_ctr_ s in
  if (0 <? n) && (c + m * n <=? internal_buf_size_ s)
  then exists out st', send_NextSlice h st n = Some (out, st') /\
    out = SendStore (Slice_ c (m * n) c (c + m * n)) (s_type st) (delta_ st) (s_blk_buf st) /\ send_ok h out /\ fresh (s_slice out) /\
    st' = SendStore (Slice_ (internal_use_ctr_ s) (internal_use_size_ s) (c + m * n) (internal_buf_size_ s)) (s_type st) (delta_ st) (s_blk_buf st) /\
    send_ok h st'
  else send_NextSlice h st n = None.
Proof.
  intros Ho Hn. cbv zeta. pose proof (ot_blk_num_cases st) as M. pose proof Ho as (blk & Hb & Hs & Hd & Ht & a & k & c & d & Ea & Ek & Ec & Ed).
  unfold slice_ok in Hs. unfold send_NextSlice, send_Slice. cbv zeta. set (s := s_slice st) in *. set (m := ot_blk_num st) in *.
  rewrite Ec, mul_div_cancel, Ed by exact M. assert (Hc : 0 <= c < 2 ^ 64) by (destruct M as [M|M]; rewrite M in *; lia).
  assert (I : IncreaseBufCtr s (u64 (n * m)) = if m * c + m * n <=? m * d then Some (Slice_ (internal_use_ctr_ s) (internal_use_size_ s) (m * c + m * n) (m * d)) else None).
  { unfold IncreaseBufCtr, YACL_ENFORCE. rewrite Ec, Ed, (u64_id (m * d - m * c)), (u64_id (n * m)) by lia.
    destruct (Z.leb_spec (n * m) (m * d - m * c)), (Z.leb_spec (m * c + m * n) (m * d)); try lia; [|reflexivity].
    rewrite u64_id by lia. do 2 f_equal. lia. }
  destruct (Z.ltb_spec 0 n); cbn [andb].
  2: { replace n with 0 by lia. rewrite Z.add_0_r, (u64_id c), Z.sub_diag, Z.mul_0_l by lia.
       destruct (send_store _ _ _ _ _ _ _ _) eqn:E; [|reflexivity]. apply send_store_spec in E as [_ K].
       apply (send_check_spec h _ blk _ Hb) in K. cbn in K. lia. }
  rewrite I. destruct (Z.leb_spec (m * c + m * n) (m * d)) as [L|G].
  - rewrite (u64_id (c + n)) by nia. replace (c + n - c) with n by lia. rewrite (u64_id n), (u64_id (c * m)), (u64_id (n * m)), (u64_id ((c + n) * m)) by nia.
    replace (c * m) with (m * c) by lia. replace (n * m) with (m * n) by lia. replace ((c + n) * m) with (m * c + m * n) by lia.
    destruct (send_store h (s_blk_buf st) (delta_ st) (m * c) (m * n) (m * c) (m * c + m * n) (s_type st)) as [out|] eqn:E.
    + apply send_store_spec in E as [Eo _]. do 2 eexists. split; [reflexivity|]. split; [exact Eo|].
      assert (P : 0 < m * n) by nia. assert (Q : 0 <= m * c) by nia. fold s in Hs.
      split; [|split; [rewrite Eo; split; reflexivity|split; [reflexivity|]]]; exists blk; rewrite ?Eo; cbn [s_blk_buf s_slice delta_ s_type]; unfold slice_ok;
        cbn [internal_use_ctr_ internal_use_size_ internal_buf_ctr_ internal_buf_size_].
      * repeat (split; [assumption || lia|]). exists c, n, c, (c + n). unfold ot_blk_num in *. cbn [s_type]. fold m. lia.
      * repeat (split; [assumption || lia|]). exists a, k, (c + n), d. unfold ot_blk_num in *. cbn [s_type]. fold m. lia.
    + exfalso. rewrite (proj2 (send_store_spec _ _ _ _ _ _ _ _ (SendStore (Slice_ (m * c) (m * n) (m * c) (m * c + m * n)) (s_type st) (delta_ st) (s_blk_buf st)))) in E; [discriminate|].
      split; [reflexivity|]. apply (send_check_spec h _ blk _ Hb). cbn. nia.
  - destruct (send_store _ _ _ _ _ _ _ _); reflexivity.
Qed.

(** ** Both sides together *)

(** Every chosen message is the one of the pair that the choice names. *)
Definition correlated (sv : list (Z * Z)) (rv : list (bool * Z)) : Prop :=
  Forall2 (fun (m : Z * Z) (c : bool * Z) => snd c = if fst c then snd m else fst m) sv rv.

(** What is still to be sliced off. *)
Definition recv_rest (h : heap) (st : OtRecvStore) : list (bool * Z) :=
  match get_vector h (r_blk_buf st) with
  | Some blk => map (fun i => (choice_of h st blk i, nth i blk 0))
                  (seq (Z.to_nat (internal_buf_ctr_ (r_slice st))) (Z.to_nat (internal_buf_size_ (r_slice st) - internal_buf_ctr_ (r_slice st))))
  | None => []
  end.
Definition send_rest (h : heap) (st : OtSendStore) : list (Z * Z) :=
  send_window h st (internal_buf_ctr_ (s_slice st)) (internal_buf_size_ (s_slice st) - internal_buf_ctr_ (s_slice st)).

Lemma firstn_map_seq {A} (f : nat -> A) a n k : (k <= n)%nat -> firstn k (map f (seq a n)) = map f (seq a k).
Proof.
  intros H. replace n with (k + (n - k))%nat by lia. rewrite seq_app, map_app, firstn_app, length_map, length_seq, Nat.sub_diag, app_nil_r.
  apply firstn_all2. now rewrite length_map, length_seq.
Qed.

Lemma skipn_map_seq {A} (f : nat -> A) a n k : (k <= n)%nat -> skipn k (map f (seq a n)) = map f (seq (a + k) (n - k)).
Proof.
  intros H. replace n with (k + (n - k))%nat at 1 by lia. rewrite seq_app, map_app, skipn_app, length_map, length_seq, Nat.sub_diag.
  rewrite skipn_all2 by (now rewrite length_map, length_seq). reflexivity.
Qed.

Lemma recv_next_rest h st n : recv_ok h st -> 0 <= n < 2 ^ 64 ->
  if (0 <? n) && (n <=? Z.of_nat (length (recv_rest h st)))
  then exists out st', recv_NextSlice h st n = Some (out, st') /\ recv_ok h out /\ recv_ok h st' /\ recv_Size out = n /\
    fresh (r_slice out) /\ recv_view h st' = recv_view h st /\
    recv_view h out = firstn (Z.to_nat n) (recv_rest h st) /\ recv_rest h st' = skipn (Z.to_nat n) (recv_rest h st)
  else recv_NextSlice h st n = None.
Proof.
  intros Ho Hn. pose proof Ho as (blk & Hb & Hs & _). pose proof (recv_NextSlice_ok h st blk n Ho Hb Hn) as X. cbv zeta in X. unfold slice_ok in Hs.
  assert (L : Z.of_nat (length (recv_rest h st)) = internal_buf_size_ (r_slice st) - internal_buf_ctr_ (r_slice st)).
  { unfold recv_rest. rewrite Hb, length_map, length_seq. lia. }
  rewrite L. replace (n <=? _) with (internal_buf_ctr_ (r_slice st) + n <=? internal_buf_size_ (r_slice st))
    by (destruct (Z.leb_spec (internal_buf_ctr_ (r_slice st) + n) (internal_buf_size_ (r_slice st))), (Z.leb_spec n (internal_buf_size_ (r_slice st) - internal_buf_ctr_ (r_slice st))); lia).
  destruct ((0 <? n) && (internal_buf_ctr_ (r_slice st) + n <=? internal_buf_size_ (r_slice st))) eqn:C; [|exact X].
  destruct X as (out & st' & E & Eo & Ko & Fo & Es & Ks). exists out, st'. do 3 (split; [assumption|]). split; [now rewrite Eo|]. split; [exact Fo|].
  split; [rewrite Es; reflexivity|]. unfold recv_view, recv_rest. rewrite Eo, Es. cbn [r_blk_buf r_slice internal_use_ctr_ internal_use_size_ internal_buf_ctr_ internal_buf_size_].
  rewrite Hb. split; [rewrite firstn_map_seq by lia; reflexivity|].
  rewrite skipn_map_seq, Z2Nat.inj_add by lia.
  replace (Z.to_nat (internal_buf_size_ (r_slice st) - (internal_buf_ctr_ (r_slice st) + n)))
    with (Z.to_nat (internal_buf_size_ (r_slice st) - internal_buf_ctr_ (r_slice st)) - Z.to_nat n)%nat by lia. reflexivity.
Qed.

Lemma div_sub_mul m a n : m = 1 \/ m = 2 -> (a - m * n) / m = a / m - n.
Proof. intros H. replace (a - m * n) with (a + (- n) * m) by lia. rewrite Z.div_add by lia. lia. Qed.

Lemma send_next_rest h st n : send_ok h st -> 0 <= n < 2 ^ 62 ->
  if (0 <? n) && (n <=? Z.of_nat (length (send_rest h st)))
  then exists out st', send_NextSlice h st n = Some (out, st') /\ send_ok h out /\ send_ok h st' /\ send_Size out = n /\
    fresh (s_slice out) /\ send_view h st' = send_view h st /\
    send_view h out = firstn (Z.to_nat n) (send_rest h st) /\ send_rest h st' = skipn (Z.to_nat n) (send_rest h st)
  else send_NextSlice h st n = None.
Proof.
  intros Ho Hn. pose proof (send_NextSlice_ok h st n Ho Hn) as X. cbv zeta in X. pose proof (ot_blk_num_cases st) as M.
  pose proof Ho as (blk & Hb & Hs & Hd & Ht & a & k & c & d & Ea & Ek & Ec & Ed). unfold slice_ok in Hs.
  set (m := ot_blk_num st) in *.
  assert (Q : (internal_buf_size_ (s_slice st) - internal_buf_ctr_ (s_slice st)) / m = d - c).
  { rewrite Ec, Ed. replace (m * d - m * c) with (m * (d - c)) by lia. now apply mul_div_cancel. }
  assert (Dc : 0 <= c <= d) by nia.
  assert (L : Z.of_nat (length (send_rest h st)) = d - c).
  { unfold send_rest. rewrite (send_window_length h st blk _ _ Hb). fold m. rewrite Q. lia. }
  rewrite L. replace (n <=? d - c) with (internal_buf_ctr_ (s_slice st) + m * n <=? internal_buf_size_ (s_slice st)).
  2: { rewrite Ec, Ed. destruct (Z.leb_spec (m * c + m * n) (m * d)), (Z.leb_spec n (d - c)); nia. }
  destruct ((0 <? n) && (internal_buf_ctr_ (s_slice st) + m * n <=? internal_buf_size_ (s_slice st))) eqn:C; [|exact X].
  destruct X as (out & st' & E & Eo & Ko & Fo & Es & Ks). exists out, st'. do 3 (split; [assumption|]).
  assert (Mo : ot_blk_num out = m) by (rewrite Eo; reflexivity). assert (Ms : ot_blk_num st' = m) by (rewrite Es; reflexivity).
  split; [rewrite send_Size_eq, Mo, Eo; cbn; now apply mul_div_cancel|]. split; [exact Fo|]. split; [rewrite Es; reflexivity|].
  assert (Cn : n <= d - c).
  { apply andb_true_iff in C as [_ C]. apply Z.leb_le in C. rewrite Ec, Ed in C. nia. }
  unfold send_view, send_rest, send_window. rewrite Mo, Ms, Eo, Es. fold m. cbn [s_blk_buf s_slice internal_use_ctr_ internal_use_size_ internal_buf_ctr_ internal_buf_size_].
  rewrite Hb, Q, Ec, Ed, !mul_div_cancel by exact M.
  change (messages (SendStore _ (s_type st) (delta_ st) (s_blk_buf st)) blk) with (messages st blk).
  rewrite firstn_map_seq, skipn_map_seq by lia. split; [reflexivity|].
  replace (m * d - (m * c + m * n)) with (m * (d - c - n)) by lia. replace (m * c + m * n) with (m * (c + n)) by lia. rewrite !mul_div_cancel by exact M.
  rewrite Z2Nat.inj_add by lia. replace (Z.to_nat (d - c - n)) with (Z.to_nat (d - c) - Z.to_nat n)%nat by lia. reflexivity.
Qed.

(** The same slices, taken on both sides. *)
Fixpoint pair_slices (h : heap) (snd_ : OtSendStore) (rcv : OtRecvStore) (ns : list Z) : option (list (OtSendStore * OtRecvStore)) :=
  match ns with
  | [] => Some []
  | n :: ns =>
      let? (s, snd_) := send_NextSlice h snd_ n in
      let? (r, rcv) := recv_NextSlice h rcv n in
      let? outs := pair_slices h snd_ rcv ns in
      Some ((s, r) :: outs)
  end.

Lemma correlated_firstn k sv rv : correlated sv rv -> correlated (firstn k sv) (firstn k rv).
Proof. intros F. revert k; induction F; intros [|k]; cbn; constructor; auto. apply IHF. Qed.

Lemma correlated_skipn k sv rv : correlated sv rv -> correlated (skipn k sv) (skipn k rv).
Proof. intros F. revert k; induction F; intros [|k]; cbn; try constructor; auto. Qed.

Lemma firstn_split {A} n m (l : list A) : (n <= length l)%nat -> firstn n l ++ firstn m (skipn n l) = firstn (n + m) l.
Proof.
  intros H. rewrite <- (firstn_skipn n l) at 3. rewrite firstn_app, length_firstn, Nat.min_l by exact H.
  rewrite firstn_firstn, Nat.min_r by lia. do 2 f_equal. lia.
Qed.

Lemma pair_slices_ok h ns : forall s r, send_ok h s -> recv_ok h r -> correlated (send_rest h s) (recv_rest h r) ->
  Forall (fun n => 0 <= n < 2 ^ 62) ns ->
  if forallb (Z.ltb 0) ns && (total ns <=? Z.of_nat (length (recv_rest h r)))
  then exists outs, pair_slices h s r ns = Some outs /\ map (fun p => send_Size (fst p)) outs = ns /\ map (fun p => recv_Size (snd p)) outs = ns /\
    Forall (fun p => send_ok h (fst p) /\ recv_ok h (snd p) /\ correlated (send_view h (fst p)) (recv_view h (snd p))) outs /\
    concat (map (fun p => recv_view h (snd p)) outs) = firstn (Z.to_nat (total ns)) (recv_rest h r)
  else pair_slices h s r ns = None.
Proof.
  induction ns as [|n ns IH]; intros s r Hs Hr C F.
  - cbn [forallb total fold_right]. rewrite (proj2 (Z.leb_le _ _)) by lia. cbn [andb]. exists []. do 3 (split; [reflexivity|]). split; [constructor|reflexivity].
  - apply Forall_cons_iff in F as [Hn F]. assert (Ht : 0 <= total ns) by (apply total_nonneg; eapply Forall_impl; [|exact F]; cbn; lia).
    cbn [forallb total fold_right pair_slices]. fold (total ns). pose proof (Forall2_length C) as Lc.
    pose proof (send_next_rest h s n Hs Hn) as X. pose proof (recv_next_rest h r n Hr ltac:(lia)) as Y. rewrite Lc in X.
    destruct (Z.ltb_spec 0 n); cbn [andb] in *; [|now rewrite X].
    destruct (Z.leb_spec n (Z.of_nat (length (recv_rest h r)))) as [L|G].
    + destruct X as (so & s' & -> & Kso & Ks & Zs & _ & _ & Vs & Rs). destruct Y as (ro & r' & -> & Kro & Kr & Zr & _ & _ & Vr & Rr).
      assert (C' : correlated (send_rest h s') (recv_rest h r')) by (rewrite Rs, Rr; now apply correlated_skipn).
      specialize (IH s' r' Ks Kr C' F). rewrite Rr, length_skipn in IH.
      replace (total ns <=? Z.of_nat (length (recv_rest h r) - Z.to_nat n)) with (n + total ns <=? Z.of_nat (length (recv_rest h r))) in IH
        by (destruct (Z.leb_spec (n + total ns) (Z.of_nat (length (recv_rest h r)))), (Z.leb_spec (total ns) (Z.of_nat (length (recv_rest h r) - Z.to_nat n))); lia).
      destruct (forallb (Z.ltb 0) ns && (n + total ns <=? Z.of_nat (length (recv_rest h r)))) eqn:D; [|now rewrite IH].
      destruct IH as (outs & -> & S1 & S2 & Fo & V). eexists. split; [reflexivity|]. cbn [map fst snd concat]. rewrite Zs, Zr, S1, S2.
      do 2 (split; [reflexivity|]). split; [constructor; [|exact Fo]; cbn [fst snd]; rewrite Vs, Vr; auto using correlated_firstn|].
      rewrite V, Vr, Z2Nat.inj_add by lia. apply firstn_split. lia.
    + rewrite X. rewrite (proj2 (Z.leb_gt _ _)) by lia. now rewrite andb_false_r.
Qed.

(** ** New stores *)

(** Allocation leaves what is there. *)
Definition extends (h h' : heap) : Prop :=
  (forall p v, get_vector h p = Some v -> get_vector h' p = Some v) /\ (forall p b, get_bitset h p = Some b -> get_bitset h' p = Some b).

Lemma nth_error_old {A} (l l' : list A) p x : nth_error l p = Some x -> nth_error (l ++ l') p = Some x.
Proof. intros H. rewrite nth_error_app1; [exact H|]. apply nth_error_Some. congruence. Qed.

Lemma new_vector_ok h v h' p : new_vector h v = (h', p) -> extends h h' /\ get_vector h' p = Some v.
Proof.
  intros E. injection E as <- <-. split; [split|].
  - intros [q|] w Hq; [now apply nth_error_old|discriminate].
  - intros [q|] w Hq; [exact Hq|discriminate].
  - cbn. now rewrite nth_error_app2, Nat.sub_diag by lia.
Qed.

Lemma new_bitset_ok h b h' p : new_bitset h b = (h', p) -> extends h h' /\ get_bitset h' p = Some b.
Proof.
  intros E. injection E as <- <-. split; [split|].
  - intros [q|] w Hq; [exact Hq|discriminate].
  - intros [q|] w Hq; [now apply nth_error_old|discriminate].
  - cbn. now rewrite nth_error_app2, Nat.sub_diag by lia.
Qed.

Lemma extends_trans h1 h2 h3 : extends h1 h2 -> extends h2 h3 -> extends h1 h3.
Proof. intros [A B] [C D]. split; auto. Qed.

Lemma recv_ok_extends h h' st : extends h h' -> recv_ok h st -> recv_ok h' st /\ recv_view h' st = recv_view h st.
Proof.
  intros [X Y] (blk & Hb & Hs & Hn). split.
  - exists blk. split; [now apply X|]. split; [exact Hs|]. intros E. destruct (Hn E) as (bit & Hbit & R). exists bit. split; [now apply Y|exact R].
  - unfold recv_view. rewrite Hb, (X _ _ Hb). apply map_ext. intros i. unfold choice_of. destruct (r_type st) eqn:E; cbn [is_compact]; [|reflexivity].
    destruct (Hn eq_refl) as (bit & Hbit & _). now rewrite Hbit, (Y _ _ Hbit).
Qed.

Lemma send_ok_extends h h' st : extends h h' -> send_ok h st -> send_ok h' st /\ send_view h' st = send_view h st.
Proof.
  intros [X _] (blk & Hb & R). split; [exists blk; split; [now apply X|exact R]|]. unfold send_view, send_window. now rewrite Hb, (X _ _ Hb).
Qed.

Lemma fresh_recv_rest h st : fresh (r_slice st) -> recv_rest h st = recv_view h st.
Proof. intros [E F]. unfold recv_rest, recv_view. rewrite E, F. now replace (internal_use_ctr_ (r_slice st) + internal_use_size_ (r_slice st) - internal_use_ctr_ (r_slice st)) with (internal_use_size_ (r_slice st)) by lia. Qed.

Lemma fresh_send_rest h st : fresh (s_slice st) -> send_rest h st = send_view h st.
Proof. intros [E F]. unfold send_rest, send_view. rewrite E, F. f_equal. lia. Qed.

Lemma map_nth_id {A} (l : list A) d : map (fun i => nth i l d) (seq 0 (length l)) = l.
Proof.
  apply (nth_ext _ _ d d); [now rewrite length_map, length_seq|]. intros i Hi. rewrite length_map, length_seq in Hi.
  apply nth_error_nth. rewrite nth_error_seq_map. now rewrite (proj2 (Nat.ltb_lt i _)).
Qed.

Lemma flat_pairs_nth blocks k : (k < length blocks)%nat ->
  (nth (2 * k) (flat_pairs blocks) 0, nth (2 * k + 1) (flat_pairs blocks) 0) = nth k blocks (0, 0).
Proof.
  revert k; induction blocks as [|[a b] blocks IH]; intros [|k] H; cbn [length] in H; try lia; [reflexivity|].
  replace (2 * S k)%nat with (S (S (2 * k))) by lia. replace (S (S (2 * k)) + 1)%nat with (S (S (2 * k + 1))) by lia. apply IH. lia.
Qed.

Lemma flat_pairs_length blocks : length (flat_pairs blocks) = (2 * length blocks)%nat.
Proof. induction blocks as [|p blocks IH]; [reflexivity|]. cbn [flat_pairs flat_map length app]. fold (flat_pairs blocks). lia. Qed.

Lemma MakeOtSendStore_ok h blocks : 0 < Z.of_nat (length blocks) < 2 ^ 62 -> exists st h', MakeOtSendStore h blocks = Some (st, h') /\
  extends h h' /\ send_ok h' st /\ fresh (s_slice st) /\ send_view h' st = blocks.
Proof.
  intros Hn. unfold MakeOtSendStore. destruct (new_vector h (flat_pairs blocks)) as [h' p] eqn:E. apply new_vector_ok in E as [X Hp].
  set (n := Z.of_nat (length blocks) * 2). assert (Ln : Z.of_nat (length (flat_pairs blocks)) = n) by (rewrite flat_pairs_length; unfold n; lia).
  rewrite (proj2 (send_store_spec _ _ _ _ _ _ _ _ (SendStore (Slice_ 0 n 0 n) Normal 0 p))).
  2: { split; [reflexivity|]. apply (send_check_spec h' p _ _ Hp). cbn [internal_use_size_ internal_buf_size_ internal_buf_ctr_]. lia. }
  do 2 eexists. split; [reflexivity|]. split; [exact X|]. split; [|split; [split; reflexivity|]].
  - exists (flat_pairs blocks). cbn [s_blk_buf s_slice delta_ s_type]. split; [exact Hp|]. unfold slice_ok. cbn [internal_use_ctr_ internal_use_size_ internal_buf_ctr_ internal_buf_size_].
    split; [lia|]. split; [lia|]. split; [reflexivity|]. unfold ot_blk_num. cbn [s_type is_compact]. exists 0, (Z.of_nat (length blocks)), 0, (Z.of_nat (length blocks)). lia.
  - unfold send_view, send_window. cbn [s_blk_buf s_slice internal_use_ctr_ internal_use_size_]. rewrite Hp. unfold ot_blk_num. cbn [s_type is_compact].
    unfold n. rewrite Z.div_mul by lia. change (Z.to_nat (0 / 2)) with 0%nat. rewrite Nat2Z.id. etransitivity; [|apply (map_nth_id blocks (0, 0))].
    apply map_ext_in. intros k Hk. apply in_seq in Hk. unfold messages. cbn [delta_ Z.eqb]. apply flat_pairs_nth. lia.
Qed.

Lemma MakeCompactOtSendStore_ok h blocks delta : 0 < Z.of_nat (length blocks) < 2 ^ 62 -> 0 < delta < 2 ^ 128 ->
  exists st h', MakeCompactOtSendStore h blocks delta = Some (st, h') /\
    extends h h' /\ send_ok h' st /\ fresh (s_slice st) /\ send_view h' st = map (fun v => (v, Z.lxor v delta)) blocks.
Proof.
  intros Hn Hd. unfold MakeCompactOtSendStore. destruct (new_vector h blocks) as [h' p] eqn:E. apply new_vector_ok in E as [X Hp].
  set (n := Z.of_nat (length blocks)) in *.
  rewrite (proj2 (send_store_spec _ _ _ _ _ _ _ _ (SendStore (Slice_ 0 n 0 n) Compact delta p))).
  2: { split; [reflexivity|]. apply (send_check_spec h' p _ _ Hp). cbn [internal_use_size_ internal_buf_size_ internal_buf_ctr_]. lia. }
  do 2 eexists. split; [reflexivity|]. split; [exact X|]. split; [|split; [split; reflexivity|]].
  - exists blocks. cbn [s_blk_buf s_slice delta_ s_type]. split; [exact Hp|]. unfold slice_ok. cbn [internal_use_ctr_ internal_use_size_ internal_buf_ctr_ internal_buf_size_].
    split; [lia|]. split; [lia|]. split; [lia|]. unfold ot_blk_num. cbn [s_type is_compact]. exists 0, n, 0, n. lia.
  - unfold send_view, send_window. cbn [s_blk_buf s_slice internal_use_ctr_ internal_use_size_]. rewrite Hp. unfold ot_blk_num. cbn [s_type is_compact].
    rewrite !Z.div_1_r. change (Z.to_nat 0) with 0%nat. unfold n. rewrite Nat2Z.id.
    etransitivity; [|apply f_equal, (map_nth_id blocks 0)]. rewrite map_map. apply map_ext. intros k. unfold messages. cbn [delta_]. destruct (Z.eqb_spec delta 0); [lia|]. unfold ot_blk_num. cbn [s_type is_compact].
    change (Z.to_nat 1) with 1%nat. now rewrite Nat.mul_1_l.
Qed.

Lemma MakeOtRecvStore_ok h choices blocks : wf 128 choices -> size choices = length blocks -> 0 < Z.of_nat (length blocks) < 2 ^ 62 ->
  exists st h', MakeOtRecvStore h choices blocks = Some (st, h') /\
    extends h h' /\ recv_ok h' st /\ fresh (r_slice st) /\ recv_view h' st = combine (bits 128 choices) blocks.
Proof.
  intros W Sz Hn. unfold MakeOtRecvStore. destruct (new_bitset h choices) as [h1 q] eqn:E. apply new_bitset_ok in E as [X1 Hq].
  destruct (new_vector h1 blocks) as [h' p] eqn:E. apply new_vector_ok in E as [X2 Hp]. set (n := Z.of_nat (size choices)).
  assert (Hq' : get_bitset h' q = Some choices) by (now apply X2).
  rewrite (proj2 (recv_store_spec _ _ _ _ _ _ _ _ (RecvStore (Slice_ 0 n 0 n) Normal q p))).
  2: { split; [reflexivity|]. unfold recv_check, SliceBase_ConsistencyCheck. cbn [internal_use_size_ internal_buf_size_ internal_buf_ctr_ is_compact].
       rewrite Hp, Hq', Sz, Nat.eqb_refl. unfold n. rewrite !andb_true_iff, !Z.ltb_lt, !Z.leb_le. lia. }
  do 2 eexists. split; [reflexivity|]. split; [now apply extends_trans with h1|]. split; [|split; [split; reflexivity|]].
  - exists blocks. cbn [r_blk_buf r_slice r_type r_bit_buf]. split; [exact Hp|]. unfold slice_ok. cbn [internal_use_ctr_ internal_use_size_ internal_buf_ctr_ internal_buf_size_].
    split; [unfold n; lia|]. intros _. exists choices. auto.
  - unfold recv_view. cbn [r_blk_buf r_slice internal_use_ctr_ internal_use_size_]. rewrite Hp. unfold choice_of. cbn [r_type is_compact r_bit_buf]. rewrite Hq'.
    unfold bits. change (m_bits_number choices) with (size choices). unfold n. rewrite Nat2Z.id.
    etransitivity; [|apply f_equal, (map_nth_id blocks 0)]. rewrite <- Sz.
    change (Z.to_nat 0) with 0%nat. generalize (seq 0 (size choices)). intros l. induction l as [|i l IH]; [reflexivity|]. cbn [map combine]. now rewrite IH.
Qed.

Lemma MakeCompactOtRecvStore_ok h blocks : 0 < Z.of_nat (length blocks) < 2 ^ 62 ->
  exists st h', MakeCompactOtRecvStore h blocks = Some (st, h') /\
    extends h h' /\ recv_ok h' st /\ fresh (r_slice st) /\ recv_view h' st = map (fun v => (Z.odd v, v)) blocks.
Proof.
  intros Hn. unfold MakeCompactOtRecvStore. destruct (new_vector h blocks) as [h' p] eqn:E. apply new_vector_ok in E as [X2 Hp]. set (n := Z.of_nat (length blocks)) in *.
  rewrite (proj2 (recv_store_spec _ _ _ _ _ _ _ _ (RecvStore (Slice_ 0 n 0 n) Compact None p))).
  2: { split; [reflexivity|]. unfold recv_check, SliceBase_ConsistencyCheck. cbn [internal_use_size_ internal_buf_size_ internal_buf_ctr_ is_compact].
       rewrite Hp. rewrite !andb_true_iff, !Z.ltb_lt, !Z.leb_le. lia. }
  do 2 eexists. split; [reflexivity|]. split; [exact X2|]. split; [|split; [split; reflexivity|]].
  - exists blocks. cbn [r_blk_buf r_slice r_type r_bit_buf]. split; [exact Hp|]. unfold slice_ok. cbn [internal_use_ctr_ internal_use_size_ internal_buf_ctr_ internal_buf_size_].
    split; [lia|]. discriminate.
  - unfold recv_view. cbn [r_blk_buf r_slice internal_use_ctr_ internal_use_size_]. rewrite Hp. unfold choice_of. cbn [r_type is_compact].
    unfold n. rewrite Nat2Z.id. change (Z.to_nat 0) with 0%nat. etransitivity; [|apply f_equal, (map_nth_id blocks 0)]. now rewrite map_map.
Qed.

(** The mock transfers are transfers. *)
Lemma Forall2_map2 {A B C} (P : B -> C -> Prop) (f : A -> B) (g : A -> C) l : (forall x, In x l -> P (f x) (g x)) -> Forall2 P (map f l) (map g l).
Proof. intros H. induction l as [|x l IH]; cbn; constructor; [apply H; now left|]. apply IH. intros y Hy. apply H. now right. Qed.

Lemma combine_map2 {A B C} (f : A -> B) (g : A -> C) l : combine (map f l) (map g l) = map (fun x => (f x, g x)) l.
Proof. induction l as [|x l IH]; [reflexivity|]. cbn. now rewrite IH. Qed.

Definition paired (r : option (OtSendStore * OtRecvStore * heap)) : Prop :=
  exists s t h', r = Some (s, t, h') /\ send_ok h' s /\ recv_ok h' t /\ fresh (s_slice s) /\ fresh (r_slice t) /\
    correlated (send_view h' s) (recv_view h' t).

Lemma MockRots_ok h gen num choices : wf 128 choices -> size choices = num -> 0 < Z.of_nat num < 2 ^ 62 -> paired (MockRots h gen num choices).
Proof.
  intros W Sz Hn. unfold MockRots, YACL_ENFORCE. rewrite Sz, Nat.eqb_refl.
  destruct (MakeOtSendStore_ok h (map (fun i => (gen (2 * i)%nat, gen (2 * i + 1)%nat)) (seq 0 num))) as (s & h1 & -> & X1 & Ks & Fs & Vs);
    [now rewrite length_map, length_seq|].
  destruct (MakeOtRecvStore_ok h1 choices (map (fun i => if test_bit 128 choices i then gen (2 * i + 1)%nat else gen (2 * i)%nat) (seq 0 num)) W)
    as (t & h2 & -> & X2 & Kt & Ft & Vt); [now rewrite length_map, length_seq|now rewrite length_map, length_seq|].
  destruct (send_ok_extends h1 h2 s X2 Ks) as [Ks' Vs']. do 3 eexists. split; [reflexivity|]. do 4 (split; [assumption|]).
  rewrite Vs', Vs, Vt. unfold bits. change (m_bits_number choices) with (size choices). rewrite Sz, combine_map2. apply Forall2_map2.
  intros i _. cbn [fst snd]. now rewrite (test_bit_ok 128 pos128).
Qed.

Lemma MockCots_ok h gen num delta choices : wf 128 choices -> size choices = num -> 0 < Z.of_nat num < 2 ^ 62 -> 0 < delta < 2 ^ 128 ->
  paired (MockCots h gen num delta choices).
Proof.
  intros W Sz Hn Hd. unfold MockCots, YACL_ENFORCE. rewrite Sz, Nat.eqb_refl.
  destruct (MakeCompactOtSendStore_ok h (map gen (seq 0 num)) delta) as (s & h1 & -> & X1 & Ks & Fs & Vs);
    [now rewrite length_map, length_seq|exact Hd|].
  destruct (MakeOtRecvStore_ok h1 choices (map (fun i => if negb (test_bit 128 choices i) then gen i else Z.lxor (gen i) delta) (seq 0 num)) W)
    as (t & h2 & -> & X2 & Kt & Ft & Vt); [now rewrite length_map, length_seq|now rewrite length_map, length_seq|].
  destruct (send_ok_extends h1 h2 s X2 Ks) as [Ks' Vs']. do 3 eexists. split; [reflexivity|]. do 4 (split; [assumption|]).
  rewrite Vs', Vs, Vt. unfold bits. change (m_bits_number choices) with (size choices). rewrite Sz, combine_map2, map_map. apply Forall2_map2.
  intros i _. cbn [fst snd]. rewrite (test_bit_ok 128 pos128). now destruct (bit_at 128 choices i).
Qed.

Lemma MockCompactOts_ok h gen num rand : 0 < Z.of_nat num < 2 ^ 62 -> 0 <= rand < 2 ^ 128 -> paired (MockCompactOts h gen num rand).
Proof.
  intros Hn Hr. unfold MockCompactOts. cbv zeta.
  assert (Hd : 0 < Z.lor rand 1 < 2 ^ 128).
  { assert (L : 0 <= Z.lor rand 1 < 2 ^ 128).
    { assert (H1 : 0 <= Z.lor rand 1) by (apply Z.lor_nonneg; lia). split; [exact H1|].
      rewrite <- (Z.mod_small rand (2 ^ 128) Hr). change 1 with (1 mod 2 ^ 128) at 1. rewrite <- !Z.land_ones, <- Z.land_lor_distr_l, Z.land_ones by lia. apply Z.mod_pos_bound. lia. }
    split; [|apply L]. destruct (Z.eq_dec (Z.lor rand 1) 0) as [E|E]; [|lia]. apply Z.lor_eq_0_iff in E. lia. }
  set (delta := Z.lor rand 1) in *. assert (Od : Z.odd delta = true) by (unfold delta; rewrite <- Z.bit0_odd, Z.lor_spec; apply orb_true_r).
  destruct (MakeCompactOtSendStore_ok h (map (fun i => Z.lxor (gen i) (u128 (Z.land (gen i) 1 * delta))) (seq 0 num)) delta) as (s & h1 & -> & X1 & Ks & Fs & Vs);
    [now rewrite length_map, length_seq|exact Hd|].
  destruct (MakeCompactOtRecvStore_ok h1 (map gen (seq 0 num))) as (t & h2 & -> & X2 & Kt & Ft & Vt); [now rewrite length_map, length_seq|].
  destruct (send_ok_extends h1 h2 s X2 Ks) as [Ks' Vs']. do 3 eexists. split; [reflexivity|]. do 4 (split; [assumption|]).
  rewrite Vs', Vs, Vt, !map_map. apply Forall2_map2. intros i _. cbn [fst snd]. rewrite land_1_odd. destruct (Z.odd (gen i)); cbn [Z.b2z].
  - rewrite Z.mul_1_l. unfold u128, uwrap. rewrite Z.mod_small by lia. now rewrite Z.lxor_assoc, Z.lxor_nilpotent, Z.lxor_0_r.
  - change (u128 (0 * delta)) with 0. now rewrite Z.lxor_0_r.
Qed.

(** *** Copying the blocks of a compact store *)

Lemma send_CopyCotBlkBuf_ok h st blk : send_ok h st -> s_type st = Compact -> get_vector h (s_blk_buf st) = Some blk ->
  let s := s_slice st in
  (fresh s -> send_CopyCotBlkBuf h st = Some (map fst (send_view h st))) /\
  (Z.of_nat (length blk) < internal_buf_ctr_ s + internal_use_size_ s -> send_CopyCotBlkBuf h st = None).
Proof.
  intros (blk' & Hb' & Hs & Hd & Ht & _) En Hb. rewrite Hb in Hb'. injection Hb' as <-. cbv zeta. unfold slice_ok in Hs.
  unfold send_CopyCotBlkBuf, YACL_ENFORCE. rewrite En, Hb. cbn [is_compact]. split.
  - intros [E _]. rewrite E, vector_copy_window by lia. f_equal. unfold send_view, send_window. rewrite Hb.
    unfold ot_blk_num. rewrite En. cbn [is_compact]. rewrite !Z.div_1_r, map_map. apply map_ext. intros k. unfold messages.
    destruct (Z.eqb_spec (delta_ st) 0) as [D|D]; [rewrite (Ht D) in En; discriminate|]. unfold ot_blk_num. rewrite En. cbn [is_compact fst].
    change (Z.to_nat 1) with 1%nat. now rewrite Nat.mul_1_l.
  - intros G. unfold vector_copy. destruct (Z.leb_spec (internal_buf_ctr_ (s_slice st)) (internal_buf_ctr_ (s_slice st) + internal_use_size_ (s_slice st))),
      (Z.leb_spec (internal_buf_ctr_ (s_slice st) + internal_use_size_ (s_slice st)) (Z.of_nat (length blk))); cbn [andb]; lia || reflexivity.
Qed.

(** *** The counters of made stores *)

Lemma MakeOtSendStore_slice h blocks st h' : MakeOtSendStore h blocks = Some (st, h') ->
  s_slice st = Slice_ 0 (Z.of_nat (length blocks) * 2) 0 (Z.of_nat (length blocks) * 2) /\ s_type st = Normal /\ delta_ st = 0.
Proof.
  unfold MakeOtSendStore. destruct (new_vector h (flat_pairs blocks)) as [h2 p].
  destruct (send_store h2 p 0 0 _ 0 _ Normal) as [s2|] eqn:E; [|discriminate]. intros X. injection X as -> _.
  apply send_store_spec in E as [-> _]. now split.
Qed.

Lemma MakeOtRecvStore_slice h choices blocks st h' : MakeOtRecvStore h choices blocks = Some (st, h') ->
  r_slice st = Slice_ 0 (Z.of_nat (size choices)) 0 (Z.of_nat (size choices)).
Proof.
  unfold MakeOtRecvStore. destruct (new_bitset h choices) as [h1 p1]. destruct (new_vector h1 blocks) as [h2 p2].
  destruct (recv_store h2 p1 p2 0 _ 0 _ Normal) as [s2|] eqn:E; [|discriminate]. intros X. injection X as -> _.
  now apply recv_store_spec in E as [-> _].
Qed.
