(* ===== verification/OtExt.v ===== *)
(** What the OT extensions share ([ot/iknp_ote], [ot/kos_ote]): the messages on the
    link, the batched loops, and the correlation of the rows of two matrices
    whose columns are correlated. *)
From Stdlib Require Import ZArith Lia List Bool.
From S2P Require Import Prelude.
From S2P Require Import Errors.
From S2P Require Import Int128.
From S2P Require Import Transpose.
From S2P Require Import Cipher.
From S2P Require Import Bitset.
From S2P Require Import OtStore.
Import ListNotations.

(** Equations of exclusive ors, bit by bit. *)
Ltac lxor_bits :=
  apply Z.bits_inj'; intros n_ _; rewrite ?Z.lxor_spec, ?Z.bits_0;
  repeat match goal with |- context [Z.testbit ?x ?n] => destruct (Z.testbit x n) end; reflexivity.

(** ** Messages *)

(** The keys of the messages: [fmt::format("IKNP:{}", i)] and so on. *)
Inductive tag := IKNP (i : nat) | KOS (i : nat) | KOS_CHECK | SyncSeed.
Definition tag_eqb (s t : tag) : bool :=
  match s, t with
  | IKNP i, IKNP j | KOS i, KOS j => (i =? j)%nat
  | KOS_CHECK, KOS_CHECK | SyncSeed, SyncSeed => true
  | _, _ => false
  end.
(** Messages sent to a party and not yet received by it. *)
Definition channel : Type := list (tag * list Z).
Definition SendAsync (ch : channel) (key : tag) (buf : list Z) : channel := ch ++ [(key, buf)].
(** The first message with the key; [None] when it never comes. *)
Fixpoint ctx_Recv (ch : channel) (key : tag) : option (list Z * channel) :=
  match ch with
  | [] => None
  | (t, buf) :: ch =>
      if tag_eqb key t then Some (buf, ch)
      else let? (buf', ch) := ctx_Recv ch key in Some (buf', (t, buf) :: ch)
  end.

Lemma tag_eqb_refl t : tag_eqb t t = true.
Proof. destruct t; cbn; auto using Nat.eqb_refl. Qed.

Lemma ctx_Recv_first t buf ch : ctx_Recv ((t, buf) :: ch) t = Some (buf, ch).
Proof. cbn [ctx_Recv]. now rewrite tag_eqb_refl. Qed.

(** A loop over a state that may throw. *)
Fixpoint foldM {A B} (f : A -> B -> option A) (l : list B) (a : A) : option A :=
  match l with
  | [] => Some a
  | x :: l => let? a := f a x in foldM f l a
  end.

Lemma foldM_states {A} (f : A -> nat -> option A) (st : nat -> A) n :
  (forall i, (i < n)%nat -> f (st i) i = Some (st (S i))) -> foldM f (seq 0 n) (st 0%nat) = Some (st n).
Proof.
  enough (forall k o, (o + k = n)%nat -> (forall i, (i < n)%nat -> f (st i) i = Some (st (S i))) -> foldM f (seq o k) (st o) = Some (st n)) as G by (intros H; now apply (G n 0%nat)).
  induction k as [|k IH]; intros o E H; cbn [seq foldM]; [f_equal; f_equal; lia|]. rewrite H by lia. apply IH; [lia|exact H].
Qed.

(** ** Batches of 128 *)

Definition kBatchSize : nat := 128.
(** Batch [i] of a vector: its first [limit] elements. *)
Definition write_batch {A} (out : list A) (i limit : nat) (vals : nat -> A) : list A :=
  fold_left (fun out j => upd out (i * kBatchSize + j) (vals j)) (seq 0 limit) out.
(** [(num + kBatchSize - 1) / kBatchSize] *)
Definition batches (num : nat) : nat := (num + kBatchSize - 1) / kBatchSize.
Definition batch_limit (num i : nat) : nat := Nat.min kBatchSize (num - i * kBatchSize).

Lemma batches_bound num : (num <= batches num * 128)%nat /\ (batches num * 128 < num + 128)%nat.
Proof.
  unfold batches, kBatchSize. pose proof (Nat.div_mod (num + 128 - 1) 128 ltac:(lia)). pose proof (Nat.mod_upper_bound (num + 128 - 1) 128 ltac:(lia)). lia.
Qed.

Lemma write_batch_nth {A} (vals : nat -> A) i d limit : forall out, (i * 128 + limit <= length out)%nat ->
  length (write_batch out i limit vals) = length out /\
  forall j, nth j (write_batch out i limit vals) d =
    if (i * 128 <=? j)%nat && (j <? i * 128 + limit)%nat then vals (j - i * 128)%nat else nth j out d.
Proof.
  unfold write_batch, kBatchSize. induction limit as [|n IH]; intros out H.
  - split; [reflexivity|]. intros j. cbn [seq fold_left]. destruct (Nat.leb_spec (i * 128) j), (Nat.ltb_spec j (i * 128 + 0)); cbn [andb]; try reflexivity; lia.
  - rewrite seq_S, fold_left_app. cbn [fold_left Nat.add]. destruct (IH out ltac:(lia)) as [IL IN]. split; [now rewrite length_upd|].
    intros j. rewrite nth_upd_nat by lia. rewrite IN.
    destruct (Nat.eqb_spec (i * 128 + n) j), (Nat.leb_spec (i * 128) j), (Nat.ltb_spec j (i * 128 + n)), (Nat.ltb_spec j (i * 128 + S n)); cbn [andb]; try reflexivity; try lia.
    f_equal. lia.
Qed.

(** All the batches: the values in order. *)
Definition fill {A} (vals : nat -> nat -> A) (k : nat) (out : list A) : list A :=
  fold_left (fun out i => write_batch out i (batch_limit (length out) i) (vals i)) (seq 0 k) out.

Lemma fill_nth {A} (vals : nat -> nat -> A) d out k : (k <= batches (length out))%nat -> length (fill vals k out) = length out /\
  forall j, (j < length out)%nat -> nth j (fill vals k out) d = if (j <? k * 128)%nat then vals (j / 128)%nat (j mod 128)%nat else nth j out d.
Proof.
  pose proof (batches_bound (length out)) as B. unfold fill. induction k as [|k IH]; intros H.
  - split; [reflexivity|]. intros j _. destruct (Nat.ltb_spec j (0 * 128)); [lia|reflexivity].
  - rewrite seq_S, fold_left_app. cbn [fold_left Nat.add]. destruct (IH ltac:(lia)) as [IL IN]. set (o := fold_left _ (seq 0 k) out) in *.
    assert (Hl : (k * 128 + batch_limit (length o) k <= length o)%nat) by (unfold batch_limit, kBatchSize in *; lia).
    destruct (write_batch_nth (vals k) k d _ o Hl) as [WL WN]. split; [congruence|]. intros j Hj. rewrite WN, IN by exact Hj.
    unfold batch_limit, kBatchSize. rewrite IL.
    destruct (Nat.leb_spec (k * 128) j), (Nat.ltb_spec j (k * 128 + Nat.min 128 (length out - k * 128))), (Nat.ltb_spec j (k * 128)), (Nat.ltb_spec j (S k * 128)); cbn [andb]; try reflexivity; try lia.
    f_equal; [apply (Nat.div_unique _ _ _ (j - k * 128))|apply (Nat.mod_unique _ _ k)]; lia.
Qed.

Lemma fill_all {A} (vals : nat -> nat -> A) out :
  fill vals (batches (length out)) out = map (fun j => vals (j / 128)%nat (j mod 128)%nat) (seq 0 (length out)).
Proof.
  destruct out as [|d out']; [unfold batches, kBatchSize; reflexivity|]. set (out := d :: out'). destruct (fill_nth vals d out _ (Nat.le_refl _)) as [L N].
  pose proof (batches_bound (length out)) as B. apply (nth_ext _ _ d d); [now rewrite L, length_map, length_seq|]. intros j Hj. rewrite L in Hj.
  rewrite N, nth_map_seq by exact Hj. destruct (Nat.ltb_spec j (batches (length out) * 128)); [reflexivity|lia].
Qed.

Lemma fill_S {A} (vals : nat -> nat -> A) k out : (k <= batches (length out))%nat ->
  fill vals (S k) out = write_batch (fill vals k out) k (batch_limit (length out) k) (vals k).
Proof.
  intros H. unfold fill. rewrite seq_S, fold_left_app. cbn [fold_left Nat.add]. f_equal. f_equal.
  destruct out as [|d out']; [|exact (proj1 (fill_nth vals d _ k H))].
  unfold batches, kBatchSize in H. cbn in H. assert (k = 0%nat) as -> by lia. reflexivity.
Qed.

(** ** Correlated rows *)

Definition mask_if (b : bool) (x : Z) : Z := if b then x else 0.
Definition columns (f : nat -> Z) : list Z := map f (seq 0 128).

Lemma columns_matrix f : (forall k, (k < 128)%nat -> in128 (f k)) -> matrix (columns f).
Proof. apply matrix_map. Qed.

(** Columns that differ by the choices where [s] is set have rows that differ by
    [s] where a choice is set. *)
Lemma correlated_rows t s r : (forall k, (k < 128)%nat -> in128 (t k)) -> in128 r ->
  forall j, (j < 128)%nat ->
  at_ (transpose (columns (fun k => Z.lxor (t k) (mask_if (s k) r)))) j =
  Z.lxor (at_ (transpose (columns t)) j) (mask_if (Z.testbit r (Z.of_nat j)) (bits_val (map s (seq 0 128)))).
Proof.
  intros Ht Hr j Hj. pose proof (bits_val_bound (map s (seq 0 128))) as Bd. rewrite length_map, length_seq in Bd. set (delta := bits_val _) in *.
  assert (Im : forall b x, in128 x -> in128 (mask_if b x)) by (intros [] x Hx; [exact Hx|split; [unfold mask_if; cbn; lia|reflexivity]]).
  apply (bits_ext _ _ 128).
  - apply (matrix_row (transpose _)), transpose_matrix.
  - apply lxor_in128; [apply (matrix_row (transpose _)), transpose_matrix|apply Im, Bd].
  - intros k Hk. rewrite Z.lxor_spec. fold (bit (transpose (columns t)) j k).
    fold (bit (transpose (columns (fun k => Z.lxor (t k) (mask_if (s k) r)))) j k). rewrite !transpose_bit by assumption.
    unfold bit, columns. rewrite !at_map_seq, Z.lxor_spec by exact Hk. f_equal.
    assert (Ed : Z.testbit delta (Z.of_nat k) = s k).
    { unfold delta. rewrite bits_val_bit. exact (nth_map_seq s 128 k false Hk). }
    unfold mask_if. destruct (s k) eqn:Es, (Z.testbit r (Z.of_nat j)) eqn:Er; rewrite ?Z.bits_0, ?Es, ?Er, ?Ed; reflexivity.
Qed.

(** The first block of a bitset of 128 bits. *)
Lemma first_block b : wf 128 b -> size b = 128%nat -> nth_error (m_blocks b) 0 = Some (bits_val (bits 128 b)).
Proof.
  intros (Wl & Wf & Wz) Hs. unfold size in Hs. rewrite Hs in Wl. change (blocks_required 128 128) with 1%nat in Wl. destruct (m_blocks b) as [|x [|y l]] eqn:E; try discriminate.
  cbn [nth_error]. f_equal. pose proof (bits_val_bound (bits 128 b)) as Bb. rewrite length_bits, Hs in Bb.
  apply (bits_ext _ _ 128); [inversion Wf; assumption|exact Bb|]. intros i Hi.
  rewrite bits_val_bit, nth_bits by (split; [now rewrite Hs, E|split; [now rewrite E|exact Wz]]).
  unfold bit_at. rewrite E, Nat.div_small, Nat.mod_small by exact Hi. reflexivity.
Qed.

(** The choices, extended to whole batches, block by block. *)
Lemma choice_block b num i j : wf 128 b -> (num <= i * 128 + 128)%nat -> (j < 128)%nat ->
  Z.testbit (at_ (m_blocks b) i) (Z.of_nat j) = bit_at 128 b (i * 128 + j).
Proof. intros _ _ Hj. rewrite bit_at_split by lia. reflexivity. Qed.

(** ** Base transfers *)

Lemma correlated_nth sv rv k : correlated sv rv -> (k < length rv)%nat ->
  snd (nth k rv (false, 0)) = if fst (nth k rv (false, 0)) then snd (nth k sv (0, 0)) else fst (nth k sv (0, 0)).
Proof.
  intros H. revert k; induction H as [|m c sv rv E H IH]; intros k Hk; [cbn in Hk; lia|]. destruct k as [|k]; [exact E|]. apply IH. cbn in Hk. lia.
Qed.

(** The bits that give the key of the [k]-th column, and the columns. *)
Definition prg_blocks {C : Cipher} (seed : Z) (num : nat) : list Z :=
  match PrgAesCtr 16 seed num with Some l => l | None => [] end.

Section Base.
Context {C : Cipher} {L : CipherLaws C}.

Lemma prg_blocks_ok seed num : PrgAesCtr 16 seed num = Some (prg_blocks seed num) /\ length (prg_blocks seed num) = num /\
  Forall in128 (prg_blocks seed num).
Proof. unfold prg_blocks. destruct (PrgAesCtr_some 16 seed num) as (l & -> & Ll & F). now split. Qed.

Lemma prg_blocks_at seed num i : in128 (at_ (prg_blocks seed num) i).
Proof.
  destruct (prg_blocks_ok seed num) as (_ & _ & F). unfold at_. destruct (Nat.lt_ge_cases i (length (prg_blocks seed num))).
  - rewrite Forall_forall in F. now apply F, nth_In.
  - rewrite nth_overflow by assumption. split; [lia|reflexivity].
Qed.

Context (h : heap) (r : OtRecvStore) (s : OtSendStore).
Context (r_ok : recv_ok h r) (s_ok : send_ok h s) (r_128 : recv_Size r = 128) (s_128 : send_Size s = 128).
Context (base : correlated (send_view h s) (recv_view h r)).

Definition choice (k : nat) : bool := fst (nth k (recv_view h r) (false, 0)).
Definition key0 (k : nat) : Z := fst (nth k (send_view h s) (0, 0)).
Definition key1 (k : nat) : Z := snd (nth k (send_view h s) (0, 0)).
Definition delta_of : Z := bits_val (map choice (seq 0 128)).

Lemma recv_len : length (recv_view h r) = 128%nat.
Proof. pose proof (recv_view_length h r r_ok). lia. Qed.

Lemma send_len : length (send_view h s) = 128%nat.
Proof. pose proof (send_view_length h s s_ok). lia. Qed.

Lemma recv_block_at k : (k < 128)%nat -> recv_GetBlock h r (Z.of_nat k) = Some (if choice k then key1 k else key0 k).
Proof.
  intros Hk. rewrite recv_GetBlock_ok by (exact r_ok || lia). rewrite Nat2Z.id, (nth_error_nth' _ (false, 0)) by (rewrite recv_len; exact Hk).
  cbn [option_map]. f_equal. apply correlated_nth; [exact base|]. now rewrite recv_len.
Qed.

Lemma recv_choice_at k : (k < 128)%nat -> recv_GetChoice h r (Z.of_nat k) = Some (Z.b2z (choice k)).
Proof.
  intros Hk. rewrite recv_GetChoice_ok by (exact r_ok || lia). rewrite Nat2Z.id, (nth_error_nth' _ (false, 0)) by (rewrite recv_len; exact Hk).
  reflexivity.
Qed.

Lemma send_block_at k m : (k < 128)%nat -> m = 0 \/ m = 1 -> send_GetBlock h s (Z.of_nat k) m = Some (if m =? 0 then key0 k else key1 k).
Proof.
  intros Hk Hm. rewrite send_GetBlock_ok by (exact s_ok || lia). rewrite Nat2Z.id, (nth_error_nth' _ (0, 0)) by (rewrite send_len; exact Hk).
  destruct Hm as [-> | ->]; reflexivity.
Qed.

(** The difference of the two messages of the extension. *)
Lemma delta_block : exists b, recv_CopyBitBuf h r = Some b /\ nth_error (m_blocks b) 0 = Some delta_of.
Proof.
  destruct (recv_CopyBitBuf_ok h r r_ok) as (b & E & W & B). exists b. split; [exact E|].
  pose proof (f_equal (@length bool) B) as Lb. rewrite length_bits, length_map, recv_len in Lb.
  rewrite first_block by assumption. unfold delta_of. rewrite B. do 2 f_equal. unfold choice. pose proof recv_len as Lr. rewrite <- Lr.
  apply (nth_ext _ _ false false); [now rewrite !length_map, length_seq|]. intros i Hi. rewrite length_map in Hi.
  rewrite nth_map_seq by exact Hi. exact (map_nth fst (recv_view h r) (false, 0) i).
Qed.
End Base.

(** ** Stores of the extended transfers ([iknp_ote.h], [kos_ote.h]) *)

Definition ote_send_store (h : heap) (base_ot : OtRecvStore) (blocks : list (Z * Z)) (cot : bool) : option (OtSendStore * heap) :=
  let? (ret, h) := MakeOtSendStore h blocks in
  if cot then
    let? tmp_choice := recv_CopyBitBuf h base_ot in
    let? block := nth_error (m_blocks tmp_choice) 0 in
    let? ret := send_SetDelta ret block in
    Some (ret, h)
  else Some (ret, h).
Definition ote_recv_store (h : heap) (choices : dynamic_bitset) (blocks : list Z) : option (OtRecvStore * heap) :=
  MakeOtRecvStore h choices blocks.
(** The two stores, in one heap. *)
Definition ote_stores (h : heap) (base_ot : OtRecvStore) (choices : dynamic_bitset) (send_blocks : list (Z * Z)) (recv_blocks : list Z) (cot : bool)
  : option (OtSendStore * OtRecvStore * heap) :=
  let? (send, h) := ote_send_store h base_ot send_blocks cot in
  let? (recv, h) := ote_recv_store h choices recv_blocks in
  Some (send, recv, h).

Section Stores.
Context (h : heap) (r : OtRecvStore) (r_ok : recv_ok h r) (r_128 : recv_Size r = 128).

Lemma delta_extends h' : extends h h' -> delta_of h' r = delta_of h r /\ recv_ok h' r.
Proof. intros X. destruct (recv_ok_extends h h' r X r_ok) as [K V]. split; [|exact K]. unfold delta_of, choice. now rewrite V. Qed.

(** A store with the difference set gives the pairs it stores, when they differ by it. *)
Lemma set_delta_view h' s d sb : send_ok h' s -> s_type s = Normal -> delta_ s = 0 -> 0 < d < 2 ^ 128 -> send_view h' s = sb ->
  Forall (fun p => snd p = Z.lxor (fst p) d) sb ->
  let s' := SendStore (s_slice s) (s_type s) d (s_blk_buf s) in
  send_SetDelta s d = Some s' /\ send_ok h' s' /\ (fresh (s_slice s) -> fresh (s_slice s')) /\ send_view h' s' = sb.
Proof.
  intros (blk & Eb & Sl & _ & _ & Cs) Ty Dz Hd V F s'. split.
  { unfold send_SetDelta, YACL_ENFORCE. destruct (Z.eqb_spec d 0); [lia|reflexivity]. }
  split.
  { exists blk. cbn [s_blk_buf s_slice s_type delta_ s']. split; [exact Eb|]. split; [exact Sl|]. split; [lia|]. split; [lia|exact Cs]. }
  split; [auto|]. rewrite <- V in F |- *. unfold send_view, send_window in *. cbn [s_blk_buf s_slice s']. rewrite Eb in *.
  assert (En : ot_blk_num s' = ot_blk_num s) by reflexivity. rewrite En. apply map_ext_in. intros k Hk.
  rewrite Forall_forall in F. specialize (F (messages s blk k) (in_map (messages s blk) _ _ Hk)).
  unfold messages in *. rewrite Dz in *. cbn [Z.eqb delta_ s'] in *. rewrite En. unfold ot_blk_num. rewrite Ty. cbn [is_compact fst snd] in *.
  destruct (Z.eqb_spec d 0); [lia|]. change (Z.to_nat 2) with 2%nat. now rewrite F.
Qed.

Lemma ote_stores_ok choices sb rb cot : wf 128 choices -> size choices = length rb -> length sb = length rb -> 0 < Z.of_nat (length rb) < 2 ^ 62 ->
  correlated sb (combine (bits 128 choices) rb) ->
  (cot = true -> Forall (fun p => snd p = Z.lxor (fst p) (delta_of h r)) sb) ->
  if cot && (delta_of h r =? 0) then ote_stores h r choices sb rb cot = None
  else exists s t h', ote_stores h r choices sb rb cot = Some (s, t, h') /\ send_ok h' s /\ recv_ok h' t /\ fresh (s_slice s) /\ fresh (r_slice t) /\
    send_view h' s = sb /\ recv_view h' t = combine (bits 128 choices) rb /\ correlated (send_view h' s) (recv_view h' t).
Proof.
  intros W Sz Ls Hn Cor Dl. unfold ote_stores, ote_send_store.
  assert (Mk : exists s h1, MakeOtSendStore h sb = Some (s, h1) /\ extends h h1 /\ send_ok h1 s /\ fresh (s_slice s) /\ send_view h1 s = sb /\ s_type s = Normal /\ delta_ s = 0).
  { destruct (MakeOtSendStore_ok h sb) as (s & h1 & E & R); [rewrite Ls; lia|]. exists s, h1. split; [exact E|].
    destruct R as (X & K & Fr & V). do 4 (split; [assumption|]). now apply MakeOtSendStore_slice in E as (_ & Ty & Dz). }
  destruct Mk as (s & h1 & -> & X & K & Fr & V & Ty & Dz). destruct (delta_extends h1 X) as [Ed K1]. destruct (delta_block h1 r K1 r_128) as (b & Eb & E0).
  rewrite Eb. cbv iota beta. rewrite E0. rewrite Ed in *.
  pose proof (bits_val_bound (map (choice h r) (seq 0 128))) as Bd. rewrite length_map, length_seq in Bd. fold (delta_of h r) in Bd. change (Z.of_nat 128) with 128 in Bd.
  destruct (Z.eqb_spec (delta_of h r) 0) as [E|E]; destruct cot; cbn [andb].
  1: { unfold send_SetDelta, YACL_ENFORCE. rewrite E. reflexivity. }
  2: destruct (set_delta_view h1 s (delta_of h r) sb K Ty Dz ltac:(lia) V (Dl eq_refl)) as (-> & K2 & Fr2 & V2); specialize (Fr2 Fr).
  2: clear K Fr V; rename K2 into K, Fr2 into Fr, V2 into V; revert K Fr V; generalize (SendStore (s_slice s) (s_type s) (delta_of h r) (s_blk_buf s)); clear s Ty Dz; intros s K Fr V.
  all: unfold ote_recv_store; destruct (MakeOtRecvStore_ok h1 choices rb W Sz Hn) as (u & h2 & -> & X2 & Kt & Ft & Vt);
    destruct (send_ok_extends h1 h2 s X2 K) as [K' V']; exists s, u, h2; do 5 (split; [assumption || reflexivity|]);
    rewrite V', V, Vt; do 2 (split; [reflexivity|]); exact Cor.
Qed.
End Stores.
