(* ===== verification/Ge2n.v ===== *)
(** Elements of the integers modulo 2^N ([dpf/ge2n.h]): the stored number may
    exceed N bits; it is masked when it is read, compared or negated.  Stored
    numbers with the same residue are the coarser equality [cong2], and the
    operations are morphisms for it. *)
From Stdlib Require Import ZArith Lia List Bool Setoid Morphisms RelationClasses.
From S2P Require Import Prelude.
From S2P Require Import Errors.
From S2P Require Import Int128.
Import ListNotations.

(** ** The code; an element is the number in [store_] *)

Definition kMask_ (N : Z) : Z := if N =? 128 then 2 ^ 128 - 1 else u128 (u128 (1 [<<] N) - 1).
Definition GetVal (N store_ : Z) : Z := Z.land store_ (kMask_ N).
Definition ge_GetBit (store_ : Z) (i : nat) : option bool :=
  YACL_ENFORCE (i <? 128)%nat (Some (negb (Z.land (store_ [>>] Z.of_nat i) 1 =? 0))).
Definition GetReverse (N store_ : Z) : Z := u128 (u128 (kMask_ N - GetVal N store_) + 1).
Definition ReverseInplace (N store_ : Z) : Z := u128 (u128 (kMask_ N - GetVal N store_) + 1).
Definition ge2n_add (a b : Z) : Z := u128 (a + b).
Definition ge2n_sub (a b : Z) : Z := u128 (a - b).
Definition ge2n_eqb (N a b : Z) : bool := GetVal N a =? GetVal N b.
Definition ge2n_ltb (N a b : Z) : bool := GetVal N a <? GetVal N b.
Definition ge2n_leb (N a b : Z) : bool := GetVal N a <=? GetVal N b.

(** ** Residues *)

(** The group orders the code is built for. *)
Definition width_ok (N : Z) : Prop := 0 < N <= 128.

Definition cong2 (N a b : Z) : Prop := a mod 2 ^ N = b mod 2 ^ N.

#[export] Instance cong2_equiv N : Equivalence (cong2 N).
Proof. split; unfold cong2; [intros x|intros x y|intros x y z]; congruence. Qed.

#[export] Instance cong2_add N : Proper (cong2 N ==> cong2 N ==> cong2 N) Z.add.
Proof. intros a b H c d K. unfold cong2 in *. rewrite (Zplus_mod a), (Zplus_mod b). congruence. Qed.

#[export] Instance cong2_sub N : Proper (cong2 N ==> cong2 N ==> cong2 N) Z.sub.
Proof. intros a b H c d K. unfold cong2 in *. rewrite (Zminus_mod a), (Zminus_mod b). congruence. Qed.

#[export] Instance cong2_opp N : Proper (cong2 N ==> cong2 N) Z.opp.
Proof. intros a b H. rewrite <- !Z.sub_0_l. now rewrite H. Qed.

Lemma cong2_u128 N x : width_ok N -> cong2 N (u128 x) x.
Proof.
  intros [HN H]. unfold cong2, u128, uwrap. replace (2 ^ 128) with (2 ^ N * 2 ^ (128 - N)) by (rewrite <- Z.pow_add_r by lia; f_equal; lia).
  rewrite Z.rem_mul_r by lia. rewrite Z.mul_comm, Z.mod_add by lia. now rewrite Z.mod_mod by lia.
Qed.

Lemma kMask_eq N : width_ok N -> kMask_ N = Z.ones N.
Proof.
  intros [HN H]. rewrite Z.ones_equiv. unfold kMask_. destruct (Z.eqb_spec N 128) as [->|E]; [reflexivity|].
  assert (2 ^ N < 2 ^ 128) by (apply Z.pow_lt_mono_r; lia). assert (0 < 2 ^ N) by lia.
  rewrite Z.shiftl_1_l. unfold u128, uwrap. rewrite (Z.mod_small (2 ^ N)) by lia. rewrite Z.mod_small by lia. lia.
Qed.

Lemma GetVal_mod N x : width_ok N -> GetVal N x = x mod 2 ^ N.
Proof. intros H. unfold GetVal. rewrite kMask_eq by exact H. apply Z.land_ones. destruct H; lia. Qed.

Lemma GetVal_cong N x y : width_ok N -> GetVal N x = GetVal N y <-> cong2 N x y.
Proof. intros H. now rewrite !GetVal_mod. Qed.

Lemma cong2_GetVal N x : width_ok N -> cong2 N (GetVal N x) x.
Proof. intros H. unfold cong2. rewrite GetVal_mod by exact H. apply Z.mod_mod. destruct H; lia. Qed.

Lemma cong2_GetReverse N x : width_ok N -> cong2 N (GetReverse N x) (- x).
Proof.
  intros H. unfold GetReverse. rewrite !cong2_u128 by exact H. rewrite cong2_GetVal by exact H. rewrite kMask_eq, Z.ones_equiv by exact H.
  unfold cong2. replace (Z.pred (2 ^ N) - x + 1) with (- x + 1 * 2 ^ N) by lia. apply Z.mod_add. destruct H; lia.
Qed.

Lemma cong2_ReverseInplace N x : width_ok N -> cong2 N (ReverseInplace N x) (- x).
Proof. apply cong2_GetReverse. Qed.

Lemma cong2_ge_add N a b : width_ok N -> cong2 N (ge2n_add a b) (a + b).
Proof. apply cong2_u128. Qed.

Lemma cong2_ge_sub N a b : width_ok N -> cong2 N (ge2n_sub a b) (a - b).
Proof. apply cong2_u128. Qed.

Lemma ge2n_eqb_spec N a b : width_ok N -> ge2n_eqb N a b = true <-> cong2 N a b.
Proof. intros H. unfold ge2n_eqb. rewrite Z.eqb_eq. now apply GetVal_cong. Qed.

(** Bits are read where they are; below N they are those of the residue. *)
Lemma GetBit_ok x i : (i < 128)%nat -> ge_GetBit x i = Some (Z.testbit x (Z.of_nat i)).
Proof.
  intros H. unfold ge_GetBit, YACL_ENFORCE. destruct (Nat.ltb_spec i 128); [|lia]. f_equal.
  rewrite (Z.land_ones _ 1) by lia. change (2 ^ 1) with 2.
  rewrite Zmod_odd, <- Z.testbit_odd. now destruct (Z.testbit x (Z.of_nat i)).
Qed.

Lemma same_bits N a b : 0 <= N -> cong2 N a b <-> forall i, (i < Z.to_nat N)%nat -> Z.testbit a (Z.of_nat i) = Z.testbit b (Z.of_nat i).
Proof.
  intros HN. unfold cong2. split; intros H.
  - intros i Hi. rewrite <- (Z.mod_pow2_bits_low a N), <- (Z.mod_pow2_bits_low b N) by lia. now rewrite H.
  - apply Z.bits_inj'. intros n Hn. destruct (Z_lt_le_dec n N) as [L|L].
    + rewrite !Z.mod_pow2_bits_low by lia. specialize (H (Z.to_nat n) ltac:(lia)). now rewrite Z2Nat.id in H by lia.
    + now rewrite !Z.mod_pow2_bits_high by lia.
Qed.

(** The sizes the schemes are instantiated at are among these: M bits of input, N
    bits of output. *)
Definition fss_params (M N : nat) : Prop := (0 < M <= 64)%nat /\ (N = 64 \/ N = 128)%nat.

Lemma fss_width M N : fss_params M N -> width_ok (Z.of_nat N).
Proof. intros [_ [-> | ->]]; unfold width_ok; lia. Qed.

Lemma GetVal_idem N v : width_ok N -> GetVal N (GetReverse N (GetVal N v)) = GetVal N (GetReverse N v).
Proof. intros H. apply GetVal_cong; [exact H|]. now rewrite !cong2_GetReverse, cong2_GetVal by exact H. Qed.

Lemma cong2_eq N a b : a = b -> cong2 N a b.
Proof. now intros ->. Qed.

(** The operations as morphisms, one rule each. *)
Section Rules.
Context (N : Z) (W : width_ok N) (a a' b b' : Z) (A : cong2 N a a').

Lemma rule_ge_add : cong2 N b b' -> cong2 N (ge2n_add a b) (a' + b').
Proof using W A. intros B. rewrite cong2_ge_add by exact W. now rewrite A, B. Qed.
Lemma rule_ge_sub : cong2 N b b' -> cong2 N (ge2n_sub a b) (a' - b').
Proof using W A. intros B. rewrite cong2_ge_sub by exact W. now rewrite A, B. Qed.
Lemma rule_GetReverse : cong2 N (GetReverse N a) (- a').
Proof using W A. rewrite cong2_GetReverse by exact W. now rewrite A. Qed.
Lemma rule_GetVal : cong2 N (GetVal N a) a'.
Proof using W A. now rewrite cong2_GetVal by exact W. Qed.
Lemma rule_add : cong2 N b b' -> cong2 N (a + b) (a' + b').
Proof using A. intros B. now rewrite A, B. Qed.
Lemma rule_sub : cong2 N b b' -> cong2 N (a - b) (a' - b').
Proof using A. intros B. now rewrite A, B. Qed.
Lemma rule_opp : cong2 N (- a) (- a').
Proof using A. now rewrite A. Qed.
End Rules.

(** Solves [cong2 N e ?x] with the integer expression that [e] stands for. *)
Ltac cong2_lin :=
  lazymatch goal with
  | |- cong2 _ (ge2n_add _ _) _ => eapply rule_ge_add; [assumption|cong2_lin|cong2_lin]
  | |- cong2 _ (ge2n_sub _ _) _ => eapply rule_ge_sub; [assumption|cong2_lin|cong2_lin]
  | |- cong2 _ (GetReverse _ _) _ => eapply rule_GetReverse; [assumption|cong2_lin]
  | |- cong2 _ (ReverseInplace _ _) _ => eapply rule_GetReverse; [assumption|cong2_lin]
  | |- cong2 _ (GetVal _ _) _ => eapply rule_GetVal; [assumption|cong2_lin]
  | |- cong2 _ (_ + _) _ => eapply rule_add; [cong2_lin|cong2_lin]
  | |- cong2 _ (_ - _) _ => eapply rule_sub; [cong2_lin|cong2_lin]
  | |- cong2 _ (- _) _ => eapply rule_opp; cong2_lin
  | |- _ => reflexivity
  end.

(** Reduces an equation of residues to one of integers, and compares the two sides
    as polynomials. *)
Ltac cong2_ring :=
  etransitivity; [cong2_lin|]; symmetry; etransitivity; [cong2_lin|];
  apply cong2_eq; ring.
