(* ===== verification/Fss.v ===== *)
(** What the function secret sharing schemes share: the generator they expand
    seeds with, as a function. *)
From Stdlib Require Import ZArith Lia List Bool.
From S2P Require Import Prelude.
From S2P Require Import Errors.
From S2P Require Import Int128.
From S2P Require Import Cipher.
From S2P Require Import Prg.
From S2P Require Import OtStore.
From S2P Require Import OtExt.
From S2P Require Import Ge2n.
Import ListNotations.

Section Blocks.
Context {C : Cipher} {L : CipherLaws C}.

(** Output [i] of a generator of blocks: the encryption of the counter [i]. *)
Definition prg_block (seed : Z) (i : nat) : Z := ecb AES128_ECB seed 0 (Z.of_nat i).

Lemma prg_block_in seed i : in128 (prg_block seed i).
Proof. apply ecb_in. Qed.

Lemma Prg_new_outputs B seed mode n : (0 < B)%nat -> Z.of_nat (n * B) < 2 ^ 64 ->
  exists p', Prg_outputs n (Prg_new (T := Z) (BATCH_SIZE := B) seed mode)
             = Some (map (fun i => ecb (mode_type mode) seed kInitVector (Z.of_nat i)) (seq 0 n), p').
Proof.
  intros HB Hn. destruct (Prg_outputs_stream (T := Z) (BATCH_SIZE := B) (BL := u128_laws B HB) n (Prg_new seed mode)) as (p' & E & _).
  - unfold prg_ok. rewrite (u128_per_refill B HB). refine (conj (repeat_length _ _) (conj _ (conj _ _))); cbn [counter_ Prg_new SetSeed]; [|lia|lia].
    change (B <= length (repeat 0%Z B))%nat. now rewrite repeat_length.
  - exists p'. etransitivity; [exact E|]. do 2 f_equal. unfold remaining, leftover.
    rewrite skipn_all2 by (change (length (repeat 0%Z B) <= B)%nat; now rewrite repeat_length). cbn [app].
    rewrite u128_stream, firstn_map_seq by nia. reflexivity.
Qed.

(** The outputs of calls in sequence. *)
Lemma Prg_outputs_next n (p p' : Prg Z n) k l : Prg_outputs (S k) p = Some (l, p') ->
  exists x p1 l', l = x :: l' /\ Prg_next p = Some (x, p1) /\ Prg_outputs k p1 = Some (l', p').
Proof.
  cbn [Prg_outputs]. destruct (Prg_next p) as [[x p1]|]; [|discriminate]. destruct (Prg_outputs k p1) as [[l' q]|] eqn:E; [|discriminate].
  intros [= <- <-]. now exists x, p1, l'.
Qed.
End Blocks.

(** Steps through the calls of a generator whose outputs are known. *)
Ltac prg_calls E :=
  repeat (let x := fresh "x" in let p1 := fresh "p" in let l := fresh "l" in let Q := fresh "Q" in let N := fresh "N" in
          apply Prg_outputs_next in E; destruct E as (x & p1 & l & Q & N & E); injection Q as <- <-; rewrite N; clear N).

(** ** Trees of seeds *)

(** A node of the tree of one party: its seed and its control bit. *)
Definition node : Type := Z * bool.
(** A word of correction: seed, left bit, right bit. *)
Definition word3 : Type := Z * bool * bool.

(** [cond ? a ^ b : a] *)
Definition xor_if (c : bool) (a b : Z) : Z := if c then Z.lxor a b else a.

Lemma neq_negb (b a : bool) : b <> a -> b = negb a.
Proof. destruct a, b; cbn; congruence. Qed.

Lemma odd_bit x k : 0 <= k -> negb (Z.land (x [>>] k) 1 =? 0) = Z.testbit x k.
Proof.
  intros H. rewrite (Z.land_ones _ 1) by lia. change (2 ^ 1) with 2. rewrite Zmod_odd.
  replace (Z.odd (x [>>] k)) with (Z.testbit x k) by (rewrite <- Z.bit0_odd, Z.shiftr_spec by lia; f_equal; lia). now destruct (Z.testbit x k).
Qed.

Lemma mod_next x l : x mod 2 ^ Z.of_nat (l + 1) = x mod 2 ^ Z.of_nat l + 2 ^ Z.of_nat l * Z.b2z (Z.testbit x (Z.of_nat l)).
Proof.
  rewrite Z.testbit_spec' by lia. rewrite Nat2Z.inj_add, Z.pow_add_r by lia. apply Z.rem_mul_r; lia.
Qed.

(** The expansion of a seed: seed and bit on the left, on the right. *)
Section Trees.
Context (split : Z -> Z * bool * Z * bool).

Definition step (w : word3) (b : bool) (n : node) : node :=
  let '(s, l, r) := w in
  let '(sl, tl, sr, tr) := split (fst n) in
  if b then (xor_if (snd n) sr s, xorb tr (snd n && r)) else (xor_if (snd n) sl s, xorb tl (snd n && l)).

(** The word that makes the children off the path equal. *)
Definition word (a : bool) (n0 n1 : node) : word3 :=
  let '(sl0, tl0, sr0, tr0) := split (fst n0) in
  let '(sl1, tl1, sr1, tr1) := split (fst n1) in
  (if a then Z.lxor sl0 sl1 else Z.lxor sr0 sr1, xorb (xorb (xorb tl0 tl1) a) true, xorb (xorb tr0 tr1) a).

(** On the path the bits stay different; off it the two nodes become one. *)
Lemma step_keep a n0 n1 : snd n0 <> snd n1 -> let w := word a n0 n1 in snd (step w a n0) <> snd (step w a n1).
Proof.
  destruct n0 as [s0 t0], n1 as [s1 t1]. unfold word, step. cbn [fst snd]. intros H.
  destruct (split s0) as [[[sl0 tl0] sr0] tr0], (split s1) as [[[sl1 tl1] sr1] tr1].
  apply neq_negb in H. subst t0. destruct a, t1, tl0, tl1, tr0, tr1; cbn; congruence.
Qed.

Lemma step_lose a n0 n1 : snd n0 <> snd n1 -> let w := word a n0 n1 in step w (negb a) n0 = step w (negb a) n1.
Proof.
  destruct n0 as [s0 t0], n1 as [s1 t1]. unfold word, step. cbn [fst snd]. intros H.
  destruct (split s0) as [[[sl0 tl0] sr0] tr0], (split s1) as [[[sl1 tl1] sr1] tr1].
  apply neq_negb in H. subst t0. destruct a, t1; cbn [negb xor_if andb]; f_equal; try (now destruct tl0, tl1, tr0, tr1); lxor_bits.
Qed.

(** The node reached by the bits [b] of the levels from [i] on. *)
Fixpoint path (ws : list word3) (b : nat -> bool) (i : nat) (n : node) : node :=
  match ws with [] => n | w :: ws => path ws b (S i) (step w (b i) n) end.
Fixpoint words (a : nat -> bool) (i k : nat) (n0 n1 : node) : list word3 :=
  match k with
  | O => []
  | S k => let w := word (a i) n0 n1 in w :: words a (S i) k (step w (a i) n0) (step w (a i) n1)
  end.
Fixpoint agree (b a : nat -> bool) (i k : nat) : bool :=
  match k with O => true | S k => eqb (b i) (a i) && agree b a (S i) k end.

Lemma words_length a k : forall i n0 n1, length (words a i k n0 n1) = k.
Proof. induction k as [|k IH]; intros i n0 n1; cbn; [reflexivity|]. now rewrite IH. Qed.

Lemma path_agree b a ws : forall i n, agree b a i (length ws) = true -> path ws b i n = path ws a i n.
Proof.
  induction ws as [|w ws IH]; intros i n H; [reflexivity|]. cbn [length agree] in H. apply andb_true_iff in H as [H1 H2].
  apply eqb_prop in H1. cbn [path]. rewrite H1. now apply IH.
Qed.

Lemma path_differ b a k : forall i n0 n1, snd n0 <> snd n1 ->
  let ws := words a i k n0 n1 in
  if agree b a i k then snd (path ws b i n0) <> snd (path ws b i n1) else path ws b i n0 = path ws b i n1.
Proof.
  induction k as [|k IH]; intros i n0 n1 H; [exact H|]. cbn [words agree path].
  destruct (eqb (b i) (a i)) eqn:E; cbn [andb].
  - apply eqb_prop in E. rewrite E. apply IH. now apply step_keep.
  - apply eqb_false_iff in E. rewrite (neq_negb _ _ E). now rewrite (step_lose (a i) n0 n1 H).
Qed.
End Trees.

(** The bits of a point, from the lowest and from the highest of [M]. *)
Definition low_bit (x : Z) (i : nat) : bool := Z.testbit x (Z.of_nat i).
Definition high_bit (M : nat) (x : Z) (i : nat) : bool := Z.testbit x (Z.of_nat (M - i - 1)).

Lemma agree_cong2 x alpha k : agree (low_bit x) (low_bit alpha) 0 k = true <-> cong2 (Z.of_nat k) x alpha.
Proof.
  rewrite same_bits by lia. rewrite Nat2Z.id.
  enough (forall i, agree (low_bit x) (low_bit alpha) i k = true <-> forall j, (i <= j < i + k)%nat -> low_bit x j = low_bit alpha j) as G.
  { rewrite (G 0%nat). split; intros H j Hj; apply H; lia. }
  induction k as [|k IH]; intros i; cbn [agree]; [split; [intros _ j Hj; lia|reflexivity]|].
  rewrite andb_true_iff, IH. split.
  - intros [E H] j Hj. apply eqb_prop in E. destruct (Nat.eq_dec j i) as [->|]; [exact E|]. apply H. lia.
  - intros H. split; [apply eqb_true_iff; apply H; lia|]. intros j Hj. apply H. lia.
Qed.
