(* ===== verification/TermLevel.v ===== *)
(** The level at which full-domain evaluation stops ([GetTerminateLevel] of
    [dpf/dpf.cc]).  The code takes the ceiling of a natural logarithm; here it is
    that of the real numbers, exact for the values that occur. *)
From Stdlib Require Import ZArith Lia Reals Lra.
From S2P Require Import Prelude.

Definition ceil (x : R) : Z := 1 - up (- x)%R.

(** The parameter of the module "dpf": [SecParam::C::k128]. *)
Definition dpf_secparam_c : nat := 128.

Definition GetTerminateLevel (enable_evalall : bool) (m n : nat) : nat :=
  if negb enable_evalall then m
  else
    let c := dpf_secparam_c in
    let x := Z.to_nat (ceil (INR m - ln (INR (Nat.div c n)))) in
    Nat.min m x.

Lemma ceil_eq x k : (IZR k - 1 < x <= IZR k)%R -> ceil x = k.
Proof.
  intros [L U]. unfold ceil. assert (E : (1 - k = up (- x))%Z); [|lia].
  apply tech_up; rewrite minus_IZR; lra.
Qed.

Lemma ln_2_bound : (0 < ln 2 < 1)%R.
Proof.
  split; [rewrite <- ln_1; apply ln_increasing; lra|].
  apply exp_lt_inv. rewrite exp_ln by lra. pose proof (exp_ineq1 1). lra.
Qed.

(** For both widths of outputs the code is built for, the level is the last one:
    the early termination never applies. *)
Lemma GetTerminateLevel_last e m n : n = 64%nat \/ n = 128%nat -> GetTerminateLevel e m n = m.
Proof.
  intros H. unfold GetTerminateLevel. destruct e; [cbn [negb]|reflexivity].
  replace (Z.to_nat (ceil (INR m - ln (INR (Nat.div dpf_secparam_c n))))) with m; [lia|].
  rewrite <- (Nat2Z.id m) at 1. f_equal. symmetry. apply ceil_eq. rewrite <- INR_IZR_INZ. pose proof ln_2_bound.
  destruct H as [-> | ->]; [change (INR (Nat.div dpf_secparam_c 64)) with 2%R|change (INR (Nat.div dpf_secparam_c 128)) with 1%R; rewrite ln_1]; lra.
Qed.
