(* ===== verification/Dpf.v ===== *)
(** The distributed point function ([dpf/dpf.h], [dpf/dpf.cc]): the two keys of a
    function that is beta at alpha and 0 elsewhere, evaluation at a point and on the
    whole domain.  M bits of input, N bits of output. *)
From Stdlib Require Import ZArith Lia List Bool.
From S2P Require Import Prelude.
From S2P Require Import Errors.
From S2P Require Import Int128.
From S2P Require Import Cipher.
From S2P Require Import Prg.
From S2P Require Import OtExt.
From S2P Require Import Fss.
From S2P Require Import Ge2n.
From S2P Require Import TermLevel.
Import ListNotations.

(** ** Keys *)

(** A correlated word: the seed, and two bits in one byte. *)
Record CW := Cw { cw_seed_ : Z; t_store_ : Z }.
Definition CW_default : CW := Cw 0 0.
Definition GetLT (c : CW) : Z := Z.land (t_store_ c) 1.
Definition GetRT (c : CW) : Z := Z.land (t_store_ c [>>] 1) 1.
Definition SetLT (c : CW) (t_left : Z) : option CW :=
  YACL_ENFORCE ((t_left =? 0) || (t_left =? 1)) (Some (Cw (cw_seed_ c) (u8 ((GetRT c [<<] 1) + t_left)))).
Definition SetRT (c : CW) (t_right : Z) : option CW :=
  YACL_ENFORCE ((t_right =? 0) || (t_right =? 1)) (Some (Cw (cw_seed_ c) (u8 ((t_right [<<] 1) + GetLT c)))).
Definition CW_SetSeed (c : CW) (seed : Z) : CW := Cw seed (t_store_ c).

Record DpfKey := MkDpfKey {
  enable_evalall : bool;
  cws_vec : list CW;
  last_cw_vec : list Z;
  rank_ : bool;
  mseed_ : Z
}.
Definition DpfKey_new (rank : bool) (mseed : Z) : DpfKey := MkDpfKey false [] [] rank mseed.
Definition EnableEvalAll (k : DpfKey) : DpfKey := MkDpfKey true (cws_vec k) (last_cw_vec k) (rank_ k) (mseed_ k).
Definition set_cws (k : DpfKey) (cws : list CW) : DpfKey := MkDpfKey (enable_evalall k) cws (last_cw_vec k) (rank_ k) (mseed_ k).
Definition push_last_cw (k : DpfKey) (v : Z) : DpfKey := MkDpfKey (enable_evalall k) (cws_vec k) (last_cw_vec k ++ [v]) (rank_ k) (mseed_ k).

Section DpfCode.
Context {C : Cipher}.

Definition DpfPRG (seed : Z) : option Z :=
  let? (x, _) := Prg_next (Prg_new (T := Z) (BATCH_SIZE := 16) seed kAesEcb) in Some x.

Definition SplitDpfSeed (seed : Z) : option (Z * bool * Z * bool) :=
  let prng := Prg_new (T := Z) (BATCH_SIZE := 48) seed kAesEcb in
  let? (seed_left, prng) := Prg_next prng in
  let? (seed_right, prng) := Prg_next prng in
  let? (tmp, prng) := Prg_next prng in
  let t_left := negb (Z.land (tmp [>>] 1) 1 =? 0) in
  let t_right := negb (Z.land (tmp [>>] 2) 1 =? 0) in
  Some (seed_left, t_left, seed_right, t_right).

(** ** Key generation *)

(** The two working seeds, the two working bits, the words so far. *)
Definition gen_state : Type := (Z * Z) * (bool * bool) * list CW.

Definition dpf_gen_level (alpha : Z) (st : gen_state) (i : nat) : option gen_state :=
  let '((seed0, seed1), (t0, t1), cws) := st in
  let? alpha_bit := ge_GetBit alpha i in
  let? (seed_left0, t_left0, seed_right0, t_right0) := SplitDpfSeed seed0 in
  let? (seed_left1, t_left1, seed_right1, t_right1) := SplitDpfSeed seed1 in
  let keep_seed := if alpha_bit then (seed_right0, seed_right1) else (seed_left0, seed_left1) in
  let lose_seed := if alpha_bit then (seed_left0, seed_left1) else (seed_right0, seed_right1) in
  let t_keep := if alpha_bit then (t_right0, t_right1) else (t_left0, t_left1) in
  let cw_seed := Z.lxor (fst lose_seed) (snd lose_seed) in
  let cw_t_left := xorb (xorb (xorb t_left0 t_left1) alpha_bit) true in
  let cw_t_right := xorb (xorb t_right0 t_right1) alpha_bit in
  let cw_t_keep := if alpha_bit then cw_t_right else cw_t_left in
  let seeds := (xor_if t0 (fst keep_seed) cw_seed, xor_if t1 (snd keep_seed) cw_seed) in
  let ts := (xorb (fst t_keep) (t0 && cw_t_keep), xorb (snd t_keep) (t1 && cw_t_keep)) in
  let? cw := nth_error cws i in
  let? cw := let? cw := SetLT (CW_SetSeed cw cw_seed) (Z.b2z cw_t_left) in SetRT cw (Z.b2z cw_t_right) in
  Some (seeds, ts, upd cws i cw).

(** One word of the last level, for the leaf [i] of the [2^(M - term_level)] under
    one node; the two generators step from leaf to leaf. *)
Definition dpf_last_cw (N : Z) (beta : Z) (alpha_pos_term_level : Z) (t1 : bool) (st : list Z * Z * Z) (i : nat) : option (list Z * Z * Z) :=
  let '(last, prg0, prg1) := st in
  let last_cw :=
    if Z.of_nat i =? alpha_pos_term_level then ge2n_add (ge2n_add beta (GetReverse N prg0)) prg1
    else ge2n_add (GetReverse N prg0) prg1 in
  let v := if t1 then GetVal N (GetReverse N last_cw) else GetVal N last_cw in
  let? prg0 := DpfPRG (GetVal N prg0) in
  let? prg1 := DpfPRG (GetVal N prg1) in
  Some (last ++ [v], prg0, prg1).

Definition DpfKeyGen (M N : nat) (alpha beta first_mk second_mk : Z) (evalall : bool) : option (DpfKey * DpfKey) :=
  let term_level := GetTerminateLevel evalall M N in
  let first_key := DpfKey_new false first_mk in
  let second_key := DpfKey_new true second_mk in
  let? st := foldM (dpf_gen_level alpha) (seq 0 term_level) ((first_mk, second_mk), (false, true), repeat CW_default term_level) in
  let '((seed0, seed1), (t0, t1), cws) := st in
  let first_key := set_cws first_key cws in
  let second_key := set_cws second_key (repeat CW_default term_level) in
  let n := Z.of_nat N in
  let? prg0 := DpfPRG seed0 in
  let? prg1 := DpfPRG seed1 in
  YACL_ENFORCE (length (last_cw_vec first_key) =? 0)%nat
  (YACL_ENFORCE (length (last_cw_vec second_key) =? 0)%nat
    (if negb evalall then
       let v := GetVal n (ge2n_add (ge2n_add beta (GetReverse n prg0)) prg1) in
       let v := if t1 then GetVal n (GetReverse n v) else v in
       let first_key := push_last_cw first_key v in
       let second_key := push_last_cw (set_cws second_key (cws_vec first_key)) v in
       Some (first_key, second_key)
     else
       let first_key := EnableEvalAll first_key in
       let second_key := EnableEvalAll second_key in
       let alpha_pos_term_level := u32 (GetVal (Z.of_nat M) alpha [>>] Z.of_nat term_level) in
       let expand_num := u32 (1 [<<] Z.of_nat (M - term_level)) in
       let? (last, _, _) := foldM (dpf_last_cw n beta alpha_pos_term_level t1) (seq 0 (Z.to_nat expand_num)) ([], prg0, prg1) in
       let first_key := fold_left push_last_cw last first_key in
       let second_key := fold_left push_last_cw last (set_cws second_key (cws_vec first_key)) in
       Some (first_key, second_key))).

(** ** Evaluation *)

(** The children of a node, corrected with the word of the level. *)
Definition dpf_children (key : DpfKey) (i : nat) (st : Z * bool) : option ((Z * bool) * (Z * bool)) :=
  let '(seed_working, t_working) := st in
  let? cw := nth_error (cws_vec key) i in
  let? (seed_left, t_left, seed_right, t_right) := SplitDpfSeed seed_working in
  let seed_left := xor_if t_working seed_left (cw_seed_ cw) in
  let t_left := xorb t_left (t_working && negb (GetLT cw =? 0)) in
  let seed_right := xor_if t_working seed_right (cw_seed_ cw) in
  let t_right := xorb t_right (t_working && negb (GetRT cw =? 0)) in
  Some ((seed_left, t_left), (seed_right, t_right)).

Definition dpf_eval_level (key : DpfKey) (in_ : Z) (st : Z * bool) (i : nat) : option (Z * bool) :=
  let? (left_, right_) := dpf_children key i st in
  let? b := ge_GetBit in_ i in
  Some (if b then right_ else left_).

Definition DpfEval (M N : nat) (key : DpfKey) (in_ : Z) : option Z :=
  let n := Z.of_nat N in
  YACL_ENFORCE (eqb (enable_evalall key) false)
    (let? (seed_working, t_working) := foldM (dpf_eval_level key in_) (seq 0 M) (mseed_ key, rank_ key) in
     let? prg := DpfPRG seed_working in
     let? cw := nth_error (last_cw_vec key) 0 in
     let tmp := if t_working then cw else 0 in
     Some (if rank_ key then GetVal n (GetReverse n (ge2n_add prg tmp)) else GetVal n (ge2n_add prg tmp))).

(** A write past the end of the span is [None]. *)
Definition span_set (l : list Z) (i v : Z) : option (list Z) :=
  if i <? Z.of_nat (length l) then Some (upd l (Z.to_nat i) v) else None.

(** One leaf: its word, the position it is written to, the next generator. *)
Definition dpf_leaf (N : Z) (key : DpfKey) (t_working : bool) (current_pos : Z) (term_level : nat) (st : list Z * Z) (i : nat) : option (list Z * Z) :=
  let '(result, prg) := st in
  let? cw := nth_error (last_cw_vec key) i in
  let tmp := if t_working then cw else 0 in
  let? result := span_set result (u64 (current_pos + u32 (Z.of_nat i [<<] Z.of_nat term_level)))
    (if rank_ key then GetReverse N (ge2n_add prg tmp) else ge2n_add prg tmp) in
  let? prg := DpfPRG (GetVal N prg) in
  Some (result, prg).

Fixpoint Traverse (fuel M N : nat) (key : DpfKey) (result : list Z) (current_level : nat) (current_pos : Z) (seed_working : Z) (t_working : bool)
    (term_level : nat) : option (list Z) :=
  match fuel with
  | O => None
  | S fuel =>
      if (current_level <? term_level)%nat then
        let? ((seed_left, t_left), (seed_right, t_right)) := dpf_children key current_level (seed_working, t_working) in
        let next_left_pos := current_pos in
        let next_right_pos := u64 (u64 (1 [<<] Z.of_nat current_level) + current_pos) in
        let? result := Traverse fuel M N key result (current_level + 1) next_left_pos seed_left t_left term_level in
        Traverse fuel M N key result (current_level + 1) next_right_pos seed_right t_right term_level
      else
        let? prg := DpfPRG seed_working in
        let expand_num := u32 (1 [<<] Z.of_nat (M - term_level)) in
        let? (result, _) := foldM (dpf_leaf (Z.of_nat N) key t_working current_pos term_level) (seq 0 (Z.to_nat expand_num)) (result, prg) in
        Some result
  end.

(** On the caller's span; the vector of [2^M] elements the code also allocates is
    not used. *)
Definition DpfEvalAll (M N : nat) (key : DpfKey) (out : list Z) : option (list Z) :=
  YACL_ENFORCE (eqb (enable_evalall key) true)
    (let term_level := GetTerminateLevel true M N in
     Traverse (term_level + 1) M N key out 0 0 (mseed_ key) (rank_ key) term_level).
End DpfCode.

(** ** The code as steps on nodes *)

Definition cw_of (w : word3) : CW := let '(s, l, r) := w in Cw s (Z.b2z l + 2 * Z.b2z r).

Section DpfSteps.
Context {C : Cipher} {L : CipherLaws C}.

Definition dpf_split (seed : Z) : Z * bool * Z * bool :=
  (prg_block seed 0, Z.testbit (prg_block seed 2) 1, prg_block seed 1, Z.testbit (prg_block seed 2) 2).

Lemma SplitDpfSeed_ok seed : SplitDpfSeed seed = Some (dpf_split seed).
Proof.
  unfold SplitDpfSeed. destruct (Prg_new_outputs 48 seed kAesEcb 3 ltac:(lia) ltac:(lia)) as (p & E). cbn [map seq] in E. cbv zeta. prg_calls E.
  rewrite !odd_bit by lia. reflexivity.
Qed.

Lemma DpfPRG_ok seed : DpfPRG seed = Some (prg_block seed 0).
Proof.
  unfold DpfPRG. destruct (Prg_new_outputs 16 seed kAesEcb 1 ltac:(lia) ltac:(lia)) as (p & E). cbn [map seq] in E. now prg_calls E.
Qed.

(** *** One level *)

Lemma set_bits s l r :
  (let? cw := SetLT (CW_SetSeed CW_default s) (Z.b2z l) in SetRT cw (Z.b2z r)) = Some (cw_of (s, l, r)).
Proof. now destruct l, r. Qed.

Lemma gen_level_ok alpha s0 s1 t0 t1 cws i : (i < 128)%nat -> nth_error cws i = Some CW_default ->
  let a := low_bit alpha i in let w := word dpf_split a (s0, t0) (s1, t1) in
  dpf_gen_level alpha ((s0, s1), (t0, t1), cws) i =
  Some ((fst (step dpf_split w a (s0, t0)), fst (step dpf_split w a (s1, t1))), (snd (step dpf_split w a (s0, t0)), snd (step dpf_split w a (s1, t1))), upd cws i (cw_of w)).
Proof.
  intros Hi Hc a w. unfold dpf_gen_level. rewrite GetBit_ok, !SplitDpfSeed_ok, Hc by exact Hi. fold (low_bit alpha i). fold a. subst w. unfold word, step, dpf_split. cbn [fst snd].
  generalize (prg_block s0 0), (prg_block s0 1), (prg_block s1 0), (prg_block s1 1), (Z.testbit (prg_block s0 2) 1), (Z.testbit (prg_block s0 2) 2),
    (Z.testbit (prg_block s1 2) 1), (Z.testbit (prg_block s1 2) 2). intros sl0 sr0 sl1 sr1 tl0 tr0 tl1 tr1.
  cbn [cw_of]. rewrite set_bits. destruct a; reflexivity.
Qed.

Lemma children_ok key i w n : nth_error (cws_vec key) i = Some (cw_of w) -> dpf_children key i n = Some (step dpf_split w false n, step dpf_split w true n).
Proof.
  intros H. destruct n as [s t], w as [[ws l] r]. unfold dpf_children. rewrite H, SplitDpfSeed_ok. unfold step, dpf_split. cbn [fst snd cw_of cw_seed_].
  unfold GetLT, GetRT. cbn [t_store_]. now destruct l, r.
Qed.

Lemma eval_level_ok key x i w n : (i < 128)%nat -> nth_error (cws_vec key) i = Some (cw_of w) ->
  dpf_eval_level key x n i = Some (step dpf_split w (low_bit x i) n).
Proof. intros Hi H. unfold dpf_eval_level. rewrite (children_ok key i w n H), GetBit_ok by exact Hi. fold (low_bit x i). now destruct (low_bit x i). Qed.

End DpfSteps.

(** ** Keys, evaluation and the shares *)

Section DpfRuns.
Context {C : Cipher} {L : CipherLaws C}.

Lemma gen_loop alpha k : forall i n0 n1 pre, (i + k <= 128)%nat -> length pre = i ->
  let ws := words dpf_split (low_bit alpha) i k n0 n1 in let m0 := path dpf_split ws (low_bit alpha) i n0 in let m1 := path dpf_split ws (low_bit alpha) i n1 in
  foldM (dpf_gen_level alpha) (seq i k) ((fst n0, fst n1), (snd n0, snd n1), pre ++ repeat CW_default k) =
  Some ((fst m0, fst m1), (snd m0, snd m1), pre ++ map cw_of ws).
Proof.
  induction k as [|k IH]; intros i n0 n1 pre Hi Hp; [reflexivity|]. destruct n0 as [s0 t0], n1 as [s1 t1]. cbn [seq foldM fst snd repeat].
  rewrite gen_level_ok; [|lia|rewrite nth_error_app2, Hp, Nat.sub_diag by lia; reflexivity].
  cbn [words path map]. cbv zeta. set (a := low_bit alpha i). set (w := word dpf_split a (s0, t0) (s1, t1)).
  replace (upd (pre ++ CW_default :: repeat CW_default k) i (cw_of w)) with ((pre ++ [cw_of w]) ++ repeat CW_default k)
    by (rewrite <- Hp, <- (Nat.add_0_r (length pre)), upd_app, <- app_assoc; reflexivity).
  rewrite (IH (S i) (step dpf_split w a (s0, t0)) (step dpf_split w a (s1, t1)) (pre ++ [cw_of w])); [|lia|rewrite length_app; cbn; lia].
  now rewrite <- app_assoc.
Qed.

Lemma eval_loop key x k : forall i n ws, (i + k <= 128)%nat -> length ws = k ->
  (forall j w, nth_error ws j = Some w -> nth_error (cws_vec key) (i + j) = Some (cw_of w)) ->
  foldM (dpf_eval_level key x) (seq i k) n = Some (path dpf_split ws (low_bit x) i n).
Proof.
  induction k as [|k IH]; intros i n ws Hi Hl H; destruct ws as [|w ws]; try discriminate; [reflexivity|]. cbn [seq foldM path].
  rewrite (eval_level_ok key x i w n); [|lia|rewrite <- (Nat.add_0_r i); now apply H]. apply IH; [lia|now injection Hl|].
  intros j v Hj. replace (S i + j)%nat with (i + S j)%nat by lia. now apply H.
Qed.

(** The root nodes of the parties, the words of a key, its last word. *)
Definition root (mk : Z) (rank : bool) : node := (mk, rank).
Definition key_words (M : nat) (alpha mk0 mk1 : Z) : list word3 := words dpf_split (low_bit alpha) 0 M (root mk0 false) (root mk1 true).
Definition leaf (ws : list word3) (x mk : Z) (rank : bool) : node := path dpf_split ws (low_bit x) 0 (root mk rank).
Definition last_word (M N : nat) (alpha beta mk0 mk1 : Z) : Z :=
  let ws := key_words M alpha mk0 mk1 in
  let n0 := leaf ws alpha mk0 false in let n1 := leaf ws alpha mk1 true in let n := Z.of_nat N in
  let v := ge2n_add (ge2n_add beta (GetReverse n (prg_block (fst n0) 0))) (prg_block (fst n1) 0) in
  if snd n1 then GetVal n (GetReverse n v) else GetVal n v.
Definition dpf_key (M N : nat) (alpha beta mk0 mk1 : Z) (evalall rank : bool) : DpfKey :=
  MkDpfKey evalall (map cw_of (key_words M alpha mk0 mk1)) [last_word M N alpha beta mk0 mk1] rank (if rank then mk1 else mk0).

Lemma DpfKeyGen_ok M N alpha beta mk0 mk1 evalall : fss_params M N ->
  DpfKeyGen M N alpha beta mk0 mk1 evalall = Some (dpf_key M N alpha beta mk0 mk1 evalall false, dpf_key M N alpha beta mk0 mk1 evalall true).
Proof.
  intros [HM HN]. pose proof (fss_width M N (conj HM HN)) as W. unfold DpfKeyGen. rewrite GetTerminateLevel_last by exact HN.
  pose proof (gen_loop alpha M 0 (root mk0 false) (root mk1 true) [] ltac:(lia) eq_refl) as G. cbn [fst snd root app] in G. cbv zeta. rewrite G. clear G.
  fold (key_words M alpha mk0 mk1). set (ws := key_words M alpha mk0 mk1). fold (leaf ws alpha mk0 false). fold (leaf ws alpha mk1 true).
  rewrite !DpfPRG_ok. unfold dpf_key, last_word. fold ws. cbv zeta. set (n0 := leaf ws alpha mk0 false). set (n1 := leaf ws alpha mk1 true).
  destruct evalall; cbn [negb].
  - replace (u32 (GetVal (Z.of_nat M) alpha [>>] Z.of_nat M)) with 0.
    2: { rewrite GetVal_mod by (unfold width_ok; lia). rewrite Z.shiftr_div_pow2, Z.div_small by (try apply Z.mod_pos_bound; lia). reflexivity. }
    rewrite Nat.sub_diag. change (Z.to_nat (u32 (1 [<<] Z.of_nat 0))) with 1%nat. cbn [seq foldM]. unfold dpf_last_cw. rewrite Z.eqb_refl, !DpfPRG_ok.
    reflexivity.
  - unfold push_last_cw, set_cws, DpfKey_new, YACL_ENFORCE. cbn [last_cw_vec length Nat.eqb cws_vec app enable_evalall rank_ mseed_].
    destruct (snd n1); [rewrite GetVal_idem by exact W|]; reflexivity.
Qed.

(** What a party outputs at a leaf. *)
Definition share (N : Z) (rank : bool) (n : node) (last : Z) : Z :=
  let v := ge2n_add (prg_block (fst n) 0) (if snd n then last else 0) in if rank then GetReverse N v else v.

Lemma key_word_at M N alpha beta mk0 mk1 e rank j w : nth_error (key_words M alpha mk0 mk1) j = Some w ->
  nth_error (cws_vec (dpf_key M N alpha beta mk0 mk1 e rank)) j = Some (cw_of w).
Proof. intros H. cbn [cws_vec dpf_key]. now rewrite nth_error_map, H. Qed.

Lemma DpfEval_ok M N alpha beta mk0 mk1 rank x : fss_params M N ->
  DpfEval M N (dpf_key M N alpha beta mk0 mk1 false rank) x =
  Some (GetVal (Z.of_nat N) (share (Z.of_nat N) rank (leaf (key_words M alpha mk0 mk1) x (if rank then mk1 else mk0) rank) (last_word M N alpha beta mk0 mk1))).
Proof.
  intros [HM HN]. unfold DpfEval, YACL_ENFORCE. cbn [enable_evalall dpf_key eqb mseed_ rank_].
  rewrite (eval_loop _ x M 0 _ (key_words M alpha mk0 mk1)); [|lia|apply words_length|intros j w H; now apply key_word_at].
  fold (dpf_key M N alpha beta mk0 mk1 false rank). change (path dpf_split (key_words M alpha mk0 mk1) (low_bit x) 0 (if rank then mk1 else mk0, rank)) with (leaf (key_words M alpha mk0 mk1) x (if rank then mk1 else mk0) rank).
  destruct (leaf (key_words M alpha mk0 mk1) x (if rank then mk1 else mk0) rank) as [s t]. rewrite DpfPRG_ok. unfold share. cbn [nth_error last_cw_vec dpf_key fst snd].
  now destruct rank.
Qed.

(** The shares of the two parties at a point add up to the value of the function. *)
Lemma shares_sum M N alpha beta mk0 mk1 x : fss_params M N -> let n := Z.of_nat N in let ws := key_words M alpha mk0 mk1 in
  cong2 n (share n false (leaf ws x mk0 false) (last_word M N alpha beta mk0 mk1) + share n true (leaf ws x mk1 true) (last_word M N alpha beta mk0 mk1))
    (if ge2n_eqb (Z.of_nat M) x alpha then beta else 0).
Proof.
  intros P n ws. pose proof (fss_width M N P) as W. fold n in W. assert (WM : width_ok (Z.of_nat M)) by (destruct P; unfold width_ok; lia).
  pose proof (path_differ dpf_split (low_bit x) (low_bit alpha) M 0 (root mk0 false) (root mk1 true) ltac:(discriminate)) as D. cbv zeta in D.
  fold (key_words M alpha mk0 mk1) in D. fold ws in D. fold (leaf ws x mk0 false) in D. fold (leaf ws x mk1 true) in D.
  assert (E : ge2n_eqb (Z.of_nat M) x alpha = agree (low_bit x) (low_bit alpha) 0 M) by (apply eq_true_iff_eq; now rewrite ge2n_eqb_spec, agree_cong2). rewrite E.
  destruct (agree (low_bit x) (low_bit alpha) 0 M) eqn:A.
  - assert (EL : forall mk rank, leaf ws x mk rank = leaf ws alpha mk rank)
      by (intros; apply path_agree; unfold ws, key_words; now rewrite words_length).
    unfold last_word. fold ws n. rewrite !EL in *. set (n0 := leaf ws alpha mk0 false) in *. set (n1 := leaf ws alpha mk1 true) in *. unfold share.
    destruct (snd n0), (snd n1); try congruence; cong2_ring.
  - rewrite D. unfold share. cong2_ring.
Qed.
(** *** The whole domain *)

(** The leaves below a node: the positions that continue the bits of its own. *)
Lemma Traverse_ok M N key rank last : (M < 32)%nat -> rank_ key = rank -> nth_error (last_cw_vec key) 0 = Some last ->
  forall ws fuel level pos n result, (level + length ws = M)%nat -> (length ws < fuel)%nat -> 0 <= pos < 2 ^ Z.of_nat level ->
  Z.of_nat (length result) = 2 ^ Z.of_nat M ->
  (forall j w, nth_error ws j = Some w -> nth_error (cws_vec key) (level + j) = Some (cw_of w)) ->
  exists result', Traverse fuel M N key result level pos (fst n) (snd n) M = Some result' /\ length result' = length result /\
    forall x, 0 <= x < 2 ^ Z.of_nat M -> at_ result' (Z.to_nat x) =
      if x mod 2 ^ Z.of_nat level =? pos then share (Z.of_nat N) rank (path dpf_split ws (low_bit x) level n) last else at_ result (Z.to_nat x).
Proof.
  intros HM Hr Hl. induction ws as [|w ws IH]; intros fuel level pos n result Hd Hf Hp HL Hw; (destruct fuel as [|fuel]; [cbn in Hf; lia|]); cbn [length] in *.
  - replace level with M in * by lia. cbn [Traverse]. rewrite Nat.ltb_irrefl, DpfPRG_ok, Nat.sub_diag. change (Z.to_nat (u32 (1 [<<] Z.of_nat 0))) with 1%nat.
    cbn [seq foldM]. unfold dpf_leaf. rewrite Hl. change (Z.of_nat 0) with 0. rewrite Z.shiftl_0_l. change (u32 0) with 0. rewrite Z.add_0_r.
    assert (2 ^ Z.of_nat M <= 2 ^ 32) by (apply Z.pow_le_mono_r; lia). rewrite u64_small by lia. unfold span_set.
    destruct (Z.ltb_spec pos (Z.of_nat (length result))); [|lia]. rewrite DpfPRG_ok. eexists. split; [reflexivity|]. split; [apply length_upd|].
    intros x Hx. rewrite Z.mod_small by exact Hx. cbn [path]. destruct (Z.eqb_spec x pos) as [->|E].
    + rewrite at_upd_eq by lia. unfold share. rewrite Hr. reflexivity.
    + rewrite at_upd_ne by lia. reflexivity.
  - cbn [Traverse]. destruct (Nat.ltb_spec level M); [|lia]. replace ((fst n, snd n)) with n by (now destruct n).
    rewrite (children_ok key level w n) by (rewrite <- (Nat.add_0_r level); now apply Hw). destruct (step dpf_split w false n) as [sl tl] eqn:El. destruct (step dpf_split w true n) as [sr tr] eqn:Er.
    assert (2 ^ Z.of_nat level * 2 <= 2 ^ 32) by (change 2 with (2 ^ 1) at 2; rewrite <- Z.pow_add_r by lia; apply Z.pow_le_mono_r; lia).
    assert (P1 : 2 ^ Z.of_nat (level + 1) = 2 ^ Z.of_nat level * 2) by (rewrite Nat2Z.inj_add, Z.pow_add_r by lia; reflexivity).
    rewrite Z.shiftl_1_l, (u64_small (2 ^ Z.of_nat level)), u64_small by lia.
    assert (Hw' : forall j v, nth_error ws j = Some v -> nth_error (cws_vec key) (level + 1 + j) = Some (cw_of v))
      by (intros j v Hj; replace (level + 1 + j)%nat with (level + S j)%nat by lia; now apply Hw).
    destruct (IH fuel (level + 1)%nat pos (sl, tl) result ltac:(lia) ltac:(lia) ltac:(lia) HL Hw') as (r1 & E1 & L1 & A1). cbn [fst snd] in E1. rewrite E1.
    destruct (IH fuel (level + 1)%nat (2 ^ Z.of_nat level + pos) (sr, tr) r1 ltac:(lia) ltac:(lia) ltac:(lia) ltac:(lia) Hw') as (r2 & E2 & L2 & A2). cbn [fst snd] in E2. rewrite E2.
    exists r2. split; [reflexivity|]. split; [congruence|]. intros x Hx. rewrite A2, A1 by exact Hx. rewrite !mod_next. fold (low_bit x level). cbn [path]. rewrite <- (Nat.add_1_r level).
    pose proof (Z.mod_pos_bound x (2 ^ Z.of_nat level) ltac:(lia)). destruct (low_bit x level) eqn:B; cbn [Z.b2z]; rewrite ?El, ?Er;
      repeat match goal with |- context [Z.eqb ?a ?b] => destruct (Z.eqb_spec a b); try lia end; reflexivity.
Qed.

Lemma DpfEvalAll_ok M N alpha beta mk0 mk1 rank out : fss_params M N -> (M < 32)%nat -> Z.of_nat (length out) = 2 ^ Z.of_nat M ->
  exists out', DpfEvalAll M N (dpf_key M N alpha beta mk0 mk1 true rank) out = Some out' /\ length out' = length out /\
    forall x, 0 <= x < 2 ^ Z.of_nat M -> at_ out' (Z.to_nat x) =
      share (Z.of_nat N) rank (leaf (key_words M alpha mk0 mk1) x (if rank then mk1 else mk0) rank) (last_word M N alpha beta mk0 mk1).
Proof.
  intros [HM HN] HM' HL. unfold DpfEvalAll, YACL_ENFORCE. cbn [enable_evalall dpf_key eqb mseed_ rank_]. rewrite GetTerminateLevel_last by exact HN.
  fold (dpf_key M N alpha beta mk0 mk1 true rank).
  destruct (Traverse_ok M N (dpf_key M N alpha beta mk0 mk1 true rank) rank (last_word M N alpha beta mk0 mk1) HM' eq_refl eq_refl
    (key_words M alpha mk0 mk1) (M + 1) 0 0 (root (if rank then mk1 else mk0) rank) out) as (r & E & Lr & A);
    [apply words_length|unfold key_words; rewrite words_length; lia|cbn; lia|exact HL|intros j w H; now apply key_word_at|].
  cbn [fst snd root] in E. exists r. split; [exact E|]. split; [exact Lr|]. intros x Hx. rewrite A by exact Hx. change (2 ^ Z.of_nat 0) with 1. now rewrite Z.mod_1_r.
Qed.
End DpfRuns.
