(* ===== verification/Dcf.v ===== *)
(** The distributed comparison function ([dpf/dcf.h], [dpf/dcf.cc]): the two keys of
    a function that is beta below alpha and 0 from alpha on. *)
From Stdlib Require Import ZArith Lia List Bool.
From S2P Require Import Prelude.
From S2P Require Import Errors.
From S2P Require Import Int128.
From S2P Require Import Cipher.
From S2P Require Import Prg.
From S2P Require Import OtExt.
From S2P Require Import Ge2n.
From S2P Require Import Fss.
Import ListNotations.

(** ** Keys *)

Record DcfCW := DCw { dcw_seed_ : Z; dcw_v_ : Z; dcw_t_store_ : Z }.
Definition DcfCW_default : DcfCW := DCw 0 0 0.
Definition Dcf_GetLT (c : DcfCW) : Z := Z.land (dcw_t_store_ c) 1.
Definition Dcf_GetRT (c : DcfCW) : Z := Z.land (dcw_t_store_ c [>>] 1) 1.
Definition Dcf_SetLT (c : DcfCW) (t_left : Z) : option DcfCW :=
  YACL_ENFORCE ((t_left =? 0) || (t_left =? 1)) (Some (DCw (dcw_seed_ c) (dcw_v_ c) (u8 ((Dcf_GetRT c [<<] 1) + t_left)))).
Definition Dcf_SetRT (c : DcfCW) (t_right : Z) : option DcfCW :=
  YACL_ENFORCE ((t_right =? 0) || (t_right =? 1)) (Some (DCw (dcw_seed_ c) (dcw_v_ c) (u8 ((t_right [<<] 1) + Dcf_GetLT c)))).
Definition Dcf_SetSeed (c : DcfCW) (seed : Z) : DcfCW := DCw seed (dcw_v_ c) (dcw_t_store_ c).
Definition Dcf_SetV (c : DcfCW) (v : Z) : DcfCW := DCw (dcw_seed_ c) v (dcw_t_store_ c).

Record DcfKey := MkDcfKey {
  dcf_cws_vec : list DcfCW;
  dcf_last_cw_vec : list Z;
  dcf_rank_ : bool;
  dcf_mseed_ : Z
}.
Definition DcfKey_new (rank : bool) (mseed : Z) : DcfKey := MkDcfKey [] [] rank mseed.
Definition dcf_set_cws (k : DcfKey) (cws : list DcfCW) : DcfKey := MkDcfKey cws (dcf_last_cw_vec k) (dcf_rank_ k) (dcf_mseed_ k).
Definition dcf_push_last (k : DcfKey) (v : Z) : DcfKey := MkDcfKey (dcf_cws_vec k) (dcf_last_cw_vec k ++ [v]) (dcf_rank_ k) (dcf_mseed_ k).

Section DcfCode.
Context {C : Cipher}.

Definition DcfPRG (seed : Z) : option Z :=
  let? (x, _) := Prg_next (Prg_new (T := Z) (BATCH_SIZE := 16) seed kAesEcb) in Some x.

Definition SplitDcfSeed (seed : Z) : option (Z * Z * bool * Z * Z * bool) :=
  let prng := Prg_new (T := Z) (BATCH_SIZE := 80) seed kAesEcb in
  let? (seed_left, prng) := Prg_next prng in
  let? (seed_right, prng) := Prg_next prng in
  let? (v_seed_left, prng) := Prg_next prng in
  let? (v_seed_right, prng) := Prg_next prng in
  let? (tmp, prng) := Prg_next prng in
  let t_left := negb (Z.land (tmp [>>] 1) 1 =? 0) in
  let t_right := negb (Z.land (tmp [>>] 2) 1 =? 0) in
  Some (seed_left, v_seed_left, t_left, seed_right, v_seed_right, t_right).

(** ** Key generation *)

(** The value word of a level and the working value after it. *)
Definition dcf_values (N beta : Z) (alpha_bit t1 : bool) (v_working prg_lose_0 prg_lose_1 prg_keep_0 prg_keep_1 : Z) : Z * Z :=
  let cw_v := ge2n_add (ge2n_add prg_lose_1 (GetReverse N prg_lose_0)) (GetReverse N v_working) in
  if t1 then
    let cw_v := ReverseInplace N cw_v in
    let cw_v := if alpha_bit then ge2n_add cw_v (GetReverse N beta) else cw_v in
    (cw_v, ge2n_add v_working (ge2n_add (ge2n_add (GetReverse N prg_keep_1) prg_keep_0) (GetReverse N cw_v)))
  else
    let cw_v := if alpha_bit then ge2n_add cw_v beta else cw_v in
    (cw_v, ge2n_add v_working (ge2n_add (ge2n_add (GetReverse N prg_keep_1) prg_keep_0) cw_v)).

(** Working seeds, working bits, working value, the words so far. *)
Definition dcf_state : Type := (Z * Z) * (bool * bool) * Z * list DcfCW.

Definition dcf_gen_level (M : nat) (N alpha beta : Z) (st : dcf_state) (i : nat) : option dcf_state :=
  let '((seed0, seed1), (t0, t1), v_working, cws) := st in
  let? alpha_bit := ge_GetBit alpha (M - i - 1) in
  let? (seed_left0, v_seed_left0, t_left0, seed_right0, v_seed_right0, t_right0) := SplitDcfSeed seed0 in
  let? (seed_left1, v_seed_left1, t_left1, seed_right1, v_seed_right1, t_right1) := SplitDcfSeed seed1 in
  let keep_seed := if alpha_bit then (seed_right0, seed_right1) else (seed_left0, seed_left1) in
  let lose_seed := if alpha_bit then (seed_left0, seed_left1) else (seed_right0, seed_right1) in
  let v_seed_keep := if alpha_bit then (v_seed_right0, v_seed_right1) else (v_seed_left0, v_seed_left1) in
  let v_seed_lose := if alpha_bit then (v_seed_left0, v_seed_left1) else (v_seed_right0, v_seed_right1) in
  let t_keep := if alpha_bit then (t_right0, t_right1) else (t_left0, t_left1) in
  let cw_seed := Z.lxor (fst lose_seed) (snd lose_seed) in
  let? prg_lose_0 := DcfPRG (fst v_seed_lose) in
  let? prg_lose_1 := DcfPRG (snd v_seed_lose) in
  let? prg_keep_0 := DcfPRG (fst v_seed_keep) in
  let? prg_keep_1 := DcfPRG (snd v_seed_keep) in
  let '(cw_v, v_working) := dcf_values N beta alpha_bit t1 v_working prg_lose_0 prg_lose_1 prg_keep_0 prg_keep_1 in
  let cw_t_left := xorb (xorb (xorb t_left0 t_left1) alpha_bit) true in
  let cw_t_right := xorb (xorb t_right0 t_right1) alpha_bit in
  let cw_t_keep := if alpha_bit then cw_t_right else cw_t_left in
  let seeds := (xor_if t0 (fst keep_seed) cw_seed, xor_if t1 (snd keep_seed) cw_seed) in
  let ts := (xorb (fst t_keep) (t0 && cw_t_keep), xorb (snd t_keep) (t1 && cw_t_keep)) in
  let? cw := nth_error cws i in
  let? cw := let? cw := Dcf_SetLT (Dcf_SetSeed cw cw_seed) (Z.b2z cw_t_left) in Dcf_SetRT cw (Z.b2z cw_t_right) in
  Some (seeds, ts, v_working, upd cws i (Dcf_SetV cw (GetVal N cw_v))).

Definition DcfKeyGen (M N : nat) (alpha beta first_mk second_mk : Z) : option (DcfKey * DcfKey) :=
  let term_level := M in
  let n := Z.of_nat N in
  let first_key := DcfKey_new false first_mk in
  let second_key := DcfKey_new true second_mk in
  let? st := foldM (dcf_gen_level M n alpha beta) (seq 0 term_level)
    ((first_mk, second_mk), (false, true), 0, repeat DcfCW_default term_level) in
  let '((seed0, seed1), (t0, t1), v_working, cws) := st in
  let first_key := dcf_set_cws first_key cws in
  let second_key := dcf_set_cws second_key (repeat DcfCW_default term_level) in
  let? prg0 := DcfPRG seed0 in
  let? prg1 := DcfPRG seed1 in
  YACL_ENFORCE (length (dcf_last_cw_vec first_key) =? 0)%nat
  (YACL_ENFORCE (length (dcf_last_cw_vec second_key) =? 0)%nat
    (let last_cw_ge2n := ge2n_add (ge2n_add (GetReverse n prg0) prg1) (GetReverse n v_working) in
     let last_cw_ge2n := if t1 then ReverseInplace n last_cw_ge2n else last_cw_ge2n in
     let first_key := dcf_push_last first_key (GetVal n last_cw_ge2n) in
     let second_key := dcf_push_last (dcf_set_cws second_key (dcf_cws_vec first_key)) (GetVal n last_cw_ge2n) in
     Some (first_key, second_key))).

(** ** Evaluation: working seed and bit, and the output so far *)

Definition dcf_eval_level (M : nat) (N : Z) (key : DcfKey) (in_ : Z) (st : (Z * bool) * Z) (i : nat) : option ((Z * bool) * Z) :=
  let '((seed_working, t_working), out) := st in
  let? cw := nth_error (dcf_cws_vec key) i in
  let cw_v := dcw_v_ cw in
  let? (seed_left, v_seed_left, t_left, seed_right, v_seed_right, t_right) := SplitDcfSeed seed_working in
  let seed_left := xor_if t_working seed_left (dcw_seed_ cw) in
  let t_left := xorb t_left (t_working && negb (Dcf_GetLT cw =? 0)) in
  let seed_right := xor_if t_working seed_right (dcw_seed_ cw) in
  let t_right := xorb t_right (t_working && negb (Dcf_GetRT cw =? 0)) in
  let? prg0 := DcfPRG v_seed_left in
  let? prg1 := DcfPRG v_seed_right in
  let? b := ge_GetBit in_ (M - i - 1) in
  if b then
    let out :=
      if t_working then ge2n_add out (if dcf_rank_ key then GetReverse N (ge2n_add prg1 cw_v) else ge2n_add prg1 cw_v)
      else ge2n_add out (if dcf_rank_ key then GetReverse N prg1 else prg1) in
    Some ((seed_right, t_right), out)
  else
    let out :=
      if t_working then ge2n_add out (if dcf_rank_ key then GetReverse N (ge2n_add prg0 cw_v) else ge2n_add prg0 cw_v)
      else ge2n_add out (if dcf_rank_ key then GetReverse N prg0 else prg0) in
    Some ((seed_left, t_left), out).

Definition DcfEval (M N : nat) (key : DcfKey) (in_ : Z) : option Z :=
  let n := Z.of_nat N in
  let? ((seed_working, t_working), out) := foldM (dcf_eval_level M n key in_) (seq 0 M) ((dcf_mseed_ key, dcf_rank_ key), 0) in
  let? prg := DcfPRG seed_working in
  let? tmp := if t_working then let? last := nth_error (dcf_last_cw_vec key) 0 in Some (ge2n_add prg last) else Some prg in
  Some (ge2n_add out (if dcf_rank_ key then GetReverse n tmp else tmp)).
End DcfCode.

(** ** The code as steps on nodes and values *)

Section DcfSteps.
Context {C : Cipher} {L : CipherLaws C} (N beta : Z) (WN : width_ok N).

Definition dcf_split (seed : Z) : Z * bool * Z * bool :=
  (prg_block seed 0, Z.testbit (prg_block seed 4) 1, prg_block seed 1, Z.testbit (prg_block seed 4) 2).
(** The value of a node's child. *)
Definition child_value (seed : Z) (b : bool) : Z := prg_block (prg_block seed (if b then 3 else 2)) 0.

Lemma SplitDcfSeed_ok seed : SplitDcfSeed seed =
  Some (prg_block seed 0, prg_block seed 2, Z.testbit (prg_block seed 4) 1, prg_block seed 1, prg_block seed 3, Z.testbit (prg_block seed 4) 2).
Proof.
  unfold SplitDcfSeed. destruct (Prg_new_outputs 80 seed kAesEcb 5 ltac:(lia) ltac:(lia)) as (p & E). cbn [map seq] in E. cbv zeta. prg_calls E.
  rewrite !odd_bit by lia. reflexivity.
Qed.

Lemma DcfPRG_ok seed : DcfPRG seed = Some (prg_block seed 0).
Proof.
  unfold DcfPRG. destruct (Prg_new_outputs 16 seed kAesEcb 1 ltac:(lia) ltac:(lia)) as (p & E). cbn [map seq] in E. now prg_calls E.
Qed.

(** *** Values *)

(** What a party adds to its output at a level. *)
Definition vshare (rank t : bool) (p v : Z) : Z :=
  if t then (if rank then GetReverse N (ge2n_add p v) else ge2n_add p v) else (if rank then GetReverse N p else p).

(** The two values of a level cancel the working value off the path, up to beta when
    the path turns right, and make the next one on it. *)
Lemma values_keep a t0 t1 V l0 l1 k0 k1 : t0 <> t1 -> let '(cw, V') := dcf_values N beta a t1 V l0 l1 k0 k1 in
  cong2 N (V + (vshare false t0 k0 (GetVal N cw) + vshare true t1 k1 (GetVal N cw))) V'.
Proof. intros H. apply neq_negb in H. subst t0. unfold dcf_values, vshare. destruct a, t1; cbn [negb]; cong2_ring. Qed.

Lemma values_lose a t0 t1 V l0 l1 k0 k1 : t0 <> t1 -> let '(cw, V') := dcf_values N beta a t1 V l0 l1 k0 k1 in
  cong2 N (V + (vshare false t0 l0 (GetVal N cw) + vshare true t1 l1 (GetVal N cw))) (if a then beta else 0).
Proof. intros H. apply neq_negb in H. subst t0. unfold dcf_values, vshare. destruct a, t1; cbn [negb]; cong2_ring. Qed.

Lemma vshare_cancel t p v : cong2 N (vshare false t p v + vshare true t p v) 0.
Proof. unfold vshare. destruct t; cong2_ring. Qed.

(** *** Paths with values *)

Definition dcw_of (w : word3 * Z) : DcfCW := let '(s, l, r, v) := w in DCw s (GetVal N v) (Z.b2z l + 2 * Z.b2z r).

Definition level_values (a : bool) (n0 n1 : node) (V : Z) : Z * Z :=
  dcf_values N beta a (snd n1) V (child_value (fst n0) (negb a)) (child_value (fst n1) (negb a)) (child_value (fst n0) a) (child_value (fst n1) a).

(** The words of the levels from [i] on, and the value after them. *)
Fixpoint dwords (a : nat -> bool) (i k : nat) (n0 n1 : node) (V : Z) : list (word3 * Z) * Z :=
  match k with
  | O => ([], V)
  | S k =>
      let w := word dcf_split (a i) n0 n1 in
      let '(cw, V') := level_values (a i) n0 n1 V in
      let '(ws, V'') := dwords a (S i) k (step dcf_split w (a i) n0) (step dcf_split w (a i) n1) V' in
      ((w, cw) :: ws, V'')
  end.

Fixpoint dpath (rank : bool) (ws : list (word3 * Z)) (b : nat -> bool) (i : nat) (n : node) (out : Z) : node * Z :=
  match ws with
  | [] => (n, out)
  | (w, v) :: ws => dpath rank ws b (S i) (step dcf_split w (b i) n) (ge2n_add out (vshare rank (snd n) (child_value (fst n) (b i)) (GetVal N v)))
  end.

Lemma dwords_words a k : forall i n0 n1 V, map fst (fst (dwords a i k n0 n1 V)) = words dcf_split a i k n0 n1.
Proof.
  induction k as [|k IH]; intros i n0 n1 V; [reflexivity|]. cbn [dwords words]. destruct (level_values (a i) n0 n1 V) as [cw V'].
  specialize (IH (S i) (step dcf_split (word dcf_split (a i) n0 n1) (a i) n0) (step dcf_split (word dcf_split (a i) n0 n1) (a i) n1) V').
  destruct (dwords a (S i) k _ _ V') as [ws V'']. cbn [fst map] in *. now rewrite IH.
Qed.

Lemma dpath_path rank ws b : forall i n out, fst (dpath rank ws b i n out) = path dcf_split (map fst ws) b i n.
Proof. induction ws as [|[w v] ws IH]; intros i n out; [reflexivity|]. cbn [dpath map path fst]. apply IH. Qed.

(** First difference: whether the path lies to the right of the point. *)
Fixpoint lessb (b a : nat -> bool) (i k : nat) : bool :=
  match k with O => false | S k => if eqb (b i) (a i) then lessb b a (S i) k else a i end.

Lemma dpath_same ws b : forall i n o0 o1,
  cong2 N (snd (dpath false ws b i n o0) + snd (dpath true ws b i n o1)) (o0 + o1).
Proof.
  induction ws as [|[w v] ws IH]; intros i n o0 o1; [reflexivity|]. cbn [dpath]. rewrite IH, !cong2_ge_add by exact WN.
  set (s0 := vshare false _ _ _). set (s1 := vshare true _ _ _). replace (o0 + s0 + (o1 + s1)) with (o0 + o1 + (s0 + s1)) by ring.
  unfold s0, s1. rewrite vshare_cancel. now rewrite Z.add_0_r.
Qed.

Lemma dpath_sum b a k : forall i n0 n1 V o0 o1, snd n0 <> snd n1 -> cong2 N (o0 + o1) V ->
  let '(ws, V') := dwords a i k n0 n1 V in
  cong2 N (snd (dpath false ws b i n0 o0) + snd (dpath true ws b i n1 o1)) (if agree b a i k then V' else if lessb b a i k then beta else 0).
Proof.
  induction k as [|k IH]; intros i n0 n1 V o0 o1 H HV; [exact HV|]. cbn [dwords agree lessb].
  set (w := word dcf_split (a i) n0 n1).
  pose proof (values_keep (a i) (snd n0) (snd n1) V (child_value (fst n0) (negb (a i))) (child_value (fst n1) (negb (a i))) (child_value (fst n0) (a i)) (child_value (fst n1) (a i)) H) as K.
  pose proof (values_lose (a i) (snd n0) (snd n1) V (child_value (fst n0) (negb (a i))) (child_value (fst n1) (negb (a i))) (child_value (fst n0) (a i)) (child_value (fst n1) (a i)) H) as Lo.
  fold (level_values (a i) n0 n1 V) in K, Lo. destruct (level_values (a i) n0 n1 V) as [cw V'].
  specialize (IH (S i) (step dcf_split w (a i) n0) (step dcf_split w (a i) n1) V').
  destruct (eqb (b i) (a i)) eqn:E; cbn [andb].
  - apply eqb_prop in E. specialize (IH (ge2n_add o0 (vshare false (snd n0) (child_value (fst n0) (a i)) (GetVal N cw)))
      (ge2n_add o1 (vshare true (snd n1) (child_value (fst n1) (a i)) (GetVal N cw))) (step_keep dcf_split (a i) n0 n1 H)).
    destruct (dwords a (S i) k _ _ V') as [ws V'']. cbn [dpath]. rewrite E. apply IH. rewrite !cong2_ge_add by exact WN. rewrite <- K, <- HV.
    apply cong2_eq; ring.
  - apply eqb_false_iff in E. destruct (dwords a (S i) k _ _ V') as [ws V'']. cbn [dpath]. rewrite (neq_negb _ _ E).
    unfold w. rewrite (step_lose dcf_split (a i) n0 n1 H), dpath_same, !cong2_ge_add by exact WN. rewrite <- Lo, <- HV.
    apply cong2_eq; ring.
Qed.

Lemma lessb_value M x alpha k : forall i, (i + k = M)%nat ->
  lessb (high_bit M x) (high_bit M alpha) i k = (x mod 2 ^ Z.of_nat k <? alpha mod 2 ^ Z.of_nat k) /\
  (agree (high_bit M x) (high_bit M alpha) i k = (x mod 2 ^ Z.of_nat k =? alpha mod 2 ^ Z.of_nat k)).
Proof.
  induction k as [|k IH]; intros i Hi; [rewrite !Z.mod_1_r; now split|]. cbn [lessb agree]. destruct (IH (S i) ltac:(lia)) as [IH1 IH2]. rewrite IH1, IH2.
  unfold high_bit. replace (M - i - 1)%nat with k by lia. rewrite <- (Nat.add_1_r k), !mod_next.
  pose proof (Z.mod_pos_bound x (2 ^ Z.of_nat k) ltac:(lia)). pose proof (Z.mod_pos_bound alpha (2 ^ Z.of_nat k) ltac:(lia)).
  destruct (Z.testbit x (Z.of_nat k)), (Z.testbit alpha (Z.of_nat k)); cbn [eqb andb Z.b2z]; split; lia.
Qed.
End DcfSteps.

(** ** Keys, evaluation and the shares *)

Section DcfRuns.
Context {C : Cipher} {L : CipherLaws C}.

Lemma dcf_set_bits s l r :
  (let? cw := Dcf_SetLT (Dcf_SetSeed DcfCW_default s) (Z.b2z l) in Dcf_SetRT cw (Z.b2z r)) = Some (DCw s 0 (Z.b2z l + 2 * Z.b2z r)).
Proof. now destruct l, r. Qed.

Lemma dcf_gen_level_ok M N alpha beta s0 s1 t0 t1 V cws i : (i < M)%nat -> (M <= 128)%nat -> nth_error cws i = Some DcfCW_default ->
  let a := high_bit M alpha i in let n0 := (s0, t0) in let n1 := (s1, t1) in let w := word dcf_split a n0 n1 in
  let '(cw, V') := level_values N beta a n0 n1 V in
  dcf_gen_level M N alpha beta ((s0, s1), (t0, t1), V, cws) i =
  Some ((fst (step dcf_split w a n0), fst (step dcf_split w a n1)), (snd (step dcf_split w a n0), snd (step dcf_split w a n1)), V', upd cws i (dcw_of N (w, cw))).
Proof.
  intros Hi HM Hc a n0 n1 w. unfold level_values, n0, n1. cbn [fst snd].
  destruct (dcf_values N beta a t1 V _ _ _ _) as [cw V'] eqn:E. unfold dcf_gen_level. rewrite GetBit_ok, !SplitDcfSeed_ok, Hc by lia.
  fold (high_bit M alpha i). fold a. subst w. unfold word, step, dcf_split, n0, n1. cbn [fst snd].
  destruct a; cbn [fst snd negb] in *; rewrite !DcfPRG_ok; unfold child_value in E; rewrite E, dcf_set_bits; reflexivity.
Qed.

Lemma dcf_gen_loop M N alpha beta k : forall i n0 n1 V pre, (i + k <= M)%nat -> (M <= 128)%nat -> length pre = i ->
  let '(ws, V') := dwords N beta (high_bit M alpha) i k n0 n1 V in
  let m0 := path dcf_split (map fst ws) (high_bit M alpha) i n0 in let m1 := path dcf_split (map fst ws) (high_bit M alpha) i n1 in
  foldM (dcf_gen_level M N alpha beta) (seq i k) ((fst n0, fst n1), (snd n0, snd n1), V, pre ++ repeat DcfCW_default k) =
  Some ((fst m0, fst m1), (snd m0, snd m1), V', pre ++ map (dcw_of N) ws).
Proof.
  induction k as [|k IH]; intros i n0 n1 V pre Hi HM Hp; [reflexivity|]. destruct n0 as [s0 t0], n1 as [s1 t1]. cbn [seq foldM fst snd repeat dwords].
  pose proof (dcf_gen_level_ok M N alpha beta s0 s1 t0 t1 V (pre ++ DcfCW_default :: repeat DcfCW_default k) i ltac:(lia) HM
    ltac:(rewrite nth_error_app2, Hp, Nat.sub_diag by lia; reflexivity)) as E. cbv zeta in E.
  set (a := high_bit M alpha i) in *. set (w := word dcf_split a (s0, t0) (s1, t1)) in *.
  destruct (level_values N beta a (s0, t0) (s1, t1) V) as [cw V1]. rewrite E. clear E.
  replace (upd (pre ++ DcfCW_default :: repeat DcfCW_default k) i (dcw_of N (w, cw))) with ((pre ++ [dcw_of N (w, cw)]) ++ repeat DcfCW_default k)
    by (rewrite <- Hp, <- (Nat.add_0_r (length pre)), upd_app, <- app_assoc; reflexivity).
  specialize (IH (S i) (step dcf_split w a (s0, t0)) (step dcf_split w a (s1, t1)) V1 (pre ++ [dcw_of N (w, cw)]) ltac:(lia) HM ltac:(rewrite length_app; cbn; lia)).
  destruct (dwords N beta (high_bit M alpha) (S i) k _ _ V1) as [ws V2]. cbv zeta in IH. rewrite IH. cbn [map fst path]. fold a. now rewrite <- app_assoc.
Qed.

Lemma dcf_eval_level_ok M N key x i w n out : (i < M)%nat -> (M <= 128)%nat -> nth_error (dcf_cws_vec key) i = Some (dcw_of N w) ->
  dcf_eval_level M N key x (n, out) i =
  Some (step dcf_split (fst w) (high_bit M x i) n,
        ge2n_add out (vshare N (dcf_rank_ key) (snd n) (child_value (fst n) (high_bit M x i)) (GetVal N (snd w)))).
Proof.
  intros Hi HM H. destruct n as [s t], w as [[[ws l] r] v]. unfold dcf_eval_level. rewrite H, SplitDcfSeed_ok, !DcfPRG_ok, GetBit_ok by lia.
  fold (high_bit M x i). unfold step, dcf_split, child_value, vshare, Dcf_GetLT, Dcf_GetRT. cbn [fst snd dcw_of dcw_seed_ dcw_v_ dcw_t_store_].
  destruct (high_bit M x i), t, l, r; reflexivity.
Qed.

Lemma dcf_eval_loop M N key x k : forall i n out ws, (i + k = M)%nat -> (M <= 128)%nat -> length ws = k ->
  (forall j w, nth_error ws j = Some w -> nth_error (dcf_cws_vec key) (i + j) = Some (dcw_of N w)) ->
  foldM (dcf_eval_level M N key x) (seq i k) (n, out) = Some (dpath N (dcf_rank_ key) ws (high_bit M x) i n out).
Proof.
  induction k as [|k IH]; intros i n out ws Hi HM Hl H; destruct ws as [|w ws]; try discriminate; [reflexivity|]. cbn [seq foldM dpath].
  rewrite (dcf_eval_level_ok M N key x i w n out); [|lia|exact HM|rewrite <- (Nat.add_0_r i); now apply H]. destruct w as [w v]. cbn [fst snd].
  apply IH; [lia|exact HM|now injection Hl|]. intros j u Hj. replace (S i + j)%nat with (i + S j)%nat by lia. now apply H.
Qed.

Definition dcf_root (mk : Z) (rank : bool) : node := (mk, rank).
Definition dcf_words (M N : nat) (alpha beta mk0 mk1 : Z) : list (word3 * Z) * Z :=
  dwords (Z.of_nat N) beta (high_bit M alpha) 0 M (dcf_root mk0 false) (dcf_root mk1 true) 0.
Definition dcf_last (M N : nat) (alpha beta mk0 mk1 : Z) : Z :=
  let '(ws, V) := dcf_words M N alpha beta mk0 mk1 in let n := Z.of_nat N in
  let n0 := path dcf_split (map fst ws) (high_bit M alpha) 0 (dcf_root mk0 false) in
  let n1 := path dcf_split (map fst ws) (high_bit M alpha) 0 (dcf_root mk1 true) in
  let v := ge2n_add (ge2n_add (GetReverse n (prg_block (fst n0) 0)) (prg_block (fst n1) 0)) (GetReverse n V) in
  GetVal n (if snd n1 then ReverseInplace n v else v).
Definition dcf_key (M N : nat) (alpha beta mk0 mk1 : Z) (rank : bool) : DcfKey :=
  MkDcfKey (map (dcw_of (Z.of_nat N)) (fst (dcf_words M N alpha beta mk0 mk1))) [dcf_last M N alpha beta mk0 mk1] rank (if rank then mk1 else mk0).

Lemma DcfKeyGen_ok M N alpha beta mk0 mk1 : fss_params M N ->
  DcfKeyGen M N alpha beta mk0 mk1 = Some (dcf_key M N alpha beta mk0 mk1 false, dcf_key M N alpha beta mk0 mk1 true).
Proof.
  intros [HM HN]. unfold DcfKeyGen, dcf_key, dcf_last, dcf_words. cbv zeta.
  pose proof (dcf_gen_loop M (Z.of_nat N) alpha beta M 0 (dcf_root mk0 false) (dcf_root mk1 true) 0 [] ltac:(lia) ltac:(lia) eq_refl) as G.
  destruct (dwords (Z.of_nat N) beta (high_bit M alpha) 0 M (dcf_root mk0 false) (dcf_root mk1 true) 0) as [ws V].
  cbn [fst snd dcf_root app] in G. cbv zeta in G. rewrite G. rewrite !DcfPRG_ok. reflexivity.
Qed.

Lemma dcf_words_length M N alpha beta mk0 mk1 : length (fst (dcf_words M N alpha beta mk0 mk1)) = M.
Proof. rewrite <- (length_map fst). unfold dcf_words. rewrite dwords_words. apply words_length. Qed.

(** The output of a party at a point. *)
Definition dcf_share (M N : nat) (alpha beta mk0 mk1 : Z) (rank : bool) (x : Z) : Z :=
  let n := Z.of_nat N in
  let '(m, out) := dpath n rank (fst (dcf_words M N alpha beta mk0 mk1)) (high_bit M x) 0 (dcf_root (if rank then mk1 else mk0) rank) 0 in
  ge2n_add out (vshare n rank (snd m) (prg_block (fst m) 0) (dcf_last M N alpha beta mk0 mk1)).

Lemma DcfEval_ok M N alpha beta mk0 mk1 rank x : fss_params M N ->
  DcfEval M N (dcf_key M N alpha beta mk0 mk1 rank) x = Some (dcf_share M N alpha beta mk0 mk1 rank x).
Proof.
  intros [HM HN]. unfold DcfEval, dcf_share. cbv zeta.
  rewrite (dcf_eval_loop M (Z.of_nat N) _ x M 0 _ 0 (fst (dcf_words M N alpha beta mk0 mk1)));
    [|lia|lia|apply dcf_words_length|intros j w H; cbn [dcf_cws_vec dcf_key Nat.add]; now rewrite nth_error_map, H].
  cbn [dcf_rank_ dcf_mseed_ dcf_key dcf_last_cw_vec nth_error]. unfold dcf_root. destruct (dpath _ _ _ _ _ _ _) as [[s t] out]. cbn [fst snd].
  rewrite DcfPRG_ok. unfold vshare. now destruct t, rank.
Qed.

(** The shares of the two parties add up to the value of the comparison. *)
Lemma dcf_shares_sum M N alpha beta mk0 mk1 x : fss_params M N ->
  cong2 (Z.of_nat N) (dcf_share M N alpha beta mk0 mk1 false x + dcf_share M N alpha beta mk0 mk1 true x)
    (if ge2n_ltb (Z.of_nat M) x alpha then beta else 0).
Proof.
  intros P. pose proof (fss_width M N P) as W. assert (WM : width_ok (Z.of_nat M)) by (destruct P; unfold width_ok; lia).
  unfold dcf_share, dcf_last. cbv zeta. set (n := Z.of_nat N) in *. unfold ge2n_ltb. rewrite !GetVal_mod by exact WM.
  destruct (lessb_value M x alpha M 0 eq_refl) as [EL EA]. rewrite <- EL. clear EL.
  pose proof (dpath_sum n beta W (high_bit M x) (high_bit M alpha) M 0 (dcf_root mk0 false) (dcf_root mk1 true) 0 0 0 ltac:(discriminate) ltac:(reflexivity)) as S.
  pose proof (path_differ dcf_split (high_bit M x) (high_bit M alpha) M 0 (dcf_root mk0 false) (dcf_root mk1 true) ltac:(discriminate)) as D. cbv zeta in D.
  rewrite <- (dwords_words n beta (high_bit M alpha) M 0 _ _ 0) in D.
  pose proof (dcf_words_length M N alpha beta mk0 mk1) as Lw. unfold dcf_words in *. fold n in Lw |- *.
  destruct (dwords n beta (high_bit M alpha) 0 M (dcf_root mk0 false) (dcf_root mk1 true) 0) as [ws V]. cbn [fst] in *.
  pose proof (dpath_path n false ws (high_bit M x) 0 (dcf_root mk0 false) 0) as P0. pose proof (dpath_path n true ws (high_bit M x) 0 (dcf_root mk1 true) 0) as P1.
  destruct (dpath n false ws (high_bit M x) 0 (dcf_root mk0 false) 0) as [m0 o0]. destruct (dpath n true ws (high_bit M x) 0 (dcf_root mk1 true) 0) as [m1 o1].
  cbn [fst snd] in *. subst m0 m1. set (m0 := path dcf_split (map fst ws) (high_bit M x) 0 (dcf_root mk0 false)) in *.
  set (m1 := path dcf_split (map fst ws) (high_bit M x) 0 (dcf_root mk1 true)) in *.
  destruct (agree (high_bit M x) (high_bit M alpha) 0 M) eqn:A.
  - rewrite <- !(path_agree dcf_split (high_bit M x) (high_bit M alpha)) by (now rewrite length_map, Lw). fold m0 m1.
    assert (F : lessb (high_bit M x) (high_bit M alpha) 0 M = false).
    { destruct (lessb_value M x alpha M 0 eq_refl) as [-> _]. symmetry in EA. apply Z.eqb_eq in EA. rewrite EA. apply Z.ltb_irrefl. }
    rewrite F. transitivity (o0 + o1 - V); [|rewrite S; apply cong2_eq; ring]. unfold vshare. apply neq_negb in D. rewrite D. destruct (snd m1); cbn [negb]; cong2_ring.
  - rewrite <- S. rewrite D. etransitivity; [cong2_lin|].
    match goal with |- cong2 _ (_ + ?a + (_ + ?b)) _ => replace (o0 + a + (o1 + b)) with (o0 + o1 + (a + b)) by ring end.
    rewrite vshare_cancel by exact W. now rewrite Z.add_0_r.
Qed.
End DcfRuns.
