(* ===== verification/Pprf.v ===== *)
(** The puncturable pseudorandom function ([dpf/pprf.h], [dpf/pprf.cc]): the tree of
    Goldreich, Goldwasser and Micali, and keys that know every leaf but one.  The
    seeds of a key are an unordered map from levels, here a [gmap]. *)
From Stdlib Require Import ZArith Lia List Bool.
From stdpp Require Import base option list gmap.
From S2P Require Import Prelude.
From S2P Require Import Errors.
From S2P Require Import Int128.
From S2P Require Import Cipher.
From S2P Require Import OtExt.
From S2P Require Import Ge2n.
From S2P Require Import Fss.
Import ListNotations.
#[local] Open Scope Z_scope.

Record PprfPuncKey := PuncKey { punc_point : Z; seeds : gmap nat Z }.

(** [unordered_map::insert]: a key that is present keeps its value. *)
Definition map_insert (m : gmap nat Z) (i : nat) (v : Z) : gmap nat Z :=
  match m !! i with Some _ => m | None => <[i := v]> m end.

Section PprfCode.
Context {C : Cipher}.

Definition GgmOut (in_ count : Z) : option Z :=
  let? (_, buf) := FillPRand AES128_CTR in_ 0 count 16 in Some (le_val buf).
(** The two targets; [None] is a null pointer. *)
Definition GgmPrg (in_ : Z) (out1 out2 : option Z) : option (option Z * option Z) :=
  let? out1 := match out1 with Some _ => let? v := GgmOut in_ 0 in Some (Some v) | None => Some None end in
  let? out2 := match out2 with Some _ => let? v := GgmOut in_ 1 in Some (Some v) | None => Some None end in
  Some (out1, out2).

(** Both children of the first element, written to the first and the middle one. *)
Definition ggm_split (working_span : list Z) : option (list Z) :=
  let num := length working_span in
  let? s := nth_error working_span 0 in
  let? (o1, o2) := GgmPrg s (nth_error working_span 0) (nth_error working_span (num / 2)) in
  let? v1 := o1 in let? v2 := o2 in
  Some (upd (upd working_span 0 v1) (num / 2) v2).

(** Defined and not called: the leaves of a tree, in the order of the tree. *)
Fixpoint GgmFullExpand (fuel : nat) (working_span : list Z) : option (list Z) :=
  match fuel with
  | O => None
  | S fuel =>
      let num := length working_span in
      if (1 <? num)%nat then
        let? working_span := ggm_split working_span in
        let? l := GgmFullExpand fuel (firstn (num / 2) working_span) in
        let? r := GgmFullExpand fuel (firstn (num / 2) (skipn (num / 2) working_span)) in
        Some (l ++ r ++ skipn (num / 2 + num / 2) working_span)
      else Some working_span
  end.

(** The seeds beside the path to the punctured point; the span and the map after. *)
Fixpoint GgmExpandAndPunc (fuel M : nat) (working_span : list Z) (point : Z) (out : gmap nat Z) : option (list Z * gmap nat Z) :=
  match fuel with
  | O => None
  | S fuel =>
      let num := length working_span in
      let i := (M - Nat.log2 num)%nat in
      if (1 <? num)%nat then
        let? working_span := ggm_split working_span in
        let? b := ge_GetBit point i in
        if negb b then
          let? (l, out) := GgmExpandAndPunc fuel M (firstn (num / 2) working_span) point out in
          let working_span := l ++ skipn (num / 2) working_span in
          let? s := nth_error working_span (num / 2) in
          Some (working_span, map_insert out i s)
        else
          let? s := nth_error working_span 0 in
          let out := map_insert out i s in
          let? (r, out) := GgmExpandAndPunc fuel M (firstn (num / 2) (skipn (num / 2) working_span)) point out in
          Some (firstn (num / 2) working_span ++ r ++ skipn (num / 2 + num / 2) working_span, out)
      else Some (working_span, out)
  end.

(** [(m == 64) ? max : 1 << m], with [1] an [int]: undefined for 32 bits and more. *)
Definition punc_num (m : nat) : option Z :=
  if (m =? 64)%nat then Some (2 ^ 64 - 1)
  else if (m <? 32)%nat then Some (u64 (i32 (1 [<<] Z.of_nat m))) else None.
(** The constructor of a vector of blocks throws past [max_size]. *)
Definition vector_of (num : Z) : option (list Z) :=
  if num <=? (2 ^ 63 - 1) / 16 then Some (repeat 0%Z (Z.to_nat num)) else None.

Definition PprfPunc (M N : nat) (prf_key : Z) (point : Z) (out : PprfPuncKey) : option PprfPuncKey :=
  let? num := punc_num M in
  let? working_vec := vector_of num in
  let working_vec := upd working_vec 0 prf_key in
  let? (_, s) := GgmExpandAndPunc (M + 1) M working_vec point (seeds out) in
  Some (PuncKey (GetVal (Z.of_nat M) point) s).

(** One child: the call of [GgmPrg] with one target. *)
Definition ggm_step (current_seed : Z) (b : bool) : option Z :=
  if negb b then let? (o, _) := GgmPrg current_seed (Some current_seed) None in o
  else let? (_, o) := GgmPrg current_seed None (Some current_seed) in o.

Definition punc_eval_level (punc_key : PprfPuncKey) (point : Z) (st : bool * bool * Z) (i : nat) : option (bool * bool * Z) :=
  let '(is_same, retrived, current_seed) := st in
  let? b := ge_GetBit point i in
  let? p := ge_GetBit (punc_point punc_key) i in
  let is_same := is_same && eqb b p in
  if negb is_same then
    if negb retrived then
      let? s := seeds punc_key !! i in Some (is_same, true, s)
    else
      let? s := ggm_step current_seed b in Some (is_same, retrived, s)
  else Some (is_same, retrived, current_seed).

Definition PprfPuncEval (M N : nat) (punc_key : PprfPuncKey) (point : Z) : option Z :=
  YACL_ENFORCE (negb (ge2n_eqb (Z.of_nat M) (punc_point punc_key) point))
    (let? (_, _, current_seed) := foldM (punc_eval_level punc_key point) (seq 0 M) (true, false, 0) in Some current_seed).

Definition PprfEval (M N : nat) (prf_key : Z) (point : Z) : option Z :=
  foldM (fun current_seed i => let? b := ge_GetBit point i in ggm_step current_seed b) (seq 0 M) prf_key.
End PprfCode.

(** ** The tree as a function *)

Section PprfTree.
Context {C : Cipher} {L : CipherLaws C}.

Definition ggm_child (s : Z) (b : bool) : Z := match GgmOut s (Z.b2z b) with Some v => v | None => 0 end.

Lemma GgmOut_ok s b : GgmOut s (Z.b2z b) = Some (ggm_child s b).
Proof. unfold ggm_child, GgmOut. destruct (FillPRand_some AES128_CTR s 0 (Z.b2z b) 16) as (buf & -> & _). reflexivity. Qed.

Lemma ggm_step_ok s b : ggm_step s b = Some (ggm_child s b).
Proof.
  unfold ggm_step, GgmPrg. pose proof (GgmOut_ok s true) as T. pose proof (GgmOut_ok s false) as F. cbn [Z.b2z] in *. rewrite T, F. now destruct b.
Qed.

(** The node reached from [s] by [k] bits from level [i] on. *)
Fixpoint walk (b : nat -> bool) (i k : nat) (s : Z) : Z :=
  match k with O => s | S k => walk b (S i) k (ggm_child s (b i)) end.

Lemma PprfEval_loop point k : forall i s, (i + k <= 128)%nat ->
  foldM (fun s i => let? b := ge_GetBit point i in ggm_step s b) (seq i k) s = Some (walk (low_bit point) i k s).
Proof.
  induction k as [|k IH]; intros i s H; [reflexivity|]. cbn [seq foldM walk]. rewrite GetBit_ok by lia. fold (low_bit point i).
  rewrite ggm_step_ok. apply IH. lia.
Qed.

(** The seeds beside a path. *)
Fixpoint beside (p : nat -> bool) (i k : nat) (s : Z) : gmap nat Z :=
  match k with
  | O => ∅
  | S k => <[i := ggm_child s (negb (p i))]> (beside p (S i) k (ggm_child s (p i)))
  end.

Lemma beside_lookup p k : forall i s j, beside p i k s !! j =
  if ((i <=? j) && (j <? i + k))%nat then Some (ggm_child (walk p i (j - i) s) (negb (p j))) else None.
Proof.
  induction k as [|k IH]; intros i s j; cbn [beside].
  - rewrite lookup_empty. destruct (Nat.leb_spec i j), (Nat.ltb_spec j (i + 0)); cbn [andb]; try reflexivity; lia.
  - destruct (decide (i = j)) as [->|E].
    + rewrite lookup_insert_eq, Nat.sub_diag. destruct (Nat.leb_spec j j), (Nat.ltb_spec j (j + S k)); cbn [andb walk]; try lia. reflexivity.
    + rewrite lookup_insert_ne by exact E. rewrite IH.
      destruct (Nat.leb_spec (S i) j), (Nat.leb_spec i j), (Nat.ltb_spec j (S i + k)), (Nat.ltb_spec j (i + S k)); cbn [andb]; try lia; try reflexivity.
      replace (j - i)%nat with (S (j - S i)) by lia. reflexivity.
Qed.

Lemma map_insert_union m i v : map_insert m i v = m ∪ {[i := v]}.
Proof.
  apply map_eq. intros j. unfold map_insert. rewrite lookup_union. destruct (m !! i) as [w|] eqn:E; destruct (decide (i = j)) as [->|N].
  - now rewrite E, union_Some_l.
  - rewrite lookup_singleton_ne by exact N. now destruct (m !! j).
  - now rewrite E, lookup_insert_eq, lookup_singleton_eq.
  - rewrite lookup_insert_ne, lookup_singleton_ne by exact N. now destruct (m !! j).
Qed.

Lemma pow_half k : (2 ^ S k / 2 = 2 ^ k)%nat.
Proof. cbn [Nat.pow]. rewrite Nat.mul_comm. now apply Nat.div_mul. Qed.

Lemma split_span k span s : length span = (2 ^ S k)%nat -> nth_error span 0 = Some s ->
  exists span1, ggm_split span = Some span1 /\ length span1 = (2 ^ S k)%nat /\
    nth_error (firstn (2 ^ k) span1) 0 = Some (ggm_child s false) /\ nth_error (skipn (2 ^ k) span1) 0 = Some (ggm_child s true).
Proof.
  intros Hl Hs. unfold ggm_split, GgmPrg. rewrite Hs, Hl, pow_half. pose proof (GgmOut_ok s true) as T. pose proof (GgmOut_ok s false) as F. cbn [Z.b2z] in T, F.
  assert (P : (0 < 2 ^ k)%nat) by (apply Nat.neq_0_lt_0, Nat.pow_nonzero; lia). assert (2 ^ S k = 2 ^ k + 2 ^ k)%nat by (cbn [Nat.pow]; lia).
  destruct (nth_error span (2 ^ k)) as [x|] eqn:E; [|apply nth_error_None in E; lia]. rewrite F, T. eexists. split; [reflexivity|].
  rewrite !length_upd. split; [exact Hl|]. destruct span as [|y span]; [discriminate|]. destruct (2 ^ k)%nat as [|h] eqn:Eh; [lia|]. cbn [upd firstn skipn].
  split; [reflexivity|]. rewrite nth_error_skipn, Nat.add_0_r. cbn [length] in Hl.
  rewrite (nth_error_nth' _ 0) by (rewrite length_upd; lia). f_equal. rewrite nth_upd, Nat.eqb_refl. now destruct (Nat.ltb_spec h (length span)); [|lia].
Qed.

Lemma expand_ok M p k : (M <= 128)%nat -> forall i fuel span s m, (i + k = M)%nat -> (k < fuel)%nat -> length span = (2 ^ k)%nat -> nth_error span 0 = Some s ->
  exists span', GgmExpandAndPunc fuel M span p m = Some (span', m ∪ beside (low_bit p) i k s) /\ length span' = (2 ^ k)%nat.
Proof.
  intros HM. induction k as [|k IH]; intros i fuel span s m Hi Hf Hl Hs; (destruct fuel as [|fuel]; [lia|]); cbn [GgmExpandAndPunc]; rewrite Hl.
  - cbn [beside]. exists span. rewrite map_union_empty. now split.
  - rewrite Nat.log2_pow2, pow_half by lia. replace (M - S k)%nat with i by lia. pose proof (Nat.pow_nonzero 2 k ltac:(lia)).
    assert (H2 : (2 ^ S k = 2 ^ k + 2 ^ k)%nat) by (cbn [Nat.pow]; lia). destruct (Nat.ltb_spec 1 (2 ^ S k)); [|lia].
    destruct (split_span k span s Hl Hs) as (span1 & -> & L1 & N0 & N1). rewrite GetBit_ok by lia. fold (low_bit p i). cbn [beside].
    assert (Lf : length (firstn (2 ^ k) span1) = (2 ^ k)%nat) by (rewrite length_firstn; lia).
    assert (Ls : length (skipn (2 ^ k) span1) = (2 ^ k)%nat) by (rewrite length_skipn; lia).
    destruct (low_bit p i) eqn:B; cbn [negb].
    + assert (E0 : nth_error span1 0 = Some (ggm_child s false)) by (rewrite <- (firstn_skipn (2 ^ k) span1), nth_error_app1 by lia; exact N0). rewrite E0.
      destruct (IH (S i) fuel (firstn (2 ^ k) (skipn (2 ^ k) span1)) (ggm_child s true) (map_insert m i (ggm_child s false)) ltac:(lia) ltac:(lia)) as (r & -> & Lr);
        [rewrite firstn_all2 by lia; exact Ls|rewrite firstn_all2 by lia; exact N1|].
      exists (firstn (2 ^ k) span1 ++ r ++ skipn (2 ^ k + 2 ^ k) span1). split; [|rewrite !length_app, length_skipn; lia].
      rewrite map_insert_union, insert_union_singleton_l. now rewrite (assoc_L (∪)).
    + destruct (IH (S i) fuel (firstn (2 ^ k) span1) (ggm_child s false) m ltac:(lia) ltac:(lia) Lf N0) as (l & -> & Ll).
      rewrite nth_error_app2, Ll, Nat.sub_diag, N1 by lia. exists (l ++ skipn (2 ^ k) span1). split; [|rewrite length_app; lia].
      rewrite map_insert_union, insert_union_singleton_r; [now rewrite (assoc_L (∪))|]. rewrite beside_lookup. now destruct (Nat.leb_spec (S i) i); [lia|].
Qed.

(** The vector of leaves, its first element the key. *)
Lemma punc_vector M key : (M <= 30)%nat -> exists num v, punc_num M = Some num /\ vector_of num = Some v /\
  length (upd v 0 key) = (2 ^ M)%nat /\ nth_error (upd v 0 key) 0 = Some key.
Proof.
  intros HM. assert (B : 2 ^ Z.of_nat M <= 2 ^ 30) by (apply Z.pow_le_mono_r; lia). assert (P : 0 < 2 ^ Z.of_nat M) by lia.
  exists (2 ^ Z.of_nat M), (repeat 0%Z (Z.to_nat (2 ^ Z.of_nat M))).
  unfold punc_num, vector_of. destruct (Nat.eqb_spec M 64); [lia|]. destruct (Nat.ltb_spec M 32); [|lia].
  rewrite Z.shiftl_1_l. unfold i32. rewrite swrap_small by lia. rewrite u64_small by lia. split; [reflexivity|].
  destruct (Z.leb_spec (2 ^ Z.of_nat M) ((2 ^ 63 - 1) / 16)) as [_|X]; [|exfalso; assert (2 ^ 30 < (2 ^ 63 - 1) / 16) by reflexivity; lia]. split; [reflexivity|].
  assert (E : Z.to_nat (2 ^ Z.of_nat M) = (2 ^ M)%nat) by (rewrite <- (Nat2Z.id (2 ^ M)), Nat2Z.inj_pow; reflexivity). rewrite E.
  rewrite length_upd, repeat_length. split; [reflexivity|]. pose proof (Nat.pow_nonzero 2 M ltac:(lia)). now destruct (2 ^ M)%nat.
Qed.

Lemma PprfPunc_ok M N key p out : (M <= 30)%nat ->
  PprfPunc M N key p out = Some (PuncKey (GetVal (Z.of_nat M) p) (seeds out ∪ beside (low_bit p) 0 M key)).
Proof.
  intros HM. unfold PprfPunc. destruct (punc_vector M key HM) as (num & v & -> & -> & Hl & Hs).
  destruct (expand_ok M p M ltac:(lia) 0 (M + 1) (upd v 0 key) key (seeds out) eq_refl ltac:(lia) Hl Hs) as (span & -> & _). reflexivity.
Qed.

Lemma PprfPunc_large M N key p out : (31 <= M <= 64)%nat -> PprfPunc M N key p out = None.
Proof.
  intros HM. unfold PprfPunc, punc_num. destruct (Nat.eqb_spec M 64); [reflexivity|]. destruct (Nat.ltb_spec M 32); [|reflexivity].
  now replace M with 31%nat by lia.
Qed.

(** *** Evaluation off the point *)

Lemma walk_snoc b k : forall i s, walk b i (k + 1) s = ggm_child (walk b i k s) (b (i + k)%nat).
Proof.
  induction k as [|k IH]; intros i s; [cbn; now rewrite Nat.add_0_r|]. cbn [Nat.add walk]. rewrite IH. do 2 f_equal. lia.
Qed.

Lemma walk_ext b c k : forall i s, (forall j, (i <= j < i + k)%nat -> b j = c j) -> walk b i k s = walk c i k s.
Proof.
  induction k as [|k IH]; intros i s H; [reflexivity|]. cbn [walk]. rewrite H by lia. apply IH. intros j Hj. apply H. lia.
Qed.

(** The state of the loop after [i] levels. *)
Lemma punc_eval_loop pk key x M : (M <= 128)%nat -> (forall j, (j < M)%nat -> seeds pk !! j = Some (ggm_child (walk (low_bit (punc_point pk)) 0 j key) (negb (low_bit (punc_point pk) j)))) ->
  foldM (punc_eval_level pk x) (seq 0 M) (true, false, 0) =
  let a := agree (low_bit x) (low_bit (punc_point pk)) 0 M in
  Some (a, negb a, if a then 0 else walk (low_bit x) 0 M key).
Proof.
  intros HM Hs. set (p := low_bit (punc_point pk)) in *. set (b := low_bit x).
  set (st := fun i => let a := agree b p 0 i in (a, negb a, if a then 0 else walk b 0 i key)).
  change (foldM (punc_eval_level pk x) (seq 0 M) (st 0%nat) = Some (st M)). apply foldM_states. intros i Hi. unfold st, punc_eval_level.
  assert (AS : forall n o, agree b p o (n + 1) = agree b p o n && eqb (b (o + n)%nat) (p (o + n)%nat)).
  { induction n as [|n IH]; intros o; cbn [Nat.add agree]; [now rewrite Nat.add_0_r, andb_true_r|]. rewrite IH, andb_assoc. do 2 f_equal; f_equal; lia. }
  rewrite !GetBit_ok by lia. fold (low_bit x i). fold (low_bit (punc_point pk) i). fold b p. rewrite <- (Nat.add_1_r i), AS, Nat.add_0_l, walk_snoc, Nat.add_0_l.
  destruct (agree b p 0 i) eqn:A; cbn [andb negb].
  - destruct (eqb (b i) (p i)) eqn:E; cbn [negb]; [reflexivity|]. apply eqb_false_iff in E. rewrite Hs by exact Hi. rewrite (neq_negb _ _ E). do 3 f_equal.
    apply walk_ext. intros j Hj. assert (AG : forall n o, agree b p o n = true -> forall j, (o <= j < o + n)%nat -> b j = p j).
    { induction n as [|n IH]; intros o Ho j' Hj'; [lia|]. cbn [agree] in Ho. apply andb_true_iff in Ho as [H1 H2]. apply eqb_prop in H1.
      destruct (Nat.eq_dec j' o) as [->|]; [exact H1|]. apply (IH (S o) H2). lia. }
    symmetry. now apply (AG i 0%nat).
  - rewrite ggm_step_ok. reflexivity.
Qed.

(** *** The full expansion: leaf [x] of the tree, whose path is read from the top *)

Lemma walk_shift b k : forall i s, walk b (S i) k s = walk (fun j => b (S j)) i k s.
Proof. induction k as [|k IH]; intros i s; cbn [walk]; [reflexivity|]. apply IH. Qed.

Lemma GgmFullExpand_ok k : forall fuel span s, (k < fuel)%nat -> length span = (2 ^ k)%nat -> nth_error span 0 = Some s ->
  exists l, GgmFullExpand fuel span = Some l /\ length l = (2 ^ k)%nat /\
    forall x, (x < 2 ^ k)%nat -> nth_error l x = Some (walk (high_bit k (Z.of_nat x)) 0 k s).
Proof.
  induction k as [|k IH]; intros fuel span s Hf Hl Hs; (destruct fuel as [|fuel]; [lia|]); cbn [GgmFullExpand]; rewrite Hl.
  - exists span. split; [reflexivity|]. split; [exact Hl|]. intros x Hx. now replace x with 0%nat by (cbn in Hx; lia).
  - rewrite pow_half. pose proof (Nat.pow_nonzero 2 k ltac:(lia)). assert (H2 : (2 ^ S k = 2 ^ k + 2 ^ k)%nat) by (cbn [Nat.pow]; lia).
    destruct (Nat.ltb_spec 1 (2 ^ S k)); [|lia]. destruct (split_span k span s Hl Hs) as (span1 & -> & L1 & N0 & N1).
    destruct (IH fuel (firstn (2 ^ k) span1) (ggm_child s false) ltac:(lia) ltac:(rewrite length_firstn; lia) N0) as (l & -> & Ll & Al).
    rewrite (firstn_all2 (skipn _ _)) by (rewrite length_skipn; lia).
    destruct (IH fuel (skipn (2 ^ k) span1) (ggm_child s true) ltac:(lia) ltac:(rewrite length_skipn; lia) N1) as (r & -> & Lr & Ar).
    rewrite skipn_all2, app_nil_r by lia. exists (l ++ r). split; [reflexivity|]. split; [rewrite length_app; lia|]. intros x Hx.
    assert (P2 : Z.of_nat (2 ^ k) = 2 ^ Z.of_nat k) by (now rewrite Nat2Z.inj_pow).
    assert (T : high_bit (S k) (Z.of_nat x) 0 = (2 ^ k <=? x)%nat).
    { unfold high_bit. replace (S k - 0 - 1)%nat with k by lia. apply Z.b2z_inj. rewrite Z.testbit_spec' by lia. rewrite <- P2, <- Nat2Z.inj_div.
      destruct (Nat.leb_spec (2 ^ k) x) as [G|G].
      - replace (x / 2 ^ k)%nat with 1%nat; [reflexivity|]. apply Nat.div_unique with (x - 2 ^ k)%nat; lia.
      - now rewrite Nat.div_small by lia. }
    cbn [walk]. rewrite walk_shift, T. destruct (Nat.leb_spec (2 ^ k) x) as [G|G].
    + rewrite nth_error_app2 by lia. rewrite Ll, Ar by lia. f_equal. apply walk_ext. intros j Hj. unfold high_bit. replace (S k - S j - 1)%nat with (k - j - 1)%nat by lia.
      rewrite Nat2Z.inj_sub, P2 by exact G. rewrite <- (Z.mod_pow2_bits_low (Z.of_nat x) (Z.of_nat k)) by lia.
      rewrite <- (Z.mod_pow2_bits_low (Z.of_nat x - _) (Z.of_nat k)) by lia. f_equal. replace (Z.of_nat x) with (Z.of_nat x - 2 ^ Z.of_nat k + 1 * 2 ^ Z.of_nat k) at 2 by lia.
      now rewrite Z.mod_add by lia.
    + rewrite nth_error_app1 by lia. now rewrite Al by lia.
Qed.
End PprfTree.
