(* ===== verification/IknpOte.v ===== *)
(** The IKNP extension of oblivious transfers ([ot/iknp_ote]) over the stores of the
    base transfers, and its correctness for honest parties. *)
From Stdlib Require Import ZArith Lia List Bool.
From S2P Require Import Prelude.
From S2P Require Import Errors.
From S2P Require Import Int128.
From S2P Require Import Transpose.
From S2P Require Import Cipher.
From S2P Require Import CrHash.
From S2P Require Import Bitset.
From S2P Require Import OtStore.
From S2P Require Import OtExt.
Import ListNotations.

Definition kKappa : nat := 128.

Section Code.
Context {C : Cipher} (sse2 : bool).

Definition XorBatchedBlock (in_ : list Z) (block : Z) : list Z := map (fun x => Z.lxor x block) in_.

(** Copying a message into an array of 128 blocks; of another size it leaves a part
    of the array unset or writes past it. *)
Definition memcpy_blocks (buf : list Z) : option (list Z) :=
  if (length buf =? 128 * 16)%nat then Some (to_blocks 128 buf) else None.

Definition iknp_send_batch (h : heap) (base_ot : OtRecvStore) (ts : list (list Z)) (cot : bool)
    (st : list (Z * Z) * channel) (i : nat) : option (list (Z * Z) * channel) :=
  let '(send_blocks, ch) := st in
  let batch_offset := (i * kBatchSize / 128)%nat in
  let? (buf, ch) := ctx_Recv ch (IKNP i) in
  let? batch0 := memcpy_blocks buf in
  let? batch0 := mapM (fun k =>
    let? c := recv_GetChoice h base_ot (Z.of_nat k) in
    let t := at_ (nth k ts []) batch_offset in
    Some (if negb (c =? 0) then Z.lxor (at_ batch0 k) t else t)) (seq 0 kKappa) in
  let batch0 := MatrixTranspose128 sse2 batch0 in
  let? tmp_choice := recv_CopyBitBuf h base_ot in
  let? block := nth_error (m_blocks tmp_choice) 0 in
  let batch1 := XorBatchedBlock batch0 block in
  let? batch0 := if negb cot then ParaCrHashInplace_128 batch0 else Some batch0 in
  let? batch1 := if negb cot then ParaCrHashInplace_128 batch1 else Some batch1 in
  Some (write_batch send_blocks i (batch_limit (length send_blocks) i) (fun j => (at_ batch0 j, at_ batch1 j)), ch).

Definition IknpOtExtSend (world_size : nat) (h : heap) (base_ot : OtRecvStore) (send_blocks : list (Z * Z)) (cot : bool) (ch : channel)
  : option (list (Z * Z) * channel) :=
  YACL_ENFORCE (world_size =? 2)%nat
    (YACL_ENFORCE (recv_Size base_ot =? Z.of_nat kKappa)
    (YACL_ENFORCE (negb (length send_blocks =? 0)%nat)
    (YACL_ENFORCE (negb (IsSliced (r_slice base_ot)))
      (let batch_num := batches (length send_blocks) in
       let block_num := (batch_num * kBatchSize / 128)%nat in
       let? ts := mapM (fun k => let? seed := recv_GetBlock h base_ot (Z.of_nat k) in PrgAesCtr 16 seed block_num) (seq 0 kKappa) in
       foldM (iknp_send_batch h base_ot ts cot) (seq 0 block_num) (send_blocks, ch))))).

Definition iknp_recv_batch (t0 t1 : list (list Z)) (choices_copy : dynamic_bitset) (cot : bool)
    (st : list Z * channel) (i : nat) : option (list Z * channel) :=
  let '(recv_blocks, ch) := st in
  let batch_offset := (i * kBatchSize / 128)%nat in
  let? batch_choice := nth_error (m_blocks choices_copy) i in
  let batch_data := map (fun k => Z.lxor (Z.lxor (at_ (nth k t0 []) batch_offset) (at_ (nth k t1 []) batch_offset)) batch_choice) (seq 0 kKappa) in
  let batch := map (fun k => at_ (nth k t0 []) batch_offset) (seq 0 kKappa) in
  let ch := SendAsync ch (IKNP i) (to_bytes batch_data) in
  let batch := MatrixTranspose128 sse2 batch in
  let? batch := if negb cot then ParaCrHashInplace_128 batch else Some batch in
  Some (write_batch recv_blocks i (batch_limit (length recv_blocks) i) (fun j => at_ batch j), ch).

Definition IknpOtExtRecv (world_size : nat) (h : heap) (base_ot : OtSendStore) (choices : dynamic_bitset) (recv_blocks : list Z)
    (cot : bool) (ch : channel) : option (list Z * channel) :=
  YACL_ENFORCE (world_size =? 2)%nat
    (YACL_ENFORCE (send_Size base_ot =? Z.of_nat kKappa)
    (YACL_ENFORCE (length recv_blocks =? size choices)%nat
    (YACL_ENFORCE (negb (length recv_blocks =? 0)%nat)
    (YACL_ENFORCE (negb (IsSliced (s_slice base_ot)))
      (let batch_num := batches (length recv_blocks) in
       let block_num := (batch_num * kBatchSize / 128)%nat in
       let? t0 := mapM (fun k => let? seed := send_GetBlock h base_ot (Z.of_nat k) 0 in PrgAesCtr 16 seed block_num) (seq 0 kKappa) in
       let? t1 := mapM (fun k => let? seed := send_GetBlock h base_ot (Z.of_nat k) 1 in PrgAesCtr 16 seed block_num) (seq 0 kKappa) in
       let choices_copy := resize 128 choices (batch_num * kBatchSize) false in
       foldM (iknp_recv_batch t0 t1 choices_copy cot) (seq 0 batch_num) (recv_blocks, ch)))))).
End Code.

(** ** Correctness *)

Lemma batch_index i : (i * kBatchSize / 128 = i)%nat.
Proof. now apply Nat.div_mul. Qed.

Lemma position_split n : (n / 128 * 128 + n mod 128 = n)%nat /\ (n mod 128 < 128)%nat.
Proof. pose proof (Nat.div_mod n 128 ltac:(lia)). pose proof (Nat.mod_upper_bound n 128 ltac:(lia)). lia. Qed.

Lemma nth_columns {A} (f : nat -> A) k d : (k < 128)%nat -> nth k (map f (seq 0 kKappa)) d = f k.
Proof. apply nth_map_seq. Qed.

Section Honest.
Context {C : Cipher} {L : CipherLaws C} (sse2 : bool).
Context (h : heap) (r : OtRecvStore) (s : OtSendStore).
Context (r_ok : recv_ok h r) (s_ok : send_ok h s) (r_128 : recv_Size r = 128) (s_128 : send_Size s = 128).
Context (base : correlated (send_view h s) (recv_view h r)).
Context (choices : dynamic_bitset) (num : nat) (choices_wf : wf 128 choices) (choices_num : size choices = num) (num_pos : (0 < num)%nat).

#[local] Abbreviation B := (batches num).
#[local] Abbreviation Choice := (choice h r).
#[local] Abbreviation Key0 := (key0 h s).
#[local] Abbreviation Key1 := (key1 h s).
#[local] Abbreviation Delta := (delta_of h r).

Context (s_whole : IsSliced (s_slice s) = false) (r_whole : IsSliced (r_slice r) = false).

Definition columns_of (key : nat -> Z) : list (list Z) := map (fun k => prg_blocks (key k) B) (seq 0 kKappa).
(** Columns of batch [i]: the receiver's, the message's and the sender's. *)
Definition col0 (i k : nat) : Z := at_ (prg_blocks (Key0 k) B) i.
Definition col1 (i k : nat) : Z := at_ (prg_blocks (Key1 k) B) i.
Definition padded : dynamic_bitset := resize 128 choices (B * kBatchSize) false.
Definition choice_col (i : nat) : Z := at_ (m_blocks padded) i.
Definition message (i : nat) : list Z := columns (fun k => Z.lxor (Z.lxor (col0 i k) (col1 i k)) (choice_col i)).

(** Row [j] of batch [i] on the receiver's side, and output [n]. *)
Definition row (i j : nat) : Z := at_ (transpose (columns (col0 i))) j.
Definition out_hash (cot : bool) (x : Z) : Z := if cot then x else cr x.
Definition recv_out (cot : bool) (n : nat) : Z := out_hash cot (row (n / 128) (n mod 128)).
Definition send_out (cot : bool) (n : nat) : Z * Z :=
  let q := Z.lxor (row (n / 128) (n mod 128)) (mask_if (bit_at 128 choices n) Delta) in
  (out_hash cot q, out_hash cot (Z.lxor q Delta)).

Lemma hash_batch cot l : (if negb cot then ParaCrHashInplace_128 l else Some l) = Some (map (out_hash cot) l).
Proof. destruct cot; cbn [negb]; [now rewrite map_id|apply ParaCrHashInplace_ok]. Qed.

Lemma at_hash cot l j : (j < length l)%nat -> at_ (map (out_hash cot) l) j = out_hash cot (at_ l j).
Proof. intros H. unfold at_. rewrite (nth_indep _ 0 (out_hash cot 0)) by now rewrite length_map. apply map_nth. Qed.

Lemma col0_in i k : in128 (col0 i k).
Proof. apply prg_blocks_at. Qed.

Lemma col1_in i k : in128 (col1 i k).
Proof. apply prg_blocks_at. Qed.

Lemma padded_ok : wf 128 padded /\ length (m_blocks padded) = B.
Proof.
  destruct (resize_ok 128 pos128 choices (B * kBatchSize) false choices_wf) as (W & N & _). split; [exact W|].
  destruct W as [Wl _]. unfold padded. rewrite Wl, N. unfold kBatchSize. rewrite blocks_required_exact by (apply pos128 || apply Nat.Div0.mod_mul). now apply Nat.div_mul.
Qed.

Lemma choice_col_in i : in128 (choice_col i).
Proof. apply (at_ok 128 pos128). apply padded_ok. Qed.

Lemma choice_col_bit i j : (j < 128)%nat ->
  Z.testbit (choice_col i) (Z.of_nat j) = ((i * 128 + j <? num)%nat && bit_at 128 choices (i * 128 + j)).
Proof.
  intros Hj. unfold choice_col. rewrite <- (bit_at_split 128 pos128 padded) by exact Hj. unfold padded.
  destruct (resize_ok 128 pos128 choices (B * kBatchSize) false choices_wf) as (_ & _ & ->). unfold bit_resize. fold (size choices). rewrite choices_num.
  pose proof (batches_bound num) as Bd. unfold kBatchSize.
  destruct (Nat.ltb_spec (i * 128 + j) num); cbn [andb]; [|now destruct (_ <? _)%nat].
  destruct (Nat.ltb_spec (i * 128 + j) (B * 128)); [reflexivity|lia].
Qed.

(** *** The receiver *)

Definition recv_batch (cot : bool) (i j : nat) : Z := at_ (map (out_hash cot) (transpose (columns (col0 i)))) j.

Lemma recv_step cot rb ch i : length rb = num -> (i < B)%nat ->
  iknp_recv_batch sse2 (columns_of Key0) (columns_of Key1) padded cot (fill (recv_batch cot) i rb, ch) i =
  Some (fill (recv_batch cot) (S i) rb, SendAsync ch (IKNP i) (to_bytes (message i))).
Proof.
  intros Lr Hi. unfold iknp_recv_batch. rewrite batch_index.
  rewrite (nth_error_nth' (m_blocks padded) 0) by (rewrite (proj2 padded_ok); exact Hi). cbv zeta.
  assert (E0 : map (fun k => at_ (nth k (columns_of Key0) []) i) (seq 0 kKappa) = columns (col0 i)).
  { apply map_ext_in. intros k Hk. apply in_seq in Hk. unfold columns_of. now rewrite nth_columns by (unfold kKappa in Hk; lia). }
  assert (Em : map (fun k => Z.lxor (Z.lxor (at_ (nth k (columns_of Key0) []) i) (at_ (nth k (columns_of Key1) []) i)) (nth i (m_blocks padded) 0)) (seq 0 kKappa) = message i).
  { apply map_ext_in. intros k Hk. apply in_seq in Hk. unfold columns_of. now rewrite !nth_columns by (unfold kKappa in Hk; lia). }
  rewrite E0, Em, MatrixTranspose128_ok by (apply columns_matrix; intros; apply col0_in). rewrite hash_batch.
  assert (Lf : length (fill (recv_batch cot) i rb) = num).
  { rewrite <- Lr. apply (fill_nth _ 0). rewrite Lr. lia. }
  rewrite Lf, fill_S by (rewrite Lr; lia). now rewrite Lr.
Qed.

Lemma recv_run cot rb : length rb = num -> IknpOtExtRecv sse2 2 h s choices rb cot [] =
  Some (map (recv_out cot) (seq 0 num), map (fun i => (IKNP i, to_bytes (message i))) (seq 0 B)).
Proof.
  intros Lr. unfold IknpOtExtRecv, YACL_ENFORCE. change (Z.of_nat kKappa) with 128. rewrite s_128, Lr, choices_num, s_whole, !Nat.eqb_refl, Z.eqb_refl.
  destruct (Nat.eqb_spec num 0); [lia|]. cbn [negb]. cbv zeta. rewrite batch_index.
  rewrite (mapM_some _ (fun k => prg_blocks (Key0 k) B)).
  2:{ intros k Hk. apply in_seq in Hk. rewrite (send_block_at h s s_ok s_128) by (auto; unfold kKappa in Hk; lia). apply prg_blocks_ok. }
  rewrite (mapM_some _ (fun k => prg_blocks (Key1 k) B)).
  2:{ intros k Hk. apply in_seq in Hk. rewrite (send_block_at h s s_ok s_128) by (auto; unfold kKappa in Hk; lia). apply prg_blocks_ok. }
  assert (F : foldM (iknp_recv_batch sse2 (columns_of Key0) (columns_of Key1) padded cot) (seq 0 B) (rb, []) =
    Some (fill (recv_batch cot) B rb, map (fun i => (IKNP i, to_bytes (message i))) (seq 0 B))).
  { apply (foldM_states _ (fun i => (fill (recv_batch cot) i rb, map (fun i => (IKNP i, to_bytes (message i))) (seq 0 i)))).
    intros i Hi. rewrite seq_S, map_app. exact (recv_step cot rb _ i Lr Hi). }
  etransitivity; [exact F|]. do 2 f_equal. pose proof (fill_all (recv_batch cot) rb) as Fa. rewrite Lr in Fa. rewrite Fa. apply map_ext. intros n0.
  apply at_hash. destruct (transpose_matrix (columns (col0 (n0 / 128)))) as [Lt _]. rewrite Lt. apply position_split.
Qed.

(** *** The sender *)

(** The sender's columns in batch [i], and its rows. *)
Definition col_s (i k : nat) : Z := Z.lxor (col0 i k) (mask_if (Choice k) (choice_col i)).
Definition rows_s (i : nat) : list Z := transpose (columns (col_s i)).
Definition send_batch (cot : bool) (i j : nat) : Z * Z :=
  (at_ (map (out_hash cot) (rows_s i)) j, at_ (map (out_hash cot) (XorBatchedBlock (rows_s i) Delta)) j).

Lemma mask_in b x : in128 x -> in128 (mask_if b x).
Proof. intros H. destruct b; [exact H|]. split; [cbn; lia|reflexivity]. Qed.

Lemma col_s_in i k : in128 (col_s i k).
Proof. apply lxor_in128; [apply col0_in|apply mask_in, choice_col_in]. Qed.

Lemma message_in i : Forall in128 (message i) /\ length (message i) = 128%nat.
Proof.
  destruct (columns_matrix (fun k => Z.lxor (Z.lxor (col0 i k) (col1 i k)) (choice_col i))) as [E F]; [|now split].
  intros k _. repeat apply lxor_in128; auto using col0_in, col1_in, choice_col_in.
Qed.

(** The message opens to the sender's column, under the key it has. *)
Lemma open_column i k : let t := if Choice k then col1 i k else col0 i k in
  (k < 128)%nat -> (if negb (Z.b2z (Choice k) =? 0) then Z.lxor (at_ (message i) k) t else t) = col_s i k.
Proof.
  cbv zeta. intros Hk. unfold message, col_s, columns. rewrite at_map_seq by exact Hk. destruct (Choice k); cbn [Z.b2z Z.eqb negb mask_if]; [|now rewrite Z.lxor_0_r].
  lxor_bits.
Qed.

Lemma memcpy_message i : memcpy_blocks (to_bytes (message i)) = Some (message i).
Proof.
  destruct (message_in i) as [F E]. unfold memcpy_blocks. rewrite length_to_bytes, E, Nat.eqb_refl. f_equal. rewrite <- E at 1. now apply to_blocks_bytes.
Qed.

Lemma send_step cot sb ch i : length sb = num -> (i < B)%nat ->
  iknp_send_batch sse2 h r (columns_of (fun k => if Choice k then Key1 k else Key0 k)) cot (fill (send_batch cot) i sb, (IKNP i, to_bytes (message i)) :: ch) i =
  Some (fill (send_batch cot) (S i) sb, ch).
Proof.
  intros Ls Hi. unfold iknp_send_batch. rewrite batch_index, ctx_Recv_first, memcpy_message. cbv zeta.
  rewrite (mapM_some _ (col_s i)).
  2:{ intros k Hk. apply in_seq in Hk. unfold kKappa in Hk. rewrite (recv_choice_at h r r_ok r_128) by lia. f_equal.
      unfold columns_of. rewrite nth_columns by lia. rewrite <- open_column by lia. unfold col0, col1. now destruct (Choice k). }
  change (map (col_s i) (seq 0 kKappa)) with (columns (col_s i)). rewrite MatrixTranspose128_ok by (apply columns_matrix; intros; apply col_s_in).
  fold (rows_s i). destruct (delta_block h r r_ok r_128) as (b & -> & ->). rewrite !hash_batch.
  assert (Lf : length (fill (send_batch cot) i sb) = num).
  { rewrite <- Ls. apply (fill_nth _ (0, 0)). rewrite Ls. lia. }
  rewrite Lf, fill_S by (rewrite Ls; lia). now rewrite Ls.
Qed.

Lemma send_batch_out cot n : (n < num)%nat -> send_batch cot (n / 128) (n mod 128) = send_out cot n.
Proof.
  intros Hn. destruct (position_split n) as [E Lt]. set (i := (n / 128)%nat) in *. set (j := (n mod 128)%nat) in *.
  destruct (transpose_matrix (columns (col_s i))) as [Lr _]. unfold send_batch, send_out. cbv zeta. fold i j.
  assert (Er : at_ (rows_s i) j = Z.lxor (row i j) (mask_if (bit_at 128 choices n) Delta)).
  { unfold rows_s, col_s. rewrite (correlated_rows (col0 i) Choice) by (assumption || apply choice_col_in || (intros; apply col0_in)).
    rewrite choice_col_bit by exact Lt. rewrite E. destruct (Nat.ltb_spec n num); [reflexivity|lia]. }
  f_equal.
  - rewrite at_hash by (unfold rows_s; now rewrite Lr). now rewrite Er.
  - rewrite at_hash by (unfold XorBatchedBlock, rows_s; now rewrite length_map, Lr). f_equal. rewrite <- Er. unfold XorBatchedBlock, at_.
    rewrite (nth_indep _ 0 (Z.lxor 0 Delta)) by (unfold rows_s; now rewrite length_map, Lr). exact (map_nth (fun x => Z.lxor x Delta) (rows_s i) 0 j).
Qed.

Lemma send_run cot sb : length sb = num ->
  IknpOtExtSend sse2 2 h r sb cot (map (fun i => (IKNP i, to_bytes (message i))) (seq 0 B)) = Some (map (send_out cot) (seq 0 num), []).
Proof.
  intros Ls. unfold IknpOtExtSend, YACL_ENFORCE. change (Z.of_nat kKappa) with 128. rewrite r_128, Ls, r_whole, Nat.eqb_refl, Z.eqb_refl.
  destruct (Nat.eqb_spec num 0); [lia|]. cbn [negb]. cbv zeta. rewrite batch_index.
  rewrite (mapM_some _ (fun k => prg_blocks (if Choice k then Key1 k else Key0 k) B)).
  2:{ intros k Hk. apply in_seq in Hk. rewrite (recv_block_at h r s) by (assumption || (unfold kKappa in Hk; lia)). apply prg_blocks_ok. }
  assert (F : foldM (iknp_send_batch sse2 h r (columns_of (fun k => if Choice k then Key1 k else Key0 k)) cot) (seq 0 B)
      (sb, map (fun i => (IKNP i, to_bytes (message i))) (seq 0 B)) = Some (fill (send_batch cot) B sb, [])).
  { pose proof (foldM_states (iknp_send_batch sse2 h r (columns_of (fun k => if Choice k then Key1 k else Key0 k)) cot)
      (fun i => (fill (send_batch cot) i sb, map (fun i => (IKNP i, to_bytes (message i))) (seq i (B - i)))) B) as F.
    cbv beta in F. rewrite Nat.sub_0_r, Nat.sub_diag in F. apply F. intros i Hi. replace (B - i)%nat with (S (B - S i)) by lia. cbn [seq map]. now apply send_step. }
  etransitivity; [exact F|]. do 2 f_equal. pose proof (fill_all (send_batch cot) sb) as Fa. rewrite Ls in Fa. rewrite Fa.
  apply map_ext_in. intros p Hp. apply in_seq in Hp. apply send_batch_out. lia.
Qed.

(** The outputs are correlated by the choices. *)
Lemma outputs_correlated cot : correlated (map (send_out cot) (seq 0 num)) (combine (bits 128 choices) (map (recv_out cot) (seq 0 num))).
Proof.
  unfold bits. fold (size choices). rewrite choices_num.
  enough (forall m o, correlated (map (send_out cot) (seq o m)) (combine (map (bit_at 128 choices) (seq o m)) (map (recv_out cot) (seq o m)))) as G by apply G.
  induction m as [|m IH]; intros o; [constructor|].
  cbn [seq map combine]. constructor; [|apply IH]. cbn [fst snd]. unfold send_out, recv_out. cbv zeta. set (x := row _ _).
  destruct (bit_at 128 choices o); cbn [mask_if fst snd]; f_equal.
  - lxor_bits.
  - now rewrite Z.lxor_0_r.
Qed.

End Honest.
