(* ===== verification/KosOte.v ===== *)
(** The KOS extension of oblivious transfers ([ot/kos_ote]): IKNP with 64 more
    transfers and a check of the receiver's messages.  The two parties run in
    turns; the sender's seed is an argument, the packing of a seed a parameter. *)
From Stdlib Require Import ZArith Lia List Bool.
From S2P Require Import Prelude.
From S2P Require Import Errors.
From S2P Require Import Int128.
From S2P Require Import Transpose.
From S2P Require Import Gf2x.
From S2P Require Import Gf.
From S2P Require Import GfField.
From S2P Require Import Cipher.
From S2P Require Import Prg.
From S2P Require Import CrHash.
From S2P Require Import Bitset.
From S2P Require Import OtStore.
From S2P Require Import OtExt.
From S2P Require Import IknpOte.
Import ListNotations.

Definition kS : nat := 64.

Record CheckMsg := Check_ { x : Z; t : list Z }.
Definition Pack (m : CheckMsg) : list Z := to_le 8 (x m) ++ flat_map (to_le 8) (t m).
Definition Unpack (buf : list Z) : option CheckMsg :=
  if ((kKappa + 1) * 8 <=? length buf)%nat then Some (Check_ (le_val (firstn 8 buf)) (to_words 8 kKappa (skipn 8 buf))) else None.

(** [uint128_t] blocks read as [uint64_t]. *)
Definition words64 (l : list Z) : list Z := flat_map (fun b => [u64 b; b [>>] 64]) l.

Section Code.
Context {C : Cipher} (sse2 : bool).
Context (SerializeUint128 : Z -> list Z) (DeserializeUint128 : list Z -> option Z).

Definition VecXorMonochrome (in_ : list Z) (block : Z) : list Z := map (fun b => Z.lxor b block) in_.

Definition ExtendBaseOt_send (h : heap) (base_ot : OtSendStore) (block_num : nat) : option (list (list Z) * list (list Z)) :=
  let? l := mapM (fun k =>
    let? k0 := send_GetBlock h base_ot (Z.of_nat k) 0 in
    let? e0 := PrgAesCtr 16 k0 block_num in
    let? k1 := send_GetBlock h base_ot (Z.of_nat k) 1 in
    let? e1 := PrgAesCtr 16 k1 block_num in
    Some (e0, e1)) (seq 0 (Z.to_nat (send_Size base_ot))) in
  Some (map fst l, map snd l).
Definition ExtendBaseOt_recv (h : heap) (base_ot : OtRecvStore) (block_num : nat) : option (list (list Z)) :=
  mapM (fun k => let? key := recv_GetBlock h base_ot (Z.of_nat k) in PrgAesCtr 16 key block_num) (seq 0 (Z.to_nat (recv_Size base_ot))).

Fixpoint push_rand (n : nat) (gen : Prg bool 16) (b : dynamic_bitset) : option dynamic_bitset :=
  match n with
  | O => Some b
  | S n => let? (v, gen) := Prg_next gen in push_rand n gen (push_back 128 b v)
  end.
Definition ExtendChoice (choices : dynamic_bitset) (final_size : nat) : option dynamic_bitset :=
  let? choices_ext := push_rand kS (Prg_new 0 kAesEcb) choices in
  Some (resize 128 choices_ext final_size false).

(** The rows of a batched matrix, in a vector of [num] blocks. *)
Definition transpose_batches (ext : list (list Z)) (num batch_num : nat) : list Z :=
  fold_left (fun out i =>
    let offset := (i * kBatchSize / 128)%nat in
    let batch := MatrixTranspose128 sse2 (map (fun k => at_ (nth k ext []) offset) (seq 0 kKappa)) in
    write_batch out i (batch_limit num i) (fun j => at_ batch j)) (seq 0 batch_num) (repeat 0 num).

(** The inner product of a check. *)
Definition check_sum (rand_samples : list Z) (l : list Z) (batch_num : nat) : option Z :=
  let span := words64 l in
  if (2 * batch_num <=? length span)%nat then Gf64Mul_span rand_samples (firstn (2 * batch_num) span) else None.

(** *** The sender *)

Definition kos_recv_message (h : heap) (base_ot : OtRecvStore) (st : list (list Z) * channel) (i : nat)
  : option (list (list Z) * channel) :=
  let '(ot_ext, ch) := st in
  let offset := (i * kBatchSize / 128)%nat in
  let? (buf, ch) := ctx_Recv ch (KOS i) in
  let recv_msg := to_blocks (length buf / 16) buf in
  let? ot_ext := mapM (fun k =>
    let? c := recv_GetChoice h base_ot (Z.of_nat k) in
    let col := nth k ot_ext [] in
    if negb (c =? 0) then let? m := nth_error recv_msg k in Some (upd col offset (Z.lxor (at_ col offset) m))
    else Some col) (seq 0 kKappa) in
  Some (ot_ext, ch).

(** Up to the seed. *)
Definition KosOtExtSend_begin (world_size : nat) (h : heap) (base_ot : OtRecvStore) (ot_num_valid : nat) (ch : channel)
  : option (list (list Z) * channel) :=
  YACL_ENFORCE (world_size =? 2)%nat
    (YACL_ENFORCE (recv_Size base_ot =? Z.of_nat kKappa)
    (YACL_ENFORCE (negb (ot_num_valid =? 0)%nat)
      (let ot_num_ext := (ot_num_valid + kS)%nat in
       let batch_num := batches ot_num_ext in
       let block_num := (batch_num * kBatchSize / 128)%nat in
       let? ot_ext := ExtendBaseOt_recv h base_ot block_num in
       foldM (kos_recv_message h base_ot) (seq 0 batch_num) (ot_ext, ch)))).

(** [SyncSeedSend] *)
Definition SyncSeedSend (seed : Z) (ch : channel) : channel := SendAsync ch SyncSeed (SerializeUint128 seed).
Definition SyncSeedRecv (ch : channel) : option (Z * channel) :=
  let? (buf, ch) := ctx_Recv ch SyncSeed in let? seed := DeserializeUint128 buf in Some (seed, ch).

Definition kos_check_at (h : heap) (base_ot : OtRecvStore) (q_check : list Z) (m : CheckMsg) (k : nat) : option unit :=
  let? c := recv_GetChoice h base_ot (Z.of_nat k) in
  let result := if negb (c =? 0) then Z.lxor (at_ (t m) k) (x m) else at_ (t m) k in
  YACL_ENFORCE (result =? at_ q_check k) (Some tt).
Definition kos_check (h : heap) (base_ot : OtRecvStore) (q_check : list Z) (m : CheckMsg) : option unit :=
  let? _ := mapM (kos_check_at h base_ot q_check m) (seq 0 kKappa) in Some tt.

(** After the seed. *)
Definition KosOtExtSend_end (h : heap) (base_ot : OtRecvStore) (send_blocks : list (Z * Z)) (cot : bool) (ot_ext : list (list Z)) (seed : Z)
    (ch : channel) : option (list (Z * Z) * channel) :=
  let ot_num_valid := length send_blocks in
  let ot_num_ext := (ot_num_valid + kS)%nat in
  let batch_num := batches ot_num_ext in
  let? rand_samples := PrgAesCtr 8 seed (batch_num * 2) in
  let? q_check := mapM (fun k => check_sum rand_samples (nth k ot_ext []) batch_num) (seq 0 kKappa) in
  let? (buf, ch) := ctx_Recv ch KOS_CHECK in
  let? m := Unpack buf in
  let? _ := kos_check h base_ot q_check m in
  let q_ext := transpose_batches ot_ext ot_num_ext batch_num in
  let? choice := recv_CopyBitBuf h base_ot in
  let? delta := nth_error (m_blocks choice) 0 in
  let batch0 := vector_resize q_ext ot_num_valid 0 in
  let batch1 := VecXorMonochrome batch0 delta in
  let? batch0 := if negb cot then ParaCrHashInplace_128 batch0 else Some batch0 in
  let? batch1 := if negb cot then ParaCrHashInplace_128 batch1 else Some batch1 in
  Some (map (fun i => (at_ batch0 i, at_ batch1 i)) (seq 0 ot_num_valid), ch).

(** *** The receiver *)

(** What it keeps between the messages and the check: choices and columns. *)
Definition kos_state : Type := dynamic_bitset * (list (list Z) * list (list Z)).

Definition KosOtExtRecv_begin (world_size : nat) (h : heap) (base_ot : OtSendStore) (choices : dynamic_bitset) (ot_num_valid : nat) (ch : channel)
  : option (kos_state * channel) :=
  YACL_ENFORCE (world_size =? 2)%nat
    (YACL_ENFORCE (send_Size base_ot =? Z.of_nat kKappa)
    (YACL_ENFORCE (ot_num_valid =? size choices)%nat
    (YACL_ENFORCE (negb (ot_num_valid =? 0)%nat)
      (let ot_num_ext := (ot_num_valid + kS)%nat in
       let batch_num := batches ot_num_ext in
       let block_num := (batch_num * kBatchSize / 128)%nat in
       let? choice_ext := ExtendChoice choices (batch_num * kBatchSize) in
       let? ot_ext := ExtendBaseOt_send h base_ot block_num in
       let? ch := foldM (fun ch i =>
         let offset := (i * kBatchSize / 128)%nat in
         let? choice_slice := nth_error (m_blocks choice_ext) offset in
         let send_msg := map (fun k => Z.lxor (Z.lxor (at_ (nth k (fst ot_ext) []) offset) (at_ (nth k (snd ot_ext) []) offset)) choice_slice) (seq 0 kKappa) in
         Some (SendAsync ch (KOS i) (to_bytes send_msg))) (seq 0 batch_num) ch in
       Some ((choice_ext, ot_ext), ch))))).

(** [in_ch] holds the sender's message, [ch] goes to the sender. *)
Definition KosOtExtRecv_end (recv_blocks : list Z) (cot : bool) (st : kos_state) (in_ch ch : channel) : option (list Z * channel * channel) :=
  let '(choice_ext, ot_ext) := st in
  let ot_num_valid := length recv_blocks in
  let ot_num_ext := (ot_num_valid + kS)%nat in
  let batch_num := batches ot_num_ext in
  let? (seed, in_ch) := SyncSeedRecv in_ch in
  let? rand_samples := PrgAesCtr 8 seed (batch_num * 2) in
  let? cx := check_sum rand_samples (m_blocks choice_ext) batch_num in
  let? ct := mapM (fun k => check_sum rand_samples (nth k (fst ot_ext) []) batch_num) (seq 0 kKappa) in
  let ch := SendAsync ch KOS_CHECK (Pack (Check_ cx ct)) in
  let t_ext := transpose_batches (fst ot_ext) ot_num_ext batch_num in
  let t_ext := vector_resize t_ext ot_num_valid 0 in
  let? t_ext := if negb cot then ParaCrHashInplace_128 t_ext else Some t_ext in
  Some (map (fun i => at_ t_ext i) (seq 0 ot_num_valid), in_ch, ch).

(** *** A run of the two parties *)

Definition kos_run (h : heap) (r : OtRecvStore) (s : OtSendStore) (choices : dynamic_bitset) (seed : Z) (cot : bool)
    (send_blocks : list (Z * Z)) (recv_blocks : list Z) : option (list (Z * Z) * list Z) :=
  let? (st, ch) := KosOtExtRecv_begin 2 h s choices (length recv_blocks) [] in
  let? (ot_ext, ch) := KosOtExtSend_begin 2 h r (length send_blocks) ch in
  let in_ch := SyncSeedSend seed [] in
  let? (recv_blocks, _, ch) := KosOtExtRecv_end recv_blocks cot st in_ch ch in
  let? (send_blocks, _) := KosOtExtSend_end h r send_blocks cot ot_ext seed ch in
  Some (send_blocks, recv_blocks).
End Code.

(** ** The choices *)

Section Choices.
Context {C : Cipher} {L : CipherLaws C}.

Lemma push_rand_outputs n : forall gen l gen', Prg_outputs n gen = Some (l, gen') -> forall b, push_rand n gen b = Some (fold_left (push_back 128) l b).
Proof.
  induction n as [|n IH]; intros gen l gen' E b; cbn [Prg_outputs push_rand] in *; [now injection E as <- _|].
  destruct (Prg_next gen) as [[v g]|]; [|discriminate]. destruct (Prg_outputs n g) as [[l' g']|] eqn:E'; [|discriminate].
  injection E as <- _. exact (IH g l' g' E' _).
Qed.

Lemma push_zeros n b : wf 128 b -> let b' := fold_left (push_back 128) (repeat false n) b in
  wf 128 b' /\ size b' = (size b + n)%nat /\ forall p, bit_at 128 b' p = bit_at 128 b p.
Proof.
  revert b; induction n as [|n IH]; intros b W; cbn [repeat fold_left]; [now rewrite Nat.add_0_r|].
  destruct (push_back_ok 128 pos128 b false W) as (W' & N' & B'). destruct (IH _ W') as (W2 & N2 & B2).
  split; [exact W2|]. split; [unfold size in *; lia|]. intros p. rewrite B2, B'.
  destruct (Nat.eqb_spec p (m_bits_number b)) as [->|]; [|reflexivity]. destruct W as (_ & _ & Z0). now rewrite Z0.
Qed.

(** The choices followed by 64 zeros, not by random bits: a new generator of
    booleans starts with the zeros of its unfilled cache. *)
Definition choices_zeros (choices : dynamic_bitset) : dynamic_bitset := fold_left (push_back 128) (repeat false kS) choices.

Lemma rand_zeros choices : push_rand kS (Prg_new 0 kAesEcb) choices = Some (choices_zeros choices).
Proof.
  destruct (Prg_outputs_stream (BL := bool_laws 16 ltac:(lia) eq_refl) kS (Prg_new 0 kAesEcb)) as (p' & E & _).
  - refine (conj (bool_new_ok 16 ltac:(lia) eq_refl) (conj _ (conj _ _))); [|apply Z.le_refl|reflexivity].
    change (16 <= length (bits 128 (bitset_init 128 128 0)))%nat. rewrite length_bits. apply Nat.leb_le. reflexivity.
  - pose proof (push_rand_outputs _ _ _ _ E choices) as E2. etransitivity; [exact E2|]. unfold choices_zeros, remaining. rewrite bool_new_leftover.
    rewrite firstn_app, repeat_length. change (kS - 112)%nat with 0%nat. rewrite firstn_O, app_nil_r. change (firstn kS (repeat false 112)) with (repeat false kS). reflexivity.
Qed.

Lemma ExtendChoice_ok choices final : ExtendChoice choices final = Some (resize 128 (choices_zeros choices) final false).
Proof. unfold ExtendChoice. now rewrite rand_zeros. Qed.

Lemma choices_zeros_ok choices : wf 128 choices -> wf 128 (choices_zeros choices) /\ size (choices_zeros choices) = (size choices + kS)%nat /\
  forall p, bit_at 128 (choices_zeros choices) p = bit_at 128 choices p.
Proof. intros W. exact (push_zeros kS choices W). Qed.
End Choices.

(** ** Words *)

Lemma words64_in l : Forall in128 l -> Forall in64 (words64 l) /\ length (words64 l) = (2 * length l)%nat.
Proof.
  intros F. induction F as [|b l Hb F [IH IL]]; [now split|]. cbn [words64 flat_map app length]. fold (words64 l).
  split; [|lia]. constructor; [apply u64_in|]. constructor; [apply (shr_in b 64 64); [lia|lia|exact Hb]|exact IH].
Qed.

Lemma words64_lxor a b : words64 (zip_lxor a b) = zip_lxor (words64 a) (words64 b).
Proof.
  revert b; induction a as [|p a IH]; intros [|q b]; try reflexivity. cbn [zip_lxor words64 flat_map app]. fold (words64 a) (words64 b) (words64 (zip_lxor a b)).
  rewrite IH. f_equal; [|f_equal; apply Z.shiftr_lxor].
  unfold u64, uwrap. rewrite <- !Z.land_ones by lia. apply Z.bits_inj'. intros n Hn. rewrite !Z.land_spec, !Z.lxor_spec, !Z.land_spec.
  now destruct (Z.testbit p n), (Z.testbit q n), (Z.testbit (Z.ones 64) n).
Qed.

Lemma inner_zeros c n : Forall in64 c -> inner Gf64Mul c (repeat 0 n) = 0.
Proof.
  intros F. revert n; induction F as [|a c Ha F IH]; intros [|n]; try reflexivity. cbn [repeat inner]. rewrite IH, Z.lxor_0_r.
  apply (mul_0_r (mul := Gf64Mul) (n := 64) (P := P64)). exact Ha.
Qed.

Lemma check_sum_ok c l n : length c = (n * 2)%nat -> length l = n -> Forall in64 c -> Forall in128 l ->
  check_sum c l n = Some (inner Gf64Mul c (words64 l)).
Proof.
  intros Lc Ll Fc Fl. destruct (words64_in l Fl) as [Fw Lw]. unfold check_sum. rewrite Lw, Ll, Nat.leb_refl.
  rewrite firstn_all2 by lia. apply Gf64Mul_span_inner; [lia|exact Fc|exact Fw].
Qed.

(** The sum of a column that differs by the choices differs by their sum. *)
Lemma inner_mask c a r (b : bool) : length c = (2 * length a)%nat -> length a = length r -> Forall in64 c -> Forall in128 a -> Forall in128 r ->
  inner Gf64Mul c (words64 (zip_lxor a (if b then r else repeat 0 (length r)))) =
  Z.lxor (inner Gf64Mul c (words64 a)) (mask_if b (inner Gf64Mul c (words64 r))).
Proof.
  intros Lc La Fc Fa Fr. destruct (words64_in a Fa) as [Wa Na], (words64_in r Fr) as [Wr Nr].
  assert (Ez : words64 (repeat 0 (length r)) = repeat 0 (2 * length r)).
  { generalize (length r) as m. induction m as [|m IH]; [reflexivity|]. replace (2 * S m)%nat with (S (S (2 * m))) by lia. cbn [repeat words64 flat_map app].
    fold (words64 (repeat 0 m)). now rewrite IH. }
  assert (Fz : Forall in64 (repeat 0 (2 * length r))) by (apply Forall_forall; intros y Hy; apply repeat_spec in Hy as ->; split; [lia|reflexivity]).
  rewrite words64_lxor. destruct b; cbn [mask_if].
  - apply (inner_lxor_r Gf64Mul); (exact Fc || exact Wa || exact Wr || lia).
  - rewrite Ez. rewrite (inner_lxor_r Gf64Mul) by (exact Fc || exact Wa || exact Fz || (rewrite ?repeat_length; lia)). now rewrite inner_zeros by exact Fc.
Qed.

(** ** The messages *)

Section Honest.
Context {C : Cipher} {L : CipherLaws C} (sse2 : bool).
Context (h : heap) (r : OtRecvStore) (s : OtSendStore).
Context (r_ok : recv_ok h r) (s_ok : send_ok h s) (r_128 : recv_Size r = 128) (s_128 : send_Size s = 128).
Context (base : correlated (send_view h s) (recv_view h r)).
Context (choices : dynamic_bitset) (num : nat) (choices_wf : wf 128 choices) (choices_num : size choices = num) (num_pos : (0 < num)%nat).

#[local] Abbreviation N := (num + kS)%nat.
#[local] Abbreviation B := (batches N).
#[local] Abbreviation choices' := (choices_zeros choices).
#[local] Abbreviation Choice := (choice h r).
#[local] Abbreviation Key0 := (key0 h s).
#[local] Abbreviation Key1 := (key1 h s).
#[local] Abbreviation Delta := (delta_of h r).
#[local] Abbreviation c0 := (col0 h s N).
#[local] Abbreviation c1 := (col1 h s N).
#[local] Abbreviation cs := (col_s h r s choices' N).
#[local] Abbreviation r_col := (choice_col choices' N).
#[local] Abbreviation msg := (message h s choices' N).
#[local] Abbreviation KeyR := (fun k => if Choice k then Key1 k else Key0 k).

(** Columns as vectors, from their blocks. *)
Definition column (f : nat -> nat -> Z) (k : nat) : list Z := map (fun i => f i k) (seq 0 B).

Lemma prg_column key : prg_blocks key B = map (fun i => at_ (prg_blocks key B) i) (seq 0 B).
Proof. destruct (prg_blocks_ok key B) as (_ & E & _). symmetry. pose proof (map_nth_id (prg_blocks key B) 0) as M. rewrite E in M. exact M. Qed.

Lemma zeros_wf : wf 128 choices' /\ size choices' = N /\ (0 < N)%nat.
Proof. destruct (choices_zeros_ok choices choices_wf) as (W & E & _). rewrite choices_num in E. split; [exact W|]. split; [exact E|unfold kS; lia]. Qed.

Lemma ExtendBaseOt_send_ok : ExtendBaseOt_send h s B = Some (columns_of N Key0, columns_of N Key1).
Proof.
  unfold ExtendBaseOt_send. rewrite s_128. change (Z.to_nat 128) with 128%nat.
  rewrite (mapM_some _ (fun k => (prg_blocks (Key0 k) B, prg_blocks (Key1 k) B))).
  - unfold columns_of. now rewrite !map_map.
  - intros k Hk. apply in_seq in Hk. rewrite !(send_block_at h s) by (auto; lia). cbn [Z.eqb].
    destruct (prg_blocks_ok (Key0 k) B) as [-> _], (prg_blocks_ok (Key1 k) B) as [-> _]. reflexivity.
Qed.

Lemma ExtendBaseOt_recv_ok : ExtendBaseOt_recv h r B = Some (columns_of N KeyR).
Proof.
  unfold ExtendBaseOt_recv. rewrite r_128. change (Z.to_nat 128) with 128%nat. apply mapM_some.
  intros k Hk. apply in_seq in Hk. rewrite (recv_block_at h r s) by (assumption || (unfold kKappa in *; lia)). apply prg_blocks_ok.
Qed.

Lemma recv_begin : KosOtExtRecv_begin 2 h s choices num [] =
  Some ((padded choices' N, (columns_of N Key0, columns_of N Key1)), map (fun i => (KOS i, to_bytes (msg i))) (seq 0 B)).
Proof.
  unfold KosOtExtRecv_begin, YACL_ENFORCE. change (Z.of_nat kKappa) with 128. rewrite s_128, choices_num, !Nat.eqb_refl, Z.eqb_refl.
  destruct (Nat.eqb_spec num 0); [lia|]. cbn [negb]. cbv zeta. rewrite batch_index, ExtendChoice_ok, ExtendBaseOt_send_ok. fold (padded choices' N).
  set (f := fun (ch : channel) (i : nat) => _).
  assert (F : foldM f (seq 0 B) [] = Some (map (fun i => (KOS i, to_bytes (msg i))) (seq 0 B))).
  { apply (foldM_states f (fun i => map (fun i => (KOS i, to_bytes (msg i))) (seq 0 i))). intros i Hi. unfold f. rewrite batch_index.
    destruct zeros_wf as (W & _). rewrite (nth_error_nth' _ 0) by (rewrite (proj2 (padded_ok choices' N W)); exact Hi).
    rewrite seq_S, map_app. cbn [map Nat.add fst snd]. unfold SendAsync. 
    match goal with |- Some (_ ++ [(_, to_bytes ?l)]) = _ => replace l with (msg i); [reflexivity|] end. unfold message, columns.
    apply map_ext_in. intros k Hk. apply in_seq in Hk. unfold columns_of. rewrite !nth_columns by (unfold kKappa in Hk; lia). reflexivity. }
  now rewrite F.
Qed.

(** The sender's columns when [n] messages have come. *)
Definition opened (n : nat) : list (list Z) :=
  map (fun k => column (fun i k => if (i <? n)%nat then cs i k else if Choice k then c1 i k else c0 i k) k) (seq 0 kKappa).

Lemma opened_0 : opened 0 = columns_of N KeyR.
Proof. apply map_ext. intros k. rewrite prg_column. apply map_ext. intros i. cbn. now destruct (Choice k). Qed.

Lemma opened_all : opened B = map (column cs) (seq 0 kKappa).
Proof.
  apply map_ext. intros k. apply map_ext_in. intros i Hi. apply in_seq in Hi. destruct (Nat.ltb_spec i B); [reflexivity|lia].
Qed.

Lemma column_upd f k i v : (i < B)%nat -> upd (column f k) i v = map (fun j => if (j =? i)%nat then v else f j k) (seq 0 B).
Proof.
  intros Hi. assert (Lc : forall g : nat -> Z, length (map g (seq 0 B)) = B) by (intros g; now rewrite length_map, length_seq).
  apply (nth_ext _ _ 0 0); [unfold column; now rewrite length_upd, !Lc|]. intros j Hj. unfold column in Hj. rewrite length_upd, Lc in Hj.
  rewrite nth_upd_nat by (unfold column; now rewrite Lc). unfold column. rewrite !nth_map_seq by exact Hj. rewrite (Nat.eqb_sym i j).
  destruct (Nat.eqb_spec j i); reflexivity.
Qed.

Lemma recv_message_step i ch : (i < B)%nat ->
  kos_recv_message h r (opened i, (KOS i, to_bytes (msg i)) :: ch) i = Some (opened (S i), ch).
Proof.
  intros Hi. destruct zeros_wf as (W & _). destruct (message_in h s choices' N W i) as [Fm Lm].
  unfold kos_recv_message. rewrite batch_index, ctx_Recv_first. cbv zeta.
  rewrite length_to_bytes, (Nat.mul_comm 16), Nat.div_mul, to_blocks_bytes by (lia || exact Fm).
  rewrite (mapM_some _ (fun k => column (fun j k => if (j <? S i)%nat then cs j k else if Choice k then c1 j k else c0 j k) k)); [reflexivity|].
  intros k Hk. apply in_seq in Hk. unfold kKappa in Hk. rewrite (recv_choice_at h r r_ok r_128) by lia.
  unfold opened. rewrite nth_columns by lia. pose proof (open_column h r s choices' N i k ltac:(lia)) as O.
  destruct (Choice k) eqn:Ek; cbn [Z.b2z Z.eqb negb] in *; cbv beta iota zeta in O.
  - rewrite (nth_error_nth' _ 0) by lia. f_equal. rewrite column_upd by exact Hi. apply map_ext_in. intros j Hj. apply in_seq in Hj.
    destruct (Nat.eqb_spec j i) as [->|Hne].
    + destruct (Nat.ltb_spec i (S i)); [|lia]. rewrite <- O. rewrite Z.lxor_comm. f_equal. unfold column. rewrite at_map_seq by exact Hi.
      rewrite Nat.ltb_irrefl, Ek. reflexivity.
    + rewrite Ek. destruct (Nat.ltb_spec j i), (Nat.ltb_spec j (S i)); try reflexivity; lia.
  - f_equal. apply map_ext_in. intros j Hj. rewrite Ek. destruct (Nat.ltb_spec j i), (Nat.ltb_spec j (S i)); try reflexivity; try lia.
    assert (j = i) as -> by lia. exact O.
Qed.

Lemma send_begin : KosOtExtSend_begin 2 h r num (map (fun i => (KOS i, to_bytes (msg i))) (seq 0 B)) = Some (opened B, []).
Proof.
  unfold KosOtExtSend_begin, YACL_ENFORCE. change (Z.of_nat kKappa) with 128. rewrite r_128, Nat.eqb_refl, Z.eqb_refl.
  destruct (Nat.eqb_spec num 0); [lia|]. cbn [negb]. cbv zeta. rewrite batch_index, ExtendBaseOt_recv_ok, <- opened_0.
  pose proof (foldM_states (kos_recv_message h r) (fun i => (opened i, map (fun i => (KOS i, to_bytes (msg i))) (seq i (B - i)))) B) as F.
  cbv beta in F. rewrite Nat.sub_0_r, Nat.sub_diag in F. apply F. intros i Hi. replace (B - i)%nat with (S (B - S i)) by lia. now apply recv_message_step.
Qed.
(** ** The check *)

(** It passes exactly when the sums agree. *)
Lemma kos_check_ok q m : kos_check h r q m = Some tt <->
  forall k, (k < 128)%nat -> Z.lxor (at_ (t m) k) (mask_if (Choice k) (x m)) = at_ q k.
Proof.
  assert (G : forall ks, Forall (fun k => (k < 128)%nat) ks ->
    mapM (kos_check_at h r q m) ks <> None <->
    Forall (fun k => Z.lxor (at_ (t m) k) (mask_if (Choice k) (x m)) = at_ q k) ks).
  { intros ks F. induction F as [|k ks Hk F IH]; [cbn; split; [constructor|discriminate]|].
    cbn [mapM]. unfold kos_check_at at 1. rewrite (recv_choice_at h r r_ok r_128) by exact Hk. cbv zeta. rewrite Forall_cons_iff, <- IH.
    assert (E : (if negb (Z.b2z (Choice k) =? 0) then Z.lxor (at_ (t m) k) (x m) else at_ (t m) k) = Z.lxor (at_ (t m) k) (mask_if (Choice k) (x m)))
      by (destruct (Choice k); cbn; [reflexivity|now rewrite Z.lxor_0_r]).
    rewrite E. unfold YACL_ENFORCE. destruct (Z.eqb_spec (Z.lxor (at_ (t m) k) (mask_if (Choice k) (x m))) (at_ q k)) as [Eq|Ne].
    - destruct (mapM _ ks); split; try tauto; intros; try discriminate. split; [exact Eq|discriminate].
    - split; [intros X; now contradict X|tauto]. }
  specialize (G (seq 0 kKappa)). unfold kos_check. rewrite Forall_forall in G.
  assert (I : forall k, In k (seq 0 kKappa) -> (k < 128)%nat) by (intros k Hk; apply in_seq in Hk; unfold kKappa in Hk; lia).
  specialize (G I). rewrite Forall_forall in G. split.
  - intros E k Hk. apply G; [|apply in_seq; unfold kKappa; lia]. intros X. rewrite X in E. discriminate.
  - intros H. destruct (mapM _ (seq 0 kKappa)) eqn:E; [reflexivity|]. exfalso. apply (proj2 G); [|reflexivity]. intros k Hk. apply H, I, Hk.
Qed.

Lemma Unpack_Pack m : in64 (x m) -> length (t m) = kKappa -> Forall in64 (t m) -> Unpack (Pack m) = Some m.
Proof.
  destruct m as [mx mt]. cbn [x t]. intros Hx Lt Ft. unfold Unpack, Pack. cbn [x t].
  assert (Ll : forall l, length (flat_map (to_le 8) l) = (8 * length l)%nat).
  { induction l as [|a l IH]; [reflexivity|]. cbn [flat_map length]. rewrite length_app, IH, length_to_le. lia. }
  rewrite length_app, Ll, length_to_le, Lt. change ((kKappa + 1) * 8 <=? 8 + 8 * kKappa)%nat with true. cbv iota.
  assert (F8 : forall a l, firstn 8 (to_le 8 a ++ l) = to_le 8 a /\ skipn 8 (to_le 8 a ++ l) = l) by (intros; split; reflexivity).
  destruct (F8 mx (flat_map (to_le 8) mt)) as [-> ->]. rewrite le_val_to_le, Z.mod_small by exact Hx. do 2 f_equal. rewrite <- Lt. clear Lt Ll.
  induction Ft as [|a l Ha Fl IH]; [reflexivity|]. cbn [length flat_map to_words]. destruct (F8 a (flat_map (to_le 8) l)) as [-> ->].
  now rewrite le_val_to_le, Z.mod_small, IH by exact Ha.
Qed.

(** What passes, from a message that passes: t_k moves with x where the choice is 1. *)
Lemma lxor_mask_iff tk x tg xg (b : bool) :
  Z.lxor tk (mask_if b x) = Z.lxor tg (mask_if b xg) <-> tk = Z.lxor tg (mask_if b (Z.lxor x xg)).
Proof.
  assert (M : mask_if b (Z.lxor x xg) = Z.lxor (mask_if b x) (mask_if b xg)) by (destruct b; cbn; now rewrite ?Z.lxor_0_l).
  rewrite M. split.
  - intros E. rewrite (Z.lxor_comm (mask_if b x)), <- Z.lxor_assoc, <- E, Z.lxor_assoc, Z.lxor_nilpotent. now rewrite Z.lxor_0_r.
  - intros ->. rewrite !Z.lxor_assoc. f_equal. rewrite (Z.lxor_comm (mask_if b xg)), <- Z.lxor_assoc, Z.lxor_nilpotent. apply Z.lxor_0_l.
Qed.

(** ** The outputs *)

Lemma transpose_batches_ok f : (forall i k, in128 (f i k)) -> transpose_batches sse2 (map (column f) (seq 0 kKappa)) N B =
  map (fun n => at_ (transpose (columns (f (n / 128)%nat))) (n mod 128)) (seq 0 N).
Proof.
  intros Hf. set (vals := fun i j => at_ (transpose (columns (f i))) j).
  pose proof (fill_all vals (repeat 0 N)) as Fa. rewrite repeat_length in Fa. etransitivity; [|exact Fa].
  unfold transpose_batches. enough (G : forall k, (k <= B)%nat -> fold_left (fun out i => write_batch out i (batch_limit N i)
    (fun j => at_ (MatrixTranspose128 sse2 (map (fun k => at_ (nth k (map (column f) (seq 0 kKappa)) []) (i * kBatchSize / 128)) (seq 0 kKappa))) j)) (seq 0 k) (repeat 0 N) =
    fill vals k (repeat 0 N)) by now apply G.
  induction k as [|k IH]; intros Hk; [reflexivity|]. rewrite seq_S, fold_left_app, IH by lia. cbn [fold_left Nat.add].
  rewrite fill_S by (rewrite repeat_length; lia). rewrite repeat_length, batch_index. f_equal.
  assert (E : map (fun k0 => at_ (nth k0 (map (column f) (seq 0 kKappa)) []) k) (seq 0 kKappa) = columns (f k)).
  { apply map_ext_in. intros j Hj. apply in_seq in Hj. rewrite nth_columns by (unfold kKappa in Hj; lia). unfold column. now rewrite at_map_seq by lia. }
  rewrite E, MatrixTranspose128_ok by (apply columns_matrix; intros; apply Hf). reflexivity.
Qed.

Lemma resize_out (g : nat -> Z) : vector_resize (map g (seq 0 N)) num 0 = map g (seq 0 num).
Proof.
  unfold vector_resize. rewrite length_map, length_seq. replace (num - N)%nat with 0%nat by lia. cbn [repeat]. rewrite app_nil_r.
  apply (firstn_map_seq g 0 N num). lia.
Qed.

Lemma hashed_out (g : nat -> Z) cot : map (fun i => at_ (map (out_hash cot) (map g (seq 0 num))) i) (seq 0 num) = map (fun n => out_hash cot (g n)) (seq 0 num).
Proof.
  apply map_ext_in. intros i Hi. apply in_seq in Hi. rewrite map_map. now apply at_map_seq.
Qed.

Lemma column_in f k : (forall i k, in128 (f i k)) -> Forall in128 (column f k) /\ length (column f k) = B.
Proof.
  intros Hf. split; [|unfold column; now rewrite length_map, length_seq]. apply Forall_forall. intros y Hy. apply in_map_iff in Hy as (i & <- & _). apply Hf.
Qed.

Lemma blocks_column : m_blocks (padded choices' N) = map r_col (seq 0 B) /\ Forall in128 (m_blocks (padded choices' N)).
Proof.
  destruct zeros_wf as (W & _). destruct (padded_ok choices' N W) as [(_ & Wf & _) E]. split; [|exact Wf].
  rewrite <- E. symmetry. apply map_nth_id.
Qed.

(** The sender's column is the receiver's, plus the choices where the key is the second. *)
Lemma cs_zip k : column cs k = zip_lxor (column c0 k) (if Choice k then m_blocks (padded choices' N) else repeat 0 (length (m_blocks (padded choices' N)))).
Proof.
  destruct blocks_column as [-> _]. rewrite length_map, length_seq. unfold column, col_s. destruct (Choice k); cbn [mask_if].
  - generalize (seq 0 B) as l. induction l as [|i l IH]; [reflexivity|]. cbn [map zip_lxor]. now rewrite IH.
  - replace (repeat 0 B) with (repeat 0 (length (seq 0 B))) by now rewrite length_seq. generalize (seq 0 B) as l. induction l as [|i l IH]; [reflexivity|]. cbn [map length repeat zip_lxor]. now rewrite IH.
Qed.

Lemma chi seed : exists rs, PrgAesCtr 8 seed (B * 2) = Some rs /\ length rs = (B * 2)%nat /\ Forall in64 rs.
Proof. apply PrgAesCtr_some. Qed.

(** What the receiver sends back for a seed. *)
Definition check_msg (rs : list Z) : CheckMsg :=
  Check_ (inner Gf64Mul rs (words64 (m_blocks (padded choices' N)))) (map (fun k => inner Gf64Mul rs (words64 (column c0 k))) (seq 0 kKappa)).

Lemma check_msg_ok rs : Forall in64 rs -> in64 (x (check_msg rs)) /\ length (t (check_msg rs)) = kKappa /\ Forall in64 (t (check_msg rs)).
Proof.
  intros Fr. destruct blocks_column as [_ Fb]. cbn [x t check_msg]. split; [|split].
  - apply (inner_ok Gf64Mul); [exact Fr|apply words64_in, Fb].
  - now rewrite length_map, length_seq.
  - apply Forall_forall. intros y Hy. apply in_map_iff in Hy as (k & <- & _). apply (inner_ok Gf64Mul); [exact Fr|].
    apply words64_in, column_in. intros; apply col0_in.
Qed.

Lemma blocks_length : length (m_blocks (padded choices' N)) = B.
Proof. destruct blocks_column as [-> _]. now rewrite length_map, length_seq. Qed.

(** The sums of the sender's columns, from the receiver's. *)
Lemma column_sum rs k : length rs = (B * 2)%nat -> Forall in64 rs -> (k < 128)%nat ->
  inner Gf64Mul rs (words64 (column cs k)) = Z.lxor (at_ (t (check_msg rs)) k) (mask_if (Choice k) (x (check_msg rs))).
Proof.
  intros Lrs Frs Hk. cbn [t x check_msg]. unfold at_. rewrite !nth_columns by exact Hk. rewrite cs_zip.
  destruct (column_in c0 k (col0_in h s N)) as [Fk Lk]. pose proof blocks_length as Lb. destruct blocks_column as [_ Fb]. apply inner_mask; (assumption || lia).
Qed.

Lemma opened_column k : (k < 128)%nat -> nth k (opened B) [] = column cs k.
Proof. intros Hk. rewrite opened_all. now apply nth_columns. Qed.

Lemma kept_columns : columns_of N Key0 = map (column c0) (seq 0 kKappa).
Proof. apply map_ext. intros k. apply prg_column. Qed.

Lemma send_end sb cot seed rs ch : length sb = num -> 
  PrgAesCtr 8 seed (B * 2) = Some rs -> length rs = (B * 2)%nat -> Forall in64 rs -> forall m, in64 (x m) -> length (t m) = kKappa -> Forall in64 (t m) ->
  let good := forall k, (k < 128)%nat ->
    Z.lxor (at_ (t m) k) (mask_if (Choice k) (x m)) = Z.lxor (at_ (t (check_msg rs)) k) (mask_if (Choice k) (x (check_msg rs))) in
  let res := KosOtExtSend_end sse2 h r sb cot (opened B) seed ((KOS_CHECK, Pack m) :: ch) in
  (good /\ res = Some (map (send_out h r s choices' N cot) (seq 0 num), ch)) \/ (~ good /\ res = None).
Proof.
  intros Ls Ers Lrs Frs m Hx Ht Fm good res. destruct zeros_wf as (W & Wn & Np).
  set (q := map (fun k => inner Gf64Mul rs (words64 (column cs k))) (seq 0 kKappa)).
  assert (Eq : forall k, (k < 128)%nat -> at_ q k = Z.lxor (at_ (t (check_msg rs)) k) (mask_if (Choice k) (x (check_msg rs)))).
  { intros k Hk. rewrite <- column_sum by assumption. unfold q, at_. now rewrite nth_columns by exact Hk. }
  assert (Run : KosOtExtSend_end sse2 h r sb cot (opened B) seed ((KOS_CHECK, Pack m) :: ch) =
    let? _ := kos_check h r q m in Some (map (send_out h r s choices' N cot) (seq 0 num), ch)).
  { unfold KosOtExtSend_end. rewrite Ls, Ers. cbv zeta. rewrite opened_all.
    rewrite (mapM_some _ (fun k => inner Gf64Mul rs (words64 (column cs k)))).
    2:{ intros k Hk. apply in_seq in Hk. rewrite nth_columns by (unfold kKappa in Hk; lia).
        destruct (column_in cs k) as [Fk Lk]; [intros; now apply col_s_in|]. now apply check_sum_ok. }
    rewrite ctx_Recv_first, Unpack_Pack by assumption. fold q. destruct (kos_check h r q m); [|reflexivity].
    rewrite transpose_batches_ok by (intros; now apply col_s_in). rewrite resize_out.
    destruct (delta_block h r r_ok r_128) as (b & -> & ->). rewrite !hash_batch. f_equal. f_equal.
    apply map_ext_in. intros n Hn. apply in_seq in Hn. rewrite <- (send_batch_out h r s choices' N W Wn Np cot n) by lia.
    destruct (position_split n) as [_ Lt]. destruct (transpose_matrix (columns (cs (n / 128)%nat))) as [Lrow _].
    unfold send_batch, rows_s. f_equal.
    - rewrite map_map, at_map_seq by lia. rewrite at_hash by (rewrite Lrow; exact Lt). reflexivity.
    - unfold VecXorMonochrome. rewrite !map_map, at_map_seq by lia. unfold XorBatchedBlock. rewrite map_map.
      unfold at_ at 2. rewrite (nth_indep _ 0 (out_hash cot (Z.lxor 0 Delta))) by (rewrite length_map, Lrow; exact Lt).
      symmetry. exact (map_nth (fun v => out_hash cot (Z.lxor v Delta)) (transpose (columns (cs (n / 128)%nat))) 0 (n mod 128)). }
  unfold res. rewrite Run. pose proof (kos_check_ok q m) as K. assert (K' : kos_check h r q m = Some tt <-> good).
  { rewrite K. split; intros H k Hk; [now rewrite <- Eq by exact Hk; apply H|now rewrite Eq by exact Hk; apply H]. }
  rewrite <- K'. destruct (kos_check h r q m) as [[]|]; [left; now split|right; split; [discriminate|reflexivity]].
Qed.

Context (SerializeUint128 : Z -> list Z) (DeserializeUint128 : list Z -> option Z).

Lemma recv_end rb cot seed rs in_ch in_ch' ch : length rb = num -> SyncSeedRecv DeserializeUint128 in_ch = Some (seed, in_ch') ->
  PrgAesCtr 8 seed (B * 2) = Some rs -> length rs = (B * 2)%nat -> Forall in64 rs ->
  KosOtExtRecv_end sse2 DeserializeUint128 rb cot (padded choices' N, (columns_of N Key0, columns_of N Key1)) in_ch ch =
  Some (map (recv_out h s N cot) (seq 0 num), in_ch', SendAsync ch KOS_CHECK (Pack (check_msg rs))).
Proof.
  intros Lr Es Ers Lrs Frs. destruct blocks_column as [_ Fb]. pose proof blocks_length as Lb. pose proof kept_columns as Ec.
  unfold KosOtExtRecv_end. rewrite Lr, Es, Ers. cbv zeta. cbn [fst]. rewrite (check_sum_ok rs _ B) by assumption. rewrite Ec.
  rewrite (mapM_some _ (fun k => inner Gf64Mul rs (words64 (column c0 k)))).
  2:{ intros k Hk. apply in_seq in Hk. rewrite nth_columns by (unfold kKappa in Hk; lia). destruct (column_in c0 k (col0_in h s N)) as [Fk Lk].
      now apply check_sum_ok. }
  rewrite transpose_batches_ok by (apply col0_in). rewrite resize_out, hash_batch, hashed_out. reflexivity.
Qed.

Lemma kos_run_ok cot seed sb rb : length sb = num -> length rb = num -> DeserializeUint128 (SerializeUint128 seed) = Some seed ->
  kos_run sse2 SerializeUint128 DeserializeUint128 h r s choices seed cot sb rb =
  Some (map (send_out h r s choices' N cot) (seq 0 num), map (recv_out h s N cot) (seq 0 num)).
Proof.
  intros Ls Lr Eser. destruct (chi seed) as (rs & Ers & Lrs & Frs). destruct (check_msg_ok rs Frs) as (Mx & Mt & Mf).
  unfold kos_run. rewrite Lr, Ls, recv_begin, send_begin.
  rewrite (recv_end rb cot seed rs _ [] [] Lr) by (assumption || (unfold SyncSeedRecv, SyncSeedSend, SendAsync; cbn [app]; now rewrite ctx_Recv_first, Eser)).
  cbv beta iota. unfold SendAsync at 1. cbn [app].
  destruct (send_end sb cot seed rs [] Ls Ers Lrs Frs (check_msg rs) Mx Mt Mf) as [[_ ->]|[G _]]; [reflexivity|].
  now contradict G.
Qed.

Lemma bits_firstn b c n : size c = n -> (n <= size b)%nat -> (forall p, bit_at 128 b p = bit_at 128 c p) -> firstn n (bits 128 b) = bits 128 c.
Proof.
  unfold size. intros Ec Hb E. unfold bits. rewrite firstn_map_seq, Ec by exact Hb. apply map_ext. exact E.
Qed.

Lemma kos_correlated cot : correlated (map (send_out h r s choices' N cot) (seq 0 num)) (combine (bits 128 choices) (map (recv_out h s N cot) (seq 0 num))).
Proof.
  pose proof (outputs_correlated h r s choices' N (proj1 (proj2 zeros_wf)) cot) as H. apply (correlated_firstn num) in H.
  rewrite firstn_map_seq, combine_firstn, firstn_map_seq in H by lia. destruct (choices_zeros_ok choices choices_wf) as (_ & Sz & Bz).
  rewrite (bits_firstn choices' choices num) in H; [exact H|exact choices_num|rewrite Sz; lia|exact Bz].
Qed.
End Honest.
