(* ===== verification/Strings.v ===== *)
(** Byte strings: what the code uses of [std::string] and [std::from_chars], and
    [utils/strings.cc].  A character is its byte, 0 to 255: the comparisons of the
    code have the same result on a signed [char]. *)
From Stdlib Require Import ZArith Lia List Bool.
From S2P Require Import Prelude.
Import ListNotations.

(** ** The standard library *)

(** [starts_with], [find] and the equality of strings. *)
Fixpoint starts_with (s p : list Z) {struct p} : bool :=
  match p, s with
  | [], _ => true
  | c :: p, d :: s => (c =? d) && starts_with s p
  | _ :: _, [] => false
  end.
Fixpoint find (s needle : list Z) : option nat :=
  if starts_with s needle then Some 0%nat
  else match s with [] => None | _ :: s => option_map S (find s needle) end.
Definition find_from (s needle : list Z) (pos : nat) : option nat := option_map (Nat.add pos) (find (skipn pos s) needle).
Definition substr (s : list Z) (pos n : nat) : list Z := firstn n (skipn pos s).

(** The value of a character as a digit, 36 for the others. *)
Definition digit_val (c : Z) : Z :=
  if (48 <=? c) && (c <=? 57) then c - 48
  else if (97 <=? c) && (c <=? 122) then c - 87
  else if (65 <=? c) && (c <=? 90) then c - 55 else 36.
(** The longest prefix of digits, and what follows it. *)
Fixpoint span_digits (base : Z) (s : list Z) : list Z * list Z :=
  match s with
  | [] => ([], [])
  | c :: r => if digit_val c <? base then let '(ds, rest) := span_digits base r in (digit_val c :: ds, rest) else ([], s)
  end.
Definition digits_val (base : Z) (ds : list Z) : Z := fold_left (fun v d => v * base + d) ds 0.

(** [std::from_chars] to an unsigned type: the value and the rest, or an error for
    no digit and for a value that does not fit. *)
Definition from_chars (base max : Z) (s : list Z) : option (Z * list Z) :=
  match span_digits base s with
  | ([], _) => None
  | (ds, rest) => if digits_val base ds <=? max then Some (digits_val base ds, rest) else None
  end.
(** To a signed type: a minus may come first. *)
Definition from_chars_signed (base min max : Z) (s : list Z) : option (Z * list Z) :=
  match s with
  | 45 :: r => match from_chars base (- min) r with Some (v, rest) => Some (- v, rest) | None => None end
  | _ => from_chars base max s
  end.

(** [std::to_string]: 20 digits are enough for 64 bits. *)
Fixpoint dec_digits (fuel : nat) (n : Z) (acc : list Z) : list Z :=
  match fuel with
  | O => acc
  | S fuel => let acc := (48 + n mod 10) :: acc in if n <? 10 then acc else dec_digits fuel (n / 10) acc
  end.
Definition to_string (n : Z) : list Z := if n <? 0 then 45 :: dec_digits 20 (- n) [] else dec_digits 20 n [].

(** ** Hexadecimal *)

Definition kHexChars : list Z := [48; 49; 50; 51; 52; 53; 54; 55; 56; 57; 97; 98; 99; 100; 101; 102].

Definition BytesToHexString (bytes : list Z) : list Z :=
  flat_map (fun c => [at_ kHexChars (Z.to_nat (Z.shiftr c 4)); at_ kHexChars (Z.to_nat (Z.land c 15))]) bytes.

(** The loop over the pairs, with what [out] holds when it stops. *)
Fixpoint hex_pairs (hex out : list Z) : bool * list Z :=
  match hex with
  | a :: b :: hex =>
      match from_chars 16 255 [a; b] with
      | Some (v, []) => hex_pairs hex (out ++ [v])
      | _ => (false, out)
      end
  | _ => (true, out)
  end.
Definition HexStringToBytes (hex out : list Z) : bool * list Z :=
  if negb (length hex mod 2 =? 0)%nat then (false, out) else hex_pairs hex [].

(** ** Splitting and joining *)

Definition split_step (sv : list Z) (delim : Z) (st : list (list Z) * nat) (i : nat) : list (list Z) * nat :=
  let '(result, start) := st in
  if (i =? length sv)%nat || (at_ sv i =? delim) then (result ++ [substr sv start (i - start)], S i) else (result, start).
Definition StrSplit (sv : list Z) (delim : Z) : list (list Z) :=
  fst (fold_left (split_step sv delim) (seq 0 (S (length sv))) ([], 0%nat)).

(** Every turn but the last passes a separator, which is not empty. *)
Fixpoint split_loop (fuel : nat) (sv sep : list Z) (start : nat) (result : list (list Z)) : option (list (list Z)) :=
  match fuel with
  | O => None
  | S fuel =>
      match find_from sv sep start with
      | Some pos => split_loop fuel sv sep (pos + length sep) (result ++ [substr sv start (pos - start)])
      | None => Some (result ++ [skipn start sv])
      end
  end.
Definition StrSplit_sep (sv sep : list Z) : option (list (list Z)) :=
  match sep with [] => Some [sv] | _ => split_loop (S (length sv)) sv sep 0 [] end.

Definition StrJoin (parts : list (list Z)) (sep : list Z) : list Z :=
  fst (fold_left (fun '(result, i) part => ((if (0 <? i)%nat then result ++ sep else result) ++ part, S i)) parts ([], 0%nat)).
Definition StrJoin_ints (parts : list Z) (sep : list Z) : list Z :=
  fst (fold_left (fun '(result, i) part => ((if (0 <? i)%nat then result ++ sep else result) ++ to_string part, S i)) parts ([], 0%nat)).

(** ** Numbers *)

(** The whole string is the number; [None] is [false]. *)
Definition whole (r : option (Z * list Z)) : option Z := match r with Some (v, []) => Some v | _ => None end.
Definition SimpleAtoi_i64 (sv : list Z) : option Z := whole (from_chars_signed 10 (- 2 ^ 63) (2 ^ 63 - 1) sv).
Definition SimpleAtoi_i32 (sv : list Z) : option Z := whole (from_chars_signed 10 (- 2 ^ 31) (2 ^ 31 - 1) sv).
Definition SimpleAtoi_u64 (sv : list Z) : option Z := whole (from_chars 10 (2 ^ 64 - 1) sv).
Definition SimpleAtoi_u32 (sv : list Z) : option Z := whole (from_chars 10 (2 ^ 32 - 1) sv).
Definition SimpleHexAtoi (sv : list Z) : option Z := whole (from_chars 16 (2 ^ 64 - 1) sv).

(** ** Matching and characters *)

Definition StrContains (haystack needle : list Z) : bool := match find haystack needle with Some _ => true | None => false end.
Definition StartsWith (s prefix : list Z) : bool := starts_with s prefix.
Definition EndsWith (s suffix : list Z) : bool := starts_with (rev s) (rev suffix).

Definition AsciiIsDigit (c : Z) : bool := (48 <=? c) && (c <=? 57).
Definition AsciiIsAlpha (c : Z) : bool := ((65 <=? c) && (c <=? 90)) || ((97 <=? c) && (c <=? 122)).
Definition AsciiIsWhitespace (c : Z) : bool := (c =? 32) || (c =? 9) || (c =? 10) || (c =? 13) || (c =? 12) || (c =? 11).
Definition AsciiIsAlNum (c : Z) : bool := AsciiIsAlpha c || AsciiIsDigit c.
Definition AsciiToLower (c : Z) : Z := if (65 <=? c) && (c <=? 90) then c - 65 + 97 else c.
Definition AsciiToUpper (c : Z) : Z := if (97 <=? c) && (c <=? 122) then c - 97 + 65 else c.
Definition AsciiStrToLower (s : list Z) : list Z := map AsciiToLower s.
Definition AsciiStrToUpper (s : list Z) : list Z := map AsciiToUpper s.

(** The first loop moves [start] on, the second [end] back. *)
Fixpoint strip_front (s : list Z) : list Z :=
  match s with c :: r => if AsciiIsWhitespace c then strip_front r else s | [] => [] end.
Definition StripAsciiWhitespace (sv : list Z) : list Z := rev (strip_front (rev (strip_front sv))).

Example hex_abc : BytesToHexString [0; 171; 255] = [48; 48; 97; 98; 102; 102].
Proof. reflexivity. Qed.
Example split_abc : StrSplit [97; 44; 98; 44] 44 = [[97]; [98]; []].
Proof. reflexivity. Qed.
Example split_sep_abc : StrSplit_sep [97; 1; 2; 98; 1; 2] [1; 2] = Some [[97]; [98]; []].
Proof. reflexivity. Qed.
Example to_string_1203 : to_string 1203 = [49; 50; 48; 51].
Proof. reflexivity. Qed.
