(* ===== verification/StringsSpec.v ===== *)
(** Properties of the byte strings of [Strings]: numbers written and read back,
    hexadecimal, splitting and joining, stripping. *)
From Stdlib Require Import ZArith Lia List Bool.
From S2P Require Import Prelude.
From S2P Require Import Strings.
Import ListNotations.

(** ** Decimal numbers *)

Lemma span_digits_app base ds rest : Forall (fun c => digit_val c < base) ds ->
  (match rest with [] => True | c :: _ => base <= digit_val c end) ->
  span_digits base (ds ++ rest) = (map digit_val ds, rest).
Proof.
  intros H R. induction H as [|c ds Hc H IH]; cbn [app map].
  - destruct rest as [|c rest]; [reflexivity|]. cbn [span_digits]. destruct (Z.ltb_spec (digit_val c) base); [lia|reflexivity].
  - cbn [span_digits]. destruct (Z.ltb_spec (digit_val c) base); [|lia]. now rewrite IH.
Qed.

Lemma digits_val_app base a b : digits_val base (a ++ b) = digits_val base a * base ^ Z.of_nat (length b) + digits_val base b.
Proof.
  unfold digits_val. rewrite fold_left_app. generalize (fold_left (fun v d => v * base + d) a 0). intros v.
  assert (G : forall b v w, fold_left (fun v d => v * base + d) b (v + w) = v * base ^ Z.of_nat (length b) + fold_left (fun v d => v * base + d) b w).
  { clear. induction b as [|d b IH]; intros v w; cbn [fold_left length]; [change (base ^ Z.of_nat 0) with 1; ring|].
    rewrite Nat2Z.inj_succ, Z.pow_succ_r by lia. replace ((v + w) * base + d) with (v * base + (w * base + d)) by ring. rewrite IH. ring. }
  specialize (G b v 0). now rewrite Z.add_0_r in G.
Qed.

Lemma digit_val_dec c : 48 <= c < 58 -> digit_val c = c - 48.
Proof. intros H. unfold digit_val. destruct (Z.leb_spec 48 c), (Z.leb_spec c 57); cbn; lia. Qed.

(** The characters of a number are digits, and there is one at least. *)
Definition is_digit (c : Z) : Prop := 48 <= c < 58.

Lemma dec_digits_acc fuel : forall n acc, dec_digits fuel n acc = dec_digits fuel n [] ++ acc.
Proof.
  induction fuel as [|fuel IH]; intros n acc; cbn [dec_digits]; [reflexivity|]. destruct (n <? 10); [reflexivity|].
  rewrite IH, (IH _ [_]), <- app_assoc. reflexivity.
Qed.

Lemma dec_digits_ok fuel : forall n, 0 <= n < 10 ^ Z.of_nat fuel -> (0 < fuel)%nat ->
  let s := dec_digits fuel n [] in s <> [] /\ Forall is_digit s /\ digits_val 10 (map digit_val s) = n.
Proof.
  induction fuel as [|fuel IH]; intros n Hn Hf; [lia|]. rewrite Nat2Z.inj_succ, Z.pow_succ_r in Hn by lia. cbn [dec_digits].
  pose proof (Z.mod_pos_bound n 10 ltac:(lia)) as M. destruct (Z.ltb_spec n 10) as [L|L]; cbn zeta.
  - split; [discriminate|]. split; [repeat constructor; lia|]. cbn [map]. rewrite digit_val_dec by lia. unfold digits_val. cbn [fold_left].
    rewrite Z.mod_small by lia. lia.
  - rewrite dec_digits_acc. assert (Hf' : (0 < fuel)%nat) by (destruct fuel; [cbn in Hn; lia|lia]).
    destruct (IH (n / 10) ltac:(split; [apply Z.div_pos; lia|apply Z.div_lt_upper_bound; lia]) Hf') as (N & D & V).
    split; [intros E; now apply app_eq_nil in E|]. split; [apply Forall_app; split; [exact D|repeat constructor; lia]|].
    rewrite map_app, digits_val_app, V. cbn [map length]. rewrite digit_val_dec by lia. unfold digits_val. cbn [fold_left].
    change (10 ^ Z.of_nat 1) with 10. pose proof (Z.div_mod n 10 ltac:(lia)). lia.
Qed.

Lemma dec_string_ok n : 0 <= n < 2 ^ 64 -> to_string n <> [] /\ Forall is_digit (to_string n) /\ digits_val 10 (map digit_val (to_string n)) = n.
Proof.
  intros H. unfold to_string. destruct (Z.ltb_spec n 0); [lia|]. apply dec_digits_ok; [cbn; lia|lia].
Qed.

Lemma from_chars_digits max s : Forall is_digit s -> s <> [] -> digits_val 10 (map digit_val s) <= max ->
  from_chars 10 max s = Some (digits_val 10 (map digit_val s), []).
Proof.
  intros D N M. unfold from_chars. rewrite <- (app_nil_r s) at 1. rewrite (span_digits_app 10 s []); [|eapply Forall_impl; [|exact D]; intros c Hc; unfold is_digit in Hc; rewrite digit_val_dec; lia|exact I].
  destruct s as [|c s]; [easy|]. cbn [map] in *. destruct (Z.leb_spec (digits_val 10 (digit_val c :: map digit_val s)) max); [reflexivity|lia].
Qed.

Lemma atoi_to_string n : 0 <= n < 2 ^ 64 -> SimpleAtoi_u64 (to_string n) = Some n.
Proof.
  intros H. destruct (dec_string_ok n H) as (N & D & V). unfold SimpleAtoi_u64. now rewrite from_chars_digits, V by (assumption || lia).
Qed.

Lemma to_string_inj n m : 0 <= n < 2 ^ 64 -> 0 <= m < 2 ^ 64 -> to_string n = to_string m -> n = m.
Proof. intros Hn Hm E. pose proof (atoi_to_string n Hn) as A. rewrite E, atoi_to_string in A by exact Hm. congruence. Qed.

Lemma length_dec_digits fuel : forall n, (length (dec_digits fuel n []) <= fuel)%nat.
Proof.
  induction fuel as [|fuel IH]; intros n; cbn [dec_digits]; [cbn; lia|]. destruct (n <? 10); [cbn; lia|].
  rewrite dec_digits_acc, length_app. specialize (IH (n / 10)). cbn. lia.
Qed.

Lemma length_to_string n : 0 <= n -> (length (to_string n) <= 20)%nat.
Proof. intros H. unfold to_string. destruct (Z.ltb_spec n 0); [lia|]. apply length_dec_digits. Qed.

Lemma atoi_i64_to_string n : - 2 ^ 63 <= n < 2 ^ 63 -> SimpleAtoi_i64 (to_string n) = Some n.
Proof.
  intros H. destruct (Z.lt_ge_cases n 0) as [L|L].
  - destruct (dec_digits_ok 20 (- n) ltac:(cbn; lia) ltac:(lia)) as (N & D & V). unfold to_string. destruct (Z.ltb_spec n 0); [|lia].
    unfold SimpleAtoi_i64, from_chars_signed. rewrite from_chars_digits, V by (assumption || lia). cbn. f_equal. lia.
  - destruct (dec_string_ok n ltac:(lia)) as (N & D & V). unfold SimpleAtoi_i64.
    assert (F : from_chars_signed 10 (- 2 ^ 63) (2 ^ 63 - 1) (to_string n) = from_chars 10 (2 ^ 63 - 1) (to_string n)).
    { unfold from_chars_signed. destruct (to_string n) as [|c s]; [reflexivity|]. apply Forall_inv in D. unfold is_digit in D.
      destruct (Z.eq_dec c 45); [lia|]. clear - n0. destruct c as [|p|p]; try reflexivity. do 6 (destruct p as [p|p|]; try reflexivity). congruence. }
    now rewrite F, from_chars_digits, V by (assumption || lia).
Qed.

Lemma span_digits_sound base s : let '(ds, rest) := span_digits base s in
  exists p, s = p ++ rest /\ map digit_val p = ds /\ Forall (fun c => digit_val c < base) p.
Proof.
  induction s as [|c s IH]; cbn [span_digits]; [exists []; repeat constructor|]. destruct (Z.ltb_spec (digit_val c) base).
  - destruct (span_digits base s) as [ds rest]. destruct IH as (p & -> & <- & F). exists (c :: p). repeat constructor; assumption.
  - exists []. repeat constructor.
Qed.

(** What is read is a number in the range of the type, and the string is its digits. *)
Lemma whole_sound base max s v : whole (from_chars base max s) = Some v ->
  s <> [] /\ Forall (fun c => digit_val c < base) s /\ v = digits_val base (map digit_val s) /\ v <= max.
Proof.
  unfold whole, from_chars. pose proof (span_digits_sound base s) as S. destruct (span_digits base s) as [ds rest]. destruct S as (p & -> & <- & F).
  destruct p as [|c p]; [discriminate|]. cbn [map]. destruct (Z.leb_spec (digits_val base (digit_val c :: map digit_val p)) max); [|discriminate].
  destruct rest; [|discriminate]. intros [= <-]. rewrite app_nil_r. repeat split; [discriminate|exact F|exact H].
Qed.

(** ** Hexadecimal *)

Lemma hex_char v : 0 <= v < 16 -> digit_val (at_ kHexChars (Z.to_nat v)) = v.
Proof.
  intros H. assert (C : forallb (fun i => digit_val (at_ kHexChars i) =? Z.of_nat i) (seq 0 16) = true) by reflexivity.
  rewrite forallb_forall in C. specialize (C (Z.to_nat v) ltac:(apply in_seq; lia)). apply Z.eqb_eq in C. lia.
Qed.

Lemma from_chars_hex a b : 0 <= digit_val a < 16 -> 0 <= digit_val b < 16 -> from_chars 16 255 [a; b] = Some (digit_val a * 16 + digit_val b, []).
Proof.
  intros Ha Hb. unfold from_chars. cbn [span_digits]. destruct (Z.ltb_spec (digit_val a) 16), (Z.ltb_spec (digit_val b) 16); try lia.
  unfold digits_val. cbn [fold_left]. destruct (Z.leb_spec ((0 * 16 + digit_val a) * 16 + digit_val b) 255); [|lia]. do 2 f_equal.
Qed.

Lemma hex_pairs_ok bs : forall out, Forall byte bs -> hex_pairs (BytesToHexString bs) out = (true, out ++ bs).
Proof.
  induction bs as [|c bs IH]; intros out H; [now rewrite app_nil_r|]. apply Forall_cons_iff in H as [Hc H]. unfold byte in Hc.
  unfold BytesToHexString. cbn [flat_map app hex_pairs]. fold (BytesToHexString bs).
  assert (S : 0 <= Z.shiftr c 4 < 16) by (rewrite Z.shiftr_div_pow2 by lia; change (2 ^ 4) with 16; split; [apply Z.div_pos; lia|apply Z.div_lt_upper_bound; lia]).
  assert (L : Z.land c 15 = c mod 16) by (change 15 with (Z.ones 4); rewrite Z.land_ones by lia; reflexivity).
  pose proof (Z.mod_pos_bound c 16 ltac:(lia)) as M.
  rewrite from_chars_hex by (rewrite hex_char by lia; lia). rewrite !hex_char by lia. rewrite IH by exact H. rewrite <- app_assoc. cbn [app]. do 3 f_equal.
  rewrite L, Z.shiftr_div_pow2 by lia. change (2 ^ 4) with 16. pose proof (Z.div_mod c 16 ltac:(lia)). lia.
Qed.

Lemma length_hex bs : length (BytesToHexString bs) = (2 * length bs)%nat.
Proof. unfold BytesToHexString. induction bs as [|c bs IH]; cbn [flat_map length app]; [reflexivity|]. rewrite IH. lia. Qed.

Lemma hex_roundtrip bs out : Forall byte bs -> HexStringToBytes (BytesToHexString bs) out = (true, bs).
Proof.
  intros H. unfold HexStringToBytes. rewrite length_hex, Nat.mul_comm, Nat.Div0.mod_mul. cbn [Nat.eqb negb]. apply hex_pairs_ok, H.
Qed.

Lemma digit_val_nonneg c : 0 <= digit_val c.
Proof. unfold digit_val. repeat match goal with |- context [?a <=? ?b] => destruct (Z.leb_spec a b) end; cbn; lia. Qed.

Lemma hex_lower c : digit_val c < 16 -> at_ kHexChars (Z.to_nat (digit_val c)) = AsciiToLower c.
Proof.
  intros H. pose proof (digit_val_nonneg c) as N. destruct (Z.lt_ge_cases c 0) as [L|L].
  { exfalso. unfold digit_val in H. repeat match type of H with context [?a <=? ?b] => destruct (Z.leb_spec a b) end; cbn in H; lia. }
  destruct (Z.lt_ge_cases c 128) as [G|G].
  2:{ exfalso. unfold digit_val in H. repeat match type of H with context [?a <=? ?b] => destruct (Z.leb_spec a b) end; cbn in H; lia. }
  assert (C : forallb (fun i => implb (digit_val (Z.of_nat i) <? 16) (at_ kHexChars (Z.to_nat (digit_val (Z.of_nat i))) =? AsciiToLower (Z.of_nat i))) (seq 0 128) = true) by (vm_compute; reflexivity).
  rewrite forallb_forall in C. specialize (C (Z.to_nat c) ltac:(apply in_seq; lia)). rewrite Z2Nat.id in C by lia.
  destruct (Z.ltb_spec (digit_val c) 16); [|lia]. now apply Z.eqb_eq.
Qed.

(** Reading is the inverse up to the case of the letters. *)
Lemma hex_pairs_sound n : forall hex out bs, (length hex <= n)%nat -> Nat.Even (length hex) -> hex_pairs hex out = (true, bs) ->
  exists b, bs = out ++ b /\ BytesToHexString b = AsciiStrToLower hex.
Proof.
  induction n as [|n IH]; intros hex out bs Hn He E.
  - destruct hex; [|cbn in Hn; lia]. injection E as <-. exists []. now rewrite app_nil_r.
  - destruct hex as [|a [|c hex]]; cbn [hex_pairs] in E.
    + injection E as <-. exists []. now rewrite app_nil_r.
    + exfalso. cbn in He. destruct He as [k Hk]. lia.
    + destruct (whole (from_chars 16 255 [a; c])) as [v|] eqn:W; [|unfold whole in W; destruct (from_chars 16 255 [a; c]) as [[v [|x r]]|]; discriminate].
      destruct (whole_sound _ _ _ _ W) as (_ & F & V & M). apply Forall_cons_iff in F as [Fa F]. apply Forall_inv in F.
      pose proof (digit_val_nonneg a). pose proof (digit_val_nonneg c). rewrite from_chars_hex in E by lia.
      destruct (IH hex (out ++ [digit_val a * 16 + digit_val c]) bs) as (b & -> & B); [cbn in Hn; lia|cbn in He; destruct He as [k Hk]; exists (k - 1)%nat; lia|exact E|].
      exists ((digit_val a * 16 + digit_val c) :: b). split; [now rewrite <- app_assoc|].
      unfold BytesToHexString in *. cbn [flat_map app]. rewrite B. unfold AsciiStrToLower. cbn [map].
      rewrite Z.shiftr_div_pow2 by lia. change (2 ^ 4) with 16. rewrite Z.div_add_l, (Z.div_small (digit_val c)), Z.add_0_r by lia.
      change 15 with (Z.ones 4). rewrite Z.land_ones by lia. change (2 ^ 4) with 16. rewrite Z.add_comm, Z.mod_add, Z.mod_small by lia.
      now rewrite !hex_lower by lia.
Qed.

Lemma hex_reads hex out bs : HexStringToBytes hex out = (true, bs) -> BytesToHexString bs = AsciiStrToLower hex.
Proof.
  unfold HexStringToBytes. destruct (Nat.eqb_spec (length hex mod 2) 0) as [M|M]; [|discriminate]. cbn [negb]. intros E.
  destruct (hex_pairs_sound (length hex) hex [] bs) as (b & -> & B); [lia|apply Nat.Div0.mod_divides in M as [k Hk]; exists k; exact Hk|exact E|exact B].
Qed.

(** ** Finding *)

Lemma starts_with_ok s p : starts_with s p = true <-> exists r, s = p ++ r.
Proof.
  revert s; induction p as [|c p IH]; intros s; cbn; [split; [now exists s|reflexivity]|]. destruct s as [|d s]; [split; [discriminate|now intros [r ?]]|].
  rewrite andb_true_iff, Z.eqb_eq, IH. split; [intros [-> [r ->]]; now exists r|intros [r [= -> ->]]; split; [reflexivity|now exists r]].
Qed.

Lemma find_eq s needle : find s needle =
  if starts_with s needle then Some 0%nat else match s with [] => None | _ :: s => option_map S (find s needle) end.
Proof. now destruct s. Qed.

(** The first occurrence: what is before it holds none. *)
Lemma find_some s needle k : find s needle = Some k -> needle <> [] ->
  exists a b, s = a ++ needle ++ b /\ length a = k /\ find a needle = None.
Proof.
  intros H N. revert k H; induction s as [|c s IH]; intros k; rewrite find_eq.
  - destruct (starts_with [] needle) eqn:E; [|discriminate]. intros _. apply starts_with_ok in E as [r E]. now destruct needle.
  - destruct (starts_with (c :: s) needle) eqn:E.
    + intros [= <-]. apply starts_with_ok in E as [r ->]. exists [], r. repeat split. cbn. now destruct needle.
    + destruct (find s needle) as [j|]; [|discriminate]. intros [= <-]. destruct (IH j eq_refl) as (a & b & -> & <- & F). exists (c :: a), b.
      repeat split. rewrite find_eq, F. destruct (starts_with (c :: a) needle) eqn:E'; [|reflexivity].
      apply starts_with_ok in E' as [r E']. assert (T : starts_with (c :: a ++ needle ++ b) needle = true); [|congruence].
      apply starts_with_ok. exists (r ++ needle ++ b). change (c :: a ++ needle ++ b) with ((c :: a) ++ needle ++ b). now rewrite E', <- app_assoc.
Qed.

Lemma find_none_app a b needle : find (a ++ b) needle = None -> find a needle = None.
Proof.
  induction a as [|c a IH]; cbn [app]; intros H.
  - rewrite find_eq in H |- *. destruct (starts_with [] needle) eqn:E; [|reflexivity]. apply starts_with_ok in E as [r E]. symmetry in E. apply app_eq_nil in E as [-> _].
    now destruct b.
  - rewrite find_eq in H |- *. destruct (starts_with (c :: a ++ b) needle) eqn:E; [discriminate|]. destruct (find (a ++ b) needle); [discriminate|]. rewrite IH by reflexivity.
    destruct (starts_with (c :: a) needle) eqn:E'; [|reflexivity]. apply starts_with_ok in E' as [r E']. exfalso. assert (T : starts_with (c :: a ++ b) needle = true); [|congruence].
    apply starts_with_ok. exists (r ++ b). change (c :: a ++ b) with ((c :: a) ++ b). now rewrite E', <- app_assoc.
Qed.

(** A separator whose first character is not in its rest does not straddle. *)
Lemma find_app a x y b : x <> y -> find a [x; y] = None -> find (a ++ [x; y] ++ b) [x; y] = Some (length a).
Proof.
  intros N. induction a as [|c a IH]; cbn [app length]; intros H; rewrite find_eq.
  - cbn [starts_with]. now rewrite !Z.eqb_refl.
  - rewrite find_eq in H. destruct (starts_with (c :: a) [x; y]) eqn:E; [discriminate|]. destruct (find a [x; y]) eqn:F; [discriminate|]. cbn [app] in IH. rewrite (IH eq_refl).
    assert (E' : starts_with (c :: a ++ x :: y :: b) [x; y] = false); [|now rewrite E'].
    cbn [starts_with] in E |- *. destruct (Z.eqb_spec x c); [|reflexivity]. cbn [andb] in *. destruct a as [|d a]; cbn [app].
    + destruct (Z.eqb_spec y x); [congruence|reflexivity].
    + exact E.
Qed.

(** ** Splitting and joining *)

Fixpoint split_on (d : Z) (s : list Z) : list (list Z) :=
  match s with
  | [] => [[]]
  | c :: s => if c =? d then [] :: split_on d s else match split_on d s with p :: ps => (c :: p) :: ps | [] => [[c]] end
  end.
Definition join_with (sep : list Z) (parts : list (list Z)) : list Z :=
  match parts with [] => [] | p :: ps => p ++ flat_map (fun q => sep ++ q) ps end.
Definition prepend (cur : list Z) (ps : list (list Z)) : list (list Z) := match ps with p :: ps => (cur ++ p) :: ps | [] => [cur] end.

Lemma split_on_cons d s : exists p ps, split_on d s = p :: ps.
Proof. induction s as [|c s (p & ps & E)]; cbn; [eauto|]. rewrite E. destruct (c =? d); eauto. Qed.

Lemma substr_mid (a b c : list Z) : substr (a ++ b ++ c) (length a) (length b) = b.
Proof. unfold substr. rewrite skipn_app, skipn_all, Nat.sub_diag. cbn. now rewrite firstn_app, Nat.sub_diag, firstn_O, app_nil_r, firstn_all. Qed.

Lemma split_fold d sv r : forall pre cur res, sv = pre ++ cur ++ r ->
  fst (fold_left (split_step sv d) (seq (length pre + length cur) (S (length r))) (res, length pre)) = res ++ prepend cur (split_on d r).
Proof.
  induction r as [|c r IH]; intros pre cur res E.
  - cbn [length seq fold_left]. unfold split_step. assert (L : length sv = (length pre + length cur)%nat) by (rewrite E, !length_app; cbn; lia).
    rewrite L, Nat.eqb_refl. cbn [orb fst split_on prepend]. rewrite app_nil_r. do 2 f_equal. replace (length pre + length cur - length pre)%nat with (length cur) by lia. rewrite E. apply substr_mid.
  - cbn [length]. rewrite <- cons_seq. cbn [fold_left]. unfold split_step at 2.
    assert (A : at_ sv (length pre + length cur) = c).
    { unfold at_. rewrite E, app_assoc, <- length_app, app_nth2 by lia. now rewrite Nat.sub_diag. }
    assert (L : (length pre + length cur =? length sv)%nat = false) by (apply Nat.eqb_neq; rewrite E, !length_app; cbn; lia).
    rewrite L, A. cbn [orb split_on]. destruct (Z.eqb_spec c d) as [->|N].
    + replace (length pre + length cur - length pre)%nat with (length cur) by lia. rewrite E at 2. rewrite substr_mid.
      pose proof (IH (pre ++ cur ++ [d]) [] (res ++ [cur])) as H. rewrite !length_app in H. cbn [length app] in H.
      replace (length pre + (length cur + 1) + 0)%nat with (S (length pre + length cur)) in H by lia.
      replace (length pre + (length cur + 1))%nat with (S (length pre + length cur)) in H by lia.
      rewrite H by (rewrite E, <- !app_assoc; reflexivity). cbn [prepend]. rewrite app_nil_r, <- app_assoc. destruct (split_on_cons d r) as (p & ps & ->). reflexivity.
    + pose proof (IH pre (cur ++ [c]) res) as H. rewrite length_app in H. cbn [length] in H. replace (length pre + (length cur + 1))%nat with (S (length pre + length cur)) in H by lia.
      rewrite H by (rewrite E, <- !app_assoc; reflexivity). destruct (split_on_cons d r) as (p & ps & ->). cbn [prepend]. now rewrite <- app_assoc.
Qed.

Lemma StrSplit_ok sv d : StrSplit sv d = split_on d sv.
Proof.
  unfold StrSplit. pose proof (split_fold d sv sv [] [] [] eq_refl) as H. cbn [length Nat.add app] in H. rewrite H. destruct (split_on_cons d sv) as (p & ps & ->). reflexivity.
Qed.

Lemma StrJoin_ok parts sep : StrJoin parts sep = join_with sep parts.
Proof.
  unfold StrJoin. destruct parts as [|p ps]; [reflexivity|]. cbn [fold_left join_with Nat.ltb Nat.leb app].
  assert (G : forall ps acc i, (0 < i)%nat -> fst (fold_left (fun '(result, i) part => ((if (0 <? i)%nat then result ++ sep else result) ++ part, S i)) ps (acc, i)) = acc ++ flat_map (fun q => sep ++ q) ps).
  { clear. induction ps as [|q ps IH]; intros acc i Hi; cbn [fold_left flat_map]; [now rewrite app_nil_r|]. destruct (Nat.ltb_spec 0 i); [|lia].
    rewrite IH by lia. now rewrite <- !app_assoc. }
  apply G. lia.
Qed.

Lemma StrJoin_ints_ok parts sep : StrJoin_ints parts sep = StrJoin (map to_string parts) sep.
Proof.
  unfold StrJoin_ints, StrJoin. generalize (@nil Z, 0%nat). induction parts as [|p ps IH]; intros [acc i]; [reflexivity|]. cbn [map fold_left]. apply IH.
Qed.

Lemma join_split d s : join_with [d] (split_on d s) = s.
Proof.
  induction s as [|c s IH]; [reflexivity|]. cbn [split_on]. destruct (split_on_cons d s) as (p & ps & E). rewrite E in *. cbn [join_with] in *.
  destruct (Z.eqb_spec c d) as [->|N]; cbn [app flat_map]; now rewrite <- IH at 1.
Qed.

Lemma split_no_delim d s : Forall (fun p => ~ In d p) (split_on d s).
Proof.
  induction s as [|c s IH]; cbn [split_on]; [repeat constructor; tauto|]. destruct (Z.eqb_spec c d) as [->|N]; [constructor; [tauto|exact IH]|].
  destruct (split_on d s) as [|p ps]; [repeat constructor; intros [E|[]]; congruence|]. apply Forall_cons_iff in IH as [Hp IH]. constructor; [|exact IH]. intros [E|E]; [congruence|tauto].
Qed.

Lemma split_piece d p r : ~ In d p -> split_on d (p ++ d :: r) = p :: split_on d r.
Proof.
  induction p as [|c p IH]; intros H; cbn; [now rewrite Z.eqb_refl|]. destruct (Z.eqb_spec c d) as [->|N]; [exfalso; apply H; now left|].
  rewrite IH by (intros X; apply H; now right). reflexivity.
Qed.

Lemma split_last d p : ~ In d p -> split_on d p = [p].
Proof.
  induction p as [|c p IH]; intros H; cbn; [reflexivity|]. destruct (Z.eqb_spec c d) as [->|N]; [exfalso; apply H; now left|].
  now rewrite IH by (intros X; apply H; now right).
Qed.

Lemma split_join d parts : parts <> [] -> Forall (fun p => ~ In d p) parts -> split_on d (join_with [d] parts) = parts.
Proof.
  destruct parts as [|p ps]; [easy|]. intros _ H. apply Forall_cons_iff in H as [Hp H]. cbn [join_with]. revert p Hp.
  induction H as [|q ps Hq H IH]; intros p Hp; cbn [flat_map]; [now rewrite app_nil_r, split_last|]. cbn [app]. rewrite split_piece by exact Hp. now rewrite IH.
Qed.

(** By a string: the pieces join to the whole, and none holds the separator. *)
Lemma split_loop_ok sep n : forall fuel sv start res, sep <> [] -> (start <= length sv)%nat -> (length sv - start <= n)%nat -> (n < fuel)%nat ->
  exists ps, split_loop fuel sv sep start res = Some (res ++ ps) /\ ps <> [] /\ join_with sep ps = skipn start sv /\ Forall (fun p => find p sep = None) ps.
Proof.
  induction n as [n IH] using lt_wf_ind; intros [|fuel] sv start res N Hs Hn Hf; [lia|]. cbn [split_loop]. unfold find_from.
  destruct (find (skipn start sv) sep) as [k|] eqn:E; cbn [option_map].
  - destruct (find_some _ _ _ E N) as (a & b & Ea & La & Fa). assert (L : length (skipn start sv) = (length a + (length sep + length b))%nat) by (rewrite Ea, !length_app; reflexivity).
    rewrite length_skipn in L. assert (0 < length sep)%nat by (destruct sep; [easy|cbn; lia]).
    destruct (IH (n - length sep)%nat ltac:(lia) fuel sv (start + k + length sep)%nat (res ++ [a]) N ltac:(lia) ltac:(lia) ltac:(lia)) as (ps & R & Np & J & F).
    exists (a :: ps). replace (substr sv start (start + k - start)) with a.
    2:{ unfold substr. rewrite Ea, <- La. replace (start + length a - start)%nat with (length a) by lia. now rewrite firstn_app, Nat.sub_diag, firstn_O, app_nil_r, firstn_all. }
    split; [rewrite R, <- app_assoc; reflexivity|]. split; [discriminate|]. split; [|constructor; assumption].
    assert (Eb : skipn (start + k + length sep) sv = b).
    { replace (start + k + length sep)%nat with (length (a ++ sep) + start)%nat by (rewrite length_app; lia). rewrite <- skipn_skipn, Ea, app_assoc, skipn_app, skipn_all, Nat.sub_diag. reflexivity. }
    rewrite Ea, <- Eb, <- J. destruct ps as [|q ps]; [easy|]. cbn [join_with flat_map]. now rewrite <- !app_assoc.
  - exists [skipn start sv]. split; [reflexivity|]. split; [discriminate|]. split; [cbn; now rewrite app_nil_r|]. repeat constructor. exact E.
Qed.

Lemma StrSplit_sep_ok sv sep : sep <> [] -> exists ps, StrSplit_sep sv sep = Some ps /\ ps <> [] /\ StrJoin ps sep = sv /\ Forall (fun p => find p sep = None) ps.
Proof.
  intros N. destruct (split_loop_ok sep (length sv) (S (length sv)) sv 0 [] N ltac:(lia) ltac:(lia) ltac:(lia)) as (ps & R & Np & J & F).
  exists ps. rewrite StrJoin_ok. split; [|auto]. unfold StrSplit_sep. now destruct sep.
Qed.

Lemma find_none_char p d : find p [d] = None <-> ~ In d p.
Proof.
  induction p as [|c p IH]; [cbn; tauto|]. rewrite find_eq. cbn [starts_with In]. rewrite andb_true_r. destruct (Z.eqb_spec d c) as [->|N].
  - split; [discriminate|]. intros H. exfalso. apply H. now left.
  - destruct (find p [d]); cbn [option_map]; [split; [discriminate|]|split; [|reflexivity]]; intros H.
    + assert (X : Some n = None); [|discriminate]. apply IH. intros X. apply H. now right.
    + intros [X|X]; [congruence|]. now apply (proj1 IH).
Qed.

Lemma StrSplit_sep_char sv d : StrSplit_sep sv [d] = Some (StrSplit sv d).
Proof.
  destruct (StrSplit_sep_ok sv [d] ltac:(discriminate)) as (ps & -> & N & J & F). f_equal. rewrite StrSplit_ok, <- J, StrJoin_ok. symmetry. apply split_join; [exact N|].
  eapply Forall_impl; [|exact F]. intros p Hp. now apply find_none_char.
Qed.

(** ** Stripping *)

Lemma strip_front_ok s : exists a, s = a ++ strip_front s /\ forallb AsciiIsWhitespace a = true /\
  match strip_front s with [] => True | c :: _ => AsciiIsWhitespace c = false end.
Proof.
  induction s as [|c s (a & E & A & H)]; [now exists []|]. cbn [strip_front]. destruct (AsciiIsWhitespace c) eqn:W.
  - exists (c :: a). cbn. rewrite W, A. repeat split; [now rewrite E at 1|exact H].
  - exists []. repeat split. exact W.
Qed.

Lemma forallb_rev {A} (f : A -> bool) l : forallb f (rev l) = forallb f l.
Proof. induction l as [|x l IH]; [reflexivity|]. cbn. rewrite forallb_app, IH. cbn. destruct (f x), (forallb f l); reflexivity. Qed.

(** What is left is between blanks, and has none at its ends. *)
Lemma strip_ok sv : exists a b, sv = a ++ StripAsciiWhitespace sv ++ b /\ forallb AsciiIsWhitespace (a ++ b) = true /\
  (forall c r, StripAsciiWhitespace sv = c :: r -> AsciiIsWhitespace c = false) /\ (forall c r, StripAsciiWhitespace sv = r ++ [c] -> AsciiIsWhitespace c = false).
Proof.
  unfold StripAsciiWhitespace. destruct (strip_front_ok sv) as (a & E & A & H). destruct (strip_front_ok (rev (strip_front sv))) as (b & F & B & K).
  set (m := strip_front (rev (strip_front sv))) in *. assert (R : strip_front sv = rev m ++ rev b) by (rewrite <- rev_app_distr, <- F; now rewrite rev_involutive).
  exists a, (rev b). split; [rewrite <- R; exact E|]. split; [now rewrite forallb_app, forallb_rev, A, B|]. split.
  - intros c r X. rewrite R, X in H. exact H.
  - intros c r X. assert (m = c :: rev r) by (rewrite <- (rev_involutive m), X, rev_app_distr; reflexivity). rewrite H0 in K. exact K.
Qed.
