(* ===== verification/SegTree.v ===== *)
(** A set of numbers as maximal segments ([utils/segment_tree.h]): which sequence
    numbers a channel has seen.  The ordered map from first to past-the-last
    elements is the list of its pairs in order. *)
From Stdlib Require Import ZArith Lia List Bool FinFun.
From S2P Require Import Prelude.
Import ListNotations.

(** ** The code, for [T = size_t] *)

Record SegmentTree := MkSegmentTree { segments_ : list (Z * Z); count_ : Z }.
Definition SegmentTree_empty : SegmentTree := MkSegmentTree [] 0.

(** The pairs before [upper_bound(item)], and those from it on. *)
Fixpoint upper_bound (l : list (Z * Z)) (item : Z) : list (Z * Z) * list (Z * Z) :=
  match l with
  | [] => ([], [])
  | (k, v) :: r => if item <? k then ([], l) else let '(b, a) := upper_bound r item in ((k, v) :: b, a)
  end.

(** [std::prev] of a position: what lies before it, and the element. *)
Definition prev_of (before : list (Z * Z)) : option (list (Z * Z) * (Z * Z)) :=
  match rev before with [] => None | x :: r => Some (rev r, x) end.

Definition merge_prev (before : list (Z * Z)) (current : Z * Z) : list (Z * Z) * (Z * Z) :=
  match prev_of before with
  | Some (b, (pk, pv)) => if pv =? fst current then (b, (pk, snd current)) else (before, current)
  | None => (before, current)
  end.
Definition merge_next (current : Z * Z) (after : list (Z * Z)) : list (Z * Z) :=
  match after with
  | (nk, nv) :: a => if nk =? snd current then (fst current, nv) :: a else current :: after
  | [] => [current]
  end.

(** Where the item goes: the pairs before, its segment, the pairs after; [None] when
    it is there already.  An insertion at a key that exists changes nothing. *)
Definition place (l : list (Z * Z)) (item : Z) : option (list (Z * Z) * (Z * Z) * list (Z * Z)) :=
  let '(before, after) := upper_bound l item in
  match prev_of before with
  | None => Some (before, (item, u64 (item + 1)), after)
  | Some (b, (k, v)) =>
      if v <? item then
        if k =? item then Some (b, (k, v), after) else Some (before, (item, u64 (item + 1)), after)
      else if item =? v then Some (b, (k, u64 (item + 1)), after)
      else None
  end.

Definition Insert (t : SegmentTree) (item : Z) : bool * SegmentTree :=
  match segments_ t with
  | [] => (true, MkSegmentTree [(item, u64 (item + 1))] (u64 (count_ t + 1)))
  | _ =>
      match place (segments_ t) item with
      | None => (false, t)
      | Some (before, current, after) =>
          let '(before, current) := merge_prev before current in
          (true, MkSegmentTree (before ++ merge_next current after) (u64 (count_ t + 1)))
      end
  end.

Definition Contains (t : SegmentTree) (item : Z) : bool :=
  match segments_ t with
  | [] => false
  | _ =>
      let '(before, _) := upper_bound (segments_ t) item in
      match prev_of before with None => false | Some (_, (_, v)) => negb (v <=? item) end
  end.

Definition SegmentsCount (t : SegmentTree) : nat := length (segments_ t).
Definition Count (t : SegmentTree) : Z := count_ t.
Definition GetSegments (t : SegmentTree) : list (Z * Z) := segments_ t.

(** ** Sets of numbers *)

Definition in_seg (x : Z) (p : Z * Z) : Prop := fst p <= x < snd p.
Definition member (x : Z) (l : list (Z * Z)) : Prop := exists p, In p l /\ in_seg x p.
Definition elem (x : Z) (t : SegmentTree) : Prop := member x (segments_ t).

(** In order, not empty, not adjacent, from [lo] on. *)
Fixpoint apart (lo : Z) (l : list (Z * Z)) : Prop :=
  match l with [] => True | (k, v) :: r => lo < k /\ k < v /\ apart v r end.
(** Past the last element. *)
Fixpoint end_of (lo : Z) (l : list (Z * Z)) : Z := match l with [] => lo | (_, v) :: r => end_of v r end.
Fixpoint total (l : list (Z * Z)) : Z := match l with [] => 0 | (k, v) :: r => (v - k) + total r end.

Definition tree_ok (t : SegmentTree) : Prop :=
  apart (-1) (segments_ t) /\ end_of 0 (segments_ t) < 2 ^ 64 /\ count_ t = total (segments_ t).

Lemma apart_app lo a b : apart lo (a ++ b) <-> apart lo a /\ apart (end_of lo a) b.
Proof. revert lo; induction a as [|[k v] a IH]; intros lo; cbn; [tauto|]. rewrite IH. tauto. Qed.

Lemma end_of_app lo a b : end_of lo (a ++ b) = end_of (end_of lo a) b.
Proof. revert lo; induction a as [|[k v] a IH]; intros lo; cbn; [reflexivity|apply IH]. Qed.

Lemma total_app a b : total (a ++ b) = total a + total b.
Proof. induction a as [|[k v] a IH]; cbn; [reflexivity|]. rewrite IH. ring. Qed.

Lemma member_app x a b : member x (a ++ b) <-> member x a \/ member x b.
Proof.
  unfold member. split.
  - intros (p & H & Hx). apply in_app_iff in H as [H|H]; [left|right]; eauto.
  - intros [(p & H & Hx)|(p & H & Hx)]; exists p; rewrite in_app_iff; auto.
Qed.

Lemma member_cons x p l : member x (p :: l) <-> in_seg x p \/ member x l.
Proof.
  unfold member. split.
  - intros (q & [->|H] & Hx); eauto.
  - intros [Hx|(q & H & Hx)]; [exists p|exists q]; cbn; auto.
Qed.

Lemma member_nil x : member x [] <-> False.
Proof. split; [intros (p & [] & _)|tauto]. Qed.

Lemma apart_end lo l : apart lo l -> lo <= end_of lo l.
Proof. revert lo; induction l as [|[k v] l IH]; intros lo; cbn; [lia|]. intros (H1 & H2 & H3). specialize (IH v H3). lia. Qed.

Lemma end_of_lo lo lo' l : l <> [] -> end_of lo l = end_of lo' l.
Proof. destruct l as [|[k v] l]; [congruence|reflexivity]. Qed.

Lemma member_range lo l x : apart lo l -> member x l -> lo < x < end_of lo l.
Proof.
  revert lo; induction l as [|[k v] l IH]; intros lo; cbn; [intros _ H; now apply member_nil in H|]. intros (H1 & H2 & H3) H.
  pose proof (apart_end v l H3). apply member_cons in H as [H|H]; [unfold in_seg in H; cbn in H; lia|]. specialize (IH v H3 H). lia.
Qed.

Lemma total_bound lo l : apart lo l -> 0 <= total l <= end_of lo l - lo.
Proof. revert lo; induction l as [|[k v] l IH]; intros lo; cbn; [lia|]. intros (H1 & H2 & H3). specialize (IH v H3). lia. Qed.

Lemma total_below lo l : -1 <= lo -> l <> [] -> apart lo l -> total l < end_of lo l - lo.
Proof.
  intros Hlo Hn H. destruct l as [|[k v] l]; [congruence|]. cbn in *. destruct H as (H1 & H2 & H3). pose proof (total_bound v l H3). lia.
Qed.

(** A set has one representation. *)
Lemma apart_unique lo a b : apart lo a -> apart lo b -> (forall x, member x a <-> member x b) -> a = b.
Proof.
  revert lo b; induction a as [|[k v] a IH]; intros lo [|[k' v'] b]; cbn; intros Ha Hb E.
  - reflexivity.
  - destruct Hb as (H1 & H2 & _). exfalso. apply (member_nil k'). rewrite E, member_cons. left. unfold in_seg. cbn. lia.
  - destruct Ha as (H1 & H2 & _). exfalso. apply (member_nil k). rewrite <- E, member_cons. left. unfold in_seg. cbn. lia.
  - destruct Ha as (H1 & H2 & H3), Hb as (H1' & H2' & H3').
    assert (M : forall x k v l, k < v -> apart v l -> member x ((k, v) :: l) -> k <= x /\ (v <= x -> v < x /\ member x l)).
    { intros x k0 v0 l Hk Hl H. apply member_cons in H as [H|H]; [unfold in_seg in H; cbn in H; lia|]. pose proof (member_range v0 l x Hl H).
      split; [lia|]. intros _. split; [lia|exact H]. }
    assert (I : forall x k v l, k <= x < v -> member x ((k, v) :: l)) by (intros; apply member_cons; left; assumption).
    assert (Ek : k = k').
    { pose proof (proj1 (M k k' v' b H2' H3' (proj1 (E k) (I k k v a ltac:(lia))))). pose proof (proj1 (M k' k v a H2 H3 (proj2 (E k') (I k' k' v' b ltac:(lia))))). lia. }
    subst k'. assert (Ev : v = v').
    { destruct (Z.lt_trichotomy v v') as [L|[L|L]]; [|exact L|].
      - destruct (M v k v a H2 H3 (proj2 (E v) (I v k v' b ltac:(lia)))) as [_ X]. specialize (X ltac:(lia)). lia.
      - destruct (M v' k v' b H2' H3' (proj1 (E v') (I v' k v a ltac:(lia)))) as [_ X]. specialize (X ltac:(lia)). lia. }
    subst v'. f_equal. apply (IH v b H3 H3'). intros x. split; intros Hx.
    + pose proof (member_range v a x H3 Hx). destruct (M x k v b H2' H3' (proj1 (E x) (proj2 (member_cons x (k, v) a) (or_intror Hx)))) as [_ X]. apply X. lia.
    + pose proof (member_range v b x H3' Hx). destruct (M x k v a H2 H3 (proj2 (E x) (proj2 (member_cons x (k, v) b) (or_intror Hx)))) as [_ X]. apply X. lia.
Qed.

(** ** The operations on sets *)

Lemma upper_bound_ok lo l x : apart lo l -> let '(b, a) := upper_bound l x in
  l = b ++ a /\ (forall p, In p b -> fst p <= x) /\ (match a with [] => True | (k, _) :: _ => x < k end).
Proof.
  revert lo; induction l as [|[k v] l IH]; intros lo H; cbn [upper_bound]; [cbn; intuition|]. destruct H as (H1 & H2 & H3).
  destruct (Z.ltb_spec x k) as [L|L]; [cbn; intuition|]. specialize (IH v H3). destruct (upper_bound l x) as [b a]. destruct IH as (E & B & A).
  split; [now rewrite E|]. split; [|exact A]. intros p [<-|H]; [exact L|now apply B].
Qed.

Lemma prev_of_app b p : prev_of (b ++ [p]) = Some (b, p).
Proof. unfold prev_of. rewrite rev_app_distr. cbn. now rewrite rev_involutive. Qed.

Lemma prev_of_cases b : b = [] \/ exists b' p, b = b' ++ [p] /\ prev_of b = Some (b', p).
Proof. destruct b as [|p b] using rev_ind; [now left|]. right. exists b, p. split; [reflexivity|apply prev_of_app]. Qed.

Lemma Contains_ok t x : tree_ok t -> Contains t x = true <-> elem x t.
Proof.
  intros (H & _ & _). unfold Contains, elem. destruct (segments_ t) as [|p l] eqn:E; [cbn; split; [discriminate|intros M; now apply member_nil in M]|].
  rewrite <- E in *. pose proof (upper_bound_ok (-1) (segments_ t) x H) as U. destruct (upper_bound (segments_ t) x) as [b a]. destruct U as (Es & B & A).
  rewrite Es in H |- *. apply apart_app in H as [Hb Ha]. rewrite member_app.
  assert (NA : ~ member x a).
  { destruct a as [|[k v] a]; [rewrite member_nil; tauto|]. intros M. destruct Ha as (H1 & H2 & H3).
    apply member_cons in M as [M|M]; [unfold in_seg in M; cbn in M; lia|]. pose proof (member_range v a x H3 M). lia. }
  destruct (prev_of_cases b) as [->|(b' & [k v] & -> & ->)]; [cbn; rewrite member_nil; split; [discriminate|tauto]|].
  apply apart_app in Hb as [Hb' (H1 & H2 & _)]. rewrite member_app, member_cons, member_nil.
  assert (k <= x) by (apply (B (k, v)); rewrite in_app_iff; right; now left). rewrite negb_true_iff, Z.leb_gt. unfold in_seg. cbn [fst snd].
  split; [intros; left; right; left; lia|]. intros [[M|[M|[]]]|M]; [|lia|tauto]. pose proof (member_range (-1) b' x Hb' M). lia.
Qed.

(** Merging keeps the elements and restores the gaps. *)
Lemma merge_next_ok lo k v a : lo < k -> k < v -> apart (v - 1) a ->
  apart lo (merge_next (k, v) a) /\ end_of lo (merge_next (k, v) a) = end_of v a /\
  total (merge_next (k, v) a) = v - k + total a /\ forall x, member x (merge_next (k, v) a) <-> k <= x < v \/ member x a.
Proof.
  intros H1 H2 Ha. destruct a as [|[nk nv] a]; cbn [merge_next fst snd].
  - cbn. repeat split; try lia. + intros M. apply member_cons in M as [M|M]; [now left|now right]. + intros [M|M]; apply member_cons; [now left|now right].
  - destruct Ha as (H3 & H4 & H5). destruct (Z.eqb_spec nk v) as [->|N]; cbn [apart end_of total].
    + repeat split; try lia; try exact H5.
      * intros M. apply member_cons in M as [M|M]; [|right; apply member_cons; now right]. unfold in_seg in M. cbn in M.
        destruct (Z_lt_le_dec x v); [left; lia|right; apply member_cons; left; unfold in_seg; cbn; lia].
      * intros [M|M]; apply member_cons; [left; unfold in_seg; cbn; lia|]. apply member_cons in M as [M|M]; [left; unfold in_seg in *; cbn in *; lia|now right].
    + repeat split; try lia; try exact H5.
      * intros M. apply member_cons in M as [M|M]; [now left|now right].
      * intros [M|M]; apply member_cons; [now left|now right].
Qed.

Lemma merge_prev_apart lo b k v : apart lo b -> end_of lo b < k -> merge_prev b (k, v) = (b, (k, v)).
Proof.
  intros H E. unfold merge_prev. destruct (prev_of_cases b) as [->|(b' & [pk pv] & -> & ->)]; [reflexivity|].
  rewrite end_of_app in E. cbn in E. cbn [fst snd]. destruct (Z.eqb_spec pv k); [lia|reflexivity].
Qed.

Lemma placed_ok b k v a : apart (-1) b -> end_of (-1) b < k -> k < v -> apart (v - 1) a ->
  let l := b ++ merge_next (k, v) a in
  apart (-1) l /\ end_of 0 l = end_of v a /\ total l = total b + (v - k) + total a /\ forall y, member y l <-> member y b \/ k <= y < v \/ member y a.
Proof.
  intros Hb E L Ha l. destruct (merge_next_ok (end_of (-1) b) k v a E L Ha) as (M1 & M2 & M3 & M4). unfold l.
  split; [apply apart_app; now split|]. split; [|split; [rewrite total_app, M3; ring|intros y; now rewrite member_app, M4]].
  rewrite end_of_app, <- M2. apply end_of_lo. unfold merge_next. destruct a as [|[nk nv] a]; [discriminate|]. now destruct (nk =? snd (k, v)).
Qed.

Lemma apart_raise lo x a : apart lo a -> (match a with [] => True | (k, _) :: _ => x < k end) -> apart x a.
Proof. destruct a as [|[k v] a]; cbn; intuition. Qed.

(** [Insert] adds the item, tells whether it was new, and keeps the segments maximal. *)
Lemma Insert_ok t x : tree_ok t -> 0 <= x < 2 ^ 64 - 1 -> let '(new, t') := Insert t x in
  tree_ok t' /\ new = negb (Contains t x) /\ (forall y, elem y t' <-> y = x \/ elem y t) /\ Count t' = Count t + Z.b2z new.
Proof.
  intros Ht Hx. pose proof (Contains_ok t x Ht) as HC. destruct Ht as (H & He & Hc).
  assert (U1 : u64 (x + 1) = x + 1) by (apply u64_small; lia).
  (* what the cases that add the item have in common *)
  assert (FIN : forall b k v a l, apart (-1) b -> end_of (-1) b < k -> k < v -> apart (v - 1) a -> l = b ++ merge_next (k, v) a ->
    end_of v a < 2 ^ 64 -> total b + (v - k) + total a = total (segments_ t) + 1 ->
    (forall y, member y b \/ k <= y < v \/ member y a <-> y = x \/ elem y t) -> ~ elem x t ->
    let t' := MkSegmentTree l (u64 (count_ t + 1)) in
    tree_ok t' /\ true = negb (Contains t x) /\ (forall y, elem y t' <-> y = x \/ elem y t) /\ Count t' = Count t + Z.b2z true).
  { intros b k v a l Hb E L Ha -> B T M NM t'. destruct (placed_ok b k v a Hb E L Ha) as (P1 & P2 & P3 & P4).
    pose proof (total_bound (-1) _ P1) as TB. assert (NE : b ++ merge_next (k, v) a <> []).
    { destruct b; [|discriminate]. unfold merge_next. destruct a as [|[nk nv] a]; [discriminate|]. now destruct (nk =? snd (k, v)). }
    pose proof (total_below (-1) _ ltac:(lia) NE P1) as TL. rewrite (end_of_lo (-1) 0 _ NE), P2 in TL.
    assert (CT : u64 (count_ t + 1) = count_ t + 1) by (apply u64_small; lia).
    split; [|split; [|split]].
    - unfold tree_ok, t'. cbn [segments_ count_]. rewrite CT, P2, P3. repeat split; [exact P1|exact B|lia].
    - destruct (Contains t x) eqn:C; [|reflexivity]. exfalso. apply NM, HC. reflexivity.
    - intros y. unfold elem at 1, t'. cbn [segments_]. now rewrite P4, M.
    - unfold Count, t'. cbn [count_ Z.b2z]. exact CT. }
  unfold Insert. destruct (segments_ t) as [|p l] eqn:E.
  { rewrite U1. apply (FIN [] x (x + 1) [] _ I); cbn; try lia; try reflexivity.
    - intros y. unfold elem. rewrite E, member_nil. lia.
    - unfold elem. now rewrite E, member_nil. }
  rewrite <- E in *. clear p l E. unfold place. pose proof (upper_bound_ok (-1) (segments_ t) x H) as U.
  destruct (upper_bound (segments_ t) x) as [b a]. destruct U as (Es & B & A).
  assert (EL : forall y, elem y t <-> member y b \/ member y a) by (intros y; unfold elem; now rewrite Es, member_app).
  rewrite Es in H, He, FIN. rewrite total_app in FIN. apply apart_app in H as [Hb Ha]. rewrite end_of_app in He.
  assert (NA : ~ member x a).
  { intros M. destruct a as [|[k v] a]; [now apply member_nil in M|]. apply (apart_raise _ x) in Ha; [|exact A]. pose proof (member_range x _ x Ha M). lia. }
  assert (EA : forall v, v < 2 ^ 64 -> end_of v a < 2 ^ 64).
  { intros v Hv. destruct a as [|q a]; [exact Hv|]. now rewrite (end_of_lo v (end_of 0 b)). }
  destruct (prev_of_cases b) as [->|(b' & [k v] & -> & ->)].
  - cbn [prev_of rev merge_prev]. rewrite U1. apply (FIN [] x (x + 1) a _ I); cbn [end_of total app]; try lia; try reflexivity.
    + replace (x + 1 - 1) with x by lia. exact (apart_raise _ x a Ha A).
    + apply EA. lia.
    + intros y. rewrite EL, member_nil. assert (x <= y < x + 1 <-> y = x) by lia. tauto.
    + rewrite EL, member_nil. tauto.
  - apply apart_app in Hb as [Hb' (H1 & H2 & _)]. rewrite end_of_app in Ha, He. cbn [end_of] in Ha, He.
    assert (Hk : k <= x) by (apply (B (k, v)); rewrite in_app_iff; right; now left).
    assert (MB : forall y, member y (b' ++ [(k, v)]) <-> member y b' \/ k <= y < v).
    { intros y. rewrite member_app, member_cons, member_nil. unfold in_seg. cbn. tauto. }
    rewrite total_app in FIN. cbn [total] in FIN. destruct (Z.ltb_spec v x) as [L|L]; [|destruct (Z.eqb_spec x v) as [->|N]].
    + destruct (Z.eqb_spec k x); [lia|]. rewrite U1.
      assert (AB : apart (-1) (b' ++ [(k, v)])) by (apply apart_app; cbn; intuition).
      rewrite (merge_prev_apart (-1)); [|exact AB|rewrite end_of_app; exact L].
      apply (FIN (b' ++ [(k, v)]) x (x + 1) a _ AB); try reflexivity; try lia.
      * rewrite end_of_app. exact L.
      * replace (x + 1 - 1) with x by lia. exact (apart_raise _ x a Ha A).
      * apply EA. lia.
      * rewrite total_app. cbn [total]. lia.
      * intros y. rewrite EL, MB. assert (x <= y < x + 1 <-> y = x) by lia. tauto.
      * rewrite EL, MB. intros [[M|M]|M]; [|lia|tauto]. pose proof (member_range (-1) b' x Hb' M). lia.
    + rewrite U1, (merge_prev_apart (-1)) by (exact Hb' || exact H1).
      apply (FIN b' k (v + 1) a _ Hb' H1); try reflexivity; try lia.
      * replace (v + 1 - 1) with v by lia. exact Ha.
      * apply EA. lia.
      * intros y. rewrite EL, MB. assert (k <= y < v + 1 <-> y = v \/ k <= y < v) by lia. tauto.
      * rewrite EL, MB. intros [[M|M]|M]; [|lia|tauto]. pose proof (member_range (-1) b' v Hb' M). lia.
    + assert (C : elem x t) by (apply EL; left; apply MB; right; lia).
      split; [|split; [|split]].
      * unfold tree_ok. rewrite Es. split; [|split].
        -- apply apart_app. split; [apply apart_app; cbn; intuition|rewrite end_of_app; exact Ha].
        -- rewrite !end_of_app. exact He.
        -- rewrite <- Es. exact Hc.
      * apply HC in C. now rewrite C.
      * intros y. split; [tauto|]. intros [->|M]; [exact C|exact M].
      * cbn [Z.b2z]. lia.
Qed.

Lemma tree_ok_empty : tree_ok SegmentTree_empty.
Proof. repeat split. Qed.

(** One segment, from 1: the numbers up to its last. *)
Lemma one_segment t n : tree_ok t -> 1 <= n -> (forall x, elem x t -> 1 <= x) ->
  ((SegmentsCount t <= 1)%nat /\ Contains t 1 = true /\ Contains t n = true <->
   exists m, n <= m /\ forall x, elem x t <-> 1 <= x <= m).
Proof.
  intros Ht Hn H1. rewrite !(Contains_ok t) by exact Ht. pose proof Ht as (H & He & Hc). unfold SegmentsCount, elem in *. split.
  - intros (L & E1 & En). destruct (segments_ t) as [|[k v] [|q l]]; [now apply member_nil in E1| |cbn in L; lia].
    cbn in H. assert (M : forall x, member x [(k, v)] <-> k <= x < v) by (intros x; rewrite member_cons, member_nil; unfold in_seg; cbn; tauto).
    rewrite M in E1, En. pose proof (proj1 (M k)). exists (v - 1). split; [lia|]. intros x. rewrite M. specialize (H1 k (proj2 (M k) ltac:(lia))). lia.
  - intros (m & Hm & M). split; [|split; apply M; lia]. replace (segments_ t) with [(1, m + 1)]; [cbn; lia|].
    apply (apart_unique (-1)); [cbn; lia|exact H|]. intros x. rewrite M, member_cons, member_nil. unfold in_seg. cbn. lia.
Qed.

(** ** The elements as a list *)

Definition seg_elements (p : Z * Z) : list Z := map (fun i => fst p + Z.of_nat i) (seq 0 (Z.to_nat (snd p - fst p))).
Definition elements (t : SegmentTree) : list Z := flat_map seg_elements (segments_ t).

Lemma in_seg_elements x p : In x (seg_elements p) <-> in_seg x p.
Proof.
  unfold seg_elements, in_seg. rewrite in_map_iff. split.
  - intros (i & <- & Hi). apply in_seq in Hi. lia.
  - intros H. exists (Z.to_nat (x - fst p)). split; [lia|apply in_seq; lia].
Qed.

Lemma in_elements x t : In x (elements t) <-> elem x t.
Proof.
  unfold elements, elem, member. rewrite in_flat_map. split; intros (p & H & Hx); exists p; (split; [exact H|]); now apply in_seg_elements.
Qed.

Lemma elements_ok t : tree_ok t -> NoDup (elements t) /\ Z.of_nat (length (elements t)) = Count t.
Proof.
  intros (H & _ & E). unfold Count. rewrite E. unfold elements. clear E. revert H. generalize (-1). induction (segments_ t) as [|[k v] l IH]; intros lo H; [split; [constructor|reflexivity]|].
  destruct H as (H1 & H2 & H3). destruct (IH v H3) as [N Lh]. cbn [flat_map total]. split.
  - apply NoDup_app; [|exact N|].
    + unfold seg_elements. apply Injective_map_NoDup; [intros i j; lia|apply seq_NoDup].
    + intros x Hx Hy. apply in_seg_elements in Hx. apply in_flat_map in Hy as (p & Hp & Hy). apply in_seg_elements in Hy.
      assert (M : member x l) by (now exists p). pose proof (member_range v l x H3 M). unfold in_seg in Hx. cbn in Hx. lia.
  - rewrite length_app, Nat2Z.inj_add, Lh. unfold seg_elements. rewrite length_map, length_seq. cbn [fst snd]. lia.
Qed.

(** A tree whose elements are among the members of a list has no more of them. *)
Lemma Count_le t (l : list Z) : tree_ok t -> (forall x, elem x t -> In x l) -> Count t <= Z.of_nat (length l).
Proof.
  intros H S. destruct (elements_ok t H) as [N <-]. apply inj_le, (NoDup_incl_length N). intros x Hx. now apply S, in_elements.
Qed.
