(* ===== verification/Link.v ===== *)
(** Transport links ([link/transport/channel.h], [asio_link.h], [asio_link.cc]): the
    interface a channel needs of a link, and the link over sockets that implements
    it, with its message header.  The encoding of the two message structs is
    [msgpack]'s, which is a parameter; sockets and TLS are not modelled. *)
From Stdlib Require Import ZArith Lia List Bool.
From S2P Require Import Prelude.
From S2P Require Import Errors.
Import ListNotations.

(** ** The interface: requests built from a key and a value, and taken apart *)

Class TransportLink := {
  Request : Type;
  GetMaxBytesPerChunk : Z;
  PackMonoRequest : list Z -> list Z -> Request;
  PackChunkedRequest : list Z -> list Z -> Z -> Z -> Request;
  UnpackMonoRequest : Request -> option (list Z * list Z);
  UnpackChunckRequest : Request -> option (list Z * list Z * Z * Z);
  IsChunkedRequest : Request -> option bool;
  IsMonoRequest : Request -> option bool }.

(** The keys and the values a link carries. *)
Definition link_key (key : list Z) : Prop := Forall byte key /\ Z.of_nat (length key) < 2 ^ 32.
Definition link_value {L : TransportLink} (value : list Z) : Prop := Forall byte value /\ Z.of_nat (length value) <= GetMaxBytesPerChunk.

Class TransportLinkLaws (L : TransportLink) := {
  max_chunk_pos : 0 < GetMaxBytesPerChunk;
  mono_mono key value : link_key key -> link_value value ->
    IsMonoRequest (PackMonoRequest key value) = Some true /\ UnpackMonoRequest (PackMonoRequest key value) = Some (key, value);
  chunk_not_mono key value offset total : link_key key -> link_value value -> 0 <= offset < 2 ^ 64 -> 0 <= total < 2 ^ 64 ->
    IsMonoRequest (PackChunkedRequest key value offset total) = Some false /\
    IsChunkedRequest (PackChunkedRequest key value offset total) = Some true /\
    UnpackChunckRequest (PackChunkedRequest key value offset total) = Some (key, value, offset, total) }.

(** ** The link over sockets *)

Record MessageHeader := Header { magic : Z; body_len : Z; msg_type : Z }.
Definition kMagic : Z := 0x5941434C.
Definition kPush : Z := 1.
Definition kPushAck : Z := 2.
Definition kHeaderLen : nat := 9.

Definition Serialize (h : MessageHeader) : list Z :=
  [u8 (Z.land (Z.shiftr (magic h) 24) 0xFF); u8 (Z.land (Z.shiftr (magic h) 16) 0xFF); u8 (Z.land (Z.shiftr (magic h) 8) 0xFF); u8 (Z.land (magic h) 0xFF);
   u8 (Z.land (Z.shiftr (body_len h) 24) 0xFF); u8 (Z.land (Z.shiftr (body_len h) 16) 0xFF); u8 (Z.land (Z.shiftr (body_len h) 8) 0xFF); u8 (Z.land (body_len h) 0xFF);
   msg_type h].

(** Four bytes, the most significant one first. *)
Definition parse_u32 (data : list Z) (i : nat) : Z :=
  Z.lor (Z.lor (Z.lor (u32 (Z.shiftl (at_ data i) 24)) (u32 (Z.shiftl (at_ data (i + 1)) 16))) (u32 (Z.shiftl (at_ data (i + 2)) 8))) (at_ data (i + 3)).
Definition Parse (data : list Z) : MessageHeader := Header (parse_u32 data 0) (parse_u32 data 4) (at_ data 8).

Record PushMessage := MkPush {
  sender_rank : Z; push_key : list Z; push_value : list Z; trans_type : Z; chunk_offset : Z; message_length : Z }.
Record PushAckMessage := MkAck { error_code : Z; error_msg : list Z }.
Definition kTransMono : Z := 0.
Definition kTransChunked : Z := 1.
Definition kErrorCodeOk : Z := 0.
Definition kErrorCodeInvalid : Z := 1.

(** What [msgpack] promises: a message whose fields are in the range of their types
    and whose strings are shorter than [2 ^ 32] is read back as it was. *)
Definition push_ok (m : PushMessage) : Prop :=
  0 <= sender_rank m < 2 ^ 32 /\ link_key (push_key m) /\ link_key (push_value m) /\ 0 <= trans_type m < 2 ^ 8 /\
  0 <= chunk_offset m < 2 ^ 64 /\ 0 <= message_length m < 2 ^ 64.
Class Msgpack := {
  pack_push : PushMessage -> list Z; unpack_push : list Z -> option PushMessage;
  pack_ack : PushAckMessage -> list Z; unpack_ack : list Z -> option PushAckMessage }.
Class MsgpackLaws (M : Msgpack) := {
  unpack_pack_push m : push_ok m -> unpack_push (pack_push m) = Some m;
  unpack_pack_ack a : 0 <= error_code a < 2 ^ 32 -> link_key (error_msg a) -> unpack_ack (pack_ack a) = Some a }.

Section Asio.
Context {M : Msgpack}.
(** [self_rank_] and [options_.max_payload_bytes], a [uint32_t]. *)
Variables (self_rank max_payload_bytes : Z).

(** The message is decoded when it is first needed, and kept: the request is the
    header and the body. *)
Record AsioRequest := MkAsioRequest { header : MessageHeader; body : list Z }.
Definition GetPushMessage (request : AsioRequest) : option PushMessage := unpack_push (body request).

Definition asio_request (msg : PushMessage) : AsioRequest :=
  let body := pack_push msg in MkAsioRequest (Header kMagic (u32 (Z.of_nat (length body))) kPush) body.
Definition asio_PackMonoRequest (key value : list Z) : AsioRequest :=
  asio_request (MkPush (u32 self_rank) key value kTransMono 0 0).
Definition asio_PackChunkedRequest (key value : list Z) (offset total_length : Z) : AsioRequest :=
  asio_request (MkPush (u32 self_rank) key value kTransChunked (u64 offset) (u64 total_length)).
Definition asio_UnpackMonoRequest (request : AsioRequest) : option (list Z * list Z) :=
  let? msg := GetPushMessage request in Some (push_key msg, push_value msg).
Definition asio_UnpackChunckRequest (request : AsioRequest) : option (list Z * list Z * Z * Z) :=
  let? msg := GetPushMessage request in Some (push_key msg, push_value msg, chunk_offset msg, message_length msg).
Definition asio_IsChunkedRequest (request : AsioRequest) : option bool :=
  let? msg := GetPushMessage request in Some (trans_type msg =? kTransChunked).
Definition asio_IsMonoRequest (request : AsioRequest) : option bool :=
  let? msg := GetPushMessage request in Some (trans_type msg =? kTransMono).

#[export] Instance AsioLink : TransportLink := {|
  Request := AsioRequest; GetMaxBytesPerChunk := max_payload_bytes;
  PackMonoRequest := asio_PackMonoRequest; PackChunkedRequest := asio_PackChunkedRequest;
  UnpackMonoRequest := asio_UnpackMonoRequest; UnpackChunckRequest := asio_UnpackChunckRequest;
  IsChunkedRequest := asio_IsChunkedRequest; IsMonoRequest := asio_IsMonoRequest |}.

(** *** On the wire *)

(** [DoSend]: what a request is on the socket. *)
Definition DoSend (request : AsioRequest) : list Z := Serialize (header request) ++ body request.

(** [ReadMessage]: one message from the socket.  Too few bytes, or the wrong magic,
    end the session; otherwise the answer and what is left to read.  [OnRequest] of
    the listener of the sender's rank is the argument: [None] for no listener,
    [Some None] when it throws. *)
Definition ReadMessage {S} (listeners : Z -> option (AsioRequest -> option S)) (socket : list Z) : option (list Z * option S * list Z) :=
  if (length socket <? kHeaderLen)%nat then None else
  let header := Parse (firstn kHeaderLen socket) in
  let rest := skipn kHeaderLen socket in
  if negb (magic header =? 0x5941434C) then None else
  if (Z.of_nat (length rest) <? body_len header) then None else
  let body_buf := firstn (Z.to_nat (body_len header)) rest in
  let rest := skipn (Z.to_nat (body_len header)) rest in
  let '(ack_msg, s) :=
    if msg_type header =? kPush then
      match unpack_push body_buf with
      | None => (MkAck kErrorCodeInvalid [], None)
      | Some push_msg =>
          match listeners (sender_rank push_msg) with
          | None => (MkAck kErrorCodeInvalid [], None)
          | Some on_request =>
              match on_request (MkAsioRequest header body_buf) with
              | None => (MkAck kErrorCodeInvalid [], None)
              | Some s => (MkAck kErrorCodeOk [], Some s)
              end
          end
      end
    else (MkAck kErrorCodeInvalid [], None) in
  let ack_body := pack_ack ack_msg in
  Some (Serialize (Header 0x5941434C (u32 (Z.of_nat (length ack_body))) kPushAck) ++ ack_body, s, rest).

(** [SendRequest] reads the answer and throws when it is an error. *)
Definition ReadResponse (socket : list Z) : option unit :=
  if (length socket <? kHeaderLen)%nat then None else
  let resp_header := Parse (firstn kHeaderLen socket) in
  let rest := skipn kHeaderLen socket in
  if (Z.of_nat (length rest) <? body_len resp_header) then None else
  let? ack := unpack_ack (firstn (Z.to_nat (body_len resp_header)) rest) in
  YACL_ENFORCE (error_code ack =? kErrorCodeOk) (Some tt).
End Asio.

Lemma firstn_app_exact {A} (a b : list A) n : length a = n -> firstn n (a ++ b) = a.
Proof. intros <-. now rewrite firstn_app, Nat.sub_diag, firstn_O, app_nil_r, firstn_all. Qed.

Lemma skipn_app_exact {A} (a b : list A) n : length a = n -> skipn n (a ++ b) = b.
Proof. intros <-. now rewrite skipn_app, Nat.sub_diag, skipn_all. Qed.

(** ** The header *)

Lemma serialize_byte a k : 0 <= k -> u8 (Z.land (Z.shiftr a k) 0xFF) = (a / 2 ^ k) mod 256.
Proof.
  intros H. unfold u8, uwrap. change 0xFF with (Z.ones 8). rewrite Z.land_ones, Z.shiftr_div_pow2 by lia. apply Z.mod_mod. lia.
Qed.

Lemma lor_mul b k a : 0 <= k -> 0 <= a < 2 ^ k -> Z.lor (b * 2 ^ k) a = b * 2 ^ k + a.
Proof. intros Hk Ha. rewrite <- (Z.shiftl_mul_pow2 b k Hk), Z.lor_comm, lor_add by assumption. rewrite Z.shiftl_mul_pow2 by lia. ring. Qed.

Lemma parse_u32_val data i : (forall j, byte (at_ data j)) ->
  parse_u32 data i = ((at_ data i * 256 + at_ data (i + 1)) * 256 + at_ data (i + 2)) * 256 + at_ data (i + 3).
Proof.
  unfold byte. intros B. unfold parse_u32, u32, uwrap. pose proof (B i) as B0. pose proof (B (i + 1)%nat) as B1. pose proof (B (i + 2)%nat) as B2. pose proof (B (i + 3)%nat) as B3.
  rewrite !Z.shiftl_mul_pow2, !Z.mod_small by lia.
  rewrite (lor_mul (at_ data i) 24) by lia.
  replace (at_ data i * 2 ^ 24 + at_ data (i + 1) * 2 ^ 16) with ((at_ data i * 256 + at_ data (i + 1)) * 2 ^ 16) by ring. rewrite lor_mul by lia.
  replace ((at_ data i * 256 + at_ data (i + 1)) * 2 ^ 16 + at_ data (i + 2) * 2 ^ 8) with (((at_ data i * 256 + at_ data (i + 1)) * 256 + at_ data (i + 2)) * 2 ^ 8) by ring.
  rewrite lor_mul by lia. ring.
Qed.

Lemma u32_bytes a : 0 <= a < 2 ^ 32 -> (((a / 2 ^ 24) mod 256 * 256 + (a / 2 ^ 16) mod 256) * 256 + (a / 2 ^ 8) mod 256) * 256 + a mod 256 = a.
Proof.
  intros H. change (2 ^ 24) with (256 * 256 * 256). change (2 ^ 16) with (256 * 256). change (2 ^ 8) with 256. rewrite <- !Z.div_div by lia.
  set (q := a / 256). set (r := q / 256). set (t := r / 256). pose proof (Z.div_mod a 256 ltac:(lia)) as D0. pose proof (Z.div_mod q 256 ltac:(lia)) as D1. pose proof (Z.div_mod r 256 ltac:(lia)) as D2.
  fold q in D0. fold r in D1. fold t in D2. rewrite (Z.mod_small t); [lia|]. unfold t, r, q. rewrite !Z.div_div by lia.
  split; [apply Z.div_pos; lia|apply Z.div_lt_upper_bound; lia].
Qed.

Definition header_ok (h : MessageHeader) : Prop := 0 <= magic h < 2 ^ 32 /\ 0 <= body_len h < 2 ^ 32 /\ byte (msg_type h).

Lemma Serialize_bytes h : byte (msg_type h) -> bytes 9 (Serialize h).
Proof. intros H. split; [reflexivity|]. repeat (constructor; [apply byte_u8 || exact H|]). constructor. Qed.

Lemma Parse_Serialize h : header_ok h -> Parse (Serialize h) = h.
Proof.
  intros (Hm & Hb & Ht). destruct h as [m b t]. cbn [magic body_len msg_type] in *. unfold Parse.
  pose proof (proj2 (Serialize_bytes (Header m b t) Ht)) as F. rewrite !parse_u32_val by (intros j; apply at_byte, F).
  assert (A0 : u8 (Z.land m 0xFF) = m mod 256) by (rewrite <- (Z.shiftr_0_r m) at 1; rewrite serialize_byte by lia; now rewrite Z.div_1_r).
  assert (A1 : u8 (Z.land b 0xFF) = b mod 256) by (rewrite <- (Z.shiftr_0_r b) at 1; rewrite serialize_byte by lia; now rewrite Z.div_1_r).
  unfold Serialize, at_. cbn [nth Nat.add magic body_len msg_type]. rewrite !serialize_byte, A0, A1 by lia. now rewrite !u32_bytes by assumption.
Qed.

(** ** The link keeps the promises of the interface *)

Section AsioLaws.
Context {M : Msgpack} {ML : MsgpackLaws M}.
Variables (self_rank max_payload_bytes : Z).
Hypothesis max_ok : 0 < max_payload_bytes < 2 ^ 32.

Lemma asio_unpack m : push_ok m -> GetPushMessage (asio_request m) = Some m.
Proof. intros H. now apply unpack_pack_push. Qed.

Lemma value_key value : @link_value (AsioLink self_rank max_payload_bytes) value -> link_key value.
Proof. intros [F L]. split; [exact F|]. cbn in L. lia. Qed.

#[export] Instance AsioLinkLaws : TransportLinkLaws (AsioLink self_rank max_payload_bytes).
Proof.
  assert (R : 0 <= u32 self_rank < 2 ^ 32) by (apply Z.mod_pos_bound; lia). split.
  - cbn. lia.
  - intros key value Hk Hv%value_key. cbn. unfold asio_IsMonoRequest, asio_UnpackMonoRequest, asio_PackMonoRequest.
    rewrite asio_unpack by (repeat split; cbn; try apply R; try apply Hk; try apply Hv; unfold kTransMono; lia). now split.
  - intros key value offset total Hk Hv%value_key Ho Ht. cbn. unfold asio_IsMonoRequest, asio_IsChunkedRequest, asio_UnpackChunckRequest, asio_PackChunkedRequest.
    rewrite !u64_small by assumption. rewrite asio_unpack by (repeat split; cbn; try apply R; try apply Hk; try apply Hv; unfold kTransChunked; lia). now repeat split.
Qed.

(** What [DoSend] writes is one message for [ReadMessage], whatever follows it: the
    listener of the sender's rank gets the request, and the answer says how it went. *)
Lemma ReadMessage_DoSend {S} (listeners : Z -> option (AsioRequest -> option S)) m rest :
  push_ok m -> Z.of_nat (length (pack_push m)) < 2 ^ 32 ->
  let out := match listeners (sender_rank m) with Some f => f (asio_request m) | None => None end in
  let ack := pack_ack (MkAck (match out with Some _ => kErrorCodeOk | None => kErrorCodeInvalid end) []) in
  ReadMessage listeners (DoSend (asio_request m) ++ rest) = Some (Serialize (Header kMagic (u32 (Z.of_nat (length ack))) kPushAck) ++ ack, out, rest).
Proof.
  intros Hm Hl out ack. unfold ReadMessage, DoSend, asio_request. cbn [header body].
  set (h := Header kMagic (u32 (Z.of_nat (length (pack_push m)))) kPush). set (b := pack_push m) in *.
  assert (Eu : u32 (Z.of_nat (length b)) = Z.of_nat (length b)) by (apply Z.mod_small; lia).
  assert (Hh : header_ok h) by (repeat split; cbn; unfold kMagic, kPush; lia).
  assert (L9 : length (Serialize h) = kHeaderLen) by reflexivity.
  rewrite <- app_assoc. rewrite (firstn_app_exact (Serialize h)), (skipn_app_exact (Serialize h)) by exact L9.
  rewrite length_app, L9. cbn [Nat.ltb Nat.leb Nat.add kHeaderLen]. rewrite Parse_Serialize by exact Hh.
  cbn [magic body_len msg_type h]. rewrite Eu. cbn [Z.eqb negb kMagic Pos.eqb]. rewrite length_app.
  destruct (Z.ltb_spec (Z.of_nat (length b + length rest)) (Z.of_nat (length b))); [lia|]. rewrite Nat2Z.id.
  rewrite (firstn_app_exact b), (skipn_app_exact b) by reflexivity. cbn [kPush Z.eqb Pos.eqb]. unfold b at 1. rewrite unpack_pack_push by exact Hm.
  unfold ack, out, asio_request. fold b.
  destruct (listeners (sender_rank m)) as [f|]; [|reflexivity]. unfold h. destruct (f _); reflexivity.
Qed.

(** The answer is read as it was meant. *)
Lemma ReadResponse_ok e more : let ack := pack_ack (MkAck e []) in 0 <= e < 2 ^ 32 -> Z.of_nat (length ack) < 2 ^ 32 ->
  ReadResponse ((Serialize (Header kMagic (u32 (Z.of_nat (length ack))) kPushAck) ++ ack) ++ more) = if e =? kErrorCodeOk then Some tt else None.
Proof.
  intros ack He Hl. unfold ReadResponse. set (h := Header kMagic (u32 (Z.of_nat (length ack))) kPushAck).
  assert (Eu : u32 (Z.of_nat (length ack)) = Z.of_nat (length ack)) by (apply Z.mod_small; lia).
  assert (Hh : header_ok h) by (repeat split; cbn; unfold kMagic, kPushAck; lia).
  assert (L9 : length (Serialize h) = kHeaderLen) by reflexivity.
  rewrite <- app_assoc. rewrite (firstn_app_exact (Serialize h)), (skipn_app_exact (Serialize h)) by exact L9. rewrite length_app, L9. cbn [Nat.ltb Nat.leb Nat.add kHeaderLen].
  rewrite Parse_Serialize by exact Hh. cbn [body_len h]. rewrite Eu, length_app. destruct (Z.ltb_spec (Z.of_nat (length ack + length more)) (Z.of_nat (length ack))); [lia|].
  rewrite Nat2Z.id, firstn_app_exact by reflexivity. unfold ack. rewrite unpack_pack_ack; [|exact He|split; [constructor|cbn; lia]]. reflexivity.
Qed.
End AsioLaws.

(** ** An encoding with these promises, to try the link with *)

Definition toy_pack_push (m : PushMessage) : list Z :=
  [sender_rank m; trans_type m; chunk_offset m; message_length m; Z.of_nat (length (push_key m))] ++ push_key m ++ push_value m.
Definition toy_unpack_push (l : list Z) : option PushMessage :=
  match l with
  | r :: t :: o :: n :: k :: rest => Some (MkPush r (firstn (Z.to_nat k) rest) (skipn (Z.to_nat k) rest) t o n)
  | _ => None
  end.
#[export] Instance toy_msgpack : Msgpack := {|
  pack_push := toy_pack_push; unpack_push := toy_unpack_push;
  pack_ack a := error_code a :: error_msg a; unpack_ack l := match l with e :: m => Some (MkAck e m) | [] => None end |}.
#[export] Instance toy_msgpack_laws : MsgpackLaws toy_msgpack.
Proof.
  split; [|now intros []]. intros [r k v t o n] _. cbn -[Z.of_nat Z.to_nat]. rewrite Nat2Z.id, firstn_app_exact, skipn_app_exact by reflexivity. reflexivity.
Qed.
