(* ===== verification/Retry.v ===== *)
(** [SendRequestWithRetry] ([link/transport/channel.cc], [retry_options.h]): a
    request is sent again while the link fails in a way the options allow.  What the
    link does at an attempt, and whether the channel is aborted then, are arguments;
    the times slept are part of the result. *)
From Stdlib Require Import ZArith Lia List Bool.
From S2P Require Import Prelude.
Import ListNotations.

Record RetryOptions := MkRetry {
  max_retry : Z; retry_interval_ms : Z; retry_interval_incr_ms : Z; max_retry_interval_ms : Z;
  error_codes : list Z; http_codes : list Z; aggressive_retry : bool }.
Definition RetryOptions_default : RetryOptions := MkRetry 3 1000 2000 10000 [] [] true.
(** [uint32_t] fields. *)
Definition options_ok (o : RetryOptions) : Prop :=
  0 <= max_retry o < 2 ^ 32 /\ 0 <= retry_interval_ms o < 2 ^ 32 /\ 0 <= retry_interval_incr_ms o < 2 ^ 32 /\ 0 <= max_retry_interval_ms o < 2 ^ 32.

(** What [SendRequest] throws: a [LinkError] with its codes, or another exception. *)
Inductive send_error := LinkErr (code http_code : Z) | OtherErr.
Inductive retry_result := Sent | Aborted | Failed (e : send_error).

Definition count_code (codes : list Z) (c : Z) : bool := existsb (Z.eqb (u32 c)) codes.
Definition empty_codes (codes : list Z) : bool := match codes with [] => true | _ => false end.
Definition should_retry (o : RetryOptions) (code http_code : Z) : bool :=
  if aggressive_retry o then true
  else if empty_codes (error_codes o) || count_code (error_codes o) code then true
  else negb (http_code =? 0) && (empty_codes (http_codes o) || count_code (http_codes o) http_code).
Definition interval_ms (o : RetryOptions) (retry_count : Z) : Z :=
  Z.min (u32 (retry_interval_ms o + u32 (retry_count * retry_interval_incr_ms o))) (max_retry_interval_ms o).

(** [link k]: what attempt [k] throws, if anything; [aborting k]: the flag before it. *)
Section Retry.
Variables (o : RetryOptions) (link : Z -> option send_error) (aborting : Z -> bool).

Fixpoint retry_loop (fuel : nat) (retry_count : Z) : option (retry_result * list Z) :=
  match fuel with
  | O => None
  | S fuel =>
      if aborting retry_count then Some (Aborted, []) else
      match link retry_count with
      | None => Some (Sent, [])
      | Some OtherErr => Some (Failed OtherErr, [])
      | Some (LinkErr code http_code) =>
          if negb (should_retry o code http_code) then Some (Failed (LinkErr code http_code), [])
          else if max_retry o <=? retry_count then Some (Failed (LinkErr code http_code), [])
          else match retry_loop fuel (u32 (retry_count + 1)) with
               | Some (r, slept) => Some (r, interval_ms o retry_count :: slept)
               | None => None
               end
      end
  end.

(** As many turns as there can be attempts. *)
Definition SendRequestWithRetry : option (retry_result * list Z) := retry_loop (S (Z.to_nat (max_retry o))) 0.

(** Attempt [k] fails and is followed by another. *)
Definition goes_on (k : Z) : Prop := aborting k = false /\ exists code http, link k = Some (LinkErr code http) /\ should_retry o code http = true /\ k < max_retry o.

Hypothesis O : options_ok o.

Lemma retry_ends fuel : forall k, 0 <= k <= max_retry o -> (Z.to_nat (max_retry o - k) < fuel)%nat ->
  exists r slept, retry_loop fuel k = Some (r, slept) /\
    let last := k + Z.of_nat (length slept) in
    k <= last <= max_retry o /\ (forall j, k <= j < last -> goes_on j) /\ ~ goes_on last /\ (r = Sent <-> aborting last = false /\ link last = None) /\
    slept = map (fun i => interval_ms o (k + Z.of_nat i)) (seq 0 (length slept)).
Proof.
  destruct O as (O1 & _). induction fuel as [|fuel IH]; intros k Hk Hf; [lia|]. cbn [retry_loop].
  assert (ST : forall r, ~ goes_on k -> (r = Sent <-> aborting k = false /\ link k = None) ->
    exists r' slept, Some (r, @nil Z) = Some (r', slept) /\ let last := k + Z.of_nat (length slept) in
    k <= last <= max_retry o /\ (forall j, k <= j < last -> goes_on j) /\ ~ goes_on last /\ (r' = Sent <-> aborting last = false /\ link last = None) /\
    slept = map (fun i => interval_ms o (k + Z.of_nat i)) (seq 0 (length slept))).
  { intros r NG E. exists r, []. split; [reflexivity|]. cbn [length Z.of_nat]. rewrite Z.add_0_r. split; [lia|]. split; [intros j Hj; lia|]. split; [exact NG|]. split; [exact E|reflexivity]. }
  destruct (aborting k) eqn:A; [apply ST; [intros [X _]; congruence|split; [discriminate|intros [X _]; discriminate]]|].
  destruct (link k) as [[code http|]|] eqn:Lk.
  - destruct (should_retry o code http) eqn:R; cbn [negb].
    + destruct (Z.leb_spec (max_retry o) k) as [M|M].
      * apply ST; [intros (_ & c & h & _ & _ & X); lia|split; [discriminate|intros [_ X]; discriminate]].
      * unfold u32, uwrap. rewrite Z.mod_small by lia. destruct (IH (k + 1) ltac:(lia) ltac:(lia)) as (r & slept & E & B & G & NG & S & SL). rewrite E.
        exists r, (interval_ms o k :: slept). split; [reflexivity|]. cbn [length]. rewrite Nat2Z.inj_succ. replace (k + Z.succ (Z.of_nat (length slept))) with (k + 1 + Z.of_nat (length slept)) by lia.
        split; [lia|]. split; [|split; [exact NG|split; [exact S|]]].
        -- intros j Hj. destruct (Z.eq_dec j k) as [->|N]; [|apply G; lia]. split; [exact A|]. exists code, http. repeat split; assumption.
        -- cbn [seq map]. rewrite Z.add_0_r. f_equal. rewrite SL at 1. rewrite <- seq_shift, map_map. apply map_ext. intros i. f_equal. lia.
    + apply ST; [intros (_ & c & h & X & Y & _); congruence|split; [discriminate|intros [_ X]; discriminate]].
  - apply ST; [intros (_ & c & h & X & _); congruence|split; [discriminate|intros [_ X]; discriminate]].
  - apply ST; [intros (_ & c & h & X & _); congruence|tauto].
Qed.
End Retry.
