(* ===== verification/Channel.v ===== *)
(** A channel to one peer ([link/transport/channel.h], [channel.cc]): what each of
    its operations does to its state.  A critical section is one step; a wait on a
    condition that does not hold is the outcome [Wait], after which the section is
    tried again; a thread that [SubmitSendTask] starts is an entry of [tasks].
    Times are not modelled: a wait is told whether it has timed out. *)
From Stdlib Require Import ZArith Lia List Bool.
From stdpp Require Import base option list gmap.
From S2P Require Import Prelude.
From S2P Require Import Errors.
From S2P Require Import Strings.
From S2P Require Import SegTree.
From S2P Require Import Link.
Import ListNotations.
#[local] Open Scope Z_scope.
#[local] Open Scope bool_scope.

(** ** Outcomes *)

(** [Undefined]: the C++ has no defined behaviour. *)
Inductive exn := LinkAborted | EnforceNotMet | RuntimeError | LogicError | IoError.
Inductive result (A : Type) := Ret (a : A) | Throw (e : exn) | Wait | Undefined.
Arguments Ret {A} a.
Arguments Throw {A} e.
Arguments Wait {A}.
Arguments Undefined {A}.

(** ** Keys *)

Definition kAckKey : list Z := [65; 67; 75; 1; 2].
Definition kFinKey : list Z := [70; 73; 78; 1; 2].
Definition kSeqKey : list Z := [1; 2].

Definition NormalMessageKeyEnforce (k : list Z) : bool :=
  negb (match k with [] => true | _ => false end) && (match find k kSeqKey with None => true | Some _ => false end).
Definition ViewToSizeT (v : list Z) : option Z := let? ret := SimpleAtoi_u64 v in YACL_ENFORCE (ret <=? 2 ^ 64 - 1) (Some ret).
Definition BuildChannelKey (msg_key : list Z) (seq_id : Z) : list Z := (msg_key ++ kSeqKey) ++ to_string seq_id.
Definition SplitChannelKey (key : list Z) : option (list Z * Z) :=
  match find key kSeqKey with
  | None => Some (key, 0)
  | Some pos => let? seq := ViewToSizeT (skipn (pos + length kSeqKey) key) in Some (firstn pos key, seq)
  end.

(** ** Messages in chunks *)

(** A new buffer holds no values yet: a byte never written is [None]. *)
Record ChunkedMessage := MkChunked { received_ : gset Z; bytes_written_ : Z; message_ : list (option Z) }.
(** [Buffer(int64_t)] enforces a size that is not negative. *)
Definition ChunkedMessage_new (message_length : Z) : option ChunkedMessage :=
  YACL_ENFORCE (0 <=? message_length) (Some (MkChunked ∅ 0 (repeat None (Z.to_nat message_length)))).

(** [std::memcpy] into the buffer; [None] outside it. *)
Definition copy_at (message : list (option Z)) (offset : Z) (data : list Z) : option (list (option Z)) :=
  if (0 <=? offset) && (offset + Z.of_nat (length data) <=? Z.of_nat (length message)) then
    Some (firstn (Z.to_nat offset) message ++ map Some data ++ skipn (Z.to_nat offset + length data) message)
  else None.
Definition AddChunk (m : ChunkedMessage) (offset : Z) (data : list Z) : option ChunkedMessage :=
  if decide (offset ∈ received_ m) then Some m
  else let? message := copy_at (message_ m) offset data in
       Some (MkChunked ({[offset]} ∪ received_ m) (i64 (bytes_written_ m + Z.of_nat (length data))) message).
Definition IsFullyFilled (m : ChunkedMessage) : bool := bytes_written_ m =? Z.of_nat (length (message_ m)).
(** Reading a byte that was never written is undefined. *)
Definition Reassemble (m : ChunkedMessage) : option (list Z) := mapM (fun b => b) (message_ m).

(** ** The state *)

Record Message := MkMessage { seq_id_ : Z; msg_key_ : list Z; value_ : list Z }.
Record SendTaskSynchronizer := MkSync { running_tasks_ : Z; finished_ids_ : SegmentTree; task_aborting_ : bool }.
(** Where the send thread is: at the head of its loop, in the throttle window, after
    the loop, or ended. *)
Inductive SendPc := SendLoop | SendThrottled (seq_id : Z) | SendDrain | SendDone.
(** Where [WaitLinkTaskFinish] is: not called, waiting for the peer's count, for its
    messages, for the send thread, for the send tasks, for the acks, done. *)
Inductive ClosePc := CloseNot | CloseFin | CloseMsgs | CloseJoin | CloseTasks | CloseAck (sent_msg_count : Z) | Closed.

Record Channel := MkChannel {
  queue_ : list Message; send_pc : SendPc; send_thread_stopped_ : bool; send_sync_ : SendTaskSynchronizer;
  tasks : list Message;
  chunked_values_ : gmap (list Z) ChunkedMessage;
  recv_msgs_ : gmap (list Z) (list Z * Z);
  throttle_window_size_ : Z; waiting_finish_ : bool; aborting_ : bool; msg_seq_id_ : Z;
  received_msg_ids_ : SegmentTree; received_ack_ids_ : SegmentTree;
  received_fin_ : bool; peer_sent_msg_count_ : Z; disable_msg_seq_id_ : bool; close_pc : ClosePc }.

Definition Channel_new (throttle : Z) (disable : bool) : Channel :=
  MkChannel [] SendLoop false (MkSync 0 SegmentTree_empty false) [] ∅ ∅ throttle false false 0
    SegmentTree_empty SegmentTree_empty false 0 disable CloseNot.

(** One field changed. *)
Definition set_queue q c := MkChannel q (send_pc c) (send_thread_stopped_ c) (send_sync_ c) (tasks c) (chunked_values_ c) (recv_msgs_ c) (throttle_window_size_ c) (waiting_finish_ c) (aborting_ c) (msg_seq_id_ c) (received_msg_ids_ c) (received_ack_ids_ c) (received_fin_ c) (peer_sent_msg_count_ c) (disable_msg_seq_id_ c) (close_pc c).
Definition set_send_pc p c := MkChannel (queue_ c) p (send_thread_stopped_ c) (send_sync_ c) (tasks c) (chunked_values_ c) (recv_msgs_ c) (throttle_window_size_ c) (waiting_finish_ c) (aborting_ c) (msg_seq_id_ c) (received_msg_ids_ c) (received_ack_ids_ c) (received_fin_ c) (peer_sent_msg_count_ c) (disable_msg_seq_id_ c) (close_pc c).
Definition set_stopped b c := MkChannel (queue_ c) (send_pc c) b (send_sync_ c) (tasks c) (chunked_values_ c) (recv_msgs_ c) (throttle_window_size_ c) (waiting_finish_ c) (aborting_ c) (msg_seq_id_ c) (received_msg_ids_ c) (received_ack_ids_ c) (received_fin_ c) (peer_sent_msg_count_ c) (disable_msg_seq_id_ c) (close_pc c).
Definition set_sync s c := MkChannel (queue_ c) (send_pc c) (send_thread_stopped_ c) s (tasks c) (chunked_values_ c) (recv_msgs_ c) (throttle_window_size_ c) (waiting_finish_ c) (aborting_ c) (msg_seq_id_ c) (received_msg_ids_ c) (received_ack_ids_ c) (received_fin_ c) (peer_sent_msg_count_ c) (disable_msg_seq_id_ c) (close_pc c).
Definition set_tasks t c := MkChannel (queue_ c) (send_pc c) (send_thread_stopped_ c) (send_sync_ c) t (chunked_values_ c) (recv_msgs_ c) (throttle_window_size_ c) (waiting_finish_ c) (aborting_ c) (msg_seq_id_ c) (received_msg_ids_ c) (received_ack_ids_ c) (received_fin_ c) (peer_sent_msg_count_ c) (disable_msg_seq_id_ c) (close_pc c).
Definition set_chunked m c := MkChannel (queue_ c) (send_pc c) (send_thread_stopped_ c) (send_sync_ c) (tasks c) m (recv_msgs_ c) (throttle_window_size_ c) (waiting_finish_ c) (aborting_ c) (msg_seq_id_ c) (received_msg_ids_ c) (received_ack_ids_ c) (received_fin_ c) (peer_sent_msg_count_ c) (disable_msg_seq_id_ c) (close_pc c).
Definition set_recv m c := MkChannel (queue_ c) (send_pc c) (send_thread_stopped_ c) (send_sync_ c) (tasks c) (chunked_values_ c) m (throttle_window_size_ c) (waiting_finish_ c) (aborting_ c) (msg_seq_id_ c) (received_msg_ids_ c) (received_ack_ids_ c) (received_fin_ c) (peer_sent_msg_count_ c) (disable_msg_seq_id_ c) (close_pc c).
Definition set_throttle w c := MkChannel (queue_ c) (send_pc c) (send_thread_stopped_ c) (send_sync_ c) (tasks c) (chunked_values_ c) (recv_msgs_ c) w (waiting_finish_ c) (aborting_ c) (msg_seq_id_ c) (received_msg_ids_ c) (received_ack_ids_ c) (received_fin_ c) (peer_sent_msg_count_ c) (disable_msg_seq_id_ c) (close_pc c).
Definition set_waiting_finish b c := MkChannel (queue_ c) (send_pc c) (send_thread_stopped_ c) (send_sync_ c) (tasks c) (chunked_values_ c) (recv_msgs_ c) (throttle_window_size_ c) b (aborting_ c) (msg_seq_id_ c) (received_msg_ids_ c) (received_ack_ids_ c) (received_fin_ c) (peer_sent_msg_count_ c) (disable_msg_seq_id_ c) (close_pc c).
Definition set_aborting b c := MkChannel (queue_ c) (send_pc c) (send_thread_stopped_ c) (send_sync_ c) (tasks c) (chunked_values_ c) (recv_msgs_ c) (throttle_window_size_ c) (waiting_finish_ c) b (msg_seq_id_ c) (received_msg_ids_ c) (received_ack_ids_ c) (received_fin_ c) (peer_sent_msg_count_ c) (disable_msg_seq_id_ c) (close_pc c).
Definition set_seq n c := MkChannel (queue_ c) (send_pc c) (send_thread_stopped_ c) (send_sync_ c) (tasks c) (chunked_values_ c) (recv_msgs_ c) (throttle_window_size_ c) (waiting_finish_ c) (aborting_ c) n (received_msg_ids_ c) (received_ack_ids_ c) (received_fin_ c) (peer_sent_msg_count_ c) (disable_msg_seq_id_ c) (close_pc c).
Definition set_msg_ids t c := MkChannel (queue_ c) (send_pc c) (send_thread_stopped_ c) (send_sync_ c) (tasks c) (chunked_values_ c) (recv_msgs_ c) (throttle_window_size_ c) (waiting_finish_ c) (aborting_ c) (msg_seq_id_ c) t (received_ack_ids_ c) (received_fin_ c) (peer_sent_msg_count_ c) (disable_msg_seq_id_ c) (close_pc c).
Definition set_ack_ids t c := MkChannel (queue_ c) (send_pc c) (send_thread_stopped_ c) (send_sync_ c) (tasks c) (chunked_values_ c) (recv_msgs_ c) (throttle_window_size_ c) (waiting_finish_ c) (aborting_ c) (msg_seq_id_ c) (received_msg_ids_ c) t (received_fin_ c) (peer_sent_msg_count_ c) (disable_msg_seq_id_ c) (close_pc c).
Definition set_fin b c := MkChannel (queue_ c) (send_pc c) (send_thread_stopped_ c) (send_sync_ c) (tasks c) (chunked_values_ c) (recv_msgs_ c) (throttle_window_size_ c) (waiting_finish_ c) (aborting_ c) (msg_seq_id_ c) (received_msg_ids_ c) (received_ack_ids_ c) b (peer_sent_msg_count_ c) (disable_msg_seq_id_ c) (close_pc c).
Definition set_peer_count n c := MkChannel (queue_ c) (send_pc c) (send_thread_stopped_ c) (send_sync_ c) (tasks c) (chunked_values_ c) (recv_msgs_ c) (throttle_window_size_ c) (waiting_finish_ c) (aborting_ c) (msg_seq_id_ c) (received_msg_ids_ c) (received_ack_ids_ c) (received_fin_ c) n (disable_msg_seq_id_ c) (close_pc c).
Definition set_close p c := MkChannel (queue_ c) (send_pc c) (send_thread_stopped_ c) (send_sync_ c) (tasks c) (chunked_values_ c) (recv_msgs_ c) (throttle_window_size_ c) (waiting_finish_ c) (aborting_ c) (msg_seq_id_ c) (received_msg_ids_ c) (received_ack_ids_ c) (received_fin_ c) (peer_sent_msg_count_ c) (disable_msg_seq_id_ c) p.

(** ** Sending *)

(** [SendTaskStartNotify] is the constructor of the task, which a thread then runs. *)
Definition SendTaskStartNotify (s : SendTaskSynchronizer) : SendTaskSynchronizer :=
  MkSync (u64 (running_tasks_ s + 1)) (finished_ids_ s) (task_aborting_ s).
Definition SubmitSendTask (msg : Message) (c : Channel) : Channel :=
  set_tasks (tasks c ++ [msg]) (set_sync (SendTaskStartNotify (send_sync_ c)) c).
(** Called by the destructor of the task, whether its [SendImpl] threw or not. *)
Definition SendTaskFinishedNotify (seq_id : Z) (c : Channel) : Channel :=
  let s := send_sync_ c in
  set_sync (MkSync (u64 (running_tasks_ s - 1)) (if negb (seq_id =? 0) then snd (Insert (finished_ids_ s) seq_id) else finished_ids_ s) (task_aborting_ s)) c.

Definition SendAck (seq_id : Z) (c : Channel) : Channel :=
  if 0 <? seq_id then SubmitSendTask (MkMessage 0 kAckKey (to_string seq_id)) c else c.

Definition ThrottleWindowWait (wait_count : Z) (timed_out : bool) (c : Channel) : result unit :=
  if throttle_window_size_ c =? 0 then Ret tt
  else if u64 (Count (received_ack_ids_ c) + throttle_window_size_ c) <=? wait_count then
    if aborting_ c then Throw LinkAborted else if timed_out then Throw IoError else Wait
  else Ret tt.

(** The number of a message and what goes to the queue. *)
Definition push_message (msg_key value : list Z) (c : Channel) : Z * Channel :=
  let seq_id := u64 (msg_seq_id_ c + 1) in
  (seq_id, set_queue (queue_ c ++ [MkMessage seq_id (BuildChannelKey msg_key seq_id) value]) (set_seq seq_id c)).

(** The number of the message is what the caller may then wait on; 0 without numbers. *)
Definition SendAsync (msg_key value : list Z) (c : Channel) : result Z * Channel :=
  if aborting_ c then (Throw LinkAborted, c)
  else if waiting_finish_ c then (Throw EnforceNotMet, c)
  else if negb (NormalMessageKeyEnforce msg_key) then (Throw EnforceNotMet, c)
  else if disable_msg_seq_id_ c then (Ret 0, set_queue (queue_ c ++ [MkMessage 0 msg_key value]) c)
  else let '(seq_id, c) := push_message msg_key value c in (Ret seq_id, c).

(** Up to its wait, which is [WaitSeqIdSendFinished]. *)
Definition Send (msg_key value : list Z) (c : Channel) : result Z * Channel :=
  if aborting_ c then (Throw LinkAborted, c)
  else if disable_msg_seq_id_ c then (Throw RuntimeError, c)
  else if waiting_finish_ c then (Throw EnforceNotMet, c)
  else if negb (NormalMessageKeyEnforce msg_key) then (Throw EnforceNotMet, c)
  else let '(seq_id, c) := push_message msg_key value c in (Ret seq_id, c).
Definition WaitSeqIdSendFinished (seq_id : Z) (c : Channel) : result unit :=
  if Contains (finished_ids_ (send_sync_ c)) seq_id then Ret tt
  else if task_aborting_ (send_sync_ c) then Throw LinkAborted else Wait.
Definition WaitAllSendFinished (c : Channel) : result unit := if 0 <? running_tasks_ (send_sync_ c) then Wait else Ret tt.

(** Up to its wait, which is [ThrottleWindowWait] of the number. *)
Definition SendAsyncThrottled (msg_key value : list Z) (c : Channel) : result Z * Channel :=
  if aborting_ c then (Throw LinkAborted, c)
  else if disable_msg_seq_id_ c then SendAsync msg_key value c
  else if waiting_finish_ c then (Throw EnforceNotMet, c)
  else if negb (NormalMessageKeyEnforce msg_key) then (Throw EnforceNotMet, c)
  else let '(seq_id, c) := push_message msg_key value c in (Ret seq_id, c).

(** [MessageQueue::Pop]: [None] on an empty queue, after a wait or without one. *)
Definition Pop (c : Channel) : option (Message * Channel) :=
  match queue_ c with [] => None | msg :: q => Some (msg, set_queue q c) end.

(** One step of [SendThread].  An exception ends the thread, whose caller logs it. *)
Definition SendThread_step (timed_out : bool) (c : Channel) : Channel :=
  match send_pc c with
  | SendLoop =>
      if send_thread_stopped_ c then (if aborting_ c then set_send_pc SendDone c else set_send_pc SendDrain c)
      else match Pop c with
           | None => c
           | Some (msg, c) => set_send_pc (SendThrottled (seq_id_ msg)) (SubmitSendTask msg c)
           end
  | SendThrottled seq_id =>
      match ThrottleWindowWait seq_id timed_out c with
      | Ret _ => set_send_pc SendLoop c
      | Wait => c
      | _ => set_send_pc SendDone c
      end
  | SendDrain => match Pop c with None => set_send_pc SendDone c | Some (msg, c) => SubmitSendTask msg c end
  | SendDone => c
  end.

Section OnLink.
Context {L : TransportLink}.

(** The requests of [SendChunked], in the order its loop builds them; each goes to a
    thread of its own, so they arrive in any order. *)
Definition SendChunked (key value : list Z) : list Request :=
  let bytes_per_chunk := GetMaxBytesPerChunk in
  let num_bytes := Z.of_nat (length value) in
  let num_chunks := u64 (u64 (num_bytes + bytes_per_chunk) - 1) / bytes_per_chunk in
  map (fun chunk_idx =>
         let chunk_offset := u64 (Z.of_nat chunk_idx * bytes_per_chunk) in
         PackChunkedRequest key (firstn (Z.to_nat (Z.min bytes_per_chunk (u64 (num_bytes - chunk_offset)))) (skipn (Z.to_nat chunk_offset) value))
           chunk_offset num_bytes) (seq 0 (Z.to_nat num_chunks)).
Definition SendMono (key value : list Z) : list Request := [PackMonoRequest key value].
Definition SendImpl (key value : list Z) : list Request :=
  if GetMaxBytesPerChunk <? Z.of_nat (length value) then SendChunked key value else SendMono key value.

(** ** Receiving *)

(** One turn of the loop of [Recv], under the lock, and the ack after it. *)
Definition RecvPoll (msg_key : list Z) (timed_out : bool) (c : Channel) : result (list Z) * Channel :=
  match recv_msgs_ c !! msg_key with
  | Some (value, seq_id) => (Ret value, SendAck seq_id (set_recv (delete msg_key (recv_msgs_ c)) c))
  | None => ((if aborting_ c then Throw LinkAborted else if timed_out then Throw IoError else Wait), c)
  end.
Definition Recv (msg_key : list Z) (timed_out : bool) (c : Channel) : result (list Z) * Channel :=
  if aborting_ c then (Throw LinkAborted, c)
  else if negb (NormalMessageKeyEnforce msg_key) then (Throw EnforceNotMet, c)
  else RecvPoll msg_key timed_out c.

(** A number that was seen is ignored; [emplace] does not overwrite. *)
Definition OnNormalMessage (key v : list Z) (c : Channel) : result unit * Channel :=
  match SplitChannelKey key with
  | None => (Throw EnforceNotMet, c)
  | Some (msg_key, seq_id) =>
      let '(fresh, c) := if 0 <? seq_id then let '(b, t) := Insert (received_msg_ids_ c) seq_id in (b, set_msg_ids t c) else (true, c) in
      if negb fresh then (Ret tt, c)
      else if negb (waiting_finish_ c) then
        match recv_msgs_ c !! msg_key with
        | None => (Ret tt, set_recv (<[msg_key := (v, seq_id)]> (recv_msgs_ c)) c)
        | Some _ => if 0 <? seq_id then (Throw RuntimeError, c) else (Ret tt, c)
        end
      else (Ret tt, SendAck seq_id c)
  end.

Definition OnMessage (key value : list Z) (c : Channel) : result unit * Channel :=
  if decide (key = kAckKey) then
    match ViewToSizeT value with
    | None => (Throw EnforceNotMet, c)
    | Some seq_id => (Ret tt, set_ack_ids (snd (Insert (received_ack_ids_ c) seq_id)) c)
    end
  else if decide (key = kFinKey) then
    if negb (received_fin_ c) then
      let c := set_fin true c in
      match ViewToSizeT value with
      | None => (Throw EnforceNotMet, c)
      | Some n => (Ret tt, set_peer_count n c)
      end
    else (Ret tt, c)
  else OnNormalMessage key value c.

(** The part under the lock of the chunks: what is to be reassembled. *)
Definition add_chunk (key value : list Z) (offset total_length : Z) (c : Channel) : result (option ChunkedMessage) * Channel :=
  if total_length <? u64 (offset + Z.of_nat (length value)) then (Throw LogicError, c)
  else match (match chunked_values_ c !! key with Some data => Some data | None => ChunkedMessage_new (i64 total_length) end) with
       | None => (Throw EnforceNotMet, c)
       | Some data =>
           match AddChunk data (i64 offset) value with
           | None => (Undefined, c)
           | Some data =>
               if IsFullyFilled data then (Ret (Some data), set_chunked (delete key (chunked_values_ c)) c)
               else (Ret None, set_chunked (<[key := data]> (chunked_values_ c)) c)
           end
       end.
Definition OnChunkedMessage (key value : list Z) (offset total_length : Z) (c : Channel) : result unit * Channel :=
  match add_chunk key value offset total_length c with
  | (Ret (Some data), c) => match Reassemble data with Some v => OnMessage key v c | None => (Undefined, c) end
  | (Ret None, c) => (Ret tt, c)
  | (Throw e, c) => (Throw e, c)
  | (Wait, c) => (Wait, c)
  | (Undefined, c) => (Undefined, c)
  end.

(** A request that cannot be taken apart throws. *)
Definition OnRequest (request : Request) (c : Channel) : result unit * Channel :=
  if aborting_ c then (Throw LinkAborted, c)
  else match IsMonoRequest request with
       | None => (Throw RuntimeError, c)
       | Some true => match UnpackMonoRequest request with Some (key, value) => OnMessage key value c | None => (Throw RuntimeError, c) end
       | Some false =>
           match IsChunkedRequest request with
           | None => (Throw RuntimeError, c)
           | Some true =>
               match UnpackChunckRequest request with
               | Some (key, value, offset, total_length) => OnChunkedMessage key value offset total_length c
               | None => (Throw RuntimeError, c)
               end
           | Some false => (Ret tt, c)
           end
       end.

(** ** Closing *)

(** The order of the acks is that of the map: each goes to a thread of its own. *)
Definition StopReceivingAndAckUnreadMsgs (c : Channel) : Channel :=
  let c := set_waiting_finish true c in
  let c := fold_left (fun c msg => SendAck (snd (snd msg)) c) (map_to_list (recv_msgs_ c)) c in
  set_recv ∅ c.

(** All the numbers from 1 to [n], and no gap. *)
Definition has_all (t : SegmentTree) (n : Z) : bool := negb ((1 <? SegmentsCount t)%nat || negb (Contains t 1) || negb (Contains t n)).

(** One step of [WaitLinkTaskFinish]: the call of [StopReceivingAndAckUnreadMsgs] and
    the send of the count, then the waits of [WaitForFinAndFlyingMsg],
    [WaitAsyncSendToFinish] and [WaitForFlyingAck] in turn. *)
Definition WaitLinkTaskFinish_step (c : Channel) : result unit * Channel :=
  match close_pc c with
  | CloseNot =>
      if aborting_ c then (Ret tt, c)
      else
        let c := StopReceivingAndAckUnreadMsgs c in
        (Wait, set_close CloseFin (SubmitSendTask (MkMessage 0 kFinKey (to_string (msg_seq_id_ c))) c))
  | CloseFin => (Wait, if received_fin_ c then set_close CloseMsgs c else c)
  | CloseMsgs =>
      (Wait, if (peer_sent_msg_count_ c =? 0) || has_all (received_msg_ids_ c) (peer_sent_msg_count_ c)
             then set_close CloseJoin (set_stopped true c) else c)
  | CloseJoin => (Wait, match send_pc c with SendDone => set_close CloseTasks c | _ => c end)
  | CloseTasks =>
      match WaitAllSendFinished c with
      | Ret _ => (Wait, set_close (CloseAck (msg_seq_id_ c)) c)
      | _ => (Wait, c)
      end
  | CloseAck sent_msg_count =>
      if (sent_msg_count =? 0) || has_all (received_ack_ids_ c) sent_msg_count then (Ret tt, set_close Closed c) else (Wait, c)
  | Closed => (Ret tt, c)
  end.

(** [connect_]: the message of number 0, sent at once and with no ack. *)
Definition kConnect : list Z := [99; 111; 110; 110; 101; 99; 116; 95].
Definition TestSend (local_rank : Z) (c : Channel) : result (list Request) :=
  if aborting_ c then Throw LinkAborted
  else if waiting_finish_ c then Throw EnforceNotMet
  else Ret (SendImpl (BuildChannelKey (kConnect ++ to_string local_rank) 0) []).
Definition TestRecv (remote_rank : Z) (timed_out : bool) (c : Channel) : result (list Z) * Channel := Recv (kConnect ++ to_string remote_rank) timed_out c.

(** Up to the join of the send thread. *)
Definition Abort (c : Channel) : Channel :=
  let s := send_sync_ c in
  set_stopped true (set_sync (MkSync (running_tasks_ s) (finished_ids_ s) true) (set_aborting true c)).
End OnLink.
