(* ===== verification/Chunks.v ===== *)
(** Keys and chunks of a channel: a built key is split again, and the chunks of a
    message, in any order and any number of times, are put together again. *)
From Stdlib Require Import ZArith Lia List Bool.
From stdpp Require Import base option list gmap.
From S2P Require Import Prelude.
From S2P Require Import Errors.
From S2P Require Import Strings.
From S2P Require Import StringsSpec.
From S2P Require Import SegTree.
From S2P Require Import Link.
From S2P Require Import Channel.
Import ListNotations.
#[local] Open Scope Z_scope.

(** ** Keys *)

Definition msg_key_ok (k : list Z) : Prop := NormalMessageKeyEnforce k = true.

Lemma msg_key_find k : msg_key_ok k -> k <> [] /\ find k kSeqKey = None.
Proof.
  unfold msg_key_ok, NormalMessageKeyEnforce. destruct k as [|x k]; [discriminate|]. destruct (find (x :: k) kSeqKey); [discriminate|]. now split.
Qed.

Lemma ViewToSizeT_to_string n : 0 <= n < 2 ^ 64 -> ViewToSizeT (to_string n) = Some n.
Proof. intros H. unfold ViewToSizeT. rewrite atoi_to_string by exact H. destruct (Z.leb_spec n (2 ^ 64 - 1)); [reflexivity|lia]. Qed.

Lemma split_build k n : msg_key_ok k -> 0 <= n < 2 ^ 64 -> SplitChannelKey (BuildChannelKey k n) = Some (k, n).
Proof.
  intros Hk Hn. destruct (msg_key_find k Hk) as [_ F]. unfold SplitChannelKey, BuildChannelKey, kSeqKey in *. rewrite <- app_assoc, find_app by (exact F || lia).
  rewrite app_assoc, skipn_app_exact by apply length_app. rewrite ViewToSizeT_to_string by exact Hn. now rewrite <- app_assoc, firstn_app_exact by reflexivity.
Qed.

Lemma build_inj k n k' n' : msg_key_ok k -> msg_key_ok k' -> 0 <= n < 2 ^ 64 -> 0 <= n' < 2 ^ 64 ->
  BuildChannelKey k n = BuildChannelKey k' n' -> k = k' /\ n = n'.
Proof. intros Hk Hk' Hn Hn' E. apply (f_equal SplitChannelKey) in E. rewrite !split_build in E by assumption. injection E as -> ->. now split. Qed.

(** The keys of acks and counts are no built keys. *)
Lemma build_not_control k n : msg_key_ok k -> 0 <= n < 2 ^ 64 -> BuildChannelKey k n <> kAckKey /\ BuildChannelKey k n <> kFinKey.
Proof. intros Hk Hn. split; intros E; apply (f_equal SplitChannelKey) in E; rewrite split_build in E by assumption; discriminate. Qed.

(** ** One message in chunks *)

Section Chunks.
Context {L : TransportLink} {LL : TransportLinkLaws L}.
Let M : nat := Z.to_nat GetMaxBytesPerChunk.

Lemma M_pos : (0 < M)%nat.
Proof. unfold M. pose proof max_chunk_pos. lia. Qed.

Lemma M_val : Z.of_nat M = GetMaxBytesPerChunk.
Proof. unfold M. pose proof max_chunk_pos. lia. Qed.

(** Sizes that do not wrap. *)
Definition fits (value : list Z) : Prop := Z.of_nat (length value) + GetMaxBytesPerChunk < 2 ^ 63.
Definition chunk_count (value : list Z) : nat := ((length value + M - 1) / M)%nat.
Definition chunk_of (value : list Z) (i : nat) : list Z := firstn M (skipn (i * M) value).
Definition chunk_request (key value : list Z) (i : nat) : Request :=
  PackChunkedRequest key (chunk_of value i) (Z.of_nat (i * M)%nat) (Z.of_nat (length value)).

Lemma chunk_count_spec value i : (i < chunk_count value)%nat <-> (i * M < length value)%nat.
Proof.
  pose proof M_pos. unfold chunk_count. pose proof (Nat.div_mod (length value + M - 1) M ltac:(lia)). pose proof (Nat.mod_upper_bound (length value + M - 1) M ltac:(lia)).
  set (q := ((length value + M - 1) / M)%nat) in *. split; intros; nia.
Qed.

Lemma SendChunked_ok key value : fits value -> SendChunked key value = map (chunk_request key value) (seq 0 (chunk_count value)).
Proof.
  unfold fits. intros F. pose proof M_val as EM. pose proof M_pos as HM. unfold SendChunked. rewrite <- EM in *.
  rewrite (u64_small (Z.of_nat (length value) + Z.of_nat M)) by lia.
  assert (EC : Z.to_nat (u64 (Z.of_nat (length value) + Z.of_nat M - 1) / Z.of_nat M) = chunk_count value).
  { destruct (Nat.eq_dec (length value + M)%nat 0%nat) as [Z0|Z0]; [lia|]. rewrite u64_small by lia. unfold chunk_count.
    replace (Z.of_nat (length value) + Z.of_nat M - 1) with (Z.of_nat (length value + M - 1)%nat) by lia. rewrite <- Nat2Z.inj_div. apply Nat2Z.id. }
  rewrite EC. apply map_ext_in. intros i Hi. apply in_seq in Hi. assert (Hi' : (i * M < length value)%nat) by (apply chunk_count_spec; lia).
  unfold chunk_request, chunk_of. rewrite <- Nat2Z.inj_mul. rewrite (u64_small (Z.of_nat (i * M)%nat)) by lia. rewrite (u64_small (_ - _)) by lia. rewrite Nat2Z.id.
  f_equal. destruct (Z.le_ge_cases (Z.of_nat M) (Z.of_nat (length value) - Z.of_nat (i * M))).
  - now rewrite Z.min_l, Nat2Z.id by lia.
  - rewrite Z.min_r by lia. rewrite !firstn_all2; [reflexivity|rewrite length_skipn; lia|rewrite length_skipn; lia].
Qed.

Lemma length_chunk value i : (i < chunk_count value)%nat -> (0 < length (chunk_of value i) <= M)%nat /\ (i * M + length (chunk_of value i) <= length value)%nat.
Proof. rewrite chunk_count_spec. intros H. pose proof M_pos. unfold chunk_of. rewrite length_firstn, length_skipn. lia. Qed.

(** The bytes that were written. *)
Definition is_written (b : option Z) : bool := match b with Some _ => true | None => false end.
Definition written (m : list (option Z)) : nat := length (List.filter is_written m).

Lemma written_app a b : written (a ++ b) = (written a + written b)%nat.
Proof. unfold written. now rewrite List.filter_app, length_app. Qed.

Lemma written_some d : written (map Some d) = length d.
Proof. unfold written. induction d as [|x d IH]; cbn; [reflexivity|]. now rewrite IH. Qed.

Lemma written_none m : (forall b, In b m -> b = None) -> written m = 0%nat.
Proof. unfold written. induction m as [|b m IH]; cbn; intros H; [reflexivity|]. rewrite (H b) by now left. cbn. apply IH. intros c Hc. apply H. now right. Qed.

Lemma written_le m : (written m <= length m)%nat.
Proof. unfold written. induction m as [|b m IH]; cbn; [lia|]. destruct (is_written b); cbn; lia. Qed.

Lemma written_all m : written m = length m <-> forall b, In b m -> b <> None.
Proof.
  induction m as [|b m IH]; cbn; [split; [intros _ b []|reflexivity]|]. pose proof (written_le m). unfold written in *. cbn. destruct b as [x|]; cbn.
  - rewrite Nat.succ_inj_wd, IH. split; [intros H' c [<-|Hc]; [discriminate|now apply H']|intros H' c Hc; apply H'; now right].
  - split; [lia|]. intros H'. exfalso. apply (H' None); [now left|reflexivity].
Qed.

(** The buffer holds the chunks whose offsets were received, and nothing else. *)
Definition chunk_inv (value : list Z) (m : ChunkedMessage) : Prop :=
  (forall o, o ∈ received_ m -> exists i, (i < chunk_count value)%nat /\ o = Z.of_nat (i * M)) /\
  length (message_ m) = length value /\
  (forall j, (j < length value)%nat -> nth j (message_ m) None = if decide (Z.of_nat (j / M * M)%nat ∈ received_ m) then Some (at_ value j) else None) /\
  bytes_written_ m = Z.of_nat (written (message_ m)).

Definition chunk_complete (value : list Z) (m : ChunkedMessage) : Prop := forall i, (i < chunk_count value)%nat -> Z.of_nat (i * M) ∈ received_ m.

Lemma chunk_new value : fits value -> exists m, ChunkedMessage_new (i64 (Z.of_nat (length value))) = Some m /\ chunk_inv value m /\ received_ m = ∅.
Proof.
  unfold fits. intros F. pose proof max_chunk_pos. assert (E : i64 (Z.of_nat (length value)) = Z.of_nat (length value)) by (apply swrap_small; lia).
  unfold ChunkedMessage_new. rewrite E. destruct (Z.leb_spec 0 (Z.of_nat (length value))); [|lia]. cbn [YACL_ENFORCE]. eexists. split; [reflexivity|]. rewrite Nat2Z.id.
  split; [|reflexivity]. split; [intros o Ho; cbn in Ho; set_solver|]. cbn [received_ message_ bytes_written_]. split; [apply repeat_length|]. split.
  - intros j Hj. rewrite nth_repeat. now destruct (decide _) as [D|D]; [set_solver|].
  - rewrite written_none; [reflexivity|]. intros b Hb. now apply repeat_spec in Hb.
Qed.

Lemma copy_at_ok (m : list (option Z)) o d : (o + length d <= length m)%nat ->
  copy_at m (Z.of_nat o) d = Some (firstn o m ++ map Some d ++ skipn (o + length d) m).
Proof.
  intros H. unfold copy_at. destruct (Z.leb_spec 0 (Z.of_nat o)); [|lia]. destruct (Z.leb_spec (Z.of_nat o + Z.of_nat (length d)) (Z.of_nat (length m))); [|lia].
  cbn [andb]. now rewrite Nat2Z.id.
Qed.

(** The cells after a copy: inside, the data; outside, as before. *)
Lemma nth_copy (m : list (option Z)) o d j : (o + length d <= length m)%nat ->
  nth j (firstn o m ++ map Some d ++ skipn (o + length d) m) None =
  if decide (o <= j < o + length d)%nat then Some (at_ d (j - o)) else nth j m None.
Proof.
  intros H. assert (LF : length (firstn o m) = o) by (rewrite length_firstn; lia). destruct (Nat.lt_ge_cases j o) as [A|A].
  - rewrite app_nth1 by lia. destruct (decide _) as [D|D]; [lia|]. rewrite <- (firstn_skipn o m) at 2. now rewrite app_nth1 by lia.
  - rewrite app_nth2, LF by lia. destruct (decide _) as [D|D].
    + rewrite app_nth1 by (rewrite length_map; lia). rewrite (nth_indep _ None (Some 0)) by (rewrite length_map; lia). apply (map_nth Some d 0).
    + rewrite app_nth2 by (rewrite length_map; lia). rewrite length_map. rewrite <- (firstn_skipn (o + length d) m) at 2.
      rewrite app_nth2 by (rewrite length_firstn; lia). f_equal. rewrite length_firstn. lia.
Qed.

Lemma chunk_cell value i j : (i < chunk_count value)%nat -> (j < length value)%nat -> (i * M <= j < i * M + length (chunk_of value i))%nat <-> (j / M = i)%nat.
Proof.
  rewrite chunk_count_spec. intros Hi Hj. pose proof M_pos. unfold chunk_of. rewrite length_firstn, length_skipn.
  pose proof (Nat.div_mod j M ltac:(lia)). pose proof (Nat.mod_upper_bound j M ltac:(lia)). split; [intros|intros <-; nia].
  symmetry. apply (Nat.div_unique j M i (j - i * M)); lia.
Qed.

Lemma at_chunk value i j : (i * M <= j < i * M + length (chunk_of value i))%nat -> at_ (chunk_of value i) (j - i * M) = at_ value j.
Proof.
  unfold chunk_of, at_. rewrite length_firstn, length_skipn. intros H. set (s := skipn (i * M) value) in *.
  assert (E : nth (j - i * M) (firstn M s) 0 = nth (j - i * M) s 0).
  { rewrite <- (firstn_skipn M s) at 2. rewrite app_nth1; [reflexivity|]. rewrite length_firstn. unfold s. rewrite length_skipn. lia. }
  rewrite E. unfold s. rewrite nth_skipn. f_equal. lia.
Qed.

Lemma index_inj i j : Z.of_nat (i * M)%nat = Z.of_nat (j * M)%nat -> i = j.
Proof. pose proof M_pos as HM. intros H. apply Nat2Z.inj in H. nia. Qed.

(** A chunk keeps the invariant, new or not, and is received then. *)
Lemma AddChunk_ok value m i : fits value -> chunk_inv value m -> (i < chunk_count value)%nat ->
  exists m', AddChunk m (Z.of_nat (i * M)%nat) (chunk_of value i) = Some m' /\ chunk_inv value m' /\ received_ m' = {[Z.of_nat (i * M)%nat]} ∪ received_ m.
Proof.
  intros F (I1 & I2 & I3 & I4) Hi. unfold AddChunk. destruct (decide (Z.of_nat (i * M)%nat ∈ received_ m)) as [R|R].
  { exists m. split; [reflexivity|]. split; [split; [exact I1|split; [exact I2|split; assumption]]|]. apply leibniz_equiv. intros o. rewrite elem_of_union, elem_of_singleton. split; [now right|intros [->|Ho]; assumption]. }
  destruct (length_chunk value i Hi) as [B1 B2]. set (d := chunk_of value i) in *. rewrite copy_at_ok by lia. eexists. split; [reflexivity|]. split; [|reflexivity].
  set (m1 := firstn (i * M) (message_ m)). set (m2 := firstn (length d) (skipn (i * M) (message_ m))). set (m3 := skipn (i * M + length d) (message_ m)).
  assert (Em : message_ m = m1 ++ m2 ++ m3).
  { unfold m1, m2, m3. rewrite Nat.add_comm, <- skipn_skipn, firstn_skipn, firstn_skipn. reflexivity. }
  assert (L1 : length m1 = (i * M)%nat) by (unfold m1; rewrite length_firstn; lia).
  assert (L2 : length m2 = length d) by (unfold m2; rewrite length_firstn, length_skipn; lia).
  assert (W2 : written m2 = 0%nat).
  { apply written_none. intros b Hb. apply (In_nth _ _ None) in Hb as (k & Hk & <-). pose proof (I3 (i * M + k)%nat ltac:(lia)) as C.
    rewrite Em, app_nth2, app_nth1 in C by lia. rewrite L1 in C. replace (i * M + k - i * M)%nat with k in C by lia. rewrite C.
    assert (Q : ((i * M + k) / M = i)%nat) by (apply (chunk_cell value i (i * M + k)%nat Hi ltac:(lia)); fold d; lia). rewrite Q. now rewrite decide_False by exact R. }
  split; [|split; [|split]]; cbn [received_ message_ bytes_written_].
  - intros o Ho. apply elem_of_union in Ho as [->%elem_of_singleton|Ho]; [now exists i|now apply I1].
  - rewrite !length_app, length_map. unfold m3. rewrite length_skipn. lia.
  - intros j Hj. unfold m1, m3. rewrite nth_copy by lia. pose proof (chunk_cell value i j Hi Hj) as CC. fold d in CC.
    destruct (decide (i * M <= j < i * M + length d)%nat) as [D|D].
    + rewrite (proj1 CC D). destruct (decide _) as [E|E]; [|exfalso; apply E, elem_of_union; left; now apply elem_of_singleton]. f_equal. now apply at_chunk.
    + rewrite I3 by exact Hj. destruct (decide (Z.of_nat (j / M * M)%nat ∈ received_ m)) as [E|E], (decide (Z.of_nat (j / M * M)%nat ∈ {[Z.of_nat (i * M)%nat]} ∪ received_ m)) as [G|G]; try reflexivity.
      * exfalso. apply G, elem_of_union. now right.
      * exfalso. apply elem_of_union in G as [G%elem_of_singleton|G]; [|tauto]. apply index_inj in G. tauto.
  - fold m1 m3. rewrite I4, Em, !written_app, written_some, W2. unfold fits in F. pose proof (written_le m1). pose proof (written_le m3).
    pose proof max_chunk_pos. assert (i * M + length d + length m3 = length value)%nat by (unfold m3; rewrite length_skipn; lia).
    rewrite L1 in *. unfold i64. rewrite swrap_small; lia.
Qed.

(** The buffer is full when every chunk has come, and holds the message then. *)
Lemma full_complete value m : fits value -> chunk_inv value m -> IsFullyFilled m = true <-> chunk_complete value m.
Proof.
  intros F (I1 & I2 & I3 & I4). pose proof M_pos as HM. unfold IsFullyFilled. rewrite Z.eqb_eq, I4.
  assert (E : Z.of_nat (written (message_ m)) = Z.of_nat (length (message_ m)) <-> written (message_ m) = length (message_ m)) by lia. rewrite E, written_all. split.
  - intros H i Hi. apply chunk_count_spec in Hi. pose proof (I3 (i * M)%nat Hi) as C. rewrite Nat.div_mul in C by lia.
    destruct (decide _) as [D|D]; [exact D|]. exfalso. apply (H (nth (i * M) (message_ m) None)); [apply nth_In; lia|exact C].
  - intros H b Hb. apply (In_nth _ _ None) in Hb as (j & Hj & <-). rewrite I2 in Hj. rewrite I3 by exact Hj.
    destruct (decide _) as [D|D]; [discriminate|]. exfalso. apply D, H, chunk_count_spec. pose proof (Nat.div_mod j M ltac:(lia)). nia.
Qed.

Lemma Reassemble_ok value m : chunk_inv value m -> chunk_complete value m -> Reassemble m = Some value.
Proof.
  intros (I1 & I2 & I3 & I4) C. pose proof M_pos. unfold Reassemble. assert (E : message_ m = map Some value).
  { apply (nth_ext _ _ None None); [now rewrite length_map|]. rewrite I2. intros j Hj. rewrite I3 by exact Hj.
    destruct (decide _) as [D|D]; [|exfalso; apply D, C, chunk_count_spec; pose proof (Nat.div_mod j M ltac:(lia)); nia].
    rewrite (nth_indep _ None (Some 0)) by (rewrite length_map; lia). symmetry. apply (map_nth Some value 0). }
  rewrite E. clear. induction value as [|x l IH]; [reflexivity|]. cbn [map Errors.mapM]. now rewrite IH.
Qed.

(** *** The handler on a chunk of a message *)

Lemma chunk_request_unpack key value i : link_key key -> Forall byte value -> fits value -> (i < chunk_count value)%nat ->
  IsMonoRequest (chunk_request key value i) = Some false /\ IsChunkedRequest (chunk_request key value i) = Some true /\
  UnpackChunckRequest (chunk_request key value i) = Some (key, chunk_of value i, Z.of_nat (i * M)%nat, Z.of_nat (length value)).
Proof.
  intros Hk Hb F Hi. unfold fits in F. pose proof max_chunk_pos. pose proof M_val. destruct (length_chunk value i Hi) as [B1 B2].
  apply chunk_not_mono; [exact Hk| |lia|lia]. split; [unfold chunk_of; apply Forall_firstn, Forall_skipn, Hb|lia].
Qed.

Lemma set_chunked_id c : set_chunked (chunked_values_ c) c = c.
Proof. now destruct c. Qed.

(** What the state holds of the message: nothing, or some of its chunks. *)
Definition partial (value : list Z) (o : option ChunkedMessage) : Prop := match o with None => True | Some m => chunk_inv value m end.
Definition got_chunks (o : option ChunkedMessage) : gset Z := match o with None => ∅ | Some m => received_ m end.

Lemma add_chunk_ok key value i c : fits value -> (i < chunk_count value)%nat -> partial value (chunked_values_ c !! key) ->
  exists m', chunk_inv value m' /\ received_ m' = {[Z.of_nat (i * M)%nat]} ∪ got_chunks (chunked_values_ c !! key) /\
  add_chunk key (chunk_of value i) (Z.of_nat (i * M)%nat) (Z.of_nat (length value)) c =
  if IsFullyFilled m' then (Ret (Some m'), set_chunked (delete key (chunked_values_ c)) c)
  else (Ret None, set_chunked (<[key := m']> (chunked_values_ c)) c).
Proof.
  intros F Hi P. pose proof F as F'. unfold fits in F'. pose proof max_chunk_pos. destruct (length_chunk value i Hi) as [B1 B2].
  unfold add_chunk. rewrite u64_small by lia. destruct (Z.ltb_spec (Z.of_nat (length value)) (Z.of_nat (i * M)%nat + Z.of_nat (length (chunk_of value i)))); [lia|].
  assert (Ei : i64 (Z.of_nat (i * M)%nat) = Z.of_nat (i * M)%nat) by (apply swrap_small; lia). rewrite Ei.
  destruct (chunked_values_ c !! key) as [m|] eqn:E.
  - destruct (AddChunk_ok value m i F P Hi) as (m' & -> & I' & R'). exists m'. cbn [got_chunks]. split; [exact I'|]. split; [exact R'|].
    destruct (IsFullyFilled m'); reflexivity.
  - destruct (chunk_new value F) as (m0 & E0 & I0 & R0). destruct (AddChunk_ok value m0 i F I0 Hi) as (m' & A & I' & R').
    exists m'. split; [exact I'|]. split; [now rewrite R', R0|]. rewrite E0, A. destruct (IsFullyFilled m'); reflexivity.
Qed.

(** Chunks that are not all of them wait in the state, in any order and number. *)
Definition deliver_all (rs : list Request) (c : Channel) : Channel := fold_left (fun c r => snd (OnRequest r c)) rs c.
Definition covers (value : list Z) (is_ : list nat) : Prop := forall i, (i < chunk_count value)%nat -> In i is_.

Lemma OnRequest_chunk key value i c : link_key key -> Forall byte value -> fits value -> (i < chunk_count value)%nat -> aborting_ c = false ->
  OnRequest (chunk_request key value i) c = OnChunkedMessage key (chunk_of value i) (Z.of_nat (i * M)%nat) (Z.of_nat (length value)) c.
Proof.
  intros Hk Hb F Hi Ha. destruct (chunk_request_unpack key value i Hk Hb F Hi) as (E1 & E2 & E3). unfold OnRequest. now rewrite Ha, E1, E2, E3.
Qed.

Lemma chunks_wait key value c : link_key key -> Forall byte value -> fits value -> aborting_ c = false -> chunked_values_ c !! key = None ->
  forall is_, (forall i, In i is_ -> (i < chunk_count value)%nat) -> ~ covers value is_ ->
  exists chunks, deliver_all (map (chunk_request key value) is_) c = set_chunked chunks c /\ delete key chunks = chunked_values_ c /\
    partial value (chunks !! key) /\ forall o, o ∈ got_chunks (chunks !! key) <-> exists i, In i is_ /\ o = Z.of_nat (i * M)%nat.
Proof.
  intros Hk Hb F Ha Hn is_. induction is_ as [|i l IH] using rev_ind; intros HI NC.
  - exists (chunked_values_ c). split; [symmetry; apply set_chunked_id|]. split; [now apply delete_id|]. rewrite Hn. split; [exact I|]. intros o. cbn. split; [set_solver|intros (i & [] & _)].
  - assert (HI' : forall j, In j l -> (j < chunk_count value)%nat) by (intros j Hj; apply HI, in_app_iff; now left).
    assert (Hi : (i < chunk_count value)%nat) by (apply HI, in_app_iff; right; now left).
    destruct IH as (chunks & E & D & P & G); [exact HI'|intros C; apply NC; intros j Hj; apply in_app_iff; left; now apply C|].
    unfold deliver_all in *. rewrite map_app, fold_left_app, E. cbn [map fold_left]. set (c' := set_chunked chunks c).
    assert (Ec : chunked_values_ c' = chunks) by reflexivity. rewrite OnRequest_chunk by assumption.
    destruct (add_chunk_ok key value i c' F Hi ltac:(rewrite Ec; exact P)) as (m' & I' & R' & A). unfold OnChunkedMessage. rewrite A, Ec. rewrite Ec in R'.
    assert (G' : forall o, o ∈ received_ m' <-> exists j, In j (l ++ [i]) /\ o = Z.of_nat (j * M)%nat).
    { intros o. rewrite R', elem_of_union, elem_of_singleton, G. split.
      - intros [->|(j & Hj & ->)]; [exists i|exists j]; rewrite in_app_iff; cbn; auto.
      - intros (j & Hj & ->). apply in_app_iff in Hj as [Hj|[<-|[]]]; [right; now exists j|now left]. }
    destruct (IsFullyFilled m') eqn:Full.
    + exfalso. apply NC. apply (full_complete value m' F I') in Full. intros j Hj. specialize (Full j Hj). apply G' in Full as (j' & Hj' & Ej). apply index_inj in Ej. rewrite Ej. exact Hj'.
    + cbn [snd]. exists (<[key := m']> chunks). split; [reflexivity|]. split; [now rewrite delete_insert_eq|]. rewrite lookup_insert_eq. split; [exact I'|exact G'].
Qed.

(** The chunk that is missing completes the message. *)
Lemma chunks_complete key value c is_ i : link_key key -> Forall byte value -> fits value -> aborting_ c = false -> chunked_values_ c !! key = None ->
  (forall j, In j (is_ ++ [i]) -> (j < chunk_count value)%nat) -> ~ covers value is_ -> covers value (is_ ++ [i]) ->
  OnRequest (chunk_request key value i) (deliver_all (map (chunk_request key value) is_) c) = OnMessage key value c.
Proof.
  intros Hk Hb F Ha Hn HI NC C. assert (Hi : (i < chunk_count value)%nat) by (apply HI, in_app_iff; right; now left).
  destruct (chunks_wait key value c Hk Hb F Ha Hn is_ ltac:(intros j Hj; apply HI, in_app_iff; now left) NC) as (chunks & E & D & P & G).
  rewrite E. set (c' := set_chunked chunks c). assert (Ec : chunked_values_ c' = chunks) by reflexivity. rewrite OnRequest_chunk by assumption.
  destruct (add_chunk_ok key value i c' F Hi ltac:(rewrite Ec; exact P)) as (m' & I' & R' & A). unfold OnChunkedMessage. rewrite A, Ec. rewrite Ec in R'.
  assert (CM : chunk_complete value m').
  { intros j Hj. rewrite R', elem_of_union, elem_of_singleton, G. specialize (C j Hj). apply in_app_iff in C as [Hl|[<-|[]]]; [right; now exists j|now left]. }
  rewrite (proj2 (full_complete value m' F I') CM), (Reassemble_ok value m' I' CM). f_equal. rewrite D. apply (set_chunked_id c).
Qed.
End Chunks.

(** Two chunks of one key with different lengths of the message: each is checked
    against its own length, and the second is copied past the end of the buffer. *)
Example chunk_overflow :
  let '(o, c) := OnChunkedMessage [1] [7] 0 2 (Channel_new 0 false) in
  o = Ret tt /\ fst (OnChunkedMessage [1] [8; 9] 1 3 c) = Undefined.
Proof. vm_compute. split; reflexivity. Qed.
