(* ===== verification/ChannelNet.v ===== *)
(** Two channels, each the peer of the other: the steps of the pair, and the
    invariant that every reachable pair has.  The network may delay, reorder,
    repeat and lose requests; it does not invent them. *)
From Stdlib Require Import ZArith Lia List Bool.
From stdpp Require Import base option list gmap.
From S2P Require Import Prelude.
From S2P Require Import Errors.
From S2P Require Import Strings.
From S2P Require Import StringsSpec.
From S2P Require Import SegTree.
From S2P Require Import Link.
From S2P Require Import Channel.
From S2P Require Import Chunks.
Import ListNotations.
#[local] Open Scope Z_scope.
#[local] Open Scope bool_scope.

(** ** Nodes: a channel, and what happened at it *)

(** The messages sent, in order, so that number [s] is at [s - 1]; those received,
    with their numbers; the messages put together from chunks whose [OnMessage] has
    still to run; the tasks that have ended. *)
Record Node := MkNode { ch : Channel; sent : list (list Z * list Z); got : list (Z * list Z * list Z); ready : list (list Z * list Z); ended : list nat }.
Definition Node_new (throttle : Z) : Node := MkNode (Channel_new throttle false) [] [] [] [].

Definition set_ch (c : Channel) (nd : Node) : Node := MkNode c (sent nd) (got nd) (ready nd) (ended nd).

Section Net.
Context {L : TransportLink}.

(** A message the user may send: a key and a value the link carries. *)
Definition user_message (k v : list Z) : Prop :=
  Forall byte k /\ Z.of_nat (length k) + 22 < 2 ^ 32 /\ Forall byte v /\ fits v.

(** The three calls that send. *)
Inductive send_api : (list Z -> list Z -> Channel -> result Z * Channel) -> Prop :=
  | api_async : send_api SendAsync
  | api_send : send_api Send
  | api_throttled : send_api SendAsyncThrottled.

(** What a node does, its peer's tasks being [peer]. *)
Inductive node_step (peer : list Message) : Node -> Node -> Prop :=
  | step_send api k v seq c nd :
      send_api api -> user_message k v -> msg_seq_id_ (ch nd) + 2 < 2 ^ 64 -> api k v (ch nd) = (Ret seq, c) ->
      node_step peer nd (MkNode c (sent nd ++ [(k, v)]) (got nd) (ready nd) (ended nd))
  | step_thread timed_out nd : node_step peer nd (set_ch (SendThread_step timed_out (ch nd)) nd)
  | step_mono m r nd : In m peer -> In r (SendImpl (msg_key_ m) (value_ m)) -> IsMonoRequest r = Some true ->
      node_step peer nd (set_ch (snd (OnRequest r (ch nd))) nd)
  | step_chunk m r key value offset total o c nd : In m peer -> In r (SendImpl (msg_key_ m) (value_ m)) -> IsMonoRequest r = Some false ->
      aborting_ (ch nd) = false -> UnpackChunckRequest r = Some (key, value, offset, total) ->
      add_chunk key value offset total (ch nd) = (o, c) ->
      node_step peer nd (MkNode c (sent nd) (got nd)
        (match o with Ret (Some data) => match Reassemble data with Some v => (key, v) :: ready nd | None => ready nd end | _ => ready nd end) (ended nd))
  | step_ready l key v l' nd : ready nd = l ++ (key, v) :: l' ->
      node_step peer nd (MkNode (snd (OnMessage key v (ch nd))) (sent nd) (got nd) (l ++ l') (ended nd))
  | step_recv k timed_out v seq v' c nd : recv_msgs_ (ch nd) !! k = Some (v', seq) -> RecvPoll k timed_out (ch nd) = (Ret v, c) ->
      node_step peer nd (MkNode c (sent nd) ((seq, k, v) :: got nd) (ready nd) (ended nd))
  | step_ended i m nd : nth_error (tasks (ch nd)) i = Some m -> ~ In i (ended nd) ->
      node_step peer nd (MkNode (SendTaskFinishedNotify (seq_id_ m) (ch nd)) (sent nd) (got nd) (ready nd) (i :: ended nd))
  | step_close nd : node_step peer nd (set_ch (snd (WaitLinkTaskFinish_step (ch nd))) nd)
  | step_window w nd : node_step peer nd (set_ch (set_throttle w (ch nd)) nd)
  | step_abort nd : node_step peer nd (set_ch (Abort (ch nd)) nd).

(** The pair, and its steps: one of the nodes makes one. *)
Record Net := MkNet { node_true : Node; node_false : Node }.
Definition side (n : Net) (b : bool) : Node := if b then node_true n else node_false n.
Definition upd_node (n : Net) (b : bool) (nd : Node) : Net := if b then MkNet nd (node_false n) else MkNet (node_true n) nd.
Inductive net_step : Net -> Net -> Prop :=
  | net_node n b nd : node_step (tasks (ch (side n (negb b)))) (side n b) nd -> net_step n (upd_node n b nd).
Inductive reach : Net -> Prop :=
  | reach_start w w' : reach (MkNet (Node_new w) (Node_new w'))
  | reach_step n n' : reach n -> net_step n n' -> reach n'.

(** ** Facts about a node that stay true *)

Definition node_sent (nd : Node) (s : Z) (k v : list Z) : Prop := 1 <= s /\ nth_error (sent nd) (Z.to_nat (s - 1)) = Some (k, v).
(** A message it has got: [Recv] returned it, or the node is closing. *)
Definition node_acked (nd : Node) (s : Z) : Prop :=
  elem s (received_msg_ids_ (ch nd)) /\ ((exists k v, In (s, k, v) (got nd)) \/ waiting_finish_ (ch nd) = true).
(** The send thread has submitted it. *)
Definition node_submitted (nd : Node) (s : Z) : Prop := In s (map seq_id_ (tasks (ch nd))).
Definition node_count (nd : Node) (m : Z) : Prop := waiting_finish_ (ch nd) = true /\ m = msg_seq_id_ (ch nd).

Record grows (nd nd' : Node) : Prop := MkGrows {
  g_sent : forall s k v, node_sent nd s k v -> node_sent nd' s k v;
  g_ids : forall s, elem s (received_msg_ids_ (ch nd)) -> elem s (received_msg_ids_ (ch nd'));
  g_got : forall x, In x (got nd) -> In x (got nd');
  g_waiting : waiting_finish_ (ch nd) = true -> waiting_finish_ (ch nd') = true;
  g_seq : waiting_finish_ (ch nd) = true -> msg_seq_id_ (ch nd') = msg_seq_id_ (ch nd);
  g_tasks : forall m, In m (tasks (ch nd)) -> In m (tasks (ch nd')) }.

Lemma grows_acked nd nd' s : grows nd nd' -> node_acked nd s -> node_acked nd' s.
Proof. intros [G1 G2 G3 G4 G5 _] [H [(k & v & K)|K]]; split; [now apply G2|left; exists k, v; now apply G3|now apply G2|right; now apply G4]. Qed.

Lemma grows_count nd nd' m : grows nd nd' -> node_count nd m -> node_count nd' m.
Proof. intros [G1 G2 G3 G4 G5 _] [H ->]. split; [now apply G4|symmetry; now apply G5]. Qed.

Lemma grows_submitted nd nd' s : grows nd nd' -> node_submitted nd s -> node_submitted nd' s.
Proof. intros G H. apply in_map_iff in H as (m & E & H). apply in_map_iff. exists m. split; [exact E|now apply (g_tasks _ _ G)]. Qed.

(** The same sent messages and numbers, the rest no less. *)
Lemma grows_same nd nd' : (forall m, In m (tasks (ch nd)) -> In m (tasks (ch nd'))) -> sent nd' = sent nd -> msg_seq_id_ (ch nd') = msg_seq_id_ (ch nd) ->
  (forall s, elem s (received_msg_ids_ (ch nd)) -> elem s (received_msg_ids_ (ch nd'))) -> (forall x, In x (got nd) -> In x (got nd')) ->
  (waiting_finish_ (ch nd) = true -> waiting_finish_ (ch nd') = true) -> grows nd nd'.
Proof. intros E0 E1 E2 E3 E4 E5. split; auto. intros s k v. unfold node_sent. now rewrite E1. Qed.

(** ** The invariant of a node *)

(** The messages of a node, to be sent or on their way. *)
Definition own_ok (nd : Node) (m : Message) : Prop :=
  (exists k, node_sent nd (seq_id_ m) k (value_ m) /\ msg_key_ m = BuildChannelKey k (seq_id_ m)) \/
  (exists s, seq_id_ m = 0 /\ msg_key_ m = kAckKey /\ value_ m = to_string s /\ node_acked nd s) \/
  (exists n, seq_id_ m = 0 /\ msg_key_ m = kFinKey /\ value_ m = to_string n /\ node_count nd n).

Definition sent_ok (k v : list Z) : Prop := msg_key_ok k /\ user_message k v.

(** What the peer has done: sent messages that its thread has submitted, got messages,
    closed with a count. *)
Record Peer := MkPeer { p_sent : Z -> list Z -> list Z -> Prop; p_acked : Z -> Prop; p_count : Z -> Prop }.
Definition peer_of (nd : Node) : Peer := MkPeer (fun s k v => node_sent nd s k v /\ node_submitted nd s) (node_acked nd) (node_count nd).
Record peer_le (p p' : Peer) : Prop := MkPeerLe {
  l_sent : forall s k v, p_sent p s k v -> p_sent p' s k v; l_acked : forall s, p_acked p s -> p_acked p' s; l_count : forall m, p_count p m -> p_count p' m }.
Record peer_ok (p : Peer) : Prop := MkPeerOk {
  o_sent : forall s k v, p_sent p s k v -> 1 <= s < 2 ^ 64 - 1 /\ sent_ok k v;
  o_fun : forall s k v k' v', p_sent p s k v -> p_sent p s k' v' -> k = k' /\ v = v';
  o_acked : forall s, p_acked p s -> 1 <= s < 2 ^ 64 - 1;
  o_count : forall m, p_count p m -> 0 <= m < 2 ^ 64 }.

(** The peer has closed with a count, and all its messages were received. *)
Definition all_received (p : Peer) (c : Channel) : Prop := exists m, p_count p m /\ forall s, 1 <= s <= m -> elem s (received_msg_ids_ c).
Definition close_ok (p : Peer) (c : Channel) : Prop :=
  match close_pc c with
  | CloseNot => True
  | CloseFin => waiting_finish_ c = true
  | CloseMsgs => waiting_finish_ c = true /\ received_fin_ c = true
  | CloseJoin | CloseTasks => waiting_finish_ c = true /\ all_received p c
  | CloseAck n => waiting_finish_ c = true /\ all_received p c /\ n = msg_seq_id_ c
  | Closed => waiting_finish_ c = true /\ all_received p c /\ forall s, 1 <= s <= msg_seq_id_ c -> elem s (received_ack_ids_ c)
  end.

Record node_inv (p : Peer) (nd : Node) : Prop := MkNodeInv {
  i_seq : msg_seq_id_ (ch nd) = Z.of_nat (length (sent nd)) /\ msg_seq_id_ (ch nd) < 2 ^ 64 - 1;
  i_enabled : disable_msg_seq_id_ (ch nd) = false;
  i_sent : forall s k v, node_sent nd s k v -> sent_ok k v;
  i_own : forall m, In m (queue_ (ch nd) ++ tasks (ch nd)) -> own_ok nd m;
  i_ids : tree_ok (received_msg_ids_ (ch nd)) /\ forall s, elem s (received_msg_ids_ (ch nd)) -> exists k v, p_sent p s k v;
  i_acks : tree_ok (received_ack_ids_ (ch nd)) /\ forall s, elem s (received_ack_ids_ (ch nd)) -> p_acked p s;
  i_recv : forall k v s, recv_msgs_ (ch nd) !! k = Some (v, s) -> p_sent p s k v /\ elem s (received_msg_ids_ (ch nd)) /\ forall k' v', ~ In (s, k', v') (got nd);
  i_got : NoDup (map (fun x => fst (fst x)) (got nd)) /\ forall s k v, In (s, k, v) (got nd) -> p_sent p s k v /\ elem s (received_msg_ids_ (ch nd));
  i_chunks : forall key m, chunked_values_ (ch nd) !! key = Some m -> exists s k v, p_sent p s k v /\ key = BuildChannelKey k s /\ chunk_inv v m;
  i_ready : forall key v, In (key, v) (ready nd) -> exists s k, p_sent p s k v /\ key = BuildChannelKey k s;
  i_fin : received_fin_ (ch nd) = true -> p_count p (peer_sent_msg_count_ (ch nd));
  i_close : close_ok p (ch nd) }.

(** ** The invariant is kept *)

Context {LL : TransportLinkLaws L}.

Lemma own_ok_grows nd nd' m : grows nd nd' -> own_ok nd m -> own_ok nd' m.
Proof.
  intros G [(k & H & E)|[(s & E1 & E2 & E3 & H)|(n & E1 & E2 & E3 & H)]].
  - left. exists k. split; [now apply (g_sent _ _ G)|exact E].
  - right; left. exists s. repeat split; try assumption; now apply (grows_acked _ _ s G).
  - right; right. exists n. repeat split; try assumption; now apply (grows_count _ _ n G).
Qed.

Lemma all_received_le p p' c : peer_le p p' -> all_received p c -> all_received p' c.
Proof. intros Lp (m & H & A). exists m. split; [now apply (l_count _ _ Lp)|exact A]. Qed.

Lemma close_ok_le p p' c : peer_le p p' -> close_ok p c -> close_ok p' c.
Proof. intros Lp. unfold close_ok. destruct (close_pc c); try tauto; intros H; repeat split; try (now apply H); apply (all_received_le p); try assumption; apply H. Qed.

(** What the peer does keeps the invariant of the node. *)
Lemma node_inv_le p p' nd : peer_le p p' -> node_inv p nd -> node_inv p' nd.
Proof.
  intros Lp I. destruct I. split; try assumption.
  - split; [apply i_ids0|]. intros s Hs. destruct (proj2 i_ids0 s Hs) as (k & v & H). exists k, v. now apply (l_sent _ _ Lp).
  - split; [apply i_acks0|]. intros s Hs. now apply (l_acked _ _ Lp), i_acks0.
  - intros k v s H. destruct (i_recv0 k v s H) as (H1 & H2). split; [now apply (l_sent _ _ Lp)|exact H2].
  - split; [apply i_got0|]. intros s k v H. destruct (proj2 i_got0 s k v H) as (H1 & H2). split; [now apply (l_sent _ _ Lp)|exact H2].
  - intros key m H. destruct (i_chunks0 key m H) as (s & k & v & H1 & H2). exists s, k, v. split; [now apply (l_sent _ _ Lp)|exact H2].
  - intros key v H. destruct (i_ready0 key v H) as (s & k & H1 & H2). exists s, k. split; [now apply (l_sent _ _ Lp)|exact H2].
  - intros H. now apply (l_count _ _ Lp), i_fin0.
  - now apply (close_ok_le p).
Qed.

Lemma grows_peer nd nd' : grows nd nd' -> peer_le (peer_of nd) (peer_of nd').
Proof. intros G. split; cbn; [intros s k v [H T]; split; [now apply (g_sent _ _ G)|now apply (grows_submitted _ _ s G)]|intros s; apply (grows_acked _ _ s G)|intros m; apply (grows_count _ _ m G)]. Qed.

(** *** Sending *)

Lemma node_sent_fun nd s k v k' v' : node_sent nd s k v -> node_sent nd s k' v' -> k = k' /\ v = v'.
Proof. intros [_ H] [_ H']. rewrite H in H'. injection H' as -> ->. now split. Qed.

Lemma node_sent_range p nd s k v : node_inv p nd -> node_sent nd s k v -> 1 <= s <= msg_seq_id_ (ch nd).
Proof.
  intros I [H1 H2]. split; [exact H1|]. rewrite (proj1 (i_seq _ _ I)). assert (N : nth_error (sent nd) (Z.to_nat (s - 1)) <> None) by congruence.
  apply nth_error_Some in N. lia.
Qed.

Lemma node_sent_all p nd s : node_inv p nd -> 1 <= s <= msg_seq_id_ (ch nd) -> exists k v, node_sent nd s k v.
Proof.
  intros I H. rewrite (proj1 (i_seq _ _ I)) in H. destruct (nth_error (sent nd) (Z.to_nat (s - 1))) as [[k v]|] eqn:E; [exists k, v; split; [lia|exact E]|].
  apply nth_error_None in E. lia.
Qed.

(** One more task, of what has happened. *)
Lemma submit_inv p nd m : node_inv p nd -> own_ok nd m -> node_inv p (set_ch (SubmitSendTask m (ch nd)) nd).
Proof.
  intros I Hm. destruct I. split; try assumption. cbn. intros m' Hm'. rewrite app_assoc in Hm'. apply in_app_iff in Hm' as [Hm'|[<-|[]]]; [exact (i_own0 m' Hm')|exact Hm].
Qed.

Lemma submit_grows nd m : grows nd (set_ch (SubmitSendTask m (ch nd)) nd).
Proof. apply grows_same; cbn; auto using in_or_app. Qed.

Lemma ack_inv p nd s : node_inv p nd -> node_acked nd s -> node_inv p (set_ch (SendAck s (ch nd)) nd).
Proof.
  intros I Hs. unfold SendAck. destruct (0 <? s); [|now destruct nd]. apply submit_inv; [exact I|]. right; left. now exists s.
Qed.

Lemma ack_grows nd s : grows nd (set_ch (SendAck s (ch nd)) nd).
Proof. unfold SendAck. destruct (0 <? s); [apply submit_grows|]. apply grows_same; cbn; auto. Qed.

(** The three calls push the message, or nothing. *)
Lemma send_api_ok api k v c seq c' : send_api api -> disable_msg_seq_id_ c = false -> api k v c = (Ret seq, c') ->
  msg_key_ok k /\ waiting_finish_ c = false /\ (seq, c') = push_message k v c.
Proof.
  intros A D E. destruct A; unfold SendAsync, Send, SendAsyncThrottled in E; rewrite D in E; destruct (aborting_ c); try discriminate;
    destruct (waiting_finish_ c); try discriminate; (destruct (NormalMessageKeyEnforce k) eqn:K; [|discriminate]); cbn [negb] in E;
    (split; [exact K|]); (split; [reflexivity|]); destruct (push_message k v c); injection E as -> ->; reflexivity.
Qed.

Lemma sent_grows nd c x : waiting_finish_ (ch nd) = false -> waiting_finish_ c = waiting_finish_ (ch nd) -> received_msg_ids_ c = received_msg_ids_ (ch nd) ->
  tasks c = tasks (ch nd) -> grows nd (MkNode c (sent nd ++ [x]) (got nd) (ready nd) (ended nd)).
Proof.
  intros W E1 E2 E3. split; cbn; try congruence; auto. intros s k v [H1 H2]. split; [exact H1|]. cbn. rewrite nth_error_app1; [exact H2|]. apply nth_error_Some. congruence.
Qed.

Lemma step_send_inv p nd api k v seq c : node_inv p nd -> send_api api -> user_message k v -> msg_seq_id_ (ch nd) + 2 < 2 ^ 64 ->
  api k v (ch nd) = (Ret seq, c) -> let nd' := MkNode c (sent nd ++ [(k, v)]) (got nd) (ready nd) (ended nd) in node_inv p nd' /\ grows nd nd'.
Proof.
  intros I A U B E nd'. destruct (send_api_ok api k v (ch nd) seq c A (i_enabled _ _ I) E) as (K & W & P).
  pose proof (i_seq _ _ I) as [S1 S2]. unfold push_message in P. rewrite u64_small in P by lia. injection P as -> ->.
  set (s := msg_seq_id_ (ch nd) + 1) in *. assert (G : grows nd nd') by (now apply sent_grows). split; [|exact G].
  assert (NS : node_sent nd' s k v) by (split; [lia|]; unfold nd'; cbn; rewrite nth_error_app2 by lia; replace (Z.to_nat (s - 1) - length (sent nd))%nat with 0%nat by lia; reflexivity).
  destruct I. split; try assumption; unfold nd'; cbn.
  - rewrite length_app. cbn. lia.
  - intros s' k' v' H. destruct (Z.eq_dec s' s) as [->|N]; [destruct (node_sent_fun _ _ _ _ _ _ NS H) as [<- <-]; now split|]. apply (i_sent0 s'). destruct H as [H1 H2]. split; [exact H1|]. cbn in H2.
    destruct (Nat.lt_ge_cases (Z.to_nat (s' - 1)) (length (sent nd))) as [C|C]; [now rewrite nth_error_app1 in H2 by exact C|]. exfalso.
    assert (X : nth_error (sent nd ++ [(k, v)]) (Z.to_nat (s' - 1)) <> None) by congruence. apply nth_error_Some in X. rewrite length_app in X. cbn in X. lia.
  - intros m Hm. rewrite <- app_assoc in Hm. apply in_app_iff in Hm as [Hm|[<-|Hm]].
    + apply (own_ok_grows nd); [exact G|]. apply i_own0, in_app_iff. now left.
    + left. exists k. split; [exact NS|reflexivity].
    + apply (own_ok_grows nd); [exact G|]. apply i_own0, in_app_iff. now right.
  - unfold close_ok in *. cbn. destruct (close_pc (ch nd)); try exact Logic.I; exfalso; intuition congruence.
Qed.

(** *** The send thread, the ends of tasks *)

Lemma requeue_inv p nd c : node_inv p nd -> (forall m, In m (queue_ c ++ tasks c) -> In m (queue_ (ch nd) ++ tasks (ch nd))) ->
  (forall m, In m (tasks (ch nd)) -> In m (tasks c)) -> msg_seq_id_ c = msg_seq_id_ (ch nd) -> disable_msg_seq_id_ c = disable_msg_seq_id_ (ch nd) -> received_msg_ids_ c = received_msg_ids_ (ch nd) ->
  received_ack_ids_ c = received_ack_ids_ (ch nd) -> recv_msgs_ c = recv_msgs_ (ch nd) -> chunked_values_ c = chunked_values_ (ch nd) ->
  received_fin_ c = received_fin_ (ch nd) -> peer_sent_msg_count_ c = peer_sent_msg_count_ (ch nd) -> close_pc c = close_pc (ch nd) ->
  waiting_finish_ c = waiting_finish_ (ch nd) -> forall e, node_inv p (MkNode c (sent nd) (got nd) (ready nd) e) /\ grows nd (MkNode c (sent nd) (got nd) (ready nd) e).
Proof.
  intros I Hq Ht E1 E2 E3 E4 E5 E6 E7 E8 E9 E10 e.
  assert (G : grows nd (MkNode c (sent nd) (got nd) (ready nd) e)) by (apply grows_same; cbn; try congruence; auto; now rewrite E3). split; [|exact G].
  destruct I. split; cbn; try (rewrite ?E1, ?E2, ?E3, ?E4, ?E5, ?E6, ?E7, ?E8; assumption).
  - intros m Hm. apply (own_ok_grows nd); [exact G|]. now apply i_own0, Hq.
  - unfold close_ok in *. rewrite E9, E1, E7, E10. destruct (close_pc (ch nd)); unfold all_received in *; now rewrite ?E3, ?E4.
Qed.

Lemma SendThread_inv p nd t : node_inv p nd -> node_inv p (set_ch (SendThread_step t (ch nd)) nd) /\ grows nd (set_ch (SendThread_step t (ch nd)) nd).
Proof.
  intros I. unfold set_ch. apply requeue_inv; [exact I|..]; unfold SendThread_step, Pop.
  1: { intros m. destruct (send_pc (ch nd)).
    - destruct (send_thread_stopped_ (ch nd)); [destruct (aborting_ (ch nd)); auto|]. destruct (queue_ (ch nd)) as [|x q] eqn:E; [now rewrite E|]. cbn.
      rewrite !in_app_iff. cbn. tauto.
    - destruct (ThrottleWindowWait seq_id t (ch nd)); auto.
    - destruct (queue_ (ch nd)) as [|x q] eqn:E; [cbn; now rewrite E|]. cbn. rewrite !in_app_iff. cbn. tauto.
    - auto. }
  1: { intros m Hm. destruct (send_pc (ch nd)).
    - destruct (send_thread_stopped_ (ch nd)); [now destruct (aborting_ (ch nd))|]. destruct (queue_ (ch nd)); cbn; auto using in_or_app.
    - now destruct (ThrottleWindowWait seq_id t (ch nd)).
    - destruct (queue_ (ch nd)); cbn; auto using in_or_app.
    - exact Hm. }
  all: destruct (send_pc (ch nd)); try reflexivity.
  all: try (destruct (ThrottleWindowWait seq_id t (ch nd)); reflexivity).
  all: try (destruct (queue_ (ch nd)); reflexivity).
  all: destruct (send_thread_stopped_ (ch nd)); [destruct (aborting_ (ch nd)); reflexivity|destruct (queue_ (ch nd)); reflexivity].
Qed.

(** *** Receiving *)

(** A number is entered in the set. *)
Lemma Insert_new t s : tree_ok t -> 1 <= s < 2 ^ 64 - 1 -> exists b t', Insert t s = (b, t') /\ tree_ok t' /\ (forall y, elem y t' <-> y = s \/ elem y t) /\ (b = true -> ~ elem s t).
Proof.
  intros Ht Hs. pose proof (Insert_ok t s Ht ltac:(lia)) as H. destruct (Insert t s) as [b t']. exists b, t'. destruct H as (H1 & H2 & H3 & _).
  split; [reflexivity|]. split; [exact H1|]. split; [exact H3|]. intros ->. rewrite <- (Contains_ok t s Ht). intros E. now rewrite E in H2.
Qed.

Lemma ids_inv p nd s k v t : peer_ok p -> node_inv p nd -> p_sent p s k v -> tree_ok t -> (forall y, elem y t <-> y = s \/ elem y (received_msg_ids_ (ch nd))) ->
  node_inv p (set_ch (set_msg_ids t (ch nd)) nd) /\ grows nd (set_ch (set_msg_ids t (ch nd)) nd).
Proof.
  intros P I Hs Ht Et. assert (G : grows nd (set_ch (set_msg_ids t (ch nd)) nd)) by (apply grows_same; cbn; auto; intros y Hy; apply Et; now right). split; [|exact G].
  destruct I. split; try assumption; cbn.
  - intros m Hm. apply (own_ok_grows nd); [exact G|]. now apply i_own0.
  - split; [exact Ht|]. intros y Hy. apply Et in Hy as [->|Hy]; [now exists k, v|now apply i_ids0].
  - intros k' v' s' H. destruct (i_recv0 k' v' s' H) as (H1 & H2 & H3). repeat split; try assumption. apply Et. now right.
  - split; [apply i_got0|]. intros s' k' v' H. destruct (proj2 i_got0 s' k' v' H) as (H1 & H2). split; [exact H1|]. apply Et. now right.
  - unfold close_ok in *. cbn. unfold all_received in *. cbn. destruct (close_pc (ch nd)); try tauto.
    all: repeat match goal with H : _ /\ _ |- _ => destruct H end; repeat split; try assumption.
    all: match goal with H : exists m, _ |- _ => destruct H as (m & C & A) end; exists m; split; [exact C|]; intros y Hy; apply Et; right; now apply A.
Qed.

Lemma OnNormalMessage_inv p nd s k v : peer_ok p -> node_inv p nd -> p_sent p s k v ->
  let nd' := set_ch (snd (OnNormalMessage (BuildChannelKey k s) v (ch nd))) nd in node_inv p nd' /\ grows nd nd'.
Proof.
  intros P I Hs nd'. destruct (o_sent _ P s k v Hs) as [Rs [Hk _]]. unfold nd', OnNormalMessage. rewrite split_build by (exact Hk || lia).
  destruct (Z.ltb_spec 0 s) as [_|C]; [|lia]. destruct (Insert_new (received_msg_ids_ (ch nd)) s (proj1 (i_ids _ _ I)) ltac:(lia)) as (b & t & E & Ht & Et & Fr).
  rewrite E. destruct (ids_inv p nd s k v t P I Hs Ht Et) as [I1 G1]. destruct b; cbn [negb snd]; [|now split]. specialize (Fr eq_refl).
  set (nd1 := set_ch (set_msg_ids t (ch nd)) nd) in *. change (set_msg_ids t (ch nd)) with (ch nd1). change (waiting_finish_ (ch nd1)) with (waiting_finish_ (ch nd)).
  destruct (waiting_finish_ (ch nd)) eqn:W; cbn [negb snd].
  - change (set_ch (SendAck s (ch nd1)) nd) with (set_ch (SendAck s (ch nd1)) nd1). split; [apply ack_inv; [exact I1|]|].
    + split; [cbn; apply Et; now left|right; exact W].
    + destruct G1 as [G1 G2 G3 G4 G5 G6], (ack_grows nd1 s) as [K1 K2 K3 K4 K5 K6]. split; auto.
  - change (recv_msgs_ (ch nd1)) with (recv_msgs_ (ch nd)). destruct (recv_msgs_ (ch nd) !! k) as [x|] eqn:El; cbn [snd]; [now split|].
    assert (G2 : grows nd (set_ch (set_recv (<[k:=(v, s)]> (recv_msgs_ (ch nd))) (ch nd1)) nd)).
    { destruct G1 as [K1 K2 K3 K4 K5 K6]. split; auto. }
    split; [|exact G2]. pose proof (i_recv _ _ I1) as R. pose proof (i_got _ _ I) as GG. clear G1. destruct I1. split; try assumption; cbn.
    intros k' v' s' H. destruct (decide (k = k')) as [<-|N].
    + rewrite lookup_insert_eq in H. injection H as <- <-. split; [exact Hs|]. split; [apply Et; now left|]. intros k' v' X. apply Fr. now apply (proj2 GG) in X.
    + rewrite lookup_insert_ne in H by exact N. exact (R k' v' s' H).
Qed.

(** What comes from the peer. *)
Definition inc_ok (p : Peer) (key value : list Z) : Prop :=
  (exists s k, p_sent p s k value /\ key = BuildChannelKey k s) \/
  (key = kAckKey /\ exists s, value = to_string s /\ p_acked p s) \/
  (key = kFinKey /\ exists m, value = to_string m /\ p_count p m).

Lemma own_inc nd m : In m (tasks (ch nd)) -> own_ok nd m -> inc_ok (peer_of nd) (msg_key_ m) (value_ m).
Proof.
  intros T [(k & H & E)|[(s & _ & E & V & H)|(n & _ & E & V & H)]]; [left|right; left; split; [exact E|now exists s]|right; right; split; [exact E|now exists n]].
  exists (seq_id_ m), k. split; [split; [exact H|now apply in_map]|exact E].
Qed.

Lemma ack_ids_inv p nd s : peer_ok p -> node_inv p nd -> p_acked p s ->
  let nd' := set_ch (set_ack_ids (snd (Insert (received_ack_ids_ (ch nd)) s)) (ch nd)) nd in node_inv p nd' /\ grows nd nd'.
Proof.
  intros P I Hs nd'. destruct (Insert_new (received_ack_ids_ (ch nd)) s (proj1 (i_acks _ _ I)) (o_acked _ P s Hs)) as (b & t & E & Ht & Et & _).
  unfold nd'. rewrite E. cbn [snd]. split; [|apply grows_same; cbn; auto]. destruct I. split; try assumption; cbn.
  - split; [exact Ht|]. intros y Hy. apply Et in Hy as [->|Hy]; [exact Hs|now apply i_acks0].
  - unfold close_ok in *. cbn. destruct (close_pc (ch nd)); try exact i_close0. destruct i_close0 as (C1 & C2 & C3). repeat split; try assumption. intros y Hy. apply Et. right. now apply C3.
Qed.

Lemma fin_inv p nd m : node_inv p nd -> p_count p m -> received_fin_ (ch nd) = false ->
  let nd' := set_ch (set_peer_count m (set_fin true (ch nd))) nd in node_inv p nd' /\ grows nd nd'.
Proof.
  intros I Hm Fr nd'. split; [|apply grows_same; cbn; auto]. destruct I. split; try assumption; cbn; [intros _; exact Hm|].
  unfold close_ok in *. cbn. destruct (close_pc (ch nd)); try exact i_close0. split; [apply i_close0|reflexivity].
Qed.

Lemma OnMessage_inv p nd key value : peer_ok p -> node_inv p nd -> inc_ok p key value ->
  let nd' := set_ch (snd (OnMessage key value (ch nd))) nd in node_inv p nd' /\ grows nd nd'.
Proof.
  intros P I [(s & k & Hs & ->)|[(-> & s & -> & Hs)|(-> & m & -> & Hm)]]; unfold OnMessage.
  - destruct (o_sent _ P s k value Hs) as [Rs [Hk _]]. destruct (build_not_control k s Hk ltac:(lia)) as [NA NF].
    rewrite (decide_False (P := BuildChannelKey k s = kAckKey)) by exact NA. rewrite (decide_False (P := BuildChannelKey k s = kFinKey)) by exact NF.
    now apply OnNormalMessage_inv.
  - pose proof (o_acked _ P s Hs). rewrite (decide_True (P := kAckKey = kAckKey)) by reflexivity. rewrite ViewToSizeT_to_string by lia. now apply ack_ids_inv.
  - rewrite (decide_False (P := kFinKey = kAckKey)) by discriminate. rewrite (decide_True (P := kFinKey = kFinKey)) by reflexivity.
    destruct (received_fin_ (ch nd)) eqn:Fr; cbn [negb]; [split; [now destruct nd|apply grows_same; cbn; auto]|].
    rewrite ViewToSizeT_to_string by exact (o_count _ P m Hm). now apply fin_inv.
Qed.

Lemma OnNormalMessage_defined key v c : fst (OnNormalMessage key v c) <> Undefined.
Proof.
  unfold OnNormalMessage. destruct (SplitChannelKey key) as [[k s]|]; [|discriminate]. destruct (0 <? s); [destruct (Insert (received_msg_ids_ c) s) as [b t]|].
  - destruct b; [|discriminate]. cbn [negb]. destruct (waiting_finish_ _); [discriminate|]. cbn [negb]. destruct (recv_msgs_ _ !! k); discriminate.
  - cbn [negb]. destruct (waiting_finish_ _); [discriminate|]. cbn [negb]. destruct (recv_msgs_ _ !! k); discriminate.
Qed.

Lemma OnMessage_defined key v c : fst (OnMessage key v c) <> Undefined.
Proof.
  unfold OnMessage. destruct (decide _); [destruct (ViewToSizeT v); discriminate|]. destruct (decide _); [destruct (negb _); [destruct (ViewToSizeT v)|]; discriminate|]. apply OnNormalMessage_defined.
Qed.

(** *** The requests of a message *)

Hypothesis max_20 : 20 <= GetMaxBytesPerChunk.

Lemma to_string_bytes n : 0 <= n < 2 ^ 64 -> Forall byte (to_string n).
Proof. intros H. eapply Forall_impl; [apply dec_string_ok, H|]. intros c Hc. unfold is_digit in Hc. unfold byte. lia. Qed.

Lemma build_link_key k v s : user_message k v -> 0 <= s < 2 ^ 64 -> link_key (BuildChannelKey k s).
Proof.
  intros (Hk & Hl & _) Hs. split.
  - unfold BuildChannelKey. apply Forall_app. split; [apply Forall_app; split; [exact Hk|]|now apply to_string_bytes]. repeat (constructor; [unfold byte; lia|]). constructor.
  - unfold BuildChannelKey. rewrite !length_app. pose proof (length_to_string s ltac:(lia)). cbn [length kSeqKey]. lia.
Qed.

Lemma to_string_link n : 0 <= n < 2 ^ 64 -> link_value (to_string n).
Proof. intros H. split; [now apply to_string_bytes|]. pose proof (length_to_string n ltac:(lia)). lia. Qed.

Lemma kAckKey_link : link_key kAckKey.
Proof. split; [repeat (constructor; [unfold byte; lia|]); constructor|cbn; lia]. Qed.
Lemma kFinKey_link : link_key kFinKey.
Proof. split; [repeat (constructor; [unfold byte; lia|]); constructor|cbn; lia]. Qed.

(** A message in one request fits the link; one in chunks is a normal message. *)
Lemma inc_cases p key value : peer_ok p -> inc_ok p key value ->
  (GetMaxBytesPerChunk <? Z.of_nat (length value)) = false /\ link_key key /\ link_value value \/
  (GetMaxBytesPerChunk <? Z.of_nat (length value)) = true /\ link_key key /\ Forall byte value /\ fits value /\ exists s k, p_sent p s k value /\ key = BuildChannelKey k s.
Proof.
  intros P [(s & k & Hs & ->)|[(-> & s & -> & Hs)|(-> & m & -> & Hm)]].
  - destruct (o_sent _ P s k value Hs) as [Rs [Hk U]]. pose proof (build_link_key k value s U ltac:(lia)) as LK. pose proof U as (_ & _ & Fv & Ft).
    destruct (Z.ltb_spec GetMaxBytesPerChunk (Z.of_nat (length value))); [right|left]; repeat split; try assumption; try apply LK. now exists s, k.
  - left. pose proof (o_acked _ P s Hs). pose proof (to_string_link s ltac:(lia)) as LV. destruct (Z.ltb_spec GetMaxBytesPerChunk (Z.of_nat (length (to_string s)))); [destruct LV; lia|].
    split; [reflexivity|]. split; [apply kAckKey_link|exact LV].
  - left. pose proof (o_count _ P m Hm). pose proof (to_string_link m ltac:(lia)) as LV. destruct (Z.ltb_spec GetMaxBytesPerChunk (Z.of_nat (length (to_string m)))); [destruct LV; lia|].
    split; [reflexivity|]. split; [apply kFinKey_link|exact LV].
Qed.

Lemma chunk_of_list key value r : fits value -> In r (SendChunked key value) -> exists i, (i < chunk_count value)%nat /\ r = chunk_request key value i.
Proof. intros F. rewrite SendChunked_ok by exact F. rewrite in_map_iff. intros (i & <- & Hi). apply in_seq in Hi. exists i. split; [lia|reflexivity]. Qed.

Lemma mono_request p key value r : peer_ok p -> inc_ok p key value -> In r (SendImpl key value) -> IsMonoRequest r = Some true ->
  UnpackMonoRequest r = Some (key, value).
Proof.
  intros P Ik Hr M1. unfold SendImpl in Hr. destruct (inc_cases p key value P Ik) as [(E & LK & LV)|(E & LK & Fb & Ft & _)]; rewrite E in Hr.
  - destruct Hr as [<-|[]]. now apply mono_mono.
  - destruct (chunk_of_list key value r Ft Hr) as (i & Hi & ->). destruct (chunk_request_unpack key value i LK Fb Ft Hi) as (X & _). congruence.
Qed.

Lemma chunked_request p key value r : peer_ok p -> inc_ok p key value -> In r (SendImpl key value) -> IsMonoRequest r = Some false ->
  Forall byte value /\ fits value /\ link_key key /\ exists i s k, (i < chunk_count value)%nat /\ r = chunk_request key value i /\ p_sent p s k value /\ key = BuildChannelKey k s.
Proof.
  intros P Ik Hr M1. unfold SendImpl in Hr. destruct (inc_cases p key value P Ik) as [(E & LK & LV)|(E & LK & Fb & Ft & s & k & Hs & Ek)]; rewrite E in Hr.
  - destruct Hr as [<-|[]]. pose proof (mono_mono key value LK LV) as [X _]. congruence.
  - destruct (chunk_of_list key value r Ft Hr) as (i & Hi & ->). repeat split; try assumption; try apply LK. now exists i, s, k.
Qed.

(** *** Chunks *)

Definition set_ready (r : list (list Z * list Z)) (nd : Node) : Node := MkNode (ch nd) (sent nd) (got nd) r (ended nd).

Lemma set_ready_inv p nd r : node_inv p nd -> (forall key v, In (key, v) r -> In (key, v) (ready nd) \/ exists s k, p_sent p s k v /\ key = BuildChannelKey k s) ->
  node_inv p (set_ready r nd) /\ grows nd (set_ready r nd).
Proof.
  intros I H. split; [|apply grows_same; cbn; auto]. destruct I. split; try assumption. cbn. intros key v Hr. destruct (H key v Hr) as [X|X]; [now apply i_ready0|exact X].
Qed.

Lemma chunked_inv p nd chunks : node_inv p nd -> (forall key m, chunks !! key = Some m -> exists s k v, p_sent p s k v /\ key = BuildChannelKey k s /\ chunk_inv v m) ->
  node_inv p (set_ch (set_chunked chunks (ch nd)) nd) /\ grows nd (set_ch (set_chunked chunks (ch nd)) nd).
Proof. intros I H. split; [|apply grows_same; cbn; auto]. destruct I. split; assumption. Qed.

Lemma grows_trans a b c : grows a b -> grows b c -> grows a c.
Proof.
  intros [A1 A2 A3 A4 A5 A6] [B1 B2 B3 B4 B5 B6]. split; auto. intros W. rewrite (B5 (A4 W)). now apply A5.
Qed.

(** The chunks in the state are of the message of their key. *)
Lemma partial_of p nd s k v : peer_ok p -> node_inv p nd -> p_sent p s k v -> partial v (chunked_values_ (ch nd) !! BuildChannelKey k s).
Proof.
  intros P I Hs. destruct (chunked_values_ (ch nd) !! BuildChannelKey k s) as [m|] eqn:E; [|exact Logic.I]. destruct (i_chunks _ _ I _ m E) as (s' & k' & v' & Hs' & Ek & C).
  destruct (o_sent _ P s k v Hs) as [R [K _]]. destruct (o_sent _ P s' k' v' Hs') as [R' [K' _]].
  destruct (build_inj k s k' s' K K' ltac:(lia) ltac:(lia) Ek) as [<- <-]. destruct (o_fun _ P _ _ _ _ _ Hs Hs') as [_ <-]. exact C.
Qed.

(** A chunk is stored, or completes the message; nothing else can happen. *)
Lemma add_chunk_cases p nd s k v i : peer_ok p -> node_inv p nd -> p_sent p s k v -> (i < chunk_count v)%nat -> fits v ->
  let key := BuildChannelKey k s in
  exists m', chunk_inv v m' /\
  (add_chunk key (chunk_of v i) (Z.of_nat (i * Z.to_nat GetMaxBytesPerChunk)%nat) (Z.of_nat (length v)) (ch nd) = (Ret (Some m'), set_chunked (delete key (chunked_values_ (ch nd))) (ch nd)) /\ Reassemble m' = Some v \/
   add_chunk key (chunk_of v i) (Z.of_nat (i * Z.to_nat GetMaxBytesPerChunk)%nat) (Z.of_nat (length v)) (ch nd) = (Ret None, set_chunked (<[key := m']> (chunked_values_ (ch nd))) (ch nd))).
Proof.
  intros P I Hs Hi F key. destruct (add_chunk_ok key v i (ch nd) F Hi (partial_of p nd s k v P I Hs)) as (m' & I' & _ & A). exists m'. split; [exact I'|].
  destruct (IsFullyFilled m') eqn:Full; [left|right; exact A]. split; [exact A|]. apply (Reassemble_ok v m' I'), (full_complete v m' F I'), Full.
Qed.

Lemma step_chunk_inv p nd s k v i o c : peer_ok p -> node_inv p nd -> p_sent p s k v -> (i < chunk_count v)%nat -> fits v ->
  let key := BuildChannelKey k s in
  add_chunk key (chunk_of v i) (Z.of_nat (i * Z.to_nat GetMaxBytesPerChunk)%nat) (Z.of_nat (length v)) (ch nd) = (o, c) ->
  let nd' := MkNode c (sent nd) (got nd) (match o with Ret (Some data) => match Reassemble data with Some w => (key, w) :: ready nd | None => ready nd end | _ => ready nd end) (ended nd) in
  node_inv p nd' /\ grows nd nd'.
Proof.
  intros P I Hs Hi F key E nd'. destruct (add_chunk_cases p nd s k v i P I Hs Hi F) as (m' & I' & [[A R]|A]); fold key in A; rewrite E in A; injection A as -> ->; unfold nd'; clear nd'.
  - rewrite R. destruct (chunked_inv p nd (delete key (chunked_values_ (ch nd))) I) as [I1 G1].
    { intros key' m H. apply lookup_delete_Some in H as [_ H]. exact (i_chunks _ _ I key' m H). }
    destruct (set_ready_inv p _ ((key, v) :: ready nd) I1) as [I2 G2].
    { intros key' w [X|X]; [injection X as <- <-; right; now exists s, k|now left]. }
    split; [exact I2|exact (grows_trans _ _ _ G1 G2)].
  - apply (chunked_inv p nd (<[key := m']> (chunked_values_ (ch nd))) I). intros key' m H. destruct (decide (key = key')) as [<-|N].
    + rewrite lookup_insert_eq in H. injection H as <-. now exists s, k, v.
    + rewrite lookup_insert_ne in H by exact N. exact (i_chunks _ _ I key' m H).
Qed.

(** *** [Recv] *)

Lemma step_recv_inv p nd k t v seq v' c : peer_ok p -> node_inv p nd -> recv_msgs_ (ch nd) !! k = Some (v', seq) -> RecvPoll k t (ch nd) = (Ret v, c) ->
  let nd' := MkNode c (sent nd) ((seq, k, v) :: got nd) (ready nd) (ended nd) in node_inv p nd' /\ grows nd nd'.
Proof.
  intros P I E R nd'. unfold RecvPoll in R. rewrite E in R. injection R as <- <-. destruct (i_recv _ _ I k v' seq E) as (Hs & He & Hn).
  set (c1 := set_recv (delete k (recv_msgs_ (ch nd))) (ch nd)) in *. set (nd1 := MkNode c1 (sent nd) ((seq, k, v') :: got nd) (ready nd) (ended nd)).
  assert (G1 : grows nd nd1) by (apply grows_same; cbn; auto).
  assert (I1 : node_inv p nd1).
  { destruct I. split; try assumption; cbn.
    - intros m Hm. apply (own_ok_grows nd); [exact G1|]. now apply i_own0.
    - intros k' w s H. apply lookup_delete_Some in H as [N H]. destruct (i_recv0 k' w s H) as (H1 & H2 & H3). repeat split; try assumption.
      intros k2 v2 [X|X]; [|exact (H3 k2 v2 X)]. injection X as -> <- <-. destruct (o_fun _ P _ _ _ _ _ Hs H1). congruence.
    - split; [constructor; [|apply i_got0]|].
      + rewrite list_elem_of_In, in_map_iff. intros ([[s k'] w] & X & Y). cbn in X. subst s. exact (Hn k' w Y).
      + intros s k' w [X|X]; [injection X as <- <- <-; now split|now apply i_got0]. }
  change nd' with (set_ch (SendAck seq (ch nd1)) nd1). split; [apply ack_inv; [exact I1|]|exact (grows_trans _ _ _ G1 (ack_grows nd1 seq))].
  split; [exact He|]. left. exists k, v'. now left.
Qed.

(** *** Closing *)

Definition ack_all (l : list (list Z * (list Z * Z))) (c : Channel) : Channel := fold_left (fun c msg => SendAck (snd (snd msg)) c) l c.

Lemma ack_all_inv p l : forall nd, node_inv p nd -> (forall x, In x l -> node_acked nd (snd (snd x))) ->
  node_inv p (set_ch (ack_all l (ch nd)) nd) /\ grows nd (set_ch (ack_all l (ch nd)) nd).
Proof.
  induction l as [|x l IH]; intros nd I H.
  - split; [now destruct nd|apply grows_same; cbn; auto].
  - pose proof (ack_inv p nd (snd (snd x)) I (H x (or_introl eq_refl))) as I1. pose proof (ack_grows nd (snd (snd x))) as G1.
    destruct (IH _ I1) as [I2 G2]; [intros y Hy; apply (grows_acked _ _ _ G1), H; now right|]. split; [exact I2|exact (grows_trans _ _ _ G1 G2)].
Qed.

Lemma waiting_inv p nd : node_inv p nd -> close_pc (ch nd) = CloseNot ->
  let nd' := set_ch (set_waiting_finish true (ch nd)) nd in node_inv p nd' /\ grows nd nd'.
Proof.
  intros I C nd'. assert (G : grows nd nd') by (apply grows_same; cbn; auto). split; [|exact G]. destruct I. split; try assumption; cbn.
  - intros m Hm. apply (own_ok_grows nd); [exact G|]. now apply i_own0.
  - unfold close_ok. cbn. now rewrite C.
Qed.

Lemma clear_inv p nd : node_inv p nd -> let nd' := set_ch (set_recv ∅ (ch nd)) nd in node_inv p nd' /\ grows nd nd'.
Proof. intros I nd'. split; [|apply grows_same; cbn; auto]. destruct I. split; try assumption; cbn. intros k v s H. now rewrite lookup_empty in H. Qed.

Lemma stop_inv p nd : node_inv p nd -> close_pc (ch nd) = CloseNot ->
  let nd' := set_ch (StopReceivingAndAckUnreadMsgs (ch nd)) nd in node_inv p nd' /\ grows nd nd' /\ waiting_finish_ (ch nd') = true /\ close_pc (ch nd') = CloseNot /\ msg_seq_id_ (ch nd') = msg_seq_id_ (ch nd).
Proof.
  intros I C nd'. destruct (waiting_inv p nd I C) as [I1 G1]. set (nd1 := set_ch (set_waiting_finish true (ch nd)) nd) in *.
  destruct (ack_all_inv p (map_to_list (recv_msgs_ (ch nd))) nd1 I1) as [I2 G2].
  { intros [k [v s]] H. apply list_elem_of_In, elem_of_map_to_list in H. destruct (i_recv _ _ I k v s H) as (_ & He & _). split; [exact He|now right]. }
  destruct (clear_inv p _ I2) as [I3 G3]. change nd' with (set_ch (set_recv ∅ (ack_all (map_to_list (recv_msgs_ (ch nd))) (ch nd1))) nd).
  split; [exact I3|]. split; [exact (grows_trans _ _ _ G1 (grows_trans _ _ _ G2 G3))|].
  assert (S : forall l c, close_pc (ack_all l c) = close_pc c /\ msg_seq_id_ (ack_all l c) = msg_seq_id_ c).
  { clear. induction l as [|x l IH]; intros c; [now split|]. cbn [ack_all fold_left]. destruct (IH (SendAck (snd (snd x)) c)) as [E1 E2]. unfold ack_all in *. rewrite E1, E2. unfold SendAck. now destruct (0 <? _). }
  split; [apply (g_waiting _ _ G3), (g_waiting _ _ G2); reflexivity|]. destruct (S (map_to_list (recv_msgs_ (ch nd))) (ch nd1)) as [E1 E2]. split; [exact (eq_trans E1 C)|exact E2].
Qed.

(** A step that only moves on the waiting of the close. *)
Lemma set_close_inv p nd pc : node_inv p nd -> close_ok p (set_close pc (ch nd)) ->
  let nd' := set_ch (set_close pc (ch nd)) nd in node_inv p nd' /\ grows nd nd'.
Proof. intros I C nd'. split; [|apply grows_same; cbn; auto]. destruct I. split; assumption. Qed.

Lemma set_stopped_inv p nd b : node_inv p nd -> let nd' := set_ch (set_stopped b (ch nd)) nd in node_inv p nd' /\ grows nd nd'.
Proof. intros I nd'. split; [|apply grows_same; cbn; auto]. destruct I. split; assumption. Qed.

(** The numbers from 1 on, without a gap. *)
Lemma has_all_elem t n : tree_ok t -> (forall x, elem x t -> 1 <= x) -> 1 <= n -> has_all t n = true -> forall s, 1 <= s <= n -> elem s t.
Proof.
  intros Ht H1 Hn H. unfold has_all in H. rewrite negb_true_iff, !orb_false_iff, !negb_false_iff, Nat.ltb_ge in H.
  destruct H as [[A B] C]. destruct (proj1 (one_segment t n Ht Hn H1)) as (m & Hm & E); [now repeat split|]. intros s Hs. apply E. lia.
Qed.

Lemma same_inv p nd : node_inv p nd -> node_inv p (set_ch (ch nd) nd) /\ grows nd (set_ch (ch nd) nd).
Proof. intros I. split; [now destruct nd|apply grows_same; cbn; auto]. Qed.

Lemma step_close_inv p nd : peer_ok p -> node_inv p nd ->
  let nd' := set_ch (snd (WaitLinkTaskFinish_step (ch nd))) nd in node_inv p nd' /\ grows nd nd'.
Proof.
  intros P I. unfold WaitLinkTaskFinish_step. pose proof (i_close _ _ I) as C. pose proof (proj1 (same_inv p nd I)) as SI. unfold close_ok in C.
  destruct (close_pc (ch nd)) eqn:E.
  - destruct (aborting_ (ch nd)); cbn [snd]; [now apply same_inv|]. destruct (stop_inv p nd I E) as (I1 & G1 & W1 & E1 & S1).
    set (nd1 := set_ch (StopReceivingAndAckUnreadMsgs (ch nd)) nd) in *. set (m := MkMessage 0 kFinKey (to_string (msg_seq_id_ (ch nd1)))).
    assert (O : own_ok nd1 m) by (right; right; exists (msg_seq_id_ (ch nd1)); repeat split; exact W1).
    destruct (set_close_inv p _ CloseFin (submit_inv p nd1 m I1 O)) as [I2 G2]; [exact W1|]. split; [exact I2|exact (grows_trans _ _ _ G1 (grows_trans _ _ _ (submit_grows nd1 m) G2))].
  - destruct (received_fin_ (ch nd)) eqn:F; cbn [snd]; [|now apply same_inv]. apply set_close_inv; [exact I|]. now split.
  - destruct C as [W F]. destruct ((peer_sent_msg_count_ (ch nd) =? 0) || has_all (received_msg_ids_ (ch nd)) (peer_sent_msg_count_ (ch nd))) eqn:B; cbn [snd]; [|now apply same_inv].
    destruct (set_stopped_inv p nd true I) as [I1 G1]. destruct (set_close_inv p _ CloseJoin I1) as [I2 G2]; [|split; [exact I2|exact (grows_trans _ _ _ G1 G2)]].
    split; [exact W|]. exists (peer_sent_msg_count_ (ch nd)). split; [now apply (i_fin _ _ I)|]. intros s Hs. apply orb_true_iff in B as [B|B]; [apply Z.eqb_eq in B; lia|].
    apply (has_all_elem _ (peer_sent_msg_count_ (ch nd)) (proj1 (i_ids _ _ I))); try assumption; [|lia].
    intros x Hx. destruct (proj2 (i_ids _ _ I) x Hx) as (k & v & Hp). now apply (o_sent _ P) in Hp.
  - destruct (send_pc (ch nd)); cbn [snd]; try (now apply same_inv). apply set_close_inv; [exact I|exact C].
  - destruct (WaitAllSendFinished (ch nd)); cbn [snd]; try (now apply same_inv). apply set_close_inv; [exact I|]. destruct C as [C1 C2]. now repeat split.
  - destruct C as (W & A & ->). destruct ((msg_seq_id_ (ch nd) =? 0) || has_all (received_ack_ids_ (ch nd)) (msg_seq_id_ (ch nd))) eqn:B; cbn [snd]; [|now apply same_inv].
    apply set_close_inv; [exact I|]. split; [exact W|]. split; [exact A|]. cbn. intros s Hs. apply orb_true_iff in B as [B|B]; [apply Z.eqb_eq in B; lia|].
    apply (has_all_elem _ (msg_seq_id_ (ch nd)) (proj1 (i_acks _ _ I))); try assumption; [|lia]. intros x Hx. apply (o_acked _ P), (proj2 (i_acks _ _ I) x Hx).
  - now apply same_inv.
Qed.

(** ** Every reachable pair *)

Definition peer_msgs_ok (p : Peer) (peer : list Message) : Prop := forall m, In m peer -> inc_ok p (msg_key_ m) (value_ m).

Lemma node_step_inv p peer nd nd' : peer_ok p -> peer_msgs_ok p peer -> node_inv p nd -> node_step peer nd nd' -> node_inv p nd' /\ grows nd nd'.
Proof.
  intros P PM I S. destruct S.
  - eapply step_send_inv; eassumption.
  - now apply SendThread_inv.
  - unfold OnRequest. destruct (aborting_ (ch nd)); [now apply same_inv|]. rewrite H1, (mono_request p (msg_key_ m) (value_ m) r P (PM m H) H0 H1). apply OnMessage_inv; auto.
  - destruct (chunked_request p (msg_key_ m) (value_ m) r P (PM m H) H0 H1) as (Fb & Ft & LK & i & s & k & Hi & -> & Hs & Ek).
    destruct (chunk_request_unpack (msg_key_ m) (value_ m) i LK Fb Ft Hi) as (_ & _ & U). rewrite U in H3. injection H3 as <- <- <- <-. rewrite Ek in *.
    exact (step_chunk_inv p nd s k (value_ m) i o c P I Hs Hi Ft H4).
  - destruct (i_ready _ _ I key v) as (s & k & Hs & Ek); [rewrite H; apply in_app_iff; right; now left|].
    destruct (set_ready_inv p nd (l ++ l') I) as [I1 G1].
    { intros key' w X. left. rewrite H. apply in_app_iff in X as [X|X]; apply in_app_iff; [now left|right; now right]. }
    destruct (OnMessage_inv p _ key v P I1) as [I2 G2]; [left; now exists s, k|]. split; [exact I2|exact (grows_trans _ _ _ G1 G2)].
  - eapply step_recv_inv; eassumption.
  - apply requeue_inv; auto.
  - now apply step_close_inv.
  - unfold set_ch. apply requeue_inv; auto.
  - unfold set_ch. apply requeue_inv; auto.
Qed.

Definition net_inv (n : Net) : Prop := forall b, node_inv (peer_of (side n (negb b))) (side n b).

Lemma net_peer_ok n b : net_inv n -> peer_ok (peer_of (side n b)).
Proof.
  intros I. pose proof (I b) as Ib. pose proof (I (negb b)) as Ip. rewrite negb_involutive in Ip. pose proof (i_seq _ _ Ib) as [E B].
  assert (R : forall s k v, node_sent (side n b) s k v -> 1 <= s < 2 ^ 64 - 1) by (intros s k v H; pose proof (node_sent_range _ _ _ _ _ Ib H); lia).
  split; cbn.
  - intros s k v [H _]. split; [exact (R s k v H)|exact (i_sent _ _ Ib s k v H)].
  - intros s k v k' v' [H _] [H' _]. exact (node_sent_fun _ _ _ _ _ _ H H').
  - intros s [H _]. destruct (proj2 (i_ids _ _ Ib) s H) as (k & v & [Hs _]). pose proof (node_sent_range _ _ _ _ _ Ip Hs). pose proof (i_seq _ _ Ip). lia.
  - intros m [_ ->]. lia.
Qed.

Lemma net_peer_msgs n b : net_inv n -> peer_msgs_ok (peer_of (side n b)) (tasks (ch (side n b))).
Proof. intros I m Hm. apply (own_inc _ _ Hm), (i_own _ _ (I b)), in_app_iff. now right. Qed.

Lemma init_inv p w : node_inv p (Node_new w).
Proof.
  split; cbn.
  - lia.
  - reflexivity.
  - intros s k v [_ H]. cbn in H. now destruct (Z.to_nat (s - 1)).
  - intros m [].
  - split; [apply tree_ok_empty|]. intros s Hs. now apply member_nil in Hs.
  - split; [apply tree_ok_empty|]. intros s Hs. now apply member_nil in Hs.
  - intros k v s H. now rewrite lookup_empty in H.
  - split; [constructor|intros s k v []].
  - intros key m H. now rewrite lookup_empty in H.
  - intros key v [].
  - discriminate.
  - exact Logic.I.
Qed.

Lemma reach_inv n : reach n -> net_inv n.
Proof.
  induction 1 as [w w'|n n' R I S]; [intros [|]; apply init_inv|]. destruct S as [n b nd S].
  destruct (node_step_inv (peer_of (side n (negb b))) (tasks (ch (side n (negb b)))) (side n b) nd (net_peer_ok n (negb b) I) (net_peer_msgs n (negb b) I) (I b) S) as [I' G].
  intros b'. destruct b, b'.
  - exact I'.
  - apply (node_inv_le (peer_of (side n true))); [now apply grows_peer|exact (I false)].
  - apply (node_inv_le (peer_of (side n false))); [now apply grows_peer|exact (I true)].
  - exact I'.
Qed.

(** ** The order of the send thread *)

(** A step that leaves the queue and the thread alone; its new tasks are acks or a count. *)
Record quiet (c c' : Channel) : Prop := MkQuiet {
  q_queue : queue_ c' = queue_ c; q_pc : send_pc c' = send_pc c; q_seq : msg_seq_id_ c' = msg_seq_id_ c;
  q_tasks : forall m, In m (tasks c') -> In m (tasks c) \/ seq_id_ m = 0 }.

Lemma quiet_same c c' : queue_ c' = queue_ c -> send_pc c' = send_pc c -> msg_seq_id_ c' = msg_seq_id_ c -> tasks c' = tasks c -> quiet c c'.
Proof. intros E1 E2 E3 E4. split; auto. rewrite E4. auto. Qed.

Lemma quiet_refl c : quiet c c.
Proof. now apply quiet_same. Qed.

Lemma quiet_trans a b c : quiet a b -> quiet b c -> quiet a c.
Proof. intros [A1 A2 A3 A4] [B1 B2 B3 B4]. split; try congruence. intros m Hm. destruct (B4 m Hm) as [H|H]; [now apply A4|now right]. Qed.

Lemma submit_quiet m c : seq_id_ m = 0 -> quiet c (SubmitSendTask m c).
Proof. intros E. split; try reflexivity. intros m' Hm. apply in_app_iff in Hm as [Hm|[<-|[]]]; [now left|now right]. Qed.

Lemma ack_quiet s c : quiet c (SendAck s c).
Proof. unfold SendAck. destruct (0 <? s); [now apply submit_quiet|apply quiet_refl]. Qed.

Lemma OnNormalMessage_quiet key v c : quiet c (snd (OnNormalMessage key v c)).
Proof.
  unfold OnNormalMessage. destruct (SplitChannelKey key) as [[k s]|]; [|apply quiet_refl].
  set (x := if 0 <? s then _ else _). assert (Q : quiet c (snd x)) by (unfold x; destruct (0 <? s); [destruct (Insert _ _)|]; now apply quiet_same).
  destruct x as [fresh c1]. cbn [snd] in Q. destruct fresh; cbn [negb]; [|exact Q]. destruct (waiting_finish_ c1); cbn [negb].
  - exact (quiet_trans _ _ _ Q (ack_quiet s c1)).
  - destruct (recv_msgs_ c1 !! k); [destruct (0 <? s); exact Q|]. apply (quiet_trans _ _ _ Q). now apply quiet_same.
Qed.

Lemma OnMessage_quiet key v c : quiet c (snd (OnMessage key v c)).
Proof.
  unfold OnMessage. destruct (decide _); [destruct (ViewToSizeT v); now apply quiet_same|]. destruct (decide _); [|apply OnNormalMessage_quiet].
  destruct (negb _); [destruct (ViewToSizeT v)|]; now apply quiet_same.
Qed.

Lemma add_chunk_quiet key v o n c : quiet c (snd (add_chunk key v o n c)).
Proof.
  unfold add_chunk. destruct (_ <? _); [apply quiet_refl|]. destruct (match chunked_values_ c !! key with Some _ => _ | None => _ end); [|apply quiet_refl].
  destruct (AddChunk _ _ _); [|apply quiet_refl]. destruct (IsFullyFilled _); now apply quiet_same.
Qed.

Lemma OnRequest_quiet r c : quiet c (snd (OnRequest r c)).
Proof.
  unfold OnRequest. destruct (aborting_ c); [apply quiet_refl|]. destruct (IsMonoRequest r) as [[|]|]; [| |apply quiet_refl].
  - destruct (UnpackMonoRequest r) as [[k v]|]; [apply OnMessage_quiet|apply quiet_refl].
  - destruct (IsChunkedRequest r) as [[|]|]; try apply quiet_refl. destruct (UnpackChunckRequest r) as [[[[k v] o] n]|]; [|apply quiet_refl].
    unfold OnChunkedMessage. pose proof (add_chunk_quiet k v o n c) as Q. destruct (add_chunk k v o n c) as [[[d|]|e| |] c1]; cbn [snd] in Q; try exact Q.
    destruct (Reassemble d); [|exact Q]. exact (quiet_trans _ _ _ Q (OnMessage_quiet k _ c1)).
Qed.

Lemma ack_all_quiet l : forall c, quiet c (ack_all l c).
Proof.
  induction l as [|x l IH]; intros c; [apply quiet_refl|]. exact (quiet_trans _ _ _ (ack_quiet (snd (snd x)) c) (IH _)).
Qed.

Lemma close_quiet c : quiet c (snd (WaitLinkTaskFinish_step c)).
Proof.
  unfold WaitLinkTaskFinish_step. destruct (close_pc c).
  - destruct (aborting_ c); cbn [snd]; [apply quiet_refl|]. assert (Q : quiet c (StopReceivingAndAckUnreadMsgs c)).
    { apply (quiet_trans _ (ack_all (map_to_list (recv_msgs_ c)) (set_waiting_finish true c))); [|now apply quiet_same].
      eapply quiet_trans; [|apply ack_all_quiet]. now apply quiet_same. }
    apply (quiet_trans _ _ _ Q). set (c1 := StopReceivingAndAckUnreadMsgs c). apply (quiet_trans _ _ _ (submit_quiet (MkMessage 0 kFinKey (to_string (msg_seq_id_ c1))) c1 eq_refl)). now apply quiet_same.
  - destruct (received_fin_ c); now apply quiet_same.
  - destruct (_ || _); now apply quiet_same.
  - destruct (send_pc c) eqn:E; try now apply quiet_same.
  - destruct (WaitAllSendFinished c); now apply quiet_same.
  - destruct (_ || _); now apply quiet_same.
  - apply quiet_refl.
Qed.

(** The messages go from the queue to the tasks in the order of their numbers, and the
    thread waits for the last it has submitted. *)
Definition in_order (c : Channel) : Prop :=
  let d := msg_seq_id_ c - Z.of_nat (length (queue_ c)) in
  0 <= d /\ (forall i m, nth_error (queue_ c) i = Some m -> seq_id_ m = d + 1 + Z.of_nat i) /\ (forall m, In m (tasks c) -> seq_id_ m <= d) /\
  (forall s, send_pc c = SendThrottled s -> s = d).

Lemma in_order_quiet c c' : quiet c c' -> in_order c -> in_order c'.
Proof.
  intros [Q1 Q2 Q3 Q4] (H1 & H2 & H3 & H4). unfold in_order. rewrite Q1, Q2, Q3. split; [exact H1|]. split; [exact H2|]. split; [|exact H4].
  intros m Hm. destruct (Q4 m Hm) as [H|E]; [now apply H3|lia].
Qed.

Lemma in_order_pc p c : (forall s, p <> SendThrottled s) -> in_order c -> in_order (set_send_pc p c).
Proof. intros N (H1 & H2 & H3 & H4). split; [exact H1|]. split; [exact H2|]. split; [exact H3|]. intros s E. now destruct (N s). Qed.

(** The head of the queue goes to a task. *)
Lemma in_order_pop m q p c : queue_ c = m :: q -> (forall s, p = SendThrottled s -> s = seq_id_ m) -> in_order c ->
  in_order (set_send_pc p (SubmitSendTask m (set_queue q c))).
Proof.
  intros E N (H1 & H2 & H3 & H4). rewrite E in *. cbn [length] in *. pose proof (H2 0%nat m eq_refl) as Hm. unfold in_order. cbn.
  split; [lia|]. split; [|split].
  - intros i m' Hi. rewrite (H2 (S i) m' Hi). lia.
  - intros m' Hm'. apply in_app_iff in Hm' as [Hm'|[<-|[]]]; [specialize (H3 m' Hm'); lia|lia].
  - intros s Es. rewrite (N s Es). lia.
Qed.

Lemma SendThread_order t c : in_order c -> in_order (SendThread_step t c).
Proof.
  intros O. unfold SendThread_step, Pop. destruct (send_pc c) eqn:Pc.
  - destruct (send_thread_stopped_ c); [destruct (aborting_ c); now apply in_order_pc|]. destruct (queue_ c) as [|m q] eqn:E; [exact O|].
    apply (in_order_pop m q); [exact E|intros s [= <-]; reflexivity|exact O].
  - destruct (ThrottleWindowWait seq_id t c); try exact O; now apply in_order_pc.
  - destruct (queue_ c) as [|m q] eqn:E; [now apply in_order_pc|].
    apply (in_order_quiet (set_send_pc SendDrain (SubmitSendTask m (set_queue q c)))); [now apply quiet_same|]. apply (in_order_pop m q); [exact E|discriminate|exact O].
  - exact O.
Qed.

Lemma push_order k v c : msg_seq_id_ c + 2 < 2 ^ 64 -> in_order c -> in_order (snd (push_message k v c)).
Proof.
  intros B (H1 & H2 & H3 & H4). unfold push_message. rewrite u64_small by lia. unfold in_order. cbn. rewrite length_app. cbn [length].
  replace (msg_seq_id_ c + 1 - Z.of_nat (length (queue_ c) + 1)) with (msg_seq_id_ c - Z.of_nat (length (queue_ c))) by lia.
  split; [exact H1|]. split; [|split; [exact H3|exact H4]]. intros i m Hi. destruct (Nat.lt_ge_cases i (length (queue_ c))) as [L0|L0].
  - rewrite nth_error_app1 in Hi by exact L0. now apply H2.
  - rewrite nth_error_app2 in Hi by exact L0. destruct (i - length (queue_ c))%nat as [|j] eqn:Ej; [|destruct j; discriminate Hi]. injection Hi as <-. cbn. lia.
Qed.

Lemma step_order p peer nd nd' : node_inv p nd -> node_step peer nd nd' -> in_order (ch nd) -> in_order (ch nd').
Proof.
  intros I S O. destruct S; cbn [ch set_ch].
  - destruct (send_api_ok api k v (ch nd) seq c H (i_enabled _ _ I) H2) as (_ & _ & E). rewrite (f_equal snd E : c = _). now apply push_order.
  - now apply SendThread_order.
  - exact (in_order_quiet _ _ (OnRequest_quiet r (ch nd)) O).
  - pose proof (add_chunk_quiet key value offset total (ch nd)) as Q. rewrite H4 in Q. exact (in_order_quiet _ _ Q O).
  - exact (in_order_quiet _ _ (OnMessage_quiet key v (ch nd)) O).
  - unfold RecvPoll in H0. rewrite H in H0. injection H0 as _ <-. eapply in_order_quiet; [|exact O]. eapply quiet_trans; [|apply ack_quiet]. now apply quiet_same.
  - eapply in_order_quiet; [|exact O]. now apply quiet_same.
  - exact (in_order_quiet _ _ (close_quiet (ch nd)) O).
  - eapply in_order_quiet; [|exact O]. now apply quiet_same.
  - eapply in_order_quiet; [|exact O]. now apply quiet_same.
Qed.

Lemma reach_order n : reach n -> forall b, in_order (ch (side n b)).
Proof.
  induction 1 as [w w'|n n' R IH S].
  - assert (Z0 : forall u, in_order (Channel_new u false)).
    { intros u. split; [cbn; lia|]. split; [intros [|] m; discriminate|]. split; [intros m []|discriminate]. }
    intros [|]; apply Z0.
  - destruct S as [n b nd S]. intros b'. destruct b, b'.
    + exact (step_order _ _ _ _ (reach_inv n R true) S (IH true)).
    + exact (IH false).
    + exact (IH true).
    + exact (step_order _ _ _ _ (reach_inv n R false) S (IH false)).
Qed.

(** When the thread waits for a message, its peer has got none of a later number. *)
Lemma got_submitted n b s x : reach n -> send_pc (ch (side n b)) = SendThrottled s -> In x (got (side n (negb b))) -> fst (fst x) <= s.
Proof.
  intros R E Hx. destruct x as [[s' k] v]. destruct (proj2 (i_got _ _ (reach_inv n R (negb b))) s' k v Hx) as [[_ T] _]. rewrite negb_involutive in T.
  destruct (reach_order n R b) as (_ & _ & Ht & Hs). rewrite (Hs s E). apply in_map_iff in T as (m & <- & Hm). now apply Ht.
Qed.

(** *** What is not yet received *)

(** The numbers from 1 to [s] that [Recv] of the node has not returned, and the messages
    past [s] that it has. *)
Definition has_got (nd : Node) (i : Z) : bool := existsb (fun x => fst (fst x) =? i) (got nd).
Definition unread (nd : Node) (s : Z) : nat := length (List.filter (fun i => negb (has_got nd i)) (map (fun i => Z.of_nat i + 1) (seq 0 (Z.to_nat s)))).
Definition got_past (nd : Node) (s : Z) : nat := length (List.filter (fun x => s <? fst (fst x)) (got nd)).

Lemma unread_le p nd s : peer_ok p -> node_inv p nd -> 0 <= s -> Z.of_nat (unread nd s) + Z.of_nat (length (got nd)) <= s + Z.of_nat (got_past nd s).
Proof.
  intros P I Hs. unfold unread, got_past. set (l := map (fun i => Z.of_nat i + 1) (seq 0 (Z.to_nat s))).
  assert (Ll : length l = Z.to_nat s) by (unfold l; now rewrite length_map, length_seq).
  pose proof (List.filter_length (has_got nd) l) as F1. pose proof (List.filter_length (fun x => s <? fst (fst x)) (got nd)) as F2.
  set (below := List.filter (fun x => negb (s <? fst (fst x))) (got nd)) in *.
  assert (N : (length below <= length (List.filter (has_got nd) l))%nat).
  { rewrite <- (length_map (fun x => fst (fst x)) below). apply List.NoDup_incl_length.
    - destruct (i_got _ _ I) as [D _]. unfold below. clear - D. induction (got nd) as [|x g IH]; cbn; [constructor|]. inversion D as [|? ? D1 D2]; subst.
      destruct (negb _); cbn; [|now apply IH]. constructor; [|now apply IH]. intros X. apply D1. apply in_map_iff in X as (y & <- & Y). apply List.filter_In in Y as [Y _].
      rewrite list_elem_of_In. apply in_map_iff. now exists y.
    - intros i Hi. apply in_map_iff in Hi as ([[i' k] v] & <- & Hx). cbn. apply List.filter_In in Hx as [Hx B]. apply negb_true_iff, Z.ltb_ge in B. cbn in B.
      destruct (proj2 (i_got _ _ I) i' k v Hx) as [Hp _]. destruct (o_sent _ P i' k v Hp) as [Rg _]. apply List.filter_In. split.
      + unfold l. apply in_map_iff. exists (Z.to_nat (i' - 1)). split; [lia|apply in_seq; lia].
      + unfold has_got. apply existsb_exists. exists (i', k, v). split; [exact Hx|apply Z.eqb_refl]. }
  lia.
Qed.

(** What the invariant says of the acks of a node: of messages it sent, which the
    peer's [Recv] has returned unless the peer is closing. *)
Lemma acks_seq n b : net_inv n -> Count (received_ack_ids_ (ch (side n b))) <= msg_seq_id_ (ch (side n b)).
Proof.
  intros I. pose proof (I b) as Ib. pose proof (I (negb b)) as Ip. rewrite negb_involutive in Ip.
  pose proof (Count_le _ (map (fun i => Z.of_nat i + 1) (seq 0 (length (sent (side n b))))) (proj1 (i_acks _ _ Ib))) as C. rewrite length_map, length_seq in C.
  rewrite (proj1 (i_seq _ _ Ib)). apply C. intros x Hx. destruct (proj2 (i_acks _ _ Ib) x Hx) as [He _]. destruct (proj2 (i_ids _ _ Ip) x He) as (k & v & [Hs _]).
  pose proof (node_sent_range _ _ _ _ _ Ib Hs) as Rg. rewrite (proj1 (i_seq _ _ Ib)) in Rg. apply in_map_iff. exists (Z.to_nat (x - 1)). split; [lia|apply in_seq; lia].
Qed.

Lemma acks_got n b : net_inv n -> waiting_finish_ (ch (side n (negb b))) = false -> Count (received_ack_ids_ (ch (side n b))) <= Z.of_nat (length (got (side n (negb b)))).
Proof.
  intros I W. pose proof (I b) as Ib. rewrite <- (length_map (fun x => fst (fst x))). apply (Count_le _ _ (proj1 (i_acks _ _ Ib))).
  intros x Hx. destruct (proj2 (i_acks _ _ Ib) x Hx) as [_ [(k & v & Hg)|X]]; [|congruence]. apply in_map_iff. now exists (x, k, v).
Qed.

(** Nothing undefined. *)
Lemma OnRequest_defined p nd key value r : peer_ok p -> node_inv p nd -> inc_ok p key value -> In r (SendImpl key value) -> fst (OnRequest r (ch nd)) <> Undefined.
Proof.
  intros P I Ik Hr. unfold OnRequest. destruct (aborting_ (ch nd)); [discriminate|]. destruct (IsMonoRequest r) as [[|]|] eqn:M1; [| |discriminate].
  - rewrite (mono_request p key value r P Ik Hr M1). apply OnMessage_defined.
  - destruct (chunked_request p key value r P Ik Hr M1) as (Fb & Ft & LK & i & s & k & Hi & -> & Hs & Ek).
    destruct (chunk_request_unpack key value i LK Fb Ft Hi) as (_ & -> & ->). rewrite Ek. unfold OnChunkedMessage.
    destruct (add_chunk_cases p nd s k value i P I Hs Hi Ft) as (m' & _ & [[-> ->]| ->]); [apply OnMessage_defined|discriminate].
Qed.

(** ** Runs that compute *)

Inductive event := ESend (b : bool) (k v : list Z) | EThread (b : bool) | EDeliver (b : bool) (task request : nat) | EReady (b : bool) | ERecv (b : bool) (k : list Z) | EEnded (b : bool) (i : nat) | EClose (b : bool).

Definition user_messageb (k v : list Z) : bool :=
  forallb (fun x => (0 <=? x) && (x <? 256)) k && (Z.of_nat (length k) + 22 <? 2 ^ 32) && forallb (fun x => (0 <=? x) && (x <? 256)) v && (Z.of_nat (length v) + GetMaxBytesPerChunk <? 2 ^ 63).

Definition exec_node (peer : list Message) (nd : Node) (e : event) : option Node :=
  match e with
  | ESend _ k v =>
      if user_messageb k v && (msg_seq_id_ (ch nd) + 2 <? 2 ^ 64) then
        match SendAsync k v (ch nd) with (Ret _, c) => Some (MkNode c (sent nd ++ [(k, v)]) (got nd) (ready nd) (ended nd)) | _ => None end
      else None
  | EThread _ => Some (set_ch (SendThread_step false (ch nd)) nd)
  | EDeliver _ i j =>
      let? m := nth_error peer i in let? r := nth_error (SendImpl (msg_key_ m) (value_ m)) j in
      match IsMonoRequest r with
      | Some true => Some (set_ch (snd (OnRequest r (ch nd))) nd)
      | Some false =>
          if aborting_ (ch nd) then None else
          let? (key, value, offset, total) := UnpackChunckRequest r in
          let '(o, c) := add_chunk key value offset total (ch nd) in
          Some (MkNode c (sent nd) (got nd)
            (match o with Ret (Some data) => match Reassemble data with Some v => (key, v) :: ready nd | None => ready nd end | _ => ready nd end) (ended nd))
      | None => None
      end
  | EReady _ => match ready nd with (key, v) :: l => Some (MkNode (snd (OnMessage key v (ch nd))) (sent nd) (got nd) l (ended nd)) | [] => None end
  | ERecv _ k =>
      match recv_msgs_ (ch nd) !! k, RecvPoll k false (ch nd) with
      | Some (_, seq), (Ret v, c) => Some (MkNode c (sent nd) ((seq, k, v) :: got nd) (ready nd) (ended nd))
      | _, _ => None
      end
  | EEnded _ i =>
      let? m := nth_error (tasks (ch nd)) i in
      if existsb (Nat.eqb i) (ended nd) then None else Some (MkNode (SendTaskFinishedNotify (seq_id_ m) (ch nd)) (sent nd) (got nd) (ready nd) (i :: ended nd))
  | EClose _ => Some (set_ch (snd (WaitLinkTaskFinish_step (ch nd))) nd)
  end.

Definition event_at (e : event) : bool :=
  match e with ESend b _ _ | EThread b | EDeliver b _ _ | EReady b | ERecv b _ | EEnded b _ | EClose b => b end.

Definition exec (n : Net) (e : event) : option Net :=
  let b := event_at e in let? nd := exec_node (tasks (ch (side n (negb b)))) (side n b) e in Some (upd_node n b nd).
Fixpoint run (n : Net) (l : list event) : option Net :=
  match l with [] => Some n | e :: l => let? n := exec n e in run n l end.

Lemma user_messageb_ok k v : user_messageb k v = true -> user_message k v.
Proof.
  unfold user_messageb, user_message, fits. rewrite !andb_true_iff, !forallb_forall, !Z.ltb_lt. intros [[[A B] C] D].
  repeat split; try assumption; apply List.Forall_forall; intros x Hx; [specialize (A x Hx)|specialize (C x Hx)]; unfold byte; lia.
Qed.

Lemma exec_node_sound peer nd e nd' : exec_node peer nd e = Some nd' -> node_step peer nd nd'.
Proof.
  destruct e as [b k v|b|b i j|b|b k|b i|b]; cbn [exec_node].
  - destruct (user_messageb k v && _) eqn:U; [|discriminate]. apply andb_true_iff in U as [U B%Z.ltb_lt]. destruct (SendAsync k v (ch nd)) as [[s|e| |] c] eqn:E; try discriminate.
    intros [= <-]. exact (step_send peer SendAsync k v s c nd api_async (user_messageb_ok k v U) B E).
  - intros [= <-]. constructor.
  - destruct (nth_error peer i) as [m|] eqn:Em; [|discriminate]. destruct (nth_error (SendImpl (msg_key_ m) (value_ m)) j) as [r|] eqn:Er; [|discriminate].
    apply nth_error_In in Em, Er. destruct (IsMonoRequest r) as [[|]|] eqn:M1; [intros [= <-]; now apply (step_mono peer m)| |discriminate].
    destruct (aborting_ (ch nd)) eqn:Ab; [discriminate|]. destruct (UnpackChunckRequest r) as [[[[key value] offset] total]|] eqn:U; [|discriminate].
    destruct (add_chunk key value offset total (ch nd)) as [o c] eqn:A. intros [= <-]. exact (step_chunk peer m r key value offset total o c nd Em Er M1 Ab U A).
  - destruct (ready nd) as [|[key v] l] eqn:E; [discriminate|]. intros [= <-]. exact (step_ready peer [] key v l nd E).
  - destruct (recv_msgs_ (ch nd) !! k) as [[v' s]|] eqn:E; [|discriminate]. destruct (RecvPoll k false (ch nd)) as [[v|e| |] c] eqn:R; try discriminate.
    intros [= <-]. exact (step_recv peer k false v s v' c nd E R).
  - destruct (nth_error (tasks (ch nd)) i) as [m|] eqn:Em; [|discriminate]. destruct (existsb (Nat.eqb i) (ended nd)) eqn:X; [discriminate|]. intros [= <-].
    apply step_ended; [exact Em|]. intros Hi. assert (T : existsb (Nat.eqb i) (ended nd) = true); [|congruence]. apply existsb_exists. exists i. split; [exact Hi|apply Nat.eqb_refl].
  - intros [= <-]. constructor.
Qed.

Lemma run_reach l : forall n n', reach n -> run n l = Some n' -> reach n'.
Proof.
  induction l as [|e l IH]; intros n n' R; cbn [run]; [now intros [= <-]|]. destruct (exec n e) as [n1|] eqn:E; [|discriminate]. apply IH. apply (reach_step n n1 R).
  unfold exec in E. destruct (exec_node _ _ e) as [nd|] eqn:X; [|discriminate]. injection E as <-. constructor. now apply (exec_node_sound _ _ e).
Qed.
End Net.
