(* ===== verification/Parties.v ===== *)
(** Programs of parties that talk by keyed messages, and all their interleavings.  A
    message waits in the mail from its send until the receive of its key; a send
    never waits.  A receive gets what was sent under its key, at most once: this is
    what a channel promises.  When every message has one send and one receive, and
    some order of the messages has no party waiting for a later one before it sends
    an earlier one, then every run of the parties ends, with the same results.

    Programs that talk in rounds: in a round every party sends what is its to send,
    and then receives what is sent to it.  Parties that keep to a list of rounds in
    which no message has the name of another end in every interleaving. *)
From Stdlib Require Import ZArith Lia List Bool.
From stdpp Require Import base option list gmap.
From S2P Require Import Prelude.
Import ListNotations.
#[local] Open Scope nat_scope.

(** ** Programs and their runs *)

Inductive prog (A : Type) : Type :=
  | Done (a : A)
  | SendTo (dst : nat) (key value : list Z) (k : prog A)
  | RecvFrom (src : nat) (key : list Z) (k : list Z -> prog A)
  | Fail.
Arguments Done {A} a.
Arguments SendTo {A} dst key value k.
Arguments RecvFrom {A} src key k.
Arguments Fail {A}.

Fixpoint bind {A B} (p : prog A) (f : A -> prog B) : prog B :=
  match p with
  | Done a => f a
  | SendTo d key v k => SendTo d key v (bind k f)
  | RecvFrom s key k => RecvFrom s key (fun v => bind (k v) f)
  | Fail => Fail
  end.
(** An exception ends the program. *)
Definition lift {A} (o : option A) : prog A := match o with Some a => Done a | None => Fail end.
Definition ensure {A} (c : bool) (p : prog A) : prog A := if c then p else Fail.

Declare Scope prog_scope.
Notation "'do' x <- p ; q" := (bind p (fun x => q)) (at level 10, x pattern, p at level 100, q at level 200) : prog_scope.
#[global] Open Scope prog_scope.

(** From, to, key. *)
Abbreviation mailbox := (gmap (nat * nat * list Z) (list Z)).
Record parties (A : Type) := MkParties { progs : list (prog A); mail : mailbox }.
Arguments MkParties {A} progs mail.
Arguments progs {A} p.
Arguments mail {A} p.

(** A key that waits already keeps its value. *)
Definition post (m : mailbox) (k : nat * nat * list Z) (v : list Z) : mailbox := match m !! k with Some _ => m | None => <[k := v]> m end.

Inductive step {A} : parties A -> parties A -> Prop :=
  | step_send i d key v k st : nth_error (progs st) i = Some (SendTo d key v k) ->
      step st (MkParties (upd (progs st) i k) (post (mail st) (i, d, key) v))
  | step_recv j s key k v st : nth_error (progs st) j = Some (RecvFrom s key k) -> mail st !! (s, j, key) = Some v ->
      step st (MkParties (upd (progs st) j (k v)) (delete (s, j, key) (mail st))).
Inductive steps {A} : nat -> parties A -> parties A -> Prop :=
  | steps_O st : steps 0 st st
  | steps_S n st st' st'' : steps n st st' -> step st' st'' -> steps (S n) st st''.

(** ** What a party does, for given messages *)

Inductive act := ASend (d : nat) (key : list Z) | ARecv (s : nat) (key : list Z).
#[export] Instance act_eq_dec : EqDecision act.
Proof. solve_decision. Defined.

Section Runs.
Context {A : Type}.
(** The messages, the actions of every party, the results, the order. *)
Variables (T : nat -> nat -> list Z -> option (list Z)) (acts : nat -> list act) (res : nat -> A) (rank : nat -> nat -> list Z -> nat) (n : nat).

(** Party [i] makes these actions when it gets these messages, and ends with [a]. *)
Inductive follows (i : nat) : list act -> prog A -> A -> Prop :=
  | f_done a : follows i [] (Done a) a
  | f_send d key v l k a : T i d key = Some v -> follows i l k a -> follows i (ASend d key :: l) (SendTo d key v k) a
  | f_recv s key v l k a : T s i key = Some v -> follows i l (k v) a -> follows i (ARecv s key :: l) (RecvFrom s key k) a.

Lemma follows_send i l d key v k a : follows i l (SendTo d key v k) a -> exists l', l = ASend d key :: l' /\ T i d key = Some v /\ follows i l' k a.
Proof. intros F. inversion F; subst. eauto. Qed.
Lemma follows_recv i l s key k a : follows i l (RecvFrom s key k) a -> exists l' v, l = ARecv s key :: l' /\ T s i key = Some v /\ follows i l' (k v) a.
Proof. intros F. inversion F; subst. eauto. Qed.

Record protocol (ps : list (prog A)) : Prop := MkProtocol {
  pr_length : length ps = n;
  pr_follows : forall i p, nth_error ps i = Some p -> follows i (acts i) p (res i);
  pr_once : forall i, i < n -> NoDup (acts i);
  pr_send : forall i d key, i < n -> In (ASend d key) (acts i) -> d < n /\ In (ARecv i key) (acts d);
  pr_recv : forall j s key, j < n -> In (ARecv s key) (acts j) -> s < n /\ In (ASend j key) (acts s);
  pr_order : forall i l1 l2 s d key key', i < n -> acts i = l1 ++ ARecv s key :: l2 -> In (ASend d key') l2 -> rank s i key < rank i d key' }.

(** The actions left, and the mail: what was sent and is still to be received. *)
Record run_inv (rem : nat -> list act) (st : parties A) : Prop := MkRunInv {
  ri_length : length (progs st) = n;
  ri_follows : forall i p, nth_error (progs st) i = Some p -> follows i (rem i) p (res i);
  ri_suffix : forall i, i < n -> exists pre, acts i = pre ++ rem i;
  ri_sent : forall j s key, j < n -> In (ARecv s key) (acts j) -> ~ In (ARecv s key) (rem j) -> ~ In (ASend j key) (rem s);
  ri_mail : forall i d key v, i < n -> d < n -> mail st !! (i, d, key) = Some v <->
    In (ASend d key) (acts i) /\ ~ In (ASend d key) (rem i) /\ In (ARecv i key) (rem d) /\ T i d key = Some v }.

Definition left (rem : nat -> list act) : nat := list_sum (map (fun i => length (rem i)) (seq 0 n)).
Definition set_rem (rem : nat -> list act) (i : nat) (l : list act) : nat -> list act := fun j => if j =? i then l else rem j.

Lemma set_rem_eq rem i l : set_rem rem i l i = l.
Proof. unfold set_rem. now rewrite Nat.eqb_refl. Qed.
Lemma set_rem_ne rem i l j : j <> i -> set_rem rem i l j = rem j.
Proof. intros N. unfold set_rem. now rewrite (proj2 (Nat.eqb_neq j i) N). Qed.

Lemma left_set rem i a l : i < n -> rem i = a :: l -> left rem = S (left (set_rem rem i l)).
Proof.
  unfold left. intros Hi E. assert (G : forall s k, (s <= i < s + k -> list_sum (map (fun i => length (rem i)) (seq s k)) = S (list_sum (map (fun j => length (set_rem rem i l j)) (seq s k)))) /\
    (i < s -> list_sum (map (fun i => length (rem i)) (seq s k)) = list_sum (map (fun j => length (set_rem rem i l j)) (seq s k)))).
  { intros s k. revert s; induction k as [|k IH]; intros s; (split; [intros H|intros H]); try lia; cbn [seq map list_sum fold_right]; try reflexivity.
    - destruct (Nat.eq_dec s i) as [->|N].
      + rewrite set_rem_eq, E. cbn [length]. unfold list_sum in IH. rewrite (proj2 (IH (S i))) by lia. cbn. reflexivity.
      + rewrite set_rem_ne by exact N. unfold list_sum in IH. rewrite (proj1 (IH (S s))) by lia. lia.
    - rewrite set_rem_ne by lia. unfold list_sum in IH. now rewrite (proj2 (IH (S s))) by lia. }
  apply (proj1 (G 0 n)). lia.
Qed.

Lemma nth_error_upd (l : list (prog A)) i p j : i < length l -> nth_error (upd l i p) j = if j =? i then Some p else nth_error l j.
Proof.
  revert i j; induction l as [|x l IH]; intros [|i] [|j] H; cbn in *; try lia; try reflexivity. apply IH. lia.
Qed.

(** The suffix left by the head of the rest. *)
Lemma suffix_tail (i : nat) rem a l : rem = a :: l -> (exists pre, acts i = pre ++ rem) -> exists pre, acts i = pre ++ l.
Proof. intros -> [pre E]. exists (pre ++ [a]). rewrite E, <- app_assoc. reflexivity. Qed.

Section Steps.
Variable ps : list (prog A).
Hypothesis P : protocol ps.

Lemma rem_in rem st i a : run_inv rem st -> i < n -> In a (rem i) -> In a (acts i).
Proof. intros I Hi H. destruct (ri_suffix _ _ I i Hi) as [pre E]. rewrite E. apply in_app_iff. now right. Qed.

(** The head is done once. *)
Lemma rem_head rem st i a l : run_inv rem st -> i < n -> rem i = a :: l -> ~ In a l.
Proof.
  intros I Hi E H. destruct (ri_suffix _ _ I i Hi) as [pre F]. rewrite E in F. pose proof (pr_once _ P i Hi) as N. rewrite F in N.
  apply NoDup_ListNoDup in N. apply NoDup_remove_2 in N. apply N, in_app_iff. now right.
Qed.

Lemma step_inv rem st st' : run_inv rem st -> step st st' -> exists rem', run_inv rem' st' /\ left rem = S (left rem').
Proof.
  intros I S. destruct S as [i d key v k st E|j s key k v st E Em].
  - assert (Hi : i < n) by (rewrite <- (ri_length _ _ I); apply nth_error_Some; congruence).
    pose proof (ri_follows _ _ I i _ E) as F. destruct (follows_send _ _ _ _ _ _ _ F) as (l & ER & Ht & F').
    exists (set_rem rem i l). split; [|apply (left_set rem i (ASend d key)); [exact Hi|exact ER]].
    pose proof (rem_head rem st i _ l I Hi ER) as NH. assert (HA : In (ASend d key) (acts i)) by (apply (rem_in rem st); [exact I|exact Hi|rewrite ER; now left]).
    destruct (pr_send _ P i d key Hi HA) as [Hd HR].
    assert (RD : In (ARecv i key) (set_rem rem i l d)).
    { destruct (in_dec act_eq_dec (ARecv i key) (rem d)) as [H|H].
      - destruct (Nat.eq_dec d i) as [->|N]; [rewrite set_rem_eq; rewrite ER in H; destruct H as [H|H]; [discriminate|exact H]|now rewrite set_rem_ne].
      - exfalso. apply (ri_sent _ _ I d i key Hd HR H). rewrite ER. now left. }
    assert (EM : mail st !! (i, d, key) = None).
    { destruct (mail st !! (i, d, key)) as [w|] eqn:X; [|reflexivity]. apply (ri_mail _ _ I i d key w Hi Hd) in X as (_ & X & _). exfalso. apply X. rewrite ER. now left. }
    split; cbn [progs mail].
    + now rewrite length_upd, (ri_length _ _ I).
    + intros j p. rewrite nth_error_upd by (rewrite (ri_length _ _ I); exact Hi). destruct (Nat.eqb_spec j i) as [->|N]; [intros [= <-]; now rewrite set_rem_eq|].
      rewrite set_rem_ne by exact N. apply (ri_follows _ _ I).
    + intros j Hj. destruct (Nat.eq_dec j i) as [->|N]; [rewrite set_rem_eq; exact (suffix_tail i (rem i) _ l ER (ri_suffix _ _ I i Hi))|rewrite set_rem_ne by exact N; now apply (ri_suffix _ _ I)].
    + intros j s key' Hj HA' HN. assert (HN' : ~ In (ARecv s key') (rem j)).
      { intros X. apply HN. destruct (Nat.eq_dec j i) as [->|N]; [rewrite set_rem_eq; rewrite ER in X; destruct X as [X|X]; [discriminate|exact X]|now rewrite set_rem_ne]. }
      pose proof (ri_sent _ _ I j s key' Hj HA' HN') as X. destruct (Nat.eq_dec s i) as [->|N]; [rewrite set_rem_eq; rewrite ER in X; intros Y; apply X; now right|now rewrite set_rem_ne].
    + intros i' d' key' w Hi' Hd'. unfold post. rewrite EM. cbv beta iota. destruct (decide ((i, d, key) = (i', d', key'))) as [Q|Q].
      * injection Q as <- <- <-. rewrite lookup_insert_eq, set_rem_eq. split; [intros [= <-]; auto|intros (_ & _ & _ & X); congruence].
      * rewrite lookup_insert_ne by exact Q. rewrite (ri_mail _ _ I i' d' key' w Hi' Hd').
        assert (E1 : ~ In (ASend d' key') (rem i') <-> ~ In (ASend d' key') (set_rem rem i l i')).
        { destruct (Nat.eq_dec i' i) as [->|N]; [rewrite set_rem_eq, ER|now rewrite set_rem_ne]. cbn. split; [intros X Y; apply X; now right|intros X [Y|Y]; [injection Y as <- <-; now apply Q|now apply X]]. }
        assert (E2 : In (ARecv i' key') (rem d') <-> In (ARecv i' key') (set_rem rem i l d')).
        { destruct (Nat.eq_dec d' i) as [->|N]; [rewrite set_rem_eq, ER|now rewrite set_rem_ne]. cbn. split; [intros [X|X]; [discriminate|exact X]|now right]. }
        now rewrite E1, E2.
  - assert (Hj : j < n) by (rewrite <- (ri_length _ _ I); apply nth_error_Some; congruence).
    pose proof (ri_follows _ _ I j _ E) as F. destruct (follows_recv _ _ _ _ _ _ F) as (l & v' & ER & Ht & F').
    exists (set_rem rem j l). split; [|exact (left_set rem j (ARecv s key) l Hj ER)].
    pose proof (rem_head rem st j _ l I Hj ER) as NH. assert (HA : In (ARecv s key) (acts j)) by (apply (rem_in rem st); [exact I|exact Hj|rewrite ER; now left]).
    destruct (pr_recv _ P j s key Hj HA) as [Hs HS]. pose proof (proj1 (ri_mail _ _ I s j key v Hs Hj) Em) as (_ & NS & _ & Tv). rewrite Tv in Ht. injection Ht as <-.
    assert (SS : forall i' d' key', In (ASend d' key') (rem i') <-> In (ASend d' key') (set_rem rem j l i')).
    { intros i' d' key'. destruct (Nat.eq_dec i' j) as [->|N]; [rewrite set_rem_eq, ER|now rewrite set_rem_ne]. cbn. split; [intros [X|X]; [discriminate|exact X]|now right]. }
    split; cbn [progs mail].
    + now rewrite length_upd, (ri_length _ _ I).
    + intros i p. rewrite nth_error_upd by (rewrite (ri_length _ _ I); exact Hj). destruct (Nat.eqb_spec i j) as [->|N]; [intros [= <-]; now rewrite set_rem_eq|].
      rewrite set_rem_ne by exact N. apply (ri_follows _ _ I).
    + intros i Hi. destruct (Nat.eq_dec i j) as [->|N]; [rewrite set_rem_eq; exact (suffix_tail j (rem j) _ l ER (ri_suffix _ _ I j Hj))|rewrite set_rem_ne by exact N; now apply (ri_suffix _ _ I)].
    + intros j' s' key' Hj' HA' HN. rewrite <- SS. destruct (decide ((j', s', key') = (j, s, key))) as [Q|Q]; [injection Q as -> -> ->; exact NS|].
      apply (ri_sent _ _ I j' s' key' Hj' HA'). intros X. apply HN. destruct (Nat.eq_dec j' j) as [->|N]; [|now rewrite set_rem_ne].
      rewrite set_rem_eq. rewrite ER in X. destruct X as [X|X]; [injection X as <- <-; now destruct Q|exact X].
    + intros i' d' key' w Hi' Hd'. rewrite <- SS. destruct (decide ((s, j, key) = (i', d', key'))) as [Q|Q].
      * injection Q as <- <- <-. rewrite lookup_delete_eq, set_rem_eq. split; [discriminate|intros (_ & _ & X & _); now destruct NH].
      * rewrite lookup_delete_ne by exact Q. rewrite (ri_mail _ _ I i' d' key' w Hi' Hd').
        assert (E2 : In (ARecv i' key') (rem d') <-> In (ARecv i' key') (set_rem rem j l d')).
        { destruct (Nat.eq_dec d' j) as [->|N]; [rewrite set_rem_eq, ER|now rewrite set_rem_ne]. cbn. split; [intros [X|X]; [injection X as <- <-; now destruct Q|exact X]|now right]. }
        now rewrite E2.
Qed.

Definition start : parties A := MkParties ps ∅.

Lemma start_inv : run_inv acts start.
Proof.
  split; cbn [progs mail start].
  - apply (pr_length _ P).
  - apply (pr_follows _ P).
  - intros i _. now exists [].
  - intros j s key _ H N. contradiction.
  - intros i d key v _ _. rewrite lookup_empty. split; [discriminate|]. intros (H & N & _). contradiction.
Qed.

Lemma steps_inv k st : steps k start st -> exists rem, run_inv rem st /\ k + left rem = left acts.
Proof.
  intros S. remember start as st0 eqn:E. induction S as [st|k st st' st'' S IH S']; subst; [exists acts; split; [apply start_inv|reflexivity]|].
  destruct (IH eq_refl) as (rem & I & L). destruct (step_inv rem st' st'' I S') as (rem' & I' & L'). exists rem'. split; [exact I'|lia].
Qed.

(** A party that is not done can move, or one can that it waits for. *)
Lemma progress rem st : run_inv rem st -> forall m j a l, j < n -> rem j = a :: l -> (forall s key, a = ARecv s key -> rank s j key < m) -> exists st', step st st'.
Proof.
  intros I m. induction m as [m IH] using lt_wf_ind. intros j a l Hj E B.
  destruct (nth_error (progs st) j) as [p|] eqn:Ep; [|apply nth_error_None in Ep; rewrite (ri_length _ _ I) in Ep; lia].
  pose proof (ri_follows _ _ I j p Ep) as F. rewrite E in F. inversion F as [|d key v l' k' a' Ht F' El Ek|s key v l' k' a' Ht F' El Ek]; subst.
  - eexists. eapply step_send. exact Ep.
  - assert (HA : In (ARecv s key) (acts j)) by (apply (rem_in rem st); [exact I|exact Hj|rewrite E; now left]).
    destruct (pr_recv _ P j s key Hj HA) as [Hs HS]. destruct (in_dec act_eq_dec (ASend j key) (rem s)) as [H|H].
    + destruct (rem s) as [|b l2] eqn:Er; [destruct H|]. specialize (B s key eq_refl). apply (IH (rank s j key) B s b l2 Hs Er). intros s2 key2 ->.
      destruct H as [H|H]; [discriminate|]. destruct (ri_suffix _ _ I s Hs) as [pre X]. rewrite Er in X. exact (pr_order _ P s pre l2 s2 j key2 key Hs X H).
    + eexists. eapply step_recv; [exact Ep|]. apply (ri_mail _ _ I s j key v Hs Hj). rewrite E. repeat split; try assumption. now left.
Qed.

(** Every run makes as many steps as there are actions, and no more; as long as it has
    not, some party can move; and then every party is done, with its result. *)
Lemma runs_end k st : steps k start st ->
  k <= left acts /\ (k < left acts -> exists st', step st st') /\ (k = left acts -> progs st = map (fun i => Done (res i)) (seq 0 n)).
Proof.
  intros Hs. destruct (steps_inv k st Hs) as (rem & I & L). split; [lia|]. split.
  - intros Hk. assert (X : exists j a l, j < n /\ rem j = a :: l).
    { assert (Hl : 0 < left rem) by lia. clear - Hl. unfold left in Hl. assert (G : forall l, 0 < list_sum (map (fun i => length (rem i)) l) -> exists j, In j l /\ rem j <> []).
      { induction l as [|x l IH]; cbn; [lia|]. intros H. destruct (rem x) as [|b r] eqn:E; [|exists x; split; [now left|congruence]]. destruct IH as (j & Hj & N); [exact H|exists j; split; [now right|exact N]]. }
      destruct (G _ Hl) as (j & Hj & N). apply in_seq in Hj. destruct (rem j) as [|a l] eqn:E; [easy|]. exists j, a, l. split; [lia|exact E]. }
    destruct X as (j & a & l & Hj & E). apply (progress rem st I (S (match a with ARecv s key => rank s j key | _ => 0 end)) j a l Hj E). intros s key ->. lia.
  - intros Hk. assert (Z0 : forall i, i < n -> rem i = []).
    { assert (Hl : left rem = 0) by lia. unfold left in Hl. intros i Hi. assert (G : forall l, list_sum (map (fun i => length (rem i)) l) = 0 -> forall j, In j l -> rem j = []).
      { induction l as [|x l IH]; cbn; [intros _ j []|]. intros H j [<-|Hj]; [destruct (rem x); [reflexivity|cbn in H; lia]|]. apply IH; [unfold list_sum in *; lia|exact Hj]. }
      apply (G _ Hl). apply in_seq. lia. }
    apply (nth_error_ext (progs st)). intros i. destruct (Nat.lt_ge_cases i n) as [Hi|Hi].
    + rewrite nth_error_map, (nth_error_nth' _ 0) by (rewrite length_seq; exact Hi). rewrite seq_nth by exact Hi. cbn.
      destruct (nth_error (progs st) i) as [p|] eqn:Ep; [|apply nth_error_None in Ep; rewrite (ri_length _ _ I) in Ep; lia].
      pose proof (ri_follows _ _ I i p Ep) as F. rewrite (Z0 i Hi) in F. inversion F; subst. congruence.
    + rewrite !(proj2 (nth_error_None _ _)); [reflexivity|now rewrite length_map, length_seq|now rewrite (ri_length _ _ I)].
Qed.
End Steps.
End Runs.

(** Sender, receiver, key and value. *)
Record msg := MkMsg { m_src : nat; m_dst : nat; m_key : list Z; m_val : list Z }.
Definition m_name (m : msg) : nat * nat * list Z := (m_src m, m_dst m, m_key m).
Abbreviation round := (list msg).

Definition send_acts (i : nat) (r : round) : list act := flat_map (fun m => if m_src m =? i then [ASend (m_dst m) (m_key m)] else []) r.
Definition recv_acts (i : nat) (r : round) : list act := flat_map (fun m => if m_dst m =? i then [ARecv (m_src m) (m_key m)] else []) r.
Definition round_acts (i : nat) (r : round) : list act := send_acts i r ++ recv_acts i r.
Definition rounds_acts (rs : list round) (i : nat) : list act := flat_map (round_acts i) rs.

Definition is_named (i d : nat) (key : list Z) (m : msg) : bool := bool_decide (m_name m = (i, d, key)).
Definition value_of (ms : list msg) (i d : nat) (key : list Z) : option (list Z) := option_map m_val (find (is_named i d key) ms).
Fixpoint round_of (rs : list round) (i d : nat) (key : list Z) : nat :=
  match rs with
  | [] => 0
  | r :: rs => if existsb (is_named i d key) r then 0 else S (round_of rs i d key)
  end.

(** [T] knows the messages. *)
Definition knows (T : nat -> nat -> list Z -> option (list Z)) (ms : list msg) : Prop := Forall (fun m => T (m_src m) (m_dst m) (m_key m) = Some (m_val m)) ms.

(** Party [i] keeps to the rounds, and ends with [a]. *)
Definition talks {A} (rs : list round) (i : nat) (p : prog A) (a : A) : Prop :=
  forall T, knows T (concat rs) -> follows T i (rounds_acts rs i) p a.

Lemma follows_bind {A B} T i l1 l2 (p : prog A) (f : A -> prog B) a b : follows T i l1 p a -> follows T i l2 (f a) b -> follows T i (l1 ++ l2) (bind p f) b.
Proof. intros F G. induction F; cbn; [exact G| |]; econstructor; eauto. Qed.

Lemma knows_app T l l' : knows T (l ++ l') <-> knows T l /\ knows T l'.
Proof. apply List.Forall_app. Qed.

Lemma knows_in T ms m : knows T ms -> In m ms -> T (m_src m) (m_dst m) (m_key m) = Some (m_val m).
Proof. intros K H. unfold knows in K. rewrite List.Forall_forall in K. now apply K. Qed.

Lemma knows_sub T l l' : incl l l' -> knows T l' -> knows T l.
Proof. intros I K. unfold knows in *. rewrite List.Forall_forall in *. auto. Qed.

Lemma talks_done {A} i (a : A) : talks [] i (Done a) a.
Proof. intros T _. constructor. Qed.

Lemma talks_bind {A B} rs rs' i (p : prog A) (f : A -> prog B) a b : talks rs i p a -> talks rs' i (f a) b -> talks (rs ++ rs') i (bind p f) b.
Proof.
  intros P Q T K. rewrite concat_app, knows_app in K. unfold rounds_acts. rewrite flat_map_app. eapply follows_bind; [apply P|apply Q]; apply K.
Qed.

(** ** The rounds are a protocol *)

Lemma in_send_acts i r d key : In (ASend d key) (send_acts i r) <-> exists m, In m r /\ m_name m = (i, d, key).
Proof.
  unfold send_acts. rewrite in_flat_map. split.
  - intros (m & Hm & H). destruct (Nat.eqb_spec (m_src m) i) as [E|E]; [|destruct H]. destruct H as [H|[]]. injection H as <- <-. exists m. split; [exact Hm|unfold m_name; congruence].
  - intros (m & Hm & E). exists m. split; [exact Hm|]. unfold m_name in E. injection E as <- <- <-. rewrite Nat.eqb_refl. now left.
Qed.
Lemma in_recv_acts j r s key : In (ARecv s key) (recv_acts j r) <-> exists m, In m r /\ m_name m = (s, j, key).
Proof.
  unfold recv_acts. rewrite in_flat_map. split.
  - intros (m & Hm & H). destruct (Nat.eqb_spec (m_dst m) j) as [E|E]; [|destruct H]. destruct H as [H|[]]. injection H as <- <-. exists m. split; [exact Hm|unfold m_name; congruence].
  - intros (m & Hm & E). exists m. split; [exact Hm|]. unfold m_name in E. injection E as <- <- <-. rewrite Nat.eqb_refl. now left.
Qed.
Lemma send_only i r s key : ~ In (ARecv s key) (send_acts i r).
Proof. unfold send_acts. rewrite in_flat_map. intros (m & _ & H). destruct (_ =? _); [destruct H as [H|[]]; discriminate|destruct H]. Qed.
Lemma recv_only i r d key : ~ In (ASend d key) (recv_acts i r).
Proof. unfold recv_acts. rewrite in_flat_map. intros (m & _ & H). destruct (_ =? _); [destruct H as [H|[]]; discriminate|destruct H]. Qed.

Lemma in_acts_send rs i d key : In (ASend d key) (rounds_acts rs i) <-> exists m, In m (concat rs) /\ m_name m = (i, d, key).
Proof.
  unfold rounds_acts, round_acts. rewrite in_flat_map. setoid_rewrite in_app_iff. setoid_rewrite in_send_acts. setoid_rewrite in_concat. split.
  - intros (r & Hr & [(m & Hm & E)|H]); [now exists m; split; [exists r|]|now apply recv_only in H].
  - intros (m & (r & Hr & Hm) & E). exists r. split; [exact Hr|]. left. now exists m.
Qed.
Lemma in_acts_recv rs j s key : In (ARecv s key) (rounds_acts rs j) <-> exists m, In m (concat rs) /\ m_name m = (s, j, key).
Proof.
  unfold rounds_acts, round_acts. rewrite in_flat_map. setoid_rewrite in_app_iff. setoid_rewrite in_recv_acts. setoid_rewrite in_concat. split.
  - intros (r & Hr & [H|(m & Hm & E)]); [now apply send_only in H|now exists m; split; [exists r|]].
  - intros (m & (r & Hr & Hm) & E). exists r. split; [exact Hr|]. right. now exists m.
Qed.

Lemma is_named_spec i d key m : is_named i d key m = true <-> m_name m = (i, d, key).
Proof. apply bool_decide_eq_true. Qed.

Lemma round_of_lt rs i d key : (exists m, In m (concat rs) /\ m_name m = (i, d, key)) -> round_of rs i d key < length rs.
Proof.
  induction rs as [|r rs IH]; cbn; [intros (m & [] & _)|]. intros (m & H & E). destruct (existsb _ r) eqn:X; [lia|]. apply in_app_iff in H as [H|H].
  - exfalso. enough (existsb (is_named i d key) r = true) by congruence. apply existsb_exists. exists m. split; [exact H|now apply is_named_spec].
  - apply -> Nat.succ_lt_mono. apply IH. now exists m.
Qed.

Lemma round_of_app rs rs' i d key : round_of (rs ++ rs') i d key = if existsb (is_named i d key) (concat rs) then round_of rs i d key else length rs + round_of rs' i d key.
Proof.
  induction rs as [|r rs IH]; [reflexivity|]. cbn [app round_of concat length]. rewrite existsb_app. destruct (existsb _ r); [reflexivity|]. cbn. rewrite IH. now destruct (existsb _ (concat rs)).
Qed.

Lemma named_not_before rs rs' m : NoDup (map m_name (concat (rs ++ rs'))) -> In m (concat rs') -> existsb (is_named (m_src m) (m_dst m) (m_key m)) (concat rs) = false.
Proof.
  rewrite concat_app, map_app. intros N H. apply not_true_is_false. intros X. apply existsb_exists in X as (m' & H' & E). apply is_named_spec in E.
  apply NoDup_app in N as (_ & D & _). apply (D (m_name m)); [rewrite list_elem_of_In, in_map_iff; exists m'; split; [exact E|exact H']|].
  rewrite list_elem_of_In. now apply in_map.
Qed.

Section Protocol.
Context {A : Type}.
Variables (rs : list round) (n : nat) (ps : list (prog A)) (res : nat -> A).
Hypothesis H_names : NoDup (map m_name (concat rs)).
Hypothesis H_ranks : forall m, In m (concat rs) -> m_src m < n /\ m_dst m < n.
Hypothesis H_length : length ps = n.
Hypothesis H_talks : forall i p, nth_error ps i = Some p -> talks rs i p (res i).

Lemma value_known : knows (value_of (concat rs)) (concat rs).
Proof.
  unfold knows. apply List.Forall_forall. intros m Hm. unfold value_of. pose proof H_names as N. revert N Hm. generalize (concat rs) as ms. induction ms as [|m' ms IH]; [intros _ []|].
  intros N [->|Hm]; cbn [find].
  - rewrite (proj2 (is_named_spec _ _ _ m) eq_refl). reflexivity.
  - cbn in N. apply NoDup_cons in N as [X N]. destruct (is_named _ _ _ m') eqn:E; [|now apply IH].
    apply is_named_spec in E. exfalso. apply X. rewrite E. apply list_elem_of_In. change (m_src m, m_dst m, m_key m) with (m_name m). now apply in_map.
Qed.

Lemma acts_nodup i : NoDup (rounds_acts rs i).
Proof.
  revert H_names. clear. induction rs as [|r l IH]; cbn [concat]; [constructor|]. rewrite map_app. intros N. apply NoDup_app in N as (N & D & N').
  unfold rounds_acts. cbn [flat_map]. apply NoDup_app. assert (B : forall f : msg -> option act, (forall m m' x, f m = Some x -> f m' = Some x -> m_name m = m_name m') -> NoDup (flat_map (fun m => match f m with Some x => [x] | None => [] end) r)).
  { intros f Hf. clear - N Hf. induction r as [|m r IH]; [constructor|]. cbn [flat_map map] in *. apply NoDup_cons in N as [X N]. destruct (f m) as [x|] eqn:E; [|now apply IH].
    cbn. apply NoDup_cons. split; [|now apply IH]. rewrite list_elem_of_In, in_flat_map. intros (m' & Hm & H). destruct (f m') as [y|] eqn:E'; [|destruct H]. destruct H as [->|[]].
    apply X. rewrite (Hf _ _ _ E E'). apply list_elem_of_In. now apply in_map. }
  split; [|split].
  - unfold round_acts. apply NoDup_app. split; [|split].
    + unfold send_acts. rewrite (flat_map_ext _ (fun m => match (if m_src m =? i then Some (ASend (m_dst m) (m_key m)) else None) with Some x => [x] | None => [] end)) by (intros m; now destruct (m_src m =? i)). apply B.
      intros m m' x. destruct (Nat.eqb_spec (m_src m) i); [|discriminate]. destruct (Nat.eqb_spec (m_src m') i); [|discriminate]. intros [= <-] [= E1 E2]. unfold m_name. congruence.
    + intros a Ha Hb. rewrite list_elem_of_In in Ha, Hb. destruct a; [now apply recv_only in Hb|now apply send_only in Ha].
    + unfold recv_acts. rewrite (flat_map_ext _ (fun m => match (if m_dst m =? i then Some (ARecv (m_src m) (m_key m)) else None) with Some x => [x] | None => [] end)) by (intros m; now destruct (m_dst m =? i)). apply B.
      intros m m' x. destruct (Nat.eqb_spec (m_dst m) i); [|discriminate]. destruct (Nat.eqb_spec (m_dst m') i); [|discriminate]. intros [= <-] [= E1 E2]. unfold m_name. congruence.
  - intros a Ha Hb. rewrite list_elem_of_In in Ha, Hb. fold (rounds_acts l i) in Hb. unfold round_acts in Ha. apply in_app_iff in Ha.
    assert (G : forall k, (exists m, In m r /\ m_name m = k) -> (exists m, In m (concat l) /\ m_name m = k) -> False).
    { intros k (m & Hm & <-) (m' & Hm' & E). apply (D (m_name m)); rewrite list_elem_of_In; [now apply in_map|rewrite <- E; now apply in_map]. }
    destruct a as [d key|s key].
    + apply in_acts_send in Hb. destruct Ha as [Ha|Ha]; [apply in_send_acts in Ha; exact (G _ Ha Hb)|now apply recv_only in Ha].
    + apply in_acts_recv in Hb. destruct Ha as [Ha|Ha]; [now apply send_only in Ha|apply in_recv_acts in Ha; exact (G _ Ha Hb)].
  - fold (rounds_acts l i). now apply IH.
Qed.

(** A receive in a round, and a send after it: the send is in a later round. *)
Lemma recv_then_send i l1 l2 s d key key' : rounds_acts rs i = l1 ++ ARecv s key :: l2 -> In (ASend d key') l2 -> round_of rs s i key < round_of rs i d key'.
Proof.
  intros E H. assert (X : exists rs1 r rs2, rs = rs1 ++ r :: rs2 /\ In (ARecv s key) (round_acts i r) /\ In (ASend d key') (rounds_acts rs2 i)).
  { revert l1 E. clear - H. induction rs as [|r l IH]; intros l1 E; [destruct l1; discriminate|].
    unfold rounds_acts in E. cbn [flat_map] in E. fold (rounds_acts l i) in E. symmetry in E. destruct (app_eq_app l1 (ARecv s key :: l2) (round_acts i r) (rounds_acts l i) E) as [l' [[E1 E2]|[E1 E2]]].
    - destruct (IH l' E2) as (rs1 & r' & rs2 & -> & X & Y). exists (r :: rs1), r', rs2. split; [reflexivity|]. split; assumption.
    - destruct l' as [|a l'].
      + rewrite app_nil_l in E2. destruct (IH [] (eq_sym E2)) as (rs1 & r' & rs2 & -> & X & Y). exists (r :: rs1), r', rs2. split; [reflexivity|]. split; assumption.
      + cbn in E2. injection E2 as <- E2. exists [], r, l. split; [reflexivity|]. split; [rewrite E1; apply in_app_iff; right; now left|].
        rewrite E2 in H. apply in_app_iff in H as [H|H]; [|exact H]. exfalso. unfold round_acts in E1. symmetry in E1.
        destruct (app_eq_app l1 (ARecv s key :: l') (send_acts i r) (recv_acts i r) E1) as [l'' [[F1 F2]|[F1 F2]]].
        * apply (recv_only i r d key'). rewrite F2. apply in_app_iff. right. now right.
        * destruct l'' as [|a l'']; [|cbn in F2; injection F2 as <- F2; apply (send_only i r s key); rewrite F1; apply in_app_iff; right; now left].
          rewrite app_nil_l in F2. apply (recv_only i r d key'). rewrite <- F2. now right. }
  destruct X as (rs1 & r & rs2 & -> & X & Y). apply in_acts_send in Y as (m & Hm & Em). unfold round_acts in X. apply in_app_iff in X as [X|X]; [now apply send_only in X|]. apply in_recv_acts in X as (m' & Hm' & Em').
  assert (E1 : existsb (is_named s i key) (concat rs1) = false).
  { pose proof (named_not_before rs1 (r :: rs2) m' H_names) as N. unfold m_name in Em'. injection Em' as <- <- <-. apply N. cbn. apply in_app_iff. now left. }
  assert (E2 : existsb (is_named i d key') (concat (rs1 ++ [r])) = false).
  { pose proof H_names as N'. replace (rs1 ++ r :: rs2) with ((rs1 ++ [r]) ++ rs2) in N' by now rewrite <- app_assoc.
    pose proof (named_not_before (rs1 ++ [r]) rs2 m N' Hm) as N. unfold m_name in Em. injection Em as <- <- <-. exact N. }
  rewrite round_of_app, E1. replace (rs1 ++ r :: rs2) with ((rs1 ++ [r]) ++ rs2) by now rewrite <- app_assoc. rewrite round_of_app, E2, length_app. cbn.
  rewrite (proj2 (existsb_exists _ r)); [lia|]. exists m'. split; [exact Hm'|now apply is_named_spec].
Qed.

Lemma rounds_protocol : protocol (value_of (concat rs)) (rounds_acts rs) res (round_of rs) n ps.
Proof.
  split.
  - exact H_length.
  - intros i p E. exact (H_talks i p E _ value_known).
  - intros i _. apply acts_nodup.
  - intros i d key _ H. apply in_acts_send in H as (m & Hm & E). split; [|apply in_acts_recv; now exists m]. unfold m_name in E. injection E as <- <- <-. now apply H_ranks.
  - intros j s key _ H. apply in_acts_recv in H as (m & Hm & E). split; [|apply in_acts_send; now exists m]. unfold m_name in E. injection E as <- <- <-. now apply H_ranks.
  - intros i l1 l2 s d key key' _. apply recv_then_send.
Qed.
End Protocol.
