(* ===== verification/Context.v ===== *)
(** Contexts ([link/context.h], [context.cc]): the counters that name every message,
    and the calls that go to the channels.  A party's program is a [prog]: sends and
    receives by rank and key.  The texts of keys are those of the format strings. *)
From Stdlib Require Import ZArith Lia List Bool.
From stdpp Require Import base option list gmap.
From S2P Require Import Prelude.
From S2P Require Import Strings.
From S2P Require Import Parties.
Import ListNotations.
#[local] Open Scope Z_scope.

Record Statistics := MkStatistics { sent_bytes : Z; sent_actions : Z; recv_bytes : Z; recv_actions : Z }.
Definition Statistics_new : Statistics := MkStatistics 0 0 0 0.

(** The description's identifier and the identifiers of its parties; statistics are
    shared with the contexts that [Spawn] makes, of which only one is in use. *)
Record Context := MkContext {
  desc_id : list Z; party_ids : list (list Z); rank_ : Z; counter_ : Z; p2p_counter_ : gmap (Z * Z) Z; child_counter_ : Z; stats_ : Statistics; is_sub_world_ : bool }.

Definition WorldSize (ctx : Context) : Z := Z.of_nat (length (party_ids ctx)).
(** The constructor enforces the rank and one channel a party; the channel of the rank
    itself is null. *)
Definition Context_new (id : list Z) (ids : list (list Z)) (rank channels : Z) (sub : bool) : option Context :=
  if (rank <? Z.of_nat (length ids)) && (channels =? Z.of_nat (length ids)) then
    Some (MkContext id ids rank 0
      (fold_left (fun m src => fold_left (fun m dst => <[(Z.of_nat src, Z.of_nat dst) := 0]> m) (seq 0 (length ids)) m) (seq 0 (length ids)) ∅)
      0 Statistics_new sub)
  else None.

Definition PrevRank (ctx : Context) (stride : Z) : Z := u64 (u64 (rank_ ctx - stride) + WorldSize ctx) mod WorldSize ctx.
Definition NextRank (ctx : Context) (stride : Z) : Z := u64 (rank_ ctx + stride) mod WorldSize ctx.

(** ["{}:{}"], and ["{}:P2P-{}:{}->{}"] with an [int] counter. *)
Definition NextId (ctx : Context) : list Z * Context :=
  let counter := u64 (counter_ ctx + 1) in
  (desc_id ctx ++ [58] ++ to_string counter,
   MkContext (desc_id ctx) (party_ids ctx) (rank_ ctx) counter (p2p_counter_ ctx) (child_counter_ ctx) (stats_ ctx) (is_sub_world_ ctx)).
Definition NextP2PId (src_rank dst_rank : Z) (ctx : Context) : list Z * Context :=
  let k := (i32 src_rank, i32 dst_rank) in
  let counter := i32 (match p2p_counter_ ctx !! k with Some c => c | None => 0 end + 1) in
  (desc_id ctx ++ [58; 80; 50; 80; 45] ++ to_string counter ++ [58] ++ to_string src_rank ++ [45; 62] ++ to_string dst_rank,
   MkContext (desc_id ctx) (party_ids ctx) (rank_ ctx) (counter_ ctx) (<[k := counter]> (p2p_counter_ ctx)) (child_counter_ ctx) (stats_ ctx) (is_sub_world_ ctx)).

Definition set_stats (s : Statistics) (ctx : Context) : Context :=
  MkContext (desc_id ctx) (party_ids ctx) (rank_ ctx) (counter_ ctx) (p2p_counter_ ctx) (child_counter_ ctx) s (is_sub_world_ ctx).

(** The null channel of the rank itself is called at once: undefined. *)
Definition SendAsyncInternal (dst_rank : Z) (key value : list Z) (ctx : Context) : prog Context :=
  if dst_rank <? WorldSize ctx then
    if dst_rank =? rank_ ctx then Fail
    else SendTo (Z.to_nat dst_rank) key value
           (Done (let s := stats_ ctx in set_stats (MkStatistics (u64 (sent_bytes s + Z.of_nat (length value))) (u64 (sent_actions s + 1)) (recv_bytes s) (recv_actions s)) ctx))
  else Fail.
Definition RecvInternal (src_rank : Z) (key : list Z) (ctx : Context) : prog (list Z * Context) :=
  if src_rank <? WorldSize ctx then
    if src_rank =? rank_ ctx then Fail
    else RecvFrom (Z.to_nat src_rank) key (fun value =>
           Done (value, let s := stats_ ctx in set_stats (MkStatistics (sent_bytes s) (sent_actions s) (u64 (recv_bytes s + Z.of_nat (length value))) (u64 (recv_actions s + 1))) ctx))
  else Fail.

(** Point to point: the counter of the pair names the message. *)
Definition ctx_SendAsync (dst_rank : Z) (value : list Z) (ctx : Context) : prog Context :=
  let '(event, ctx) := NextP2PId (rank_ ctx) dst_rank ctx in SendAsyncInternal dst_rank event value ctx.
Definition ctx_RecvP2P (src_rank : Z) (ctx : Context) : prog (list Z * Context) :=
  let '(event, ctx) := NextP2PId src_rank (rank_ ctx) ctx in RecvInternal src_rank event ctx.

(** A child in another thread: its identifier is new, its counters start again. *)
Definition Spawn (id : list Z) (ctx : Context) : option (Context * Context) :=
  let '(sub_id, child) := match id with
                          | [] => (desc_id ctx ++ [45] ++ to_string (child_counter_ ctx), u64 (child_counter_ ctx + 1))
                          | _ => (desc_id ctx ++ [45] ++ id, child_counter_ ctx)
                          end in
  match Context_new sub_id (party_ids ctx) (rank_ ctx) (WorldSize ctx) false with
  | Some sub => Some (set_stats (stats_ ctx) sub, MkContext (desc_id ctx) (party_ids ctx) (rank_ ctx) (counter_ ctx) (p2p_counter_ ctx) child (stats_ ctx) (is_sub_world_ ctx))
  | None => None
  end.

(** Some of the parties, in their order; the rank map keeps the last of equal names. *)
Definition party_rank_map (ids : list (list Z)) : gmap (list Z) Z :=
  fold_left (fun m '(i, id) => <[id := Z.of_nat i]> m) (combine (seq 0 (length ids)) ids) ∅.
Definition sub_step (ctx : Context) (st : option (Z * list Z)) (party_id : list Z) : option (Z * list Z) :=
  match st with
  | None => None
  | Some (new_rank, orig_ranks) =>
      match party_rank_map (party_ids ctx) !! party_id with
      | None => None
      | Some r => Some (if r =? rank_ ctx then Z.of_nat (length orig_ranks) else new_rank, orig_ranks ++ [r])
      end
  end.
Definition SubWorld (id_suffix : list Z) (sub_party_ids : list (list Z)) (ctx : Context) : option (Context * list Z) :=
  match fold_left (sub_step ctx) sub_party_ids (Some (Z.of_nat (length sub_party_ids), [])) with
  | None => None
  | Some (new_rank, orig_ranks) =>
      if new_rank =? Z.of_nat (length sub_party_ids) then None
      else match Context_new (desc_id ctx ++ [45] ++ id_suffix) (map (fun r => nth (Z.to_nat r) (party_ids ctx) []) orig_ranks) new_rank (Z.of_nat (length orig_ranks)) true with
           | Some sub => Some (sub, orig_ranks)
           | None => None
           end
  end.

(** ** Collective operations ([link/algorithm/]) *)

(** A loop over an index range, or over the values of a counter. *)
Fixpoint for_each {S} (l : list nat) (body : nat -> S -> prog S) (s : S) : prog S :=
  match l with [] => Done s | x :: l => do s <- body x s; for_each l body s end.

Definition kAllGather : list Z := [65; 76; 76; 71; 65; 84; 72; 69; 82].
Definition kBarrier : list Z := [66; 65; 82; 82; 73; 69; 82].
Definition kBcast : list Z := [66; 67; 65; 83; 84].
Definition kGather : list Z := [71; 65; 84; 72; 69; 82].
Definition kScatter : list Z := [83; 67; 65; 84; 84; 69; 82].
Definition NextEvent (kType : list Z) (ctx : Context) : list Z * Context := let '(id, ctx) := NextId ctx in (id ++ [58] ++ kType, ctx).

Definition ranks (ctx : Context) : list nat := seq 0 (length (party_ids ctx)).

Definition AllGather (input : list Z) (ctx : Context) : prog (list (list Z) * Context) :=
  let '(event, ctx) := NextEvent kAllGather ctx in
  do ctx <- for_each (ranks ctx) (fun idx ctx => if Z.of_nat idx =? rank_ ctx then Done ctx else SendAsyncInternal (Z.of_nat idx) event input ctx) ctx;
  for_each (ranks ctx) (fun idx '(outputs, ctx) =>
    if Z.of_nat idx =? rank_ ctx then Done (upd outputs idx input, ctx)
    else do (v, ctx) <- RecvInternal (Z.of_nat idx) event ctx; Done (upd outputs idx v, ctx)) (repeat [] (length (party_ids ctx)), ctx).

Definition Gather (input : list Z) (root : Z) (ctx : Context) : prog (list (list Z) * Context) :=
  let '(event, ctx) := NextEvent kGather ctx in
  if root =? rank_ ctx then
    for_each (ranks ctx) (fun idx '(res, ctx) =>
      if Z.of_nat idx =? rank_ ctx then Done (upd res idx input, ctx)
      else do (v, ctx) <- RecvInternal (Z.of_nat idx) event ctx; Done (upd res idx v, ctx)) (repeat [] (length (party_ids ctx)), ctx)
  else do ctx <- SendAsyncInternal root event input ctx; Done ([], ctx).

Definition Scatter (inputs : list (list Z)) (root : Z) (ctx : Context) : prog (list Z * Context) :=
  let '(event, ctx) := NextEvent kScatter ctx in
  if root =? rank_ ctx then
    if Z.of_nat (length inputs) =? WorldSize ctx then
      do ctx <- for_each (ranks ctx) (fun idx ctx => if Z.of_nat idx =? rank_ ctx then Done ctx else SendAsyncInternal (Z.of_nat idx) event (nth idx inputs []) ctx) ctx;
      Done (nth (Z.to_nat root) inputs [], ctx)
    else Fail
  else RecvInternal root event ctx.

Definition RingOffset (begin_ end_ size : Z) : Z := u64 (u64 (end_ - begin_) + size) mod size.

(** The strides from the largest power of two within the size down to 1; the element
    [k] of the list stands for [2 ^ k]. *)
Definition Broadcast (input : list Z) (root : Z) (ctx : Context) : prog (list Z * Context) :=
  let '(event, ctx) := NextEvent kBcast ctx in
  let vrank := RingOffset root (rank_ ctx) (WorldSize ctx) in
  do (output, received, ctx) <- for_each (rev (seq 0 (S (Z.to_nat (Z.log2 (WorldSize ctx)))))) (fun k '(output, received, ctx) =>
      let stride := 2 ^ Z.of_nat k in
      if negb received then
        if negb (vrank mod stride =? 0) then Done (output, received, ctx)
        else do (v, ctx) <- RecvInternal (PrevRank ctx stride) event ctx; Done (v, true, ctx)
      else if vrank + stride <? WorldSize ctx then
        do ctx <- SendAsyncInternal (NextRank ctx stride) event output ctx; Done (output, received, ctx)
      else Done (output, received, ctx)) (input, vrank =? 0, ctx);
  Done (output, ctx).

(** The offsets 1, 2, 4, ... below the size. *)
Definition Barrier (ctx : Context) : prog Context :=
  let '(event, ctx) := NextEvent kBarrier ctx in
  for_each (seq 0 (Z.to_nat (Z.log2_up (WorldSize ctx)))) (fun k ctx =>
    let offset := 2 ^ Z.of_nat k in
    let recv_rank := PrevRank ctx offset in
    let send_rank := NextRank ctx offset in
    do ctx <- SendAsyncInternal send_rank event [] ctx;
    do (_, ctx) <- RecvInternal recv_rank event ctx; Done ctx) ctx.
