(* ===== verification/Collectives.v ===== *)
(** The collective operations give their results in every interleaving of the
    parties ([link/algorithm/]): their rounds, and what each party does in them.

    The broadcast along a binomial tree and the dissemination barrier
    ([link/algorithm/broadcast.cc], [barrier.cc]): their rounds, and what holds when a
    party leaves the barrier. *)
From Stdlib Require Import ZArith Lia List Bool.
From stdpp Require Import base option list gmap.
From S2P Require Import Prelude.
From S2P Require Import Parties.
From S2P Require Import Context.
Import ListNotations.
#[local] Open Scope nat_scope.

(** ** Every run ends, and then the results are as promised *)

Definition gives {A} (ps : list (prog A)) (Q : nat -> A -> Prop) : Prop :=
  exists total, forall k st, steps k (start ps) st ->
    k <= total /\ (k < total -> exists st', step st st') /\
    (k = total -> exists res, progs st = map Done res /\ length res = length ps /\ forall i a, nth_error res i = Some a -> Q i a).

Lemma choose {A} (P : nat -> A -> Prop) m b : (forall i, b <= i < b + m -> exists a, P i a) -> exists l, length l = m /\ forall i a, nth_error l i = Some a -> P (b + i) a.
Proof.
  revert b; induction m as [|m IH]; intros b H; [exists []; split; [reflexivity|intros [|i] a; discriminate]|].
  destruct (H b) as [a Ha]; [lia|]. destruct (IH (S b)) as (l & Hl & Q); [intros i Hi; apply H; lia|]. exists (a :: l). split; [cbn; lia|].
  intros [|i] x E; cbn in E; [injection E as <-; now rewrite Nat.add_0_r|]. rewrite Nat.add_succ_r. exact (Q i x E).
Qed.

Lemma rounds_give {A} (rs : list round) (ps : list (prog A)) (Q : nat -> A -> Prop) :
  NoDup (map m_name (concat rs)) -> (forall m, In m (concat rs) -> m_src m < length ps /\ m_dst m < length ps) ->
  (forall i p, nth_error ps i = Some p -> exists a, talks rs i p a /\ Q i a) -> gives ps Q.
Proof.
  intros N R H. destruct (choose (fun i a => exists p, nth_error ps i = Some p /\ talks rs i p a /\ Q i a) (length ps) 0) as (res & L & E).
  { intros i Hi. destruct (nth_error ps i) as [p|] eqn:E; [|apply nth_error_None in E; lia]. destruct (H i p E) as (a & Ha). exists a, p. now split. }
  cbn in E. destruct res as [|a0 res'] eqn:Er.
  { destruct ps; [|discriminate L]. exists 0. intros k st S. assert (k = 0 /\ st = start []) as [-> ->].
    { clear - S. remember (start []) as s0 eqn:E0. induction S as [s|k s s' s'' S IH St]; [auto|]. destruct (IH E0) as [-> ->]. subst. inversion St; subst; cbn in *; destruct i || destruct j; discriminate. }
    split; [lia|]. split; [lia|]. intros _. exists []. split; [reflexivity|]. split; [reflexivity|]. intros [|i] a; discriminate. }
  assert (P : protocol (value_of (concat rs)) (rounds_acts rs) (fun i => nth i res a0) (round_of rs) (length ps) ps).
  { apply rounds_protocol; [exact N|exact R|reflexivity|]. intros i p Ep. destruct (nth_error res i) as [a|] eqn:Ea.
    - destruct (E i a) as (p' & Ep' & T & _); [now rewrite <- Er|]. rewrite (nth_error_nth _ _ _ Ea). assert (p' = p) as -> by congruence. exact T.
    - apply nth_error_None in Ea. assert (i < length ps) by (apply nth_error_Some; congruence). rewrite Er in Ea. lia. }
  exists (left (length ps) (rounds_acts rs)). intros k st S. destruct (runs_end _ _ _ _ _ _ P k st S) as (B1 & B2 & B3). split; [exact B1|]. split; [exact B2|]. intros Hk.
  exists res. split; [rewrite B3 by exact Hk|split; [now rewrite Er|]].
  - apply (nth_error_ext (map _ _)). intros i. rewrite !nth_error_map. destruct (Nat.lt_ge_cases i (length ps)) as [Hi|Hi].
    + rewrite (nth_error_nth' _ 0) by (rewrite length_seq; exact Hi). rewrite seq_nth by exact Hi. cbn. rewrite (nth_error_nth' _ a0) by (rewrite Er; lia). reflexivity.
    + rewrite !(proj2 (nth_error_None _ _)); [reflexivity|rewrite Er; lia|rewrite length_seq; lia].
  - intros i a Ea. destruct (E i a) as (p & _ & _ & HQ); [now rewrite <- Er|exact HQ].
Qed.

(** ** What a party does, knowing the messages [ms] *)

Definition tells {A} (ms : list msg) (i : nat) (l : list act) (p : prog A) (a : A) : Prop := forall T, knows T ms -> follows T i l p a.

Lemma tells_done {A} ms i (a : A) : tells ms i [] (Done a) a.
Proof. intros T _. constructor. Qed.
Lemma tells_bind {A B} ms i l1 l2 (p : prog A) (f : A -> prog B) a b : tells ms i l1 p a -> tells ms i l2 (f a) b -> tells ms i (l1 ++ l2) (bind p f) b.
Proof. intros P Q T K. eapply follows_bind; [now apply P|now apply Q]. Qed.
Lemma tells_sub {A} ms ms' i l (p : prog A) a : incl ms ms' -> tells ms i l p a -> tells ms' i l p a.
Proof. intros I P T K. apply P. exact (knows_sub T ms ms' I K). Qed.

(** The loops, up and down. *)
Lemma tells_up {S} ms i (acts : nat -> list act) (body : nat -> S -> prog S) (Inv : nat -> S -> Prop) m : forall b s,
  (forall k s, b <= k < b + m -> Inv k s -> exists s', tells ms i (acts k) (body k s) s' /\ Inv (k + 1) s') -> Inv b s ->
  exists s', tells ms i (flat_map acts (seq b m)) (for_each (seq b m) body s) s' /\ Inv (b + m) s'.
Proof.
  induction m as [|m IH]; intros b s H I; [exists s; split; [apply tells_done|now rewrite Nat.add_0_r]|].
  destruct (H b s) as (s' & T & I'); [lia|exact I|]. rewrite Nat.add_1_r in I'. destruct (IH (1 + b) s') as (s'' & T' & I''); [intros k t Hk; apply H; lia|exact I'|].
  exists s''. split; [|now rewrite Nat.add_succ_r]. cbn [seq flat_map for_each]. eapply tells_bind; [exact T|exact T'].
Qed.

Lemma tells_down {S} ms i (acts : nat -> list act) (body : nat -> S -> prog S) (Inv : nat -> S -> Prop) m : forall s,
  (forall k s, k < m -> Inv (k + 1) s -> exists s', tells ms i (acts k) (body k s) s' /\ Inv k s') -> Inv m s ->
  exists s', tells ms i (flat_map acts (rev (seq 0 m))) (for_each (rev (seq 0 m)) body s) s' /\ Inv 0 s'.
Proof.
  induction m as [|m IH]; intros s H I; [exists s; split; [apply tells_done|exact I]|].
  rewrite seq_S, rev_app_distr. cbn [rev app plus]. destruct (H m s) as (s' & T & I'); [lia|now rewrite Nat.add_1_r|]. destruct (IH s') as (s'' & T' & I''); [intros k t Hk; apply H; lia|exact I'|].
  exists s''. split; [|exact I'']. cbn [flat_map for_each]. eapply tells_bind; [exact T|exact T'].
Qed.

(** ** Rounds in which everyone who is selected talks *)

Section Mesh.
Variables (n : nat) (ev : list Z).
Definition mesh (sel : nat -> nat -> bool) (val : nat -> nat -> list Z) : round :=
  flat_map (fun i => flat_map (fun j => if sel i j then [MkMsg i j ev (val i j)] else []) (seq 0 n)) (seq 0 n).

Lemma in_mesh sel val m : In m (mesh sel val) <-> exists i j, i < n /\ j < n /\ sel i j = true /\ m = MkMsg i j ev (val i j).
Proof.
  unfold mesh. rewrite in_flat_map. setoid_rewrite in_flat_map. split.
  - intros (i & Hi & j & Hj & H). apply in_seq in Hi, Hj. destruct (sel i j) eqn:E; [|destruct H]. destruct H as [<-|[]]. exists i, j. repeat split; (lia || assumption).
  - intros (i & j & Hi & Hj & E & ->). exists i. split; [apply in_seq; lia|]. exists j. split; [apply in_seq; lia|]. rewrite E. now left.
Qed.

Lemma mesh_send sel val i : i < n -> send_acts i (mesh sel val) = flat_map (fun j => if sel i j then [ASend j ev] else []) (seq 0 n).
Proof.
  intros Hi. unfold mesh, send_acts. assert (G : forall m b, flat_map (fun m => if m_src m =? i then [ASend (m_dst m) (m_key m)] else []) (flat_map (fun i => flat_map (fun j => if sel i j then [MkMsg i j ev (val i j)] else []) (seq 0 n)) (seq b m)) =
    if (b <=? i) && (i <? b + m) then flat_map (fun j => if sel i j then [ASend j ev] else []) (seq 0 n) else []).
  { induction m as [|m IH]; intros b; cbn [seq flat_map]; [destruct (Nat.leb_spec b i), (Nat.ltb_spec i (b + 0)); (reflexivity || lia)|]. rewrite flat_map_app, IH.
    assert (E : forall l, flat_map (fun m => if m_src m =? i then [ASend (m_dst m) (m_key m)] else []) (flat_map (fun j => if sel b j then [MkMsg b j ev (val b j)] else []) l) = if b =? i then flat_map (fun j => if sel i j then [ASend j ev] else []) l else []).
    { induction l as [|j l IHl]; cbn [flat_map]; [now destruct (b =? i)|]. rewrite flat_map_app, IHl. destruct (Nat.eqb_spec b i) as [->|N]; destruct (sel _ j); cbn; try reflexivity; [now rewrite Nat.eqb_refl|now rewrite (proj2 (Nat.eqb_neq b i) N)]. }
    rewrite E. destruct (Nat.eqb_spec b i), (Nat.leb_spec (S b) i), (Nat.ltb_spec i (S b + m)), (Nat.leb_spec b i), (Nat.ltb_spec i (b + S m)); cbn [andb]; try lia; now rewrite ?app_nil_r. }
  rewrite G. now rewrite (proj2 (Nat.ltb_lt i (0 + n))) by lia.
Qed.

Lemma mesh_recv sel val j : j < n -> recv_acts j (mesh sel val) = flat_map (fun i => if sel i j then [ARecv i ev] else []) (seq 0 n).
Proof.
  intros Hj. unfold mesh, recv_acts. generalize (seq 0 n) at 2 3 as l. induction l as [|i l IH]; [reflexivity|]. cbn [flat_map]. rewrite flat_map_app, IH. f_equal.
  assert (G : forall m b, flat_map (fun m => if m_dst m =? j then [ARecv (m_src m) (m_key m)] else []) (flat_map (fun j => if sel i j then [MkMsg i j ev (val i j)] else []) (seq b m)) =
    if (b <=? j) && (j <? b + m) then (if sel i j then [ARecv i ev] else []) else []).
  { induction m as [|m IHm]; intros b; cbn [seq flat_map]; [destruct (Nat.leb_spec b j), (Nat.ltb_spec j (b + 0)); (reflexivity || lia)|]. rewrite flat_map_app, IHm.
    destruct (Nat.eq_dec b j) as [->|N].
    - destruct (Nat.leb_spec (S j) j), (Nat.leb_spec j j), (Nat.ltb_spec j (j + S m)); try lia. destruct (sel i j); cbn; [now rewrite Nat.eqb_refl|reflexivity].
    - assert (E : flat_map (fun m => if m_dst m =? j then [ARecv (m_src m) (m_key m)] else []) (if sel i b then [MkMsg i b ev (val i b)] else []) = []) by (destruct (sel i b); cbn; [now rewrite (proj2 (Nat.eqb_neq b j) N)|reflexivity]).
      rewrite E. cbn [app]. destruct (Nat.leb_spec (S b) j), (Nat.ltb_spec j (S b + m)), (Nat.leb_spec b j), (Nat.ltb_spec j (b + S m)); cbn [andb]; (reflexivity || lia). }
  rewrite G. now rewrite (proj2 (Nat.ltb_lt j (0 + n))) by lia.
Qed.

Lemma flat_map_one {B} (f : nat -> list B) t m : t < m -> (forall j, j < m -> j <> t -> f j = []) -> flat_map f (seq 0 m) = f t.
Proof.
  intros Ht H. replace m with (t + (m - t)) at 1 by lia. rewrite seq_app. rewrite flat_map_app. cbn [plus].
  destruct (m - t) as [|k] eqn:E; [lia|]. cbn [seq flat_map]. assert (G : forall l, (forall j, In j l -> f j = []) -> flat_map f l = []) by (induction l as [|x l IH]; cbn; intros Hl; [reflexivity|rewrite Hl by (now left); apply IH; intros j Hj; apply Hl; now right]).
  rewrite (G (seq 0 t)), (G (seq (S t) k)); [now rewrite app_nil_r|intros j Hj; apply in_seq in Hj; apply H; lia|intros j Hj; apply in_seq in Hj; apply H; lia].
Qed.
Lemma flat_map_none {B} (f : nat -> list B) m : (forall j, j < m -> f j = []) -> flat_map f (seq 0 m) = [].
Proof. intros H. assert (G : forall l, (forall j, In j l -> f j = []) -> flat_map f l = []) by (induction l as [|x l IH]; cbn; intros Hl; [reflexivity|rewrite Hl by (now left); apply IH; intros j Hj; apply Hl; now right]). apply G. intros j Hj. apply in_seq in Hj. apply H. lia. Qed.

(** No two messages of the rounds have one name when a pair talks in one round. *)
Lemma meshes_nodup (sel : nat -> nat -> nat -> bool) val ks : NoDup ks -> (forall k k' i j, In k ks -> In k' ks -> i < n -> j < n -> sel k i j = true -> sel k' i j = true -> k = k') ->
  NoDup (map m_name (concat (map (fun k => mesh (sel k) val) ks))).
Proof.
  intros N H. induction ks as [|k ks IH]; [constructor|]. cbn [map concat]. rewrite map_app. apply NoDup_cons in N as [Nk N]. apply NoDup_app. split; [|split].
  - clear. unfold mesh. assert (G : forall f l, NoDup l -> (forall i m, In m (f i) -> m_src m = i) -> (forall i, NoDup (map m_name (f i))) -> NoDup (map m_name (flat_map f l))).
    { intros f l Nl S F. induction l as [|i l IH]; [constructor|]. cbn. rewrite map_app. apply NoDup_cons in Nl as [X Nl]. apply NoDup_app. split; [apply F|]. split; [|now apply IH].
      intros x Hx Hy. rewrite list_elem_of_In, in_map_iff in Hx, Hy. destruct Hx as (m & <- & Hm), Hy as (m' & E & Hm'). apply in_flat_map in Hm' as (i' & Hi' & Hm'). apply X. rewrite list_elem_of_In.
      rewrite <- (S i m Hm). unfold m_name in E. injection E as E _ _. rewrite <- E. now rewrite (S i' m' Hm'). }
    apply G; [apply NoDup_ListNoDup, seq_NoDup|intros i m Hm; apply in_flat_map in Hm as (j & _ & Hm); destruct (sel k i j); [destruct Hm as [<-|[]]; reflexivity|destruct Hm]|].
    intros i. pose proof (seq_NoDup n 0) as Nl. apply NoDup_ListNoDup in Nl. induction (seq 0 n) as [|j l IH]; [constructor|]. apply NoDup_cons in Nl as [X Nl]. cbn. destruct (sel k i j); [|now apply IH].
    cbn. apply NoDup_cons. split; [|now apply IH]. rewrite list_elem_of_In, in_map_iff. intros (m & E & Hm). apply in_flat_map in Hm as (j' & Hj' & Hm). destruct (sel k i j'); [destruct Hm as [<-|[]]|destruct Hm]. injection E as ->. apply X. now apply list_elem_of_In.
  - intros x Hx Hy. rewrite list_elem_of_In, in_map_iff in Hx, Hy. destruct Hx as (m & <- & Hm), Hy as (m' & E & Hm'). apply in_mesh in Hm as (i & j & Hi & Hj & S & ->).
    apply in_concat in Hm' as (l & Hl & Hm'). apply in_map_iff in Hl as (k' & <- & Hk'). apply in_mesh in Hm' as (i' & j' & _ & _ & S' & ->). injection E as -> ->.
    apply Nk. rewrite list_elem_of_In. rewrite (H k k' i j); [exact Hk'|now left|now right|exact Hi|exact Hj|exact S|exact S'].
  - apply IH; [exact N|]. intros k1 k2 i j H1 H2. apply H; now right.
Qed.

Lemma meshes_ranks (sel : nat -> nat -> nat -> bool) val ks m : In m (concat (map (fun k => mesh (sel k) val) ks)) -> m_src m < n /\ m_dst m < n.
Proof. intros H. apply in_concat in H as (l & Hl & H). apply in_map_iff in Hl as (k & <- & _). apply in_mesh in H as (i & j & Hi & Hj & _ & ->). now split. Qed.
End Mesh.

(** ** Contexts of one description *)

Definition member (id : list Z) (ids : list (list Z)) (c : Z) (i : nat) (ctx : Context) : Prop :=
  desc_id ctx = id /\ party_ids ctx = ids /\ rank_ ctx = Z.of_nat i /\ counter_ ctx = c.

Definition event_of (id : list Z) (c : Z) (kType : list Z) : list Z := (id ++ [58%Z] ++ Strings.to_string (u64 (c + 1))) ++ [58%Z] ++ kType.

Lemma next_event id ids c i ctx kType : member id ids c i ctx -> exists ctx', NextEvent kType ctx = (event_of id c kType, ctx') /\ member id ids (u64 (c + 1)) i ctx'.
Proof. intros (<- & <- & E & <-). eexists. split; [reflexivity|]. repeat split. exact E. Qed.

Lemma tells_send ms id ids c i ctx j key v : member id ids c i ctx -> j < length ids -> j <> i -> In (MkMsg i j key v) ms ->
  exists ctx', tells ms i [ASend j key] (SendAsyncInternal (Z.of_nat j) key v ctx) ctx' /\ member id ids c i ctx'.
Proof.
  intros (E1 & E2 & E3 & E4) Hj N H. unfold SendAsyncInternal, WorldSize. rewrite E2, E3. rewrite (proj2 (Z.ltb_lt _ _)) by lia. rewrite (proj2 (Z.eqb_neq _ _)) by lia. rewrite Nat2Z.id.
  eexists. split; [|shelve]. intros T K. constructor; [exact (knows_in T ms _ K H)|constructor]. Unshelve. repeat split; assumption.
Qed.

Lemma tells_recv ms id ids c i ctx s key v : member id ids c i ctx -> s < length ids -> s <> i -> In (MkMsg s i key v) ms ->
  exists ctx', tells ms i [ARecv s key] (RecvInternal (Z.of_nat s) key ctx) (v, ctx') /\ member id ids c i ctx'.
Proof.
  intros (E1 & E2 & E3 & E4) Hs N H. unfold RecvInternal, WorldSize. rewrite E2, E3. rewrite (proj2 (Z.ltb_lt _ _)) by lia. rewrite (proj2 (Z.eqb_neq _ _)) by lia. rewrite Nat2Z.id.
  eexists. split; [|shelve]. intros T K. econstructor; [exact (knows_in T ms _ K H)|constructor]. Unshelve. repeat split; assumption.
Qed.

Section Calls.
Variables (id : list Z) (ids : list (list Z)) (c : Z) (ctxs : nat -> Context).
Let n := length ids.
Hypothesis H_size : (Z.of_nat n <= 2 ^ 63)%Z.
Hypothesis H_members : forall i, i < n -> member id ids c i (ctxs i).
Let after := u64 (c + 1).

(** A program a party, whose rounds are meshes. *)
Lemma meshes_give {A} ev (sel : nat -> nat -> nat -> bool) val ks (call : nat -> prog A) Q : NoDup ks ->
  (forall k k' i j, In k ks -> In k' ks -> i < n -> j < n -> sel k i j = true -> sel k' i j = true -> k = k') ->
  (forall i, i < n -> exists a, talks (map (fun k => mesh n ev (sel k) val) ks) i (call i) a /\ Q i a) -> gives (map call (seq 0 n)) Q.
Proof.
  intros N S H. apply (rounds_give (map (fun k => mesh n ev (sel k) val) ks)).
  - now apply meshes_nodup.
  - intros m Hm. rewrite length_map, length_seq. exact (meshes_ranks n ev sel val ks m Hm).
  - intros i p E. rewrite nth_error_map in E. destruct (Nat.lt_ge_cases i n) as [Hi|Hi].
    + rewrite (nth_error_nth' _ 0) in E by (rewrite length_seq; exact Hi). rewrite seq_nth in E by exact Hi. cbn in E. injection E as <-. now apply H.
    + rewrite (proj2 (nth_error_None _ _)) in E by (rewrite length_seq; exact Hi). discriminate.
Qed.

(** Sends to all others, and receives from all others. *)
Definition others (f : nat -> act) (i : nat) : list act := flat_map (fun j => if i =? j then [] else [f j]) (seq 0 n).

Lemma ranks_seq i ctx : member id ids after i ctx -> ranks ctx = seq 0 n.
Proof. intros (_ & E & _). unfold ranks. now rewrite E. Qed.

Lemma self_test i ctx k : member id ids after i ctx -> (Z.of_nat k =? rank_ ctx)%Z = (i =? k).
Proof. intros (_ & _ & -> & _). destruct (Nat.eqb_spec i k) as [->|N]; [apply Z.eqb_refl|apply Z.eqb_neq; lia]. Qed.

Lemma tells_send_all ms i ctx ev (val : nat -> list Z) : i < n -> member id ids after i ctx -> (forall j, j < n -> j <> i -> In (MkMsg i j ev (val j)) ms) ->
  exists ctx', tells ms i (others (fun j => ASend j ev) i) (for_each (ranks ctx) (fun idx ctx => if (Z.of_nat idx =? rank_ ctx)%Z then Done ctx else SendAsyncInternal (Z.of_nat idx) ev (val idx) ctx) ctx) ctx' /\ member id ids after i ctx'.
Proof.
  intros Hi M H. rewrite (ranks_seq i ctx M). apply (tells_up ms i _ _ (fun _ => member id ids after i)); [|exact M].
  intros k s Hk Ms. rewrite (self_test i s k Ms). destruct (Nat.eqb_spec i k) as [->|N]; [exists s; split; [apply tells_done|exact Ms]|].
  apply (tells_send ms id ids after i s k ev (val k) Ms); [cbn in Hk; unfold n in Hk; lia|congruence|apply H; [lia|congruence]].
Qed.

Lemma tells_recv_all ms i ctx ev input (val : nat -> list Z) : i < n -> member id ids after i ctx -> val i = input -> (forall j, j < n -> j <> i -> In (MkMsg j i ev (val j)) ms) ->
  exists ctx', tells ms i (others (fun j => ARecv j ev) i)
    (for_each (ranks ctx) (fun idx '(outputs, ctx) => if (Z.of_nat idx =? rank_ ctx)%Z then Done (upd outputs idx input, ctx)
       else do (v, ctx) <- RecvInternal (Z.of_nat idx) ev ctx; Done (upd outputs idx v, ctx)) (repeat [] (length (party_ids ctx)), ctx)) (map val (seq 0 n), ctx') /\ member id ids after i ctx'.
Proof.
  intros Hi M Hv H. rewrite (ranks_seq i ctx M). assert (L : length (party_ids ctx) = n) by (destruct M as (_ & -> & _); reflexivity). rewrite L.
  assert (U : forall k v, k < n -> v = val k -> upd (map val (seq 0 k) ++ repeat [] (n - k)) k v = map val (seq 0 (k + 1)) ++ repeat [] (n - (k + 1))).
  { intros k v Hk ->. replace (n - k) with (S (n - (k + 1))) by lia. rewrite seq_app, map_app, <- app_assoc. cbn [repeat seq map plus app].
    assert (G : forall (l r : list (list Z)) x y, upd (l ++ x :: r) (length l) y = l ++ y :: r) by (induction l as [|a l IH]; intros; cbn; [reflexivity|now rewrite IH]).
    rewrite <- (G (map val (seq 0 k)) (repeat [] (n - (k + 1))) [] (val k)). now rewrite length_map, length_seq. }
  destruct (tells_up ms i (fun j => if i =? j then [] else [ARecv j ev])
    (fun idx '(outputs, ctx) => if (Z.of_nat idx =? rank_ ctx)%Z then Done (upd outputs idx input, ctx) else do (v, ctx) <- RecvInternal (Z.of_nat idx) ev ctx; Done (upd outputs idx v, ctx))
    (fun k s => fst s = map val (seq 0 k) ++ repeat [] (n - k) /\ member id ids after i (snd s)) n 0 (repeat [] n, ctx)) as ((outs & ctx') & T & (E & M')).
  - intros k [outs s] Hk [E Ms]. cbn [fst snd] in *. subst outs. cbn beta iota. rewrite (self_test i s k Ms). destruct (Nat.eqb_spec i k) as [<-|N].
    + eexists (_, s). split; [apply tells_done|]. split; [cbn [fst]; apply U; [lia|congruence]|exact Ms].
    + destruct (tells_recv ms id ids after i s k ev (val k) Ms) as (s' & T & Ms'); [cbn in Hk; unfold n in Hk; lia|congruence|apply H; [lia|congruence]|].
      eexists (_, s'). split; [|split; [cbn [fst]; apply U; [lia|reflexivity]|exact Ms']]. eapply (tells_bind _ _ [_] []); [exact T|apply tells_done].
  - cbn. split; [now rewrite Nat.sub_0_r|exact M].
  - exists ctx'. cbn [fst snd plus] in *. rewrite Nat.sub_diag in E. cbn in E. rewrite app_nil_r in E. subst outs. split; [exact T|exact M'].
Qed.

Lemma mesh_msg ev sel val i j : i < n -> j < n -> sel i j = true -> In (MkMsg i j ev (val i j)) (mesh n ev sel val).
Proof. intros Hi Hj S. apply in_mesh. exists i, j. repeat split; assumption. Qed.

(** One round. *)
Lemma one_round {A} ev sel val i (p : prog A) a : tells (mesh n ev sel val) i (round_acts i (mesh n ev sel val)) p a -> talks (map (fun _ : nat => mesh n ev sel val) [0]) i p a.
Proof. intros T T' K. cbn in K. rewrite app_nil_r in K. unfold rounds_acts. cbn. rewrite app_nil_r. now apply T. Qed.

Lemma all_gather_gives (x : nat -> list Z) :
  gives (map (fun i => AllGather (x i) (ctxs i)) (seq 0 n)) (fun i r => fst r = map x (seq 0 n) /\ member id ids after i (snd r)).
Proof.
  set (ev := event_of id c kAllGather). apply (meshes_give ev (fun _ i j => negb (i =? j)) (fun i _ => x i) [0]); [apply NoDup_singleton|intros k k' i j [<-|[]] [<-|[]]; reflexivity|].
  intros i Hi. destruct (next_event id ids c i (ctxs i) kAllGather (H_members i Hi)) as (ctx & E & M). unfold AllGather. rewrite E. fold after in M.
  set (ms := mesh n ev (fun i j => negb (i =? j)) (fun i _ => x i)).
  assert (K : forall s d, s < n -> d < n -> s <> d -> In (MkMsg s d ev (x s)) ms) by (intros s d Hs Hd N; apply (mesh_msg ev _ (fun i _ => x i)); [exact Hs|exact Hd|now rewrite (proj2 (Nat.eqb_neq s d) N)]).
  destruct (tells_send_all ms i ctx ev (fun _ => x i) Hi M) as (ctx1 & T1 & M1); [intros j Hj N; apply K; congruence|].
  destruct (tells_recv_all ms i ctx1 ev (x i) x Hi M1 eq_refl) as (ctx2 & T2 & M2); [intros j Hj N; apply K; congruence|].
  exists (map x (seq 0 n), ctx2). split; [|split; [reflexivity|exact M2]]. apply one_round. fold ms. unfold round_acts, ms. rewrite mesh_send, mesh_recv by exact Hi.
  assert (F : forall f : nat -> act, flat_map (fun j => if negb (i =? j) then [f j] else []) (seq 0 n) = others f i) by (intros f; apply flat_map_ext; intros j; now destruct (i =? j)).
  assert (G : forall f : nat -> act, flat_map (fun j => if negb (j =? i) then [f j] else []) (seq 0 n) = others f i) by (intros f; apply flat_map_ext; intros j; rewrite (Nat.eqb_sym j i); now destruct (i =? j)).
  rewrite F, G. eapply tells_bind; [exact T1|exact T2].
Qed.

Lemma gather_gives (x : nat -> list Z) root : root < n ->
  gives (map (fun i => Gather (x i) (Z.of_nat root) (ctxs i)) (seq 0 n)) (fun i r => fst r = (if i =? root then map x (seq 0 n) else []) /\ member id ids after i (snd r)).
Proof.
  intros Hr. set (ev := event_of id c kGather). set (sel := fun i j => (j =? root) && negb (i =? j)). apply (meshes_give ev (fun _ => sel) (fun i _ => x i) [0]); [apply NoDup_singleton|intros k k' i j [<-|[]] [<-|[]]; reflexivity|].
  intros i Hi. destruct (next_event id ids c i (ctxs i) kGather (H_members i Hi)) as (ctx & E & M). unfold Gather. rewrite E. fold after in M. rewrite (self_test i ctx root M).
  set (ms := mesh n ev sel (fun i _ => x i)).
  assert (K : forall s, s < n -> s <> root -> In (MkMsg s root ev (x s)) ms) by (intros s Hs N; apply (mesh_msg ev sel (fun i _ => x i)); [exact Hs|exact Hr|unfold sel; rewrite Nat.eqb_refl; now rewrite (proj2 (Nat.eqb_neq s root) N)]).
  destruct (Nat.eqb_spec i root) as [->|N].
  - destruct (tells_recv_all ms root ctx ev (x root) x Hi M eq_refl) as (ctx2 & T2 & M2); [intros j Hj N; now apply K|].
    exists (map x (seq 0 n), ctx2). split; [|split; [reflexivity|exact M2]]. apply one_round. fold ms. unfold round_acts, ms. rewrite mesh_send, mesh_recv by exact Hi.
    rewrite flat_map_none by (intros j _; unfold sel; rewrite (Nat.eqb_sym root j); now destruct (j =? root)). cbn [app].
    rewrite (flat_map_ext _ (fun j => if root =? j then [] else [ARecv j ev])) by (intros j; unfold sel; rewrite Nat.eqb_refl, (Nat.eqb_sym j root); now destruct (root =? j)). exact T2.
  - destruct (tells_send ms id ids after i ctx root ev (x i) M Hr) as (ctx1 & T1 & M1); [congruence|now apply K|].
    exists ([], ctx1). split; [|split; [reflexivity|exact M1]]. apply one_round. fold ms. unfold round_acts, ms. rewrite mesh_send, mesh_recv by exact Hi.
    rewrite (flat_map_one _ root) by (exact Hr || (intros j _ Nj; unfold sel; now rewrite (proj2 (Nat.eqb_neq j root) Nj))). cbv beta. assert (S : sel i root = true) by (unfold sel; rewrite Nat.eqb_refl; now rewrite (proj2 (Nat.eqb_neq i root) N)). rewrite S.
    rewrite flat_map_none by (intros j _; unfold sel; now rewrite (proj2 (Nat.eqb_neq i root) N)). eapply (tells_bind _ _ [_] []); [exact T1|apply tells_done].
Qed.

Lemma scatter_gives (x : nat -> list (list Z)) root : root < n -> length (x root) = n ->
  gives (map (fun i => Scatter (x i) (Z.of_nat root) (ctxs i)) (seq 0 n)) (fun i r => fst r = nth i (x root) [] /\ member id ids after i (snd r)).
Proof.
  intros Hr Hx. set (ev := event_of id c kScatter). set (sel := fun i j => (i =? root) && negb (i =? j)). set (val := fun _ j : nat => nth j (x root) []). apply (meshes_give ev (fun _ => sel) val [0]); [apply NoDup_singleton|intros k k' i j [<-|[]] [<-|[]]; reflexivity|].
  intros i Hi. destruct (next_event id ids c i (ctxs i) kScatter (H_members i Hi)) as (ctx & E & M). unfold Scatter. rewrite E. fold after in M. rewrite (self_test i ctx root M).
  set (ms := mesh n ev sel val).
  assert (K : forall d, d < n -> d <> root -> In (MkMsg root d ev (nth d (x root) [])) ms) by (intros d Hd N; apply (mesh_msg ev sel val); [exact Hr|exact Hd|unfold sel; rewrite Nat.eqb_refl, Nat.eqb_sym; now rewrite (proj2 (Nat.eqb_neq d root) N)]).
  destruct (Nat.eqb_spec i root) as [->|N].
  - assert (W : WorldSize ctx = Z.of_nat n) by (unfold WorldSize; destruct M as (_ & -> & _); reflexivity). rewrite W, Hx, Z.eqb_refl.
    destruct (tells_send_all ms root ctx ev (fun j => nth j (x root) []) Hi M) as (ctx1 & T1 & M1); [intros j Hj N; now apply K|].
    exists (nth root (x root) [], ctx1). split; [|split; [reflexivity|exact M1]]. apply one_round. fold ms. unfold round_acts, ms. rewrite mesh_send, mesh_recv by exact Hi.
    rewrite (flat_map_none (fun i => if sel i root then _ else _)) by (intros j _; unfold sel; now destruct (j =? root)).
    rewrite (flat_map_ext _ (fun j => if root =? j then [] else [ASend j ev])) by (intros j; unfold sel; rewrite Nat.eqb_refl; now destruct (root =? j)). eapply tells_bind; [exact T1|]. rewrite Nat2Z.id. apply tells_done.
  - destruct (tells_recv ms id ids after i ctx root ev (nth i (x root) []) M Hr) as (ctx1 & T1 & M1); [congruence|now apply K|].
    exists (nth i (x root) [], ctx1). split; [|split; [reflexivity|exact M1]]. apply one_round. fold ms. unfold round_acts, ms. rewrite mesh_send, mesh_recv by exact Hi.
    rewrite flat_map_none by (intros j _; unfold sel; now rewrite (proj2 (Nat.eqb_neq i root) N)).
    rewrite (flat_map_one _ root) by (exact Hr || (intros j _ Nj; unfold sel; now rewrite (proj2 (Nat.eqb_neq j root) Nj))). cbv beta. assert (S : sel root i = true) by (unfold sel; rewrite Nat.eqb_refl, Nat.eqb_sym; now rewrite (proj2 (Nat.eqb_neq i root) N)). rewrite S. exact T1.
Qed.
End Calls.

(** ** Ranks around the ring *)

Lemma mod_once a n : a < 2 * n -> a mod n = if a <? n then a else a - n.
Proof.
  intros H. destruct (Nat.ltb_spec a n) as [L|L]; [now apply Nat.mod_small|]. symmetry. apply (Nat.mod_unique a n 1 (a - n)); lia.
Qed.

Lemma pow2_Z k : (2 ^ Z.of_nat k)%Z = Z.of_nat (2 ^ k).
Proof. now rewrite Nat2Z.inj_pow. Qed.

Section Ring.
Variables (id : list Z) (ids : list (list Z)) (c : Z) (i : nat) (ctx : Context).
Let n := length ids.
Hypothesis H_size : (Z.of_nat n <= 2 ^ 63)%Z.
Hypothesis M : member id ids c i ctx.
Hypothesis Hi : i < n.

Lemma world : WorldSize ctx = Z.of_nat n.
Proof. unfold WorldSize. destruct M as (_ & -> & _). reflexivity. Qed.

Lemma next_rank s : s <= n -> NextRank ctx (Z.of_nat s) = Z.of_nat ((i + s) mod n).
Proof.
  intros Hs. unfold NextRank. rewrite world. destruct M as (_ & _ & -> & _). rewrite <- Nat2Z.inj_add, u64_small by lia. now rewrite Nat2Z.inj_mod.
Qed.
Lemma prev_rank s : s <= n -> PrevRank ctx (Z.of_nat s) = Z.of_nat ((i + n - s) mod n).
Proof.
  intros Hs. unfold PrevRank. rewrite world. destruct M as (_ & _ & -> & _). unfold u64, uwrap. rewrite Zplus_mod_idemp_l, (Z.mod_small (Z.of_nat i - _ + _)) by lia.
  rewrite Nat2Z.inj_mod. f_equal. lia.
Qed.
Lemma ring_offset root : root < n -> RingOffset (Z.of_nat root) (rank_ ctx) (WorldSize ctx) = Z.of_nat ((i + n - root) mod n).
Proof.
  intros Hr. unfold RingOffset. rewrite world. destruct M as (_ & _ & -> & _). unfold u64, uwrap. rewrite Zplus_mod_idemp_l, (Z.mod_small (Z.of_nat i - _ + _)) by lia.
  rewrite Nat2Z.inj_mod. f_equal. lia.
Qed.
End Ring.

(** ** Multiples of powers of two *)

Lemma mod_pow_succ v k : v mod 2 ^ (k + 1) = v mod 2 ^ k + 2 ^ k * ((v / 2 ^ k) mod 2).
Proof. rewrite Nat.add_1_r, Nat.pow_succ_r', Nat.mul_comm. apply Nat.Div0.mod_mul_r. Qed.

Lemma mod_down v k : v mod 2 ^ (k + 1) = 0 -> v mod 2 ^ k = 0.
Proof. rewrite mod_pow_succ. lia. Qed.

Lemma mod_half v k : v mod 2 ^ k = 0 -> v mod 2 ^ (k + 1) <> 0 -> v mod 2 ^ (k + 1) = 2 ^ k.
Proof. rewrite mod_pow_succ. intros -> H. pose proof (Nat.mod_upper_bound (v / 2 ^ k) 2 ltac:(lia)). destruct ((v / 2 ^ k) mod 2) as [|[|q]]; lia. Qed.

Lemma pow_pos k : 0 < 2 ^ k.
Proof. induction k; cbn; lia. Qed.
Lemma pow_S k : 2 ^ (k + 1) = 2 * 2 ^ k.
Proof. now rewrite Nat.add_1_r, Nat.pow_succ_r'. Qed.

Lemma mod_sub_half v k : v mod 2 ^ (k + 1) = 2 ^ k -> 2 ^ k <= v /\ (v - 2 ^ k) mod 2 ^ (k + 1) = 0.
Proof.
  intros E. pose proof (pow_pos k). pose proof (Nat.div_mod_eq v (2 ^ (k + 1))) as D. split; [lia|].
  replace (v - 2 ^ k) with (v / 2 ^ (k + 1) * 2 ^ (k + 1)) by lia. apply Nat.Div0.mod_mul.
Qed.

Lemma mod_add_half v k : v mod 2 ^ (k + 1) = 0 -> (v + 2 ^ k) mod 2 ^ (k + 1) = 2 ^ k.
Proof. intros E. pose proof (pow_pos k). rewrite <- Nat.Div0.add_mod_idemp_l, E. cbn [plus]. apply Nat.mod_small. rewrite pow_S. lia. Qed.

Lemma rounds_acts_map (f : nat -> round) ks i : rounds_acts (map f ks) i = flat_map (fun k => round_acts i (f k)) ks.
Proof. unfold rounds_acts. induction ks as [|k ks IH]; [reflexivity|]. cbn. now rewrite IH. Qed.

Lemma round_incl n ev (sel : nat -> nat -> nat -> bool) val ks k : In k ks -> incl (mesh n ev (sel k) val) (concat (map (fun k => mesh n ev (sel k) val) ks)).
Proof. intros H m Hm. apply in_concat. exists (mesh n ev (sel k) val). split; [apply in_map_iff; now exists k|exact Hm]. Qed.

(** ** Broadcast *)

Section Broadcast.
Variables (id : list Z) (ids : list (list Z)) (c : Z) (ctxs : nat -> Context).
Let n := length ids.
Hypothesis H_size : (Z.of_nat n <= 2 ^ 63)%Z.
Hypothesis H_members : forall i, i < n -> member id ids c i (ctxs i).
Let after := u64 (c + 1).
Variables (x : nat -> list Z) (root : nat).
Hypothesis H_root : root < n.

Definition vr (i : nat) : nat := (i + n - root) mod n.
Definition bsel (k i j : nat) : bool := (vr i mod 2 ^ (k + 1) =? 0) && (vr j =? vr i + 2 ^ k).
Let L := S (Z.to_nat (Z.log2 (Z.of_nat n))).

Lemma vr_cases i : i < n -> vr i = if root <=? i then i - root else i + n - root.
Proof. intros Hi. unfold vr. rewrite mod_once by lia. destruct (Nat.leb_spec root i), (Nat.ltb_spec (i + n - root) n); lia. Qed.
Lemma vr_lt i : i < n -> vr i < n.
Proof. intros Hi. unfold vr. apply Nat.mod_upper_bound. lia. Qed.
Lemma vr_inj i j : i < n -> j < n -> vr i = vr j -> i = j.
Proof. intros Hi Hj. rewrite !vr_cases by assumption. destruct (Nat.leb_spec root i), (Nat.leb_spec root j); lia. Qed.
Lemma vr_next i s : i < n -> s <= n -> vr i + s < n -> vr ((i + s) mod n) = vr i + s.
Proof.
  intros Hi Hs H. pose proof (mod_once (i + s) n ltac:(lia)) as E. set (j := (i + s) mod n) in *. pose proof (vr_cases i Hi) as Vi.
  destruct (Nat.ltb_spec (i + s) n), (Nat.leb_spec root i); rewrite (vr_cases j) by lia; destruct (Nat.leb_spec root j); lia.
Qed.
Lemma vr_prev i s : i < n -> 0 < s <= vr i -> vr ((i + n - s) mod n) + s = vr i.
Proof.
  intros Hi Hs. pose proof (vr_lt i Hi). pose proof (mod_once (i + n - s) n ltac:(lia)) as E. set (j := (i + n - s) mod n) in *. pose proof (vr_cases i Hi) as Vi.
  destruct (Nat.ltb_spec (i + n - s) n), (Nat.leb_spec root i); rewrite (vr_cases j) by lia; destruct (Nat.leb_spec root j); lia.
Qed.

Lemma log2_bounds : (forall k, k < L -> 2 ^ k <= n) /\ n < 2 ^ L.
Proof.
  pose proof (Z.log2_spec (Z.of_nat n) ltac:(lia)) as [H1 H2]. pose proof (Z.log2_nonneg (Z.of_nat n)). split.
  - intros k Hk. apply Nat2Z.inj_le. rewrite <- pow2_Z. etransitivity; [|exact H1]. apply Z.pow_le_mono_r; unfold L in Hk; lia.
  - apply Nat2Z.inj_lt. rewrite <- pow2_Z. unfold L. rewrite Nat2Z.inj_succ, Z2Nat.id by lia. exact H2.
Qed.

Definition brounds (ev : list Z) : list round := map (fun k => mesh n ev (bsel k) (fun _ _ => x root)) (rev (seq 0 L)).

(** One stage. *)
Lemma broadcast_stage ev i k (output : list Z) received ctx : i < n -> k < L -> member id ids after i ctx ->
  received = (vr i mod 2 ^ (k + 1) =? 0) -> (received = true -> output = x root) ->
  exists output' ctx', tells (concat (brounds ev)) i (round_acts i (mesh n ev (bsel k) (fun _ _ => x root)))
    (let stride := (2 ^ Z.of_nat k)%Z in
     if negb received then
        if negb (Z.of_nat (vr i) mod stride =? 0)%Z then Done (output, received, ctx)
        else do (v, ctx) <- RecvInternal (PrevRank ctx stride) ev ctx; Done (v, true, ctx)
      else if (Z.of_nat (vr i) + stride <? WorldSize ctx)%Z then
        do ctx <- SendAsyncInternal (NextRank ctx stride) ev output ctx; Done (output, received, ctx)
      else Done (output, received, ctx)) (output', vr i mod 2 ^ k =? 0, ctx') /\
    (vr i mod 2 ^ k = 0 -> output' = x root) /\ member id ids after i ctx'.
Proof.
  intros Hi Hk M -> HO. set (ms := concat (brounds ev)). pose proof (pow_pos k) as Pk. pose proof (proj1 log2_bounds k Hk) as Hn. cbv zeta. rewrite pow2_Z.
  assert (IN : incl (mesh n ev (bsel k) (fun _ _ => x root)) ms) by (apply (round_incl n ev bsel (fun _ _ => x root)); rewrite <- in_rev; apply in_seq; lia).
  unfold round_acts. rewrite mesh_send, mesh_recv by exact Hi. rewrite <- Nat2Z.inj_mod. change 0%Z with (Z.of_nat 0).
  assert (TZ : forall a b, (Z.of_nat a =? Z.of_nat b)%Z = (a =? b)) by (intros a b; destruct (Nat.eqb_spec a b) as [->|Ne]; [apply Z.eqb_refl|apply Z.eqb_neq; lia]). rewrite TZ.
  destruct (Nat.eqb_spec (vr i mod 2 ^ (k + 1)) 0) as [E|E]; cbn [negb].
  - (* has the value: sends to its child, when there is one *)
    assert (NR : forall s, bsel k s i = false).
    { intros s. unfold bsel. destruct (Nat.eqb_spec (vr s mod 2 ^ (k + 1)) 0) as [Es|]; [|reflexivity]. destruct (Nat.eqb_spec (vr i) (vr s + 2 ^ k)) as [F|]; [|reflexivity].
      apply mod_add_half in Es. rewrite <- F in Es. lia. }
    rewrite (flat_map_none (fun s => if bsel k s i then _ else _)) by (intros s _; now rewrite NR). rewrite (mod_down _ _ E), app_nil_r. rewrite (world id ids after i ctx M), <- Nat2Z.inj_add.
    replace (Z.of_nat (vr i + 2 ^ k) <? Z.of_nat (length ids))%Z with (vr i + 2 ^ k <? n) by (unfold n; destruct (Nat.ltb_spec (vr i + 2 ^ k) (length ids)); destruct (Z.ltb_spec (Z.of_nat (vr i + 2 ^ k)) (Z.of_nat (length ids))); lia).
    destruct (Nat.ltb_spec (vr i + 2 ^ k) n) as [Hc|Hc].
    + rewrite (next_rank id ids after i ctx) by (assumption || lia). fold n. set (j := (i + 2 ^ k) mod n). assert (Hj : j < n) by (apply Nat.mod_upper_bound; lia). pose proof (vr_next i (2 ^ k) Hi Hn Hc) as Vj. fold j in Vj.
      assert (S : bsel k i j = true) by (unfold bsel; now rewrite E, Vj, !Nat.eqb_refl).
      destruct (tells_send ms id ids after i ctx j ev output M Hj) as (ctx' & T & M'); [intros ->; lia|rewrite HO by reflexivity; apply IN; now apply (mesh_msg ids ev (bsel k) (fun _ _ => x root))|].
      exists output, ctx'. split; [|split; [intros _; now apply HO|exact M']]. rewrite (flat_map_one _ j).
      * rewrite S. eapply (tells_bind _ _ [_] []); [exact T|apply tells_done].
      * exact Hj.
      * intros j' Hj' N. unfold bsel. destruct (Nat.eqb_spec (vr j') (vr i + 2 ^ k)) as [F|]; [|now rewrite andb_false_r]. destruct N. apply vr_inj; [exact Hj'|exact Hj|congruence].
    + exists output, ctx. split; [|split; [intros _; now apply HO|exact M]]. rewrite flat_map_none; [apply tells_done|].
      intros j Hj. unfold bsel. destruct (Nat.eqb_spec (vr j) (vr i + 2 ^ k)) as [F|]; [|now rewrite andb_false_r]. pose proof (vr_lt j Hj). lia.
  - rewrite (flat_map_none (fun j => if bsel k i j then _ else _)) by (intros j _; unfold bsel; now rewrite (proj2 (Nat.eqb_neq _ 0) E)). cbn [app].
    destruct (Nat.eqb_spec (vr i mod 2 ^ k) 0) as [F|F]; cbn [negb].
    + (* its turn: the parent sends *)
      destruct (mod_sub_half _ _ (mod_half _ _ F E)) as [Hle Hm]. rewrite (prev_rank id ids after i ctx) by (assumption || lia). fold n. set (s := (i + n - 2 ^ k) mod n). assert (Hs : s < n) by (apply Nat.mod_upper_bound; lia).
      pose proof (vr_prev i (2 ^ k) Hi (conj Pk Hle)) as Vs. fold s in Vs. assert (S : bsel k s i = true) by (unfold bsel; replace (vr s) with (vr i - 2 ^ k) by lia; rewrite Hm; cbn; apply Nat.eqb_eq; lia).
      destruct (tells_recv ms id ids after i ctx s ev (x root) M Hs) as (ctx' & T & M'); [intros ->; lia|apply IN; now apply (mesh_msg ids ev (bsel k) (fun _ _ => x root))|].
      exists (x root), ctx'. split; [|split; [reflexivity|exact M']]. rewrite (flat_map_one _ s).
      * rewrite S. eapply (tells_bind _ _ [_] []); [exact T|apply tells_done].
      * exact Hs.
      * intros s' Hs' N. unfold bsel. destruct (Nat.eqb_spec (vr i) (vr s' + 2 ^ k)) as [G|]; [|now rewrite andb_false_r]. destruct N. apply vr_inj; [exact Hs'|exact Hs|lia].
    + exists output, ctx. split; [|split; [lia|exact M]]. rewrite flat_map_none; [apply tells_done|].
      intros s Hs. unfold bsel. destruct (Nat.eqb_spec (vr s mod 2 ^ (k + 1)) 0) as [Es|]; [|reflexivity]. destruct (Nat.eqb_spec (vr i) (vr s + 2 ^ k)) as [G|]; [|reflexivity].
      apply mod_add_half in Es. rewrite <- G in Es. pose proof (mod_pow_succ (vr i) k) as D. rewrite Es in D. pose proof (Nat.mod_upper_bound (vr i) (2 ^ k) ltac:(lia)). destruct ((vr i / 2 ^ k) mod 2) as [|q]; lia.
Qed.

Lemma broadcast_gives : gives (map (fun i => Broadcast (x i) (Z.of_nat root) (ctxs i)) (seq 0 n)) (fun i r => fst r = x root /\ member id ids after i (snd r)).
Proof.
  set (ev := event_of id c kBcast). apply (meshes_give ids ev bsel (fun _ _ => x root) (rev (seq 0 L))).
  - apply NoDup_ListNoDup, NoDup_rev, seq_NoDup.
  - intros k k' i j _ _ _ _. unfold bsel. rewrite !andb_true_iff, !Nat.eqb_eq. intros [_ E] [_ E']. apply (Nat.pow_inj_r 2); lia.
  - intros i Hi. destruct (next_event id ids c i (ctxs i) kBcast (H_members i Hi)) as (ctx & E & M). unfold Broadcast. rewrite E. cbv zeta. rewrite (ring_offset id ids after i ctx H_size M Hi root H_root). fold n. fold (vr i). rewrite (world id ids after i ctx M). fold n.
    destruct (tells_down (concat (brounds ev)) i (fun k => round_acts i (mesh n ev (bsel k) (fun _ _ => x root))) (fun k '(output, received, ctx) =>
      let stride := (2 ^ Z.of_nat k)%Z in
      if negb received then
        if negb (Z.of_nat (vr i) mod stride =? 0)%Z then Done (output, received, ctx)
        else do (v, ctx) <- RecvInternal (PrevRank ctx stride) ev ctx; Done (v, true, ctx)
      else if (Z.of_nat (vr i) + stride <? WorldSize ctx)%Z then
        do ctx <- SendAsyncInternal (NextRank ctx stride) ev output ctx; Done (output, received, ctx)
      else Done (output, received, ctx))
      (fun k s => snd (fst s) = (vr i mod 2 ^ k =? 0) /\ (snd (fst s) = true -> fst (fst s) = x root) /\ member id ids after i (snd s)) L (x i, (Z.of_nat (vr i) =? 0)%Z, ctx)) as ([[output received] ctx'] & T & (R & O & M')).
    + intros k [[output received] s] Hk (R & O & Ms). cbn [fst snd] in *. destruct (broadcast_stage ev i k output received s Hi Hk Ms R O) as (output' & ctx' & T & O' & M').
      exists (output', vr i mod 2 ^ k =? 0, ctx'). split; [exact T|]. cbn [fst snd]. split; [reflexivity|]. split; [|exact M']. intros F. now apply O', Nat.eqb_eq.
    + cbn [fst snd]. pose proof (vr_lt i Hi) as V. pose proof (proj2 log2_bounds) as B. split; [rewrite Nat.mod_small by lia; destruct (Nat.eqb_spec (vr i) 0) as [->|N]; [reflexivity|apply Z.eqb_neq; lia]|].
      split; [|exact M]. intros F. apply Z.eqb_eq in F. assert (i = root) as ->; [|reflexivity]. apply vr_inj; [exact Hi|exact H_root|]. rewrite (vr_cases root H_root), Nat.leb_refl. lia.
    + cbn [fst snd] in *. rewrite Nat.mod_1_r in R. cbn in R. exists (output, ctx'). split; [|split; [now apply O|exact M']].
      intros T' K. change (map (fun k => mesh n ev (bsel k) (fun _ _ => x root)) (rev (seq 0 L))) with (brounds ev) in *. unfold brounds at 1. rewrite rounds_acts_map. rewrite <- (app_nil_r (flat_map _ _)). fold ev. eapply follows_bind; [exact (T T' K)|]. constructor.
Qed.
End Broadcast.

(** ** Barrier *)

(** Actions that follow from the program alone. *)
Lemma follows_det {A} T i l l' (p : prog A) a a' : follows T i l p a -> follows T i l' p a' -> l = l'.
Proof.
  intros F; revert l'; induction F as [a|d key v l k a H F IH|s key v l k a H F IH]; intros l' G; inversion G; subst; [reflexivity| |].
  - f_equal. now apply IH.
  - f_equal. apply IH. match goal with E : T _ _ _ = Some _ |- _ => rewrite E in H; injection H as -> end. assumption.
Qed.

Section Barrier.
Variables (id : list Z) (ids : list (list Z)) (c : Z) (ctxs : nat -> Context).
Let n := length ids.
Hypothesis H_size : (Z.of_nat n <= 2 ^ 63)%Z.
Hypothesis H_members : forall i, i < n -> member id ids c i (ctxs i).
Let after := u64 (c + 1).
Let L := Z.to_nat (Z.log2_up (Z.of_nat n)).
Let ev := event_of id c kBarrier.

Definition rsel (k i j : nat) : bool := j =? (i + 2 ^ k) mod n.
Definition barrier_rounds : list round := map (fun k => mesh n ev (rsel k) (fun _ _ => [])) (seq 0 L).

Lemma log2_up_bounds : 0 < n -> (forall k, k < L -> 2 ^ k < n) /\ n <= 2 ^ L.
Proof.
  intros Hn. destruct (Z.eq_dec (Z.of_nat n) 1%Z) as [E|E]; [assert (EL : L = 0) by (unfold L; now rewrite E); rewrite EL; change (2 ^ 0) with 1; split; [intros k Hk; lia|lia]|].
  pose proof (Z.log2_up_spec (Z.of_nat n) ltac:(lia)) as [H1 H2]. pose proof (Z.log2_up_pos (Z.of_nat n) ltac:(lia)). split.
  - intros k Hk. apply Nat2Z.inj_lt. rewrite <- pow2_Z. eapply Z.le_lt_trans; [|exact H1]. apply Z.pow_le_mono_r; unfold L in Hk; lia.
  - apply Nat2Z.inj_le. rewrite <- pow2_Z. unfold L. rewrite Z2Nat.id by lia. exact H2.
Qed.

Lemma ring_inv i j s : i < n -> j < n -> s < n -> j = (i + s) mod n <-> i = (j + n - s) mod n.
Proof. intros Hi Hj Hs. rewrite !mod_once by lia. destruct (Nat.ltb_spec (i + s) n), (Nat.ltb_spec (j + n - s) n); lia. Qed.

Lemma ring_move i s : i < n -> 0 < s < n -> (i + s) mod n <> i /\ (i + n - s) mod n <> i /\ (i + s) mod n < n /\ (i + n - s) mod n < n.
Proof. intros Hi Hs. rewrite !mod_once by lia. destruct (Nat.ltb_spec (i + s) n), (Nat.ltb_spec (i + n - s) n); lia. Qed.

Lemma barrier_round_acts i k : i < n -> k < L -> round_acts i (mesh n ev (rsel k) (fun _ _ => [])) = [ASend ((i + 2 ^ k) mod n) ev; ARecv ((i + n - 2 ^ k) mod n) ev].
Proof.
  intros Hi Hk. pose proof (proj1 (log2_up_bounds ltac:(lia)) k Hk) as B. pose proof (pow_pos k). pose proof (ring_move i (2 ^ k) Hi ltac:(lia)) as (_ & _ & B1 & B2). unfold round_acts. rewrite mesh_send, mesh_recv by exact Hi.
  rewrite (flat_map_one _ ((i + 2 ^ k) mod n)), (flat_map_one (fun s => if rsel k s i then _ else _) ((i + n - 2 ^ k) mod n)).
  - unfold rsel. rewrite Nat.eqb_refl. rewrite (proj2 (Nat.eqb_eq _ _)); [reflexivity|]. now apply ring_inv.
  - exact B2.
  - intros s Hs N. unfold rsel. destruct (Nat.eqb_spec i ((s + 2 ^ k) mod n)) as [E|]; [|reflexivity]. destruct N. now apply ring_inv.
  - exact B1.
  - intros j Hj N. unfold rsel. now rewrite (proj2 (Nat.eqb_neq j _) N).
Qed.

Lemma barrier_talks i : i < n -> exists ctx', talks barrier_rounds i (Barrier (ctxs i)) ctx' /\ member id ids after i ctx'.
Proof.
  intros Hi. destruct (next_event id ids c i (ctxs i) kBarrier (H_members i Hi)) as (ctx & E & M). unfold Barrier. rewrite E. cbv zeta. rewrite (world id ids after i ctx M). fold n. fold L. fold ev.
  destruct (tells_up (concat barrier_rounds) i (fun k => round_acts i (mesh n ev (rsel k) (fun _ _ => []))) (fun k ctx =>
      let offset := (2 ^ Z.of_nat k)%Z in
      let recv_rank := PrevRank ctx offset in
      let send_rank := NextRank ctx offset in
      do ctx <- SendAsyncInternal send_rank ev [] ctx;
      do (_, ctx) <- RecvInternal recv_rank ev ctx; Done ctx) (fun _ => member id ids after i) L 0 ctx) as (ctx' & T & M').
  - intros k s Hk Ms. cbn [plus] in Hk. cbv zeta. pose proof (proj1 (log2_up_bounds ltac:(lia)) k ltac:(lia)) as B. pose proof (pow_pos k). pose proof (ring_move i (2 ^ k) Hi ltac:(lia)) as (N1 & N2 & B1 & B2).
    rewrite pow2_Z, (next_rank id ids after i s), (prev_rank id ids after i s) by (assumption || lia). fold n. rewrite barrier_round_acts by lia.
    assert (IN : incl (mesh n ev (rsel k) (fun _ _ => [])) (concat barrier_rounds)) by (apply (round_incl n ev rsel (fun _ _ => [])); apply in_seq; lia).
    destruct (tells_send (concat barrier_rounds) id ids after i s ((i + 2 ^ k) mod n) ev [] Ms B1 N1) as (s1 & T1 & M1); [apply IN, (mesh_msg ids ev (rsel k) (fun _ _ => [])); [exact Hi|exact B1|apply Nat.eqb_refl]|].
    destruct (tells_recv (concat barrier_rounds) id ids after i s1 ((i + n - 2 ^ k) mod n) ev [] M1 B2 N2) as (s2 & T2 & M2); [apply IN, (mesh_msg ids ev (rsel k) (fun _ _ => [])); [exact B2|exact Hi|now apply Nat.eqb_eq, ring_inv]|].
    exists s2. split; [|exact M2]. eapply (tells_bind _ _ [_] [_]); [exact T1|]. eapply (tells_bind _ _ [_] []); [exact T2|apply tells_done].
  - exact M.
  - exists ctx'. split; [|exact M']. intros T' K. unfold barrier_rounds at 1. rewrite rounds_acts_map. exact (T T' K).
Qed.

Lemma rsel_once k k' i j : k < L -> k' < L -> i < n -> j < n -> rsel k i j = true -> rsel k' i j = true -> k = k'.
Proof.
  intros Hk Hk' Hi Hj. unfold rsel. rewrite !Nat.eqb_eq. intros -> E. pose proof (proj1 (log2_up_bounds ltac:(lia)) k Hk). pose proof (proj1 (log2_up_bounds ltac:(lia)) k' Hk').
  apply (Nat.pow_inj_r 2); [lia|]. rewrite !mod_once in E by lia. destruct (Nat.ltb_spec (i + 2 ^ k) n), (Nat.ltb_spec (i + 2 ^ k') n); lia.
Qed.

Lemma barrier_gives : gives (map (fun i => Barrier (ctxs i)) (seq 0 n)) (fun i ctx => member id ids after i ctx).
Proof.
  apply (meshes_give ids ev rsel (fun _ _ => []) (seq 0 L)).
  - apply NoDup_ListNoDup, seq_NoDup.
  - intros k k' i j Hk Hk'. apply in_seq in Hk, Hk'. apply rsel_once; lia.
  - exact barrier_talks.
Qed.

(** Who is past the first [r] rounds. *)
Section Inside.
Variables (res : nat -> Context) (rem : nat -> list act) (st : parties Context).
Hypothesis I : run_inv (value_of (concat barrier_rounds)) (rounds_acts barrier_rounds) res n rem st.
Definition gone (i : nat) (a : act) : Prop := ~ In a (rem i).

Lemma acts_of i : i < n -> rounds_acts barrier_rounds i = flat_map (fun k => [ASend ((i + 2 ^ k) mod n) ev; ARecv ((i + n - 2 ^ k) mod n) ev]) (seq 0 L).
Proof.
  intros Hi. unfold barrier_rounds. rewrite rounds_acts_map. assert (G : forall l, (forall k, In k l -> k < L) -> flat_map (fun k => round_acts i (mesh n ev (rsel k) (fun _ _ => []))) l = flat_map (fun k => [ASend ((i + 2 ^ k) mod n) ev; ARecv ((i + n - 2 ^ k) mod n) ev]) l).
  { induction l as [|k l IH]; intros Hl; [reflexivity|]. cbn [flat_map]. rewrite barrier_round_acts by (try exact Hi; apply Hl; now left). f_equal. apply IH. intros k' Hk'. apply Hl. now right. }
  apply G. intros k Hk. apply in_seq in Hk. lia.
Qed.

(** What is before something that is gone is gone. *)
Lemma gone_before i l1 a l2 b : i < n -> rounds_acts barrier_rounds i = l1 ++ a :: l2 -> In b l1 -> gone i a -> gone i b.
Proof.
  intros Hi E Hb G Hr. destruct (ri_suffix _ _ _ _ _ _ I i Hi) as [pre F].
  assert (N : NoDup (rounds_acts barrier_rounds i)).
  { apply acts_nodup. apply meshes_nodup; [apply NoDup_ListNoDup, seq_NoDup|]. intros k k' x y Hk Hk'. apply in_seq in Hk, Hk'. apply rsel_once; lia. }
  assert (Ha : In a pre) by (assert (X : In a (pre ++ rem i)) by (rewrite <- F, E; apply in_app_iff; right; now left); apply in_app_iff in X as [X|X]; [exact X|contradiction]).
  apply in_split in Ha as (p1 & p2 & ->). rewrite E in F, N. rewrite <- app_assoc in F. cbn in F. apply NoDup_ListNoDup in N.
  assert (EQ : l1 = p1 /\ l2 = p2 ++ rem i).
  { clear - F N. revert p1 F. induction l1 as [|x l1 IH]; intros [|y p1] F; cbn in *.
    - injection F as F. now split.
    - injection F as <- F. apply NoDup_cons_iff in N as [X _]. destruct X. rewrite F. apply in_app_iff. right. now left.
    - injection F as -> F. apply NoDup_cons_iff in N as [X _]. destruct X. apply in_app_iff. right. now left.
    - injection F as -> F. apply NoDup_cons_iff in N as [_ N]. destruct (IH N p1 F) as [-> ->]. now split. }
  destruct EQ as [-> ->]. apply in_split in Hb as (q1 & q2 & ->). rewrite <- app_assoc in N. cbn in N. apply NoDup_remove_2 in N. apply N. rewrite !in_app_iff. cbn. rewrite in_app_iff. tauto.
Qed.

Lemma round_split i k : i < n -> k < L -> exists l2, rounds_acts barrier_rounds i =
  flat_map (fun k => [ASend ((i + 2 ^ k) mod n) ev; ARecv ((i + n - 2 ^ k) mod n) ev]) (seq 0 k) ++ ASend ((i + 2 ^ k) mod n) ev :: ARecv ((i + n - 2 ^ k) mod n) ev :: l2.
Proof.
  intros Hi Hk. eexists. rewrite acts_of by exact Hi. replace L with (k + (1 + (L - k - 1))) by lia. rewrite seq_app, flat_map_app. reflexivity.
Qed.

Definition past (r i : nat) : Prop := forall k, k < r -> gone i (ASend ((i + 2 ^ k) mod n) ev) /\ gone i (ARecv ((i + n - 2 ^ k) mod n) ev).

Lemma send_past i k : i < n -> k < L -> gone i (ASend ((i + 2 ^ k) mod n) ev) -> past k i.
Proof.
  intros Hi Hk G k' Hk'. destruct (round_split i k Hi Hk) as (l2 & E). split; (eapply gone_before; [exact Hi|exact E| |exact G]); apply in_flat_map; exists k'; (split; [apply in_seq; lia|]); [now left|right; now left].
Qed.

Lemma past_all r : r <= L -> forall j, j < n -> past r j -> forall d, 1 <= d < 2 ^ r -> d < n -> gone ((j + n - d) mod n) (ASend (((j + n - d) mod n + 2 ^ 0) mod n) ev).
Proof.
  induction r as [|r IH]; intros Hr j Hj P d Hd Hdn; [cbn in Hd; lia|]. pose proof (proj1 (log2_up_bounds ltac:(lia)) r ltac:(lia)) as B. pose proof (pow_pos r). rewrite Nat.pow_succ_r' in Hd.
  destruct (Nat.lt_ge_cases d (2 ^ r)) as [C|C]; [apply IH; try lia; intros k Hk; apply P; lia|].
  destruct (P r ltac:(lia)) as [_ G]. destruct (ring_move j (2 ^ r) Hj ltac:(lia)) as (_ & N2 & _ & B2). set (s := (j + n - 2 ^ r) mod n) in *.
  assert (Ej : (s + 2 ^ r) mod n = j) by (symmetry; now apply ring_inv).
  assert (HA : In (ARecv s ev) (rounds_acts barrier_rounds j)) by (destruct (round_split j r Hj ltac:(lia)) as (l2 & ->); apply in_app_iff; right; right; now left).
  pose proof (ri_sent _ _ _ _ _ _ I j s ev Hj HA G) as GS. rewrite <- Ej in GS. pose proof (send_past s r B2 ltac:(lia) GS) as PS.
  destruct (Nat.eq_dec d (2 ^ r)) as [->|Nd].
  - fold s. destruct r as [|r]; [exact GS|]. apply (PS 0). lia.
  - replace ((j + n - d) mod n) with ((s + n - (d - 2 ^ r)) mod n); [apply IH; (assumption || lia)|].
    pose proof (mod_once (j + n - 2 ^ r) n ltac:(lia)) as Es. fold s in Es. rewrite (mod_once (s + n - (d - 2 ^ r))), (mod_once (j + n - d)) by lia.
    destruct (Nat.ltb_spec (j + n - 2 ^ r) n), (Nat.ltb_spec (s + n - (d - 2 ^ r)) n), (Nat.ltb_spec (j + n - d) n); lia.
Qed.
End Inside.

(** When a party has left the barrier, every party has entered it. *)
Lemma barrier_safe k st j a : 2 <= n -> steps k (start (map (fun i => Barrier (ctxs i)) (seq 0 n))) st -> nth_error (progs st) j = Some (Done a) ->
  forall i, i < n -> nth_error (progs st) i <> Some (Barrier (ctxs i)).
Proof.
  intros Hn S Ej i Hi Ei. destruct (choose (fun i ctx' => talks barrier_rounds i (Barrier (ctxs i)) ctx') n 0) as (res & Lr & Hres); [intros x Hx; destruct (barrier_talks x ltac:(lia)) as (ctx' & T & _); now exists ctx'|]. cbn in Hres.
  assert (P : protocol (value_of (concat barrier_rounds)) (rounds_acts barrier_rounds) (fun i => nth i res (ctxs 0)) (round_of barrier_rounds) n (map (fun i => Barrier (ctxs i)) (seq 0 n))).
  { apply rounds_protocol.
    - apply meshes_nodup; [apply NoDup_ListNoDup, seq_NoDup|]. intros x y u v Hx Hy. apply in_seq in Hx, Hy. apply rsel_once; lia.
    - intros m. apply meshes_ranks.
    - now rewrite length_map, length_seq.
    - intros x p Ex. rewrite nth_error_map in Ex. destruct (Nat.lt_ge_cases x n) as [Hx|Hx]; [|rewrite (proj2 (nth_error_None _ _)) in Ex by (rewrite length_seq; exact Hx); discriminate].
      rewrite (nth_error_nth' _ 0) in Ex by (rewrite length_seq; exact Hx). rewrite seq_nth in Ex by exact Hx. cbn in Ex. injection Ex as <-. apply Hres, nth_error_nth'. lia. }
  destruct (steps_inv _ _ _ _ _ _ P k st S) as (rem & I & _). assert (Hj : j < n) by (rewrite <- (ri_length _ _ _ _ _ _ I); apply nth_error_Some; congruence).
  pose proof (ri_follows _ _ _ _ _ _ I j _ Ej) as Fj. inversion Fj as [a' E1 E2 E3| |]; subst.
  pose proof (ri_follows _ _ _ _ _ _ I i _ Ei) as Fi. pose proof (pr_follows _ _ _ _ _ _ P i (Barrier (ctxs i))) as F0. rewrite nth_error_map, (nth_error_nth' _ 0) in F0 by (rewrite length_seq; exact Hi). rewrite seq_nth in F0 by exact Hi. specialize (F0 eq_refl).
  pose proof (follows_det _ _ _ _ _ _ _ Fi F0) as ER. pose proof (log2_up_bounds ltac:(lia)) as [_ B]. assert (HL : 0 < L) by (destruct L; [cbn in B; lia|lia]).
  assert (IN : In (ASend ((i + 2 ^ 0) mod n) ev) (rem i)) by (rewrite ER; destruct (round_split i 0 Hi HL) as (l2 & ->); now left).
  assert (NJ : rem j = []) by congruence. destruct (Nat.eq_dec i j) as [->|N]; [now rewrite NJ in IN|].
  set (d := (j + n - i) mod n). assert (D : (if j + n - i <? n then j + n - i else j + n - i - n) = d) by (unfold d; now rewrite mod_once by lia).
  assert (Ed : (j + n - d) mod n = i) by (rewrite mod_once by lia; destruct (Nat.ltb_spec (j + n - i) n), (Nat.ltb_spec (j + n - d) n); lia).
  assert (PJ : past rem L j) by (intros k' _; unfold gone; now rewrite NJ).
  pose proof (past_all _ rem st I L (le_n L) j Hj PJ d) as G.
  rewrite Ed in G. apply G; [|destruct (Nat.ltb_spec (j + n - i) n); lia|exact IN]. destruct (Nat.ltb_spec (j + n - i) n); lia.
Qed.
End Barrier.
