(* ===== verification/OtKernel.v ===== *)
(** Random transfers of the kernel ([mpc/ot_kernel.cc]): correlated transfers in
    compact stores are hashed into random ones in normal stores.  The correlated
    transfers are an interface, which [FerretKernel.v] implements. *)
From Stdlib Require Import ZArith Lia List Bool.
From S2P Require Import Prelude.
From S2P Require Import Errors.
From S2P Require Import Int128.
From S2P Require Import Bitset.
From S2P Require Import BitsetOps.
From S2P Require Import Cipher.
From S2P Require Import CrHash.
From S2P Require Import OtStore.
From S2P Require Import OtExt.
From S2P Require Import Parties.
From S2P Require Import Context.
Import ListNotations.
#[local] Open Scope Z_scope.

(** A kernel after [init]; and what [eval_cot_random_choice] leaves in the store of a
    party: the sender's blocks and difference, the receiver's blocks. *)
Class CotKernel := {
  kernel : Type;
  kernel_init : bool -> Context -> prog (kernel * Context);
  eval_cot_send : kernel -> Context -> Z -> prog (list Z * Z * Context);
  eval_cot_recv : kernel -> Context -> Z -> prog (list Z * Context)
}.

Section Code.
Context {C : Cipher} {K : CotKernel}.

Definition cot2rot_send_step (cot rot : OtSendStore) (h : heap) (i : nat) : option heap :=
  let? b0 := send_GetBlock h cot (Z.of_nat i) 0 in
  let? c0 := CrHash_128 b0 in
  let? h := send_SetNormalBlock h rot (Z.of_nat i) 0 c0 in
  let? b1 := send_GetBlock h cot (Z.of_nat i) 1 in
  let? c1 := CrHash_128 b1 in
  send_SetNormalBlock h rot (Z.of_nat i) 1 c1.
Definition naive_cot2rot_send (h : heap) (cot rot : OtSendStore) : option heap :=
  YACL_ENFORCE (send_Size cot =? send_Size rot)
    (YACL_ENFORCE (is_compact (s_type cot))
      (YACL_ENFORCE (negb (is_compact (s_type rot)))
        (let ot_num := u32 (send_Size cot) in
         foldM (cot2rot_send_step cot rot) (seq 0 (Z.to_nat ot_num)) h))).

Definition cot2rot_recv_step (cot rot : OtRecvStore) (h : heap) (i : nat) : option heap :=
  let? b := recv_GetBlock h cot (Z.of_nat i) in
  let? c := CrHash_128 b in
  recv_SetBlock h rot (Z.of_nat i) c.
Definition naive_cot2rot_recv (h : heap) (cot rot : OtRecvStore) : option (OtRecvStore * heap) :=
  let ot_num := u32 (recv_Size cot) in
  YACL_ENFORCE (is_compact (r_type cot))
    (YACL_ENFORCE (negb (is_compact (r_type rot)))
      (let? choices := recv_CopyBitBuf h cot in
       let '(rot, h) := recv_SetBitBuf h rot choices in
       let? h := foldM (cot2rot_recv_step cot rot) (seq 0 (Z.to_nat ot_num)) h in
       Some (rot, h))).

Definition eval_rot_send (h : heap) (k : kernel) (ctx : Context) (ot_num : Z) (out : OtSendStore) : prog (heap * Context) :=
  ensure ((ot_num =? send_Size out) && negb (IsSliced (s_slice out)) && negb (is_compact (s_type out)))
    (do (blocks, delta, ctx) <- eval_cot_send k ctx ot_num;
     do (cot, h) <- lift (MakeCompactOtSendStore h blocks delta);
     do h <- lift (naive_cot2rot_send h cot out);
     Done (h, ctx)).
Definition eval_rot_recv (h : heap) (k : kernel) (ctx : Context) (ot_num : Z) (out : OtRecvStore) : prog (OtRecvStore * heap * Context) :=
  ensure ((ot_num =? recv_Size out) && negb (IsSliced (r_slice out)) && negb (is_compact (r_type out)))
    (do (blocks, ctx) <- eval_cot_recv k ctx ot_num;
     do (cot, h) <- lift (MakeCompactOtRecvStore h blocks);
     do (out, h) <- lift (naive_cot2rot_recv h cot out);
     Done (out, h, ctx)).
End Code.

(** ** What the stores hold *)

Section Rot.
Context {C : Cipher} {L : CipherLaws C}.

Lemma upd_split {A} (l r : list A) x y : upd (l ++ x :: r) (length l) y = l ++ y :: r.
Proof. induction l as [|a l IH]; cbn; [reflexivity|now rewrite IH]. Qed.

Lemma get_vector_new h v p w : get_vector h p = Some w -> get_vector (fst (new_vector h v)) p = Some w.
Proof. destruct p as [p|]; [|discriminate]. cbn. apply nth_error_old. Qed.

Definition empty_send (n : nat) (p : option nat) : OtSendStore := SendStore (Slice_ 0 (2 * Z.of_nat n) 0 (2 * Z.of_nat n)) Normal 0 p.

Lemma send_store_empty_ok h n : 0 < Z.of_nat n < 2 ^ 62 ->
  send_store_empty h (Z.of_nat n) Normal = Some (empty_send n (snd (new_vector h (repeat 0 (2 * n)))), fst (new_vector h (repeat 0 (2 * n)))).
Proof.
  intros Hn. unfold send_store_empty. cbn [is_compact]. rewrite u64_id by lia. replace (Z.to_nat (Z.of_nat n * 2)) with (2 * n)%nat by lia.
  destruct (new_vector h (repeat 0 (2 * n))) as [h' p] eqn:E. apply new_vector_ok in E as [_ Hp]. cbn [fst snd]. unfold InitCtrs, send_ConsistencyCheck, YACL_ENFORCE.
  assert (Ck : send_check h' p (Slice_ 0 (Z.of_nat n * 2) 0 (Z.of_nat n * 2)) = true).
  { apply (send_check_spec _ _ _ _ Hp). cbn [internal_use_size_ internal_buf_size_ internal_buf_ctr_]. rewrite repeat_length. lia. }
  rewrite Ck. cbn [s_blk_buf s_slice]. rewrite Ck. unfold empty_send. now rewrite Z.mul_comm.
Qed.

(** Writing a block at its place in the buffer. *)
Lemma send_set_at h n p v i m x : get_vector h p = Some v -> length v = (2 * n)%nat -> (i < n)%nat -> Z.of_nat n < 2 ^ 62 -> m = 0 \/ m = 1 ->
  send_SetNormalBlock h (empty_send n p) (Z.of_nat i) m x = Some (set_vector h p (upd v (2 * i + Z.to_nat m) x)).
Proof.
  intros Hp Hl Hi Hn Hm. unfold send_SetNormalBlock, YACL_ENFORCE, empty_send, GetBufIdx, YACL_ENFORCE. cbn [s_type is_compact negb s_slice internal_use_size_ internal_use_ctr_ s_blk_buf].
  replace ((m =? 0) || (m =? 1)) with true by (destruct Hm as [-> | ->]; reflexivity). rewrite (u64_id (Z.of_nat i * 2)), u64_id by lia.
  rewrite (proj2 (Z.ltb_lt _ _)) by lia. rewrite u64_id, Hp by lia. unfold vector_set. replace (Z.to_nat (0 + (Z.of_nat i * 2 + m))) with (2 * i + Z.to_nat m)%nat by lia.
  now rewrite (proj2 (Nat.ltb_lt _ _)) by lia.
Qed.

Lemma send_get_other h p v w st i m : get_vector h p = Some w -> s_blk_buf st <> p -> send_GetBlock (set_vector h p v) st i m = send_GetBlock h st i m.
Proof.
  intros Hp N. unfold send_GetBlock. rewrite (get_set_vector h p v (s_blk_buf st) w Hp). destruct (same_buf p (s_blk_buf st)) eqn:E; [apply same_buf_spec in E; congruence|reflexivity].
Qed.

Lemma set_set_vector h p v w : set_vector (set_vector h p v) p w = set_vector h p w.
Proof.
  destruct p as [p|]; [|reflexivity]. unfold set_vector. cbn [vectors bitsets]. f_equal. generalize (vectors h) as l. revert p. induction p as [|p IH]; intros [|x l]; cbn; try reflexivity. now rewrite IH.
Qed.

Lemma cot2rot_send_ok h cot n p : send_ok h cot -> s_type cot = Compact -> send_Size cot = Z.of_nat n -> 0 < Z.of_nat n < 2 ^ 32 -> get_vector h p = Some (repeat 0 (2 * n)) -> s_blk_buf cot <> p ->
  exists h', naive_cot2rot_send h cot (empty_send n p) = Some h' /\
    forall i, (i < n)%nat -> forall m, m = 0 \/ m = 1 -> send_GetBlock h' (empty_send n p) (Z.of_nat i) m = option_map cr (send_GetBlock h cot (Z.of_nat i) m).
Proof.
  intros Ho Ht Hs Hn Hp N. set (mp := fun i => nth i (send_view h cot) (0, 0)). set (hp := fun i => (cr (fst (mp i)), cr (snd (mp i)))).
  assert (G : forall i, (i < n)%nat -> forall m, m = 0 \/ m = 1 -> send_GetBlock h cot (Z.of_nat i) m = Some (if m =? 0 then fst (mp i) else snd (mp i))).
  { intros i Hi m Hm. rewrite send_GetBlock_ok by (assumption || lia). replace ((m =? 0) || (m =? 1)) with true by (destruct Hm as [-> | ->]; reflexivity).
    rewrite Nat2Z.id. pose proof (send_view_length h cot Ho) as VL. rewrite (nth_error_nth' _ (0, 0)) by lia. destruct Hm as [-> | ->]; reflexivity. }
  set (buf := fun i => flat_pairs (map hp (seq 0 i)) ++ repeat 0 (2 * (n - i))).
  assert (BL : forall i, (i <= n)%nat -> length (buf i) = (2 * n)%nat) by (intros i Hi; unfold buf; rewrite length_app, flat_pairs_length, length_map, length_seq, repeat_length; lia).
  exists (set_vector h p (buf n)). split.
  - unfold naive_cot2rot_send, YACL_ENFORCE. rewrite Hs, Ht. cbn [is_compact s_type empty_send negb]. unfold send_Size at 1. cbn [is_compact s_type empty_send s_slice internal_use_size_]. rewrite Z.mul_comm, Z.div_mul, Z.eqb_refl by lia.
    unfold u32, uwrap. rewrite Z.mod_small by lia. rewrite Nat2Z.id.
    assert (S0 : h = set_vector h p (buf 0%nat)).
    { unfold buf. cbn [seq map flat_pairs flat_map app]. rewrite Nat.sub_0_r. destruct p as [p|]; [|reflexivity]. unfold set_vector. destruct h as [vs bs]. cbn [vectors bitsets get_vector] in *. f_equal. clear - Hp. revert p Hp; induction vs as [|v vs IH]; intros [|p] E; cbn in *; try discriminate; [congruence|]. now rewrite <- IH. }
    rewrite S0 at 1. apply (foldM_states (cot2rot_send_step cot (empty_send n p)) (fun i => set_vector h p (buf i))). intros i Hi. unfold cot2rot_send_step.
    assert (GP : forall v, get_vector (set_vector h p v) p = Some v) by (intros v; rewrite (get_set_vector h p v p _ Hp); assert (E : same_buf p p = true) by (destruct p; [apply Nat.eqb_refl|discriminate]); now rewrite E).
    rewrite (send_get_other _ _ _ _ _ _ _ Hp N), (G i Hi 0) by now left. cbn [Z.eqb]. rewrite CrHash_ok. rewrite (send_set_at _ _ _ (buf i)) by (apply GP || (apply BL; lia) || lia || (now left)).
    rewrite set_set_vector, (send_get_other _ _ _ _ _ _ _ Hp N), (G i Hi 1) by now right. cbn [Z.eqb]. rewrite CrHash_ok. erewrite (send_set_at _ _ _ (upd (buf i) _ _)) by (apply GP || (rewrite length_upd; apply BL; lia) || lia || (now right)).
    rewrite set_set_vector. f_equal. f_equal. change (Z.to_nat 0) with 0%nat. change (Z.to_nat 1) with 1%nat. unfold buf. replace (2 * (n - i))%nat with (S (S (2 * (n - S i)))) by lia. cbn [repeat].
    assert (FL : length (flat_pairs (map hp (seq 0 i))) = (2 * i)%nat) by (rewrite flat_pairs_length, length_map, length_seq; reflexivity).
    rewrite <- FL, Nat.add_0_r, upd_split. replace (length (flat_pairs (map hp (seq 0 i))) + 1)%nat with (length (flat_pairs (map hp (seq 0 i)) ++ [cr (fst (mp i))])) by (rewrite length_app; cbn; lia).
    change (cr (fst (mp i)) :: 0 :: repeat 0 (2 * (n - S i))) with ([cr (fst (mp i))] ++ 0 :: repeat 0 (2 * (n - S i))). rewrite app_assoc, upd_split. rewrite seq_S, map_app. unfold flat_pairs. rewrite flat_map_app. cbn. now rewrite <- !app_assoc.
  - intros i Hi m Hm. rewrite (G i Hi m Hm). unfold send_GetBlock, YACL_ENFORCE, empty_send, GetBufIdx, YACL_ENFORCE. cbn [delta_ s_slice internal_use_size_ internal_use_ctr_ s_blk_buf Z.eqb].
    replace ((m =? 0) || (m =? 1)) with true by (destruct Hm as [-> | ->]; reflexivity). rewrite u64_id by lia. rewrite (proj2 (Z.ltb_lt _ _)) by lia. rewrite (u64_id (0 + _)) by lia.
    rewrite (get_set_vector h p (buf n) p _ Hp). assert (E : same_buf p p = true) by (destruct p; [apply Nat.eqb_refl|discriminate]). rewrite E. unfold vector_get. rewrite u64_id by lia.
    unfold buf. rewrite Nat.sub_diag. cbn [repeat Nat.mul]. rewrite app_nil_r. cbn [option_map].
    assert (FP : (nth (2 * i) (flat_pairs (map hp (seq 0 n))) 0, nth (2 * i + 1) (flat_pairs (map hp (seq 0 n))) 0) = hp i).
    { rewrite flat_pairs_nth by (rewrite length_map, length_seq; exact Hi). rewrite (nth_indep _ (0, 0) (hp 0%nat)) by (rewrite length_map, length_seq; exact Hi). rewrite map_nth, seq_nth by exact Hi. reflexivity. }
    assert (FL : length (flat_pairs (map hp (seq 0 n))) = (2 * n)%nat) by (rewrite flat_pairs_length, length_map, length_seq; reflexivity).
    rewrite (nth_error_nth' _ 0) by (destruct Hm as [-> | ->]; lia). f_equal. destruct Hm as [-> | ->]; cbn [Z.eqb].
    + replace (Z.to_nat (0 + 2 * Z.of_nat i + 0)) with (2 * i)%nat by lia. now injection FP.
    + replace (Z.to_nat (0 + 2 * Z.of_nat i + 1)) with (2 * i + 1)%nat by lia. now injection FP.
Qed.

(** *** The receiver *)

Definition empty_recv (n : nat) (b p : option nat) : OtRecvStore := RecvStore (Slice_ 0 (Z.of_nat n) 0 (Z.of_nat n)) Normal b p.

Lemma recv_store_empty_ok h n : 0 < Z.of_nat n < 2 ^ 62 -> exists b p h', recv_store_empty h (Z.of_nat n) Normal = Some (empty_recv n b p, h') /\ get_vector h' p = Some (repeat 0 n).
Proof.
  intros Hn. unfold recv_store_empty. cbn [is_compact]. rewrite Nat2Z.id. destruct (new_bitset h (bitset_init 128 n 0)) as [h1 b] eqn:E1. apply new_bitset_ok in E1 as [_ Hb].
  destruct (new_vector h1 (repeat 0 n)) as [h' p] eqn:E. apply new_vector_ok in E as [X Hp]. apply X in Hb. exists b, p, h'. split; [|exact Hp].
  unfold InitCtrs, recv_ConsistencyCheck, YACL_ENFORCE. cbn [r_type r_bit_buf r_blk_buf r_slice].
  assert (Ck : recv_check h' Normal b p (Slice_ 0 (Z.of_nat n) 0 (Z.of_nat n)) = true).
  { unfold recv_check, SliceBase_ConsistencyCheck. cbn [internal_use_size_ internal_buf_size_ internal_buf_ctr_ is_compact]. rewrite Hp, Hb, repeat_length.
    assert (Sz : size (bitset_init 128 n 0) = n) by (apply (bitset_init_ok 128 pos128); [reflexivity|lia]). rewrite Sz, Nat.eqb_refl. rewrite !andb_true_iff, !Z.ltb_lt, !Z.leb_le. lia. }
  rewrite Ck. cbn [r_type r_bit_buf r_blk_buf r_slice]. now rewrite Ck.
Qed.

Lemma recv_set_at h n b p v i x : get_vector h p = Some v -> length v = n -> (i < n)%nat -> Z.of_nat n < 2 ^ 62 ->
  recv_SetBlock h (empty_recv n b p) (Z.of_nat i) x = Some (set_vector h p (upd v i x)).
Proof.
  intros Hp Hl Hi Hn. unfold recv_SetBlock, empty_recv, GetBufIdx, YACL_ENFORCE. cbn [r_slice internal_use_size_ internal_use_ctr_ r_blk_buf].
  rewrite (proj2 (Z.ltb_lt _ _)) by lia. rewrite u64_id, Hp by lia. unfold vector_set. replace (Z.to_nat (0 + Z.of_nat i)) with i by lia. now rewrite (proj2 (Nat.ltb_lt _ _)) by lia.
Qed.

Lemma recv_get_other h p v w st i : get_vector h p = Some w -> r_blk_buf st <> p -> recv_GetBlock (set_vector h p v) st i = recv_GetBlock h st i.
Proof.
  intros Hp N. unfold recv_GetBlock. rewrite (get_set_vector h p v (r_blk_buf st) w Hp). destruct (same_buf p (r_blk_buf st)) eqn:E; [apply same_buf_spec in E; congruence|reflexivity].
Qed.

Lemma set_same h p w : get_vector h p = Some w -> set_vector h p w = h.
Proof.
  destruct p as [p|]; [|reflexivity]. unfold set_vector. destruct h as [vs bs]. cbn [vectors bitsets get_vector]. intros Hp. f_equal. revert p Hp; induction vs as [|v vs IH]; intros [|p] E; cbn in *; try discriminate; [congruence|]. now rewrite IH.
Qed.
Lemma same_buf_refl h p w : get_vector h p = Some w -> same_buf p p = true.
Proof. destruct p; [intros _; apply Nat.eqb_refl|discriminate]. Qed.

Lemma cot2rot_recv_ok h cot n b p : recv_ok h cot -> r_type cot = Compact -> recv_Size cot = Z.of_nat n -> 0 < Z.of_nat n < 2 ^ 32 -> get_vector h p = Some (repeat 0 n) -> r_blk_buf cot <> p ->
  exists rot h', naive_cot2rot_recv h cot (empty_recv n b p) = Some (rot, h') /\
    forall i, (i < n)%nat -> recv_GetBlock h' rot (Z.of_nat i) = option_map cr (recv_GetBlock h cot (Z.of_nat i)) /\ recv_GetChoice h' rot (Z.of_nat i) = recv_GetChoice h cot (Z.of_nat i).
Proof.
  intros Ho Ht Hs Hn Hp N. destruct (recv_CopyBitBuf_ok h cot Ho) as (bit & Eb & W & B). pose proof (recv_view_length h cot Ho) as VL.
  set (v := fun i => nth i (recv_view h cot) (false, 0)). assert (G : forall i, (i < n)%nat -> recv_GetBlock h cot (Z.of_nat i) = Some (snd (v i)) /\ recv_GetChoice h cot (Z.of_nat i) = Some (Z.b2z (fst (v i)))).
  { intros i Hi. rewrite recv_GetBlock_ok, recv_GetChoice_ok, !Nat2Z.id by (assumption || lia). rewrite (nth_error_nth' _ (false, 0)) by lia. now split. }
  destruct (new_bitset h bit) as [h1 q] eqn:E1. pose proof (new_bitset_ok _ _ _ _ E1) as [X Hq]. destruct (recv_ok_extends h h1 cot X Ho) as [Ho1 V1]. pose proof (proj1 X _ _ Hp) as Hp1.
  assert (G1 : forall i, (i < n)%nat -> recv_GetBlock h1 cot (Z.of_nat i) = Some (snd (v i))).
  { intros i Hi. rewrite recv_GetBlock_ok, V1, Nat2Z.id by (assumption || lia). rewrite (nth_error_nth' _ (false, 0)) by lia. reflexivity. }
  set (buf := fun i => map (fun i => cr (snd (v i))) (seq 0 i) ++ repeat 0 (n - i)). set (rot := empty_recv n q p).
  assert (BL : forall i, (i <= n)%nat -> length (buf i) = n) by (intros i Hi; unfold buf; rewrite length_app, length_map, length_seq, repeat_length; lia).
  assert (GP : forall w, get_vector (set_vector h1 p w) p = Some w) by (intros w; rewrite (get_set_vector h1 p w p _ Hp1), (same_buf_refl _ _ _ Hp1); reflexivity).
  exists rot, (set_vector h1 p (buf n)). split.
  - unfold naive_cot2rot_recv, YACL_ENFORCE. rewrite Ht. cbn [is_compact r_type empty_recv negb]. rewrite Eb. unfold recv_SetBitBuf. rewrite E1. cbn [r_slice r_type r_blk_buf empty_recv]. fold (empty_recv n q p). fold rot. rewrite Hs.
    unfold u32, uwrap. rewrite Z.mod_small by lia. rewrite Nat2Z.id.
    assert (S0 : h1 = set_vector h1 p (buf 0%nat)) by (symmetry; apply set_same; unfold buf; cbn; now rewrite Nat.sub_0_r).
    change (RecvStore (Slice_ 0 (Z.of_nat n) 0 (Z.of_nat n)) Normal q p) with rot. rewrite S0 at 1. rewrite (foldM_states (cot2rot_recv_step cot rot) (fun i => set_vector h1 p (buf i))); [reflexivity|]. intros i Hi. unfold cot2rot_recv_step.
    rewrite (recv_get_other _ _ _ _ _ _ Hp1 N), (G1 i Hi), CrHash_ok. unfold rot. rewrite (recv_set_at _ _ _ _ (buf i)) by (apply GP || (apply BL; lia) || lia). rewrite set_set_vector. f_equal. f_equal. unfold buf.
    replace (n - i)%nat with (S (n - S i)) by lia. cbn [repeat]. assert (LL : length (map (fun i => cr (snd (v i))) (seq 0 i)) = i) by (now rewrite length_map, length_seq). rewrite <- LL at 3. rewrite upd_split, seq_S, map_app, <- app_assoc. reflexivity.
  - intros i Hi. destruct (G i Hi) as [Gb Gc]. rewrite Gb, Gc. cbn [option_map]. unfold rot, empty_recv. split.
    + unfold recv_GetBlock, GetBufIdx, YACL_ENFORCE. cbn [r_slice internal_use_size_ internal_use_ctr_ r_blk_buf]. rewrite (proj2 (Z.ltb_lt _ _)) by lia. rewrite u64_id, GP by lia. unfold vector_get, buf. rewrite Nat.sub_diag, app_nil_r.
      replace (Z.to_nat (0 + Z.of_nat i)) with i by lia. rewrite nth_error_map, (nth_error_nth' _ 0%nat), seq_nth by (rewrite ?length_seq; exact Hi). reflexivity.
    + unfold recv_GetChoice, GetBufIdx, YACL_ENFORCE. cbn [r_slice internal_use_size_ internal_use_ctr_ r_bit_buf r_type is_compact]. rewrite (proj2 (Z.ltb_lt _ _)) by lia. rewrite u64_id, get_bitset_set_vector, Hq by lia.
      assert (Sz : size bit = n) by (change (m_bits_number bit = n); rewrite <- (length_bits 128 bit), B, length_map; lia). rewrite bit_get_ok by (rewrite Sz; lia). do 2 f_equal. replace (Z.to_nat (0 + Z.of_nat i)) with i by lia.
      transitivity (nth i (bits 128 bit) false); [unfold bits; change (m_bits_number bit) with (size bit); rewrite Sz, (nth_indep _ false (bit_at 128 bit 0)) by (rewrite length_map, length_seq; exact Hi); rewrite map_nth, seq_nth by exact Hi; reflexivity|].
      rewrite B, (nth_indep _ false (fst (false, 0))) by (rewrite length_map; lia). apply map_nth.
Qed.
End Rot.
