(* ===== verification/Duo.v ===== *)
(** Conversations of two parties over their contexts: the names of the messages come
    from the counters of the contexts, so that what is said later has other names.
    Conversations compose, and a conversation of child contexts is one of the
    parents'. *)
From Stdlib Require Import ZArith Lia List Bool.
From stdpp Require Import base option list gmap.
From S2P Require Import Prelude.
From S2P Require Import Strings.
From S2P Require Import StringsSpec.
From S2P Require Import Parties.
From S2P Require Import Context.
From S2P Require Import Collectives.
Import ListNotations.
#[local] Open Scope Z_scope.

(** ** Names *)

(** Messages sent from 0 to 1 and from 1 to 0, and children made, so far. *)
Record traffic := Traffic { to_1 : Z; to_0 : Z; children : Z }.
Definition w_le (w w' : traffic) : Prop := to_1 w <= to_1 w' /\ to_0 w <= to_0 w' /\ children w <= children w'.
Definition w_ok (w : traffic) : Prop := 0 <= to_1 w < 2 ^ 31 /\ 0 <= to_0 w < 2 ^ 31 /\ 0 <= children w < 2 ^ 63.
Definition w_add (w : traffic) (a b c : Z) : traffic := Traffic (to_1 w + a) (to_0 w + b) (children w + c).

Definition p2p_key (id : list Z) (c src dst : Z) : list Z := id ++ [58; 80; 50; 80; 45] ++ to_string c ++ [58] ++ to_string src ++ [45; 62] ++ to_string dst.
Definition child_id (id : list Z) (d : Z) : list Z := id ++ [45] ++ to_string d.

Inductive named (id : list Z) (w w' : traffic) : nat * nat * list Z -> Prop :=
  | n_01 k : to_1 w < k <= to_1 w' -> named id w w' (0%nat, 1%nat, p2p_key id k 0 1)
  | n_10 k : to_0 w < k <= to_0 w' -> named id w w' (1%nat, 0%nat, p2p_key id k 1 0)
  | n_child i j d ch s : (i < 2)%nat -> (j < 2)%nat -> children w <= d < children w' -> ch = 58 \/ ch = 45 -> named id w w' (i, j, child_id id d ++ ch :: s).

Lemma digits_split l l' c c' s s' : Forall is_digit l -> Forall is_digit l' -> ~ is_digit c -> ~ is_digit c' -> l ++ c :: s = l' ++ c' :: s' -> l = l'.
Proof.
  revert l'; induction l as [|x l IH]; intros [|y l'] D D' N N' E; cbn in E; try reflexivity.
  - injection E as -> _. inversion D'; contradiction.
  - injection E as <- _. inversion D; contradiction.
  - injection E as <- E. inversion D; inversion D'; subst. f_equal. now apply IH.
Qed.

Lemma sep_not_digit ch : ch = 58 \/ ch = 45 -> ~ is_digit ch.
Proof. unfold is_digit. intros [-> | ->]; lia. Qed.

Lemma named_split n m c c' s s' : 0 <= n < 2 ^ 64 -> 0 <= m < 2 ^ 64 -> c = 58 \/ c = 45 -> c' = 58 \/ c' = 45 -> to_string n ++ c :: s = to_string m ++ c' :: s' -> n = m.
Proof.
  intros Hn Hm Hc Hc' E. apply to_string_inj; [exact Hn|exact Hm|]. destruct (dec_string_ok n Hn) as (_ & Dn & _), (dec_string_ok m Hm) as (_ & Dm & _).
  exact (digits_split _ _ _ _ _ _ Dn Dm (sep_not_digit _ Hc) (sep_not_digit _ Hc') E).
Qed.

Lemma named_once id w w1 w2 nm : w_ok w -> w_ok w1 -> w_ok w2 -> named id w w1 nm -> named id w1 w2 nm -> False.
Proof.
  intros K K1 K2 N1 N2. unfold w_ok in *. inversion N1 as [k Hk E1|k Hk E1|i j d ch s Hi Hj Hd Hc E1]; inversion N2 as [k' Hk' E2|k' Hk' E2|i' j' d' ch' s' Hi' Hj' Hd' Hc' E2]; subst; try discriminate;
    inversion E2 as [E3]; unfold p2p_key, child_id in *; rewrite <- ?app_assoc in *; repeat match goal with H : id ++ _ = id ++ _ |- _ => apply app_inv_head in H; cbn [app] in H end; try discriminate.
  - injection E3 as E3. apply named_split in E3; (lia || (now left) || idtac).
  - injection E3 as E3. apply named_split in E3; (lia || (now left) || idtac).
  - match goal with H : 45 :: _ = 45 :: _ |- _ => injection H as H; apply named_split in H; lia end.
Qed.

Lemma named_ranks id w w' nm : named id w w' nm -> (fst (fst nm) < 2)%nat /\ (snd (fst nm) < 2)%nat.
Proof. intros [k H|k H|i j d ch s Hi Hj Hd Hc]; cbn; lia. Qed.

Lemma named_weaken id w1 w2 w w' nm : w_le w w1 -> w_le w2 w' -> named id w1 w2 nm -> named id w w' nm.
Proof. unfold w_le. intros L1 L2 [k H|k H|i j d ch s Hi Hj Hd Hc]; constructor; (lia || assumption). Qed.

(** ** Conversations *)

Definition conv {A B} (id : list Z) (w : traffic) (p0 : prog A) (p1 : prog B) (w' : traffic) (a : A) (b : B) : Prop :=
  exists rs, NoDup (map m_name (concat rs)) /\ Forall (named id w w') (map m_name (concat rs)) /\ talks rs 0 p0 a /\ talks rs 1 p1 b /\ w_le w w'.

Lemma conv_done {A B} id w (a : A) (b : B) : conv id w (Done a) (Done b) w a b.
Proof. exists []. repeat split; try constructor; try lia. Qed.

Lemma conv_bind {A B A' B'} id w w1 w2 (p0 : prog A) (p1 : prog B) (f0 : A -> prog A') (f1 : B -> prog B') a b a' b' : w_ok w -> w_ok w1 -> w_ok w2 ->
  conv id w p0 p1 w1 a b -> conv id w1 (f0 a) (f1 b) w2 a' b' -> conv id w (bind p0 f0) (bind p1 f1) w2 a' b'.
Proof.
  intros K K1 K2 (rs & N & F & T0 & T1 & L) (rs' & N' & F' & T0' & T1' & L'). exists (rs ++ rs'). rewrite concat_app, map_app. unfold w_le in *. split; [|split; [|split; [|split; [|lia]]]].
  - apply NoDup_app. split; [exact N|]. split; [|exact N']. intros x Hx Hy. rewrite Forall_forall in F, F'. exact (named_once id w w1 w2 x K K1 K2 (F _ Hx) (F' _ Hy)).
  - apply Forall_app. split; [|]; [eapply Forall_impl; [exact F|]|eapply Forall_impl; [exact F'|]]; intros x; apply named_weaken; unfold w_le; lia.
  - now apply talks_bind with a.
  - now apply talks_bind with b.
Qed.

Lemma conv_gives {A} id w w' (p0 p1 : prog A) a b (Q : nat -> A -> Prop) : conv id w p0 p1 w' a b -> Q 0%nat a -> Q 1%nat b -> gives [p0; p1] Q.
Proof.
  intros (rs & N & F & T0 & T1 & _) Qa Qb. apply (rounds_give rs); [exact N| |].
  - intros m Hm. rewrite Forall_forall in F. specialize (F (m_name m)). refine (named_ranks id w w' (m_name m) (F _)). apply list_elem_of_In, in_map, Hm.
  - intros [|[|i]] p E; cbn in E; try (destruct i; discriminate); injection E as <-; [now exists a|now exists b].
Qed.

(** A conversation of children. *)
Lemma conv_child {A B} id w d w1 w1' (p0 : prog A) (p1 : prog B) a b : children w <= d < children w + 1 ->
  conv (child_id id d) w1 p0 p1 w1' a b -> conv id w p0 p1 (w_add w 0 0 1) a b.
Proof.
  intros Hd (rs & N & F & T0 & T1 & _). exists rs. unfold w_le, w_add. cbn. split; [exact N|]. split; [|repeat split; try assumption; lia].
  eapply Forall_impl; [exact F|]. intros x Nx. destruct Nx as [k H|k H|i j d' ch s Hi Hj Hd' Hc].
  - apply (n_child id w _ 0 1 d 58 ([80; 50; 80; 45] ++ to_string k ++ [58] ++ to_string 0 ++ [45; 62] ++ to_string 1)); cbn; (lia || now left).
  - apply (n_child id w _ 1 0 d 58 ([80; 50; 80; 45] ++ to_string k ++ [58] ++ to_string 1 ++ [45; 62] ++ to_string 0)); cbn; (lia || now left).
  - unfold child_id at 1. rewrite <- !app_assoc. apply (n_child id w _ i j d 45); cbn; (lia || (now right) || assumption).
Qed.

(** ** Contexts of two parties *)

Definition sent_so_far (ctx : Context) (s d : Z) : Z := match p2p_counter_ ctx !! (s, d) with Some c => c | None => 0 end.
Definition stands (id : list Z) (w : traffic) (i : Z) (ctx : Context) : Prop :=
  desc_id ctx = id /\ length (party_ids ctx) = 2%nat /\ rank_ ctx = i /\ sent_so_far ctx 0 1 = to_1 w /\ sent_so_far ctx 1 0 = to_0 w /\ child_counter_ ctx = children w.

Lemma i32_id z : - 2 ^ 31 <= z < 2 ^ 31 -> i32 z = z.
Proof. intros H. apply (swrap_small 32); [lia|exact H]. Qed.

Lemma sent_insert ctx s d c x y : match (<[(s, d) := c]> (p2p_counter_ ctx)) !! (x, y) with Some c => c | None => 0 end = if (x =? s) && (y =? d) then c else sent_so_far ctx x y.
Proof.
  destruct (Z.eqb_spec x s) as [->|N]; [destruct (Z.eqb_spec y d) as [->|N]|]; cbn [andb]; [now rewrite lookup_insert_eq| |]; rewrite lookup_insert_ne by congruence; reflexivity.
Qed.

(** One message, from 0 to 1 and from 1 to 0. *)
Lemma next_p2p_01 id w i ctx : stands id w i ctx -> w_ok (w_add w 1 0 0) -> 0 <= to_1 w ->
  exists ctx', NextP2PId 0 1 ctx = (p2p_key id (to_1 w + 1) 0 1, ctx') /\ stands id (w_add w 1 0 0) i ctx'.
Proof.
  intros (E1 & E2 & E3 & E4 & E5 & E6) K H. unfold NextP2PId. cbv zeta. change (i32 0) with 0. change (i32 1) with 1. change (match p2p_counter_ ctx !! (0, 1) with Some c => c | None => 0 end) with (sent_so_far ctx 0 1). rewrite E4, i32_id by (unfold w_ok, w_add in K; cbn in K; lia).
  eexists. split; [unfold p2p_key; now rewrite E1|]. unfold stands, sent_so_far. cbn [desc_id party_ids rank_ p2p_counter_ child_counter_ w_add to_1 to_0 children]. rewrite !sent_insert. cbn. rewrite !Z.add_0_r. now repeat split.
Qed.
Lemma next_p2p_10 id w i ctx : stands id w i ctx -> w_ok (w_add w 0 1 0) -> 0 <= to_0 w ->
  exists ctx', NextP2PId 1 0 ctx = (p2p_key id (to_0 w + 1) 1 0, ctx') /\ stands id (w_add w 0 1 0) i ctx'.
Proof.
  intros (E1 & E2 & E3 & E4 & E5 & E6) K H. unfold NextP2PId. cbv zeta. change (i32 0) with 0. change (i32 1) with 1. change (match p2p_counter_ ctx !! (1, 0) with Some c => c | None => 0 end) with (sent_so_far ctx 1 0). rewrite E5, i32_id by (unfold w_ok, w_add in K; cbn in K; lia).
  eexists. split; [unfold p2p_key; now rewrite E1|]. unfold stands, sent_so_far. cbn [desc_id party_ids rank_ p2p_counter_ child_counter_ w_add to_1 to_0 children]. rewrite !sent_insert. cbn. rewrite !Z.add_0_r. now repeat split.
Qed.

(** What the parties do next: one message, or one each way. *)
Lemma single_talk {A} i (m : msg) (p : prog A) a rs : talks rs i p a -> forall q, (forall T, T (m_src m) (m_dst m) (m_key m) = Some (m_val m) -> follows T i (rounds_acts rs i) p a -> follows T i (round_acts i [m] ++ rounds_acts rs i) q a) -> talks ([m] :: rs) i q a.
Proof. intros H q G T K. cbn [concat] in K. apply knows_app in K as [K1 K2]. unfold rounds_acts. cbn [flat_map]. apply G; [|now apply H]. inversion K1; assumption. Qed.

Lemma fresh_head id w w1 w2 (ms : list msg) rs : w_ok w -> w_ok w1 -> w_ok w2 -> NoDup (map m_name ms) -> Forall (named id w w1) (map m_name ms) -> w_le w w1 -> w_le w1 w2 ->
  NoDup (map m_name (concat rs)) -> Forall (named id w1 w2) (map m_name (concat rs)) ->
  NoDup (map m_name (concat (ms :: rs))) /\ Forall (named id w w2) (map m_name (concat (ms :: rs))).
Proof.
  intros K K1 K2 N F L1 L2 N' F'. cbn [concat]. rewrite map_app. split.
  - apply NoDup_app. split; [exact N|]. split; [|exact N']. intros x Hx Hy. rewrite Forall_forall in F, F'. exact (named_once id w w1 w2 x K K1 K2 (F _ Hx) (F' _ Hy)).
  - apply Forall_app. unfold w_le in *. split; [eapply Forall_impl; [exact F|]|eapply Forall_impl; [exact F'|]]; intros x; apply named_weaken; unfold w_le; lia.
Qed.

Lemma conv_send {A B} id w w2 v (q0 : prog A) (f1 : list Z -> prog B) a b : w_ok w -> w_ok (w_add w 1 0 0) -> w_ok w2 ->
  conv id (w_add w 1 0 0) q0 (f1 v) w2 a b ->
  conv id w (SendTo 1 (p2p_key id (to_1 w + 1) 0 1) v q0) (RecvFrom 0 (p2p_key id (to_1 w + 1) 0 1) f1) w2 a b.
Proof.
  intros K K1 K2 (rs & N & F & T0 & T1 & L). set (m := MkMsg 0 1 (p2p_key id (to_1 w + 1) 0 1) v). exists ([m] :: rs).
  destruct (fresh_head id w (w_add w 1 0 0) w2 [m] rs) as [N' F']; try assumption; [cbn; apply NoDup_singleton|repeat constructor; cbn; lia|unfold w_le; cbn; lia|].
  split; [exact N'|]. split; [exact F'|]. split; [|split; [|unfold w_le in *; cbn in *; lia]].
  - apply (single_talk 0 m q0 a rs T0). intros T E G. cbn. constructor; [exact E|exact G].
  - apply (single_talk 1 m (f1 v) b rs T1). intros T E G. cbn. econstructor; [exact E|exact G].
Qed.

Lemma conv_swap {A B} id w w2 v0 v1 (f0 : list Z -> prog A) (f1 : list Z -> prog B) a b : w_ok w -> w_ok (w_add w 1 1 0) -> w_ok w2 ->
  conv id (w_add w 1 1 0) (f0 v1) (f1 v0) w2 a b ->
  conv id w (SendTo 1 (p2p_key id (to_1 w + 1) 0 1) v0 (RecvFrom 1 (p2p_key id (to_0 w + 1) 1 0) f0))
            (SendTo 0 (p2p_key id (to_0 w + 1) 1 0) v1 (RecvFrom 0 (p2p_key id (to_1 w + 1) 0 1) f1)) w2 a b.
Proof.
  intros K K1 K2 (rs & N & F & T0 & T1 & L). set (m0 := MkMsg 0 1 (p2p_key id (to_1 w + 1) 0 1) v0). set (m1 := MkMsg 1 0 (p2p_key id (to_0 w + 1) 1 0) v1). exists ([m0; m1] :: rs).
  destruct (fresh_head id w (w_add w 1 1 0) w2 [m0; m1] rs) as [N' F']; try assumption.
  { cbn. apply NoDup_cons. split; [|apply NoDup_singleton]. rewrite list_elem_of_singleton. discriminate. }
  { cbn. constructor; [constructor; cbn; lia|]. constructor; [constructor; cbn; lia|constructor]. }
  { unfold w_le; cbn; lia. }
  split; [exact N'|]. split; [exact F'|]. split; [|split; [|unfold w_le in *; cbn in *; lia]]; intros T X; cbn [concat] in X; apply knows_app in X as [X1 X2]; inversion X1 as [|? ? Y0 X3]; inversion X3 as [|? ? Y1 _]; subst; unfold rounds_acts; cbn.
  - constructor; [exact Y0|]. econstructor; [exact Y1|]. now apply T0.
  - constructor; [exact Y1|]. econstructor; [exact Y0|]. now apply T1.
Qed.

(** The other way around. *)
Lemma conv_reply {A B} id w w2 v (f0 : list Z -> prog A) (q1 : prog B) a b : w_ok w -> w_ok (w_add w 0 1 0) -> w_ok w2 ->
  conv id (w_add w 0 1 0) (f0 v) q1 w2 a b ->
  conv id w (RecvFrom 1 (p2p_key id (to_0 w + 1) 1 0) f0) (SendTo 0 (p2p_key id (to_0 w + 1) 1 0) v q1) w2 a b.
Proof.
  intros K K1 K2 (rs & N & F & T0 & T1 & L). set (m := MkMsg 1 0 (p2p_key id (to_0 w + 1) 1 0) v). exists ([m] :: rs).
  destruct (fresh_head id w (w_add w 0 1 0) w2 [m] rs) as [N' F']; try assumption; [cbn; apply NoDup_singleton|repeat constructor; cbn; lia|unfold w_le; cbn; lia|].
  split; [exact N'|]. split; [exact F'|]. split; [|split; [|unfold w_le in *; cbn in *; lia]].
  - apply (single_talk 0 m (f0 v) a rs T0). intros T E G. cbn. econstructor; [exact E|exact G].
  - apply (single_talk 1 m q1 b rs T1). intros T E G. cbn. constructor; [exact E|exact G].
Qed.

(** The calls of a context, as programs. *)
Lemma send_01 id w ctx v : stands id w 0 ctx -> w_ok (w_add w 1 0 0) -> 0 <= to_1 w ->
  exists ctx', ctx_SendAsync 1 v ctx = SendTo 1 (p2p_key id (to_1 w + 1) 0 1) v (Done ctx') /\ stands id (w_add w 1 0 0) 0 ctx'.
Proof.
  intros S K H. pose proof S as (_ & E2 & E3 & _). destruct (next_p2p_01 id w 0 ctx S K H) as (ctx1 & E & S1). unfold ctx_SendAsync. rewrite E3, E. pose proof S1 as (F1 & F2 & F3 & F4 & F5 & F6).
  unfold SendAsyncInternal, WorldSize. rewrite F2, F3. cbn. eexists. split; [reflexivity|]. now repeat split.
Qed.
Lemma send_10 id w ctx v : stands id w 1 ctx -> w_ok (w_add w 0 1 0) -> 0 <= to_0 w ->
  exists ctx', ctx_SendAsync 0 v ctx = SendTo 0 (p2p_key id (to_0 w + 1) 1 0) v (Done ctx') /\ stands id (w_add w 0 1 0) 1 ctx'.
Proof.
  intros S K H. pose proof S as (_ & E2 & E3 & _). destruct (next_p2p_10 id w 1 ctx S K H) as (ctx1 & E & S1). unfold ctx_SendAsync. rewrite E3, E. pose proof S1 as (F1 & F2 & F3 & F4 & F5 & F6).
  unfold SendAsyncInternal, WorldSize. rewrite F2, F3. cbn. eexists. split; [reflexivity|]. now repeat split.
Qed.
Lemma recv_01 id w ctx : stands id w 1 ctx -> w_ok (w_add w 1 0 0) -> 0 <= to_1 w ->
  exists ctx', ctx_RecvP2P 0 ctx = RecvFrom 0 (p2p_key id (to_1 w + 1) 0 1) (fun v => Done (v, ctx' v)) /\ forall v, stands id (w_add w 1 0 0) 1 (ctx' v).
Proof.
  intros S K H. pose proof S as (_ & E2 & E3 & _). destruct (next_p2p_01 id w 1 ctx S K H) as (ctx1 & E & S1). unfold ctx_RecvP2P. rewrite E3, E. pose proof S1 as (F1 & F2 & F3 & F4 & F5 & F6).
  unfold RecvInternal, WorldSize. rewrite F2, F3. cbn. eexists. split; [reflexivity|]. intros v. now repeat split.
Qed.
Lemma recv_10 id w ctx : stands id w 0 ctx -> w_ok (w_add w 0 1 0) -> 0 <= to_0 w ->
  exists ctx', ctx_RecvP2P 1 ctx = RecvFrom 1 (p2p_key id (to_0 w + 1) 1 0) (fun v => Done (v, ctx' v)) /\ forall v, stands id (w_add w 0 1 0) 0 (ctx' v).
Proof.
  intros S K H. pose proof S as (_ & E2 & E3 & _). destruct (next_p2p_10 id w 0 ctx S K H) as (ctx1 & E & S1). unfold ctx_RecvP2P. rewrite E3, E. pose proof S1 as (F1 & F2 & F3 & F4 & F5 & F6).
  unfold RecvInternal, WorldSize. rewrite F2, F3. cbn. eexists. split; [reflexivity|]. intros v. now repeat split.
Qed.

(** Children in step. *)
Lemma spawn_stands id w i ctx : stands id w i ctx -> w_ok (w_add w 0 0 1) -> 0 <= i < 2 ->
  exists sub ctx', Spawn [] ctx = Some (sub, ctx') /\ stands (child_id id (children w)) (Traffic 0 0 0) i sub /\ forall s, stands id (w_add w 0 0 1) i (set_stats s ctx').
Proof.
  intros (E1 & E2 & E3 & E4 & E5 & E6) K Hi. unfold w_ok, w_add in K. cbn in K. unfold Spawn. cbv beta iota. unfold Context_new, WorldSize. rewrite E2, E3. rewrite (proj2 (Z.ltb_lt _ _)) by (cbn; lia). cbn [andb Z.of_nat Pos.of_succ_nat Pos.succ Z.eqb Pos.eqb].
  do 2 eexists. split; [reflexivity|]. split.
  - unfold stands, set_stats, sent_so_far. cbn [desc_id party_ids rank_ p2p_counter_ child_counter_ to_1 to_0 children]. rewrite E2, E6. split; [unfold child_id; now rewrite E1|]. split; [reflexivity|]. split; [reflexivity|]. vm_compute. now repeat split.
  - intros s. unfold stands, set_stats, sent_so_far in *. cbn [desc_id party_ids rank_ p2p_counter_ child_counter_ to_1 to_0 children w_add]. rewrite E4, E5, E6, !Z.add_0_r. unfold u64, uwrap. rewrite Z.mod_small by lia. now repeat split.
Qed.
