(* ===== verification/SsExecutor.v ===== *)
(** Two-party computation on secret shares ([mpc/types.h], [mpc/ss_executor]): shares
    of words by sum and by xor, Beaver triples from oblivious transfers, and
    conversions.  An executor's method is a program that talks to the peer.  Its
    random words are the ones the generator will return: a stream and a position. *)
From Stdlib Require Import ZArith Lia List Bool.
From S2P Require Import Prelude.
From S2P Require Import Errors.
From S2P Require Import Strings.
From S2P Require Import Cipher.
From S2P Require Import OtStore.
From S2P Require Import OtExt.
From S2P Require Import Parties.
From S2P Require Import Context.
From S2P Require Import OtKernel.
Import ListNotations.
#[local] Open Scope Z_scope.

(** One word each; and triples. *)
Definition AShare : Type := Z.
Definition BShare : Type := Z.
Record ATriple := MkATriple { at_a : Z; at_b : Z; at_c : Z }.
Record BTriple := MkBTriple { bt_a : Z; bt_b : Z; bt_c : Z }.

Definition kBits : nat := 64.
Definition kMinOts : Z := 2560.

Record SSExecutor := MkExecutor {
  ex_rank : Z; lctx_ : Context; tag_ctr_ : Z; arith_triples_ : list ATriple; bool_triples_ : list BTriple;
  rng_ : nat -> Z; rng_pos_ : nat }.
Definition with_ctx (ctx : Context) (ex : SSExecutor) : SSExecutor :=
  MkExecutor (ex_rank ex) ctx (tag_ctr_ ex) (arith_triples_ ex) (bool_triples_ ex) (rng_ ex) (rng_pos_ ex).
Definition with_arith (ts : list ATriple) (ex : SSExecutor) : SSExecutor :=
  MkExecutor (ex_rank ex) (lctx_ ex) (tag_ctr_ ex) ts (bool_triples_ ex) (rng_ ex) (rng_pos_ ex).
Definition with_bool (ts : list BTriple) (ex : SSExecutor) : SSExecutor :=
  MkExecutor (ex_rank ex) (lctx_ ex) (tag_ctr_ ex) (arith_triples_ ex) ts (rng_ ex) (rng_pos_ ex).

Definition SSExecutor_new (rank : Z) (lctx : Context) (rng : nat -> Z) : option SSExecutor :=
  YACL_ENFORCE ((rank =? 0) || (rank =? 1))
    (YACL_ENFORCE (WorldSize lctx =? 2) (Some (MkExecutor rank lctx 0 [] [] rng 0))).

Definition FastRandU64 (ex : SSExecutor) : Z * SSExecutor :=
  (u64 (rng_ ex (rng_pos_ ex)), MkExecutor (ex_rank ex) (lctx_ ex) (tag_ctr_ ex) (arith_triples_ ex) (bool_triples_ ex) (rng_ ex) (S (rng_pos_ ex))).
Fixpoint FastRandU64s (n : nat) (ex : SSExecutor) : list Z * SSExecutor :=
  match n with
  | O => ([], ex)
  | S n => let '(r, ex) := FastRandU64 ex in let '(rs, ex) := FastRandU64s n ex in (r :: rs, ex)
  end.

(** ["ss/{}/{}"]; tags only reach the trace. *)
Definition NextTag (prefix : list Z) (ex : SSExecutor) : list Z * SSExecutor :=
  ([115; 115; 47] ++ prefix ++ [47] ++ to_string (tag_ctr_ ex),
   MkExecutor (ex_rank ex) (lctx_ ex) (i64 (tag_ctr_ ex + 1)) (arith_triples_ ex) (bool_triples_ ex) (rng_ ex) (rng_pos_ ex)).

(** Words as bytes in memory. *)
Definition words_bytes (ws : list Z) : list Z := flat_map (to_le 8) ws.

Definition SendU64 (tag : list Z) (val : Z) (ex : SSExecutor) : prog SSExecutor :=
  do ctx <- ctx_SendAsync (1 - ex_rank ex) (to_le 8 val) (lctx_ ex); Done (with_ctx ctx ex).
Definition RecvU64 (tag : list Z) (ex : SSExecutor) : prog (Z * SSExecutor) :=
  do (buf, ctx) <- ctx_RecvP2P (1 - ex_rank ex) (lctx_ ex);
  ensure (length buf =? 8)%nat (Done (le_val buf, with_ctx ctx ex)).
Definition SendU64Span (tag : list Z) (data : list Z) (ex : SSExecutor) : prog SSExecutor :=
  do ctx <- ctx_SendAsync (1 - ex_rank ex) (words_bytes data) (lctx_ ex); Done (with_ctx ctx ex).
Definition RecvU64Vec (tag : list Z) (count : nat) (ex : SSExecutor) : prog (list Z * SSExecutor) :=
  do (buf, ctx) <- ctx_RecvP2P (1 - ex_rank ex) (lctx_ ex);
  ensure (length buf =? count * 8)%nat (Done (to_words 8 count buf, with_ctx ctx ex)).

Definition ConsumeATriple (ex : SSExecutor) : prog (ATriple * SSExecutor) :=
  match arith_triples_ ex with [] => Fail | t :: ts => Done (t, with_arith ts ex) end.
Definition ConsumeBTriple (ex : SSExecutor) : prog (BTriple * SSExecutor) :=
  match bool_triples_ ex with [] => Fail | t :: ts => Done (t, with_bool ts ex) end.
Definition ArithTripleCount (ex : SSExecutor) : Z := Z.of_nat (length (arith_triples_ ex)).
Definition BoolTripleCount (ex : SSExecutor) : Z := Z.of_nat (length (bool_triples_ ex)).

(** Bit [k] of a word. *)
Definition bit (w : Z) (k : nat) : Z := Z.land (w [>>] Z.of_nat k) 1.

(** ** Transfers of chosen messages *)

Section Code.
Context {C : Cipher} {K : CotKernel}.

Definition flip_words (padded : Z) : nat := Z.to_nat ((padded + 63) / 64).
Definition correction (h : heap) (rot : OtSendStore) (flip_packed : list Z) (msgs : list (Z * Z)) (i : nat) : option (Z * Z) :=
  let? w := nth_error flip_packed (i / 64) in
  let d := negb (bit w (i mod 64) =? 0) in
  let? s0 := send_GetBlock h rot (Z.of_nat i) 0 in
  let? s1 := send_GetBlock h rot (Z.of_nat i) 1 in
  let pad0 := if d then u64 s1 else u64 s0 in
  let pad1 := if d then u64 s0 else u64 s1 in
  let? m := nth_error msgs i in
  Some (Z.lxor (fst m) pad0, Z.lxor (snd m) pad1).
Definition flip_step (h : heap) (rot : OtRecvStore) (choices : list bool) (flip_packed : list Z) (i : nat) : option (list Z) :=
  let? rc := recv_GetChoice h rot (Z.of_nat i) in
  let? c := nth_error choices i in
  if Bool.eqb (negb (rc =? 0)) c then Some flip_packed
  else let? w := nth_error flip_packed (i / 64) in Some (upd flip_packed (i / 64) (Z.lor w (Z.shiftl 1 (Z.of_nat (i mod 64))))).
Definition chosen (h : heap) (rot : OtRecvStore) (corrections : list Z) (choices : list bool) (i : nat) : option Z :=
  let? b := recv_GetBlock h rot (Z.of_nat i) in
  let? c := nth_error choices i in
  let? x := nth_error corrections (2 * i + (if c then 1 else 0)) in
  Some (Z.lxor x (u64 b)).

(** Statistics are shared with the child. *)
Definition RunChosenOT (is_sender : bool) (num_ots : Z) (sender_msgs : list (Z * Z)) (receiver_choices : list bool) (ex : SSExecutor)
  : prog (list Z * SSExecutor) :=
  ensure (0 <? num_ots)
    (do (ctx, parent) <- lift (Spawn [] (lctx_ ex));
     do (kernel, ctx) <- kernel_init is_sender ctx;
     let padded := Z.max num_ots kMinOts in
     let words := flip_words padded in
     let n := Z.to_nat num_ots in
     let leave ctx := with_ctx (set_stats (stats_ ctx) parent) ex in
     if is_sender then
       ensure (Z.of_nat (length sender_msgs) =? num_ots)
         (do (rot, h) <- lift (send_store_empty (Heap [] []) padded Normal);
          do (h, ctx) <- eval_rot_send h kernel ctx padded rot;
          do (flip_buf, ctx) <- ctx_RecvP2P (NextRank ctx 1) ctx;
          ensure (length flip_buf =? words * 8)%nat
            (let flip_packed := to_words 8 words flip_buf in
             do corrections <- lift (mapM (correction h rot flip_packed sender_msgs) (seq 0 n));
             do ctx <- ctx_SendAsync (NextRank ctx 1) (words_bytes (flat_pairs corrections)) ctx;
             Done ([], leave ctx)))
     else
       ensure (Z.of_nat (length receiver_choices) =? num_ots)
         (do (rot, h) <- lift (recv_store_empty (Heap [] []) padded Normal);
          do (rot, h, ctx) <- eval_rot_recv h kernel ctx padded rot;
          do flip_packed <- lift (foldM (flip_step h rot receiver_choices) (seq 0 n) (repeat 0 words));
          do ctx <- ctx_SendAsync (NextRank ctx 1) (words_bytes flip_packed) ctx;
          do (corr_buf, ctx) <- ctx_RecvP2P (NextRank ctx 1) ctx;
          ensure (Z.of_nat (length corr_buf) =? 2 * num_ots * 8)
            (let corrections := to_words 8 (2 * n) corr_buf in
             do results <- lift (mapM (chosen h rot corrections receiver_choices) (seq 0 n));
             Done (results, leave ctx)))).

(** ** Triples *)

(** Transfer [k] of element [i]. *)
Definition ot_index (i k : nat) : nat := i * kBits + k.
Definition for_ots {A} (n : nat) (f : nat -> nat -> A) : list A := flat_map (fun i => map (f i) (seq 0 kBits)) (seq 0 n).
Definition ot_choices (n : nat) (b_local : list Z) : list bool := for_ots n (fun i k => negb (bit (at_ b_local i) k =? 0)).

Definition RunArithOtDirection (is_sender : bool) (n : nat) (num_ots : Z) (a_local b_local : list Z) (ex : SSExecutor) : prog (list Z * SSExecutor) :=
  if is_sender then
    let '(rs, ex) := FastRandU64s (n * kBits) ex in
    let r i k := at_ rs (ot_index i k) in
    let msgs := for_ots n (fun i k => (r i k, u64 (r i k + u64 (Z.shiftl (at_ a_local i) (Z.of_nat k))))) in
    let cross := map (fun i => fold_left (fun c k => u64 (c - r i k)) (seq 0 kBits) 0) (seq 0 n) in
    do (_, ex) <- RunChosenOT true num_ots msgs [] ex; Done (cross, ex)
  else
    do (recv, ex) <- RunChosenOT false num_ots [] (ot_choices n b_local) ex;
    Done (map (fun i => fold_left (fun c k => u64 (c + at_ recv (ot_index i k))) (seq 0 kBits) 0) (seq 0 n), ex).

Definition RunBoolOtDirection (is_sender : bool) (n : nat) (num_ots : Z) (a_local b_local : list Z) (ex : SSExecutor) : prog (list Z * SSExecutor) :=
  if is_sender then
    let '(rs, ex) := FastRandU64s (n * kBits) ex in
    let r_bit i k := Z.land (at_ rs (ot_index i k)) 1 in
    let msgs := for_ots n (fun i k => (r_bit i k, Z.lxor (r_bit i k) (bit (at_ a_local i) k))) in
    let cross := map (fun i => fold_left (fun c k => Z.lxor c (u64 (Z.shiftl (r_bit i k) (Z.of_nat k)))) (seq 0 kBits) 0) (seq 0 n) in
    do (_, ex) <- RunChosenOT true num_ots msgs [] ex; Done (cross, ex)
  else
    do (recv, ex) <- RunChosenOT false num_ots [] (ot_choices n b_local) ex;
    Done (map (fun i => fold_left (fun c k => Z.lxor c (u64 (Z.shiftl (Z.land (at_ recv (ot_index i k)) 1) (Z.of_nat k)))) (seq 0 kBits) 0) (seq 0 n), ex).

(** The local shares, drawn one after the other for each triple. *)
Definition evens (l : list Z) (n : nat) : list Z := map (fun i => at_ l (2 * i)) (seq 0 n).
Definition odds (l : list Z) (n : nat) : list Z := map (fun i => at_ l (2 * i + 1)) (seq 0 n).

Definition PreprocessArithTriples (n : nat) (ex : SSExecutor) : prog SSExecutor :=
  ensure (0 <? n)%nat
    (let num_ots := Z.of_nat (kBits * n) in
     let '(ab, ex) := FastRandU64s (2 * n) ex in
     let a_local := evens ab n in
     let b_local := odds ab n in
     do (cross_a, ex) <- RunArithOtDirection (ex_rank ex =? 0) n num_ots a_local b_local ex;
     do (cross_b, ex) <- RunArithOtDirection (ex_rank ex =? 1) n num_ots a_local b_local ex;
     let triple i := MkATriple (at_ a_local i) (at_ b_local i) (u64 (u64 (u64 (at_ a_local i * at_ b_local i) + at_ cross_a i) + at_ cross_b i)) in
     Done (with_arith (arith_triples_ ex ++ map triple (seq 0 n)) ex)).
Definition PreprocessBoolTriples (n : nat) (ex : SSExecutor) : prog SSExecutor :=
  ensure (0 <? n)%nat
    (let num_ots := Z.of_nat (kBits * n) in
     let '(ab, ex) := FastRandU64s (2 * n) ex in
     let a_local := evens ab n in
     let b_local := odds ab n in
     do (cross_a, ex) <- RunBoolOtDirection (ex_rank ex =? 0) n num_ots a_local b_local ex;
     do (cross_b, ex) <- RunBoolOtDirection (ex_rank ex =? 1) n num_ots a_local b_local ex;
     let triple i := MkBTriple (at_ a_local i) (at_ b_local i) (Z.lxor (Z.lxor (Z.land (at_ a_local i) (at_ b_local i)) (at_ cross_a i)) (at_ cross_b i)) in
     Done (with_bool (bool_triples_ ex ++ map triple (seq 0 n)) ex)).

(** ** Sums *)

Definition ShareA (secret : Z) (ex : SSExecutor) : prog (AShare * SSExecutor) :=
  let '(tag, ex) := NextTag [115; 104; 97] ex in
  if ex_rank ex =? 0 then
    let '(r, ex) := FastRandU64 ex in
    do ex <- SendU64 tag r ex; Done (u64 (secret - r), ex)
  else RecvU64 tag ex.
Definition RevealA (share : AShare) (ex : SSExecutor) : prog (Z * SSExecutor) :=
  let '(tag, ex) := NextTag [114; 118; 97] ex in
  do ex <- SendU64 tag share ex;
  do (peer, ex) <- RecvU64 tag ex;
  Done (u64 (share + peer), ex).
Definition AddA (x y : AShare) : AShare := u64 (x + y).
Definition SubA (x y : AShare) : AShare := u64 (x - y).
(** The negation of the smallest [int64_t] is an overflow; it wraps around here. *)
Definition NegA (x : AShare) : AShare := u64 (i64 (- i64 x)).
Definition MulConstA (x : AShare) (c : Z) : AShare := u64 (x * c).
Definition MulA (x y : AShare) (ex : SSExecutor) : prog (AShare * SSExecutor) :=
  do (t, ex) <- ConsumeATriple ex;
  let e_local := u64 (x - at_a t) in
  let f_local := u64 (y - at_b t) in
  let '(tag, ex) := NextTag [109; 108; 97] ex in
  do ex <- SendU64Span tag [e_local; f_local] ex;
  do (recv_ef, ex) <- RecvU64Vec tag 2 ex;
  let e := u64 (e_local + at_ recv_ef 0) in
  let f := u64 (f_local + at_ recv_ef 1) in
  let z := u64 (u64 (at_c t + u64 (e * at_b t)) + u64 (f * at_a t)) in
  Done (if ex_rank ex =? 0 then u64 (z + u64 (e * f)) else z, ex).

(** ** Bits *)

Definition ShareB (secret : Z) (ex : SSExecutor) : prog (BShare * SSExecutor) :=
  let '(tag, ex) := NextTag [115; 104; 98] ex in
  if ex_rank ex =? 0 then
    let '(r, ex) := FastRandU64 ex in
    do ex <- SendU64 tag r ex; Done (Z.lxor secret r, ex)
  else RecvU64 tag ex.
Definition RevealB (share : BShare) (ex : SSExecutor) : prog (Z * SSExecutor) :=
  let '(tag, ex) := NextTag [114; 118; 98] ex in
  do ex <- SendU64 tag share ex;
  do (peer, ex) <- RecvU64 tag ex;
  Done (Z.lxor share peer, ex).
Definition XorB (x y : BShare) : BShare := Z.lxor x y.
Definition NotB (x : BShare) (ex : SSExecutor) : BShare := if ex_rank ex =? 0 then u64 (Z.lnot x) else x.
Definition AndB (x y : BShare) (ex : SSExecutor) : prog (BShare * SSExecutor) :=
  do (t, ex) <- ConsumeBTriple ex;
  let e_local := Z.lxor x (bt_a t) in
  let f_local := Z.lxor y (bt_b t) in
  let '(tag, ex) := NextTag [97; 110; 98] ex in
  do ex <- SendU64Span tag [e_local; f_local] ex;
  do (recv_ef, ex) <- RecvU64Vec tag 2 ex;
  let e := Z.lxor e_local (at_ recv_ef 0) in
  let f := Z.lxor f_local (at_ recv_ef 1) in
  let z := Z.lxor (Z.lxor (bt_c t) (Z.land e (bt_b t))) (Z.land f (bt_a t)) in
  Done (if ex_rank ex =? 0 then Z.lxor z (Z.land e f) else z, ex).

(** ** Conversions *)

Definition A2B_step (gen_packed prop_packed : Z) (k : nat) (st : Z * BShare * SSExecutor) : prog (Z * BShare * SSExecutor) :=
  let '(result, carry, ex) := st in
  let sum_k := Z.lxor (bit prop_packed k) (Z.land carry 1) in
  let result := Z.lor result (u64 (Z.shiftl sum_k (Z.of_nat k))) in
  let prop_k := bit prop_packed k in
  let gen_k := bit gen_packed k in
  do (prop_and_carry, ex) <- AndB prop_k carry ex;
  Done (result, XorB gen_k prop_and_carry, ex).
Definition A2B (x : AShare) (ex : SSExecutor) : prog (BShare * SSExecutor) :=
  ensure (Z.of_nat kBits <=? BoolTripleCount ex)
    (let a_packed := if ex_rank ex =? 0 then x else 0 in
     let b_packed := if ex_rank ex =? 1 then x else 0 in
     do (gen_packed, ex) <- AndB a_packed b_packed ex;
     let prop_packed := XorB a_packed b_packed in
     do (result, _, ex) <- for_each (seq 1 (kBits - 1)) (A2B_step gen_packed prop_packed) (Z.land prop_packed 1, Z.land gen_packed 1, ex);
     Done (result, ex)).

Definition B2A_msg (x : BShare) (rs : list Z) (k : nat) : Z * Z :=
  let weight := u64 (Z.shiftl 1 (Z.of_nat k)) in
  let correction := if negb (bit x k =? 0) then u64 (- weight) else weight in
  (at_ rs k, u64 (at_ rs k + correction)).
Definition B2A (x : BShare) (ex : SSExecutor) : prog (AShare * SSExecutor) :=
  if ex_rank ex =? 1 then
    let '(rs, ex) := FastRandU64s kBits ex in
    let msgs := map (B2A_msg x rs) (seq 0 kBits) in
    let sender_share := fold_left (fun s k => u64 (s + u64 (u64 (bit x k * u64 (Z.shiftl 1 (Z.of_nat k))) - at_ rs k))) (seq 0 kBits) 0 in
    do (_, ex) <- RunChosenOT true (Z.of_nat kBits) msgs [] ex;
    Done (sender_share, ex)
  else
    do (recv_vals, ex) <- RunChosenOT false (Z.of_nat kBits) [] (map (fun k => negb (bit x k =? 0)) (seq 0 kBits)) ex;
    Done (fold_left (fun s k => u64 (s + at_ recv_vals k)) (seq 0 kBits) 0, ex).
End Code.
