(* ===== verification/ChosenOt.v ===== *)
(** Transfers of chosen messages from random transfers: what [RunChosenOT] of the two
    executors gives, in a conversation, from the law of the kernel. *)
From Stdlib Require Import ZArith Lia List Bool.
From S2P Require Import Prelude.
From S2P Require Import Errors.
From S2P Require Import Int128.
From S2P Require Import Cipher.
From S2P Require Import CrHash.
From S2P Require Import OtStore.
From S2P Require Import OtExt.
From S2P Require Import Parties.
From S2P Require Import Context.
From S2P Require Import Duo.
From S2P Require Import OtKernel.
From S2P Require Import SsExecutor.
Import ListNotations.
#[local] Open Scope Z_scope.

(** ** Words *)

Definition word (v : Z) : Prop := 0 <= v < 2 ^ 64.

Lemma u64_word v : word (u64 v).
Proof. apply Z.mod_pos_bound. lia. Qed.
#[export] Hint Resolve u64_word : core.

Lemma to_words_bytes ws : Forall word ws -> to_words 8 (length ws) (words_bytes ws) = ws.
Proof.
  induction 1 as [|v ws H F IH]; [reflexivity|]. change (words_bytes (v :: ws)) with (to_le 8 v ++ words_bytes ws). cbn [length to_words]. rewrite firstn_app, skipn_app, !length_to_le.
  rewrite firstn_all2, skipn_all2 by (rewrite length_to_le; lia). cbn [Nat.sub firstn skipn app]. rewrite app_nil_r, le_val_to_le. change (skipn 0 (words_bytes ws)) with (words_bytes ws). rewrite IH. f_equal. apply Z.mod_small. exact H.
Qed.
Lemma words_bytes_length ws : length (words_bytes ws) = (length ws * 8)%nat.
Proof. induction ws as [|v ws IH]; [reflexivity|]. change (words_bytes (v :: ws)) with (to_le 8 v ++ words_bytes ws). rewrite length_app, length_to_le, IH. cbn [length]. lia. Qed.

Lemma bit_testbit w k : bit w k = Z.b2z (Z.testbit w (Z.of_nat k)).
Proof. unfold bit. rewrite land_1_odd. f_equal. now rewrite Z.testbit_odd, Z.shiftr_div_pow2 by lia. Qed.
Lemma bit_flag w k : negb (bit w k =? 0) = Z.testbit w (Z.of_nat k).
Proof. rewrite bit_testbit. now destruct (Z.testbit w (Z.of_nat k)). Qed.

Lemma or_word a b : word a -> word b -> word (Z.lor a b).
Proof. unfold word. intros Ha Hb. split; [apply Z.lor_nonneg; lia|]. destruct (Z.eq_dec (Z.lor a b) 0) as [->|N]; [lia|]. apply Z.log2_lt_pow2; [pose proof (proj2 (Z.lor_nonneg a b) ltac:(lia)); lia|].
  rewrite Z.log2_lor by lia. apply Z.max_lub_lt; [destruct (Z.eq_dec a 0) as [->|]|destruct (Z.eq_dec b 0) as [->|]]; try (cbn; lia); apply Z.log2_lt_pow2; lia. Qed.
Lemma xor_word a b : word a -> word b -> word (Z.lxor a b).
Proof. unfold word. intros Ha Hb. assert (N : 0 <= Z.lxor a b) by (apply Z.lxor_nonneg; lia). split; [exact N|]. destruct (Z.eq_dec (Z.lxor a b) 0) as [->|]; [lia|]. apply Z.log2_lt_pow2; [lia|].
  eapply Z.le_lt_trans; [apply Z.log2_lxor; lia|]. apply Z.max_lub_lt; [destruct (Z.eq_dec a 0) as [->|]|destruct (Z.eq_dec b 0) as [->|]]; try (cbn; lia); apply Z.log2_lt_pow2; lia. Qed.
Lemma and_word a b : word a -> 0 <= b -> word (Z.land a b).
Proof. unfold word. intros Ha Hb. split; [apply Z.land_nonneg; lia|]. destruct (Z.eq_dec (Z.land a b) 0) as [->|N]; [lia|]. pose proof (proj2 (Z.land_nonneg a b) ltac:(lia)). apply Z.log2_lt_pow2; [lia|].
  eapply Z.le_lt_trans; [apply Z.log2_land; lia|]. destruct (Z.eq_dec a 0) as [->|]; [rewrite Z.land_0_l in N; lia|]. eapply Z.le_lt_trans; [apply Z.le_min_l|]. apply Z.log2_lt_pow2; lia. Qed.
Lemma word_bit b k : (k < 64)%nat -> word (Z.shiftl (Z.b2z b) (Z.of_nat k)).
Proof. intros Hk. unfold word. rewrite Z.shiftl_mul_pow2 by lia. pose proof (Z.pow_pos_nonneg 2 (Z.of_nat k)). assert (2 ^ Z.of_nat k < 2 ^ 64) by (apply Z.pow_lt_mono_r; lia). destruct b; cbn [Z.b2z]; lia. Qed.

(** ** The flips *)

Section Flips.
Variables (n words : nat) (flip : nat -> bool).
Hypothesis Hn : (n <= words * 64)%nat.

(** Bit [b] of word [q], when the first [i] flips are written. *)
Definition flips_upto (i : nat) (F : list Z) : Prop :=
  length F = words /\ Forall word F /\ forall q b, (q < words)%nat -> (b < 64)%nat -> Z.testbit (nth q F 0) (Z.of_nat b) = ((q * 64 + b <? i)%nat && flip (q * 64 + b)%nat).

Lemma flips_start : flips_upto 0 (repeat 0 words).
Proof.
  split; [apply repeat_length|]. split; [apply List.Forall_forall; intros x Hx; apply repeat_spec in Hx as ->; unfold word; lia|].
  intros q b Hq Hb. rewrite nth_repeat_lt by exact Hq. rewrite Z.testbit_0_l. now destruct (_ <? 0)%nat eqn:E; [apply Nat.ltb_lt in E; lia|].
Qed.

Lemma flips_next i F : (i < n)%nat -> flips_upto i F -> exists w, nth_error F (i / 64) = Some w /\
  flips_upto (S i) (if flip i then upd F (i / 64) (Z.lor w (Z.shiftl 1 (Z.of_nat (i mod 64)))) else F).
Proof.
  intros Hi (L & W & T). pose proof (Nat.div_mod_eq i 64) as D. pose proof (Nat.mod_upper_bound i 64 ltac:(lia)) as M. assert (Hq : (i / 64 < words)%nat) by lia.
  exists (nth (i / 64) F 0). split; [apply nth_error_nth'; lia|]. destruct (flip i) eqn:Fi.
  - split; [now rewrite length_upd|]. split.
    + apply List.Forall_forall. intros x Hx. apply (In_nth _ _ 0) in Hx as (q & Hq' & <-). rewrite length_upd in Hq'. rewrite nth_upd_nat by lia. rewrite List.Forall_forall in W.
      destruct (i / 64 =? q)%nat; [apply or_word; [apply W, nth_In; lia|exact (word_bit true _ M)]|apply W, nth_In; lia].
    + intros q b Hq' Hb. rewrite nth_upd_nat by lia. destruct (Nat.eqb_spec (i / 64) q) as [<-|N].
      * rewrite Z.lor_spec, T by assumption. rewrite Z.shiftl_spec by lia. destruct (Nat.eq_dec b (i mod 64)) as [->|Nb].
        -- rewrite Z.sub_diag. replace (i / 64 * 64 + i mod 64)%nat with i by lia. rewrite Fi, Nat.ltb_irrefl, (proj2 (Nat.ltb_lt i (S i))) by lia. reflexivity.
        -- assert (E1 : Z.testbit 1 (Z.of_nat b - Z.of_nat (i mod 64)) = false) by (destruct (Z.of_nat b - Z.of_nat (i mod 64)) eqn:E; [lia|reflexivity|reflexivity]). rewrite E1, orb_false_r.
           destruct (Nat.ltb_spec (i / 64 * 64 + b) i), (Nat.ltb_spec (i / 64 * 64 + b) (S i)); (reflexivity || lia).
      * rewrite T by assumption. destruct (Nat.ltb_spec (q * 64 + b) i), (Nat.ltb_spec (q * 64 + b) (S i)); (reflexivity || lia).
  - split; [exact L|]. split; [exact W|]. intros q b Hq' Hb. rewrite T by assumption. destruct (Nat.ltb_spec (q * 64 + b) i), (Nat.ltb_spec (q * 64 + b) (S i)); try (reflexivity || lia).
    replace (q * 64 + b)%nat with i by lia. now rewrite Fi.
Qed.
End Flips.

Lemma foldM_inv {A} (f : A -> nat -> option A) (Inv : nat -> A -> Prop) n : (forall i a, (i < n)%nat -> Inv i a -> exists a', f a i = Some a' /\ Inv (S i) a') ->
  forall a, Inv 0%nat a -> exists a', foldM f (seq 0 n) a = Some a' /\ Inv n a'.
Proof.
  enough (forall k b a, (b + k = n)%nat -> (forall i a, (i < n)%nat -> Inv i a -> exists a', f a i = Some a' /\ Inv (S i) a') -> Inv b a -> exists a', foldM f (seq b k) a = Some a' /\ Inv n a') as G by (intros H a I; now apply (G n 0%nat)).
  induction k as [|k IH]; intros b a E H I; [exists a; split; [reflexivity|]; now replace n with b by lia|]. cbn [seq foldM]. destruct (H b a ltac:(lia) I) as (a' & -> & I'). apply IH; [lia|exact H|exact I'].
Qed.

(** ** The values *)

Section Values.
Variables (hs hr : heap) (rs : OtSendStore) (rr : OtRecvStore) (n words : nat) (blk : nat -> Z -> Z) (rc : nat -> bool) (msgs : list (Z * Z)) (choices : list bool).
Hypothesis Hw : (n <= words * 64)%nat.
Hypothesis Hs : forall i m, (i < n)%nat -> m = 0 \/ m = 1 -> send_GetBlock hs rs (Z.of_nat i) m = Some (blk i m).
Hypothesis Hr : forall i, (i < n)%nat -> recv_GetBlock hr rr (Z.of_nat i) = Some (blk i (Z.b2z (rc i))) /\ recv_GetChoice hr rr (Z.of_nat i) = Some (Z.b2z (rc i)).
Hypothesis Hm : length msgs = n.
Hypothesis Hc : length choices = n.

Definition flip (i : nat) : bool := xorb (rc i) (nth i choices false).
Definition msg_at (i : nat) : Z * Z := nth i msgs (0, 0).

Lemma flips_value : exists F, foldM (flip_step hr rr choices) (seq 0 n) (repeat 0 words) = Some F /\ flips_upto words flip n F.
Proof.
  apply (foldM_inv (flip_step hr rr choices) (flips_upto words flip)); [|exact (flips_start n words flip Hw)]. intros i F Hi I. destruct (flips_next n words flip Hw i F Hi I) as (w & Ew & I').
  unfold flip_step. rewrite (proj2 (Hr i Hi)), (nth_error_nth' _ false) by lia. rewrite Ew. unfold flip in I'. destruct (rc i), (nth i choices false); cbn in *; eexists; (split; [reflexivity|exact I']).
Qed.

Definition pads (i : nat) (d : bool) : Z := u64 (blk i (Z.b2z d)).
Definition corrected (i : nat) : Z * Z := (Z.lxor (fst (msg_at i)) (pads i (flip i)), Z.lxor (snd (msg_at i)) (pads i (negb (flip i)))).

Lemma corrections_value F : flips_upto words flip n F -> mapM (correction hs rs F msgs) (seq 0 n) = Some (map corrected (seq 0 n)).
Proof.
  intros (L & _ & T). apply mapM_some. intros i Hi. apply in_seq in Hi. unfold correction. pose proof (Nat.div_mod_eq i 64) as D. pose proof (Nat.mod_upper_bound i 64 ltac:(lia)) as M.
  rewrite (nth_error_nth' _ 0) by lia. rewrite !Hs by (lia || auto). rewrite (nth_error_nth' _ (0, 0)) by lia. rewrite bit_flag, T by lia. replace (i / 64 * 64 + i mod 64)%nat with i by lia.
  rewrite (proj2 (Nat.ltb_lt i n)) by lia. unfold corrected, pads, msg_at. destruct (flip i); reflexivity.
Qed.

Lemma chosen_value : mapM (chosen hr rr (flat_pairs (map corrected (seq 0 n))) choices) (seq 0 n) = Some (map (fun i => if nth i choices false then snd (msg_at i) else fst (msg_at i)) (seq 0 n)).
Proof.
  apply mapM_some. intros i Hi. apply in_seq in Hi. unfold chosen. rewrite (proj1 (Hr i ltac:(lia))), (nth_error_nth' _ false) by lia.
  assert (FL : length (flat_pairs (map corrected (seq 0 n))) = (2 * n)%nat) by (rewrite flat_pairs_length, length_map, length_seq; reflexivity).
  assert (FP : (nth (2 * i) (flat_pairs (map corrected (seq 0 n))) 0, nth (2 * i + 1) (flat_pairs (map corrected (seq 0 n))) 0) = corrected i).
  { rewrite flat_pairs_nth by (rewrite length_map, length_seq; lia). rewrite (nth_indep _ (0, 0) (corrected 0%nat)) by (rewrite length_map, length_seq; lia). rewrite map_nth, seq_nth by lia. reflexivity. }
  pose proof (f_equal fst FP) as F0. pose proof (f_equal snd FP) as F1. cbn [fst snd] in F0, F1. rewrite (nth_error_nth' _ 0) by (destruct (nth i choices false); lia).
  assert (X : forall x y, Z.lxor (Z.lxor x y) y = x) by (intros x y; now rewrite Z.lxor_assoc, Z.lxor_nilpotent, Z.lxor_0_r).
  destruct (nth i choices false) eqn:Ec; [rewrite F1|rewrite Nat.add_0_r, F0]; unfold corrected, pads, flip; rewrite Ec; destruct (rc i); cbn [xorb negb Z.b2z fst snd]; now rewrite X.
Qed.

Lemma corrected_words : Forall (fun m => word (fst m) /\ word (snd m)) msgs -> Forall word (flat_pairs (map corrected (seq 0 n))).
Proof.
  intros W. unfold flat_pairs. apply List.Forall_forall. intros x Hx. apply in_flat_map in Hx as (p & Hp & Hx). apply in_map_iff in Hp as (i & <- & Hi). apply in_seq in Hi. rewrite List.Forall_forall in W.
  destruct (W (msg_at i)) as [W0 W1]; [apply nth_In; lia|]. destruct Hx as [<-|[<-|[]]]; unfold corrected; cbn [fst snd]; apply xor_word; (assumption || apply u64_word).
Qed.
End Values.

(** ** The kernel's law *)

(** On fresh contexts of two parties, whoever sends, the kernels converse and leave
    [num] correlated blocks; they use few of the names. *)
Definition cot_result (num : Z) (blocks : list Z) (delta : Z) (rblocks : list Z) : Prop :=
  Z.of_nat (length blocks) = num /\ Z.of_nat (length rblocks) = num /\ 0 < delta < 2 ^ 128 /\
  correlated (map (fun v => (v, Z.lxor v delta)) blocks) (map (fun v => (Z.odd v, v)) rblocks).
Class CotKernelLawsAt (K : CotKernel) (num : Z) : Prop := {
  cot_law_0 : forall id ctx0 ctx1, stands id (Traffic 0 0 0) 0 ctx0 -> stands id (Traffic 0 0 0) 1 ctx1 ->
    exists w1 ks kr a0 a1, conv id (Traffic 0 0 0) (kernel_init true ctx0) (kernel_init false ctx1) w1 (ks, a0) (kr, a1) /\
    exists w' blocks delta rblocks ctx0' ctx1', conv id w1 (eval_cot_send ks a0 num) (eval_cot_recv kr a1 num) w' (blocks, delta, ctx0') (rblocks, ctx1') /\
      stands id w' 0 ctx0' /\ stands id w' 1 ctx1' /\ w_ok (w_add w' 1 1 0) /\ cot_result num blocks delta rblocks;
  cot_law_1 : forall id ctx0 ctx1, stands id (Traffic 0 0 0) 0 ctx0 -> stands id (Traffic 0 0 0) 1 ctx1 ->
    exists w1 ks kr a0 a1, conv id (Traffic 0 0 0) (kernel_init false ctx0) (kernel_init true ctx1) w1 (kr, a0) (ks, a1) /\
    exists w' blocks delta rblocks ctx0' ctx1', conv id w1 (eval_cot_recv kr a0 num) (eval_cot_send ks a1 num) w' (rblocks, ctx0') (blocks, delta, ctx1') /\
      stands id w' 0 ctx0' /\ stands id w' 1 ctx1' /\ w_ok (w_add w' 1 1 0) /\ cot_result num blocks delta rblocks }.
(** For all numbers from one batch of the extension on. *)
Class CotKernelLaws (K : CotKernel) : Prop := cot_laws : forall num, kMinOts <= num < 2 ^ 31 -> CotKernelLawsAt K num.

(** ** Random transfers *)

Section Rot.
Context {C : Cipher} {L : CipherLaws C} {K : CotKernel}.

Definition rot_send_of (h : heap) (out : OtSendStore) (blocks : list Z) (delta : Z) : option heap :=
  let? (cot, h) := MakeCompactOtSendStore h blocks delta in naive_cot2rot_send h cot out.
Definition rot_recv_of (h : heap) (out : OtRecvStore) (blocks : list Z) : option (OtRecvStore * heap) :=
  let? (cot, h) := MakeCompactOtRecvStore h blocks in naive_cot2rot_recv h cot out.

Lemma old_pointer h p v w : get_vector h p = Some v -> snd (new_vector h w) <> p.
Proof. destruct p as [p|]; [|discriminate]. cbn. intros H [= E]. assert (p < length (vectors h))%nat by (apply nth_error_Some; congruence). lia. Qed.

Lemma rot_send_values h n p blocks delta : Z.of_nat (length blocks) = Z.of_nat n -> 0 < Z.of_nat n < 2 ^ 32 -> 0 < delta < 2 ^ 128 -> get_vector h p = Some (repeat 0 (2 * n)) ->
  exists h', rot_send_of h (empty_send n p) blocks delta = Some h' /\
    forall i m, (i < n)%nat -> m = 0 \/ m = 1 -> send_GetBlock h' (empty_send n p) (Z.of_nat i) m = Some (cr (if m =? 0 then nth i blocks 0 else Z.lxor (nth i blocks 0) delta)).
Proof.
  intros Hb Hn Hd Hp. destruct (MakeCompactOtSendStore_ok h blocks delta) as (cot & h1 & E & X & Ho & _ & V); [lia|exact Hd|]. unfold rot_send_of. rewrite E.
  assert (P : s_type cot = Compact /\ s_blk_buf cot = snd (new_vector h blocks)).
  { unfold MakeCompactOtSendStore in E. destruct (new_vector h blocks) as [h2 q]. destruct (send_store _ _ _ _ _ _ _ _) as [st|] eqn:Es; [|discriminate]. apply send_store_spec in Es as [-> _]. injection E as <- <-. split; reflexivity. }
  destruct P as [Pt Pp]. pose proof (send_view_length h1 cot Ho) as VL. rewrite V, length_map in VL.
  destruct (cot2rot_send_ok h1 cot n p Ho Pt) as (h' & E' & G); [lia|exact Hn|now apply X|rewrite Pp; now apply old_pointer with (repeat 0 (2 * n))|].
  exists h'. split; [exact E'|]. intros i m Hi Hm. rewrite (G i Hi m Hm), send_GetBlock_ok, V, nth_error_map, Nat2Z.id by (assumption || lia). rewrite (nth_error_nth' _ 0) by lia. destruct Hm as [-> | ->]; reflexivity.
Qed.

Lemma rot_recv_values h n b p blocks : Z.of_nat (length blocks) = Z.of_nat n -> 0 < Z.of_nat n < 2 ^ 32 -> get_vector h p = Some (repeat 0 n) ->
  exists rot h', rot_recv_of h (empty_recv n b p) blocks = Some (rot, h') /\
    forall i, (i < n)%nat -> recv_GetBlock h' rot (Z.of_nat i) = Some (cr (nth i blocks 0)) /\ recv_GetChoice h' rot (Z.of_nat i) = Some (Z.b2z (Z.odd (nth i blocks 0))).
Proof.
  intros Hb Hn Hp. destruct (MakeCompactOtRecvStore_ok h blocks) as (cot & h1 & E & X & Ho & _ & V); [lia|]. unfold rot_recv_of. rewrite E.
  assert (P : r_type cot = Compact /\ r_blk_buf cot = snd (new_vector h blocks)).
  { unfold MakeCompactOtRecvStore in E. destruct (new_vector h blocks) as [h2 q]. destruct (recv_store _ _ _ _ _ _ _ _) as [st|] eqn:Es; [|discriminate]. apply recv_store_spec in Es as [-> _]. injection E as <- <-. split; reflexivity. }
  destruct P as [Pt Pp]. pose proof (recv_view_length h1 cot Ho) as VL. rewrite V, length_map in VL.
  destruct (cot2rot_recv_ok h1 cot n b p Ho Pt) as (rot & h' & E' & G); [lia|exact Hn|now apply X|rewrite Pp; now apply old_pointer with (repeat 0 n)|].
  exists rot, h'. split; [exact E'|]. intros i Hi. destruct (G i Hi) as [-> ->]. rewrite recv_GetBlock_ok, recv_GetChoice_ok, V, nth_error_map, Nat2Z.id by (assumption || lia). rewrite (nth_error_nth' _ 0) by lia. now split.
Qed.

Lemma correlated_blocks num blocks delta rblocks i : cot_result num blocks delta rblocks -> (i < length blocks)%nat ->
  nth i rblocks 0 = if Z.odd (nth i rblocks 0) then Z.lxor (nth i blocks 0) delta else nth i blocks 0.
Proof.
  intros (L1 & L2 & _ & R) Hi. unfold correlated in R. assert (R' : Forall2 (fun v r => r = if Z.odd r then Z.lxor v delta else v) blocks rblocks).
  { clear - R. revert rblocks R; induction blocks as [|v l IH]; intros [|r l'] R; inversion R; subst; constructor; [assumption|]. now apply IH. }
  assert (Hi' : (i < length rblocks)%nat) by lia. clear - R' Hi Hi'. revert i Hi Hi'; induction R' as [|v r l l' E R IH]; intros [|i] Hi Hi'; cbn in *; try lia; try exact E. apply IH; lia.
Qed.

Lemma eval_rot_send_eq h k ctx n p : 0 < Z.of_nat n < 2 ^ 62 -> eval_rot_send h k ctx (Z.of_nat n) (empty_send n p) =
  bind (eval_cot_send k ctx (Z.of_nat n)) (fun r => let '(blocks, delta, ctx) := r in do (cot, h) <- lift (MakeCompactOtSendStore h blocks delta); do h <- lift (naive_cot2rot_send h cot (empty_send n p)); Done (h, ctx)).
Proof.
  intros Hn. unfold eval_rot_send, ensure. assert (E : send_Size (empty_send n p) = Z.of_nat n) by (unfold send_Size; cbn; rewrite Z.mul_comm, Z.div_mul; lia). rewrite E, Z.eqb_refl. reflexivity.
Qed.
Lemma eval_rot_recv_eq h k ctx n b p : eval_rot_recv h k ctx (Z.of_nat n) (empty_recv n b p) =
  bind (eval_cot_recv k ctx (Z.of_nat n)) (fun r => let '(blocks, ctx) := r in do (cot, h) <- lift (MakeCompactOtRecvStore h blocks); do (out, h) <- lift (naive_cot2rot_recv h cot (empty_recv n b p)); Done (out, h, ctx)).
Proof. unfold eval_rot_recv, ensure. assert (E : recv_Size (empty_recv n b p) = Z.of_nat n) by reflexivity. rewrite E, Z.eqb_refl. reflexivity. Qed.

(** What is left of the programs once the kernels are done. *)
Lemma rot_send_rest h (ctx : Context) out blocks delta h' : rot_send_of h out blocks delta = Some h' ->
  (do (cot, h) <- lift (MakeCompactOtSendStore h blocks delta); do h <- lift (naive_cot2rot_send h cot out); Done (h, ctx)) = Done (h', ctx).
Proof. unfold rot_send_of. destruct (MakeCompactOtSendStore h blocks delta) as [[cot h1]|]; [|discriminate]. intros E. cbn [lift bind]. now rewrite E. Qed.
Lemma rot_recv_rest h (ctx : Context) out blocks rot h' : rot_recv_of h out blocks = Some (rot, h') ->
  (do (cot, h) <- lift (MakeCompactOtRecvStore h blocks); do (out, h) <- lift (naive_cot2rot_recv h cot out); Done (out, h, ctx)) = Done (rot, h', ctx).
Proof. unfold rot_recv_of. destruct (MakeCompactOtRecvStore h blocks) as [[cot h1]|]; [|discriminate]. intros E. cbn [lift bind]. now rewrite E. Qed.

(** The stores of the two parties give the values of [Values]. *)
Definition rot_ok (n : nat) (hs : heap) (rs : OtSendStore) (hr : heap) (rr : OtRecvStore) : Prop :=
  exists blk rc, (forall i m, (i < n)%nat -> m = 0 \/ m = 1 -> send_GetBlock hs rs (Z.of_nat i) m = Some (blk i m)) /\
    (forall i, (i < n)%nat -> recv_GetBlock hr rr (Z.of_nat i) = Some (blk i (Z.b2z (rc i))) /\ recv_GetChoice hr rr (Z.of_nat i) = Some (Z.b2z (rc i))).

Lemma rot_values h h2 n p b q blocks delta rblocks : cot_result (Z.of_nat n) blocks delta rblocks -> 0 < Z.of_nat n < 2 ^ 32 -> get_vector h p = Some (repeat 0 (2 * n)) -> get_vector h2 q = Some (repeat 0 n) ->
  exists hs hr rr, rot_send_of h (empty_send n p) blocks delta = Some hs /\ rot_recv_of h2 (empty_recv n b q) rblocks = Some (rr, hr) /\ rot_ok n hs (empty_send n p) hr rr.
Proof.
  intros R Hn Hp Hq. pose proof R as (L1 & L2 & Hd & _). destruct (rot_send_values h n p blocks delta L1 Hn Hd Hp) as (hs & Es & Gs). destruct (rot_recv_values h2 n b q rblocks L2 Hn Hq) as (rr & hr & Er & Gr).
  exists hs, hr, rr. split; [exact Es|]. split; [exact Er|]. exists (fun i m => cr (if m =? 0 then nth i blocks 0 else Z.lxor (nth i blocks 0) delta)), (fun i => Z.odd (nth i rblocks 0)).
  split; [exact Gs|]. intros i Hi. destruct (Gr i Hi) as [G1 G2]. split; [|exact G2]. rewrite G1. do 2 f_equal. pose proof (correlated_blocks (Z.of_nat n) blocks delta rblocks i R ltac:(lia)) as E. destruct (Z.odd (nth i rblocks 0)); exact E.
Qed.
End Rot.

(** ** The conversation *)

Section Conversation.
Context {C : Cipher} {L : CipherLaws C} {K : CotKernel}.

Definition choose_msgs (msgs : list (Z * Z)) (choices : list bool) : list Z :=
  map (fun i => if nth i choices false then snd (nth i msgs (0, 0)) else fst (nth i msgs (0, 0))) (seq 0 (length msgs)).

Lemma flip_words_enough padded : 0 <= padded -> padded <= Z.of_nat (flip_words padded * 64).
Proof. intros H. unfold flip_words. rewrite Nat2Z.inj_mul, Z2Nat.id by (apply Z.div_pos; lia). pose proof (Z.div_mod (padded + 63) 64 ltac:(lia)). pose proof (Z.mod_pos_bound (padded + 63) 64 ltac:(lia)). lia. Qed.

Lemma next_of_0 id w ctx : stands id w 0 ctx -> NextRank ctx 1 = 1.
Proof. intros (_ & E2 & E3 & _). unfold NextRank, WorldSize. rewrite E2, E3. reflexivity. Qed.
Lemma next_of_1 id w ctx : stands id w 1 ctx -> NextRank ctx 1 = 0.
Proof. intros (_ & E2 & E3 & _). unfold NextRank, WorldSize. rewrite E2, E3. reflexivity. Qed.

(** After the kernels: the flips and the corrections. *)
Definition ot_send_tail {X} (words n : nat) (msgs : list (Z * Z)) (leave : Context -> X) (h : heap) (rot : OtSendStore) (ctx : Context) : prog (list Z * X) :=
  do (flip_buf, ctx) <- ctx_RecvP2P (NextRank ctx 1) ctx;
  ensure (length flip_buf =? words * 8)%nat
    (let flip_packed := to_words 8 words flip_buf in
     do corrections <- lift (mapM (correction h rot flip_packed msgs) (seq 0 n));
     do ctx <- ctx_SendAsync (NextRank ctx 1) (words_bytes (flat_pairs corrections)) ctx;
     Done ([], leave ctx)).
Definition ot_recv_tail {X} (words n : nat) (num_ots : Z) (choices : list bool) (leave : Context -> X) (h : heap) (rot : OtRecvStore) (ctx : Context) : prog (list Z * X) :=
  do flip_packed <- lift (foldM (flip_step h rot choices) (seq 0 n) (repeat 0 words));
  do ctx <- ctx_SendAsync (NextRank ctx 1) (words_bytes flip_packed) ctx;
  do (corr_buf, ctx) <- ctx_RecvP2P (NextRank ctx 1) ctx;
  ensure (Z.of_nat (length corr_buf) =? 2 * num_ots * 8)
    (let corrections := to_words 8 (2 * n) corr_buf in
     do results <- lift (mapM (chosen h rot corrections choices) (seq 0 n));
     Done (results, leave ctx)).

Section Tail.
Variables (n words : nat) (msgs : list (Z * Z)) (choices : list bool) (hs hr : heap) (rs : OtSendStore) (rr : OtRecvStore).
Hypothesis Hw : (n <= words * 64)%nat.
Hypothesis R : rot_ok n hs rs hr rr.
Hypothesis Hm : length msgs = n.
Hypothesis Hc : length choices = n.
Hypothesis Wm : Forall (fun m => word (fst m) /\ word (snd m)) msgs.

(** The flips the receiver sends, the corrections it gets, and the values. *)
Lemma tail_values : exists F cs, foldM (flip_step hr rr choices) (seq 0 n) (repeat 0 words) = Some F /\ length F = words /\ Forall word F /\
  mapM (correction hs rs F msgs) (seq 0 n) = Some cs /\ length (flat_pairs cs) = (2 * n)%nat /\ Forall word (flat_pairs cs) /\
  mapM (chosen hr rr (flat_pairs cs) choices) (seq 0 n) = Some (choose_msgs msgs choices).
Proof.
  destruct R as (blk & rc & Hs & Hr). edestruct (flips_value hr rr n words blk rc) as (F & EF & I); [eassumption..|]. pose proof I as (LF & WF & _).
  exists F, (map (corrected blk rc msgs choices) (seq 0 n)). split; [exact EF|]. split; [exact LF|]. split; [exact WF|]. split; [eapply (corrections_value hs rs n words blk rc msgs choices); eassumption|].
  split; [rewrite flat_pairs_length, length_map, length_seq; reflexivity|]. split; [eapply corrected_words; eassumption|].
  unfold choose_msgs. rewrite Hm. eapply chosen_value; eassumption.
Qed.

Lemma ensure_true {A} (b : bool) (p : prog A) : b = true -> ensure b p = p.
Proof. intros ->. reflexivity. Qed.

Lemma tail_0 {X} id w (l0 l1 : Context -> X) ctx0 ctx1 : w_ok w -> w_ok (w_add w 1 1 0) -> stands id w 0 ctx0 -> stands id w 1 ctx1 ->
  exists c0 c1, conv id w (ot_send_tail words n msgs l0 hs rs ctx0) (ot_recv_tail words n (Z.of_nat n) choices l1 hr rr ctx1) (w_add w 1 1 0) ([], l0 c0) (choose_msgs msgs choices, l1 c1).
Proof.
  intros W W2 S0 S1. destruct tail_values as (F & cs & EF & LF & WF & Ec & Lc & Wc & Er). unfold ot_send_tail, ot_recv_tail. rewrite EF, (next_of_0 id w ctx0 S0), (next_of_1 id w ctx1 S1). cbn [lift bind].
  assert (W1 : w_ok (w_add w 0 1 0)) by (unfold w_ok, w_add in *; cbn in *; lia). assert (P1 : 0 <= to_1 w /\ 0 <= to_0 w) by (unfold w_ok in W; lia).
  destruct (recv_10 id w ctx0 S0 W1) as (c0 & E0 & T0); [lia|]. destruct (send_10 id w ctx1 (words_bytes F) S1 W1) as (c1 & E1 & T1); [lia|]. rewrite E0, E1. cbn [bind].
  destruct (send_01 id (w_add w 0 1 0) (c0 (words_bytes F)) (words_bytes (flat_pairs cs)) (T0 _)) as (c0' & E0' & _); [unfold w_ok, w_add in *; cbn in *; lia|cbn; lia|].
  rewrite (next_of_1 id _ c1 T1). destruct (recv_01 id (w_add w 0 1 0) c1 T1) as (c1' & E1' & _); [unfold w_ok, w_add in *; cbn in *; lia|cbn; lia|]. rewrite E1'. cbn [bind].
  exists c0', (c1' (words_bytes (flat_pairs cs))). apply conv_reply; [exact W|exact W1|exact W2|]. rewrite ensure_true by (rewrite words_bytes_length, LF; apply Nat.eqb_refl). cbv zeta.
  rewrite <- LF at 1. rewrite to_words_bytes by exact WF. rewrite Ec. cbn [lift bind]. rewrite (next_of_0 id _ _ (T0 _)), E0'. cbn [bind].
  replace (w_add w 1 1 0) with (w_add (w_add w 0 1 0) 1 0 0) by (unfold w_add; cbn; f_equal; lia). apply conv_send; [exact W1| | |]; try (unfold w_ok, w_add in *; cbn in *; lia).
  rewrite ensure_true by (rewrite words_bytes_length, Lc; apply Z.eqb_eq; lia). rewrite <- Lc, to_words_bytes, Er by exact Wc. cbn [lift bind]. apply conv_done.
Qed.

Lemma tail_1 {X} id w (l0 l1 : Context -> X) ctx0 ctx1 : w_ok w -> w_ok (w_add w 1 1 0) -> stands id w 0 ctx0 -> stands id w 1 ctx1 ->
  exists c0 c1, conv id w (ot_recv_tail words n (Z.of_nat n) choices l0 hr rr ctx0) (ot_send_tail words n msgs l1 hs rs ctx1) (w_add w 1 1 0) (choose_msgs msgs choices, l0 c0) ([], l1 c1).
Proof.
  intros W W2 S0 S1. destruct tail_values as (F & cs & EF & LF & WF & Ec & Lc & Wc & Er). unfold ot_send_tail, ot_recv_tail. rewrite EF, (next_of_0 id w ctx0 S0), (next_of_1 id w ctx1 S1). cbn [lift bind].
  assert (W1 : w_ok (w_add w 1 0 0)) by (unfold w_ok, w_add in *; cbn in *; lia). assert (P1 : 0 <= to_1 w /\ 0 <= to_0 w) by (unfold w_ok in W; lia).
  destruct (recv_01 id w ctx1 S1 W1) as (c1 & E1 & T1); [lia|]. destruct (send_01 id w ctx0 (words_bytes F) S0 W1) as (c0 & E0 & T0); [lia|]. rewrite E0, E1. cbn [bind].
  destruct (send_10 id (w_add w 1 0 0) (c1 (words_bytes F)) (words_bytes (flat_pairs cs)) (T1 _)) as (c1' & E1' & _); [unfold w_ok, w_add in *; cbn in *; lia|cbn; lia|].
  rewrite (next_of_0 id _ c0 T0). destruct (recv_10 id (w_add w 1 0 0) c0 T0) as (c0' & E0' & _); [unfold w_ok, w_add in *; cbn in *; lia|cbn; lia|]. rewrite E0'. cbn [bind].
  exists (c0' (words_bytes (flat_pairs cs))), c1'. apply conv_send; [exact W|exact W1|exact W2|]. rewrite ensure_true by (rewrite words_bytes_length, LF; apply Nat.eqb_refl). cbv zeta.
  rewrite <- LF at 1. rewrite to_words_bytes by exact WF. rewrite Ec. cbn [lift bind]. rewrite (next_of_1 id _ _ (T1 _)), E1'. cbn [bind].
  replace (w_add w 1 1 0) with (w_add (w_add w 1 0 0) 0 1 0) by (unfold w_add; cbn; f_equal; lia). apply conv_reply; [exact W1| | |]; try (unfold w_ok, w_add in *; cbn in *; lia).
  rewrite ensure_true by (rewrite words_bytes_length, Lc; apply Z.eqb_eq; lia). rewrite <- Lc, to_words_bytes, Er by exact Wc. cbn [lift bind]. apply conv_done.
Qed.
End Tail.

Lemma RunChosenOT_send_eq num msgs ex sub parent padded rot h : 0 < num -> Z.of_nat (length msgs) = num -> Spawn [] (lctx_ ex) = Some (sub, parent) -> padded = Z.max num kMinOts -> send_store_empty (Heap [] []) padded Normal = Some (rot, h) ->
  RunChosenOT true num msgs [] ex = bind (kernel_init true sub) (fun r => let '(k, ctx) := r in bind (eval_rot_send h k ctx padded rot) (fun r => let '(h, ctx) := r in ot_send_tail (flip_words padded) (Z.to_nat num) msgs (fun ctx => with_ctx (set_stats (stats_ ctx) parent) ex) h rot ctx)).
Proof.
  intros Hn Hm E -> Er. unfold RunChosenOT. rewrite ensure_true by (now apply Z.ltb_lt). rewrite E. cbn [lift bind]. cbv zeta. apply Z.eqb_eq in Hm. rewrite Hm, Er. reflexivity.
Qed.
Lemma RunChosenOT_recv_eq num choices ex sub parent padded rot h : 0 < num -> Z.of_nat (length choices) = num -> Spawn [] (lctx_ ex) = Some (sub, parent) -> padded = Z.max num kMinOts -> recv_store_empty (Heap [] []) padded Normal = Some (rot, h) ->
  RunChosenOT false num [] choices ex = bind (kernel_init false sub) (fun r => let '(k, ctx) := r in bind (eval_rot_recv h k ctx padded rot) (fun r => let '(rot, h, ctx) := r in ot_recv_tail (flip_words padded) (Z.to_nat num) num choices (fun ctx => with_ctx (set_stats (stats_ ctx) parent) ex) h rot ctx)).
Proof.
  intros Hn Hm E -> Er. unfold RunChosenOT. rewrite ensure_true by (now apply Z.ltb_lt). rewrite E. cbn [lift bind]. cbv zeta. apply Z.eqb_eq in Hm. rewrite Hm, Er. reflexivity.
Qed.

Lemma rot_ok_fewer n m hs rs hr rr : (m <= n)%nat -> rot_ok n hs rs hr rr -> rot_ok m hs rs hr rr.
Proof. intros Hm (blk & rc & Hs & Hr). exists blk, rc. split; [intros i k Hi; apply Hs; lia|intros i Hi; apply Hr; lia]. Qed.

(** The sender is rank 0; and rank 1.  The kernel makes the number that the executor
    pads to. *)
Lemma chosen_ot_at_0 id w ex0 ex1 num msgs choices : CotKernelLawsAt K (Z.max num kMinOts) -> stands id w 0 (lctx_ ex0) -> stands id w 1 (lctx_ ex1) -> w_ok w -> w_ok (w_add w 0 0 1) -> 0 < num < 2 ^ 31 ->
  Z.of_nat (length msgs) = num -> Z.of_nat (length choices) = num -> Forall (fun m => word (fst m) /\ word (snd m)) msgs ->
  exists c0 c1, conv id w (RunChosenOT true num msgs [] ex0) (RunChosenOT false num [] choices ex1) (w_add w 0 0 1) ([], with_ctx c0 ex0) (choose_msgs msgs choices, with_ctx c1 ex1) /\
    stands id (w_add w 0 0 1) 0 c0 /\ stands id (w_add w 0 0 1) 1 c1.
Proof.
  intros KA S0 S1 W W' Hn Hm Hc Wm. destruct (spawn_stands id w 0 _ S0 W' ltac:(lia)) as (sub0 & par0 & E0 & T0 & U0). destruct (spawn_stands id w 1 _ S1 W' ltac:(lia)) as (sub1 & par1 & E1 & T1 & U1).
  set (padded := Z.max num kMinOts) in *. assert (Hp : padded = Z.of_nat (Z.to_nat padded)) by (unfold padded, kMinOts; lia). set (P := Z.to_nat padded) in *. assert (HP : 0 < Z.of_nat P < 2 ^ 31) by (rewrite <- Hp; unfold padded, kMinOts; lia).
  pose proof (send_store_empty_ok (Heap [] []) P ltac:(lia)) as Es. pose proof (new_vector_ok (Heap [] []) (repeat 0 (2 * P)) _ _ (surjective_pairing _)) as [_ Gs]. set (hs := fst (new_vector (Heap [] []) (repeat 0 (2 * P)))) in *. set (p := snd (new_vector (Heap [] []) (repeat 0 (2 * P)))) in *.
  destruct (recv_store_empty_ok (Heap [] []) P ltac:(lia)) as (b & q & hr & Er & Gr).
  rewrite (RunChosenOT_send_eq num msgs ex0 sub0 par0 padded (empty_send P p) hs) by (lia || assumption || reflexivity || (rewrite Hp; exact Es)).
  rewrite (RunChosenOT_recv_eq num choices ex1 sub1 par1 padded (empty_recv P b q) hr) by (lia || assumption || reflexivity || (rewrite Hp; exact Er)).
  rewrite Hp in KA. destruct (cot_law_0 (child_id id (children w)) sub0 sub1 T0 T1) as (w1 & ks & kr & a0 & a1 & CI & w' & blocks & delta & rblocks & k0 & k1 & CV & V0 & V1 & Wk & CR).
  destruct (rot_values hs hr P p b q blocks delta rblocks CR ltac:(lia) Gs Gr) as (hs' & hr' & rr & Fs & Fr & RO).
  pose proof CI as (rds0 & _ & _ & _ & _ & LI). pose proof CV as (rds & _ & _ & _ & _ & LE). assert (Wk' : w_ok w') by (unfold w_ok, w_add, w_le in *; cbn in *; lia). assert (Wk1 : w_ok w1) by (unfold w_ok, w_add, w_le in *; cbn in *; lia). assert (W0 : w_ok (Traffic 0 0 0)) by (unfold w_ok; cbn; lia).
  destruct (tail_0 (Z.to_nat num) (flip_words padded) msgs choices hs' hr' (empty_send P p) rr) with (id := child_id id (children w)) (w := w') (l0 := fun ctx => with_ctx (set_stats (stats_ ctx) par0) ex0) (l1 := fun ctx => with_ctx (set_stats (stats_ ctx) par1) ex1) (ctx0 := k0) (ctx1 := k1) as (c0 & c1 & CT); try assumption; try lia.
  { pose proof (flip_words_enough padded ltac:(lia)). unfold padded in *. lia. }
  { apply (rot_ok_fewer P); [unfold P, padded; lia|exact RO]. }
  exists (set_stats (stats_ c0) par0), (set_stats (stats_ c1) par1). split; [|split; [apply U0|apply U1]]. apply (conv_child id w (children w) (Traffic 0 0 0) (w_add w' 1 1 0)); [lia|].
  rewrite Z2Nat.id in CT by lia. apply (conv_bind _ _ w1 _ _ _ _ _ (ks, a0) (kr, a1)); [exact W0|exact Wk1|exact Wk|exact CI|]. cbv beta iota. rewrite Hp at 1 2.
  apply (conv_bind _ _ w' _ _ _ _ _ (hs', k0) (rr, hr', k1)); [exact Wk1|exact Wk'|exact Wk| |exact CT].
  rewrite eval_rot_send_eq, eval_rot_recv_eq by lia. apply (conv_bind _ _ w' _ _ _ _ _ (blocks, delta, k0) (rblocks, k1)); [exact Wk1|exact Wk'|exact Wk'|exact CV|].
  cbv beta iota. rewrite (rot_send_rest _ _ _ _ _ _ Fs), (rot_recv_rest _ _ _ _ _ _ Fr). apply conv_done.
Qed.

Lemma chosen_ot_at_1 id w ex0 ex1 num msgs choices : CotKernelLawsAt K (Z.max num kMinOts) -> stands id w 0 (lctx_ ex0) -> stands id w 1 (lctx_ ex1) -> w_ok w -> w_ok (w_add w 0 0 1) -> 0 < num < 2 ^ 31 ->
  Z.of_nat (length msgs) = num -> Z.of_nat (length choices) = num -> Forall (fun m => word (fst m) /\ word (snd m)) msgs ->
  exists c0 c1, conv id w (RunChosenOT false num [] choices ex0) (RunChosenOT true num msgs [] ex1) (w_add w 0 0 1) (choose_msgs msgs choices, with_ctx c0 ex0) ([], with_ctx c1 ex1) /\
    stands id (w_add w 0 0 1) 0 c0 /\ stands id (w_add w 0 0 1) 1 c1.
Proof.
  intros KA S0 S1 W W' Hn Hm Hc Wm. destruct (spawn_stands id w 0 _ S0 W' ltac:(lia)) as (sub0 & par0 & E0 & T0 & U0). destruct (spawn_stands id w 1 _ S1 W' ltac:(lia)) as (sub1 & par1 & E1 & T1 & U1).
  set (padded := Z.max num kMinOts) in *. assert (Hp : padded = Z.of_nat (Z.to_nat padded)) by (unfold padded, kMinOts; lia). set (P := Z.to_nat padded) in *. assert (HP : 0 < Z.of_nat P < 2 ^ 31) by (rewrite <- Hp; unfold padded, kMinOts; lia).
  pose proof (send_store_empty_ok (Heap [] []) P ltac:(lia)) as Es. pose proof (new_vector_ok (Heap [] []) (repeat 0 (2 * P)) _ _ (surjective_pairing _)) as [_ Gs]. set (hs := fst (new_vector (Heap [] []) (repeat 0 (2 * P)))) in *. set (p := snd (new_vector (Heap [] []) (repeat 0 (2 * P)))) in *.
  destruct (recv_store_empty_ok (Heap [] []) P ltac:(lia)) as (b & q & hr & Er & Gr).
  rewrite (RunChosenOT_send_eq num msgs ex1 sub1 par1 padded (empty_send P p) hs) by (lia || assumption || reflexivity || (rewrite Hp; exact Es)).
  rewrite (RunChosenOT_recv_eq num choices ex0 sub0 par0 padded (empty_recv P b q) hr) by (lia || assumption || reflexivity || (rewrite Hp; exact Er)).
  rewrite Hp in KA. destruct (cot_law_1 (child_id id (children w)) sub0 sub1 T0 T1) as (w1 & ks & kr & a0 & a1 & CI & w' & blocks & delta & rblocks & k0 & k1 & CV & V0 & V1 & Wk & CR).
  destruct (rot_values hs hr P p b q blocks delta rblocks CR ltac:(lia) Gs Gr) as (hs' & hr' & rr & Fs & Fr & RO).
  pose proof CI as (rds0 & _ & _ & _ & _ & LI). pose proof CV as (rds & _ & _ & _ & _ & LE). assert (Wk' : w_ok w') by (unfold w_ok, w_add, w_le in *; cbn in *; lia). assert (Wk1 : w_ok w1) by (unfold w_ok, w_add, w_le in *; cbn in *; lia). assert (W0 : w_ok (Traffic 0 0 0)) by (unfold w_ok; cbn; lia).
  destruct (tail_1 (Z.to_nat num) (flip_words padded) msgs choices hs' hr' (empty_send P p) rr) with (id := child_id id (children w)) (w := w') (l0 := fun ctx => with_ctx (set_stats (stats_ ctx) par0) ex0) (l1 := fun ctx => with_ctx (set_stats (stats_ ctx) par1) ex1) (ctx0 := k0) (ctx1 := k1) as (c0 & c1 & CT); try assumption; try lia.
  { pose proof (flip_words_enough padded ltac:(lia)). unfold padded in *. lia. }
  { apply (rot_ok_fewer P); [unfold P, padded; lia|exact RO]. }
  exists (set_stats (stats_ c0) par0), (set_stats (stats_ c1) par1). split; [|split; [apply U0|apply U1]]. apply (conv_child id w (children w) (Traffic 0 0 0) (w_add w' 1 1 0)); [lia|].
  rewrite Z2Nat.id in CT by lia. apply (conv_bind _ _ w1 _ _ _ _ _ (kr, a0) (ks, a1)); [exact W0|exact Wk1|exact Wk|exact CI|]. cbv beta iota. rewrite Hp at 1 2.
  apply (conv_bind _ _ w' _ _ _ _ _ (rr, hr', k0) (hs', k1)); [exact Wk1|exact Wk'|exact Wk| |exact CT].
  rewrite eval_rot_send_eq, eval_rot_recv_eq by lia. apply (conv_bind _ _ w' _ _ _ _ _ (rblocks, k0) (blocks, delta, k1)); [exact Wk1|exact Wk'|exact Wk'|exact CV|].
  cbv beta iota. rewrite (rot_send_rest _ _ _ _ _ _ Fs), (rot_recv_rest _ _ _ _ _ _ Fr). apply conv_done.
Qed.
(** For every number. *)
Context {KL : CotKernelLaws K}.
Lemma chosen_ot_0 id w ex0 ex1 num msgs choices : stands id w 0 (lctx_ ex0) -> stands id w 1 (lctx_ ex1) -> w_ok w -> w_ok (w_add w 0 0 1) -> 0 < num < 2 ^ 31 ->
  Z.of_nat (length msgs) = num -> Z.of_nat (length choices) = num -> Forall (fun m => word (fst m) /\ word (snd m)) msgs ->
  exists c0 c1, conv id w (RunChosenOT true num msgs [] ex0) (RunChosenOT false num [] choices ex1) (w_add w 0 0 1) ([], with_ctx c0 ex0) (choose_msgs msgs choices, with_ctx c1 ex1) /\
    stands id (w_add w 0 0 1) 0 c0 /\ stands id (w_add w 0 0 1) 1 c1.
Proof. intros S0 S1 W W' Hn. apply chosen_ot_at_0; try assumption. apply cot_laws. unfold kMinOts. lia. Qed.
Lemma chosen_ot_1 id w ex0 ex1 num msgs choices : stands id w 0 (lctx_ ex0) -> stands id w 1 (lctx_ ex1) -> w_ok w -> w_ok (w_add w 0 0 1) -> 0 < num < 2 ^ 31 ->
  Z.of_nat (length msgs) = num -> Z.of_nat (length choices) = num -> Forall (fun m => word (fst m) /\ word (snd m)) msgs ->
  exists c0 c1, conv id w (RunChosenOT false num [] choices ex0) (RunChosenOT true num msgs [] ex1) (w_add w 0 0 1) (choose_msgs msgs choices, with_ctx c0 ex0) ([], with_ctx c1 ex1) /\
    stands id (w_add w 0 0 1) 0 c0 /\ stands id (w_add w 0 0 1) 1 c1.
Proof. intros S0 S1 W W' Hn. apply chosen_ot_at_1; try assumption. apply cot_laws. unfold kMinOts. lia. Qed.
End Conversation.
