(* ===== verification/Shares.v ===== *)
(** The methods of the two executors on shares ([mpc/ss_executor.cc]): what a call of
    both does to the values that the shares stand for. *)
From Stdlib Require Import ZArith Lia List Bool Morphisms Btauto.
From S2P Require Import Prelude.
From S2P Require Import Cipher.
From S2P Require Import OtExt.
From S2P Require Import Parties.
From S2P Require Import Context.
From S2P Require Import Duo.
From S2P Require Import OtKernel.
From S2P Require Import SsExecutor.
From S2P Require Import ChosenOt.
Import ListNotations.
#[local] Open Scope Z_scope.

(** ** Shares and triples *)

Definition shares_a (x0 x1 v : Z) : Prop := word x0 /\ word x1 /\ u64 (x0 + x1) = v.
Definition shares_b (x0 x1 v : Z) : Prop := word x0 /\ word x1 /\ Z.lxor x0 x1 = v.
Definition triple_a (t0 t1 : ATriple) : Prop :=
  u64 (at_c t0 + at_c t1) = u64 ((at_a t0 + at_a t1) * (at_b t0 + at_b t1)).
Definition triple_b (t0 t1 : BTriple) : Prop :=
  word (bt_a t0) /\ word (bt_a t1) /\ word (bt_b t0) /\ word (bt_b t1) /\ word (bt_c t0) /\ word (bt_c t1) /\
  Z.lxor (bt_c t0) (bt_c t1) = Z.land (Z.lxor (bt_a t0) (bt_a t1)) (Z.lxor (bt_b t0) (bt_b t1)).

(** The two executors, with their triples, after the messages of [w]. *)
Record duo (id : list Z) (w : traffic) (na nb : nat) (ex0 ex1 : SSExecutor) : Prop := MkDuo {
  duo_rank0 : ex_rank ex0 = 0; duo_rank1 : ex_rank ex1 = 1;
  duo_ctx0 : stands id w 0 (lctx_ ex0); duo_ctx1 : stands id w 1 (lctx_ ex1);
  duo_a : Forall2 triple_a (arith_triples_ ex0) (arith_triples_ ex1); duo_na : length (arith_triples_ ex0) = na;
  duo_b : Forall2 triple_b (bool_triples_ ex0) (bool_triples_ ex1); duo_nb : length (bool_triples_ ex0) = nb }.

(** Tags and random words change nothing of this. *)
Lemma duo_tag id w na nb ex0 ex1 p q : duo id w na nb ex0 ex1 -> duo id w na nb (snd (NextTag p ex0)) (snd (NextTag q ex1)).
Proof. intros []; split; assumption. Qed.
Lemma duo_ctx id w na nb ex0 ex1 w' c0 c1 : duo id w na nb ex0 ex1 -> stands id w' 0 c0 -> stands id w' 1 c1 -> duo id w' na nb (with_ctx c0 ex0) (with_ctx c1 ex1).
Proof. intros [] S0 S1; split; assumption. Qed.

(** Drawing random words. *)
Definition after_draws (n : nat) (ex : SSExecutor) : SSExecutor :=
  MkExecutor (ex_rank ex) (lctx_ ex) (tag_ctr_ ex) (arith_triples_ ex) (bool_triples_ ex) (rng_ ex) (rng_pos_ ex + n).
Lemma draws_eq n ex : FastRandU64s n ex = (map (fun i => u64 (rng_ ex (rng_pos_ ex + i))) (seq 0 n), after_draws n ex).
Proof.
  unfold after_draws. revert ex; induction n as [|n IH]; intros ex; cbn [FastRandU64s]; [destruct ex; cbn; now rewrite Nat.add_0_r|]. unfold FastRandU64. rewrite IH. cbn [ex_rank lctx_ tag_ctr_ arith_triples_ bool_triples_ rng_ rng_pos_ seq map].
  rewrite Nat.add_0_r, <- seq_shift, map_map. rewrite Nat.add_succ_r. f_equal. f_equal. apply map_ext. intros i. now rewrite Nat.add_succ_r.
Qed.
Lemma duo_draws0 id w na nb ex0 ex1 n : duo id w na nb ex0 ex1 -> duo id w na nb (after_draws n ex0) ex1.
Proof. intros []; split; assumption. Qed.
Lemma duo_draws1 id w na nb ex0 ex1 n : duo id w na nb ex0 ex1 -> duo id w na nb ex0 (after_draws n ex1).
Proof. intros []; split; assumption. Qed.
Lemma draws_words n ex : Forall word (map (fun i => u64 (rng_ ex (rng_pos_ ex + i))) (seq 0 n)).
Proof. apply List.Forall_forall. intros x Hx. apply in_map_iff in Hx as (i & <- & _). apply u64_word. Qed.

(** ** Messages of executors *)

Section Messages.
Variables (id : list Z) (w : traffic) (na nb : nat) (ex0 ex1 : SSExecutor).
Hypothesis D : duo id w na nb ex0 ex1.
Hypothesis W : w_ok w.

Lemma with_with c c' ex : with_ctx c (with_ctx c' ex) = with_ctx c ex.
Proof. reflexivity. Qed.

(** Bytes each way: [V] is the type of what is read. *)
Definition send_bytes (d : list Z) (ex : SSExecutor) : prog SSExecutor := do ctx <- ctx_SendAsync (1 - ex_rank ex) d (lctx_ ex); Done (with_ctx ctx ex).
Definition recv_bytes {V} (size : nat) (parse : list Z -> V) (ex : SSExecutor) : prog (V * SSExecutor) :=
  do (buf, ctx) <- ctx_RecvP2P (1 - ex_rank ex) (lctx_ ex); ensure (length buf =? size)%nat (Done (parse buf, with_ctx ctx ex)).

Lemma exchange {V A B} size (parse : list Z -> V) d0 d1 (k0 : V * SSExecutor -> prog A) (k1 : V * SSExecutor -> prog B) : w_ok (w_add w 1 1 0) -> length d0 = size -> length d1 = size ->
  exists c0 c1, duo id (w_add w 1 1 0) na nb (with_ctx c0 ex0) (with_ctx c1 ex1) /\
    forall w2 a b, w_ok w2 -> conv id (w_add w 1 1 0) (k0 (parse d1, with_ctx c0 ex0)) (k1 (parse d0, with_ctx c1 ex1)) w2 a b ->
      conv id w (do ex <- send_bytes d0 ex0; do r <- recv_bytes size parse ex; k0 r) (do ex <- send_bytes d1 ex1; do r <- recv_bytes size parse ex; k1 r) w2 a b.
Proof.
  intros W2 L0 L1. assert (Wa : w_ok (w_add w 1 0 0)) by (unfold w_ok, w_add in *; cbn in *; lia). assert (Wb : w_ok (w_add w 0 1 0)) by (unfold w_ok, w_add in *; cbn in *; lia). assert (P : 0 <= to_1 w /\ 0 <= to_0 w) by (unfold w_ok in W; lia).
  destruct (send_01 id w _ d0 (duo_ctx0 _ _ _ _ _ _ D) Wa) as (s0 & E0 & S0); [lia|]. destruct (send_10 id w _ d1 (duo_ctx1 _ _ _ _ _ _ D) Wb) as (s1 & E1 & S1); [lia|].
  assert (EQ : w_add (w_add w 1 0 0) 0 1 0 = w_add w 1 1 0) by (unfold w_add; cbn; f_equal; lia). assert (EQ' : w_add (w_add w 0 1 0) 1 0 0 = w_add w 1 1 0) by (unfold w_add; cbn; f_equal; lia).
  destruct (recv_10 id (w_add w 1 0 0) s0 S0) as (r0 & F0 & R0); [rewrite EQ; exact W2|cbn; lia|]. destruct (recv_01 id (w_add w 0 1 0) s1 S1) as (r1 & F1 & R1); [rewrite EQ'; exact W2|cbn; lia|].
  rewrite EQ in R0. rewrite EQ' in R1. exists (r0 d1), (r1 d0). split; [exact (duo_ctx _ _ _ _ _ _ _ _ _ D (R0 d1) (R1 d0))|].
  intros w2 a b Wf Cv. unfold send_bytes. rewrite (duo_rank0 _ _ _ _ _ _ D), (duo_rank1 _ _ _ _ _ _ D). change (1 - 0) with 1. change (1 - 1) with 0. rewrite E0, E1. cbn [bind]. unfold recv_bytes. cbn [ex_rank lctx_ with_ctx].
  rewrite (duo_rank0 _ _ _ _ _ _ D), (duo_rank1 _ _ _ _ _ _ D). change (1 - 0) with 1. change (1 - 1) with 0. rewrite F0, F1. cbn [bind to_0 to_1 w_add]. rewrite !Z.add_0_r. apply conv_swap; try assumption.
  rewrite L0, L1, Nat.eqb_refl. exact Cv.
Qed.

Lemma exchange_vec {A B} tag0 tag1 n d0 d1 (k0 : list Z * SSExecutor -> prog A) (k1 : list Z * SSExecutor -> prog B) : w_ok (w_add w 1 1 0) -> length d0 = n -> length d1 = n -> Forall word d0 -> Forall word d1 ->
  exists c0 c1, duo id (w_add w 1 1 0) na nb (with_ctx c0 ex0) (with_ctx c1 ex1) /\
    forall w2 a b, w_ok w2 -> conv id (w_add w 1 1 0) (k0 (d1, with_ctx c0 ex0)) (k1 (d0, with_ctx c1 ex1)) w2 a b ->
      conv id w (do ex <- SendU64Span tag0 d0 ex0; do r <- RecvU64Vec tag0 n ex; k0 r) (do ex <- SendU64Span tag1 d1 ex1; do r <- RecvU64Vec tag1 n ex; k1 r) w2 a b.
Proof.
  intros W2 L0 L1 F0 F1. destruct (exchange (n * 8) (to_words 8 n) (words_bytes d0) (words_bytes d1) k0 k1 W2) as (c0 & c1 & D' & H); [now rewrite words_bytes_length, L0|now rewrite words_bytes_length, L1|].
  exists c0, c1. split; [exact D'|]. intros w2 a b Wf Cv. apply H; [exact Wf|]. rewrite <- L0 at 2. rewrite <- L1 at 1. now rewrite !to_words_bytes.
Qed.

Lemma le_word v : word v -> le_val (to_le 8 v) = v.
Proof. intros H. rewrite le_val_to_le. now apply Z.mod_small. Qed.

Lemma exchange_word {A B} tag0 tag1 v0 v1 (k0 : Z * SSExecutor -> prog A) (k1 : Z * SSExecutor -> prog B) : w_ok (w_add w 1 1 0) -> word v0 -> word v1 ->
  exists c0 c1, duo id (w_add w 1 1 0) na nb (with_ctx c0 ex0) (with_ctx c1 ex1) /\
    forall w2 a b, w_ok w2 -> conv id (w_add w 1 1 0) (k0 (v1, with_ctx c0 ex0)) (k1 (v0, with_ctx c1 ex1)) w2 a b ->
      conv id w (do ex <- SendU64 tag0 v0 ex0; do r <- RecvU64 tag0 ex; k0 r) (do ex <- SendU64 tag1 v1 ex1; do r <- RecvU64 tag1 ex; k1 r) w2 a b.
Proof.
  intros W2 F0 F1. destruct (exchange 8 le_val (to_le 8 v0) (to_le 8 v1) k0 k1 W2) as (c0 & c1 & D' & H); [apply length_to_le|apply length_to_le|].
  exists c0, c1. split; [exact D'|]. intros w2 a b Wf Cv. apply H; [exact Wf|]. now rewrite !le_word.
Qed.

(** A word from rank 0 to rank 1. *)
Lemma give_word {A} tag0 tag1 v (k0 : SSExecutor -> prog A) : w_ok (w_add w 1 0 0) -> word v ->
  exists c0 c1, duo id (w_add w 1 0 0) na nb (with_ctx c0 ex0) (with_ctx c1 ex1) /\
    forall a, k0 (with_ctx c0 ex0) = Done a -> conv id w (do ex <- SendU64 tag0 v ex0; k0 ex) (RecvU64 tag1 ex1) (w_add w 1 0 0) a (v, with_ctx c1 ex1).
Proof.
  intros W2 F. assert (P : 0 <= to_1 w) by (unfold w_ok in W; lia). destruct (send_01 id w _ (to_le 8 v) (duo_ctx0 _ _ _ _ _ _ D) W2 P) as (s0 & E0 & S0). destruct (recv_01 id w _ (duo_ctx1 _ _ _ _ _ _ D) W2 P) as (r1 & F1 & R1).
  exists s0, (r1 (to_le 8 v)). split; [exact (duo_ctx _ _ _ _ _ _ _ _ _ D S0 (R1 _))|]. intros a Ek. unfold SendU64, RecvU64. rewrite (duo_rank0 _ _ _ _ _ _ D), (duo_rank1 _ _ _ _ _ _ D). change (1 - 0) with 1. change (1 - 1) with 0. rewrite E0, F1. cbn [bind].
  apply conv_send; try assumption. rewrite length_to_le, Nat.eqb_refl, le_word by exact F. cbn [ensure]. rewrite Ek. apply conv_done.
Qed.
End Messages.

(** ** Sums modulo 2^64 *)

Definition eq64 (a b : Z) : Prop := u64 a = u64 b.
#[export] Instance eq64_equiv : Equivalence eq64.
Proof. split; unfold eq64; congruence. Qed.
#[export] Instance eq64_add : Proper (eq64 ==> eq64 ==> eq64) Z.add.
Proof. intros a b E c d F. unfold eq64, u64, uwrap in *. now rewrite Zplus_mod, E, F, <- Zplus_mod. Qed.
#[export] Instance eq64_mul : Proper (eq64 ==> eq64 ==> eq64) Z.mul.
Proof. intros a b E c d F. unfold eq64, u64, uwrap in *. now rewrite Zmult_mod, E, F, <- Zmult_mod. Qed.
#[export] Instance eq64_sub : Proper (eq64 ==> eq64 ==> eq64) Z.sub.
Proof. intros a b E c d F. unfold eq64, u64, uwrap in *. now rewrite Zminus_mod, E, F, <- Zminus_mod. Qed.
#[export] Instance eq64_opp : Proper (eq64 ==> eq64) Z.opp.
Proof. intros a b E. change (- a) with (0 - a). change (- b) with (0 - b). now rewrite E. Qed.
Lemma u64_eq64 x : eq64 (u64 x) x.
Proof. unfold eq64, u64, uwrap. now rewrite Z.mod_mod. Qed.
#[export] Instance u64_proper : Proper (eq64 ==> eq64) u64.
Proof. intros a b E. now rewrite !u64_eq64. Qed.
Lemma i64_eq64 x : eq64 (i64 x) x.
Proof. unfold eq64, i64, swrap, u64, uwrap. change (2 ^ (64 - 1)) with (2 ^ 63). rewrite Zminus_mod_idemp_l. f_equal. lia. Qed.
Lemma eq64_word x y : word x -> word y -> eq64 x y -> x = y.
Proof. unfold word, eq64, u64, uwrap. intros Hx Hy E. now rewrite !Z.mod_small in E. Qed.

Ltac drop64 := repeat (rewrite u64_eq64 || rewrite i64_eq64).
Ltac solve64 := match goal with |- u64 ?a = u64 ?b => change (eq64 a b) end; drop64.

Lemma shares_eq64 x0 x1 v : shares_a x0 x1 v -> eq64 (x0 + x1) v.
Proof. intros (_ & _ & <-). symmetry. apply u64_eq64. Qed.
Lemma shares_word_a x0 x1 v : shares_a x0 x1 v -> word v.
Proof. intros (_ & _ & <-). apply u64_word. Qed.
Lemma shares_word_b x0 x1 v : shares_b x0 x1 v -> word v.
Proof. intros (H0 & H1 & <-). now apply xor_word. Qed.

(** Local operations. *)
Lemma add_shares x0 x1 v y0 y1 u : shares_a x0 x1 v -> shares_a y0 y1 u -> shares_a (AddA x0 y0) (AddA x1 y1) (u64 (v + u)).
Proof. intros X Y. split; [apply u64_word|]. split; [apply u64_word|]. unfold AddA. solve64. rewrite <- (shares_eq64 _ _ _ X), <- (shares_eq64 _ _ _ Y). apply (f_equal u64). ring. Qed.
Lemma sub_shares x0 x1 v y0 y1 u : shares_a x0 x1 v -> shares_a y0 y1 u -> shares_a (SubA x0 y0) (SubA x1 y1) (u64 (v - u)).
Proof. intros X Y. split; [apply u64_word|]. split; [apply u64_word|]. unfold SubA. solve64. rewrite <- (shares_eq64 _ _ _ X), <- (shares_eq64 _ _ _ Y). apply (f_equal u64). ring. Qed.
Lemma neg_shares x0 x1 v : shares_a x0 x1 v -> shares_a (NegA x0) (NegA x1) (u64 (- v)).
Proof. intros X. split; [apply u64_word|]. split; [apply u64_word|]. unfold NegA. solve64. rewrite <- (shares_eq64 _ _ _ X). apply (f_equal u64). ring. Qed.
Lemma mul_const_shares x0 x1 v c : shares_a x0 x1 v -> shares_a (MulConstA x0 c) (MulConstA x1 c) (u64 (v * c)).
Proof. intros X. split; [apply u64_word|]. split; [apply u64_word|]. unfold MulConstA. solve64. rewrite <- (shares_eq64 _ _ _ X). apply (f_equal u64). ring. Qed.
Lemma xor_shares x0 x1 v y0 y1 u : shares_b x0 x1 v -> shares_b y0 y1 u -> shares_b (XorB x0 y0) (XorB x1 y1) (Z.lxor v u).
Proof.
  intros (A & B & <-) (C & E & <-). unfold XorB. split; [now apply xor_word|]. split; [now apply xor_word|]. apply Z.bits_inj'. intros k _. rewrite !Z.lxor_spec. btauto.
Qed.
Lemma not_word x : word x -> u64 (Z.lnot x) = Z.lxor x (2 ^ 64 - 1).
Proof.
  intros H. unfold u64, uwrap. rewrite <- Z.land_ones by lia. change (2 ^ 64 - 1) with (Z.ones 64). apply Z.bits_inj'. intros k Hk. rewrite Z.land_spec, Z.lnot_spec, Z.lxor_spec by exact Hk.
  rewrite Z.testbit_ones_nonneg by lia. destruct (Z.ltb_spec k 64); [now rewrite andb_true_r, xorb_true_r|]. rewrite andb_false_r, xorb_false_r. symmetry. rewrite <- (Z.mod_small x (2 ^ 64)) by exact H. now apply Z.mod_pow2_bits_high.
Qed.
Lemma not_shares id w na nb ex0 ex1 x0 x1 v : duo id w na nb ex0 ex1 -> shares_b x0 x1 v -> shares_b (NotB x0 ex0) (NotB x1 ex1) (u64 (Z.lnot v)).
Proof.
  intros D S. pose proof (shares_word_b _ _ _ S) as Wv. destruct S as (A & B & E). unfold NotB. rewrite (duo_rank0 _ _ _ _ _ _ D), (duo_rank1 _ _ _ _ _ _ D). cbn [Z.eqb]. split; [apply u64_word|]. split; [exact B|].
  rewrite !not_word by assumption. rewrite <- E. apply Z.bits_inj'. intros k _. rewrite !Z.lxor_spec. btauto.
Qed.

(** ** Methods that talk *)

Section Methods.
Variables (id : list Z) (w : traffic) (na nb : nat) (ex0 ex1 : SSExecutor).
Hypothesis D : duo id w na nb ex0 ex1.
Hypothesis W : w_ok w.

Lemma share_a secret s1 : word secret -> w_ok (w_add w 1 0 0) -> exists x0 x1 ex0' ex1', conv id w (ShareA secret ex0) (ShareA s1 ex1) (w_add w 1 0 0) (x0, ex0') (x1, ex1') /\ duo id (w_add w 1 0 0) na nb ex0' ex1' /\ shares_a x0 x1 secret.
Proof.
  intros Ws W2. pose proof (duo_draws0 _ _ _ _ _ _ 1 (duo_tag _ _ _ _ _ _ [115; 104; 97] [115; 104; 97] D)) as D'. set (r := u64 (rng_ ex0 (rng_pos_ ex0))).
  destruct (give_word id w na nb _ _ D' W (fst (NextTag [115; 104; 97] ex0)) (fst (NextTag [115; 104; 97] ex1)) r (fun ex => Done (u64 (secret - r), ex)) W2 (u64_word _)) as (c0 & c1 & D2 & H).
  exists (u64 (secret - r)), r, (with_ctx c0 (after_draws 1 (snd (NextTag [115; 104; 97] ex0)))), (with_ctx c1 (snd (NextTag [115; 104; 97] ex1))). split; [|split; [exact D2|]].
  - unfold ShareA, NextTag in *. cbn [ex_rank rng_ rng_pos_ FastRandU64]. rewrite (duo_rank0 _ _ _ _ _ _ D), (duo_rank1 _ _ _ _ _ _ D). cbn [Z.eqb]. specialize (H _ eq_refl).
    unfold after_draws in H. cbn [fst snd ex_rank lctx_ tag_ctr_ arith_triples_ bool_triples_ rng_ rng_pos_] in H. rewrite ?(duo_rank0 _ _ _ _ _ _ D), ?(duo_rank1 _ _ _ _ _ _ D), ?Nat.add_1_r in H. fold r. unfold after_draws. cbn [fst snd ex_rank lctx_ tag_ctr_ arith_triples_ bool_triples_ rng_ rng_pos_]. rewrite ?(duo_rank0 _ _ _ _ _ _ D), ?(duo_rank1 _ _ _ _ _ _ D), ?Nat.add_1_r. exact H.
  - split; [apply u64_word|]. split; [apply u64_word|]. apply eq64_word; [apply u64_word|exact Ws|]. drop64. apply (f_equal u64). ring.
Qed.
Lemma share_b secret s1 : word secret -> w_ok (w_add w 1 0 0) -> exists x0 x1 ex0' ex1', conv id w (ShareB secret ex0) (ShareB s1 ex1) (w_add w 1 0 0) (x0, ex0') (x1, ex1') /\ duo id (w_add w 1 0 0) na nb ex0' ex1' /\ shares_b x0 x1 secret.
Proof.
  intros Ws W2. pose proof (duo_draws0 _ _ _ _ _ _ 1 (duo_tag _ _ _ _ _ _ [115; 104; 98] [115; 104; 98] D)) as D'. set (r := u64 (rng_ ex0 (rng_pos_ ex0))).
  destruct (give_word id w na nb _ _ D' W (fst (NextTag [115; 104; 98] ex0)) (fst (NextTag [115; 104; 98] ex1)) r (fun ex => Done (Z.lxor secret r, ex)) W2 (u64_word _)) as (c0 & c1 & D2 & H).
  exists (Z.lxor secret r), r, (with_ctx c0 (after_draws 1 (snd (NextTag [115; 104; 98] ex0)))), (with_ctx c1 (snd (NextTag [115; 104; 98] ex1))). split; [|split; [exact D2|]].
  - unfold ShareB, NextTag in *. cbn [ex_rank rng_ rng_pos_ FastRandU64]. rewrite (duo_rank0 _ _ _ _ _ _ D), (duo_rank1 _ _ _ _ _ _ D). cbn [Z.eqb]. specialize (H _ eq_refl).
    unfold after_draws in H. cbn [fst snd ex_rank lctx_ tag_ctr_ arith_triples_ bool_triples_ rng_ rng_pos_] in H. rewrite ?(duo_rank0 _ _ _ _ _ _ D), ?(duo_rank1 _ _ _ _ _ _ D), ?Nat.add_1_r in H. fold r. unfold after_draws. cbn [fst snd ex_rank lctx_ tag_ctr_ arith_triples_ bool_triples_ rng_ rng_pos_]. rewrite ?(duo_rank0 _ _ _ _ _ _ D), ?(duo_rank1 _ _ _ _ _ _ D), ?Nat.add_1_r. exact H.
  - split; [apply xor_word; [exact Ws|apply u64_word]|]. split; [apply u64_word|]. now rewrite Z.lxor_assoc, Z.lxor_nilpotent, Z.lxor_0_r.
Qed.

Lemma reveal_a x0 x1 v : shares_a x0 x1 v -> w_ok (w_add w 1 1 0) -> exists ex0' ex1', conv id w (RevealA x0 ex0) (RevealA x1 ex1) (w_add w 1 1 0) (v, ex0') (v, ex1') /\ duo id (w_add w 1 1 0) na nb ex0' ex1'.
Proof.
  intros (A & B & E) W2. destruct (exchange_word id w na nb _ _ (duo_tag _ _ _ _ _ _ [114; 118; 97] [114; 118; 97] D) W (fst (NextTag [114; 118; 97] ex0)) (fst (NextTag [114; 118; 97] ex1)) x0 x1
    (fun r => let '(peer, ex) := r in Done (u64 (x0 + peer), ex)) (fun r => let '(peer, ex) := r in Done (u64 (x1 + peer), ex)) W2 A B) as (c0 & c1 & D2 & H).
  do 2 eexists. split; [|exact D2]. apply H; [exact W2|]. cbv beta iota. rewrite E, (Z.add_comm x1 x0), E. apply conv_done.
Qed.
Lemma reveal_b x0 x1 v : shares_b x0 x1 v -> w_ok (w_add w 1 1 0) -> exists ex0' ex1', conv id w (RevealB x0 ex0) (RevealB x1 ex1) (w_add w 1 1 0) (v, ex0') (v, ex1') /\ duo id (w_add w 1 1 0) na nb ex0' ex1'.
Proof.
  intros (A & B & E) W2. destruct (exchange_word id w na nb _ _ (duo_tag _ _ _ _ _ _ [114; 118; 98] [114; 118; 98] D) W (fst (NextTag [114; 118; 98] ex0)) (fst (NextTag [114; 118; 98] ex1)) x0 x1
    (fun r => let '(peer, ex) := r in Done (Z.lxor x0 peer, ex)) (fun r => let '(peer, ex) := r in Done (Z.lxor x1 peer, ex)) W2 A B) as (c0 & c1 & D2 & H).
  do 2 eexists. split; [|exact D2]. apply H; [exact W2|]. cbv beta iota. rewrite E, (Z.lxor_comm x1 x0), E. apply conv_done.
Qed.

(** Products: a triple each, and the differences are exchanged. *)
Lemma mul_a x0 x1 v y0 y1 u m : na = S m -> shares_a x0 x1 v -> shares_a y0 y1 u -> w_ok (w_add w 1 1 0) ->
  exists z0 z1 ex0' ex1', conv id w (MulA x0 y0 ex0) (MulA x1 y1 ex1) (w_add w 1 1 0) (z0, ex0') (z1, ex1') /\ duo id (w_add w 1 1 0) m nb ex0' ex1' /\ shares_a z0 z1 (u64 (v * u)).
Proof.
  intros Hna X Y W2. pose proof (duo_a _ _ _ _ _ _ D) as TA. pose proof (duo_na _ _ _ _ _ _ D) as LA. unfold MulA, ConsumeATriple. destruct (arith_triples_ ex0) as [|t0 ts0] eqn:E0; [cbn in LA; lia|]. inversion TA as [|? t1 ? ts1 TT TS E1 E2]; subst. cbn [bind].
  assert (D' : duo id w m nb (with_arith ts0 ex0) (with_arith ts1 ex1)) by (destruct D; split; try assumption; cbn in *; lia).
  set (e0 := u64 (x0 - at_a t0)). set (e1 := u64 (x1 - at_a t1)). set (f0 := u64 (y0 - at_b t0)). set (f1 := u64 (y1 - at_b t1)).
  pose proof (duo_tag _ _ _ _ _ _ [109; 108; 97] [109; 108; 97] D') as DT. destruct (exchange_vec id w m nb _ _ DT W (fst (NextTag [109; 108; 97] (with_arith ts0 ex0))) (fst (NextTag [109; 108; 97] (with_arith ts1 ex1))) 2 [e0; f0] [e1; f1]
    (fun r => let '(recv_ef, ex) := r in let e := u64 (e0 + at_ recv_ef 0) in let f := u64 (f0 + at_ recv_ef 1) in let z := u64 (u64 (at_c t0 + u64 (e * at_b t0)) + u64 (f * at_a t0)) in Done (if ex_rank ex =? 0 then u64 (z + u64 (e * f)) else z, ex))
    (fun r => let '(recv_ef, ex) := r in let e := u64 (e1 + at_ recv_ef 0) in let f := u64 (f1 + at_ recv_ef 1) in let z := u64 (u64 (at_c t1 + u64 (e * at_b t1)) + u64 (f * at_a t1)) in Done (if ex_rank ex =? 0 then u64 (z + u64 (e * f)) else z, ex))
    W2 eq_refl eq_refl) as (c0 & c1 & D2 & H); [repeat constructor; apply u64_word|repeat constructor; apply u64_word|].
  do 4 eexists. split; [apply H; [exact W2|cbv beta iota zeta; rewrite (duo_rank0 _ _ _ _ _ _ D2), (duo_rank1 _ _ _ _ _ _ D2); cbn [Z.eqb]; apply conv_done]|]. split; [exact D2|]. split; [apply u64_word|]. split; [apply u64_word|]. solve64.
  cbn [at_ nth]. unfold e0, e1, f0, f1. drop64. rewrite <- (shares_eq64 _ _ _ X), <- (shares_eq64 _ _ _ Y).
  set (c := at_c t0 + at_c t1). assert (HC : eq64 c ((at_a t0 + at_a t1) * (at_b t0 + at_b t1))) by exact TT.
  transitivity (c + (x0 + x1 - (at_a t0 + at_a t1)) * (at_b t0 + at_b t1) + (y0 + y1 - (at_b t0 + at_b t1)) * (at_a t0 + at_a t1) + (x0 + x1 - (at_a t0 + at_a t1)) * (y0 + y1 - (at_b t0 + at_b t1))).
  - apply (f_equal u64). unfold c. ring.
  - rewrite HC. apply (f_equal u64). ring.
Qed.

(** Conjunctions. *)
Lemma and_b x0 x1 v y0 y1 u m : nb = S m -> shares_b x0 x1 v -> shares_b y0 y1 u -> w_ok (w_add w 1 1 0) ->
  exists z0 z1 ex0' ex1', conv id w (AndB x0 y0 ex0) (AndB x1 y1 ex1) (w_add w 1 1 0) (z0, ex0') (z1, ex1') /\ duo id (w_add w 1 1 0) na m ex0' ex1' /\ shares_b z0 z1 (Z.land v u).
Proof.
  intros Hnb (X0 & X1 & X) (Y0 & Y1 & Y) W2. pose proof (duo_b _ _ _ _ _ _ D) as TB. pose proof (duo_nb _ _ _ _ _ _ D) as LB. unfold AndB, ConsumeBTriple. destruct (bool_triples_ ex0) as [|t0 ts0] eqn:E0; [cbn in LB; lia|]. inversion TB as [|? t1 ? ts1 TT TS E1 E2]; subst. cbn [bind].
  assert (D' : duo id w na m (with_bool ts0 ex0) (with_bool ts1 ex1)) by (destruct D; split; try assumption; cbn in *; lia).
  destruct TT as (A0 & A1 & B0 & B1 & C0 & C1 & TC). set (e0 := Z.lxor x0 (bt_a t0)). set (e1 := Z.lxor x1 (bt_a t1)). set (f0 := Z.lxor y0 (bt_b t0)). set (f1 := Z.lxor y1 (bt_b t1)).
  assert (We0 : word e0) by (now apply xor_word). assert (We1 : word e1) by (now apply xor_word). assert (Wf0 : word f0) by (now apply xor_word). assert (Wf1 : word f1) by (now apply xor_word).
  pose proof (duo_tag _ _ _ _ _ _ [97; 110; 98] [97; 110; 98] D') as DT. destruct (exchange_vec id w na m _ _ DT W (fst (NextTag [97; 110; 98] (with_bool ts0 ex0))) (fst (NextTag [97; 110; 98] (with_bool ts1 ex1))) 2 [e0; f0] [e1; f1]
    (fun r => let '(recv_ef, ex) := r in let e := Z.lxor e0 (at_ recv_ef 0) in let f := Z.lxor f0 (at_ recv_ef 1) in let z := Z.lxor (Z.lxor (bt_c t0) (Z.land e (bt_b t0))) (Z.land f (bt_a t0)) in Done (if ex_rank ex =? 0 then Z.lxor z (Z.land e f) else z, ex))
    (fun r => let '(recv_ef, ex) := r in let e := Z.lxor e1 (at_ recv_ef 0) in let f := Z.lxor f1 (at_ recv_ef 1) in let z := Z.lxor (Z.lxor (bt_c t1) (Z.land e (bt_b t1))) (Z.land f (bt_a t1)) in Done (if ex_rank ex =? 0 then Z.lxor z (Z.land e f) else z, ex))
    W2 eq_refl eq_refl) as (c0 & c1 & D2 & H); [apply Forall_cons; [assumption|apply Forall_cons; [assumption|apply Forall_nil]]|apply Forall_cons; [assumption|apply Forall_cons; [assumption|apply Forall_nil]]|].
  do 4 eexists. split; [apply H; [exact W2|cbv beta iota zeta; rewrite (duo_rank0 _ _ _ _ _ _ D2), (duo_rank1 _ _ _ _ _ _ D2); cbn [Z.eqb]; apply conv_done]|]. split; [exact D2|]. cbn [at_ nth].
  assert (N : forall a, word a -> 0 <= a) by (unfold word; lia). assert (We : word (Z.lxor e0 e1)) by (now apply xor_word). assert (Wf : word (Z.lxor f0 f1)) by (now apply xor_word).
  split; [repeat (apply xor_word || apply and_word || apply N || assumption)|]. split; [rewrite (Z.lxor_comm e1 e0), (Z.lxor_comm f1 f0); repeat (apply xor_word || apply and_word || apply N || assumption)|].
  apply Z.bits_inj'. intros k _. pose proof (f_equal (fun z => Z.testbit z k) TC) as TK. cbv beta in TK. rewrite Z.land_spec, !Z.lxor_spec in TK. unfold e0, e1, f0, f1. repeat (rewrite Z.lxor_spec || rewrite Z.land_spec).
  set (a0 := Z.testbit (bt_a t0) k) in *. set (a1 := Z.testbit (bt_a t1) k) in *. set (b0 := Z.testbit (bt_b t0) k) in *. set (b1 := Z.testbit (bt_b t1) k) in *. set (g0 := Z.testbit (bt_c t0) k) in *. set (g1 := Z.testbit (bt_c t1) k) in *.
  set (p0 := Z.testbit x0 k). set (p1 := Z.testbit x1 k). set (q0 := Z.testbit y0 k). set (q1 := Z.testbit y1 k).
  transitivity (xorb (xorb g0 g1) (xorb (xorb ((xorb (xorb p0 p1) (xorb a0 a1)) && (xorb b0 b1)) ((xorb (xorb q0 q1) (xorb b0 b1)) && (xorb a0 a1))) ((xorb (xorb p0 p1) (xorb a0 a1)) && (xorb (xorb q0 q1) (xorb b0 b1))))); [btauto|]. rewrite TK. btauto.
Qed.
End Methods.

(** ** A loop of both *)

Lemma conv_loop {S T} id (wk : nat -> traffic) (f0 : nat -> S -> prog S) (f1 : nat -> T -> prog T) (Inv : nat -> S -> T -> Prop) m : forall b s t, (forall k, (b <= k <= b + m)%nat -> w_ok (wk k)) ->
  (forall k s t, (b <= k < b + m)%nat -> Inv k s t -> exists s' t', conv id (wk k) (f0 k s) (f1 k t) (wk (k + 1)%nat) s' t' /\ Inv (k + 1)%nat s' t') -> Inv b s t ->
  exists s' t', conv id (wk b) (for_each (seq b m) f0 s) (for_each (seq b m) f1 t) (wk (b + m)%nat) s' t' /\ Inv (b + m)%nat s' t'.
Proof.
  induction m as [|m IH]; intros b s t K H I; [exists s, t; rewrite Nat.add_0_r; split; [apply conv_done|exact I]|].
  destruct (H b s t) as (s' & t' & Cv & I'); [lia|exact I|]. rewrite Nat.add_1_r in *. destruct (IH (Datatypes.S b) s' t') as (s'' & t'' & Cv' & I''); [intros k Hk; apply K; lia|intros k x y Hk; apply H; lia|exact I'|].
  exists s'', t''. rewrite Nat.add_succ_r. split; [|exact I'']. cbn [seq for_each]. apply (conv_bind _ _ (wk (Datatypes.S b)) _ _ _ _ _ s' t'); [apply K; lia|apply K; lia|apply (K (Datatypes.S (b + m))); lia|exact Cv|exact Cv'].
Qed.

(** ** Sums to bits: the carries of an addition *)

Definition carry (x y : Z) (k : nat) : bool := 2 ^ Z.of_nat k <=? x mod 2 ^ Z.of_nat k + y mod 2 ^ Z.of_nat k.

Lemma mod_succ_bit x k : x mod 2 ^ Z.of_nat (S k) = x mod 2 ^ Z.of_nat k + 2 ^ Z.of_nat k * Z.b2z (Z.testbit x (Z.of_nat k)).
Proof. rewrite Nat2Z.inj_succ, Z.pow_succ_r, Z.mul_comm by lia. rewrite Z.rem_mul_r by lia. now rewrite Z.testbit_spec' by lia. Qed.

Lemma carry_next x y k : Z.testbit (x + y) (Z.of_nat k) = xorb (xorb (Z.testbit x (Z.of_nat k)) (Z.testbit y (Z.of_nat k))) (carry x y k) /\
  carry x y (S k) = xorb (Z.testbit x (Z.of_nat k) && Z.testbit y (Z.of_nat k)) (xorb (Z.testbit x (Z.of_nat k)) (Z.testbit y (Z.of_nat k)) && carry x y k).
Proof.
  unfold carry. rewrite !mod_succ_bit. pose proof (mod_succ_bit (x + y) k) as M. pose proof (Zplus_mod x y (2 ^ Z.of_nat (S k))) as M'. rewrite (mod_succ_bit x), (mod_succ_bit y), M in M'. clear M. rename M' into M. symmetry in M. set (P := 2 ^ Z.of_nat k) in *. assert (HP : 0 < P) by (apply Z.pow_pos_nonneg; lia).
  assert (HS : 2 ^ Z.of_nat (S k) = 2 * P) by (rewrite Nat2Z.inj_succ, Z.pow_succ_r by lia; reflexivity). rewrite HS in *.
  pose proof (Z.mod_pos_bound x P HP). pose proof (Z.mod_pos_bound y P HP). pose proof (Z.mod_pos_bound (x + y) P HP) as B. rewrite (Zplus_mod x y P) in M, B. set (a := x mod P) in *. set (b := y mod P) in *.
  assert (E : (a + b) mod P = if P <=? a + b then a + b - P else a + b).
  { destruct (Z.leb_spec P (a + b)); [symmetry; apply (Z.mod_unique _ _ 1); lia|apply Z.mod_small; lia]. }
  rewrite E in M. set (s := a + P * Z.b2z (Z.testbit x (Z.of_nat k)) + (b + P * Z.b2z (Z.testbit y (Z.of_nat k)))) in *.
  assert (F : s mod (2 * P) = if 2 * P <=? s then s - 2 * P else s).
  { destruct (Z.leb_spec (2 * P) s); [symmetry; apply (Z.mod_unique _ _ 1); unfold s in *; destruct (Z.testbit x _), (Z.testbit y _); cbn [Z.b2z] in *; lia|apply Z.mod_small; unfold s in *; destruct (Z.testbit x _), (Z.testbit y _); cbn [Z.b2z] in *; lia]. }
  rewrite F in M. clear E F B. unfold s in *. destruct (Z.testbit x (Z.of_nat k)), (Z.testbit y (Z.of_nat k)), (Z.testbit (x + y) (Z.of_nat k)), (Z.leb_spec P (a + b)); cbn [Z.b2z xorb andb] in *;
    repeat match goal with |- context [?u <=? ?v] => destruct (Z.leb_spec u v) | H : context [?u <=? ?v] |- _ => destruct (Z.leb_spec u v) end; split; (reflexivity || lia).
Qed.

Lemma bit_word x k : word (bit x k).
Proof. rewrite bit_testbit. unfold word. destruct (Z.testbit x _); cbn [Z.b2z]; lia. Qed.
Lemma land_1_bit x : Z.land x 1 = bit x 0.
Proof. unfold bit. now rewrite Z.shiftr_0_r. Qed.
Lemma xor_bits x y k : Z.lxor (bit x k) (bit y k) = Z.b2z (Z.testbit (Z.lxor x y) (Z.of_nat k)).
Proof. rewrite !bit_testbit, Z.lxor_spec. now destruct (Z.testbit x _), (Z.testbit y _). Qed.

(** Bits below [k] only. *)
Definition below (k : nat) (x : Z) : Prop := forall j, Z.of_nat k <= j -> Z.testbit x j = false.

Lemma below_word x k : 0 <= x -> (k <= 64)%nat -> below k x -> word x.
Proof.
  intros Hx Hk B. unfold word. split; [exact Hx|]. destruct (Z.eq_dec x 0) as [->|N]; [lia|]. apply Z.log2_lt_pow2; [lia|]. destruct (Z.lt_ge_cases (Z.log2 x) 64) as [|G]; [assumption|].
  pose proof (Z.bit_log2 x ltac:(lia)) as E. rewrite B in E by lia. discriminate.
Qed.

(** The next bit of a partial sum. *)
Lemma put_bit r s k : (k < 64)%nat -> 0 <= r -> below k r -> s = 0 \/ s = 1 -> let r' := Z.lor r (u64 (Z.shiftl s (Z.of_nat k))) in
  0 <= r' /\ below (S k) r' /\ forall j, 0 <= j -> Z.testbit r' j = if j =? Z.of_nat k then Z.testbit s 0 else Z.testbit r j.
Proof.
  intros Hk Hr B Hs. cbv zeta. assert (E : u64 (Z.shiftl s (Z.of_nat k)) = Z.shiftl s (Z.of_nat k)) by (apply u64_small; destruct Hs as [-> | ->]; [apply (word_bit false k Hk)|apply (word_bit true k Hk)]). rewrite E.
  assert (T : forall j, 0 <= j -> Z.testbit (Z.shiftl s (Z.of_nat k)) j = if j =? Z.of_nat k then Z.testbit s 0 else false).
  { intros j Hj. rewrite Z.shiftl_spec by exact Hj. destruct (Z.eqb_spec j (Z.of_nat k)) as [->|N]; [now rewrite Z.sub_diag|]. destruct Hs as [-> | ->]; [apply Z.testbit_0_l|]. destruct (j - Z.of_nat k) eqn:F; [lia|reflexivity|reflexivity]. }
  split; [apply Z.lor_nonneg; split; [exact Hr|apply Z.shiftl_nonneg; lia]|]. split.
  - intros j Hj. rewrite Z.lor_spec, T, B by lia. destruct (Z.eqb_spec j (Z.of_nat k)); [lia|reflexivity].
  - intros j Hj. rewrite Z.lor_spec, T by lia. destruct (Z.eqb_spec j (Z.of_nat k)) as [->|N]; [now rewrite B by lia|apply orb_false_r].
Qed.

Section Conversion.
Variables (id : list Z) (w : traffic) (na m : nat) (x0 x1 : Z).
Hypothesis X0 : word x0.
Hypothesis X1 : word x1.
Hypothesis W : w_ok w.
Hypothesis W64 : w_ok (w_add w 64 64 0).
Let wk (k : nat) : traffic := w_add w (Z.of_nat k) (Z.of_nat k) 0.

Lemma wk_ok k : (k <= 64)%nat -> w_ok (wk k).
Proof. intros Hk. unfold w_ok, w_add in *; cbn in *. lia. Qed.
Lemma wk_next k : w_add (wk k) 1 1 0 = wk (k + 1).
Proof. unfold wk, w_add. cbn. f_equal; lia. Qed.

Definition a2b_inv (k : nat) (s0 s1 : Z * BShare * SSExecutor) : Prop :=
  let '(r0, c0, e0) := s0 in let '(r1, c1, e1) := s1 in
  duo id (wk k) na (64 + m - k) e0 e1 /\ 0 <= r0 /\ 0 <= r1 /\ below k r0 /\ below k r1 /\
  (forall j, 0 <= j < Z.of_nat k -> Z.testbit (Z.lxor r0 r1) j = Z.testbit (x0 + x1) j) /\
  shares_b c0 c1 (Z.b2z (carry x0 x1 k)).

Lemma a2b_step g0 g1 k s0 s1 : shares_b g0 g1 (Z.land x0 x1) -> (1 <= k < 64)%nat -> a2b_inv k s0 s1 ->
  exists s0' s1', conv id (wk k) (A2B_step g0 (XorB x0 0) k s0) (A2B_step g1 (XorB 0 x1) k s1) (wk (k + 1)%nat) s0' s1' /\ a2b_inv (k + 1)%nat s0' s1'.
Proof.
  intros G Hk. destruct s0 as [[r0 c0] e0], s1 as [[r1 c1] e1]. intros (D & R0 & R1 & B0 & B1 & T & Cs). unfold A2B_step, XorB. rewrite Z.lxor_0_r, Z.lxor_0_l.
  destruct (carry_next x0 x1 k) as [NB NC]. set (a := Z.testbit x0 (Z.of_nat k)) in *. set (b := Z.testbit x1 (Z.of_nat k)) in *. set (c := carry x0 x1 k) in *.
  assert (PS : shares_b (bit x0 k) (bit x1 k) (Z.b2z (xorb a b))) by (split; [apply bit_word|]; split; [apply bit_word|]; rewrite xor_bits, Z.lxor_spec; reflexivity).
  destruct (and_b id (wk k) na (64 + m - k) e0 e1 D (wk_ok k ltac:(lia)) (bit x0 k) (bit x1 k) _ c0 c1 _ (63 + m - k)%nat ltac:(lia) PS Cs) as (z0 & z1 & e0' & e1' & Cv & D' & ZS); [rewrite wk_next; apply wk_ok; lia|].
  rewrite wk_next in Cv, D'. eexists (_, _, e0'), (_, _, e1'). split.
  { apply (conv_bind _ _ (wk (k + 1)%nat) _ _ _ _ _ (z0, e0') (z1, e1')); [apply wk_ok; lia|apply wk_ok; lia|apply wk_ok; lia|exact Cv|]. apply conv_done. }
  rewrite (land_1_bit c0), (land_1_bit c1). assert (S01 : forall x y : Z, x = 0 \/ x = 1 -> y = 0 \/ y = 1 -> Z.lxor x y = 0 \/ Z.lxor x y = 1) by (intros x y [-> | ->] [-> | ->]; cbn; auto).
  assert (B01 : forall x j, bit x j = 0 \/ bit x j = 1) by (intros x j; rewrite bit_testbit; destruct (Z.testbit x _); cbn; auto).
  destruct (put_bit r0 (Z.lxor (bit x0 k) (bit c0 0)) k ltac:(lia) R0 B0 (S01 _ _ (B01 _ _) (B01 _ _))) as (R0' & B0' & T0). destruct (put_bit r1 (Z.lxor (bit x1 k) (bit c1 0)) k ltac:(lia) R1 B1 (S01 _ _ (B01 _ _) (B01 _ _))) as (R1' & B1' & T1).
  rewrite Nat.add_1_r in *. split; [now replace (64 + m - S k)%nat with (63 + m - k)%nat by lia|]. split; [exact R0'|]. split; [exact R1'|]. split; [exact B0'|]. split; [exact B1'|]. split.
  - intros j Hj. rewrite Z.lxor_spec, T0, T1 by lia. destruct (Z.eqb_spec j (Z.of_nat k)) as [->|N]; [|rewrite <- Z.lxor_spec; apply T; lia].
    rewrite NB, !Z.lxor_spec, !bit_testbit. change (Z.testbit x0 (Z.of_nat k)) with a. change (Z.testbit x1 (Z.of_nat k)) with b. change (Z.of_nat 0) with 0.
    assert (CK : xorb (Z.testbit c0 0) (Z.testbit c1 0) = c) by (rewrite <- Z.lxor_spec, (proj2 (proj2 Cs)); destruct c; reflexivity). rewrite <- CK.
    destruct a, b, (Z.testbit c0 0), (Z.testbit c1 0); reflexivity.
  - rewrite NC. assert (GS : shares_b (bit g0 k) (bit g1 k) (Z.b2z (a && b))) by (split; [apply bit_word|]; split; [apply bit_word|]; rewrite xor_bits, (proj2 (proj2 G)), Z.land_spec; reflexivity).
    replace (Z.b2z (xorb (a && b) (xorb a b && c))) with (Z.lxor (Z.b2z (a && b)) (Z.land (Z.b2z (xorb a b)) (Z.b2z c))) by (destruct a, b, c; reflexivity). apply xor_shares; assumption.
Qed.

Lemma carry_0 x y : carry x y 0 = false.
Proof. unfold carry. cbn [Z.of_nat]. change (2 ^ 0) with 1. rewrite !Z.mod_1_r. reflexivity. Qed.

Lemma a2b ex0 ex1 v : duo id w na (64 + m) ex0 ex1 -> shares_a x0 x1 v ->
  exists b0 b1 ex0' ex1', conv id w (A2B x0 ex0) (A2B x1 ex1) (w_add w 64 64 0) (b0, ex0') (b1, ex1') /\ duo id (w_add w 64 64 0) na m ex0' ex1' /\ shares_b b0 b1 v.
Proof.
  intros D (_ & _ & E). assert (E64 : wk 64 = w_add w 64 64 0) by reflexivity.
  unfold A2B. assert (L1 : length (bool_triples_ ex1) = (64 + m)%nat) by (rewrite <- (duo_nb _ _ _ _ _ _ D); symmetry; exact (Forall2_length (duo_b _ _ _ _ _ _ D))).
  unfold BoolTripleCount. rewrite (duo_nb _ _ _ _ _ _ D), L1. unfold kBits. rewrite !ensure_true by (apply Z.leb_le; lia). rewrite (duo_rank0 _ _ _ _ _ _ D), (duo_rank1 _ _ _ _ _ _ D). cbn [Z.eqb Pos.eqb]. cbv zeta.
  assert (W00 : word 0) by (unfold word; lia). assert (SA : shares_b x0 0 x0) by (split; [exact X0|split; [exact W00|apply Z.lxor_0_r]]). assert (SB : shares_b 0 x1 x1) by (split; [exact W00|split; [exact X1|apply Z.lxor_0_l]]).
  destruct (and_b id w na (64 + m) ex0 ex1 D W x0 0 x0 0 x1 x1 (63 + m)%nat ltac:(lia) SA SB) as (g0 & g1 & e0 & e1 & Cv & D1 & G); [exact (wk_ok 1 ltac:(lia))|]. change (w_add w 1 1 0) with (wk 1) in Cv, D1.
  destruct (conv_loop id wk (A2B_step g0 (XorB x0 0)) (A2B_step g1 (XorB 0 x1)) a2b_inv 63 1 (Z.land (XorB x0 0) 1, Z.land g0 1, e0) (Z.land (XorB 0 x1) 1, Z.land g1 1, e1)) as ([[r0 c0] e0'] & [[r1 c1] e1'] & CvL & D2 & R0 & R1 & B0 & B1 & T & Cs).
  - intros k Hk. apply wk_ok. lia.
  - intros k s t Hk I. apply a2b_step; [exact G|lia|exact I].
  - unfold XorB. rewrite Z.lxor_0_r, Z.lxor_0_l, !land_1_bit. destruct (carry_next x0 x1 0) as [NB NC]. rewrite carry_0 in NB, NC. change (Z.of_nat 0) with 0 in *.
    split; [now replace (64 + m - 1)%nat with (63 + m)%nat by lia|]. split; [apply bit_word|]. split; [apply bit_word|].
    assert (BB : forall x, below 1 (bit x 0)) by (intros x j Hj; rewrite bit_testbit; destruct (Z.testbit x _); cbn [Z.b2z]; destruct j; try lia; reflexivity). split; [apply BB|]. split; [apply BB|]. split.
    + intros j Hj. assert (j = 0) as -> by lia. rewrite NB, xor_bits, Z.lxor_spec. change (Z.of_nat 0) with 0. now destruct (Z.testbit x0 0), (Z.testbit x1 0).
    + rewrite NC, andb_false_r, xorb_false_r. split; [apply bit_word|]. split; [apply bit_word|]. rewrite xor_bits, (proj2 (proj2 G)), Z.land_spec. reflexivity.
  - exists r0, r1, e0', e1'. rewrite <- E64. change (1 + 63)%nat with 64%nat in *. split; [|split].
    + apply (conv_bind _ w (wk 1) _ _ _ _ _ (g0, e0) (g1, e1)); [exact W|apply wk_ok; lia|apply wk_ok; lia|exact Cv|]. change (64 - 1)%nat with 63%nat.
      apply (conv_bind _ _ (wk 64) _ _ _ _ _ (r0, c0, e0') (r1, c1, e1')); [apply wk_ok; lia|apply wk_ok; lia|apply wk_ok; lia|exact CvL|]. apply conv_done.
    + now replace (64 + m - 64)%nat with m in D2 by lia.
    + split; [now apply (below_word r0 64)|]. split; [now apply (below_word r1 64)|]. rewrite <- E. unfold u64, uwrap. apply Z.bits_inj'. intros j Hj. destruct (Z.lt_ge_cases j 64) as [Lj|Gj].
      * rewrite T by lia. symmetry. apply Z.mod_pow2_bits_low. lia.
      * rewrite Z.mod_pow2_bits_high by lia. rewrite Z.lxor_spec, B0, B1 by lia. reflexivity.
Qed.
End Conversion.
