(* ===== verification/Triples.v ===== *)
(** Triples from transfers, and bits to sums ([mpc/ss_executor.cc]): the products that
    the transfers share out. *)
From Stdlib Require Import ZArith Lia List Bool Morphisms Btauto.
From S2P Require Import Prelude.
From S2P Require Import Cipher.
From S2P Require Import OtExt.
From S2P Require Import Parties.
From S2P Require Import Context.
From S2P Require Import Duo.
From S2P Require Import OtKernel.
From S2P Require Import SsExecutor.
From S2P Require Import ChosenOt.
From S2P Require Import Shares.
Import ListNotations.
#[local] Open Scope Z_scope.

(** ** Sums over the bits *)

Definition zsum (f : nat -> Z) (n : nat) : Z := fold_right Z.add 0 (map f (seq 0 n)).

Lemma zsum_S f n : zsum f (S n) = zsum f n + f n.
Proof. unfold zsum. rewrite seq_S, map_app, fold_right_app. cbn. generalize (map f (seq 0 n)) as l. induction l as [|x l IH]; cbn; lia. Qed.
Lemma zsum_eq64 f g n : (forall k, (k < n)%nat -> eq64 (f k) (g k)) -> eq64 (zsum f n) (zsum g n).
Proof. induction n as [|n IH]; intros H; [reflexivity|]. rewrite !zsum_S, IH, (H n) by (lia || (intros k Hk; apply H; lia)). reflexivity. Qed.
Lemma zsum_add f g n : zsum (fun k => f k + g k) n = zsum f n + zsum g n.
Proof. induction n as [|n IH]; [reflexivity|]. rewrite !zsum_S, IH. ring. Qed.
Lemma zsum_mul c f n : zsum (fun k => c * f k) n = c * zsum f n.
Proof. induction n as [|n IH]; [cbn; ring|]. rewrite !zsum_S, IH. ring. Qed.
Lemma zsum_ext f g n : (forall k, (k < n)%nat -> f k = g k) -> zsum f n = zsum g n.
Proof. induction n as [|n IH]; intros H; [reflexivity|]. rewrite !zsum_S, IH, (H n) by (lia || (intros k Hk; apply H; lia)). reflexivity. Qed.

Lemma fold_words (step : Z -> nat -> Z) f n : (forall c k, (k < n)%nat -> eq64 (step c k) (c + f k)) -> eq64 (fold_left step (seq 0 n) 0) (zsum f n).
Proof.
  induction n as [|n IH]; intros H; [reflexivity|]. rewrite seq_S, fold_left_app, zsum_S. cbn [fold_left Nat.add]. rewrite H by lia. rewrite IH; [reflexivity|]. intros c k Hk. apply H. lia.
Qed.

Lemma bits_sum x n : zsum (fun k => 2 ^ Z.of_nat k * Z.b2z (Z.testbit x (Z.of_nat k))) n = x mod 2 ^ Z.of_nat n.
Proof. induction n as [|n IH]; [change (2 ^ Z.of_nat 0) with 1; now rewrite Z.mod_1_r|]. now rewrite zsum_S, IH, mod_succ_bit. Qed.
Lemma word_sum x : word x -> zsum (fun k => 2 ^ Z.of_nat k * Z.b2z (Z.testbit x (Z.of_nat k))) 64 = x.
Proof. intros H. rewrite bits_sum. apply Z.mod_small. exact H. Qed.

Lemma fold_xor_bits f n : (n <= 64)%nat -> (forall k, f k = 0 \/ f k = 1) -> forall j, 0 <= j ->
  Z.testbit (fold_left (fun c k => Z.lxor c (u64 (Z.shiftl (f k) (Z.of_nat k)))) (seq 0 n) 0) j = (j <? Z.of_nat n) && Z.testbit (f (Z.to_nat j)) 0.
Proof.
  intros Hn H j Hj. induction n as [|n IH]; [cbn [seq fold_left]; rewrite Z.testbit_0_l; destruct (Z.ltb_spec j (Z.of_nat 0)); [lia|reflexivity]|].
  rewrite seq_S, fold_left_app. cbn [fold_left Nat.add]. rewrite Z.lxor_spec, IH by lia.
  assert (E : u64 (Z.shiftl (f n) (Z.of_nat n)) = Z.shiftl (f n) (Z.of_nat n)) by (apply u64_small; destruct (H n) as [-> | ->]; [apply (word_bit false n)|apply (word_bit true n)]; lia). rewrite E, Z.shiftl_spec by exact Hj.
  destruct (Z.ltb_spec j (Z.of_nat n)), (Z.ltb_spec j (Z.of_nat (S n))); try lia; cbn [andb].
  - rewrite (Z.testbit_neg_r _ (j - Z.of_nat n)) by lia. apply xorb_false_r.
  - assert (j = Z.of_nat n) as -> by lia. rewrite Z.sub_diag, Nat2Z.id. apply xorb_false_l.
  - destruct (H n) as [-> | ->]; [now rewrite Z.testbit_0_l|]. destruct (j - Z.of_nat n) eqn:F; [lia|reflexivity|reflexivity].
Qed.

(** ** Indices of transfers *)

Lemma for_ots_length {A} n (f : nat -> nat -> A) : length (for_ots n f) = (n * 64)%nat.
Proof. unfold for_ots. induction n as [|n IH]; [reflexivity|]. rewrite seq_S, flat_map_app, length_app, IH. cbn [flat_map]. rewrite app_nil_r, length_map, length_seq. unfold kBits. lia. Qed.
Lemma nth_for_ots {A} n (f : nat -> nat -> A) i k d : (i < n)%nat -> (k < 64)%nat -> nth (ot_index i k) (for_ots n f) d = f i k.
Proof.
  intros Hi Hk. induction n as [|n IH]; [lia|]. unfold for_ots. rewrite seq_S, flat_map_app. fold (for_ots n f). cbn [flat_map Nat.add]. rewrite app_nil_r. unfold ot_index, kBits.
  destruct (Nat.eq_dec i n) as [->|N].
  - rewrite app_nth2 by (rewrite for_ots_length; lia). rewrite for_ots_length. replace (n * 64 + k - n * 64)%nat with k by lia. now apply nth_map_seq.
  - rewrite app_nth1 by (rewrite for_ots_length; lia). apply IH. lia.
Qed.

Lemma at_chosen msgs choices j : (j < length msgs)%nat -> at_ (choose_msgs msgs choices) j = if nth j choices false then snd (nth j msgs (0, 0)) else fst (nth j msgs (0, 0)).
Proof. intros Hj. unfold at_, choose_msgs. now apply nth_map_seq. Qed.

Lemma at_word l i : Forall word l -> word (at_ l i).
Proof. intros F. unfold at_. destruct (Nat.lt_ge_cases i (length l)); [rewrite List.Forall_forall in F; apply F, nth_In; assumption|rewrite nth_overflow by assumption; unfold word; lia]. Qed.

(** ** Cross terms *)

Definition arith_msgs (n : nat) (rs a : list Z) : list (Z * Z) := for_ots n (fun i k => (at_ rs (ot_index i k), u64 (at_ rs (ot_index i k) + u64 (Z.shiftl (at_ a i) (Z.of_nat k))))).
Definition arith_sent (n : nat) (rs : list Z) : list Z := map (fun i => fold_left (fun c k => u64 (c - at_ rs (ot_index i k))) (seq 0 kBits) 0) (seq 0 n).
Definition arith_got (n : nat) (recv : list Z) : list Z := map (fun i => fold_left (fun c k => u64 (c + at_ recv (ot_index i k))) (seq 0 kBits) 0) (seq 0 n).

Lemma arith_cross n rs a b i : (i < n)%nat -> word (at_ b i) ->
  eq64 (at_ (arith_sent n rs) i + at_ (arith_got n (choose_msgs (arith_msgs n rs a) (ot_choices n b))) i) (at_ a i * at_ b i).
Proof.
  intros Hi Wb. unfold arith_sent, arith_got. rewrite !at_map_seq by exact Hi. set (r k := at_ rs (ot_index i k)).
  assert (S : eq64 (fold_left (fun c k => u64 (c - at_ rs (ot_index i k))) (seq 0 kBits) 0) (zsum (fun k => - r k) 64)) by (apply fold_words; intros c k _; drop64; reflexivity).
  assert (G : eq64 (fold_left (fun c k => u64 (c + at_ (choose_msgs (arith_msgs n rs a) (ot_choices n b)) (ot_index i k))) (seq 0 kBits) 0) (zsum (fun k => r k + at_ a i * (2 ^ Z.of_nat k * Z.b2z (Z.testbit (at_ b i) (Z.of_nat k)))) 64)).
  { apply fold_words. intros c k Hk. drop64. rewrite at_chosen by (unfold arith_msgs; rewrite for_ots_length; unfold ot_index, kBits; lia). unfold ot_choices. rewrite nth_for_ots by assumption. unfold arith_msgs. rewrite nth_for_ots by assumption. cbn [fst snd]. rewrite bit_flag. fold (r k).
    destruct (Z.testbit (at_ b i) (Z.of_nat k)); cbn [Z.b2z]; [drop64; rewrite Z.shiftl_mul_pow2 by lia|]; apply (f_equal u64); ring. }
  rewrite S, G, zsum_add, zsum_mul, word_sum by exact Wb. assert (E : zsum (fun k => - r k) 64 = - zsum r 64) by (transitivity (-1 * zsum r 64); [rewrite <- zsum_mul; apply zsum_ext; intros; ring|ring]).
  rewrite E. apply (f_equal u64). ring.
Qed.

Lemma arith_msgs_words n rs a : Forall word rs -> Forall (fun m => word (fst m) /\ word (snd m)) (arith_msgs n rs a).
Proof.
  intros F. apply List.Forall_forall. intros m Hm. unfold arith_msgs, for_ots in Hm. apply in_flat_map in Hm as (i & _ & Hm). apply in_map_iff in Hm as (k & <- & _). cbn [fst snd]. split; [now apply at_word|apply u64_word].
Qed.

Definition bool_msgs (n : nat) (rs a : list Z) : list (Z * Z) := for_ots n (fun i k => (Z.land (at_ rs (ot_index i k)) 1, Z.lxor (Z.land (at_ rs (ot_index i k)) 1) (bit (at_ a i) k))).
Definition bool_sent (n : nat) (rs : list Z) : list Z := map (fun i => fold_left (fun c k => Z.lxor c (u64 (Z.shiftl (Z.land (at_ rs (ot_index i k)) 1) (Z.of_nat k)))) (seq 0 kBits) 0) (seq 0 n).
Definition bool_got (n : nat) (recv : list Z) : list Z := map (fun i => fold_left (fun c k => Z.lxor c (u64 (Z.shiftl (Z.land (at_ recv (ot_index i k)) 1) (Z.of_nat k)))) (seq 0 kBits) 0) (seq 0 n).

Lemma land_01 x : Z.land x 1 = 0 \/ Z.land x 1 = 1.
Proof. rewrite land_1_bit, bit_testbit. destruct (Z.testbit x _); cbn; auto. Qed.
Lemma fold_xor_word f : (forall k, f k = 0 \/ f k = 1) -> word (fold_left (fun c k => Z.lxor c (u64 (Z.shiftl (f k) (Z.of_nat k)))) (seq 0 64) 0).
Proof.
  intros H. assert (G : forall l c, word c -> Forall (fun k => (k < 64)%nat) l -> word (fold_left (fun c k => Z.lxor c (u64 (Z.shiftl (f k) (Z.of_nat k)))) l c)).
  { induction l as [|k l IH]; intros c Hc Hl; [exact Hc|]. cbn [fold_left]. inversion Hl; subst. apply IH; [apply xor_word; [exact Hc|apply u64_word]|assumption]. }
  apply G; [unfold word; lia|]. apply List.Forall_forall. intros k Hk. apply in_seq in Hk. lia.
Qed.

Lemma bool_cross n rs a b i : (i < n)%nat -> word (at_ a i) -> let s := at_ (bool_sent n rs) i in let g := at_ (bool_got n (choose_msgs (bool_msgs n rs a) (ot_choices n b))) i in
  word s /\ word g /\ Z.lxor s g = Z.land (at_ a i) (at_ b i).
Proof.
  intros Hi Wa. cbv zeta. unfold bool_sent, bool_got. rewrite !at_map_seq by exact Hi. change kBits with 64%nat. split; [apply fold_xor_word; intros; apply land_01|]. split; [apply fold_xor_word; intros; apply land_01|].
  apply Z.bits_inj'. intros j Hj. rewrite Z.lxor_spec, !fold_xor_bits, (Z.land_spec (at_ a i) (at_ b i)) by (lia || (intros; apply land_01)). destruct (Z.ltb_spec j (Z.of_nat 64)) as [Lj|Gj].
  - assert (Hk : (Z.to_nat j < 64)%nat) by lia. set (k := Z.to_nat j) in *. replace j with (Z.of_nat k) by (unfold k; lia). cbn [andb].
    rewrite at_chosen by (unfold bool_msgs; rewrite for_ots_length; unfold ot_index, kBits; lia). unfold ot_choices. rewrite nth_for_ots by assumption. unfold bool_msgs. rewrite nth_for_ots by assumption. cbn [fst snd]. rewrite bit_flag, !land_1_bit, !bit_testbit. change (Z.of_nat 0) with 0.
    destruct (Z.testbit (at_ rs (ot_index i k)) 0), (Z.testbit (at_ a i) (Z.of_nat k)), (Z.testbit (at_ b i) (Z.of_nat k)); reflexivity.
  - cbn [andb xorb]. rewrite <- (Z.mod_small (at_ a i) (2 ^ 64)) by exact Wa. rewrite Z.mod_pow2_bits_high by lia. reflexivity.
Qed.

Lemma bool_msgs_words n rs a : Forall (fun m => word (fst m) /\ word (snd m)) (bool_msgs n rs a).
Proof.
  apply List.Forall_forall. intros m Hm. unfold bool_msgs, for_ots in Hm. apply in_flat_map in Hm as (i & _ & Hm). apply in_map_iff in Hm as (k & <- & _). cbn [fst snd].
  assert (H : forall x, word (Z.land x 1)) by (intros x; destruct (land_01 x) as [-> | ->]; unfold word; lia). split; [apply H|]. apply xor_word; [apply H|apply bit_word].
Qed.

(** ** The directions *)

Section Directions.
Context {C : Cipher} {L : CipherLaws C} {K : CotKernel} {KL : CotKernelLaws K}.
Variables (id : list Z) (w : traffic) (na nb : nat) (ex0 ex1 : SSExecutor).
Hypothesis D : duo id w na nb ex0 ex1.
Hypothesis W : w_ok w.
Hypothesis W2 : w_ok (w_add w 0 0 1).

(** Chosen messages between the two, either way. *)
Lemma ot_01 {A B} num msgs choices (f0 : list Z * SSExecutor -> prog A) (f1 : list Z * SSExecutor -> prog B) : 0 < num < 2 ^ 31 -> Z.of_nat (length msgs) = num -> Z.of_nat (length choices) = num -> Forall (fun m => word (fst m) /\ word (snd m)) msgs ->
  exists e0 e1, duo id (w_add w 0 0 1) na nb e0 e1 /\ forall a b, f0 ([], e0) = Done a -> f1 (choose_msgs msgs choices, e1) = Done b ->
    conv id w (do r <- RunChosenOT true num msgs [] ex0; f0 r) (do r <- RunChosenOT false num [] choices ex1; f1 r) (w_add w 0 0 1) a b.
Proof.
  intros Hn Hm Hc Wm. destruct (chosen_ot_0 id w ex0 ex1 num msgs choices (duo_ctx0 _ _ _ _ _ _ D) (duo_ctx1 _ _ _ _ _ _ D) W W2 Hn Hm Hc Wm) as (c0 & c1 & Cv & S0 & S1).
  exists (with_ctx c0 ex0), (with_ctx c1 ex1). split; [exact (duo_ctx _ _ _ _ _ _ _ _ _ D S0 S1)|]. intros a b E0 E1. eapply conv_bind; [exact W|exact W2|exact W2|exact Cv|]. rewrite E0, E1. apply conv_done.
Qed.
Lemma ot_10 {A B} num msgs choices (f0 : list Z * SSExecutor -> prog A) (f1 : list Z * SSExecutor -> prog B) : 0 < num < 2 ^ 31 -> Z.of_nat (length msgs) = num -> Z.of_nat (length choices) = num -> Forall (fun m => word (fst m) /\ word (snd m)) msgs ->
  exists e0 e1, duo id (w_add w 0 0 1) na nb e0 e1 /\ forall a b, f0 (choose_msgs msgs choices, e0) = Done a -> f1 ([], e1) = Done b ->
    conv id w (do r <- RunChosenOT false num [] choices ex0; f0 r) (do r <- RunChosenOT true num msgs [] ex1; f1 r) (w_add w 0 0 1) a b.
Proof.
  intros Hn Hm Hc Wm. destruct (chosen_ot_1 id w ex0 ex1 num msgs choices (duo_ctx0 _ _ _ _ _ _ D) (duo_ctx1 _ _ _ _ _ _ D) W W2 Hn Hm Hc Wm) as (c0 & c1 & Cv & S0 & S1).
  exists (with_ctx c0 ex0), (with_ctx c1 ex1). split; [exact (duo_ctx _ _ _ _ _ _ _ _ _ D S0 S1)|]. intros a b E0 E1. eapply conv_bind; [exact W|exact W2|exact W2|exact Cv|]. rewrite E0, E1. apply conv_done.
Qed.
End Directions.

Section Preprocess.
Context {C : Cipher} {L : CipherLaws C} {K : CotKernel} {KL : CotKernelLaws K}.
Variables (id : list Z) (w : traffic) (na nb n : nat).
Hypothesis Hn : 0 < Z.of_nat (kBits * n) < 2 ^ 31.
Hypothesis W : w_ok w.
Hypothesis W2 : w_ok (w_add w 0 0 1).

Lemma choices_length b : Z.of_nat (length (ot_choices n b)) = Z.of_nat (kBits * n).
Proof. unfold ot_choices. rewrite for_ots_length. unfold kBits. lia. Qed.

Lemma arith_01 ex0 ex1 a0 b0 a1 b1 : duo id w na nb ex0 ex1 -> Forall word b1 ->
  exists x0 x1 e0 e1, conv id w (RunArithOtDirection true n (Z.of_nat (kBits * n)) a0 b0 ex0) (RunArithOtDirection false n (Z.of_nat (kBits * n)) a1 b1 ex1) (w_add w 0 0 1) (x0, e0) (x1, e1) /\
    duo id (w_add w 0 0 1) na nb e0 e1 /\ forall i, (i < n)%nat -> eq64 (at_ x0 i + at_ x1 i) (at_ a0 i * at_ b1 i).
Proof.
  intros D Wb. unfold RunArithOtDirection. rewrite draws_eq. set (rs := map _ _). fold (arith_msgs n rs a0). fold (arith_sent n rs).
  destruct (ot_01 id w na nb _ _ (duo_draws0 _ _ _ _ _ _ (n * kBits) D) W W2 (Z.of_nat (kBits * n)) (arith_msgs n rs a0) (ot_choices n b1) (fun r => let '(_, ex) := r in Done (arith_sent n rs, ex)) (fun r => let '(recv, ex) := r in Done (arith_got n recv, ex)) Hn) as (e0 & e1 & D' & H).
  - unfold arith_msgs. rewrite for_ots_length. unfold kBits. lia.
  - apply choices_length.
  - apply arith_msgs_words, draws_words.
  - do 4 eexists. split; [apply H; reflexivity|]. split; [exact D'|]. intros i Hi. apply arith_cross; [exact Hi|now apply at_word].
Qed.
Lemma arith_10 ex0 ex1 a0 b0 a1 b1 : duo id w na nb ex0 ex1 -> Forall word b0 ->
  exists x0 x1 e0 e1, conv id w (RunArithOtDirection false n (Z.of_nat (kBits * n)) a0 b0 ex0) (RunArithOtDirection true n (Z.of_nat (kBits * n)) a1 b1 ex1) (w_add w 0 0 1) (x0, e0) (x1, e1) /\
    duo id (w_add w 0 0 1) na nb e0 e1 /\ forall i, (i < n)%nat -> eq64 (at_ x1 i + at_ x0 i) (at_ a1 i * at_ b0 i).
Proof.
  intros D Wb. unfold RunArithOtDirection. rewrite draws_eq. set (rs := map _ _). fold (arith_msgs n rs a1). fold (arith_sent n rs).
  destruct (ot_10 id w na nb _ _ (duo_draws1 _ _ _ _ _ _ (n * kBits) D) W W2 (Z.of_nat (kBits * n)) (arith_msgs n rs a1) (ot_choices n b0) (fun r => let '(recv, ex) := r in Done (arith_got n recv, ex)) (fun r => let '(_, ex) := r in Done (arith_sent n rs, ex)) Hn) as (e0 & e1 & D' & H).
  - unfold arith_msgs. rewrite for_ots_length. unfold kBits. lia.
  - apply choices_length.
  - apply arith_msgs_words, draws_words.
  - do 4 eexists. split; [apply H; reflexivity|]. split; [exact D'|]. intros i Hi. apply arith_cross; [exact Hi|now apply at_word].
Qed.

Lemma bool_01 ex0 ex1 a0 b0 a1 b1 : duo id w na nb ex0 ex1 -> Forall word a0 ->
  exists x0 x1 e0 e1, conv id w (RunBoolOtDirection true n (Z.of_nat (kBits * n)) a0 b0 ex0) (RunBoolOtDirection false n (Z.of_nat (kBits * n)) a1 b1 ex1) (w_add w 0 0 1) (x0, e0) (x1, e1) /\
    duo id (w_add w 0 0 1) na nb e0 e1 /\ forall i, (i < n)%nat -> word (at_ x0 i) /\ word (at_ x1 i) /\ Z.lxor (at_ x0 i) (at_ x1 i) = Z.land (at_ a0 i) (at_ b1 i).
Proof.
  intros D Wa. unfold RunBoolOtDirection. rewrite draws_eq. set (rs := map _ _). fold (bool_msgs n rs a0). fold (bool_sent n rs).
  destruct (ot_01 id w na nb _ _ (duo_draws0 _ _ _ _ _ _ (n * kBits) D) W W2 (Z.of_nat (kBits * n)) (bool_msgs n rs a0) (ot_choices n b1) (fun r => let '(_, ex) := r in Done (bool_sent n rs, ex)) (fun r => let '(recv, ex) := r in Done (bool_got n recv, ex)) Hn) as (e0 & e1 & D' & H).
  - unfold bool_msgs. rewrite for_ots_length. unfold kBits. lia.
  - apply choices_length.
  - apply bool_msgs_words.
  - do 4 eexists. split; [apply H; reflexivity|]. split; [exact D'|]. intros i Hi. apply bool_cross; [exact Hi|now apply at_word].
Qed.
Lemma bool_10 ex0 ex1 a0 b0 a1 b1 : duo id w na nb ex0 ex1 -> Forall word a1 ->
  exists x0 x1 e0 e1, conv id w (RunBoolOtDirection false n (Z.of_nat (kBits * n)) a0 b0 ex0) (RunBoolOtDirection true n (Z.of_nat (kBits * n)) a1 b1 ex1) (w_add w 0 0 1) (x0, e0) (x1, e1) /\
    duo id (w_add w 0 0 1) na nb e0 e1 /\ forall i, (i < n)%nat -> word (at_ x1 i) /\ word (at_ x0 i) /\ Z.lxor (at_ x1 i) (at_ x0 i) = Z.land (at_ a1 i) (at_ b0 i).
Proof.
  intros D Wa. unfold RunBoolOtDirection. rewrite draws_eq. set (rs := map _ _). fold (bool_msgs n rs a1). fold (bool_sent n rs).
  destruct (ot_10 id w na nb _ _ (duo_draws1 _ _ _ _ _ _ (n * kBits) D) W W2 (Z.of_nat (kBits * n)) (bool_msgs n rs a1) (ot_choices n b0) (fun r => let '(recv, ex) := r in Done (bool_got n recv, ex)) (fun r => let '(_, ex) := r in Done (bool_sent n rs, ex)) Hn) as (e0 & e1 & D' & H).
  - unfold bool_msgs. rewrite for_ots_length. unfold kBits. lia.
  - apply choices_length.
  - apply bool_msgs_words.
  - do 4 eexists. split; [apply H; reflexivity|]. split; [exact D'|]. intros i Hi. apply bool_cross; [exact Hi|now apply at_word].
Qed.
End Preprocess.

Lemma drawn_words l f n : Forall word l -> Forall word (map (fun i => at_ l (f i)) (seq 0 n)).
Proof. intros F. apply List.Forall_forall. intros x Hx. apply in_map_iff in Hx as (i & <- & _). now apply at_word. Qed.

Lemma Forall2_map_seq {A B} (P : A -> B -> Prop) f g n : (forall i, (i < n)%nat -> P (f i) (g i)) -> Forall2 P (map f (seq 0 n)) (map g (seq 0 n)).
Proof.
  intros H. assert (G : forall l, (forall i, In i l -> P (f i) (g i)) -> Forall2 P (map f l) (map g l)) by (induction l as [|i l IH]; intros Hl; constructor; [apply Hl; now left|apply IH; intros j Hj; apply Hl; now right]).
  apply G. intros i Hi. apply in_seq in Hi. apply H. lia.
Qed.

Section Triples.
Context {C : Cipher} {L : CipherLaws C} {K : CotKernel} {KL : CotKernelLaws K}.
Variables (id : list Z) (w : traffic) (na nb n : nat) (ex0 ex1 : SSExecutor).
Hypothesis D : duo id w na nb ex0 ex1.
Hypothesis Hn : 0 < Z.of_nat (kBits * n) < 2 ^ 31.
Hypothesis W : w_ok w.
Hypothesis W2 : w_ok (w_add w 0 0 2).

Lemma w_two : w_add (w_add w 0 0 1) 0 0 1 = w_add w 0 0 2.
Proof. unfold w_add. cbn. f_equal; lia. Qed.

Lemma arith_triples : exists ex0' ex1', conv id w (PreprocessArithTriples n ex0) (PreprocessArithTriples n ex1) (w_add w 0 0 2) ex0' ex1' /\ duo id (w_add w 0 0 2) (na + n) nb ex0' ex1'.
Proof.
  assert (W1 : w_ok (w_add w 0 0 1)) by (unfold w_ok, w_add in *; cbn in *; lia). unfold PreprocessArithTriples. rewrite !ensure_true by (apply Nat.ltb_lt; unfold kBits in Hn; lia). rewrite !draws_eq. set (ab0 := map _ _). set (ab1 := map (fun i => u64 (rng_ ex1 _)) _). cbv zeta.
  pose proof (duo_draws1 _ _ _ _ _ _ (2 * n) (duo_draws0 _ _ _ _ _ _ (2 * n) D)) as D'. rewrite (duo_rank0 _ _ _ _ _ _ D' : ex_rank (after_draws _ ex0) = 0), (duo_rank1 _ _ _ _ _ _ D' : ex_rank (after_draws _ ex1) = 1). cbn [Z.eqb Pos.eqb].
  assert (F0 : Forall word ab0) by apply draws_words. assert (F1 : Forall word ab1) by apply draws_words.
  destruct (arith_01 id w na nb n Hn W W1 _ _ (evens ab0 n) (odds ab0 n) (evens ab1 n) (odds ab1 n) D' (drawn_words _ _ _ F1)) as (x0 & x1 & e0 & e1 & Cv & D1 & X).
  destruct (arith_10 id (w_add w 0 0 1) na nb n Hn W1 ltac:(rewrite w_two; exact W2) e0 e1 (evens ab0 n) (odds ab0 n) (evens ab1 n) (odds ab1 n) D1 (drawn_words _ _ _ F0)) as (y0 & y1 & e0' & e1' & Cv' & D2 & Y). rewrite w_two in Cv', D2.
  eexists _, _. split.
  - apply (conv_bind _ _ (w_add w 0 0 1) _ _ _ _ _ (x0, e0) (x1, e1)); [exact W|exact W1|exact W2|exact Cv|]. cbv beta iota. rewrite (duo_rank0 _ _ _ _ _ _ D1), (duo_rank1 _ _ _ _ _ _ D1). cbn [Z.eqb Pos.eqb].
    apply (conv_bind _ _ (w_add w 0 0 2) _ _ _ _ _ (y0, e0') (y1, e1')); [exact W1|exact W2|exact W2|exact Cv'|]. apply conv_done.
  - destruct D2 as [R0 R1 S0 S1 TA LA TB LB]. split; cbn [ex_rank lctx_ arith_triples_ bool_triples_ with_arith]; try assumption; [|rewrite length_app, LA, length_map, length_seq; reflexivity].
    apply Forall2_app; [exact TA|]. apply Forall2_map_seq. intros i Hi. unfold triple_a. cbn [at_a at_b at_c]. solve64. set (a0 := at_ (evens ab0 n) i) in *. set (b0 := at_ (odds ab0 n) i) in *. set (a1 := at_ (evens ab1 n) i) in *. set (b1 := at_ (odds ab1 n) i) in *.
    transitivity (a0 * b0 + a1 * b1 + (at_ x0 i + at_ x1 i) + (at_ y1 i + at_ y0 i)); [apply (f_equal u64); ring|]. rewrite (X i Hi), (Y i Hi). apply (f_equal u64). unfold a0, a1, b0, b1. ring.
Qed.

Lemma bool_triples : exists ex0' ex1', conv id w (PreprocessBoolTriples n ex0) (PreprocessBoolTriples n ex1) (w_add w 0 0 2) ex0' ex1' /\ duo id (w_add w 0 0 2) na (nb + n) ex0' ex1'.
Proof.
  assert (W1 : w_ok (w_add w 0 0 1)) by (unfold w_ok, w_add in *; cbn in *; lia). unfold PreprocessBoolTriples. rewrite !ensure_true by (apply Nat.ltb_lt; unfold kBits in Hn; lia). rewrite !draws_eq. set (ab0 := map _ _). set (ab1 := map (fun i => u64 (rng_ ex1 _)) _). cbv zeta.
  pose proof (duo_draws1 _ _ _ _ _ _ (2 * n) (duo_draws0 _ _ _ _ _ _ (2 * n) D)) as D'. rewrite (duo_rank0 _ _ _ _ _ _ D' : ex_rank (after_draws _ ex0) = 0), (duo_rank1 _ _ _ _ _ _ D' : ex_rank (after_draws _ ex1) = 1). cbn [Z.eqb Pos.eqb].
  assert (F0 : Forall word ab0) by apply draws_words. assert (F1 : Forall word ab1) by apply draws_words.
  destruct (bool_01 id w na nb n Hn W W1 _ _ (evens ab0 n) (odds ab0 n) (evens ab1 n) (odds ab1 n) D' (drawn_words _ _ _ F0)) as (x0 & x1 & e0 & e1 & Cv & D1 & X).
  destruct (bool_10 id (w_add w 0 0 1) na nb n Hn W1 ltac:(rewrite w_two; exact W2) e0 e1 (evens ab0 n) (odds ab0 n) (evens ab1 n) (odds ab1 n) D1 (drawn_words _ _ _ F1)) as (y0 & y1 & e0' & e1' & Cv' & D2 & Y). rewrite w_two in Cv', D2.
  eexists _, _. split.
  - apply (conv_bind _ _ (w_add w 0 0 1) _ _ _ _ _ (x0, e0) (x1, e1)); [exact W|exact W1|exact W2|exact Cv|]. cbv beta iota. rewrite (duo_rank0 _ _ _ _ _ _ D1), (duo_rank1 _ _ _ _ _ _ D1). cbn [Z.eqb Pos.eqb].
    apply (conv_bind _ _ (w_add w 0 0 2) _ _ _ _ _ (y0, e0') (y1, e1')); [exact W1|exact W2|exact W2|exact Cv'|]. apply conv_done.
  - destruct D2 as [R0 R1 S0 S1 TA LA TB LB]. split; cbn [ex_rank lctx_ arith_triples_ bool_triples_ with_bool]; try assumption; [|rewrite length_app, LB, length_map, length_seq; reflexivity].
    apply Forall2_app; [exact TB|]. apply Forall2_map_seq. intros i Hi. unfold triple_b. cbn [bt_a bt_b bt_c]. destruct (X i Hi) as (Wx0 & Wx1 & Ex), (Y i Hi) as (Wy1 & Wy0 & Ey).
    assert (Wa0 : word (at_ (evens ab0 n) i)) by (now apply at_word, drawn_words). assert (Wb0 : word (at_ (odds ab0 n) i)) by (now apply at_word, drawn_words). assert (Wa1 : word (at_ (evens ab1 n) i)) by (now apply at_word, drawn_words). assert (Wb1 : word (at_ (odds ab1 n) i)) by (now apply at_word, drawn_words).
    assert (N : forall a, word a -> 0 <= a) by (unfold word; lia). repeat (split; [repeat (apply xor_word || apply and_word || apply N || assumption)|]).
    apply Z.bits_inj'. intros k _. pose proof (f_equal (fun z => Z.testbit z k) Ex) as EX. pose proof (f_equal (fun z => Z.testbit z k) Ey) as EY. cbv beta in EX, EY. rewrite Z.lxor_spec, Z.land_spec in EX, EY.
    rewrite !Z.lxor_spec, !Z.land_spec, !Z.lxor_spec. set (p := Z.testbit (at_ x0 i) k) in *. set (q := Z.testbit (at_ x1 i) k) in *. set (r := Z.testbit (at_ y0 i) k) in *. set (s := Z.testbit (at_ y1 i) k) in *.
    destruct (Z.testbit (at_ (evens ab0 n) i) k), (Z.testbit (at_ (odds ab0 n) i) k), (Z.testbit (at_ (evens ab1 n) i) k), (Z.testbit (at_ (odds ab1 n) i) k), p, q, r, s; cbn in *; (reflexivity || discriminate).
Qed.

(** Bits to sums. *)
Lemma b2a x0 x1 v (W' : w_ok (w_add w 0 0 1)) : shares_b x0 x1 v ->
  exists z0 z1 ex0' ex1', conv id w (B2A x0 ex0) (B2A x1 ex1) (w_add w 0 0 1) (z0, ex0') (z1, ex1') /\ duo id (w_add w 0 0 1) na nb ex0' ex1' /\ shares_a z0 z1 v.
Proof.
  intros (X0 & X1 & E). unfold B2A. rewrite (duo_rank0 _ _ _ _ _ _ D), (duo_rank1 _ _ _ _ _ _ D). cbn [Z.eqb Pos.eqb]. rewrite draws_eq. set (rs := map (fun i => u64 (rng_ ex1 _)) _).
  destruct (ot_10 id w na nb _ _ (duo_draws1 _ _ _ _ _ _ kBits D) W W' (Z.of_nat kBits) (map (B2A_msg x1 rs) (seq 0 kBits)) (map (fun k => negb (bit x0 k =? 0)) (seq 0 kBits))
    (fun r => let '(recv_vals, ex) := r in Done (fold_left (fun s k => u64 (s + at_ recv_vals k)) (seq 0 kBits) 0, ex))
    (fun r => let '(_, ex) := r in Done (fold_left (fun s k => u64 (s + u64 (u64 (bit x1 k * u64 (Z.shiftl 1 (Z.of_nat k))) - at_ rs k))) (seq 0 kBits) 0, ex))) as (e0 & e1 & D' & H).
  - unfold kBits. lia.
  - now rewrite length_map, length_seq.
  - now rewrite length_map, length_seq.
  - apply List.Forall_forall. intros m Hm. apply in_map_iff in Hm as (k & <- & _). unfold B2A_msg. cbn [fst snd]. split; [apply at_word, draws_words|apply u64_word].
  - do 4 eexists. split; [apply H; reflexivity|]. split; [exact D'|]. assert (FW : forall (f : Z -> nat -> Z) l c, word c -> (forall c k, word (f c k)) -> word (fold_left f l c)) by (intros f l; induction l as [|k l IH]; intros c Hc Hf; [exact Hc|apply IH; auto]).
    assert (W00 : word 0) by (unfold word; lia). split; [apply FW; [exact W00|intros; apply u64_word]|]. split; [apply FW; [exact W00|intros; apply u64_word]|]. subst v.
    apply eq64_word; [apply u64_word|now apply xor_word|]. rewrite u64_eq64. set (p k := 2 ^ Z.of_nat k). set (b0 k := Z.testbit x0 (Z.of_nat k)). set (b1 k := Z.testbit x1 (Z.of_nat k)).
    assert (PW : forall k, u64 (Z.shiftl 1 (Z.of_nat k)) = u64 (p k)) by (intros k; rewrite Z.shiftl_mul_pow2 by lia; now rewrite Z.mul_1_l).
    assert (S0 : eq64 (fold_left (fun s k => u64 (s + at_ (choose_msgs (map (B2A_msg x1 rs) (seq 0 kBits)) (map (fun k => negb (bit x0 k =? 0)) (seq 0 kBits))) k)) (seq 0 kBits) 0)
      (zsum (fun k => at_ rs k + p k * (Z.b2z (b0 k) * (1 - 2 * Z.b2z (b1 k)))) kBits)).
    { apply fold_words. intros c k Hk. drop64. rewrite at_chosen by (rewrite length_map, length_seq; exact Hk). rewrite !nth_map_seq by exact Hk. unfold B2A_msg. cbn [fst snd]. rewrite !bit_flag, PW. fold (b0 k) (b1 k). destruct (b0 k), (b1 k); cbn [Z.b2z]; drop64; apply (f_equal u64); ring. }
    assert (S1 : eq64 (fold_left (fun s k => u64 (s + u64 (u64 (bit x1 k * u64 (Z.shiftl 1 (Z.of_nat k))) - at_ rs k))) (seq 0 kBits) 0) (zsum (fun k => p k * Z.b2z (b1 k) - at_ rs k) kBits)).
    { apply fold_words. intros c k Hk. drop64. rewrite Z.shiftl_mul_pow2, Z.mul_1_l, bit_testbit by lia. fold (b1 k) (p k). apply (f_equal u64). ring. }
    rewrite S0, S1, <- zsum_add. rewrite <- (word_sum (Z.lxor x0 x1)) by (now apply xor_word). change kBits with 64%nat. apply (f_equal u64). apply zsum_ext. intros k _. fold (p k). rewrite Z.lxor_spec. fold (b0 k) (b1 k). destruct (b0 k), (b1 k); cbn [Z.b2z xorb]; ring.
Qed.
End Triples.
