(* ===== verification/MpcProgram.v ===== *)
(** Programs over shared values: what any sequence of calls of the executors computes,
    against the same operations on plain words. *)
From Stdlib Require Import ZArith Lia List Bool.
From S2P Require Import Prelude.
From S2P Require Import Cipher.
From S2P Require Import OtExt.
From S2P Require Import Parties.
From S2P Require Import Context.
From S2P Require Import Collectives.
From S2P Require Import Duo.
From S2P Require Import OtKernel.
From S2P Require Import SsExecutor.
From S2P Require Import ChosenOt.
From S2P Require Import Shares.
From S2P Require Import Triples.
Import ListNotations.
#[local] Open Scope Z_scope.

(** Shares are kept in two lists of registers; a call that makes a share adds one. *)
Inductive op :=
  | OpTriplesA (n : nat) | OpTriplesB (n : nat)
  | OpShareA (secret : Z) | OpRevealA (r : nat) | OpAddA (r s : nat) | OpSubA (r s : nat) | OpNegA (r : nat) | OpMulConstA (r : nat) (c : Z) | OpMulA (r s : nat)
  | OpShareB (secret : Z) | OpRevealB (r : nat) | OpXorB (r s : nat) | OpNotB (r : nat) | OpAndB (r s : nat)
  | OpA2B (r : nat) | OpB2A (r : nat).

Record session := MkSession { regs_a : list AShare; regs_b : list BShare; revealed : list Z; executor : SSExecutor }.

Section Run.
Context {C : Cipher} {K : CotKernel}.
Definition put_a (s : session) (r : AShare * SSExecutor) : session := let '(x, ex) := r in MkSession (regs_a s ++ [x]) (regs_b s) (revealed s) ex.
Definition put_b (s : session) (r : BShare * SSExecutor) : session := let '(x, ex) := r in MkSession (regs_a s) (regs_b s ++ [x]) (revealed s) ex.
Definition put_out (s : session) (r : Z * SSExecutor) : session := let '(x, ex) := r in MkSession (regs_a s) (regs_b s) (revealed s ++ [x]) ex.
Definition put_ex (s : session) (ex : SSExecutor) : session := MkSession (regs_a s) (regs_b s) (revealed s) ex.

Definition run_op (o : op) (s : session) : prog session :=
  let ex := executor s in
  let a r := at_ (regs_a s) r in
  let b r := at_ (regs_b s) r in
  let input secret := if ex_rank ex =? 0 then secret else 0 in
  match o with
  | OpTriplesA n => bind (PreprocessArithTriples n ex) (fun ex => Done (put_ex s ex))
  | OpTriplesB n => bind (PreprocessBoolTriples n ex) (fun ex => Done (put_ex s ex))
  | OpShareA secret => bind (ShareA (input secret) ex) (fun r => Done (put_a s r))
  | OpRevealA r => bind (RevealA (a r) ex) (fun r => Done (put_out s r))
  | OpAddA r t => Done (put_a s (AddA (a r) (a t), ex))
  | OpSubA r t => Done (put_a s (SubA (a r) (a t), ex))
  | OpNegA r => Done (put_a s (NegA (a r), ex))
  | OpMulConstA r c => Done (put_a s (MulConstA (a r) c, ex))
  | OpMulA r t => bind (MulA (a r) (a t) ex) (fun r => Done (put_a s r))
  | OpShareB secret => bind (ShareB (input secret) ex) (fun r => Done (put_b s r))
  | OpRevealB r => bind (RevealB (b r) ex) (fun r => Done (put_out s r))
  | OpXorB r t => Done (put_b s (XorB (b r) (b t), ex))
  | OpNotB r => Done (put_b s (NotB (b r) ex, ex))
  | OpAndB r t => bind (AndB (b r) (b t) ex) (fun r => Done (put_b s r))
  | OpA2B r => bind (A2B (a r) ex) (fun r => Done (put_b s r))
  | OpB2A r => bind (B2A (b r) ex) (fun r => Done (put_a s r))
  end.
Fixpoint run_ops (os : list op) (s : session) : prog session :=
  match os with [] => Done s | o :: os => bind (run_op o s) (run_ops os) end.
End Run.

(** ** On plain words *)

Record plain := MkPlain { vals_a : list Z; vals_b : list Z; shown : list Z }.
Definition plain_op (o : op) (p : plain) : plain :=
  let a r := at_ (vals_a p) r in
  let b r := at_ (vals_b p) r in
  let set_a v := MkPlain (vals_a p ++ [v]) (vals_b p) (shown p) in
  let set_b v := MkPlain (vals_a p) (vals_b p ++ [v]) (shown p) in
  let show v := MkPlain (vals_a p) (vals_b p) (shown p ++ [v]) in
  match o with
  | OpTriplesA _ | OpTriplesB _ => p
  | OpShareA v => set_a v
  | OpRevealA r => show (a r)
  | OpAddA r t => set_a (u64 (a r + a t))
  | OpSubA r t => set_a (u64 (a r - a t))
  | OpNegA r => set_a (u64 (- a r))
  | OpMulConstA r c => set_a (u64 (a r * c))
  | OpMulA r t => set_a (u64 (a r * a t))
  | OpShareB v => set_b v
  | OpRevealB r => show (b r)
  | OpXorB r t => set_b (Z.lxor (b r) (b t))
  | OpNotB r => set_b (u64 (Z.lnot (b r)))
  | OpAndB r t => set_b (Z.land (b r) (b t))
  | OpA2B r => set_b (a r)
  | OpB2A r => set_a (b r)
  end.
Definition plain_ops (os : list op) (p : plain) : plain := fold_left (fun p o => plain_op o p) os p.

(** ** What a program needs: registers that are there, triples, and names *)

Record need := MkNeed { n_a : nat; n_b : nat; n_ta : nat; n_tb : nat }.
Definition wordb (v : Z) : bool := (0 <=? v) && (v <? 2 ^ 64).
Definition guard {A} (c : bool) (x : A) : option A := if c then Some x else None.
Definition plan_op (o : op) (n : need) : option need :=
  let more_a := MkNeed (S (n_a n)) (n_b n) (n_ta n) (n_tb n) in
  let more_b := MkNeed (n_a n) (S (n_b n)) (n_ta n) (n_tb n) in
  let ia r := (r <? n_a n)%nat in
  let ib r := (r <? n_b n)%nat in
  match o with
  | OpTriplesA k => guard ((0 <? k)%nat && (Z.of_nat (kBits * k) <? 2 ^ 31)) (MkNeed (n_a n) (n_b n) (n_ta n + k) (n_tb n))
  | OpTriplesB k => guard ((0 <? k)%nat && (Z.of_nat (kBits * k) <? 2 ^ 31)) (MkNeed (n_a n) (n_b n) (n_ta n) (n_tb n + k))
  | OpShareA v => guard (wordb v) more_a
  | OpRevealA r => guard (ia r) n
  | OpAddA r t | OpSubA r t => guard (ia r && ia t) more_a
  | OpNegA r | OpMulConstA r _ => guard (ia r) more_a
  | OpMulA r t => guard (ia r && ia t && (1 <=? n_ta n)%nat) (MkNeed (S (n_a n)) (n_b n) (n_ta n - 1) (n_tb n))
  | OpShareB v => guard (wordb v) more_b
  | OpRevealB r => guard (ib r) n
  | OpXorB r t => guard (ib r && ib t) more_b
  | OpNotB r => guard (ib r) more_b
  | OpAndB r t => guard (ib r && ib t && (1 <=? n_tb n)%nat) (MkNeed (n_a n) (S (n_b n)) (n_ta n) (n_tb n - 1))
  | OpA2B r => guard (ia r && (64 <=? n_tb n)%nat) (MkNeed (n_a n) (S (n_b n)) (n_ta n) (n_tb n - 64))
  | OpB2A r => guard (ib r) more_a
  end.
Fixpoint plan_ops (os : list op) (n : need) : option need :=
  match os with [] => Some n | o :: os => match plan_op o n with Some n => plan_ops os n | None => None end end.

(** Messages each way and children. *)
Definition cost_op (o : op) : Z * Z * Z :=
  match o with
  | OpTriplesA _ | OpTriplesB _ => (0, 0, 2)
  | OpShareA _ | OpShareB _ => (1, 0, 0)
  | OpRevealA _ | OpRevealB _ | OpMulA _ _ | OpAndB _ _ => (1, 1, 0)
  | OpA2B _ => (64, 64, 0)
  | OpB2A _ => (0, 0, 1)
  | _ => (0, 0, 0)
  end.
Definition spend (o : op) (w : traffic) : traffic := let '(a, b, c) := cost_op o in w_add w a b c.
Definition spend_all (os : list op) (w : traffic) : traffic := fold_left (fun w o => spend o w) os w.

(** ** The two sessions stand for the plain values *)

Definition together (id : list Z) (w : traffic) (n : need) (p : plain) (s0 s1 : session) : Prop :=
  duo id w (n_ta n) (n_tb n) (executor s0) (executor s1) /\
  (length (regs_a s0) = n_a n /\ length (regs_a s1) = n_a n /\ length (vals_a p) = n_a n /\ forall r, (r < n_a n)%nat -> shares_a (at_ (regs_a s0) r) (at_ (regs_a s1) r) (at_ (vals_a p) r)) /\
  (length (regs_b s0) = n_b n /\ length (regs_b s1) = n_b n /\ length (vals_b p) = n_b n /\ forall r, (r < n_b n)%nat -> shares_b (at_ (regs_b s0) r) (at_ (regs_b s1) r) (at_ (vals_b p) r)) /\
  revealed s0 = shown p /\ revealed s1 = shown p.

Lemma at_appended l x r n : length l = n -> at_ (l ++ [x]) r = if (r =? n)%nat then x else at_ l r.
Proof.
  intros <-.  unfold at_. destruct (Nat.eqb_spec r (length l)) as [->|N]; [now rewrite nth_middle|]. destruct (Nat.lt_ge_cases r (length l)); [now rewrite app_nth1|]. rewrite !nth_overflow; [reflexivity|lia|rewrite length_app; cbn; lia].
Qed.

Lemma together_a id w n p s0 s1 w' ta tb x0 x1 v e0 e1 : together id w n p s0 s1 -> duo id w' ta tb e0 e1 -> shares_a x0 x1 v ->
  together id w' (MkNeed (S (n_a n)) (n_b n) ta tb) (MkPlain (vals_a p ++ [v]) (vals_b p) (shown p)) (put_a s0 (x0, e0)) (put_a s1 (x1, e1)).
Proof.
  intros (_ & (A0 & A1 & A2 & A3) & B & R0 & R1) D X. split; [exact D|]. split; [|split; [exact B|split; [exact R0|exact R1]]]. cbn [regs_a vals_a put_a n_a]. rewrite !length_app. cbn [length]. repeat (split; [lia|]).
  intros r Hr. rewrite (at_appended _ _ _ _ A0), (at_appended _ _ _ _ A1), (at_appended _ _ _ _ A2). destruct (Nat.eqb_spec r (n_a n)); [exact X|apply A3; lia].
Qed.
Lemma together_b id w n p s0 s1 w' ta tb x0 x1 v e0 e1 : together id w n p s0 s1 -> duo id w' ta tb e0 e1 -> shares_b x0 x1 v ->
  together id w' (MkNeed (n_a n) (S (n_b n)) ta tb) (MkPlain (vals_a p) (vals_b p ++ [v]) (shown p)) (put_b s0 (x0, e0)) (put_b s1 (x1, e1)).
Proof.
  intros (_ & A & (B0 & B1 & B2 & B3) & R0 & R1) D X. split; [exact D|]. split; [exact A|]. split; [|split; [exact R0|exact R1]]. cbn [regs_b vals_b put_b n_b]. rewrite !length_app. cbn [length]. repeat (split; [lia|]).
  intros r Hr. rewrite (at_appended _ _ _ _ B0), (at_appended _ _ _ _ B1), (at_appended _ _ _ _ B2). destruct (Nat.eqb_spec r (n_b n)); [exact X|apply B3; lia].
Qed.
Lemma together_out id w n p s0 s1 w' e0 e1 v : together id w n p s0 s1 -> duo id w' (n_ta n) (n_tb n) e0 e1 ->
  together id w' n (MkPlain (vals_a p) (vals_b p) (shown p ++ [v])) (put_out s0 (v, e0)) (put_out s1 (v, e1)).
Proof. intros (_ & A & B & R0 & R1) D. split; [exact D|]. split; [exact A|]. split; [exact B|]. cbn. split; congruence. Qed.
Lemma together_ex id w n p s0 s1 w' ta tb e0 e1 : together id w n p s0 s1 -> duo id w' ta tb e0 e1 ->
  together id w' (MkNeed (n_a n) (n_b n) ta tb) p (put_ex s0 e0) (put_ex s1 e1).
Proof. intros (_ & A & B & R0 & R1) D. split; [exact D|]. split; [exact A|]. split; [exact B|]. split; assumption. Qed.

Lemma guard_some {A} c (x y : A) : guard c x = Some y -> c = true /\ y = x.
Proof. destruct c; [intros [= ->]; auto|discriminate]. Qed.

Section Refines.
Context {C : Cipher} {L : CipherLaws C} {K : CotKernel} {KL : CotKernelLaws K}.

Lemma w_zero w : w_add w 0 0 0 = w.
Proof. destruct w. unfold w_add. cbn. f_equal; lia. Qed.

(** A call and what is kept of it. *)
Lemma conv_keep {U V A B} id w w' (p0 : prog U) (p1 : prog V) (f0 : U -> prog A) (f1 : V -> prog B) u v a b : w_ok w -> w_ok w' -> conv id w p0 p1 w' u v -> f0 u = Done a -> f1 v = Done b ->
  conv id w (bind p0 f0) (bind p1 f1) w' a b.
Proof. intros W W' Cv E0 E1. apply (conv_bind _ _ w' _ _ _ _ _ u v); [exact W|exact W'|exact W'|exact Cv|]. rewrite E0, E1. apply conv_done. Qed.

Lemma wordb_word v : wordb v = true -> word v.
Proof. unfold wordb, word. rewrite andb_true_iff, Z.leb_le, Z.ltb_lt. exact id. Qed.

Ltac kept W' Cv := do 2 eexists; split; [eapply conv_keep; [eassumption|exact W'|exact Cv|reflexivity|reflexivity]|].
Ltac calls T W' H :=
  let e0 := fresh "e0" in let e1 := fresh "e1" in let Cv := fresh "Cv" in let D' := fresh "D'" in
  destruct H as (e0 & e1 & Cv & D'); kept W' Cv; first [eapply together_ex|eapply together_out]; [exact T|exact D'].
Ltac calls_share fin W' H :=
  let x0 := fresh "x0" in let x1 := fresh "x1" in let e0 := fresh "e0" in let e1 := fresh "e1" in let Cv := fresh "Cv" in let D' := fresh "D'" in let S := fresh "S" in
  destruct H as (x0 & x1 & e0 & e1 & Cv & D' & S); kept W' Cv; eapply fin; [exact D'|exact S].
Ltac local fin := do 2 eexists; rewrite w_zero; split; [apply conv_done|exact fin].

Lemma op_refines id w n n' p s0 s1 o : plan_op o n = Some n' -> w_ok w -> w_ok (spend o w) -> together id w n p s0 s1 ->
  exists t0 t1, conv id w (run_op o s0) (run_op o s1) (spend o w) t0 t1 /\ together id (spend o w) n' (plain_op o p) t0 t1.
Proof.
  intros Pl W W' T. pose proof T as (D & (_ & _ & _ & A) & (_ & _ & _ & B) & _). pose proof (duo_rank0 _ _ _ _ _ _ D) as R0. pose proof (duo_rank1 _ _ _ _ _ _ D) as R1. unfold spend in *.
  assert (TA := fun w' ta tb x0 x1 v e0 e1 => together_a id w n p s0 s1 w' ta tb x0 x1 v e0 e1 T). assert (TB := fun w' ta tb x0 x1 v e0 e1 => together_b id w n p s0 s1 w' ta tb x0 x1 v e0 e1 T).
  destruct o; cbn [cost_op plan_op run_op plain_op] in *; cbv zeta in *; apply guard_some in Pl as [G ->]; rewrite ?R0, ?R1; cbn [Z.eqb Pos.eqb];
    repeat match goal with H : (_ && _) = true |- _ => apply andb_true_iff in H as [? ?] end; repeat match goal with H : (_ <? _)%nat = true |- _ => apply Nat.ltb_lt in H | H : (_ <=? _)%nat = true |- _ => apply Nat.leb_le in H | H : (_ <? _) = true |- _ => apply Z.ltb_lt in H end.
  - calls T W' (arith_triples id w _ _ n0 _ _ D ltac:(unfold kBits in *; lia) W W').
  - calls T W' (bool_triples id w _ _ n0 _ _ D ltac:(unfold kBits in *; lia) W W').
  - calls_share TA W' (share_a _ _ _ _ _ _ D W _ 0 (wordb_word _ G) W').
  - calls T W' (reveal_a _ _ _ _ _ _ D W _ _ _ (A r G) W').
  - local (TA w _ _ _ _ _ _ _ D (add_shares _ _ _ _ _ _ (A r ltac:(assumption)) (A s ltac:(assumption)))).
  - local (TA w _ _ _ _ _ _ _ D (sub_shares _ _ _ _ _ _ (A r ltac:(assumption)) (A s ltac:(assumption)))).
  - local (TA w _ _ _ _ _ _ _ D (neg_shares _ _ _ (A r ltac:(assumption)))).
  - local (TA w _ _ _ _ _ _ _ D (mul_const_shares _ _ _ c (A r ltac:(assumption)))).
  - calls_share TA W' (mul_a _ _ _ _ _ _ D W _ _ _ _ _ _ (n_ta n - 1) ltac:(lia) (A r ltac:(assumption)) (A s ltac:(assumption)) W').
  - calls_share TB W' (share_b _ _ _ _ _ _ D W _ 0 (wordb_word _ G) W').
  - calls T W' (reveal_b _ _ _ _ _ _ D W _ _ _ (B r G) W').
  - local (TB w _ _ _ _ _ _ _ D (xor_shares _ _ _ _ _ _ (B r ltac:(assumption)) (B s ltac:(assumption)))).
  - local (TB w _ _ _ _ _ _ _ D (not_shares _ _ _ _ _ _ _ _ _ D (B r ltac:(assumption)))).
  - calls_share TB W' (and_b _ _ _ _ _ _ D W _ _ _ _ _ _ (n_tb n - 1) ltac:(lia) (B r ltac:(assumption)) (B s ltac:(assumption)) W').
  - pose proof (A r ltac:(assumption)) as S. rewrite (eq_sym (Nat.sub_add 64 (n_tb n) ltac:(lia)) : n_tb n = _), Nat.add_comm in D. destruct S as (S0 & S1 & SE).
    calls_share TB W' (a2b id w (n_ta n) (n_tb n - 64) _ _ S0 S1 W W' _ _ _ D (conj S0 (conj S1 SE))).
  - calls_share TA W' (b2a id w _ _ 1 _ _ D ltac:(unfold kBits; lia) W _ _ _ W' (B r ltac:(assumption))).
Qed.

(** ** Programs *)

Lemma spend_le o w : w_le w (spend o w).
Proof. unfold spend, w_le, w_add. destruct o; cbn; lia. Qed.
Lemma spend_all_le os : forall w, w_le w (spend_all os w).
Proof. induction os as [|o os IH]; intros w; [unfold w_le; cbn; lia|]. pose proof (spend_le o w). pose proof (IH (spend o w)). unfold w_le in *. cbn. unfold spend_all in *. lia. Qed.
Lemma w_ok_before w w' w'' : w_ok w -> w_le w w' -> w_le w' w'' -> w_ok w'' -> w_ok w'.
Proof. unfold w_ok, w_le. lia. Qed.

Lemma ops_refine id os : forall w n n' p s0 s1, plan_ops os n = Some n' -> w_ok w -> w_ok (spend_all os w) -> together id w n p s0 s1 ->
  exists t0 t1, conv id w (run_ops os s0) (run_ops os s1) (spend_all os w) t0 t1 /\ together id (spend_all os w) n' (plain_ops os p) t0 t1.
Proof.
  induction os as [|o os IH]; intros w n n' p s0 s1 Pl W W' T; cbn [plan_ops run_ops spend_all plain_ops fold_left] in *; [injection Pl as <-; exists s0, s1; split; [apply conv_done|exact T]|].
  destruct (plan_op o n) as [m|] eqn:E; [|discriminate]. assert (W1 : w_ok (spend o w)) by (eapply w_ok_before; [exact W|apply spend_le|apply (spend_all_le os)|exact W']).
  destruct (op_refines _ _ _ _ _ _ _ _ E W W1 T) as (u0 & u1 & Cv & U). destruct (IH _ _ _ _ _ _ Pl W1 W' U) as (t0 & t1 & Cv' & V). exists t0, t1. split; [|exact V].
  exact (conv_bind _ _ _ _ _ _ _ _ _ _ _ _ W W1 W' Cv Cv').
Qed.

(** Executors that are made. *)
Lemma executors_start id ctx0 ctx1 rng0 rng1 : stands id (Traffic 0 0 0) 0 ctx0 -> stands id (Traffic 0 0 0) 1 ctx1 ->
  exists ex0 ex1, SSExecutor_new 0 ctx0 rng0 = Some ex0 /\ SSExecutor_new 1 ctx1 rng1 = Some ex1 /\
    together id (Traffic 0 0 0) (MkNeed 0 0 0 0) (MkPlain [] [] []) (MkSession [] [] [] ex0) (MkSession [] [] [] ex1).
Proof.
  intros S0 S1. pose proof S0 as (_ & L0 & _). pose proof S1 as (_ & L1 & _). unfold SSExecutor_new, WorldSize. rewrite L0, L1. do 2 eexists. split; [reflexivity|]. split; [reflexivity|].
  split; [split; try assumption; try reflexivity; constructor|]. cbn. repeat split; try reflexivity; intros; lia.
Qed.
End Refines.
