(* ===== verification/Roles.v ===== *)
(** Conversations by role: a first speaker at either rank, and the other party. *)
From Stdlib Require Import ZArith Lia List Bool.
From S2P Require Import Prelude.
From S2P Require Import Parties.
From S2P Require Import Context.
From S2P Require Import Duo.
From S2P Require Import ChosenOt.
Import ListNotations.
#[local] Open Scope Z_scope.

Section Roles.
(** The first party is rank 1. *)
Variables (r : bool) (id : list Z).

Definition first_rank : Z := if r then 1 else 0.
Definition second_rank : Z := if r then 0 else 1.
(** [a] messages of the first party, [b] of the second, [c] children. *)
Definition said (w : traffic) (a b c : Z) : traffic := if r then w_add w b a c else w_add w a b c.
Definition duo {A B} (w : traffic) (p : prog A) (q : prog B) (w' : traffic) (a : A) (b : B) : Prop :=
  if r then conv id w q p w' b a else conv id w p q w' a b.
Definition both_stand (w : traffic) (ctx0 ctx1 : Context) : Prop := stands id w first_rank ctx0 /\ stands id w second_rank ctx1.

Lemma said_said w a b c a' b' c' : said (said w a b c) a' b' c' = said w (a + a') (b + b') (c + c').
Proof. unfold said, w_add. destruct r; cbn; f_equal; lia. Qed.
Lemma said_0 w : said w 0 0 0 = w.
Proof. unfold said, w_add. destruct w, r; cbn; f_equal; lia. Qed.
Lemma said_between w a b c a' b' c' : w_ok w -> w_ok (said w a b c) -> 0 <= a' <= a -> 0 <= b' <= b -> 0 <= c' <= c -> w_ok (said w a' b' c').
Proof. unfold w_ok, said, w_add. destruct r; cbn; lia. Qed.

Lemma duo_done {A B} w (a : A) (b : B) : duo w (Done a) (Done b) w a b.
Proof. unfold duo. destruct r; apply conv_done. Qed.
Lemma duo_bind {A B A' B'} w w1 w2 (p : prog A) (q : prog B) (f : A -> prog A') (g : B -> prog B') a b a' b' : w_ok w -> w_ok w1 -> w_ok w2 ->
  duo w p q w1 a b -> duo w1 (f a) (g b) w2 a' b' -> duo w (bind p f) (bind q g) w2 a' b'.
Proof. unfold duo. destruct r; intros K K1 K2 H H'; refine (conv_bind id w w1 w2 _ _ _ _ _ _ _ _ K K1 K2 H H'). Qed.

Lemma next_of_first w ctx0 ctx1 : both_stand w ctx0 ctx1 -> NextRank ctx0 1 = second_rank /\ NextRank ctx1 1 = first_rank.
Proof. unfold both_stand, first_rank, second_rank. intros [S0 S1]. destruct r; split; (eapply next_of_0 || eapply next_of_1); eassumption. Qed.

(** One message, either way. *)
Lemma duo_say w ctx0 ctx1 v : w_ok w -> w_ok (said w 1 0 0) -> both_stand w ctx0 ctx1 ->
  exists c0 c1, both_stand (said w 1 0 0) c0 c1 /\
    forall A B (f : Context -> prog A) (g : list Z * Context -> prog B) w2 a b, w_ok w2 -> duo (said w 1 0 0) (f c0) (g (v, c1)) w2 a b ->
      duo w (bind (ctx_SendAsync (NextRank ctx0 1) v ctx0) f) (bind (ctx_RecvP2P (NextRank ctx1 1) ctx1) g) w2 a b.
Proof.
  intros K K1 S. destruct (next_of_first w ctx0 ctx1 S) as [-> ->]. destruct S as [S0 S1]. assert (P : 0 <= to_0 w /\ 0 <= to_1 w) by (unfold w_ok in K; lia).
  unfold both_stand, duo, said, first_rank, second_rank in *. destruct r.
  - destruct (send_10 id w ctx0 v S0 K1) as (c0 & E0 & T0); [lia|]. destruct (recv_10 id w ctx1 S1 K1) as (c1 & E1 & T1); [lia|]. exists c0, (c1 v). split; [split; [exact T0|apply T1]|].
    intros A B f g w2 a b K2 H. rewrite E0, E1. cbn [bind]. now apply conv_reply.
  - destruct (send_01 id w ctx0 v S0 K1) as (c0 & E0 & T0); [lia|]. destruct (recv_01 id w ctx1 S1 K1) as (c1 & E1 & T1); [lia|]. exists c0, (c1 v). split; [split; [exact T0|apply T1]|].
    intros A B f g w2 a b K2 H. rewrite E0, E1. cbn [bind]. now apply conv_send.
Qed.
Lemma duo_hear w ctx0 ctx1 v : w_ok w -> w_ok (said w 0 1 0) -> both_stand w ctx0 ctx1 ->
  exists c0 c1, both_stand (said w 0 1 0) c0 c1 /\
    forall A B (f : list Z * Context -> prog A) (g : Context -> prog B) w2 a b, w_ok w2 -> duo (said w 0 1 0) (f (v, c0)) (g c1) w2 a b ->
      duo w (bind (ctx_RecvP2P (NextRank ctx0 1) ctx0) f) (bind (ctx_SendAsync (NextRank ctx1 1) v ctx1) g) w2 a b.
Proof.
  intros K K1 S. destruct (next_of_first w ctx0 ctx1 S) as [-> ->]. destruct S as [S0 S1]. assert (P : 0 <= to_0 w /\ 0 <= to_1 w) by (unfold w_ok in K; lia).
  unfold both_stand, duo, said, first_rank, second_rank in *. destruct r.
  - destruct (send_01 id w ctx1 v S1 K1) as (c1 & E1 & T1); [lia|]. destruct (recv_01 id w ctx0 S0 K1) as (c0 & E0 & T0); [lia|]. exists (c0 v), c1. split; [split; [apply T0|exact T1]|].
    intros A B f g w2 a b K2 H. rewrite E0, E1. cbn [bind]. now apply conv_send.
  - destruct (send_10 id w ctx1 v S1 K1) as (c1 & E1 & T1); [lia|]. destruct (recv_10 id w ctx0 S0 K1) as (c0 & E0 & T0); [lia|]. exists (c0 v), c1. split; [split; [apply T0|exact T1]|].
    intros A B f g w2 a b K2 H. rewrite E0, E1. cbn [bind]. now apply conv_reply.
Qed.

(** Loops of the two parties in step; [W] is the traffic before a round. *)
Lemma duo_for {S T} (f : nat -> S -> prog S) (g : nat -> T -> prog T) (W : nat -> traffic) (Inv : nat -> S -> T -> Prop) m : forall b s t,
  (forall i, (b <= i <= b + m)%nat -> w_ok (W i)) ->
  (forall i s t, (b <= i < b + m)%nat -> Inv i s t -> exists s' t', duo (W i) (f i s) (g i t) (W (Datatypes.S i)) s' t' /\ Inv (Datatypes.S i) s' t') -> Inv b s t ->
  exists s' t', duo (W b) (for_each (seq b m) f s) (for_each (seq b m) g t) (W (b + m)%nat) s' t' /\ Inv (b + m)%nat s' t'.
Proof.
  induction m as [|m IH]; intros b s t K H I; cbn [seq for_each].
  - rewrite Nat.add_0_r. exists s, t. split; [apply duo_done|exact I].
  - destruct (H b s t ltac:(lia) I) as (s1 & t1 & D & I1). destruct (IH (Datatypes.S b) s1 t1) as (s2 & t2 & D2 & I2); [intros i Hi; apply K; lia|intros i x y Hi; apply H; lia|exact I1|].
    rewrite Nat.add_succ_r. exists s2, t2. split; [|exact I2]. refine (duo_bind _ (W (Datatypes.S b)) _ _ _ _ _ s1 t1 _ _ _ _ _ D D2); apply K; lia.
Qed.
End Roles.

(** A program that sends, and comes to a step that is undefined or an exception. *)
Fixpoint stops {A} (p : prog A) : Prop :=
  match p with Fail => True | SendTo _ _ _ k => stops k | Done _ | RecvFrom _ _ _ => False end.

Lemma stops_bind {A B} (p : prog A) (f : A -> prog B) : stops p -> stops (bind p f).
Proof. induction p as [a|d key v k IH|src key k IH|]; cbn; auto; contradiction. Qed.

Lemma stops_assoc {A B A'} (p : prog A) (f : A -> prog B) (g : B -> prog A') : stops (bind p (fun a => bind (f a) g)) -> stops (bind (bind p f) g).
Proof. induction p as [a|d key v k IH|src key k IH|]; cbn; auto. Qed.
Lemma say_stops {B} r id w ctx0 ctx1 v (f : Context -> prog B) : w_ok w -> w_ok (said r w 1 0 0) -> both_stand r id w ctx0 ctx1 -> (forall ctx, stops (f ctx)) ->
  stops (bind (ctx_SendAsync (NextRank ctx0 1) v ctx0) f).
Proof.
  intros K K1 S H. rewrite (proj1 (next_of_first r id w ctx0 ctx1 S)). unfold both_stand, said, first_rank, second_rank, w_ok in *.
  destruct r, S as [S0 _]; [destruct (send_10 id w ctx0 v S0) as (c & -> & _)|destruct (send_01 id w ctx0 v S0) as (c & -> & _)]; unfold w_ok in *; cbn in *; try lia; apply H.
Qed.
