(* ===== verification/Gywz.v ===== *)
(** Half trees ([ot/gywz_ote.cc]): the full evaluation of a tree of seeds whose levels
    all add up to one difference, and its evaluation punctured at one leaf, where the
    difference is added.  Bit [l] of an index is the turn at level [l]; in memory the
    right halves of a level follow the left ones.

    Single-point correlated transfers ([ot/gywz_ote]): the sender evaluates a half tree,
    the receiver the tree punctured at an index, from as many transfers as there are
    levels. *)
From Stdlib Require Import ZArith Lia List Bool.
From S2P Require Import Prelude.
From S2P Require Import Errors.
From S2P Require Import Int128.
From S2P Require Import Transpose.
From S2P Require Import Gf.
From S2P Require Import Bitset.
From S2P Require Import BitsetOps.
From S2P Require Import Cipher.
From S2P Require Import CrHash.
From S2P Require Import OtStore.
From S2P Require Import OtExt.
From S2P Require Import Parties.
From S2P Require Import Context.
From S2P Require Import Duo.
From S2P Require Import ChosenOt.
From S2P Require Import Roles.
Import ListNotations.
#[local] Open Scope Z_scope.

Section Code.
Context {C : Cipher}.

(** The state of the loops: the seeds, the buffer for the last right half when the
    number of leaves is not a power of two.  The shift is of a 32-bit word: the heights
    are below 32, and the evaluations undefined for others. *)
Definition is_two_power (n height : nat) : bool := (n =? 2 ^ height)%nat.
(** Spans past the end of the seeds are undefined.  Both are made at every level, the
    right one also where the buffer then takes its place. *)
Definition right_apart (n height level : nat) : bool := negb (is_two_power n height) && (level =? height - 1)%nat.
Definition spans_fit (level : nat) (working_seeds : list Z) : bool := (2 ^ level + 2 ^ level <=? length working_seeds)%nat.
Definition store_level (n height level : nat) (left_side right_side : list Z) (st : list Z * list Z) : list Z * list Z :=
  let '(working_seeds, extra_buff) := st in
  let working_seeds := write_span working_seeds 0 left_side in
  if right_apart n height level then (working_seeds, right_side) else (write_span working_seeds (2 ^ level) right_side, extra_buff).
Definition join_leaves (n height : nat) (st : list Z * list Z) : list Z :=
  let '(working_seeds, extra_buff) := st in
  let prev_size := (2 ^ (height - 1))%nat in
  if is_two_power n height then working_seeds else write_span working_seeds prev_size (firstn (n - prev_size) extra_buff).

Definition CggmFull_level (n height : nat) (one : Z) (st : list Z * list Z * list Z) (level : nat) : option (list Z * list Z * list Z) :=
  let '(working_seeds, extra_buff, left_sums) := st in
  let prev_size := (2 ^ level)%nat in
  if spans_fit level working_seeds then
    let left_side := subspan working_seeds 0 prev_size in
    let right_side := left_side in
    let? left_side := ParaCcrHashInplace_128 left_side in
    let left_side := map (fun x => Z.land x one) left_side in
    let right_side := xor_spans right_side left_side in
    let left_side_sum := fold_left Z.lxor left_side 0 in
    Some (store_level n height level left_side right_side (working_seeds, extra_buff), upd left_sums level left_side_sum)
  else None.
Definition CggmFullEval (delta seed : Z) (n : nat) (all_msgs left_sums : list Z) (one : Z) : option (list Z * list Z) :=
  let? height := Log2Ceil (Z.of_nat n) in
  let height := Z.to_nat height in
  YACL_ENFORCE (height =? length left_sums)%nat
    (YACL_ENFORCE (n <=? length all_msgs)%nat
      (if ((0 <? height) && (height <? 32))%nat then
         let seed := Z.land seed one in
         let delta := Z.land delta one in
         let working_seeds := upd (upd all_msgs 0 seed) 1 (Z.lxor seed delta) in
         let left_sums := upd left_sums 0 seed in
         let? (st, left_sums) := foldM (CggmFull_level n height one) (seq 1 (height - 1)) (working_seeds, [], left_sums) in
         Some (join_leaves n height st, left_sums)
       else None)).

Definition xor_at (l : list Z) (i : nat) (v : Z) : list Z := upd l i (Z.lxor (at_ l i) v).
Definition CggmPunc_level (n height : nat) (one : Z) (index : Z) (sibling_sums : list Z) (st : list Z * list Z * Z) (level : nat) : option (list Z * list Z * Z) :=
  let '(working_seeds, extra_buff, punctured_idx) := st in
  let prev_size := (2 ^ level)%nat in
  if spans_fit level working_seeds then
    let left_side := subspan working_seeds 0 prev_size in
    let right_side := left_side in
    let? left_side := ParaCcrHashInplace_128 left_side in
    let left_side := map (fun x => Z.land x one) left_side in
    let left_side_sum := fold_left Z.lxor left_side (at_ sibling_sums level) in
    let right_side := xor_spans right_side left_side in
    let left_side := xor_at left_side (Z.to_nat punctured_idx) left_side_sum in
    let right_side := xor_at right_side (Z.to_nat punctured_idx) left_side_sum in
    Some (store_level n height level left_side right_side (working_seeds, extra_buff), Z.lor punctured_idx (Z.land index (Z.of_nat prev_size)))
  else None.
Definition CggmPuncFullEval (index : Z) (sibling_sums : list Z) (n : nat) (punctured_msgs : list Z) (one : Z) : option (list Z) :=
  YACL_ENFORCE (n <=? length punctured_msgs)%nat
    (let height := length sibling_sums in
     if ((0 <? height) && (height <? 32) && (1 <? length punctured_msgs))%nat then
       let working_seeds := upd (upd punctured_msgs 0 (Z.land (at_ sibling_sums 0) one)) 1 (Z.land (at_ sibling_sums 0) one) in
       let? (st, _) := foldM (CggmPunc_level n height one index sibling_sums) (seq 1 (height - 1)) (working_seeds, [], Z.land index 1) in
       Some (join_leaves n height st)
     else None).
End Code.

(** ** Sums *)

Definition xsum (f : nat -> Z) (n : nat) : Z := fold_left Z.lxor (map f (seq 0 n)) 0.

Lemma fold_lxor l a : fold_left Z.lxor l a = Z.lxor a (fold_left Z.lxor l 0).
Proof. revert a; induction l as [|x l IH]; intros a; cbn [fold_left]; [now rewrite Z.lxor_0_r|]. rewrite (IH (Z.lxor a x)), (IH (Z.lxor 0 x)), Z.lxor_0_l. apply Z.lxor_assoc. Qed.
Lemma xsum_S f n : xsum f (S n) = Z.lxor (xsum f n) (f n).
Proof. unfold xsum. rewrite seq_S, map_app, fold_left_app. reflexivity. Qed.
Lemma xsum_ext f g n : (forall i, (i < n)%nat -> f i = g i) -> xsum f n = xsum g n.
Proof. intros H. unfold xsum. f_equal. apply map_ext_in. intros i Hi. apply in_seq in Hi. apply H. lia. Qed.
Lemma xsum_lxor f g n : xsum (fun i => Z.lxor (f i) (g i)) n = Z.lxor (xsum f n) (xsum g n).
Proof. induction n as [|n IH]; [reflexivity|]. rewrite !xsum_S, IH. lxor_bits. Qed.
Lemma xsum_plus f a b : xsum f (a + b) = Z.lxor (xsum f a) (xsum (fun i => f (a + i)%nat) b).
Proof. induction b as [|b IH]; [now rewrite Nat.add_0_r, Z.lxor_0_r|]. rewrite Nat.add_succ_r, !xsum_S, IH. lxor_bits. Qed.
(** All but one. *)
Lemma xsum_change f g n p : (p < n)%nat -> (forall i, (i < n)%nat -> i <> p -> f i = g i) -> Z.lxor (xsum f n) (xsum g n) = Z.lxor (f p) (g p).
Proof.
  induction n as [|n IH]; intros Hp H; [lia|]. rewrite !xsum_S. destruct (Nat.eq_dec p n) as [->|N].
  - rewrite (xsum_ext f g n) by (intros i Hi; apply H; lia). lxor_bits.
  - rewrite (H n) by lia. rewrite <- (IH ltac:(lia)) by (intros i Hi; apply H; lia). lxor_bits.
Qed.

(** ** The trees *)

Section Tree.
Variables (hash : Z -> Z) (one seed delta : Z).
(** The seeds are kept to the bits of [one]. *)
Definition half (x : Z) : Z := Z.land (hash x) one.

(** Level [l] has [2 ^ (l + 1)] nodes. *)
Fixpoint node (l i : nat) : Z :=
  match l with
  | O => if (i =? 0)%nat then seed else Z.lxor seed delta
  | S l => if (i <? 2 ^ S l)%nat then half (node l i) else Z.lxor (node l (i - 2 ^ S l)) (half (node l (i - 2 ^ S l)))
  end.
Definition left_sum (l : nat) : Z := xsum (node l) (2 ^ l).

Lemma node_left l i : (i < 2 ^ S l)%nat -> node (S l) i = half (node l i).
Proof. intros H. cbn [node]. now rewrite (proj2 (Nat.ltb_lt _ _) H). Qed.
Lemma node_right l i : node (S l) (2 ^ S l + i) = Z.lxor (node l i) (half (node l i)).
Proof. cbn [node]. rewrite (proj2 (Nat.ltb_ge _ _)) by lia. now replace (2 ^ S l + i - 2 ^ S l)%nat with i by lia. Qed.
Lemma pow2_S k : (2 ^ S k = 2 ^ k + 2 ^ k)%nat.
Proof. cbn. lia. Qed.

Lemma node_sum l : xsum (node l) (2 ^ S l) = delta.
Proof.
  induction l as [|l IH]; [unfold xsum; cbn; lxor_bits|]. rewrite pow2_S, xsum_plus, <- xsum_lxor. rewrite <- IH. apply xsum_ext. intros i Hi. rewrite node_left, node_right by exact Hi. lxor_bits.
Qed.
Lemma right_sum l : xsum (fun i => node l (2 ^ l + i)) (2 ^ l) = Z.lxor (left_sum l) delta.
Proof. rewrite <- (node_sum l), pow2_S, xsum_plus. unfold left_sum. lxor_bits. Qed.

Variable index : nat.
Definition path (l : nat) : nat := (index mod 2 ^ S l)%nat.
Definition punctured (l i : nat) : Z := if (i =? path l)%nat then Z.lxor (node l i) delta else node l i.
Definition sibling (l : nat) : Z := Z.lxor (left_sum l) (if Nat.testbit index l then 0 else delta).

Lemma path_lt l : (path l < 2 ^ S l)%nat.
Proof. apply Nat.mod_upper_bound. apply Nat.pow_nonzero. lia. Qed.
Lemma path_S l : path (S l) = (path l + if Nat.testbit index (S l) then 2 ^ S l else 0)%nat.
Proof.
  unfold path. rewrite (Nat.pow_succ_r' 2 (S l)), (Nat.mul_comm 2). rewrite Nat.Div0.mod_mul_r. rewrite Nat.testbit_eqb. f_equal.
  destruct (Nat.eqb_spec ((index / 2 ^ S l) mod 2) 1) as [->|N]; [lia|]. pose proof (Nat.mod_upper_bound (index / 2 ^ S l) 2). destruct ((index / 2 ^ S l) mod 2)%nat as [|[|k]]; lia.
Qed.

(** The step of the punctured evaluation. *)
Lemma punctured_sum l : Z.lxor (sibling (S l)) (xsum (fun i => half (punctured l i)) (2 ^ S l)) =
  Z.lxor (Z.lxor (half (node l (path l))) (half (punctured l (path l)))) (if Nat.testbit index (S l) then 0 else delta).
Proof.
  unfold sibling, left_sum. rewrite (xsum_ext (node (S l)) (fun i => half (node l i))) by (intros i Hi; now apply node_left).
  assert (E : Z.lxor (xsum (fun i => half (node l i)) (2 ^ S l)) (xsum (fun i => half (punctured l i)) (2 ^ S l)) = Z.lxor (half (node l (path l))) (half (punctured l (path l)))).
  { apply (xsum_change (fun i => half (node l i)) (fun i => half (punctured l i))); [apply path_lt|]. intros i _ N. unfold punctured. now rewrite (proj2 (Nat.eqb_neq _ _) N). }
  rewrite <- E. lxor_bits.
Qed.
Lemma punctured_left l i : (i < 2 ^ S l)%nat -> punctured (S l) i = Z.lxor (half (punctured l i)) (if (i =? path l)%nat then Z.lxor (sibling (S l)) (xsum (fun i => half (punctured l i)) (2 ^ S l)) else 0).
Proof.
  intros Hi. rewrite punctured_sum. unfold punctured at 1. rewrite path_S, node_left by exact Hi. destruct (Nat.eqb_spec i (path l)) as [->|N].
  - destruct (Nat.testbit index (S l)); [rewrite (proj2 (Nat.eqb_neq _ _)) by (pose proof (path_lt l); lia)|rewrite Nat.add_0_r, Nat.eqb_refl]; lxor_bits.
  - rewrite (proj2 (Nat.eqb_neq _ _)) by (destruct (Nat.testbit index (S l)); lia). unfold punctured. rewrite (proj2 (Nat.eqb_neq _ _) N). now rewrite Z.lxor_0_r.
Qed.
Lemma punctured_right l i : (i < 2 ^ S l)%nat -> punctured (S l) (2 ^ S l + i) = Z.lxor (Z.lxor (punctured l i) (half (punctured l i))) (if (i =? path l)%nat then Z.lxor (sibling (S l)) (xsum (fun i => half (punctured l i)) (2 ^ S l)) else 0).
Proof.
  intros Hi. rewrite punctured_sum. unfold punctured at 1. rewrite path_S, node_right. pose proof (path_lt l). destruct (Nat.eqb_spec i (path l)) as [->|N].
  - unfold punctured. rewrite Nat.eqb_refl. destruct (Nat.testbit index (S l)); [rewrite (proj2 (Nat.eqb_eq _ _)) by lia|rewrite (proj2 (Nat.eqb_neq _ _)) by lia]; lxor_bits.
  - rewrite (proj2 (Nat.eqb_neq _ _)) by (destruct (Nat.testbit index (S l)); lia). unfold punctured. rewrite (proj2 (Nat.eqb_neq _ _) N). now rewrite Z.lxor_0_r.
Qed.
Lemma punctured_0 i : (i < 2)%nat -> Z.land seed one = seed -> Z.land delta one = delta -> punctured 0 i = Z.land (sibling 0) one.
Proof.
  intros Hi Hs Hd. assert (S0 : sibling 0 = if Nat.testbit index 0 then seed else Z.lxor seed delta) by (unfold sibling, left_sum, xsum; cbn [seq map fold_left node Nat.eqb Nat.pow Nat.add]; rewrite Z.lxor_0_l; destruct (Nat.testbit index 0); now rewrite ?Z.lxor_0_r).
  assert (L : Z.land (sibling 0) one = sibling 0) by (rewrite S0; destruct (Nat.testbit index 0); [exact Hs|]; apply Z.bits_inj'; intros k _; rewrite Z.land_spec, Z.lxor_spec, <- Hs, <- Hd, !Z.land_spec; destruct (Z.testbit one k); rewrite ?andb_true_r, ?andb_false_r; reflexivity).
  rewrite L, S0. unfold punctured, path. change (2 ^ 1)%nat with 2%nat. rewrite Nat.testbit_eqb. change (2 ^ 0)%nat with 1%nat. rewrite Nat.div_1_r.
  pose proof (Nat.mod_upper_bound index 2). destruct (index mod 2)%nat as [|[|k]]; [| |lia]; destruct i as [|[|i]]; try lia; cbn [node Nat.eqb]; try reflexivity; lxor_bits.
Qed.
End Tree.

(** ** The loops *)

Lemma foldM_from_inv {A} (f : A -> nat -> option A) (Inv : nat -> A -> Prop) m : forall b a, (forall i a, (b <= i < b + m)%nat -> Inv i a -> exists a', f a i = Some a' /\ Inv (S i) a') -> Inv b a ->
  exists a', foldM f (seq b m) a = Some a' /\ Inv (b + m)%nat a'.
Proof.
  induction m as [|m IH]; intros b a H I; cbn [seq foldM]; [exists a; now rewrite Nat.add_0_r|]. destruct (H b a ltac:(lia) I) as (a' & E & I'). rewrite E.
  destruct (IH (S b) a') as (a2 & E2 & I2); [intros i x Hi; apply H; lia|exact I'|]. exists a2. rewrite Nat.add_succ_r. now split.
Qed.

Lemma at_firstn_lt l n i : (i < n)%nat -> at_ (firstn n l) i = at_ l i.
Proof. intros H. unfold at_. rewrite nth_firstn, (proj2 (Nat.ltb_lt _ _) H). reflexivity. Qed.
Lemma length_write_span l o s : (o + length s <= length l)%nat -> length (write_span l o s) = length l.
Proof. intros H. unfold write_span. rewrite !length_app, length_firstn, length_skipn. lia. Qed.
Lemma at_write_span l o s i : (o + length s <= length l)%nat -> at_ (write_span l o s) i = if (o <=? i)%nat && (i <? o + length s)%nat then at_ s (i - o) else at_ l i.
Proof.
  intros H. unfold write_span, at_. destruct (Nat.leb_spec o i) as [G|G]; cbn [andb].
  - rewrite app_nth2 by (rewrite length_firstn; lia). rewrite length_firstn, Nat.min_l by lia. destruct (Nat.ltb_spec i (o + length s)); [now rewrite app_nth1 by lia|]. rewrite app_nth2 by lia. rewrite nth_skipn. f_equal. lia.
  - rewrite app_nth1 by (rewrite length_firstn; lia). now apply at_firstn_lt.
Qed.
Lemma map_at (l : list Z) (f : Z -> Z) : map f l = map (fun i => f (at_ l i)) (seq 0 (length l)).
Proof. rewrite <- (at_seq l) at 1. now rewrite map_map. Qed.
Lemma at_subspan l n i : (i < n)%nat -> at_ (subspan l 0 n) i = at_ l i.
Proof. intros H. unfold subspan. rewrite skipn_O. now apply at_firstn_lt. Qed.
Lemma subspan_map l n (f : Z -> Z) : (n <= length l)%nat -> map f (subspan l 0 n) = map (fun i => f (at_ l i)) (seq 0 n).
Proof. intros H. rewrite map_at. unfold subspan at 2. rewrite skipn_O, length_firstn, Nat.min_l by lia. apply map_ext_in. intros i Hi. apply in_seq in Hi. f_equal. apply at_subspan. lia. Qed.
Lemma xor_spans_seq (f g : nat -> Z) n : xor_spans (map f (seq 0 n)) (map g (seq 0 n)) = map (fun i => Z.lxor (f i) (g i)) (seq 0 n).
Proof. unfold xor_spans. rewrite combine_map2, map_map. reflexivity. Qed.

Section Levels.
Variables (n height : nat) (N : nat) (v : nat -> nat -> Z).
Hypothesis Hh : (0 < height)%nat.
Hypothesis Hn : (2 ^ (height - 1) < n <= 2 ^ height)%nat.
Hypothesis HN : (2 ^ height <= N)%nat.

(** Before [level]: the seeds of the level before it, the last level perhaps in two buffers. *)
Definition level_inv (level : nat) (st : list Z * list Z) : Prop :=
  let '(working_seeds, extra_buff) := st in
  length working_seeds = N /\
  if negb (is_two_power n height) && (level =? height)%nat
  then (forall i, (i < 2 ^ (height - 1))%nat -> at_ working_seeds i = v (height - 1) i) /\ extra_buff = map (fun i => v (height - 1) (2 ^ (height - 1) + i)%nat) (seq 0 (2 ^ (height - 1)))
  else forall i, (i < 2 ^ level)%nat -> at_ working_seeds i = v (level - 1) i.

Lemma spans_fit_ok level w : length w = N -> (1 <= level < height)%nat -> spans_fit level w = true.
Proof.
  intros Hw Hl. unfold spans_fit. rewrite Hw, <- pow2_S. apply Nat.leb_le. pose proof (Nat.pow_le_mono_r 2 (S level) height ltac:(lia) ltac:(lia)). lia.
Qed.
Lemma level_values level st : (1 <= level < height)%nat -> level_inv level st -> length (fst st) = N /\ forall i, (i < 2 ^ level)%nat -> at_ (fst st) i = v (level - 1) i.
Proof. destruct st as [w e]. intros Hl (Lw & V). rewrite (proj2 (Nat.eqb_neq level height)), andb_false_r in V by lia. split; assumption. Qed.

Lemma store_level_ok level l r st : (1 <= level < height)%nat -> level_inv level st ->
  l = map (fun i => v level i) (seq 0 (2 ^ level)) -> r = map (fun i => v level (2 ^ level + i)%nat) (seq 0 (2 ^ level)) -> level_inv (S level) (store_level n height level l r st).
Proof.
  intros Hl I El Er. destruct (level_values level st Hl I) as [Lw _]. destruct st as [w e]. cbn [fst] in Lw. assert (Ll : length l = (2 ^ level)%nat) by (subst l; now rewrite length_map, length_seq). assert (Lr : length r = (2 ^ level)%nat) by (subst r; now rewrite length_map, length_seq).
  pose proof (spans_fit_ok level w Lw Hl) as F. unfold spans_fit in F. apply Nat.leb_le in F. unfold store_level, level_inv. unfold right_apart in *.
  destruct (is_two_power n height) eqn:T; cbn [negb andb] in *; [|destruct (Nat.eqb_spec level (height - 1)) as [El'|NL]].
  - assert (W1 : length (write_span w 0 l) = N) by (rewrite length_write_span; lia). split; [rewrite length_write_span; lia|]. intros i Hi. replace (S level - 1)%nat with level by lia.
    rewrite at_write_span by lia. rewrite Lr. cbn [Nat.pow] in Hi. destruct (Nat.leb_spec (2 ^ level) i), (Nat.ltb_spec i (2 ^ level + 2 ^ level)); cbn [andb]; try lia.
    + subst r. rewrite at_map_seq by lia. f_equal. lia.
    + rewrite at_write_span by lia. rewrite (proj2 (Nat.ltb_lt _ _)) by lia. cbn [Nat.leb andb]. subst l. rewrite at_map_seq by lia. f_equal. lia.
  - replace (S level) with height by lia. rewrite Nat.eqb_refl. rewrite El' in *. split; [rewrite length_write_span; lia|]. split; [|subst r; reflexivity]. intros i Hi. rewrite at_write_span by lia. rewrite (proj2 (Nat.ltb_lt _ _)) by lia. cbn [Nat.leb andb]. subst l. rewrite at_map_seq by lia. f_equal. lia.
  - rewrite (proj2 (Nat.eqb_neq (S level) height)) by lia. assert (W1 : length (write_span w 0 l) = N) by (rewrite length_write_span; lia). split; [rewrite length_write_span; lia|]. intros i Hi. replace (S level - 1)%nat with level by lia.
    rewrite at_write_span by lia. rewrite Lr. cbn [Nat.pow] in Hi. destruct (Nat.leb_spec (2 ^ level) i), (Nat.ltb_spec i (2 ^ level + 2 ^ level)); cbn [andb]; try lia.
    + subst r. rewrite at_map_seq by lia. f_equal. lia.
    + rewrite at_write_span by lia. rewrite (proj2 (Nat.ltb_lt _ _)) by lia. cbn [Nat.leb andb]. subst l. rewrite at_map_seq by lia. f_equal. lia.
Qed.

Lemma join_leaves_ok st : level_inv height st -> length (join_leaves n height st) = N /\ forall i, (i < n)%nat -> at_ (join_leaves n height st) i = v (height - 1) i.
Proof.
  destruct st as [w e]. unfold level_inv, join_leaves. rewrite Nat.eqb_refl, andb_true_r. intros (Lw & V). unfold is_two_power in *. destruct (Nat.eqb_spec n (2 ^ height)) as [E|NE]; cbn [negb] in V.
  - split; [exact Lw|]. intros i Hi. apply V. lia.
  - destruct V as [V ->]. set (ex := map _ _). assert (Le : length (firstn (n - 2 ^ (height - 1)) ex) = (n - 2 ^ (height - 1))%nat).
    { unfold ex. rewrite length_firstn, length_map, length_seq. assert (height = S (height - 1)) as Eh by lia. rewrite Eh in Hn at 2. cbn [Nat.pow] in Hn. lia. }
    split; [rewrite length_write_span; lia|]. intros i Hi. rewrite at_write_span by lia. rewrite Le. destruct (Nat.leb_spec (2 ^ (height - 1)) i), (Nat.ltb_spec i (2 ^ (height - 1) + (n - 2 ^ (height - 1)))); cbn [andb]; try lia; [|apply V; lia].
    rewrite at_firstn_lt by lia. unfold ex. rewrite at_map_seq by (assert (height = S (height - 1)) as Eh by lia; rewrite Eh in Hn at 2; cbn [Nat.pow] in Hn; lia). f_equal. lia.
Qed.
End Levels.

Lemma Log2Ceil_ok n : (2 <= n)%nat -> exists height, Log2Ceil (Z.of_nat n) = Some (Z.of_nat height) /\ (0 < height)%nat /\ (2 ^ (height - 1) < n <= 2 ^ height)%nat.
Proof.
  intros Hn. exists (S (Z.to_nat (Z.log2 (Z.of_nat n - 1)))). unfold Log2Ceil, Log2Floor. rewrite (proj2 (Z.eqb_neq _ 0)), (proj2 (Z.eqb_neq _ 1)), (proj2 (Z.eqb_neq (Z.of_nat n - 1) 0)) by lia.
  pose proof (Z.log2_nonneg (Z.of_nat n - 1)). split; [f_equal; lia|]. split; [lia|]. cbn [Nat.sub]. rewrite Nat.sub_0_r. pose proof (Z.log2_spec (Z.of_nat n - 1) ltac:(lia)) as [A B].
  set (k := Z.log2 _) in *. replace k with (Z.of_nat (Z.to_nat k)) in A, B by lia. rewrite <- Nat2Z.inj_succ in B. change 2 with (Z.of_nat 2) in A, B. rewrite <- Nat2Z.inj_pow in A, B. lia.
Qed.

Lemma upd_prefix (f : nat -> Z) k l : (k < length l)%nat -> upd (map f (seq 0 k) ++ skipn k l) k (f k) = map f (seq 0 (S k)) ++ skipn (S k) l.
Proof.
  intros H. rewrite seq_S, map_app, <- app_assoc. cbn [map Nat.add app].
  assert (SK : skipn k l = at_ l k :: skipn (S k) l) by (unfold at_; revert l H; induction k as [|k IH]; intros [|x l] H; cbn in *; try lia; [reflexivity|]; now rewrite IH by lia).
  rewrite SK. assert (G : forall a : list Z, length a = k -> upd (a ++ at_ l k :: skipn (S k) l) k (f k) = a ++ f k :: skipn (S k) l); [|apply G; now rewrite length_map, length_seq].
  intros a <-. generalize (at_ l (length a)) as y, (skipn (S (length a)) l) as r, (f (length a)) as z. clear. induction a as [|x a IH]; intros; cbn; [reflexivity|now rewrite IH].
Qed.

Lemma xor_at_seq f m p v : (p < m)%nat -> xor_at (map f (seq 0 m)) p v = map (fun i => Z.lxor (f i) (if (i =? p)%nat then v else 0)) (seq 0 m).
Proof.
  intros Hp. apply (nth_ext _ _ 0 0); [unfold xor_at; now rewrite length_upd, !length_map|]. unfold xor_at. rewrite length_upd, length_map, length_seq. intros i Hi.
  change (nth i ?l 0) with (at_ l i). rewrite !at_map_seq by assumption. destruct (Nat.eqb_spec i p) as [->|N]; [now rewrite at_upd_eq by (rewrite length_map, length_seq; exact Hp)|]. rewrite at_upd_ne, at_map_seq by (assumption || congruence). now rewrite Z.lxor_0_r.
Qed.

Lemma path_bit index k : Z.lor (Z.of_nat (path index k)) (Z.land (Z.of_nat index) (Z.of_nat (2 ^ S k))) = Z.of_nat (path index (S k)).
Proof.
  unfold path. rewrite !Nat2Z.inj_mod, !Nat2Z.inj_pow. change (Z.of_nat 2) with 2. apply Z.bits_inj'. intros j Hj. rewrite Z.lor_spec, Z.land_spec, Z.pow2_bits_eqb by lia.
  destruct (Z.lt_ge_cases j (Z.of_nat (S k))); [rewrite !Z.mod_pow2_bits_low by lia; rewrite (proj2 (Z.eqb_neq _ _)) by lia; now rewrite andb_false_r, orb_false_r|].
  rewrite (Z.mod_pow2_bits_high _ (Z.of_nat (S k))) by lia. cbn [orb]. destruct (Z.eqb_spec (Z.of_nat (S k)) j) as [<-|N]; [rewrite Z.mod_pow2_bits_low by lia; now rewrite andb_true_r|]. rewrite Z.mod_pow2_bits_high by lia. apply andb_false_r.
Qed.

Section Evals.
Context {C : Cipher} {L : CipherLaws C}.
Definition ccr (x : Z) : Z := cr (Sigma_block x).

Variables (one : Z) (n height : nat).
Hypothesis Hh : Log2Ceil (Z.of_nat n) = Some (Z.of_nat height).
Hypothesis Hpos : (0 < height)%nat.
Hypothesis Hn : (2 ^ (height - 1) < n <= 2 ^ height)%nat.
Hypothesis H32 : (height < 32)%nat.

Lemma level_2 : (2 <= n)%nat.
Proof. pose proof (Nat.pow_nonzero 2 (height - 1)). lia. Qed.

Lemma CggmFullEval_ok delta seed all_msgs left_sums : (2 ^ height <= length all_msgs)%nat -> length left_sums = height ->
  let v := node ccr one (Z.land seed one) (Z.land delta one) in
  exists out, CggmFullEval delta seed n all_msgs left_sums one = Some (out, map (left_sum ccr one (Z.land seed one) (Z.land delta one)) (seq 0 height)) /\
    length out = length all_msgs /\ forall i, (i < n)%nat -> at_ out i = v (height - 1)%nat i.
Proof.
  intros HN Ls. cbv zeta. set (sd := Z.land seed one). set (d := Z.land delta one). set (v := node ccr one sd d). set (N := length all_msgs) in *. pose proof level_2 as H2.
  unfold CggmFullEval, YACL_ENFORCE. fold N. rewrite Hh, Nat2Z.id, Ls, Nat.eqb_refl, (proj2 (Nat.leb_le n N)), (proj2 (Nat.ltb_lt _ _) Hpos), (proj2 (Nat.ltb_lt _ _) H32) by lia. cbn [andb]. fold sd d.
  set (sums k := map (left_sum ccr one sd d) (seq 0 k) ++ skipn k left_sums).
  destruct (foldM_from_inv (CggmFull_level n height one) (fun k st => level_inv n height N v k (fst st) /\ snd st = sums k) (height - 1) 1 (upd (upd all_msgs 0 sd) 1 (Z.lxor sd d), [], upd left_sums 0 sd)) as ([st ls] & E & I & Els).
  - intros k [[w e] ls] Hk [I Els]. cbn [fst snd] in I, Els. destruct (level_values n height N v Hpos Hn HN k (w, e) ltac:(lia) I) as [Lw V]. cbn [fst] in Lw, V. unfold CggmFull_level. rewrite (spans_fit_ok n height N Hpos Hn HN k w Lw) by lia.
    assert (Sp : (2 ^ k <= length w)%nat) by (rewrite Lw; pose proof (Nat.pow_le_mono_r 2 k (height - 1) ltac:(lia) ltac:(lia)); lia).
    rewrite (ParaCcrHashInplace_ok (L := L)), map_map. fold ccr.
    assert (EL : map (fun x => Z.land (cr (Sigma_block x)) one) (subspan w 0 (2 ^ k)) = map (v k) (seq 0 (2 ^ k))).
    { rewrite subspan_map by exact Sp. apply map_ext_in. intros i Hi. apply in_seq in Hi. rewrite V by lia. destruct k as [|k']; [lia|]. unfold v. rewrite node_left by lia. cbn [Nat.sub]. rewrite Nat.sub_0_r. reflexivity. }
    rewrite EL. eexists. split; [reflexivity|]. cbn [fst snd]. split.
    + apply (store_level_ok n height N v Hpos Hn HN k); [lia|exact I|reflexivity|].
      assert (ER : subspan w 0 (2 ^ k) = map (fun i => v (k - 1)%nat i) (seq 0 (2 ^ k))) by (rewrite <- (map_id (subspan _ _ _)), subspan_map by exact Sp; apply map_ext_in; intros i Hi; apply in_seq in Hi; apply V; lia).
      rewrite ER, xor_spans_seq. apply map_ext_in. intros i Hi. apply in_seq in Hi. destruct k as [|k']; [lia|]. unfold v. rewrite node_right, node_left by lia. cbn [Nat.sub]. rewrite Nat.sub_0_r. reflexivity.
    + change (fold_left Z.lxor (map (v k) (seq 0 (2 ^ k))) 0) with (left_sum ccr one sd d k). rewrite Els. apply upd_prefix. lia.
  - cbn [fst snd]. split.
    + split; [now rewrite !length_upd|]. destruct (negb (is_two_power n height) && (1 =? height)%nat) eqn:T.
      * apply andb_true_iff in T as [T1 T2]. apply Nat.eqb_eq in T2. assert (E2 : (2 ^ height = 2)%nat) by (now rewrite <- T2). assert (E1 : (2 ^ (height - 1) = 1)%nat) by (now rewrite <- T2). unfold is_two_power in T1. rewrite E2, (proj2 (Nat.eqb_eq n 2)) in T1 by lia. discriminate.
      * intros i Hi. cbn in Hi. destruct all_msgs as [|m0 [|m1 rest]]; cbn in N; try lia. destruct i as [|[|i]]; [reflexivity|reflexivity|lia].
    + unfold sums. destruct left_sums as [|l0 ls]; [cbn in Ls; lia|]. cbn [upd seq map skipn app]. unfold left_sum, xsum. cbn. now rewrite ?Z.lxor_0_l.
  - replace (1 + (height - 1))%nat with height in * by lia. cbn [fst snd] in I, Els. rewrite E. destruct (join_leaves_ok n height N v Hpos Hn HN st I) as [Lo Vo]. eexists. split; [|split; [exact Lo|exact Vo]]. rewrite Els. unfold sums. rewrite skipn_all2 by lia. now rewrite app_nil_r.
Qed.

Lemma CggmPuncFullEval_ok delta seed index msgs : (2 ^ height <= length msgs)%nat -> (index < 2 ^ height)%nat ->
  let sd := Z.land seed one in let d := Z.land delta one in
  exists out, CggmPuncFullEval (Z.of_nat index) (map (sibling ccr one sd d index) (seq 0 height)) n msgs one = Some out /\
    length out = length msgs /\ forall i, (i < n)%nat -> at_ out i = punctured ccr one sd d index (height - 1) i.
Proof.
  intros HN Hi. cbv zeta. set (sd := Z.land seed one). set (d := Z.land delta one). set (v := punctured ccr one sd d index). set (N := length msgs) in *. pose proof level_2 as H2. set (sums := map _ _).
  assert (Lsm : length sums = height) by (unfold sums; now rewrite length_map, length_seq). assert (Sat : forall k, (k < height)%nat -> at_ sums k = sibling ccr one sd d index k) by (intros k Hk; unfold sums; now rewrite at_map_seq).
  unfold CggmPuncFullEval, YACL_ENFORCE. fold N. rewrite (proj2 (Nat.leb_le n N)), Lsm, (proj2 (Nat.ltb_lt _ _) Hpos), (proj2 (Nat.ltb_lt _ _) H32), (proj2 (Nat.ltb_lt 1 N)) by lia. cbn [andb].
  destruct (foldM_from_inv (CggmPunc_level n height one (Z.of_nat index) sums) (fun k st => level_inv n height N v k (fst st) /\ snd st = Z.of_nat (path index (k - 1))) (height - 1) 1 (upd (upd msgs 0 (Z.land (at_ sums 0) one)) 1 (Z.land (at_ sums 0) one), [], Z.land (Z.of_nat index) 1)) as ([st pi] & E & I & _).
  - intros k [[w e] pi] Hk [I Epi]. cbn [fst snd] in I, Epi. destruct (level_values n height N v Hpos Hn HN k (w, e) ltac:(lia) I) as [Lw V]. cbn [fst] in Lw, V. unfold CggmPunc_level. rewrite (spans_fit_ok n height N Hpos Hn HN k w Lw) by lia.
    assert (Sp : (2 ^ k <= length w)%nat) by (rewrite Lw; pose proof (Nat.pow_le_mono_r 2 k (height - 1) ltac:(lia) ltac:(lia)); lia). destruct k as [|l]; [lia|]. cbn [Nat.sub] in *. rewrite Nat.sub_0_r in *.
    rewrite (ParaCcrHashInplace_ok (L := L)), map_map. fold ccr. pose proof (path_lt index l) as PL. subst pi. rewrite Nat2Z.id, Sat by lia.
    assert (EL : map (fun x => Z.land (cr (Sigma_block x)) one) (subspan w 0 (2 ^ S l)) = map (fun i => half ccr one (v l i)) (seq 0 (2 ^ S l))).
    { rewrite subspan_map by exact Sp. apply map_ext_in. intros i Hi'. apply in_seq in Hi'. rewrite V by lia. reflexivity. }
    assert (ER : subspan w 0 (2 ^ S l) = map (fun i => v l i) (seq 0 (2 ^ S l))) by (rewrite <- (map_id (subspan _ _ _)), subspan_map by exact Sp; apply map_ext_in; intros i Hi'; apply in_seq in Hi'; apply V; lia).
    rewrite EL, ER, xor_spans_seq, fold_lxor. change (fold_left Z.lxor (map (fun i => half ccr one (v l i)) (seq 0 (2 ^ S l))) 0) with (xsum (fun i => half ccr one (v l i)) (2 ^ S l)). rewrite !xor_at_seq by exact PL.
    eexists. split; [reflexivity|]. cbn [fst snd]. split; [|apply path_bit].
    apply (store_level_ok n height N v Hpos Hn HN (S l)); [lia|exact I| |]; apply map_ext_in; intros i Hi'; apply in_seq in Hi'; symmetry; [apply punctured_left; lia|apply punctured_right; lia].
  - cbn [fst snd]. split.
    + split; [now rewrite !length_upd|]. destruct (negb (is_two_power n height) && (1 =? height)%nat) eqn:T.
      * apply andb_true_iff in T as [T1 T2]. apply Nat.eqb_eq in T2. assert (E2 : (2 ^ height = 2)%nat) by (now rewrite <- T2). assert (E1 : (2 ^ (height - 1) = 1)%nat) by (now rewrite <- T2). unfold is_two_power in T1. rewrite E2, (proj2 (Nat.eqb_eq n 2)) in T1 by lia. discriminate.
      * intros i Hi'. change (2 ^ 1)%nat with 2%nat in Hi'. rewrite Sat by lia. cbn [Nat.sub]. unfold v. rewrite (punctured_0 ccr one sd d index i Hi') by (unfold sd, d; rewrite <- Z.land_assoc, Z.land_diag; reflexivity).
        destruct msgs as [|m0 [|m1 rest]]; cbn in N; try lia. destruct i as [|[|i]]; [reflexivity|reflexivity|lia].
    + cbn [Nat.sub]. unfold path. rewrite Nat2Z.inj_mod. change (Z.of_nat (2 ^ 1)) with (2 ^ 1). change 1 with (Z.ones 1) at 1. now rewrite Z.land_ones by lia.
  - replace (1 + (height - 1))%nat with height in * by lia. cbn [fst snd] in I. rewrite E. destruct (join_leaves_ok n height N v Hpos Hn HN st I) as [Lo Vo]. eexists. split; [reflexivity|]. split; [exact Lo|exact Vo].
Qed.
End Evals.

(** *** Outputs shorter than the last level *)

Lemma foldM_keeps {A B} (P : A -> Prop) (f : A -> B -> option A) l : (forall a x a', P a -> f a x = Some a' -> P a') -> forall a a', P a -> foldM f l a = Some a' -> P a'.
Proof.
  intros H. induction l as [|x l IH]; intros a a' Pa; cbn [foldM]; [now intros [= <-]|]. destruct (f a x) as [a1|] eqn:E; [|discriminate]. exact (IH a1 a' (H a x a1 Pa E)).
Qed.

Lemma foldM_app {A B} (f : A -> B -> option A) l l' a : foldM f (l ++ l') a = let? a' := foldM f l a in foldM f l' a'.
Proof. revert a; induction l as [|x l IH]; intros a; [reflexivity|]. cbn [foldM app]. destruct (f a x); [apply IH|reflexivity]. Qed.

(** A loop whose last turn is undefined. *)
Lemma foldM_last_none {A} (P : A -> Prop) (f : A -> nat -> option A) k a : P a -> (forall a x a', P a -> f a x = Some a' -> P a') ->
  (forall a, P a -> f a (S k) = None) -> foldM f (seq 1 (S k)) a = None.
Proof.
  intros Pa Hk Hn. rewrite seq_S, foldM_app. destruct (foldM f (seq 1 k) a) as [a'|] eqn:E; [|reflexivity]. cbn [Nat.add foldM]. now rewrite Hn by exact (foldM_keeps P f _ Hk a a' Pa E).
Qed.

Section Short.
Context {C : Cipher} {L : CipherLaws C}.

Lemma store_level_length n height level l r st : spans_fit level (fst st) = true -> length l = (2 ^ level)%nat -> length r = (2 ^ level)%nat ->
  length (fst (store_level n height level l r st)) = length (fst st).
Proof.
  destruct st as [w e]. unfold spans_fit. cbn [fst]. intros F%Nat.leb_le Ll Lr. assert (W1 : length (write_span w 0 l) = length w) by (rewrite length_write_span; lia).
  unfold store_level. destruct (right_apart n height level); cbn [fst]; [exact W1|]. rewrite length_write_span; lia.
Qed.

Lemma left_length w level : spans_fit level w = true -> length (subspan w 0 (2 ^ level)) = (2 ^ level)%nat.
Proof. unfold spans_fit. intros F%Nat.leb_le. unfold subspan. rewrite length_firstn, length_skipn. lia. Qed.

Lemma length_xor_spans a b : length (xor_spans a b) = Nat.min (length a) (length b).
Proof. unfold xor_spans. now rewrite length_map, length_combine. Qed.

Lemma CggmFull_level_length n height one N st level st' : length (fst (fst st)) = N -> CggmFull_level n height one st level = Some st' -> length (fst (fst st')) = N.
Proof.
  destruct st as [[w e] ls]. cbn [fst]. intros <-. unfold CggmFull_level. destruct (spans_fit level w) eqn:F; [|discriminate]. pose proof (left_length w level F) as LL.
  rewrite (ParaCcrHashInplace_ok (L := L)). 
  match goal with |- Some (?st2, _) = _ -> _ => assert (E : length (fst st2) = length w); [|revert E; generalize st2; intros stored E [= <-]; exact E] end.
  rewrite store_level_length; [reflexivity|exact F| |]; rewrite ?length_xor_spans, ?length_map, LL; [reflexivity|apply Nat.min_id].
Qed.

Lemma CggmPunc_level_length n height one index sums N st level st' : length (fst (fst st)) = N -> CggmPunc_level n height one index sums st level = Some st' -> length (fst (fst st')) = N.
Proof.
  destruct st as [[w e] pi]. cbn [fst]. intros <-. unfold CggmPunc_level. destruct (spans_fit level w) eqn:F; [|discriminate]. pose proof (left_length w level F) as LL.
  rewrite (ParaCcrHashInplace_ok (L := L)). 
  match goal with |- Some (?st2, _) = _ -> _ => assert (E : length (fst st2) = length w); [|revert E; generalize st2; intros stored E [= <-]; exact E] end.
  rewrite store_level_length; [reflexivity|exact F| |]; unfold xor_at; rewrite ?length_upd, ?length_xor_spans, ?length_map, LL; [reflexivity|apply Nat.min_id].
Qed.

(** An output with room for the leaves, but not for the last level, leads to a span past
    its end. *)
Lemma short_eval n height one delta seed out : Log2Ceil (Z.of_nat n) = Some (Z.of_nat height) -> (2 ^ (height - 1) < n <= length out)%nat -> (length out < 2 ^ height)%nat ->
  CggmFullEval delta seed n out (repeat 0 height) one = None.
Proof.
  intros Hh Hn Ho. unfold CggmFullEval, YACL_ENFORCE. rewrite Hh, Nat2Z.id, repeat_length, Nat.eqb_refl, (proj2 (Nat.leb_le n _)) by lia. destruct (_ && _); [|reflexivity].
  destruct height as [|[|k]]; [cbn in *; lia|cbn in *; lia|]. cbn [Nat.sub] in *.
  rewrite (foldM_last_none (fun st => length (fst (fst st)) = length out) (CggmFull_level n (S (S k)) one)); [reflexivity|cbn [fst]; now rewrite !length_upd|intros a x a'; apply CggmFull_level_length|].
  intros [[w e] ls] Lw. cbn [fst] in Lw. unfold CggmFull_level, spans_fit. rewrite Lw, <- pow2_S, (proj2 (Nat.leb_gt _ _)) by lia. reflexivity.
Qed.

Lemma short_punc n height one index sums out : length sums = height -> (2 ^ (height - 1) < n <= length out)%nat -> (length out < 2 ^ height)%nat ->
  CggmPuncFullEval index sums n out one = None.
Proof.
  intros Hh Hn Ho. unfold CggmPuncFullEval, YACL_ENFORCE. rewrite Hh, (proj2 (Nat.leb_le n _)) by lia. destruct (_ && _); [|reflexivity].
  destruct height as [|[|k]]; [cbn in *; lia|cbn in *; lia|]. cbn [Nat.sub] in *.
  rewrite (foldM_last_none (fun st => length (fst (fst st)) = length out) (CggmPunc_level n (S (S k)) one index sums)); [reflexivity|cbn [fst]; now rewrite !length_upd|intros a x a'; apply CggmPunc_level_length|].
  intros [[w e] pi] Lw. cbn [fst] in Lw. unfold CggmPunc_level, spans_fit. rewrite Lw, <- pow2_S, (proj2 (Nat.leb_gt _ _)) by lia. reflexivity.
Qed.
End Short.

(** The mask that clears the last bit. *)
Definition but_last : Z := MakeUint128 0xffffffffffffffff 0xfffffffffffffffe.
Definition all_ones : Z := MakeUint128 0xffffffffffffffff 0xffffffffffffffff.

Section Code.
Context {C : Cipher}.

Definition mask_choice (h : heap) (cot : OtRecvStore) (b : dynamic_bitset) (i : nat) : option dynamic_bitset :=
  let? c := recv_GetChoice h cot (Z.of_nat i) in
  if (i <? size b)%nat then Some (ref_xor (reference_of 128 i) b (negb (c =? 0))) else None.
Definition recv_blocks (h : heap) (cot : OtRecvStore) (mask : Z) (sums : list Z) : option (list Z) :=
  mapM (fun i => let? b := recv_GetBlock h cot (Z.of_nat i) in Some (Z.lxor (at_ sums i) (Z.land b mask))) (seq 0 (length sums)).
Definition send_blocks (h : heap) (cot : OtSendStore) (mask : Z) (msg : nat -> option Z) (sums : list Z) : option (list Z) :=
  mapM (fun i => let? m := msg i in let? b := send_GetBlock h cot (Z.of_nat i) m in Some (Z.lxor (at_ sums i) (Z.land b mask))) (seq 0 (length sums)).
(** Copying fewer bytes than the vector has leaves elements without a value, copying
    more is past its end: undefined. *)
Definition copy_blocks (n : nat) (buf : list Z) : option (list Z) := YACL_ENFORCE (length buf =? 16 * n)%nat (Some (to_blocks n buf)).

Definition check_height (n : nat) (cot_size : Z) : option nat :=
  let? height := Log2Ceil (Z.of_nat n) in
  YACL_ENFORCE (cot_size =? height) (YACL_ENFORCE (1 <? n)%nat (Some (Z.to_nat height))).

Definition GywzOtExtRecv (h : heap) (cot : OtRecvStore) (n : nat) (index : Z) (output : list Z) (ctx : Context) : prog (list Z * Context) :=
  do height <- lift (check_height n (recv_Size cot));
  ensure (index <? Z.of_nat n)
    (let choice := resize 128 (append_block 128 bitset_empty index) height false in
     do masked_choice <- lift (foldM (mask_choice h cot) (seq 0 height) choice);
     ensure (num_blocks masked_choice =? 1)%nat
       (do ctx <- ctx_SendAsync (NextRank ctx 1) (to_bytes (m_blocks masked_choice)) ctx;
        do (recv_buf, ctx) <- ctx_RecvP2P (NextRank ctx 1) ctx;
        do sibling_sums <- lift (copy_blocks height recv_buf);
        do sibling_sums <- lift (recv_blocks h cot all_ones sibling_sums);
        do out <- lift (CggmPuncFullEval index sibling_sums n output all_ones);
        Done (out, ctx))).
(** [seed] is what [SecureRandSeed] returns. *)
Definition GywzOtExtSend (h : heap) (cot : OtSendStore) (n : nat) (seed : Z) (output : list Z) (ctx : Context) : prog (list Z * Context) :=
  do height <- lift (check_height n (send_Size cot));
  do delta <- lift (send_GetDelta cot);
  do (out, left_sums) <- lift (CggmFullEval delta seed n output (repeat 0 height) all_ones);
  let masked_choice := bitset_init 128 height 0 in
  do (recv_buf, ctx) <- ctx_RecvP2P (NextRank ctx 1) ctx;
  ensure (16 * num_blocks masked_choice <=? length recv_buf)%nat
    (let masked_choice := DynamicBitset (to_blocks (num_blocks masked_choice) recv_buf) height in
     do left_sums <- lift (send_blocks h cot all_ones (fun i => option_map (fun b => 1 - Z.b2z b) (bit_get masked_choice (Z.of_nat i))) left_sums);
     do ctx <- ctx_SendAsync (NextRank ctx 1) (to_bytes left_sums) ctx;
     Done (out, ctx)).

(** The index is made of the choices. *)
Definition choice_index (h : heap) (cot : OtRecvStore) (height : nat) : option Z :=
  foldM (fun index i => let? c := recv_GetChoice h cot (Z.of_nat i) in Some (Z.lor index (u32 (Z.shiftl c (Z.of_nat i))))) (seq 0 height) 0.

Definition GywzOtExtRecv_ferret (h : heap) (cot : OtRecvStore) (n : nat) (output : list Z) (ctx : Context) : prog (list Z * Context) :=
  do height <- lift (check_height n (recv_Size cot));
  ensure (is_compact (r_type cot))
    (do index <- lift (choice_index h cot height);
     do (recv_buf, ctx) <- ctx_RecvP2P (NextRank ctx 1) ctx;
     do sibling_sums <- lift (copy_blocks height recv_buf);
     do sibling_sums <- lift (recv_blocks h cot but_last sibling_sums);
     do out <- lift (CggmPuncFullEval index sibling_sums n output but_last);
     Done (if index <? Z.of_nat n then upd out (Z.to_nat index) (Z.lor (at_ out (Z.to_nat index)) (u128 (Z.lnot but_last))) else out, ctx)).
Definition GywzOtExtSend_ferret (h : heap) (cot : OtSendStore) (n : nat) (seed : Z) (output : list Z) (ctx : Context) : prog (list Z * Context) :=
  do height <- lift (check_height n (send_Size cot));
  ensure (is_compact (s_type cot))
    (do delta <- lift (send_GetDelta cot);
     let delta := Z.land delta but_last in
     let seed := Z.land seed but_last in
     do (out, left_sums) <- lift (CggmFullEval delta seed n output (repeat 0 height) but_last);
     do left_sums <- lift (send_blocks h cot but_last (fun _ => Some 1) left_sums);
     do ctx <- ctx_SendAsync (NextRank ctx 1) (to_bytes left_sums) ctx;
     Done (out, ctx)).

(** On spans of messages; and over the link. *)
Definition GywzOtExtRecv_fixed_index_span (h : heap) (cot : OtRecvStore) (n : nat) (output recv_msgs : list Z) : option (list Z) :=
  let? height := check_height n (recv_Size cot) in
  YACL_ENFORCE (height <=? length recv_msgs)%nat
    (let? index := choice_index h cot height in
     let? sibling_sums := recv_blocks h cot all_ones (firstn height recv_msgs) in
     CggmPuncFullEval index sibling_sums n output all_ones).
Definition GywzOtExtSend_fixed_index_span (h : heap) (cot : OtSendStore) (n : nat) (seed : Z) (output send_msgs : list Z) : option (list Z * list Z) :=
  let? height := check_height n (send_Size cot) in
  YACL_ENFORCE (height <=? length send_msgs)%nat
    (let? delta := send_GetDelta cot in
     let? (out, send_msgs) := CggmFullEval delta seed n output send_msgs all_ones in
     let? sums := send_blocks h cot all_ones (fun _ => Some 1) (firstn height send_msgs) in
     Some (out, sums ++ skipn height send_msgs)).
Definition GywzOtExtRecv_fixed_index (h : heap) (cot : OtRecvStore) (n : nat) (output : list Z) (ctx : Context) : prog (list Z * Context) :=
  do height <- lift (check_height n (recv_Size cot));
  do (recv_buf, ctx) <- ctx_RecvP2P (NextRank ctx 1) ctx;
  ensure (16 * height <=? length recv_buf)%nat
    (do out <- lift (GywzOtExtRecv_fixed_index_span h cot n output (to_blocks height recv_buf)); Done (out, ctx)).
Definition GywzOtExtSend_fixed_index (h : heap) (cot : OtSendStore) (n : nat) (seed : Z) (output : list Z) (ctx : Context) : prog (list Z * Context) :=
  do height <- lift (check_height n (send_Size cot));
  do (out, left_sums) <- lift (GywzOtExtSend_fixed_index_span h cot n seed output (repeat 0 height));
  do ctx <- ctx_SendAsync (NextRank ctx 1) (to_bytes left_sums) ctx;
  Done (out, ctx).
End Code.

(** ** The values *)

Lemma but_last_ok : but_last = Z.ldiff (Z.ones 128) 1.
Proof. reflexivity. Qed.
Lemma all_ones_ok : all_ones = Z.ones 128.
Proof. reflexivity. Qed.
Lemma land_all_ones x : in128 x -> Z.land x all_ones = x.
Proof. intros H. rewrite all_ones_ok, Z.land_ones by lia. now apply Z.mod_small. Qed.
Lemma land_mask_xor a b m : Z.land (Z.lxor a b) m = Z.lxor (Z.land a m) (Z.land b m).
Proof. apply Z.bits_inj'. intros k _. rewrite ?Z.land_spec, ?Z.lxor_spec, ?Z.land_spec. destruct (Z.testbit m k), (Z.testbit a k), (Z.testbit b k); reflexivity. Qed.

(** Transfers of two stores, in their parties' heaps, whose messages differ by [delta]. *)
Record cots (hs : heap) (s : OtSendStore) (hr : heap) (r : OtRecvStore) (n : nat) (delta : Z) (m0 : nat -> Z) (c : nat -> bool) : Prop := {
  cots_send_size : send_Size s = Z.of_nat n;
  cots_recv_size : recv_Size r = Z.of_nat n;
  cots_delta : send_GetDelta s = Some delta;
  cots_send : forall i m, (i < n)%nat -> send_GetBlock hs s (Z.of_nat i) (Z.b2z m) = Some (if m then Z.lxor (m0 i) delta else m0 i);
  cots_recv : forall i, (i < n)%nat -> recv_GetBlock hr r (Z.of_nat i) = Some (if c i then Z.lxor (m0 i) delta else m0 i);
  cots_choice : forall i, (i < n)%nat -> recv_GetChoice hr r (Z.of_nat i) = Some (Z.b2z (c i));
  cots_delta_in : in128 delta }.

(** ** Ranges *)

Lemma land_in128 x m : in128 m -> in128 (Z.land x m).
Proof. intros Hm. unfold in128. replace m with (Z.land m (Z.ones 128)) by (rewrite Z.land_ones by lia; now apply Z.mod_small). rewrite Z.land_assoc, Z.land_ones by lia. apply Z.mod_pos_bound. lia. Qed.
Lemma but_last_in : in128 but_last.
Proof. split; [discriminate|reflexivity]. Qed.
Lemma all_ones_in : in128 all_ones.
Proof. split; [discriminate|reflexivity]. Qed.
#[export] Hint Resolve land_in128 but_last_in all_ones_in lxor_in128 : core.

Lemma node_closed (P : Z -> Prop) hash mask sd d : P sd -> P d -> (forall x, P (Z.land x mask)) -> (forall x y, P x -> P y -> P (Z.lxor x y)) -> forall l i, P (node hash mask sd d l i).
Proof.
  intros Ps Pd Pm Px. induction l as [|l IH]; intros i; cbn [node]; [destruct (i =? 0)%nat; auto|]. unfold half. destruct (i <? 2 ^ S l)%nat; [apply Pm|]. apply Px; [apply IH|apply Pm].
Qed.
Lemma xsum_in f n : (forall i, in128 (f i)) -> in128 (xsum f n).
Proof. intros H. induction n as [|n IH]; [split; [discriminate|reflexivity]|]. rewrite xsum_S. auto. Qed.

Lemma even_masked x : Z.odd (Z.land x but_last) = false.
Proof. rewrite <- Z.bit0_odd, Z.land_spec. apply andb_false_r. Qed.
Lemma odd_lxor x y : Z.odd (Z.lxor x y) = xorb (Z.odd x) (Z.odd y).
Proof. now rewrite <- !Z.bit0_odd, Z.lxor_spec. Qed.
Lemma masked_last delta : in128 delta -> Z.odd delta = true -> forall x, Z.odd x = false -> in128 x -> Z.lor (Z.lxor x (Z.land delta but_last)) (u128 (Z.lnot but_last)) = Z.lxor x delta.
Proof.
  intros Hd Od x Ox Hx. change (u128 (Z.lnot but_last)) with 1. apply Z.bits_inj'. intros k Hk. rewrite Z.lor_spec, !Z.lxor_spec, Z.land_spec, but_last_ok, Z.ldiff_spec.
  destruct (Z.eq_dec k 0) as [->|N]; [rewrite !Z.bit0_odd, Od, Ox; reflexivity|]. assert (E1 : Z.testbit 1 k = false) by (destruct k; [lia|reflexivity|lia]). rewrite E1, orb_false_r. cbn [negb]. rewrite andb_true_r.
  destruct (Z.lt_ge_cases k 128); [rewrite Z.ones_spec_low by lia; now rewrite andb_true_r|]. rewrite Z.ones_spec_high by lia. rewrite andb_false_r. destruct Hd, Hx. assert (Hb : Z.testbit delta k = false); [|now rewrite Hb].
  rewrite <- (Z.mod_small delta (2 ^ 128)) by lia. now apply Z.mod_pow2_bits_high.
Qed.

Section Values.
Context {C : Cipher} {L : CipherLaws C}.
Variables (hs : heap) (s : OtSendStore) (hr : heap) (r : OtRecvStore) (n height : nat) (delta : Z) (m0 : nat -> Z) (c : nat -> bool) (index : nat).
Hypothesis Hh : Log2Ceil (Z.of_nat n) = Some (Z.of_nat height).
Hypothesis Hpos : (0 < height)%nat.
Hypothesis Hn : (2 ^ (height - 1) < n <= 2 ^ height)%nat.
Hypothesis Hc : cots hs s hr r height delta m0 c.

Lemma check_height_ok : check_height n (Z.of_nat height) = Some height.
Proof. unfold check_height, YACL_ENFORCE. rewrite Hh, Z.eqb_refl, Nat2Z.id. pose proof (Nat.pow_nonzero 2 (height - 1)). now rewrite (proj2 (Nat.ltb_lt 1 n)) by lia. Qed.

(** What the sender adds to the sums of the left sides, and the receiver takes away. *)
Lemma send_blocks_ok mask (msg : nat -> bool) sums : length sums = height ->
  send_blocks hs s mask (fun i => Some (Z.b2z (msg i))) sums = Some (map (fun i => Z.lxor (at_ sums i) (Z.land (if msg i then Z.lxor (m0 i) delta else m0 i) mask)) (seq 0 height)).
Proof. intros Ls. unfold send_blocks. rewrite Ls. apply mapM_some. intros i Hi. apply in_seq in Hi. now rewrite (cots_send _ _ _ _ _ _ _ _ Hc) by lia. Qed.
Lemma recv_blocks_ok mask sums : length sums = height ->
  recv_blocks hr r mask sums = Some (map (fun i => Z.lxor (at_ sums i) (Z.land (if c i then Z.lxor (m0 i) delta else m0 i) mask)) (seq 0 height)).
Proof. intros Ls. unfold recv_blocks. rewrite Ls. apply mapM_some. intros i Hi. apply in_seq in Hi. now rewrite (cots_recv _ _ _ _ _ _ _ _ Hc) by lia. Qed.

Lemma siblings_ok seed mask (msg : nat -> bool) : (forall i, (i < height)%nat -> xorb (msg i) (c i) = negb (Nat.testbit index i)) ->
  forall sums, sums = map (left_sum ccr mask (Z.land seed mask) (Z.land delta mask)) (seq 0 height) ->
  exists sent, send_blocks hs s mask (fun i => Some (Z.b2z (msg i))) sums = Some sent /\ length sent = height /\
    recv_blocks hr r mask sent = Some (map (sibling ccr mask (Z.land seed mask) (Z.land delta mask) index) (seq 0 height)).
Proof.
  intros Hm sums ->. rewrite send_blocks_ok by (now rewrite length_map, length_seq). eexists. split; [reflexivity|]. split; [now rewrite length_map, length_seq|].
  rewrite recv_blocks_ok by (now rewrite length_map, length_seq). f_equal. apply map_ext_in. intros i Hi. apply in_seq in Hi. rewrite !at_map_seq by lia. unfold sibling. specialize (Hm i ltac:(lia)).
  destruct (msg i), (c i); cbn [xorb] in Hm; destruct (Nat.testbit index i); try discriminate; rewrite ?land_mask_xor; lxor_bits.
Qed.

Lemma path_index : (index < 2 ^ height)%nat -> path index (height - 1) = index.
Proof. intros Hi. unfold path. replace (S (height - 1)) with height by lia. now apply Nat.mod_small. Qed.

Lemma sent_in seed mask (msg : nat -> bool) sent : in128 mask ->
  send_blocks hs s mask (fun i => Some (Z.b2z (msg i))) (map (left_sum ccr mask (Z.land seed mask) (Z.land delta mask)) (seq 0 height)) = Some sent -> Forall in128 sent.
Proof.
  intros Hm E. rewrite send_blocks_ok in E by (now rewrite length_map, length_seq). injection E as <-. apply List.Forall_forall. intros x Hx. apply in_map_iff in Hx as (i & <- & Hi). apply in_seq in Hi.
  rewrite at_map_seq by lia. apply lxor_in128; [|auto]. apply xsum_in. intros j. apply (node_closed in128); auto.
Qed.

(** The two evaluations. *)
Hypothesis H32 : (height < 32)%nat.
Lemma trees_ok seed mask (msg : nat -> bool) out out' : (forall i, (i < height)%nat -> xorb (msg i) (c i) = negb (Nat.testbit index i)) -> (index < 2 ^ height)%nat ->
  (2 ^ height <= length out)%nat -> (2 ^ height <= length out')%nat ->
  exists t sums sent sib t', CggmFullEval delta seed n out (repeat 0 height) mask = Some (t, sums) /\ length sums = height /\
    send_blocks hs s mask (fun i => Some (Z.b2z (msg i))) sums = Some sent /\ length sent = height /\
    recv_blocks hr r mask sent = Some sib /\ CggmPuncFullEval (Z.of_nat index) sib n out' mask = Some t' /\
    length t = length out /\ length t' = length out' /\ (in128 mask -> Forall in128 sent) /\
    (forall i, (i < n)%nat -> at_ t i = node ccr mask (Z.land seed mask) (Z.land delta mask) (height - 1) i) /\
    forall i, (i < n)%nat -> at_ t' i = if (i =? index)%nat then Z.lxor (at_ t i) (Z.land delta mask) else at_ t i.
Proof.
  intros Hm Hi Ho Ho'. destruct (CggmFullEval_ok mask n height Hh Hpos Hn H32 delta seed out (repeat 0 height) Ho (repeat_length _ _)) as (t & E & Lt & V).
  destruct (siblings_ok seed mask msg Hm _ eq_refl) as (sent & Es & Ls & Er).
  destruct (CggmPuncFullEval_ok mask n height Hpos Hn H32 delta seed index out' Ho' Hi) as (t' & E' & Lt' & V').
  do 5 eexists. split; [exact E|]. split; [now rewrite length_map, length_seq|]. split; [exact Es|]. split; [exact Ls|]. split; [exact Er|]. split; [exact E'|]. split; [exact Lt|]. split; [exact Lt'|]. split; [intros Hk; exact (sent_in seed mask msg sent Hk Es)|]. split; [exact V|].
  intros i Hin. rewrite V', V by exact Hin. unfold punctured. now rewrite path_index.
Qed.
End Values.

(** ** Choices *)

Lemma testbit_nat k i : Nat.testbit k i = Z.testbit (Z.of_nat k) (Z.of_nat i).
Proof.
  rewrite Nat.testbit_eqb, Z.testbit_eqb by lia. rewrite <- Nat2Z.inj_pow with (n := 2%nat), <- Nat2Z.inj_div, <- (Nat2Z.inj_mod _ 2).
  destruct (Nat.eqb_spec ((k / 2 ^ i) mod 2) 1), (Z.eqb_spec (Z.of_nat ((k / 2 ^ i) mod 2)) 1); lia || reflexivity.
Qed.

Definition index_of (c : nat -> bool) (height : nat) : nat := Z.to_nat (bits_val (map c (seq 0 height))).

Lemma index_of_val c height : Z.of_nat (index_of c height) = bits_val (map c (seq 0 height)).
Proof. unfold index_of. pose proof (bits_val_bound (map c (seq 0 height))). lia. Qed.
Lemma index_of_lt c height : (index_of c height < 2 ^ height)%nat.
Proof. pose proof (bits_val_bound (map c (seq 0 height))) as B. rewrite <- index_of_val, length_map, length_seq in B. apply Nat2Z.inj_lt. rewrite Nat2Z.inj_pow. apply B. Qed.
Lemma index_of_bit c height i : (i < height)%nat -> Nat.testbit (index_of c height) i = c i.
Proof. intros Hi. rewrite testbit_nat, index_of_val, bits_val_bit. exact (nth_map_seq c height i false Hi). Qed.

Lemma choice_index_ok hr r height c : (height <= 32)%nat -> (forall i, (i < height)%nat -> recv_GetChoice hr r (Z.of_nat i) = Some (Z.b2z (c i))) ->
  choice_index hr r height = Some (Z.of_nat (index_of c height)).
Proof.
  intros Hh Hc. unfold choice_index. rewrite index_of_val. refine (foldM_states _ (fun i => bits_val (map c (seq 0 i))) height _). intros i Hi. rewrite Hc by exact Hi. f_equal.
  apply Z.bits_inj'. intros k Hk. rewrite <- (Z2Nat.id k Hk). rewrite Z.lor_spec, !bits_val_bit. unfold u32, uwrap. rewrite (Z.mod_small (Z.shiftl _ _)).
  2:{ rewrite Z.shiftl_mul_pow2 by lia. assert (2 ^ Z.of_nat i < 2 ^ 32) by (apply Z.pow_lt_mono_r; lia). pose proof (Z.pow_pos_nonneg 2 (Z.of_nat i)). destruct (c i); cbn [Z.b2z]; lia. }
  set (q := Z.to_nat k). rewrite Z.shiftl_spec by lia. rewrite seq_S, map_app. cbn [map Nat.add]. destruct (Nat.lt_trichotomy q i) as [Q|[->|Q]].
  - rewrite app_nth1 by (rewrite length_map, length_seq; exact Q). rewrite Z.testbit_neg_r by lia. apply orb_false_r.
  - rewrite app_nth2 by (rewrite length_map, length_seq; lia). rewrite length_map, length_seq, !Nat.sub_diag, nth_overflow by (rewrite length_map, length_seq; lia). rewrite Z.sub_diag. cbn [nth orb]. now destruct (c i).
  - rewrite !nth_overflow by (rewrite ?length_app, length_map, length_seq; cbn; lia). cbn [orb]. destruct (c i); [|apply Z.bits_0]. cbn [Z.b2z]. destruct (Z.of_nat q - Z.of_nat i) eqn:E; [lia|reflexivity|lia].
Qed.

Lemma bitset_empty_wf : wf 128 bitset_empty.
Proof. split; [reflexivity|]. split; [constructor|]. intros p _. unfold bit_at. cbn [m_blocks bitset_empty]. rewrite at_out by (cbn; lia). apply Z.bits_0. Qed.

Lemma mask_choice_ok hr r height index c : (0 < height <= 128)%nat -> in128 index -> (forall i, (i < height)%nat -> recv_GetChoice hr r (Z.of_nat i) = Some (Z.b2z (c i))) ->
  exists b x, foldM (mask_choice hr r) (seq 0 height) (resize 128 (append_block 128 bitset_empty index) height false) = Some b /\ b = DynamicBitset [x] height /\ in128 x /\
    forall i, (i < height)%nat -> bit_at 128 b i = xorb (Z.testbit index (Z.of_nat i)) (c i).
Proof.
  intros Hh Hi Hc. destruct (append_block_ok 128 pos128 bitset_empty index bitset_empty_wf Hi) as (W0 & N0 & B0). destruct (resize_ok 128 pos128 _ height false W0) as (W1 & N1 & B1).
  destruct (foldM_from_inv (mask_choice hr r) (fun k b => wf 128 b /\ m_bits_number b = height /\ forall i, (i < height)%nat -> bit_at 128 b i = xorb (Z.testbit index (Z.of_nat i)) ((i <? k)%nat && c i)) height 0 (resize 128 (append_block 128 bitset_empty index) height false)) as (b & E & W & N & B).
  - intros k b Hk (W & N & B). unfold mask_choice. rewrite Hc by lia. unfold size. rewrite N, (proj2 (Nat.ltb_lt _ _)) by lia. eexists. split; [reflexivity|].
    replace (negb (Z.b2z (c k) =? 0)) with (c k) by (now destruct (c k)).
    destruct (reference_update_ok 128 pos128 b k (c k) W ltac:(lia) (fun x => xorb x (c k)) (ref_xor (reference_of 128 k) b (c k))) as (W' & N' & B'); [right; right; now left|].
    split; [exact W'|]. split; [congruence|]. intros i Hi'. rewrite B'. destruct (Nat.eqb_spec i k) as [->|Ne].
    + rewrite B, Nat.ltb_irrefl by exact Hi'. rewrite (proj2 (Nat.ltb_lt k (S k))) by lia. cbn [andb]. now rewrite xorb_false_r.
    + rewrite B by exact Hi'. destruct (Nat.ltb_spec i k), (Nat.ltb_spec i (S k)); lia || reflexivity.
  - split; [exact W1|]. split; [exact N1|]. intros i Hi'. rewrite B1. unfold bit_resize. rewrite N0, B0. cbn [m_bits_number bitset_empty Nat.add]. rewrite (proj2 (Nat.ltb_lt i height)), (proj2 (Nat.ltb_lt i 128)) by lia.
    cbn [Nat.ltb Nat.leb andb]. now rewrite Nat.sub_0_r, xorb_false_r.
  - pose proof W as (Lb & Fb & _). rewrite N in Lb. assert (Q : blocks_required 128 height = 1%nat).
    { unfold blocks_required. destruct (Nat.eq_dec height 128) as [->|]; [reflexivity|]. rewrite Nat.div_small, Nat.mod_small by lia. rewrite (proj2 (Nat.ltb_lt 0 height)) by lia. reflexivity. }
    rewrite Q in Lb. destruct b as [l n]. cbn [m_blocks m_bits_number] in *. destruct l as [|x [|y l]]; try discriminate. exists (DynamicBitset [x] n), x. rewrite E. split; [reflexivity|]. split; [now subst n|]. split; [now inversion Fb|].
    intros i Hi'. rewrite B by exact Hi'. now rewrite (proj2 (Nat.ltb_lt i (0 + height))) by lia.
Qed.

(** ** The conversations *)

(** All values but the one at the index are the same. *)
Definition punctured_at (n : nat) (delta : Z) (index : nat) (t t' : list Z) : Prop :=
  forall i, (i < n)%nat -> at_ t' i = if (i =? index)%nat then Z.lxor (at_ t i) delta else at_ t i.

Section Talk.
Context {C : Cipher} {L : CipherLaws C}.
Variables (hs : heap) (s : OtSendStore) (hr : heap) (rv : OtRecvStore) (n height : nat) (delta : Z) (m0 : nat -> Z) (c : nat -> bool).
Hypothesis Hh : Log2Ceil (Z.of_nat n) = Some (Z.of_nat height).
Hypothesis Hpos : (0 < height < 32)%nat.
Hypothesis Hn : (2 ^ (height - 1) < n <= 2 ^ height)%nat.
Hypothesis Hc : cots hs s hr rv height delta m0 c.
Variables (r : bool) (id : list Z).

Lemma gywz_talk w ctx0 ctx1 index seed out out' : both_stand r id w ctx0 ctx1 -> w_ok w -> w_ok (said r w 1 1 0) -> (index < n)%nat -> (2 ^ height <= length out)%nat -> (2 ^ height <= length out')%nat ->
  exists t t' c0 c1, duo r id w (GywzOtExtSend hs s n seed out ctx0) (GywzOtExtRecv hr rv n (Z.of_nat index) out' ctx1) (said r w 1 1 0) (t, c0) (t', c1) /\
    both_stand r id (said r w 1 1 0) c0 c1 /\ length t = length out /\ length t' = length out' /\ punctured_at n delta index t t'.
Proof.
  intros S K K2 Hi Ho Ho'. assert (Hi2 : in128 (Z.of_nat index)).
  { split; [lia|]. destruct Hn as [_ Hn2]. apply Nat2Z.inj_le in Hn2. rewrite Nat2Z.inj_pow in Hn2. change (Z.of_nat 2) with 2 in Hn2. assert (2 ^ Z.of_nat height <= 2 ^ 127) by (apply Z.pow_le_mono_r; lia). lia. }
  destruct (mask_choice_ok hr rv height (Z.of_nat index) c ltac:(lia) Hi2 (cots_choice _ _ _ _ _ _ _ _ Hc)) as (b & x & Eb & Db & Hx & B).
  set (msg := fun i => negb (bit_at 128 b i)).
  destruct (trees_ok hs s hr rv n height delta m0 c index Hh (proj1 Hpos) Hn Hc (proj2 Hpos) seed all_ones msg out out') as (t & sums & sent & sib & t' & E1 & L1 & E2 & L2 & E3 & E4 & L3 & L4 & Fs & V & V').
  { intros i Hi'. unfold msg. rewrite B, testbit_nat by exact Hi'. now destruct (Z.testbit _ _), (c i). }
  { lia. } { exact Ho. } { exact Ho'. }
  assert (K1 : w_ok (said r w 0 1 0)) by (apply (said_between r w 1 1 0); lia || assumption).
  destruct (duo_hear r id w ctx0 ctx1 (to_bytes [x]) K K1 S) as (a0 & a1 & S1 & G1). destruct (duo_say r id (said r w 0 1 0) a0 a1 (to_bytes sent) K1) as (b0 & b1 & S2 & G2); [now rewrite said_said|exact S1|]. rewrite said_said in S2, G2. change (said r w (0 + 1) (1 + 0) (0 + 0)) with (said r w 1 1 0) in S2, G2.
  exists t, t', b0, b1. split; [|split; [exact S2|split; [exact L3|split; [exact L4|]]]].
  2:{ rewrite (land_all_ones delta (cots_delta_in _ _ _ _ _ _ _ _ Hc)) in V'. exact V'. }
  unfold GywzOtExtSend, GywzOtExtRecv. rewrite (cots_send_size _ _ _ _ _ _ _ _ Hc), (cots_recv_size _ _ _ _ _ _ _ _ Hc), (check_height_ok n height Hh (proj1 Hpos) Hn). cbn [lift bind].
  rewrite (cots_delta _ _ _ _ _ _ _ _ Hc). cbn [lift bind]. rewrite E1, Eb. cbn [lift bind]. rewrite (ensure_true (_ <? _)) by (apply Z.ltb_lt; lia). rewrite Db at 1. cbn [num_blocks m_blocks length Nat.eqb ensure].
  replace (m_blocks b) with [x] by (now rewrite Db). apply G1; [exact K2|]. cbv beta iota.
  destruct (bitset_init_ok 128 pos128 height 0 eq_refl ltac:(lia)) as (Wi & Ni & _). assert (Q : num_blocks (bitset_init 128 height 0) = 1%nat).
  { destruct Wi as (Li & _). rewrite Ni in Li. unfold num_blocks. rewrite Li. unfold blocks_required. rewrite Nat.div_small, Nat.mod_small by lia. now rewrite (proj2 (Nat.ltb_lt 0 height)) by lia. }
  rewrite Q. rewrite ensure_true by reflexivity. change 1%nat with (length [x]) at 1. rewrite to_blocks_bytes by (constructor; [exact Hx|constructor]). rewrite <- Db.
  assert (Em : send_blocks hs s all_ones (fun i => option_map (fun b => 1 - Z.b2z b) (bit_get b (Z.of_nat i))) sums = Some sent).
  { rewrite <- E2. unfold send_blocks. rewrite L1. assert (Z2 : size b = height) by (now rewrite Db). clear - Z2. unfold msg.
    assert (G : forall l, (forall i, In i l -> (i < height)%nat) -> mapM (fun i => let? m := option_map (fun b => 1 - Z.b2z b) (bit_get b (Z.of_nat i)) in let? b := send_GetBlock hs s (Z.of_nat i) m in Some (Z.lxor (at_ sums i) (Z.land b all_ones))) l =
      mapM (fun i => let? m := Some (Z.b2z (negb (bit_at 128 b i))) in let? b := send_GetBlock hs s (Z.of_nat i) m in Some (Z.lxor (at_ sums i) (Z.land b all_ones))) l).
    { induction l as [|i l IH]; intros H; [reflexivity|]. cbn [mapM]. rewrite IH by (intros; apply H; now right). rewrite bit_get_ok by (rewrite Z2, Nat2Z.id; apply H; now left). rewrite Nat2Z.id. cbn [option_map]. now destruct (bit_at 128 b i). }
    apply G. intros i Hi. apply in_seq in Hi. lia. }
  rewrite Em. cbn [lift bind]. apply G2; [exact K2|]. cbv beta iota. unfold copy_blocks, YACL_ENFORCE. rewrite length_to_bytes, L2, Nat.eqb_refl. cbn [lift bind]. rewrite <- L2 at 1. rewrite to_blocks_bytes by auto.
  rewrite E3. cbn [lift bind]. rewrite E4. cbn [lift bind]. apply duo_done.
Qed.

(** The index is the one of the choices; it may lie beyond the tree's [n] leaves. *)
Lemma index_msg i : (i < height)%nat -> xorb true (c i) = negb (Nat.testbit (index_of c height) i).
Proof. intros Hi. now rewrite index_of_bit by exact Hi. Qed.

Lemma gywz_ferret_talk w ctx0 ctx1 seed out out' : both_stand r id w ctx0 ctx1 -> w_ok w -> w_ok (said r w 1 0 0) -> s_type s = Compact -> r_type rv = Compact -> Z.odd delta = true ->
  (2 ^ height <= length out)%nat -> (2 ^ height <= length out')%nat ->
  exists t t' c0 c1, duo r id w (GywzOtExtSend_ferret hs s n seed out ctx0) (GywzOtExtRecv_ferret hr rv n out' ctx1) (said r w 1 0 0) (t, c0) (t', c1) /\
    both_stand r id (said r w 1 0 0) c0 c1 /\ length t = length out /\ length t' = length out' /\ punctured_at n delta (index_of c height) t t' /\
    forall i, (i < n)%nat -> Z.odd (at_ t i) = false /\ in128 (at_ t i).
Proof.
  intros S K K1 Ts Tr Od Ho Ho'. set (index := index_of c height).
  destruct (trees_ok hs s hr rv n height delta m0 c index Hh (proj1 Hpos) Hn Hc (proj2 Hpos) (Z.land seed but_last) but_last (fun _ => true) out out') as (t & sums & sent & sib & t' & E1 & L1 & E2 & L2 & E3 & E4 & L3 & L4 & Fs & V & V').
  { exact index_msg. } { apply index_of_lt. } { exact Ho. } { exact Ho'. }
  assert (P : forall i, (i < n)%nat -> Z.odd (at_ t i) = false /\ in128 (at_ t i)).
  { intros i Hi. rewrite V by exact Hi. split; [apply (node_closed (fun x => Z.odd x = false)); auto using even_masked; intros x y Ex Ey; now rewrite odd_lxor, Ex, Ey|apply (node_closed in128); auto]. }
  destruct (duo_say r id w ctx0 ctx1 (to_bytes sent) K K1 S) as (b0 & b1 & S2 & G2).
  exists t, (if Z.of_nat index <? Z.of_nat n then upd t' index (Z.lor (at_ t' index) (u128 (Z.lnot but_last))) else t'), b0, b1. split; [|split; [exact S2|split; [exact L3|split; [destruct (_ <? _); now rewrite ?length_upd|split; [|exact P]]]]].
  - unfold GywzOtExtSend_ferret, GywzOtExtRecv_ferret. rewrite (cots_send_size _ _ _ _ _ _ _ _ Hc), (cots_recv_size _ _ _ _ _ _ _ _ Hc), (check_height_ok n height Hh (proj1 Hpos) Hn). cbn [lift bind].
    rewrite Ts, Tr, (choice_index_ok hr rv height c ltac:(lia) (cots_choice _ _ _ _ _ _ _ _ Hc)), (cots_delta _ _ _ _ _ _ _ _ Hc). cbn [is_compact ensure lift bind]. fold index.
    assert (E1' : CggmFullEval (Z.land delta but_last) (Z.land seed but_last) n out (repeat 0 height) but_last = Some (t, sums)).
    { rewrite <- E1. unfold CggmFullEval. now rewrite <- !(Z.land_assoc delta), Z.land_diag. }
    rewrite E1'. cbn [lift bind]. change (fun _ : nat => Some 1) with (fun _ : nat => Some (Z.b2z true)). rewrite E2. cbn [lift bind]. apply G2; [exact K1|]. cbv beta iota.
    unfold copy_blocks, YACL_ENFORCE. rewrite length_to_bytes, L2, Nat.eqb_refl. cbn [lift bind]. rewrite <- L2 at 1. rewrite to_blocks_bytes by auto. rewrite E3. cbn [lift bind]. rewrite E4. cbn [lift bind]. rewrite Nat2Z.id. apply duo_done.
  - intros i Hi. destruct (Z.ltb_spec (Z.of_nat index) (Z.of_nat n)) as [Hx|Hx].
    + destruct (P i Hi) as [Pe Pi]. destruct (Nat.eqb_spec i index) as [->|N].
      * rewrite at_upd_eq by lia. rewrite V', Nat.eqb_refl by exact Hi. apply masked_last; [exact (cots_delta_in _ _ _ _ _ _ _ _ Hc)|exact Od|exact Pe|exact Pi].
      * rewrite at_upd_ne by auto. rewrite V' by exact Hi. now rewrite (proj2 (Nat.eqb_neq _ _) N).
    + rewrite V' by exact Hi. now rewrite (proj2 (Nat.eqb_neq i index)) by lia.
Qed.

Lemma gywz_fixed_index_talk w ctx0 ctx1 seed out out' : both_stand r id w ctx0 ctx1 -> w_ok w -> w_ok (said r w 1 0 0) -> (2 ^ height <= length out)%nat -> (2 ^ height <= length out')%nat ->
  exists t t' c0 c1, duo r id w (GywzOtExtSend_fixed_index hs s n seed out ctx0) (GywzOtExtRecv_fixed_index hr rv n out' ctx1) (said r w 1 0 0) (t, c0) (t', c1) /\
    both_stand r id (said r w 1 0 0) c0 c1 /\ length t = length out /\ length t' = length out' /\ punctured_at n delta (index_of c height) t t'.
Proof.
  intros S K K1 Ho Ho'. destruct (trees_ok hs s hr rv n height delta m0 c (index_of c height) Hh (proj1 Hpos) Hn Hc (proj2 Hpos) seed all_ones (fun _ => true) out out' index_msg (index_of_lt c height) Ho Ho')
    as (t & sums & sent & sib & t' & E1 & L1 & E2 & L2 & E3 & E4 & L3 & L4 & Fs & V & V').
  destruct (duo_say r id w ctx0 ctx1 (to_bytes sent) K K1 S) as (b0 & b1 & S2 & G2). exists t, t', b0, b1. split; [|split; [exact S2|split; [exact L3|split; [exact L4|]]]].
  2:{ rewrite (land_all_ones delta (cots_delta_in _ _ _ _ _ _ _ _ Hc)) in V'. exact V'. }
  unfold GywzOtExtSend_fixed_index, GywzOtExtRecv_fixed_index, GywzOtExtSend_fixed_index_span, GywzOtExtRecv_fixed_index_span.
  rewrite (cots_send_size _ _ _ _ _ _ _ _ Hc), (cots_recv_size _ _ _ _ _ _ _ _ Hc), (check_height_ok n height Hh (proj1 Hpos) Hn). cbn [lift bind]. unfold YACL_ENFORCE. rewrite repeat_length, Nat.leb_refl, (cots_delta _ _ _ _ _ _ _ _ Hc), E1.
  rewrite firstn_all2 by lia. change (fun _ : nat => Some 1) with (fun _ : nat => Some (Z.b2z true)). rewrite E2, skipn_all2, app_nil_r by lia. cbn [lift bind]. apply G2; [exact K1|]. cbv beta iota.
  rewrite ensure_true by (rewrite length_to_bytes, L2; apply Nat.leb_refl). assert (Eb : to_blocks height (to_bytes sent) = sent) by (rewrite <- L2 at 1; apply to_blocks_bytes; auto). rewrite Eb. rewrite L2, Nat.leb_refl.
  rewrite (choice_index_ok hr rv height c ltac:(lia) (cots_choice _ _ _ _ _ _ _ _ Hc)). rewrite firstn_all2 by lia. rewrite E3, E4. cbn [lift bind]. apply duo_done.
Qed.
End Talk.
