(* ===== verification/LinearCode.v ===== *)
(** Local linear codes ([coding/linear/local_linear_code.h]): every position of a
    codeword is the sum of [d] positions of the message, which a random permutation
    chooses.  Encoding adds to what the output holds. *)
From Stdlib Require Import ZArith Lia List Bool.
From S2P Require Import Prelude.
From S2P Require Import Errors.
From S2P Require Import Int128.
From S2P Require Import Cipher.
From S2P Require Import CrHash.
From S2P Require Import Transpose.
From S2P Require Import OtStore.
From S2P Require Import OtExt.
From S2P Require Import Gywz.
Import ListNotations.
#[local] Open Scope Z_scope.

Definition kLcBatchSize : nat := 1024.

(** 128-bit registers of four 32-bit lanes. *)
Definition of_lanes (f : Z -> Z) : Z := fold_right Z.lor 0 (map (fun l => f l [<<] (32 * l)) [0; 1; 2; 3]).
Definition set_epi32 (e3 e2 e1 e0 : Z) : Z := Z.lor (Z.lor (e3 [<<] 96) (e2 [<<] 64)) (Z.lor (e1 [<<] 32) e0).
Definition cmpgt_epi32 (a b : Z) : Z := of_lanes (fun l => if i32 (lane32 b l) <? i32 (lane32 a l) then 0xffffffff else 0).
Definition sub_epi32 (a b : Z) : Z := of_lanes (fun l => u32 (lane32 a l - lane32 b l)).
(** The registers, read as 32-bit words. *)
Definition words32 (l : list Z) : list Z := flat_map (fun b => map (lane32 b) [0; 1; 2; 3]) l.

Record LocalLinearCode := MkLinearCode { n_ : Z; k_ : Z; rp_ : RP; mask_ : Z; extend_mask_ : Z; extend_k_ : Z; extend_cmp_ : Z }.

(** For [k] of more than 32 bits the loop never ends. *)
Fixpoint mask_loop (fuel : nat) (mask k : Z) : option Z :=
  if mask <? k then match fuel with O => None | S fuel => mask_loop fuel (Z.lor (u32 (mask [<<] 1)) 0x1) k end else Some mask.
Definition LocalLinearCode_new (seed n k : Z) : option LocalLinearCode :=
  let n32 := u32 n in
  let k32 := u32 k in
  let? mask := mask_loop 32 1 k in
  let mask64 := Z.lor (u64 (mask [<<] 32)) mask in
  let k64 := Z.lor (u64 (k32 [<<] 32)) k32 in
  let cmp64 := Z.lor (u64 (u32 (k32 - 1) [<<] 32)) (u32 (k32 - 1)) in
  Some (MkLinearCode n32 k32 (RandomPermutation AES128_ECB seed 0x12345678) mask (MakeUint128 mask64 mask64) (MakeUint128 k64 k64) (MakeUint128 cmp64 cmp64)).
Definition GetDimention (llc : LocalLinearCode) : Z := k_ llc.
Definition GetLength (llc : LocalLinearCode) : Z := n_ llc.

Section Code.
Context {C : Cipher}.
Variable d : nat.

Definition reduce_index (llc : LocalLinearCode) (idx128 : Z) : Z :=
  let idx128 := Z.land idx128 (extend_mask_ llc) in
  let sub := cmpgt_epi32 idx128 (extend_cmp_ llc) in
  let sub := Z.land sub (extend_k_ llc) in
  sub_epi32 idx128 sub.
Definition GenIndexes (llc : LocalLinearCode) (i : Z) (block_num : nat) : option (list Z) :=
  let tmp := map (fun j => set_epi32 i 0 (Z.of_nat j) 0) (seq 0 block_num) in
  let? tmp := GenForMultiInputs (rp_ llc) tmp in
  Some (map (reduce_index llc) tmp).

Definition block_num (limit : nat) : nat := (limit * d + 3) / 4.
Definition lc_batches (size : nat) : nat := (size + kLcBatchSize - 1) / kLcBatchSize.
Definition lc_limit (size i : nat) : nat := Nat.min kLcBatchSize (size - i).

(** An index past the end of the message is undefined; so is a loop whose 32-bit
    counter never reaches the size. *)
Definition add_sparse (in_ : list Z) (idx : list Z) (j : nat) (val : Z) : option Z :=
  foldM (fun val k => let? p := nth_error idx (j * d + k) in let? x := nth_error in_ (Z.to_nat p) in Some (Z.lxor val x)) (seq 0 d) val.
Definition size_reached (size : nat) : bool := Z.of_nat size <=? 2 ^ 32 - Z.of_nat kLcBatchSize.

Definition Encode_at (in_ idx : list Z) (i : nat) (out : list Z) (j : nat) : option (list Z) :=
  let? val := nth_error out (i + j) in
  let? val := add_sparse in_ idx j val in
  Some (upd out (i + j) val).
Definition Encode_batch (llc : LocalLinearCode) (in_ : list Z) (size : nat) (out : list Z) (b : nat) : option (list Z) :=
  let i := (b * kLcBatchSize)%nat in
  let limit := lc_limit size i in
  let? tmp := GenIndexes llc (Z.of_nat i) (block_num limit) in
  foldM (Encode_at in_ (words32 tmp) i) (seq 0 limit) out.
Definition Encode (llc : LocalLinearCode) (in_ out : list Z) : option (list Z) :=
  YACL_ENFORCE (Z.of_nat (length in_) =? k_ llc)
    (let size := length out in
     YACL_ENFORCE (size_reached size) (foldM (Encode_batch llc in_ size) (seq 0 (lc_batches size)) out)).

(** Two messages at once, with the same indexes. *)
Definition Encode2_at (in0 in1 idx : list Z) (i : nat) (out : list Z * list Z) (j : nat) : option (list Z * list Z) :=
  let '(out0, out1) := out in
  let? val0 := nth_error out0 (i + j) in
  let? val1 := nth_error out1 (i + j) in
  let? (val0, val1) := foldM (fun '(val0, val1) k =>
    let? p := nth_error idx (j * d + k) in
    let? x0 := nth_error in0 (Z.to_nat p) in
    let? x1 := nth_error in1 (Z.to_nat p) in Some (Z.lxor val0 x0, Z.lxor val1 x1)) (seq 0 d) (val0, val1) in
  Some (upd out0 (i + j) val0, upd out1 (i + j) val1).
Definition Encode2_batch (llc : LocalLinearCode) (in0 in1 : list Z) (size : nat) (out : list Z * list Z) (b : nat) : option (list Z * list Z) :=
  let i := (b * kLcBatchSize)%nat in
  let limit := lc_limit size i in
  let? tmp := GenIndexes llc (Z.of_nat i) (block_num limit) in
  foldM (Encode2_at in0 in1 (words32 tmp) i) (seq 0 limit) out.
Definition Encode2 (llc : LocalLinearCode) (in0 out0 in1 out1 : list Z) : option (list Z * list Z) :=
  YACL_ENFORCE (Z.of_nat (length in0) =? k_ llc)
    (YACL_ENFORCE (Z.of_nat (length in1) =? k_ llc)
      (let size := Nat.min (length out0) (length out1) in
       YACL_ENFORCE (size_reached size) (foldM (Encode2_batch llc in0 in1 size) (seq 0 (lc_batches size)) (out0, out1)))).
End Code.

(** ** Lanes *)

Lemma lane32_bit x l b : 0 <= l -> 0 <= b -> Z.testbit (lane32 x l) b = (b <? 32) && Z.testbit x (32 * l + b).
Proof.
  intros Hl Hb. unfold lane32, u32, uwrap. destruct (Z.ltb_spec b 32); [rewrite Z.mod_pow2_bits_low, Z.shiftr_spec by lia; cbn [andb]; f_equal; lia|now rewrite Z.mod_pow2_bits_high by lia].
Qed.
Lemma lane32_bound x l : 0 <= lane32 x l < 2 ^ 32.
Proof. apply Z.mod_pos_bound. lia. Qed.
Lemma word_bit_high x b : 0 <= x < 2 ^ 32 -> 32 <= b -> Z.testbit x b = false.
Proof. intros Hx Hb. rewrite <- (Z.mod_small x (2 ^ 32) Hx). now apply Z.mod_pow2_bits_high. Qed.

Lemma lane_of_lanes f l : (forall l, 0 <= f l < 2 ^ 32) -> 0 <= l < 4 -> lane32 (of_lanes f) l = f l.
Proof.
  intros Hf Hl. apply Z.bits_inj'. intros b Hb. rewrite lane32_bit by lia. unfold of_lanes. cbn [map fold_right]. rewrite !Z.lor_spec, !Z.shiftl_spec by lia. rewrite Z.bits_0, orb_false_r.
  destruct (Z.ltb_spec b 32); [|symmetry; apply word_bit_high; auto; lia]. cbn [andb].
  assert (Hk : forall k, 0 <= k < 4 -> Z.testbit (f k) (32 * l + b - 32 * k) = (k =? l) && Z.testbit (f l) b).
  { intros k Hk. destruct (Z.eqb_spec k l) as [->|N]; [cbn [andb]; f_equal; lia|]. destruct (Z.lt_ge_cases k l); [apply word_bit_high; auto; lia|apply Z.testbit_neg_r; lia]. }
  rewrite !Hk by lia.
  assert (l = 0 \/ l = 1 \/ l = 2 \/ l = 3) as [ -> | [ -> | [ -> | -> ]]] by lia; cbn; rewrite ?orb_false_r; reflexivity.
Qed.

Lemma lane_land x y l : 0 <= l -> lane32 (Z.land x y) l = Z.land (lane32 x l) (lane32 y l).
Proof. intros Hl. apply Z.bits_inj'. intros b Hb. rewrite Z.land_spec, !lane32_bit, Z.land_spec by lia. destruct (b <? 32); reflexivity. Qed.

(** A word in all lanes. *)
Lemma lane_broadcast v l : 0 <= v < 2 ^ 32 -> 0 <= l < 4 -> let v64 := Z.lor (u64 (v [<<] 32)) v in lane32 (MakeUint128 v64 v64) l = v.
Proof.
  intros Hv Hl. cbv zeta. assert (S : u64 (v [<<] 32) = Z.shiftl v 32) by (apply Z.mod_small; rewrite Z.shiftl_mul_pow2 by lia; lia). rewrite S.
  transitivity (lane32 (of_lanes (fun _ => v)) l); [|now apply lane_of_lanes]. f_equal. unfold MakeUint128, of_lanes. cbn [map fold_right]. rewrite Z.shiftl_lor, Z.shiftl_shiftl by lia.
  apply Z.bits_inj'. intros b _. rewrite !Z.lor_spec, Z.bits_0. change (32 * 0) with 0. rewrite Z.shiftl_0_r. change (32 + 64) with (32 * 3). change (32 * 2) with 64. change (32 * 1) with 32.
  destruct (Z.testbit v b), (Z.testbit (Z.shiftl v 32) b), (Z.testbit (Z.shiftl v 64) b), (Z.testbit (Z.shiftl v (32 * 3)) b); reflexivity.
Qed.

(** ** The masks and the indexes *)

Lemma mask_loop_ok fuel k : forall m, 0 < m -> m + Z.of_nat fuel = 33 -> 0 < k < 2 ^ 32 -> (m = 1 \/ 2 ^ (m - 1) - 1 < k) ->
  exists m', mask_loop fuel (2 ^ m - 1) k = Some (2 ^ m' - 1) /\ 0 < m' <= 32 /\ k <= 2 ^ m' - 1 /\ (m' = 1 \/ 2 ^ (m' - 1) - 1 < k).
Proof.
  induction fuel as [|fuel IH]; intros m Hm Hf Hk Hl; cbn [mask_loop].
  - assert (m = 33) as -> by lia. change (2 ^ 33 - 1) with 8589934591. destruct (Z.ltb_spec 8589934591 k); [lia|]. destruct Hl as [|Hl]; [lia|]. change (2 ^ (33 - 1)) with (2 ^ 32) in Hl. lia.
  - destruct (Z.ltb_spec (2 ^ m - 1) k) as [G|G].
    + assert (M32 : m < 32) by (destruct (Z.lt_ge_cases m 32); [assumption|]; pose proof (Z.pow_le_mono_r 2 32 m ltac:(lia) ltac:(lia)); lia). assert (P : 2 ^ (m + 1) = 2 * 2 ^ m) by (rewrite Z.pow_add_r by lia; lia). assert (P' : 2 ^ (m + 1) <= 2 ^ 32) by (apply Z.pow_le_mono_r; lia). pose proof (Z.pow_pos_nonneg 2 m).
      assert (E : Z.lor (u32 ((2 ^ m - 1) [<<] 1)) 0x1 = 2 ^ (m + 1) - 1).
      { unfold u32, uwrap. rewrite Z.shiftl_mul_pow2 by lia. rewrite Z.mod_small by lia.
        pose proof (Z.add_lor_land ((2 ^ m - 1) * 2 ^ 1) 1) as A. rewrite land_1_odd, Z.odd_mul, andb_false_r in A. cbn [Z.b2z] in A. lia. }
      rewrite E. apply IH; [lia|lia|exact Hk|]. right. now replace (m + 1 - 1) with m by lia.
    + exists m. split; [reflexivity|]. split; [|split; [lia|exact Hl]]. split; [exact Hm|]. lia.
Qed.

Lemma LocalLinearCode_new_ok seed n k : 0 < k < 2 ^ 32 -> exists m llc, LocalLinearCode_new seed n k = Some llc /\ 0 < m <= 32 /\ k <= 2 ^ m - 1 /\ (m = 1 \/ 2 ^ (m - 1) - 1 < k) /\
  k_ llc = k /\ rp_ llc = RandomPermutation AES128_ECB seed 0x12345678 /\
  forall l, 0 <= l < 4 -> lane32 (extend_mask_ llc) l = 2 ^ m - 1 /\ lane32 (extend_k_ llc) l = k /\ lane32 (extend_cmp_ llc) l = k - 1.
Proof.
  intros Hk. destruct (mask_loop_ok 32 k 1) as (m & E & Hm & Km & Lm); [lia|lia|exact Hk|now left|]. change (2 ^ 1 - 1) with 1 in E. exists m. unfold LocalLinearCode_new. rewrite E. eexists. split; [reflexivity|].
  assert (U : u32 k = k) by (apply Z.mod_small; lia). assert (U1 : u32 (k - 1) = k - 1) by (apply Z.mod_small; lia). rewrite U, U1. cbn [k_ rp_ extend_mask_ extend_k_ extend_cmp_].
  assert (2 ^ m <= 2 ^ 32) by (apply Z.pow_le_mono_r; lia). repeat (split; [assumption || reflexivity|]). intros l Hl. repeat split; apply lane_broadcast; lia.
Qed.

(** One lane. *)
Definition reduce (m k e : Z) : Z := let x := Z.land e (2 ^ m - 1) in if i32 (k - 1) <? i32 x then u32 (x - k) else x.

Lemma lane_reduce m llc k x l : 0 < m <= 32 -> 0 < k < 2 ^ 32 -> (forall l, 0 <= l < 4 -> lane32 (extend_mask_ llc) l = 2 ^ m - 1 /\ lane32 (extend_k_ llc) l = k /\ lane32 (extend_cmp_ llc) l = k - 1) ->
  0 <= l < 4 -> lane32 (reduce_index llc x) l = reduce m k (lane32 x l).
Proof.
  intros Hm Hk Hc Hl. destruct (Hc l Hl) as (E1 & E2 & E3). unfold reduce_index, sub_epi32. rewrite lane_of_lanes by (try exact Hl; intros; apply Z.mod_pos_bound; lia).
  rewrite !lane_land, E1, E2 by lia. unfold cmpgt_epi32. rewrite lane_of_lanes by (try exact Hl; intros j; destruct (_ <? _); lia). rewrite lane_land, E1, E3 by lia. unfold reduce. cbv zeta.
  assert (B : 0 <= Z.land (lane32 x l) (2 ^ m - 1) < 2 ^ 32).
  { replace (2 ^ m - 1) with (Z.ones m) by (rewrite Z.ones_equiv; lia). rewrite Z.land_ones by lia. pose proof (Z.mod_pos_bound (lane32 x l) (2 ^ m) ltac:(apply Z.pow_pos_nonneg; lia)). assert (2 ^ m <= 2 ^ 32) by (apply Z.pow_le_mono_r; lia). lia. }
  destruct (_ <? _); [change 4294967295 with (Z.ones 32); rewrite (Z.land_comm (Z.ones 32)), Z.land_ones by lia; now rewrite (Z.mod_small k) by lia|]. rewrite Z.land_0_l, Z.sub_0_r. apply Z.mod_small. exact B.
Qed.

(** Of 31 bits, the indexes are those of the message. *)
Lemma reduce_lt m k e : 0 < m <= 32 -> 0 < k < 2 ^ 31 -> k <= 2 ^ m - 1 -> (m = 1 \/ 2 ^ (m - 1) - 1 < k) -> 0 <= reduce m k e < k.
Proof.
  intros Hm Hk Km Lm. unfold reduce. cbv zeta. assert (O : 2 ^ m - 1 = Z.ones m) by (rewrite Z.ones_equiv; lia). rewrite O, Z.land_ones by lia. pose proof (Z.mod_pos_bound e (2 ^ m) ltac:(apply Z.pow_pos_nonneg; lia)) as B.
  assert (M2 : 2 ^ m <= 2 * k) by (destruct Lm as [->|Lm]; [change (2 ^ 1) with 2; lia|]; replace m with (m - 1 + 1) by lia; rewrite Z.pow_add_r by lia; change (2 ^ 1) with 2; lia).
  set (x := e mod 2 ^ m) in *. assert (P31 : 2 ^ m <= 2 ^ 31).
  { destruct (Z.eq_dec m 32) as [->|]; [|apply Z.pow_le_mono_r; lia]. destruct Lm as [|Lm]; [lia|]. change (2 ^ (32 - 1)) with (2 ^ 31) in Lm. lia. }
  unfold i32. rewrite !(swrap_small 32) by lia. destruct (Z.ltb_spec (k - 1) x); [unfold u32, uwrap; rewrite Z.mod_small by lia; lia|lia].
Qed.

(** ** Encoding *)

Section Encoding.
Context {C : Cipher} {L : CipherLaws C}.
Variables (d : nat) (seed : Z) (m k : Z) (llc : LocalLinearCode).
Hypothesis Hm : 0 < m <= 32.
Hypothesis Hk : 0 < k < 2 ^ 31.
Hypothesis Hrange : forall e, 0 <= reduce m k e < k.
Hypothesis Hrp : rp_ llc = RandomPermutation AES128_ECB seed 0x12345678.
Hypothesis Hlanes : forall l, 0 <= l < 4 -> lane32 (extend_mask_ llc) l = 2 ^ m - 1 /\ lane32 (extend_k_ llc) l = k /\ lane32 (extend_cmp_ llc) l = k - 1.
Hypothesis Hdim : k_ llc = k.

(** Index [q] of the batch that starts at [i]; the indexes of a position. *)
Definition index_at (i : Z) (q : nat) : nat := Z.to_nat (reduce m k (lane32 (ecb AES128_ECB seed 0x12345678 (set_epi32 i 0 (Z.of_nat (q / 4)) 0)) (Z.of_nat (q mod 4)))).
Definition row (p : nat) : list nat := map (fun j => index_at (Z.of_nat (p / kLcBatchSize * kLcBatchSize)) ((p mod kLcBatchSize) * d + j)) (seq 0 d).
Definition sum_row (in_ : list Z) (p : nat) (val : Z) : Z := fold_left (fun v i => Z.lxor v (at_ in_ i)) (row p) val.

Lemma index_at_lt i q : (index_at i q < Z.to_nat k)%nat.
Proof. unfold index_at. pose proof (Hrange (lane32 (ecb AES128_ECB seed 305419896 (set_epi32 i 0 (Z.of_nat (q / 4)) 0)) (Z.of_nat (q mod 4)))). lia. Qed.

Lemma words32_nth (g : nat -> Z) n q : (q < 4 * n)%nat -> nth_error (words32 (map g (seq 0 n))) q = Some (lane32 (g (q / 4)%nat) (Z.of_nat (q mod 4))).
Proof.
  enough (G : forall b, (q < 4 * n)%nat -> nth_error (words32 (map g (seq b n))) q = Some (lane32 (g (b + q / 4)%nat) (Z.of_nat (q mod 4)))) by (intros H; now apply G).
  revert q; induction n as [|n IH]; intros q b H; [lia|]. cbn [seq map words32 flat_map app].
  destruct q as [|[|[|[|q]]]]; [rewrite Nat.add_0_r; reflexivity..|]. cbn [nth_error]. fold (words32 (map g (seq (S b) n))). rewrite IH by lia. replace (S (S (S (S q)))) with (q + 1 * 4)%nat by lia. rewrite Nat.div_add, Nat.Div0.mod_add by lia. do 3 f_equal. lia.
Qed.

Lemma GenIndexes_ok i n : exists tmp, GenIndexes llc i n = Some tmp /\ forall q, (q < 4 * n)%nat -> option_map Z.to_nat (nth_error (words32 tmp) q) = Some (index_at i q).
Proof.
  unfold GenIndexes, GenForMultiInputs. rewrite Hrp. cbn [ctype_ key_ iv_]. rewrite Encrypt_blocks_ok by reflexivity. rewrite !map_map. eexists. split; [reflexivity|]. intros q Hq.
  rewrite words32_nth by exact Hq. cbn [option_map]. unfold index_at. do 2 f_equal. apply lane_reduce; [exact Hm|lia|exact Hlanes|]. pose proof (Nat.mod_upper_bound q 4 ltac:(lia)). lia.
Qed.

Lemma add_sparse_ok in_ idx j val (f : nat -> nat) : (forall e, (e < d)%nat -> option_map Z.to_nat (nth_error idx (j * d + e)) = Some (f e) /\ (f e < length in_)%nat) ->
  add_sparse d in_ idx j val = Some (fold_left (fun v i => Z.lxor v (at_ in_ i)) (map f (seq 0 d)) val).
Proof.
  intros H. unfold add_sparse. refine (foldM_states _ (fun e => fold_left (fun v i => Z.lxor v (at_ in_ i)) (map f (seq 0 e)) val) d _). intros e He. destruct (H e He) as [E F]. destruct (nth_error idx (j * d + e)) as [p|]; [|discriminate]. injection E as E. rewrite E.
  rewrite (nth_error_nth' _ 0) by exact F. rewrite seq_S, map_app, fold_left_app. reflexivity.
Qed.

Lemma block_num_enough limit j e : (j < limit)%nat -> (e < d)%nat -> (j * d + e < 4 * block_num d limit)%nat.
Proof. intros Hj He. unfold block_num. pose proof (Nat.div_mod_eq (limit * d + 3) 4). pose proof (Nat.mod_upper_bound (limit * d + 3) 4 ltac:(lia)). nia. Qed.

Definition filled (in_ : list Z) (size : nat) (out : list Z) (p : nat) (out' : list Z) : Prop :=
  length out' = length out /\ forall q, (q < length out)%nat -> at_ out' q = if (q <? p)%nat then sum_row in_ q (at_ out q) else at_ out q.

Lemma Encode_loop_ok in_ size out : Z.of_nat (length in_) = k -> (size <= length out)%nat ->
  exists out', foldM (Encode_batch d llc in_ size) (seq 0 (lc_batches size)) out = Some out' /\ filled in_ size out size out'.
Proof.
  intros Hi Hs. destruct (foldM_from_inv (Encode_batch d llc in_ size) (fun b o => filled in_ size out (Nat.min (b * kLcBatchSize) size) o) (lc_batches size) 0 out) as (o & E & I).
  - intros b o Hb I. unfold Encode_batch. set (i := (b * kLcBatchSize)%nat) in *. set (limit := lc_limit size i). destruct (GenIndexes_ok (Z.of_nat i) (block_num d limit)) as (tmp & -> & G).
    assert (Hl : (i + limit <= size)%nat /\ Nat.min (S b * kLcBatchSize) size = (i + limit)%nat).
    { unfold limit, lc_limit, i. unfold lc_batches in Hb. pose proof (Nat.div_mod_eq (size + kLcBatchSize - 1) kLcBatchSize). unfold kLcBatchSize in *. pose proof (Nat.mod_upper_bound (size + 1024 - 1) 1024 ltac:(lia)). lia. }
    destruct Hl as [Hl Em]. destruct (foldM_from_inv (Encode_at d in_ (words32 tmp) i) (fun j o => filled in_ size out (i + j) o) limit 0 o) as (o' & E' & I').
    + intros j o1 Hj (Lo & V). unfold Encode_at. rewrite (nth_error_nth' _ 0) by lia. change (nth (i + j) o1 0) with (at_ o1 (i + j)). rewrite V, Nat.ltb_irrefl by lia.
      rewrite (add_sparse_ok in_ (words32 tmp) j _ (fun e => index_at (Z.of_nat i) (j * d + e))).
      2:{ intros e He. rewrite G by (apply block_num_enough; lia). split; [reflexivity|]. pose proof (index_at_lt (Z.of_nat i) (j * d + e)). lia. }
      eexists. split; [reflexivity|]. split; [now rewrite length_upd|]. intros q Hq. destruct (Nat.eq_dec q (i + j)) as [->|N].
      * rewrite at_upd_eq by lia. rewrite (proj2 (Nat.ltb_lt (i + j) (i + S j))) by lia. unfold sum_row, row.
        assert (D1 : ((i + j) / kLcBatchSize = b)%nat /\ ((i + j) mod kLcBatchSize = j)%nat).
        { unfold i. unfold limit, lc_limit, kLcBatchSize in *. rewrite Nat.add_comm, Nat.div_add, Nat.Div0.mod_add by lia. rewrite Nat.div_small, Nat.mod_small by lia. split; reflexivity. }
        destruct D1 as [-> ->]. reflexivity.
      * rewrite at_upd_ne by auto. rewrite V by exact Hq. destruct (Nat.ltb_spec q (i + j)), (Nat.ltb_spec q (i + S j)); lia || reflexivity.
    + rewrite Nat.add_0_r. replace (Nat.min i size) with i in I by (unfold limit, lc_limit in Hl; lia). exact I.
    + exists o'. split; [exact E'|]. now rewrite Em.
  - split; [reflexivity|]. intros q _. reflexivity.
  - exists o. split; [exact E|]. replace (Nat.min ((0 + lc_batches size) * kLcBatchSize) size) with size in I; [exact I|]. cbn [Nat.add]. symmetry. apply Nat.min_r. unfold lc_batches. pose proof (Nat.div_mod_eq (size + kLcBatchSize - 1) kLcBatchSize). unfold kLcBatchSize in *. pose proof (Nat.mod_upper_bound (size + 1024 - 1) 1024 ltac:(lia)). lia.
Qed.
End Encoding.

(** ** The whole encoding *)

Lemma mask_enough seed n k : 0 < k < 2 ^ 31 -> exists m llc, LocalLinearCode_new seed n k = Some llc /\ 0 < m <= 32 /\ k_ llc = k /\ rp_ llc = RandomPermutation AES128_ECB seed 0x12345678 /\
  (forall e, 0 <= reduce m k e < k) /\ forall l, 0 <= l < 4 -> lane32 (extend_mask_ llc) l = 2 ^ m - 1 /\ lane32 (extend_k_ llc) l = k /\ lane32 (extend_cmp_ llc) l = k - 1.
Proof.
  intros Hk. destruct (LocalLinearCode_new_ok seed n k ltac:(lia)) as (m & llc & E & Hm & Km & Lm & Ek & Er & Hl). exists m, llc. repeat (split; [assumption|]). split; [|exact Hl]. intros e. now apply reduce_lt.
Qed.

(** The sum of the positions [rows] of a message. *)
Definition sum_of (in_ : list Z) (rows : list nat) (val : Z) : Z := fold_left (fun v i => Z.lxor v (at_ in_ i)) rows val.

(** A code: the rows of every position. *)
Definition encodes {C : Cipher} (d : nat) (llc : LocalLinearCode) (k : Z) (rows : nat -> list nat) : Prop :=
  k_ llc = k /\ (forall p, length (rows p) = d /\ Forall (fun i => (i < Z.to_nat k)%nat) (rows p)) /\
  forall in_ size out, Z.of_nat (length in_) = k -> (size <= length out)%nat ->
    exists out', foldM (Encode_batch d llc in_ size) (seq 0 (lc_batches size)) out = Some out' /\ length out' = length out /\
      forall q, (q < length out)%nat -> at_ out' q = if (q <? size)%nat then sum_of in_ (rows q) (at_ out q) else at_ out q.

Section Whole.
Context {C : Cipher} {L : CipherLaws C}.

Lemma LocalLinearCode_encodes d seed n k : 0 < k < 2 ^ 31 -> exists llc rows, LocalLinearCode_new seed n k = Some llc /\ encodes d llc k rows.
Proof.
  intros Hk. destruct (mask_enough seed n k Hk) as (m & llc & E & Hm & Ek & Er & Hr & Hl). exists llc, (row d seed m k). split; [exact E|]. split; [exact Ek|]. split.
  - intros p. split; [unfold row; now rewrite length_map, length_seq|]. unfold row. apply List.Forall_forall. intros i Hi. apply in_map_iff in Hi as (j & <- & _). apply index_at_lt; assumption.
  - intros in_ size out Hi Hs. destruct (Encode_loop_ok d seed m k llc Hm Hk Hr Er Hl in_ size out Hi Hs) as (out' & Eo & Lo & V). exists out'. split; [exact Eo|]. split; [exact Lo|exact V].
Qed.

Variables (d : nat) (llc : LocalLinearCode) (k : Z) (rows : nat -> list nat).
Hypothesis E : encodes d llc k rows.

Lemma Encode_ok in_ out : Z.of_nat (length in_) = k -> size_reached (length out) = true ->
  exists out', Encode d llc in_ out = Some out' /\ length out' = length out /\ forall q, (q < length out)%nat -> at_ out' q = sum_of in_ (rows q) (at_ out q).
Proof.
  intros Hi Hs. destruct E as (Ek & _ & G). destruct (G in_ (length out) out Hi (Nat.le_refl _)) as (out' & Eo & Lo & V). exists out'. unfold Encode, YACL_ENFORCE. rewrite Hi, Ek, Z.eqb_refl, Hs. split; [exact Eo|]. split; [exact Lo|].
  intros q Hq. rewrite V by exact Hq. now rewrite (proj2 (Nat.ltb_lt _ _) Hq).
Qed.

(** An output of which the first [n] positions were written. *)
Lemma written_prefix n out a (f : nat -> Z -> Z) : (n <= length out)%nat -> length a = length out ->
  (forall q, (q < length out)%nat -> at_ a q = if (q <? n)%nat then f q (at_ out q) else at_ out q) ->
  a = map (fun q => f q (at_ (firstn n out) q)) (seq 0 n) ++ skipn n out.
Proof.
  intros Hn La V. apply (at_ext _ _ (length out)); [exact La|rewrite length_app, length_map, length_seq, length_skipn; lia|].
  intros q Hq. rewrite V by exact Hq. destruct (Nat.ltb_spec q n) as [H|H].
  - symmetry. unfold at_ at 1. rewrite app_nth1 by now rewrite length_map, length_seq. etransitivity; [exact (at_map_seq _ n q H)|].
    cbv beta. unfold at_. now rewrite nth_firstn, (proj2 (Nat.ltb_lt _ _) H).
  - symmetry. unfold at_. rewrite app_nth2 by (rewrite length_map, length_seq; exact H). rewrite length_map, length_seq, nth_skipn. f_equal. lia.
Qed.

(** Encoding two messages at once is encoding each. *)
Lemma foldM_pair {A B X} (f2 : A * B -> X -> option (A * B)) (f : A -> X -> option A) (g : B -> X -> option B) :
  (forall a b x, f2 (a, b) x = let? a' := f a x in let? b' := g b x in Some (a', b')) ->
  forall l a b, foldM f2 l (a, b) = let? a' := foldM f l a in let? b' := foldM g l b in Some (a', b').
Proof.
  intros H. induction l as [|x l IH]; intros a b; cbn [foldM]; [reflexivity|]. rewrite H. destruct (f a x) as [a'|]; [|reflexivity]. destruct (g b x) as [b'|]; [apply IH|]. now destruct (foldM f l a').
Qed.

Lemma Encode2_at_pair in0 in1 idx i a b j : Encode2_at d in0 in1 idx i (a, b) j = let? a' := Encode_at d in0 idx i a j in let? b' := Encode_at d in1 idx i b j in Some (a', b').
Proof.
  unfold Encode2_at, Encode_at, add_sparse. destruct (nth_error a (i + j)) as [x|]; [|reflexivity]. destruct (nth_error b (i + j)) as [y|]; [|now destruct (foldM _ _ _)].
  rewrite (foldM_pair _ (fun val k => let? p := nth_error idx (j * d + k) in let? x := nth_error in0 (Z.to_nat p) in Some (Z.lxor val x)) (fun val k => let? p := nth_error idx (j * d + k) in let? x := nth_error in1 (Z.to_nat p) in Some (Z.lxor val x))).
  - destruct (foldM _ _ x); [|reflexivity]. now destruct (foldM _ _ y).
  - intros u v e. destruct (nth_error idx (j * d + e)) as [p|]; [|reflexivity]. destruct (nth_error in0 _); [|reflexivity]. now destruct (nth_error in1 _).
Qed.

Lemma Encode2_batch_pair in0 in1 size a b k' : Encode2_batch d llc in0 in1 size (a, b) k' = let? a' := Encode_batch d llc in0 size a k' in let? b' := Encode_batch d llc in1 size b k' in Some (a', b').
Proof. unfold Encode2_batch, Encode_batch. destruct (GenIndexes _ _ _) as [tmp|]; [|reflexivity]. apply foldM_pair. intros. apply Encode2_at_pair. Qed.

Lemma Encode2_ok in0 out0 in1 out1 : let size := Nat.min (length out0) (length out1) in
  Z.of_nat (length in0) = k -> Z.of_nat (length in1) = k -> size_reached size = true ->
  exists a b, Encode2 d llc in0 out0 in1 out1 = Some (a, b) /\ length a = length out0 /\ length b = length out1 /\
    (forall q, (q < length out0)%nat -> at_ a q = if (q <? size)%nat then sum_of in0 (rows q) (at_ out0 q) else at_ out0 q) /\
    (forall q, (q < length out1)%nat -> at_ b q = if (q <? size)%nat then sum_of in1 (rows q) (at_ out1 q) else at_ out1 q).
Proof.
  cbv zeta. intros H0 H1 Hs. destruct E as (Ek & _ & G). set (size := Nat.min (length out0) (length out1)) in *. destruct (G in0 size out0 H0 ltac:(unfold size; lia)) as (a & Ea & La & Va). destruct (G in1 size out1 H1 ltac:(unfold size; lia)) as (b & Eb & Lb & Vb).
  exists a, b. unfold Encode2, YACL_ENFORCE. rewrite H0, H1, Ek, Z.eqb_refl. cbv zeta. fold size. rewrite Hs, (foldM_pair _ _ _ (Encode2_batch_pair in0 in1 size)), Ea, Eb. split; [reflexivity|]. split; [exact La|]. split; [exact Lb|]. split; [exact Va|exact Vb].
Qed.
End Whole.
