(* ===== verification/MpCot.v ===== *)
(** Correlated transfers at many points ([ot/ferret_ote_rn.h], [SyncSeedSend] and
    [SyncSeedRecv] of [theoretical_tools/common.h]): regular noise, one point in every
    bin.  The packing of seeds and the hash function are parameters. *)
From Stdlib Require Import ZArith Lia List Bool.
From S2P Require Import Prelude.
From S2P Require Import Errors.
From S2P Require Import Int128.
From S2P Require Import Cipher.
From S2P Require Import Bitset.
From S2P Require Import BitsetOps.
From S2P Require Import Gf.
From S2P Require Import CrHash.
From S2P Require Import OtStore.
From S2P Require Import OtExt.
From S2P Require Import Parties.
From S2P Require Import Context.
From S2P Require Import Duo.
From S2P Require Import ChosenOt.
From S2P Require Import Gywz.
From S2P Require Import Roles.
Import ListNotations.
#[local] Open Scope Z_scope.

(** [SerializeUint128], [DeserializeUint128] (msgpack), and [Blake3]. *)
Class Codec := { pack128 : Z -> list Z; unpack128 : list Z -> option Z; Blake3 : list Z -> list Z }.
Class CodecLaws (S : Codec) : Prop := { unpack_pack : forall x, in128 x -> unpack128 (pack128 x) = Some x }.

Definition DivCeil (x y : Z) : option Z := if x =? 0 then Some 0 else if y =? 0 then None else Some (1 + (x - 1) / y).

(** Bins of equal size but the last. *)
Definition MpCotRNHelper (idx_num idx_range : Z) (mal : bool) : option Z :=
  YACL_ENFORCE (negb (idx_num =? 0))
    (let batch_size := u64 (u64 (idx_range + idx_num) - 1) / idx_num in
     let last_size := u64 (idx_range - u64 (batch_size * u64 (idx_num - 1))) in
     let check_size := if mal then 128 else 0 in
     let? batch_length := Log2Ceil batch_size in
     let? last_length := Log2Ceil last_size in
     Some (u64 (u64 (u64 (batch_length * u64 (idx_num - 1)) + last_length) + check_size))).

(** Spans past the end are undefined. *)
Definition sub_span (l : list Z) (offset count : Z) : option (list Z) :=
  if offset + count <=? Z.of_nat (length l) then Some (subspan l (Z.to_nat offset) (Z.to_nat count)) else None.

(** Bins, size of the last one, transfers of a bin and of the last one.  With no bin at
    all the loop runs past the end of the output. *)
Definition mp_bins (idx_range idx_num spcot_size : Z) : option (Z * Z * Z * Z) :=
  let? batch_num := DivCeil idx_range spcot_size in
  YACL_ENFORCE (batch_num <=? idx_num)
    (YACL_ENFORCE (0 <? batch_num)
      (let last_size := u64 (idx_range - u64 ((batch_num - 1) * spcot_size)) in
       let? batch_length := Log2Ceil spcot_size in
       let? last_length := Log2Ceil last_size in
       Some (batch_num, last_size, batch_length, last_length))).

Section Code.
Context {C : Cipher} {S : Codec}.

Definition ctx_SyncSeedSend (seed : Z) (ctx : Context) : prog (Z * Context) :=
  do ctx <- ctx_SendAsync (NextRank ctx 1) (pack128 seed) ctx; Done (seed, ctx).
Definition ctx_SyncSeedRecv (ctx : Context) : prog (Z * Context) :=
  do (buf, ctx) <- ctx_RecvP2P (NextRank ctx 1) ctx;
  do seed <- lift (unpack128 buf); Done (seed, ctx).

(** A bin of [size] positions from [offset] on, with the transfers from [first] on. *)
Definition send_bin (h : heap) (cot : OtSendStore) (first len size offset seed : Z) (st : list Z * Context) : prog (list Z * Context) :=
  let '(out, ctx) := st in
  do cot_slice <- lift (send_Slice h cot first (u64 (first + len)));
  do part <- lift (sub_span out offset size);
  do (part, ctx) <- GywzOtExtSend_ferret h cot_slice (Z.to_nat (u32 size)) seed part ctx;
  Done (write_span out (Z.to_nat offset) part, ctx).
Definition recv_bin (h : heap) (cot : OtRecvStore) (first len size offset : Z) (st : list Z * Context) : prog (list Z * Context) :=
  let '(out, ctx) := st in
  do cot_slice <- lift (recv_Slice h cot first (u64 (first + len)));
  do part <- lift (sub_span out offset size);
  do (part, ctx) <- GywzOtExtRecv_ferret h cot_slice (Z.to_nat (u32 size)) part ctx;
  Done (write_span out (Z.to_nat offset) part, ctx).

(** The check against a malicious receiver. *)
Definition send_check_msgs (h : heap) (check_cot : OtSendStore) (choices : dynamic_bitset) : option (list Z) :=
  mapM (fun i => let? c := bit_get choices (Z.of_nat i) in send_GetBlock h check_cot (Z.of_nat i) (Z.b2z c)) (seq 0 128).
Definition MpCotRNSend_check (h : heap) (check_cot : OtSendStore) (seed : Z) (out : list Z) (ctx : Context) : prog Context :=
  do (seed, ctx) <- ctx_SyncSeedSend seed ctx;
  let uhash := UniversalHash Gf128Mul seed out in
  do (recv_buf, ctx) <- ctx_RecvP2P (NextRank ctx 1) ctx;
  do block <- lift (unpack128 recv_buf);
  let choices := append_block 128 bitset_empty block in
  do check_cot_data <- lift (send_check_msgs h check_cot choices);
  do diff <- lift (Gf128Pack check_cot_data);
  let uhash := Z.lxor uhash diff in
  ctx_SendAsync (NextRank ctx 1) (Blake3 (pack128 uhash)) ctx.
Definition odd_indexes (out : list Z) : list Z := map Z.of_nat (filter (fun i => negb (Z.land (at_ out i) 0x1 =? 0)) (seq 0 (length out))).
Definition MpCotRNRecv_check (h : heap) (check_cot : OtRecvStore) (out : list Z) (ctx : Context) : prog Context :=
  do (seed, ctx) <- ctx_SyncSeedRecv ctx;
  let uhash := UniversalHash Gf128Mul seed out in
  do bits <- lift (recv_CopyBitBuf h check_cot);
  do choices <- lift (nth_error (m_blocks bits) 0);
  do check_cot_data <- lift (recv_CopyBlkBuf h check_cot);
  do diff <- lift (Gf128Pack check_cot_data);
  let uhash := Z.lxor uhash diff in
  do ceof <- lift (ExtractHashCoef Gf128Mul seed (odd_indexes out));
  let choices := fold_left Z.lxor ceof choices in
  do ctx <- ctx_SendAsync (NextRank ctx 1) (pack128 choices) ctx;
  let hash := Blake3 (pack128 uhash) in
  do (buf, ctx) <- ctx_RecvP2P (NextRank ctx 1) ctx;
  ensure (if list_eq_dec Z.eq_dec hash buf then true else false) (Done ctx).

(** [seeds] gives the seeds of the bins, and that of the check. *)
Definition MpCotRNSend (h : heap) (cot : OtSendStore) (idx_range idx_num spcot_size : Z) (seeds : nat -> Z) (check_seed : Z) (mal : bool) (out : list Z) (ctx : Context)
  : prog (list Z * Context) :=
  do (batch_num, last_size, batch_length, last_length) <- lift (mp_bins idx_range idx_num spcot_size);
  let last := batch_num - 1 in
  do (out, ctx) <- for_each (seq 0 (Z.to_nat last)) (fun i st =>
    let i' := Z.of_nat i in send_bin h cot (u64 (i' * batch_length)) batch_length spcot_size (i' * spcot_size) (seeds i) st) (out, ctx);
  do (out, ctx) <-
    (if last_size =? 1 then
       do b <- lift (send_GetBlock h cot (u64 (last * batch_length)) 0);
       do out <- lift (vector_set out (u64 (last * spcot_size)) b); Done (out, ctx)
     else send_bin h cot (u64 (last * batch_length)) last_length last_size (u64 (last * spcot_size)) (seeds (Z.to_nat last)) (out, ctx));
  if mal then
    do check_cot <- lift (send_Slice h cot (u64 (u64 (batch_length * last) + last_length)) (u64 (u64 (u64 (batch_length * last) + last_length) + 128)));
    do ctx <- MpCotRNSend_check h check_cot check_seed out ctx; Done (out, ctx)
  else Done (out, ctx).
Definition MpCotRNRecv (h : heap) (cot : OtRecvStore) (idx_range idx_num spcot_size : Z) (mal : bool) (out : list Z) (ctx : Context) : prog (list Z * Context) :=
  do (batch_num, last_size, batch_length, last_length) <- lift (mp_bins idx_range idx_num spcot_size);
  let last := batch_num - 1 in
  do (out, ctx) <- for_each (seq 0 (Z.to_nat last)) (fun i st =>
    let i' := Z.of_nat i in recv_bin h cot (u64 (i' * batch_length)) batch_length spcot_size (i' * spcot_size) st) (out, ctx);
  do (out, ctx) <-
    (if last_size =? 1 then
       do b <- lift (recv_GetBlock h cot (u64 (last * batch_length)));
       do out <- lift (vector_set out (u64 (last * spcot_size)) b); Done (out, ctx)
     else recv_bin h cot (u64 (last * batch_length)) last_length last_size (u64 (last * spcot_size)) (out, ctx));
  if mal then
    do check_cot <- lift (recv_Slice h cot (u64 (u64 (batch_length * last) + last_length)) (u64 (u64 (u64 (batch_length * last) + last_length) + 128)));
    do ctx <- MpCotRNRecv_check h check_cot out ctx; Done (out, ctx)
  else Done (out, ctx).
End Code.

(** ** Pairs of stores *)

(** A message of the receiver is the sender's, or differs by [delta] where its last bit
    is set. *)
Definition cor (delta s r : Z) : Prop := r = if Z.odd r then Z.lxor s delta else s.

Lemma cor_lxor delta s r s' r' : cor delta s r -> cor delta s' r' -> cor delta (Z.lxor s s') (Z.lxor r r').
Proof.
  unfold cor. rewrite odd_lxor. intros H H'. rewrite H at 1. rewrite H' at 1. destruct (Z.odd r), (Z.odd r'); cbn [xorb]; lxor_bits.
Qed.
Lemma cor_refl delta s : Z.odd s = false -> cor delta s s.
Proof. unfold cor. now intros ->. Qed.
Lemma cor_delta delta s : Z.odd delta = true -> Z.odd s = false -> cor delta s (Z.lxor s delta).
Proof. unfold cor. intros Hd Hs. now rewrite odd_lxor, Hd, Hs. Qed.

(** Windows of two buffers, from [a] on, of [l] transfers. *)
Record pair_at (hs : heap) (s : OtSendStore) (hr : heap) (r : OtRecvStore) (a l : nat) (delta : Z) (bs br : list Z) : Prop := {
  pa_send : s = SendStore (Slice_ (Z.of_nat a) (Z.of_nat l) (Z.of_nat a) (Z.of_nat (a + l))) Compact delta (s_blk_buf s);
  pa_recv : r = RecvStore (Slice_ (Z.of_nat a) (Z.of_nat l) (Z.of_nat a) (Z.of_nat (a + l))) Compact (r_bit_buf r) (r_blk_buf r);
  pa_bs : get_vector hs (s_blk_buf s) = Some bs;
  pa_br : get_vector hr (r_blk_buf r) = Some br;
  pa_len : (0 < l)%nat /\ (a + l <= length bs)%nat /\ (a + l <= length br)%nat;
  pa_max : Z.of_nat (length bs) < 2 ^ 62 /\ Z.of_nat (length br) < 2 ^ 62;
  pa_delta : 0 < delta < 2 ^ 128;
  pa_cor : forall i, (a <= i < a + l)%nat -> cor delta (at_ bs i) (at_ br i) }.

Section Pairs.
Variables (hs : heap) (s : OtSendStore) (hr : heap) (r : OtRecvStore) (a l : nat) (delta : Z) (bs br : list Z).
Hypothesis P : pair_at hs s hr r a l delta bs br.

Lemma pair_send_block i m : (i < l)%nat -> send_GetBlock hs s (Z.of_nat i) (Z.b2z m) = Some (if m then Z.lxor (at_ bs (a + i)) delta else at_ bs (a + i)).
Proof.
  intros Hi. destruct P as [Es Er Gs Gr Hl Hm Hd Hc]. rewrite Es. unfold send_GetBlock, GetBufIdx, YACL_ENFORCE. cbn [delta_ s_slice s_blk_buf internal_use_ctr_ internal_use_size_ ot_blk_num s_type is_compact].
  replace ((Z.b2z m =? 0) || (Z.b2z m =? 1)) with true by (now destruct m). rewrite (proj2 (Z.eqb_neq delta 0)) by lia. rewrite (u64_id (1 * _)) by lia. rewrite (proj2 (Z.ltb_lt _ _)) by lia. rewrite u64_id, Gs by lia.
  unfold vector_get. replace (Z.to_nat (Z.of_nat a + 1 * Z.of_nat i)) with (a + i)%nat by lia. rewrite (nth_error_nth' _ 0) by lia. change (nth (a + i) bs 0) with (at_ bs (a + i)). f_equal.
  destruct m; cbn [Z.b2z]; [rewrite Z.mul_1_r; unfold u128, uwrap; now rewrite Z.mod_small by lia|]. rewrite Z.mul_0_r. apply Z.lxor_0_r.
Qed.
Lemma pair_recv_block i : (i < l)%nat -> recv_GetBlock hr r (Z.of_nat i) = Some (at_ br (a + i)) /\ recv_GetChoice hr r (Z.of_nat i) = Some (Z.b2z (Z.odd (at_ br (a + i)))).
Proof.
  intros Hi. destruct P as [Es Er Gs Gr Hl Hm Hd Hc]. rewrite Er. unfold recv_GetBlock, recv_GetChoice, GetBufIdx, YACL_ENFORCE. cbn [r_slice r_type r_blk_buf internal_use_ctr_ internal_use_size_ is_compact].
  rewrite (proj2 (Z.ltb_lt _ _)) by lia. rewrite u64_id, Gr by lia. unfold vector_get. replace (Z.to_nat (Z.of_nat a + Z.of_nat i)) with (a + i)%nat by lia. rewrite (nth_error_nth' _ 0) by lia. split; [reflexivity|]. f_equal. apply land_1_odd.
Qed.

Lemma pair_cots : cots hs s hr r l delta (fun i => at_ bs (a + i)) (fun i => Z.odd (at_ br (a + i))).
Proof.
  pose proof P as [Es Er Gs Gr Hl Hm Hd Hc]. split.
  - rewrite Es. reflexivity.
  - rewrite Er. reflexivity.
  - rewrite Es. unfold send_GetDelta, YACL_ENFORCE. cbn [delta_]. now rewrite (proj2 (Z.eqb_neq delta 0)) by lia.
  - intros i m Hi. now apply pair_send_block.
  - intros i Hi. rewrite (proj1 (pair_recv_block i Hi)). f_equal. apply Hc. lia.
  - intros i Hi. apply pair_recv_block, Hi.
  - unfold in128. lia.
Qed.

(** A slice counts from the start of the buffer, not from the start of the window. *)
Lemma pair_slice b e : (b < e)%nat -> (e <= length bs)%nat -> (e <= length br)%nat -> (forall i, (b <= i < e)%nat -> cor delta (at_ bs i) (at_ br i)) -> exists s' r', send_Slice hs s (Z.of_nat b) (Z.of_nat e) = Some s' /\ recv_Slice hr r (Z.of_nat b) (Z.of_nat e) = Some r' /\
  pair_at hs s' hr r' b (e - b) delta bs br.
Proof.
  intros Hb He He' Hc'. pose proof P as [Es Er Gs Gr Hl Hm Hd Hc]. set (sl := Slice_ (Z.of_nat b) (Z.of_nat (e - b)) (Z.of_nat b) (Z.of_nat (b + (e - b)))).
  assert (U : u64 (Z.of_nat e - Z.of_nat b) = Z.of_nat (e - b)) by (rewrite u64_id by lia; lia). assert (E : Z.of_nat (b + (e - b)) = Z.of_nat e) by lia.
  exists (SendStore sl Compact delta (s_blk_buf s)), (RecvStore sl Compact (r_bit_buf r) (r_blk_buf r)). split; [|split].
  - unfold send_Slice. rewrite Es at 1. cbn [ot_blk_num s_type is_compact]. rewrite Es. cbn [ot_blk_num s_type is_compact delta_ s_blk_buf]. rewrite U, !Z.mul_1_r, !(u64_id (Z.of_nat _)) by lia.
    apply send_store_spec. split; [unfold sl; now rewrite E|]. apply (send_check_spec hs _ bs _ Gs). cbn [internal_use_size_ internal_buf_size_ internal_buf_ctr_]. lia.
  - unfold recv_Slice. rewrite Er. cbn [r_bit_buf r_blk_buf r_type]. rewrite U. apply recv_store_spec. split; [unfold sl; now rewrite E|].
    unfold recv_check, SliceBase_ConsistencyCheck. cbn [internal_use_size_ internal_buf_size_ internal_buf_ctr_ is_compact]. rewrite Gr, !andb_true_iff, !Z.ltb_lt, !Z.leb_le. lia.
  - split; cbn [s_blk_buf r_bit_buf r_blk_buf]; try assumption; try reflexivity; [lia|]. intros i Hi. apply Hc'. lia.
Qed.
End Pairs.

(** ** The seed *)

Lemma sync_talk {S : Codec} {SL : CodecLaws S} r id w ctx0 ctx1 seed : in128 seed -> w_ok w -> w_ok (said r w 1 0 0) -> both_stand r id w ctx0 ctx1 ->
  exists c0 c1, duo r id w (ctx_SyncSeedSend seed ctx0) (ctx_SyncSeedRecv ctx1) (said r w 1 0 0) (seed, c0) (seed, c1) /\ both_stand r id (said r w 1 0 0) c0 c1.
Proof.
  intros Hs K K1 S0. destruct (duo_say r id w ctx0 ctx1 (pack128 seed) K K1 S0) as (c0 & c1 & S1 & G). exists c0, c1. split; [|exact S1]. unfold ctx_SyncSeedSend, ctx_SyncSeedRecv. apply G; [exact K1|]. cbv beta iota.
  rewrite (unpack_pack seed Hs). cbn [lift bind]. apply duo_done.
Qed.

(** ** The bins *)

Definition cor_upto (delta : Z) (p : nat) (out out' : list Z) : Prop := forall i, (i < p)%nat -> cor delta (at_ out i) (at_ out' i).

Lemma at_subspan_at l o n i : (i < n)%nat -> at_ (subspan l o n) i = at_ l (o + i).
Proof. intros H. unfold subspan. rewrite at_firstn_lt by exact H. unfold at_. now rewrite nth_skipn. Qed.
Lemma length_subspan l o n : (o + n <= length l)%nat -> length (subspan l o n) = n.
Proof. intros H. unfold subspan. rewrite length_firstn, length_skipn. lia. Qed.

Lemma punctured_cor n delta index t t' : Z.odd delta = true -> punctured_at n delta index t t' -> (forall i, (i < n)%nat -> Z.odd (at_ t i) = false) -> cor_upto delta n t t'.
Proof. intros Od Hp He i Hi. rewrite (Hp i Hi). destruct (i =? index)%nat; [now apply cor_delta; auto|now apply cor_refl; auto]. Qed.

Lemma cor_write delta out out' t t' o n : cor_upto delta o out out' -> cor_upto delta n t t' -> length t = n -> length t' = n -> (o + n <= length out)%nat -> (o + n <= length out')%nat ->
  cor_upto delta (o + n) (write_span out o t) (write_span out' o t').
Proof.
  intros H0 H1 L0 L1 Ho Ho' i Hi. rewrite !at_write_span by lia. rewrite L0, L1. rewrite (proj2 (Nat.ltb_lt i (o + n))) by lia. rewrite andb_true_r. destruct (Nat.leb_spec o i); [apply H1; lia|apply H0; lia].
Qed.

Lemma log_pos z lz : Log2Ceil z = Some lz -> 2 <= z -> 0 < lz <= Z.log2 z + 1.
Proof.
  intros H Hz. destruct (Log2Ceil_ok (Z.to_nat z) ltac:(lia)) as (h & E & Hp & Hh). rewrite Z2Nat.id in E by lia. rewrite H in E. injection E as ->. split; [lia|].
  destruct Hh as [G _]. apply Nat2Z.inj_lt in G. rewrite Nat2Z.inj_pow, Z2Nat.id in G by lia. change (Z.of_nat 2) with 2 in G. assert (Z.of_nat (h - 1) <= Z.log2 z) by (rewrite <- (Z.log2_pow2 (Z.of_nat (h - 1))) by lia; apply Z.log2_le_mono; lia). lia.
Qed.

(** All the bins; [mp_bins] succeeds, and the transfers are enough. *)
Lemma mp_bins_ok idx_range idx_num spcot_size bn ls bl ll : 0 < idx_range < 2 ^ 62 -> 2 <= spcot_size < 2 ^ 32 -> mp_bins idx_range idx_num spcot_size = Some (bn, ls, bl, ll) ->
  0 < bn <= idx_range /\ 0 < ls <= spcot_size /\ (bn - 1) * spcot_size + ls = idx_range /\ Log2Ceil spcot_size = Some bl /\ Log2Ceil ls = Some ll.
Proof.
  intros Hr Hs. unfold mp_bins, DivCeil. rewrite (proj2 (Z.eqb_neq idx_range 0)), (proj2 (Z.eqb_neq spcot_size 0)) by lia. unfold YACL_ENFORCE. destruct (_ <=? idx_num); [|discriminate]. destruct (0 <? _); [|discriminate].
  replace (1 + (idx_range - 1) / spcot_size - 1) with ((idx_range - 1) / spcot_size) by lia. pose proof (Z.div_mod (idx_range - 1) spcot_size ltac:(lia)) as D. pose proof (Z.mod_pos_bound (idx_range - 1) spcot_size ltac:(lia)) as M.
  pose proof (Z.div_pos (idx_range - 1) spcot_size ltac:(lia) ltac:(lia)). assert (B : (idx_range - 1) / spcot_size * spcot_size <= idx_range - 1) by lia. rewrite !u64_id by (try rewrite u64_id by lia; lia).
  destruct (Log2Ceil spcot_size) as [x|] eqn:E1; [|discriminate]. destruct (Log2Ceil (idx_range - _)) as [y|] eqn:E2; [|discriminate]. intros [= <- <- <- <-]. split; [nia|]. split; [lia|]. split; [lia|]. split; [reflexivity|exact E2].
Qed.

(** The sizes of bins whose trees fit. *)
Definition power_of_two (z : Z) : bool := (0 <? z) && (z =? 2 ^ Z.log2 z).

Lemma power_of_two_ceil z lz : power_of_two z = true -> Log2Ceil z = Some lz -> z = 2 ^ lz.
Proof.
  unfold power_of_two. rewrite andb_true_iff, Z.ltb_lt, Z.eqb_eq. intros [H0 E] Hl. destruct (Z.eq_dec z 1) as [->|N]; [injection Hl as <-; reflexivity|].
  destruct (Log2Ceil_ok (Z.to_nat z) ltac:(lia)) as (h & El & Hp & [H1 H2]). rewrite Z2Nat.id in El by lia. rewrite Hl in El. injection El as ->.
  apply Nat2Z.inj_lt in H1. apply Nat2Z.inj_le in H2. rewrite Nat2Z.inj_pow, Z2Nat.id in H1, H2 by lia. change (Z.of_nat 2) with 2 in H1, H2. rewrite E in H1, H2 |- *.
  pose proof (Z.log2_nonneg z). apply Z.pow_lt_mono_r_iff in H1; [|lia|lia]. apply Z.pow_le_mono_r_iff in H2; [|lia|lia]. f_equal. lia.
Qed.

Lemma not_a_power z lz : power_of_two z = false -> 0 < z -> 0 <= lz -> z <> 2 ^ lz.
Proof. unfold power_of_two. intros H Hz Hl ->. rewrite Z.log2_pow2, Z.eqb_refl, andb_true_r in H by lia. apply Z.ltb_ge in H. lia. Qed.

Section Talk.
Context {C : Cipher} {L : CipherLaws C} {Cd : Codec}.
Variables (hs : heap) (s : OtSendStore) (hr : heap) (rv : OtRecvStore) (a l N : nat) (delta : Z) (bs br : list Z).
(** The window, and the part of the buffers that slices may use. *)
Hypothesis P : pair_at hs s hr rv a l delta bs br.
Hypothesis PN : (N <= length bs)%nat /\ (N <= length br)%nat.
Hypothesis PC : cor_upto delta N bs br.
Hypothesis Od : Z.odd delta = true.
Variables (r : bool) (id : list Z).

(** The trees of a bin are evaluated in its span alone, so that the bin has to be as
    large as the last level: a power of two. *)
Lemma bin_talk w ctx0 ctx1 first len size offset seed out out' : both_stand r id w ctx0 ctx1 -> w_ok w -> w_ok (said r w 1 0 0) ->
  (first + len <= N)%nat -> Log2Ceil (Z.of_nat size) = Some (Z.of_nat len) -> (2 <= size)%nat -> size = (2 ^ len)%nat -> Z.of_nat size < 2 ^ 32 ->
  (offset + size <= length out)%nat -> (offset + size <= length out')%nat -> cor_upto delta offset out out' ->
  exists t t' c0 c1, duo r id w (send_bin hs s (Z.of_nat first) (Z.of_nat len) (Z.of_nat size) (Z.of_nat offset) seed (out, ctx0))
      (recv_bin hr rv (Z.of_nat first) (Z.of_nat len) (Z.of_nat size) (Z.of_nat offset) (out', ctx1)) (said r w 1 0 0) (t, c0) (t', c1) /\
    both_stand r id (said r w 1 0 0) c0 c1 /\ length t = length out /\ length t' = length out' /\ cor_upto delta (offset + size) t t'.
Proof.
  intros S K K1 Hf Hl H2 Hpow H32 Ho Ho' Hc. destruct (Log2Ceil_ok size H2) as (h & El & Hpos & Hn). rewrite Hl in El. injection El as El. apply Nat2Z.inj in El. subst h.
  assert (H32' : (len < 32)%nat).
  { destruct (Nat.lt_ge_cases len 32); [assumption|]. rewrite Hpow, Nat2Z.inj_pow in H32. change (Z.of_nat 2) with 2 in H32. pose proof (Z.pow_le_mono_r 2 32 (Z.of_nat len) ltac:(lia) ltac:(lia)). lia. }
  pose proof (pa_len _ _ _ _ _ _ _ _ _ P) as PL. pose proof (pa_max _ _ _ _ _ _ _ _ _ P) as PM.
  destruct (pair_slice hs s hr rv a l delta bs br P first (first + len) ltac:(lia) ltac:(lia) ltac:(lia) ltac:(intros i Hi; apply PC; lia)) as (s' & r' & Es & Er & P'). replace (first + len - first)%nat with len in P' by lia.
  pose proof (pair_cots _ _ _ _ _ _ _ _ _ P') as HC. pose proof (pa_send _ _ _ _ _ _ _ _ _ P') as Fs. pose proof (pa_recv _ _ _ _ _ _ _ _ _ P') as Fr.
  destruct (gywz_ferret_talk hs s' hr r' size len delta _ _ Hl ltac:(lia) Hn HC r id w ctx0 ctx1 seed (subspan out offset size) (subspan out' offset size) S K K1) as (t & t' & c0 & c1 & D & S1 & L1 & L2 & V & Ev);
    [rewrite Fs; reflexivity|rewrite Fr; reflexivity|exact Od|rewrite length_subspan, <- Hpow; lia|rewrite length_subspan, <- Hpow; lia|].
  rewrite length_subspan in L1, L2 by lia. exists (write_span out offset t), (write_span out' offset t'), c0, c1. split; [|split; [exact S1|split; [apply length_write_span; lia|split; [apply length_write_span; lia|]]]].
  - unfold send_bin, recv_bin. rewrite (u64_id (_ + _)) by lia. rewrite <- Nat2Z.inj_add, Es, Er. cbn [lift bind]. unfold sub_span. rewrite !(proj2 (Z.leb_le _ _)) by lia. cbn [lift bind]. rewrite !Nat2Z.id.
    assert (U : u32 (Z.of_nat size) = Z.of_nat size) by (apply Z.mod_small; lia). rewrite U, Nat2Z.id.
    refine (duo_bind _ _ _ _ _ _ _ _ _ (t, c0) (t', c1) _ _ K K1 K1 D _). apply duo_done.
  - apply cor_write; try assumption; try lia. apply (punctured_cor _ _ _ _ _ Od V). intros i Hi. now apply Ev.
Qed.

(** A bin of another size: the sender's evaluation is undefined. *)
Lemma bin_stops ctx first len size offset seed out : (first + len <= N)%nat -> Log2Ceil (Z.of_nat size) = Some (Z.of_nat len) -> (2 <= size)%nat -> size <> (2 ^ len)%nat -> Z.of_nat size < 2 ^ 32 ->
  stops (send_bin hs s (Z.of_nat first) (Z.of_nat len) (Z.of_nat size) (Z.of_nat offset) seed (out, ctx)).
Proof.
  intros Hf Hl H2 Hpow H32. destruct (Log2Ceil_ok size H2) as (h & El & Hpos & Hn). rewrite Hl in El. injection El as El. apply Nat2Z.inj in El. subst h.
  pose proof (pa_len _ _ _ _ _ _ _ _ _ P) as PL. pose proof (pa_max _ _ _ _ _ _ _ _ _ P) as PM.
  destruct (pair_slice hs s hr rv a l delta bs br P first (first + len) ltac:(lia) ltac:(lia) ltac:(lia) ltac:(intros i Hi; apply PC; lia)) as (s' & r' & Es & Er & P'). replace (first + len - first)%nat with len in P' by lia.
  pose proof (pair_cots _ _ _ _ _ _ _ _ _ P') as HC. pose proof (pa_send _ _ _ _ _ _ _ _ _ P') as Fs.
  unfold send_bin. rewrite (u64_id (_ + _)) by lia. rewrite <- Nat2Z.inj_add, Es. cbn [lift bind]. unfold sub_span. destruct (Z.leb_spec (Z.of_nat offset + Z.of_nat size) (Z.of_nat (length out))) as [Ho|Ho]; [|exact I]. cbn [lift bind]. rewrite !Nat2Z.id.
  assert (U : u32 (Z.of_nat size) = Z.of_nat size) by (apply Z.mod_small; lia). rewrite U, Nat2Z.id. apply stops_bind.
  unfold GywzOtExtSend_ferret. rewrite (cots_send_size _ _ _ _ _ _ _ _ HC), (check_height_ok size len Hl Hpos Hn), (cots_delta _ _ _ _ _ _ _ _ HC). cbn [lift bind]. rewrite Fs. cbn [s_type is_compact ensure].
  rewrite (short_eval size len) by (rewrite ?length_subspan; lia || assumption). exact I.
Qed.

Section Bins.
Variables (idx_range idx_num spcot_size bn ls bl ll : Z).
Hypothesis Hr : 0 < idx_range < 2 ^ 62.
Hypothesis Hs : 2 <= spcot_size < 2 ^ 32.
Hypothesis Hb : mp_bins idx_range idx_num spcot_size = Some (bn, ls, bl, ll).
(** The bins are as large as their trees. *)
Hypothesis Hq2 : spcot_size = 2 ^ bl.
Hypothesis Hls2 : ls = 2 ^ ll.
(** The transfers are enough; a last bin of one position takes one as it is. *)
Hypothesis HN : (bn - 1) * bl + Z.max 1 ll <= Z.of_nat N.
Hypothesis Hl : ls = 1 -> (bn - 1) * bl < Z.of_nat l.
Variables (w : traffic).
Hypothesis K : w_ok w.
Hypothesis Kn : w_ok (said r w bn 0 0).

Definition bins_inv (i : nat) (st0 st1 : list Z * Context) : Prop :=
  let '(out, ctx0) := st0 in let '(out', ctx1) := st1 in
  both_stand r id (said r w (Z.of_nat i) 0 0) ctx0 ctx1 /\ Z.of_nat (length out) = idx_range /\ Z.of_nat (length out') = idx_range /\
  cor_upto delta (Z.to_nat (Z.min (Z.of_nat i * spcot_size) idx_range)) out out'.

Lemma mp_loop ctx0 ctx1 seeds out out' : both_stand r id w ctx0 ctx1 -> Z.of_nat (length out) = idx_range -> Z.of_nat (length out') = idx_range ->
  exists st0 st1, duo r id w
      (for_each (seq 0 (Z.to_nat (bn - 1))) (fun i st => let i' := Z.of_nat i in send_bin hs s (u64 (i' * bl)) bl spcot_size (i' * spcot_size) (seeds i) st) (out, ctx0))
      (for_each (seq 0 (Z.to_nat (bn - 1))) (fun i st => let i' := Z.of_nat i in recv_bin hr rv (u64 (i' * bl)) bl spcot_size (i' * spcot_size) st) (out', ctx1))
      (said r w (bn - 1) 0 0) st0 st1 /\ bins_inv (Z.to_nat (bn - 1)) st0 st1.
Proof.
  intros S0 L0 L1. destruct (mp_bins_ok idx_range idx_num spcot_size bn ls bl ll Hr Hs Hb) as (B1 & B2 & B3 & B4 & B5). pose proof (log_pos _ _ B4 ltac:(lia)) as Lb. pose proof (pa_max _ _ _ _ _ _ _ _ _ P) as PM. pose proof (pa_len _ _ _ _ _ _ _ _ _ P) as PL.
  destruct (duo_for r id (fun i st => let i' := Z.of_nat i in send_bin hs s (u64 (i' * bl)) bl spcot_size (i' * spcot_size) (seeds i) st) (fun i st => let i' := Z.of_nat i in recv_bin hr rv (u64 (i' * bl)) bl spcot_size (i' * spcot_size) st)
    (fun i => said r w (Z.of_nat i) 0 0) bins_inv (Z.to_nat (bn - 1)) 0 (out, ctx0) (out', ctx1)) as (st0 & st1 & D & I).
  - intros i Hi. apply (said_between r w bn 0 0); lia || assumption.
  - intros i [o a0] [o' a1] Hi (S & Lo & Lo' & Cu). cbn [fst snd] in *.
    assert (Hi' : Z.of_nat i + 1 <= bn - 1) by lia. pose proof (Z.mul_le_mono_nonneg_r _ _ bl ltac:(lia) Hi') as Mi. pose proof (Z.mul_le_mono_nonneg_r _ _ spcot_size ltac:(lia) Hi') as Ms. rewrite Z.mul_add_distr_r, Z.mul_1_l in Mi, Ms.
    assert (Ki : w_ok (said r w (Z.of_nat i) 0 0)) by (apply (said_between r w bn 0 0); lia || assumption).
    destruct (bin_talk (said r w (Z.of_nat i) 0 0) a0 a1 (Z.to_nat (Z.of_nat i * bl)) (Z.to_nat bl) (Z.to_nat spcot_size) (Z.to_nat (Z.of_nat i * spcot_size)) (seeds i) o o' S Ki) as (t & t' & c0 & c1 & D & S1 & L2 & L3 & V).
    { rewrite said_said. clear - K Kn Hi. apply (said_between r w bn 0 0); lia || assumption. } { lia. } { rewrite !Z2Nat.id by lia. exact B4. } { lia. } { rewrite Hq2. apply Z2Nat.inj_pow; lia. } { lia. } { lia. } { lia. } { rewrite Z.min_l in Cu by lia. exact Cu. }
    rewrite said_said in D, S1. rewrite !Z2Nat.id in D by lia. cbv zeta. rewrite u64_id by lia. exists (t, c0), (t', c1). replace (Z.of_nat (Datatypes.S i)) with (Z.of_nat i + 1) by lia. split; [rewrite !Z.add_0_r in D; exact D|].
    unfold bins_inv. replace (Z.of_nat (Datatypes.S i)) with (Z.of_nat i + 1) by lia. rewrite !Z.add_0_r in S1. split; [exact S1|]. split; [lia|]. split; [lia|]. rewrite Z.min_l by lia. replace (Z.to_nat ((Z.of_nat i + 1) * spcot_size)) with (Z.to_nat (Z.of_nat i * spcot_size) + Z.to_nat spcot_size)%nat by lia. exact V.
  - split; [cbn [Z.of_nat]; now rewrite said_0|]. split; [exact L0|]. split; [exact L1|]. intros i Hi. exfalso. lia.
  - cbn [Nat.add Z.of_nat] in D, I. rewrite said_0 in D. rewrite Z2Nat.id in D by lia. exists st0, st1. split; [exact D|exact I].
Qed.

Lemma mp_last st0 st1 seed : bins_inv (Z.to_nat (bn - 1)) st0 st1 ->
  exists k t t' c0 c1, duo r id (said r w (bn - 1) 0 0)
      (let '(out, ctx) := st0 in if ls =? 1 then do b <- lift (send_GetBlock hs s (u64 ((bn - 1) * bl)) 0); do out <- lift (vector_set out (u64 ((bn - 1) * spcot_size)) b); Done (out, ctx)
       else send_bin hs s (u64 ((bn - 1) * bl)) ll ls (u64 ((bn - 1) * spcot_size)) seed (out, ctx))
      (let '(out, ctx) := st1 in if ls =? 1 then do b <- lift (recv_GetBlock hr rv (u64 ((bn - 1) * bl))); do out <- lift (vector_set out (u64 ((bn - 1) * spcot_size)) b); Done (out, ctx)
       else recv_bin hr rv (u64 ((bn - 1) * bl)) ll ls (u64 ((bn - 1) * spcot_size)) (out, ctx))
      (said r w k 0 0) (t, c0) (t', c1) /\ bn - 1 <= k <= bn /\ both_stand r id (said r w k 0 0) c0 c1 /\
    Z.of_nat (length t) = idx_range /\ Z.of_nat (length t') = idx_range /\ cor_upto delta (Z.to_nat idx_range) t t'.
Proof.
  destruct (mp_bins_ok idx_range idx_num spcot_size bn ls bl ll Hr Hs Hb) as (B1 & B2 & B3 & B4 & B5). pose proof (log_pos _ _ B4 ltac:(lia)) as Lb. pose proof (pa_max _ _ _ _ _ _ _ _ _ P) as PM. pose proof (pa_len _ _ _ _ _ _ _ _ _ P) as PL.
  destruct st0 as [o a0], st1 as [o' a1]. intros (S & Lo & Lo' & Cu). rewrite Z2Nat.id in S, Cu by lia. rewrite Z.min_l in Cu by lia. assert (0 <= (bn - 1) * bl) by (apply Z.mul_nonneg_nonneg; lia). assert (0 <= (bn - 1) * spcot_size) by (apply Z.mul_nonneg_nonneg; lia). rewrite !(u64_id (_ * bl)), !(u64_id (_ * spcot_size)) by lia.
  assert (Ki : w_ok (said r w (bn - 1) 0 0)) by (apply (said_between r w bn 0 0); lia || assumption).
  destruct (Z.eqb_spec ls 1) as [E|NE].
  - set (p := Z.to_nat ((bn - 1) * bl)). assert (Hp : (p < l)%nat) by (specialize (Hl E); lia). assert (Ep : (bn - 1) * bl = Z.of_nat p) by lia. rewrite Ep.
    pose proof (pair_send_block hs s hr rv a l delta bs br P p false Hp) as Gs. cbn [Z.b2z] in Gs. destruct (pair_recv_block hs s hr rv a l delta bs br P p Hp) as [Gr _]. rewrite Gs, Gr. cbn [lift bind].
    unfold vector_set. rewrite !(proj2 (Nat.ltb_lt _ _)) by lia. cbn [lift bind]. do 5 eexists. split; [apply duo_done|]. split; [lia|]. split; [exact S|]. rewrite !length_upd. split; [exact Lo|]. split; [exact Lo'|].
    intros i Hi. destruct (Nat.eq_dec i (Z.to_nat ((bn - 1) * spcot_size))) as [->|Ne]; [rewrite !at_upd_eq by lia; apply (pa_cor _ _ _ _ _ _ _ _ _ P); lia|]. rewrite !at_upd_ne by auto. apply Cu. lia.
  - pose proof (log_pos _ _ B5 ltac:(lia)) as Ll.
    destruct (bin_talk (said r w (bn - 1) 0 0) a0 a1 (Z.to_nat ((bn - 1) * bl)) (Z.to_nat ll) (Z.to_nat ls) (Z.to_nat ((bn - 1) * spcot_size)) seed o o' S Ki) as (t & t' & c0 & c1 & D & S1 & L2 & L3 & V).
    { rewrite said_said. now replace (bn - 1 + 1) with bn by lia. } { lia. } { rewrite !Z2Nat.id by lia. exact B5. } { lia. } { rewrite Hls2. apply Z2Nat.inj_pow; lia. } { lia. } { lia. } { lia. } { exact Cu. }
    rewrite said_said, !Z.add_0_r in D, S1. replace (bn - 1 + 1) with bn in D, S1 by lia. rewrite !Z2Nat.id in D by lia. exists bn, t, t', c0, c1. split; [exact D|]. split; [lia|]. split; [exact S1|]. split; [lia|]. split; [lia|].
    replace (Z.to_nat idx_range) with (Z.to_nat ((bn - 1) * spcot_size) + Z.to_nat ls)%nat by lia. exact V.
Qed.

Lemma mp_talk ctx0 ctx1 seeds cs out out' : both_stand r id w ctx0 ctx1 -> Z.of_nat (length out) = idx_range -> Z.of_nat (length out') = idx_range ->
  exists k t t' c0 c1, duo r id w (MpCotRNSend (S := Cd) hs s idx_range idx_num spcot_size seeds cs false out ctx0) (MpCotRNRecv (S := Cd) hr rv idx_range idx_num spcot_size false out' ctx1) (said r w k 0 0) (t, c0) (t', c1) /\
    0 <= k <= bn /\ both_stand r id (said r w k 0 0) c0 c1 /\ Z.of_nat (length t) = idx_range /\ Z.of_nat (length t') = idx_range /\ cor_upto delta (Z.to_nat idx_range) t t'.
Proof.
  intros S0 L0 L1. destruct (mp_bins_ok idx_range idx_num spcot_size bn ls bl ll Hr Hs Hb) as (B1 & _). destruct (mp_loop ctx0 ctx1 seeds out out' S0 L0 L1) as (st0 & st1 & D & I). destruct (mp_last st0 st1 (seeds (Z.to_nat (bn - 1))) I) as (k & t & t' & c0 & c1 & D2 & Hk & S2 & R).
  assert (Kk : w_ok (said r w k 0 0)) by (apply (said_between r w bn 0 0); lia || assumption). assert (K1 : w_ok (said r w (bn - 1) 0 0)) by (apply (said_between r w bn 0 0); lia || assumption).
  exists k, t, t', c0, c1. split; [|split; [lia|split; [exact S2|exact R]]]. unfold MpCotRNSend, MpCotRNRecv. rewrite Hb. cbn [lift bind]. cbv zeta.
  refine (duo_bind _ _ _ _ _ _ _ _ _ _ _ _ _ K K1 Kk D _). destruct st0 as [o a0], st1 as [o' a1]. refine (duo_bind _ _ _ _ _ _ _ _ _ _ _ _ _ K1 Kk Kk D2 _). apply duo_done.
Qed.
End Bins.
End Talk.
