(* ===== verification/Ferret.v ===== *)
(** The Ferret extension ([ot/ferret_ote], [LpnParam] of [utils/secparam.h]): a few
    compact transfers become many, in batches; each batch keeps some of its transfers
    for the next one. *)
From Stdlib Require Import ZArith Lia List Bool.
From S2P Require Import Prelude.
From S2P Require Import Errors.
From S2P Require Import Int128.
From S2P Require Import Cipher.
From S2P Require Import Gf.
From S2P Require Import CrHash.
From S2P Require Import OtStore.
From S2P Require Import OtExt.
From S2P Require Import Parties.
From S2P Require Import Context.
From S2P Require Import Duo.
From S2P Require Import ChosenOt.
From S2P Require Import Gywz.
From S2P Require Import Roles.
From S2P Require Import LinearCode.
From S2P Require Import MpCot.
Import ListNotations.
#[local] Open Scope Z_scope.

Inductive LpnNoiseAsm := RegularNoise | UniformNoise.
Record LpnParam := MkLpnParam { lpn_n : Z; lpn_k : Z; lpn_t : Z; noise_asm : LpnNoiseAsm }.
Definition LpnParam_GetDefault : LpnParam := MkLpnParam 10485760 452000 1280 RegularNoise.

(** The number of transfers to start from. *)
Definition FerretCotHelper (lpn : LpnParam) (ot_num : Z) (mal : bool) : option Z :=
  match noise_asm lpn with
  | RegularNoise =>
      let? mpcot_cot := MpCotRNHelper (lpn_t lpn) (lpn_n lpn) false in
      let check_cot := if mal then 128 else 0 in
      Some (u64 (u64 (lpn_k lpn + mpcot_cot) + check_cot))
  | UniformNoise => None
  end.

(** Transfers of the points of a batch, new transfers of a batch, batches. *)
Definition ferret_sizes (lpn : LpnParam) (ot_num : Z) (mal : bool) : option (Z * Z * Z) :=
  let? mpcot_cot_num := MpCotRNHelper (lpn_t lpn) (lpn_n lpn) mal in
  let cache_size := u64 (lpn_k lpn + mpcot_cot_num) in
  let batch_size := u64 (lpn_n lpn - cache_size) in
  YACL_ENFORCE (negb (batch_size =? 0)) (Some (mpcot_cot_num, batch_size, u64 (u64 (ot_num + batch_size) - 1) / batch_size)).

(** A loop that may stop early. *)
Fixpoint for_until {S} (l : list nat) (body : nat -> S -> prog (S * bool)) (s : S) : prog S :=
  match l with
  | [] => Done s
  | x :: l => do (s, more) <- body x s; if more then for_until l body s else Done s
  end.

Section Code.
Context {C : Cipher} {Cd : Codec}.
(** What [SecureRandSeed] returns: the seeds of the bins and of the check of every batch. *)
Variables (seeds : nat -> nat -> Z) (check_seeds : nat -> Z).

Definition send_state : Type := list Z * list Z * OtSendStore * heap * Context.
Definition recv_state : Type := list Z * list Z * OtRecvStore * heap * Context.

Definition FerretSend_batch (lpn : LpnParam) (ot_num : Z) (mal : bool) (llc : LocalLinearCode) (base_cot : OtSendStore) (mpcot_cot_num batch_size : Z) (i : nat) (st : send_state)
  : prog (send_state * bool) :=
  let '(out_span, working_v, cot_mpcot, h, ctx) := st in
  let offset := u64 (Z.of_nat i * batch_size) in
  let batch_ot_num := Z.min (lpn_n lpn) (u64 (ot_num - offset)) in
  do working_s <- lift (sub_span out_span offset batch_ot_num);
  match noise_asm lpn with
  | UniformNoise => Fail
  | RegularNoise =>
      do (working_s, ctx) <- MpCotRNSend h cot_mpcot batch_ot_num (lpn_t lpn) (lpn_n lpn / lpn_t lpn) (seeds i) (check_seeds i) mal working_s ctx;
      do working_s <- lift (Encode 10 llc working_v working_s);
      let out_span := write_span out_span (Z.to_nat offset) working_s in
      if batch_ot_num <? u64 (ot_num - offset) then
        do working_v <- lift (sub_span working_s batch_size (lpn_k lpn));
        do mpcot_data <- lift (sub_span working_s (u64 (batch_size + lpn_k lpn)) mpcot_cot_num);
        do delta <- lift (send_GetDelta base_cot);
        do (cot_mpcot, h) <- lift (MakeCompactOtSendStore h mpcot_data delta);
        Done ((out_span, working_v, cot_mpcot, h, ctx), true)
      else Done ((out_span, working_v, cot_mpcot, h, ctx), false)
  end.
Definition FerretRecv_batch (lpn : LpnParam) (ot_num : Z) (mal : bool) (llc : LocalLinearCode) (mpcot_cot_num batch_size : Z) (i : nat) (st : recv_state) : prog (recv_state * bool) :=
  let '(out_span, working_w, cot_mpcot, h, ctx) := st in
  let offset := u64 (Z.of_nat i * batch_size) in
  let batch_ot_num := Z.min (lpn_n lpn) (u64 (ot_num - offset)) in
  do working_r <- lift (sub_span out_span offset batch_ot_num);
  match noise_asm lpn with
  | UniformNoise => Fail
  | RegularNoise =>
      do (working_r, ctx) <- MpCotRNRecv h cot_mpcot batch_ot_num (lpn_t lpn) (lpn_n lpn / lpn_t lpn) mal working_r ctx;
      do working_r <- lift (Encode 10 llc working_w working_r);
      let out_span := write_span out_span (Z.to_nat offset) working_r in
      if batch_ot_num <? u64 (ot_num - offset) then
        do working_w <- lift (sub_span working_r batch_size (lpn_k lpn));
        do mpcot_data <- lift (sub_span working_r (u64 (batch_size + lpn_k lpn)) mpcot_cot_num);
        do (cot_mpcot, h) <- lift (MakeCompactOtRecvStore h mpcot_data);
        Done ((out_span, working_w, cot_mpcot, h, ctx), true)
      else Done ((out_span, working_w, cot_mpcot, h, ctx), false)
  end.

(** The checks at the start, and the loop over the batches. *)
Definition ferret_enough (lpn : LpnParam) (ot_num : Z) (type : OtStoreType) (cots : Z) (ctx : Context) : prog unit :=
  ensure (WorldSize ctx =? 2) (ensure (is_compact type)
    (do need <- lift (FerretCotHelper lpn ot_num false); ensure (need <=? cots) (Done tt))).
Definition FerretSend_expand (lpn : LpnParam) (ot_num : Z) (mal : bool) (base_cot : OtSendStore) (sizes : Z * Z * Z) (sync_seed : Z) (seed_cot cot_mpcot : OtSendStore) (out_span : option (list Z))
    (h : heap) (ctx : Context) : prog (list Z * heap * Context) :=
  let '(mpcot_cot_num, batch_size, batch_num) := sizes in
  do working_v <- lift (send_CopyCotBlkBuf h seed_cot);
  do (seed, ctx) <- ctx_SyncSeedSend sync_seed ctx;
  do llc <- lift (LocalLinearCode_new seed (lpn_n lpn) (lpn_k lpn));
  do out_span <- lift out_span;
  do (out_span, _, _, h, ctx) <- for_until (seq 0 (Z.to_nat batch_num)) (FerretSend_batch lpn ot_num mal llc base_cot mpcot_cot_num batch_size) (out_span, working_v, cot_mpcot, h, ctx);
  Done (out_span, h, ctx).
Definition FerretRecv_expand (lpn : LpnParam) (ot_num : Z) (mal : bool) (sizes : Z * Z * Z) (seed_cot cot_mpcot : OtRecvStore) (out_span : option (list Z)) (h : heap) (ctx : Context)
  : prog (list Z * heap * Context) :=
  let '(mpcot_cot_num, batch_size, batch_num) := sizes in
  do working_w <- lift (recv_CopyBlkBuf h seed_cot);
  do (seed, ctx) <- ctx_SyncSeedRecv ctx;
  do llc <- lift (LocalLinearCode_new seed (lpn_n lpn) (lpn_k lpn));
  do out_span <- lift out_span;
  do (out_span, _, _, h, ctx) <- for_until (seq 0 (Z.to_nat batch_num)) (FerretRecv_batch lpn ot_num mal llc mpcot_cot_num batch_size) (out_span, working_w, cot_mpcot, h, ctx);
  Done (out_span, h, ctx).

(** Into a store; its buffer is not the base store's. *)
Definition FerretOtExtSend_to (lpn : LpnParam) (ot_num : Z) (mal : bool) (h : heap) (base_cot out : OtSendStore) (sync_seed : Z) (ctx : Context) : prog (OtSendStore * heap * Context) :=
  do _ <- ferret_enough lpn ot_num (s_type base_cot) (send_Size base_cot) ctx;
  ensure (u64 (2 * lpn_t lpn) <=? ot_num) (ensure (is_compact (s_type out)) (ensure (send_Size out =? ot_num)
    (do sizes <- lift (ferret_sizes lpn ot_num mal);
     let '(mpcot_cot_num, _, _) := sizes in
     do delta <- lift (send_GetDelta base_cot);
     do out <- lift (send_SetDelta out delta);
     do cot_mpcot <- lift (send_Slice h base_cot 0 mpcot_cot_num);
     do cot_seed <- lift (send_Slice h base_cot mpcot_cot_num (u64 (mpcot_cot_num + lpn_k lpn)));
     do (out_span, h, ctx) <- FerretSend_expand lpn ot_num mal base_cot sizes sync_seed cot_seed cot_mpcot (send_GetBlkBufSpan h out) h ctx;
     do buf <- lift (get_vector h (s_blk_buf out));
     Done (out, set_vector h (s_blk_buf out) (write_span buf 0 out_span), ctx)))).
Definition FerretOtExtRecv_to (lpn : LpnParam) (ot_num : Z) (mal : bool) (h : heap) (base_cot out : OtRecvStore) (ctx : Context) : prog (OtRecvStore * heap * Context) :=
  do _ <- ferret_enough lpn ot_num (r_type base_cot) (recv_Size base_cot) ctx;
  ensure (u64 (2 * lpn_t lpn) <=? ot_num) (ensure (is_compact (r_type out)) (ensure (recv_Size out =? ot_num)
    (do sizes <- lift (ferret_sizes lpn ot_num mal);
     let '(mpcot_cot_num, _, _) := sizes in
     do cot_mpcot <- lift (recv_Slice h base_cot 0 mpcot_cot_num);
     do cot_seed <- lift (recv_Slice h base_cot mpcot_cot_num (u64 (mpcot_cot_num + lpn_k lpn)));
     do (out_span, h, ctx) <- FerretRecv_expand lpn ot_num mal sizes cot_seed cot_mpcot (recv_GetBlkBufSpan h out) h ctx;
     do buf <- lift (get_vector h (r_blk_buf out));
     Done (out, set_vector h (r_blk_buf out) (write_span buf 0 out_span), ctx)))).

(** A new store; [uninit] is what the new vector holds before it is written. *)
Definition FerretOtExtSend (lpn : LpnParam) (ot_num : Z) (mal : bool) (h : heap) (base_cot : OtSendStore) (sync_seed : Z) (uninit : nat -> Z) (ctx : Context) : prog (OtSendStore * heap * Context) :=
  do _ <- ferret_enough lpn ot_num (s_type base_cot) (send_Size base_cot) ctx;
  ensure (u64 (2 * lpn_t lpn) <=? ot_num)
    (do sizes <- lift (ferret_sizes lpn ot_num mal);
     let '(mpcot_cot_num, _, _) := sizes in
     do delta <- lift (send_GetDelta base_cot);
     do cot_mpcot <- lift (send_Slice h base_cot 0 mpcot_cot_num);
     do cot_seed <- lift (send_Slice h base_cot mpcot_cot_num (u64 (mpcot_cot_num + lpn_k lpn)));
     do (out, h, ctx) <- FerretSend_expand lpn ot_num mal base_cot sizes sync_seed cot_seed cot_mpcot (Some (map uninit (seq 0 (Z.to_nat ot_num)))) h ctx;
     do (st, h) <- lift (MakeCompactOtSendStore h out delta);
     Done (st, h, ctx)).
Definition FerretOtExtRecv (lpn : LpnParam) (ot_num : Z) (mal : bool) (h : heap) (base_cot : OtRecvStore) (uninit : nat -> Z) (ctx : Context) : prog (OtRecvStore * heap * Context) :=
  do _ <- ferret_enough lpn ot_num (r_type base_cot) (recv_Size base_cot) ctx;
  ensure (u64 (2 * lpn_t lpn) <=? ot_num)
    (do sizes <- lift (ferret_sizes lpn ot_num mal);
     let '(mpcot_cot_num, _, _) := sizes in
     do cot_mpcot <- lift (recv_Slice h base_cot 0 mpcot_cot_num);
     do cot_seed <- lift (recv_Slice h base_cot mpcot_cot_num (u64 (mpcot_cot_num + lpn_k lpn)));
     do (out, h, ctx) <- FerretRecv_expand lpn ot_num mal sizes cot_seed cot_mpcot (Some (map uninit (seq 0 (Z.to_nat ot_num)))) h ctx;
     do (st, h) <- lift (MakeCompactOtRecvStore h out);
     Done (st, h, ctx)).

(** For Cheetah: into a span, the seed before the points. *)
Definition FerretOtExtSend_cheetah (lpn : LpnParam) (ot_num : Z) (mal : bool) (h : heap) (base_cot : OtSendStore) (sync_seed : Z) (out : list Z) (ctx : Context) : prog (list Z * heap * Context) :=
  do _ <- ferret_enough lpn ot_num (s_type base_cot) (send_Size base_cot) ctx;
  do sizes <- lift (ferret_sizes lpn ot_num mal);
  let '(mpcot_cot_num, _, _) := sizes in
  do cot_seed <- lift (send_Slice h base_cot 0 (lpn_k lpn));
  do cot_mpcot <- lift (send_Slice h base_cot (lpn_k lpn) (u64 (lpn_k lpn + mpcot_cot_num)));
  FerretSend_expand lpn ot_num mal base_cot sizes sync_seed cot_seed cot_mpcot (YACL_ENFORCE (Z.of_nat (length out) =? ot_num) (Some out)) h ctx.
Definition FerretOtExtRecv_cheetah (lpn : LpnParam) (ot_num : Z) (mal : bool) (h : heap) (base_cot : OtRecvStore) (out : list Z) (ctx : Context) : prog (list Z * heap * Context) :=
  do _ <- ferret_enough lpn ot_num (r_type base_cot) (recv_Size base_cot) ctx;
  do sizes <- lift (ferret_sizes lpn ot_num mal);
  let '(mpcot_cot_num, _, _) := sizes in
  do cot_seed <- lift (recv_Slice h base_cot 0 (lpn_k lpn));
  do cot_mpcot <- lift (recv_Slice h base_cot (lpn_k lpn) (u64 (lpn_k lpn + mpcot_cot_num)));
  FerretRecv_expand lpn ot_num mal sizes cot_seed cot_mpcot (YACL_ENFORCE (Z.of_nat (length out) =? ot_num) (Some out)) h ctx.
End Code.

(** ** Batches *)

Lemma make_pair hs hr bs br delta : length bs = length br -> (0 < length bs)%nat -> Z.of_nat (length bs) < 2 ^ 62 -> 0 < delta < 2 ^ 128 -> cor_upto delta (length bs) bs br ->
  exists s hs' r hr', MakeCompactOtSendStore hs bs delta = Some (s, hs') /\ MakeCompactOtRecvStore hr br = Some (r, hr') /\ pair_at hs' s hr' r 0 (length bs) delta bs br /\ extends hs hs' /\ extends hr hr'.
Proof.
  intros Le Lp Lm Hd Hc. unfold MakeCompactOtSendStore, MakeCompactOtRecvStore. destruct (new_vector hs bs) as [hs' p] eqn:Ep. destruct (new_vector hr br) as [hr' q] eqn:Eq. apply new_vector_ok in Ep as [Xs Gs]. apply new_vector_ok in Eq as [Xr Gr].
  set (n := Z.of_nat (length bs)). exists (SendStore (Slice_ 0 n 0 n) Compact delta p), hs', (RecvStore (Slice_ 0 n 0 n) Compact None q), hr'.
  rewrite (proj2 (send_store_spec hs' p delta 0 n 0 n Compact _) (conj eq_refl (proj2 (send_check_spec hs' p bs (Slice_ 0 n 0 n) Gs) ltac:(cbn; lia)))). rewrite <- Le. fold n.
  assert (Rc : recv_check hr' Compact None q (Slice_ 0 n 0 n) = true).
  { unfold recv_check, SliceBase_ConsistencyCheck. cbn [internal_use_size_ internal_buf_size_ internal_buf_ctr_ is_compact]. rewrite Gr, !andb_true_iff, !Z.ltb_lt, !Z.leb_le. lia. }
  rewrite (proj2 (recv_store_spec hr' None q 0 n 0 n Compact _) (conj eq_refl Rc)). split; [reflexivity|]. split; [reflexivity|]. split; [|now split].
  split; cbn [s_blk_buf r_bit_buf r_blk_buf]; try assumption; try reflexivity; try lia. intros i Hi. apply Hc. lia.
Qed.

(** The sums of rows keep the relation. *)
Lemma sum_of_cor delta k rows v w a b : Forall (fun i => (i < k)%nat) rows -> cor_upto delta k v w -> cor delta a b -> cor delta (sum_of v rows a) (sum_of w rows b).
Proof. intros F H. revert a b; induction F as [|i l Hi F IH]; intros a b Hab; [exact Hab|]. apply IH. apply cor_lxor; [exact Hab|now apply H]. Qed.

Lemma cor_write_any delta out out' t t' o n p : cor_upto delta o out out' -> cor_upto delta n t t' -> length t = n -> length t' = n -> (o + n <= length out)%nat -> (o + n <= length out')%nat -> (p <= o + n)%nat ->
  cor_upto delta p (write_span out o t) (write_span out' o t').
Proof. intros H0 H1 L0 L1 Ho Ho' Hp i Hi. exact (cor_write delta out out' t t' o n H0 H1 L0 L1 Ho Ho' i ltac:(lia)). Qed.

(** What is left for the last batch, and its last bin. *)
Definition ferret_tail (lpn : LpnParam) (B ot_num : Z) : Z := ot_num - B * Z.max 0 ((ot_num - lpn_n lpn + B - 1) / B).
Definition last_bin (q b : Z) : Z := (b - 1) mod q + 1.

(** The batch after a full one, or the first, that is not full is the last. *)
Lemma ferret_tail_eq lpn B ot_num i : 0 < B -> 0 <= i -> (0 < i -> lpn_n lpn < ot_num - (i - 1) * B) -> ot_num - i * B <= lpn_n lpn -> ferret_tail lpn B ot_num = ot_num - i * B.
Proof.
  intros HB H0 Hp Hl. unfold ferret_tail. assert (E : Z.max 0 ((ot_num - lpn_n lpn + B - 1) / B) = i); [|rewrite E; lia].
  pose proof (Z.div_mod (ot_num - lpn_n lpn + B - 1) B ltac:(lia)) as D. pose proof (Z.mod_pos_bound (ot_num - lpn_n lpn + B - 1) B ltac:(lia)) as M.
  set (d := (ot_num - lpn_n lpn + B - 1) / B) in *. destruct (Z.eq_dec i 0) as [->|N]; [assert (d < 1); [|lia]; nia|]. specialize (Hp ltac:(lia)). assert (d = i); [|lia]. nia.
Qed.

Lemma last_bin_eq q k ls : 0 < ls <= q -> last_bin q (k * q + ls) = ls.
Proof. intros H. unfold last_bin. replace (k * q + ls - 1) with (ls - 1 + k * q) by lia. rewrite Z.mod_add by lia. rewrite Z.mod_small; lia. Qed.

Section Loop.
Context {C : Cipher} {L : CipherLaws C} {Cd : Codec}.
Variables (r : bool) (id : list Z) (seeds : nat -> nat -> Z) (check_seeds : nat -> Z) (lpn : LpnParam) (ot_num delta : Z) (llc : LocalLinearCode) (rows : nat -> list nat) (base_cot : OtSendStore).
Variables (q M B : Z) (hs0 hr0 : heap).
(** Bins of [q] positions, of [M] transfers altogether; [B] new transfers a batch. *)
Hypothesis Hnoise : noise_asm lpn = RegularNoise.
Hypothesis Hq : 2 <= q < 2 ^ 32.
Hypothesis Hn : lpn_n lpn = q * lpn_t lpn.
Hypothesis Ht : 0 < lpn_t lpn.
Hypothesis Hn32 : lpn_n lpn <= 2 ^ 32 - 1024.
Variable bl : Z.
Hypothesis Hbl : Log2Ceil q = Some bl.
Hypothesis Hpow : q = 2 ^ bl.
Hypothesis HM : M = bl * lpn_t lpn.
Hypothesis HB : lpn_n lpn = B + (lpn_k lpn + M).
Hypothesis Hk : 0 < lpn_k lpn < 2 ^ 31.
Hypothesis HB0 : 0 < B.
Hypothesis Hnum : 0 < ot_num < 2 ^ 48.
Hypothesis Htail : power_of_two (last_bin q (ferret_tail lpn B ot_num)) = true.
Hypothesis Od : Z.odd delta = true.
Hypothesis Hd : 0 < delta < 2 ^ 128.
Hypothesis Hbase : send_GetDelta base_cot = Some delta.
Hypothesis Hllc : encodes 10 llc (lpn_k lpn) rows.

Definition batch_end (i : nat) : Z := Z.min (lpn_n lpn) (ot_num - Z.of_nat i * B).

Lemma bins_enough b bn ls bl' ll : 0 < b <= lpn_n lpn -> mp_bins b (lpn_t lpn) q = Some (bn, ls, bl', ll) -> bl' = bl /\ 0 < bn <= lpn_t lpn /\ (bn - 1) * bl + Z.max 1 ll <= M.
Proof.
  intros Hb Hm. assert (Hb62 : 0 < b < 2 ^ 62) by lia. destruct (mp_bins_ok b (lpn_t lpn) q bn ls bl' ll Hb62 Hq Hm) as (B1 & B2 & B3 & B4 & B5). rewrite Hbl in B4. injection B4 as <-. split; [reflexivity|].
  pose proof (log_pos _ _ Hbl ltac:(lia)) as Lb. assert (Hbn : bn <= lpn_t lpn).
  { destruct (Z.le_gt_cases bn (lpn_t lpn)); [assumption|]. pose proof (Z.mul_le_mono_nonneg_r (lpn_t lpn) (bn - 1) q ltac:(lia) ltac:(lia)). lia. }
  split; [lia|]. assert (Hll : Z.max 1 ll <= bl).
  { destruct (Z.eq_dec ls 1) as [->|N1]; [injection B5 as <-; lia|]. pose proof (log_pos _ _ B5 ltac:(lia)). assert (ll <= bl); [|lia].
    unfold Log2Ceil, Log2Floor in B5, Hbl. rewrite (proj2 (Z.eqb_neq ls 0)), (proj2 (Z.eqb_neq ls 1)), (proj2 (Z.eqb_neq (ls - 1) 0)) in B5 by lia. rewrite (proj2 (Z.eqb_neq q 0)), (proj2 (Z.eqb_neq q 1)), (proj2 (Z.eqb_neq (q - 1) 0)) in Hbl by lia.
    injection B5 as <-. injection Hbl as <-. pose proof (Z.log2_le_mono (ls - 1) (q - 1) ltac:(lia)). lia. }
  pose proof (Z.mul_le_mono_nonneg_r bn (lpn_t lpn) bl ltac:(lia) Hbn). lia.
Qed.
Lemma bins_exist b : 0 < b <= lpn_n lpn -> exists bn ls bl' ll, mp_bins b (lpn_t lpn) q = Some (bn, ls, bl', ll).
Proof.
  intros Hb. unfold mp_bins, DivCeil, YACL_ENFORCE. rewrite (proj2 (Z.eqb_neq b 0)), (proj2 (Z.eqb_neq q 0)) by lia. pose proof (Z.div_mod (b - 1) q ltac:(lia)) as D. pose proof (Z.mod_pos_bound (b - 1) q ltac:(lia)) as Md. pose proof (Z.div_pos (b - 1) q ltac:(lia) ltac:(lia)) as Dp.
  set (k := (b - 1) / q) in *. assert (Hk' : k < lpn_t lpn) by (destruct (Z.lt_ge_cases k (lpn_t lpn)); [assumption|]; pose proof (Z.mul_le_mono_nonneg_r (lpn_t lpn) k q ltac:(lia) ltac:(lia)); lia).
  rewrite (proj2 (Z.leb_le _ _)), (proj2 (Z.ltb_lt _ _)) by lia. rewrite Hbl. replace ((1 + k - 1) * q) with (q * k) by lia. assert (0 <= q * k) by (apply Z.mul_nonneg_nonneg; lia). rewrite (u64_id (q * k)), u64_id by lia.
  destruct (Z.eq_dec (b - q * k) 1) as [E|N1]; [rewrite E; do 4 eexists; reflexivity|]. destruct (Log2Ceil_ok (Z.to_nat (b - q * k)) ltac:(lia)) as (h & E & _). rewrite Z2Nat.id in E by lia. rewrite E. do 4 eexists. reflexivity.
Qed.

(** The last bin of a batch is full, or that of the last batch. *)
Lemma last_fits i b bn ls ll : b = Z.min (lpn_n lpn) (ot_num - Z.of_nat i * B) -> 0 < b -> (0 < Z.of_nat i -> lpn_n lpn < ot_num - (Z.of_nat i - 1) * B) ->
  mp_bins b (lpn_t lpn) q = Some (bn, ls, bl, ll) -> ls = 2 ^ ll.
Proof.
  intros Eb Hb Hp Hm. assert (Hb62 : 0 < b < 2 ^ 62) by lia. destruct (mp_bins_ok b (lpn_t lpn) q bn ls bl ll Hb62 Hq Hm) as (B1 & B2 & B3 & B4 & B5).
  assert (E : last_bin q b = ls) by (rewrite <- B3; now apply last_bin_eq).
  destruct (Z.le_gt_cases (ot_num - Z.of_nat i * B) (lpn_n lpn)) as [H|H].
  - apply (power_of_two_ceil ls ll); [|exact B5]. rewrite (ferret_tail_eq lpn B ot_num (Z.of_nat i) HB0 ltac:(lia) Hp H), <- (Z.min_r _ _ H), <- Eb, E in Htail. exact Htail.
  - rewrite Z.min_l in Eb by lia. rewrite Eb, Hn in E. replace (q * lpn_t lpn) with ((lpn_t lpn - 1) * q + q) in E by lia. rewrite last_bin_eq in E by lia. subst ls. rewrite Hbl in B5. injection B5 as <-. exact Hpow.
Qed.

(** Before batch [i]. *)
Definition usable (hs : heap) (s : OtSendStore) (hr : heap) (rv : OtRecvStore) : Prop :=
  exists a l N bs br, pair_at hs s hr rv a l delta bs br /\ (N <= length bs)%nat /\ (N <= length br)%nat /\ cor_upto delta N bs br /\ M <= Z.of_nat N /\ M <= Z.of_nat l.
Definition halves (w : traffic) (st0 : send_state) (st1 : recv_state) (p : Z) : Prop :=
  let '(out, _, _, h, ctx0) := st0 in let '(out', _, _, h', ctx1) := st1 in
  both_stand r id w ctx0 ctx1 /\ Z.of_nat (length out) = ot_num /\ Z.of_nat (length out') = ot_num /\ extends hs0 h /\ extends hr0 h' /\ cor_upto delta (Z.to_nat p) out out'.
Definition batch_inv (i : nat) (w : traffic) (st0 : send_state) (st1 : recv_state) : Prop :=
  halves w st0 st1 (Z.of_nat i * B) /\ Z.of_nat i * B < ot_num /\ (0 < Z.of_nat i -> lpn_n lpn < ot_num - (Z.of_nat i - 1) * B) /\
  let '(_, v, cs, h, _) := st0 in let '(_, v', cr, h', _) := st1 in
  Z.of_nat (length v) = lpn_k lpn /\ Z.of_nat (length v') = lpn_k lpn /\ cor_upto delta (Z.to_nat (lpn_k lpn)) v v' /\ usable h cs h' cr.

Lemma cor_subspan o n p t t' : cor_upto delta p t t' -> (o + n <= p)%nat -> cor_upto delta n (subspan t o n) (subspan t' o n).
Proof. intros H Ho i Hi. rewrite !at_subspan_at by exact Hi. apply H. lia. Qed.

Lemma batch_talk i w st0 st1 : w_ok w -> w_ok (said r w (lpn_t lpn) 0 0) -> batch_inv i w st0 st1 ->
  exists k st0' st1', let more := lpn_n lpn <? ot_num - Z.of_nat i * B in
    duo r id w (FerretSend_batch seeds check_seeds lpn ot_num false llc base_cot M B i st0) (FerretRecv_batch lpn ot_num false llc M B i st1) (said r w k 0 0) (st0', more) (st1', more) /\
    0 <= k <= lpn_t lpn /\ if more then batch_inv (S i) (said r w k 0 0) st0' st1' else halves (said r w k 0 0) st0' st1' ot_num.
Proof.
  intros K Kt. destruct st0 as [[[[out v] cs] h] ctx0], st1 as [[[[out' v'] cr] h'] ctx1]. intros ((S0 & Lo & Lo' & X0 & X1 & Co) & Hi & Hfull & Lv & Lv' & Cv & (a & l & N & bs & br & P & N1 & N2 & PC & MN & Ml)).
  pose proof (log_pos _ _ Hbl ltac:(lia)) as Lb. assert (HM0 : 0 < M) by (rewrite HM; apply Z.mul_pos_pos; lia). assert (Hi0 : 0 <= Z.of_nat i * B) by (apply Z.mul_nonneg_nonneg; lia). set (o := Z.of_nat i * B) in *.
  assert (U1 : u64 o = o) by (apply u64_id; lia). assert (U2 : u64 (ot_num - o) = ot_num - o) by (apply u64_id; lia). set (b := Z.min (lpn_n lpn) (ot_num - o)). assert (Hb : 0 < b <= lpn_n lpn) by lia. assert (Hob : o + b <= ot_num) by lia.
  destruct (bins_exist b Hb) as (bn & ls & bl' & ll & Eb). destruct (bins_enough b bn ls bl' ll Hb Eb) as (-> & Hbn & HNM).
  assert (Kn : w_ok (said r w bn 0 0)) by (apply (said_between r w (lpn_t lpn) 0 0); lia || assumption). set (bo := Z.to_nat b). set (oo := Z.to_nat o).
  assert (Lso : length (subspan out oo bo) = bo) by (apply length_subspan; lia). assert (Lso' : length (subspan out' oo bo) = bo) by (apply length_subspan; lia).
  destruct (mp_talk h cs h' cr a l N delta bs br P (conj N1 N2) PC Od r id b (lpn_t lpn) q bn ls bl ll ltac:(lia) Hq Eb Hpow (last_fits i b bn ls ll eq_refl (proj1 Hb) Hfull Eb) ltac:(lia) ltac:(lia) w K Kn ctx0 ctx1 (seeds i) (check_seeds i) (subspan out oo bo) (subspan out' oo bo) S0 ltac:(lia) ltac:(lia))
    as (k & t & t' & c0 & c1 & D & Hk' & S1 & L1 & L2 & Ct).
  assert (Kk : w_ok (said r w k 0 0)) by (apply (said_between r w (lpn_t lpn) 0 0); lia || assumption).
  destruct (Encode_ok 10 llc (lpn_k lpn) rows Hllc v t Lv) as (e & Ee & Le & Ve); [unfold size_reached, kLcBatchSize; apply Z.leb_le; lia|].
  destruct (Encode_ok 10 llc (lpn_k lpn) rows Hllc v' t' Lv') as (e' & Ee' & Le' & Ve'); [unfold size_reached, kLcBatchSize; apply Z.leb_le; lia|].
  assert (Ce : cor_upto delta bo e e').
  { intros j Hj. rewrite Ve, Ve' by lia. apply (sum_of_cor delta (Z.to_nat (lpn_k lpn))); [apply Hllc|exact Cv|apply Ct; lia]. }
  set (more := lpn_n lpn <? ot_num - o).
  assert (Ebm : (b <? ot_num - o) = more) by (unfold more, b; destruct (Z.ltb_spec (lpn_n lpn) (ot_num - o)), (Z.ltb_spec (Z.min (lpn_n lpn) (ot_num - o)) (ot_num - o)); lia || reflexivity).
  assert (Dw : length (write_span out oo e) = length out) by (apply length_write_span; lia). assert (Dw' : length (write_span out' oo e') = length out') by (apply length_write_span; lia).
  assert (Cw : forall p, (p <= oo + bo)%nat -> cor_upto delta p (write_span out oo e) (write_span out' oo e')) by (intros p Hp; apply (cor_write_any delta out out' e e' oo bo); lia || assumption).
  assert (Q : lpn_n lpn / lpn_t lpn = q) by (rewrite Hn; apply Z.div_mul; lia).
  exists k. destruct more eqn:Em.
  - apply Z.ltb_lt in Em. assert (Eb2 : b = lpn_n lpn) by lia. set (ko := Z.to_nat (lpn_k lpn)). set (Bo := Z.to_nat B). set (Mo := Z.to_nat M).
    destruct (make_pair h h' (subspan e (Bo + ko) Mo) (subspan e' (Bo + ko) Mo) delta) as (cs2 & h2 & cr2 & h2' & Ms & Mr & P2 & Y0 & Y1); [rewrite !length_subspan by lia; reflexivity|rewrite length_subspan by lia; lia|rewrite length_subspan by lia; lia|exact Hd|rewrite length_subspan by lia; apply (cor_subspan _ _ bo); [exact Ce|lia]|].
    exists (write_span out oo e, subspan e Bo ko, cs2, h2, c0), (write_span out' oo e', subspan e' Bo ko, cr2, h2', c1). cbv zeta. split; [|split; [lia|]].
    + unfold FerretSend_batch, FerretRecv_batch. fold o. rewrite U1, U2. fold b. unfold sub_span. rewrite !(proj2 (Z.leb_le _ _)) by lia. cbn [lift bind]. fold oo bo. rewrite Hnoise, Q. refine (duo_bind _ _ _ _ _ _ _ _ _ (t, c0) (t', c1) _ _ K Kk Kk D _). cbv beta iota.
      rewrite Ee, Ee'. cbn [lift bind]. rewrite Ebm. rewrite !(u64_id (B + lpn_k lpn)) by lia. rewrite !(proj2 (Z.leb_le _ _)) by lia. cbn [lift bind]. replace (Z.to_nat (B + lpn_k lpn)) with (Bo + ko)%nat by lia. fold Bo ko Mo. rewrite Hbase. cbn [lift bind]. rewrite Ms, Mr. cbn [lift bind]. apply duo_done.
    + assert (Eo2 : Z.of_nat (S i) * B = o + B) by (unfold o; lia). unfold batch_inv. rewrite Eo2. split; [|split; [lia|split; [intros _; replace (Z.of_nat (S i) - 1) with (Z.of_nat i) by lia; fold o; lia|]]].
      * split; [exact S1|]. split; [lia|]. split; [lia|]. split; [now apply extends_trans with h|]. split; [now apply extends_trans with h'|]. apply Cw. lia.
      * split; [rewrite length_subspan; lia|]. split; [rewrite length_subspan; lia|]. split; [apply (cor_subspan _ _ bo); [exact Ce|lia]|].
        exists 0%nat, Mo, Mo, (subspan e (Bo + ko) Mo), (subspan e' (Bo + ko) Mo). rewrite !length_subspan in * by lia. split; [exact P2|]. split; [lia|]. split; [lia|]. split; [apply (cor_subspan _ _ bo); [exact Ce|lia]|]. lia.
  - apply Z.ltb_ge in Em. assert (Eb2 : b = ot_num - o) by lia. exists (write_span out oo e, v, cs, h, c0), (write_span out' oo e', v', cr, h', c1). cbv zeta. split; [|split; [lia|]].
    + unfold FerretSend_batch, FerretRecv_batch. fold o. rewrite U1, U2. fold b. unfold sub_span. rewrite !(proj2 (Z.leb_le _ _)) by lia. cbn [lift bind]. fold oo bo. rewrite Hnoise, Q. refine (duo_bind _ _ _ _ _ _ _ _ _ (t, c0) (t', c1) _ _ K Kk Kk D _). cbv beta iota.
      rewrite Ee, Ee'. cbn [lift bind]. rewrite Ebm. apply duo_done.
    + split; [exact S1|]. split; [lia|]. split; [lia|]. split; [exact X0|]. split; [exact X1|]. apply Cw. lia.
Qed.

(** The loop: it ends with the last batch. *)
Lemma batches_talk m : forall i w st0 st1, ot_num <= Z.of_nat (i + m) * B -> w_ok w -> w_ok (said r w (Z.of_nat m * lpn_t lpn) 0 0) -> batch_inv i w st0 st1 ->
  exists k st0' st1', duo r id w (for_until (seq i m) (FerretSend_batch seeds check_seeds lpn ot_num false llc base_cot M B) st0) (for_until (seq i m) (FerretRecv_batch lpn ot_num false llc M B) st1) (said r w k 0 0) st0' st1' /\
    0 <= k <= Z.of_nat m * lpn_t lpn /\ halves (said r w k 0 0) st0' st1' ot_num.
Proof.
  induction m as [|m IH]; intros i w st0 st1 Hm K Km I; [destruct st0 as [[[[? ?] ?] ?] ?], st1 as [[[[? ?] ?] ?] ?]; destruct I as (_ & Hi & _); rewrite Nat.add_0_r in Hm; lia|].
  assert (Kt : w_ok (said r w (lpn_t lpn) 0 0)) by (apply (said_between r w (Z.of_nat (S m) * lpn_t lpn) 0 0); lia || assumption).
  destruct (batch_talk i w st0 st1 K Kt I) as (k & a0 & a1 & D & Hk' & J). cbv zeta in D. cbn [seq for_until]. assert (Kk : w_ok (said r w k 0 0)) by (apply (said_between r w (lpn_t lpn) 0 0); lia || assumption).
  destruct (lpn_n lpn <? ot_num - Z.of_nat i * B).
  - destruct (IH (S i) (said r w k 0 0) a0 a1) as (k2 & b0 & b1 & D2 & Hk2 & H2); [replace (S i + m)%nat with (i + S m)%nat by lia; exact Hm|exact Kk|rewrite said_said; apply (said_between r w (Z.of_nat (S m) * lpn_t lpn) 0 0); lia || assumption|exact J|].
    rewrite said_said in D2, H2. rewrite !Z.add_0_r in D2, H2. exists (k + k2), b0, b1. split; [|split; [lia|exact H2]]. refine (duo_bind _ _ _ _ _ _ _ _ _ (a0, true) (a1, true) _ _ K Kk _ D _); [apply (said_between r w (Z.of_nat (S m) * lpn_t lpn) 0 0); lia || assumption|exact D2].
  - exists k, a0, a1. split; [|split; [lia|exact J]]. refine (duo_bind _ _ _ _ _ _ _ _ _ (a0, false) (a1, false) _ _ K Kk Kk D _). apply duo_done.
Qed.
End Loop.

(** ** The extension *)

(** Parameters that fit: [t] bins of [q] positions, of [bl] transfers each; [B] new
    transfers a batch. *)
Record lpn_fits (lpn : LpnParam) (q bl B : Z) : Prop := {
  fit_noise : noise_asm lpn = RegularNoise;
  fit_q : 2 <= q < 2 ^ 32;
  fit_n : lpn_n lpn = q * lpn_t lpn;
  fit_t : 0 < lpn_t lpn;
  fit_n32 : lpn_n lpn <= 2 ^ 32 - 1024;
  fit_bl : Log2Ceil q = Some bl;
  fit_pow : q = 2 ^ bl;
  fit_B : lpn_n lpn = B + (lpn_k lpn + bl * lpn_t lpn);
  fit_k : 0 < lpn_k lpn < 2 ^ 31;
  fit_B0 : 0 < B }.

Lemma default_fits : lpn_fits LpnParam_GetDefault 8192 13 10017120.
Proof. split; try reflexivity; cbn; lia. Qed.

Section Sizes.
Variables (lpn : LpnParam) (q bl B : Z).
Hypothesis F : lpn_fits lpn q bl B.

Lemma MpCotRNHelper_ok : MpCotRNHelper (lpn_t lpn) (lpn_n lpn) false = Some (bl * lpn_t lpn).
Proof.
  destruct F as [_ Hq Hn Ht Hn32 Hbl Hpow HB Hk HB0]. pose proof (log_pos _ _ Hbl ltac:(lia)) as Lb. assert (Hm : 0 < bl * lpn_t lpn) by (apply Z.mul_pos_pos; lia). unfold MpCotRNHelper, YACL_ENFORCE. rewrite (proj2 (Z.eqb_neq (lpn_t lpn) 0)) by lia. cbn [negb].
  assert (Tn : lpn_t lpn <= lpn_n lpn) by (rewrite Hn; pose proof (Z.mul_le_mono_nonneg_r 1 q (lpn_t lpn) ltac:(lia) ltac:(lia)); lia).
  rewrite !(u64_id (lpn_n lpn + lpn_t lpn)), (u64_id (lpn_t lpn - 1)), !(u64_id (_ - 1)) by lia. assert (Q : (lpn_n lpn + lpn_t lpn - 1) / lpn_t lpn = q) by (rewrite Hn; symmetry; apply (Z.div_unique _ _ _ (lpn_t lpn - 1)); lia). rewrite Q.
  assert (0 <= q * (lpn_t lpn - 1)) by (apply Z.mul_nonneg_nonneg; lia). assert (0 <= bl * (lpn_t lpn - 1)) by (apply Z.mul_nonneg_nonneg; lia). rewrite (u64_id (q * _)) by lia. replace (lpn_n lpn - q * (lpn_t lpn - 1)) with q by lia. rewrite (u64_id q) by lia. rewrite Hbl, (u64_id (bl * _)) by lia. replace (bl * (lpn_t lpn - 1) + bl) with (bl * lpn_t lpn) by lia.
  rewrite (u64_id (bl * _)) by lia. rewrite Z.add_0_r, u64_id by lia. reflexivity.
Qed.
Lemma FerretCotHelper_ok ot_num : FerretCotHelper lpn ot_num false = Some (lpn_k lpn + bl * lpn_t lpn).
Proof.
  unfold FerretCotHelper. rewrite MpCotRNHelper_ok. destruct F as [-> Hq Hn Ht Hn32 Hbl Hpow HB Hk HB0]. pose proof (log_pos _ _ Hbl ltac:(lia)) as Lb. assert (Hm : 0 < bl * lpn_t lpn) by (apply Z.mul_pos_pos; lia). rewrite (u64_id (lpn_k lpn + _)), u64_id by lia. f_equal. lia.
Qed.
Lemma ferret_sizes_ok ot_num : 0 < ot_num < 2 ^ 48 -> ferret_sizes lpn ot_num false = Some (bl * lpn_t lpn, B, (ot_num + B - 1) / B).
Proof.
  intros Ho. unfold ferret_sizes. rewrite MpCotRNHelper_ok. destruct F as [_ Hq Hn Ht Hn32 Hbl Hpow HB Hk HB0]. pose proof (log_pos _ _ Hbl ltac:(lia)) as Lb. assert (Hm : 0 < bl * lpn_t lpn) by (apply Z.mul_pos_pos; lia).
  rewrite (u64_id (lpn_k lpn + _)) by lia. replace (lpn_n lpn - _) with B by lia. rewrite (u64_id B) by lia. rewrite (proj2 (Z.eqb_neq B 0)) by lia. cbn [negb YACL_ENFORCE]. now rewrite (u64_id (ot_num + B)), u64_id by lia.
Qed.
End Sizes.

Lemma pair_copy hs s hr r a l delta bs br : pair_at hs s hr r a l delta bs br -> send_CopyCotBlkBuf hs s = Some (subspan bs a l) /\ recv_CopyBlkBuf hr r = Some (subspan br a l).
Proof.
  intros [Es Er Gs Gr Hl Hm Hd Hc]. unfold send_CopyCotBlkBuf, recv_CopyBlkBuf, YACL_ENFORCE. rewrite Gs, Gr, Es, Er. cbn [is_compact s_type s_slice r_slice internal_buf_ctr_ internal_use_ctr_ internal_use_size_]. unfold vector_copy, subspan.
  rewrite !(proj2 (Z.leb_le _ _)) by lia. cbn [andb]. replace (Z.of_nat a + Z.of_nat l - Z.of_nat a) with (Z.of_nat l) by lia. now rewrite !Nat2Z.id.
Qed.

Section Extension.
Context {C : Cipher} {L : CipherLaws C} {Cd : Codec} {CL : CodecLaws Cd}.
Variables (r : bool) (id : list Z) (seeds : nat -> nat -> Z) (check_seeds : nat -> Z) (lpn : LpnParam) (q bl B ot_num delta : Z).
Hypothesis F : lpn_fits lpn q bl B.
Hypothesis Hnum : 0 < ot_num < 2 ^ 48.
Hypothesis Od : Z.odd delta = true.
Variables (hs : heap) (s : OtSendStore) (hr : heap) (rv : OtRecvStore) (N : nat) (bs br : list Z).
(** The base stores, which are whole, and long enough. *)
Hypothesis P : pair_at hs s hr rv 0 N delta bs br.
Hypothesis HN : lpn_k lpn + bl * lpn_t lpn <= Z.of_nat N.
Variables (sync_seed : Z) (w : traffic).
Hypothesis Hseed : in128 sync_seed.
Definition batch_count : Z := (ot_num + B - 1) / B.
Hypothesis K : w_ok w.
Hypothesis Km : w_ok (said r w (1 + batch_count * lpn_t lpn) 0 0).

Lemma batch_count_ok : 0 < batch_count /\ ot_num <= batch_count * B.
Proof. destruct F. unfold batch_count. pose proof (Z.div_mod (ot_num + B - 1) B ltac:(lia)). pose proof (Z.mod_pos_bound (ot_num + B - 1) B ltac:(lia)). split; [apply Z.div_str_pos; lia|lia]. Qed.

Lemma enough_ok w' ctx0 ctx1 : both_stand r id w' ctx0 ctx1 ->
  ferret_enough lpn ot_num (s_type s) (Z.of_nat N) ctx0 = Done tt /\ ferret_enough lpn ot_num (r_type rv) (Z.of_nat N) ctx1 = Done tt.
Proof.
  intros [S0 S1]. pose proof S0 as (_ & E0 & _). pose proof S1 as (_ & E1 & _). unfold ferret_enough, WorldSize. rewrite E0, E1, (pa_send _ _ _ _ _ _ _ _ _ P), (pa_recv _ _ _ _ _ _ _ _ _ P), (FerretCotHelper_ok lpn q bl B F). cbn [s_type r_type is_compact ensure lift bind Z.of_nat Pos.of_succ_nat Pos.succ Z.eqb Pos.eqb].
  rewrite (proj2 (Z.leb_le _ _) HN). now split.
Qed.
Lemma base_sizes : send_Size s = Z.of_nat N /\ recv_Size rv = Z.of_nat N.
Proof. rewrite (pa_send _ _ _ _ _ _ _ _ _ P), (pa_recv _ _ _ _ _ _ _ _ _ P). split; reflexivity. Qed.

(** The slices of the base stores. *)
Lemma base_slice b e : 0 <= b < e -> e <= lpn_k lpn + bl * lpn_t lpn -> exists s' r', send_Slice hs s b e = Some s' /\ recv_Slice hr rv b e = Some r' /\ pair_at hs s' hr r' (Z.to_nat b) (Z.to_nat (e - b)) delta bs br.
Proof.
  intros Hb He. pose proof (pa_len _ _ _ _ _ _ _ _ _ P) as PL. destruct (pair_slice hs s hr rv 0 N delta bs br P (Z.to_nat b) (Z.to_nat e)) as (s' & r' & E1 & E2 & P'); [lia|lia|lia|intros i Hi; apply (pa_cor _ _ _ _ _ _ _ _ _ P); lia|].
  rewrite !Z2Nat.id in E1, E2 by lia. exists s', r'. split; [exact E1|]. split; [exact E2|]. replace (Z.to_nat (e - b)) with (Z.to_nat e - Z.to_nat b)%nat by lia. exact P'.
Qed.
Lemma slice_usable s' r' a l : pair_at hs s' hr r' a l delta bs br -> bl * lpn_t lpn <= Z.of_nat l -> usable delta (bl * lpn_t lpn) hs s' hr r'.
Proof.
  intros P' Hl. pose proof (pa_len _ _ _ _ _ _ _ _ _ P) as PL. pose proof F as [_ _ _ _ _ _ _ _ Hk _]. exists a, l, N, bs, br. split; [exact P'|]. split; [lia|]. split; [lia|]. split; [intros i Hi; apply (pa_cor _ _ _ _ _ _ _ _ _ P); lia|]. lia.
Qed.

Lemma cots_pos : 0 < bl * lpn_t lpn < 2 ^ 62.
Proof. destruct F as [_ Hq Hn Ht Hn32 Hbl Hpow HB Hk HB0]. pose proof (log_pos _ _ Hbl ltac:(lia)). split; [apply Z.mul_pos_pos; lia|lia]. Qed.

(** *** Too few *)

Lemma ferret_few ctx0 ctx1 : both_stand r id w ctx0 ctx1 -> ot_num < 2 * lpn_t lpn ->
  (forall uninit uninit', FerretOtExtSend seeds check_seeds lpn ot_num false hs s sync_seed uninit ctx0 = Fail /\ FerretOtExtRecv lpn ot_num false hr rv uninit' ctx1 = Fail) /\
  forall out out', FerretOtExtSend_to seeds check_seeds lpn ot_num false hs s out sync_seed ctx0 = Fail /\ FerretOtExtRecv_to lpn ot_num false hr rv out' ctx1 = Fail.
Proof.
  intros S0 Hot. pose proof F as [_ Hq Hn Ht Hn32 _ _ _ _ _]. destruct base_sizes as [Z1 Z2]. destruct (enough_ok w ctx0 ctx1 S0) as [E0 E1].
  assert (U : (u64 (2 * lpn_t lpn) <=? ot_num) = false) by (rewrite u64_id by (pose proof (Z.mul_le_mono_nonneg_r 1 q (lpn_t lpn)); lia); apply Z.leb_gt; exact Hot).
  split; intros; [unfold FerretOtExtSend, FerretOtExtRecv|unfold FerretOtExtSend_to, FerretOtExtRecv_to]; rewrite Z1, Z2, E0, E1, U; now split.
Qed.

(** *** A single bin that is not a power of two *)

Lemma one_bin_stops ms mr a l bs' br' llc v out ctx : 2 <= ot_num <= q -> power_of_two ot_num = false ->
  pair_at hs ms hr mr a l delta bs' br' -> cor_upto delta (Z.to_nat bl) bs' br' -> bl <= Z.of_nat (length bs') -> bl <= Z.of_nat (length br') -> Z.of_nat (length out) = ot_num ->
  stops (FerretSend_batch seeds check_seeds lpn ot_num false llc s (bl * lpn_t lpn) B 0 (out, v, ms, hs, ctx)).
Proof.
  intros Ho Hp Pm Pc L1 L2 Lo. pose proof F as [Hno Hq Hn Ht Hn32 Hbl Hpow HB Hk HB0]. pose proof (log_pos _ _ Hbl ltac:(lia)) as Lb.
  assert (Hqn : q <= lpn_n lpn) by (rewrite Hn; pose proof (Z.mul_le_mono_nonneg_l 1 (lpn_t lpn) q); lia). assert (Q : lpn_n lpn / lpn_t lpn = q) by (rewrite Hn; apply Z.div_mul; lia).
  destruct (Log2Ceil_ok (Z.to_nat ot_num) ltac:(lia)) as (h & Eh & Hh & Hh1). rewrite Z2Nat.id in Eh by lia. pose proof (not_a_power ot_num (Z.of_nat h) Hp ltac:(lia) ltac:(lia)) as Np.
  assert (Hhb : Z.of_nat h <= bl).
  { rewrite Hpow in Ho. destruct (Z.le_gt_cases (Z.of_nat h) bl); [assumption|]. pose proof (Z.pow_le_mono_r 2 bl (Z.of_nat (h - 1)) ltac:(lia) ltac:(lia)) as Hx. change 2 with (Z.of_nat 2) in Hx at 2. rewrite <- Nat2Z.inj_pow in Hx. lia. }
  unfold FerretSend_batch. change (Z.of_nat 0 * B) with 0. change (u64 0) with 0. rewrite Z.sub_0_r, u64_id, Z.min_r by lia. unfold sub_span. rewrite Z.add_0_l, (proj2 (Z.leb_le _ _)) by lia. cbn [lift bind]. rewrite Hno, Q. apply stops_bind.
  change (Z.to_nat 0) with 0%nat. set (part := subspan out 0 (Z.to_nat ot_num)).
  assert (Em : mp_bins ot_num (lpn_t lpn) q = Some (1, ot_num, bl, Z.of_nat h)).
  { unfold mp_bins, DivCeil, YACL_ENFORCE. rewrite (proj2 (Z.eqb_neq ot_num 0)), (proj2 (Z.eqb_neq q 0)) by lia. rewrite (Z.div_small (ot_num - 1)) by lia. rewrite (proj2 (Z.leb_le _ _)) by lia. cbn [Z.add Z.ltb Z.compare]. change ((1 - 1) * q) with 0. change (u64 0) with 0. rewrite Z.sub_0_r, u64_id, Hbl, Eh by lia. reflexivity. }
  unfold MpCotRNSend. rewrite Em. cbn [lift bind]. change (Z.to_nat (1 - 1)) with 0%nat. cbn [seq for_each bind]. rewrite (proj2 (Z.eqb_neq ot_num 1)) by lia. apply stops_bind. change ((1 - 1) * bl) with 0. change ((1 - 1) * q) with 0. change (u64 0) with (Z.of_nat 0).
  rewrite <- (Z2Nat.id ot_num) by lia. apply (bin_stops hs ms hr mr a l (Z.to_nat bl) delta bs' br' Pm); try assumption; try lia.
  - rewrite Z2Nat.id by lia. exact Eh.
  - intros E. apply Np. apply (f_equal Z.of_nat) in E. rewrite Z2Nat.id, Nat2Z.inj_pow in E by lia. exact E.
Qed.

Lemma ferret_stops ctx0 ctx1 uninit : both_stand r id w ctx0 ctx1 -> 2 * lpn_t lpn <= ot_num <= q -> power_of_two ot_num = false ->
  stops (FerretOtExtSend seeds check_seeds lpn ot_num false hs s sync_seed uninit ctx0).
Proof.
  intros S0 Hot Hp. pose proof cots_pos as Hc. pose proof F as [_ Hq Hn Ht Hn32 Hbl Hpow HB Hk HB0]. destruct base_sizes as [Z1 Z2]. pose proof batch_count_ok as [Bc0 Bc]. pose proof (log_pos _ _ Hbl ltac:(lia)) as Lb.
  assert (Hbt : bl <= bl * lpn_t lpn) by (pose proof (Z.mul_le_mono_nonneg_l 1 (lpn_t lpn) bl); lia). pose proof (pa_len _ _ _ _ _ _ _ _ _ P) as PL.
  destruct (base_slice 0 (bl * lpn_t lpn)) as (ms & mr & Em & Em' & Pm); [lia|lia|]. destruct (base_slice (bl * lpn_t lpn) (bl * lpn_t lpn + lpn_k lpn)) as (ss & sr & Es & Es' & Ps); [lia|lia|].
  unfold FerretOtExtSend. rewrite Z1. destruct (enough_ok w ctx0 ctx1 S0) as [-> _]. cbn [bind]. rewrite (u64_id (2 * _)), (proj2 (Z.leb_le _ _) (proj1 Hot)) by lia. cbn [ensure]. rewrite (ferret_sizes_ok lpn q bl B F ot_num Hnum). cbn [lift bind].
  assert (Hg : send_GetDelta s = Some delta) by exact (cots_delta _ _ _ _ _ _ _ _ (pair_cots _ _ _ _ _ _ _ _ _ P)). rewrite Hg, Em. cbn [lift bind]. rewrite (u64_id (bl * lpn_t lpn + _)), Es by lia. cbn [lift bind]. apply stops_bind.
  unfold FerretSend_expand. rewrite (proj1 (pair_copy _ _ _ _ _ _ _ _ _ Ps)). cbn [lift bind]. assert (K1 : w_ok (said r w 1 0 0)) by (apply (said_between r w (1 + batch_count * lpn_t lpn) 0 0); assumption || (pose proof (Z.mul_nonneg_nonneg batch_count (lpn_t lpn)); lia)).
  destruct (LocalLinearCode_encodes 10 sync_seed (lpn_n lpn) (lpn_k lpn) Hk) as (llc & rows & Ell & _).
  unfold ctx_SyncSeedSend. apply stops_assoc, (say_stops r id w ctx0 ctx1 _ _ K K1 S0). intros ctx. cbn [bind]. rewrite Ell. cbn [lift bind]. apply stops_bind.
  fold batch_count. destruct (Z.to_nat batch_count) as [|m] eqn:Eb; [lia|]. cbn [seq for_until]. apply stops_bind. apply (one_bin_stops ms mr 0 (Z.to_nat (bl * lpn_t lpn)) bs br); try assumption; try lia.
  - rewrite <- (Z.sub_0_r (bl * lpn_t lpn)). exact Pm.
  - intros i Hi. apply (pa_cor _ _ _ _ _ _ _ _ _ P). lia.
  - rewrite length_map, length_seq. lia.
Qed.

(** *** The conversations *)

Hypothesis Htail : power_of_two (last_bin q (ferret_tail lpn B ot_num)) = true.

Lemma expand_talk seed_s seed_r ms mr a m bs' br' ctx0 ctx1 out out' : both_stand r id w ctx0 ctx1 ->
  pair_at hs seed_s hr seed_r a m delta bs' br' -> Z.of_nat m = lpn_k lpn -> usable delta (bl * lpn_t lpn) hs ms hr mr -> Z.of_nat (length out) = ot_num -> Z.of_nat (length out') = ot_num ->
  exists k o o' h1 h1' c0 c1,
    duo r id w (FerretSend_expand seeds check_seeds lpn ot_num false s (bl * lpn_t lpn, B, batch_count) sync_seed seed_s ms (Some out) hs ctx0)
               (FerretRecv_expand lpn ot_num false (bl * lpn_t lpn, B, batch_count) seed_r mr (Some out') hr ctx1) (said r w k 0 0) (o, h1, c0) (o', h1', c1) /\
    0 <= k <= 1 + batch_count * lpn_t lpn /\ both_stand r id (said r w k 0 0) c0 c1 /\ Z.of_nat (length o) = ot_num /\ Z.of_nat (length o') = ot_num /\
    extends hs h1 /\ extends hr h1' /\ cor_upto delta (Z.to_nat ot_num) o o'.
Proof.
  intros S0 Ps Em U Lo Lo'. pose proof batch_count_ok as [Bc0 Bc]. pose proof F as [Hno Hq Hn Ht Hn32 Hbl Hpow HB Hk HB0]. destruct (pair_copy _ _ _ _ _ _ _ _ _ Ps) as [Cs Cr]. pose proof (pa_delta _ _ _ _ _ _ _ _ _ P) as Hd. pose proof (pa_len _ _ _ _ _ _ _ _ _ Ps) as PL.
  assert (Hbt : 0 <= batch_count * lpn_t lpn) by (apply Z.mul_nonneg_nonneg; lia). assert (K1 : w_ok (said r w 1 0 0)) by (apply (said_between r w (1 + batch_count * lpn_t lpn) 0 0); lia || assumption).
  destruct (sync_talk r id w ctx0 ctx1 sync_seed Hseed K K1 S0) as (a0 & a1 & D1 & S1). destruct (LocalLinearCode_encodes 10 sync_seed (lpn_n lpn) (lpn_k lpn) Hk) as (llc & rows & Ell & Hll).
  assert (Hg : send_GetDelta s = Some delta) by exact (cots_delta _ _ _ _ _ _ _ _ (pair_cots _ _ _ _ _ _ _ _ _ P)).
  destruct (batches_talk r id seeds check_seeds lpn ot_num delta llc rows s q (bl * lpn_t lpn) B hs hr Hno Hq Hn Ht Hn32 bl Hbl Hpow eq_refl HB Hk HB0 Hnum Htail Od Hd Hg Hll (Z.to_nat batch_count) 0 (said r w 1 0 0) (out, subspan bs' a m, ms, hs, a0) (out', subspan br' a m, mr, hr, a1)) as (k & [[[[o v] cs] h1] c0] & [[[[o' v'] cr] h1'] c1] & D & Hk2 & (S2 & L2 & L2' & X & X' & Co)).
  { cbn [Nat.add]. rewrite Z2Nat.id by lia. exact Bc. } { exact K1. } { rewrite Z2Nat.id, said_said by lia. exact Km. }
  { split; [|split; [lia|split; [intros X; exfalso; lia|]]].
    - split; [exact S1|]. split; [exact Lo|]. split; [exact Lo'|]. split; [split; auto|]. split; [split; auto|]. intros i Hi. exfalso. lia.
    - rewrite !length_subspan by lia. split; [exact Em|]. split; [exact Em|]. split; [|exact U]. intros i Hi. rewrite !at_subspan_at by lia. apply (pa_cor _ _ _ _ _ _ _ _ _ Ps). lia. }
  rewrite Z2Nat.id in Hk2 by lia. rewrite said_said in D, S2. rewrite !Z.add_0_r in D, S2. exists (1 + k), o, o', h1, h1', c0, c1. split; [|split; [lia|split; [exact S2|split; [exact L2|split; [exact L2'|split; [exact X|split; [exact X'|exact Co]]]]]]].
  unfold FerretSend_expand, FerretRecv_expand. rewrite Cs, Cr. cbn [lift bind]. assert (Kk : w_ok (said r w (1 + k) 0 0)) by (apply (said_between r w (1 + batch_count * lpn_t lpn) 0 0); lia || assumption).
  refine (duo_bind _ _ _ _ _ _ _ _ _ _ _ _ _ K K1 Kk D1 _). cbv beta iota. rewrite Ell. cbn [lift bind]. refine (duo_bind _ _ _ _ _ _ _ _ _ _ _ _ _ K1 Kk Kk D _). apply duo_done.
Qed.

(** Into new stores. *)
Lemma ferret_talk ctx0 ctx1 uninit uninit' : both_stand r id w ctx0 ctx1 -> 2 * lpn_t lpn <= ot_num ->
  exists k st st' h1 h1' c0 c1 o o',
    duo r id w (FerretOtExtSend seeds check_seeds lpn ot_num false hs s sync_seed uninit ctx0) (FerretOtExtRecv lpn ot_num false hr rv uninit' ctx1) (said r w k 0 0) (st, h1, c0) (st', h1', c1) /\
    0 <= k <= 1 + batch_count * lpn_t lpn /\ both_stand r id (said r w k 0 0) c0 c1 /\ pair_at h1 st h1' st' 0 (Z.to_nat ot_num) delta o o' /\ length o = Z.to_nat ot_num /\ length o' = Z.to_nat ot_num.
Proof.
  intros S0 Hot. pose proof cots_pos as Hc. pose proof F as [_ Hq Hn Ht Hn32 Hbl Hpow HB Hk HB0]. destruct base_sizes as [Z1 Z2].
  destruct (base_slice 0 (bl * lpn_t lpn)) as (ms & mr & Em & Em' & Pm); [lia|lia|]. destruct (base_slice (bl * lpn_t lpn) (bl * lpn_t lpn + lpn_k lpn)) as (ss & sr & Es & Es' & Ps); [lia|lia|].
  destruct (expand_talk ss sr ms mr _ _ bs br ctx0 ctx1 (map uninit (seq 0 (Z.to_nat ot_num))) (map uninit' (seq 0 (Z.to_nat ot_num))) S0 Ps) as (k & o & o' & h1 & h1' & c0 & c1 & D & Hk2 & S2 & Lo & Lo' & X & X' & Co);
    [lia|apply (slice_usable ms mr _ _ Pm); lia|rewrite length_map, length_seq; lia|rewrite length_map, length_seq; lia|].
  pose proof (pa_delta _ _ _ _ _ _ _ _ _ P) as Hd.
  destruct (make_pair h1 h1' o o' delta) as (st & h2 & st' & h2' & Ms & Mr & P2 & _ & _); [lia|lia|lia|exact Hd|replace (length o) with (Z.to_nat ot_num) by lia; exact Co|]. replace (length o) with (Z.to_nat ot_num) in P2 by lia.
  exists k, st, st', h2, h2', c0, c1, o, o'. split; [|split; [exact Hk2|split; [exact S2|split; [exact P2|lia]]]].
  unfold FerretOtExtSend, FerretOtExtRecv. rewrite Z1, Z2. destruct (enough_ok w ctx0 ctx1 S0) as [-> ->]. cbn [bind]. rewrite !(u64_id (2 * _)), !(proj2 (Z.leb_le _ _) Hot) by lia. cbn [ensure]. rewrite (ferret_sizes_ok lpn q bl B F ot_num Hnum). cbn [lift bind].
  assert (Hg : send_GetDelta s = Some delta) by exact (cots_delta _ _ _ _ _ _ _ _ (pair_cots _ _ _ _ _ _ _ _ _ P)). rewrite Hg, Em, Em'. cbn [lift bind]. rewrite (u64_id (bl * lpn_t lpn + _)), Es, Es' by lia. cbn [lift bind].
  assert (Kk : w_ok (said r w k 0 0)) by (apply (said_between r w (1 + batch_count * lpn_t lpn) 0 0); lia || assumption). fold batch_count.
  refine (duo_bind _ _ _ _ _ _ _ _ _ _ _ _ _ K Kk Kk D _). cbv beta iota. rewrite Ms, Mr. cbn [lift bind]. apply duo_done.
Qed.

(** Into spans; the trees take the transfers at the start of the base stores again. *)
Lemma ferret_cheetah_talk ctx0 ctx1 out out' : both_stand r id w ctx0 ctx1 -> Z.of_nat (length out) = ot_num -> Z.of_nat (length out') = ot_num ->
  exists k o o' h1 h1' c0 c1,
    duo r id w (FerretOtExtSend_cheetah seeds check_seeds lpn ot_num false hs s sync_seed out ctx0) (FerretOtExtRecv_cheetah lpn ot_num false hr rv out' ctx1) (said r w k 0 0) (o, h1, c0) (o', h1', c1) /\
    0 <= k <= 1 + batch_count * lpn_t lpn /\ both_stand r id (said r w k 0 0) c0 c1 /\ Z.of_nat (length o) = ot_num /\ Z.of_nat (length o') = ot_num /\ cor_upto delta (Z.to_nat ot_num) o o'.
Proof.
  intros S0 Lo Lo'. pose proof cots_pos as Hc. pose proof F as [_ Hq Hn Ht Hn32 Hbl Hpow HB Hk HB0]. destruct base_sizes as [Z1 Z2].
  destruct (base_slice 0 (lpn_k lpn)) as (ss & sr & Es & Es' & Ps); [lia|lia|]. destruct (base_slice (lpn_k lpn) (lpn_k lpn + bl * lpn_t lpn)) as (ms & mr & Em & Em' & Pm); [lia|lia|].
  destruct (expand_talk ss sr ms mr _ _ bs br ctx0 ctx1 out out' S0 Ps) as (k & o & o' & h1 & h1' & c0 & c1 & D & Hk2 & S2 & L1 & L1' & X & X' & Co); [lia|apply (slice_usable ms mr _ _ Pm); lia|exact Lo|exact Lo'|].
  exists k, o, o', h1, h1', c0, c1. split; [|split; [exact Hk2|split; [exact S2|split; [exact L1|split; [exact L1'|exact Co]]]]].
  unfold FerretOtExtSend_cheetah, FerretOtExtRecv_cheetah. rewrite Z1, Z2. destruct (enough_ok w ctx0 ctx1 S0) as [-> ->]. cbn [bind]. rewrite (ferret_sizes_ok lpn q bl B F ot_num Hnum). cbn [lift bind]. rewrite Es, Es'. cbn [lift bind]. rewrite (u64_id (lpn_k lpn + _)), Em, Em' by lia. cbn [lift bind].
  rewrite Lo, Lo', Z.eqb_refl. exact D.
Qed.

(** Into given stores. *)
Lemma ferret_to_talk ctx0 ctx1 p p' b' buf buf' d0 : both_stand r id w ctx0 ctx1 -> 2 * lpn_t lpn <= ot_num -> get_vector hs p = Some buf -> get_vector hr p' = Some buf' -> Z.of_nat (length buf) = ot_num -> Z.of_nat (length buf') = ot_num ->
  let sl := Slice_ 0 ot_num 0 ot_num in
  exists k h1 h1' c0 c1 o o',
    duo r id w (FerretOtExtSend_to seeds check_seeds lpn ot_num false hs s (SendStore sl Compact d0 p) sync_seed ctx0) (FerretOtExtRecv_to lpn ot_num false hr rv (RecvStore sl Compact b' p') ctx1) (said r w k 0 0)
      (SendStore sl Compact delta p, h1, c0) (RecvStore sl Compact b' p', h1', c1) /\
    0 <= k <= 1 + batch_count * lpn_t lpn /\ both_stand r id (said r w k 0 0) c0 c1 /\ pair_at h1 (SendStore sl Compact delta p) h1' (RecvStore sl Compact b' p') 0 (Z.to_nat ot_num) delta o o'.
Proof.
  intros S0 Hot Gp Gp' Lb Lb' sl. pose proof cots_pos as Hc. pose proof F as [_ Hq Hn Ht Hn32 Hbl Hpow HB Hk HB0]. destruct base_sizes as [Z1 Z2].
  destruct (base_slice 0 (bl * lpn_t lpn)) as (ms & mr & Em & Em' & Pm); [lia|lia|]. destruct (base_slice (bl * lpn_t lpn) (bl * lpn_t lpn + lpn_k lpn)) as (ss & sr & Es & Es' & Ps); [lia|lia|].
  destruct (expand_talk ss sr ms mr _ _ bs br ctx0 ctx1 buf buf' S0 Ps) as (k & o & o' & h1 & h1' & c0 & c1 & D & Hk2 & S2 & Lo & Lo' & X & X' & Co); [lia|apply (slice_usable ms mr _ _ Pm); lia|exact Lb|exact Lb'|].
  pose proof (pa_delta _ _ _ _ _ _ _ _ _ P) as Hd. pose proof (proj1 X _ _ Gp) as Gq. pose proof (proj1 X' _ _ Gp') as Gq'.
  assert (W : write_span buf 0 o = o) by (unfold write_span; cbn [firstn app Nat.add]; rewrite skipn_all2 by lia; apply app_nil_r). assert (W' : write_span buf' 0 o' = o') by (unfold write_span; cbn [firstn app Nat.add]; rewrite skipn_all2 by lia; apply app_nil_r).
  exists k, (set_vector h1 p o), (set_vector h1' p' o'), c0, c1, o, o'. split; [|split; [exact Hk2|split; [exact S2|]]].
  - unfold FerretOtExtSend_to, FerretOtExtRecv_to. rewrite Z1, Z2. destruct (enough_ok w ctx0 ctx1 S0) as [-> ->]. cbn [bind]. rewrite !(u64_id (2 * _)), !(proj2 (Z.leb_le _ _) Hot) by lia. cbn [ensure s_type r_type is_compact]. unfold send_Size, recv_Size. cbn [s_type is_compact s_slice r_slice internal_use_size_ sl]. rewrite Z.eqb_refl. cbn [ensure]. rewrite (ferret_sizes_ok lpn q bl B F ot_num Hnum). cbn [lift bind].
    assert (Hg : send_GetDelta s = Some delta) by exact (cots_delta _ _ _ _ _ _ _ _ (pair_cots _ _ _ _ _ _ _ _ _ P)). rewrite Hg. cbn [lift bind]. unfold send_SetDelta, YACL_ENFORCE. rewrite (proj2 (Z.eqb_neq delta 0)) by lia. cbn [negb lift bind s_slice s_type s_blk_buf]. rewrite Em, Em'. cbn [lift bind]. rewrite (u64_id (bl * lpn_t lpn + _)), Es, Es' by lia. cbn [lift bind].
    assert (B1 : send_GetBlkBufSpan hs (SendStore sl Compact delta p) = Some buf /\ recv_GetBlkBufSpan hr (RecvStore sl Compact b' p') = Some buf').
    { unfold send_GetBlkBufSpan, recv_GetBlkBufSpan, YACL_ENFORCE, IsSliced, sl. cbn [s_slice r_slice s_blk_buf r_blk_buf internal_buf_ctr_ internal_buf_size_ Z.eqb negb]. rewrite Gp, Gp'. unfold vector_copy. rewrite !(proj2 (Z.leb_le _ _)) by lia. cbn [andb]. rewrite Z.sub_0_r. change (Z.to_nat 0) with 0%nat. rewrite !skipn_O. rewrite !firstn_all2 by lia. now split. }
    destruct B1 as [-> ->]. assert (Kk : w_ok (said r w k 0 0)) by (apply (said_between r w (1 + batch_count * lpn_t lpn) 0 0); lia || assumption). fold batch_count.
    refine (duo_bind _ _ _ _ _ _ _ _ _ _ _ _ _ K Kk Kk D _). cbv beta iota. cbn [s_blk_buf r_blk_buf]. rewrite Gq, Gq'. cbn [lift bind]. rewrite W, W'. apply duo_done.
  - assert (R : same_buf p p = true) by (destruct p; [apply Nat.eqb_refl|discriminate]). assert (R' : same_buf p' p' = true) by (destruct p'; [apply Nat.eqb_refl|discriminate]).
    split; cbn [s_blk_buf r_bit_buf r_blk_buf]; [unfold sl; cbn [Nat.add]; rewrite Z2Nat.id by lia; reflexivity|unfold sl; cbn [Nat.add]; rewrite Z2Nat.id by lia; reflexivity|rewrite (get_set_vector h1 p o p _ Gq), R; reflexivity|rewrite (get_set_vector h1' p' o' p' _ Gq'), R'; reflexivity|lia|lia|exact Hd|]. intros i Hi. apply Co. lia.
Qed.
End Extension.
