(* ===== verification/FerretKernel.v ===== *)
(** The kernel with Ferret ([init] and [eval_cot_random_choice] of
    [mpc/ot_kernel.cc]): it starts from the transfers of another kernel, SoftSpoken in
    the code, and is itself one that the executors can use. *)
From Stdlib Require Import ZArith Lia List Bool.
From S2P Require Import Prelude.
From S2P Require Import Errors.
From S2P Require Import Int128.
From S2P Require Import Cipher.
From S2P Require Import OtStore.
From S2P Require Import OtExt.
From S2P Require Import Parties.
From S2P Require Import Context.
From S2P Require Import Duo.
From S2P Require Import OtKernel.
From S2P Require Import SsExecutor.
From S2P Require Import ChosenOt.
From S2P Require Import Roles.
From S2P Require Import Gywz.
From S2P Require Import MpCot.
From S2P Require Import Ferret.
Import ListNotations.
#[local] Open Scope Z_scope.

(** [init_ot_cache_], with its heap.  That the kernel is initialised is that it has one.
    The checks on the store of the caller, its size, its type and that it is no slice,
    hold for the stores that [eval_rot] and [init] make, and are left to them. *)
Inductive ot_cache := SendCache (h : heap) (st : OtSendStore) | RecvCache (h : heap) (st : OtRecvStore).

Section Code.
Context {C : Cipher} {Cd : Codec} (K : CotKernel).
(** The random blocks, and what a new vector holds. *)
Variables (seeds : nat -> nat -> Z) (check_seeds : nat -> Z) (sync_seed : Z) (uninit : nat -> Z).

Definition OtKernel_init (is_sender : bool) (ctx : Context) : prog (ot_cache * Context) :=
  do required_ot_num <- lift (FerretCotHelper LpnParam_GetDefault (lpn_n LpnParam_GetDefault) false);
  do (ss_ote_kernel, ctx) <- kernel_init is_sender ctx;
  if is_sender then
    do (blocks, delta, ctx) <- eval_cot_send ss_ote_kernel ctx required_ot_num;
    do (st, h) <- lift (MakeCompactOtSendStore (Heap [] []) blocks delta);
    Done (SendCache h st, ctx)
  else
    do (blocks, ctx) <- eval_cot_recv ss_ote_kernel ctx required_ot_num;
    do (st, h) <- lift (MakeCompactOtRecvStore (Heap [] []) blocks);
    Done (RecvCache h st, ctx).

Definition ferret_eval_cot_send (cache : ot_cache) (ctx : Context) (ot_num : Z) : prog (list Z * Z * Context) :=
  match cache with
  | SendCache h st =>
      do (out, h, ctx) <- FerretOtExtSend seeds check_seeds LpnParam_GetDefault ot_num false h st sync_seed uninit ctx;
      do blocks <- lift (get_vector h (s_blk_buf out));
      Done (blocks, delta_ out, ctx)
  | RecvCache _ _ => Fail
  end.
Definition ferret_eval_cot_recv (cache : ot_cache) (ctx : Context) (ot_num : Z) : prog (list Z * Context) :=
  match cache with
  | RecvCache h st =>
      do (out, h, ctx) <- FerretOtExtRecv LpnParam_GetDefault ot_num false h st uninit ctx;
      do blocks <- lift (get_vector h (r_blk_buf out));
      Done (blocks, ctx)
  | SendCache _ _ => Fail
  end.

Definition FerretKernel : CotKernel := {|
  kernel := ot_cache;
  kernel_init := OtKernel_init;
  eval_cot_send := ferret_eval_cot_send;
  eval_cot_recv := ferret_eval_cot_recv |}.
End Code.

(** ** The law *)

(** What Ferret asks of the kernel it starts from: transfers with an odd difference, for
    either rank, and names left for its own messages. *)
Definition ferret_messages : Z := 2 ^ 19.
Class BaseKernelLaws (K : CotKernel) : Prop := base_law : forall r id ctx0 ctx1 num, kMinOts <= num < 2 ^ 31 -> both_stand r id (Traffic 0 0 0) ctx0 ctx1 ->
  exists w1 ks kr a0 a1, duo r id (Traffic 0 0 0) (kernel_init true ctx0) (kernel_init false ctx1) w1 (ks, a0) (kr, a1) /\
  exists w' blocks delta rblocks c0 c1, duo r id w1 (eval_cot_send ks a0 num) (eval_cot_recv kr a1 num) w' (blocks, delta, c0) (rblocks, c1) /\
    both_stand r id w' c0 c1 /\ w_ok (said r w' ferret_messages ferret_messages 0) /\ cot_result num blocks delta rblocks /\ Z.odd delta = true.

Lemma duo_le {A B} r id w w' (p : prog A) (q : prog B) a b : duo r id w p q w' a b -> w_le w w'.
Proof. unfold duo, conv. destruct r; intros (? & ? & ? & ? & ? & ?); assumption. Qed.
Lemma w_ok_le w w' : 0 <= to_1 w -> 0 <= to_0 w -> 0 <= children w -> w_le w w' -> w_ok w' -> w_ok w.
Proof. unfold w_ok, w_le. lia. Qed.

Lemma result_cor num blocks delta rblocks : cot_result num blocks delta rblocks -> cor_upto delta (length blocks) blocks rblocks.
Proof. intros H i Hi. exact (correlated_blocks num blocks delta rblocks i H Hi). Qed.
Lemma cor_result num blocks delta rblocks : Z.of_nat (length blocks) = num -> Z.of_nat (length rblocks) = num -> 0 < delta < 2 ^ 128 -> cor_upto delta (length blocks) blocks rblocks -> cot_result num blocks delta rblocks.
Proof.
  intros L1 L2 Hd H. split; [exact L1|]. split; [exact L2|]. split; [exact Hd|]. unfold correlated. assert (El : length blocks = length rblocks) by lia. clear - El H. revert rblocks El H; induction blocks as [|x l IH]; intros [|y l'] El H; try discriminate; constructor.
  - exact (H 0%nat ltac:(cbn; lia)).
  - apply IH; [now injection El|]. intros i Hi. exact (H (S i) ltac:(cbn; lia)).
Qed.

Section Law.
Context {C : Cipher} {L : CipherLaws C} {Cd : Codec} {CL : CodecLaws Cd} (K : CotKernel) {KL : BaseKernelLaws K}.
Variables (seeds : nat -> nat -> Z) (check_seeds : nat -> Z) (sync_seed : Z) (uninit : nat -> Z).
Hypothesis Hseed : in128 sync_seed.
#[local] Instance ferret : CotKernel := FerretKernel K seeds check_seeds sync_seed uninit.

(** The numbers whose last bin of the default parameters is a power of two. *)
Definition kernel_fits (num : Z) : Prop := kMinOts <= num < 2 ^ 31 /\ power_of_two (last_bin 8192 (ferret_tail LpnParam_GetDefault 10017120 num)) = true.

Lemma ferret_init r id ctx0 ctx1 : both_stand r id (Traffic 0 0 0) ctx0 ctx1 ->
  exists w2 hs s hr rv c0 c1 N bs br delta, duo r id (Traffic 0 0 0) (kernel_init true ctx0) (kernel_init false ctx1) w2 (SendCache hs s, c0) (RecvCache hr rv, c1) /\
    both_stand r id w2 c0 c1 /\ w_ok w2 /\ w_ok (said r w2 ferret_messages ferret_messages 0) /\ pair_at hs s hr rv 0 N delta bs br /\ Z.of_nat N = 468640 /\ Z.odd delta = true.
Proof.
  intros S0. set (req := 468640). destruct (KL r id ctx0 ctx1 req ltac:(unfold kMinOts, req; lia) S0) as (w1 & ks & kr & a0 & a1 & D1 & w2 & bs & delta & br & c0 & c1 & D2 & S2 & K2 & R & Od).
  pose proof R as (Lb & Lb' & Hd & _). pose proof (duo_le _ _ _ _ _ _ _ _ D1) as Le1. pose proof (duo_le _ _ _ _ _ _ _ _ D2) as Le2.
  assert (Ko : w_ok w2 /\ w_ok w1) by (unfold w_ok, w_le, said, w_add, ferret_messages in *; destruct r; cbn in *; lia). destruct Ko as [Ko2 Ko1]. assert (Ko0 : w_ok (Traffic 0 0 0)) by (unfold w_ok; cbn; lia).
  destruct (make_pair (Heap [] []) (Heap [] []) bs br delta) as (s & hs & rv & hr & Ms & Mr & P & _ & _); [lia|lia|unfold req in *; lia|exact Hd|exact (result_cor _ _ _ _ R)|].
  exists w2, hs, s, hr, rv, c0, c1, (length bs), bs, br, delta. split; [|repeat (split; [assumption|]); assumption].
  cbn [kernel_init ferret FerretKernel]. unfold OtKernel_init. change (FerretCotHelper LpnParam_GetDefault (lpn_n LpnParam_GetDefault) false) with (Some req). cbn [lift bind].
  refine (duo_bind _ _ _ _ _ _ _ _ _ _ _ _ _ Ko0 Ko1 Ko2 D1 _). cbv beta iota. refine (duo_bind _ _ _ _ _ _ _ _ _ _ _ _ _ Ko1 Ko2 Ko2 D2 _). cbv beta iota. rewrite Ms, Mr. cbn [lift bind]. apply duo_done.
Qed.

(** The messages of the batches have names. *)
Lemma batches_named r w num : kMinOts <= num < 2 ^ 31 -> w_ok w -> w_ok (said r w ferret_messages ferret_messages 0) ->
  1 + batch_count 10017120 num * 1280 <= 2 ^ 19 - 1 /\ w_ok (said r w (1 + batch_count 10017120 num * 1280) 0 0).
Proof.
  intros Hn Ko K2. unfold kMinOts in Hn. assert (Bc : 0 <= batch_count 10017120 num <= 216) by (unfold batch_count; split; [apply Z.div_pos; lia|apply Z.lt_succ_r, Z.div_lt_upper_bound; lia]).
  split; [lia|]. apply (said_between r w ferret_messages ferret_messages 0); (unfold ferret_messages; lia) || assumption.
Qed.

Lemma ferret_law r id ctx0 ctx1 num : kernel_fits num -> both_stand r id (Traffic 0 0 0) ctx0 ctx1 ->
  exists w1 ks kr a0 a1, duo r id (Traffic 0 0 0) (kernel_init true ctx0) (kernel_init false ctx1) w1 (ks, a0) (kr, a1) /\
  exists w' blocks delta rblocks c0 c1, duo r id w1 (eval_cot_send ks a0 num) (eval_cot_recv kr a1 num) w' (blocks, delta, c0) (rblocks, c1) /\
    both_stand r id w' c0 c1 /\ w_ok (w_add w' 1 1 0) /\ cot_result num blocks delta rblocks.
Proof.
  intros [Hn Ht] S0. destruct (ferret_init r id ctx0 ctx1 S0) as (w2 & hs & s & hr & rv & c0 & c1 & N & bs & br & delta & D1 & S2 & Ko2 & K2 & P & HN & Od). destruct (batches_named r w2 num Hn Ko2 K2) as [Bc Km]. unfold kMinOts in Hn.
  destruct (ferret_talk r id seeds check_seeds LpnParam_GetDefault 8192 13 10017120 num delta default_fits ltac:(lia) Od hs s hr rv N bs br P) with (sync_seed := sync_seed) (w := w2) (ctx0 := c0) (ctx1 := c1) (uninit := uninit) (uninit' := uninit)
    as (k & st & st' & h1 & h1' & d0 & d1 & o & o' & D3 & Hk & S3 & P3 & L3 & L3'); [rewrite HN; discriminate|exact Hseed|exact Ko2|exact Km|exact Ht|exact S2|change (lpn_t LpnParam_GetDefault) with 1280; lia|]. change (lpn_t LpnParam_GetDefault) with 1280 in Hk.
  assert (Kk : w_ok (said r w2 k 0 0)) by (apply (said_between r w2 (1 + batch_count 10017120 num * 1280) 0 0); lia || assumption).
  exists w2, (SendCache hs s), (RecvCache hr rv), c0, c1. split; [exact D1|]. exists (said r w2 k 0 0), o, delta, o', d0, d1. split; [|split; [exact S3|split]].
  - cbn [eval_cot_send eval_cot_recv ferret FerretKernel]. unfold ferret_eval_cot_send, ferret_eval_cot_recv. refine (duo_bind _ _ _ _ _ _ _ _ _ _ _ _ _ Ko2 Kk Kk D3 _). cbv beta iota.
    rewrite (pa_bs _ _ _ _ _ _ _ _ _ P3), (pa_br _ _ _ _ _ _ _ _ _ P3), (pa_send _ _ _ _ _ _ _ _ _ P3). cbn [lift bind delta_]. apply duo_done.
  - clear - Hk Bc K2 Ko2. unfold w_ok, said, w_add, ferret_messages in *. destruct r; cbn in *; lia.
  - apply cor_result; [lia|lia|exact (pa_delta _ _ _ _ _ _ _ _ _ P)|]. intros i Hi. apply (pa_cor _ _ _ _ _ _ _ _ _ P3). lia.
Qed.

Lemma FerretKernel_laws num : kernel_fits num -> CotKernelLawsAt (FerretKernel K seeds check_seeds sync_seed uninit) num.
Proof.
  intros Hn. split; intros id ctx0 ctx1 S0 S1.
  - destruct (ferret_law false id ctx0 ctx1 num Hn (conj S0 S1)) as (w1 & ks & kr & a0 & a1 & D & w' & bl & d & rb & c0 & c1 & D2 & [T0 T1] & K2 & R). exists w1, ks, kr, a0, a1. split; [exact D|]. exists w', bl, d, rb, c0, c1. repeat (split; [assumption|]). exact R.
  - destruct (ferret_law true id ctx1 ctx0 num Hn (conj S1 S0)) as (w1 & ks & kr & a0 & a1 & D & w' & bl & d & rb & c0 & c1 & D2 & [T0 T1] & K2 & R). exists w1, ks, kr, a1, a0. split; [exact D|]. exists w', bl, d, rb, c1, c0. repeat (split; [assumption|]). exact R.
Qed.

(** A number of one bin that is no power of two: the sender's evaluation is undefined. *)
Lemma ferret_kernel_stops r id ctx0 ctx1 : both_stand r id (Traffic 0 0 0) ctx0 ctx1 ->
  exists w1 ks kr a0 a1, duo r id (Traffic 0 0 0) (kernel_init true ctx0) (kernel_init false ctx1) w1 (ks, a0) (kr, a1) /\
    forall num, kMinOts <= num <= 8192 -> power_of_two num = false -> stops (eval_cot_send ks a0 num).
Proof.
  intros S0. destruct (ferret_init r id ctx0 ctx1 S0) as (w2 & hs & s & hr & rv & c0 & c1 & N & bs & br & delta & D1 & S2 & Ko2 & K2 & P & HN & Od). exists w2, (SendCache hs s), (RecvCache hr rv), c0, c1. split; [exact D1|].
  intros num Hn Hp. destruct (batches_named r w2 num ltac:(unfold kMinOts in *; lia) Ko2 K2) as [_ Km]. unfold kMinOts in Hn. cbn [eval_cot_send ferret FerretKernel]. unfold ferret_eval_cot_send. apply stops_bind.
  apply (ferret_stops r id seeds check_seeds LpnParam_GetDefault 8192 13 10017120 num delta default_fits) with (hr := hr) (rv := rv) (N := N) (bs := bs) (br := br) (w := w2) (ctx1 := c1); try assumption; cbn [lpn_k lpn_t LpnParam_GetDefault]; lia.
Qed.
End Law.
