(* ===== verification/Correctness.v ===== *)
(** The properties of the simplest-OT implementation, from the whole transfer
    down to the field arithmetic, with their instances at concrete inputs. *)
From Stdlib Require Import ZArith Lia List Bool Zmod.
From S2P Require Import Prelude.
From S2P Require Import PrimeP.
From S2P Require Import Fp.
From S2P Require Import AbGroup.
From S2P Require Import Edwards.
From S2P Require Import Fe.
From S2P Require Import FeBytes.
From S2P Require Import FePow.
From S2P Require Import Ge.
From S2P Require Import GeBytes.
From S2P Require Import BaseTable.
From S2P Require Import ScalarMult.
From S2P Require Import Slide.
From S2P Require Import VarTime.
From S2P Require Import Keccak.
From S2P Require Import Sc.
From S2P Require Import SimplestOt.
From S2P Require Import PortableOt.
Import ListNotations.

(** Concrete data for the instances. *)
Definition zeros32 : list Z := repeat 0 32.
Definition ones32 : list Z := repeat 1 32.

Lemma bytes_repeat n v : byte v -> bytes n (repeat v n).
Proof. intros H. split; [apply repeat_length|]. apply Forall_forall. intros x Hx. now apply repeat_spec in Hx as ->. Qed.

Lemma zeros32_bytes : bytes 32 zeros32.
Proof. apply bytes_repeat. split; [easy|reflexivity]. Qed.

Lemma ones32_bytes : bytes 32 ones32.
Proof. apply bytes_repeat. split; [easy|reflexivity]. Qed.

Lemma decodes_decodable s P : decodes s P -> ~ undecodable s.
Proof. intros [E _] N. apply (N (px P)). rewrite <- E. apply pt_on. Qed.

(** A stand-in for the hash library. *)
Definition toy_hash (l : list Z) : list Z := firstn 32 (rev l).

(** ** The transfer *)

(** C1. Correctness of the batched oblivious transfer: whatever randomness both
    parties draw, however the local variables are initialised and whatever the
    hash function is, the run over a lossless channel raises no exception, the
    batch has one entry per choice bit, and block i of the receiver is block
    choice(i) of the sender's i-th pair. *)
Theorem transfer_correct (Blake3 : list Z -> list Z) rnd rnds r0 u u' choices :
  bytes 32 rnd -> (forall i, bytes 32 (rnds i)) ->
  exists send_blocks recv_blocks,
    transfer Blake3 rnd rnds r0 u u' choices = Some (send_blocks, recv_blocks) /\
    length send_blocks = length choices /\ length recv_blocks = length choices /\
    forall i, (i < length choices)%nat ->
      nth i recv_blocks 0 =
      (if nth i choices false then snd else fst) (nth i send_blocks (0, 0)).
Proof.
  intros Hr Hrs. rewrite (transfer_ok Blake3 rnd rnds r0 u u' choices Hr Hrs).
  set (y := le_val (sc_random rnd 0)). do 2 eexists. split; [reflexivity|].
  split; [apply map_combine_length|]. split; [apply map_combine_length|]. intros i Hi.
  set (f := fun '(j, c) => let '(k0, k1) := _ in _). set (g := fun '(j, c) => block_of _ _ _).
  rewrite (nth_indep _ 0 (g (0%nat, false))) by (rewrite map_combine_length; exact Hi).
  rewrite (nth_indep _ (0, 0) (f (0%nat, false))) by (rewrite map_combine_length; exact Hi).
  rewrite !map_nth, combine_nth, seq_nth by (rewrite ?length_seq; auto).
  unfold f, g, choice_of. rewrite spec_agree. fold y.
  destruct (spec_sender _ _ _ _) as [k0 k1]. now destruct (nth i choices false).
Qed.

Lemma transfer_correct_witness :
  exists sb rb, transfer toy_hash zeros32 (fun _ => ones32) (Receiver [] ge_p3_0 ge_p3_0 []) ge_p3_0 ge_p3_0
      [false; true] = Some (sb, rb) /\ length sb = 2%nat /\
    nth 0 rb 0 = fst (nth 0 sb (0, 0)) /\ nth 1 rb 0 = snd (nth 1 sb (0, 0)).
Proof.
  destruct (transfer_correct toy_hash zeros32 (fun _ => ones32) (Receiver [] ge_p3_0 ge_p3_0 []) ge_p3_0 ge_p3_0
    [false; true] zeros32_bytes (fun _ => ones32_bytes)) as (sb & rb & E & L & _ & H).
  exists sb, rb. split; [exact E|]. split; [exact L|]. split; [apply (H 0%nat)|apply (H 1%nat)]; repeat constructor.
Defined.

(** C2. Either party against any peer.  After its first message, [Send] raises an
    exception exactly when the reply has the wrong length or one of its 32-byte
    strings denotes no point of the curve; otherwise it outputs, for the points R_i
    received, the key blocks of the abstract protocol.  [Recv] raises an exception
    exactly when the first message is not the 32-byte encoding of a point; otherwise
    it replies with the encodings of its points R_i and outputs the key blocks the
    abstract protocol gives for the sender's point. *)
Theorem any_peer_correct :
  (forall (Blake3 : list Z -> list Z) rnd u kNumOt buffer,
    bytes 32 rnd -> Forall byte buffer ->
    let y := le_val (sc_random rnd 0) in
    let sender := fst (Send_first rnd) in
    ((length buffer <> kNumOt * PACKBYTES)%nat /\ Send_rest Blake3 u sender kNumOt buffer = None) \/
    (length buffer = kNumOt * PACKBYTES)%nat /\
    ((exists k, (k < kNumOt)%nat /\ undecodable (chunk k buffer) /\ Send_rest Blake3 u sender kNumOt buffer = None) \/
     (exists Rs, length Rs = kNumOt /\ (forall k, (k < kNumOt)%nat -> decodes (chunk k buffer) (nth k Rs pzero)) /\
        Send_rest Blake3 u sender kNumOt buffer = Some (blocks_of Blake3 y 0 Rs)))) /\
  (forall (Blake3 : list Z -> list Z) r0 u rnds buffer choices,
    Forall byte buffer -> (forall i, bytes 32 (rnds i)) ->
    (Recv Blake3 r0 u rnds buffer choices = None /\ (length buffer <> 32%nat \/ undecodable buffer)) \/
    (length buffer = 32%nat /\ exists S, decodes buffer S /\
       let R := fun i c => spec_R B (le_val (sc_random (rnds i) 1)) c S in
       let turns := combine (seq 0 (length choices)) choices in
       Recv Blake3 r0 u rnds buffer choices =
       Some (concat (map (fun '(i, c) => encode (R i c)) turns),
             map (fun '(i, c) => block_of Blake3
               (spec_receiver B hash_points (le_val (sc_random (rnds i) 1)) c S) i) turns))).
Proof.
  split.
  { intros Blake3 rnd u kNumOt buffer. intros Hr Hb y sender. pose proof (genS_ok rnd Hr) as G. unfold sender, Send_first.
    destruct (portable_sender_genS rnd) as [s pk]. destruct G as [HS _]. cbn [fst]. unfold Send_rest.
    destruct (Nat.eqb_spec (length buffer) (kNumOt * PACKBYTES)) as [L|L]; cbn [negb]; [right|left; split; auto].
    split; [exact L|]. destruct (send_loop_any Blake3 y u s kNumOt HS 0 buffer Hb L) as [H|H]; [right|left]; exact H. }
  { intros Blake3 r0 u rnds buffer choices. intros Hb Hr. unfold Recv. destruct (Nat.eqb_spec (length buffer) PACKBYTES) as [L|L]; cbn [negb]; [|left; auto].
    assert (H : bytes 32 buffer) by (split; assumption).
    set (rcv := Receiver buffer _ _ _).
    destruct (procS_check_ok u rcv H) as [(S & r' & D & E & HR) | [N E]]; rewrite E; cbn [negb]; [right|left; auto].
    split; [exact L|]. exists S. split; [exact D|].
    now rewrite (recv_loop_ok Blake3 S rnds choices Hr 0 r' HR). }
Qed.

Lemma any_peer_correct_witness :
  (Send_rest toy_hash ge_p3_0 (fst (Send_first zeros32)) 1 (encode pzero) <> None) /\
  (Recv toy_hash (Receiver [] ge_p3_0 ge_p3_0 []) ge_p3_0 (fun _ => ones32) [] [true] = None).
Proof.
  split.
  { destruct ((proj1 any_peer_correct) toy_hash zeros32 ge_p3_0 1%nat (encode pzero) zeros32_bytes (proj2 (encode_bytes pzero)))
      as [[L _] | [_ [(k & Hk & N & _) | (Rs & _ & _ & E)]]].
    - destruct (L (proj1 (encode_bytes pzero))).
    - replace k with 0%nat in N by lia. destruct (encode_decodable pzero). exact N.
    - rewrite E. discriminate. }
  { destruct ((proj2 any_peer_correct) toy_hash (Receiver [] ge_p3_0 ge_p3_0 []) ge_p3_0 (fun _ => ones32) [] [true]
      (Forall_nil _) (fun _ => ones32_bytes)) as [[E _] | [L _]]; [exact E|discriminate L]. }
Defined.

(** C3. The calls of the two parties refine the abstract protocol.  The sender's first
    message is the encoding of S = yB, and [portable_sender_keygen] either gives the
    abstract key pair for the point R it was sent, overwriting the message by the
    encoding of 8R, or exits because the string denotes no point.  [procS] exits
    exactly when the string it was sent denotes no point S; then [rsgen] sends the
    encoding of R = xB or 8S - xB, and [keygen] gives the abstract key. *)
Theorem parties_refine :
  (forall rnd u Rs_pack keys,
    bytes 32 rnd -> bytes 32 Rs_pack ->
    let y := le_val (sc_random rnd 0) in
    let '(s, S_pack) := portable_sender_genS rnd in
    S_pack = encode (spec_S B y) /\
    ((exists R, decodes Rs_pack R /\
        portable_sender_keygen u s Rs_pack keys = Some (encode (zmul 8 R), spec_sender B hash_points y R)) \/
     (undecodable Rs_pack /\ portable_sender_keygen u s Rs_pack keys = None))) /\
  (forall u r rnd (c : bool),
    bytes 32 (r_S_pack r) -> bytes 32 rnd ->
    let x := le_val (sc_random rnd 1) in
    (undecodable (r_S_pack r) /\ portable_receiver_procS u r = None) \/
    (exists S r1, decodes (r_S_pack r) S /\ portable_receiver_procS u r = Some r1 /\
       let '(r2, Rs_pack) := portable_receiver_rsgen rnd r1 (if c then 1 else 0) in
       Rs_pack = encode (spec_R B x c S) /\
       snd (portable_receiver_keygen r2) = spec_receiver B hash_points x c S)).
Proof.
  split.
  { intros rnd u Rs_pack keys. intros Hr Hp y. pose proof (genS_ok rnd Hr) as G. destruct (portable_sender_genS rnd) as [s pk].
    destruct G as [HS ->]. split; [reflexivity|]. unfold portable_sender_keygen.
    destruct (sender_keygen_ok u s y Rs_pack keys HS Hp) as [(R & D & E) | [N E]]; rewrite E; cbn [negb].
    - left. exists R. auto.
    - right. auto. }
  { intros u r rnd c. intros Hs Hr x. unfold portable_receiver_procS.
    destruct (procS_check_ok u r Hs) as [(S & r1 & D & E & R1) | [N E]]; rewrite E; cbn [negb]; [right|left; auto].
    exists S, r1. split; [exact D|]. split; [reflexivity|]. pose proof (rsgen_ok rnd r1 S c Hr R1) as G.
    destruct (portable_receiver_rsgen rnd r1 (if c then 1 else 0)) as [r2 pk]. destruct G as [G ->].
    split; [reflexivity|]. now apply receiver_keygen_ok. }
Qed.

Lemma parties_refine_witness :
  (let '(s, S_pack) := portable_sender_genS zeros32 in
  S_pack = encode (spec_S B (le_val (sc_random zeros32 0))) /\
  portable_sender_keygen ge_p3_0 s (encode B) ([], []) <> None) /\
  (exists r1, portable_receiver_procS ge_p3_0 (Receiver (encode B) ge_p3_0 ge_p3_0 []) = Some r1).
Proof.
  split.
  { pose proof ((proj1 parties_refine) zeros32 ge_p3_0 (encode B) ([], []) zeros32_bytes (encode_bytes B)) as H.
    destruct (portable_sender_genS zeros32) as [s pk]. destruct H as [E [(R & _ & K) | [N _]]]; (split; [exact E|]).
    - rewrite K. discriminate.
    - destruct (encode_decodable B N). }
  { destruct ((proj2 parties_refine) ge_p3_0 (Receiver (encode B) ge_p3_0 ge_p3_0 []) ones32 true (encode_bytes B) ones32_bytes)
      as [[N _] | (S & r1 & _ & E & _)]; [destruct (encode_decodable B N)|exists r1; exact E]. }
Defined.

(** ** Multiplication by scalars *)

(** C4. Scalar multiplication.  [ge_scalarmult_base] computes a*B for every scalar
    a < 2^255: table lookups, recoding and doublings together are multiplication in
    the group.  Entry j of row i of [base.h] is (j+1) * 256^i * B in the form
    (y+x, y-x, 2dxy) with reduced limbs, and entry j of [base2.h] is (2j+1) * B.
    [ge_scalarmult_vartime] computes a*P and [ge_double_scalarmult_vartime] a*P + b*B,
    for every point P and a, b < 2^255. *)
Theorem scalar_mult_correct :
  ((forall a,
    bytes 32 a -> at_ a 31 <= 127 -> rep_p3 (ge_scalarmult_base a) (zmul (le_val a) B)) /\
  (forall i j,
    (i < 32)%nat -> (j < 8)%nat ->
    rep_precomp (nth j (nth i base []) ge_precomp_0) (zmul (Z.of_nat j + 1) (zmul (256 ^ Z.of_nat i) B)) /\
    rep_precomp (nth j Bi ge_precomp_0) (zmul (2 * Z.of_nat j + 1) B))) /\
  (forall a A P b,
    bytes 32 a -> at_ a 31 <= 127 -> bytes 32 b -> at_ b 31 <= 127 -> rep_p3 A P ->
    rep_p3 (ge_scalarmult_vartime a A) (zmul (le_val a) P) /\
    rep_p2 (ge_double_scalarmult_vartime a A b) (padd (zmul (le_val a) P) (zmul (le_val b) B))).
Proof.
  split.
  { split.
    { intros a. apply ge_scalarmult_base_ok. }
    { intros i j. intros Hi Hj. split; [apply (base_rows i Hi), Hj|now apply Bi_ok]. } }
  { intros a A P b. intros Ha La Hb Lb HA. split; [now apply ge_scalarmult_vartime_ok|now apply ge_double_scalarmult_vartime_ok]. }
Qed.

Lemma scalar_mult_correct_witness :
  ((rep_p3 (ge_scalarmult_base ones32) (zmul (le_val ones32) B)) /\
  (rep_precomp (nth 7 (nth 31 base []) ge_precomp_0) (zmul (Z.of_nat 7 + 1) (zmul (256 ^ Z.of_nat 31) B)) /\
  rep_precomp (nth 7 Bi ge_precomp_0) (zmul (2 * Z.of_nat 7 + 1) B))) /\
  (rep_p3 (ge_scalarmult_vartime ones32 ge_p3_0) (zmul (le_val ones32) pzero) /\
  rep_p2 (ge_double_scalarmult_vartime ones32 ge_p3_0 zeros32) (padd (zmul (le_val ones32) pzero) (zmul (le_val zeros32) B))).
Proof.
  split.
  { split.
    { apply ((proj1 (proj1 scalar_mult_correct)) ones32 ones32_bytes). discriminate. }
    { apply ((proj2 (proj1 scalar_mult_correct)) 31%nat 7%nat); lia. } }
  { apply ((proj2 scalar_mult_correct) ones32 ge_p3_0 pzero zeros32 ones32_bytes);
      [discriminate|exact zeros32_bytes|discriminate|exact ge_p3_0_ok]. }
Defined.

(** C5. Scalars and their digits.  [slide] keeps the value of a scalar below 2^255 and
    leaves 256 digits, each zero or odd and between -15 and 15; the bound is needed:
    on 32 bytes 0xff a carry runs off the array and the digits denote -1 instead of
    2^256 - 1.  The signed radix-16 recoding gives 64 digits between -8 and 8 with the
    same value, and no [signed char] overflows; [select pos b] is b * 256^pos * B for
    every position and signed digit, and [fe_cmov] with bit 0 keeps its first argument
    and with bit 1 takes the second, limb for limb, negative limbs included.
    [sc_random] leaves 252 random bits for the sender, and for the receiver 255 random
    bits with the last three cleared, so that every scalar is below 2^255 and the
    receiver's is a multiple of 8.  [sc_reduce] replaces a 64-byte number by its
    canonical residue modulo the order l of the base point, no limb overflows in any
    stage, and the upper half of the buffer is left alone; [sc_muladd a b c] is
    (ab + c) mod l for all 32-byte a, b, c. *)
Theorem scalars_correct :
  ((forall a,
    bytes 32 a -> at_ a 31 <= 127 ->
    (length (slide a) = 256%nat /\ radix2 (slide a) = le_val a /\
     forall j, at_ (slide a) j = 0 \/ (Z.odd (at_ (slide a) j) = true /\ - 15 <= at_ (slide a) j <= 15)) /\
    radix2 (slide (repeat 255 32)) = -1) /\
  (forall a pos b k f g (c : bool),
    bytes 32 a -> at_ a 31 <= 127 ->
    (pos < 32)%nat -> - 8 <= b <= 8 -> bounded k f -> bounded k g -> 0 <= k <= 6300 ->
    (length (digits a) = 64%nat /\ (forall i, - 8 <= at_ (digits a) i <= 8) /\ radix16 (digits a) = le_val a) /\
    rep_precomp (select pos b) (zmul (b * 256 ^ Z.of_nat pos) B) /\
    fe_cmov f g (if c then 1 else 0) = if c then g else f)) /\
  ((forall rnd c,
    bytes 32 rnd ->
    le_val (sc_random rnd c) =
    (if c =? 0 then le_val rnd mod 2 ^ 252 else le_val rnd mod 2 ^ 255 - le_val rnd mod 8) /\
    bytes 32 (sc_random rnd c) /\ at_ (sc_random rnd c) 31 <= 127) /\
  (forall s a b c,
    bytes 64 s -> bytes 32 a -> bytes 32 b -> bytes 32 c ->
    (bytes 32 (firstn 32 (sc_reduce s)) /\ le_val (firstn 32 (sc_reduce s)) = le_val s mod ell /\ skipn 32 (sc_reduce s) = skipn 32 s) /\
    bytes 32 (sc_muladd a b c) /\ le_val (sc_muladd a b c) = (le_val a * le_val b + le_val c) mod ell)).
Proof.
  split.
  { split.
    { intros a. intros H H31. destruct (slide_ok a H H31) as (L & D & V). split; [exact (conj L (conj V D))|vm_compute; reflexivity]. }
    { intros a pos b k f g c. intros Ha La Hp Hb Hf Hg Hk. split; [now apply digits_ok|]. split; [now apply select_ok|].
      rewrite (fe_cmov_ok k f g _ Hf Hg Hk) by (destruct c; auto). now destruct c. } }
  { split.
    { intros rnd c. intros H. split; [|exact (sc_random_bytes rnd c H)].
      destruct (Z.eqb_spec c 0) as [->|Hc]; [exact (sc_random_0 rnd H)|exact (sc_random_1 rnd c H Hc)]. }
    { intros s a b c. intros Hs Ha Hb Hc. split; [now apply sc_reduce_ok|now apply sc_muladd_ok]. } }
Qed.

Lemma scalars_correct_witness :
  ((length (slide ones32) = 256%nat /\ radix2 (slide ones32) = le_val ones32) /\
  (radix16 (digits ones32) = le_val ones32 /\
  rep_precomp (select 3 (-5)) (zmul (-5 * 256 ^ 3) B) /\ fe_cmov fe_d d2 1 = d2)) /\
  ((le_val (sc_random ones32 1) = le_val ones32 mod 2 ^ 255 - le_val ones32 mod 8) /\
  (le_val (firstn 32 (sc_reduce (repeat 255 64))) = le_val (repeat 255 64) mod ell /\
  le_val (sc_muladd ones32 ones32 zeros32) = (le_val ones32 * le_val ones32 + le_val zeros32) mod ell)).
Proof.
  split.
  { split.
    { destruct ((proj1 (proj1 scalars_correct)) ones32 ones32_bytes) as [(L & V & _) _]; [discriminate|exact (conj L V)]. }
    { destruct ((proj2 (proj1 scalars_correct)) ones32 3%nat (-5) 101 fe_d d2 true ones32_bytes) as ((_ & _ & V) & E & M);
        try (apply boundedb_ok; reflexivity); try lia; [discriminate|exact (conj V (conj E M))]. } }
  { split.
    { destruct ((proj1 (proj2 scalars_correct)) ones32 1 ones32_bytes) as [E _]. exact E. }
    { destruct ((proj2 (proj2 scalars_correct)) (repeat 255 64) ones32 ones32 zeros32) as [(_ & E & _) [_ M]];
        [apply bytes_repeat; split; [discriminate|reflexivity]|exact ones32_bytes|exact ones32_bytes|exact zeros32_bytes|exact (conj E M)]. } }
Defined.

(** ** The group operations *)

(** C6. [ge_add], [ge_sub], [ge_madd] and [ge_msub] add and subtract any two
    points, the second in cached form or a table entry, equal, opposite and
    neutral ones included, and [ge_p2_dbl] and [ge_p3_dbl_p3] double any point,
    all within the limb bounds. *)
Theorem ge_add_sub_correct p P q Q t T d : rep_p3 p P -> rep_cached q Q -> rep_precomp t T -> rep_p2 d P ->
  rep_p1p1 (ge_add p q) (padd P Q) /\ rep_p1p1 (ge_sub p q) (padd P (popp Q)) /\
  rep_p1p1 (ge_madd p t) (padd P T) /\ rep_p1p1 (ge_msub p t) (padd P (popp T)) /\
  rep_p1p1 (ge_p2_dbl d) (padd P P) /\ rep_p3 (ge_p3_dbl_p3 p) (padd P P).
Proof.
  intros HP HQ HT HD. split; [now apply ge_add_ok|]. split; [now apply ge_sub_ok|].
  split; [now apply ge_madd_ok|]. split; [now apply ge_msub_ok|]. split; [now apply ge_p2_dbl_ok|now apply ge_p3_dbl_p3_ok].
Qed.

Lemma ge_add_sub_correct_witness :
  rep_p1p1 (ge_sub ge_p3_0 (ge_p3_to_cached ge_p3_0)) (padd pzero (popp pzero)) /\
  rep_p1p1 (ge_madd ge_p3_0 ge_precomp_0) (padd pzero pzero) /\ rep_p1p1 (ge_p2_dbl ge_p2_0) (padd pzero pzero).
Proof.
  destruct (ge_add_sub_correct ge_p3_0 pzero (ge_p3_to_cached ge_p3_0) pzero ge_precomp_0 pzero ge_p2_0 ge_p3_0_ok
    (ge_p3_to_cached_ok _ _ ge_p3_0_ok) ge_precomp_0_ok ge_p2_0_ok) as (_ & H & H' & _ & H2 & _). exact (conj H (conj H' H2)).
Defined.

(** ** Points as bytes *)

(** C7. Points and field elements as bytes.  Decompression decides:
    [ge_frombytes_vartime] returns 0 and the point with the given y and sign of x when
    there is one, and -1 exactly when the curve has no point with that y;
    [ge_frombytes_negate_vartime] gives the opposite point and fails on the same
    strings.  What [ge_p3_tobytes] writes for a point, [ge_frombytes_vartime] reads back
    as that point; and encodings are canonical: two representations, projective or
    extended, are written as the same 32 bytes exactly when they denote the same point.
    [fe_tobytes] writes the canonical residue, 32 bytes whose little-endian value is the
    representative in [0, p); [fe_frombytes] reads the low 255 bits, and reads back what
    [fe_tobytes] wrote. *)
Theorem bytes_correct :
  ((forall h s,
    bytes 32 s ->
    (exists P h' h'', decodes s P /\ ge_frombytes_vartime h s = (0, h') /\ rep_p3 h' P /\
       ge_frombytes_negate_vartime h s = (0, h'') /\ rep_p3 h'' (popp P)) \/
    (undecodable s /\ fst (ge_frombytes_vartime h s) = -1 /\ fst (ge_frombytes_negate_vartime h s) = -1)) /\
  (forall h0 h P g Q,
    rep_p3 h P -> rep_p2 g Q ->
    (exists h', ge_frombytes_vartime h0 (ge_p3_tobytes h) = (0, h') /\ rep_p3 h' P) /\
    (ge_tobytes g = ge_p3_tobytes h <-> Q = P))) /\
  (forall f s,
    bounded 220 f -> bytes 32 s ->
    (bytes 32 (fe_tobytes f) /\ le_val (fe_tobytes f) = Zmod.to_Z (feval f) /\ 0 <= Zmod.to_Z (feval f) < p) /\
    feval (fe_frombytes s) = inF (le_val s mod 2 ^ 255) /\ bounded 101 (fe_frombytes s) /\
    feval (fe_frombytes (fe_tobytes f)) = feval f).
Proof.
  split.
  { split.
    { intros h s. intros Hs. destruct (ge_frombytes_vartime_ok h s Hs) as [(P & h' & D & E & R) | [N E]].
      - destruct (ge_frombytes_negate_vartime_ok h s Hs) as [(Q & h'' & D' & E' & R') | [N _]].
        + rewrite <- (decodes_inj s P Q D D') in R'. left. exists P, h', h''. auto.
        + destruct (decodes_decodable s P D N).
      - destruct (ge_frombytes_negate_vartime_ok h s Hs) as [(Q & h'' & D' & _) | [_ E']]; [destruct (decodes_decodable s Q D' N)|auto]. }
    { intros h0 h P g Q. intros H HQ. rewrite (tobytes_encode h P H). split.
      - destruct (ge_frombytes_vartime_ok h0 (encode P) (encode_bytes P)) as [(R & h' & D & E & R') | [N _]].
        + apply encode_decodes in D. subst R. exists h'. auto.
        + destruct (encode_decodable P N).
      - rewrite (point_bytes_encode Q _ (ge_tobytes_ok g Q HQ)). split; [|congruence]. intros E. apply encode_decodes. rewrite <- E.
        apply point_bytes_decodes, encode_point_bytes. } }
  { intros f s. intros H Hs. destruct (fe_tobytes_ok f H) as [Hb V]. split; [exact (conj Hb (conj V (to_Z_range _)))|].
    destruct (fe_frombytes_ok s Hs) as [Hb' E]. destruct (fe_frombytes_encodes _ _ (fe_tobytes_ok f H)) as [_ R]. exact (conj E (conj Hb' R)). }
Qed.

Lemma bytes_correct_witness :
  ((exists h' h'',
  ge_frombytes_vartime ge_p3_0 (encode B) = (0, h') /\ ge_frombytes_negate_vartime ge_p3_0 (encode B) = (0, h'')) /\
  ((exists h', ge_frombytes_vartime ge_p3_0 (ge_p3_tobytes ge_p3_0) = (0, h') /\ rep_p3 h' pzero) /\
  ge_tobytes ge_p2_0 = ge_p3_tobytes ge_p3_0)) /\
  (le_val (fe_tobytes fe_d) = Zmod.to_Z (feval fe_d) /\ feval (fe_frombytes (fe_tobytes fe_d)) = feval fe_d).
Proof.
  split.
  { split.
    { destruct ((proj1 (proj1 bytes_correct)) ge_p3_0 (encode B) (encode_bytes B)) as [(P & h' & h'' & _ & E & _ & E' & _) | [N _]].
      - exists h', h''. exact (conj E E').
      - destruct (encode_decodable B N). }
    { destruct ((proj2 (proj1 bytes_correct)) ge_p3_0 ge_p3_0 pzero ge_p2_0 pzero ge_p3_0_ok ge_p2_0_ok) as [H [_ E]]. exact (conj H (E eq_refl)). } }
  { destruct ((proj2 bytes_correct) fe_d ones32) as ((_ & E & _) & _ & _ & R); [apply boundedb_ok; reflexivity|exact ones32_bytes|exact (conj E R)]. }
Defined.

(** ** The field *)

(** C8. Field operations: [fe_mul], [fe_sq] and [fe_sq2] are the product, the
    square and twice the square modulo 2^255 - 19: for inputs bounded by 1.65*2^26
    and 1.65*2^25 no intermediate product or carry overflows, and the results are
    bounded by 1.01*2^25 and 1.01*2^24.  [fe_add], [fe_sub] and [fe_neg] do not
    overflow and their bounds add up.  Powers and tests: [fe_invert] computes the
    inverse, 0 for 0, and [fe_pow22523] raises to (p-5)/8; [fe_isnonzero] is 0 on zero
    residues and -1 on all others, [fe_isnegative] is the parity of the residue, and
    [simpleot_crypto_verify_32] is 0 on equal strings and -1 on different ones. *)
Theorem fe_operations_correct :
  (forall f g k l,
    bounded 330 f -> bounded 330 g -> bounded k f -> bounded l g -> 0 <= k -> 0 <= l -> k + l <= 6300 ->
    (feval (fe_mul f g) = (feval f * feval g)%F /\ bounded 101 (fe_mul f g)) /\
    (feval (fe_sq f) = (feval f * feval f)%F /\ bounded 101 (fe_sq f)) /\
    (feval (fe_sq2 f) = (feval f * feval f + feval f * feval f)%F /\ bounded 101 (fe_sq2 f)) /\
    (feval (fe_add f g) = (feval f + feval g)%F /\ bounded (k + l) (fe_add f g)) /\
    (feval (fe_sub f g) = (feval f - feval g)%F /\ bounded (k + l) (fe_sub f g)) /\
    (feval (fe_neg f) = (- feval f)%F /\ bounded k (fe_neg f))) /\
  (forall f g x y,
    bounded 330 f -> bounded 220 g -> bytes 32 x -> bytes 32 y ->
    (feval (fe_invert f) = Zmod.inv (feval f) /\ bounded 101 (fe_invert f)) /\
    (feval (fe_pow22523 f) = (feval f ^ ((p - 5) / 8))%F /\ bounded 101 (fe_pow22523 f)) /\
    fe_isnonzero g = (if Zmod.eqb (feval g) 0%F then 0 else -1) /\ fe_isnegative g = Zmod.to_Z (feval g) mod 2 /\
    ((x = y /\ simpleot_crypto_verify_32 x y = 0) \/ (x <> y /\ simpleot_crypto_verify_32 x y = -1))).
Proof.
  split.
  { intros f g k l. intros Hf Hg Bk Bl Hk Hl Hkl. destruct (fe_mul_ok f g Hf Hg) as [H E]. destruct (fe_sq_ok f Hf) as [H1 E1].
    destruct (fe_sq2_ok f Hf) as [H2 E2]. destruct (fe_add_ok k l f g Bk Bl) as [Ba Ea]; [lia|].
    destruct (fe_sub_ok k l f g Bk Bl) as [Bs Es]; [lia|]. destruct (fe_neg_ok k f Bk) as [Bn En]; [lia|].
    exact (conj (conj E H) (conj (conj E1 H1) (conj (conj E2 H2) (conj (conj Ea Ba) (conj (conj Es Bs) (conj En Bn)))))). }
  { intros f g x y. intros H G Hx Hy. destruct (fe_invert_ok f H) as [Hb E]. destruct (fe_pow22523_ok f H) as [Hb' E'].
    split; [exact (conj E Hb)|]. split; [exact (conj E' Hb')|]. split; [|split; [exact (fe_isnegative_ok g G)|]].
    - destruct (fe_isnonzero_ok g G) as [Hz Hn]. destruct (Zmod.eqb_spec (feval g) 0%F) as [Z|Z]; [exact (Hz Z)|exact (Hn Z)].
    - destruct (simpleot_crypto_verify_32_ok x y Hx Hy) as [H1 H2].
      destruct (list_eq_dec Z.eq_dec x y) as [D|D]; [left; exact (conj D (H1 D))|right; exact (conj D (H2 D))]. }
Qed.

Lemma fe_operations_correct_witness :
  (feval (fe_mul fe_d d2) = (feval fe_d * feval d2)%F /\ feval (fe_sub fe_d d2) = (feval fe_d - feval d2)%F) /\
  (feval (fe_invert fe_d) = Zmod.inv (feval fe_d) /\
  fe_isnonzero fe_0 = 0 /\ fe_isnegative fe_0 = 0 /\ simpleot_crypto_verify_32 ones32 zeros32 = -1).
Proof.
  split.
  { destruct ((proj1 fe_operations_correct) fe_d d2 101 101) as ([M _] & _ & _ & _ & [E _] & _); try (apply boundedb_ok; reflexivity); try lia.
    exact (conj M E). }
  { destruct ((proj2 fe_operations_correct) fe_d fe_0 ones32 zeros32) as ((I & _) & _ & E & N & V);
      [apply boundedb_ok; reflexivity|apply boundedb_ok; reflexivity|apply ones32_bytes|apply zeros32_bytes|].
    split; [exact I|]. split; [rewrite E; reflexivity|]. split; [rewrite N; reflexivity|].
    destruct V as [[V _] | [_ V]]; [discriminate V|exact V]. }
Defined.

(** ** The hash *)

(** C9. [simplest_ot_crypto_hash] is the Keccak sponge with rate 1088 and
    capacity 512, padding 10*1 and 256 bits of output, for messages of every
    length; the unrolled permutation, absorbing 17 lanes, is 24 rounds of theta,
    rho, pi, chi and iota on the state xored with the block. *)
Theorem hash_is_sponge m s b : length s = 25%nat ->
  (simplest_ot_crypto_hash m = sponge m /\ bytes 32 (simplest_ot_crypto_hash m)) /\
  KeccakF s (as_lanes 17 b) 17 =
  keccak_f (map (fun i => if (i <? 17)%nat then Z.lxor (at_ s i) (at_ (as_lanes 17 b) i) else at_ s i) (seq 0 25)).
Proof. intros Ls. split; [split; [apply simplest_ot_crypto_hash_ok|apply hash_bytes]|now apply KeccakF_ok]. Qed.

Lemma hash_is_sponge_witness : simplest_ot_crypto_hash ones32 = sponge ones32 /\ bytes 32 (simplest_ot_crypto_hash ones32).
Proof. destruct (hash_is_sponge ones32 (repeat 0 25) zeros32) as [H _]; [reflexivity|exact H]. Defined.
