(* ===== verification/Containers.v ===== *)
(** The properties of the containers of [utils/], with their instances: the bit
    set as an implementation of lists of booleans, its queries, searches, order
    and string forms. *)
From Stdlib Require Import ZArith Lia Ascii String List Bool.
From S2P Require Import Prelude.
From S2P Require Import Bitset.
From S2P Require Import BitsetOps.
From S2P Require Import BitsetQuery.
From S2P Require Import BitsetText.
From S2P Require Import BitsetSpec.
Import ListNotations.

(** Concrete data for the instances: 11 bits in blocks of 8. *)
Definition sample : dynamic_bitset := DynamicBitset [0x92; 0x05] 11.

Lemma sample_wf : wf 8 sample.
Proof.
  apply check_consistency_ok; [lia| |reflexivity].
  repeat constructor; unfold block_ok; cbn; lia.
Qed.

(** ** The bit set *)

(** A range of 2^64 - 2 bits: its end wraps around and passes the asserts. *)
Lemma wrapped_range len : Z.of_nat len = 2 ^ 64 - 2 ->
  set_range 8 (DynamicBitset [0; 0; 0] 19) 18 len true = Some (DynamicBitset [0; 0; 0xfc] 19) /\ range_in 19 18 len = false.
Proof.
  intros H. assert (L : range_last 18 len = 15%nat) by (unfold range_last; rewrite H; reflexivity).
  assert (N : (len =? 0)%nat = false) by (apply Nat.eqb_neq; lia). split; [unfold set_range; rewrite L, N; reflexivity|].
  unfold range_in. rewrite N. cbn [orb]. rewrite (proj2 (Nat.ltb_ge (18 + len - 1) 19)) by lia. reflexivity.
Qed.

(** C10. Refinement: whatever the block width, a bitset behaves as a list of
    booleans.  A sequence of operations (growing, shrinking, appending blocks,
    bitsets or itself, bits, ranges, bulk operations, shifts) run from the empty
    bitset fires an assert exactly when the specification does, and otherwise
    leaves the bits the specification says, in a consistent bitset.  The ranges are
    those with pos + len at most 2^64; past it the sum in the second assert of
    [set(pos, len, value)] wraps around, and the call can pass both asserts with a
    range that the specification refuses and leave an inconsistent bitset: 19 bits in
    blocks of 8, pos = 18 and len = 2^64 - 2. *)
Theorem bitset_refines_list :
  (forall w ops, (0 < w)%nat -> Forall (op_ok w) ops ->
    match run (exec w) bitset_empty ops with
    | Some b => run (spec w) [] ops = Some (bits w b) /\ check_consistency w b = true
    | None => run (spec w) [] ops = None
    end) /\
  (forall len, Z.of_nat len = 2 ^ 64 - 2 -> let ops := [OpResize 19 false; OpSetRange 18 len true] in
    run (exec 8) bitset_empty ops = Some (DynamicBitset [0; 0; 0xfc] 19) /\ check_consistency 8 (DynamicBitset [0; 0; 0xfc] 19) = false /\
    run (spec 8) [] ops = None).
Proof.
  split.
  - intros w ops Hw F. pose proof (run_sim w Hw ops bitset_empty (bitset_empty_ok w Hw) F) as S1.
    change (bits w bitset_empty) with (@nil bool) in S1. unfold simulates in S1.
    destruct (run (exec w) bitset_empty ops) as [b|], (run (spec w) [] ops) as [l|]; try contradiction; [|reflexivity].
    destruct S1 as [H ->]. split; [reflexivity|]. apply check_consistency_ok; [exact Hw|apply H|exact H].
  - intros len H. destruct (wrapped_range len H) as [E N]. cbv zeta. split; [|split; [reflexivity|]].
    + change (run (exec 8) bitset_empty [OpResize 19 false; OpSetRange 18 len true]) with
        (match set_range 8 (DynamicBitset [0; 0; 0] 19) 18 len true with Some b => Some b | None => None end). now rewrite E.
    + cbn [run spec]. rewrite firstn_nil. cbn [app]. rewrite repeat_length. change (19 - length (@nil bool))%nat with 19%nat. now rewrite N.
Qed.

Lemma bitset_refines_list_witness :
  run (exec 8) bitset_empty [OpResize 5 true; OpAppendBlock 0x0f; OpAppendSelf; OpSetRange 1 3 false; OpFlipRange 7 12; OpShiftRight 3; OpPopBack; OpFlip 40] = None /\
  (exists b, run (exec 8) bitset_empty [OpResize 5 true; OpAppendBlock 0x0f; OpAppendSelf; OpSetRange 1 3 false; OpFlipRange 7 12; OpShiftRight 3; OpPopBack] = Some b /\
     check_consistency 8 b = true).
Proof.
  split; [reflexivity|].
  pose proof (proj1 bitset_refines_list 8%nat [OpResize 5 true; OpAppendBlock 0x0f; OpAppendSelf; OpSetRange 1 3 false; OpFlipRange 7 12; OpShiftRight 3; OpPopBack]) as H.
  destruct (run (exec 8) bitset_empty [OpResize 5 true; OpAppendBlock 0x0f; OpAppendSelf; OpSetRange 1 3 false; OpFlipRange 7 12; OpShiftRight 3; OpPopBack]) as [b|] eqn:E.
  - exists b. split; [reflexivity|]. apply H; [lia|]. repeat constructor; unfold block_ok; cbn; lia.
  - vm_compute in E. discriminate E.
Defined.

(** C11. Reading a bitset.  [test] fires its assert from the size on and gives the
    bit below it; inclusion and proper inclusion fire theirs on two sizes and otherwise
    answer for the bits, as do the queries without asserts: [all], [any], [none],
    [count], equality and intersection.
    [operator<] compares the numbers the bits denote and, for equal numbers, the sizes;
    it is a strict total order on bitsets.  [find_first] and [find_next] give the least
    set bit (from 0, or after [prev]) or [npos] when there is none; with one turn per
    set bit [iterate_bits_on] ends, having called the function on the set bits in
    increasing order until it returned false. *)
Theorem bitset_reads_correct :
  ((forall w b c p,
    (0 < w)%nat -> wf w b -> wf w c ->
    test w b p = (if (p <? size b)%nat then Some (nth p (bits w b) false) else None) /\
    all w b = forallb (fun v => v) (bits w b) /\
    any b = existsb (fun v => v) (bits w b) /\
    none b = forallb negb (bits w b) /\
    count w b = length (filter (fun v => v) (bits w b)) /\
    (bitset_eqb b c = true <-> bits w b = bits w c) /\
    (intersects b c = true <-> exists q, bit_at w b q = true /\ bit_at w c q = true) /\
    (size b <> size c -> is_subset_of b c = None /\ is_proper_subset_of b c = None) /\
    (size b = size c ->
     (exists r, is_subset_of b c = Some r /\ (r = true <-> forall q, bit_at w b q = true -> bit_at w c q = true)) /\
     exists r, is_proper_subset_of b c = Some r /\
       (r = true <-> (forall q, bit_at w b q = true -> bit_at w c q = true) /\ exists q, bit_at w c q = true /\ bit_at w b q = false))) /\
  (forall w b c d,
    (0 < w)%nat -> wf w b -> wf w c -> wf w d ->
    bitset_ltb b c = ((bitset_value w b <? bitset_value w c) ||
      ((bitset_value w b =? bitset_value w c) && (size b <? size c)%nat)) /\
    (forall q, Z.testbit (bitset_value w b) (Z.of_nat q) = bit_at w b q) /\
    bitset_ltb b b = false /\
    (bitset_ltb b c = true -> bitset_ltb c d = true -> bitset_ltb b d = true) /\
    (bitset_ltb b c = true \/ b = c \/ bitset_ltb c b = true))) /\
  (forall {A} w b prev (f : A -> nat -> A * bool) a fuel,
    (0 < w)%nat -> wf w b -> (count w b <= fuel)%nat ->
    is_next w b 0 (find_first w b) /\ is_next w b (prev + 1) (find_next w b prev) /\
    iterate_bits_on w fuel b f a = Some (fold_while f (filter (bit_at w b) (seq 0 (size b))) a)).
Proof.
  split.
  { split.
    { intros w b c p. intros Hw Hb Hc. split; [unfold test, assert; now rewrite test_bit_ok, nth_bits|].
      split; [now apply all_ok|]. split; [now apply (any_ok w)|]. split; [now apply (none_ok w)|]. split; [now apply count_ok|].
      split; [now apply bitset_eqb_ok|]. split; [now apply intersects_ok|].
      split; [apply subset_none|]. intros E. split; [now apply is_subset_of_ok|now apply is_proper_subset_of_ok]. }
    { intros w b c d. intros Hw Hb Hc Hd. rewrite !(bitset_ltb_ok w Hw) by assumption. unfold value_ltb, size.
      split; [reflexivity|]. split; [intros q; now apply value_bit|].
      rewrite !orb_true_iff, !andb_true_iff, !Z.ltb_lt, !Z.eqb_eq, !Nat.ltb_lt, Z.ltb_irrefl, Nat.ltb_irrefl, andb_false_r.
      split; [reflexivity|]. split; [lia|].
      destruct (Z.lt_trichotomy (bitset_value w b) (bitset_value w c)) as [V|[V|V]]; [tauto| |tauto].
      pose proof (eq_sym V) as V'.
      destruct (Nat.lt_trichotomy (m_bits_number b) (m_bits_number c)) as [N|[N|N]]; [tauto| |tauto].
      right. left. apply (wf_ext w Hw); try assumption. intros q _. now rewrite <- !(value_bit w Hw), V by assumption. } }
  { intros A w b prev f a fuel. intros Hw Hb Hf. split; [now apply find_first_ok|]. split; [now apply find_next_ok|]. now apply iterate_bits_on_ok. }
Qed.

Lemma bitset_reads_correct_witness :
  ((test 8 sample 4 = Some true /\ test 8 sample 11 = None /\ count 8 sample = 5%nat /\ all 8 sample = false) /\
  (bitset_ltb bitset_empty sample = true /\ bitset_ltb sample sample = false)) /\
  (find_next 8 sample 4 = Some 7%nat /\
  iterate_bits_on 8 5 sample (fun l i => (i :: l, (i <? 8)%nat)) [] = Some [8; 7; 4; 1]%nat).
Proof.
  split.
  { split.
    { destruct ((proj1 (proj1 bitset_reads_correct)) 8%nat sample sample 4%nat ltac:(lia) sample_wf sample_wf) as (T & A & _ & _ & N & _).
      destruct ((proj1 (proj1 bitset_reads_correct)) 8%nat sample sample 11%nat ltac:(lia) sample_wf sample_wf) as (T' & _).
      rewrite T, T', A, N. repeat split. }
    { destruct ((proj2 (proj1 bitset_reads_correct)) 8%nat bitset_empty sample sample ltac:(lia) (bitset_empty_ok 8 ltac:(lia)) sample_wf sample_wf) as (E & _).
      split; [rewrite E; reflexivity|reflexivity]. } }
  { destruct ((proj2 bitset_reads_correct) _ 8%nat sample 4%nat (fun l i => (i :: l, (i <? 8)%nat)) [] 5%nat ltac:(lia) sample_wf)
      as (_ & N & I); [vm_compute; lia|]. split; [reflexivity|]. rewrite I. reflexivity. }
Defined.

(** C12. Strings: [to_string] writes the bits from the last to the first,
    [init_from_string] reads them back, and [operator>>] reads what [operator<<]
    wrote, leaving what follows it in the stream. *)
Theorem bitset_strings_roundtrip w b b0 zero one rest : (0 < w)%nat -> wf w b -> (0 < size b)%nat -> zero <> one ->
  (forall c r, rest = c :: r -> binary c = false) ->
  to_string w b zero one = rev (map (digit zero one) (bits w b)) /\
  init_from_string w (to_string w b zero one) 0 (size b) zero one = b /\
  stream_in w (to_string w b "0"%char "1"%char ++ rest) b0 = (b, rest).
Proof.
  intros Hw Hb Hs Hz Hr. split; [now apply to_string_ok|]. split; [now apply string_roundtrip_ok|]. now apply stream_roundtrip_ok.
Qed.

Lemma bitset_strings_roundtrip_witness :
  stream_in 8 (String.list_ascii_of_string "10110010010 7"%string) bitset_empty = (DynamicBitset [0x92; 0x05] 11, String.list_ascii_of_string " 7"%string).
Proof.
  destruct (bitset_strings_roundtrip 8 sample bitset_empty "0"%char "1"%char (String.list_ascii_of_string " 7"%string) ltac:(lia) sample_wf) as (_ & _ & H).
  - cbn. lia.
  - discriminate.
  - intros c r E. injection E as <- _. reflexivity.
  - exact H.
Defined.
