(* ===== verification/GaloisCorrect.v ===== *)
(** Properties of the Galois fields of [math/galois_field]: multiplication is the
    product modulo the polynomial and makes a field, products of vectors are
    inner products, the universal hash is a polynomial in its seed. *)
From Stdlib Require Import ZArith Lia List Bool.
From S2P Require Import Prelude.
From S2P Require Import Int128.
From S2P Require Import Gf2x.
From S2P Require Import Gf.
From S2P Require Import GfField.
Import ListNotations.

(** What a multiplication on n-bit words has to satisfy. *)
Definition field_mul (n P : Z) (mul : Z -> Z -> Z) : Prop :=
  (forall x y r, word n x -> word n y -> word n r -> (mul x y = r <-> cong P (pmul x y) r)) /\
  (forall x y, word n x -> word n y -> word n (mul x y) /\ mul x y = mul y x) /\
  (forall x y z, word n x -> word n y -> word n z ->
     mul (mul x y) z = mul x (mul y z) /\ mul x (Z.lxor y z) = Z.lxor (mul x y) (mul x z)) /\
  (forall x, word n x -> mul x 1 = x).

Lemma field_mul_ok n P mul `{GF : GF2n n P mul} : field_mul n P mul.
Proof.
  split; [|split; [|split]].
  - intros x y r Hx Hy Hr. split; [intros <-; now apply gf_mul|now apply (mul_unique (mul := mul))].
  - intros x y Hx Hy. split; [now apply gf_mul|now apply mul_comm].
  - intros x y z Hx Hy Hz. split; [now apply mul_assoc|now apply mul_lxor_r].
  - intros x Hx. now apply mul_1_r.
Qed.

(** C13. The fields.  [Gf64Mul] and [Gf128Mul], with their carry-less products of halves
    and two folding steps, compute the product of polynomials modulo
    X^64 + X^4 + X^3 + X + 1 and X^128 + X^7 + X^2 + X + 1: the result is the only word
    congruent to it; and they are commutative, associative, distribute over xor and
    have the unit 1.  [Gf64Inv] computes the inverse of every nonzero element, and 0
    for 0. *)
Theorem gf_field_correct :
  (field_mul 64 (2 ^ 64 + 2 ^ 4 + 2 ^ 3 + 2 + 1) Gf64Mul /\ field_mul 128 (2 ^ 128 + 2 ^ 7 + 2 ^ 2 + 2 + 1) Gf128Mul) /\
  (forall x,
    0 <= x < 2 ^ 64 ->
    0 <= Gf64Inv x < 2 ^ 64 /\ Gf64Mul x (Gf64Inv x) = (if x =? 0 then 0 else 1) /\ (x = 0 -> Gf64Inv x = 0)).
Proof.
  split.
  { exact (conj (field_mul_ok 64 P64 Gf64Mul) (field_mul_ok 128 P128 Gf128Mul)). }
  { intros x. intros Hx. split; [now apply Gf64Inv_in|]. split; [|intros ->; vm_compute; reflexivity].
    destruct (Z.eqb_spec x 0) as [->|Hn]; [vm_compute; reflexivity|now apply Gf64Inv_ok]. }
Qed.

Lemma gf_field_correct_witness : (Gf64Mul 3 (Gf64Inv 3) = 1).
Proof.
  { apply ((proj2 gf_field_correct) 3). lia. }
Defined.

(** C14. Vectors over the fields.  For vectors of one length the inner product in the
    field, reduced once at the end or term by term, and linear in the second vector;
    otherwise the exception.  The universal hash is the sum of the data, weighed with
    the powers 1, 2, 3, ... of the seed, and [ExtractHashCoef] computes the weights of
    sorted positions by squaring when the last one is between 2 and 2^63: one value at
    one of them, zeros elsewhere, hashes to the value times the weight.  For the last
    position 1 the weight comes out as 0. *)
Theorem gf_vectors_correct :
  (forall x y,
    (length x <> length y -> Gf64Mul_span x y = None /\ Gf128Mul_span x y = None) /\
    (length x = length y ->
      (Forall (word 64) x -> Forall (word 64) y -> Gf64Mul_span x y = Some (inner Gf64Mul x y)) /\
      (Forall (word 128) x -> Forall (word 128) y -> Gf128Mul_span x y = Some (inner Gf128Mul x y) /\
       forall z, length z = length y -> Forall (word 128) z ->
         Gf128Mul_span x (zip_lxor y z) = Some (Z.lxor (inner Gf128Mul x y) (inner Gf128Mul x z))))) /\
  (forall seed data indexes,
    word 128 seed -> Forall (word 128) data ->
    2 <= last indexes 0 <= 2 ^ 63 -> Forall (fun i => 0 <= i <= last indexes 0) indexes ->
    UniversalHash Gf128Mul seed data = hash_sum Gf128Mul seed 1 data /\
    ExtractHashCoef Gf128Mul seed [1] = Some [0] /\
    exists coefs, ExtractHashCoef Gf128Mul seed indexes = Some coefs /\ length coefs = length indexes /\
      forall j v m, (j < length indexes)%nat -> word 128 v ->
        UniversalHash Gf128Mul seed (repeat 0 (Z.to_nat (nth j indexes 0)) ++ v :: repeat 0 m) = Gf128Mul v (nth j coefs 0)).
Proof.
  split.
  { intros x y. split.
    - intros L. unfold Gf64Mul_span, Gf128Mul_span. now rewrite (proj2 (Nat.eqb_neq _ _) L).
    - intros L. split; [now apply Gf64Mul_span_inner|]. intros Fx Fy. split; [now apply Gf128Mul_span_inner|].
      intros z Lz Fz. destruct (zip_lxor_ok 128 ltac:(lia) y z (eq_sym Lz) Fy Fz) as [Lw Fw].
      rewrite Gf128Mul_span_inner by (assumption || congruence). f_equal. now apply (inner_lxor_r Gf128Mul). }
  { intros seed data indexes. intros Hs Hd Hb F. split; [now apply (UniversalHash_sum Gf128Mul)|]. split; [now apply ExtractHashCoef_one|].
    eexists. split; [now apply (ExtractHashCoef_ok Gf128Mul)|]. split; [apply length_map|]. intros j v m Hj Hv.
    assert (Hi : 0 <= nth j indexes 0).
    { rewrite Forall_forall in F. apply F. now apply nth_In. }
    rewrite (UniversalHash_sum Gf128Mul); [|exact Hs|].
    - rewrite (hash_sum_single Gf128Mul) by assumption. f_equal.
      rewrite (nth_indep (map _ indexes) 0 (gpow Gf128Mul seed (0 + 1))) by (rewrite length_map; exact Hj).
      rewrite (map_nth (fun i => gpow Gf128Mul seed (i + 1))). f_equal. lia.
    - apply Forall_app. split; [apply word_zeros|constructor; [exact Hv|apply word_zeros]]. }
Qed.

Lemma gf_vectors_correct_witness :
  (Gf64Mul_span [1; 2; 3] [5; 6; 7] = Some (inner Gf64Mul [1; 2; 3] [5; 6; 7]) /\
  Gf128Mul_span [1; 2 ^ 127] [5; 6] = Some (inner Gf128Mul [1; 2 ^ 127] [5; 6])) /\
  (UniversalHash Gf128Mul 3 [5; 6; 7] = hash_sum Gf128Mul 3 1 [5; 6; 7] /\
  ExtractHashCoef Gf128Mul 3 [1] = Some [0]).
Proof.
  split.
  { split.
    - destruct ((proj1 gf_vectors_correct) [1; 2; 3] [5; 6; 7]) as [_ H]. apply H; [reflexivity|repeat constructor; lia..].
    - destruct ((proj1 gf_vectors_correct) [1; 2 ^ 127] [5; 6]) as [_ H]. apply H; [reflexivity|repeat constructor; lia..]. }
  { destruct ((proj2 gf_vectors_correct) 3 [5; 6; 7] [0; 2]) as (E & E' & _); [unfold word; lia|repeat constructor; lia|cbn; lia|cbn; repeat constructor; lia|].
    split; [exact E|exact E']. }
Defined.

