(* ===== verification/ExtensionCorrect.v ===== *)
(** The properties of the stores of transfers, the symmetric primitives and the
    extensions of oblivious transfers, with their instances at concrete inputs. *)
From Stdlib Require Import ZArith Lia List Bool.
From S2P Require Import Prelude.
From S2P Require Import Errors.
From S2P Require Import Int128.
From S2P Require Import Transpose.
From S2P Require Import Gf.
From S2P Require Import GfField.
From S2P Require Import Cipher.
From S2P Require Import Mersenne.
From S2P Require Import Prg.
From S2P Require Import CrHash.
From S2P Require Import Bitset.
From S2P Require Import OtStore.
From S2P Require Import Fss.
From S2P Require Import OtExt.
From S2P Require Import IknpOte.
From S2P Require Import KosOte.
Import ListNotations.

(** ** Concrete data for the instances *)

#[local] Existing Instance toy_cipher.
#[local] Existing Instance toy_laws.

(** 128 base transfers of the messages 3 and 7, the first one chosen 1. *)
Definition example_choices : dynamic_bitset := bitset_init 128 128 1.

Lemma correlated_chosen (l : list bool) : correlated (repeat (3, 7) (length l)) (combine l (map (fun c : bool => if c then 7 else 3) l)).
Proof. induction l as [|c l IH]; constructor; [now destruct c|exact IH]. Qed.

Lemma example_base : exists h r s, recv_ok h r /\ send_ok h s /\ recv_Size r = 128 /\ send_Size s = 128 /\
  correlated (send_view h s) (recv_view h r) /\ IsSliced (s_slice s) = false /\ IsSliced (r_slice r) = false /\
  fresh (s_slice s) /\ fresh (r_slice r) /\ length (recv_view h r) = 128%nat /\ r_type r = Normal.
Proof.
  destruct (bitset_init_ok 128 pos128 128 1) as (W & N & _); [reflexivity|lia|]. fold example_choices in W, N.
  pose proof (length_bits 128 example_choices) as Lb. rewrite N in Lb.
  destruct (MakeOtSendStore_ok (Heap [] []) (repeat (3, 7) (length (bits 128 example_choices)))) as (s & h1 & Es & X1 & Ks & Fs & Vs); [rewrite repeat_length, Lb; cbn; lia|].
  set (rb := map (fun c : bool => if c then 7 else 3) (bits 128 example_choices)).
  assert (Lr : length rb = 128%nat) by (unfold rb; now rewrite length_map).
  destruct (MakeOtRecvStore_ok h1 example_choices rb W) as (r & h2 & Er & X2 & Kr & Fr & Vr); [unfold size; lia|rewrite Lr; cbn; lia|].
  destruct (send_ok_extends h1 h2 s X2 Ks) as [Ks' Vs']. apply MakeOtSendStore_slice in Es as (Ss & Ts & _).
  assert (Ty : r_type r = Normal).
  { unfold MakeOtRecvStore in Er. destruct (new_bitset h1 example_choices) as [g1 p1]. destruct (new_vector g1 rb) as [g2 p2].
    destruct (recv_store g2 p1 p2 0 _ 0 _ Normal) as [r2|] eqn:E; [|discriminate]. injection Er as -> _. now apply recv_store_spec in E as [-> _]. }
  apply MakeOtRecvStore_slice in Er as Sr. rewrite repeat_length, Lb in Ss. unfold size in Sr. rewrite N in Sr.
  exists h2, r, s. split; [exact Kr|]. split; [exact Ks'|]. unfold recv_Size, send_Size, IsSliced. rewrite Sr, Ss, Ts.
  do 2 (split; [reflexivity|]). split; [rewrite Vs', Vs, Vr; apply correlated_chosen|]. do 2 (split; [reflexivity|]).
  split; [rewrite <- Ss; exact Fs|]. split; [rewrite <- Sr; exact Fr|]. split; [|exact Ty]. rewrite Vr, length_combine, Lb, Lr. reflexivity.
Qed.

(** Choices of two batches. *)
Definition example_bits : dynamic_bitset := bitset_init 128 130 5.

Lemma example_bits_ok : wf 128 example_bits /\ size example_bits = 130%nat.
Proof. destruct (bitset_init_ok 128 pos128 130 5) as (W & N & _); [reflexivity|lia|now split]. Qed.

(** ** Matrices *)

(** C15. Bit matrices: the naive loops, Eklundh's masks and shifts and the SSE2
    bytes and move-masks all give the transpose of a 128 x 128 matrix, so
    transposing twice is the identity whichever is selected; and the variants on
    eight blocks a row transpose each of the eight columns of blocks. *)
Theorem matrix_transpose_correct sse2 m M : matrix m -> Transpose.wide M ->
  (NaiveTranspose m = transpose m /\ EklundhTranspose128 m = transpose m /\ SseTranspose128 m = transpose m) /\
  MatrixTranspose128 sse2 (MatrixTranspose128 sse2 m) = m /\
  Transpose.wide (MatrixTranspose128x1024 sse2 M) /\
  forall i, (i < 8)%nat -> col i (MatrixTranspose128x1024 sse2 M) = transpose (col i M).
Proof.
  intros Hm HM. split; [|split; [|exact (MatrixTranspose_wide sse2 M HM)]].
  - split; [apply NaiveTranspose_ok, Hm|]. split; [now apply EklundhTranspose128_ok|now apply SseTranspose128_ok].
  - rewrite (MatrixTranspose128_ok sse2 m Hm), MatrixTranspose128_ok by apply transpose_matrix. now apply transpose_transpose.
Qed.

Lemma matrix_transpose_correct_witness :
  SseTranspose128 (repeat 1 128) = transpose (repeat 1 128) /\
  col 7 (MatrixTranspose128x1024 true (repeat (repeat 2 8) 128)) = transpose (col 7 (repeat (repeat 2 8) 128)).
Proof.
  assert (F : forall A (P : A -> Prop) x n, P x -> Forall P (repeat x n)) by (intros A P x n Hx; apply Forall_forall; intros y Hy; apply repeat_spec in Hy as ->; exact Hx).
  destruct (matrix_transpose_correct true (repeat 1 128) (repeat (repeat 2 8) 128)) as ((_ & _ & E) & _ & _ & H).
  - split; [reflexivity|]. apply F. split; [lia|reflexivity].
  - split; [reflexivity|]. apply F. split; [reflexivity|]. apply F. split; [lia|reflexivity].
  - split; [exact E|]. apply H. lia.
Defined.

(** ** Stores of transfers *)

(** C16. Stores of transfers.  Slicing refines cutting a list of transfers: for stores of
    the two parties whose remaining windows correspond, taking slices of the sizes [ns]
    on both sides succeeds exactly when no size is 0 and their sum fits; the slices
    have these sizes, correspond pairwise, and are consecutive pieces of the window.
    Access: reads past the window throw, others give the window's entry; a write is
    seen by every store that shares the buffer, at the same position of the buffer and
    nowhere else, and keeps all of them well formed; copies give the window; and the
    two messages of a transfer are read by index.  Giving up a store fails: [Reset] and
    [StealBlkBuf] throw whatever the state, and [CopyCotBlkBuf] copies the window only
    of a store nothing was sliced from. *)
Theorem ot_store_correct :
  (forall h ns s r,
    send_ok h s -> recv_ok h r -> correlated (send_rest h s) (recv_rest h r) ->
    Forall (fun n => 0 <= n < 2 ^ 62) ns ->
    if forallb (Z.ltb 0) ns && (total ns <=? Z.of_nat (length (recv_rest h r)))
    then exists outs, pair_slices h s r ns = Some outs /\ map (fun p => send_Size (fst p)) outs = ns /\ map (fun p => recv_Size (snd p)) outs = ns /\
      Forall (fun p => send_ok h (fst p) /\ recv_ok h (snd p) /\ correlated (send_view h (fst p)) (recv_view h (snd p))) outs /\
      concat (map (fun p => recv_view h (snd p)) outs) = firstn (Z.to_nat (total ns)) (recv_rest h r)
    else pair_slices h s r ns = None) /\
  (forall h r s i m v,
    recv_ok h r -> send_ok h s -> 0 <= i < 2 ^ 62 ->
    (recv_GetBlock h r i = option_map snd (nth_error (recv_view h r) (Z.to_nat i)) /\
     recv_GetChoice h r i = option_map (fun p => Z.b2z (fst p)) (nth_error (recv_view h r) (Z.to_nat i))) /\
    ((recv_Size r <= i -> recv_SetBlock h r i v = None) /\
     (i < recv_Size r -> exists h', recv_SetBlock h r i v = Some h' /\
       forall r2, recv_ok h r2 -> recv_ok h' r2 /\
         forall j, 0 <= j ->
           recv_GetBlock h' r2 j = (if same_buf (r_blk_buf r) (r_blk_buf r2) && (position r i =? position r2 j)%nat && (j <? recv_Size r2)
                                    then Some v else recv_GetBlock h r2 j) /\
           (r_type r2 = Normal -> recv_GetChoice h' r2 j = recv_GetChoice h r2 j))) /\
    recv_CopyBlkBuf h r = Some (map snd (recv_view h r)) /\
    (exists b, recv_CopyBitBuf h r = Some b /\ wf 128 b /\ bits 128 b = map fst (recv_view h r)) /\
    send_GetBlock h s i m =
      (if (m =? 0) || (m =? 1) then option_map (if m =? 0 then fst else snd) (nth_error (send_view h s) (Z.to_nat i)) else None) /\
    (forall use_count, recv_Reset h r = None /\ recv_StealBlkBuf h use_count r = None /\ send_Reset h s = None /\ send_StealBlkBuf h use_count s = None) /\
    (forall blk, s_type s = Compact -> get_vector h (s_blk_buf s) = Some blk ->
       (fresh (s_slice s) -> send_CopyCotBlkBuf h s = Some (map fst (send_view h s))) /\
       (Z.of_nat (length blk) < internal_buf_ctr_ (s_slice s) + internal_use_size_ (s_slice s) -> send_CopyCotBlkBuf h s = None))).
Proof.
  split.
  { intros h ns s r. apply pair_slices_ok. }
  { intros h r s i m v. intros Kr Ks Hi. split; [split; [apply recv_GetBlock_ok; auto; lia|apply recv_GetChoice_ok; auto; lia]|].
    split; [apply recv_SetBlock_ok; auto; lia|]. split; [now apply recv_CopyBlkBuf_ok|]. split; [now apply recv_CopyBitBuf_ok|]. split; [now apply send_GetBlock_ok|].
    split; [|intros blk T E; exact (send_CopyCotBlkBuf_ok h s blk Ks T E)].
    intros u. split; [reflexivity|]. split; [apply recv_StealBlkBuf_throws|]. split; [reflexivity|apply send_StealBlkBuf_throws]. }
Qed.

Lemma ot_store_correct_witness :
  (exists h s r outs, pair_slices h s r [100; 28] = Some outs /\ pair_slices h s r [100; 29] = None) /\
  (exists h r s h', recv_SetBlock h r 5 9 = Some h' /\ recv_GetBlock h' r 5 = Some 9 /\
  recv_SetBlock h r 128 9 = None /\ send_GetBlock h s 5 2 = None /\ recv_Reset h r = None).
Proof.
  split.
  { destruct example_base as (h & r & s & Kr & Ks & _ & _ & Cor & _ & _ & Fs & Fr & Lr & _). exists h, s, r.
    rewrite <- (fresh_send_rest h s Fs), <- (fresh_recv_rest h r Fr) in Cor. rewrite <- (fresh_recv_rest h r Fr) in Lr.
    assert (F : forall a b, 0 <= a <= 100 -> 0 <= b <= 100 -> Forall (fun n => 0 <= n < 2 ^ 62) [a; b]) by (intros a b Ha Hb; repeat constructor; lia).
    pose proof ((proj1 ot_store_correct) h [100; 28] s r Ks Kr Cor (F 100 28 ltac:(lia) ltac:(lia))) as H1.
    pose proof ((proj1 ot_store_correct) h [100; 29] s r Ks Kr Cor (F 100 29 ltac:(lia) ltac:(lia))) as H2. rewrite Lr in H1, H2.
    destruct H1 as (outs & E & _). exists outs. exact (conj E H2). }
  { destruct example_base as (h & r & s & Kr & Ks & R128 & _). exists h, r, s.
    destruct ((proj2 ot_store_correct) h r s 5 2 9 Kr Ks ltac:(lia)) as (_ & [_ W] & _ & _ & G & R & _).
    destruct ((proj2 ot_store_correct) h r s 128 2 9 Kr Ks ltac:(lia)) as (_ & [T _] & _).
    destruct (W ltac:(lia)) as (h' & E & H). exists h'. split; [exact E|]. destruct (H r Kr) as [_ Hj]. destruct (Hj 5 ltac:(lia)) as [-> _].
    rewrite Nat.eqb_refl, R128. split; [|split; [apply T; lia|split; [exact G|apply (R 0%nat)]]]. destruct Kr as (blk & Eb & _).
    destruct (r_blk_buf r) as [p|]; [|discriminate]. cbn [same_buf]. now rewrite Nat.eqb_refl. }
Defined.

(** ** Symmetric primitives *)

Section Primitives.
Context {C : Cipher} {L : CipherLaws C}.

(** C17. The symmetric primitives.  [CrHash_128] is x -> pi(x) ^ x for the fixed-key
    permutation, and its batched forms map it over vectors of every length, batch by
    batch; the batched circular hashes map the same function of sigma(x), with sigma
    injective on blocks: in place over vectors of every length, and to a new vector over
    the first [num] blocks, where [num] is the length kept in 32 bits, so over all of
    them below 2^32 blocks and over too few from there on.  The single-block [CcrHash_128] is another function: it hashes
    the low half of its input only.  The generator refines a stream: [n] calls give
    what is left in the cache and then the encrypted counters from the current one on.
    [SetSeed] keeps the rest of the cache, made with the old seed.  A new generator of
    blocks gives the encryptions of 0, 1, 2, ...; a new generator of booleans gives 112
    times false first, whatever the seed and the cipher, and then the bits of these
    blocks. *)
Theorem symmetric_correct :
  (forall x y s, in128 x -> in128 y ->
    (CrHash_128 x = Some (cr x) /\ ParaCrHash_128 s = Some (map cr s) /\ ParaCrHashInplace_128 s = Some (map cr s)) /\
    (ParaCcrHash_128 s = Some (map (fun v => cr (Sigma_block v)) (firstn (Z.to_nat (u32 (Z.of_nat (length s)))) s)) /\
     (Z.of_nat (length s) < 2 ^ 32 -> ParaCcrHash_128 s = Some (map (fun v => cr (Sigma_block v)) s)) /\
     ParaCcrHashInplace_128 s = Some (map (fun v => cr (Sigma_block v)) s) /\
     Sigma_block x = MakeUint128 (lo x) (Z.lxor (hi x) (lo x)) /\ (Sigma_block x = Sigma_block y -> x = y)) /\
    CcrHash_128 x = Some (cr (MakeUint128 (lo x) 0)) /\ (lo x = lo y -> CcrHash_128 x = CcrHash_128 y)) /\
  (forall {T} {BATCH_SIZE} `{BL : BudgetLaws T BATCH_SIZE} n (p : Prg T BATCH_SIZE) seed mode B (HB : (0 < B)%nat),
    prg_ok p n -> Z.of_nat (n * per_refill (T := T) (BATCH_SIZE := BATCH_SIZE)) < 2 ^ 64 -> Z.of_nat (n * B) < 2 ^ 64 ->
    (exists p', Prg_outputs n p = Some (firstn n (leftover p ++ stream (mode_type (mode_ p)) (seed_ p) (counter_ p) n), p')) /\
    (exists p', Prg_outputs n (SetSeed p seed) = Some (firstn n (leftover p ++ stream (mode_type (mode_ p)) seed 0 n), p')) /\
    (exists p', Prg_outputs n (Prg_new (T := Z) (BATCH_SIZE := B) seed mode)
                = Some (map (fun i => ecb (mode_type mode) seed kInitVector (Z.of_nat i)) (seq 0 n), p')) /\
    (exists p', Prg_outputs n (Prg_new (T := bool) (BATCH_SIZE := 16) seed mode)
                = Some (firstn n (repeat false 112 ++ flat_map (fun i => bits_of_block (ecb (mode_type mode) seed kInitVector (Z.of_nat i))) (seq 0 n)), p'))).
Proof.
  split.
  { intros x y s. intros Hx Hy. assert (E : forall v, in128 v -> CcrHash_128 v = Some (cr (MakeUint128 (lo v) 0))).
    { intros v Hv. unfold CcrHash_128. now rewrite CrHash_ok, Sigma_eq. }
    split; [split; [apply CrHash_ok|split; [apply ParaCrHash_ok|apply ParaCrHashInplace_ok]]|].
    split; [split; [apply ParaCcrHash_ok|split; [intros Hs; now rewrite ParaCcrHash_ok, num_all, firstn_all|split; [apply ParaCcrHashInplace_ok|split; [now apply Sigma_block_eq|now apply Sigma_block_inj]]]]|].
    split; [now apply E|]. intros H. rewrite !E by assumption. now rewrite H. }
  { intros T BATCH_SIZE BO BL n p seed mode B HB. intros Hp Hn HnB. split; [|split; [|split]].
    - destruct (Prg_outputs_stream n p Hp) as (p' & E & _). now exists p'.
    - destruct (Prg_outputs_stream n (SetSeed p seed)) as (p' & E & _); [|now exists p'].
      destruct Hp as (H1 & H2 & _). refine (conj H1 (conj H2 (conj _ _))); cbn [counter_ SetSeed]; lia.
    - now apply Prg_new_outputs.
    - destruct (Prg_outputs_stream (T := bool) (BATCH_SIZE := 16) (BL := bool_laws 16 (Nat.lt_0_succ 15) eq_refl) n (Prg_new seed mode)) as (p' & E & _).
      + refine (conj (bool_new_ok 16 (Nat.lt_0_succ 15) eq_refl) (conj _ (conj _ _))); [apply Nat.leb_le; cbn [cipher_data_ Prg_new SetSeed elems bool_laws]; rewrite length_bits; reflexivity|apply Z.le_refl|].
        change (0 + Z.of_nat (n * 1) < 2 ^ 64). nia.
      + exists p'. etransitivity; [exact E|]. do 2 f_equal. unfold remaining. rewrite bool_new_leftover, bool_stream. reflexivity. }
Qed.

(** C18. Sampling below Mersenne primes: for 32 and 8 bits the folding loop ends
    within 2 and 7 rounds on every input and gives the value modulo the prime; for
    128 and 64 bits a single fold gives the residue, except that the prime itself
    is left as it is; and filling a buffer gives values below the prime. *)
Theorem mersenne_correct w buf fuel t seed iv count num : is_bytes (w + 5) buf -> (mersenne_rounds w <= fuel)%nat -> wide w \/ narrow w ->
  let p := GetMersennePrime w in
  (narrow w -> MersennePrimeMod fuel w buf = Some (le_val buf mod p)) /\
  (wide w -> let v := Z.land (le_val (firstn w buf)) p + le_val (firstn 5 (skipn w buf)) in
     MersennePrimeMod fuel w buf = Some (if v =? p then p else v mod p)) /\
  exists ret out, FillPRandWithMersennePrime fuel w t seed iv count num = Some (ret, out) /\ length out = num /\ Forall (fun v => 0 <= v < p) out.
Proof.
  intros Hb Hf Hw. cbv zeta. split; [intros Hn; now apply MersennePrimeMod_narrow|]. split; [intros H; now apply MersennePrimeMod_wide|].
  now apply FillPRandWithMersennePrime_ok.
Qed.
End Primitives.

Lemma symmetric_correct_witness : (CcrHash_128 (C := toy_cipher) 5 = CcrHash_128 (2 ^ 64 + 5) /\ Sigma_block 5 <> Sigma_block (2 ^ 64 + 5)) /\
  exists p' q', Prg_outputs (C := toy_cipher) 3 (Prg_new (T := Z) (BATCH_SIZE := 2) 9 kAesEcb)
    = Some (map (fun i => ecb AES128_ECB 9 0 (Z.of_nat i)) [0; 1; 2]%nat, p') /\
  Prg_outputs (C := toy_cipher) 3 (Prg_new (T := bool) (BATCH_SIZE := 16) 9 kAesEcb) = Some ([false; false; false], q').
Proof.
  destruct (symmetric_correct (C := toy_cipher) (L := toy_laws)) as [H G]. split.
  - destruct (H 5 (2 ^ 64 + 5) []) as (_ & (_ & _ & _ & _ & I) & _ & E); try (split; [discriminate|reflexivity]).
    split; [apply E; reflexivity|]. intros X. discriminate (I X).
  - assert (H2 : (0 < 2)%nat) by lia.
    destruct (G _ _ _ (u128_laws 2 H2) 3%nat (Prg_new 9 kAesEcb) 9 kAesEcb 2%nat H2) as (_ & _ & (p' & E) & (q' & F)).
    + refine (conj eq_refl (conj _ (conj _ _))); [apply Nat.leb_le; reflexivity|apply Z.le_refl|reflexivity].
    + reflexivity.
    + reflexivity.
    + exists p', q'. exact (conj E F).
Defined.

Lemma mersenne_correct_witness :
  MersennePrimeMod 2 4 (repeat 255 9) = Some ((2 ^ 72 - 1) mod (2 ^ 31 - 1)) /\
  MersennePrimeMod 7 8 (repeat 255 7 ++ [31] ++ repeat 0 5) = Some (2 ^ 61 - 1).
Proof.
  assert (B9 : is_bytes (4 + 5) (repeat 255 9)) by (split; [reflexivity|]; apply Forall_forall; intros y Hy; apply repeat_spec in Hy as ->; split; [discriminate|reflexivity]).
  assert (B13 : is_bytes (8 + 5) (repeat 255 7 ++ [31] ++ repeat 0 5)) by (split; [reflexivity|]; cbn [repeat app]; repeat (constructor; [split; [discriminate|reflexivity]|]); constructor).
  destruct (mersenne_correct (C := toy_cipher) (L := toy_laws) 4 (repeat 255 9) 2 AES128_CTR 0 0 0 3 B9 ltac:(cbn; lia) (or_intror (or_introl eq_refl))) as (N & _).
  destruct (mersenne_correct (C := toy_cipher) (L := toy_laws) 8 (repeat 255 7 ++ [31] ++ repeat 0 5) 7 AES128_CTR 0 0 0 3 B13 ltac:(cbn; lia) (or_introl (or_intror eq_refl))) as (_ & W & _).
  split; [rewrite N by (left; reflexivity); reflexivity|]. exact (W (or_intror eq_refl)).
Defined.

(** ** Extensions of oblivious transfers *)

Section Extensions.
Context {C : Cipher} {L : CipherLaws C} (sse2 : bool).

(** C19. IKNP: for 128 corresponding base transfers and any number of choices, the
    receiver's messages take the sender to the end, no exception is raised and no
    message is left; the outputs of the two parties correspond by the choices,
    with the difference of each pair equal to the base choices in the correlated
    variant; and the stores made from them are stores of these transfers, except
    that a correlated sender's store throws when all base choices are 0. *)
Theorem iknp_correct h r s choices num sb rb cot :
  recv_ok h r -> send_ok h s -> recv_Size r = 128 -> send_Size s = 128 -> correlated (send_view h s) (recv_view h r) ->
  IsSliced (s_slice s) = false -> IsSliced (r_slice r) = false ->
  wf 128 choices -> size choices = num -> 0 < Z.of_nat num < 2 ^ 62 -> length sb = num -> length rb = num ->
  exists ch sb' rb', IknpOtExtRecv sse2 2 h s choices rb cot [] = Some (rb', ch) /\
    IknpOtExtSend sse2 2 h r sb cot ch = Some (sb', []) /\ length sb' = num /\ length rb' = num /\
    correlated sb' (combine (bits 128 choices) rb') /\
    (cot = true -> Forall (fun p => snd p = Z.lxor (fst p) (delta_of h r)) sb') /\
    if cot && (delta_of h r =? 0) then ote_stores h r choices sb' rb' cot = None
    else exists s2 r2 h2, ote_stores h r choices sb' rb' cot = Some (s2, r2, h2) /\ send_ok h2 s2 /\ recv_ok h2 r2 /\
      send_view h2 s2 = sb' /\ recv_view h2 r2 = combine (bits 128 choices) rb'.
Proof.
  intros Kr Ks R128 S128 Base Us Ur W Sz Hn Lsb Lrb. assert (Np : (0 < num)%nat) by lia.
  do 3 eexists. split; [exact (recv_run sse2 h s Ks S128 choices num W Sz Np Us cot rb Lrb)|].
  split; [exact (send_run sse2 h r s Kr R128 Base choices num W Sz Np Ur cot sb Lsb)|].
  assert (L1 : length (map (send_out h r s choices num cot) (seq 0 num)) = num) by now rewrite length_map, length_seq.
  assert (L2 : length (map (recv_out h s num cot) (seq 0 num)) = num) by now rewrite length_map, length_seq.
  assert (Cor := outputs_correlated h r s choices num Sz cot).
  assert (Dl : cot = true -> Forall (fun p => snd p = Z.lxor (fst p) (delta_of h r)) (map (send_out h r s choices num cot) (seq 0 num))).
  { intros ->. apply Forall_forall. intros p Hp. apply in_map_iff in Hp as (n & <- & _). reflexivity. }
  do 4 (split; [assumption|]).
  pose proof (ote_stores_ok h r Kr R128 choices _ _ cot W (eq_trans Sz (eq_sym L2)) (eq_trans L1 (eq_sym L2)) ltac:(rewrite L2; lia) Cor Dl) as St.
  destruct (cot && (delta_of h r =? 0)); [exact St|]. destruct St as (s2 & r2 & h2 & E & K1 & K2 & _ & _ & V1 & V2 & _). now exists s2, r2, h2.
Qed.

(** C20. KOS: honest parties over 128 corresponding base transfers finish whatever
    the seed of the check, and their outputs correspond by the choices; in the
    correlated variant each pair differs by the base choices.  The 64 more
    choices are zeros: [ExtendChoice] appends no random bits. *)
Theorem kos_correct (ser : Z -> list Z) (de : list Z -> option Z) h r s choices num sb rb cot seed :
  recv_ok h r -> send_ok h s -> recv_Size r = 128 -> send_Size s = 128 -> correlated (send_view h s) (recv_view h r) ->
  wf 128 choices -> size choices = num -> (0 < num)%nat -> length sb = num -> length rb = num -> de (ser seed) = Some seed ->
  (exists sb' rb', kos_run sse2 ser de h r s choices seed cot sb rb = Some (sb', rb') /\ length sb' = num /\ length rb' = num /\
    correlated sb' (combine (bits 128 choices) rb') /\
    (cot = true -> Forall (fun p => snd p = Z.lxor (fst p) (delta_of h r)) sb')) /\
  exists b, push_rand kS (Prg_new 0 kAesEcb) choices = Some b /\ wf 128 b /\ size b = (num + 64)%nat /\
    forall p, bit_at 128 b p = bit_at 128 choices p.
Proof.
  intros Kr Ks R128 S128 Base W Sz Np Lsb Lrb Es. split.
  - do 2 eexists. split; [exact (kos_run_ok sse2 h r s Kr Ks R128 S128 Base choices num W Sz Np ser de cot seed sb rb Lsb Lrb Es)|].
    split; [now rewrite length_map, length_seq|]. split; [now rewrite length_map, length_seq|].
    split; [exact (kos_correlated h r s choices num W Sz Np cot)|]. intros ->. apply Forall_forall. intros p Hp.
    apply in_map_iff in Hp as (n & <- & _). reflexivity.
  - exists (choices_zeros choices). split; [apply rand_zeros|]. rewrite <- Sz. exact (choices_zeros_ok choices W).
Qed.

(** C21. The check of KOS.  Let rs be the random samples of the seed.  After an
    honest receiver's first messages the sender's column k is the receiver's, xored
    with the blocks of the choices where the k-th base choice is 1.  The honest
    receiver answers with x, the sum over rs of the words of its choices, and t, the
    sums of its columns (the inner products in GF(2^64) of C13), and the sender accepts.
    On any check message (x, t) the sender gives these outputs when for each k t_k,
    xored with x where the k-th base choice is 1, is the sum of its own column k, and
    throws otherwise.  So a message passes exactly when each t_k is the honest one
    xored, where the k-th base choice is 1, with the change of x. *)
Theorem kos_check_correct (ser : Z -> list Z) (de : list Z -> option Z) h r s choices num sb rb cot seed :
  recv_ok h r -> send_ok h s -> recv_Size r = 128 -> send_Size s = 128 -> correlated (send_view h s) (recv_view h r) ->
  wf 128 choices -> size choices = num -> (0 < num)%nat -> length sb = num -> length rb = num -> de (ser seed) = Some seed ->
  exists choice_ext kept others ch cols rs sb' rb',
    KosOtExtRecv_begin 2 h s choices num [] = Some ((choice_ext, (kept, others)), ch) /\ KosOtExtSend_begin 2 h r num ch = Some (cols, []) /\
    PrgAesCtr 8 seed (batches (num + kS) * 2) = Some rs /\
    (let blocks := m_blocks choice_ext in let sum l := inner Gf64Mul rs (words64 l) in let good := Check_ (sum blocks) (map sum kept) in
     (forall k, (k < 128)%nat -> nth k cols [] = zip_lxor (nth k kept []) (if choice h r k then blocks else repeat 0 (length blocks))) /\
     (in64 (x good) /\ length (t good) = kKappa /\ Forall in64 (t good)) /\
     KosOtExtRecv_end sse2 de rb cot (choice_ext, (kept, others)) (SyncSeedSend ser seed []) [] = Some (rb', [], [(KOS_CHECK, Pack good)]) /\
     KosOtExtSend_end sse2 h r sb cot cols seed [(KOS_CHECK, Pack good)] = Some (sb', []) /\ length sb' = num /\
     forall m, in64 (x m) -> length (t m) = kKappa -> Forall in64 (t m) ->
       let passes := forall k, (k < 128)%nat -> Z.lxor (at_ (t m) k) (mask_if (choice h r k) (x m)) = sum (nth k cols []) in
       (passes -> KosOtExtSend_end sse2 h r sb cot cols seed [(KOS_CHECK, Pack m)] = Some (sb', [])) /\
       (~ passes -> KosOtExtSend_end sse2 h r sb cot cols seed [(KOS_CHECK, Pack m)] = None) /\
       (passes <-> forall k, (k < 128)%nat -> at_ (t m) k = Z.lxor (at_ (t good) k) (mask_if (choice h r k) (Z.lxor (x m) (x good))))).
Proof.
  intros Kr Ks R128 S128 Base W Sz Np Lsb Lrb Es. destruct (chi num seed) as (rs & Ers & Lrs & Frs).
  exists (padded (choices_zeros choices) (num + kS)), (columns_of (num + kS) (key0 h s)), (columns_of (num + kS) (key1 h s)).
  do 2 eexists. exists rs. do 2 eexists.
  split; [exact (recv_begin h s Ks S128 choices num W Sz Np)|]. split; [exact (send_begin h r s Kr R128 Base choices num W Sz Np)|]. split; [exact Ers|].
  cbv zeta beta. assert (G : Check_ (inner Gf64Mul rs (words64 (m_blocks (padded (choices_zeros choices) (num + kS)))))
      (map (fun l => inner Gf64Mul rs (words64 l)) (columns_of (num + kS) (key0 h s))) = check_msg h s choices num rs)
    by (rewrite kept_columns, map_map; reflexivity).
  rewrite G. destruct (check_msg_ok h s choices num W Sz Np rs Frs) as (Gx & Gt & Gf).
  pose proof (send_end sse2 h r s Kr R128 choices num W Sz Np sb cot seed rs [] Lsb Ers Lrs Frs) as Fin. cbv zeta in Fin.
  assert (Sum : forall k, (k < 128)%nat -> inner Gf64Mul rs (words64 (nth k (opened h r s choices num (batches (num + kS))) [])) =
      Z.lxor (at_ (t (check_msg h s choices num rs)) k) (mask_if (choice h r k) (x (check_msg h s choices num rs))))
    by (intros k Hk; rewrite opened_column by assumption; now apply column_sum).
  split; [intros k Hk; rewrite opened_column, kept_columns, nth_columns by assumption; now apply cs_zip|].
  split; [exact (conj Gx (conj Gt Gf))|].
  split; [apply (recv_end sse2 h s choices num W Sz Np de rb cot seed rs _ [] []); try assumption; unfold SyncSeedRecv, SyncSeedSend, SendAsync; cbn [app]; now rewrite ctx_Recv_first, Es|].
  split; [destruct (Fin _ Gx Gt Gf) as [[_ E]|[N _]]; [exact E|now contradict N]|]. split; [now rewrite length_map, length_seq|].
  intros m Mx Mt Mf. specialize (Fin m Mx Mt Mf).
  assert (I : (forall k, (k < 128)%nat -> Z.lxor (at_ (t m) k) (mask_if (choice h r k) (x m)) =
      inner Gf64Mul rs (words64 (nth k (opened h r s choices num (batches (num + kS))) []))) <->
    (forall k, (k < 128)%nat -> Z.lxor (at_ (t m) k) (mask_if (choice h r k) (x m)) =
      Z.lxor (at_ (t (check_msg h s choices num rs)) k) (mask_if (choice h r k) (x (check_msg h s choices num rs)))))
    by (split; intros H k Hk; specialize (H k Hk); specialize (Sum k Hk); congruence).
  rewrite I. split; [|split].
  - intros P. destruct Fin as [[_ E]|[N _]]; [exact E|now contradict N].
  - intros N. destruct Fin as [[P _]|[_ E]]; [now contradict N|exact E].
  - split; intros H k Hk; apply lxor_mask_iff, H, Hk.
Qed.
End Extensions.

Lemma iknp_correct_witness : exists h r s ch rb, IknpOtExtRecv (C := toy_cipher) true 2 h s example_bits (repeat 0 130) false [] = Some (rb, ch) /\
  length rb = 130%nat /\ exists sb, IknpOtExtSend (C := toy_cipher) true 2 h r (repeat (0, 0) 130) false ch = Some (sb, []) /\
  correlated sb (combine (bits 128 example_bits) rb).
Proof.
  destruct example_base as (h & r & s & Kr & Ks & R & Z0 & Cor & Us & Ur & _). destruct example_bits_ok as [W Sz].
  destruct (iknp_correct (C := toy_cipher) (L := toy_laws) true h r s example_bits 130 (repeat (0, 0) 130) (repeat 0 130) false
    Kr Ks R Z0 Cor Us Ur W Sz ltac:(lia) (repeat_length _ _) (repeat_length _ _)) as (ch & sb & rb & E1 & E2 & _ & L2 & Co & _).
  exists h, r, s, ch, rb. split; [exact E1|]. split; [exact L2|]. exists sb. exact (conj E2 Co).
Defined.

Lemma kos_correct_witness : exists h r s sb rb, kos_run (C := toy_cipher) true (fun v => [v]) (fun l => hd_error l) h r s example_bits 77 true
    (repeat (0, 0) 130) (repeat 0 130) = Some (sb, rb) /\ correlated sb (combine (bits 128 example_bits) rb).
Proof.
  destruct example_base as (h & r & s & Kr & Ks & R & Z0 & Cor & _). destruct example_bits_ok as [W Sz].
  destruct (kos_correct (C := toy_cipher) (L := toy_laws) true (fun v => [v]) (fun l => hd_error l) h r s example_bits 130 (repeat (0, 0) 130) (repeat 0 130) true 77
    Kr Ks R Z0 Cor W Sz ltac:(lia) (repeat_length _ _) (repeat_length _ _) eq_refl) as [(sb & rb & E & _ & _ & Co & _) _].
  exists h, r, s, sb, rb. exact (conj E Co).
Defined.

Lemma kos_check_correct_witness : exists h r s st ch cols good sb rb,
  KosOtExtRecv_begin (C := toy_cipher) 2 h s example_bits 130 [] = Some (st, ch) /\ KosOtExtSend_begin (C := toy_cipher) 2 h r 130 ch = Some (cols, []) /\
  KosOtExtRecv_end (C := toy_cipher) true (fun l => hd_error l) (repeat 0 130) false st (SyncSeedSend (fun v => [v]) 77 []) [] = Some (rb, [], [(KOS_CHECK, Pack good)]) /\
  KosOtExtSend_end (C := toy_cipher) true h r (repeat (0, 0) 130) false cols 77 [(KOS_CHECK, Pack good)] = Some (sb, []) /\
  KosOtExtSend_end (C := toy_cipher) true h r (repeat (0, 0) 130) false cols 77 [(KOS_CHECK, Pack (Check_ (x good) (map (Z.lxor 1) (t good))))] = None.
Proof.
  destruct example_base as (h & r & s & Kr & Ks & R & Z0 & Cor & _). destruct example_bits_ok as [W Sz].
  destruct (kos_check_correct (C := toy_cipher) (L := toy_laws) true (fun v => [v]) (fun l => hd_error l) h r s example_bits 130 (repeat (0, 0) 130) (repeat 0 130) false 77
    Kr Ks R Z0 Cor W Sz ltac:(lia) (repeat_length _ _) (repeat_length _ _) eq_refl) as (ce & kept & others & ch & cols & rs & sb & rb & E1 & E2 & _ & _ & (Gx & Gt & Gf) & E3 & E4 & _ & V).
  exists h, r, s, (ce, (kept, others)), ch, cols. do 3 eexists. split; [exact E1|]. split; [exact E2|]. split; [exact E3|]. split; [exact E4|].
  destruct (V (Check_ (inner Gf64Mul rs (words64 (m_blocks ce))) (map (Z.lxor 1) (map (fun l => inner Gf64Mul rs (words64 l)) kept))) Gx) as (_ & N & I).
  - cbn [t] in *. now rewrite length_map.
  - cbn [t] in *. apply Forall_forall. intros y Hy. apply in_map_iff in Hy as (v & <- & Hv). rewrite Forall_forall in Gf.
    apply (lxor_bound 1 v 64); [lia|lia|exact (Gf v Hv)].
  - apply N. rewrite I. intros X. specialize (X 0%nat ltac:(lia)). cbn [x t] in X, Gt. rewrite Z.lxor_nilpotent in X.
    rewrite at_map in X by (right; rewrite Gt; unfold kKappa; lia).
    set (v := at_ _ 0) in X at 2. assert (M : forall b : bool, mask_if b 0 = 0) by now intros [].
    rewrite M, Z.lxor_0_r in X. change (at_ (map (fun l => inner Gf64Mul rs (words64 l)) kept) 0) with v in X.
    apply (f_equal (Z.lxor v)) in X. rewrite (Z.lxor_comm 1), <- Z.lxor_assoc, Z.lxor_nilpotent in X. discriminate X.
Defined.
