(* ===== verification/FssCorrect.v ===== *)
(** Properties of function secret sharing: the point function, the comparison
    function, the puncturable pseudorandom function. *)
From Stdlib Require Import ZArith Lia List Bool.
From stdpp Require Import base option list gmap.
From S2P Require Import Prelude.
From S2P Require Import Errors.
From S2P Require Import Int128.
From S2P Require Import Cipher.
From S2P Require Import OtExt.
From S2P Require Import Ge2n.
From S2P Require Import Fss.
From S2P Require Import TermLevel.
From S2P Require Import Dpf.
From S2P Require Import Dcf.
From S2P Require Import Pprf.
Import ListNotations.
#[local] Open Scope Z_scope.

Section Shared.
Context {C : Cipher} {L : CipherLaws C}.

(** C22. The point function: whatever the master seeds, key generation succeeds and
    the outputs of the two parties at x add up to beta when x is alpha in its M
    bits, and to 0 otherwise.  Keys for the whole domain evaluate it to vectors
    whose elements are the point evaluations, in order, each element written;
    evaluation in the mode a key is not made for throws; and the level at which
    full evaluation stops is always the last one. *)
Theorem dpf_correct M N alpha beta mk0 mk1 : fss_params M N ->
  GetTerminateLevel true M N = M /\
  exists k0 k1, DpfKeyGen M N alpha beta mk0 mk1 false = Some (k0, k1) /\
    DpfKeyGen M N alpha beta mk0 mk1 true = Some (EnableEvalAll k0, EnableEvalAll k1) /\
    (forall x, exists y0 y1, DpfEval M N k0 x = Some y0 /\ DpfEval M N k1 x = Some y1 /\
       ge2n_eqb (Z.of_nat N) (ge2n_add y0 y1) (if ge2n_eqb (Z.of_nat M) x alpha then beta else 0) = true) /\
    (forall out0 out1, (M < 32)%nat -> Z.of_nat (length out0) = 2 ^ Z.of_nat M -> length out1 = length out0 ->
       exists r0 r1, DpfEvalAll M N (EnableEvalAll k0) out0 = Some r0 /\ DpfEvalAll M N (EnableEvalAll k1) out1 = Some r1 /\
         length r0 = length out0 /\ length r1 = length out0 /\
         forall x, 0 <= x < 2 ^ Z.of_nat M ->
           DpfEval M N k0 x = Some (GetVal (Z.of_nat N) (at_ r0 (Z.to_nat x))) /\ DpfEval M N k1 x = Some (GetVal (Z.of_nat N) (at_ r1 (Z.to_nat x)))) /\
    (forall x out, DpfEval M N (EnableEvalAll k0) x = None /\ DpfEvalAll M N k0 out = None).
Proof.
  intros P. pose proof (fss_width M N P) as W. split; [apply GetTerminateLevel_last; now destruct P|].
  exists (dpf_key M N alpha beta mk0 mk1 false false), (dpf_key M N alpha beta mk0 mk1 false true).
  split; [now apply DpfKeyGen_ok|]. split; [rewrite DpfKeyGen_ok by exact P; reflexivity|]. split; [|split; [|now intros]].
  - intros x. do 2 eexists. split; [now apply DpfEval_ok|]. split; [now apply DpfEval_ok|]. apply ge2n_eqb_spec; [exact W|].
    etransitivity; [cong2_lin|]. now apply shares_sum.
  - intros out0 out1 HM L0 L1. destruct (DpfEvalAll_ok M N alpha beta mk0 mk1 false out0 P HM L0) as (r0 & E0 & N0 & A0).
    destruct (DpfEvalAll_ok M N alpha beta mk0 mk1 true out1 P HM) as (r1 & E1 & N1 & A1); [now rewrite L1|].
    exists r0, r1. split; [exact E0|]. split; [exact E1|]. split; [exact N0|]. split; [congruence|]. intros x Hx. rewrite A0, A1 by exact Hx.
    split; now apply DpfEval_ok.
Qed.

(** C23. The comparison function: whatever the master seeds, the outputs of the two
    parties at x add up to beta when x is below alpha as numbers of M bits, and to
    0 otherwise, x = alpha included. *)
Theorem dcf_correct M N alpha beta mk0 mk1 : fss_params M N ->
  exists k0 k1, DcfKeyGen M N alpha beta mk0 mk1 = Some (k0, k1) /\
    forall x, exists y0 y1, DcfEval M N k0 x = Some y0 /\ DcfEval M N k1 x = Some y1 /\
      ge2n_eqb (Z.of_nat N) (ge2n_add y0 y1) (if ge2n_ltb (Z.of_nat M) x alpha then beta else 0) = true.
Proof.
  intros P. pose proof (fss_width M N P) as W. do 2 eexists. split; [now apply DcfKeyGen_ok|].
  intros x. do 2 eexists. split; [now apply DcfEval_ok|]. split; [now apply DcfEval_ok|]. apply ge2n_eqb_spec; [exact W|].
  etransitivity; [cong2_lin|]. now apply dcf_shares_sum.
Qed.

(** C24. The puncturable function: for up to 30 bits puncturing gives one seed a level,
    with which every point but the punctured one evaluates as under the key, while
    the punctured one is refused; seeds already in the key object are kept.  The
    leaves of the expanded tree are the evaluations, the path read from the top.
    For 31 bits and more puncturing never succeeds. *)
Theorem pprf_correct M N key p out : (0 < M <= 64)%nat ->
  (forall x, PprfEval M N key x = Some (walk (low_bit x) 0 M key)) /\
  ((31 <= M)%nat -> PprfPunc M N key p out = None) /\
  ((M <= 30)%nat ->
    (exists pk, PprfPunc M N key p (PuncKey 0 ∅) = Some pk /\ (forall j, is_Some (seeds pk !! j) <-> (j < M)%nat) /\
      (forall x, PprfPuncEval M N pk x = if ge2n_eqb (Z.of_nat M) x p then None else PprfEval M N key x) /\
      PprfPunc M N key p out = Some (PuncKey (punc_point pk) (seeds out ∪ seeds pk))) /\
    exists l, GgmFullExpand (M + 1) (key :: repeat 0%Z (2 ^ M - 1)) = Some l /\
      forall x, (x < 2 ^ M)%nat -> nth_error l x = Some (walk (high_bit M (Z.of_nat x)) 0 M key)).
Proof.
  intros HM. assert (WM : width_ok (Z.of_nat M)) by (unfold width_ok; lia).
  assert (EV : forall x, PprfEval M N key x = Some (walk (low_bit x) 0 M key)) by (intros x; apply PprfEval_loop; lia).
  split; [exact EV|]. split; [intros H; apply PprfPunc_large; lia|]. intros H30. split.
  - set (pk := PuncKey (GetVal (Z.of_nat M) p) (beside (low_bit p) 0 M key)). exists pk.
    assert (PB : forall j, (j < M)%nat -> low_bit (punc_point pk) j = low_bit p j)
      by (intros j Hj; apply (proj1 (same_bits (Z.of_nat M) _ _ ltac:(lia)) (cong2_GetVal (Z.of_nat M) p WM)); lia).
    split; [rewrite PprfPunc_ok by exact H30; cbn [seeds]; now rewrite (left_id_L ∅ (∪))|]. split; [|split].
    + intros j. cbn [seeds pk]. rewrite beside_lookup. destruct (Nat.leb_spec 0 j), (Nat.ltb_spec j (0 + M)); cbn [andb]; split; intros X; try lia; try (now eexists); destruct X; discriminate.
    + intros x. unfold PprfPuncEval, YACL_ENFORCE. rewrite (punc_eval_loop pk key x M); [|lia|].
      2: { intros j Hj. cbn [seeds pk]. rewrite beside_lookup, Nat.sub_0_r. destruct (Nat.leb_spec 0 j), (Nat.ltb_spec j (0 + M)); try lia. cbn [andb].
           rewrite PB by exact Hj. do 2 f_equal. apply walk_ext. intros i Hi. symmetry. apply PB. lia. }
      assert (A : agree (low_bit x) (low_bit (punc_point pk)) 0 M = ge2n_eqb (Z.of_nat M) x p).
      { apply eq_true_iff_eq. rewrite agree_cong2, ge2n_eqb_spec by exact WM. cbn [punc_point pk]. now rewrite cong2_GetVal by exact WM. }
      assert (B : ge2n_eqb (Z.of_nat M) (punc_point pk) x = ge2n_eqb (Z.of_nat M) x p).
      { apply eq_true_iff_eq. rewrite !ge2n_eqb_spec by exact WM. cbn [punc_point pk]. rewrite cong2_GetVal by exact WM. now split; symmetry. }
      rewrite A, B. destruct (ge2n_eqb (Z.of_nat M) x p); cbn [negb]; [reflexivity|]. now rewrite EV.
    + now apply PprfPunc_ok.
  - pose proof (Nat.pow_nonzero 2 M ltac:(lia)). destruct (GgmFullExpand_ok M (M + 1) (key :: repeat 0%Z (2 ^ M - 1)) key ltac:(lia)) as (l & E & _ & A);
      [cbn [length]; rewrite repeat_length; lia|reflexivity|]. now exists l.
Qed.
End Shared.

(** A domain of 8 bits, outputs of 64. *)
Lemma params_8_64 : fss_params 8 64.
Proof. split; [lia|now left]. Qed.

Lemma dpf_correct_witness : exists k0 k1 y0 y1 z0 z1, DpfKeyGen (C := toy_cipher) 8 64 5 77 1 2 false = Some (k0, k1) /\
  DpfEval (C := toy_cipher) 8 64 k0 5 = Some y0 /\ DpfEval (C := toy_cipher) 8 64 k1 5 = Some y1 /\ ge2n_eqb 64 (ge2n_add y0 y1) 77 = true /\
  DpfEval (C := toy_cipher) 8 64 k0 6 = Some z0 /\ DpfEval (C := toy_cipher) 8 64 k1 6 = Some z1 /\ ge2n_eqb 64 (ge2n_add z0 z1) 0 = true.
Proof.
  destruct (dpf_correct (C := toy_cipher) (L := toy_laws) 8 64 5 77 1 2 params_8_64) as (_ & k0 & k1 & G & _ & E & _).
  destruct (E 5) as (y0 & y1 & Y). destruct (E 6) as (z0 & z1 & Z). exists k0, k1, y0, y1, z0, z1. split; [exact G|].
  destruct Y as (Y0 & Y1 & Y2), Z as (Z0 & Z1 & Z2). exact (conj Y0 (conj Y1 (conj Y2 (conj Z0 (conj Z1 Z2))))).
Defined.

Lemma dcf_correct_witness : exists k0 k1 y0 y1 z0 z1, DcfKeyGen (C := toy_cipher) 8 64 5 77 1 2 = Some (k0, k1) /\
  DcfEval (C := toy_cipher) 8 64 k0 4 = Some y0 /\ DcfEval (C := toy_cipher) 8 64 k1 4 = Some y1 /\ ge2n_eqb 64 (ge2n_add y0 y1) 77 = true /\
  DcfEval (C := toy_cipher) 8 64 k0 5 = Some z0 /\ DcfEval (C := toy_cipher) 8 64 k1 5 = Some z1 /\ ge2n_eqb 64 (ge2n_add z0 z1) 0 = true.
Proof.
  destruct (dcf_correct (C := toy_cipher) (L := toy_laws) 8 64 5 77 1 2 params_8_64) as (k0 & k1 & G & E).
  destruct (E 4) as (y0 & y1 & Y). destruct (E 5) as (z0 & z1 & Z). exists k0, k1, y0, y1, z0, z1. split; [exact G|].
  destruct Y as (Y0 & Y1 & Y2), Z as (Z0 & Z1 & Z2). exact (conj Y0 (conj Y1 (conj Y2 (conj Z0 (conj Z1 Z2))))).
Defined.

Lemma pprf_correct_witness : exists pk y, PprfPunc (C := toy_cipher) 8 64 9 5 (PuncKey 0 ∅) = Some pk /\ PprfPuncEval (C := toy_cipher) 8 64 pk 5 = None /\
  PprfPuncEval (C := toy_cipher) 8 64 pk 6 = Some y /\ PprfEval (C := toy_cipher) 8 64 9 6 = Some y /\ PprfPunc (C := toy_cipher) 64 64 9 5 (PuncKey 0 ∅) = None.
Proof.
  destruct (pprf_correct (C := toy_cipher) (L := toy_laws) 8 64 9 5 (PuncKey 0 ∅) ltac:(lia)) as (E & _ & H).
  destruct (H ltac:(lia)) as [(pk & G & _ & X & _) _]. destruct (pprf_correct (C := toy_cipher) (L := toy_laws) 64 64 9 5 (PuncKey 0 ∅) ltac:(lia)) as (_ & Q & _).
  exists pk, (walk (C := toy_cipher) (low_bit 6) 0 8 9). split; [exact G|]. split; [apply (X 5)|]. split; [rewrite (X 6); apply E|]. split; [apply E|apply Q; lia].
Defined.
