(* ===== verification/ChannelCorrect.v ===== *)
(** The properties of the link layer: strings, the set of sequence numbers, the link
    over sockets, retries, chunks, and two channels that are each the other's peer. *)
From Stdlib Require Import ZArith Lia List Bool.
From stdpp Require Import base option list gmap.
From S2P Require Import Prelude.
From S2P Require Import Errors.
From S2P Require Import Strings.
From S2P Require Import StringsSpec.
From S2P Require Import SegTree.
From S2P Require Import Link.
From S2P Require Import Retry.
From S2P Require Import Channel.
From S2P Require Import Chunks.
From S2P Require Import ChannelNet.
Import ListNotations.
#[local] Open Scope Z_scope.

(** C25. Strings and back: hexadecimal text is read as the bytes it was written from,
    and whatever is read is written again up to the case of its letters; a number
    written by [to_string] is read by [SimpleAtoi]; the pieces of a split hold no
    separator and join to the whole, pieces without the separator are the split of
    their join, and the split by a string of one character is the split by it. *)
Theorem strings_roundtrip :
  (forall bs out, Forall byte bs -> HexStringToBytes (BytesToHexString bs) out = (true, bs)) /\
  (forall hex out bs, HexStringToBytes hex out = (true, bs) -> BytesToHexString bs = AsciiStrToLower hex) /\
  (forall n, 0 <= n < 2 ^ 64 -> SimpleAtoi_u64 (to_string n) = Some n) /\
  (forall n, - 2 ^ 63 <= n < 2 ^ 63 -> SimpleAtoi_i64 (to_string n) = Some n) /\
  (forall sv d, StrJoin (StrSplit sv d) [d] = sv /\ Forall (fun p => ~ In d p) (StrSplit sv d)) /\
  (forall parts d, parts <> [] -> Forall (fun p => ~ In d p) parts -> StrSplit (StrJoin parts [d]) d = parts) /\
  (forall sv sep, sep <> [] -> exists ps, StrSplit_sep sv sep = Some ps /\ StrJoin ps sep = sv /\ Forall (fun p => StrContains p sep = false) ps) /\
  (forall sv d, StrSplit_sep sv [d] = Some (StrSplit sv d)).
Proof.
  repeat match goal with |- _ /\ _ => split end.
  - exact hex_roundtrip.
  - exact hex_reads.
  - exact atoi_to_string.
  - exact atoi_i64_to_string.
  - intros sv d. rewrite StrSplit_ok, StrJoin_ok. split; [apply join_split|apply split_no_delim].
  - intros parts d N F. rewrite StrSplit_ok, StrJoin_ok. now apply split_join.
  - intros sv sep N. destruct (StrSplit_sep_ok sv sep N) as (ps & E & _ & J & F). exists ps. split; [exact E|]. split; [exact J|].
    eapply Forall_impl; [exact F|]. intros p Hp. unfold StrContains. now rewrite Hp.
  - exact StrSplit_sep_char.
Qed.

(** C26. The tree of segments is a set: from the empty tree, [Insert] adds its item and
    tells whether it was new, [Contains] decides membership, [Count] is the number of
    the elements, equal sets have equal segments, and the set is 1 to some [m >= n]
    exactly when there is one segment and it holds 1 and [n]. *)
Theorem segment_tree_set t x : tree_ok t -> 0 <= x < 2 ^ 64 - 1 ->
  let '(new, t') := Insert t x in
  tree_ok t' /\ (new = true <-> ~ elem x t) /\ (forall y, Contains t' y = true <-> y = x \/ elem y t) /\
  Count t' = Z.of_nat (length (elements t')) /\ (forall y, In y (elements t') <-> elem y t') /\
  (forall t2, tree_ok t2 -> (forall y, elem y t2 <-> elem y t') -> GetSegments t2 = GetSegments t') /\
  ((forall y, elem y t' -> 1 <= y) -> forall n, 1 <= n -> has_all t' n = true <-> exists m, n <= m /\ forall y, elem y t' <-> 1 <= y <= m).
Proof.
  intros Ht Hx. pose proof (Insert_ok t x Ht Hx) as I. destruct (Insert t x) as [new t']. destruct I as (It & In_ & Ie & Ic).
  split; [exact It|]. split; [|split; [|split; [|split; [|split]]]].
  - rewrite In_, negb_true_iff, <- not_true_iff_false. now rewrite (Contains_ok t x Ht).
  - intros y. now rewrite (Contains_ok t' y It), Ie.
  - symmetry. apply (elements_ok t' It).
  - intros y. apply in_elements.
  - intros t2 H2 E. apply (apart_unique (-1)); [apply H2|apply It|exact E].
  - intros H1 n Hn. rewrite <- (one_segment t' n It Hn H1). unfold has_all. rewrite negb_true_iff, !orb_false_iff, !negb_false_iff, Nat.ltb_ge. tauto.
Qed.

Lemma segment_tree_set_witness : let t := snd (Insert (snd (Insert SegmentTree_empty 1)) 3) in
  let '(new, t') := Insert t 2 in GetSegments t' = [(1, 4)] /\ (new = true <-> ~ elem 2 t).
Proof.
  pose proof (segment_tree_set (snd (Insert (snd (Insert SegmentTree_empty 1)) 3)) 2) as H. cbv zeta.
  assert (Ht : tree_ok (snd (Insert (snd (Insert SegmentTree_empty 1)) 3))) by (vm_compute; intuition discriminate).
  specialize (H Ht ltac:(lia)). destruct (Insert (snd (Insert SegmentTree_empty 1)) 3) as [b t] eqn:E. vm_compute in E. injection E as <- <-. cbn [snd] in *.
  destruct (Insert _ 2) as [new t'] eqn:E. vm_compute in E. injection E as <- <-. split; [reflexivity|]. apply H.
Defined.

(** C27. The link over sockets keeps the promises of the interface, given an encoding
    that does: what it packs is told apart and taken apart again.  A header is read as
    it was written; and what [DoSend] writes is, whatever follows it on the socket,
    one message for [ReadMessage], which hands the same request to the listener of the
    sender's rank and answers that it went well exactly when the listener did. *)
Theorem asio_link_correct (Mp : Msgpack) (ML : MsgpackLaws Mp) self_rank max : 0 < max < 2 ^ 32 ->
  TransportLinkLaws (AsioLink self_rank max) /\
  (forall h, header_ok h -> Parse (Serialize h) = h /\ length (Serialize h) = kHeaderLen) /\
  forall (S : Type) (listeners : Z -> option (AsioRequest -> option S)) m rest, push_ok m -> Z.of_nat (length (pack_push m)) < 2 ^ 32 ->
    let out := match listeners (sender_rank m) with Some f => f (asio_request m) | None => None end in
    exists answer, ReadMessage listeners (DoSend (asio_request m) ++ rest) = Some (answer, out, rest) /\
      (Z.of_nat (length (pack_ack (MkAck (match out with Some _ => kErrorCodeOk | None => kErrorCodeInvalid end) []))) < 2 ^ 32 ->
       forall more, ReadResponse (answer ++ more) = match out with Some _ => Some tt | None => None end).
Proof.
  intros Hm. split; [exact (AsioLinkLaws self_rank max Hm)|]. split; [intros h Hh; split; [now apply Parse_Serialize|reflexivity]|].
  intros S listeners m rest Hp Hl out. eexists. split; [exact (ReadMessage_DoSend listeners m rest Hp Hl)|]. fold out. intros La more.
  rewrite ReadResponse_ok by (exact La || (destruct out; cbn; unfold kErrorCodeOk, kErrorCodeInvalid; lia)). now destruct out.
Qed.

Lemma asio_link_correct_witness :
  let m := MkPush 1 [97] [7; 8] kTransMono 0 0 in
  exists answer, ReadMessage (fun r => if r =? 1 then Some (fun q => Some (body q)) else None) (DoSend (asio_request m) ++ [5]) = Some (answer, Some (pack_push m), [5]) /\
    ReadResponse answer = Some tt.
Proof.
  destruct (asio_link_correct toy_msgpack toy_msgpack_laws 1 20 ltac:(lia)) as (_ & _ & H).
  destruct (H _ (fun r => if r =? 1 then Some (fun q => Some (body q)) else None) (MkPush 1 [97] [7; 8] kTransMono 0 0) [5]) as (answer & E & R).
  - repeat split; cbn; unfold kTransMono; try lia; repeat match goal with |- Forall _ [] => constructor | |- Forall _ _ => constructor; [unfold byte; lia|] end.
  - cbn. lia.
  - exists answer. split; [exact E|]. specialize (R ltac:(cbn; lia) []). rewrite app_nil_r in R. exact R.
Defined.

(** C28. A request is sent at most [max_retry + 1] times and the loop ends: there is a
    last attempt, every one before it failed with an error the options retry, the last
    is not followed by another, and the request was sent exactly when the last attempt
    went well; between attempts [k] and [k + 1] the thread sleeps [interval_ms k], at
    most [max_retry_interval_ms]. *)
Theorem retry_correct o link aborting : options_ok o ->
  exists r slept, SendRequestWithRetry o link aborting = Some (r, slept) /\
    let last := Z.of_nat (length slept) in
    last <= max_retry o /\ (forall j, 0 <= j < last -> goes_on o link aborting j) /\ ~ goes_on o link aborting last /\
    (r = Sent <-> aborting last = false /\ link last = None) /\
    slept = map (fun i => interval_ms o (Z.of_nat i)) (seq 0 (length slept)) /\ Forall (fun t => 0 <= t <= max_retry_interval_ms o) slept.
Proof.
  intros O. destruct (retry_ends o link aborting O (S (Z.to_nat (max_retry o))) 0) as (r & slept & E & B & G & NG & S & SL); [destruct O; lia|lia|].
  exists r, slept. split; [exact E|]. cbn zeta in *. rewrite Z.add_0_l in *. split; [lia|]. split; [exact G|]. split; [exact NG|]. split; [exact S|]. split; [exact SL|].
  rewrite SL. apply List.Forall_forall. intros t Ht. apply in_map_iff in Ht as (i & <- & _). unfold interval_ms, u32, uwrap. destruct O as (_ & _ & _ & O4).
  pose proof (Z.mod_pos_bound (retry_interval_ms o + (0 + Z.of_nat i) * retry_interval_incr_ms o mod 2 ^ 32) (2 ^ 32) ltac:(lia)). lia.
Qed.

Lemma retry_correct_witness : options_ok RetryOptions_default /\
  SendRequestWithRetry RetryOptions_default (fun k => if k <? 2 then Some (LinkErr 5 0) else None) (fun _ => false) = Some (Sent, [1000; 3000]) /\
  exists r slept, SendRequestWithRetry RetryOptions_default (fun k => if k <? 2 then Some (LinkErr 5 0) else None) (fun _ => false) = Some (r, slept) /\ Z.of_nat (length slept) <= 3.
Proof.
  assert (O : options_ok RetryOptions_default) by (repeat split; cbn; lia). split; [exact O|]. split; [reflexivity|].
  destruct (retry_correct RetryOptions_default (fun k => if k <? 2 then Some (LinkErr 5 0) else None) (fun _ => false) O) as (r & slept & E & B & _). exists r, slept. now split.
Defined.

(** C29. A message larger than a request is sent in chunks, and they may arrive in any
    order and more than once: while one is missing the channel only stores them, and
    the one that was missing hands the whole message to [OnMessage], with the state as
    it was before the first. *)
Theorem chunks_reassembled (L : TransportLink) (LL : TransportLinkLaws L) key value c is_ i :
  link_key key -> Forall byte value -> fits value -> aborting_ c = false -> chunked_values_ c !! key = None ->
  (forall j, In j (is_ ++ [i]) -> (j < length (SendChunked key value))%nat) ->
  ~ (forall j, (j < length (SendChunked key value))%nat -> In j is_) -> (forall j, (j < length (SendChunked key value))%nat -> In j (is_ ++ [i])) ->
  let request j := nth j (SendChunked key value) (PackMonoRequest [] []) in
  let waiting := deliver_all (map request is_) c in
  set_chunked (chunked_values_ c) waiting = c /\ OnRequest (request i) waiting = OnMessage key value c.
Proof.
  intros Hk Hb F Ha Hn HI NC C request waiting. pose proof (SendChunked_ok key value F) as SC.
  assert (Ln : length (SendChunked key value) = chunk_count value) by (now rewrite SC, length_map, length_seq). rewrite Ln in HI, NC, C.
  assert (R : forall j, (j < chunk_count value)%nat -> request j = chunk_request key value j).
  { intros j Hj. unfold request. rewrite SC. rewrite (nth_indep _ _ (chunk_request key value 0)) by (rewrite length_map, length_seq; exact Hj).
    rewrite map_nth, seq_nth by exact Hj. reflexivity. }
  assert (W : waiting = deliver_all (map (chunk_request key value) is_) c).
  { unfold waiting. f_equal. apply map_ext_in. intros j Hj. apply R, HI, in_app_iff. now left. }
  split.
  - destruct (chunks_wait key value c Hk Hb F Ha Hn is_ ltac:(intros j Hj; apply HI, in_app_iff; now left) NC) as (chunks & E & _). rewrite W, E. exact (set_chunked_id c).
  - rewrite W, R by (apply HI, in_app_iff; right; now left). now apply chunks_complete.
Qed.

(** A link of 20 bytes a request, to run the channels with. *)
Definition toy_link : TransportLink := AsioLink 1 20.
Definition toy_link_laws : TransportLinkLaws toy_link := AsioLinkLaws 1 20 (conj eq_refl eq_refl).

Lemma chunks_reassembled_witness :
  let value := repeat 7 45 in let key := BuildChannelKey [97] 1 in let c := Channel_new 0 false in
  let request j := nth j (@SendChunked toy_link key value) (@PackMonoRequest toy_link [] []) in
  snd (@OnRequest toy_link (request 0%nat) (@deliver_all toy_link (map request [2; 2; 1]%nat) c)) = snd (OnMessage key value c) /\
  recv_msgs_ (snd (OnMessage key value c)) !! [97] = Some (value, 1).
Proof.
  destruct (chunks_reassembled toy_link toy_link_laws (BuildChannelKey [97] 1) (repeat 7 45) (Channel_new 0 false) [2; 2; 1]%nat 0%nat) as [_ E].
  - split; [|cbn; lia]. apply List.Forall_forall. intros x Hx. cbv in Hx. unfold byte. lia.
  - apply List.Forall_forall. intros x Hx. apply repeat_spec in Hx as ->. unfold byte. lia.
  - unfold fits. cbn. lia.
  - reflexivity.
  - apply lookup_empty.
  - intros j Hj. change (length _) with 3%nat. cbn in Hj. lia.
  - change (length _) with 3%nat. intros H. specialize (H 0%nat ltac:(lia)). cbn in H. lia.
  - change (length _) with 3%nat. intros j Hj. cbn. lia.
  - split; [exact (f_equal snd E)|vm_compute; reflexivity].
Defined.

(** C30. What [Recv] returns is what the peer sent, and at most once: of every run of the
    two channels, whatever the network delays, repeats or reorders, no message number
    is received twice, and number [s] under key [k] with value [v] is the [s]-th message
    that the peer sent, with that key and value.  No request on its way makes the
    receiver do anything undefined. *)
Theorem channel_delivery (L : TransportLink) (LL : TransportLinkLaws L) n b : 20 <= GetMaxBytesPerChunk -> reach n ->
  NoDup (map (fun x => fst (fst x)) (got (side n b))) /\
  (forall s k v, In (s, k, v) (got (side n b)) -> 1 <= s /\ nth_error (sent (side n (negb b))) (Z.to_nat (s - 1)) = Some (k, v)) /\
  (forall m r, In m (tasks (ch (side n (negb b)))) -> In r (SendImpl (msg_key_ m) (value_ m)) -> fst (OnRequest r (ch (side n b))) <> Undefined).
Proof.
  intros M R. pose proof (reach_inv M n R) as I. pose proof (I b) as Ib. split; [apply (i_got _ _ Ib)|]. split; [intros s k v H; apply (i_got _ _ Ib), H|].
  intros m r Hm Hr. apply (OnRequest_defined M (peer_of (side n (negb b))) (side n b) (msg_key_ m) (value_ m) r); try assumption.
  - exact (net_peer_ok n (negb b) I).
  - exact (net_peer_msgs n (negb b) I m Hm).
Qed.

(** C31. The throttle window bounds what is unread.  Let the wait of message [s] be over
    with a window of [w] messages, the peer not closing.  When the send thread was
    waiting, for the message it submitted last, the peer's [Recv] has returned no message
    past [s], and fewer than [w] of the messages up to [s] are unreturned.  When another
    thread waits, as in [SendAsyncThrottled], messages past [s] may have been returned
    too, and each of them can make up for an earlier one: fewer than [w] plus their
    number are unreturned (the instance has 2 unreturned messages and a window of 2). *)
Theorem channel_throttle (L : TransportLink) (LL : TransportLinkLaws L) n b s timed_out : 20 <= GetMaxBytesPerChunk -> reach n ->
  let c := ch (side n b) in let peer := side n (negb b) in
  0 < throttle_window_size_ c -> throttle_window_size_ c + msg_seq_id_ c < 2 ^ 64 -> waiting_finish_ (ch peer) = false -> 0 <= s ->
  ThrottleWindowWait s timed_out c = Ret tt ->
  (send_pc c = SendThrottled s -> (forall x, In x (got peer) -> fst (fst x) <= s) /\ Z.of_nat (unread peer s) < throttle_window_size_ c) /\
  Z.of_nat (unread peer s) < throttle_window_size_ c + Z.of_nat (got_past peer s).
Proof.
  intros M R c peer Hw Hs Wf H0 T. pose proof (reach_inv M n R) as I. pose proof (acks_got n b I Wf) as A. pose proof (acks_seq n b I) as B. fold c peer in A, B.
  assert (C0 : 0 <= Count (received_ack_ids_ c)) by (pose proof (proj2 (elements_ok _ (proj1 (i_acks _ _ (I b))))) as X; fold c in X; lia).
  assert (D : s < Count (received_ack_ids_ c) + throttle_window_size_ c).
  { unfold ThrottleWindowWait in T. destruct (Z.eqb_spec (throttle_window_size_ c) 0); [lia|].
    rewrite u64_small in T by lia. destruct (Z.leb_spec (Count (received_ack_ids_ c) + throttle_window_size_ c) s); [destruct (aborting_ c), timed_out; discriminate|lia]. }
  pose proof (unread_le (peer_of (side n (negb (negb b)))) peer s (net_peer_ok n _ I) (I (negb b)) H0) as U. split; [|lia].
  intros Pc. assert (G : forall x, In x (got peer) -> fst (fst x) <= s) by (intros x Hx; exact (got_submitted M n b s x R Pc Hx)). split; [exact G|].
  assert (P0 : got_past peer s = 0%nat); [|lia]. unfold got_past. destruct (List.filter _ (got peer)) as [|x l] eqn:E; [reflexivity|].
  assert (X : In x (List.filter (fun x => s <? fst (fst x)) (got peer))) by (rewrite E; now left). apply List.filter_In in X as [X Y]. specialize (G x X). lia.
Qed.

(** C32. When [WaitLinkTaskFinish] is over, nothing is lost: the peer is closing too, it
    has received every message sent to it and acked it, and every message the peer sent
    has arrived here. *)
Theorem channel_close (L : TransportLink) (LL : TransportLinkLaws L) n b : 20 <= GetMaxBytesPerChunk -> reach n -> close_pc (ch (side n b)) = Closed ->
  waiting_finish_ (ch (side n (negb b))) = true /\
  (forall s k v, nth_error (sent (side n b)) (Z.to_nat (s - 1)) = Some (k, v) -> 1 <= s ->
     elem s (received_msg_ids_ (ch (side n (negb b)))) /\ elem s (received_ack_ids_ (ch (side n b)))) /\
  (forall s k v, nth_error (sent (side n (negb b))) (Z.to_nat (s - 1)) = Some (k, v) -> 1 <= s -> elem s (received_msg_ids_ (ch (side n b)))).
Proof.
  intros M R E. pose proof (reach_inv M n R) as I. pose proof (I b) as Ib. pose proof (I (negb b)) as Ip. pose proof (i_close _ _ Ib) as C. unfold close_ok in C. rewrite E in C.
  destruct C as (W & (m & [Wp ->] & A) & K). split; [exact Wp|]. split.
  - intros s k v Hs H1. pose proof (node_sent_range _ _ s k v Ib (conj H1 Hs)) as Rg. specialize (K s Rg). split; [apply (proj2 (i_acks _ _ Ib) s K)|exact K].
  - intros s k v Hs H1. apply A. exact (node_sent_range _ _ s k v Ip (conj H1 Hs)).
Qed.

(** A run: two messages one way, one of them in chunks and repeated, and both close. *)
Definition demo : list event :=
  [ESend true [97] [5]; ESend true [98] (repeat 7 45); EThread true; EThread true; EThread true; EThread true;
   EDeliver false 1 1; EDeliver false 0 0; EDeliver false 1 2; EDeliver false 1 1; EDeliver false 1 0; EReady false; EDeliver false 0 0;
   ERecv false [98]; ERecv false [97]; EDeliver true 0 0; EDeliver true 1 0; EDeliver true 0 0].
Definition demo_close : list event :=
  [EClose true; EClose false; EDeliver false 2 0; EDeliver true 2 0; EClose true; EClose false; EClose true; EClose false;
   EThread true; EThread true; EThread true; EThread false; EThread false; EClose true; EClose false;
   EEnded true 0; EEnded true 1; EEnded true 2; EClose true; EClose true].
Definition net_start : Net := MkNet (Node_new 2) (Node_new 2).
Definition demo_net (l : list event) : Net := match @run toy_link net_start l with Some n => n | None => net_start end.

Lemma demo_reach l : @run toy_link net_start l <> None -> @reach toy_link (demo_net l).
Proof.
  intros H. unfold demo_net. destruct (run net_start l) as [n|] eqn:E; [|congruence]. apply (run_reach l net_start n); [constructor|exact E].
Qed.

Lemma channel_delivery_witness : let n := demo_net demo in @reach toy_link n /\ map (fun x => fst (fst x)) (got (side n false)) = [1; 2] /\
  NoDup (map (fun x => fst (fst x)) (got (side n false))).
Proof.
  assert (R : @reach toy_link (demo_net demo)) by (apply demo_reach; vm_compute; discriminate).
  split; [exact R|]. split; [vm_compute; reflexivity|]. apply (channel_delivery toy_link toy_link_laws (demo_net demo) false); [cbn; lia|exact R].
Defined.

(** Four messages without a window, of which the peer gets the last two, and a window
    of two from then on. *)
Definition skipping : list event :=
  [ESend true [97] [1]; ESend true [98] [2]; ESend true [99] [3]; ESend true [100] [4]] ++ repeat (EThread true) 8 ++
  [EDeliver false 2 0; EDeliver false 3 0; ERecv false [99]; ERecv false [100]; EDeliver true 0 0; EDeliver true 1 0].
Definition skipped_net : Net :=
  let n := match @run toy_link (MkNet (Node_new 0) (Node_new 0)) skipping with Some n => n | None => net_start end in
  upd_node n true (set_ch (set_throttle 2 (ch (side n true))) (side n true)).

Lemma skipped_reach : @reach toy_link skipped_net.
Proof.
  unfold skipped_net. destruct (run (MkNet (Node_new 0) (Node_new 0)) skipping) as [n|] eqn:E; [|vm_compute in E; discriminate E].
  apply (reach_step n); [apply (run_reach skipping (MkNet (Node_new 0) (Node_new 0))); [constructor|exact E]|]. constructor. constructor.
Qed.

Lemma channel_throttle_witness :
  (let n := demo_net (firstn 16 demo) in @reach toy_link n /\ send_pc (ch (side n true)) = SendThrottled 2 /\
   ThrottleWindowWait 2 false (ch (side n true)) = Ret tt /\ Z.of_nat (unread (side n false) 2) < 2) /\
  (let n := skipped_net in @reach toy_link n /\ ThrottleWindowWait 3 false (ch (side n true)) = Ret tt /\
   throttle_window_size_ (ch (side n true)) = 2 /\ unread (side n false) 3 = 2%nat /\ got_past (side n false) 3 = 1%nat /\ Z.of_nat (unread (side n false) 3) < 2 + 1).
Proof.
  split.
  - assert (R : @reach toy_link (demo_net (firstn 16 demo))) by (apply demo_reach; vm_compute; discriminate).
    assert (P : send_pc (ch (side (demo_net (firstn 16 demo)) true)) = SendThrottled 2) by (vm_compute; reflexivity).
    assert (T : ThrottleWindowWait 2 false (ch (side (demo_net (firstn 16 demo)) true)) = Ret tt) by (vm_compute; reflexivity).
    assert (W : throttle_window_size_ (ch (side (demo_net (firstn 16 demo)) true)) = 2) by (vm_compute; reflexivity).
    split; [exact R|]. split; [exact P|]. split; [exact T|]. rewrite <- W at 2.
    destruct (channel_throttle toy_link toy_link_laws (demo_net (firstn 16 demo)) true 2 false) as [B _];
      [cbn; lia|exact R|rewrite W; lia|rewrite W; vm_compute; reflexivity|vm_compute; reflexivity|lia|exact T|exact (proj2 (B P))].
  - pose proof skipped_reach as R. assert (T : ThrottleWindowWait 3 false (ch (side skipped_net true)) = Ret tt) by (vm_compute; reflexivity).
    assert (W : throttle_window_size_ (ch (side skipped_net true)) = 2) by (vm_compute; reflexivity). assert (G : got_past (side skipped_net false) 3 = 1%nat) by (vm_compute; reflexivity).
    split; [exact R|]. split; [exact T|]. split; [exact W|]. split; [vm_compute; reflexivity|]. split; [exact G|]. change 1 with (Z.of_nat 1). rewrite <- W, <- G.
    destruct (channel_throttle toy_link toy_link_laws skipped_net true 3 false) as [_ B];
      [cbn; lia|exact R|rewrite W; lia|rewrite W; vm_compute; reflexivity|vm_compute; reflexivity|lia|exact T|exact B].
Defined.

Lemma channel_close_witness : let n := demo_net (demo ++ demo_close) in @reach toy_link n /\ close_pc (ch (side n true)) = Closed /\
  elem 2 (received_msg_ids_ (ch (side n false))).
Proof.
  assert (R : @reach toy_link (demo_net (demo ++ demo_close))) by (apply demo_reach; vm_compute; discriminate).
  assert (E : close_pc (ch (side (demo_net (demo ++ demo_close)) true)) = Closed) by (vm_compute; reflexivity).
  split; [exact R|]. split; [exact E|]. destruct (channel_close toy_link toy_link_laws _ true ltac:(cbn; lia) R E) as (_ & A & _).
  apply (A 2 [98] (repeat 7 45)); [vm_compute; reflexivity|lia].
Defined.
