(* ===== verification/PartiesCorrect.v ===== *)
(** The properties of the contexts' collective operations and of the two-party
    computation over them; witnesses run three parties, and two parties over a toy
    kernel that gives correlated transfers of blocks 0. *)
From Stdlib Require Import ZArith Lia List Bool.
From S2P Require Import Prelude.
From S2P Require Import Cipher.
From S2P Require Import OtExt.
From S2P Require Import OtStore.
From S2P Require Import Parties.
From S2P Require Import Context.
From S2P Require Import Collectives.
From S2P Require Import Duo.
From S2P Require Import OtKernel.
From S2P Require Import SsExecutor.
From S2P Require Import ChosenOt.
From S2P Require Import Shares.
From S2P Require Import MpcProgram.
Import ListNotations.
#[local] Open Scope Z_scope.

(** ** Examples *)

Definition abc : list (list Z) := [[97]; [98]; [99]].
Definition member_of (ids : list (list Z)) (i : nat) : Context := MkContext [103] ids (Z.of_nat i) 0 gmap.gmap_empty 0 Statistics_new false.
Lemma member_of_ok ids i : (i < length ids)%nat -> member [103] ids 0 i (member_of ids i).
Proof. repeat split. Qed.

Lemma gives_impl {A} (ps : list (prog A)) (Q R : nat -> A -> Prop) : (forall i a, Q i a -> R i a) -> gives ps Q -> gives ps R.
Proof.
  intros QR (total & H). exists total. intros k st S. destruct (H k st S) as (L & P & E). split; [exact L|]. split; [exact P|]. intros Ek. destruct (E Ek) as (res & F & Lr & Hr). exists res. split; [exact F|]. split; [exact Lr|]. intros i a Ha. apply QR, Hr, Ha.
Qed.

(** A kernel that converses without messages. *)
Definition toy_kernel : CotKernel := {|
  kernel := unit;
  kernel_init _ ctx := Done (tt, ctx);
  eval_cot_send _ ctx num := Done (repeat 0 (Z.to_nat num), 1, ctx);
  eval_cot_recv _ ctx num := Done (repeat 0 (Z.to_nat num), ctx) |}.
Lemma toy_result num : 0 < num -> cot_result num (repeat 0 (Z.to_nat num)) 1 (repeat 0 (Z.to_nat num)).
Proof.
  intros H. unfold cot_result. rewrite !repeat_length, !Z2Nat.id by lia. split; [reflexivity|]. split; [reflexivity|]. split; [lia|]. unfold correlated.
  induction (Z.to_nat num) as [|n IH]; constructor; [reflexivity|exact IH].
Qed.
Lemma toy_kernel_laws : CotKernelLaws toy_kernel.
Proof.
  intros num Hn. split; intros id ctx0 ctx1 S0 S1; exists (Traffic 0 0 0), tt, tt, ctx0, ctx1; (split; [apply conv_done|]); exists (Traffic 0 0 0), (repeat 0 (Z.to_nat num)), 1, (repeat 0 (Z.to_nat num)), ctx0, ctx1; (split; [apply conv_done|]); (split; [exact S0|]); (split; [exact S1|]);
    (split; [unfold w_ok, w_add; cbn; lia|apply toy_result; unfold kMinOts in Hn; lia]).
Qed.

Definition party_of (i : nat) : Context := MkContext [103] [[97]; [98]] (Z.of_nat i) 0 gmap.gmap_empty 0 Statistics_new false.
Lemma party_of_stands i : stands [103] (Traffic 0 0 0) (Z.of_nat i) (party_of i).
Proof. repeat split. Qed.

(** ** Contexts *)

(** C33. The collective operations: when every party of a context calls the same one,
    then in whatever order the messages travel every run ends, without an exception or
    a wait that does not end, and leaves the parties' counters equal again.
    [AllGather] gives everyone the inputs by rank; [Gather] gives them to the root and
    nothing to the others; [Scatter] gives party [i] the root's entry [i]; and
    [Broadcast], down a binomial tree, gives everyone the root's input. *)
Theorem collectives_correct id ids c ctxs (x : nat -> list Z) (y : nat -> list (list Z)) root :
  Z.of_nat (length ids) <= 2 ^ 63 -> (forall i, (i < length ids)%nat -> member id ids c i (ctxs i)) -> (root < length ids)%nat -> length (y root) = length ids ->
  let everyone := seq 0 (length ids) in let after := member id ids (u64 (c + 1)) in
  gives (map (fun i => AllGather (x i) (ctxs i)) everyone) (fun i r => fst r = map x everyone /\ after i (snd r)) /\
  gives (map (fun i => Gather (x i) (Z.of_nat root) (ctxs i)) everyone) (fun i r => fst r = (if (i =? root)%nat then map x everyone else []) /\ after i (snd r)) /\
  gives (map (fun i => Scatter (y i) (Z.of_nat root) (ctxs i)) everyone) (fun i r => fst r = nth i (y root) [] /\ after i (snd r)) /\
  gives (map (fun i => Broadcast (x i) (Z.of_nat root) (ctxs i)) everyone) (fun i r => fst r = x root /\ after i (snd r)).
Proof.
  intros Hs M Hr Hy. cbv zeta. split; [exact (all_gather_gives _ _ _ _ M x)|]. split; [exact (gather_gives _ _ _ _ M x root Hr)|]. split; [exact (scatter_gives _ _ _ _ M y root Hr Hy)|]. exact (broadcast_gives _ _ _ _ Hs M x root Hr).
Qed.

Lemma collectives_correct_witness :
  gives [AllGather [7] (member_of abc 0); AllGather [8] (member_of abc 1); AllGather [9] (member_of abc 2)] (fun _ r => fst r = [[7]; [8]; [9]]) /\
  gives [Broadcast [7] 2 (member_of abc 0); Broadcast [8] 2 (member_of abc 1); Broadcast [9] 2 (member_of abc 2)] (fun _ r => fst r = [9]).
Proof.
  destruct (collectives_correct [103] abc 0 (member_of abc) (fun i => [7 + Z.of_nat i]) (fun _ => abc) 2 ltac:(cbn; lia) (fun i H => member_of_ok abc i H) ltac:(cbn; lia) eq_refl) as (A & _ & _ & B).
  split; [exact (gives_impl _ _ _ (fun i r H => proj1 H) A)|exact (gives_impl _ _ _ (fun i r H => proj1 H) B)].
Defined.

(** C34. The barrier is one: every run of the parties' calls of [Barrier] ends, and no
    party comes out of its call before every other party has begun its own. *)
Theorem barrier_correct id ids c ctxs :
  Z.of_nat (length ids) <= 2 ^ 63 -> (forall i, (i < length ids)%nat -> member id ids c i (ctxs i)) -> (2 <= length ids)%nat ->
  let calls := map (fun i => Barrier (ctxs i)) (seq 0 (length ids)) in
  gives calls (member id ids (u64 (c + 1))) /\
  forall k st j ctx, steps k (start calls) st -> nth_error (progs st) j = Some (Done ctx) -> forall i, (i < length ids)%nat -> nth_error (progs st) i <> Some (Barrier (ctxs i)).
Proof.
  intros Hs M Hn. cbv zeta. split; [exact (barrier_gives _ _ _ _ Hs M)|]. intros k st j ctx S E. exact (barrier_safe _ _ _ _ Hs M k st j ctx Hn S E).
Qed.

Lemma barrier_correct_witness :
  gives [Barrier (member_of abc 0); Barrier (member_of abc 1); Barrier (member_of abc 2)] (member [103] abc 1).
Proof.
  destruct (barrier_correct [103] abc 0 (member_of abc) ltac:(cbn; lia) (fun i H => member_of_ok abc i H) ltac:(cbn; lia)) as (A & _). exact A.
Defined.

(** ** Two parties *)

(** C35. Transfers of chosen messages: given the law of the kernel, [RunChosenOT] of the two
    executors, whoever sends and for any number of transfers below 2^31, ends in every
    run; the receiver gets, of every pair, the word its choice bit names. *)
Theorem chosen_ot_correct {C : Cipher} {L : CipherLaws C} {K : CotKernel} {KL : CotKernelLaws K} id w ex0 ex1 num msgs choices :
  stands id w 0 (lctx_ ex0) -> stands id w 1 (lctx_ ex1) -> w_ok w -> w_ok (w_add w 0 0 1) -> 0 < num < 2 ^ 31 ->
  Z.of_nat (length msgs) = num -> Z.of_nat (length choices) = num -> Forall (fun m => word (fst m) /\ word (snd m)) msgs ->
  let chosen := map (fun i => if nth i choices false then snd (nth i msgs (0, 0)) else fst (nth i msgs (0, 0))) (seq 0 (length msgs)) in
  gives [RunChosenOT true num msgs [] ex0; RunChosenOT false num [] choices ex1] (fun i r => fst r = if (i =? 1)%nat then chosen else []) /\
  gives [RunChosenOT false num [] choices ex0; RunChosenOT true num msgs [] ex1] (fun i r => fst r = if (i =? 0)%nat then chosen else []).
Proof.
  intros S0 S1 W W' Hn Lm Lc F. cbv zeta. split.
  - destruct (chosen_ot_0 id w ex0 ex1 num msgs choices S0 S1 W W' Hn Lm Lc F) as (c0 & c1 & Cv & _). exact (conv_gives _ _ _ _ _ _ _ _ Cv eq_refl eq_refl).
  - destruct (chosen_ot_1 id w ex0 ex1 num msgs choices S0 S1 W W' Hn Lm Lc F) as (c0 & c1 & Cv & _). exact (conv_gives _ _ _ _ _ _ _ _ Cv eq_refl eq_refl).
Qed.

Definition executor_of (i : nat) : SSExecutor := MkExecutor (Z.of_nat i) (party_of i) 0 [] [] (fun k => Z.of_nat k) 0.

Lemma chosen_ot_correct_witness :
  gives [RunChosenOT (C := toy_cipher) (K := toy_kernel) true 2 [(1, 2); (3, 4)] [] (executor_of 0); RunChosenOT (C := toy_cipher) (K := toy_kernel) false 2 [] [true; false] (executor_of 1)]
    (fun i r => fst r = if (i =? 1)%nat then [2; 3] else []).
Proof.
  destruct (chosen_ot_correct (C := toy_cipher) (L := toy_laws) (K := toy_kernel) (KL := toy_kernel_laws) [103] (Traffic 0 0 0) (executor_of 0) (executor_of 1) 2 [(1, 2); (3, 4)] [true; false]
    (party_of_stands 0) (party_of_stands 1) ltac:(unfold w_ok; cbn; lia) ltac:(unfold w_ok, w_add; cbn; lia) ltac:(lia) eq_refl eq_refl) as [H _]; [repeat constructor; cbn; lia|exact H].
Defined.



