(* ===== verification/FerretCorrect.v ===== *)
(** The properties of the single-point transfers, the local linear code, the Ferret
    extension and the kernel that uses it; the witnesses take base transfers of a few
    blocks. *)
From Stdlib Require Import ZArith Lia List Bool.
From S2P Require Import Prelude.
From S2P Require Import Errors.
From S2P Require Import Int128.
From S2P Require Import CrHash.
From S2P Require Import Transpose.
From S2P Require Import Cipher.
From S2P Require Import Gf.
From S2P Require Import OtStore.
From S2P Require Import OtExt.
From S2P Require Import Parties.
From S2P Require Import Collectives.
From S2P Require Import Context.
From S2P Require Import Duo.
From S2P Require Import OtKernel.
From S2P Require Import SsExecutor.
From S2P Require Import ChosenOt.
From S2P Require Import Gywz.
From S2P Require Import Roles.
From S2P Require Import LinearCode.
From S2P Require Import MpCot.
From S2P Require Import Ferret.
From S2P Require Import FerretKernel.
Import ListNotations.
#[local] Open Scope Z_scope.

(** Two programs, [p] at rank 1 when [r] holds and at rank 0 otherwise, [q] at the other:
    they end with [a] and [b], in whatever order the messages travel. *)
Definition meets {A B} (r : bool) (p : prog A) (q : prog B) (a : A) (b : B) : Prop :=
  let first := bind p (fun x => Done (inl x)) in
  let second := bind q (fun x => Done (inr x)) in
  gives (if r then [second; first] else [first; second]) (fun i x => x = if Bool.eqb (i =? 1)%nat r then inl a else inr b).

Lemma duo_meets {A B} r id w w' (p : prog A) (q : prog B) a b : w_ok w -> w_ok w' -> duo r id w p q w' a b -> meets r p q a b.
Proof.
  intros K K' D. pose proof (duo_bind r id w w' w' p q (fun x => Done (inl x)) (fun x => Done (inr x)) a b (inl a : A + B) (inr b : A + B) K K' K' D (duo_done r id w' _ _)) as D'.
  unfold meets, duo in *. destruct r; exact (conv_gives _ _ _ _ _ _ _ _ D' eq_refl eq_refl).
Qed.

(** ** Examples *)

#[local] Existing Instance toy_cipher.
#[local] Existing Instance toy_laws.
Definition toy_codec : Codec := {| pack128 x := to_bytes [x]; unpack128 b := Some (at_ (to_blocks 1 b) 0); Blake3 _ := [] |}.
Lemma toy_codec_laws : CodecLaws toy_codec.
Proof. split. intros x Hx. cbn [unpack128 pack128 toy_codec]. change 1%nat with (length [x]). rewrite to_blocks_bytes; [reflexivity|]. now constructor. Qed.
#[local] Existing Instance toy_codec.
#[local] Existing Instance toy_codec_laws.

Definition pair_context (i : nat) : Context := MkContext [103] [[97]; [98]] (Z.of_nat i) 0 gmap.gmap_empty 0 Statistics_new false.
Lemma pair_context_stands : both_stand false [103] (Traffic 0 0 0) (pair_context 0) (pair_context 1).
Proof. repeat split. Qed.

(** Transfers of blocks 0 with difference 5. *)
Definition zeros (n : nat) : list Z := repeat 0 n.
Definition fives (n : nat) : list Z := map (fun i => if Nat.odd i then 5 else 0) (seq 0 n).
Lemma zeros_fives n : cor_upto 5 (length (zeros n)) (zeros n) (fives n).
Proof.
  intros i Hi. unfold zeros in *. rewrite repeat_length in Hi. unfold fives. rewrite at_map_seq by exact Hi. unfold at_. rewrite nth_repeat. unfold cor. now destruct (Nat.odd i).
Qed.
Lemma sample_pair n : (0 < n < 100)%nat -> exists s hs r hr, MakeCompactOtSendStore (Heap [] []) (zeros n) 5 = Some (s, hs) /\ MakeCompactOtRecvStore (Heap [] []) (fives n) = Some (r, hr) /\
  pair_at hs s hr r 0 n 5 (zeros n) (fives n).
Proof.
  intros Hn. assert (L : length (zeros n) = n) by apply repeat_length. destruct (make_pair (Heap [] []) (Heap [] []) (zeros n) (fives n) 5) as (s & hs & r & hr & E1 & E2 & P & _ & _).
  - unfold fives. now rewrite L, length_map, length_seq.
  - lia.
  - rewrite L. lia.
  - lia.
  - apply zeros_fives.
  - rewrite L in P. now exists s, hs, r, hr.
Qed.

(** ** Single points *)

(** C37. Single-point transfers.  Given as many correlated transfers as the tree of n
    leaves has levels, at most 31, outputs with room for the last level of the tree,
    2 ^ height blocks, and whichever party has rank 0, the two calls end in every order
    of the messages: the sender holds the n leaves of its tree and the receiver the same
    blocks, except that its block at the index is the sender's xor the difference.  With
    [GywzOtExtRecv] the index is the receiver's argument; with the variant for Ferret,
    over compact transfers of an odd difference, and with a fixed index it is the number
    whose bits are the choices, which may be past the last leaf; for Ferret the sender's
    blocks are even, so that the receiver's are odd at the index alone.  Outputs with
    room for the n leaves only, when n is not a power of two, are not enough, though the
    evaluations ask for no more and keep the last right half apart: both of them make a
    span of the seeds past its end before they turn to it, and are undefined. *)
Theorem gywz_correct {C : Cipher} {L : CipherLaws C} r id hs s hr rv n height delta m0 c seed out out' w ctx0 ctx1 :
  (2 <= n)%nat -> Log2Ceil (Z.of_nat n) = Some (Z.of_nat height) -> (height < 32)%nat -> cots hs s hr rv height delta m0 c ->
  both_stand r id w ctx0 ctx1 -> w_ok w -> w_ok (said r w 1 1 0) -> (2 ^ height <= length out)%nat -> (2 ^ height <= length out')%nat ->
  (forall index, (index < n)%nat -> exists t t' c0 c1,
    meets r (GywzOtExtSend hs s n seed out ctx0) (GywzOtExtRecv hr rv n (Z.of_nat index) out' ctx1) (t, c0) (t', c1) /\ punctured_at n delta index t t') /\
  (s_type s = Compact -> r_type rv = Compact -> Z.odd delta = true -> exists t t' c0 c1,
    meets r (GywzOtExtSend_ferret hs s n seed out ctx0) (GywzOtExtRecv_ferret hr rv n out' ctx1) (t, c0) (t', c1) /\ punctured_at n delta (index_of c height) t t' /\
    forall i, (i < n)%nat -> Z.odd (at_ t i) = false /\ Z.odd (at_ t' i) = (i =? index_of c height)%nat) /\
  (exists t t' c0 c1,
    meets r (GywzOtExtSend_fixed_index hs s n seed out ctx0) (GywzOtExtRecv_fixed_index hr rv n out' ctx1) (t, c0) (t', c1) /\ punctured_at n delta (index_of c height) t t') /\
  (forall short one d sd index sums, (n <= length short < 2 ^ height)%nat -> length sums = height ->
    CggmFullEval d sd n short (repeat 0 height) one = None /\ CggmPuncFullEval index sums n short one = None).
Proof.
  intros H2 Hh H32 Hc S K K2 Ho Ho'. destruct (Log2Ceil_ok n H2) as (h & Eh & Hp & Hn). rewrite Hh in Eh. injection Eh as Eh. apply Nat2Z.inj in Eh. subst h.
  assert (K1 : w_ok (said r w 1 0 0)) by (apply (said_between r w 1 1 0); lia || assumption). split; [|split; [|split]].
  - intros index Hi. destruct (gywz_talk hs s hr rv n height delta m0 c Hh (conj Hp H32) Hn Hc r id w ctx0 ctx1 index seed out out' S K K2 Hi Ho Ho') as (t & t' & c0 & c1 & D & _ & _ & _ & P).
    exists t, t', c0, c1. split; [exact (duo_meets _ _ _ _ _ _ _ _ K K2 D)|exact P].
  - intros Ts Tr Od. destruct (gywz_ferret_talk hs s hr rv n height delta m0 c Hh (conj Hp H32) Hn Hc r id w ctx0 ctx1 seed out out' S K K1 Ts Tr Od Ho Ho') as (t & t' & c0 & c1 & D & _ & _ & _ & P & E).
    exists t, t', c0, c1. split; [exact (duo_meets _ _ _ _ _ _ _ _ K K1 D)|]. split; [exact P|]. intros i Hi. destruct (E i Hi) as [Ev _]. split; [exact Ev|]. rewrite (P i Hi). destruct (i =? _)%nat; [now rewrite odd_lxor, Ev, Od|exact Ev].
  - destruct (gywz_fixed_index_talk hs s hr rv n height delta m0 c Hh (conj Hp H32) Hn Hc r id w ctx0 ctx1 seed out out' S K K1 Ho Ho') as (t & t' & c0 & c1 & D & _ & _ & _ & P).
    exists t, t', c0, c1. split; [exact (duo_meets _ _ _ _ _ _ _ _ K K1 D)|exact P].
  - intros short one d sd index sums Hl Ls. split; [apply (short_eval n height)|apply (short_punc n height)]; (assumption || lia).
Qed.

Lemma gywz_correct_witness : exists s hs r hr, MakeCompactOtSendStore (Heap [] []) (zeros 2) 5 = Some (s, hs) /\ MakeCompactOtRecvStore (Heap [] []) (fives 2) = Some (r, hr) /\
  exists t t' c0 c1, meets false (GywzOtExtSend hs s 3 77 (zeros 4) (pair_context 0)) (GywzOtExtRecv hr r 3 1 (zeros 4) (pair_context 1)) (t, c0) (t', c1) /\
    at_ t' 0 = at_ t 0 /\ at_ t' 1 = Z.lxor (at_ t 1) 5 /\ at_ t' 2 = at_ t 2 /\
    CggmFullEval 5 77 3 (zeros 3) (repeat 0 2) all_ones = None /\ CggmPuncFullEval 1 [8; 9] 3 (zeros 3) all_ones = None.
Proof.
  destruct (sample_pair 2 ltac:(lia)) as (s & hs & r & hr & E1 & E2 & P). exists s, hs, r, hr. split; [exact E1|]. split; [exact E2|].
  destruct (gywz_correct false [103] hs s hr r 3 2 5 _ _ 77 (zeros 4) (zeros 4) (Traffic 0 0 0) (pair_context 0) (pair_context 1) ltac:(lia) eq_refl ltac:(lia) (pair_cots _ _ _ _ _ _ _ _ _ P)
    pair_context_stands ltac:(unfold w_ok; cbn; lia) ltac:(unfold w_ok; cbn; lia) ltac:(cbn; lia) ltac:(cbn; lia)) as (G & _ & _ & U).
  destruct (G 1%nat ltac:(lia)) as (t & t' & c0 & c1 & M & V). exists t, t', c0, c1. split; [exact M|]. split; [|split; [|split]]; [rewrite V by lia; reflexivity..|]. exact (U (zeros 3) all_ones 5 77 1 [8; 9] ltac:(cbn; lia) eq_refl).
Defined.

(** ** The code *)

(** C38. Local linear codes.  For a dimension k between 1 and 2^31 - 1 the constructor
    returns, and there are d positions below k for every position of the codeword such
    that [Encode], for every message of length k and every output up to 2^32 - 1024,
    adds to each block of the output the blocks of the message at these positions,
    writes nothing else and reads nothing past the message; it is the exception for a
    message of another length.  [Encode2] on two outputs of any lengths encodes the two
    messages over the prefixes as long as the shorter of them and leaves the rest of the
    longer as it was.  At k = 2^31 the signed comparison fails: an index is 2^32 - 1. *)
Theorem linear_code_correct {C : Cipher} {L : CipherLaws C} d seed n k : 0 < k < 2 ^ 31 ->
  (exists llc rows, LocalLinearCode_new seed n k = Some llc /\ GetDimention llc = k /\
    (forall p, length (rows p) = d /\ Forall (fun i => (i < Z.to_nat k)%nat) (rows p)) /\
    (forall in_ out, Z.of_nat (length in_) = k -> Z.of_nat (length out) <= 2 ^ 32 - 1024 ->
      Encode d llc in_ out = Some (map (fun q => sum_of in_ (rows q) (at_ out q)) (seq 0 (length out)))) /\
    (forall in_ out, Z.of_nat (length in_) <> k -> Encode d llc in_ out = None) /\
    (forall in0 in1 out0 out1, Z.of_nat (length in0) = k -> Z.of_nat (length in1) = k ->
      let size := Nat.min (length out0) (length out1) in Z.of_nat size <= 2 ^ 32 - 1024 ->
      exists a b, Encode d llc in0 (firstn size out0) = Some a /\ Encode d llc in1 (firstn size out1) = Some b /\
        Encode2 d llc in0 out0 in1 out1 = Some (a ++ skipn size out0, b ++ skipn size out1))) /\
  (exists llc, LocalLinearCode_new 0 0 (2 ^ 31) = Some llc /\ lane32 (reduce_index llc 0xffffffff) 0 = 2 ^ 32 - 1).
Proof.
  intros Hk. split; [|eexists; split; [vm_compute; reflexivity|vm_compute; reflexivity]]. destruct (LocalLinearCode_encodes d seed n k Hk) as (llc & rows & E & Ec). exists llc, rows. pose proof Ec as (Ek & Hr & _).
  assert (G : forall in_ out, Z.of_nat (length in_) = k -> Z.of_nat (length out) <= 2 ^ 32 - 1024 ->
      Encode d llc in_ out = Some (map (fun q => sum_of in_ (rows q) (at_ out q)) (seq 0 (length out)))).
  { intros in_ out Hi Ho. destruct (Encode_ok d llc k rows Ec in_ out Hi ltac:(apply Z.leb_le; exact Ho)) as (o & -> & Lo & V). f_equal. apply (at_ext _ _ (length out)); [exact Lo|now rewrite length_map, length_seq|]. intros q Hq. rewrite V, at_map_seq by lia. reflexivity. }
  split; [exact E|]. split; [exact Ek|]. split; [exact Hr|]. split; [exact G|]. split.
  - intros in_ out Hi. unfold Encode, YACL_ENFORCE. rewrite Ek. now rewrite (proj2 (Z.eqb_neq _ _) Hi).
  - intros in0 in1 out0 out1 H0 H1 size Ho. destruct (Encode2_ok d llc k rows Ec in0 out0 in1 out1 H0 H1 (proj2 (Z.leb_le _ _) Ho)) as (a & b & E2 & La & Lb & Va & Vb).
    fold size in Va, Vb. rewrite !G by (try assumption; rewrite length_firstn; lia). rewrite !firstn_length_le by lia.
    do 2 eexists. split; [reflexivity|]. split; [reflexivity|]. rewrite E2.
    now rewrite (written_prefix size out0 a (fun q => sum_of in0 (rows q)) ltac:(lia) La Va), (written_prefix size out1 b (fun q => sum_of in1 (rows q)) ltac:(lia) Lb Vb) at 1.
Qed.

Lemma linear_code_correct_witness : exists llc, LocalLinearCode_new 7 20 10 = Some llc /\ Encode 3 llc (zeros 10) [1; 2] = Some [1; 2] /\ Encode 3 llc (zeros 9) [1; 2] = None.
Proof.
  destruct (linear_code_correct 3 7 20 10 ltac:(lia)) as [(llc & rows & E & _ & R & G & N & _) _]. exists llc. split; [exact E|]. split; [|apply N; discriminate].
  rewrite G by (cbn; lia). vm_compute in E. injection E as <-. assert (Z0 : forall l v, sum_of (zeros 10) l v = v).
  { intros l. induction l as [|i l IH]; intros v; [reflexivity|]. unfold sum_of in *. cbn [fold_left]. rewrite IH. unfold zeros, at_. rewrite nth_repeat. apply Z.lxor_0_r. }
  cbn [length seq map]. rewrite !Z0. reflexivity.
Defined.

(** ** The extension *)

(** C39. The Ferret extension.  Take parameters of regular noise with n = q * t, q = 2 ^ bl,
    k below 2^31 and n - k - bl * t = B > 0, as the default ones (q = 8192, bl = 13,
    B = 10017120), and base transfers, compact, whole, of an odd difference, at least
    k + bl * t of them, which is what [FerretCotHelper] gives.  The number of transfers
    is below 2^48, and the counters of the context, below 2^31, have room for one message
    and t more for each batch.  When the last bin of the last batch has a power of two of
    positions, the calls of sender and receiver, without the malicious check, end in
    every order of the messages, whichever party has rank 0: they expand batch after
    batch, and end with compact transfers of the same difference, where the last bit of
    the receiver's block is its choice.  [FerretOtExtSend] and [FerretOtExtRecv], and the
    variants that fill given stores, do so from 2 * t transfers on, and throw at once for
    fewer; the variants for Cheetah, which write spans, for any number.  When a single
    bin is left and is no power of two, the sender's tree has no room in it, and its
    evaluation is undefined after the seed is sent. *)
Theorem ferret_correct {C : Cipher} {L : CipherLaws C} {Cd : Codec} {CL : CodecLaws Cd} r id seeds check_seeds lpn q bl B ot_num delta hs s hr rv N bs br sync_seed w ctx0 ctx1 :
  lpn_fits lpn q bl B -> 0 < ot_num < 2 ^ 48 -> Z.odd delta = true -> pair_at hs s hr rv 0 N delta bs br -> lpn_k lpn + bl * lpn_t lpn <= Z.of_nat N -> in128 sync_seed ->
  w_ok w -> w_ok (said r w (1 + (ot_num + B - 1) / B * lpn_t lpn) 0 0) -> both_stand r id w ctx0 ctx1 ->
  let last_fits := power_of_two (last_bin q (ferret_tail lpn B ot_num)) = true in
  FerretCotHelper lpn ot_num false = Some (lpn_k lpn + bl * lpn_t lpn) /\ lpn_fits LpnParam_GetDefault 8192 13 10017120 /\
  (last_fits -> 2 * lpn_t lpn <= ot_num -> forall uninit uninit', exists st st' h1 h1' c0 c1 o o',
    meets r (FerretOtExtSend seeds check_seeds lpn ot_num false hs s sync_seed uninit ctx0) (FerretOtExtRecv lpn ot_num false hr rv uninit' ctx1) (st, h1, c0) (st', h1', c1) /\
    pair_at h1 st h1' st' 0 (Z.to_nat ot_num) delta o o') /\
  (last_fits -> 2 * lpn_t lpn <= ot_num -> forall p p' b' buf buf' d0, get_vector hs p = Some buf -> get_vector hr p' = Some buf' -> Z.of_nat (length buf) = ot_num -> Z.of_nat (length buf') = ot_num ->
    let sl := Slice_ 0 ot_num 0 ot_num in exists h1 h1' c0 c1 o o',
    meets r (FerretOtExtSend_to seeds check_seeds lpn ot_num false hs s (SendStore sl Compact d0 p) sync_seed ctx0) (FerretOtExtRecv_to lpn ot_num false hr rv (RecvStore sl Compact b' p') ctx1)
      (SendStore sl Compact delta p, h1, c0) (RecvStore sl Compact b' p', h1', c1) /\
    pair_at h1 (SendStore sl Compact delta p) h1' (RecvStore sl Compact b' p') 0 (Z.to_nat ot_num) delta o o') /\
  (last_fits -> forall out out', Z.of_nat (length out) = ot_num -> Z.of_nat (length out') = ot_num -> exists o o' h1 h1' c0 c1,
    meets r (FerretOtExtSend_cheetah seeds check_seeds lpn ot_num false hs s sync_seed out ctx0) (FerretOtExtRecv_cheetah lpn ot_num false hr rv out' ctx1) (o, h1, c0) (o', h1', c1) /\
    Z.of_nat (length o) = ot_num /\ Z.of_nat (length o') = ot_num /\ forall i, (i < Z.to_nat ot_num)%nat -> at_ o' i = if Z.odd (at_ o' i) then Z.lxor (at_ o i) delta else at_ o i) /\
  (ot_num < 2 * lpn_t lpn ->
    (forall uninit uninit', FerretOtExtSend seeds check_seeds lpn ot_num false hs s sync_seed uninit ctx0 = Fail /\ FerretOtExtRecv lpn ot_num false hr rv uninit' ctx1 = Fail) /\
    forall out out', FerretOtExtSend_to seeds check_seeds lpn ot_num false hs s out sync_seed ctx0 = Fail /\ FerretOtExtRecv_to lpn ot_num false hr rv out' ctx1 = Fail) /\
  (2 * lpn_t lpn <= ot_num <= q -> power_of_two ot_num = false -> forall uninit, stops (FerretOtExtSend seeds check_seeds lpn ot_num false hs s sync_seed uninit ctx0)).
Proof.
  intros F Hn Od P HN Hs K Km S last_fits. assert (Kk : forall k, 0 <= k <= 1 + (ot_num + B - 1) / B * lpn_t lpn -> w_ok (said r w k 0 0)) by (intros k Hk; apply (said_between r w (1 + (ot_num + B - 1) / B * lpn_t lpn) 0 0); lia || assumption).
  split; [now apply (FerretCotHelper_ok lpn q bl B)|]. split; [exact default_fits|]. split; [|split; [|split; [|split]]].
  - intros Hl Hot u u'. destruct (ferret_talk r id seeds check_seeds lpn q bl B ot_num delta F Hn Od hs s hr rv N bs br P HN sync_seed w Hs K Km Hl ctx0 ctx1 u u' S Hot) as (k & st & st' & h1 & h1' & c0 & c1 & o & o' & D & Hk & _ & P2 & _).
    exists st, st', h1, h1', c0, c1, o, o'. split; [|exact P2]. exact (duo_meets _ _ _ _ _ _ _ _ K (Kk k Hk) D).
  - intros Hl Hot p p' b' buf buf' d0 G G' Lb Lb' sl. destruct (ferret_to_talk r id seeds check_seeds lpn q bl B ot_num delta F Hn Od hs s hr rv N bs br P HN sync_seed w Hs K Km Hl ctx0 ctx1 p p' b' buf buf' d0 S Hot G G' Lb Lb') as (k & h1 & h1' & c0 & c1 & o & o' & D & Hk & _ & P2).
    exists h1, h1', c0, c1, o, o'. split; [|exact P2]. exact (duo_meets _ _ _ _ _ _ _ _ K (Kk k Hk) D).
  - intros Hl out out' Lo Lo'. destruct (ferret_cheetah_talk r id seeds check_seeds lpn q bl B ot_num delta F Hn Od hs s hr rv N bs br P HN sync_seed w Hs K Km Hl ctx0 ctx1 out out' S Lo Lo') as (k & o & o' & h1 & h1' & c0 & c1 & D & Hk & _ & L1 & L2 & Co).
    exists o, o', h1, h1', c0, c1. split; [exact (duo_meets _ _ _ _ _ _ _ _ K (Kk k Hk) D)|]. split; [exact L1|]. split; [exact L2|exact Co].
  - exact (ferret_few r id seeds check_seeds lpn q bl B ot_num delta F hs s hr rv N bs br P HN sync_seed w ctx0 ctx1 S).
  - intros Hot Hp u. exact (ferret_stops r id seeds check_seeds lpn q bl B ot_num delta F Hn hs s hr rv N bs br P HN sync_seed w K Km ctx0 ctx1 u S Hot Hp).
Qed.

(** Four bins of eight positions, a message of ten. *)
Definition small_lpn : LpnParam := MkLpnParam 32 10 4 RegularNoise.
Lemma small_fits : lpn_fits small_lpn 8 3 10.
Proof. split; try reflexivity; cbn; lia. Qed.

Lemma ferret_correct_witness : exists s hs r hr, MakeCompactOtSendStore (Heap [] []) (zeros 22) 5 = Some (s, hs) /\ MakeCompactOtRecvStore (Heap [] []) (fives 22) = Some (r, hr) /\
  exists st st' h1 h1' c0 c1 o o', meets false (FerretOtExtSend (fun i j => Z.of_nat (i + j)) (fun _ => 1) small_lpn 52 false hs s 9 (fun _ => 3) (pair_context 0)) (FerretOtExtRecv small_lpn 52 false hr r (fun _ => 4) (pair_context 1)) (st, h1, c0) (st', h1', c1) /\
    pair_at h1 st h1' st' 0 52 5 o o'.
Proof.
  destruct (sample_pair 22 ltac:(lia)) as (s & hs & r & hr & E1 & E2 & P). exists s, hs, r, hr. split; [exact E1|]. split; [exact E2|].
  destruct (ferret_correct false [103] (fun i j => Z.of_nat (i + j)) (fun _ => 1) small_lpn 8 3 10 52 5 hs s hr r 22 _ _ 9 (Traffic 0 0 0) (pair_context 0) (pair_context 1) small_fits ltac:(lia) eq_refl P ltac:(cbn; lia) ltac:(split; [lia|reflexivity])
    ltac:(unfold w_ok; cbn; lia) ltac:(vm_compute; intuition congruence) pair_context_stands) as (_ & _ & G & _). exact (G eq_refl ltac:(cbn; lia) (fun _ => 3) (fun _ => 4)).
Defined.

(** ** The kernel *)

(** C40. The kernel with Ferret is a kernel for the executors: over a kernel that makes
    correlated transfers of an odd difference for either rank, SoftSpoken in the code,
    [init] takes the 468640 transfers the default parameters ask for, and
    [eval_cot_random_choice] expands them, for any number from 2560 to 2^31 - 1 that
    leaves a power of two in the last bin of 8192: two vectors of that many blocks with
    one nonzero difference, in every order of the messages.  So the executors' chosen
    transfers over it are correct, whoever sends, when the number they are padded to is
    such a number.  The least, 2560, to which the executors pad, is not: for the numbers
    up to 8192 that are no power of two the evaluation of the sender is undefined. *)
Theorem ferret_kernel_correct {C : Cipher} {L : CipherLaws C} {Cd : Codec} {CL : CodecLaws Cd} (B : CotKernel) {BL : BaseKernelLaws B} seeds check_seeds sync_seed uninit : in128 sync_seed ->
  let K := FerretKernel B seeds check_seeds sync_seed uninit in
  FerretCotHelper LpnParam_GetDefault (lpn_n LpnParam_GetDefault) false = Some 468640 /\
  (forall num, kernel_fits num -> CotKernelLawsAt K num) /\
  (forall id w ex0 ex1 num msgs choices,
    stands id w 0 (lctx_ ex0) -> stands id w 1 (lctx_ ex1) -> w_ok w -> w_ok (w_add w 0 0 1) -> 0 < num < 2 ^ 31 -> kernel_fits (Z.max num kMinOts) ->
    Z.of_nat (length msgs) = num -> Z.of_nat (length choices) = num -> Forall (fun m => word (fst m) /\ word (snd m)) msgs ->
    gives [RunChosenOT (K := K) true num msgs [] ex0; RunChosenOT (K := K) false num [] choices ex1] (fun i r => fst r = if (i =? 1)%nat then choose_msgs msgs choices else []) /\
    gives [RunChosenOT (K := K) false num [] choices ex0; RunChosenOT (K := K) true num msgs [] ex1] (fun i r => fst r = if (i =? 1)%nat then [] else choose_msgs msgs choices)) /\
  (forall r id ctx0 ctx1, both_stand r id (Traffic 0 0 0) ctx0 ctx1 ->
    exists w1 ks kr a0 a1, duo r id (Traffic 0 0 0) (kernel_init (CotKernel := K) true ctx0) (kernel_init (CotKernel := K) false ctx1) w1 (ks, a0) (kr, a1) /\
      forall num, kMinOts <= num <= 8192 -> power_of_two num = false -> stops (eval_cot_send (CotKernel := K) ks a0 num)).
Proof.
  intros Hs K. split; [reflexivity|]. pose proof (FerretKernel_laws B seeds check_seeds sync_seed uninit Hs) as KL. split; [exact KL|]. split; [|exact (ferret_kernel_stops B seeds check_seeds sync_seed uninit)].
  intros id w ex0 ex1 num msgs choices S0 S1 W W' Hn Hf Lm Lc F. split.
  - destruct (chosen_ot_at_0 id w ex0 ex1 num msgs choices (KL _ Hf) S0 S1 W W' Hn Lm Lc F) as (c0 & c1 & Cv & _). exact (conv_gives _ _ _ _ _ _ _ _ Cv eq_refl eq_refl).
  - destruct (chosen_ot_at_1 id w ex0 ex1 num msgs choices (KL _ Hf) S0 S1 W W' Hn Lm Lc F) as (c0 & c1 & Cv & _). exact (conv_gives _ _ _ _ _ _ _ _ Cv eq_refl eq_refl).
Qed.

(** A kernel that converses without messages. *)
Definition still_kernel : CotKernel := {|
  kernel := unit;
  kernel_init _ ctx := Done (tt, ctx);
  eval_cot_send _ ctx num := Done (repeat 0 (Z.to_nat num), 1, ctx);
  eval_cot_recv _ ctx num := Done (repeat 1 (Z.to_nat num), ctx) |}.
Lemma still_kernel_laws : BaseKernelLaws still_kernel.
Proof.
  intros r id ctx0 ctx1 num Hn S. exists (Traffic 0 0 0), tt, tt, ctx0, ctx1. split; [apply duo_done|]. exists (Traffic 0 0 0), (repeat 0 (Z.to_nat num)), 1, (repeat 1 (Z.to_nat num)), ctx0, ctx1.
  split; [apply duo_done|]. split; [exact S|]. split; [unfold w_ok, said, ferret_messages; destruct r; cbn; lia|]. split; [|reflexivity]. unfold kMinOts in Hn. apply cor_result; [rewrite repeat_length; lia|rewrite repeat_length; lia|lia|].
  intros i Hi. rewrite repeat_length in Hi. unfold at_, cor. rewrite (nth_indep (repeat 1 _) 0 1) by (now rewrite repeat_length). rewrite !nth_repeat. reflexivity.
Qed.

(** A number that fits; the one the executors pad to does not. *)
Definition many : nat := Z.to_nat 4096.

Lemma ferret_kernel_correct_witness : exists ex0 ex1, SSExecutor_new 0 (pair_context 0) (fun k => Z.of_nat k) = Some ex0 /\ SSExecutor_new 1 (pair_context 1) (fun k => Z.of_nat k) = Some ex1 /\
  let K := FerretKernel still_kernel (fun i j => Z.of_nat (i + j)) (fun _ => 1) 9 (fun _ => 3) in
  gives [RunChosenOT (K := K) true 4096 (repeat (1, 2) many) [] ex0; RunChosenOT (K := K) false 4096 [] (repeat true many) ex1] (fun i r => fst r = if (i =? 1)%nat then choose_msgs (repeat (1, 2) many) (repeat true many) else []) /\
  exists ks a, stops (eval_cot_send (CotKernel := K) ks a kMinOts).
Proof.
  eexists _, _. split; [reflexivity|]. split; [reflexivity|]. destruct (ferret_kernel_correct still_kernel (BL := still_kernel_laws) (fun i j => Z.of_nat (i + j)) (fun _ => 1) 9 (fun _ => 3) ltac:(split; [lia|reflexivity])) as (_ & _ & G & U).
  assert (Lm : forall A (x : A), Z.of_nat (length (repeat x many)) = 4096) by (intros A x; rewrite repeat_length; unfold many; apply Z2Nat.id; discriminate).
  split; [|destruct (U false [103] (pair_context 0) (pair_context 1) pair_context_stands) as (w1 & ks & kr & a0 & a1 & _ & N); exists ks, a0; exact (N kMinOts (conj (Z.le_refl _) (proj1 (Z.leb_le kMinOts 8192) eq_refl)) eq_refl)].
  eapply proj1, (G [103] (Traffic 0 0 0)); [repeat split|repeat split|unfold w_ok; cbn; lia|unfold w_ok, w_add; cbn; lia|lia|split; [unfold kMinOts; lia|reflexivity]|apply Lm|apply Lm|].
  apply List.Forall_forall. intros m Hm. apply repeat_spec in Hm as ->. unfold word. cbn. lia.
Defined.
